(* ===== verification/_CoqProject ===== *)
-Q . S2P
Prelude.v
GoStrings.v
Utf8.v
GoNet.v
Files.v
EngineLine.v
LineBuffer.v
Frame.v
EngineSession.v
EngineSessionSpec.v
EngineSessionThms.v
EngineServer.v
EngineServerInv.v
EngineBudget.v
EngineServerThms.v
LinkTags.v
LinkSession.v
LinkThms.v
CoreTypes.v
CoreEvent.v
CoreRoster.v
CoreModes.v
CoreEngine.v
CoreHistory.v
CoreBouncer.v
CoreCommand.v
CoreFrame.v
CoreInv.v
CoreThms.v
CoreGates.v
CoreInput.v
IrcTranslate.v
IrcSasl.v
IrcConn.v
IrcConnThms.v
PlugLua.v
PlugHost.v
PlugBind.v
PlugRun.v
PlugPrim.v
PlugHeap.v
PlugToy.v
PlugThms.v
PlugLive.v
PlugSafe.v
StoreDb.v
StoreQuery.v
Store.v
StoreInv.v
StoreThms.v
StoreSearch.v
WebProto.v
WebAuth.v
WebDto.v
WebServer.v
WebThms.v
WebGate.v
WebLimit.v
WebSample.v
ImgStrip.v
ImgBlocks.v
ImgFormats.v
ImgThms.v
ImgJpeg.v
ImgClean.v
Uploads.v
UploadThms.v
UploadProps.v
SafeHttp.v
Config.v
ConfigThms.v
BncParse.v
BncSession.v
BncServer.v
BncThms.v
Hub.v
HubThms.v
Archive.v
ArchiveThms.v
ArchiveTrip.v
