(* ===== verification/Prelude.v ===== *)
(** * stugan: a verification development

    stugan is an always-on IRC client: a web server, a terminal client and an
    IRC bouncer share one account's state ([internal/core]); the connections to
    the IRC networks are held by a separate process, the engine
    ([internal/engine]), so that the application can be upgraded without
    leaving any channel.  The application reaches the engine over a local link
    ([internal/engineproto], [internal/enginelink]); a connection
    ([internal/irc]) turns its lines into events of the core; the core commits
    every event to its networks, hands it to the plugins ([internal/plugin]),
    writes messages to the history store ([internal/store]) and tells the
    clients: browsers through the web server ([internal/server],
    [internal/proto], [internal/auth]) and IRC clients through the bouncer
    ([internal/ircserver]).  A configuration ([internal/config]) says which
    accounts there are, and [cmd/stugan] builds the parts for each.  This library
    models those parts of the Go code under [src] and proves what makes them
    correct.

    ** How the code is modelled

    A Go string is a Rocq [string] of bytes, a rune a [Z]; a struct is a
    record with the source's fields in the source's order, a method a function
    from record to record named after it; a map is a [gmap], a pointer that is
    shared an id into a heap, a slice whose array is shared a header over a heap
    of arrays; [uint64] and [int64] arithmetic is wrapped wherever it can
    overflow; a [time.Time] is a count of nanoseconds.  What a method does
    besides assigning fields is recorded as data: frames or lines it queues,
    calls it makes, goroutines it starts (tasks).

    Where goroutines share state, one step of the model is one critical section
    of the mutex that guards it, and a theorem about all runs quantifies over
    every order of steps; what a goroutine still has to do after it unlocked is
    a task that may run at any later point.  Coarser steps: one call of the
    core ([CoreCommand.core_step]) and one job of the plugin goroutine
    ([PlugRun.host_step]) are one step each; a line from a network is two, its
    handlers and the end of the handlers ([IrcConn.irc_step]); the store's
    writer receives and commits in separate steps, and the faults of the
    database are part of a commit's input ([Store.store_step]); a handler of the
    web server is one step, except that a login is two, around the verification
    of its password, and a request that reads a preference and writes it back
    is two ([WebServer.web_step]).  The clock is read once per step.

    Functions of Go's standard library are modelled where the code uses them
    ([GoStrings], [Utf8], [GoNet], the calendar of [LinkTags]).  What is not in
    the repository is a parameter: the Unicode tables beyond ASCII
    ([UnicodeTables]), regular expressions ([Regexp]), the layout language of
    package time ([TimeParse]), the IRC library girc ([Girc], its promises
    [GircLaws], its client's state [genv]), hash functions ([Crypto]), the Lua
    interpreter ([LuaTypes], [LuaRT]) and its block cipher ([Blowfish]), the
    behaviour SQL leaves open ([SqlHost], [SqlLaws]), JSON in rows
    ([StoreJson]), the text of JSON ([JsonText], [JsonLaws]; how a parsed value
    fills a struct is modelled), TOML ([Toml]), [url.Parse] ([UrlParse]),
    password hashing ([Bcrypt]), the containers of a backup ([Archives],
    [ArchiveLaws]), its manifest's text ([ManifestJson]), database files
    ([DbFile]) and what the file system grants ([Os]).  Where one component uses another through an interface, the
    interface is the parameter: the core's surroundings are [cenv], the plugin
    host's [HostEnv], the bouncer's [env], the web server's [wenv].  Each has a concrete instance the
    witnesses run on.

    ** The files

    - [Prelude]: record update, machine integers, [sort.Search], facts on lists
      and sums, the tactics the proofs share.
    - [GoStrings], [Utf8], [GoNet]: packages strings, strconv, unicode, utf8,
      base64 and the part of net the code uses; [Utf8] proves that decoding
      undoes encoding and how [range], [Fields] and [TrimSpace] see a string.
      [Files]: paths and a tree of files.
    - The engine.  [EngineLine] ([ircline.go]), [LineBuffer] ([buffer.go]),
      [Frame] ([engineproto/proto.go]): IRC lines, the buffer of undelivered
      lines, the frames of the link.  [EngineSession] ([session.go]): one held
      connection; [EngineSessionSpec] proves it against an abstract account of
      the lines it has read (a history and four watermarks),
      [EngineSessionThms] states the results.  [EngineServer] ([server.go], the
      budget of [buffer.go]): sessions, links and every handler;
      [EngineServerInv] the invariant of the two tables and the heaps,
      [EngineBudget] the global byte budget, [EngineServerThms] the results.
    - The link.  [LinkTags] ([tags.go]), [LinkSession] ([session.go],
      [link.go], [instance.go] of [enginelink]), [LinkThms]: the application's
      end.
    - The core.  [CoreTypes] ([types.go], [network.go], [sink.go]): networks,
      their buffers and the index over them, the auto-join list, snapshots.
      [CoreEvent] ([event.go], [applyLocked] of [engine.go]): what each event
      does to a network; [CoreRoster] and [CoreModes] prove it against rosters
      and sets of modes.  [CoreEngine] ([engine.go]): the engine, its sinks, its
      networks at runtime, join gates; [CoreHistory] ([chathistory.go]),
      [CoreBouncer] ([bouncer.go]), [CoreCommand] ([command.go], the loop):
      input, the plugin API and [core_step].  [CoreFrame] says what each call
      leaves alone, [CoreInv] is the invariant, [CoreThms], [CoreGates] and
      [CoreInput] state the results.
    - The connections.  [IrcTranslate] ([translate.go]): from a line to
      events; [IrcSasl] ([sasl.go], [scram.go]); [IrcConn] ([conn.go],
      [relay.go]): one connection as a state machine; [IrcConnThms].
    - The plugins.  [PlugLua] ([convert.go], [crypto.go]): values that cross to
      Lua; [PlugHost] ([host.go], [watch.go]): scripts, hook lists, settings;
      [PlugBind] ([bindings.go], [http.go]): what a script can call; [PlugRun]:
      loading, dispatch, management, [host_step].  [PlugPrim] reduces every step
      to a few moves, [PlugHeap] is the invariant of the hook lists, [PlugLive]
      of the interpreters, [PlugToy] a small runtime to evaluate, [PlugThms] and
      [PlugSafe] the results.
    - The history.  [StoreDb]: the tables, the statements on them, migrations
      and imports; [StoreQuery]: the queries and the search language; [Store]:
      the writer and pruning; all of [store.go].
      [StoreInv] is the invariant of the tables, [StoreThms] and [StoreSearch]
      the results.
    - The web server.  [WebProto] ([proto.go]): what browsers send and are
      sent, and decoding; [WebAuth] ([auth.go], [ratelimit.go], the gate and the
      logins of [server.go]); [WebDto] ([dto.go], [prefs.go]); [WebServer]
      ([server.go], [client.go], [push.go]): browsers, requests, sinks, push.
      [WebThms], [WebGate] and [WebLimit] are the results,
      [WebSample] the instances their witnesses run on.
    - Uploads, all of [uploads.go].  [ImgStrip]: taking the metadata out of an
      image, on bytes; [ImgBlocks] and [ImgFormats] a reference reader of the
      formats, [ImgThms] and [ImgJpeg] the comparison, [ImgClean] the results.
      [Uploads]: the directory of files and sidecars, the handlers, the sweep,
      the file server; [UploadThms], [UploadProps] the results.
    - The bouncer.  [BncParse] ([parse.go], line builders of [replay.go] and
      [session.go] of [ircserver]), [BncSession] ([session.go], [isupport.go],
      [replay.go]), [BncServer] ([inbound.go], [sink.go], [server.go]),
      [BncThms]: what IRC clients attach to.
    - The process.  [Config] ([config.go], address parsing of [engineproto] and
      [previewproto]): the configuration, its defaults and validation; [Hub]
      ([cmd/stugan/hub.go], options of [main.go]): the engines, stores and plugin
      hosts of the accounts; [ConfigThms], [HubThms] the results.  [SafeHttp]
      ([safehttp.go]): the client that previews, plugins and pushes fetch with.
    - Backups.  [Archive] ([internal/backup], [internal/server/backup.go]): what
      goes into an archive, how one is unpacked, export and import; the resync is
      in [WebServer].  [ArchiveThms] and [ArchiveTrip] are the results.

    ** What is proved

    The engine loses nothing silently: along every run of a held connection
    each line it read is buffered, acknowledged, handed to a link, part of the
    burst a link was replayed, or one of those whose exact number the losses
    reported to links and still to be reported add up to ([no_silent_loss]); a
    link is handed the lines in order, each once
    ([delivers_in_order]); an attach resumes where the application's
    acknowledgements end ([attach_resumes]); the end of a connection is told
    once, last ([closed_frame_last]); what is shed is the oldest, and never the
    newest line ([ingest_keeps_newest]).  The server keeps its tables, heaps and
    byte count consistent along every run ([tables_agree], [budget_exact]); a
    connection belongs to one process at a time, and is given up only when it
    cannot be attached again ([connect_claims], [newer_process_keeps], [superseded_handle_inert],
    [frames_stay_in_instance]); losing a link closes nothing
    ([link_close_keeps_sockets]); the budget's reclaim loop terminates
    ([reclaim_settles]).  The application's end acknowledges a line only after
    it was consumed ([probe_after_lines], [acks_move_forward]), cannot be lied
    to by a server ([tag_line_unforgeable]), treats a split write as one
    ([write_chunks]) and sends nothing before the session is restored
    ([restore_swallows]).

    The core's buffer index is invisible ([buffer_index_transparent],
    [get_or_create_spec]) and its snapshots are faithful
    ([net_clone_faithful]).  Every event changes the roster as its IRC meaning
    says ([roster_refines]) and leaves the network well formed
    ([events_keep_network]); along every run of the engine the networks stay
    well formed ([engine_well_formed]; an auto-join list is as free of duplicates
    as those it was given) and each has at most one live connection
    ([one_run_per_network]); barriers run in order ([barrier_runs]), held joins
    are released ([holds_end]), a line of input becomes one event or one error
    ([input_answered]), a catch-up ends whatever the server answers
    ([catch_up_bounded]).  A connection acknowledges a line to the relay only
    when the core has all its events ([acks_cover_handled_lines]); pages of
    history and messages of several lines come out of their batches whole
    ([history_page_reported], [multiline_reassembled]); auto-join joins all
    channels in lines that fit ([autojoin_lines_fit]); SCRAM authenticates both
    sides ([scram_exchange]).

    Plugins are called in the order of their hooks, unless one of them changes
    the hooks while they run ([hooks_run_in_order]; [unhook_skips_next]), not at
    all when they listen to nothing ([presence_transparent]) or have failed
    too often ([disabled_stays_idle]), and cannot take the process down as long
    as each file loads ([no_panic]; [failed_load_panics] is the case where one
    does not).  A reader of the history sees every line queued before it asked,
    but those the database refused twice ([flush_sees_writes],
    [writer_progress]), pages through every line once
    ([backlog_pages], [message_round_trip]); lines are stored once
    ([lines_stored_once]), markers move forward ([markers_advance]), a prune is
    exact ([prune_exact]), search words stay words ([search_terms_literal]).

    No browser is connected without an accepted password
    ([sockets_authenticated], [gate_guards]), and guessing one is throttled
    exactly ([limiter_exact]); a browser acts on its own account only
    ([accounts_isolated]); committed lines reach every open browser in order
    and without gaps ([lines_reach_tabs]); a mute silences what it names
    ([mute_silences]).  An uploaded image is stored as exactly its picture
    without metadata, or refused ([strip_exact], [strip_clean]), but for a JPEG
    with a marker 00, which is let pass ([null_marker_smuggles]); an upload is
    served, listed, swept and deleted as promised ([upload_life],
    [sweep_exact], [list_exact], [delete_exact]), nothing else is served
    ([only_files_served]), and users do not reach each other's
    ([uploads_isolated]).

    The bouncer attaches nobody but for the credentials its client sent
    ([attached_is_authenticated]), lets a client act only on its own network
    ([commands_confined]), relays a message to exactly the clients it is for
    ([print_reaches_own]), keeps a client from seeing its own message twice
    ([own_echo_once]); its wire format round-trips, but for the first colon of a
    last parameter, and admits no injection ([parse_format], [unescape_escape], [parse_client_tags],
    [sanitize_one_line]).

    A configuration is loaded exactly when it is valid ([config_loads],
    [validate_exact]); what it starts is one tenant for each account, with an
    engine in the state the theorems above start from, and with directories of
    its own if the names of the accounts are single elements of a path
    ([hub_starts], [user_dirs_apart]; [dirs_shared]).  What users and servers make the
    process fetch stays outside its own network ([fetch_stays_outside],
    [public_exact]).

    An import, whatever was uploaded, changes the database and the scripts of its
    account and nothing else ([import_confined], [extract_evolves]); what one
    account exports restores its data in any other ([backup_restores],
    [import_snapshot]).

    ** Bounds and fuel

    [sort_search] halves an interval, its length is enough fuel; [runes] decodes
    at least one byte a step, the length of the string is enough
    ([Utf8.runes_fuel_enough]); the reclaim loop drops at least one line a round,
    the number of buffered lines is enough ([reclaim_settles]); an IPv6 address
    has at most eight groups; alias expansion stops at the source's own depth of
    eight; the scan of a perform line and the cutting of a SASL response
    consume a byte a step, a prune a row a round (the number of rows and one
    more round are enough, [prune_exact]).  No theorem assumes that a function
    returns.

    ** What is not modelled

    Sockets, TLS, timers and deadlines (a timer firing is a step); the text of
    JSON; SQLite itself, with its full-text index; Lua; floating point beyond what
    [SpecFloat] computes ([uploadTTL]); permission bits and links in a tree of
    files.  Of the web server, static files and previews are routes that are only
    known to be reached by the right account ([WServe]): their handlers copy
    bodies and files; uploads and backups are behind the same routes, with models
    of their own.  The terminal client, link previews, logging and the start and
    stop of the services in [cmd] are left out: rendering, scraping, files and
    wiring around the state above.
    Maps are iterated in the order of [map_to_list] or [elements] where the
    code leaves the order open and the result does not depend on it
    ([CoreTypes.lookup_key_unique]) or only the order of lines does. *)

From Stdlib Require Import ZArith Lia.
From stdpp Require Import base tactics list gmap strings.

#[global] Set Default Goal Selector "!".

(** ** Functional record update

    A Go method that assigns one field of a struct is modelled by the update of
    one field of a record.  [r <| p := v |>] rebuilds [r] from its eta-expansion
    with the projection [p] replaced by [v]. *)

Class Eta (R : Type) := eta : R → R.

Class Update {R T : Type} (proj : R → T) := update : (T → T) → R → R.
Arguments update {R T} proj {_} f r /.

Ltac solve_update :=
  lazymatch goal with
  | |- @Update ?R ?T ?proj =>
      let f := fresh "f" in let r := fresh "r" in intros f r;
      let e := eval hnf in (@eta R _ r) in
      let x := constr:(proj r) in
      let x := eval cbv beta in x in
      lazymatch eval pattern x in e with
      | ?g _ => let t := eval cbv beta in (g (f x)) in exact t
      end
  end.

#[export] Hint Extern 0 (Update _) => solve_update : typeclass_instances.

Declare Scope stugan_scope.
Delimit Scope stugan_scope with stugan.

Notation "r <| p := v |>" := (update p (λ _, v) r)
  (at level 12, p at next level, left associativity, only parsing) : stugan_scope.
Notation "r <| p ::= f |>" := (update p f r)
  (at level 12, p at next level, left associativity, only parsing) : stugan_scope.

#[global] Open Scope stugan_scope.

(** ** Machine integers

    Go's [uint64], [int64] are kept at their width: every arithmetic operation
    the source performs on them is wrapped by one of these. *)

Definition u64 (z : Z) : Z := z `mod` 2 ^ 64.
Definition i64 (z : Z) : Z := (z + 2 ^ 63) `mod` 2 ^ 64 - 2 ^ 63.

Lemma u64_small z : (0 ≤ z < 2 ^ 64)%Z → u64 z = z.
Proof. intros. unfold u64. by apply Z.mod_small. Qed.

Lemma u64_range z : (0 ≤ u64 z < 2 ^ 64)%Z.
Proof. unfold u64. apply Z.mod_pos_bound. lia. Qed.

Lemma i64_small z : (- 2 ^ 63 ≤ z < 2 ^ 63)%Z → i64 z = z.
Proof. intros. unfold i64. rewrite Z.mod_small by lia. lia. Qed.

Lemma i64_range z : (- 2 ^ 63 ≤ i64 z < 2 ^ 63)%Z.
Proof. unfold i64. pose proof (Z.mod_pos_bound (z + 2 ^ 63) (2 ^ 64)). lia. Qed.

(** [i64] is a ring morphism up to its own wrap: it can be pushed out of a sum. *)
Lemma i64_spec z : ∃ k, i64 z = (z + k * 2 ^ 64)%Z.
Proof.
  unfold i64. exists (- ((z + 2 ^ 63) / 2 ^ 64))%Z.
  pose proof (Z.div_mod (z + 2 ^ 63) (2 ^ 64)). lia.
Qed.

Lemma i64_shift z k : i64 (z + k * 2 ^ 64) = i64 z.
Proof.
  unfold i64. replace (z + k * 2 ^ 64 + 2 ^ 63)%Z with (z + 2 ^ 63 + k * 2 ^ 64)%Z by lia.
  by rewrite Z.mod_add.
Qed.

Lemma i64_add_l a b : i64 (i64 a + b) = i64 (a + b).
Proof.
  destruct (i64_spec a) as [k ->].
  replace (a + k * 2 ^ 64 + b)%Z with (a + b + k * 2 ^ 64)%Z by lia. apply i64_shift.
Qed.

Lemma i64_add_r a b : i64 (a + i64 b) = i64 (a + b).
Proof. by rewrite (Z.add_comm a), i64_add_l, Z.add_comm. Qed.

Lemma i64_sub_r a b : i64 (a - i64 b) = i64 (a - b).
Proof.
  destruct (i64_spec b) as [k ->].
  replace (a - (b + k * 2 ^ 64))%Z with (a - b + (- k) * 2 ^ 64)%Z by lia. apply i64_shift.
Qed.

Lemma i64_sub_l a b : i64 (i64 a - b) = i64 (a - b).
Proof. rewrite <- Z.add_opp_r, i64_add_l. f_equal. Qed.

(** ** Time

    A [time.Time] is a count of nanoseconds since 1970; the zero time is 0
    ([IsZero]), which stands for no other.
    [time.Since] and [Sub] saturate at the range of a [time.Duration]. *)

Definition time : Type := Z.
Definition zero_time : time := 0%Z.
Definition time_is_zero (t : time) : bool := Z.eqb t 0.
Definition nanosecond : Z := 1.
Definition millisecond : Z := 1000000.
Definition second : Z := 1000000000.
Definition minute : Z := 60 * second.
Definition hour : Z := 60 * minute.

Definition time_sub (a b : time) : Z := Z.max (- 2 ^ 63) (Z.min (2 ^ 63 - 1) (a - b)).

(** ** Reachability *)

Lemma rtc_invariant {A} (R : relation A) (I : A → Prop) x y :
  (∀ a b, I a → R a b → I b) → rtc R x y → I x → I y.
Proof. intros Hstep. induction 1; eauto. Qed.

(** ** Lists *)

(** The sum of an integer measure over a list: the byte counters of the engine. *)
Definition sumZ {A} (f : A → Z) (l : list A) : Z := foldr (λ a n, (f a + n)%Z) 0%Z l.

Lemma sumZ_app {A} (f : A → Z) l1 l2 : sumZ f (l1 ++ l2) = (sumZ f l1 + sumZ f l2)%Z.
Proof. induction l1 as [|a l1 IH]; simpl; [done|]. rewrite IH. lia. Qed.

Lemma sumZ_nonneg {A} (f : A → Z) l : (∀ a, 0 ≤ f a)%Z → (0 ≤ sumZ f l)%Z.
Proof. intros Hf. induction l as [|a l IH]; simpl; [done|]. specialize (Hf a). lia. Qed.

Lemma sublist_take_mono {A} (l : list A) n m : n ≤ m → take n l `sublist_of` take m l.
Proof. intros. replace n with (n `min` m) by lia. rewrite <- take_take. apply sublist_take. Qed.

Lemma sublist_Forall {A} (P : A → Prop) l1 l2 : l1 `sublist_of` l2 → Forall P l2 → Forall P l1.
Proof. induction 1 as [|x l1 l2 _ IH|x l1 l2 _ IH]; [done|..]; rewrite ?Forall_cons; naive_solver. Qed.

Lemma filter_all {A} (P : A → Prop) `{∀ x, Decision (P x)} l : Forall P l → filter P l = l.
Proof. induction 1 as [|x l Hx _ IH]; [done|]. rewrite filter_cons, IH. by case_decide. Qed.

Lemma filter_none {A} (P : A → Prop) `{∀ x, Decision (P x)} l : Forall (λ x, ¬ P x) l → filter P l = [].
Proof. induction 1 as [|x l Hx _ IH]; [done|]. rewrite filter_cons, IH. by case_decide. Qed.

Lemma take_length_take {A} (l : list A) n : take (length (take n l)) l = take n l.
Proof. rewrite length_take, <- take_take, (take_ge l (length l)); done. Qed.

(** [sort.Search(n, f)]: the binary search of Go's standard library.  The loop
    halves the interval [[i, j)]; [n] iterations are more than enough. *)
Fixpoint sort_search_loop (fuel : nat) (f : nat → bool) (i j : nat) : nat :=
  match fuel with
  | 0 => i
  | S fuel =>
      if bool_decide (i < j) then
        let h := Nat.div2 (i + j) in
        if f h then sort_search_loop fuel f i h else sort_search_loop fuel f (S h) j
      else i
  end.

Definition sort_search (n : nat) (f : nat → bool) : nat := sort_search_loop n f 0 n.

Lemma div2_between i j : i < j → i ≤ Nat.div2 (i + j) < j.
Proof. intros. rewrite Nat.div2_div. split; [apply Nat.div_le_lower_bound|apply Nat.Div0.div_lt_upper_bound]; lia. Qed.

(** With a predicate that is false below [r] and true from [r] on, the loop
    returns [r] as soon as the fuel covers the interval. *)
Lemma sort_search_loop_spec fuel f i j r :
  j - i ≤ fuel → i ≤ r ≤ j →
  (∀ k, k < r → f k = false) → (∀ k, r ≤ k < j → f k = true) →
  sort_search_loop fuel f i j = r.
Proof.
  revert i j. induction fuel as [|fuel IH]; intros i j Hf Hr Hlo Hhi; simpl; [lia|].
  case_bool_decide as Hij; [|lia]. pose proof (div2_between i j Hij).
  destruct (f (Nat.div2 (i + j))) eqn:E.
  - apply IH; [lia| |done|intros; apply Hhi; lia].
    split; [lia|]. destruct (decide (r ≤ Nat.div2 (i + j))); [done|].
    rewrite Hlo in E by lia. done.
  - apply IH; [lia| |done|done].
    destruct (decide (r ≤ Nat.div2 (i + j))); [|lia].
    rewrite Hhi in E by lia. done.
Qed.

Lemma sort_search_spec n f r :
  r ≤ n → (∀ k, k < r → f k = false) → (∀ k, r ≤ k < n → f k = true) →
  sort_search n f = r.
Proof. intros. apply sort_search_loop_spec; [lia|lia|done|done]. Qed.

(** Consecutive numbering: the elements carry [f]-values [n+1], [n+2], ... *)
Fixpoint consecutive {A} (f : A → Z) (n : Z) (l : list A) : Prop :=
  match l with
  | [] => True
  | a :: l' => f a = (n + 1)%Z ∧ consecutive f (n + 1) l'
  end.

Lemma consecutive_app {A} (f : A → Z) n l1 l2 :
  consecutive f n (l1 ++ l2) ↔
  consecutive f n l1 ∧ consecutive f (n + Z.of_nat (length l1)) l2.
Proof.
  revert n. induction l1 as [|a l1 IH]; intros n; cbn [app consecutive length].
  - rewrite Z.add_0_r. tauto.
  - rewrite IH. replace (n + 1 + Z.of_nat (length l1))%Z with (n + Z.of_nat (S (length l1)))%Z by lia.
    tauto.
Qed.

Lemma consecutive_lookup {A} (f : A → Z) n l i a :
  consecutive f n l → l !! i = Some a → f a = (n + Z.of_nat i + 1)%Z.
Proof.
  revert n i. induction l as [|b l IH]; intros n i Hc Hl; [done|].
  destruct Hc as [Hb Hc]. destruct i as [|i]; simplify_eq/=; [lia|].
  rewrite (IH _ _ Hc Hl). lia.
Qed.

Lemma consecutive_drop {A} (f : A → Z) n l k :
  consecutive f n l → consecutive f (n + Z.of_nat (k `min` length l)) (drop k l).
Proof.
  intros Hc. rewrite <- (take_drop k l) in Hc. apply consecutive_app in Hc as [_ Hc].
  by rewrite length_take in Hc.
Qed.

Lemma consecutive_take {A} (f : A → Z) n l k : consecutive f n l → consecutive f n (take k l).
Proof. intros Hc. rewrite <- (take_drop k l) in Hc. by apply consecutive_app in Hc as [? _]. Qed.

(** Walking a consecutive list, remembering the last number seen. *)
Lemma consecutive_foldl {A} (f : A → Z) n l d :
  consecutive f n l →
  foldl (λ _ a, f a) d l = match l with [] => d | _ => (n + Z.of_nat (length l))%Z end.
Proof.
  revert n d. induction l as [|a l IH]; intros n d Hc; [done|]. destruct Hc as [Ha Hc].
  cbn [foldl]. rewrite (IH _ _ Hc). destruct l as [|b l]; simpl; lia.
Qed.

(** On consecutively numbered elements [sort.Search] for "numbered beyond [m]"
    is a subtraction. *)
Lemma sort_search_consecutive {A} (f : A → Z) n l m (p : nat → bool) :
  consecutive f n l →
  (∀ i a, l !! i = Some a → p i = bool_decide (m < f a)%Z) →
  sort_search (length l) p = Z.to_nat (Z.min (Z.of_nat (length l)) (Z.max 0 (m - n))).
Proof.
  intros Hc Hp. apply sort_search_spec; [lia| |].
  - intros k Hk. destruct (lookup_lt_is_Some_2 l k) as [a Ha]; [lia|].
    rewrite (Hp _ _ Ha), (consecutive_lookup _ _ _ _ _ Hc Ha). apply bool_decide_eq_false_2. lia.
  - intros k Hk. destruct (lookup_lt_is_Some_2 l k) as [a Ha]; [lia|].
    rewrite (Hp _ _ Ha), (consecutive_lookup _ _ _ _ _ Hc Ha). apply bool_decide_eq_true_2. lia.
Qed.

Create HintDb stugan.
#[export] Hint Resolve sumZ_nonneg consecutive_take : stugan.

(** ** Automation *)

(** Split the innermost scrutinee of the goal or a hypothesis. *)
Ltac break_match :=
  match goal with
  | |- context [match ?x with _ => _ end] =>
      lazymatch x with context [match _ with _ => _ end] => fail | _ => destruct x eqn:? end
  | H : context [match ?x with _ => _ end] |- _ =>
      lazymatch x with context [match _ with _ => _ end] => fail | _ => destruct x eqn:? end
  end.

(** Turn boolean tests into propositions. *)
Ltac boolify :=
  repeat match goal with
  | H : bool_decide _ = true |- _ => apply bool_decide_eq_true_1 in H
  | H : bool_decide _ = false |- _ => apply bool_decide_eq_false_1 in H
  | H : (_ && _) = true |- _ => apply andb_true_iff in H as [? ?]
  | H : (_ || _) = false |- _ => apply orb_false_iff in H as [? ?]
  | H : negb _ = true |- _ => apply negb_true_iff in H
  | H : negb _ = false |- _ => apply negb_false_iff in H
  | H : Z.eqb _ _ = true |- _ => apply Z.eqb_eq in H
  | H : Z.eqb _ _ = false |- _ => apply Z.eqb_neq in H
  | H : Z.ltb _ _ = true |- _ => apply Z.ltb_lt in H
  | H : Z.ltb _ _ = false |- _ => apply Z.ltb_ge in H
  | H : Z.leb _ _ = true |- _ => apply Z.leb_le in H
  | H : Z.leb _ _ = false |- _ => apply Z.leb_gt in H
  | H : String.eqb _ _ = true |- _ => apply String.eqb_eq in H
  | H : String.eqb _ _ = false |- _ => apply String.eqb_neq in H
  end.
