(* ===== verification/GoStrings.v ===== *)
(** * Go strings

    A Go [string] is a sequence of bytes; it is modelled by Rocq's [string],
    whose characters are bytes.  This file models the functions of Go's
    [strings], [strconv], [unicode] and [unicode/utf8] packages the program
    uses, byte for byte, and proves the facts the components share about them.

    The case mapping and classification tables of [unicode] beyond ASCII are
    data generated from the Unicode database: the class [UnicodeTables] carries
    them as parameters, consulted only for runes from U+0080 on; for ASCII
    every function here is concrete. *)

From Stdlib Require Import ZArith Lia Ascii.
From stdpp Require Import base tactics list strings pretty.
From S2P Require Import Prelude.

#[local] Open Scope char_scope.
#[local] Open Scope string_scope.

Create HintDb gostrings.

#[global] Arguments String.append : simpl nomatch.

(** ** Bytes *)

Definition byte_z (a : ascii) : Z := Z.of_N (N_of_ascii a).
Definition byte_of_z (z : Z) : ascii := ascii_of_N (Z.to_N z).

Definition between (lo hi z : Z) : bool := (Z.leb lo z && Z.leb z hi)%bool.

Lemma byte_z_range a : (0 ≤ byte_z a < 256)%Z.
Proof. unfold byte_z. pose proof (N_ascii_bounded a). lia. Qed.

Lemma byte_of_byte_z a : byte_of_z (byte_z a) = a.
Proof. unfold byte_of_z, byte_z. rewrite N2Z.id. apply ascii_N_embedding. Qed.

Lemma byte_z_inj a b : byte_z a = byte_z b → a = b.
Proof. intros H. by rewrite <- (byte_of_byte_z a), H, byte_of_byte_z. Qed.

Lemma byte_z_of_z z : (0 ≤ z < 256)%Z → byte_z (byte_of_z z) = z.
Proof. intros. unfold byte_z, byte_of_z. rewrite N_ascii_embedding by lia. lia. Qed.

Lemma lxor_byte a b : (0 ≤ Z.lxor (byte_z a) (byte_z b) < 256)%Z.
Proof.
  pose proof (byte_z_range a). pose proof (byte_z_range b). split; [apply Z.lxor_nonneg; lia|].
  destruct (decide (Z.lxor (byte_z a) (byte_z b) = 0)%Z) as [->|Hn]; [lia|].
  apply Z.log2_lt_pow2 with (b := 8%Z); [pose proof (proj2 (Z.lxor_nonneg (byte_z a) (byte_z b)) ltac:(lia)); lia|].
  eapply Z.le_lt_trans; [apply Z.log2_lxor; lia|].
  assert (Hl : ∀ z, (0 ≤ z < 256 → Z.log2 z < 8)%Z).
  { intros z Hz. destruct (decide (z = 0)%Z) as [->|]; [done|]. apply Z.log2_lt_pow2; lia. }
  apply Z.max_lub_lt; by apply Hl.
Qed.

Abbreviation SP := " "%char.
Abbreviation LF := "010"%char.
Abbreviation CR := "013"%char.
Abbreviation TAB := "009"%char.
Abbreviation NUL := "000"%char.
Abbreviation nl := (String LF "").

(** [len(s)]. *)
Definition str_len (s : string) : Z := Z.of_nat (String.length s).

(** ** Slices: [s[:n]] and [s[n:]] *)

Fixpoint str_take (n : nat) (s : string) : string :=
  match n, s with
  | S n, String a s => String a (str_take n s)
  | _, _ => ""
  end.

Fixpoint str_drop (n : nat) (s : string) : string :=
  match n, s with
  | S n, String _ s => str_drop n s
  | _, _ => s
  end.

(** Every byte of [s] satisfies [p]. *)
Fixpoint str_all (p : ascii → bool) (s : string) : bool :=
  match s with
  | "" => true
  | String a s => p a && str_all p s
  end.

Definition str_in (c : ascii) (s : string) : bool := negb (str_all (λ a, negb (Ascii.eqb a c)) s).

(** ** [strings] functions with a one-byte separator or cutset *)

(** [strings.IndexByte], [None] standing for -1. *)
Fixpoint index_byte (c : ascii) (s : string) : option nat :=
  match s with
  | "" => None
  | String a s => if Ascii.eqb a c then Some 0 else S <$> index_byte c s
  end.

Fixpoint last_index_byte (c : ascii) (s : string) : option nat :=
  match s with
  | "" => None
  | String a s =>
      match last_index_byte c s with
      | Some i => Some (S i)
      | None => if Ascii.eqb a c then Some 0 else None
      end
  end.

(** [strings.IndexAny(s, chars)] for an ASCII set of characters. *)
Fixpoint index_any (p : ascii → bool) (s : string) : option nat :=
  match s with
  | "" => None
  | String a s => if p a then Some 0 else S <$> index_any p s
  end.

(** [strings.Cut(s, sep)] for a one-byte [sep]. *)
Fixpoint cut_byte (c : ascii) (s : string) : string * string * bool :=
  match s with
  | "" => ("", "", false)
  | String a s =>
      if Ascii.eqb a c then ("", s, true)
      else let '(b, r, f) := cut_byte c s in (String a b, r, f)
  end.

(** [strings.Split(s, sep)] for a one-byte [sep]; never empty. *)
Fixpoint split_byte (c : ascii) (s : string) : list string :=
  match s with
  | "" => [""]
  | String a s =>
      if Ascii.eqb a c then "" :: split_byte c s
      else match split_byte c s with
           | x :: xs => String a x :: xs
           | [] => [String a ""]
           end
  end.

(** [strings.Join(l, sep)]. *)
Fixpoint str_join (sep : string) (l : list string) : string :=
  match l with
  | [] => ""
  | [x] => x
  | x :: xs => x +:+ sep +:+ str_join sep xs
  end.

(** [strings.TrimLeft] / [strings.TrimRight] with an ASCII cutset, the cutset
    given as a predicate on bytes. *)
Fixpoint trim_left (p : ascii → bool) (s : string) : string :=
  match s with
  | "" => ""
  | String a s' => if p a then trim_left p s' else s
  end.

Fixpoint trim_right (p : ascii → bool) (s : string) : string :=
  match s with
  | "" => ""
  | String a s =>
      match trim_right p s with
      | "" => if p a then "" else String a ""
      | t => String a t
      end
  end.

Definition is_sp (a : ascii) : bool := Ascii.eqb a SP.
Definition is_crlf (a : ascii) : bool := Ascii.eqb a CR || Ascii.eqb a LF.

(** [strings.ReplaceAll(s, old, new)] for a one-byte [old]. *)
Fixpoint replace_byte (c : ascii) (new : string) (s : string) : string :=
  match s with
  | "" => ""
  | String a s => if Ascii.eqb a c then new +:+ replace_byte c new s else String a (replace_byte c new s)
  end.

(** ** Functions with a string separator *)

Definition has_prefix (p s : string) : bool := String.prefix p s.

Definition trim_prefix (p s : string) : string :=
  if has_prefix p s then str_drop (String.length p) s else s.

Definition has_suffix (p s : string) : bool :=
  (String.length p <=? String.length s)%nat &&
  String.eqb (str_drop (String.length s - String.length p) s) p.

Definition trim_suffix (p s : string) : string :=
  if has_suffix p s then str_take (String.length s - String.length p) s else s.

(** [strings.Index]. *)
Fixpoint index_str (p s : string) : option nat :=
  if has_prefix p s then Some 0
  else match s with
       | "" => None
       | String _ s => S <$> index_str p s
       end.

Fixpoint last_index_str (p s : string) : option nat :=
  match s with
  | "" => if has_prefix p "" then Some 0 else None
  | String _ s' =>
      match last_index_str p s' with
      | Some i => Some (S i)
      | None => if has_prefix p s then Some 0 else None
      end
  end.

Definition contains_str (p s : string) : bool := match index_str p s with Some _ => true | None => false end.

(** [strings.Repeat]. *)
Fixpoint str_repeat (s : string) (n : nat) : string :=
  match n with
  | 0 => ""
  | S n => s +:+ str_repeat s n
  end.

(** ** UTF-8: [utf8.DecodeRuneInString], [utf8.AppendRune], [utf8.ValidString] *)

Definition rune_error : Z := 65533.

Definition is_cont (b : Z) : bool := between 128 191 b.

(** The rune starting [s] and its width; [(RuneError, 1)] for an invalid
    encoding, [(RuneError, 0)] for the empty string. *)
Definition decode_rune (s : string) : Z * nat :=
  match s with
  | "" => (rune_error, 0)
  | String a0 s1 =>
      let b0 := byte_z a0 in
      if Z.ltb b0 128 then (b0, 1)
      else if between 194 223 b0 then
        match s1 with
        | String a1 _ =>
            let b1 := byte_z a1 in
            if is_cont b1 then (((b0 - 192) * 64 + (b1 - 128))%Z, 2) else (rune_error, 1)
        | _ => (rune_error, 1)
        end
      else if between 224 239 b0 then
        match s1 with
        | String a1 (String a2 _) =>
            let b1 := byte_z a1 in let b2 := byte_z a2 in
            let lo := if Z.eqb b0 224 then 160%Z else 128%Z in
            let hi := if Z.eqb b0 237 then 159%Z else 191%Z in
            if between lo hi b1 && is_cont b2
            then (((b0 - 224) * 4096 + (b1 - 128) * 64 + (b2 - 128))%Z, 3) else (rune_error, 1)
        | _ => (rune_error, 1)
        end
      else if between 240 244 b0 then
        match s1 with
        | String a1 (String a2 (String a3 _)) =>
            let b1 := byte_z a1 in let b2 := byte_z a2 in let b3 := byte_z a3 in
            let lo := if Z.eqb b0 240 then 144%Z else 128%Z in
            let hi := if Z.eqb b0 244 then 143%Z else 191%Z in
            if between lo hi b1 && is_cont b2 && is_cont b3
            then (((b0 - 240) * 262144 + (b1 - 128) * 4096 + (b2 - 128) * 64 + (b3 - 128))%Z, 4)
            else (rune_error, 1)
        | _ => (rune_error, 1)
        end
      else (rune_error, 1)
  end.

(** The encoding of a rune; surrogates and out-of-range values encode as
    U+FFFD. *)
Definition encode_rune (r : Z) : string :=
  let r := if between 55296 57343 r || Z.ltb r 0 || Z.ltb 1114111 r then rune_error else r in
  if Z.ltb r 128 then String (byte_of_z r) ""
  else if Z.ltb r 2048 then
    String (byte_of_z (192 + r / 64)) (String (byte_of_z (128 + r mod 64)) "")
  else if Z.ltb r 65536 then
    String (byte_of_z (224 + r / 4096))
      (String (byte_of_z (128 + (r / 64) mod 64)) (String (byte_of_z (128 + r mod 64)) ""))
  else
    String (byte_of_z (240 + r / 262144))
      (String (byte_of_z (128 + (r / 4096) mod 64))
        (String (byte_of_z (128 + (r / 64) mod 64)) (String (byte_of_z (128 + r mod 64)) ""))).

(** The [for _, r := range s] decomposition: each rune with the bytes it came
    from. *)
Fixpoint runes_fuel (fuel : nat) (s : string) : list (Z * string) :=
  match fuel, s with
  | S fuel, String _ _ =>
      let '(r, w) := decode_rune s in (r, str_take w s) :: runes_fuel fuel (str_drop w s)
  | _, _ => []
  end.

Definition runes (s : string) : list (Z * string) := runes_fuel (String.length s) s.

(** [utf8.ValidString]: no byte decodes as an encoding error. *)
Definition valid_utf8 (s : string) : bool :=
  forallb (λ '(r, bs), negb (Z.eqb r rune_error && (String.length bs =? 1)%nat)) (runes s).

Definition str_concat (l : list string) : string := foldr String.app "" l.

(** ** [unicode] *)

Class UnicodeTables := {
  uni_upper : Z → Z;          (** [unicode.ToUpper] from U+0080 on *)
  uni_lower : Z → Z;          (** [unicode.ToLower] from U+0080 on *)
  uni_same_fold : Z → Z → bool; (** two runes in one [unicode.SimpleFold] orbit *)
  uni_letter : Z → bool;      (** [unicode.IsLetter] from U+0080 on *)
  uni_digit : Z → bool;       (** [unicode.IsDigit] from U+0080 on *)
  uni_print : Z → bool;       (** [strconv.IsPrint] from U+0080 on *)
}.

(** The tables that know no letter beyond ASCII: used to evaluate the model on
    ASCII input, where no table is consulted. *)
Definition ascii_tables : UnicodeTables := {|
  uni_upper r := r; uni_lower r := r; uni_same_fold := Z.eqb;
  uni_letter _ := false; uni_digit _ := false; uni_print _ := false |}.

(** [unicode.IsSpace]. *)
Definition is_space (r : Z) : bool :=
  between 9 13 r || Z.eqb r 32 || Z.eqb r 133 || Z.eqb r 160 || Z.eqb r 5760 ||
  between 8192 8202 r || Z.eqb r 8232 || Z.eqb r 8233 || Z.eqb r 8239 || Z.eqb r 8287 || Z.eqb r 12288.

(** [strings.TrimSpace]. *)
Fixpoint drop_space (l : list (Z * string)) : list (Z * string) :=
  match l with
  | (r, _) :: l' => if is_space r then drop_space l' else l
  | [] => []
  end.

Definition trim_space (s : string) : string :=
  str_concat (snd <$> rev (drop_space (rev (drop_space (runes s))))).

(** [strings.Fields]: the maximal runs of non-space runes. *)
Fixpoint fields_runes (l : list (Z * string)) (cur : string) : list string :=
  match l with
  | [] => if String.eqb cur "" then [] else [cur]
  | (r, bs) :: l =>
      if is_space r then
        if String.eqb cur "" then fields_runes l "" else cur :: fields_runes l ""
      else fields_runes l (cur +:+ bs)
  end.

Definition fields (s : string) : list string := fields_runes (runes s) "".

Definition ascii_upper (a : ascii) : ascii :=
  if between 97 122 (byte_z a) then byte_of_z (byte_z a - 32) else a.
Definition ascii_lower (a : ascii) : ascii :=
  if between 65 90 (byte_z a) then byte_of_z (byte_z a + 32) else a.
Definition is_ascii (a : ascii) : bool := Z.ltb (byte_z a) 128.

Fixpoint str_map (f : ascii → ascii) (s : string) : string :=
  match s with
  | "" => ""
  | String a s => String (f a) (str_map f s)
  end.

Section unicode.
Context `{UnicodeTables}.

Definition rune_upper (r : Z) : Z :=
  if Z.ltb r 128 then (if between 97 122 r then (r - 32)%Z else r) else uni_upper r.
Definition rune_lower (r : Z) : Z :=
  if Z.ltb r 128 then (if between 65 90 r then (r + 32)%Z else r) else uni_lower r.

(** [strings.Map(f, s)]: an invalid byte becomes U+FFFD, a negative rune is
    dropped. *)
Definition map_runes (f : Z → Z) (s : string) : string :=
  str_concat ((λ '(r, bs), if Z.ltb (f r) 0 then "" else encode_rune (f r)) <$> runes s).

(** [strings.ToUpper], [strings.ToLower]: byte-wise on ASCII strings, through
    [strings.Map] otherwise. *)
Definition to_upper (s : string) : string :=
  if str_all is_ascii s then str_map ascii_upper s else map_runes rune_upper s.
Definition to_lower (s : string) : string :=
  if str_all is_ascii s then str_map ascii_lower s else map_runes rune_lower s.

(** [strings.EqualFold]: equality rune by rune up to simple case folding. *)
Definition fold_rune_eq (a b : Z) : bool :=
  Z.eqb a b ||
  (if Z.ltb a 128 && Z.ltb b 128
   then Z.eqb (rune_lower a) (rune_lower b)
   else uni_same_fold a b).

Fixpoint equal_fold_runes (l1 l2 : list (Z * string)) : bool :=
  match l1, l2 with
  | [], [] => true
  | (a, _) :: l1, (b, _) :: l2 => fold_rune_eq a b && equal_fold_runes l1 l2
  | _, _ => false
  end.

Definition equal_fold (s t : string) : bool := equal_fold_runes (runes s) (runes t).

(** [unicode.IsLetter], [unicode.IsDigit]. *)
Definition is_letter (r : Z) : bool :=
  if Z.ltb r 128 then between 65 90 r || between 97 122 r else uni_letter r.
Definition is_digit (r : Z) : bool :=
  if Z.ltb r 128 then between 48 57 r else uni_digit r.
End unicode.

(** ** [strconv] *)

(** [strconv.FormatUint(n, 10)], [strconv.Itoa]. *)
Definition itoa (z : Z) : string := pretty z.

Fixpoint parse_digits (s : string) (acc : Z) : option Z :=
  match s with
  | "" => Some acc
  | String a s =>
      if between 48 57 (byte_z a) then parse_digits s (acc * 10 + (byte_z a - 48))%Z else None
  end.

(** [strconv.Atoi]: an optional sign, at least one digit, within [int64];
    [None] for either error. *)
Definition atoi (s : string) : option Z :=
  let '(neg, d) := match s with
                   | String "-" d => (true, d)
                   | String "+" d => (false, d)
                   | _ => (false, s)
                   end in
  match d with
  | "" => None
  | _ =>
      v ← parse_digits d 0;
      let v := if neg then (- v)%Z else v in
      if between (- 2 ^ 63) (2 ^ 63 - 1) v then Some v else None
  end.

(** [strconv.FormatUint(n, 36)]. *)
Definition digit36 (d : Z) : ascii :=
  if Z.ltb d 10 then byte_of_z (48 + d) else byte_of_z (87 + d).

Fixpoint base36_fuel (fuel : nat) (z : Z) (acc : string) : string :=
  match fuel with
  | 0 => acc
  | S fuel =>
      let acc := String (digit36 (z mod 36)) acc in
      if Z.ltb z 36 then acc else base36_fuel fuel (z / 36) acc
  end.

(** Thirteen digits hold any [uint64]; the fuel covers 64. *)
Definition base36 (z : Z) : string := base36_fuel 64 z "".

(** [strings.ReplaceAll(s, old, new)] for a nonempty [old]. *)
Fixpoint replace_fuel (fuel : nat) (old new s : string) : string :=
  match fuel with
  | 0 => s
  | S fuel =>
      match index_str old s with
      | None => s
      | Some i => str_take i s +:+ new +:+ replace_fuel fuel old new (str_drop (i + String.length old) s)
      end
  end.

(** [strings.ReplaceAll(s, old, "")]; removing the empty string changes
    nothing. *)
Definition remove_all (old s : string) : string :=
  if String.eqb old "" then s else replace_fuel (String.length s) old "" s.

(** ** [strconv.Quote], the [%q] verb *)

Definition is_print {_ : UnicodeTables} (r : Z) : bool :=
  if Z.ltb r 128 then between 32 126 r else uni_print r.

Fixpoint hex_digits (n : nat) (v : Z) : string :=
  match n with
  | 0 => ""
  | S n => hex_digits n (v / 16) +:+ String (digit36 (v mod 16)) ""
  end.

Definition control_escape (r : Z) : option string :=
  match r with
  | 7 => Some "\a" | 8 => Some "\b" | 12 => Some "\f" | 10 => Some "\n"
  | 13 => Some "\r" | 9 => Some "\t" | 11 => Some "\v" | _ => None
  end%Z.

Definition quote_rune {_ : UnicodeTables} (r : Z) (bs : string) : string :=
  if Z.eqb r rune_error && Nat.eqb (String.length bs) 1 then
    "\x" +:+ hex_digits 2 (match bs with String a _ => byte_z a | "" => 0 end)
  else if Z.eqb r 34 || Z.eqb r 92 then String "\" (encode_rune r)
  else if is_print r then encode_rune r
  else match control_escape r with
       | Some e => e
       | None =>
           if Z.ltb r 32 || Z.eqb r 127 then "\x" +:+ hex_digits 2 r
           else if Z.ltb r 65536 then "\u" +:+ hex_digits 4 r
           else "\U" +:+ hex_digits 8 r
       end.

Definition DQUOTE : string := String (byte_of_z 34) "".

Definition go_quote {_ : UnicodeTables} (s : string) : string :=
  DQUOTE +:+ str_concat ((λ '(r, bs), quote_rune r bs) <$> runes s) +:+ DQUOTE.

(** [time.Parse(layout, value)]; the layout language of package time is not
    modelled. *)
Class TimeParse := time_parse : string → string → option time.

(** ** Facts shared by the components *)

(** [no_byte c s]: [c] does not occur in [s]. *)
Definition no_byte (c : ascii) (s : string) : bool := str_all (λ a, negb (Ascii.eqb a c)) s.

Lemma str_app_nil_r s : s +:+ "" = s.
Proof. induction s as [|a s IH]; simpl; [done|]. by rewrite IH. Qed.

Lemma str_app_assoc s1 s2 s3 : (s1 +:+ s2) +:+ s3 = s1 +:+ (s2 +:+ s3).
Proof. induction s1 as [|a s1 IH]; simpl; [done|]. by rewrite IH. Qed.

Lemma str_length_app s1 s2 : String.length (s1 +:+ s2) = String.length s1 + String.length s2.
Proof. induction s1 as [|a s1 IH]; simpl; [done|]. by rewrite IH. Qed.

Lemma str_app_inj_l s t1 t2 : s +:+ t1 = s +:+ t2 → t1 = t2.
Proof. induction s as [|a s IH]; simpl; [done|]. intros [=]. auto. Qed.

Lemma str_app_inj_r s1 s2 t : s1 +:+ t = s2 +:+ t → s1 = s2.
Proof.
  intros He. assert (Hl : String.length s1 = String.length s2).
  { apply (f_equal String.length) in He. rewrite !str_length_app in He. lia. }
  revert s2 He Hl. induction s1 as [|a s1 IH]; intros [|b s2] He Hl; simpl in *; [done..|].
  injection He as -> He. f_equal. apply IH; [done|lia].
Qed.

Lemma str_all_app p s1 s2 : str_all p (s1 +:+ s2) = str_all p s1 && str_all p s2.
Proof. induction s1 as [|a s1 IH]; simpl; [done|]. by rewrite IH, andb_assoc. Qed.

Lemma str_drop_app s1 s2 : str_drop (String.length s1) (s1 +:+ s2) = s2.
Proof. induction s1 as [|a s1 IH]; simpl; [by destruct s2|done]. Qed.

Lemma str_take_app s1 s2 : str_take (String.length s1) (s1 +:+ s2) = s1.
Proof. induction s1 as [|a s1 IH]; simpl; [by destruct s2|]. by rewrite IH. Qed.

Lemma str_take_drop n s : str_take n s +:+ str_drop n s = s.
Proof. revert s. induction n as [|n IH]; intros [|a s]; simpl; auto. by rewrite IH. Qed.

Lemma str_length_drop n s : String.length (str_drop n s) = String.length s - n.
Proof. revert s. induction n as [|n IH]; intros [|a s]; simpl; auto. Qed.

Lemma cut_byte_app c b r : no_byte c b = true → cut_byte c (b +:+ String c r) = (b, r, true).
Proof.
  unfold no_byte. induction b as [|a b IH]; simpl; [by rewrite Ascii.eqb_refl|].
  intros [Ha Hb]%andb_true_iff. apply negb_true_iff in Ha. rewrite Ha. by rewrite IH.
Qed.

Lemma cut_byte_none c s : no_byte c s = true → cut_byte c s = (s, "", false).
Proof.
  unfold no_byte. induction s as [|a s IH]; simpl; [done|].
  intros [Ha Hb]%andb_true_iff. apply negb_true_iff in Ha. rewrite Ha. by rewrite IH.
Qed.

(** What [cut_byte] returns, on every input. *)
Lemma cut_byte_spec c s b r f :
  cut_byte c s = (b, r, f) →
  no_byte c b = true ∧ if f then s = b +:+ String c r else s = b ∧ r = "".
Proof.
  revert b r f. induction s as [|a s IH]; simpl; intros b r f Hc; [by simplify_eq|].
  destruct (Ascii.eqb a c) eqn:E.
  - apply Ascii.eqb_eq in E as ->. by simplify_eq.
  - destruct (cut_byte c s) as [[b' r'] f'] eqn:E'. simplify_eq.
    destruct (IH _ _ _ eq_refl) as [Hb Hf]. unfold no_byte in *. simpl. rewrite E, Hb. simpl.
    destruct f; [by rewrite Hf|]. destruct Hf as [-> ->]. done.
Qed.

Lemma cut_byte_length c s b r f : cut_byte c s = (b, r, f) → (String.length r ≤ String.length s)%nat.
Proof.
  intros [_ H]%cut_byte_spec. destruct f; [|by destruct H as [-> ->]; simpl; lia].
  rewrite H, str_length_app. simpl. lia.
Qed.

Lemma index_byte_app c b r : no_byte c b = true → index_byte c (b +:+ String c r) = Some (String.length b).
Proof.
  unfold no_byte. induction b as [|a b IH]; simpl; [by rewrite Ascii.eqb_refl|].
  intros [Ha Hb]%andb_true_iff. apply negb_true_iff in Ha. by rewrite Ha, IH.
Qed.

Lemma index_byte_None c s : index_byte c s = None ↔ no_byte c s = true.
Proof.
  unfold no_byte. induction s as [|a s IH]; simpl; [done|].
  destruct (Ascii.eqb a c); simpl; [done|]. by rewrite fmap_None.
Qed.

Lemma str_join_cons sep x y l : str_join sep (x :: y :: l) = x +:+ sep +:+ str_join sep (y :: l).
Proof. done. Qed.

(** [strings.Split] and [strings.Join] are inverse. *)
Lemma split_byte_nonempty c s : split_byte c s ≠ [].
Proof. induction s as [|a s IH]; simpl; [done|]. destruct (Ascii.eqb a c); [done|]. by destruct (split_byte c s). Qed.

Lemma split_byte_no_byte c s : no_byte c s = true → split_byte c s = [s].
Proof.
  unfold no_byte. induction s as [|a s IH]; simpl; [done|].
  intros [Ha Hb]%andb_true_iff. apply negb_true_iff in Ha. by rewrite Ha, IH.
Qed.

Lemma split_byte_app c b r : no_byte c b = true → split_byte c (b +:+ String c r) = b :: split_byte c r.
Proof.
  unfold no_byte. induction b as [|a b IH]; simpl; [by rewrite Ascii.eqb_refl|].
  intros [Ha Hb]%andb_true_iff. apply negb_true_iff in Ha. rewrite Ha. by rewrite IH.
Qed.

Lemma split_join c l :
  l ≠ [] → Forall (λ x, no_byte c x = true) l → split_byte c (str_join (String c "") l) = l.
Proof.
  intros Hne Hl. induction Hl as [|x l Hx Hl IH]; [done|].
  destruct l as [|y l]; [by apply split_byte_no_byte|]. rewrite str_join_cons.
  change (String c "" +:+ str_join (String c "") (y :: l)) with (String c (str_join (String c "") (y :: l))).
  rewrite split_byte_app by done. by rewrite IH.
Qed.

Lemma join_split c s : str_join (String c "") (split_byte c s) = s.
Proof.
  induction s as [|a s IH]; simpl; [done|].
  pose proof (split_byte_nonempty c s) as Hne.
  destruct (Ascii.eqb a c) eqn:E.
  - apply Ascii.eqb_eq in E as ->. destruct (split_byte c s) as [|x xs]; [done|].
    rewrite str_join_cons, IH. done.
  - destruct (split_byte c s) as [|x xs]; [done|].
    destruct xs as [|y xs]; [by rewrite <- IH|]. rewrite str_join_cons in *. by rewrite <- IH.
Qed.

Lemma split_byte_pieces c s : Forall (λ x, no_byte c x = true) (split_byte c s).
Proof.
  induction s as [|a s IH]; simpl; [by repeat constructor|].
  destruct (Ascii.eqb a c) eqn:E; [by constructor|].
  destruct (split_byte c s) as [|x xs]; [by repeat constructor; unfold no_byte; simpl; rewrite E|].
  inversion IH; subst. constructor; [|done]. unfold no_byte in *. simpl. by rewrite E.
Qed.

Lemma trim_left_id p a s : p a = false → trim_left p (String a s) = String a s.
Proof. intros H. simpl. by rewrite H. Qed.

Lemma trim_left_head p s a t : trim_left p s = String a t → p a = false.
Proof. induction s as [|b s IH]; simpl; [done|]. destruct (p b) eqn:E; [done|]. congruence. Qed.

Lemma trim_left_length p s : (String.length (trim_left p s) ≤ String.length s)%nat.
Proof. induction s as [|a s IH]; simpl; [done|]. destruct (p a); simpl; lia. Qed.

Lemma prefix_app p s : has_prefix p (p +:+ s) = true.
Proof.
  unfold has_prefix. induction p as [|a p IH]; [by destruct s|].
  simpl. destruct (ascii_dec a a); [done|done].
Qed.

Lemma has_prefix_spec p s : has_prefix p s = true ↔ ∃ t, s = p +:+ t.
Proof.
  split; [|intros [t ->]; apply prefix_app].
  unfold has_prefix. revert s. induction p as [|a p IH]; intros s Hp; [by exists s|].
  destruct s as [|b s]; simpl in Hp; [done|]. destruct (ascii_dec a b) as [->|]; [|done].
  destruct (IH _ Hp) as [t ->]. by exists t.
Qed.

Lemma trim_prefix_app p s : trim_prefix p (p +:+ s) = s.
Proof. unfold trim_prefix. by rewrite prefix_app, str_drop_app. Qed.

Lemma split_byte_concat c s1 s2 :
  split_byte c (s1 +:+ s2) =
  (removelast (split_byte c s1) ++ split_byte c (List.last (split_byte c s1) "" +:+ s2))%list.
Proof.
  induction s1 as [|a s1 IH]; [done|].
  change (String a s1 +:+ s2) with (String a (s1 +:+ s2)). cbn [split_byte].
  pose proof (split_byte_nonempty c s1) as Hne. destruct (Ascii.eqb a c) eqn:E.
  - rewrite IH. destruct (split_byte c s1) as [|x xs]; done.
  - rewrite IH. destruct (split_byte c s1) as [|x xs]; [done|]. destruct xs as [|y ys].
    + simpl. rewrite E. done.
    + done.
Qed.

Lemma str_join_snoc sep l x : l ≠ [] → str_join sep (l ++ [x])%list = str_join sep l +:+ sep +:+ x.
Proof.
  induction l as [|y l IH]; intros Hne; [done|]. destruct l as [|z l]; [done|].
  change ((y :: z :: l) ++ [x])%list with (y :: z :: (l ++ [x]))%list. rewrite !str_join_cons.
  change (z :: l ++ [x])%list with ((z :: l) ++ [x])%list. rewrite IH by done. by rewrite !str_app_assoc.
Qed.

Lemma last_index_none c b : no_byte c b = true → last_index_byte c b = None.
Proof.
  unfold no_byte. induction b as [|a b IH]; cbn; [done|]. intros [Ha%negb_true_iff Hb]%andb_true_iff.
  by rewrite IH, Ha.
Qed.

Lemma last_index_app c b r : no_byte c r = true → last_index_byte c (b +:+ String c r) = Some (String.length b).
Proof.
  intros Hr. induction b as [|a b IH]; cbn; [by rewrite last_index_none, Ascii.eqb_refl|]. by rewrite IH.
Qed.

Create Rewrite HintDb gostrings.
#[export] Hint Rewrite str_app_nil_r str_app_assoc str_length_app str_all_app : gostrings.

(** Normalise concatenations: to the right, literals spelled out byte by byte. *)
Ltac str_norm := repeat (progress (simpl; rewrite ?str_app_assoc, ?str_app_nil_r)); try done.
