(* ===== verification/Utf8.v ===== *)
(** * UTF-8 strings as sequences of runes

    Facts about [GoStrings.runes], the decomposition that Go's [range] over a
    string computes: what it gives on a concatenation of encoded runes, at an
    ASCII boundary, and on valid UTF-8; and what [strings.Fields] and
    [strings.TrimSpace] give on words. *)

From Stdlib Require Import ZArith Lia Ascii Bool.
From stdpp Require Import base tactics list strings.
From S2P Require Import Prelude GoStrings.

#[local] Open Scope Z_scope.

(** A Unicode scalar value: what [encode_rune] encodes as itself. *)
Definition scalar (r : Z) : bool := (between 0 55295 r || between 57344 1114111 r)%bool.

(** The string whose runes are [l]. *)
Definition of_runes (l : list Z) : string := str_concat (encode_rune <$> l).

Lemma between_spec lo hi z : between lo hi z = true ↔ lo ≤ z ≤ hi.
Proof. unfold between. rewrite andb_true_iff, !Z.leb_le. lia. Qed.

Lemma between_false lo hi z : between lo hi z = false ↔ z < lo ∨ hi < z.
Proof. unfold between. rewrite andb_false_iff, !Z.leb_gt. lia. Qed.

Ltac between_tac :=
  repeat match goal with
  | H : between _ _ _ = true |- _ => apply between_spec in H
  | H : between _ _ _ = false |- _ => apply between_false in H
  end.

Lemma between_true lo hi z : lo ≤ z ≤ hi → between lo hi z = true.
Proof. apply between_spec. Qed.

Lemma between_out lo hi z : z < lo ∨ hi < z → between lo hi z = false.
Proof. apply between_false. Qed.

Ltac bt := rewrite between_true by lia.
Ltac bf := rewrite between_out by lia.
Ltac lt_t := match goal with |- context [Z.ltb ?a ?b] => rewrite (proj2 (Z.ltb_lt a b)) by lia end.
Ltac lt_f := match goal with |- context [Z.ltb ?a ?b] => rewrite (proj2 (Z.ltb_ge a b)) by lia end.

Lemma scalar_spec r : scalar r = true ↔ 0 ≤ r ≤ 55295 ∨ 57344 ≤ r ≤ 1114111.
Proof. unfold scalar. rewrite orb_true_iff, !between_spec. lia. Qed.

(** The four lengths of an encoding. *)
Lemma encode_1 r : 0 ≤ r < 128 → encode_rune r = String (byte_of_z r) "".
Proof. intros. unfold encode_rune. bf. repeat lt_f. simpl. by lt_t. Qed.

Lemma encode_2 r : 128 ≤ r < 2048 →
  encode_rune r = String (byte_of_z (192 + r / 64)) (String (byte_of_z (128 + r mod 64)) "").
Proof. intros. unfold encode_rune. bf. repeat lt_f. simpl. lt_f. by lt_t. Qed.

Lemma encode_3 r : 2048 ≤ r < 65536 → scalar r = true →
  encode_rune r = String (byte_of_z (224 + r / 4096))
      (String (byte_of_z (128 + (r / 64) mod 64)) (String (byte_of_z (128 + r mod 64)) "")).
Proof. intros ? Hs%scalar_spec. unfold encode_rune. bf. repeat lt_f. simpl. repeat lt_f. by lt_t. Qed.

Lemma encode_4 r : 65536 ≤ r < 1114112 →
  encode_rune r = String (byte_of_z (240 + r / 262144))
      (String (byte_of_z (128 + (r / 4096) mod 64))
        (String (byte_of_z (128 + (r / 64) mod 64)) (String (byte_of_z (128 + r mod 64)) ""))).
Proof. intros. unfold encode_rune. bf. repeat lt_f. simpl. by repeat lt_f. Qed.

Ltac divs r :=
  pose proof (Z.div_mod r 64 ltac:(lia)); pose proof (Z.mod_pos_bound r 64 ltac:(lia));
  pose proof (Z.div_mod (r / 64) 64 ltac:(lia)); pose proof (Z.mod_pos_bound (r / 64) 64 ltac:(lia));
  pose proof (Z.div_mod (r / 4096) 64 ltac:(lia)); pose proof (Z.mod_pos_bound (r / 4096) 64 ltac:(lia));
  assert (r / 64 / 64 = r / 4096) by (by rewrite Z.div_div by lia);
  assert (r / 4096 / 64 = r / 262144) by (by rewrite Z.div_div by lia).

(** Decoding an encoded rune gives it back, whatever follows. *)
Lemma decode_encode r s : scalar r = true →
  decode_rune (encode_rune r +:+ s) = (r, String.length (encode_rune r)).
Proof.
  intros Hs. pose proof Hs as Hr. apply scalar_spec in Hr. divs r.
  destruct (decide (r < 128)); [|destruct (decide (r < 2048)); [|destruct (decide (r < 65536))]].
  - rewrite encode_1 by lia. simpl. rewrite byte_z_of_z by lia. by lt_t.
  - rewrite encode_2 by lia. simpl.
    rewrite !byte_z_of_z by lia. lt_f. bt. unfold is_cont. bt. f_equal. lia.
  - rewrite encode_3 by (done || lia). simpl.
    assert (r / 4096 ≤ 15) by lia.
    rewrite !byte_z_of_z by lia. lt_f. bf. bt. unfold is_cont.
    rewrite !between_true; [simpl; f_equal; lia|lia|].
    destruct (Z.eqb_spec (224 + r / 4096) 224); destruct (Z.eqb_spec (224 + r / 4096) 237); lia.
  - rewrite encode_4 by lia. simpl.
    rewrite !byte_z_of_z by lia. lt_f. bf. bf. bt. unfold is_cont.
    rewrite !between_true; [simpl; f_equal; lia|lia|lia|].
    destruct (Z.eqb_spec (240 + r / 262144) 240); destruct (Z.eqb_spec (240 + r / 262144) 244); lia.
Qed.

Lemma encode_nonempty r : (0 < String.length (encode_rune r))%nat.
Proof. unfold encode_rune. repeat (destruct (Z.ltb _ _); try (simpl; lia)). Qed.

Lemma decode_width s : s ≠ ""%string → (1 ≤ (decode_rune s).2 ≤ String.length s)%nat.
Proof.
  destruct s as [|a0 s]; [done|]. intros _. simpl.
  destruct (Z.ltb _ _); [simpl; lia|].
  repeat (destruct (between _ _ (byte_z a0)); [repeat (break_match; simpl; try lia)|]). simpl; lia.
Qed.

Lemma str_take_app_length s t : str_take (String.length s) (s +:+ t) = s.
Proof. induction s as [|a s IH]; simpl; [by destruct t|]. by rewrite IH. Qed.

Lemma str_take_all s : str_take (String.length s) s = s.
Proof. induction s as [|a s IH]; simpl; [done|]. by rewrite IH. Qed.

(** The fuel of [runes] only has to cover the length. *)
Lemma runes_fuel_enough n m s :
  (String.length s ≤ n)%nat → (String.length s ≤ m)%nat → runes_fuel n s = runes_fuel m s.
Proof.
  revert m s. induction n as [|n IH]; intros m s Hn Hm.
  - destruct s; [by destruct m|simpl in Hn; lia].
  - destruct s as [|a s]; [by destruct m|]. destruct m as [|m]; [simpl in Hm; lia|].
    cbn [runes_fuel]. pose proof (decode_width (String a s) ltac:(done)) as Hw.
    destruct (decode_rune (String a s)) as [r w]. cbn [snd] in Hw. f_equal.
    pose proof (str_length_drop w (String a s)). apply IH; cbn [String.length] in *; lia.
Qed.

Lemma runes_unfold s : s ≠ ""%string →
  runes s = let '(r, w) := decode_rune s in (r, str_take w s) :: runes (str_drop w s).
Proof.
  intros Hs. unfold runes. destruct s as [|a s]; [done|]. cbn [String.length runes_fuel].
  pose proof (decode_width (String a s) ltac:(done)) as Hw.
  destruct (decode_rune (String a s)) as [r w]. cbn [snd] in Hw. f_equal.
  pose proof (str_length_drop w (String a s)). apply runes_fuel_enough; cbn [String.length] in *; lia.
Qed.

Lemma runes_encode r s : scalar r = true →
  runes (encode_rune r +:+ s) = (r, encode_rune r) :: runes s.
Proof.
  intros Hr. rewrite runes_unfold.
  - rewrite decode_encode by done. by rewrite str_take_app_length, str_drop_app.
  - pose proof (encode_nonempty r). by destruct (encode_rune r); simpl in *; [lia|].
Qed.

Lemma str_concat_cons x l : str_concat (x :: l) = x +:+ str_concat l.
Proof. done. Qed.

Lemma runes_of_runes l : Forall (λ r, scalar r = true) l →
  runes (of_runes l) = (λ r, (r, encode_rune r)) <$> l.
Proof.
  unfold of_runes. induction 1 as [|r l Hr _ IH]; [done|].
  rewrite !fmap_cons, str_concat_cons, runes_encode by done. by rewrite IH.
Qed.

Lemma runes_ascii a s : byte_z a < 128 →
  runes (String a s) = (byte_z a, String a "") :: runes s.
Proof.
  intros Ha. rewrite runes_unfold by done.
  unfold decode_rune. pose proof (byte_z_range a). lt_t. by destruct s.
Qed.

(** A byte that is not a continuation byte ends the rune before it. *)
Lemma decode_app_ascii s a t : s ≠ ""%string → byte_z a < 128 →
  decode_rune (s +:+ String a t) = decode_rune s.
Proof.
  intros Hs Ha. assert (Hc : is_cont (byte_z a) = false) by (apply between_out; lia).
  assert (H1 : ∀ lo hi, 128 ≤ lo → between lo hi (byte_z a) = false)
    by (intros; apply between_out; lia).
  destruct s as [|a0 [|a1 [|a2 [|a3 s]]]]; [done|..]; simpl;
    destruct (Z.ltb _ 128); try done; destruct (between 194 223 _); rewrite ?Hc; try done;
    destruct (between 224 239 _); rewrite ?Hc, ?andb_false_r; try done;
    rewrite ?H1 by (destruct (Z.eqb _ _); lia); try done;
    try (destruct t; done); try (by destruct t as [|? [|? t]]);
    destruct (between 240 244 _); rewrite ?Hc, ?andb_false_r; try done;
    rewrite ?H1 by (destruct (Z.eqb _ _); lia); try done;
    try (by destruct t as [|? [|? t]]).
Qed.

Lemma str_take_app_le n s t : (n ≤ String.length s)%nat → str_take n (s +:+ t) = str_take n s.
Proof.
  revert s. induction n as [|n IH]; intros s Hn; [by destruct s, t|].
  destruct s as [|a s]; simpl in *; [lia|]. rewrite IH by lia. done.
Qed.

Lemma str_drop_app_le n s t : (n ≤ String.length s)%nat → str_drop n (s +:+ t) = str_drop n s +:+ t.
Proof.
  revert s. induction n as [|n IH]; intros s Hn; [by destruct s, t|].
  destruct s as [|a s]; simpl in *; [lia|]. rewrite IH by lia. done.
Qed.

Lemma runes_app_ascii s a t : byte_z a < 128 →
  runes (s +:+ String a t) = runes s ++ runes (String a t).
Proof.
  intros Ha. remember (String.length s) as n eqn:En. revert s En.
  induction (lt_wf n) as [n _ IH]. intros s ->.
  destruct s as [|b s]; [done|].
  rewrite !(runes_unfold (String b s)) by done. rewrite runes_unfold by done.
  rewrite (decode_app_ascii (String b s)) by done.
  pose proof (decode_width (String b s) ltac:(done)) as Hw.
  destruct (decode_rune (String b s)) as [r w]. cbn [snd] in Hw. cbn [app].
  rewrite str_take_app_le, str_drop_app_le by lia. f_equal.
  pose proof (str_length_drop w (String b s)). eapply IH; [|reflexivity]. cbn [String.length] in *. lia.
Qed.

(** A string is the concatenation of the bytes of its runes. *)
Lemma runes_concat s : str_concat (snd <$> runes s) = s.
Proof.
  remember (String.length s) as n eqn:En. revert s En.
  induction (lt_wf n) as [n _ IH]. intros s ->.
  destruct s as [|b s]; [done|]. rewrite runes_unfold by done.
  pose proof (decode_width (String b s) ltac:(done)) as Hw.
  destruct (decode_rune (String b s)) as [r w]. cbn [snd] in Hw. rewrite fmap_cons, str_concat_cons. cbn [snd].
  pose proof (str_length_drop w (String b s)).
  rewrite (IH (String.length (str_drop w (String b s)))) by (done || cbn [String.length] in *; lia).
  apply str_take_drop.
Qed.

Lemma str_concat_app l1 l2 : str_concat (l1 ++ l2) = str_concat l1 +:+ str_concat l2.
Proof. induction l1 as [|x l1 IH]; simpl; [done|]. by rewrite IH, str_app_assoc. Qed.

(** ** Words: [strings.Fields] and [strings.TrimSpace] *)

Definition no_space_runes (l : list (Z * string)) : bool := forallb (λ '(r, _), negb (is_space r)) l.

(** A word: not empty, no rune of it is white space. *)
Definition word (s : string) : bool := negb (String.eqb s "") && no_space_runes (runes s).

Lemma fields_runes_word l rest cur : no_space_runes l = true →
  fields_runes (l ++ rest) cur = fields_runes rest (cur +:+ str_concat (snd <$> l)).
Proof.
  revert cur. induction l as [|[r bs] l IH]; intros cur; [by rewrite str_app_nil_r|].
  cbn [no_space_runes forallb app fields_runes]. intros [Hr%negb_true_iff Hl]%andb_true_iff.
  rewrite Hr, IH by done. rewrite fmap_cons, str_concat_cons. by rewrite str_app_assoc.
Qed.

Lemma word_nonempty s : word s = true → s ≠ ""%string.
Proof. unfold word. by intros [?%negb_true_iff%String.eqb_neq _]%andb_true_iff. Qed.

Lemma fields_word_app w s : word w = true → fields (w +:+ String SP s) = w :: fields s.
Proof.
  intros Hw. pose proof (word_nonempty _ Hw) as Hne. apply andb_true_iff in Hw as [_ Hw].
  unfold fields. rewrite runes_app_ascii by (vm_compute; done).
  rewrite fields_runes_word by done. rewrite runes_concat, runes_ascii by (vm_compute; done).
  cbn [fields_runes String.app]. change (is_space (byte_z SP)) with true. cbv match.
  by destruct (String.eqb_spec w "").
Qed.

Lemma fields_word w : word w = true → fields w = [w].
Proof.
  intros Hw. pose proof (word_nonempty _ Hw) as Hne. apply andb_true_iff in Hw as [_ Hw].
  unfold fields. rewrite <- (app_nil_r (runes w)), fields_runes_word by done.
  rewrite runes_concat. cbn [fields_runes String.app]. by destruct (String.eqb_spec w "").
Qed.

Lemma fields_join l : Forall (λ w, word w = true) l → fields (str_join " " l) = l.
Proof.
  induction 1 as [|w l Hw Hl IH]; [done|]. destruct l as [|x l]; [by apply fields_word|].
  rewrite str_join_cons.
  change (w +:+ " " +:+ str_join " " (x :: l)) with (w +:+ String SP (str_join " " (x :: l))).
  rewrite fields_word_app by done. by rewrite IH.
Qed.

Lemma no_space_cons r bs l : no_space_runes ((r, bs) :: l) = negb (is_space r) && no_space_runes l.
Proof. done. Qed.

Lemma drop_space_no l : no_space_runes l = true → drop_space l = l.
Proof. destruct l as [|[r bs] l]; [done|]. cbn. by intros [->%negb_true_iff _]%andb_true_iff. Qed.

Lemma no_space_rev l : no_space_runes (rev l) = no_space_runes l.
Proof.
  unfold no_space_runes. induction l as [|[r bs] l IH]; [done|].
  cbn [rev forallb]. rewrite forallb_app, IH. cbn. rewrite andb_true_r. apply andb_comm.
Qed.

Lemma drop_space_head l : match drop_space l with (r, _) :: _ => is_space r = false | [] => True end.
Proof. induction l as [|[r bs] l IH]; [done|]. cbn. by destruct (is_space r) eqn:?. Qed.

(** [TrimSpace] leaves a string without white space as it is. *)
Lemma trim_space_no s : no_space_runes (runes s) = true → trim_space s = s.
Proof.
  intros H. unfold trim_space. rewrite (drop_space_no (runes s)) by done.
  rewrite drop_space_no by (by rewrite no_space_rev). rewrite rev_involutive. apply runes_concat.
Qed.

(** Every byte of an ASCII word is itself a rune. *)
Lemma runes_ascii_all s : str_all is_ascii s = true →
  runes s = (λ a, (byte_z a, String a "")) <$> String.list_ascii_of_string s.
Proof.
  induction s as [|a s IH]; [done|]. cbn [str_all]. intros [Ha Hs]%andb_true_iff.
  unfold is_ascii in Ha. rewrite runes_ascii by (by apply Z.ltb_lt). by rewrite IH.
Qed.

(** ** Mapping the runes of a string *)

Section map.
Context `{UnicodeTables}.

(** [strings.Map] by the identity: the repair of invalid UTF-8. *)
Definition to_valid (s : string) : string := of_runes (fst <$> runes s).

Lemma map_runes_of_runes f l : Forall (λ r, scalar r = true) l → Forall (λ r, 0 ≤ f r) l →
  map_runes f (of_runes l) = of_runes (f <$> l).
Proof.
  intros Hl Hf. unfold map_runes. rewrite runes_of_runes by done. unfold of_runes. f_equal.
  rewrite <- !list_fmap_compose. apply list_fmap_ext. intros i r Hr. cbn.
  rewrite (proj2 (Z.ltb_ge (f r) 0)); [done|]. by apply (Forall_lookup_1 _ _ _ _ Hf Hr).
Qed.
End map.

(** The digits of a code point in base 64: what the encoder takes out is what
    the decoder put in. *)
Lemma digit_low q b : 0 ≤ b < 64 → (q * 64 + b) / 64 = q ∧ (q * 64 + b) mod 64 = b.
Proof.
  intros H. split; [symmetry; apply (Z.div_unique _ _ _ b); lia|].
  symmetry. apply (Z.mod_unique _ _ q); lia.
Qed.

Lemma encode_join2 a b : 194 ≤ a ≤ 223 → 128 ≤ b ≤ 191 →
  encode_rune ((a - 192) * 64 + (b - 128)) = String (byte_of_z a) (String (byte_of_z b) "").
Proof.
  intros Ha Hb. destruct (digit_low (a - 192) (b - 128)) as [D M]; [lia|].
  rewrite encode_2 by lia. rewrite D, M. by rewrite !Zplus_minus.
Qed.

Lemma encode_join3 a b c : 224 ≤ a ≤ 239 → 128 ≤ b ≤ 191 → 128 ≤ c ≤ 191 →
  (160 ≤ b ∨ a ≠ 224) → scalar ((a - 224) * 4096 + (b - 128) * 64 + (c - 128)) = true →
  encode_rune ((a - 224) * 4096 + (b - 128) * 64 + (c - 128)) =
    String (byte_of_z a) (String (byte_of_z b) (String (byte_of_z c) "")).
Proof.
  intros Ha Hb Hc Hlo Hr. rewrite encode_3 by (done || lia).
  replace (_ + _ + _) with (((a - 224) * 64 + (b - 128)) * 64 + (c - 128)) by lia.
  change 4096 with (64 * 64). rewrite <- Z.div_div by lia.
  destruct (digit_low ((a - 224) * 64 + (b - 128)) (c - 128)) as [-> ->]; [lia|].
  destruct (digit_low (a - 224) (b - 128)) as [-> ->]; [lia|]. by rewrite !Zplus_minus.
Qed.

Lemma encode_join4 a b c d : 240 ≤ a ≤ 244 → 128 ≤ b ≤ 191 → 128 ≤ c ≤ 191 → 128 ≤ d ≤ 191 →
  (144 ≤ b ∨ a ≠ 240) → (b ≤ 143 ∨ a ≠ 244) →
  encode_rune ((a - 240) * 262144 + (b - 128) * 4096 + (c - 128) * 64 + (d - 128)) =
    String (byte_of_z a) (String (byte_of_z b) (String (byte_of_z c) (String (byte_of_z d) ""))).
Proof.
  intros Ha Hb Hc Hd Hlo Hhi. rewrite encode_4 by lia.
  replace (_ + _ + _ + _) with ((((a - 240) * 64 + (b - 128)) * 64 + (c - 128)) * 64 + (d - 128)) by lia.
  change 262144 with (64 * 64 * 64). change 4096 with (64 * 64). rewrite <- !Z.div_div by lia.
  destruct (digit_low (((a - 240) * 64 + (b - 128)) * 64 + (c - 128)) (d - 128)) as [-> ->]; [lia|].
  destruct (digit_low ((a - 240) * 64 + (b - 128)) (c - 128)) as [-> ->]; [lia|].
  destruct (digit_low (a - 240) (b - 128)) as [-> ->]; [lia|]. by rewrite !Zplus_minus.
Qed.

(** What the decoder returns is a scalar value, and unless it is the error of
    width one, encoding it again gives the bytes it was read from. *)
Lemma decode_scalar s : s ≠ ""%string →
  scalar (decode_rune s).1 = true ∧
  (decode_rune s ≠ (rune_error, 1%nat) → encode_rune (decode_rune s).1 = str_take (decode_rune s).2 s).
Proof.
  destruct s as [|a0 s]; [done|]. intros _.
  pose proof (byte_z_range a0). cbn [decode_rune].
  destruct (Z.ltb (byte_z a0) 128) eqn:E0; boolify.
  { cbn [fst snd str_take]. split; [apply scalar_spec; lia|]. intros _.
    rewrite encode_1 by lia. rewrite byte_of_byte_z. by destruct s. }
  assert (He : scalar rune_error = true) by done.
  destruct (between 194 223 _) eqn:E1; between_tac.
  { destruct s as [|a1 s]; [by split|]. pose proof (byte_z_range a1).
    destruct (is_cont (byte_z a1)) eqn:E2; [|by split]. unfold is_cont in *. between_tac.
    cbn [fst snd str_take]. split; [apply scalar_spec; lia|]. intros _.
    rewrite encode_join2, !byte_of_byte_z by lia. by destruct s. }
  destruct (between 224 239 _) eqn:E2; between_tac.
  { destruct s as [|a1 [|a2 s]]; [by split..|]. pose proof (byte_z_range a1). pose proof (byte_z_range a2).
    destruct (_ && _) eqn:E3; [|by split]. boolify. unfold is_cont in *. between_tac.
    cbn [fst snd str_take].
    assert (128 ≤ byte_z a1 ≤ 191 ∧ (160 ≤ byte_z a1 ∨ byte_z a0 ≠ 224) ∧
      (byte_z a1 ≤ 159 ∨ byte_z a0 ≠ 237)) as (? & ? & ?).
    { destruct (Z.eqb_spec (byte_z a0) 224), (Z.eqb_spec (byte_z a0) 237); lia. }
    match goal with |- scalar ?r = true ∧ _ => assert (Hr : scalar r = true) by (apply scalar_spec; lia) end.
    split; [done|]. intros _. rewrite encode_join3, !byte_of_byte_z by (done || lia). by destruct s. }
  destruct (between 240 244 _) eqn:E3; between_tac; [|by split].
  destruct s as [|a1 [|a2 [|a3 s]]]; [by split..|].
  pose proof (byte_z_range a1). pose proof (byte_z_range a2). pose proof (byte_z_range a3).
  destruct (_ && _) eqn:E4; [|by split]. boolify. unfold is_cont in *. between_tac.
  cbn [fst snd str_take].
  assert (128 ≤ byte_z a1 ≤ 191 ∧ (144 ≤ byte_z a1 ∨ byte_z a0 ≠ 240) ∧
    (byte_z a1 ≤ 143 ∨ byte_z a0 ≠ 244)) as (? & ? & ?).
  { destruct (Z.eqb_spec (byte_z a0) 240), (Z.eqb_spec (byte_z a0) 244); lia. }
  split; [apply scalar_spec; lia|]. intros _. rewrite encode_join4, !byte_of_byte_z by lia. by destruct s.
Qed.

Lemma runes_ind (P : string → Prop) :
  P ""%string →
  (∀ s, s ≠ ""%string → P (str_drop (decode_rune s).2 s) → P s) → ∀ s, P s.
Proof.
  intros H0 Hs s. remember (String.length s) as n eqn:En. revert s En.
  induction (lt_wf n) as [n _ IH]. intros s ->.
  destruct (decide (s = ""%string)) as [->|Hne]; [done|]. apply Hs; [done|].
  pose proof (decode_width s Hne). pose proof (str_length_drop (decode_rune s).2 s).
  eapply IH; [|reflexivity]. lia.
Qed.

Lemma runes_scalar s : Forall (λ r, scalar r = true) (fst <$> runes s).
Proof.
  induction s as [|s Hne IH] using runes_ind; [constructor|].
  rewrite runes_unfold by done. pose proof (decode_scalar s Hne) as [Hr _].
  destruct (decode_rune s) as [r w]. cbn in *. by constructor.
Qed.

Lemma to_valid_valid s : valid_utf8 s = true → to_valid s = s.
Proof.
  unfold to_valid, of_runes, valid_utf8. induction s as [|s Hne IH] using runes_ind; [done|].
  rewrite runes_unfold by done. pose proof (decode_scalar s Hne) as [_ Hr].
  pose proof (decode_width s Hne) as Hw. destruct (decode_rune s) as [r w]. cbn [fst snd] in *.
  cbn [forallb]. intros [Hv Hs]%andb_true_iff. rewrite !fmap_cons, str_concat_cons, IH by done. cbn [fst].
  rewrite Hr; [apply str_take_drop|]. intros [= -> ->]. rewrite Z.eqb_refl in Hv.
  assert (String.length (str_take 1 s) = 1%nat) as Hl by (destruct s as [|? []]; done). by rewrite Hl in Hv.
Qed.

Lemma runes_to_valid s : runes (to_valid s) = (λ r, (r, encode_rune r)) <$> (fst <$> runes s).
Proof. apply runes_of_runes, runes_scalar. Qed.

Lemma to_valid_idemp s : to_valid (to_valid s) = to_valid s.
Proof.
  unfold to_valid at 1. rewrite runes_to_valid. unfold to_valid. f_equal.
  rewrite <- !list_fmap_compose. by apply list_fmap_ext.
Qed.

Lemma of_runes_app l1 l2 : of_runes (l1 ++ l2) = of_runes l1 +:+ of_runes l2.
Proof. unfold of_runes. by rewrite fmap_app, str_concat_app. Qed.

Lemma valid_ascii s : str_all is_ascii s = true → valid_utf8 s = true.
Proof.
  intros Hs. unfold valid_utf8. rewrite runes_ascii_all by done.
  induction s as [|a s IH]; [done|]. cbn [str_all] in Hs. apply andb_true_iff in Hs as [Ha Hs].
  cbn [String.list_ascii_of_string fmap list_fmap forallb]. rewrite IH by done.
  unfold is_ascii in Ha. boolify. unfold rune_error.
  destruct (Z.eqb_spec (byte_z a) 65533); [lia|done].
Qed.
