(* ===== verification/GoNet.v ===== *)
(** * Addresses, paths and base64 as Go's standard library reads them

    [net.ParseIP] with [IP.IsLoopback], [net.ParseCIDR] with [IPNet.Contains],
    [net.SplitHostPort], [path.Clean] with what is built on it, and
    [base64.StdEncoding.DecodeString]. *)

From Stdlib Require Import ZArith Lia Ascii Bool.
From stdpp Require Import base tactics list strings.
From S2P Require Import Prelude GoStrings.

#[local] Open Scope Z_scope.

(** ** [netip.ParseAddr], through which [net.ParseIP] goes *)

(** One decimal field of an IPv4 address: digits only, no leading zero, at
    most 255. *)
Definition ipv4_field (s : string) : option Z :=
  match s with
  | "" => None
  | String a rest =>
      if Ascii.eqb a "0" && negb (String.eqb rest "") then None
      else v ← parse_digits s 0; if Z.leb v 255 then Some v else None
  end%string.

Definition parse_ipv4 (s : string) : option (list Z) :=
  match split_byte "."%char s with
  | [_; _; _; _] as fs => mapM ipv4_field fs
  | _ => None
  end.

Definition hex_val (a : ascii) : option Z :=
  let z := byte_z a in
  if between 48 57 z then Some (z - 48)
  else if between 97 102 z then Some (z - 87)
  else if between 65 70 z then Some (z - 55)
  else None.

(** The leading hexadecimal group: its value, its length, the rest; a group of
    more than four digits is an error. *)
Fixpoint hex_group (s : string) (acc : Z) (off : nat) : option (Z * nat * string) :=
  match s with
  | "" => Some (acc, off, "")
  | String a rest =>
      match hex_val a with
      | Some d => if (3 <? off)%nat then None else hex_group rest (acc * 16 + d) (S off)
      | None => Some (acc, off, s)
      end
  end%string.

Record v6_state := V6 {
  v6_bytes : list Z;            (** the bytes read, in order *)
  v6_ellipsis : option nat;     (** where the [::] stands *)
  v6_rest : string;             (** what is left of the text *)
}.

(** The loop over the groups; an address has at most eight, the fuel. *)
Fixpoint ipv6_loop (fuel : nat) (st : v6_state) : option v6_state :=
  match fuel with
  | O => Some st
  | S fuel =>
      let s := v6_rest st in
      let i := length (v6_bytes st) in
      '(acc, off, rest) ← hex_group s 0 0%nat;
      if bool_decide (off = 0%nat) then None
      else if has_prefix "." rest then
        if bool_decide (v6_ellipsis st = None) && negb (Nat.eqb i 12) then None
        else if (16 <? i + 4)%nat then None
        else v4 ← parse_ipv4 s; Some (V6 (v6_bytes st ++ v4) (v6_ellipsis st) ""%string)
      else
        let bs := v6_bytes st ++ [acc / 256; acc mod 256] in
        match rest with
        | EmptyString => Some (V6 bs (v6_ellipsis st) ""%string)
        | String a rest =>
            if negb (Ascii.eqb a ":") then None
            else match rest with
                 | EmptyString => None
                 | String b rest' =>
                     if Ascii.eqb b ":" then
                       match v6_ellipsis st with
                       | Some _ => None
                       | None =>
                           let st := V6 bs (Some (length bs)) rest' in
                           if String.eqb rest' ""%string then Some st else ipv6_loop fuel st
                       end
                     else ipv6_loop fuel (V6 bs (v6_ellipsis st) rest)
                 end
        end
  end.

Definition ipv6_finish (st : v6_state) : option (list Z) :=
  let i := length (v6_bytes st) in
  if negb (String.eqb (v6_rest st) "") then None
  else if (i <? 16)%nat then
    e ← v6_ellipsis st;
    Some (take e (v6_bytes st) ++ replicate (16 - i) 0 ++ drop e (v6_bytes st))
  else match v6_ellipsis st with Some _ => None | None => Some (v6_bytes st) end.

Definition parse_ipv6 (s : string) : option (list Z) :=
  if has_prefix "::" s then
    let s := str_drop 2 s in
    if String.eqb s "" then Some (replicate 16 0)
    else ipv6_loop 8 (V6 [] (Some O) s) ≫= ipv6_finish
  else ipv6_loop 8 (V6 [] None s) ≫= ipv6_finish.

(** [net.ParseIP]: the first of [.], [:] and [%] decides; a zone is refused. *)
Fixpoint parse_ip_scan (t : string) (s : string) : option (list Z) :=
  match t with
  | "" => None
  | String a t =>
      if Ascii.eqb a "." then parse_ipv4 s
      else if Ascii.eqb a ":" then (if no_byte "%" s then parse_ipv6 s else None)
      else if Ascii.eqb a "%" then None
      else parse_ip_scan t s
  end.

Definition parse_ip (s : string) : option (list Z) := parse_ip_scan s s.

(** [IP.IsLoopback]: [127.0.0.0/8], also when mapped into IPv6, and [::1]. *)
Definition is_loopback_ip (ip : list Z) : bool :=
  let v4 := if bool_decide (length ip = 4%nat) then Some ip
            else if bool_decide (take 12 ip = replicate 10 0 ++ [255; 255]) then Some (drop 12 ip) else None in
  match v4 with
  | Some (b :: _) => Z.eqb b 127
  | _ => bool_decide (ip = replicate 15 0 ++ [1])
  end.

(** [IP.To4]. *)
Definition to4 (ip : list Z) : option (list Z) :=
  if bool_decide (length ip = 4%nat) then Some ip
  else if bool_decide (length ip = 16%nat ∧ take 12 ip = replicate 10 0 ++ [255; 255]) then Some (drop 12 ip)
  else None.

(** ** Networks: [net.ParseCIDR], [IPNet.Contains] *)

Record ip_net := IPNet { in_ip : list Z; in_mask : list Z }.

(** One byte of a mask with [n] bits to go. *)
Definition mask_byte (n : Z) : Z := if 8 <=? n then 255 else if n <=? 0 then 0 else 255 - (2 ^ (8 - n) - 1).

(** [CIDRMask(ones, 8 * size)]. *)
Definition cidr_mask (ones : Z) (size : nat) : list Z := (λ i, mask_byte (ones - 8 * Z.of_nat i)) <$> seq 0 size.

Definition and_bytes (a b : list Z) : list Z := zip_with Z.land a b.

(** [IP.Mask] of a 16-byte address with a mask of 4 or 16 bytes. *)
Definition ip_mask (ip mask : list Z) : list Z :=
  match to4 ip with
  | Some v4 => if bool_decide (length mask = 4%nat) then and_bytes v4 mask else and_bytes ip mask
  | None => and_bytes ip mask
  end.

(** An address in 16 bytes, [netip.Addr.As16]. *)
Definition as16 (ip : list Z) : list Z :=
  if bool_decide (length ip = 4%nat) then replicate 10 0 ++ [255; 255] ++ ip else ip.

Definition parse_cidr (s : string) : option ip_net :=
  match index_byte "/" s with
  | None => None
  | Some i =>
      let '(addr, bits) := (str_take i s, str_drop (S i) s) in
      ip ← parse_ip addr;
      n ← (if String.eqb bits "" then None else parse_digits bits 0);
      if 8 * Z.of_nat (length ip) <? n then None
      else let m := cidr_mask n (length ip) in Some (IPNet (ip_mask (as16 ip) m) m)
  end.

(** [IPNet.Contains]. *)
Definition net_contains (n : ip_net) (ip : list Z) : bool :=
  let base := default (in_ip n) (to4 (in_ip n)) in
  let mask := if bool_decide (length (in_mask n) = 16%nat ∧ length base = 4%nat) then drop 12 (in_mask n) else in_mask n in
  let ip := default ip (to4 ip) in
  bool_decide (length ip = length base ∧ and_bytes base mask = and_bytes ip mask).

(** [net.SplitHostPort], its host. *)
Definition split_host (s : string) : option string :=
  i ← last_index_byte ":" s;
  if has_prefix "[" s then
    e ← index_byte "]" s;
    if negb (S e =? i)%nat then None
    else if str_in "[" (str_drop 1 s) || str_in "]" (str_drop (S e) s) then None
    else Some (str_drop 1 (str_take e s))
  else
    let host := str_take i s in
    if str_in ":" host || str_in "[" s || str_in "]" s then None else Some host.

(** ** Paths: packages path, and path/filepath on a Unix system *)

Definition SLASH : ascii := "/"%char.

Definition path_base (p : string) : string :=
  match p with
  | "" => "."
  | _ =>
      let q := trim_right (Ascii.eqb SLASH) p in
      match q with
      | "" => "/"
      | _ => match last_index_byte SLASH q with Some i => str_drop (S i) q | None => q end
      end
  end%string.

(** One element of a path while it is cleaned; [out] is reversed. *)
Definition clean_step (rooted : bool) (out : list string) (e : string) : list string :=
  if (String.eqb e "" || String.eqb e ".")%bool then out
  else if String.eqb e ".." then
    match out with
    | [] => if rooted then [] else [".."]
    | x :: out' => if String.eqb x ".." then ".." :: out else out'
    end
  else e :: out.

Definition path_clean (p : string) : string :=
  let rooted := has_prefix "/" p in
  let out := foldl (clean_step rooted) [] (split_byte SLASH p) in
  let s := str_join "/" (reverse out) in
  if rooted then "/" +:+ s else if String.eqb s "" then "." else s.

(** [Join] of a directory and a name, neither empty. *)
Definition path_join (dir name : string) : string := path_clean (dir +:+ "/" +:+ name).

(** ** Base64 *)

Definition b64_val (a : ascii) : option Z :=
  let z := byte_z a in
  if between 65 90 z then Some (z - 65)
  else if between 97 122 z then Some (z - 71)
  else if between 48 57 z then Some (z + 4)
  else if Z.eqb z 43 then Some 62
  else if Z.eqb z 47 then Some 63
  else None.

Definition b64_bytes (v : Z) (n : nat) : string :=
  str_take n (String (byte_of_z (v / 65536)) (String (byte_of_z ((v / 256) mod 256)) (String (byte_of_z (v mod 256)) ""))).

(** Quanta of four characters; [=] only pads the last one. *)
Fixpoint b64_quanta (s : string) : option string :=
  match s with
  | "" => Some ""
  | String a (String b (String c (String d rest))) =>
      va ← b64_val a; vb ← b64_val b;
      if Ascii.eqb c "=" then
        if Ascii.eqb d "=" && String.eqb rest "" then Some (b64_bytes (va * 262144 + vb * 4096) 1) else None
      else
        vc ← b64_val c;
        if Ascii.eqb d "=" then
          if String.eqb rest "" then Some (b64_bytes (va * 262144 + vb * 4096 + vc * 64) 2) else None
        else
          vd ← b64_val d; t ← b64_quanta rest;
          Some (b64_bytes (va * 262144 + vb * 4096 + vc * 64 + vd) 3 +:+ t)
  | _ => None
  end%string.

(** Line breaks are skipped wherever they stand. *)
Fixpoint drop_crlf (s : string) : string :=
  match s with
  | "" => ""
  | String a s => if is_crlf a then drop_crlf s else String a (drop_crlf s)
  end%string.

Definition b64_decode (s : string) : option string := b64_quanta (drop_crlf s).

(** [base64.StdEncoding.EncodeToString]. *)
Definition b64_char (v : Z) : ascii :=
  byte_of_z (if v <? 26 then v + 65 else if v <? 52 then v + 71 else if v <? 62 then v - 4
             else if v =? 62 then 43 else 47).

Definition b64_digit (v : Z) (i : Z) : ascii := b64_char ((v / 64 ^ i) mod 64).

Fixpoint b64_encode (s : string) : string :=
  match s with
  | "" => ""
  | String a "" =>
      let v := byte_z a * 65536 in String (b64_digit v 3) (String (b64_digit v 2) "==")
  | String a (String b "") =>
      let v := byte_z a * 65536 + byte_z b * 256 in
      String (b64_digit v 3) (String (b64_digit v 2) (String (b64_digit v 1) "="))
  | String a (String b (String c rest)) =>
      let v := byte_z a * 65536 + byte_z b * 256 + byte_z c in
      String (b64_digit v 3) (String (b64_digit v 2) (String (b64_digit v 1) (String (b64_digit v 0) (b64_encode rest))))
  end%string.

(** What the encoder writes. *)
Definition b64_alphabet (a : ascii) : bool := bool_decide (is_Some (b64_val a)) || Ascii.eqb a "=".

(** ** The decoders on known inputs *)

Example loopbacks :
  ((λ s, is_loopback_ip <$> parse_ip s) <$>
    ["127.0.0.1"; "127.9.8.7"; "::1"; "::ffff:127.0.0.1"; "0:0:0:0:0:0:0:1"]%string)
  = replicate 5 (Some true).
Proof. vm_compute. reflexivity. Qed.

Example not_loopbacks :
  ((λ s, is_loopback_ip <$> parse_ip s) <$>
    ["10.0.0.1"; "::2"; "2001:db8::1"; "127.0.0"; "127.0.0.01"; "::1%lo"; "1:2:3:4:5:6:7:8::"; ":::1"; ""; "localhost"]%string)
  = [Some false; Some false; Some false; None; None; None; None; None; None; None].
Proof. vm_compute. reflexivity. Qed.

Example b64_plain : b64_decode "AGJvYi9saWJlcmEAc2VjcmV0" = Some (String NUL "bob/libera" +:+ String NUL "secret")%string.
Proof. vm_compute. reflexivity. Qed.

Example b64_padding : b64_decode <$> ["TQ=="; "TWE="; "TWFu"; "TQ="; "TQ==TQ=="; "T$=="]%string =
  [Some "M"; Some "Ma"; Some "Man"; None; None; None]%string.
Proof. vm_compute. reflexivity. Qed.

(** ** Encoding round-trips *)

Lemma b64_char_cases (P : Z → Prop) : (∀ n, (n < 64)%nat → P (Z.of_nat n)) → ∀ v, 0 ≤ v < 64 → P v.
Proof. intros HP v Hv. rewrite <- (Z2Nat.id v) by lia. apply HP. lia. Qed.

Lemma b64_val_char v : 0 ≤ v < 64 → b64_val (b64_char v) = Some v.
Proof.
  revert v. apply b64_char_cases. intros n Hn.
  assert (Hall : forallb (λ n, bool_decide (b64_val (b64_char (Z.of_nat n)) = Some (Z.of_nat n))) (seq 0 64) = true) by by vm_compute.
  rewrite forallb_forall in Hall. specialize (Hall n ltac:(apply in_seq; lia)). by apply bool_decide_eq_true in Hall.
Qed.

Lemma b64_digit_range v i : 0 ≤ (v / 64 ^ i) mod 64 < 64.
Proof. by apply Z.mod_pos_bound. Qed.

Lemma b64_val_digit v i : b64_val (b64_digit v i) = Some ((v / 64 ^ i) mod 64).
Proof. apply b64_val_char, b64_digit_range. Qed.

Lemma b64_digit_plain v i : Ascii.eqb (b64_digit v i) "=" = false ∧ is_crlf (b64_digit v i) = false.
Proof.
  assert (Hv := b64_val_digit v i). split.
  - destruct (Ascii.eqb_spec (b64_digit v i) "=") as [E|]; [|done]. rewrite E in Hv. by vm_compute in Hv.
  - unfold is_crlf. destruct (Ascii.eqb_spec (b64_digit v i) CR) as [E|]; [rewrite E in Hv; by vm_compute in Hv|].
    destruct (Ascii.eqb_spec (b64_digit v i) LF) as [E|]; [rewrite E in Hv; by vm_compute in Hv|done].
Qed.

Lemma b64_digits v : 0 ≤ v < 2 ^ 24 →
  (v / 64 ^ 3) mod 64 * 262144 + (v / 64 ^ 2) mod 64 * 4096 + (v / 64 ^ 1) mod 64 * 64 + (v / 64 ^ 0) mod 64 = v.
Proof.
  intros Hv. change (64 ^ 3) with 262144. change (64 ^ 2) with 4096. change (64 ^ 1) with 64. change (64 ^ 0) with 1.
  Z.to_euclidean_division_equations; lia.
Qed.

(** Induction three bytes at a time. *)
Lemma triples_ind (P : string → Prop) :
  P ""%string → (∀ a, P (String a "")) → (∀ a b, P (String a (String b ""))) →
  (∀ a b c s, P s → P (String a (String b (String c s)))) → ∀ s, P s.
Proof.
  intros H0 H1 H2 H3 s. assert (Hs : P s ∧ (∀ a, P (String a s)) ∧ ∀ a b, P (String a (String b s))); [|apply Hs].
  induction s as [|c s (IH0 & IH1 & IH2)]; [done|]. split_and!; auto.
Qed.

Lemma b64_encode_no_crlf s : drop_crlf (b64_encode s) = b64_encode s.
Proof.
  induction s as [|a|a b|a b c s IH] using triples_ind; [done|..]; cbn [b64_encode drop_crlf];
    rewrite ?(proj2 (b64_digit_plain _ _)); try done. by rewrite IH.
Qed.

Lemma b64_bytes_1 a : b64_bytes (byte_z a * 65536) 1 = String a "".
Proof. unfold b64_bytes. rewrite Z.div_mul by done. cbn. by rewrite byte_of_byte_z. Qed.

Lemma b64_bytes_2 a b : b64_bytes (byte_z a * 65536 + byte_z b * 256) 2 = String a (String b "").
Proof.
  pose proof (byte_z_range a). pose proof (byte_z_range b). unfold b64_bytes.
  replace ((byte_z a * 65536 + byte_z b * 256) / 65536) with (byte_z a) by (Z.to_euclidean_division_equations; lia).
  replace (((byte_z a * 65536 + byte_z b * 256) / 256) mod 256) with (byte_z b) by (Z.to_euclidean_division_equations; lia).
  cbn. by rewrite !byte_of_byte_z.
Qed.

Lemma b64_bytes_3 a b c : b64_bytes (byte_z a * 65536 + byte_z b * 256 + byte_z c) 3 = String a (String b (String c "")).
Proof.
  pose proof (byte_z_range a). pose proof (byte_z_range b). pose proof (byte_z_range c). unfold b64_bytes.
  set (v := byte_z a * 65536 + byte_z b * 256 + byte_z c).
  replace (v / 65536) with (byte_z a) by (Z.to_euclidean_division_equations; lia).
  replace ((v / 256) mod 256) with (byte_z b) by (Z.to_euclidean_division_equations; lia).
  replace (v mod 256) with (byte_z c) by (Z.to_euclidean_division_equations; lia).
  cbn. by rewrite !byte_of_byte_z.
Qed.

Lemma b64_decode_encode s : b64_decode (b64_encode s) = Some s.
Proof.
  unfold b64_decode. rewrite b64_encode_no_crlf.
  induction s as [|a|a b|a b c s IH] using triples_ind; [done|..]; cbn [b64_encode b64_quanta];
    rewrite !b64_val_digit, ?(proj1 (b64_digit_plain _ _)); cbn [mbind option_bind Ascii.eqb andb String.eqb].
  - change (Ascii.eqb "=" "=") with true. cbn [andb]. f_equal.
    rewrite <- (b64_bytes_1 a). f_equal. pose proof (byte_z_range a).
    change (64 ^ 3) with 262144. change (64 ^ 2) with 4096. Z.to_euclidean_division_equations; lia.
  - change (Ascii.eqb "=" "=") with true. f_equal. rewrite <- (b64_bytes_2 a b). f_equal.
    pose proof (byte_z_range a). pose proof (byte_z_range b).
    change (64 ^ 3) with 262144. change (64 ^ 2) with 4096. change (64 ^ 1) with 64. Z.to_euclidean_division_equations; lia.
  - rewrite IH. cbn [mbind option_bind]. f_equal.
    pose proof (byte_z_range a). pose proof (byte_z_range b). pose proof (byte_z_range c).
    rewrite b64_digits by lia. by rewrite b64_bytes_3.
Qed.

Lemma b64_encode_alphabet s : str_all b64_alphabet (b64_encode s) = true.
Proof.
  assert (Hd : ∀ v i, b64_alphabet (b64_digit v i) = true).
  { intros v i. unfold b64_alphabet. by rewrite b64_val_digit. }
  induction s as [|a|a b|a b c s IH] using triples_ind; [done|..]; cbn [b64_encode str_all]; rewrite !Hd; done.
Qed.

Lemma b64_encode_length s : String.length (b64_encode s) = (4 * ((String.length s + 2) / 3))%nat.
Proof.
  induction s as [|a|a b|a b c s IH] using triples_ind; [done..|]. cbn [b64_encode String.length]. rewrite IH.
  replace (S (S (S (String.length s))) + 2)%nat with (1 * 3 + (String.length s + 2))%nat by lia.
  rewrite Nat.div_add_l by done. lia.
Qed.
