(* ===== verification/Files.v ===== *)
(** * Paths and a tree of files

    [filepath.Join] and [filepath.Dir] on a Unix system, and the elements an
    absolute path is made of: what cleaning does to them is stated once, for
    configured directories and for the names in an archive.

    What the program uses of package os and [filepath.Walk], on a tree that maps
    the elements of an absolute path to a directory or a file.  There are no
    links, and what is there can be listed; which directories and files can be
    made and which files can be read is a parameter ([Os]).  A file is written in
    one step. *)

From Stdlib Require Import ZArith Lia Ascii Bool.
From stdpp Require Import base tactics list gmap strings sorting.
From S2P Require Import Prelude GoStrings GoNet.

#[local] Open Scope Z_scope.

(** ** Paths *)

(** [filepath.Join]: what is empty is left out. *)
Definition join_path (l : list string) : string :=
  match filter (λ s, s ≠ ""%string) l with [] => "" | l => path_clean (str_join "/" l) end.

(** [filepath.Dir]. *)
Definition path_dir (p : string) : string :=
  path_clean (match last_index_byte SLASH p with Some i => str_take (S i) p | None => "" end).

(** ** Elements *)

(** An element that cleaning leaves alone. *)
Definition element (e : string) : Prop := no_byte SLASH e = true ∧ e ∉ [""; "."; ".."]%string.

(** The elements of a cleaned rooted path. *)
Definition elements_of (p : string) : list string := reverse (foldl (clean_step true) [] (split_byte SLASH p)).

Definition rooted (l : list string) : string := "/" +:+ str_join "/" l.

Lemma clean_rooted p : has_prefix "/" p = true → path_clean p = rooted (elements_of p).
Proof. intros Hp. unfold path_clean. by rewrite Hp. Qed.

Lemma clean_step_element rooted out e : element e → clean_step rooted out e = e :: out.
Proof.
  intros [_ He]. unfold clean_step.
  destruct (String.eqb_spec e ""); [set_solver|]. destruct (String.eqb_spec e "."); [set_solver|].
  destruct (String.eqb_spec e ".."); [set_solver|]. done.
Qed.

Lemma clean_elements rooted l out : Forall element l → foldl (clean_step rooted) out l = reverse l ++ out.
Proof.
  intros Hl. revert out. induction Hl as [|e l He _ IH]; intros out; [done|]. simpl.
  by rewrite clean_step_element, IH, reverse_cons, <- app_assoc.
Qed.

Lemma cleaned_are_elements l out :
  Forall (λ e, no_byte SLASH e = true) l → Forall element out → Forall element (foldl (clean_step true) out l).
Proof.
  intros Hl. revert out. induction Hl as [|e l He _ IH]; intros out Hout; [done|]. simpl. apply IH. unfold clean_step.
  destruct (_ || _) eqn:E1; [done|]. apply orb_false_iff in E1 as [E1%String.eqb_neq E2%String.eqb_neq].
  destruct (String.eqb_spec e "..") as [->|E3].
  - destruct out as [|x out]; [done|]. apply Forall_cons in Hout as [[_ Hx] Hout].
    destruct (String.eqb_spec x ".."); [set_solver|done].
  - constructor; [|done]. split; [done|set_solver].
Qed.

Lemma elements_are p : Forall element (elements_of p).
Proof. apply Forall_reverse, cleaned_are_elements; [apply split_byte_pieces|done]. Qed.

Lemma split_byte_at c s1 s2 : split_byte c (s1 +:+ String c s2) = split_byte c s1 ++ split_byte c s2.
Proof.
  rewrite split_byte_concat, split_byte_app.
  - rewrite cons_middle, app_assoc. f_equal. symmetry. rewrite <- (List.app_removelast_last ""%string); [done|apply split_byte_nonempty].
  - pose proof (split_byte_pieces c s1) as Hp. rewrite Forall_forall in Hp. apply Hp.
    destruct (exists_last (split_byte_nonempty c s1)) as (l & x & ->). rewrite List.last_last. set_solver.
Qed.

(** Elements added to a path stay at its end. *)
Lemma elements_app p l : l ≠ [] → Forall element l → elements_of (p +:+ "/" +:+ str_join "/" l) = elements_of p ++ l.
Proof.
  intros Hne Hl. unfold elements_of. change ("/" +:+ str_join "/" l) with (String SLASH (str_join (String SLASH "") l)).
  rewrite split_byte_at, split_join, foldl_app, clean_elements; [|done|done|].
  - by rewrite reverse_app, reverse_involutive.
  - eapply Forall_impl; [exact Hl|]. by intros e [? _].
Qed.

Lemma elements_rooted l : Forall element l → elements_of (rooted l) = l.
Proof.
  intros Hl. destruct (decide (l = [])) as [->|Hne]; [done|]. apply (elements_app "" l Hne) in Hl. exact Hl.
Qed.

Lemma rooted_inj l1 l2 : Forall element l1 → Forall element l2 → rooted l1 = rooted l2 → l1 = l2.
Proof. intros H1 H2 Heq. by rewrite <- (elements_rooted l1), Heq, elements_rooted. Qed.

Lemma rooted_prefix s : has_prefix "/" ("/" +:+ s) = true.
Proof. apply prefix_app. Qed.

(** Joining elements to an absolute path. *)
Lemma join_elements p l : has_prefix "/" p = true → l ≠ [] → Forall element l → join_path (p :: l) = rooted (elements_of p ++ l).
Proof.
  intros Hp Hne Hl. unfold join_path. assert (Hfl : filter (λ s, s ≠ ""%string) (p :: l) = p :: l).
  { apply filter_all. constructor; [by intros ->|]. eapply Forall_impl; [exact Hl|]. intros e [_ He]. set_solver. }
  rewrite Hfl. destruct l as [|e l]; [done|]. rewrite str_join_cons, clean_rooted, elements_app; [done..|].
  apply has_prefix_spec in Hp as [t ->]. rewrite str_app_assoc. apply prefix_app.
Qed.

(** ** Cleaned names *)

Lemma elements_clean p : has_prefix "/" p = true → elements_of (path_clean p) = elements_of p.
Proof. intros Hp. rewrite clean_rooted by done. apply elements_rooted, elements_are. Qed.

(** Cleaning a relative path leaves elements behind what leads out of it. *)
Lemma cleaned_relative l out n els :
  Forall (λ e, no_byte SLASH e = true) l → out = els ++ repeat ".."%string n → Forall element els →
  ∃ n' els', foldl (clean_step false) out l = els' ++ repeat ".."%string n' ∧ Forall element els'.
Proof.
  intros Hl. revert out n els. induction Hl as [|e l He _ IH]; intros out n els -> Hels; [by exists n, els|].
  simpl. unfold clean_step at 2. destruct (_ || _) eqn:E1; [by apply (IH _ n els)|].
  apply orb_false_iff in E1 as [E1%String.eqb_neq E2%String.eqb_neq].
  destruct (String.eqb_spec e "..") as [->|E3]; cycle 1.
  { apply (IH _ n (e :: els)); [done|]. constructor; [|done]. split; [done|set_solver]. }
  destruct els as [|x els]; simpl.
  - destruct n as [|n]; simpl; [by apply (IH _ 1%nat [])|by apply (IH _ (S (S n)) [])].
  - apply Forall_cons in Hels as [[_ Hx] Hels]. destruct (String.eqb_spec x ".."); [set_solver|by apply (IH _ n els)].
Qed.

(** A name that neither leads out nor is absolute once cleaned. *)
Definition inside (clean : string) : Prop := has_prefix ".." clean = false ∧ has_prefix "/" clean = false.

Lemma join_head e l : ∃ s, str_join "/" (e :: l) = e +:+ s.
Proof. destruct l as [|x l]; [exists ""%string; cbn; by rewrite str_app_nil_r|eexists; by rewrite str_join_cons]. Qed.

Lemma reverse_dots {A} (x : A) n : reverse (repeat x n) = repeat x n.
Proof.
  induction n as [|n IH]; [done|]. simpl. rewrite reverse_cons, IH. symmetry. apply (repeat_cons n x).
Qed.

Lemma clean_inside name : inside (path_clean name) →
  ∃ l, Forall element l ∧ path_clean name = match l with [] => "."%string | _ => str_join "/" l end.
Proof.
  intros [Hup Hroot]. unfold path_clean in *. destruct (has_prefix "/" name) eqn:Hn; [by rewrite prefix_app in Hroot|].
  destruct (cleaned_relative (split_byte SLASH name) [] 0 [] (split_byte_pieces _ _) eq_refl (Forall_nil_2 _)) as (n & els & Hf & Hels).
  rewrite Hf in *. rewrite reverse_app in *. destruct n as [|n].
  - cbn [repeat] in *. rewrite reverse_nil, app_nil_l in *. exists (reverse els). split; [by apply Forall_reverse|].
    destruct (reverse els) as [|e l] eqn:El; [done|]. destruct (String.eqb_spec (str_join "/" (e :: l)) "") as [E|E]; [|done].
    destruct (join_head e l) as [s Hs]. rewrite Hs in E. assert (He : element e).
    { apply Forall_reverse in Hels. rewrite El in Hels. by inversion Hels. }
    destruct e; [|done]. destruct He as [_ He]. set_solver.
  - exfalso. rewrite reverse_dots in *.
    cbn [repeat app] in Hup. destruct (join_head ".." (repeat ".."%string n ++ reverse els)) as [s Hs]. rewrite Hs in Hup.
    change (has_prefix ".." (".." +:+ s) = false) in Hup. by rewrite prefix_app in Hup.
Qed.

(** Elements that are already joined. *)
Lemma join_joined dir l : has_prefix "/" dir = true → l ≠ [] → Forall element l →
  join_path [dir; str_join "/" l] = rooted (elements_of dir ++ l).
Proof.
  intros Hd Hne Hl. destruct l as [|e l]; [done|]. rewrite <- join_elements by done. unfold join_path.
  assert (dir ≠ ""%string) by by intros ->. rewrite !(filter_cons_True _ dir) by done.
  assert (He : str_join "/" (e :: l) ≠ ""%string).
  { destruct (join_head e l) as [s ->]. apply Forall_cons in Hl as [[_ He] _]. destruct e; [set_solver|done]. }
  rewrite filter_cons_True by done. rewrite (filter_all _ (e :: l)); [by rewrite str_join_cons|].
  eapply Forall_impl; [exact Hl|]. intros x [_ Hx]. set_solver.
Qed.

Lemma join_relative l : l ≠ [] → Forall element l → has_prefix "/" (str_join "/" l) = false ∧ str_join "/" l ≠ ""%string.
Proof.
  destruct l as [|e l]; [done|]. intros _ [[Hs He] _]%Forall_cons. destruct (join_head e l) as [s ->].
  destruct e as [|a e]; [set_solver|]. split; [|done]. unfold no_byte in Hs. simpl in Hs. apply andb_true_iff in Hs as [Ha _].
  unfold has_prefix. cbn [String.prefix String.append]. by destruct (ascii_dec "/" a) as [<-|].
Qed.

(** Joined elements are clean, and so they are behind a slash at their end. *)
Lemma clean_joined l : l ≠ [] → Forall element l →
  path_clean (str_join "/" l) = str_join "/" l ∧ path_clean (str_join "/" l +:+ "/") = str_join "/" l.
Proof.
  intros Hne Hl. destruct (join_relative l Hne Hl) as [Hp He].
  assert (Hp2 : has_prefix "/" (str_join "/" l +:+ "/") = false).
  { destruct (str_join "/" l) as [|a s]; [done|]. unfold has_prefix in *. cbn [String.prefix String.append] in *.
    destruct (ascii_dec "/" a); [by destruct s|done]. }
  assert (Hs : split_byte SLASH (str_join "/" l) = l).
  { apply (split_join SLASH); [done|]. eapply Forall_impl; [exact Hl|]. by intros e [? _]. }
  unfold path_clean. rewrite Hp, Hp2. change (str_join "/" l +:+ "/") with (str_join "/" l +:+ String SLASH "").
  rewrite split_byte_at, foldl_app, Hs, clean_elements, app_nil_r by done. cbn [split_byte foldl].
  assert (Hst : clean_step false (reverse l) "" = reverse l) by done. rewrite Hst, reverse_involutive.
  by rewrite (proj2 (String.eqb_neq _ _) He).
Qed.

(** Where a joined name lies. *)
Lemma join_inside dir name : has_prefix "/" dir = true → inside (path_clean name) →
  ∃ l, Forall element l ∧ join_path [dir; path_clean name] = rooted (elements_of dir ++ l) ∧
    path_clean name = match l with [] => "."%string | _ => str_join "/" l end.
Proof.
  intros Hd Hin. destruct (clean_inside name Hin) as (l & Hl & ->). exists l. split; [done|].
  assert (Hne : dir ≠ ""%string) by by intros ->. destruct l as [|e l].
  - unfold join_path. rewrite filter_cons_True by done. simpl. set (q := dir +:+ _).
    assert (Hq : has_prefix "/" q = true).
    { apply has_prefix_spec in Hd as [t ->]. unfold q. rewrite str_app_assoc. apply prefix_app. }
    rewrite clean_rooted by done. split; [|done]. rewrite app_nil_r. f_equal. unfold q, elements_of. change ("/" +:+ "." ) with (String SLASH "."). by rewrite split_byte_at, foldl_app.
  - split; [by apply join_joined|done].
Qed.

Lemma dir_of_rooted l : Forall element l → elements_of (path_dir (rooted l)) = removelast l.
Proof.
  destruct l as [|e l _] using rev_ind; [done|]. intros [Hl [[He _] _]%Forall_cons]%Forall_app. rewrite removelast_last.
  assert (Hr : ∃ s, rooted (l ++ [e]) = s +:+ String SLASH e ∧ (s = ""%string ∧ l = [] ∨ s = rooted l)).
  { unfold rooted. destruct (decide (l = [])) as [->|Hne]; [exists ""%string; by auto|].
    exists ("/" +:+ str_join "/" l). split; [|by right]. rewrite str_join_snoc by done. by rewrite !str_app_assoc. }
  destruct Hr as (s & -> & Hs). unfold path_dir. rewrite last_index_app by done.
  assert (Ht : str_take (S (String.length s)) (s +:+ String SLASH e) = s +:+ "/").
  { change (String SLASH e) with ("/" +:+ e). rewrite <- str_app_assoc.
    replace (S (String.length s)) with (String.length (s +:+ "/")) by (rewrite str_length_app; simpl; lia). apply str_take_app. }
  rewrite Ht, elements_clean.
  - unfold elements_of. rewrite split_byte_at, foldl_app. cbn [split_byte foldl]. unfold clean_step at 1. simpl.
    destruct Hs as [[-> ->]| ->]; [done|]. apply (elements_rooted l Hl).
  - destruct Hs as [[-> _]| ->]; [done|]. unfold rooted. rewrite str_app_assoc. apply prefix_app.
Qed.

(** ** The tree *)

Notation path := (list string).

Inductive fnode := FDir | FFile (data : string).

#[export] Instance fnode_eq_dec : EqDecision fnode.
Proof. solve_decision. Defined.

Notation files := (gmap (list string) fnode).

(** What the system grants. *)
Class Os := {
  os_mkdir : path → bool;
  os_create : path → bool;
  os_read : path → bool;
}.

Definition granted : Os := {| os_mkdir _ := true; os_create _ := true; os_read _ := true |}.

(** Every directory a file lies in is there. *)
Record tree_ok (fs : files) : Prop := {
  tk_root : fs !! [] = Some FDir;
  tk_parent : ∀ p e, is_Some (fs !! (p ++ [e])) → fs !! p = Some FDir;
  tk_element : ∀ p, is_Some (fs !! p) → Forall element p;
}.

(** The order of [Walk]: a directory before what it holds, its names in order. *)
Fixpoint path_leb (p q : path) : bool :=
  match p, q with
  | [], _ => true
  | _, [] => false
  | a :: p, b :: q => if String.eqb a b then path_leb p q else String.leb a b
  end.

Section os.
Context `{Os}.

Definition Stat (p : string) (fs : files) : option fnode := fs !! elements_of p.

Definition is_dir (p : string) (fs : files) : bool := bool_decide (Stat p fs = Some FDir).

(** The directories of [todo] below [pre]; [false] is an error. *)
Fixpoint mkdir_from (pre todo : path) (fs : files) : files * bool :=
  match todo with
  | [] => (fs, true)
  | e :: todo =>
      let p := pre ++ [e] in
      match fs !! p with
      | Some FDir => mkdir_from p todo fs
      | Some (FFile _) => (fs, false)
      | None => if os_mkdir p then mkdir_from p todo (<[p := FDir]> fs) else (fs, false)
      end
  end.

Definition MkdirAll (p : string) (fs : files) : files * bool := mkdir_from [] (elements_of p) fs.

Definition Mkdir (p : string) (fs : files) : option files :=
  let l := elements_of p in
  match fs !! l, fs !! removelast l with
  | None, Some FDir => if os_mkdir l then Some (<[l := FDir]> fs) else None
  | _, _ => None
  end.

(** [OpenFile] with [O_CREATE] and [O_TRUNC], what is then written being [data]. *)
Definition WriteFile (p data : string) (fs : files) : option files :=
  let l := elements_of p in
  match fs !! l, fs !! removelast l with
  | Some FDir, _ => None
  | _, Some FDir => if os_create l then Some (<[l := FFile data]> fs) else None
  | _, _ => None
  end.

Definition ReadFile (p : string) (fs : files) : option string :=
  match Stat p fs with
  | Some (FFile data) => if os_read (elements_of p) then Some data else None
  | _ => None
  end.

(** The names in a directory, in order. *)
Definition ReadDir (p : string) (fs : files) : list string :=
  let d := elements_of p in
  merge_sort (λ a b, Is_true (String.leb a b))
    (omap (λ '(q, _), match drop (length d) q with [e] => if decide (q = d ++ [e]) then Some e else None | _ => None end)
       (map_to_list fs)).

(** What is at [p] and below. *)
Definition Walk (p : string) (fs : files) : list (path * fnode) :=
  merge_sort (λ a b, Is_true (path_leb a.1 b.1))
    (filter (λ e, elements_of p `prefix_of` e.1) (map_to_list fs)).

Definition RemoveAll (p : string) (fs : files) : files := filter (λ e, ¬ elements_of p `prefix_of` e.1) fs.
End os.

(** [filepath.Rel] of a path at or below [base]. *)
Definition rel_path (base : string) (q : path) : string :=
  match drop (length (elements_of base)) q with [] => "." | l => str_join "/" l end.

(** ** Lookups *)

Lemma prefix_snoc (d p : path) e : d `prefix_of` p ++ [e] → d `prefix_of` p ∨ d = p ++ [e].
Proof.
  intros [k Hk]. destruct k as [|x k _] using rev_ind; [right; by rewrite app_nil_r in Hk|].
  rewrite app_assoc in Hk. apply app_inj_tail in Hk as [-> _]. left. by exists k.
Qed.

Lemma walk_spec p fs q n : (q, n) ∈ Walk p fs ↔ fs !! q = Some n ∧ elements_of p `prefix_of` q.
Proof.
  unfold Walk. rewrite merge_sort_Permutation, list_elem_of_filter, elem_of_map_to_list. cbn. tauto.
Qed.

Lemma walk_nodup p fs : NoDup (Walk p fs).*1.
Proof.
  unfold Walk. rewrite merge_sort_Permutation. eapply sublist_NoDup; [apply (NoDup_fst_map_to_list fs)|].
  apply fmap_sublist, sublist_filter.
Qed.

Lemma remove_all_lookup p fs q : RemoveAll p fs !! q = if decide (elements_of p `prefix_of` q) then None else fs !! q.
Proof.
  unfold RemoveAll. destruct (decide _) as [Hp|Hp].
  - apply map_lookup_filter_None. right. intros n _ Hn. by apply Hn.
  - destruct (fs !! q) as [n|] eqn:Hq; [by apply map_lookup_filter_Some|]. apply map_lookup_filter_None. by left.
Qed.

Lemma ancestors fs p q : tree_ok fs → is_Some (fs !! q) → p `prefix_of` q → p ≠ q → fs !! p = Some FDir.
Proof.
  intros Hok. revert p. induction q as [|e q IH] using rev_ind; intros p Hq Hp Hne.
  { by apply prefix_nil_inv in Hp. }
  destruct (prefix_snoc _ _ _ Hp) as [Hp'|]; [|done]. pose proof (tk_parent _ Hok _ _ Hq) as Hd.
  destruct (decide (p = q)) as [->|Hn]; [done|]. apply IH; eauto.
Qed.

(** ** What an operation changes *)

Definition kind (n : fnode) : bool := match n with FDir => true | FFile _ => false end.

(** Nothing disappears, a directory stays one. *)
Definition kept (fs fs' : files) : Prop := ∀ p n, fs !! p = Some n → kind <$> fs' !! p = Some (kind n).

(** Only what lies at [d] or below is touched, apart from missing directories on
    the way to it. *)
Definition touched (d : path) (fs fs' : files) : Prop :=
  ∀ p, fs' !! p = fs !! p ∨ d `prefix_of` p ∨ (fs !! p = None ∧ fs' !! p = Some FDir ∧ p `prefix_of` d).

Record evolves (d : path) (fs fs' : files) : Prop := {
  ev_ok : tree_ok fs';
  ev_kept : kept fs fs';
  ev_touched : touched d fs fs';
}.

Lemma kept_dir fs fs' p : kept fs fs' → fs !! p = Some FDir → fs' !! p = Some FDir.
Proof. intros Hk Hp. apply Hk in Hp. destruct (fs' !! p) as [[|]|]; done. Qed.

#[export] Instance kept_preorder : PreOrder kept.
Proof.
  split; [by intros fs p n ->|]. intros a b c Hab Hbc p n Hp. apply Hab in Hp. destruct (b !! p) as [m|] eqn:Hb; [|done].
  apply Hbc in Hb. rewrite Hb. done.
Qed.

Lemma evolves_refl d fs : tree_ok fs → evolves d fs fs.
Proof. split; [done..|]. by left. Qed.

Lemma evolves_trans d a b c : evolves d a b → evolves d b c → evolves d a c.
Proof.
  intros [_ Hk Ht] [Hok' Hk' Ht']. split; [done|by etrans|]. intros p.
  destruct (Ht p) as [<-|[?|(? & Hb & ?)]]; [apply Ht'|auto|].
  destruct (Ht' p) as [Hc|[?|(? & _)]]; [|auto|congruence]. rewrite Hc. auto.
Qed.

Lemma evolves_weaken d d' fs fs' : d' `prefix_of` d → evolves d fs fs' → evolves d' fs fs'.
Proof.
  intros Hd [? ? Ht]. split; [done..|]. intros p. destruct (Ht p) as [|[Hx|(? & ? & Hx)]]; [auto|right; left; by etrans|].
  destruct (prefix_weak_total p d' d) as [|]; auto.
Qed.

(** Below a directory that is there, nothing else changes. *)
Lemma evolves_outside d fs fs' p : tree_ok fs → is_Some (fs !! d) → evolves d fs fs' → ¬ d `prefix_of` p → fs' !! p = fs !! p.
Proof.
  intros Hok Hd [_ _ Ht] Hp. destruct (Ht p) as [|[?|(Hn & _ & Hpd)]]; [done..|]. exfalso.
  assert (fs !! p = Some FDir) by (eapply ancestors; [done..|]; by intros ->). congruence.
Qed.

Lemma tree_insert fs p e n : tree_ok fs → fs !! p = Some FDir → element e → (fs !! (p ++ [e]) = Some FDir → n = FDir) →
  tree_ok (<[p ++ [e] := n]> fs).
Proof.
  intros Hok Hp He Hn. split.
  - rewrite lookup_insert_ne by by destruct p. apply Hok.
  - intros q x [m Hm]. destruct (decide (q = p ++ [e])) as [->|Hq].
    + rewrite lookup_insert_ne in Hm by (intros Hx; apply (f_equal length) in Hx; rewrite !length_app in Hx; simpl in Hx; lia).
      rewrite lookup_insert_eq. f_equal. apply Hn. eapply tk_parent; eauto.
    + rewrite lookup_insert_ne by done. destruct (decide (p ++ [e] = q ++ [x])) as [Hx|Hx].
      * by apply app_inj_tail in Hx as [-> _].
      * rewrite lookup_insert_ne in Hm by done. eapply tk_parent; eauto.
  - intros q Hq. destruct (decide (p ++ [e] = q)) as [<-|Hx].
    + apply Forall_app. split; [by eapply tk_element|by apply Forall_singleton].
    + rewrite lookup_insert_ne in Hq by done. by eapply tk_element.
Qed.

Section os_laws.
Context `{Os}.

(** What was missing on the way, and only that, becomes a directory. *)
Definition dirs_to (l : path) (fs fs' : files) : Prop :=
  ∀ p, fs' !! p = fs !! p ∨ (fs !! p = None ∧ fs' !! p = Some FDir ∧ p `prefix_of` l).

Lemma mkdir_from_spec todo : ∀ pre fs fs' b, tree_ok fs → fs !! pre = Some FDir → Forall element todo →
  mkdir_from pre todo fs = (fs', b) → tree_ok fs' ∧ dirs_to (pre ++ todo) fs fs' ∧ (b = true → fs' !! (pre ++ todo) = Some FDir).
Proof.
  induction todo as [|e todo IH]; intros pre fs fs' b Hok Hd Hel Hm; simpl in Hm.
  { injection Hm as <- <-. rewrite app_nil_r. split_and!; [done|by left|done]. }
  apply Forall_cons in Hel as [He Hel]. rewrite cons_middle, app_assoc.
  destruct (fs !! (pre ++ [e])) as [[|data]|] eqn:Hl.
  - by apply (IH _ _ _ _ Hok Hl Hel).
  - injection Hm as <- <-. split_and!; [done|by left|done].
  - destruct (os_mkdir _); [|injection Hm as <- <-; split_and!; [done|by left|done]].
    destruct (IH (pre ++ [e]) _ fs' b (tree_insert fs pre e FDir Hok Hd He (λ _, eq_refl))) as (Hok' & Hds & Hb);
      [by rewrite lookup_insert_eq|done|done|]. split_and!; [done| |done].
    intros p. destruct (decide (pre ++ [e] = p)) as [<-|Hp].
    + right. split; [done|]. split; [|by apply prefix_app_r].
      destruct (Hds (pre ++ [e])) as [->|(_ & ? & _)]; [by rewrite lookup_insert_eq|done].
    + specialize (Hds p). by rewrite lookup_insert_ne in Hds by done.
Qed.

Lemma mkdir_all_spec p fs fs' b : tree_ok fs → MkdirAll p fs = (fs', b) →
  tree_ok fs' ∧ dirs_to (elements_of p) fs fs' ∧ (b = true → fs' !! elements_of p = Some FDir).
Proof. intros Hok Hm. apply (mkdir_from_spec _ [] _ _ _ Hok (tk_root _ Hok) (elements_are p) Hm). Qed.

Lemma dirs_kept l fs fs' : dirs_to l fs fs' → kept fs fs'.
Proof. intros Hd p n Hp. destruct (Hd p) as [->|(Hn & _)]; [by rewrite Hp|congruence]. Qed.

Lemma mkdir_evolves d p fs fs' b : tree_ok fs → d `prefix_of` elements_of p ∨ elements_of p `prefix_of` d →
  MkdirAll p fs = (fs', b) → evolves d fs fs'.
Proof.
  intros Hok Hd Hm. apply mkdir_all_spec in Hm as (Hok' & Hds & _); [|done].
  split; [done|by eapply dirs_kept|]. intros q. destruct (Hds q) as [|(Hn & Hq & Hl)]; [auto|].
  destruct Hd as [Hd|Hd]; [|right; right; split_and!; [done..|by etrans]].
  destruct (prefix_weak_total q d (elements_of p)) as [Hx|Hx]; auto.
Qed.

Lemma write_spec p data fs fs' : tree_ok fs → WriteFile p data fs = Some fs' →
  ∃ l e, elements_of p = l ++ [e] ∧ fs' = <[l ++ [e] := FFile data]> fs ∧ fs !! l = Some FDir ∧ fs !! (l ++ [e]) ≠ Some FDir.
Proof.
  intros Hok. unfold WriteFile. pose proof (tk_root _ Hok) as Hroot. destruct (elements_of p) as [|e l _] using rev_ind; [by rewrite Hroot|].
  rewrite removelast_last. destruct (fs !! (l ++ [e])) as [[|old]|] eqn:Ho; [done|..];
    (destruct (fs !! l) as [[|]|] eqn:Hl; [|done|done]); (destruct (os_create _); [|done]); intros [= <-]; exists l, e; by rewrite Ho.
Qed.

Lemma write_evolves d p data fs fs' : tree_ok fs → d `prefix_of` elements_of p → WriteFile p data fs = Some fs' → evolves d fs fs'.
Proof.
  intros Hok Hd Hw. apply write_spec in Hw as (l & e & Hl & -> & Hp & Hn); [|done]. rewrite Hl in Hd. pose proof (elements_are p) as He.
  rewrite Hl in He. apply Forall_app in He as [_ [He _]%Forall_cons]. split.
  - by apply tree_insert.
  - intros q n Hq. destruct (decide (l ++ [e] = q)) as [<-|Hne].
    + rewrite lookup_insert_eq. destruct n; [done|]. done.
    + by rewrite lookup_insert_ne, Hq.
  - intros q. destruct (decide (l ++ [e] = q)) as [<-|Hne]; [auto|]. left. by rewrite lookup_insert_ne.
Qed.

Lemma mkdir_spec p fs fs' : tree_ok fs → Mkdir p fs = Some fs' → fs !! elements_of p = None ∧ fs' = <[elements_of p := FDir]> fs ∧ tree_ok fs'.
Proof.
  intros Hok. unfold Mkdir. pose proof (elements_are p) as He. pose proof (tk_root _ Hok) as Hroot.
  destruct (elements_of p) as [|e l _] using rev_ind; [by rewrite Hroot|].
  rewrite removelast_last. destruct (fs !! (l ++ [e])) eqn:Ho; [done|]. destruct (fs !! l) as [[|]|] eqn:Hl; [|done|done].
  destruct (os_mkdir _); [|done]. intros [= <-]. split_and!; [done|done|]. apply Forall_app in He as [_ [He _]%Forall_cons].
  by apply tree_insert.
Qed.
End os_laws.

(** ** Where the system grants everything *)

Lemma mkdir_from_granted todo : ∀ pre (fs : files),
  (∀ q, q `prefix_of` pre ++ todo → ∀ data, fs !! q ≠ Some (FFile data)) → (@mkdir_from granted pre todo fs).2 = true.
Proof.
  induction todo as [|e todo IH]; intros pre fs Hq; [done|]. simpl. rewrite cons_middle, app_assoc in Hq.
  destruct (fs !! (pre ++ [e])) as [[|data]|] eqn:Hl; [by apply IH|by eapply Hq in Hl; [|by apply prefix_app_r]|].
  apply IH. intros q Hp data. destruct (decide (pre ++ [e] = q)) as [<-|Hne]; [by rewrite lookup_insert_eq|].
  rewrite lookup_insert_ne by done. by apply Hq.
Qed.

Lemma mkdir_granted p fs : tree_ok fs → (∀ q data, q `prefix_of` elements_of p → fs !! q ≠ Some (FFile data)) →
  ∃ fs', @MkdirAll granted p fs = (fs', true) ∧ tree_ok fs' ∧ dirs_to (elements_of p) fs fs' ∧ fs' !! elements_of p = Some FDir.
Proof.
  intros Hok Hq. destruct (@MkdirAll granted p fs) as [fs' b] eqn:Hm. assert (Hb : b = true).
  { pose proof (mkdir_from_granted (elements_of p) [] fs) as Hg. unfold MkdirAll in Hm. rewrite Hm in Hg. apply Hg. auto. }
  subst b. pose proof (mkdir_all_spec p fs fs' true Hok Hm) as (? & ? & Hd). exists fs'. split_and!; auto.
Qed.

Lemma write_granted p data fs l e : elements_of p = l ++ [e] → fs !! l = Some FDir → fs !! (l ++ [e]) ≠ Some FDir →
  @WriteFile granted p data fs = Some (<[l ++ [e] := FFile data]> fs).
Proof.
  intros Hp Hl Hn. unfold WriteFile. rewrite Hp, removelast_last, Hl. by destruct (fs !! (l ++ [e])) as [[|]|].
Qed.

(** ** Removing a tree *)

Lemma remove_ok p fs : tree_ok fs → elements_of p ≠ [] → tree_ok (RemoveAll p fs).
Proof.
  intros Hok Hp. split.
  - rewrite remove_all_lookup, decide_False; [apply Hok|]. by intros ?%prefix_nil_inv.
  - intros q e [n Hq]. rewrite remove_all_lookup in *. destruct (decide _) as [|Hn]; [done|].
    rewrite decide_False; [eapply tk_parent; eauto|]. intros Hx. apply Hn. by apply prefix_app_r.
  - intros q [n Hq]. rewrite remove_all_lookup in Hq. destruct (decide _); [done|]. eapply tk_element; eauto.
Qed.

(** A new directory is empty, and removing it leaves no trace of what was done there. *)
Lemma scratch_below `{Os} t fs fs1 p : tree_ok fs → Mkdir t fs = Some fs1 → elements_of t `prefix_of` p → fs !! p = None.
Proof.
  intros Hok Hm Hp. apply mkdir_spec in Hm as (Hn & _); [|done]. destruct (fs !! p) as [n|] eqn:Hq; [|done].
  destruct (decide (elements_of t = p)) as [<-|]; [congruence|].
  assert (fs !! elements_of t = Some FDir) by (eapply ancestors; eauto). congruence.
Qed.

Lemma scratch_outside `{Os} t fs fs1 fs2 p : tree_ok fs → Mkdir t fs = Some fs1 → evolves (elements_of t) fs1 fs2 →
  ¬ elements_of t `prefix_of` p → fs2 !! p = fs !! p.
Proof.
  intros Hok Hm He Hp. apply mkdir_spec in Hm as (_ & -> & Hok1); [|done].
  rewrite (evolves_outside _ _ _ p Hok1 ltac:(rewrite lookup_insert_eq; eauto) He Hp), lookup_insert_ne; [done|]. by intros <-.
Qed.

Lemma scratch_undone `{Os} t fs fs1 fs2 : tree_ok fs → Mkdir t fs = Some fs1 → evolves (elements_of t) fs1 fs2 → RemoveAll t fs2 = fs.
Proof.
  intros Hok Hm He. apply map_eq. intros p. rewrite remove_all_lookup. destruct (decide _) as [Hp|Hp].
  - symmetry. by eapply scratch_below.
  - by eapply scratch_outside.
Qed.

(** What is done elsewhere meanwhile stays. *)
Lemma scratch_evolves `{Os} t d fs fs1 fs2 fs3 : tree_ok fs → Mkdir t fs = Some fs1 → evolves (elements_of t) fs1 fs2 →
  evolves d fs2 fs3 → evolves d fs (RemoveAll t fs3).
Proof.
  intros Hok Hm He [Hok3 Hk Ht]. assert (Hne : elements_of t ≠ []).
  { intros E. apply mkdir_spec in Hm as (Hn & _); [|done]. rewrite E in Hn. pose proof (tk_root _ Hok). congruence. }
  split; [by apply remove_ok| |].
  - intros p n Hp. rewrite remove_all_lookup. destruct (decide _) as [Hx|Hx].
    + pose proof (scratch_below t fs fs1 p Hok Hm Hx). congruence.
    + apply Hk. by rewrite (scratch_outside t fs fs1 fs2 p).
  - intros p. rewrite remove_all_lookup. destruct (decide _) as [Hx|Hx].
    + left. symmetry. by eapply scratch_below.
    + specialize (Ht p). by rewrite (scratch_outside t fs fs1 fs2 p) in Ht.
Qed.

(** Nothing is removed where nothing is. *)
Lemma remove_absent p fs : tree_ok fs → fs !! elements_of p = None → RemoveAll p fs = fs.
Proof.
  intros Hok Hn. apply map_eq. intros q. rewrite remove_all_lookup. destruct (decide _) as [Hp|]; [|done].
  destruct (fs !! q) as [n|] eqn:Hq; [|done]. destruct (decide (elements_of p = q)) as [<-|]; [congruence|].
  assert (fs !! elements_of p = Some FDir); [|congruence]. by eapply ancestors; [|eauto|..].
Qed.
