(* ===== verification/EngineLine.v ===== *)
(** * The engine's IRC line parser ([internal/engine/ircline.go])

    [parse_line] is [parseLine], [rewrite_target] is [rewriteTarget], [fold] the
    RFC 1459 case folding.  The specification side is [render]: an IRC line in
    its canonical (single-spaced) form, which [parse_line] inverts and on which
    [rewrite_target] replaces exactly the first parameter. *)

From Stdlib Require Import ZArith Lia Ascii.
From stdpp Require Import base tactics list strings.
From S2P Require Import Prelude GoStrings.

(** ** Definitions *)

(** [ircLine]. *)
Record ircLine := IrcLine {
  l_nick : string;
  l_cmd : string;
  l_params : list string;
}.

Section parse.
Context `{UnicodeTables}.

(** The parameter loop of [parseLine].  Every round consumes a byte, so the
    length of the line is enough fuel ([parse_params_fuel]). *)
Fixpoint parse_params (fuel : nat) (rest : string) : list string :=
  match fuel with
  | 0 => []
  | S fuel =>
      match trim_left is_sp rest with
      | "" => []
      | String a t as rest =>
          if Ascii.eqb a ":" then [t]
          else let '(p, rest, _) := cut_byte SP rest in p :: parse_params fuel rest
      end
  end.

(** A leading section ([@tags] or [:source]) up to its first space: its body
    and what follows, left-trimmed; refused when the space is missing or the
    section is empty. *)
Definition take_section (s : string) : option (string * string) :=
  match index_byte SP s with
  | Some (S (S _) as i) => Some (str_drop 1 (str_take i s), trim_left is_sp (str_drop (S i) s))
  | _ => None
  end.

(** The nick of a source: what precedes the first [!] or [@]. *)
Definition source_nick (src : string) : string :=
  match index_any (λ a, Ascii.eqb a "!" || Ascii.eqb a "@") src with
  | Some j => str_take j src
  | None => src
  end.

(** [parseLine]; [None] is [ok = false]. *)
Definition parse_line (raw : string) : option ircLine :=
  s ← (if has_prefix "@" raw then snd <$> take_section raw else Some raw);
  '(nick, s) ← (if has_prefix ":" s
                then '(src, s) ← take_section s; Some (source_nick src, s)
                else Some ("", s));
  match s with
  | "" => None
  | _ =>
      let '(cmd, rest, _) := cut_byte SP s in
      Some (IrcLine nick (to_upper cmd) (parse_params (String.length rest) rest))
  end.
End parse.

(** [ircLine.param], [ircLine.last]. *)
Definition param (l : ircLine) (i : nat) : string := default "" (l_params l !! i).
Definition last_param (l : ircLine) : string := default "" (last (l_params l)).

(** [fold]: byte-wise RFC 1459 lower-casing. *)
Definition fold_byte (c : ascii) : ascii :=
  if between 65 90 (byte_z c) then byte_of_z (byte_z c + 32)
  else if Ascii.eqb c "[" then "{"%char
  else if Ascii.eqb c "]" then "}"%char
  else if Ascii.eqb c "\" then "|"%char
  else if Ascii.eqb c "~" then "^"%char
  else c.

Definition fold (s : string) : string := str_map fold_byte s.

(** [burstCommands], [endOfBurst]. *)
Definition burst_commands : list string :=
  ["CAP"; "AUTHENTICATE"; "001"; "002"; "003"; "004"; "005"; "042";
   "900"; "901"; "903"; "907"; "908"].

Definition is_burst_command (cmd : string) : bool := bool_decide (cmd ∈ burst_commands).
Definition end_of_burst (cmd : string) : bool := String.eqb cmd "376" || String.eqb cmd "422".

(** [rewriteTarget].  [peel c prefix s] moves a section of [s] that starts with
    [c], its space included, onto [prefix]; [None] when the space is missing. *)
Definition peel (c : string) (prefix s : string) : option (string * string) :=
  if has_prefix c s then
    i ← index_byte SP s;
    Some (prefix +:+ str_take (S i) s, str_drop (S i) s)
  else Some (prefix, s).

Definition rewrite_target (raw nick : string) : string :=
  match '(prefix, s) ← peel "@" "" raw; peel ":" prefix s with
  | None => raw
  | Some (prefix, s) =>
      let '(cmd, rest, ok) := cut_byte SP s in
      if negb ok || String.eqb rest "" || has_prefix ":" rest then raw
      else
        let '(_, after, _) := cut_byte SP rest in
        let out := prefix +:+ cmd +:+ " " +:+ nick in
        if String.eqb after "" then out else out +:+ " " +:+ after
  end.

(** ** The canonical form of a line *)

Definition render_params (mids : list string) (tr : option string) : string :=
  str_concat ((λ m, " " +:+ m) <$> mids) +:+ match tr with Some t => " :" +:+ t | None => "" end.

Definition render (tags src : option string) (cmd : string) (mids : list string) (tr : option string) : string :=
  match tags with Some t => "@" +:+ t +:+ " " | None => "" end +:+
  match src with Some p => ":" +:+ p +:+ " " | None => "" end +:+
  cmd +:+ render_params mids tr.

(** A word: non-empty, no space, not starting with the byte [c]. *)
Definition word_not (c : ascii) (s : string) : Prop :=
  s ≠ "" ∧ no_byte SP s = true ∧ has_prefix (String c "") s = false.

Definition section_ok (o : option string) : Prop :=
  match o with Some t => t ≠ "" ∧ no_byte SP t = true | None => True end.

Definition line_ok (tags src : option string) (cmd : string) (mids : list string) : Prop :=
  section_ok tags ∧ section_ok src ∧ word_not ":" cmd ∧ has_prefix "@" cmd = false ∧
  Forall (word_not ":") mids.

(** ** Lemmas *)

Lemma is_sp_eqb a : is_sp a = Ascii.eqb a SP.
Proof. done. Qed.

Lemma word_not_cons c w : word_not c w → ∃ a t, w = String a t ∧ a ≠ c ∧ is_sp a = false.
Proof.
  intros (Hne & Hsp & Hp). destruct w as [|a t]; [done|]. exists a, t. split; [done|].
  unfold no_byte in Hsp. simpl in Hsp. apply andb_true_iff in Hsp as [Hsp _].
  apply negb_true_iff in Hsp. split; [|done].
  intros ->. unfold has_prefix in Hp. simpl in Hp. destruct (ascii_dec c c); [|done].
  by destruct t.
Qed.

(** More fuel than bytes changes nothing: the loop always terminates by itself. *)
Lemma parse_params_fuel n1 n2 s :
  (String.length s ≤ n1)%nat → (String.length s ≤ n2)%nat → parse_params n1 s = parse_params n2 s.
Proof.
  revert n2 s. induction n1 as [|n1 IH]; intros n2 s H1 H2.
  - destruct s; [|simpl in H1; lia]. by destruct n2.
  - destruct n2 as [|n2]; [destruct s; [done|simpl in H2; lia]|]. cbn [parse_params].
    pose proof (trim_left_length is_sp s) as Hlen.
    destruct (trim_left is_sp s) as [|a t] eqn:Ht; [done|].
    destruct (Ascii.eqb a ":"); [done|].
    destruct (cut_byte SP (String a t)) as [[p r] f] eqn:Hcut. f_equal.
    assert (String.length r ≤ String.length t)%nat.
    { simpl in Hcut. destruct (Ascii.eqb a SP) eqn:E.
      - apply trim_left_head in Ht. unfold is_sp in Ht. congruence.
      - destruct (cut_byte SP t) as [[b' r'] f'] eqn:E'. simplify_eq. by eapply cut_byte_length. }
    simpl in Hlen. apply IH; lia.
Qed.

Lemma render_params_cons m mids tr : render_params (m :: mids) tr = String SP (m +:+ render_params mids tr).
Proof. unfold render_params. simpl. by rewrite str_app_assoc. Qed.

Lemma trim_sp s : trim_prefix " " (String SP s) = s.
Proof. exact (trim_prefix_app " " s). Qed.

(** What follows a word in a rendered line is empty or starts with a space. *)
Lemma cut_render m mids tr :
  no_byte SP m = true →
  cut_byte SP (m +:+ render_params mids tr) =
    (m, trim_prefix " " (render_params mids tr), negb (String.eqb (render_params mids tr) "")).
Proof.
  intros Hm. destruct mids as [|x mids].
  - unfold render_params. destruct tr as [t|]; simpl.
    + by rewrite cut_byte_app.
    + rewrite str_app_nil_r. by rewrite cut_byte_none.
  - rewrite render_params_cons. rewrite cut_byte_app by done.
    by rewrite trim_sp.
Qed.

Lemma trim_left_sp_prefix s : trim_left is_sp (trim_prefix " " s) = trim_left is_sp s.
Proof.
  unfold trim_prefix. destruct (has_prefix " " s) eqn:E; [|done].
  apply has_prefix_spec in E as [t ->]. by destruct t.
Qed.

Lemma parse_params_sp n s : parse_params n (trim_prefix " " s) = parse_params n s.
Proof. destruct n; [done|]. cbn [parse_params]. by rewrite trim_left_sp_prefix. Qed.

Lemma parse_params_render n mids tr :
  Forall (word_not ":") mids →
  (length mids + length (option_list tr) ≤ n)%nat →
  parse_params n (render_params mids tr) = (mids ++ option_list tr)%list.
Proof.
  intros Hm. revert n. induction Hm as [|m mids Hw Hm IH]; intros n Hn.
  - destruct tr as [t|]; simpl in *.
    + destruct n as [|n]; [lia|]. done.
    + by destruct n.
  - destruct n as [|n]; [simpl in Hn; lia|]. rewrite render_params_cons.
    destruct (word_not_cons _ _ Hw) as (a & t & -> & Hc & Ha).
    cbn [parse_params]. simpl. rewrite Ha.
    destruct (Ascii.eqb a ":") eqn:E; [by apply Ascii.eqb_eq in E|].
    destruct Hw as (_ & Hsp & _).
    pose proof (cut_render (String a t) mids tr Hsp) as Hcut.
    change (String a t +:+ render_params mids tr) with (String a (t +:+ render_params mids tr)) in Hcut.
    cbn [cut_byte] in Hcut. simpl in Hcut |- *. rewrite Hcut.
    rewrite parse_params_sp. f_equal. apply IH. simpl in Hn. lia.
Qed.

Lemma render_params_length mids tr :
  Forall (word_not ":") mids →
  (length mids + length (option_list tr) ≤ String.length (trim_prefix " " (render_params mids tr)))%nat.
Proof.
  assert (Hlen : ∀ mids, Forall (word_not ":") mids →
    (2 * (length mids + length (option_list tr)) ≤ String.length (render_params mids tr))%nat).
  { clear mids. intros mids Hm. induction Hm as [|m mids Hw Hm IH].
    - unfold render_params. destruct tr; simpl; lia.
    - rewrite render_params_cons. destruct (word_not_cons _ _ Hw) as (a & t & -> & _).
      simpl. rewrite str_length_app. lia. }
  intros Hm. specialize (Hlen _ Hm). destruct mids as [|m mids].
  - unfold render_params in *. destruct tr; simpl in *; lia.
  - rewrite render_params_cons in *. rewrite trim_sp. simpl in *. lia.
Qed.

(** A rendered section is taken off whole. *)
Lemma take_section_render c b w :
  b ≠ "" → no_byte SP b = true → Ascii.eqb c SP = false → has_prefix " " w = false →
  take_section (String c (b +:+ String SP w)) = Some (b, w).
Proof.
  intros Hne Hb Hc Hw. destruct b as [|x b]; [done|].
  set (h := String c (String x b)).
  change (String c (String x b +:+ String SP w)) with (h +:+ String SP w).
  assert (Hi : index_byte SP (h +:+ String SP w) = Some (String.length h)).
  { apply index_byte_app. unfold no_byte in *. subst h. cbn [str_all] in *. rewrite Hc. done. }
  transitivity (Some (str_drop 1 (str_take (String.length h) (h +:+ String SP w)),
                      trim_left is_sp (str_drop (S (String.length h)) (h +:+ String SP w)))).
  { unfold take_section. by rewrite Hi. }
  rewrite str_take_app. f_equal. f_equal.
  replace (h +:+ String SP w) with ((h +:+ " ") +:+ w) by (by rewrite str_app_assoc).
  replace (S (String.length h)) with (String.length (h +:+ " ")) by (rewrite str_length_app; simpl; lia).
  rewrite str_drop_app. destruct w as [|y w]; [done|]. simpl.
  destruct (is_sp y) eqn:E; [|done]. unfold is_sp in E. apply Ascii.eqb_eq in E as ->.
  unfold has_prefix in Hw. simpl in Hw. by destruct w.
Qed.

Lemma has_prefix_cons c d s : has_prefix (String c "") (String d s) = Ascii.eqb c d.
Proof.
  unfold has_prefix. simpl. destruct (ascii_dec c d) as [->|Hne].
  - rewrite Ascii.eqb_refl. by destruct s.
  - symmetry. by apply Ascii.eqb_neq.
Qed.

(** A rendered command starts neither a tag section, nor a source, nor with a
    space. *)
Lemma cmd_head cmd s :
  word_not ":" cmd → has_prefix "@" cmd = false →
  ∃ a t, cmd +:+ s = String a t ∧ Ascii.eqb "@" a = false ∧ Ascii.eqb ":" a = false ∧ Ascii.eqb SP a = false.
Proof.
  intros Hw Hat. destruct (word_not_cons _ _ Hw) as (a & t & -> & Hc & Ha).
  exists a, (t +:+ s). rewrite has_prefix_cons in Hat. split; [done|]. split; [done|]. split.
  - apply Ascii.eqb_neq. congruence.
  - unfold is_sp in Ha. by rewrite Ascii.eqb_sym.
Qed.

(** The part of a rendered line from its source on. *)
Definition render_src (src : option string) (cmd : string) (mids : list string) (tr : option string) : string :=
  render None src cmd mids tr.

Lemma render_tags t src cmd mids tr :
  render (Some t) src cmd mids tr = String "@" (t +:+ String SP (render_src src cmd mids tr)).
Proof. unfold render, render_src, render. simpl. by rewrite !str_app_assoc. Qed.

Lemma render_src_some p cmd mids tr :
  render_src (Some p) cmd mids tr = String ":" (p +:+ String SP (cmd +:+ render_params mids tr)).
Proof. unfold render_src, render. simpl. by rewrite !str_app_assoc. Qed.

Lemma render_src_head src cmd mids tr :
  word_not ":" cmd → has_prefix "@" cmd = false →
  has_prefix "@" (render_src src cmd mids tr) = false ∧ has_prefix " " (render_src src cmd mids tr) = false.
Proof.
  intros Hw Hat. destruct src as [p|].
  - rewrite render_src_some, !has_prefix_cons. done.
  - destruct (cmd_head cmd (render_params mids tr) Hw Hat) as (a & t & E & H1 & H2 & H3).
    unfold render_src, render. simpl. rewrite E, !has_prefix_cons. done.
Qed.

Lemma peel_some c prefix b w :
  no_byte SP b = true → Ascii.eqb c SP = false →
  peel (String c "") prefix (String c (b +:+ String SP w)) = Some (prefix +:+ String c (b +:+ " "), w).
Proof.
  intros Hb Hc. unfold peel. rewrite has_prefix_cons, Ascii.eqb_refl.
  change (String c (b +:+ String SP w)) with (String c b +:+ String SP w).
  rewrite index_byte_app by (unfold no_byte in *; simpl; by rewrite Hc). cbn [mbind option_bind].
  replace (String c b +:+ String SP w) with ((String c b +:+ " ") +:+ w) by (by rewrite str_app_assoc).
  replace (S (String.length (String c b))) with (String.length (String c b +:+ " "))
    by (rewrite str_length_app; simpl; lia).
  by rewrite str_take_app, str_drop_app.
Qed.

Lemma peel_none c prefix s : has_prefix c s = false → peel c prefix s = Some (prefix, s).
Proof. intros H. unfold peel. by rewrite H. Qed.

(** A rendered line is peeled down to its command and parameters. *)
Lemma peel_render tags src cmd mids tr :
  line_ok tags src cmd mids →
  ∃ prefix, ('(p, s) ← peel "@" "" (render tags src cmd mids tr); peel ":" p s)
              = Some (prefix, cmd +:+ render_params mids tr)
    ∧ ∀ mids', render tags src cmd mids' tr = prefix +:+ cmd +:+ render_params mids' tr.
Proof.
  intros (Ht & Hs & Hw & Hat & Hm).
  destruct (cmd_head cmd (render_params mids tr) Hw Hat) as (a & t & E & H1 & H2 & H3).
  assert (Hcmd : has_prefix ":" (cmd +:+ render_params mids tr) = false) by (by rewrite E, has_prefix_cons).
  destruct (render_src_head src cmd mids tr Hw Hat) as [Hh1 _].
  destruct tags as [tg|].
  - destruct Ht as [_ Ht]. rewrite render_tags, peel_some by done. cbn [mbind option_bind].
    destruct src as [p|].
    + destruct Hs as [_ Hs]. rewrite render_src_some, peel_some by done. eexists. split; [done|].
      intros mids'. unfold render. str_norm.
    + change (render_src None cmd mids tr) with (cmd +:+ render_params mids tr).
      rewrite peel_none by done. eexists. split; [done|].
      intros mids'. unfold render. str_norm.
  - change (render None src cmd mids tr) with (render_src src cmd mids tr).
    rewrite peel_none by done. cbn [mbind option_bind]. destruct src as [p|].
    + destruct Hs as [_ Hs]. rewrite render_src_some, peel_some by done. eexists. split; [done|].
      intros mids'. unfold render. str_norm.
    + change (render_src None cmd mids tr) with (cmd +:+ render_params mids tr).
      rewrite peel_none by done. by exists "".
Qed.

Lemma rewrite_target_render tags src cmd m mids tr nick :
  line_ok tags src cmd (m :: mids) →
  rewrite_target (render tags src cmd (m :: mids) tr) nick = render tags src cmd (nick :: mids) tr.
Proof.
  intros Hok. destruct (peel_render _ _ _ _ tr Hok) as (prefix & Hpeel & Hrender).
  unfold rewrite_target. rewrite Hpeel, (Hrender (nick :: mids)).
  destruct Hok as (_ & _ & (_ & Hcmd & _) & _ & Hm). apply Forall_cons in Hm as [(Hne & Hsp & Hc) Hm].
  rewrite cut_render by done. rewrite render_params_cons, trim_sp. simpl negb.
  assert (Hm0 : String.eqb (m +:+ render_params mids tr) "" = false) by (by destruct m).
  assert (Hm1 : has_prefix ":" (m +:+ render_params mids tr) = false).
  { destruct m as [|a m]; [done|]. rewrite has_prefix_cons in Hc.
    change (String a m +:+ ?t) with (String a (m +:+ t)). by rewrite has_prefix_cons. }
  rewrite Hm0, Hm1. cbn [orb]. rewrite cut_render by done. rewrite render_params_cons, !str_app_assoc.
  destruct mids as [|m' mids].
  - destruct tr as [t|]; [done|]. by rewrite !str_app_nil_r.
  - rewrite render_params_cons, trim_sp. apply Forall_cons in Hm as [(Hne' & _) _].
    by destruct m'.
Qed.

(** ** Properties *)

Section props.
Context `{UnicodeTables}.

Lemma parse_line_src src cmd mids tr :
  section_ok src → word_not ":" cmd → has_prefix "@" cmd = false → Forall (word_not ":") mids →
  parse_line (render_src src cmd mids tr) =
    Some (IrcLine (match src with Some p => source_nick p | None => "" end) (to_upper cmd)
                  (mids ++ option_list tr)%list).
Proof.
  intros Hs Hw Hat Hm. unfold parse_line.
  destruct (render_src_head src cmd mids tr Hw Hat) as [-> _].
  destruct (cmd_head cmd (render_params mids tr) Hw Hat) as (a & t & E & H1 & H2 & H3).
  assert (Hcut : cut_byte SP (cmd +:+ render_params mids tr) =
    (cmd, trim_prefix " " (render_params mids tr), negb (String.eqb (render_params mids tr) "")))
    by (apply cut_render, Hw).
  assert (Hp : parse_params (String.length (trim_prefix " " (render_params mids tr)))
                 (trim_prefix " " (render_params mids tr)) = (mids ++ option_list tr)%list).
  { rewrite parse_params_sp. apply parse_params_render; [done|]. by apply render_params_length. }
  destruct src as [p|].
  - destruct Hs as [Hne Hsp]. rewrite render_src_some. cbn [mbind option_bind].
    rewrite has_prefix_cons, Ascii.eqb_refl.
    rewrite take_section_render; [|done|done|done|by rewrite E, has_prefix_cons].
    cbn [mbind option_bind]. rewrite E in *. by rewrite Hcut, Hp.
  - change (render_src None cmd mids tr) with (cmd +:+ render_params mids tr).
    rewrite E in *. cbn [mbind option_bind]. rewrite has_prefix_cons, H2. cbn [mbind option_bind].
    by rewrite Hcut, Hp.
Qed.

Lemma parse_line_render tags src cmd mids tr :
  line_ok tags src cmd mids →
  parse_line (render tags src cmd mids tr) =
    Some (IrcLine (match src with Some p => source_nick p | None => "" end) (to_upper cmd)
                  (mids ++ option_list tr)%list).
Proof.
  intros (Ht & Hs & Hw & Hat & Hm). destruct tags as [t|]; [|by apply parse_line_src].
  destruct Ht as [Hne Hsp]. destruct (render_src_head src cmd mids tr Hw Hat) as [Hh1 Hh2].
  rewrite render_tags. rewrite <- (parse_line_src src cmd mids tr Hs Hw Hat Hm).
  unfold parse_line at 1. rewrite has_prefix_cons, Ascii.eqb_refl.
  rewrite take_section_render by done. unfold parse_line. rewrite Hh1. done.
Qed.
End props.

(** ** Theorem *)

(** Rewriting the target of a well-formed line re-addresses it and changes
    nothing else: the parser reads the same source, command and parameters, save
    for the first parameter, which is the new nick. *)
Theorem rewrite_target_parse `{UnicodeTables} tags src cmd m mids tr nick :
  line_ok tags src cmd (m :: mids) → word_not ":" nick →
  let raw := render tags src cmd (m :: mids) tr in
  ∃ l, parse_line raw = Some l ∧ param l 0 = m ∧
    parse_line (rewrite_target raw nick) =
      Some (IrcLine (l_nick l) (l_cmd l) (nick :: tail (l_params l))).
Proof.
  intros Hok Hn raw. unfold raw. rewrite (parse_line_render _ _ _ _ _ Hok), (rewrite_target_render _ _ _ _ _ _ _ Hok).
  eexists. split; [done|]. split; [done|]. apply parse_line_render.
  destruct Hok as (Ht & Hs & Hw & Hat & Hm). apply Forall_cons in Hm as [_ Hm]. split_and!; try done. by constructor.
Qed.

Lemma rewrite_target_parse_witness :
  let raw := render (Some "time=1") (Some "srv") "001" ["old"] (Some "Welcome home") in
  ∃ l, @parse_line ascii_tables raw = Some l ∧ param l 0 = "old" ∧
    @parse_line ascii_tables (rewrite_target raw "new") = Some (IrcLine (l_nick l) (l_cmd l) ("new" :: tail (l_params l))).
Proof.
  apply (@rewrite_target_parse ascii_tables (Some "time=1") (Some "srv") "001" "old" [] (Some "Welcome home") "new").
  - unfold line_ok, word_not, section_ok. simpl. split_and!; try done. repeat constructor; done.
  - by split_and!.
Defined.
