(* ===== verification/LineBuffer.v ===== *)
(** * The engine's backlog ([internal/engine/buffer.go], [lineBuffer])

    A session's unacknowledged inbound lines, in sequence order, with the byte
    counter the budgets are charged from.  [compact] only moves the lines to a
    smaller backing array and is the identity on the list modelled here.

    The abstract specification of a backlog is a half-open range of sequence
    numbers: [buffer_ok n b] says that the lines carry the numbers [n+1], [n+2],
    ... and that [bytes] is their total cost (modulo the width of the counter).
    Every operation is characterised as an operation on that range. *)

From Stdlib Require Import ZArith Lia Ascii.
From stdpp Require Import base tactics list strings.
From S2P Require Import Prelude GoStrings.

#[local] Open Scope Z_scope.

(** ** Data *)

(** [bufferedLine]. *)
Record bufferedLine := BufferedLine {
  bl_seq : Z;      (** [uint64] *)
  bl_at : Z;       (** unix milliseconds *)
  bl_line : string;
}.

(** [lineCost]. *)
Definition line_cost (line : string) : Z := str_len line + 32.
Definition bl_cost (l : bufferedLine) : Z := line_cost (bl_line l).

(** [lineBuffer]. *)
Record lineBuffer := LineBuffer {
  lb_lines : list bufferedLine;
  lb_bytes : Z;    (** [atomic.Int64] *)
}.

#[export] Instance eta_lineBuffer : Eta lineBuffer := λ b, LineBuffer (lb_lines b) (lb_bytes b).

Definition empty_buffer : lineBuffer := LineBuffer [] 0.

(** ** Operations *)

(** [lineBuffer.push]. *)
Definition push (l : bufferedLine) (b : lineBuffer) : lineBuffer :=
  LineBuffer (lb_lines b ++ [l]) (i64 (lb_bytes b + bl_cost l)).

(** [lineBuffer.len]. *)
Definition buf_len (b : lineBuffer) : nat := length (lb_lines b).

(** [lineBuffer.dropOldest]. *)
Definition drop_oldest (b : lineBuffer) : option bufferedLine * lineBuffer :=
  match lb_lines b with
  | [] => (None, b)
  | l :: ls => (Some l, LineBuffer ls (i64 (lb_bytes b - bl_cost l)))
  end.

(** The index [sort.Search] finds: the first buffered line numbered beyond
    [seq]. *)
Definition first_after (seq : Z) (ls : list bufferedLine) : nat :=
  sort_search (length ls) (λ i, match ls !! i with Some l => bool_decide (seq < bl_seq l) | None => false end).

(** [lineBuffer.ackThrough]: the bytes freed and the buffer left. *)
Definition ack_through (seq : Z) (b : lineBuffer) : Z * lineBuffer :=
  let n := first_after seq (lb_lines b) in
  let freed := foldl (λ freed l, i64 (freed + bl_cost l)) 0 (take n (lb_lines b)) in
  (freed, LineBuffer (drop n (lb_lines b)) (i64 (lb_bytes b - freed))).

(** [lineBuffer.after]. *)
Definition after (seq : Z) (limit : nat) (b : lineBuffer) : list bufferedLine :=
  let i := first_after seq (lb_lines b) in
  let j := Nat.min (length (lb_lines b)) (i + limit) in
  drop i (take j (lb_lines b)).

(** [lineBuffer.countAfter]. *)
Definition count_after (seq : Z) (b : lineBuffer) : nat :=
  length (lb_lines b) - first_after seq (lb_lines b).

(** [lineBuffer.clear]: the bytes freed and the empty buffer. *)
Definition clear (b : lineBuffer) : Z * lineBuffer := (lb_bytes b, LineBuffer [] 0).

(** ** Specification: a contiguous range of sequence numbers *)

Definition cost_sum (b : lineBuffer) : Z := sumZ bl_cost (lb_lines b).

Record buffer_ok (n : Z) (b : lineBuffer) : Prop := {
  bok_seq : consecutive bl_seq n (lb_lines b);
  bok_bytes : lb_bytes b = i64 (cost_sum b);
}.

(** The last sequence number a buffer starting after [n] holds. *)
Definition buf_end (n : Z) (b : lineBuffer) : Z := n + Z.of_nat (buf_len b).

Lemma bl_cost_pos l : 32 ≤ bl_cost l.
Proof. unfold bl_cost, line_cost, str_len. lia. Qed.

Lemma cost_sum_nonneg b : 0 ≤ cost_sum b.
Proof. apply sumZ_nonneg. intros l. pose proof (bl_cost_pos l). lia. Qed.

Lemma empty_buffer_ok n : buffer_ok n empty_buffer.
Proof. done. Qed.

Lemma push_ok n b l :
  buffer_ok n b → bl_seq l = buf_end n b + 1 → buffer_ok n (push l b).
Proof.
  intros [Hs Hb] Hl. unfold buf_end, buf_len in Hl. split; simpl.
  - apply consecutive_app. simpl. done.
  - unfold cost_sum in *. simpl. rewrite sumZ_app, Hb, i64_add_l. simpl. f_equal. lia.
Qed.

Lemma push_end n b l : buf_end n (push l b) = buf_end n b + 1.
Proof. unfold buf_end, buf_len, push. simpl. rewrite length_app. simpl. lia. Qed.

Lemma drop_oldest_ok n b l b' :
  buffer_ok n b → drop_oldest b = (Some l, b') →
  buffer_ok (n + 1) b' ∧ bl_seq l = n + 1 ∧ buf_end (n + 1) b' = buf_end n b ∧
  lb_bytes b' = i64 (lb_bytes b - bl_cost l).
Proof.
  intros [Hs Hb] Hd. unfold drop_oldest, buf_end, buf_len in *.
  destruct (lb_lines b) as [|l' ls] eqn:E; [done|]. simplify_eq/=.
  destruct Hs as [Hl Hs]. split_and!; [|done|lia|done].
  split; [done|]. unfold cost_sum in *. rewrite E in Hb. simpl in *. rewrite Hb, i64_sub_l. f_equal. lia.
Qed.

(** ** [sort.Search] on a contiguous buffer is arithmetic on the range *)

Lemma first_after_ok n b seq :
  buffer_ok n b →
  first_after seq (lb_lines b) = Z.to_nat (Z.min (Z.of_nat (buf_len b)) (Z.max 0 (seq - n))).
Proof.
  intros [Hs _]. unfold first_after. eapply sort_search_consecutive; [done|].
  intros i a ->. done.
Qed.

(** The freed bytes are accumulated with wrap-around, like the counter. *)
Lemma freed_sum ls k : foldl (λ freed l, i64 (freed + bl_cost l)) (i64 k) ls = i64 (k + sumZ bl_cost ls).
Proof.
  revert k. induction ls as [|l ls IH]; intros k; simpl; [f_equal; lia|].
  rewrite i64_add_l, IH. f_equal. lia.
Qed.

(** Where the range starts once everything through [seq] is acknowledged. *)
Definition ack_base (n seq : Z) (b : lineBuffer) : Z := Z.max n (Z.min seq (buf_end n b)).

(** [ackThrough seq] forgets exactly the lines numbered through [seq]: what is
    left is the rest of the range, and the bytes freed are the difference. *)
Lemma ack_through_ok n b seq freed b' :
  buffer_ok n b → ack_through seq b = (freed, b') →
  buffer_ok (ack_base n seq b) b' ∧ buf_end (ack_base n seq b) b' = buf_end n b ∧
  lb_bytes b' = i64 (lb_bytes b - freed) ∧
  freed = i64 (cost_sum b - cost_sum b').
Proof.
  intros Hok Ha. unfold ack_through in Ha. rewrite (first_after_ok n) in Ha by done.
  set (k := Z.to_nat _) in Ha. assert (Hk : (k ≤ buf_len b)%nat) by lia.
  assert (Hbase : ack_base n seq b = n + Z.of_nat k) by (unfold ack_base, buf_end; lia).
  pose proof (freed_sum (take k (lb_lines b)) 0) as Hfreed.
  change (i64 0) with 0 in Hfreed. rewrite Hfreed in Ha. destruct Hok as [Hs Hb]. simplify_eq/=.
  assert (Hsum : cost_sum b = sumZ bl_cost (take k (lb_lines b)) + sumZ bl_cost (drop k (lb_lines b))).
  { unfold cost_sum. rewrite <- sumZ_app, take_drop. done. }
  rewrite Hbase. unfold buf_end, buf_len in *. simpl. rewrite length_drop. split_and!.
  - split.
    + pose proof (consecutive_drop bl_seq n _ k Hs) as Hd. by rewrite Nat.min_l in Hd.
    + unfold cost_sum at 1. simpl. rewrite Hb, i64_sub_l, i64_sub_r. f_equal. lia.
  - lia.
  - done.
  - unfold cost_sum at 2. simpl. f_equal. lia.
Qed.

(** [after seq limit]: the next [limit] lines past [seq] that are still held, a
    sub-range. *)
Lemma after_ok n b seq limit :
  buffer_ok n b → seq ≤ buf_end n b →
  consecutive bl_seq (Z.max n seq) (after seq limit b) ∧
  length (after seq limit b) = Nat.min limit (Z.to_nat (buf_end n b - Z.max n seq)).
Proof.
  intros Hok Hseq. pose proof (first_after_ok n b seq Hok) as Hf.
  unfold after. rewrite Hf. unfold buf_end, buf_len in *. destruct Hok as [Hs _].
  set (i := Z.to_nat _). set (j := Nat.min _ (i + limit)%nat). split.
  - apply (consecutive_take _ _ _ j), (consecutive_drop _ _ _ i) in Hs. rewrite length_take in Hs.
    replace (Z.max n seq) with (n + Z.of_nat (Nat.min i (Nat.min j (length (lb_lines b))))) by lia. done.
  - rewrite length_drop, length_take. lia.
Qed.

Lemma count_after_ok n b seq :
  buffer_ok n b → seq ≤ buf_end n b → Z.of_nat (count_after seq b) = buf_end n b - Z.max n seq.
Proof.
  intros Hok Hseq. unfold count_after. rewrite (first_after_ok n) by done.
  unfold buf_end, buf_len in *. lia.
Qed.

(** The lines [after] returns are the buffered ones at the corresponding
    positions. *)
Lemma after_lines n b seq limit :
  buffer_ok n b → seq ≤ buf_end n b →
  after seq limit b = take limit (drop (Z.to_nat (Z.max n seq - n)) (lb_lines b)).
Proof.
  intros Hok Hseq. unfold after. rewrite (first_after_ok n) by done. unfold buf_end, buf_len in *.
  rewrite skipn_firstn_comm. replace (Z.to_nat (Z.min _ _)) with (Z.to_nat (Z.max n seq - n)) by lia.
  set (i := Z.to_nat _). destruct (decide (i + limit ≤ length (lb_lines b))%nat).
  - f_equal. lia.
  - rewrite !take_ge; [done| |]; rewrite length_drop; lia.
Qed.

(** Beyond the range there is nothing left. *)
Lemma count_after_beyond n b seq : buffer_ok n b → buf_end n b ≤ seq → count_after seq b = 0%nat.
Proof.
  intros Hok Hseq. unfold count_after. rewrite (first_after_ok n) by done.
  unfold buf_end, buf_len in *. lia.
Qed.

#[export] Hint Resolve empty_buffer_ok push_ok cost_sum_nonneg : stugan.
