(* ===== verification/Frame.v ===== *)
(** * The link protocol ([internal/engineproto/proto.go])

    The frames stugan and stugan-engine exchange.  JSON encoding and the socket
    are not modelled; a frame is the record the encoder is given and the decoder
    returns.  [set_line]/[text] are [SetLine]/[Text]: the carrier of a relayed
    line, which must survive a JSON string (valid UTF-8) or ride as bytes. *)

From Stdlib Require Import ZArith Lia Ascii.
From stdpp Require Import base tactics list strings.
From S2P Require Import Prelude GoStrings.

(** [ProtocolMajor], [ProtocolMinor], [MaxFrameBytes], [MaxLineBytes]. *)
Definition protocol_major : Z := 1.
Definition protocol_minor : Z := 0.
Definition max_frame_bytes : Z := Z.shiftl 1 20.
Definition max_line_bytes : Z := Z.shiftl 16 10.

(** The ops. *)
Definition OpHello := "hello".
Definition OpPing := "ping".
Definition OpPong := "pong".
Definition OpConnect := "connect".
Definition OpWrite := "write".
Definition OpAck := "ack".
Definition OpDetach := "detach".
Definition OpClose := "close".
Definition OpOpen := "open".
Definition OpAttached := "attached".
Definition OpLine := "line".
Definition OpDetached := "detached".
Definition OpClosed := "closed".
Definition OpError := "error".
Definition OpHealth := "health".

(** [Frame].  [f_bin] is [None] for a nil [Bin]. *)
Record Frame := MkFrame {
  f_op : string;
  f_protocol : Z; f_minor : Z; f_secret : string;
  f_instance : string; f_gen : Z; f_version : string;
  f_id : string; f_handle : string;
  f_addr : string; f_tls : bool; f_insecure : bool;
  f_cert : string; f_fp : string;
  f_line : string; f_bin : option string; f_seq : Z; f_at : Z;
  f_replay : list string; f_nick : string; f_channels : list string;
  f_unattended : bool; f_detached_ms : Z; f_backlog : Z; f_lost : Z;
  f_error : string;
}.

#[export] Instance eta_Frame : Eta Frame := λ f,
  MkFrame (f_op f) (f_protocol f) (f_minor f) (f_secret f) (f_instance f) (f_gen f) (f_version f)
    (f_id f) (f_handle f) (f_addr f) (f_tls f) (f_insecure f) (f_cert f) (f_fp f)
    (f_line f) (f_bin f) (f_seq f) (f_at f) (f_replay f) (f_nick f) (f_channels f)
    (f_unattended f) (f_detached_ms f) (f_backlog f) (f_lost f) (f_error f).

(** [&Frame{Op: op}]: every other field at its zero value. *)
Definition frame (op : string) : Frame :=
  MkFrame op 0 0 "" "" 0 "" "" "" "" false false "" "" "" None 0 0 [] "" [] false 0 0 0 "".

(** [&Frame{Op: op, Handle: h}], [&Frame{Op: op, Handle: h, Error: e}]. *)
Definition hframe (op h : string) : Frame := frame op <| f_handle := h |>.
Definition eframe (op h e : string) : Frame := hframe op h <| f_error := e |>.

(** [Frame.SetLine], [Frame.Text]. *)
Definition set_line (line : string) (f : Frame) : Frame :=
  if valid_utf8 line then f <| f_line := line |> <| f_bin := None |>
  else f <| f_line := "" |> <| f_bin := Some line |>.

Definition text (f : Frame) : string :=
  match f_bin f with Some b => b | None => f_line f end.

(** [checkHostPort]; the error texts are all "invalid address". *)
Definition check_host_port (hp : string) : bool :=
  match last_index_byte ":" hp with
  | None => false
  | Some i =>
      if (i =? String.length hp - 1)%nat then false
      else match atoi (str_drop (S i) hp) with
           | Some port => negb (Z.leb port 0 || Z.ltb 65535 port)
           | None => false
           end
  end.

(** [net.SplitHostPort]: the host and port, or the error's text.  The port
    follows the last colon; a bracketed host is closed right before it; a bare
    host holds no colon; no stray bracket is left over. *)
Definition split_host_port (hp : string) : string + (string * string) :=
  let err why := inl (if String.eqb hp "" then why else "address " +:+ hp +:+ ": " +:+ why) in
  let missing_port := "missing port in address" in
  let too_many := "too many colons in address" in
  (** no '[' from [j] on, no ']' from [k] on *)
  let finish host j k port :=
    if str_in "[" (str_drop j hp) then err "unexpected '[' in address"
    else if str_in "]" (str_drop k hp) then err "unexpected ']' in address"
    else inr (host, port) in
  match last_index_byte ":" hp with
  | None => err missing_port
  | Some i =>
      let port := str_drop (S i) hp in
      match hp with
      | String "[" _ =>
          match index_byte "]" hp with
          | None => err "missing ']' in address"
          | Some e =>
              if (S e =? String.length hp)%nat then err missing_port
              else if (S e =? i)%nat then finish (str_drop 1 (str_take e hp)) 1%nat (S e) port
              else if has_prefix ":" (str_drop (S e) hp) then err too_many else err missing_port
          end
      | _ =>
          let host := str_take i hp in
          if str_in ":" host then err too_many else finish host 0%nat 0%nat port
      end
  end.

Lemma text_set_line line f : text (set_line line f) = line.
Proof. unfold set_line. by destruct (valid_utf8 line). Qed.

Lemma set_line_valid line f : valid_utf8 (f_line (set_line line f)) = true.
Proof. unfold set_line. by destruct (valid_utf8 line) eqn:E. Qed.
