(* ===== verification/EngineSession.v ===== *)
(** * A held IRC socket ([internal/engine/session.go])

    The state of a [session] and every operation on it, each the body of a
    critical section of [s.mu].  An operation returns the new session and the
    calls it makes on its surroundings ([effect]): the budget, the attached
    link's [notify], a goroutine ending the session.  The clock, the outcome of a
    dial and the arbitrary choice of a Go [select] are arguments. *)

From Stdlib Require Import ZArith Lia Ascii.
From stdpp Require Import base tactics list strings.
From S2P Require Import Prelude GoStrings EngineLine LineBuffer Frame.

#[local] Open Scope Z_scope.

(** ** Data *)

(** [sessionState]. *)
Inductive sessionState := stateDialing | stateOpen | stateClosed.
#[export] Instance sessionState_eq_dec : EqDecision sessionState.
Proof. solve_decision. Defined.

Definition max_burst_bytes : Z := Z.shiftl 64 10.
Definition max_cap_log_bytes : Z := Z.shiftl 16 10.
Definition recent_handles : nat := 8.
Definition write_queue_size : nat := 1024.
Definition probe_token : string := "stugan-engine-probe".

(** The identity of a [*link]. *)
Notation lid := nat (only parsing).

(** [session].  [s_conn] is [conn != nil], [s_stopped] that the channel [stop] is
    closed, [s_writeQ] the contents of the channel [writeQ]. *)
Record session := MkSession {
  s_key : string; s_instance : string; s_id : string; s_fp : string; s_addr : string;
  s_created : time;
  s_writeQ : list string; s_stopped : bool;
  s_state : sessionState; s_closeErr : string; s_conn : bool;
  s_link : option lid; s_handle : string; s_handles : list string; s_detachedAt : time;
  s_buf : lineBuffer; s_seq : Z; s_acked : Z; s_sent : Z; s_everSent : Z; s_lost : Z;
  s_ctrl : list Frame; s_finished : bool;
  s_registered : bool; s_unattended : bool;
  s_burst : list string; s_burstBytes : Z; s_burstOpen : bool; s_burstCovered : Z;
  s_welcomeIdx : option nat;  (** [None] is -1 *)
  s_nick : string; s_channels : list string;
  s_capLog : list string; s_capLogBytes : Z;
}.

#[export] Instance eta_session : Eta session := λ s,
  MkSession (s_key s) (s_instance s) (s_id s) (s_fp s) (s_addr s) (s_created s)
    (s_writeQ s) (s_stopped s) (s_state s) (s_closeErr s) (s_conn s)
    (s_link s) (s_handle s) (s_handles s) (s_detachedAt s)
    (s_buf s) (s_seq s) (s_acked s) (s_sent s) (s_everSent s) (s_lost s)
    (s_ctrl s) (s_finished s) (s_registered s) (s_unattended s)
    (s_burst s) (s_burstBytes s) (s_burstOpen s) (s_burstCovered s) (s_welcomeIdx s)
    (s_nick s) (s_channels s) (s_capLog s) (s_capLogBytes s).

(** What an operation asks of the rest of the engine. *)
Inductive effect :=
  | Charge (n : Z)               (** [budget.charge] *)
  | Refund (n : Z)               (** [budget.refund] *)
  | Reclaim                      (** [budget.reclaim] *)
  | Notify (l : lid)             (** [link.notify] *)
  | SpawnEnd (reason : string)   (** a goroutine running [srv.endSession] *)
  | CloseConn.                   (** [conn.Close] *)

(** [newSession], followed by nothing: the socket is being dialed. *)
Definition new_session (now : time) (instance : string) (l : lid) (f : Frame) (key : string) : session :=
  MkSession key instance (f_id f) (f_fp f) (f_addr f) now
    [] false stateDialing "" false
    (Some l) (f_handle f) [f_handle f] zero_time
    empty_buffer 0 0 0 0 0 [] false false false
    [] 0 false 0 None "" [] [] 0.

(** ** Channels and nicks *)

(** [addChannel], [removeChannel]. *)
Definition add_channel (ch : string) (chans : list string) : list string :=
  if String.eqb ch "" || String.eqb ch "0" then chans
  else if existsb (λ c, String.eqb (fold c) (fold ch)) chans then chans
  else chans ++ [ch].

Definition remove_channel (ch : string) (chans : list string) : list string :=
  filter (λ c, fold c ≠ fold ch) chans.

Section session.
Context `{UnicodeTables}.

(** ** Tracking the little IRC state a replay is built from *)

(** The first half of [track]: the registration burst, then the capability
    changes after it. *)
Definition track_burst (l : ircLine) (raw : string) (s : session) : session :=
  if s_burstOpen s then
    let s := s <| s_burstCovered := s_seq s |> in
    let s :=
      if is_burst_command (l_cmd l) then
        if Z.ltb max_burst_bytes (s_burstBytes s + str_len raw) then s <| s_burstOpen := false |>
        else
          let s := s <| s_burst ::= λ b, b ++ [raw] |> <| s_burstBytes ::= Z.add (str_len raw) |> in
          if String.eqb (l_cmd l) "001" && bool_decide (s_welcomeIdx s = None)
          then s <| s_welcomeIdx := Some (length (s_burst s) - 1)%nat |> else s
      else s in
    if end_of_burst (l_cmd l) then s <| s_burstOpen := false |> else s
  else if String.eqb (l_cmd l) "CAP" && (equal_fold (param l 1) "ACK" || equal_fold (param l 1) "DEL") then
    if Z.leb (s_capLogBytes s + str_len raw) max_cap_log_bytes
    then s <| s_capLog ::= λ c, c ++ [raw] |> <| s_capLogBytes ::= Z.add (str_len raw) |>
    else s
  else s.

(** [self]: the line comes from our own nick. *)
Definition is_self (l : ircLine) (s : session) : bool :=
  negb (String.eqb (s_nick s) "") && negb (String.eqb (l_nick l) "") &&
  String.eqb (fold (l_nick l)) (fold (s_nick s)).

(** The second half of [track]: nick and channels. *)
Definition track_state (l : ircLine) (s : session) : session :=
  let self := is_self l s in
  let cmd := l_cmd l in
  if String.eqb cmd "001" then
    let s := if s_registered s then s
             else s <| s_registered := true |> <| s_unattended := bool_decide (s_link s = None) |> in
    if String.eqb (param l 0) "" then s else s <| s_nick := param l 0 |>
  else if String.eqb cmd "NICK" then
    if self && negb (String.eqb (param l 0) "") then s <| s_nick := param l 0 |> else s
  else if String.eqb cmd "JOIN" then
    if self then s <| s_channels ::= λ cs, foldl (λ cs ch, add_channel ch cs) cs (split_byte "," (param l 0)) |> else s
  else if String.eqb cmd "PART" then
    if self then s <| s_channels ::= λ cs, foldl (λ cs ch, remove_channel ch cs) cs (split_byte "," (param l 0)) |> else s
  else if String.eqb cmd "KICK" then
    if negb (String.eqb (s_nick s) "") && String.eqb (fold (param l 1)) (fold (s_nick s))
    then s <| s_channels ::= remove_channel (param l 0) |> else s
  else s.

(** [track]. *)
Definition track (l : ircLine) (raw : string) (s : session) : session :=
  track_state l (track_burst l raw s).

(** ** Writing to the IRC socket *)

(** [enqueueWrite]: [pick] is the choice [select] makes when the queue has room
    and [stop] is closed. *)
Definition enqueue_write (pick : bool) (line : string) (s : session) : session * list effect :=
  if (length (s_writeQ s) <? write_queue_size)%nat && (negb (s_stopped s) || pick)
  then (s <| s_writeQ ::= λ q, q ++ [line] |>, [])
  else if s_stopped s then (s, [])
  else (s, [SpawnEnd "write queue overflow (server not reading)"]).

(** ** Shedding *)

(** [dropOldestLocked]. *)
Definition drop_oldest_locked (s : session) : session * list effect :=
  match drop_oldest (s_buf s) with
  | (None, _) => (s, [])
  | (Some l, b) =>
      (s <| s_buf := b |> <| s_lost ::= λ n, if Z.ltb (s_everSent s) (bl_seq l) then u64 (n + 1) else n |>,
       [Refund (line_cost (bl_line l))])
  end.

(** [shedOldest]: the reported boolean and, when it is [true], the session. *)
Definition shed_oldest (s : session) : bool * session * list effect :=
  if (buf_len (s_buf s) <=? 1)%nat then (false, s, [])
  else let '(s, es) := drop_oldest_locked s in (true, s, es).

(** The loop of [ingest] that enforces the session's own cap; every round drops
    a line, so the number of lines is enough fuel. *)
Fixpoint cap_loop (fuel : nat) (limit : Z) (s : session) : session * list effect :=
  match fuel with
  | 0%nat => (s, [])
  | S fuel =>
      if Z.ltb limit (lb_bytes (s_buf s)) && (1 <? buf_len (s_buf s))%nat then
        let '(s, es) := drop_oldest_locked s in
        let '(s, es') := cap_loop fuel limit s in
        (s, es ++ es')
      else (s, [])
  end.

Definition notify_link (l : option lid) : list effect :=
  match l with Some l => [Notify l] | None => [] end.

(** ** Inbound lines *)

(** The locked part of [ingest], for a line that enters the stream. *)
Definition ingest_locked (limit : Z) (now_ms : Z) (l : ircLine) (raw : string) (s : session) : session * list effect :=
  if negb (bool_decide (s_state s = stateOpen)) then (s, [])
  else
    let s := s <| s_seq ::= λ q, u64 (q + 1) |> in
    let s := s <| s_buf ::= push (BufferedLine (s_seq s) now_ms raw) |> in
    let s := track l raw s in
    let '(s, es) := cap_loop (buf_len (s_buf s)) limit s in
    (s, Charge (line_cost raw) :: es ++ Reclaim :: notify_link (s_link s)).

(** [ingest]: one inbound line.  [limit] is [opts.BufferBytes]. *)
Definition ingest (limit : Z) (now_ms : Z) (pick : bool) (raw : string) (s : session) : session * list effect :=
  match parse_line raw with
  | None => (s, [])
  | Some l =>
      if Z.ltb (str_len (trim_space raw)) 2 then (s, [])
      else if String.eqb (l_cmd l) "PING" then enqueue_write pick ("PONG :" +:+ last_param l) s
      else if String.eqb (l_cmd l) "PONG" && String.eqb (last_param l) probe_token then (s, [])
      else ingest_locked limit now_ms l raw s
  end.
End session.

(** ** Dialing, attaching, detaching *)

(** The part of [dial] after [s.open] returned: [err = None] is success. *)
Definition dial_done (err : option string) (s : session) : session * list effect * bool :=
  (** the boolean: [release] is called *)
  if bool_decide (s_state s = stateClosed) then
    (s, match err with None => [CloseConn] | Some _ => [] end, false)
  else
    match err with
    | Some e =>
        (s <| s_state := stateClosed |> <| s_closeErr := e |> <| s_stopped := true |>, [], true)
    | None =>
        let s := s <| s_conn := true |> <| s_state := stateOpen |> <| s_burstOpen := true |>
                   <| s_ctrl ::= λ c, c ++ [hframe OpOpen (s_handle s)] |> in
        (s, notify_link (s_link s), false)
    end.

(** [reusable]. *)
Definition reusable (fp : string) (s : session) : bool :=
  bool_decide (s_state s = stateOpen) && s_registered s &&
  bool_decide (s_welcomeIdx s ≠ None) && String.eqb (s_fp s) fp.

(** The replay an attached frame carries: the burst, its 001 re-addressed to the
    current nick, then the capability log. *)
Definition replay_of (s : session) : list string :=
  imap (λ i line, if bool_decide (s_welcomeIdx s = Some i) && negb (String.eqb (s_nick s) "")
                  then rewrite_target line (s_nick s) else line) (s_burst s)
  ++ s_capLog s.

(** [attachLocked]. *)
Definition attach_locked (now : time) (l : lid) (handle : string) (s : session) : session :=
  let detached_ms := if time_is_zero (s_detachedAt s) then 0
                     else Z.quot (time_sub now (s_detachedAt s)) millisecond in
  let s := s <| s_link := Some l |> <| s_handle := handle |>
             <| s_handles ::= λ hs, let hs := hs ++ [handle] in drop (length hs - recent_handles) hs |>
             <| s_detachedAt := zero_time |>
             <| s_sent := Z.max (s_acked s) (s_burstCovered s) |> in
  let attached := hframe OpAttached handle
    <| f_replay := replay_of s |> <| f_nick := s_nick s |> <| f_channels := s_channels s |>
    <| f_unattended := s_unattended s |> <| f_detached_ms := detached_ms |>
    <| f_backlog := Z.of_nat (count_after (s_sent s) (s_buf s)) |> <| f_lost := s_lost s |> in
  s <| s_ctrl := [attached] |> <| s_lost := 0 |> <| s_unattended := false |>.

(** [detachLocked]: whether [l] held the claim, and the session. *)
Definition detach_locked (now : time) (l : lid) (s : session) : bool * session :=
  if bool_decide (s_link s = Some l)
  then (true, s <| s_link := None |> <| s_detachedAt := now |> <| s_ctrl := [] |>)
  else (false, s).

(** ** Delivering *)

Definition line_frame (handle : string) (bl : bufferedLine) : Frame :=
  set_line (bl_line bl) (hframe OpLine handle <| f_seq := bl_seq bl |> <| f_at := bl_at bl |>).

(** The part of [pull] that hands over buffered lines and moves the marks. *)
Definition pull_lines (limit : nat) (s : session) : session * list Frame :=
  if bool_decide (s_state s = stateDialing) then (s, [])
  else
    let ls := after (s_sent s) limit (s_buf s) in
    let s := s <| s_sent ::= λ q, foldl (λ _ bl, bl_seq bl) q ls |> in
    (s <| s_everSent ::= λ q, Z.max q (s_sent s) |>, map (line_frame (s_handle s)) ls).

(** [pull]: the session, the frames owed to [l], [done] and [stale]. *)
Definition pull (l : lid) (limit : nat) (s : session) : session * list Frame * bool * bool :=
  if negb (bool_decide (s_link s = Some l)) then (s, [], false, true)
  else
    let '(s1, lines) := pull_lines limit (s <| s_ctrl := [] |>) in
    let out := s_ctrl s ++ lines in
    if bool_decide (s_state s1 = stateClosed) && negb (s_finished s1) &&
       (count_after (s_sent s1) (s_buf s1) =? 0)%nat
    then (s1 <| s_finished := true |>, out ++ [eframe OpClosed (s_handle s1) (s_closeErr s1)], true, false)
    else (s1, out, false, false).

(** [ack]. *)
Definition ack (handle : string) (seq : Z) (s : session) : session * list effect :=
  if negb (bool_decide (handle ∈ s_handles s)) || Z.leb seq (s_acked s) || Z.ltb (s_seq s) seq then (s, [])
  else
    let '(freed, b) := ack_through seq (s_buf s) in
    (s <| s_buf := b |> <| s_acked := seq |>, [Refund freed]).

(** [shutdown]: the session, the link to tell and whether this call did it. *)
Definition shutdown (reason : string) (s : session) : session * (option lid * bool) * list effect :=
  if bool_decide (s_state s = stateClosed) then (s, (None, false), [])
  else
    (s <| s_state := stateClosed |> <| s_closeErr := reason |> <| s_stopped := true |>,
     (s_link s, true), if s_conn s then [CloseConn] else []).

(** The session's share of [forgetLocked]: its buffer is returned. *)
Definition forget_buffer (s : session) : session * list effect :=
  let '(freed, b) := clear (s_buf s) in (s <| s_buf := b |>, [Refund freed]).
