(* ===== verification/EngineSessionSpec.v ===== *)
(** * What a session promises

    Runs of a session are lists of operations ([sop]) applied in order; every
    interleaving of the engine's goroutines is one such list, since each
    operation is one critical section.  The invariant [session_ok] ties the
    session to the history of the lines it ever took in: the buffer is the
    history less a prefix, and the watermarks lie inside it. *)

From Stdlib Require Import ZArith Lia Ascii.
From stdpp Require Import base tactics list strings.
From S2P Require Import Prelude GoStrings EngineLine LineBuffer Frame EngineSession.

#[local] Open Scope Z_scope.

(** ** Operations of a run *)

(** One critical section of the session's mutex, with its environment inputs. *)
Inductive sop :=
  | SIngest (now_ms : Z) (pick : bool) (raw : string)
  | SWrite (pick : bool) (line : string)
  | STake                                  (** the writer takes a queued line *)
  | SDial (err : option string)
  | SAttach (now : time) (l : lid) (handle : string)
  | SDetach (now : time) (l : lid)
  | SPull (l : lid) (limit : nat)
  | SAck (handle : string) (seq : Z)
  | SShutdown (reason : string)
  | SShed
  | SClose (now : time) (l : lid) (handle : string).  (** the claim test of [handleClose] *)

Ltac branches := cbv zeta; repeat case_match; reflexivity.

Section spec.
Context `{UnicodeTables}.
Variable limit : Z.  (** [opts.BufferBytes] *)

(** The session after an operation, and the frames it handed to the link. *)
Definition sop_step (o : sop) (s : session) : session * list Frame :=
  match o with
  | SIngest now pick raw => (fst (ingest limit now pick raw s), [])
  | SWrite pick line => (fst (enqueue_write pick line s), [])
  | STake => (s <| s_writeQ ::= tail |>, [])
  | SDial err => (fst (fst (dial_done err s)), [])
  | SAttach now l h =>
      if reusable (s_fp s) s then (attach_locked now l h s, []) else (s, [])
  | SDetach now l => (snd (detach_locked now l s), [])
  | SPull l n => let '(s, fs, _, _) := pull l n s in (s, fs)
  | SAck h q => (fst (ack h q s), [])
  | SShutdown reason => (fst (fst (shutdown reason s)), [])
  | SShed => (snd (fst (shed_oldest s)), [])
  | SClose now l h =>
      if bool_decide (s_handle s = h) && (bool_decide (s_link s = None) || bool_decide (s_link s = Some l))
      then (snd (detach_locked now l s) <| s_finished := true |>, []) else (s, [])
  end.

(** ** Fields an operation leaves alone *)

(** The fields that make up the stream of lines. *)
Definition stream_of (s : session) : lineBuffer * Z * Z * Z * Z * Z :=
  (s_buf s, s_seq s, s_acked s, s_sent s, s_everSent s, s_lost s).

(** ... and the mark the registration burst reaches. *)
Definition covered_of (s : session) : Z := s_burstCovered s.

Lemma stream_track_burst l raw s : stream_of (track_burst l raw s) = stream_of s.
Proof. unfold track_burst. branches. Qed.

Lemma stream_track_state l s : stream_of (track_state l s) = stream_of s.
Proof. unfold track_state. generalize (is_self l s). intros b. branches. Qed.

Lemma stream_track l raw s : stream_of (track l raw s) = stream_of s.
Proof. unfold track. by rewrite stream_track_state, stream_track_burst. Qed.

Lemma covered_track l raw s :
  covered_of (track l raw s) = covered_of s ∨ covered_of (track l raw s) = s_seq s.
Proof.
  assert (Hs : covered_of (track l raw s) = covered_of (track_burst l raw s)).
  { unfold track, track_state. generalize (track_burst l raw s) as s1. intros s1.
    generalize (is_self l s1). intros b. branches. }
  rewrite Hs. unfold track_burst. cbv zeta. repeat case_match; by (left + right).
Qed.

Lemma stream_enqueue pick line s : stream_of (fst (enqueue_write pick line s)) = stream_of s.
Proof. unfold enqueue_write. branches. Qed.

Lemma stream_dial err s : stream_of (fst (fst (dial_done err s))) = stream_of s.
Proof. unfold dial_done. branches. Qed.

Lemma stream_detach now l s : stream_of (snd (detach_locked now l s)) = stream_of s.
Proof. unfold detach_locked. branches. Qed.

Lemma stream_shutdown reason s : stream_of (fst (fst (shutdown reason s))) = stream_of s.
Proof. unfold shutdown. branches. Qed.

(** ** The stream invariant *)

(** Where the buffer starts: every line numbered through [floor_of s] is gone. *)
Definition floor_of (s : session) : Z := s_seq s - Z.of_nat (buf_len (s_buf s)).

(** [hist] is every line the session ever took in, in order. *)
Record stream_ok (hist : list bufferedLine) (s : session) : Prop := {
  so_hist : consecutive bl_seq 0 hist;
  so_seq : s_seq s = Z.of_nat (length hist);
  so_floor : 0 ≤ floor_of s;
  so_buf : buffer_ok (floor_of s) (s_buf s);
  so_lines : lb_lines (s_buf s) = drop (Z.to_nat (floor_of s)) hist;
  so_acked : 0 ≤ s_acked s ≤ floor_of s;
  so_sent : 0 ≤ s_sent s ≤ s_seq s;
  so_ever : 0 ≤ s_everSent s ≤ s_seq s;
  so_lost : 0 ≤ s_lost s ≤ floor_of s;
  so_covered : 0 ≤ s_burstCovered s ≤ s_seq s;
}.

Lemma stream_ok_ext hist s s' :
  stream_of s' = stream_of s → covered_of s' = covered_of s → stream_ok hist s → stream_ok hist s'.
Proof.
  unfold stream_of, covered_of. intros [= E1 E2 E3 E4 E5 E6] E7 [].
  assert (Ef : floor_of s' = floor_of s) by (unfold floor_of; by rewrite E1, E2).
  split; rewrite ?Ef, ?E1, ?E2, ?E3, ?E4, ?E5, ?E6, ?E7; done.
Qed.

Lemma buf_end_floor s : buf_end (floor_of s) (s_buf s) = s_seq s.
Proof. unfold buf_end, floor_of. lia. Qed.

Lemma floor_len s : floor_of s + Z.of_nat (buf_len (s_buf s)) = s_seq s.
Proof. unfold floor_of. lia. Qed.

(** How many of the lines numbered in [(a, b]] were never sent to any link. *)
Definition unsent_between (ever a b : Z) : Z := Z.max 0 (b - Z.max a ever).

(** The watermarks shedding leaves alone. *)
Definition marks_of (s : session) : Z * Z * Z * Z := (s_acked s, s_sent s, s_everSent s, s_seq s).

(** Shedding moves the floor up and counts as lost exactly the lines that were
    never sent. *)
Record sheds (hist : list bufferedLine) (s s' : session) : Prop := {
  sh_ok : stream_ok hist s';
  sh_floor : floor_of s ≤ floor_of s';
  sh_lost : s_lost s' = s_lost s + unsent_between (s_everSent s) (floor_of s) (floor_of s');
  sh_marks : marks_of s' = marks_of s;
}.

Lemma sheds_refl hist s : stream_ok hist s → sheds hist s s.
Proof. intros Hok. split; [done|lia|unfold unsent_between; lia|done]. Qed.

Lemma sheds_trans hist s1 s2 s3 : sheds hist s1 s2 → sheds hist s2 s3 → sheds hist s1 s3.
Proof.
  intros [Hok1 Hf1 Hl1 Hm1] [Hok2 Hf2 Hl2 Hm2]. unfold marks_of in *. simplify_eq.
  split; [done|lia| |unfold marks_of; congruence]. unfold unsent_between in *.
  replace (s_everSent s2) with (s_everSent s1) in Hl2 by congruence. lia.
Qed.

(** One line shed. *)
Lemma drop_oldest_locked_ok hist s :
  stream_ok hist s → (0 < buf_len (s_buf s))%nat → Z.of_nat (length hist) < 2 ^ 64 →
  let s' := fst (drop_oldest_locked s) in
  sheds hist s s' ∧ S (buf_len (s_buf s')) = buf_len (s_buf s).
Proof.
  intros Hok Hlen Hmax. destruct Hok as [Hh Hseq Hfl Hbuf Hlines Hack Hsent Hever Hlost Hcov].
  unfold drop_oldest_locked. destruct (drop_oldest (s_buf s)) as [[l|] b] eqn:Ed.
  2: { unfold drop_oldest, buf_len in *. destruct (lb_lines (s_buf s)); simpl in *; [lia|done]. }
  destruct (drop_oldest_ok _ _ _ _ Hbuf Ed) as (Hb' & Hl & Hend & _).
  assert (Hlen' : S (buf_len b) = buf_len (s_buf s)) by (unfold buf_end in Hend; lia).
  assert (Hlines' : lb_lines (s_buf s) = l :: lb_lines b).
  { unfold drop_oldest in Ed. destruct (lb_lines (s_buf s)); by simplify_eq/=. }
  cbn [fst]. set (s' := update s_lost _ _).
  assert (Hf : floor_of s' = floor_of s + 1) by (unfold floor_of; subst s'; simpl; lia).
  pose proof (floor_len s) as Hfs.
  assert (Hu : u64 (s_lost s + 1) = s_lost s + 1) by (apply u64_small; lia).
  assert (Hlost' : s_lost s' = s_lost s + unsent_between (s_everSent s) (floor_of s) (floor_of s')).
  { rewrite Hf. subst s'. simpl. rewrite Hl, Hu. unfold unsent_between. destruct (Z.ltb_spec (s_everSent s) (floor_of s + 1)); lia. }
  split; [|done]. split; [|lia|done|done].
  rewrite Hf in Hlost'. unfold unsent_between in Hlost'.
  split; rewrite ?Hf; subst s'; simpl in *; try done; try lia.
  rewrite Z2Nat.inj_add, Nat.add_comm by lia. change (Z.to_nat 1) with 1%nat.
  rewrite Nat.add_comm, <- drop_drop, <- Hlines, Hlines'. done.
Qed.

Lemma cap_loop_ok hist fuel s :
  stream_ok hist s → Z.of_nat (length hist) < 2 ^ 64 → (buf_len (s_buf s) ≤ fuel)%nat →
  let s' := fst (cap_loop fuel limit s) in
  sheds hist s s' ∧ (lb_bytes (s_buf s') ≤ limit ∨ (buf_len (s_buf s') ≤ 1)%nat).
Proof.
  revert s. induction fuel as [|fuel IH]; intros s Hok Hmax Hfuel; cbn [cap_loop].
  { split; [by apply sheds_refl|right; simpl; lia]. }
  destruct (Z.ltb_spec limit (lb_bytes (s_buf s))) as [Hlt|]; [|split; [by apply sheds_refl|left; simpl; lia]].
  destruct (Nat.ltb_spec 1 (buf_len (s_buf s))) as [Hlen|]; [|split; [by apply sheds_refl|right; simpl; lia]].
  cbn [andb]. destruct (drop_oldest_locked_ok hist s Hok ltac:(lia) Hmax) as [Hs Hlen'].
  destruct (drop_oldest_locked s) as [s1 es1]. cbn [fst] in *.
  destruct (IH s1 (sh_ok _ _ _ Hs) Hmax ltac:(lia)) as [Hs' Hcap].
  destruct (cap_loop fuel limit s1) as [s2 es2]. cbn [fst] in *.
  split; [by eapply sheds_trans|done].
Qed.

Lemma shed_oldest_ok hist s :
  stream_ok hist s → Z.of_nat (length hist) < 2 ^ 64 → sheds hist s (snd (fst (shed_oldest s))).
Proof.
  intros Hok Hmax. unfold shed_oldest. destruct (Nat.leb_spec (buf_len (s_buf s)) 1).
  - by apply sheds_refl.
  - destruct (drop_oldest_locked_ok hist s Hok ltac:(lia) Hmax) as [Hs _].
    by destruct (drop_oldest_locked s).
Qed.

(** ** Taking a line in *)

(** The line [raw] as a session stores it next. *)
Definition next_line (now : Z) (raw : string) (s : session) : bufferedLine :=
  BufferedLine (s_seq s + 1) now raw.

(** The first half of [ingest_locked]: number the line, append it, track it. *)
Lemma append_ok hist now l raw s :
  stream_ok hist s → Z.of_nat (length hist) + 1 < 2 ^ 64 →
  let s1 := s <| s_seq ::= λ q, u64 (q + 1) |> in
  let s2 := track l raw (s1 <| s_buf ::= push (BufferedLine (s_seq s1) now raw) |>) in
  stream_ok (hist ++ [next_line now raw s]) s2 ∧ floor_of s2 = floor_of s ∧
  s_lost s2 = s_lost s ∧
  (s_acked s2, s_sent s2, s_everSent s2, s_seq s2) = (s_acked s, s_sent s, s_everSent s, s_seq s + 1).
Proof.
  intros Hok Hmax s1. set (s1' := update s_buf _ _). intros s2.
  destruct Hok as [Hh Hseq Hfl Hbuf Hlines Hack Hsent Hever Hlost Hcov].
  assert (Hu : u64 (s_seq s + 1) = s_seq s + 1) by (apply u64_small; lia).
  assert (Hstream : stream_of s2 = (push (next_line now raw s) (s_buf s), s_seq s + 1, s_acked s, s_sent s, s_everSent s, s_lost s)).
  { subst s2. rewrite stream_track. unfold stream_of, s1', s1, next_line. simpl. by rewrite Hu. }
  unfold stream_of in Hstream. injection Hstream as E1 E2 E3 E4 E5 E6. pose proof (floor_len s) as Hfs.
  assert (Hf : floor_of s2 = floor_of s).
  { unfold floor_of. rewrite E1, E2. unfold push, buf_len. simpl. rewrite length_app. simpl. lia. }
  split_and!; [|done|done|congruence].
  assert (Hcov2 : 0 ≤ s_burstCovered s2 ≤ s_seq s + 1).
  { subst s2. destruct (covered_track l raw s1') as [E|E]; unfold covered_of in E; rewrite E;
      subst s1' s1; simpl; lia. }
  split; rewrite ?Hf, ?E1, ?E2, ?E3, ?E4, ?E5, ?E6; try lia.
  - apply consecutive_app. split; [done|]. simpl. lia.
  - rewrite length_app. simpl. lia.
  - apply push_ok; [done|]. simpl. unfold buf_end. lia.
  - unfold push. simpl. rewrite Hlines, drop_app_le by lia. done.
Qed.

(** ** Every operation preserves the invariant *)

Lemma new_session_ok now instance l f key : stream_ok [] (new_session now instance l f key).
Proof. by split. Qed.

(** Whether [ingest] takes [raw] into the stream. *)
Definition enters (raw : string) (s : session) : bool :=
  match parse_line raw with
  | None => false
  | Some l =>
      negb (Z.ltb (str_len (trim_space raw)) 2) && negb (String.eqb (l_cmd l) "PING") &&
      negb (String.eqb (l_cmd l) "PONG" && String.eqb (last_param l) probe_token) &&
      bool_decide (s_state s = stateOpen)
  end.

(** The lines an operation adds to the history. *)
Definition taken (o : sop) (s : session) : list bufferedLine :=
  match o with
  | SIngest now _ raw => if enters raw s then [next_line now raw s] else []
  | _ => []
  end.

(** [ingest] in two cases: the line stays out and the stream is untouched, or it
    is appended and the cap enforced. *)
Lemma ingest_ok hist now pick raw s :
  stream_ok hist s → Z.of_nat (length hist) + 1 < 2 ^ 64 →
  let s' := fst (ingest limit now pick raw s) in
  if enters raw s then
    ∃ s1, sheds (hist ++ [next_line now raw s]) s1 s' ∧ floor_of s1 = floor_of s ∧ s_lost s1 = s_lost s ∧
      (s_acked s1, s_sent s1, s_everSent s1, s_seq s1) = (s_acked s, s_sent s, s_everSent s, s_seq s + 1) ∧
      (lb_bytes (s_buf s') ≤ limit ∨ (buf_len (s_buf s') ≤ 1)%nat)
  else stream_of s' = stream_of s ∧ covered_of s' = covered_of s.
Proof.
  intros Hok Hmax s'. unfold s', ingest, enters. destruct (parse_line raw) as [l|]; [|done].
  destruct (Z.ltb _ _); [done|]. cbn [negb andb].
  destruct (String.eqb (l_cmd l) "PING").
  { simpl negb. cbn [andb]. unfold enqueue_write. repeat case_match; done. }
  destruct (String.eqb (l_cmd l) "PONG" && _); [done|]. cbn [negb andb].
  unfold ingest_locked. destruct (bool_decide (s_state s = stateOpen)); [|done]. cbn [negb].
  destruct (append_ok hist now l raw s Hok Hmax) as (Hok2 & Hf2 & Hl2 & Hm2).
  cbv zeta. set (s2 := track _ _ _) in *.
  pose proof (cap_loop_ok _ (buf_len (s_buf s2)) s2 Hok2) as Hcap.
  rewrite length_app in Hcap. simpl length in Hcap.
  destruct (cap_loop (buf_len (s_buf s2)) limit s2) as [s3 es3] eqn:E.
  destruct (Hcap ltac:(lia) (le_n _)) as [Hsh Hb]. cbn [fst] in *. by exists s2.
Qed.

(** [ack]: refused, or the floor rises to the acknowledged line. *)
Lemma ack_ok hist h q s :
  stream_ok hist s →
  let s' := fst (ack h q s) in
  stream_ok hist s' ∧
  (s' = s ∨ h ∈ s_handles s ∧ s_acked s < q ≤ s_seq s ∧ s_acked s' = q ∧
            floor_of s' = Z.max (floor_of s) q ∧ s_lost s' = s_lost s ∧
            (s_sent s', s_everSent s', s_seq s') = (s_sent s, s_everSent s, s_seq s)).
Proof.
  intros Hok s'. unfold s', ack.
  destruct (negb (bool_decide (h ∈ s_handles s)) || Z.leb q (s_acked s) || Z.ltb (s_seq s) q) eqn:Hg; [by auto|].
  apply orb_false_iff in Hg as [[Hh Hq1]%orb_false_iff Hq2].
  apply negb_false_iff, bool_decide_eq_true_1 in Hh. apply Z.leb_gt in Hq1. apply Z.ltb_ge in Hq2.
  destruct (ack_through q (s_buf s)) as [freed b] eqn:Ea.
  destruct Hok as [Hhist Hseq Hfl Hbuf Hlines Hack Hsent Hever Hlost Hcov].
  destruct (ack_through_ok _ _ _ _ _ Hbuf Ea) as (Hb & Hend & _ & _).
  pose proof (floor_len s) as Hfs. rewrite buf_end_floor in Hend.
  cbn [fst]. set (s1 := update s_acked _ _).
  assert (Hbase : ack_base (floor_of s) q (s_buf s) = Z.max (floor_of s) q).
  { unfold ack_base. rewrite buf_end_floor. lia. }
  rewrite Hbase in *.
  assert (Hf : floor_of s1 = Z.max (floor_of s) q).
  { unfold floor_of. subst s1. simpl. unfold buf_end in Hend. lia. }
  split; [|right; split_and!; done || lia].
  split; rewrite ?Hf; try done; subst s1; simpl in *; try lia; try done.
  unfold ack_through in Ea. rewrite (first_after_ok (floor_of s)) in Ea by done.
  simplify_eq. simpl. rewrite Hlines, drop_drop. f_equal. lia.
Qed.

Lemma attach_ok hist now l h s : stream_ok hist s → stream_ok hist (attach_locked now l h s).
Proof.
  intros [Hh Hseq Hfl Hbuf Hlines Hack Hsent Hever Hlost Hcov]. pose proof (floor_len s) as Hfs.
  assert (Hf : floor_of (attach_locked now l h s) = floor_of s) by done.
  split; rewrite ?Hf; try done; simpl; lia.
Qed.

(** ** Delivery *)

(** The lines [pull] hands over: the next [n] of the history past both what was
    sent and what is gone. *)
Definition owed (hist : list bufferedLine) (n : nat) (s : session) : list bufferedLine :=
  if bool_decide (s_state s = stateDialing) then []
  else take n (drop (Z.to_nat (Z.max (floor_of s) (s_sent s))) hist).

Lemma after_owed hist n s :
  stream_ok hist s → after (s_sent s) n (s_buf s) = take n (drop (Z.to_nat (Z.max (floor_of s) (s_sent s))) hist).
Proof.
  intros []. pose proof (floor_len s).
  rewrite (after_lines (floor_of s)) by (try done; unfold buf_end; lia).
  rewrite so_lines0, drop_drop. do 2 f_equal. lia.
Qed.

Lemma owed_consecutive hist n s :
  stream_ok hist s → consecutive bl_seq (Z.max (floor_of s) (s_sent s)) (owed hist n s).
Proof.
  intros []. pose proof (floor_len s). unfold owed. case_bool_decide; [done|].
  apply consecutive_take.
  pose proof (consecutive_drop bl_seq 0 hist (Z.to_nat (Z.max (floor_of s) (s_sent s))) so_hist0) as Hc.
  match type of Hc with consecutive _ ?x _ => replace x with (Z.max (floor_of s) (s_sent s)) in Hc by lia end.
  done.
Qed.

Lemma owed_length hist n s :
  stream_ok hist s → s_state s ≠ stateDialing →
  Z.of_nat (length (owed hist n s)) = Z.min (Z.of_nat n) (s_seq s - Z.max (floor_of s) (s_sent s)).
Proof.
  intros [] Hst. pose proof (floor_len s). unfold owed. rewrite bool_decide_eq_false_2 by done.
  rewrite length_take, length_drop. lia.
Qed.

(** Where the send mark stands after [owed] lines went out. *)
Definition sent_after (hist : list bufferedLine) (n : nat) (s : session) : Z :=
  match owed hist n s with
  | [] => s_sent s
  | ls => Z.max (floor_of s) (s_sent s) + Z.of_nat (length ls)
  end.

Lemma pull_lines_ok hist n s :
  stream_ok hist s →
  let '(s', fs) := pull_lines n s in
  fs = map (line_frame (s_handle s)) (owed hist n s) ∧
  stream_ok hist s' ∧ floor_of s' = floor_of s ∧ s_lost s' = s_lost s ∧
  s_sent s' = sent_after hist n s ∧ s_everSent s ≤ s_everSent s' ∧
  (s_acked s', s_seq s') = (s_acked s, s_seq s) ∧
  (s_state s', s_finished s', s_closeErr s', s_handle s', s_buf s', s_ctrl s') =
    (s_state s, s_finished s, s_closeErr s, s_handle s, s_buf s, s_ctrl s).
Proof.
  intros Hok. pose proof (owed_consecutive hist n s Hok) as Hcons.
  pose proof (owed_length hist n s Hok) as Hlen. pose proof (after_owed hist n s Hok) as Hafter.
  pose proof (floor_len s) as Hfs. unfold pull_lines.
  destruct (decide (s_state s = stateDialing)) as [Hd|Hd].
  - rewrite bool_decide_eq_true_2 by done.
    assert (Ho : owed hist n s = []) by (unfold owed; by rewrite bool_decide_eq_true_2).
    unfold sent_after. rewrite Ho. done.
  - rewrite bool_decide_eq_false_2 by done. specialize (Hlen Hd).
    assert (Ho : owed hist n s = after (s_sent s) n (s_buf s)).
    { unfold owed. by rewrite bool_decide_eq_false_2. }
    rewrite Hafter in *. cbv zeta. set (s1 := update s_sent _ s). set (s2 := update s_everSent _ s1).
    destruct Hok as [Hh Hseq Hfl Hbuf Hlines Hack Hsent Hever Hlost Hcov].
    assert (Hs1 : s_sent s1 = sent_after hist n s).
    { subst s1. simpl. rewrite <- Ho. rewrite (consecutive_foldl _ _ _ _ Hcons). unfold sent_after. by destruct (owed hist n s). }
    assert (Hrange : s_sent s ≤ sent_after hist n s ≤ s_seq s).
    { unfold sent_after. destruct (owed hist n s); simpl in *; lia. }
    assert (Hs2 : s_everSent s2 = Z.max (s_everSent s) (sent_after hist n s)) by (rewrite <- Hs1; done).
    rewrite Ho. split_and!; try done; [|rewrite Hs2; lia].
    split; try done; rewrite ?Hs2; change (s_sent s2) with (s_sent s1); rewrite ?Hs1; try done;
      subst s2 s1; simpl; lia.
Qed.

(** The whole of [pull], for the link that holds the session: the control
    frames, then the owed lines, then, once the socket is gone and nothing is
    left, the closed frame. *)
Lemma pull_ok hist l n s s' fs dn stale :
  stream_ok hist s → s_link s = Some l → pull l n s = (s', fs, dn, stale) →
  stale = false ∧
  fs = s_ctrl s ++ map (line_frame (s_handle s)) (owed hist n s)
       ++ (if dn then [eframe OpClosed (s_handle s) (s_closeErr s)] else []) ∧
  stream_ok hist s' ∧ floor_of s' = floor_of s ∧ s_lost s' = s_lost s ∧
  s_sent s' = sent_after hist n s ∧ s_everSent s ≤ s_everSent s' ∧
  (s_acked s', s_seq s') = (s_acked s, s_seq s) ∧
  (dn = true ↔ s_state s = stateClosed ∧ s_finished s = false ∧
               s_seq s ≤ Z.max (floor_of s) (sent_after hist n s)) ∧
  s_finished s' = s_finished s || dn.
Proof.
  intros Hok Hl. unfold pull. rewrite bool_decide_eq_true_2 by done. cbn [negb].
  set (s0 := update s_ctrl _ s).
  assert (Hok0 : stream_ok hist s0) by (by apply (stream_ok_ext hist s)).
  pose proof (pull_lines_ok hist n s0 Hok0) as Hp. destruct (pull_lines n s0) as [s1 lines].
  destruct Hp as (Hlines & Hok1 & Hf & Hlo & Hse & Hev & Hm & Hrest).
  change (owed hist n s0) with (owed hist n s) in *.
  change (sent_after hist n s0) with (sent_after hist n s) in *.
  change (floor_of s0) with (floor_of s) in *.
  injection Hrest as Est Efin Ecl Eh Ebuf Ectrl. injection Hm as Ea Eseq.
  change (s_lost s0) with (s_lost s) in *.
  assert (Hcount : (count_after (s_sent s1) (s_buf s1) =? 0)%nat = true ↔
                   s_seq s ≤ Z.max (floor_of s) (sent_after hist n s)).
  { pose proof (so_sent _ _ Hok1). rewrite Nat.eqb_eq.
    pose proof (count_after_ok (floor_of s1) (s_buf s1) (s_sent s1) (so_buf _ _ Hok1)) as Hc.
    rewrite buf_end_floor, Hf, Hse, Eseq in *. change (s_seq s0) with (s_seq s) in *.
    specialize (Hc ltac:(lia)). lia. }
  cbv zeta. destruct (_ && _) eqn:Hdn; intros [= <- <- <- <-].
  - apply andb_true_iff in Hdn as [[Hst Hfin]%andb_true_iff Hc%Hcount].
    apply bool_decide_eq_true_1 in Hst. apply negb_true_iff in Hfin.
    split_and!; try done.
    + rewrite Hlines, Eh, Ecl, <- app_assoc. done.
    + by apply (stream_ok_ext hist s1).
    + simpl. by rewrite Ea, Eseq.
    + split; [|done]. intros _. split_and!; [by rewrite Est in Hst|by rewrite Efin in Hfin|done].
    + simpl. by rewrite orb_true_r.
  - split_and!; try done.
    + by rewrite Hlines, app_nil_r.
    + by rewrite Ea, Eseq.
    + split; [done|]. intros (Hst & Hfin & Hc). apply Hcount in Hc. rewrite Hc, Est, Efin in Hdn.
      change (s_state s0) with (s_state s) in Hdn. change (s_finished s0) with (s_finished s) in Hdn.
      rewrite bool_decide_eq_true_2, Hfin in Hdn by done. done.
    + rewrite Efin, orb_false_r. done.
Qed.

(** ** Runs *)

(** The losses a list of frames reports. *)
Definition losses (fs : list Frame) : Z := sumZ f_lost fs.

(** The losses reported by waiting frames that an operation throws away: a new
    attach replaces them, a detach drops them. *)
Definition discards (o : sop) (s : session) : Z :=
  match o with
  | SAttach _ _ _ => if reusable (s_fp s) s then losses (s_ctrl s) else 0
  | SDetach _ l => if bool_decide (s_link s = Some l) then losses (s_ctrl s) else 0
  | SClose _ l h => if bool_decide (s_handle s = h) && bool_decide (s_link s = Some l) then losses (s_ctrl s) else 0
  | _ => 0
  end.

(** A run: the session, the history of what it took in, the frames handed to
    links and the losses in attached frames thrown away unread. *)
Record rstate := RState {
  r_s : session; r_hist : list bufferedLine; r_out : list Frame; r_discarded : Z;
}.

Definition rstep (r : rstate) (o : sop) : rstate :=
  let '(s', fs) := sop_step o (r_s r) in
  RState s' (r_hist r ++ taken o (r_s r)) (r_out r ++ fs) (r_discarded r + discards o (r_s r)).

Definition run (ops : list sop) (r : rstate) : rstate := foldl rstep r ops.

Definition rstart (s : session) (hist : list bufferedLine) : rstate := RState s hist [] 0.

Lemma run_snoc ops o r : run (ops ++ [o]) r = rstep (run ops r) o.
Proof. unfold run. by rewrite foldl_app. Qed.

Lemma taken_length o s : (length (taken o s) ≤ 1)%nat.
Proof. destruct o; simpl; try lia. destruct (enters raw s); simpl; lia. Qed.

Lemma run_hist_length ops r : (length (r_hist (run ops r)) ≤ length (r_hist r) + length ops)%nat.
Proof.
  induction ops as [|o ops IH] using rev_ind; [simpl; lia|].
  rewrite run_snoc, length_app. unfold rstep. destruct (sop_step o _). simpl.
  rewrite length_app. pose proof (taken_length o (r_s (run ops r))). simpl. lia.
Qed.

Lemma run_hist_prefix ops r : ∃ h, r_hist (run ops r) = r_hist r ++ h.
Proof.
  induction ops as [|o ops [h IH]] using rev_ind; [exists []; by rewrite app_nil_r|].
  rewrite run_snoc. unfold rstep. destruct (sop_step o _). simpl. rewrite IH, <- app_assoc. eauto.
Qed.

(** One step: the invariant, and how the floor and the losses may move. *)
Lemma step_ok hist o s :
  stream_ok hist s → Z.of_nat (length hist) + 1 < 2 ^ 64 →
  let s' := fst (sop_step o s) in
  stream_ok (hist ++ taken o s) s' ∧
  s_everSent s ≤ s_everSent s' ∧ s_acked s ≤ s_acked s' ∧
  (floor_of s ≤ floor_of s' ≤ Z.max (floor_of s) (s_acked s') ∧ s_lost s' = s_lost s ∨
   (∃ now l h, o = SAttach now l h ∧ reusable (s_fp s) s = true ∧ floor_of s' = floor_of s) ∨
   s_lost s' = s_lost s + unsent_between (s_everSent s) (floor_of s) (floor_of s') ∧ floor_of s ≤ floor_of s').
Proof.
  intros Hok Hmax.
  assert (Hquiet : ∀ s', stream_of s' = stream_of s → covered_of s' = covered_of s →
    stream_ok (hist ++ []) s' ∧ s_everSent s ≤ s_everSent s' ∧ s_acked s ≤ s_acked s' ∧
    (floor_of s ≤ floor_of s' ≤ Z.max (floor_of s) (s_acked s') ∧ s_lost s' = s_lost s ∨
     (∃ now l h, o = SAttach now l h ∧ reusable (s_fp s) s = true ∧ floor_of s' = floor_of s) ∨
     s_lost s' = s_lost s + unsent_between (s_everSent s) (floor_of s) (floor_of s') ∧ floor_of s ≤ floor_of s')).
  { intros s' Hst Hc. rewrite app_nil_r. pose proof (stream_ok_ext hist s s' Hst Hc Hok) as Hok'.
    unfold stream_of in Hst. injection Hst as E1 E2 E3 E4 E5 E6.
    assert (floor_of s' = floor_of s) by (unfold floor_of; by rewrite E1, E2).
    split_and!; [done|lia|lia|]. left. lia. }
  destruct o as [now pick raw|pick line| |err|now l h|now l|l n|h q|reason| |now l h];
    cbn [sop_step taken fst snd].
  - pose proof (ingest_ok hist now pick raw s Hok Hmax) as Hi. cbv zeta in Hi.
    destruct (enters raw s).
    + destruct Hi as (s1 & Hsh & Hf1 & Hl1 & Hm1 & _). injection Hm1 as Ea Ese Eev Eseq.
      destruct Hsh as [Hok' Hf Hl Hm]. injection Hm as Ea' Ese' Eev' Eseq'.
      split_and!; [done|lia|lia|]. right. right. rewrite <- Hf1, <- Hl1, <- Eev. done.
    + destruct Hi. by apply Hquiet.
  - apply Hquiet; [apply stream_enqueue|]. unfold enqueue_write. by repeat case_match.
  - by apply Hquiet.
  - apply Hquiet; [apply stream_dial|]. unfold dial_done. by repeat case_match.
  - rewrite app_nil_r. destruct (reusable (s_fp s) s) eqn:Hr; cbn [fst].
    + split_and!; [by apply attach_ok|done|done|]. right. left. by exists now, l, h.
    + split_and!; [done|done|done|]. left. lia.
  - apply Hquiet; [apply stream_detach|]. unfold detach_locked. by repeat case_match.
  - rewrite app_nil_r. destruct (decide (s_link s = Some l)) as [Hl|Hl].
    + destruct (pull l n s) as [[[s' fs] dn] stale] eqn:Hp.
      destruct (pull_ok hist l n s s' fs dn stale Hok Hl Hp) as (_ & _ & Hok' & Hf & Hlo & _ & Hev & Hm & _).
      injection Hm as Ea Eseq. cbn [fst]. split_and!; [done|lia|lia|]. left. lia.
    + unfold pull. rewrite bool_decide_eq_false_2 by done. cbn [negb fst].
      split_and!; [done|lia|lia|]. left. lia.
  - rewrite app_nil_r. destruct (ack_ok hist h q s Hok) as [Hok' [->|(_ & Hq & Ea & Hf & Hlo & Hm)]];
      cbn [fst].
    + split_and!; [done|lia|lia|]. left. lia.
    + injection Hm as Ese Eev Eseq. split_and!; [done|lia|lia|]. left. lia.
  - apply Hquiet; [apply stream_shutdown|]. unfold shutdown. by repeat case_match.
  - rewrite app_nil_r. destruct (shed_oldest_ok hist s Hok ltac:(lia)) as [Hok' Hf Hl Hm].
    injection Hm as Ea' Ese' Eev' Eseq'. split_and!; [done|lia|lia|]. right. right. done.
  - case_match; [|by apply Hquiet]. apply Hquiet; [|].
    + transitivity (stream_of (snd (detach_locked now l s))); [done|apply stream_detach].
    + unfold detach_locked. by repeat case_match.
Qed.

(** The invariant holds along every run. *)
Lemma run_ok ops r :
  stream_ok (r_hist r) (r_s r) → Z.of_nat (length (r_hist r) + length ops) < 2 ^ 64 →
  stream_ok (r_hist (run ops r)) (r_s (run ops r)).
Proof.
  induction ops as [|o ops IH] using rev_ind; intros Hok Hmax; [done|].
  rewrite length_app in Hmax. simpl in Hmax. specialize (IH Hok ltac:(lia)). rewrite run_snoc.
  pose proof (run_hist_length ops r) as Hlen.
  destruct (step_ok _ o _ IH ltac:(lia)) as [Hok' _].
  unfold rstep. by destruct (sop_step o (r_s (run ops r))).
Qed.

(** ** One attachment *)

(** The relayed lines among the frames handed over. *)
Definition line_out (fs : list Frame) : list (Z * string) :=
  omap (λ f, if String.eqb (f_op f) OpLine then Some (f_seq f, text f) else None) fs.

Definition line_of (l : bufferedLine) : Z * string := (bl_seq l, bl_line l).

Definition is_attach (o : sop) : bool := match o with SAttach _ _ _ => true | _ => false end.

(** Only open and attached frames wait in front of the lines. *)
Definition ctrl_ok (s : session) : Prop :=
  Forall (λ f, f_op f = OpOpen ∨ f_op f = OpAttached) (s_ctrl s).

Definition is_closed_frame (f : Frame) : bool := String.eqb (f_op f) OpClosed.

Lemma line_out_app fs1 fs2 : line_out (fs1 ++ fs2) = line_out fs1 ++ line_out fs2.
Proof. apply omap_app. Qed.

Lemma f_op_set_line line f : f_op (set_line line f) = f_op f.
Proof. unfold set_line. by case_match. Qed.
Lemma f_seq_set_line line f : f_seq (set_line line f) = f_seq f.
Proof. unfold set_line. by case_match. Qed.

Lemma line_out_lines h ls : line_out (map (line_frame h) ls) = map line_of ls.
Proof.
  induction ls as [|l ls IH]; [done|]. cbn [map line_out omap list_omap] in *.
  unfold line_out in IH |- *. cbn [omap list_omap]. unfold line_frame at 1 2 3.
  rewrite f_op_set_line, f_seq_set_line, text_set_line. simpl. by rewrite IH.
Qed.

Lemma ctrl_no_lines s : ctrl_ok s → line_out (s_ctrl s) = [].
Proof.
  unfold ctrl_ok. induction 1 as [|f fs Hf _ IH]; [done|]. unfold line_out in *. cbn [omap list_omap].
  destruct Hf as [-> | ->]; done.
Qed.

Lemma ctrl_no_closed s : ctrl_ok s → existsb is_closed_frame (s_ctrl s) = false.
Proof.
  unfold ctrl_ok. induction 1 as [|f fs Hf _ IH]; [done|]. cbn [existsb]. rewrite IH. unfold is_closed_frame.
  destruct Hf as [-> | ->]; done.
Qed.

Lemma lines_no_closed h ls : existsb is_closed_frame (map (line_frame h) ls) = false.
Proof.
  induction ls as [|l ls IH]; [done|]. cbn [map existsb]. rewrite IH, orb_false_r.
  unfold is_closed_frame, line_frame. by rewrite f_op_set_line.
Qed.

(** The control frames and the send mark. *)
Definition outbox (s : session) : list Frame * Z := (s_ctrl s, s_sent s).

Lemma outbox_track l raw s : outbox (track l raw s) = outbox s.
Proof.
  unfold track. transitivity (outbox (track_burst l raw s)).
  - unfold track_state. generalize (is_self l (track_burst l raw s)). intros b. branches.
  - unfold track_burst. branches.
Qed.

Lemma outbox_drop s : outbox (fst (drop_oldest_locked s)) = outbox s.
Proof. unfold drop_oldest_locked. by destruct (drop_oldest (s_buf s)) as [[?|] ?]. Qed.

Lemma outbox_cap fuel s : outbox (fst (cap_loop fuel limit s)) = outbox s.
Proof.
  revert s. induction fuel as [|fuel IH]; intros s; [done|]. cbn [cap_loop].
  destruct (_ && _); [|done]. pose proof (outbox_drop s) as Hd.
  destruct (drop_oldest_locked s) as [s1 es]. specialize (IH s1).
  destruct (cap_loop fuel limit s1) as [s2 es2]. cbn [fst] in *. congruence.
Qed.

Lemma outbox_enqueue pick line s : outbox (fst (enqueue_write pick line s)) = outbox s.
Proof. unfold enqueue_write. branches. Qed.

Lemma outbox_ingest now pick raw s : outbox (fst (ingest limit now pick raw s)) = outbox s.
Proof.
  unfold ingest. destruct (parse_line raw) as [l|]; [|done].
  destruct (Z.ltb _ _); [done|]. destruct (String.eqb _ "PING"); [apply outbox_enqueue|].
  destruct (_ && _); [done|]. unfold ingest_locked. destruct (negb _); [done|].
  cbv zeta. set (s2 := track _ _ _). pose proof (outbox_cap (buf_len (s_buf s2)) s2) as Hc.
  destruct (cap_loop _ _ _) as [s3 es]. cbn [fst] in *. rewrite Hc. subst s2. by rewrite outbox_track.
Qed.

(** The send mark and the control frames across an operation that is not an
    attach. *)
Lemma step_sent hist o s :
  stream_ok hist s → ctrl_ok s → is_attach o = false →
  let s' := fst (sop_step o s) in
  ctrl_ok s' ∧
  (s_sent s' = s_sent s ∧ line_out (snd (sop_step o s)) = [] ∨
   ∃ n, s_sent s' = sent_after hist n s ∧ line_out (snd (sop_step o s)) = map line_of (owed hist n s) ∧
        taken o s = []).
Proof.
  intros Hok Hctrl Hatt.
  assert (Hquiet : ∀ s', outbox s' = outbox s ∨ outbox s' = ([], s_sent s) ∨
      outbox s' = (s_ctrl s ++ [hframe OpOpen (s_handle s)], s_sent s) →
    ∀ P : Prop, ctrl_ok s' ∧ (s_sent s' = s_sent s ∧ line_out [] = [] ∨ P)).
  { unfold outbox, ctrl_ok in *. intros s' Hs' P.
    destruct Hs' as [[= E1 E2]|[[= E1 E2]|[= E1 E2]]]; rewrite E1, E2; split; auto using Forall_nil.
    apply Forall_app. split; [done|]. repeat constructor. }
  destruct o as [now pick raw|pick line| |err|now l h|now l|l n|h q|reason| |now l h]; try done;
    cbn [sop_step taken fst snd].
  - apply Hquiet. left. apply outbox_ingest.
  - apply Hquiet. left. apply outbox_enqueue.
  - apply Hquiet. by left.
  - apply Hquiet. unfold dial_done. cbv zeta. repeat case_match; simpl; auto.
  - apply Hquiet. unfold detach_locked. case_match; simpl; auto.
  - destruct (decide (s_link s = Some l)) as [Hl|Hl].
    + destruct (pull l n s) as [[[s' fs] dn] stale] eqn:Hp.
      destruct (pull_ok hist l n s s' fs dn stale Hok Hl Hp) as (_ & -> & _ & _ & _ & Hse & _).
      cbn [fst snd]. split.
      * unfold pull in Hp. rewrite bool_decide_eq_true_2 in Hp by done. cbn [negb] in Hp.
        pose proof (pull_lines_ok hist n (s <| s_ctrl := [] |>)) as Hpl.
        destruct (pull_lines _ _) as [s1 ls].
        destruct Hpl as (_ & _ & _ & _ & _ & _ & _ & Hrest); [by apply (stream_ok_ext hist s)|].
        injection Hrest as _ _ _ _ _ Hc. unfold ctrl_ok.
        cbv zeta in Hp. destruct (_ && _) in Hp; simplify_eq; simpl; rewrite Hc; by constructor.
      * right. exists n. split_and!; [done| |done].
        rewrite !line_out_app, line_out_lines, (ctrl_no_lines _ Hctrl). destruct dn; by rewrite app_nil_r.
    + unfold pull. rewrite bool_decide_eq_false_2 by done. apply Hquiet. by left.
  - unfold ack. apply Hquiet. left. case_match; [done|]. by destruct (ack_through q (s_buf s)).
  - apply Hquiet. left. unfold shutdown. by case_match.
  - apply Hquiet. left. unfold shed_oldest. case_match; [done|].
    pose proof (outbox_drop s). by destruct (drop_oldest_locked s).
  - case_match; [|apply Hquiet; by left]. apply Hquiet. unfold detach_locked.
    case_match; simpl; auto.
Qed.

(** ** What one attachment delivers *)

(** The first lines of the history, through number [q]. *)
Definition upto (q : Z) (hist : list bufferedLine) : list bufferedLine := take (Z.to_nat q) hist.

(** A line was skipped by a run: at some point it was not sent yet and gone. *)
Definition skipped (ops : list sop) (r : rstate) (x : bufferedLine) : Prop :=
  ∃ ops1 ops2, ops = ops1 ++ ops2 ∧
    s_sent (r_s (run ops1 r)) < bl_seq x ≤ floor_of (r_s (run ops1 r)).

Lemma skipped_snoc ops o r x : skipped ops r x → skipped (ops ++ [o]) r x.
Proof. intros (o1 & o2 & -> & Hs). exists o1, (o2 ++ [o]). by rewrite app_assoc. Qed.

Lemma sent_after_range hist n s :
  stream_ok hist s → s_sent s ≤ sent_after hist n s ≤ s_seq s.
Proof.
  intros Hok. pose proof (owed_length hist n s Hok) as Hl. destruct Hok. unfold sent_after, owed in *.
  case_bool_decide; [lia|]. specialize (Hl ltac:(done)).
  destruct (take _ _); simpl in *; lia.
Qed.

(** The lines owed fill the gap between the old and the new send mark, save for
    what is gone. *)
Lemma owed_upto hist n s :
  stream_ok hist s → ∀ D, D `sublist_of` upto (s_sent s) hist →
  D ++ owed hist n s `sublist_of` upto (sent_after hist n s) hist.
Proof.
  intros Hok D HD. pose proof (owed_length hist n s Hok) as Hl. unfold sent_after.
  destruct (owed hist n s) as [|l0 ls0] eqn:E; [by rewrite app_nil_r|].
  assert (Hst : s_state s ≠ stateDialing).
  { intros Hd. unfold owed in E. by rewrite bool_decide_eq_true_2 in E. }
  specialize (Hl Hst). destruct Hok. pose proof (floor_len s). rewrite <- E in *. unfold upto in *.
  set (k := Z.max (floor_of s) (s_sent s)) in *.
  rewrite Z2Nat.inj_add, Nat2Z.id by lia.
  rewrite <- take_take_drop. apply sublist_app.
  - etransitivity; [exact HD|]. apply sublist_take_mono. lia.
  - unfold owed. rewrite bool_decide_eq_false_2 by done. fold k.
    by rewrite take_length_take.
Qed.

Lemma owed_bounds hist n s x :
  stream_ok hist s → x ∈ owed hist n s → Z.max (floor_of s) (s_sent s) < bl_seq x ≤ sent_after hist n s.
Proof.
  intros Hok Hx. pose proof (owed_consecutive hist n s Hok) as Hc.
  apply list_elem_of_lookup in Hx as [i Hi]. rewrite (consecutive_lookup _ _ _ _ _ Hc Hi).
  apply lookup_lt_Some in Hi. unfold sent_after. destruct (owed hist n s); simpl in *; lia.
Qed.

Lemma owed_complete hist n s x :
  stream_ok hist s → x ∈ hist → Z.max (floor_of s) (s_sent s) < bl_seq x ≤ sent_after hist n s →
  x ∈ owed hist n s.
Proof.
  intros Hok Hx Hb. pose proof (owed_consecutive hist n s Hok) as Hc. destruct Hok.
  apply list_elem_of_lookup in Hx as [i Hi]. pose proof (consecutive_lookup _ _ _ _ _ so_hist0 Hi) as Hq.
  unfold sent_after, owed in *. pose proof (floor_len s).
  case_bool_decide; [lia|]. set (k := Z.to_nat (Z.max (floor_of s) (s_sent s))) in *.
  assert (Hlen : (i < k + length (take n (drop k hist)))%nat) by (destruct (take n (drop k hist)); simpl in *; lia).
  apply list_elem_of_lookup. exists (i - k)%nat. rewrite length_take in Hlen.
  rewrite lookup_take_lt by lia. rewrite lookup_drop. by replace (k + (i - k))%nat with i by lia.
Qed.

(** The relayed lines of a run in which nothing attaches: the history in
    order, from the send mark on, less lines that were gone before their turn. *)
Record delivery (ops : list sop) (r : rstate) (D : list bufferedLine) : Prop := {
  de_out : line_out (r_out (run ops r)) = line_out (r_out r) ++ map line_of D;
  de_sub : D `sublist_of` upto (s_sent (r_s (run ops r))) (r_hist (run ops r));
  de_new : Forall (λ x, s_sent (r_s r) < bl_seq x) D;
  de_all : ∀ x, x ∈ r_hist (run ops r) → s_sent (r_s r) < bl_seq x ≤ s_sent (r_s (run ops r)) →
           x ∈ D ∨ skipped ops r x;
}.

Lemma run_delivery ops r :
  stream_ok (r_hist r) (r_s r) → Z.of_nat (length (r_hist r) + length ops) < 2 ^ 64 →
  ctrl_ok (r_s r) → forallb (λ o, negb (is_attach o)) ops = true →
  ctrl_ok (r_s (run ops r)) ∧ s_sent (r_s r) ≤ s_sent (r_s (run ops r)) ∧ ∃ D, delivery ops r D.
Proof.
  intros Hok Hmax Hctrl. induction ops as [|o ops IH] using rev_ind; intros Hna.
  { split_and!; [done|done|]. exists []. split; simpl; [by rewrite app_nil_r| |done|lia].
    apply sublist_nil_l. }
  rewrite forallb_app in Hna. apply andb_true_iff in Hna as [Hna Ho]. simpl in Ho.
  rewrite andb_true_r in Ho. apply negb_true_iff in Ho. rewrite length_app in Hmax. simpl in Hmax.
  destruct (IH ltac:(lia) Hna) as (Hc & Hmono & D & [Hout Hsub Hnew Hall]). clear IH.
  pose proof (run_ok ops r Hok ltac:(lia)) as Hok'. rewrite run_snoc. unfold rstep.
  pose proof (step_sent _ o _ Hok' Hc Ho) as [Hc' Hcase].
  set (s := r_s (run ops r)) in *. set (hist := r_hist (run ops r)) in *.
  destruct (sop_step o s) as [s' fs] eqn:Es. cbn [fst snd r_s] in *.
  assert (∃ n, run (ops ++ [o]) r = RState s' (hist ++ taken o s) (r_out (run ops r) ++ fs) n) as [rep Hrun].
  { rewrite run_snoc. unfold rstep. fold s. rewrite Es. eauto. }
  destruct Hcase as [[Hse Hfs]|(n & Hse & Hfs & Ht)].
  - split_and!; [done|lia|]. exists D. split; rewrite ?Hrun; cbn [r_s r_hist r_out].
    + by rewrite line_out_app, Hfs, app_nil_r.
    + rewrite Hse. etransitivity; [exact Hsub|]. unfold upto. rewrite take_app. apply sublist_inserts_r. done.
    + done.
    + rewrite Hse. intros x [Hx|Hx]%elem_of_app Hb.
      * destruct (Hall x Hx Hb) as [?|?]; [by left|right; by apply skipped_snoc].
      * exfalso. destruct Hok'. fold s in so_seq0; fold hist in so_hist0, so_seq0.
        assert (bl_seq x = s_seq s + 1); [|lia].
        destruct o; simpl in Hx; try by apply not_elem_of_nil in Hx.
        destruct (enters raw s); [|by apply not_elem_of_nil in Hx].
        apply list_elem_of_singleton in Hx as ->. done.
  - pose proof (sent_after_range hist n s Hok') as Hr. split_and!; [done|lia|].
    exists (D ++ owed hist n s). split; rewrite ?Hrun; cbn [r_s r_hist r_out]; rewrite ?Ht, ?app_nil_r, ?Hse.
    + rewrite line_out_app, Hout, Hfs, map_app. by rewrite app_assoc.
    + by apply owed_upto.
    + apply Forall_app. split; [done|]. apply Forall_forall. intros x Hx.
      pose proof (owed_bounds hist n s x Hok' Hx). lia.
    + intros x Hx Hb. destruct (decide (bl_seq x ≤ s_sent s)).
      * destruct (Hall x Hx ltac:(lia)) as [?|?]; [left; apply elem_of_app; by left|right; by apply skipped_snoc].
      * destruct (decide (bl_seq x ≤ floor_of s)).
        { right. exists ops, [o]. split; [done|]. fold s. lia. }
        left. apply elem_of_app. right. apply owed_complete; [done|done|lia].
Qed.

(** A control frame is never a relayed line, attaching included. *)
Lemma run_ctrl_ok ops r :
  stream_ok (r_hist r) (r_s r) → Z.of_nat (length (r_hist r) + length ops) < 2 ^ 64 →
  ctrl_ok (r_s r) → ctrl_ok (r_s (run ops r)).
Proof.
  intros Hok. induction ops as [|o ops IH] using rev_ind; intros Hmax Hc; [done|].
  rewrite length_app in Hmax. simpl in Hmax. specialize (IH ltac:(lia) Hc).
  pose proof (run_ok ops r Hok ltac:(lia)) as Hok'. rewrite run_snoc. unfold rstep.
  destruct (is_attach o) eqn:Ho.
  - destruct o; try done. cbn [sop_step]. destruct (reusable _ _); [|done]. apply Forall_singleton. by right.
  - destruct (step_sent _ o _ Hok' IH Ho) as [Hc' _]. by destruct (sop_step o _).
Qed.

(** ** The end of a session *)

(** The link has been told the session is closed and is owed nothing. *)
Record ended (s : session) : Prop := {
  en_state : s_state s = stateClosed;
  en_finished : s_finished s = true;
  en_ctrl : s_ctrl s = [];
  en_owed : s_seq s ≤ Z.max (floor_of s) (s_sent s);
}.

Definition life_of (s : session) := (s_state s, s_finished s, s_ctrl s, s_seq s, s_sent s).

Lemma ended_ext s s' : life_of s' = life_of s → floor_of s ≤ floor_of s' → ended s → ended s'.
Proof. unfold life_of. intros [= E1 E2 E3 E4 E5] Hf []. split; rewrite ?E1, ?E2, ?E3, ?E4, ?E5; try done. lia. Qed.

(** Nothing more comes out of an ended session. *)
Lemma ended_step hist o s :
  stream_ok hist s → Z.of_nat (length hist) + 1 < 2 ^ 64 → ended s →
  snd (sop_step o s) = [] ∧ ended (fst (sop_step o s)).
Proof.
  intros Hok Hmax He. pose proof He as [Hst Hfin Hctrl Hseq].
  assert (Hq : ∀ s', life_of s' = life_of s → stream_of s' = stream_of s → ended s').
  { intros s' Hl Hs. apply (ended_ext s); [done| |done]. unfold stream_of in Hs. unfold floor_of.
    injection Hs as -> -> _ _ _ _. lia. }
  destruct o as [now pick raw|pick line| |err|now l h|now l|l n|h q|reason| |now l h];
    cbn [sop_step fst snd].
  - split; [done|]. unfold ingest. destruct (parse_line raw); [|done]. destruct (Z.ltb _ _); [done|].
    destruct (String.eqb _ _); [|destruct (_ && _); [done|]; unfold ingest_locked; by rewrite Hst].
    apply Hq; [|apply stream_enqueue]. unfold enqueue_write. branches.
  - split; [done|]. apply Hq; [|apply stream_enqueue]. unfold enqueue_write. branches.
  - by split; [|apply Hq].
  - split; [done|]. unfold dial_done. by rewrite bool_decide_eq_true_2.
  - unfold reusable. by rewrite Hst.
  - split; [done|]. apply Hq; [|apply stream_detach]. unfold detach_locked, life_of. case_match; simpl; by rewrite ?Hctrl.
  - unfold pull. destruct (negb _); [done|].
    pose proof (pull_lines_ok hist n (s <| s_ctrl := [] |>)) as Hp.
    destruct (pull_lines n _) as [s1 ls]. destruct Hp as (Hls & _ & Hf & _ & Hse & _ & Hm & Hrest); [by apply (stream_ok_ext hist s)|].
    injection Hrest as E1 E2 _ _ _ E3. injection Hm as _ Eq.
    assert (Ho : owed hist n s = []).
    { unfold owed. rewrite bool_decide_eq_false_2 by (by rewrite Hst). destruct Hok.
      rewrite drop_ge by lia. apply take_nil. }
    change (owed hist n (s <| s_ctrl := [] |>)) with (owed hist n s) in Hls.
    unfold sent_after in Hse. change (owed hist n (s <| s_ctrl := [] |>)) with (owed hist n s) in Hse.
    rewrite Ho in *. subst ls. cbv zeta. rewrite E2. simpl s_finished. rewrite Hfin, andb_false_r. cbn [andb fst snd].
    rewrite Hctrl. split; [done|]. apply (ended_ext s); [|rewrite Hf; done|done].
    unfold life_of. rewrite E1, E2, E3, Eq, Hse. simpl. by rewrite Hctrl.
  - split; [done|]. destruct (ack_ok hist h q s Hok) as [_ [->|(_ & _ & _ & Hf & _ & Hm)]]; [done|].
    injection Hm as E1 E2 E3. apply (ended_ext s); [|lia|done].
    unfold ack, life_of in *. destruct (_ || _); [done|]. by destruct (ack_through q (s_buf s)).
  - unfold shutdown. by rewrite bool_decide_eq_true_2.
  - split; [done|]. destruct (shed_oldest_ok hist s Hok ltac:(lia)) as [_ Hf _ _]. apply (ended_ext s); [|done|done].
    unfold shed_oldest, drop_oldest_locked, life_of. case_match; [done|]. by destruct (drop_oldest (s_buf s)) as [[?|] ?].
  - case_match; [|done]. split; [done|]. apply Hq.
    + unfold detach_locked, life_of. case_match; simpl; by rewrite ?Hctrl, ?Hfin.
    + transitivity (stream_of (snd (detach_locked now l s))); [done|apply stream_detach].
Qed.
End spec.
