(* ===== verification/EngineSessionThms.v ===== *)
(** * Properties of a held socket

    Proved from the invariant of EngineSessionSpec: the end of a session, the
    cap on its buffer, the IRC state it tracks, and what an attach announces. *)

From Stdlib Require Import ZArith Lia Ascii.
From stdpp Require Import base tactics list strings.
From S2P Require Import Prelude GoStrings EngineLine LineBuffer Frame EngineSession EngineSessionSpec.

#[local] Open Scope Z_scope.

(** ** The IRC state a replay is built from *)

(** Channels are distinct under the engine's case folding, and the welcome index
    points at a 001 in the burst. *)
Record tracked_ok `{UnicodeTables} (s : session) : Prop := {
  tr_chans : NoDup (map fold (s_channels s));
  tr_names : Forall (λ c, c ≠ "" ∧ c ≠ "0") (s_channels s);
  tr_welcome : ∀ i, s_welcomeIdx s = Some i →
    ∃ raw l, s_burst s !! i = Some raw ∧ parse_line raw = Some l ∧ l_cmd l = "001";
}.

(** Whether any closed frame was handed over, and whether it was the last one. *)
Definition closed_last (r : rstate) : Prop :=
  existsb is_closed_frame (r_out r) = false ∨
  ∃ fs f, r_out r = fs ++ [f] ∧ is_closed_frame f = true ∧ existsb is_closed_frame fs = false ∧ ended (r_s r).

Lemma add_channel_ok ch cs :
  NoDup (map fold cs) → Forall (λ c, c ≠ "" ∧ c ≠ "0") cs →
  NoDup (map fold (add_channel ch cs)) ∧ Forall (λ c, c ≠ "" ∧ c ≠ "0") (add_channel ch cs).
Proof.
  intros Hn Hf. unfold add_channel. destruct (_ || _) eqn:E; [done|].
  destruct (existsb _ _) eqn:Ex; [done|].
  apply orb_false_iff in E as [E1%String.eqb_neq E2%String.eqb_neq]. split.
  - rewrite map_app. apply NoDup_app. split_and!; [done| |apply NoDup_singleton].
    intros x Hx [= ->]%list_elem_of_singleton.
    apply list_elem_of_fmap in Hx as (c & Hc & Hin).
    assert (existsb (λ c, String.eqb (fold c) (fold ch)) cs = true); [|congruence].
    apply existsb_exists. exists c. rewrite list_elem_of_In in Hin. split; [done|]. by apply String.eqb_eq.
  - apply Forall_app. by repeat constructor.
Qed.

Lemma remove_channel_ok ch cs :
  NoDup (map fold cs) → Forall (λ c, c ≠ "" ∧ c ≠ "0") cs →
  NoDup (map fold (remove_channel ch cs)) ∧ Forall (λ c, c ≠ "" ∧ c ≠ "0") (remove_channel ch cs).
Proof.
  intros Hn Hf. pose proof (sublist_filter (λ c, fold c ≠ fold ch) cs) as Hs. split.
  - eapply sublist_NoDup; [exact Hn|]. by apply fmap_sublist.
  - apply Forall_forall. intros c Hc. rewrite Forall_forall in Hf. apply Hf. by eapply elem_of_sublist.
Qed.

Section tracked.
Context `{UnicodeTables}.
Variable limit : Z.

Lemma add_channels_ok chs cs :
  NoDup (map fold cs) ∧ Forall (λ c, c ≠ "" ∧ c ≠ "0") cs →
  NoDup (map fold (foldl (λ cs ch, add_channel ch cs) cs chs)) ∧
  Forall (λ c, c ≠ "" ∧ c ≠ "0") (foldl (λ cs ch, add_channel ch cs) cs chs).
Proof. revert cs. induction chs as [|ch chs IH]; intros cs [Hn Hf]; [done|]. apply IH. by apply add_channel_ok. Qed.

Lemma remove_channels_ok chs cs :
  NoDup (map fold cs) ∧ Forall (λ c, c ≠ "" ∧ c ≠ "0") cs →
  NoDup (map fold (foldl (λ cs ch, remove_channel ch cs) cs chs)) ∧
  Forall (λ c, c ≠ "" ∧ c ≠ "0") (foldl (λ cs ch, remove_channel ch cs) cs chs).
Proof. revert cs. induction chs as [|ch chs IH]; intros cs [Hn Hf]; [done|]. apply IH. by apply remove_channel_ok. Qed.

(** What [tracked_ok] looks at. *)
Definition tracked_of (s : session) := (s_burst s, s_welcomeIdx s, s_channels s).

Lemma tracked_ok_ext s s' : tracked_of s' = tracked_of s → tracked_ok s → tracked_ok s'.
Proof. unfold tracked_of. intros [= E1 E2 E3] []. split; by rewrite ?E1, ?E2, ?E3. Qed.

Lemma track_burst_ok l raw s : parse_line raw = Some l → tracked_ok s → tracked_ok (track_burst l raw s).
Proof.
  intros Hp [Hn Hf Hw]. unfold track_burst. destruct (s_burstOpen s).
  2: { destruct (_ && _); [|done]. destruct (Z.leb _ _); done. }
  cbv zeta. set (s1 := update s_burstCovered _ s).
  assert (Hbuf : tracked_ok (s1 <| s_burst ::= λ b, b ++ [raw] |> <| s_burstBytes ::= Z.add (str_len raw) |>)).
  { split; [done|done|]. intros i Hi. destruct (Hw i Hi) as (raw' & l' & Hl & ?).
    exists raw', l'. split; [|done]. simpl. by apply lookup_app_l_Some. }
  set (s2 := update s_burstBytes _ _) in *.
  assert (Hfin : ∀ s3, tracked_ok s3 →
    tracked_ok (if end_of_burst (l_cmd l) then s3 <| s_burstOpen := false |> else s3)).
  { intros s3 Hs3. destruct (end_of_burst _); [by apply (tracked_ok_ext s3)|done]. }
  apply Hfin. destruct (is_burst_command _); [|done]. destruct (Z.ltb _ _); [done|].
  destruct (String.eqb (l_cmd l) "001") eqn:E; [|done]. cbn [andb].
  destruct (bool_decide _); [|done]. destruct Hbuf as [Hn2 Hf2 Hw2]. split; [done|done|].
  intros i [= <-]. exists raw, l. apply String.eqb_eq in E. split; [|done].
  subst s2 s1. simpl. rewrite length_app. simpl. rewrite Nat.add_sub. by apply list_lookup_middle.
Qed.

Lemma track_state_ok l s : tracked_ok s → tracked_ok (track_state l s).
Proof.
  intros Ht. pose proof Ht as [Hn Hf Hw]. unfold track_state. cbv zeta.
  destruct (String.eqb _ "001"); [destruct (s_registered s), (String.eqb (param l 0) ""); done|].
  destruct (String.eqb _ "NICK"); [by destruct (_ && _)|].
  destruct (String.eqb _ "JOIN").
  { destruct (is_self l s); [|done].
    destruct (add_channels_ok (split_byte "," (param l 0)) (s_channels s)); [done|]. by split. }
  destruct (String.eqb _ "PART").
  { destruct (is_self l s); [|done].
    destruct (remove_channels_ok (split_byte "," (param l 0)) (s_channels s)); [done|]. by split. }
  destruct (String.eqb _ "KICK"); [|done]. destruct (_ && _); [|done].
  destruct (remove_channel_ok (param l 0) (s_channels s)); [done|done|]. by split.
Qed.

Lemma tracked_drop s : tracked_of (fst (drop_oldest_locked s)) = tracked_of s.
Proof. unfold drop_oldest_locked. by destruct (drop_oldest (s_buf s)) as [[?|] ?]. Qed.

Lemma tracked_cap fuel s : tracked_of (fst (cap_loop fuel limit s)) = tracked_of s.
Proof.
  revert s. induction fuel as [|fuel IH]; intros s; [done|]. cbn [cap_loop].
  destruct (_ && _); [|done]. pose proof (tracked_drop s) as Hd.
  destruct (drop_oldest_locked s) as [s1 es]. specialize (IH s1).
  destruct (cap_loop fuel limit s1) as [s2 es2]. cbn [fst] in *. congruence.
Qed.

Lemma ingest_tracked now pick raw s : tracked_ok s → tracked_ok (fst (ingest limit now pick raw s)).
Proof.
  intros Ht. unfold ingest. destruct (parse_line raw) as [l|] eqn:Hp; [|done].
  destruct (Z.ltb _ _); [done|]. destruct (String.eqb _ "PING").
  { apply (tracked_ok_ext s); [|done]. unfold enqueue_write. by repeat case_match. }
  destruct (_ && _); [done|]. unfold ingest_locked. destruct (negb _); [done|]. cbv zeta.
  set (s1 := update s_buf _ _).
  assert (Ht2 : tracked_ok (track l raw s1)).
  { apply track_state_ok, track_burst_ok; [done|]. by apply (tracked_ok_ext s). }
  pose proof (tracked_cap (buf_len (s_buf (track l raw s1))) (track l raw s1)) as Hc.
  destruct (cap_loop _ _ _) as [s3 es]. by apply (tracked_ok_ext (track l raw s1)).
Qed.

Lemma step_tracked o s : tracked_ok s → tracked_ok (fst (sop_step limit o s)).
Proof.
  intros Ht. destruct o as [now pick raw|pick line| |err|now l h|now l|l n|h q|reason| |now l h];
    cbn [sop_step fst]; [by apply ingest_tracked| | | | | | | | | |]; apply (tracked_ok_ext s); try done.
  - unfold enqueue_write. by repeat case_match.
  - unfold dial_done. by repeat case_match.
  - by destruct (reusable _ _).
  - unfold detach_locked. by case_match.
  - unfold pull, pull_lines. destruct (negb _); [done|]. cbv zeta.
    destruct (bool_decide (s_state _ = stateDialing)); by destruct (_ && _).
  - unfold ack. destruct (_ || _); [done|]. by destruct (ack_through q (s_buf s)).
  - unfold shutdown. by case_match.
  - unfold shed_oldest. case_match; [done|]. pose proof (tracked_drop s). by destruct (drop_oldest_locked s).
  - case_match; [|done]. unfold detach_locked. by case_match.
Qed.

Lemma run_tracked ops r : tracked_ok (r_s r) → tracked_ok (r_s (run limit ops r)).
Proof.
  intros Ht. induction ops as [|o ops IH] using rev_ind; [done|]. rewrite run_snoc. unfold rstep.
  pose proof (step_tracked o _ IH) as Hs. by destruct (sop_step limit o _).
Qed.
End tracked.

(** ** The closed frame *)

Section closing.
Context `{UnicodeTables}.
Variable limit : Z.

(** A pull by the link that holds the session. *)
Definition pulls (o : sop) (s : session) : bool :=
  match o with SPull l _ => bool_decide (s_link s = Some l) | _ => false end.

Lemma pull_rest l n s s' fs dn stale :
  s_link s = Some l → pull l n s = (s', fs, dn, stale) → s_state s' = s_state s ∧ s_ctrl s' = [].
Proof.
  intros Hl. unfold pull, pull_lines. rewrite bool_decide_eq_true_2 by done. cbn [negb]. cbv zeta.
  destruct (bool_decide (s_state _ = stateDialing)); destruct (_ && _); intros; by simplify_eq.
Qed.

Lemma step_closed_last r o :
  stream_ok (r_hist r) (r_s r) → Z.of_nat (length (r_hist r)) + 1 < 2 ^ 64 → ctrl_ok (r_s r) →
  closed_last r → closed_last (rstep limit r o).
Proof.
  intros Hok Hmax Hctrl [Hno|(fs & f & Hout & Hf & Hfs & He)]; unfold closed_last, rstep.
  - destruct (pulls o (r_s r)) eqn:Hpull.
    + destruct o; try done. rename limit0 into n. apply bool_decide_eq_true_1 in Hpull as Hl. cbn [sop_step]. destruct (pull l n (r_s r)) as [[[s' fs] dn] stale] eqn:Hp. cbn [r_out r_s].
      destruct (pull_rest _ _ _ _ _ _ _ Hl Hp) as [Est Ec].
      destruct (pull_ok _ _ _ _ _ _ _ _ Hok Hl Hp) as (_ & -> & _ & Hfl & _ & Hse & _ & Hm & Hdn & Hfin).
      injection Hm as _ Eq. destruct dn.
      * right. exists (r_out r ++ s_ctrl (r_s r) ++ map (line_frame (s_handle (r_s r))) (owed (r_hist r) n (r_s r))).
        eexists. split; [by rewrite <- !app_assoc|]. split; [done|]. split.
        -- by rewrite !existsb_app, Hno, ctrl_no_closed, lines_no_closed.
        -- destruct (proj1 Hdn eq_refl) as (Hst & _ & Hle).
           split; [by rewrite Est|by rewrite Hfin, orb_true_r|done|by rewrite Eq, Hfl, Hse].
      * left. by rewrite app_nil_r, !existsb_app, Hno, ctrl_no_closed, lines_no_closed.
    + left. assert (Hs : snd (sop_step limit o (r_s r)) = []).
      { destruct o; try done; cbn [sop_step].
        - by destruct (reusable _ _).
        - unfold pull. simpl in Hpull. by rewrite Hpull.
        - by destruct (_ && _). }
      destruct (sop_step limit o (r_s r)) as [s' fs]. cbn [snd r_out] in *. by rewrite Hs, app_nil_r.
  - right. exists fs, f. destruct (ended_step limit _ o _ Hok Hmax He) as [Hn He'].
    destruct (sop_step limit o (r_s r)) as [s' fs']. cbn [fst snd r_out r_s] in *.
    by rewrite Hn, app_nil_r.
Qed.

Lemma run_closed_last ops r :
  stream_ok (r_hist r) (r_s r) → Z.of_nat (length (r_hist r) + length ops) < 2 ^ 64 →
  ctrl_ok (r_s r) → closed_last r → closed_last (run limit ops r).
Proof.
  intros Hok. induction ops as [|o ops IH] using rev_ind; intros Hmax Hc Hcl; [done|].
  rewrite length_app in Hmax. simpl in Hmax. rewrite run_snoc.
  pose proof (run_hist_length limit ops r) as Hlen.
  apply step_closed_last; [by apply run_ok; [|lia]|lia|by apply run_ctrl_ok; [|lia|]|by apply IH; [lia| |]].
Qed.
End closing.

(** ** The cap on one session's buffer *)

(** The shortest suffix worth keeping: dropping starts only while over the cap and
    never takes the last line. *)
Record capped (limit : Z) (ls : list bufferedLine) (k : nat) : Prop := {
  cp_fits : sumZ bl_cost (drop k ls) ≤ limit ∨ (length (drop k ls) ≤ 1)%nat;
  cp_least : ∀ j, (j < k)%nat → limit < sumZ bl_cost (drop j ls) ∧ (1 < length (drop j ls))%nat;
}.

Lemma cap_loop_exact limit fuel n s :
  buffer_ok n (s_buf s) → (buf_len (s_buf s) ≤ fuel)%nat → cost_sum (s_buf s) < 2 ^ 63 →
  ∃ k, lb_lines (s_buf (fst (cap_loop fuel limit s))) = drop k (lb_lines (s_buf s)) ∧
       capped limit (lb_lines (s_buf s)) k.
Proof.
  revert n s. induction fuel as [|fuel IH]; intros n s Hok Hfuel Hsz; cbn [cap_loop].
  { exists 0%nat. split; [done|]. split; [right; unfold buf_len in Hfuel; rewrite drop_0; lia|intros; lia]. }
  assert (Hb : lb_bytes (s_buf s) = cost_sum (s_buf s)).
  { destruct Hok as [_ ->]. apply i64_small. pose proof (cost_sum_nonneg (s_buf s)). lia. }
  unfold cost_sum in *. unfold buf_len in *.
  destruct (Z.ltb_spec limit (lb_bytes (s_buf s))) as [Hlt|].
  2: { exists 0%nat. split; [done|]. split; [left; rewrite drop_0; lia|intros; lia]. }
  destruct (Nat.ltb_spec 1 (length (lb_lines (s_buf s)))) as [Hlen|].
  2: { exists 0%nat. split; [done|]. split; [right; rewrite drop_0; lia|intros; lia]. }
  cbn [andb]. unfold drop_oldest_locked.
  destruct (drop_oldest (s_buf s)) as [[l|] b] eqn:Ed.
  2: { unfold drop_oldest in Ed. by destruct (lb_lines (s_buf s)); simpl in Hlen; [lia|]. }
  destruct (drop_oldest_ok _ _ _ _ Hok Ed) as (Hb' & _ & _ & _).
  assert (El : lb_lines (s_buf s) = l :: lb_lines b).
  { unfold drop_oldest in Ed. destruct (lb_lines (s_buf s)); by simplify_eq/=. }
  rewrite El in *. simpl in Hlt, Hlen, Hfuel, Hsz, Hb. pose proof (bl_cost_pos l).
  set (s1 := update s_lost _ _). destruct (IH (n + 1) s1 Hb') as (k & Hk & [Hfit Hleast]); [unfold s1; simpl; lia|unfold s1; simpl; lia|].
  destruct (cap_loop fuel limit s1) as [s2 es2]. cbn [fst] in *. exists (S k). split; [done|].
  split; [done|]. intros [|j] Hj; [rewrite drop_0; simpl; lia|]. apply Hleast. lia.
Qed.

(** ** Attaching *)

Section attaching.
Context `{UnicodeTables}.


(** What [attach_locked] leaves for the next [pull]. *)
Lemma attach_fields now l h s :
  let s' := attach_locked now l h s in
  ∃ fr, s_ctrl s' = [fr] ∧ f_op fr = OpAttached ∧ f_replay fr = replay_of s ∧
    f_backlog fr = Z.of_nat (count_after (s_sent s') (s_buf s')) ∧
    s_link s' = Some l ∧ s_handle s' = h ∧ s_state s' = s_state s ∧
    s_sent s' = Z.max (s_acked s) (s_burstCovered s).
Proof. eexists. by repeat split. Qed.

End attaching.

(** ** No line is lost silently *)

(** Every line that is gone has a fate: the app acknowledged it, it was handed
    to a link, an attached frame handed to a link replayed the registration burst
    it arrived in, or it is in the ledger of lost lines, and the ledger is as long
    as the losses that were reported or wait to be. *)

Section ledger.
Context `{UnicodeTables}.
Variables (limit : Z) (r0 : rstate).

(** The line arrived while the registration burst that an attached frame among
    [fs] replays was still open. *)
Definition replayed (fs : list Frame) (ops : list sop) (x : bufferedLine) : Prop :=
  ∃ ops1 now l h ops2 fr, let s := r_s (run limit ops1 r0) in
    ops = ops1 ++ SAttach now l h :: ops2 ∧ reusable (s_fp s) s = true ∧
    bl_seq x ≤ s_burstCovered s ∧ s_ctrl (attach_locked now l h s) = [fr] ∧ fr ∈ fs.

Definition fate (ops : list sop) (C : list bufferedLine) (x : bufferedLine) : Prop :=
  let r := run limit ops r0 in
  bl_seq x ≤ s_acked (r_s r) ∨ line_of x ∈ line_out (r_out r) ∨ replayed (r_out r) ops x ∨ x ∈ C.

(** The losses a run has put in attached frames, handed over, still waiting or
    thrown away, and those it will put in the next one. *)
Definition counted (r : rstate) : Z :=
  losses (r_out r) + losses (s_ctrl (r_s r)) + r_discarded r + s_lost (r_s r).

(** The ledger [C] of a run: lines that are gone and were never handed over, one
    for each loss counted; every other line that is gone is accounted for. *)
Record accounts (ops : list sop) (C : list bufferedLine) : Prop := {
  ac_gone : C `sublist_of` upto (floor_of (r_s (run limit ops r0))) (r_hist (run limit ops r0));
  ac_count : Z.of_nat (length C) = counted (run limit ops r0);
  ac_never : Forall (λ x, line_of x ∉ line_out (r_out (run limit ops r0))) C;
  ac_fate : ∀ x, x ∈ upto (floor_of (r_s (run limit ops r0))) (r_hist (run limit ops r0)) → fate ops C x;
}.

(** What a run keeps to have it: the lines behind either send mark have a fate
    too, save those whose replay waits in a frame for the link. *)
Record ledger (ops : list sop) (C : list bufferedLine) : Prop := {
  lg_accounts : accounts ops C;
  lg_ever : ∀ x, x ∈ r_hist (run limit ops r0) → bl_seq x ≤ s_everSent (r_s (run limit ops r0)) → fate ops C x;
  lg_sent : s_link (r_s (run limit ops r0)) = None ∨
    ∀ x, x ∈ r_hist (run limit ops r0) → bl_seq x ≤ s_sent (r_s (run limit ops r0)) →
         fate ops C x ∨ replayed (s_ctrl (r_s (run limit ops r0))) ops x;
  lg_out : Forall (λ p, fst p ≤ s_everSent (r_s (run limit ops r0))) (line_out (r_out (run limit ops r0)));
}.

Lemma elem_of_range (hist : list bufferedLine) a b x :
  consecutive bl_seq 0 hist → 0 ≤ a →
  x ∈ drop (Z.to_nat a) (upto b hist) ↔ x ∈ hist ∧ a < bl_seq x ≤ b.
Proof.
  intros Hc Ha. unfold upto. rewrite !list_elem_of_lookup. split.
  - intros [i Hi]. rewrite lookup_drop in Hi. apply lookup_take_Some in Hi as [Hi Hlt].
    pose proof (consecutive_lookup _ _ _ _ _ Hc Hi). split; [by eexists|lia].
  - intros [[i Hi] Hb]. pose proof (consecutive_lookup _ _ _ _ _ Hc Hi) as Hq.
    exists (i - Z.to_nat a)%nat. rewrite lookup_drop. replace (_ + _)%nat with i by lia.
    apply lookup_take_Some. split; [done|lia].
Qed.

Lemma elem_of_upto (hist : list bufferedLine) b x :
  consecutive bl_seq 0 hist → x ∈ upto b hist ↔ x ∈ hist ∧ 0 < bl_seq x ≤ b.
Proof. intros Hc. rewrite <- (elem_of_range hist 0 b x Hc) by lia. done. Qed.

Lemma replayed_mono fs fs' ops o x : fs ⊆ fs' → replayed fs ops x → replayed fs' (ops ++ [o]) x.
Proof.
  intros Hs (o1 & now & l & h & o2 & fr & -> & Hr & Hx & Hc & Hin).
  exists o1, now, l, h, (o2 ++ [o]), fr. split_and!; [by rewrite <- app_assoc|done|done|done|by apply Hs].
Qed.

Lemma losses_app fs1 fs2 : losses (fs1 ++ fs2) = losses fs1 + losses fs2.
Proof. apply sumZ_app. Qed.

Lemma losses_lines h ls : losses (map (line_frame h) ls) = 0.
Proof.
  induction ls as [|l ls IH]; [done|]. unfold losses in *. cbn [map sumZ foldr]. fold (sumZ f_lost (map (line_frame h) ls)).
  rewrite IH. unfold line_frame, set_line. by case_match.
Qed.

(** What the operations other than an attach and a pull leave alone: the send
    marks, and the waiting frames unless the link lets go. *)
Definition held_of (s : session) := (s_link s, s_ctrl s, s_sent s, s_everSent s).

Lemma held_track l raw s : held_of (track l raw s) = held_of s.
Proof.
  unfold track. transitivity (held_of (track_burst l raw s)).
  - unfold track_state. generalize (is_self l (track_burst l raw s)). intros b. branches.
  - unfold track_burst. branches.
Qed.

Lemma held_drop s : held_of (fst (drop_oldest_locked s)) = held_of s.
Proof. unfold drop_oldest_locked. by destruct (drop_oldest (s_buf s)) as [[?|] ?]. Qed.

Lemma held_cap fuel s : held_of (fst (cap_loop fuel limit s)) = held_of s.
Proof.
  revert s. induction fuel as [|fuel IH]; intros s; [done|]. cbn [cap_loop].
  destruct (_ && _); [|done]. pose proof (held_drop s) as Hd.
  destruct (drop_oldest_locked s) as [s1 es]. specialize (IH s1).
  destruct (cap_loop fuel limit s1) as [s2 es2]. cbn [fst] in *. congruence.
Qed.

Lemma held_ingest now pick raw s : held_of (fst (ingest limit now pick raw s)) = held_of s.
Proof.
  unfold ingest. destruct (parse_line raw) as [l|]; [|done]. destruct (Z.ltb _ _); [done|].
  destruct (String.eqb _ "PING"); [unfold enqueue_write; branches|].
  destruct (_ && _); [done|]. unfold ingest_locked. destruct (negb _); [done|].
  cbv zeta. set (s2 := track _ _ _). pose proof (held_cap (buf_len (s_buf s2)) s2) as Hc.
  destruct (cap_loop _ _ _) as [s3 es]. cbn [fst] in *. rewrite Hc. subst s2. by rewrite held_track.
Qed.

Definition hands (o : sop) : bool := match o with SAttach _ _ _ | SPull _ _ => true | _ => false end.

Lemma step_held o s : hands o = false →
  let s' := fst (sop_step limit o s) in
  snd (sop_step limit o s) = [] ∧ s_sent s' = s_sent s ∧ s_everSent s' = s_everSent s ∧
  ((s_link s' = s_link s ∧ ∃ c, s_ctrl s' = s_ctrl s ++ c ∧ losses c + discards o s = 0) ∨
   (s_link s' = None ∧ s_ctrl s' = [] ∧ discards o s = losses (s_ctrl s))).
Proof.
  assert (Hq : ∀ s', held_of s' = held_of s → s_sent s' = s_sent s ∧ s_everSent s' = s_everSent s ∧
    ((s_link s' = s_link s ∧ ∃ c, s_ctrl s' = s_ctrl s ++ c ∧ losses c + 0 = 0) ∨
     (s_link s' = None ∧ s_ctrl s' = [] ∧ 0 = losses (s_ctrl s)))).
  { intros s' [= E1 E2 E3 E4]. split_and!; [done..|]. left. split; [done|]. exists []. by rewrite app_nil_r, E2. }
  destruct o as [now pick raw|pick line| |err|now l h|now l|l n|h q|reason| |now l h]; intros Hh; try done;
    cbn [sop_step fst snd discards]; (split; [by repeat case_match|]).
  - apply Hq, held_ingest.
  - apply Hq. unfold enqueue_write. branches.
  - by apply Hq.
  - unfold dial_done. case_bool_decide; [by apply Hq|]. destruct err; [by apply Hq|]. cbv zeta.
    split_and!; [done|done|]. left. split; [done|]. by eexists.
  - unfold detach_locked. case_bool_decide; [|by apply Hq]. split_and!; [done|done|]. by right.
  - apply Hq. unfold ack. case_match; [done|]. by destruct (ack_through q (s_buf s)).
  - apply Hq. unfold shutdown. branches.
  - apply Hq. unfold shed_oldest. case_match; [done|]. pose proof (held_drop s). by destruct (drop_oldest_locked s).
  - unfold detach_locked. destruct (bool_decide (s_handle s = h)); [|by apply Hq]. cbn [andb].
    destruct (bool_decide (s_link s = Some l)) eqn:Hl; [rewrite orb_true_r; split_and!; [done|done|]; by right|].
    rewrite orb_false_r. case_match; by apply Hq.
Qed.

(** One step's share of the ledger: the lines it shed that no link was sent. *)
Lemma step_counts hist o s : hands o = false → stream_ok hist s → Z.of_nat (length hist) + 1 < 2 ^ 64 →
  let s' := fst (sop_step limit o s) in
  floor_of s ≤ floor_of s' ∧
  ∃ N, N `sublist_of` drop (Z.to_nat (floor_of s)) (upto (floor_of s') (hist ++ taken o s)) ∧
    s_lost s' = s_lost s + Z.of_nat (length N) ∧
    Forall (λ x, s_everSent s < bl_seq x) N ∧
    ∀ x, x ∈ hist ++ taken o s → floor_of s < bl_seq x ≤ floor_of s' →
         bl_seq x ≤ s_acked s' ∨ bl_seq x ≤ s_everSent s ∨ x ∈ N.
Proof.
  intros Hh Hok Hmax s'. destruct (step_ok limit hist o s Hok Hmax) as (Hok' & _ & _ & Hcase). fold s' in Hok', Hcase.
  destruct Hcase as [[Hf Hl]|[(now & l & h & -> & _)|[Hl Hf]]]; [|done|].
  { split; [lia|]. exists []. split_and!; [apply sublist_nil_l|simpl; lia|constructor|]. intros x _ Hx. left. lia. }
  split; [done|]. set (hist' := hist ++ taken o s) in *. set (m := Z.max (floor_of s) (s_everSent s)).
  pose proof (so_floor _ _ Hok). pose proof (so_hist _ _ Hok') as Hc.
  exists (drop (Z.to_nat m) (upto (floor_of s') hist')). split_and!.
  - replace (Z.to_nat m) with (Z.to_nat (floor_of s) + (Z.to_nat m - Z.to_nat (floor_of s)))%nat by lia.
    rewrite <- drop_drop. apply sublist_drop.
  - rewrite Hl. f_equal. pose proof (so_seq _ _ Hok'). pose proof (floor_len s'). unfold unsent_between, upto.
    rewrite length_drop, length_take. lia.
  - apply Forall_forall. intros x Hx. apply elem_of_range in Hx as [_ Hx]; [lia|done|lia].
  - intros x Hx Hb. destruct (decide (bl_seq x ≤ s_everSent s)); [auto|]. right. right.
    apply elem_of_range; [done|lia|]. split; [done|lia].
Qed.

Lemma run_step ops o :
  let r := run limit ops r0 in let '(s', fs) := sop_step limit o (r_s r) in
  run limit (ops ++ [o]) r0 = RState s' (r_hist r ++ taken o (r_s r)) (r_out r ++ fs) (r_discarded r + discards o (r_s r)).
Proof. cbv zeta. rewrite run_snoc. unfold rstep. by destruct (sop_step limit o _). Qed.

Lemma fate_mono ops o C C' x :
  s_acked (r_s (run limit ops r0)) ≤ s_acked (r_s (run limit (ops ++ [o]) r0)) → C ⊆ C' →
  fate ops C x → fate (ops ++ [o]) C' x.
Proof.
  intros Ha HC [H1|[H1|[H1|H1]]].
  - left. lia.
  - right. left. pose proof (run_step ops o) as Hr. cbv zeta in Hr. destruct (sop_step _ _ _) as [s' fs].
    rewrite Hr. cbn [r_out]. rewrite line_out_app. apply elem_of_app. by left.
  - right. right. left. pose proof (run_step ops o) as Hr. cbv zeta in Hr. destruct (sop_step _ _ _) as [s' fs].
    rewrite Hr. cbn [r_out]. eapply replayed_mono; [|exact H1]. intros f ?. apply elem_of_app. by left.
  - right. right. right. by apply HC.
Qed.

(** The lines of the longer history numbered through the old end are the old
    ones. *)
Lemma elem_of_old (hist new : list bufferedLine) x :
  consecutive bl_seq 0 (hist ++ new) → x ∈ hist ++ new → bl_seq x ≤ Z.of_nat (length hist) → x ∈ hist.
Proof.
  intros Hc Hx Hb. apply list_elem_of_lookup in Hx as [i Hi].
  pose proof (consecutive_lookup _ _ _ _ _ Hc Hi). apply list_elem_of_lookup. exists i.
  rewrite lookup_app_l in Hi by lia. done.
Qed.

(** The ledger grows only by what an operation sheds. *)
Lemma ledger_quiet ops o C :
  hands o = false → stream_ok (r_hist (run limit ops r0)) (r_s (run limit ops r0)) →
  Z.of_nat (length (r_hist (run limit ops r0))) + 1 < 2 ^ 64 → ledger ops C → ∃ C', ledger (ops ++ [o]) C'.
Proof.
  intros Hh Hok Hmax [[Hg Hn Hnev Hfate] Hever Hsent Hout].
  pose proof (step_held o (r_s (run limit ops r0)) Hh) as (Hfs & Es & Ee & Hctrl).
  pose proof (step_counts _ o _ Hh Hok Hmax) as (Hfl & N & HN & Hlost & HNe & Hrest).
  destruct (step_ok limit _ o _ Hok Hmax) as (Hok' & _ & Hack & _).
  pose proof (run_step ops o) as Hr. pose proof (λ x, fate_mono ops o C (C ++ N) x) as Hmono. cbv zeta in Hr, Hmono.
  exists (C ++ N).
  destruct (sop_step limit o _) as [s' fs] eqn:Estep. cbn [fst snd] in *. subst fs.
  rewrite app_nil_r in Hr.
  assert (Hkeep : ∀ x, fate ops C x → fate (ops ++ [o]) (C ++ N) x).
  { intros x. apply Hmono; [by rewrite Hr|]. intros y ?. apply elem_of_app. by left. }
  clear Hmono. set (r := run limit ops r0) in *. set (s := r_s r) in *.
  pose proof (so_hist _ _ Hok') as Hc. pose proof (so_floor _ _ Hok) as Hf0. pose proof (so_seq _ _ Hok) as Hq.
  pose proof (so_ever _ _ Hok) as He. pose proof (so_sent _ _ Hok) as Hse. pose proof (floor_len s) as Hfs.
  assert (Hold : ∀ x, x ∈ r_hist r ++ taken o s → bl_seq x ≤ s_seq s → x ∈ r_hist r).
  { intros x Hx Hb. by apply (elem_of_old _ (taken o s)); [| |lia]. }
  split; [split|..]; rewrite ?Hr; cbn [r_s r_hist r_out].
  - unfold upto in *. rewrite <- (take_drop (Z.to_nat (floor_of s)) (take (Z.to_nat (floor_of s')) _)).
    apply sublist_app; [|done]. rewrite take_take. replace (_ `min` _)%nat with (Z.to_nat (floor_of s)) by lia.
    rewrite take_app_le by lia. done.
  - rewrite length_app, Nat2Z.inj_add, Hn. unfold counted. cbn [r_s r_out r_discarded]. fold s.
    destruct Hctrl as [(_ & c & -> & Hl)|(_ & -> & ->)]; rewrite ?losses_app; unfold losses in *; cbn [sumZ foldr]; lia.
  - apply Forall_app. split; [done|]. apply Forall_forall. intros x Hx Hin.
    rewrite Forall_forall in HNe. specialize (HNe x Hx).
    pose proof (proj1 (Forall_forall _ _) Hout _ Hin) as Ho. simpl in Ho. lia.
  - intros x Hx. apply elem_of_upto in Hx as [Hx Hb]; [|done]. destruct (decide (bl_seq x ≤ floor_of s)).
    { apply Hkeep, Hfate, elem_of_upto; [by apply so_hist in Hok|]. split; [apply Hold; [done|lia]|lia]. }
    destruct (Hrest x Hx ltac:(lia)) as [Ha|[Ha|Ha]].
    + left. by rewrite Hr.
    + apply Hkeep, Hever; [apply Hold; [done|lia]|done].
    + right. right. right. apply elem_of_app. by right.
  - intros x Hx Hb. apply Hkeep, Hever; [apply Hold; [done|lia]|by rewrite <- Ee].
  - destruct Hctrl as [(El & c & Ec & _)|(El & _)]; [|by left].
    destruct Hsent as [Hn0|Hsent]; [left; by rewrite El|]. right. intros x Hx Hb.
    destruct (Hsent x) as [Hy|Hy]; [apply Hold; [done|lia]|lia|left; by apply Hkeep|].
    right. eapply replayed_mono; [|exact Hy]. rewrite Ec. intros f ?. apply elem_of_app. by left.
  - eapply Forall_impl; [exact Hout|]. simpl. intros p Hp. fold s in Hp. lia.
Qed.

(** A pull: what was between the send mark and its new place is handed over, and
    what waited in front of it as well. *)
Lemma pull_ever hist l n s s' fs dn stale :
  stream_ok hist s → s_link s = Some l → pull l n s = (s', fs, dn, stale) →
  s_everSent s' ≤ Z.max (s_everSent s) (s_sent s') ∧ (owed hist n s = [] ∨ s_sent s' ≤ s_everSent s') ∧
  s_link s' = Some l ∧ s_ctrl s' = [].
Proof.
  intros Hok Hl. unfold pull, pull_lines, owed. rewrite (bool_decide_eq_true_2 (s_link s = Some l)) by done. cbn [negb]. cbv zeta.
  destruct (bool_decide (s_state (s <| s_ctrl := [] |>) = stateDialing)) eqn:Hd; simpl in Hd; rewrite ?Hd;
    destruct (_ && _); intros; simplify_eq; simpl; (split_and!; [lia| |done|done]); ((by left) || (right; lia)).
Qed.

Lemma ledger_pull ops l n C :
  stream_ok (r_hist (run limit ops r0)) (r_s (run limit ops r0)) → ctrl_ok (r_s (run limit ops r0)) →
  ledger ops C → ledger (ops ++ [SPull l n]) C.
Proof.
  intros Hok Hctrl [[Hg Hn Hnev Hfate] Hever Hsent Hout].
  pose proof (run_step ops (SPull l n)) as Hr. pose proof (λ x, fate_mono ops (SPull l n) C C x) as Hmono. cbv zeta in Hr, Hmono.
  cbn [sop_step discards taken] in Hr. rewrite Z.add_0_r, app_nil_r in Hr.
  set (r := run limit ops r0) in *. set (s := r_s r) in *.
  destruct (pull l n s) as [[[s' fs] dn] stale] eqn:Hp.
  destruct (decide (s_link s = Some l)) as [Hl|Hl].
  2: { unfold pull in Hp. rewrite bool_decide_eq_false_2 in Hp by done. cbn [negb] in Hp. injection Hp as <- <- _ _.
       assert (Hk : ∀ x, fate ops C x → fate (ops ++ [SPull l n]) C x) by (intros x; apply Hmono; [by rewrite Hr|done]).
       rewrite app_nil_r in Hr.
       split; [split|..]; rewrite ?Hr; cbn [r_s r_hist r_out]; try done; [by auto..|].
       destruct Hsent as [?|Hsent]; [by left|]. right. intros x Hx Hb. destruct (Hsent x Hx Hb); [left; by apply Hk|].
       right. by eapply replayed_mono. }
  destruct (pull_ok _ l n s s' fs dn stale Hok Hl Hp) as (_ & Hfs & Hok' & Hf & Hlo & Hse & Hev & Hm & _).
  destruct (pull_ever _ l n s s' fs dn stale Hok Hl Hp) as (He & Ho & El & Ec). injection Hm as Ea Eseq.
  assert (Hk : ∀ x, fate ops C x → fate (ops ++ [SPull l n]) C x) by (intros x; apply Hmono; [rewrite Hr; cbn [r_s]; lia|done]).
  assert (Hlines : line_out fs = map line_of (owed (r_hist r) n s)).
  { rewrite Hfs, !line_out_app, (ctrl_no_lines _ Hctrl), line_out_lines. destruct dn; by rewrite app_nil_r. }
  assert (Hall : ∀ x, x ∈ r_hist r → bl_seq x ≤ s_sent s' → fate (ops ++ [SPull l n]) C x).
  { intros x Hx Hb. destruct (decide (bl_seq x ≤ s_sent s)).
    { destruct Hsent as [Hn0|Hsent]; [fold s in Hn0; congruence|]. destruct (Hsent x Hx) as [Hy|Hy]; [done|by apply Hk|].
      right. right. left. rewrite Hr. eapply replayed_mono; [|exact Hy]. cbn [r_out]. rewrite Hfs.
      intros f ?. apply elem_of_app. right. apply elem_of_app. by left. }
    pose proof (so_sent _ _ Hok). destruct (decide (bl_seq x ≤ floor_of s)).
    { apply Hk, Hfate, elem_of_upto; [by apply so_hist in Hok|]. fold s. split; [done|lia]. }
    right. left. rewrite Hr. cbn [r_out]. rewrite line_out_app, Hlines. apply elem_of_app. right.
    apply list_elem_of_fmap. exists x. split; [done|]. apply owed_complete; [done|done|]. rewrite <- Hse. lia. }
  split; [split|..]; rewrite ?Hr; cbn [r_s r_hist r_out].
  - by rewrite Hf.
  - rewrite Hn. unfold counted. cbn [r_s r_out r_discarded]. rewrite Hfs, !losses_app, losses_lines, Ec, Hlo. fold s.
    destruct dn; unfold losses; simpl; lia.
  - apply Forall_forall. intros x Hx. rewrite line_out_app, Hlines. intros [Hin|Hin]%elem_of_app.
    + by apply (proj1 (Forall_forall _ _) Hnev _ Hx).
    + apply list_elem_of_fmap in Hin as (y & [= Eq _] & Hy). pose proof (owed_bounds _ n s y Hok Hy).
      eapply elem_of_sublist in Hx; [|exact Hg]. apply elem_of_upto in Hx as [_ Hx]; [|by apply so_hist in Hok].
      fold s in Hx. lia.
  - intros x Hx. rewrite Hf in Hx. by apply Hk, Hfate.
  - intros x Hx Hb. destruct (decide (bl_seq x ≤ s_everSent s)); [by apply Hk, Hever|]. apply Hall; [done|lia].
  - right. intros x Hx Hb. left. by apply Hall.
  - rewrite line_out_app, Hlines. apply Forall_app. split.
    + eapply Forall_impl; [exact Hout|]. simpl. intros p Hp0. fold s in Hp0. lia.
    + apply Forall_forall. intros p (y & -> & Hy)%list_elem_of_fmap. pose proof (owed_bounds _ n s y Hok Hy).
      destruct Ho as [Ho|Ho]; [rewrite Ho in Hy; by apply not_elem_of_nil in Hy|]. simpl. lia.
Qed.

(** An attach moves the losses into the frame it queues, and the send mark to
    where the replay and the acknowledgements end. *)
Lemma ledger_attach ops now l h C :
  ledger ops C → ledger (ops ++ [SAttach now l h]) C.
Proof.
  intros [[Hg Hn Hnev Hfate] Hever Hsent Hout]. set (o := SAttach now l h) in *.
  pose proof (run_step ops o) as Hr. pose proof (λ x, fate_mono ops o C C x) as Hmono. cbv zeta in Hr, Hmono.
  unfold o in Hr at 1 3 4. cbn [sop_step discards taken] in Hr. rewrite app_nil_r in Hr.
  set (r := run limit ops r0) in *. set (s := r_s r) in *.
  destruct (reusable (s_fp s) s) eqn:Hre; rewrite app_nil_r in Hr;
    (assert (Hk : ∀ x, fate ops C x → fate (ops ++ [o]) C x) by (intros x; apply Hmono; [by rewrite Hr|done])).
  - split; [split|..]; rewrite ?Hr; cbn [r_s r_hist r_out]; try done; [|by auto..|].
    + rewrite Hn. unfold counted. cbn [r_s r_out r_discarded]. fold s. unfold losses at 4. simpl. lia.
    + right. intros x Hx Hb. change (s_sent (attach_locked now l h s)) with (Z.max (s_acked s) (s_burstCovered s)) in Hb.
      destruct (decide (bl_seq x ≤ s_acked s)); [left; left; by rewrite Hr|]. right.
      destruct (attach_fields now l h s) as (fr & Hfr & _).
      exists ops, now, l, h, [], fr. fold r s. split_and!; [done|done|lia|done|rewrite Hfr; by left].
  - split; [split|..]; rewrite ?Hr; cbn [r_s r_hist r_out]; try done; [|by auto..|].
    + rewrite Hn. unfold counted. cbn [r_s r_out r_discarded]. fold s. lia.
    + destruct Hsent as [?|Hsent]; [by left|]. right. intros x Hx Hb. destruct (Hsent x Hx Hb); [left; by apply Hk|].
      right. by eapply replayed_mono.
Qed.

Lemma run_ledger ops : stream_ok (r_hist r0) (r_s r0) → ctrl_ok (r_s r0) →
  Z.of_nat (length (r_hist r0) + length ops) < 2 ^ 64 → ledger [] [] → ∃ C, ledger ops C.
Proof.
  intros Hok Hc. induction ops as [|o ops IH] using rev_ind; intros Hmax Hl; [by exists []|].
  rewrite length_app in Hmax. simpl in Hmax. destruct IH as [C HC]; [lia|done|].
  pose proof (run_hist_length limit ops r0) as Hlen.
  assert (Hok' : stream_ok (r_hist (run limit ops r0)) (r_s (run limit ops r0))) by (apply run_ok; [done|lia]).
  destruct (hands o) eqn:Hh; [|apply (ledger_quiet ops o C); [done|done|lia|done]].
  exists C. destruct o; try done; [by apply ledger_attach|]. apply ledger_pull; [done| |done].
  apply run_ctrl_ok; [done|lia|done].
Qed.
End ledger.

(** ** Theorems *)

Section theorems.
Context `{UnicodeTables}.
Variables (limit : Z) (now : time) (instance : string) (l0 : lid) (f0 : Frame) (key : string).

(** A run of a session from its creation. *)
Definition session_run (ops : list sop) : rstate :=
  run limit ops (rstart (new_session now instance l0 f0 key) []).

Lemma session_run_ok ops :
  Z.of_nat (length ops) < 2 ^ 64 → stream_ok (r_hist (session_run ops)) (r_s (session_run ops)).
Proof. intros Hmax. apply run_ok; [apply new_session_ok|done]. Qed.

(** C1: along every run of a held socket the buffer is the history of its lines
    less a prefix, with all watermarks inside it, and each single line that is
    gone was acknowledged, or handed to a link, or arrived in the registration
    burst that an attached frame handed to a link replays, or stands in a ledger
    of lines no link was ever handed, whose length is exactly the losses that
    attached frames report (handed over, waiting, or thrown away by a detach) and
    the next one will. *)
Theorem no_silent_loss ops :
  Z.of_nat (length ops) < 2 ^ 64 →
  stream_ok (r_hist (session_run ops)) (r_s (session_run ops)) ∧
  ∃ C, accounts limit (rstart (new_session now instance l0 f0 key) []) ops C.
Proof.
  intros Hmax. split; [by apply session_run_ok|].
  destruct (run_ledger limit (rstart (new_session now instance l0 f0 key) []) ops) as [C [HC _ _ _]];
    [apply new_session_ok|constructor|done| |by exists C].
  split; [split|..]; simpl; try (intros x Hx; by apply not_elem_of_nil in Hx); [by apply sublist_nil_l|done|constructor| |constructor].
  right. intros x Hx. by apply not_elem_of_nil in Hx.
Qed.

(** C2: while no other process attaches, the lines a link is handed are the
    history in order from the send mark on, each once, and a line is left out
    only if it was gone before its turn. *)
Theorem delivers_in_order ops0 ops :
  Z.of_nat (length ops0 + length ops) < 2 ^ 64 → forallb (λ o, negb (is_attach o)) ops = true →
  ∃ D, delivery limit ops (session_run ops0) D.
Proof.
  intros Hmax Hna. pose proof (run_hist_length limit ops0 (rstart (new_session now instance l0 f0 key) [])) as Hlen.
  fold (session_run ops0) in Hlen. cbn [rstart r_hist length] in Hlen.
  destruct (run_delivery limit ops (session_run ops0)) as (_ & _ & HD); [| | |done|done].
  - apply session_run_ok. lia.
  - lia.
  - apply run_ctrl_ok; [apply new_session_ok|simpl; lia|constructor].
Qed.

(** A link is told at most once that the socket is closed, and that frame is
    the last thing handed over: nothing is owed any more and nothing follows,
    whatever else happens to the session. *)
Theorem closed_frame_last ops :
  Z.of_nat (length ops) < 2 ^ 64 → closed_last (session_run ops).
Proof.
  intros Hmax. apply run_closed_last; [apply new_session_ok|done|constructor|]. by left.
Qed.

(** In every reachable session the tracked channels are distinct under IRC
    case folding and proper names, and the welcome index points at a 001 line of
    the recorded registration burst. *)
Theorem tracks_registration ops : tracked_ok (r_s (session_run ops)).
Proof. apply run_tracked. split; [constructor|constructor|done]. Qed.
End theorems.

(** A line that enters the stream gets the next number and is appended; the
    session then drops the fewest oldest lines that bring it under its cap, and
    never the line that just arrived. *)
Theorem ingest_keeps_newest `{UnicodeTables} limit hist now pick raw s :
  stream_ok hist s → enters raw s = true → Z.of_nat (length hist) + 1 < 2 ^ 64 →
  cost_sum (s_buf s) + line_cost raw < 2 ^ 63 →
  let s' := fst (ingest limit now pick raw s) in
  let ls := lb_lines (s_buf s) ++ [next_line now raw s] in
  s_seq s' = s_seq s + 1 ∧
  ∃ k, lb_lines (s_buf s') = drop k ls ∧ capped limit ls k ∧ (k < length ls)%nat.
Proof.
  intros Hok He Hmax Hsz s' ls.
  pose proof (ingest_ok limit hist now pick raw s Hok Hmax) as Hi. cbv zeta in Hi. rewrite He in Hi. fold s' in Hi.
  destruct Hi as (s1 & [_ _ _ Hm1] & _ & _ & Hm2 & _). injection Hm1 as _ _ _ E1. injection Hm2 as _ _ _ E2.
  split; [lia|]. clear s1 E1 E2. unfold s', ingest, enters in *.
  destruct (parse_line raw) as [l|]; [|done]. destruct (Z.ltb _ _); [done|].
  destruct (String.eqb (l_cmd l) "PING"); [done|]. destruct (String.eqb _ _ && _); [done|].
  cbn [negb andb] in He. unfold ingest_locked. rewrite He. cbn [negb]. cbv zeta.
  destruct (append_ok hist now l raw s Hok Hmax) as (Hok2 & Hf2 & _ & _). cbv zeta in Hok2, Hf2.
  set (s2 := track _ _ _) in *.
  assert (Els : lb_lines (s_buf s2) = ls).
  { unfold ls, next_line. rewrite <- (u64_small (s_seq s + 1)) by (destruct Hok; lia).
    pose proof (stream_track l raw (s <| s_seq ::= λ q, u64 (q + 1) |> <| s_buf ::= push (BufferedLine (u64 (s_seq s + 1)) now raw) |>)) as Hst.
    unfold stream_of in Hst. injection Hst as Hb _ _ _ _ _. unfold s2. simpl in *. by rewrite Hb. }
  destruct (cap_loop_exact limit (buf_len (s_buf s2)) (floor_of s2) s2) as (k & Hk & Hc); [apply Hok2|done| |].
  { unfold cost_sum in *. rewrite Els. unfold ls. rewrite sumZ_app. simpl. unfold bl_cost at 2. simpl. lia. }
  destruct (cap_loop _ _ _) as [s3 es3]. cbn [fst] in *. exists k. rewrite Hk, Els in *. split_and!; [done|done|].
  assert (0 < length ls)%nat by (unfold ls; rewrite length_app; simpl; lia).
  destruct k as [|k]; [done|]. destruct (cp_least _ _ _ Hc k ltac:(lia)) as [_ Hl]. rewrite length_drop in Hl. lia.
Qed.


(** ** The theorems at a concrete session *)

Definition demo_connect : Frame :=
  frame OpConnect <| f_id := "net" |> <| f_handle := "h1" |> <| f_addr := "irc.example:6697" |> <| f_fp := "fp" |>.

(** Registered, one line delivered, then away while lines arrive. *)
Definition demo_ops : list sop :=
  [SDial None; SIngest 1 true ":srv 001 me :Welcome"; SIngest 2 true ":srv 376 me :End";
   SIngest 3 true ":me!u@h JOIN #a"; SPull 0%nat 256; SAck "h1" 2; SDetach 10 0%nat;
   SIngest 4 true ":x!y@z PRIVMSG #a :one"; SIngest 5 true ":x!y@z PRIVMSG #a :two"].

Definition demo_back : list sop := [SPull 1%nat 256; SIngest 6 true ":x!y@z PRIVMSG #a :three"; SPull 1%nat 1].

Definition demo_end : list sop := [SShutdown "bye"; SPull 0%nat 256; SPull 0%nat 256].

Definition demo_run (limit : Z) (ops : list sop) : rstate :=
  @session_run ascii_tables limit 1 "app" 0%nat demo_connect "key" ops.

Definition demo_session : session := r_s (demo_run 4096 demo_ops).

(** Away under a small cap, so that a line nobody saw is shed, and back. *)
Definition demo_away : list sop := demo_ops ++ SAttach 20 1%nat "h2" :: demo_back.

Lemma no_silent_loss_witness :
  losses (r_out (demo_run 100 demo_away)) = 2 ∧
  stream_ok (r_hist (demo_run 100 demo_away)) (r_s (demo_run 100 demo_away)) ∧
  ∃ C, @accounts ascii_tables 100 (rstart (new_session 1 "app" 0%nat demo_connect "key") []) demo_away C.
Proof. split; [reflexivity|]. exact (@no_silent_loss ascii_tables 100 1 "app" 0%nat demo_connect "key" demo_away eq_refl). Defined.

Lemma delivers_in_order_witness :
  ∃ D, @delivery ascii_tables 4096 demo_back (demo_run 4096 (demo_ops ++ [SAttach 20 1%nat "h2"])) D.
Proof.
  exact (@delivers_in_order ascii_tables 4096 1 "app" 0%nat demo_connect "key"
           (demo_ops ++ [SAttach 20 1%nat "h2"]) demo_back eq_refl eq_refl).
Defined.

Lemma closed_frame_last_witness :
  existsb is_closed_frame (r_out (demo_run 4096 demo_end)) = true ∧ closed_last (demo_run 4096 demo_end).
Proof. split; [reflexivity|]. exact (@closed_frame_last ascii_tables 4096 1 "app" 0%nat demo_connect "key" demo_end eq_refl). Defined.

Lemma demo_stream_ok : stream_ok (r_hist (demo_run 4096 demo_ops)) demo_session.
Proof. exact (@session_run_ok ascii_tables 4096 1 "app" 0%nat demo_connect "key" demo_ops eq_refl). Qed.


Lemma ingest_keeps_newest_witness :
  let s' := fst (@ingest ascii_tables 150 7 true ":x!y@z PRIVMSG #a :four" demo_session) in
  let ls := lb_lines (s_buf demo_session) ++ [next_line 7 ":x!y@z PRIVMSG #a :four" demo_session] in
  s_seq s' = s_seq demo_session + 1 ∧
  ∃ k, lb_lines (s_buf s') = drop k ls ∧ capped 150 ls k ∧ (k < length ls)%nat.
Proof. 
  exact (@ingest_keeps_newest ascii_tables 150 _ 7 true ":x!y@z PRIVMSG #a :four" demo_session demo_stream_ok
           eq_refl eq_refl eq_refl).
 Defined.


(** The count of lost lines leaves the session with the attached frame that is
    queued; a link that goes away before its first pull takes the count with it,
    and the next attached frame reports none.  Here no frame, handed over or still
    waiting, says anything was lost, although lines are gone that no link was ever
    sent and no acknowledgement covers. *)
Definition demo_dropped : list sop :=
  demo_ops ++ [SAttach 20 1%nat "h2"; SDetach 21 1%nat; SAttach 22 2%nat "h3"; SPull 2%nat 256].

Lemma lost_count_dropped :
  let r := demo_run 60 demo_dropped in
  forallb (λ f, Z.eqb (f_lost f) 0) (r_out r ++ s_ctrl (r_s r)) = true ∧ s_lost (r_s r) = 0 ∧
  existsb (λ x, Z.eqb (fst x) 4) (line_out (r_out r)) = false ∧ s_acked (r_s r) < 4 ≤ floor_of (r_s r).
Proof. vm_compute. repeat split; congruence. Qed.
