(* ===== verification/EngineServer.v ===== *)
(** * The engine's server ([internal/engine/server.go], the budget of [buffer.go])

    Sessions and links live in heaps (lists indexed by [sid] and [lid]) because
    the code shares them by pointer: the session table, the handle table, a link's
    set and a goroutine may all refer to the same session.  Each definition is one
    critical section of the server's mutex (or of a session's, when the server's is
    not held); what a goroutine still has to do afterwards is a [task], and tasks
    run in any order. *)

From Stdlib Require Import ZArith Lia Ascii.
From stdpp Require Import base tactics list gmap strings.
From S2P Require Import Prelude GoStrings EngineLine LineBuffer Frame EngineSession.

#[local] Open Scope Z_scope.

(** The identity of a [*session]. *)
Notation sid := nat (only parsing).

(** ** Options *)

Record Options := MkOptions {
  o_secret : string; o_version : string;
  o_bufferBytes : Z; o_totalBufferBytes : Z;
  o_orphanTimeout : Z; o_dialTimeout : Z; o_idleTimeout : Z; o_probeTimeout : Z;
  o_helloTimeout : Z; o_linkTimeout : Z;
}.

Definition default_buffer_bytes : Z := Z.shiftl 4 20.
Definition default_total_buffer_bytes : Z := Z.shiftl 256 20.
Definition unregistered_timeout : Z := 2 * minute.
Definition pull_batch : nat := 256.

(** [Options.defaults]. *)
Definition defaults (o : Options) : Options :=
  let pos d z := if Z.leb z 0 then d else z in
  MkOptions (o_secret o) (o_version o)
    (pos default_buffer_bytes (o_bufferBytes o)) (pos default_total_buffer_bytes (o_totalBufferBytes o))
    (if Z.eqb (o_orphanTimeout o) 0 then hour else o_orphanTimeout o)
    (pos (60 * second) (o_dialTimeout o)) (pos (90 * second) (o_idleTimeout o))
    (pos (60 * second) (o_probeTimeout o)) (pos (10 * second) (o_helloTimeout o))
    (pos (2 * minute) (o_linkTimeout o)).

(** ** State *)

(** [link].  [lk_wake] is that the channel [wake] holds a token, [lk_closed] that
    [once] has run. *)
Record link := MkLink {
  lk_instance : string; lk_gen : Z; lk_version : string;
  lk_wake : bool; lk_closed : bool; lk_ctrl : list Frame; lk_sessions : gset sid;
}.

#[export] Instance eta_link : Eta link := λ l,
  MkLink (lk_instance l) (lk_gen l) (lk_version l) (lk_wake l) (lk_closed l) (lk_ctrl l) (lk_sessions l).

(** What a goroutine has left to do after it released its locks. *)
Inductive task :=
  | TRefund (n : Z)                     (** [budget.refund] *)
  | TReclaim                            (** [budget.reclaim] *)
  | TEnd (s : sid) (reason : string)    (** [endSession] *)
  | TRelease (s : sid) (l : option lid) (** [release] *)
  | TShut (s : sid) (reason : string)   (** [shutdown], then [forget] *)
  | TForget (s : sid)                   (** [forget] *)
  | TDial (s : sid).                    (** [dial] *)

(** [Server] and its [budget] ([used], [sessions]). *)
Record server := MkServer {
  sv_opts : Options; sv_closed : bool;
  sv_heap : list session; sv_links : list link; sv_live : gset lid;
  sv_sessions : gmap string sid; sv_byHandle : gmap string sid;
  sv_used : Z; sv_budget : gset sid; sv_tasks : list task;
}.

#[export] Instance eta_server : Eta server := λ v,
  MkServer (sv_opts v) (sv_closed v) (sv_heap v) (sv_links v) (sv_live v)
    (sv_sessions v) (sv_byHandle v) (sv_used v) (sv_budget v) (sv_tasks v).

(** [New]: [None] is the error of a missing secret. *)
Definition new_server (o : Options) : option server :=
  if String.eqb (o_secret o) "" then None
  else Some (MkServer (defaults o) false [] [] ∅ ∅ ∅ 0 ∅ []).

(** ** Links *)

Definition upd_link (l : lid) (f : link → link) (v : server) : server :=
  v <| sv_links ::= λ ls, alter f l ls |>.

(** [notify], [send], [addSession], [removeSession]. *)
Definition link_notify (l : lid) (v : server) : server := upd_link l (λ k, k <| lk_wake := true |>) v.
Definition link_send (l : lid) (f : Frame) (v : server) : server :=
  upd_link l (λ k, k <| lk_ctrl ::= λ c, c ++ [f] |> <| lk_wake := true |>) v.
Definition add_session (l : lid) (s : sid) (v : server) : server :=
  upd_link l (λ k, k <| lk_sessions ::= λ ss, {[s]} ∪ ss |>) v.
Definition remove_session (l : lid) (s : sid) (v : server) : server :=
  upd_link l (λ k, k <| lk_sessions ::= λ ss, ss ∖ {[s]} |>) v.

(** ** Sessions of the heap *)

Definition put_session (i : sid) (s : session) (v : server) : server :=
  v <| sv_heap ::= λ h, <[i := s]> h |>.

Definition spawn (t : task) (v : server) : server := v <| sv_tasks ::= λ ts, ts ++ [t] |>.

(** [budget.charge], [budget.refund] on an [atomic.Int64]. *)
Definition charge (n : Z) (v : server) : server := v <| sv_used ::= λ u, i64 (u + n) |>.
Definition refund (n : Z) (v : server) : server := v <| sv_used ::= λ u, i64 (u - n) |>.

(** An effect that happens under the session's lock, and what is left for after
    the lock. *)
Definition do_effect (i : sid) (e : effect) (v : server) : server :=
  match e with
  | Charge n => charge n v
  | Refund n => refund n v
  | Reclaim => spawn TReclaim v
  | Notify l => link_notify l v
  | SpawnEnd r => spawn (TEnd i r) v
  | CloseConn => v
  end.

Definition do_effects (i : sid) (es : list effect) (v : server) : server :=
  foldl (λ v e, do_effect i e v) v es.

(** Run one session operation and its effects. *)
Definition on_session (i : sid) (op : session → session * list effect) (v : server) : server :=
  match sv_heap v !! i with
  | None => v
  | Some s => let '(s', es) := op s in do_effects i es (put_session i s' v)
  end.

(** ** Ending a session *)

(** The loop of [forgetLocked] over a session's handles. *)
Definition drop_handles (i : sid) (hs : list string) (m : gmap string sid) : gmap string sid :=
  foldl (λ m h, if bool_decide (m !! h = Some i) then delete h m else m) m hs.

(** [forgetLocked]: out of every index, the buffer back to the budget. *)
Definition forget_locked (i : sid) (v : server) : server :=
  match sv_heap v !! i with
  | None => v
  | Some s =>
      let v := v <| sv_sessions ::= λ m, if bool_decide (m !! s_key s = Some i) then delete (s_key s) m else m |> in
      let v := v <| sv_byHandle ::= drop_handles i (s_handles s) |> in
      let '(freed, b) := clear (s_buf s) in
      let v := put_session i (s <| s_buf := b |>) v in
      spawn (TRefund freed) (v <| sv_budget ::= λ r, r ∖ {[i]} |>)
  end.

(** [session.shutdown] of a session of the heap: the link to tell and whether
    this call did it. *)
Definition shutdown_session (i : sid) (reason : string) (v : server) : server * option lid * bool :=
  match sv_heap v !! i with
  | None => (v, None, false)
  | Some s =>
      let '(s', (l, did), es) := shutdown reason s in (do_effects i es (put_session i s' v), l, did)
  end.

(** [endSession]. *)
Definition end_session (i : sid) (reason : string) (v : server) : server :=
  let '(v, l, did) := shutdown_session i reason v in
  if did then spawn (TRelease i l) v else v.

(** [release]. *)
Definition release (i : sid) (l : option lid) (v : server) : server :=
  match l with Some l => link_notify l v | None => forget_locked i v end.

(** ** The global budget *)

(** The largest buffer among the registered sessions, met in [order]. *)
Definition largest (order : list sid) (v : server) : option sid :=
  fst (foldl (λ '(best, size) i,
         match sv_heap v !! i with
         | Some s => if Z.ltb size (lb_bytes (s_buf s)) then (Some i, lb_bytes (s_buf s)) else (best, size)
         | None => (best, size)
         end) (None, 0) order).

(** One round of [reclaim]; the boolean says whether to go round again.  [order]
    is the map's iteration order. *)
Definition reclaim_round (order : list sid) (v : server) : server * bool :=
  if Z.leb (sv_used v) (o_totalBufferBytes (sv_opts v)) then (v, false)
  else match largest order v with
       | None => (v, false)
       | Some i =>
           match sv_heap v !! i with
           | None => (v, false)
           | Some s =>
               let '(ok, s', es) := shed_oldest s in
               (do_effects i es (put_session i s' v), ok)
           end
       end.

(** [reclaim] run without interruption. *)
Fixpoint reclaim (fuel : nat) (order : list sid) (v : server) : server :=
  match fuel with
  | 0%nat => v
  | S fuel => let '(v, again) := reclaim_round order v in if again then reclaim fuel order v else v
  end.

(** ** Frames of a link *)

(** The key of a session: instance, a NUL, id. *)
Definition session_key (instance id : string) : string := instance +:+ String NUL id.

(** [lookup]. *)
Definition lookup_session (k : link) (id : string) (v : server) : option sid :=
  sv_sessions v !! session_key (lk_instance k) id.

(** The attach branch of [handleConnect]: the holder, if any, is told. *)
Definition connect_attach (now : time) (l : lid) (f : Frame) (i : sid) (s : session) (v : server) : server :=
  let v := match s_link s with
           | Some h => link_send h (eframe OpDetached (s_handle s) "taken over by a newer connect")
                         (remove_session h i v)
           | None => v
           end in
  let v := v <| sv_byHandle ::= λ m, <[f_handle f := i]>
                 (if bool_decide (m !! s_handle s = Some i) then delete (s_handle s) m else m) |> in
  let v := put_session i (attach_locked now l (f_handle f) s) v in
  link_notify l (add_session l i v).

(** Its replace branch: the old socket is ended and forgotten. *)
Definition connect_replace (now : time) (i : sid) (s : session) (v : server) : server :=
  let v := match s_link s with
           | Some h =>
               let v := link_send h (eframe OpDetached (s_handle s) "replaced by a new connection")
                          (remove_session h i v) in
               put_session i (snd (detach_locked now h s)) v
           | None => v
           end in
  let '(v, _, _) := shutdown_session i "replaced by a new connection" v in
  forget_locked i v.

(** Its last part: a new session is registered and dialed. *)
Definition connect_fresh (now : time) (l : lid) (k : link) (f : Frame) (key : string) (v : server) : server :=
  let i := length (sv_heap v) in
  let v := v <| sv_heap ::= λ h, h ++ [new_session now (lk_instance k) l f key] |>
             <| sv_sessions ::= <[key := i]> |> <| sv_byHandle ::= <[f_handle f := i]> |>
             <| sv_budget ::= λ r, {[i]} ∪ r |> in
  spawn (TDial i) (add_session l i v).

(** [handleConnect]. *)
Definition handle_connect (now : time) (l : lid) (f : Frame) (v : server) : server :=
  match sv_links v !! l with
  | None => v
  | Some k =>
      let fail msg := link_send l (eframe OpError (f_handle f) msg) v in
      if String.eqb (f_id f) "" || String.eqb (f_handle f) "" || String.eqb (f_addr f) ""
      then fail "connect: missing id, handle or addr"
      else match split_host_port (f_addr f) with
      | inl err => fail ("connect: bad addr: " +:+ err)
      | inr _ =>
          let key := session_key (lk_instance k) (f_id f) in
          if sv_closed v then fail "engine shutting down"
          else if bool_decide (is_Some (sv_byHandle v !! f_handle f)) then fail "connect: handle already in use"
          else match i ← sv_sessions v !! key; s ← sv_heap v !! i; Some (i, s) with
          | None => connect_fresh now l k f key v
          | Some (i, s) =>
              let newer := match s_link s ≫= λ h, if bool_decide (h = l) then None else sv_links v !! h with
                           | Some hk => Z.ltb (lk_gen k) (lk_gen hk)
                           | None => false
                           end in
              if newer then fail "connection is held by a newer stugan process"
              else if reusable (f_fp f) s then connect_attach now l f i s v
              else connect_fresh now l k f key (connect_replace now i s v)
          end
      end
  end.

(** [handleWrite]. *)
Definition handle_write (pick : bool) (l : lid) (f : Frame) (v : server) : server :=
  let line := text f in
  if String.eqb line "" || Z.ltb max_line_bytes (str_len line) ||
     str_in CR line || str_in LF line || str_in NUL line then v
  else match i ← sv_byHandle v !! f_handle f; s ← sv_heap v !! i; Some (i, s) with
  | None => v
  | Some (i, s) =>
      if String.eqb (s_handle s) (f_handle f) && bool_decide (s_link s = Some l) && bool_decide (s_state s = stateOpen)
      then on_session i (enqueue_write pick line) v else v
  end.

(** The [OpAck] case of [handleFrame]; the refund follows the session's lock. *)
Definition handle_ack (k : link) (f : Frame) (v : server) : server :=
  match i ← lookup_session k (f_id f) v; s ← sv_heap v !! i; Some (i, s) with
  | None => v
  | Some (i, s) =>
      let '(s', es) := ack (f_handle f) (f_seq f) s in
      foldl (λ v e, match e with Refund n => spawn (TRefund n) v | _ => v end) (put_session i s' v) es
  end.

(** [handleDetach]. *)
Definition handle_detach (now : time) (l : lid) (f : Frame) (v : server) : server :=
  match i ← sv_byHandle v !! f_handle f; s ← sv_heap v !! i; Some (i, s) with
  | None => v
  | Some (i, s) =>
      let '(detached, s') := if String.eqb (s_handle s) (f_handle f) then detach_locked now l s else (false, s) in
      let v := put_session i s' v in
      if negb detached then v
      else
        let v := remove_session l i v in
        if bool_decide (s_state s' = stateClosed) then forget_locked i v else v
  end.

(** [handleClose] up to the unlock; the rest is a [TShut]. *)
Definition handle_close (now : time) (l : lid) (k : link) (f : Frame) (v : server) : server :=
  match i ← lookup_session k (f_id f) v; s ← sv_heap v !! i; Some (i, s) with
  | None => v
  | Some (i, s) =>
      if String.eqb (s_handle s) (f_handle f) && (bool_decide (s_link s = None) || bool_decide (s_link s = Some l))
      then
        let v := put_session i (snd (detach_locked now l s) <| s_finished := true |>) v in
        spawn (TShut i "closed by stugan") (remove_session l i v)
      else v
  end.

(** [handleFrame]. *)
Definition handle_frame (now : time) (pick : bool) (l : lid) (f : Frame) (v : server) : server :=
  match sv_links v !! l with
  | None => v
  | Some k =>
      let op := f_op f in
      if String.eqb op OpPing then link_send l (frame OpPong) v
      else if String.eqb op OpPong then v
      else if String.eqb op OpConnect then handle_connect now l f v
      else if String.eqb op OpWrite then handle_write pick l f v
      else if String.eqb op OpAck then handle_ack k f v
      else if String.eqb op OpDetach then handle_detach now l f v
      else if String.eqb op OpClose then handle_close now l k f v
      else link_send l (eframe OpError (f_handle f) ("unknown op " +:+ op)) v
  end.

(** ** Opening and closing a link *)

(** What [serveLink] decides on the first frame. *)
Inductive hello_outcome :=
  | HelloHealth (answer : Frame)
  | HelloReject (why : string)
  | HelloAccept (l : lid).

(** [serveLink] up to its read loop.  [ConstantTimeCompare] is equality. *)
Definition serve_hello (f : Frame) (v : server) : server * hello_outcome :=
  let o := sv_opts v in
  if String.eqb (f_op f) OpHealth then (v, HelloHealth (frame OpHealth <| f_version := o_version o |>))
  else if negb (String.eqb (f_op f) OpHello) then (v, HelloReject "expected hello")
  else if negb (String.eqb (f_secret f) (o_secret o)) then
    (v, HelloReject "authentication failed: wrong engine secret")
  else if negb (Z.eqb (f_protocol f) protocol_major) then
    (v, HelloReject ("protocol mismatch: engine speaks " +:+ itoa protocol_major +:+
                     ", stugan speaks " +:+ itoa (f_protocol f)))
  else if String.eqb (f_instance f) "" || str_in NUL (f_instance f) then
    (v, HelloReject "hello without a valid instance")
  else if sv_closed v then (v, HelloReject "engine shutting down")
  else
    let l := length (sv_links v) in
    let v := v <| sv_links ::= λ ls, ls ++ [MkLink (f_instance f) (f_gen f) (f_version f) false false [] ∅] |>
               <| sv_live ::= λ s, {[l]} ∪ s |> in
    (link_send l (frame OpHello <| f_protocol := protocol_major |> <| f_minor := protocol_minor |>
                    <| f_version := o_version o |>) v, HelloAccept l).

(** One session held by a link that goes away. *)
Definition close_held (now : time) (l : lid) (v : server) (i : sid) : server :=
  match sv_heap v !! i with
  | None => v
  | Some s =>
      let '(detached, s') := detach_locked now l s in
      let v := put_session i s' v in
      if detached && bool_decide (s_state s' = stateClosed) then forget_locked i v else v
  end.

(** [link.close]. *)
Definition link_close (now : time) (l : lid) (v : server) : server :=
  match sv_links v !! l with
  | None => v
  | Some k =>
      if lk_closed k then v
      else
        let v := upd_link l (λ k, k <| lk_closed := true |> <| lk_sessions := ∅ |>) v in
        let v := v <| sv_live ::= λ s, s ∖ {[l]} |> in
        foldl (close_held now l) v (elements (lk_sessions k))
  end.

(** [writeLoop]: the control frames of one pass, and one session's share of it. *)
Definition writer_take (l : lid) (v : server) : server * list Frame :=
  match sv_links v !! l with
  | None => (v, [])
  | Some k => (upd_link l (λ k, k <| lk_ctrl := [] |> <| lk_wake := false |>) v, lk_ctrl k)
  end.

Definition writer_pull (l : lid) (i : sid) (v : server) : server * list Frame :=
  match sv_heap v !! i with
  | None => (v, [])
  | Some s =>
      let '(s', frames, dn, stale) := pull l pull_batch s in
      let v := put_session i s' v in
      let v := if stale || dn then remove_session l i v else v in
      (if dn then spawn (TForget i) v else v, frames)
  end.

(** ** Orphans *)

(** [time.Duration.String] of a positive duration: hours, minutes and seconds, or
    one smaller unit, with a trimmed fraction. *)
Definition with_fraction (v unit : Z) : string :=
  let frac := trim_right (Ascii.eqb "0") (str_drop 1 (itoa (unit + v `mod` unit))) in
  itoa (v / unit) +:+ (if String.eqb frac "" then "" else "." +:+ frac).

Definition duration_string (d : Z) : string :=
  if Z.ltb d 1000 then itoa d +:+ "ns"
  else if Z.ltb d millisecond then with_fraction d 1000 +:+ "µs"
  else if Z.ltb d second then with_fraction d millisecond +:+ "ms"
  else
    let h := d / hour in
    let m := (d / minute) `mod` 60 in
    (if Z.ltb 0 h then itoa h +:+ "h" else "") +:+
    (if Z.ltb 0 h || Z.ltb 0 m then itoa m +:+ "m" else "") +:+
    with_fraction (d `mod` minute) second +:+ "s".

(** Why [reap] ends a session, if it does. *)
Definition reap_reason (o : Options) (now : time) (s : session) : option string :=
  if bool_decide (s_link s = None) && negb (bool_decide (s_state s = stateClosed)) then
    if negb (s_registered s) && Z.ltb unregistered_timeout (time_sub now (s_created s))
    then Some "never finished registering"
    else if Z.ltb 0 (o_orphanTimeout o) && negb (time_is_zero (s_detachedAt s)) &&
            Z.ltb (o_orphanTimeout o) (time_sub now (s_detachedAt s))
    then Some ("no stugan attached for " +:+ duration_string (o_orphanTimeout o))
    else None
  else None.

(** [reap]: the victims are ended once the lock is released. *)
Definition reap (now : time) (v : server) : server :=
  foldl (λ v '(_, i),
    match s ← sv_heap v !! i; reap_reason (sv_opts v) now s with
    | Some reason => spawn (TEnd i reason) v
    | None => v
    end) v (map_to_list (sv_sessions v)).

(** ** The engine as a whole *)

(** [shutdown]. *)
Definition shutdown_server (now : time) (v : server) : server :=
  let links := elements (sv_live v) in
  let sessions := map snd (map_to_list (sv_sessions v)) in
  let v := foldl (λ v l, link_close now l v) (v <| sv_closed := true |>) links in
  foldl (λ v i, end_session i "engine shutting down" v) v sessions.

(** Running a task: [err] is the outcome of a dial, [order] a map order. *)
Definition run_task (err : option string) (order : list sid) (t : task) (v : server) : server :=
  match t with
  | TRefund n => refund n v
  | TReclaim => let '(v, again) := reclaim_round order v in if again then spawn TReclaim v else v
  | TEnd i reason => end_session i reason v
  | TRelease i l => release i l v
  | TShut i reason =>
      match sv_heap v !! i with
      | None => v
      | Some _ => let '(v, _, _) := shutdown_session i reason v in spawn (TForget i) v
      end
  | TForget i => forget_locked i v
  | TDial i =>
      match sv_heap v !! i with
      | None => v
      | Some s =>
          let '(s', es, rel) := dial_done err s in
          let v := do_effects i es (put_session i s' v) in
          if rel then spawn (TRelease i (s_link s)) v else v
      end
  end.

(** Everything that can happen, one critical section at a time. *)
Inductive sv_op :=
  | OHello (f : Frame)
  | OFrame (now : time) (pick : bool) (l : lid) (f : Frame)
  | OTask (k : nat) (err : option string) (order : list sid)
  | OIngest (now_ms : Z) (pick : bool) (i : sid) (raw : string)
  | OProbe (pick : bool) (i : sid)
  | OTake (i : sid)
  | OEnd (i : sid) (reason : string)
  | OReap (now : time)
  | OWriterTake (l : lid)
  | OWriterPull (l : lid) (i : sid)
  | OLinkClose (now : time) (l : lid)
  | OShutdown (now : time).

Section step.
Context `{UnicodeTables}.

(** One step of the engine.  A map's iteration order lists its keys. *)
Definition sv_step (o : sv_op) (v : server) : server :=
  match o with
  | OHello f => fst (serve_hello f v)
  | OFrame now pick l f => handle_frame now pick l f v
  | OTask k err order =>
      match sv_tasks v !! k with
      | None => v
      | Some t => run_task err (if bool_decide (order ≡ₚ elements (sv_budget v)) then order else elements (sv_budget v)) t
                    (v <| sv_tasks ::= delete k |>)
      end
  | OIngest now pick i raw => on_session i (ingest (o_bufferBytes (sv_opts v)) now pick raw) v
  | OProbe pick i => on_session i (enqueue_write pick ("PING :" +:+ probe_token)) v
  | OTake i => on_session i (λ s, (s <| s_writeQ ::= tail |>, [])) v
  | OEnd i reason => end_session i reason v
  | OReap now => reap now v
  | OWriterTake l => fst (writer_take l v)
  | OWriterPull l i => fst (writer_pull l i v)
  | OLinkClose now l => link_close now l v
  | OShutdown now => shutdown_server now v
  end.

Definition sv_run (ops : list sv_op) (v : server) : server := foldl (λ v o, sv_step o v) v ops.
End step.
