(* ===== verification/EngineServerInv.v ===== *)
(** * Invariants of the engine's server

    [index_ok]: the session table, the handle table and the heap agree, sessions
    are held only by links of their own instance, and a session outside the table
    is closed and empty.  [budget_ok]: the global byte count is the sum of all
    buffers and of the refunds still to be made. *)

From Stdlib Require Import ZArith Lia Ascii.
From stdpp Require Import base tactics list gmap strings.
From S2P Require Import Prelude GoStrings EngineLine LineBuffer Frame EngineSession EngineServer.

#[local] Open Scope Z_scope.

(** ** What the index invariant looks at *)

Definition index_of (v : server) : list session * list string * gmap string sid * gmap string sid :=
  (sv_heap v, map lk_instance (sv_links v), sv_sessions v, sv_byHandle v).

(** The table knows session [i], whose current state is [s]. *)
Definition listed (v : server) (i : sid) (s : session) : Prop := sv_sessions v !! s_key s = Some i.

Record session_shape (v : server) (i : sid) (s : session) : Prop := {
  ss_key : s_key s = session_key (s_instance s) (s_id s);
  ss_nul : no_byte NUL (s_instance s) = true;
  ss_cur : last (s_handles s) = Some (s_handle s);
  ss_link : ∀ l, s_link s = Some l → map lk_instance (sv_links v) !! l = Some (s_instance s);
  ss_dead : ¬ listed v i s → s_state s = stateClosed ∧ lb_lines (s_buf s) = [];
}.

Record index_ok (v : server) : Prop := {
  ok_shape : ∀ i s, sv_heap v !! i = Some s → session_shape v i s;
  ok_sessions : ∀ key i, sv_sessions v !! key = Some i → ∃ s, sv_heap v !! i = Some s ∧ s_key s = key;
  ok_handles : ∀ h i, sv_byHandle v !! h = Some i ↔
    ∃ s, sv_heap v !! i = Some s ∧ s_handle s = h ∧ listed v i s;
  ok_instances : ∀ l n, map lk_instance (sv_links v) !! l = Some n → no_byte NUL n = true;
}.

Lemma index_ok_ext v v' : index_of v' = index_of v → index_ok v → index_ok v'.
Proof.
  unfold index_of. intros [= E1 E2 E3 E4] [Hsh Hse Hh Hi].
  split; rewrite ?E1, ?E2, ?E3, ?E4; try done.
  - intros i s Hl. destruct (Hsh i s Hl) as [Hk Hn Hc Hli Hd]. split; try done; unfold listed in *; by rewrite ?E2, ?E3.
  - intros h i. rewrite Hh. unfold listed. by rewrite E3.
Qed.

(** ** Links and effects do not touch it *)

Lemma map_alter_same {A B} (g : A → B) (f : A → A) i l :
  (∀ a, g (f a) = g a) → map g (alter f i l) = map g l.
Proof.
  intros Hf. revert i. induction l as [|a l IH]; intros [|i]; simpl; try done.
  - by rewrite Hf.
  - f_equal. apply IH.
Qed.

Lemma index_upd_link l f v : (∀ k, lk_instance (f k) = lk_instance k) → index_of (upd_link l f v) = index_of v.
Proof. intros Hf. unfold index_of, upd_link. simpl. by rewrite map_alter_same. Qed.

Lemma index_send l f v : index_of (link_send l f v) = index_of v.
Proof. by apply index_upd_link. Qed.
Lemma index_notify l v : index_of (link_notify l v) = index_of v.
Proof. by apply index_upd_link. Qed.
Lemma index_add l i v : index_of (add_session l i v) = index_of v.
Proof. by apply index_upd_link. Qed.
Lemma index_remove l i v : index_of (remove_session l i v) = index_of v.
Proof. by apply index_upd_link. Qed.
Lemma index_spawn t v : index_of (spawn t v) = index_of v.
Proof. done. Qed.

Lemma index_effect i e v : index_of (do_effect i e v) = index_of v.
Proof. destruct e; try done. apply index_notify. Qed.

Lemma index_effects i es v : index_of (do_effects i es v) = index_of v.
Proof.
  unfold do_effects. revert v. induction es as [|e es IH]; intros v; [done|]. simpl. by rewrite IH, index_effect.
Qed.

(** ** Changing one session *)

(** An operation keeps a session's identity, can only give up its link, and leaves
    a dead one dead. *)
Record keeps (s s' : session) : Prop := {
  kp_ident : (s_key s', s_instance s', s_id s', s_handle s', s_handles s') =
             (s_key s, s_instance s, s_id s, s_handle s, s_handles s);
  kp_link : s_link s' = s_link s ∨ s_link s' = None;
  kp_dead : s_state s = stateClosed → s_state s' = stateClosed ∧ (lb_lines (s_buf s) = [] → lb_lines (s_buf s') = []);
}.

Lemma keeps_refl s : keeps s s.
Proof. split; auto. Qed.

Lemma keeps_trans s1 s2 s3 : keeps s1 s2 → keeps s2 s3 → keeps s1 s3.
Proof.
  intros [Hi1 Hl1 Hd1] [Hi2 Hl2 Hd2]. split; [congruence| |].
  - destruct Hl2 as [-> | ->]; auto.
  - intros Hc. destruct (Hd1 Hc) as [Hc1 He1]. destruct (Hd2 Hc1) as [Hc2 He2]. auto.
Qed.

Lemma put_session_ok i s s' v :
  index_ok v → sv_heap v !! i = Some s → keeps s s' → index_ok (put_session i s' v).
Proof.
  intros [Hsh Hse Hh Hi] Hl [Hid Hlk Hd]. injection Hid as Ek Ein Eid Eh Ehs.
  assert (Hlen : (i < length (sv_heap v))%nat) by (by eapply lookup_lt_Some).
  split; try done.
  - intros j t Hj. unfold put_session in Hj. simpl in Hj.
    destruct (decide (i = j)) as [<-|Hne].
    + rewrite list_lookup_insert_eq in Hj by done. injection Hj as <-.
      destruct (Hsh i s Hl) as [Hk Hn Hc Hli Hdd].
      split; rewrite ?Ek, ?Ein, ?Eid, ?Eh, ?Ehs; try done.
      * intros l E. apply Hli. destruct Hlk as [H0|H0]; congruence.
      * unfold listed. rewrite Ek. intros Hnl. destruct (Hdd Hnl) as [Hst Hb]. destruct (Hd Hst). auto.
    + rewrite list_lookup_insert_ne in Hj by done. destruct (Hsh j t Hj). by split.
  - intros key j Hj. destruct (Hse key j Hj) as (t & Ht & Htk). unfold put_session. simpl.
    destruct (decide (i = j)) as [<-|Hne].
    + rewrite list_lookup_insert_eq by done. eexists. split; [done|]. congruence.
    + rewrite list_lookup_insert_ne by done. eauto.
  - intros h j. change (sv_byHandle (put_session i s' v)) with (sv_byHandle v). rewrite Hh.
    unfold put_session. simpl. destruct (decide (i = j)) as [<-|Hne].
    + rewrite list_lookup_insert_eq by done. unfold listed. simpl. split.
      * intros (t & Ht & E1 & E2). exists s'. simplify_eq. rewrite Eh, Ek. done.
      * intros (t & Ht & E1 & E2). exists s. simplify_eq. rewrite Eh. rewrite Ek in E2. done.
    + rewrite list_lookup_insert_ne by done. done.
Qed.

Lemma on_session_ok i op v :
  (∀ s, keeps s (fst (op s))) → index_ok v → index_ok (on_session i op v).
Proof.
  intros Hop Hok. unfold on_session. destruct (sv_heap v !! i) as [s|] eqn:Hl; [|done].
  specialize (Hop s). destruct (op s) as [s' es]. eapply index_ok_ext; [apply index_effects|].
  by eapply put_session_ok.
Qed.

(** ** The session operations *)

Lemma keeps_same s s' :
  (s_key s', s_instance s', s_id s', s_handle s', s_handles s', s_link s', s_buf s') =
  (s_key s, s_instance s, s_id s, s_handle s, s_handles s, s_link s, s_buf s) →
  (s_state s = stateClosed → s_state s' = stateClosed) → keeps s s'.
Proof. intros [= E1 E2 E3 E4 E5 E6 E7] Hst. split; [congruence|auto|]. rewrite E7. auto. Qed.

Ltac keeps_auto := apply keeps_same; [reflexivity|simpl; congruence].

Lemma keeps_enqueue pick line s : keeps s (fst (enqueue_write pick line s)).
Proof. unfold enqueue_write. repeat case_match; keeps_auto. Qed.

Lemma keeps_drop s : keeps s (fst (drop_oldest_locked s)).
Proof.
  unfold drop_oldest_locked, drop_oldest. destruct (lb_lines (s_buf s)) as [|l ls] eqn:E; [apply keeps_refl|].
  split; [done|auto|]. rewrite E. done.
Qed.

Lemma keeps_cap limit fuel s : keeps s (fst (cap_loop fuel limit s)).
Proof.
  revert s. induction fuel as [|fuel IH]; intros s; [apply keeps_refl|]. cbn [cap_loop].
  destruct (_ && _); [|apply keeps_refl]. pose proof (keeps_drop s) as Hd.
  destruct (drop_oldest_locked s) as [s1 es]. specialize (IH s1).
  destruct (cap_loop fuel limit s1) as [s2 es2]. cbn [fst] in *. by eapply keeps_trans.
Qed.

Lemma keeps_shed s : keeps s (snd (fst (shed_oldest s))).
Proof.
  unfold shed_oldest. case_match; [apply keeps_refl|]. pose proof (keeps_drop s).
  by destruct (drop_oldest_locked s).
Qed.

Section ingest.
Context `{UnicodeTables}.

Definition frozen_of (s : session) :=
  (s_key s, s_instance s, s_id s, s_handle s, s_handles s, s_link s, s_buf s, s_state s).

Lemma frozen_track l raw s : frozen_of (track l raw s) = frozen_of s.
Proof.
  unfold track. transitivity (frozen_of (track_burst l raw s)).
  - unfold track_state. generalize (is_self l (track_burst l raw s)). intros b.
    cbv zeta. repeat case_match; reflexivity.
  - unfold track_burst. cbv zeta. repeat case_match; reflexivity.
Qed.

Lemma keeps_ingest limit now pick raw s : keeps s (fst (ingest limit now pick raw s)).
Proof.
  unfold ingest. destruct (parse_line raw) as [l|]; [|apply keeps_refl].
  destruct (Z.ltb _ _); [apply keeps_refl|]. destruct (String.eqb _ "PING"); [apply keeps_enqueue|].
  destruct (_ && _); [apply keeps_refl|]. unfold ingest_locked.
  destruct (decide (s_state s = stateOpen)) as [Ho|Ho]; [|rewrite bool_decide_eq_false_2 by done; apply keeps_refl].
  rewrite bool_decide_eq_true_2 by done. cbn [negb]. cbv zeta. set (s1 := update s_buf _ _).
  pose proof (frozen_track l raw s1) as Hf. set (s2 := track l raw s1) in *.
  pose proof (keeps_cap limit (buf_len (s_buf s2)) s2) as Hc. destruct (cap_loop _ _ _) as [s3 es].
  cbn [fst] in *. unfold frozen_of in Hf. injection Hf as E1 E2 E3 E4 E5 E6 E7 E8.
  eapply keeps_trans; [|exact Hc]. split; [simpl; congruence|left; by rewrite E6|]. by rewrite Ho.
Qed.
End ingest.

Lemma keeps_dial err s : keeps s (fst (fst (dial_done err s))).
Proof.
  unfold dial_done. case_bool_decide; [apply keeps_refl|]. destruct err; apply keeps_same; done.
Qed.

Lemma keeps_detach now l s : keeps s (snd (detach_locked now l s)).
Proof. unfold detach_locked. case_match; [|apply keeps_refl]. split; [done|auto|done]. Qed.

Lemma keeps_pull l n s : keeps s (fst (fst (fst (pull l n s)))).
Proof.
  unfold pull, pull_lines. destruct (negb _); [apply keeps_refl|]. cbv zeta.
  destruct (bool_decide (s_state _ = stateDialing)); destruct (_ && _); apply keeps_same; done.
Qed.

Lemma keeps_ack h q s : keeps s (fst (ack h q s)).
Proof.
  unfold ack. destruct (_ || _); [apply keeps_refl|]. unfold ack_through. simpl.
  split; [done|auto|]. intros Hst. split; [done|]. simpl. intros ->. by rewrite drop_nil.
Qed.

Lemma keeps_shutdown reason s : keeps s (fst (fst (shutdown reason s))).
Proof. unfold shutdown. case_bool_decide; [apply keeps_refl|]. by apply keeps_same. Qed.

#[export] Hint Resolve keeps_refl keeps_enqueue keeps_shed keeps_ingest keeps_dial keeps_detach keeps_pull
  keeps_ack keeps_shutdown : stugan.

(** ** Forgetting *)

Lemma drop_handles_lookup i hs m h :
  drop_handles i hs m !! h = if bool_decide (h ∈ hs ∧ m !! h = Some i) then None else m !! h.
Proof.
  unfold drop_handles. revert m. induction hs as [|h' hs IH]; intros m; simpl.
  { done. }
  rewrite IH. destruct (decide (m !! h' = Some i)) as [Hm|Hm].
  - rewrite (bool_decide_eq_true_2 (m !! h' = Some i)) by done. destruct (decide (h = h')) as [->|Hne].
    + rewrite lookup_delete_eq. repeat case_bool_decide; set_solver.
    + rewrite lookup_delete_ne by done. repeat case_bool_decide; set_solver.
  - rewrite (bool_decide_eq_false_2 (m !! h' = Some i)) by done. repeat case_bool_decide; set_solver.
Qed.

Lemma delete_mine_lookup (m : gmap string sid) k i key j :
  (if bool_decide (m !! k = Some i) then delete k m else m) !! key = Some j ↔
  m !! key = Some j ∧ ¬ (key = k ∧ j = i).
Proof.
  case_bool_decide as Hk; [|naive_solver]. destruct (decide (key = k)) as [->|Hne].
  - rewrite lookup_delete_eq. naive_solver.
  - rewrite lookup_delete_ne by done. naive_solver.
Qed.

Lemma drop_handles_mine i hs m h j :
  drop_handles i hs m !! h = Some j ↔ m !! h = Some j ∧ ¬ (h ∈ hs ∧ j = i).
Proof. rewrite drop_handles_lookup. case_bool_decide; naive_solver. Qed.

Lemma last_elem {A} (l : list A) x : last l = Some x → x ∈ l.
Proof. intros Hl. apply last_Some in Hl as [l' ->]. apply elem_of_app. right. by apply list_elem_of_singleton. Qed.

(** The tables after [forgetLocked]: session [i] is out, everyone else is in as
    before. *)
Lemma forget_locked_ok i s v :
  index_ok v → sv_heap v !! i = Some s → s_state s = stateClosed → index_ok (forget_locked i v).
Proof.
  intros [Hsh Hse Hh Hi] Hl Hst. pose proof (Hsh i s Hl) as [Hk Hn Hc Hli Hd].
  unfold forget_locked. rewrite Hl. cbn [clear]. unfold clear.
  assert (Hlen : (i < length (sv_heap v))%nat) by (by eapply lookup_lt_Some).
  set (s' := update s_buf _ s). set (v' := spawn _ _).
  assert (Hheap : sv_heap v' = <[i := s']> (sv_heap v)) by done.
  assert (Hsess : ∀ key j, sv_sessions v' !! key = Some j ↔ sv_sessions v !! key = Some j ∧ ¬ (key = s_key s ∧ j = i)).
  { intros. apply delete_mine_lookup. }
  assert (Hby : ∀ h j, sv_byHandle v' !! h = Some j ↔ sv_byHandle v !! h = Some j ∧ ¬ (h ∈ s_handles s ∧ j = i)).
  { intros. apply drop_handles_mine. }
  assert (Hlinks : map lk_instance (sv_links v') = map lk_instance (sv_links v)) by done.
  clearbody v'. split.
  - intros j t Hj. rewrite Hheap in Hj. destruct (decide (i = j)) as [<-|Hne].
    + rewrite list_lookup_insert_eq in Hj by done. injection Hj as <-. split; rewrite ?Hlinks; done.
    + rewrite list_lookup_insert_ne in Hj by done. destruct (Hsh j t Hj) as [? ? ? ? Hd'].
      split; rewrite ?Hlinks; try done. intros Hnl. apply Hd'. unfold listed in *. intros E. apply Hnl.
      apply Hsess. naive_solver.
  - intros key j [Hj _]%Hsess. destruct (Hse key j Hj) as (t & Ht & Htk). rewrite Hheap.
    destruct (decide (i = j)) as [<-|Hne].
    + rewrite list_lookup_insert_eq by done. exists s'. split; [done|]. simplify_eq. done.
    + rewrite list_lookup_insert_ne by done. eauto.
  - intros h j. rewrite Hby, Hh, Hheap. unfold listed. split.
    + intros [(t & Ht & Hht & Hlt) Hno]. destruct (decide (i = j)) as [<-|Hne].
      { exfalso. simplify_eq. apply Hno. split; [by apply last_elem|done]. }
      rewrite list_lookup_insert_ne by done. exists t. split_and!; [done|done|]. apply Hsess. naive_solver.
    + intros (t & Ht & Hht & [Hlt Hno]%Hsess). destruct (decide (i = j)) as [<-|Hne].
      { exfalso. rewrite list_lookup_insert_eq in Ht by done. injection Ht as <-. by apply Hno. }
      rewrite list_lookup_insert_ne in Ht by done. split; [by exists t|naive_solver].
  - intros l n. rewrite Hlinks. apply Hi.
Qed.

(** The heap after [forgetLocked]. *)
Lemma forget_heap i v :
  sv_heap (forget_locked i v) =
  match sv_heap v !! i with Some s => <[i := s <| s_buf := LineBuffer [] 0 |>]> (sv_heap v) | None => sv_heap v end.
Proof. unfold forget_locked. by destruct (sv_heap v !! i). Qed.

Lemma shutdown_session_spec i s reason v :
  sv_heap v !! i = Some s →
  ∃ s', sv_heap (fst (fst (shutdown_session i reason v))) = <[i := s']> (sv_heap v) ∧
        index_of (fst (fst (shutdown_session i reason v))) = index_of (put_session i s' v) ∧
        keeps s s' ∧ s_state s' = stateClosed.
Proof.
  intros Hl. unfold shutdown_session. rewrite Hl. pose proof (keeps_shutdown reason s) as Hk.
  assert (Hst : s_state (fst (fst (shutdown reason s))) = stateClosed) by (unfold shutdown; by case_bool_decide).
  destruct (shutdown reason s) as [[s' [l did]] es]. cbn [fst] in *. exists s'.
  pose proof (index_effects i es (put_session i s' v)) as Hi. split_and!; try done.
  unfold index_of in Hi. by injection Hi.
Qed.

Lemma shutdown_session_ok i reason v : index_ok v → index_ok (fst (fst (shutdown_session i reason v))).
Proof.
  intros Hok. destruct (sv_heap v !! i) as [s|] eqn:Hl.
  - destruct (shutdown_session_spec i s reason v Hl) as (s' & _ & Hi & Hk & _).
    eapply index_ok_ext; [exact Hi|]. by eapply put_session_ok.
  - unfold shutdown_session. by rewrite Hl.
Qed.

(** ** Goroutines only release or forget closed sessions *)

Definition closed_at (h : list session) (i : sid) : Prop := ∃ s, h !! i = Some s ∧ s_state s = stateClosed.

Definition task_ok (h : list session) (t : task) : Prop :=
  match t with TRelease i _ | TForget i => closed_at h i | _ => True end.

Definition tasks_ok (v : server) : Prop := Forall (task_ok (sv_heap v)) (sv_tasks v).

Record sv_ok (v : server) : Prop := { vo_index : index_ok v; vo_tasks : tasks_ok v }.

(** From one heap to the next, closed sessions stay closed. *)
Definition stays_closed (h h' : list session) : Prop := ∀ i, closed_at h i → closed_at h' i.

Lemma stays_closed_refl h : stays_closed h h.
Proof. by intros i. Qed.

Lemma stays_closed_trans h1 h2 h3 : stays_closed h1 h2 → stays_closed h2 h3 → stays_closed h1 h3.
Proof. unfold stays_closed. auto. Qed.

Lemma stays_closed_insert h i s s' :
  h !! i = Some s → (s_state s = stateClosed → s_state s' = stateClosed) → stays_closed h (<[i := s']> h).
Proof.
  intros Hl Hst j (t & Ht & Hc). destruct (decide (i = j)) as [<-|Hne].
  - exists s'. rewrite list_lookup_insert_eq by (by eapply lookup_lt_Some). split; [done|]. apply Hst. congruence.
  - exists t. by rewrite list_lookup_insert_ne.
Qed.

Lemma stays_closed_app h l : stays_closed h (h ++ l).
Proof. intros i (s & Hs & Hc). exists s. split; [by apply lookup_app_l_Some|done]. Qed.

Lemma task_ok_mono h h' t : stays_closed h h' → task_ok h t → task_ok h' t.
Proof. intros Hs. destruct t; simpl; auto. Qed.

(** A server step: the heap moves on and the new tasks are sound. *)
Record moves (v v' : server) : Prop := {
  mv_closed : stays_closed (sv_heap v) (sv_heap v');
  mv_tasks : tasks_ok v → tasks_ok v';
}.

Lemma moves_refl v : moves v v.
Proof. split; [apply stays_closed_refl|done]. Qed.

Lemma moves_trans v1 v2 v3 : moves v1 v2 → moves v2 v3 → moves v1 v3.
Proof. intros [] []. split; [by eapply stays_closed_trans|auto]. Qed.

Lemma moves_same v v' : sv_heap v' = sv_heap v → sv_tasks v' = sv_tasks v → moves v v'.
Proof. intros E1 E2. split; unfold tasks_ok; rewrite E1, ?E2; [apply stays_closed_refl|done]. Qed.

Lemma moves_put i s s' v :
  sv_heap v !! i = Some s → (s_state s = stateClosed → s_state s' = stateClosed) → moves v (put_session i s' v).
Proof.
  intros Hl Hst. pose proof (stays_closed_insert _ _ _ _ Hl Hst) as Hs. split; [done|].
  unfold tasks_ok. simpl. intros Ht. eapply Forall_impl; [exact Ht|]. intros t. by apply task_ok_mono.
Qed.

Lemma moves_keeps i s s' v : sv_heap v !! i = Some s → keeps s s' → moves v (put_session i s' v).
Proof. intros Hl [_ _ Hd]. eapply moves_put; [done|]. naive_solver. Qed.

Lemma moves_spawn t v : task_ok (sv_heap v) t → moves v (spawn t v).
Proof. intros Ht. split; [apply stays_closed_refl|]. unfold tasks_ok. simpl. intros Hts. apply Forall_app. by repeat constructor. Qed.

Lemma moves_effects i es v : moves v (do_effects i es v).
Proof.
  unfold do_effects. revert v. induction es as [|e es IH]; intros v; [apply moves_refl|]. simpl.
  eapply moves_trans; [|apply IH]. destruct e; simpl; try (by apply moves_same); by apply moves_spawn.
Qed.

(** Preservation as one relation, so that steps compose. *)
Definition safe (v v' : server) : Prop := index_ok v → index_ok v' ∧ moves v v'.

Lemma safe_refl v : safe v v.
Proof. split; [done|apply moves_refl]. Qed.

Lemma safe_trans v1 v2 v3 : safe v1 v2 → safe v2 v3 → safe v1 v3.
Proof. intros H1 H2 Hok. destruct (H1 Hok) as [Hok2 Hm]. destruct (H2 Hok2). split; [done|by eapply moves_trans]. Qed.

Lemma safe_ext v v' : index_of v' = index_of v → sv_tasks v' = sv_tasks v → safe v v'.
Proof.
  intros E1 E2 Hok. split; [by eapply index_ok_ext|]. apply moves_same; [|done].
  unfold index_of in E1. by injection E1.
Qed.

Lemma safe_spawn t v : task_ok (sv_heap v) t → safe v (spawn t v).
Proof. intros Ht Hok. split; [by apply (index_ok_ext v)|by apply moves_spawn]. Qed.

Lemma safe_effects i es v : safe v (do_effects i es v).
Proof. intros Hok. split; [eapply index_ok_ext; [apply index_effects|done]|apply moves_effects]. Qed.

Lemma safe_put i s s' v : sv_heap v !! i = Some s → keeps s s' → safe v (put_session i s' v).
Proof. intros Hl Hk Hok. split; [by eapply put_session_ok|by eapply moves_keeps]. Qed.

Lemma safe_on_session i op v : (∀ s, keeps s (fst (op s))) → safe v (on_session i op v).
Proof.
  intros Hop. unfold on_session. destruct (sv_heap v !! i) as [s|] eqn:Hl; [|apply safe_refl].
  specialize (Hop s). destruct (op s) as [s' es]. eapply safe_trans; [by eapply safe_put|apply safe_effects].
Qed.

Lemma safe_link l f v : (∀ k, lk_instance (f k) = lk_instance k) → safe v (upd_link l f v).
Proof. intros Hf. by apply safe_ext; [apply index_upd_link|]. Qed.

Lemma safe_send l f v : safe v (link_send l f v).
Proof. by apply safe_link. Qed.
Lemma safe_notify l v : safe v (link_notify l v).
Proof. by apply safe_link. Qed.
Lemma safe_add l i v : safe v (add_session l i v).
Proof. by apply safe_link. Qed.
Lemma safe_remove l i v : safe v (remove_session l i v).
Proof. by apply safe_link. Qed.

Lemma safe_forget i v : closed_at (sv_heap v) i → safe v (forget_locked i v).
Proof.
  intros (s & Hl & Hst) Hok. split; [by eapply forget_locked_ok|].
  assert (Hs : stays_closed (sv_heap v) (sv_heap (forget_locked i v))).
  { rewrite forget_heap, Hl. by eapply stays_closed_insert. }
  split; [done|]. unfold tasks_ok. intros Hts. unfold forget_locked in *. rewrite Hl in *. simpl in *.
  apply Forall_app. split; [|by repeat constructor]. eapply Forall_impl; [exact Hts|]. intros t. by apply task_ok_mono.
Qed.

Lemma safe_shutdown i reason v : safe v (fst (fst (shutdown_session i reason v))).
Proof.
  unfold shutdown_session. destruct (sv_heap v !! i) as [s|] eqn:Hl; [|apply safe_refl].
  pose proof (keeps_shutdown reason s) as Hk. destruct (shutdown reason s) as [[s' [l did]] es]. cbn [fst] in *.
  eapply safe_trans; [by eapply safe_put|apply safe_effects].
Qed.

Lemma shutdown_closed i s reason v :
  sv_heap v !! i = Some s → closed_at (sv_heap (fst (fst (shutdown_session i reason v)))) i.
Proof.
  intros Hl. destruct (shutdown_session_spec i s reason v Hl) as (s' & -> & _ & _ & Hst).
  exists s'. by rewrite list_lookup_insert_eq by (by eapply lookup_lt_Some).
Qed.

Lemma safe_end i reason v : safe v (end_session i reason v).
Proof.
  unfold end_session. pose proof (safe_shutdown i reason v) as Hs.
  destruct (sv_heap v !! i) as [s|] eqn:Hl.
  - pose proof (shutdown_closed i s reason v Hl) as Hc.
    destruct (shutdown_session i reason v) as [[v' l] did]. cbn [fst] in *.
    destruct did; [|done]. eapply safe_trans; [exact Hs|]. by apply safe_spawn.
  - unfold shutdown_session in *. by rewrite Hl in *.
Qed.

Lemma safe_release i l v : closed_at (sv_heap v) i → safe v (release i l v).
Proof. intros Hc. destruct l; [apply safe_notify|by apply safe_forget]. Qed.

Lemma safe_round order v : safe v (fst (reclaim_round order v)).
Proof.
  unfold reclaim_round. destruct (Z.leb _ _); [apply safe_refl|].
  destruct (largest order v) as [i|]; [|apply safe_refl].
  destruct (sv_heap v !! i) as [s|] eqn:Hl; [|apply safe_refl].
  pose proof (keeps_shed s) as Hk. destruct (shed_oldest s) as [[ok s'] es]. cbn [fst snd] in *.
  eapply safe_trans; [by eapply safe_put|apply safe_effects].
Qed.

#[export] Hint Resolve safe_refl safe_send safe_notify safe_add safe_remove safe_end safe_shutdown safe_effects
  safe_round : stugan.

(** ** Connecting *)

Lemma instances_lookup v l k : sv_links v !! l = Some k → map lk_instance (sv_links v) !! l = Some (lk_instance k).
Proof. intros Hl. change (map lk_instance (sv_links v)) with (lk_instance <$> sv_links v). by rewrite list_lookup_fmap, Hl. Qed.

Lemma session_key_inj a b c d :
  no_byte NUL a = true → no_byte NUL c = true → session_key a b = session_key c d → a = c ∧ b = d.
Proof.
  unfold session_key. intros Ha Hc E. pose proof (cut_byte_app NUL a b Ha) as H1.
  rewrite E, (cut_byte_app NUL c d Hc) in H1. by simplify_eq.
Qed.

Lemma attach_handles_last (h : string) (hs : list string) : last (drop (length (hs ++ [h]) - recent_handles) (hs ++ [h])) = Some h.
Proof.
  rewrite length_app. simpl. unfold recent_handles. rewrite drop_app_le by lia. apply last_snoc.
Qed.

Lemma connect_attach_index now l f i s v :
  index_of (connect_attach now l f i s v) =
  (<[i := attach_locked now l (f_handle f) s]> (sv_heap v), map lk_instance (sv_links v), sv_sessions v,
   <[f_handle f := i]> (if bool_decide (sv_byHandle v !! s_handle s = Some i)
                        then delete (s_handle s) (sv_byHandle v) else sv_byHandle v)).
Proof.
  unfold connect_attach. rewrite index_notify, index_add.
  destruct (s_link s) as [h|]; [|done]. unfold index_of, put_session. simpl.
  rewrite !map_alter_same by done. done.
Qed.

Lemma connect_attach_ok now l f i s v :
  index_ok v → sv_heap v !! i = Some s → listed v i s → sv_byHandle v !! f_handle f = None →
  map lk_instance (sv_links v) !! l = Some (s_instance s) → s_state s = stateOpen →
  index_ok (connect_attach now l f i s v).
Proof.
  intros [Hsh Hse Hh Hi] Hl Hlist Hnew Hlink Hst. pose proof (connect_attach_index now l f i s v) as Hix.
  set (v' := connect_attach now l f i s v) in *. clearbody v'.
  set (s' := attach_locked now l (f_handle f) s) in *.
  assert (Hs' : (s_key s', s_instance s', s_id s', s_handle s', s_link s') =
                (s_key s, s_instance s, s_id s, f_handle f, Some l)) by done.
  assert (Hlast : last (s_handles s') = Some (s_handle s')) by apply attach_handles_last.
  assert (Hlen : (i < length (sv_heap v))%nat) by (by eapply lookup_lt_Some).
  clearbody s'. injection Hs' as Ek Ein Eid Eh El.
  unfold index_of in Hix. injection Hix as E1 E2 E3 E4.
  assert (Hby : ∀ h j, sv_byHandle v' !! h = Some j ↔
    (h = f_handle f ∧ j = i) ∨ (h ≠ f_handle f ∧ sv_byHandle v !! h = Some j ∧ ¬ (h = s_handle s ∧ j = i))).
  { intros h j. rewrite E4. destruct (decide (h = f_handle f)) as [->|Hne].
    - rewrite lookup_insert_eq. naive_solver.
    - rewrite lookup_insert_ne by done. rewrite delete_mine_lookup. naive_solver. }
  destruct (Hsh i s Hl) as [Hk Hn Hc _ _]. split.
  - intros j t. rewrite E1. destruct (decide (i = j)) as [<-|Hne].
    + rewrite list_lookup_insert_eq by done. intros [= <-].
      split; unfold listed; rewrite ?E2, ?E3, ?Ek, ?Ein, ?Eid, ?El; [done|done|done| |done].
      by intros l' [= <-].
    + rewrite list_lookup_insert_ne by done. intros Ht. destruct (Hsh j t Ht) as [? ? ? ? Hd].
      split; unfold listed in *; rewrite ?E2, ?E3; done.
  - intros key j. rewrite E3, E1. intros Hj. destruct (Hse key j Hj) as (t & Ht & Htk).
    destruct (decide (i = j)) as [<-|Hne].
    + rewrite list_lookup_insert_eq by done. exists s'. split; [done|]. congruence.
    + rewrite list_lookup_insert_ne by done. eauto.
  - intros h j. rewrite Hby, E1. unfold listed. rewrite E3. split.
    + intros [[-> ->]|(Hne & Hj & Hno)].
      * rewrite list_lookup_insert_eq by done. exists s'. by rewrite Eh, Ek.
      * apply Hh in Hj as (t & Ht & Hht & Hlt). destruct (decide (i = j)) as [<-|Hij]; [naive_solver|].
        rewrite list_lookup_insert_ne by done. by exists t.
    + intros (t & Ht & Hht & Hlt). destruct (decide (i = j)) as [<-|Hij].
      * rewrite list_lookup_insert_eq in Ht by done. left. naive_solver.
      * rewrite list_lookup_insert_ne in Ht by done. right.
        assert (Hj : sv_byHandle v !! h = Some j) by (apply Hh; by exists t). naive_solver.
  - intros l' n. rewrite E2. apply Hi.
Qed.

Lemma connect_attach_moves now l f i s v :
  sv_heap v !! i = Some s → s_state s = stateOpen → moves v (connect_attach now l f i s v).
Proof.
  intros Hl Hst. pose proof (connect_attach_index now l f i s v) as Hix.
  assert (Ht : sv_tasks (connect_attach now l f i s v) = sv_tasks v).
  { unfold connect_attach. by destruct (s_link s). }
  set (v' := connect_attach now l f i s v) in *. clearbody v'. unfold index_of in Hix. injection Hix as E1 _ _ _.
  assert (Hs : stays_closed (sv_heap v) (sv_heap v')).
  { rewrite E1. eapply stays_closed_insert; [done|]. by rewrite Hst. }
  split; [done|]. unfold tasks_ok. rewrite Ht. intros Hts. eapply Forall_impl; [exact Hts|].
  intros t. by apply task_ok_mono.
Qed.

Lemma connect_fresh_index now l k f key v :
  index_of (connect_fresh now l k f key v) =
  (sv_heap v ++ [new_session now (lk_instance k) l f key], map lk_instance (sv_links v),
   <[key := length (sv_heap v)]> (sv_sessions v), <[f_handle f := length (sv_heap v)]> (sv_byHandle v)).
Proof. unfold connect_fresh. rewrite index_spawn, index_add. done. Qed.

Lemma connect_fresh_safe now l k f v :
  let key := session_key (lk_instance k) (f_id f) in
  sv_sessions v !! key = None → sv_byHandle v !! f_handle f = None → sv_links v !! l = Some k →
  safe v (connect_fresh now l k f key v).
Proof.
  intros key Hkey Hnew Hlk Hok. pose proof Hok as [Hsh Hse Hh Hi].
  pose proof (connect_fresh_index now l k f key v) as Hix. set (i := length (sv_heap v)) in *.
  assert (Hlk' : map lk_instance (sv_links v) !! l = Some (lk_instance k)).
  { by apply instances_lookup. }
  assert (Hts : sv_tasks (connect_fresh now l k f key v) = sv_tasks v ++ [TDial i]) by done.
  set (v' := connect_fresh now l k f key v) in *. clearbody v'. unfold index_of in Hix. injection Hix as E1 E2 E3 E4.
  assert (Hold : ∀ j t, sv_heap v !! j = Some t → j ≠ i) by (intros j t Ht; apply lookup_lt_Some in Ht; lia).
  set (s := new_session now (lk_instance k) l f key) in *.
  assert (Hheap : ∀ j t, sv_heap v' !! j = Some t ↔ sv_heap v !! j = Some t ∨ (j = i ∧ t = s)).
  { intros j t. rewrite E1. rewrite lookup_app. split.
    - destruct (sv_heap v !! j) eqn:Ej; [naive_solver|]. intros Hj. apply lookup_ge_None in Ej.
      apply list_lookup_singleton_Some in Hj as [Hz ->]. right. split; [lia|done].
    - intros [Hj|[-> ->]]; [by rewrite Hj|]. rewrite lookup_ge_None_2 by lia. by rewrite Nat.sub_diag. }
  split.
  - split.
    + intros j t [Ht|[-> ->]]%Hheap.
      * destruct (Hsh j t Ht) as [? ? ? ? Hd]. split; unfold listed in *; rewrite ?E2, ?E3; try done.
        intros Hnl. apply Hd. intros Hl2. apply Hnl. rewrite lookup_insert_ne; [done|]. congruence.
      * split; unfold listed; rewrite ?E2, ?E3; try done.
        -- by apply (Hi l).
        -- intros l' [= <-]. done.
        -- change (s_key s) with key. rewrite lookup_insert_eq. intros Hx. by destruct Hx.
    + intros key' j. rewrite E3. destruct (decide (key' = key)) as [->|Hne].
      * rewrite lookup_insert_eq. intros [= <-]. exists s. split; [apply Hheap; by right|done].
      * rewrite lookup_insert_ne by done. intros Hj. destruct (Hse key' j Hj) as (t & Ht & Htk).
        exists t. split; [apply Hheap; by left|done].
    + intros h j. rewrite E4. unfold listed. rewrite E3. destruct (decide (h = f_handle f)) as [->|Hne].
      * rewrite lookup_insert_eq. split.
        -- intros [= <-]. exists s. split; [apply Hheap; by right|]. split; [done|]. change (s_key s) with key. by rewrite lookup_insert_eq.
        -- intros (t & [Ht|[-> ->]]%Hheap & Hht & Hlt); [|done]. exfalso.
           destruct (decide (s_key t = key)) as [Ek|Ek].
           { rewrite Ek, lookup_insert_eq in Hlt. pose proof (Hold j t Ht). congruence. }
           rewrite lookup_insert_ne in Hlt by done.
           assert (sv_byHandle v !! f_handle f = Some j) by (apply Hh; by exists t). congruence.
      * rewrite lookup_insert_ne by done. rewrite Hh. unfold listed. split.
        -- intros (t & Ht & Hht & Hlt). exists t. split; [apply Hheap; by left|]. split; [done|].
           rewrite lookup_insert_ne; [done|]. congruence.
        -- intros (t & [Ht|[-> ->]]%Hheap & Hht & Hlt); [|by destruct Hne].
           exists t. split_and!; [done|done|]. destruct (decide (s_key t = key)) as [Ek|Ek].
           { rewrite Ek, lookup_insert_eq in Hlt. pose proof (Hold j t Ht). congruence. }
           by rewrite lookup_insert_ne in Hlt by done.
    + intros l' n. rewrite E2. apply Hi.
  - assert (Hs : stays_closed (sv_heap v) (sv_heap v')) by (rewrite E1; apply stays_closed_app).
    split; [done|]. unfold tasks_ok. rewrite Hts. intros Ht. apply Forall_app. split; [|by repeat constructor].
    eapply Forall_impl; [exact Ht|]. intros t. by apply task_ok_mono.
Qed.

(** The session that [connect_replace] leaves behind. *)
Lemma connect_replace_spec now i s v :
  sv_heap v !! i = Some s → listed v i s → index_ok v →
  let v' := connect_replace now i s v in
  safe v v' ∧ sv_sessions v' !! s_key s = None ∧
  (∀ h, sv_byHandle v !! h = None → sv_byHandle v' !! h = None) ∧
  map lk_instance (sv_links v') = map lk_instance (sv_links v).
Proof.
  intros Hl Hlist Hok v'. unfold v', connect_replace.
  set (v1 := match s_link s with Some h => _ | None => v end).
  assert (H1 : safe v v1 ∧ (∃ s1, sv_heap v1 !! i = Some s1 ∧ keeps s s1) ∧
    (sv_sessions v1, sv_byHandle v1, map lk_instance (sv_links v1)) = (sv_sessions v, sv_byHandle v, map lk_instance (sv_links v))).
  { subst v1. destruct (s_link s) as [h|]; [|split_and!; [apply safe_refl|eauto with stugan|done]].
    set (v2 := link_send _ _ _).
    assert (Hix : index_of v2 = index_of v) by (unfold v2; by rewrite index_send, index_remove).
    assert (Hh2 : sv_heap v2 = sv_heap v) by (unfold index_of in Hix; by injection Hix).
    split_and!.
    - eapply safe_trans; [by apply (safe_ext v v2)|]. eapply safe_put; [by rewrite Hh2|auto with stugan].
    - eexists. split; [|apply (keeps_detach now h)]. unfold put_session. simpl.
      rewrite list_lookup_insert_eq; [done|]. by eapply lookup_lt_Some.
    - unfold put_session, v2. simpl. by rewrite !map_alter_same. }
  clearbody v1. destruct H1 as (Hs1 & (s1 & Hl1 & Hk1) & Heq). injection Heq as Ese Eby Eli.
  pose proof (safe_shutdown i "replaced by a new connection" v1) as Hs2.
  destruct (shutdown_session_spec i s1 "replaced by a new connection" v1 Hl1) as (s2 & Hheap & Hix & Hk2 & Hst).
  destruct (shutdown_session i "replaced by a new connection" v1) as [[v2 l] did]. cbn [fst] in *.
  unfold index_of in Hix. injection Hix as _ E2 E3 E4. unfold put_session in E2, E3, E4. simpl in E2, E3, E4.
  assert (Hl2 : sv_heap v2 !! i = Some s2).
  { rewrite Hheap. apply list_lookup_insert_eq. by eapply lookup_lt_Some. }
  assert (Hkey : s_key s2 = s_key s).
  { destruct Hk1 as [H1 _ _], Hk2 as [H2 _ _]. congruence. }
  split_and!.
  - eapply safe_trans; [exact Hs1|]. eapply safe_trans; [exact Hs2|]. apply safe_forget. by exists s2.
  - unfold forget_locked. rewrite Hl2. cbn [clear]. unfold clear, put_session, spawn. simpl. rewrite Hkey.
    rewrite E3, Ese, (bool_decide_eq_true_2 _ Hlist). apply lookup_delete_eq.
  - intros h Hh. unfold forget_locked. rewrite Hl2. unfold clear, put_session, spawn. simpl.
    rewrite drop_handles_lookup, E4, Eby, Hh. by case_bool_decide.
  - unfold forget_locked. rewrite Hl2. unfold clear, put_session, spawn. simpl. by rewrite E2.
Qed.

(** The session a connect finds is listed under its key, in the connecting link's
    instance. *)
Lemma lookup_by_key v n id i s :
  index_ok v → no_byte NUL n = true → sv_sessions v !! session_key n id = Some i → sv_heap v !! i = Some s →
  listed v i s ∧ s_key s = session_key n id ∧ s_instance s = n ∧ s_id s = id.
Proof.
  intros Hok Hn Hk Hl. destruct (ok_sessions v Hok _ _ Hk) as (t & Ht & Htk).
  assert (Hsk : s_key s = session_key n id) by congruence. clear t Ht Htk.
  destruct (ok_shape v Hok i s Hl) as [Hkey Hnul _ _ _].
  destruct (session_key_inj (s_instance s) (s_id s) n id) as [E1 E2]; [done|done|congruence|].
  split_and!; try done. unfold listed. by rewrite Hsk.
Qed.

Lemma safe_connect now l f v : safe v (handle_connect now l f v).
Proof.
  intros Hok. unfold handle_connect. destruct (sv_links v !! l) as [k|] eqn:Hlk; [|by apply safe_refl].
  assert (Hn : no_byte NUL (lk_instance k) = true) by (eapply (ok_instances v Hok l); by apply instances_lookup).
  destruct (_ || _); [by apply safe_send|]. destruct (split_host_port _); [by apply safe_send|].
  cbv zeta. destruct (sv_closed v); [by apply safe_send|].
  case_bool_decide as Hh; [by apply safe_send|]. apply eq_None_not_Some in Hh.
  destruct (sv_sessions v !! session_key (lk_instance k) (f_id f)) as [i|] eqn:Hk; cbn [mbind option_bind];
    [|by apply connect_fresh_safe].
  destruct (ok_sessions v Hok _ _ Hk) as (s & Hl & _). rewrite Hl. cbn [mbind option_bind].
  destruct (lookup_by_key v _ _ i s Hok Hn Hk Hl) as (Hlist & Hkey & Hin & Hid).
  destruct (match _ with Some hk => _ | None => false end); [by apply safe_send|].
  destruct (reusable (f_fp f) s) eqn:Hr.
  - unfold reusable in Hr. apply andb_true_iff in Hr as [[[Hst _]%andb_true_iff _]%andb_true_iff _].
    apply bool_decide_eq_true_1 in Hst. split; [|by apply connect_attach_moves].
    apply connect_attach_ok; try done. rewrite Hin. by apply instances_lookup.
  - destruct (connect_replace_spec now i s v Hl Hlist Hok) as (Hs & Hno & Hby & Hlinks).
    set (v1 := connect_replace now i s v) in *. clearbody v1.
    assert (Hlk1 : map lk_instance (sv_links v1) !! l = Some (lk_instance k)) by (rewrite Hlinks; by apply instances_lookup).
    refine (safe_trans _ _ _ Hs _ Hok).
    change (map lk_instance (sv_links v1)) with (lk_instance <$> sv_links v1) in Hlk1.
    rewrite list_lookup_fmap in Hlk1. destruct (sv_links v1 !! l) as [k1|] eqn:Hk1; [|done].
    injection Hlk1 as Ein. rewrite Hkey in Hno.
    assert (E : connect_fresh now l k f (session_key (lk_instance k) (f_id f)) v1 =
                connect_fresh now l k1 f (session_key (lk_instance k1) (f_id f)) v1).
    { unfold connect_fresh, new_session. by rewrite Ein. }
    rewrite E. apply connect_fresh_safe; [by rewrite Ein|by apply Hby|done].
Qed.

(** ** The other frames *)

Lemma safe_write pick l f v : safe v (handle_write pick l f v).
Proof.
  unfold handle_write. destruct (_ || _); [apply safe_refl|].
  destruct (sv_byHandle v !! f_handle f) as [i|]; cbn [mbind option_bind]; [|apply safe_refl].
  destruct (sv_heap v !! i) as [s|]; cbn [mbind option_bind]; [|apply safe_refl].
  destruct (_ && _); [|apply safe_refl]. apply safe_on_session. auto with stugan.
Qed.

Lemma safe_ack k f v : safe v (handle_ack k f v).
Proof.
  unfold handle_ack. destruct (lookup_session k (f_id f) v) as [i|]; cbn [mbind option_bind]; [|apply safe_refl].
  destruct (sv_heap v !! i) as [s|] eqn:Hl; cbn [mbind option_bind]; [|apply safe_refl].
  pose proof (keeps_ack (f_handle f) (f_seq f) s) as Hk. destruct (ack _ _ s) as [s' es]. cbn [fst] in Hk.
  eapply safe_trans; [by eapply safe_put|]. generalize (put_session i s' v) as v1. clear.
  induction es as [|e es IH]; intros v1; [apply safe_refl|]. simpl. eapply safe_trans; [|apply IH].
  destruct e; try apply safe_refl. by apply safe_spawn.
Qed.

Lemma put_closed i s' v : (i < length (sv_heap v))%nat → s_state s' = stateClosed → closed_at (sv_heap (put_session i s' v)) i.
Proof. intros Hl Hst. exists s'. split; [by apply list_lookup_insert_eq|done]. Qed.

Lemma safe_detach now l f v : safe v (handle_detach now l f v).
Proof.
  unfold handle_detach. destruct (sv_byHandle v !! f_handle f) as [i|]; cbn [mbind option_bind]; [|apply safe_refl].
  destruct (sv_heap v !! i) as [s|] eqn:Hl; cbn [mbind option_bind]; [|apply safe_refl].
  set (p := if String.eqb _ _ then _ else _).
  assert (Hk : keeps s (snd p)) by (subst p; destruct (String.eqb _ _); auto with stugan).
  destruct p as [detached s']. cbn [snd] in Hk. pose proof (safe_put i s s' v Hl Hk) as Hs.
  destruct (negb detached); [done|]. eapply safe_trans; [exact Hs|].
  eapply safe_trans; [apply safe_remove|]. case_bool_decide as Hst; [|apply safe_refl].
  apply safe_forget. apply (put_closed i s' v); [by eapply lookup_lt_Some|done].
Qed.

Lemma safe_close now l k f v : safe v (handle_close now l k f v).
Proof.
  unfold handle_close. destruct (lookup_session k (f_id f) v) as [i|]; cbn [mbind option_bind]; [|apply safe_refl].
  destruct (sv_heap v !! i) as [s|] eqn:Hl; cbn [mbind option_bind]; [|apply safe_refl].
  destruct (_ && _); [|apply safe_refl].
  eapply safe_trans; [apply (safe_put i s (snd (detach_locked now l s) <| s_finished := true |>)); [done|]|].
  { eapply keeps_trans; [apply (keeps_detach now l)|]. apply keeps_same; [done|]. by intros. }
  eapply safe_trans; [apply (safe_remove l i)|]. by apply (safe_spawn (TShut i "closed by stugan")).
Qed.

Lemma safe_frame now pick l f v : safe v (handle_frame now pick l f v).
Proof.
  unfold handle_frame. destruct (sv_links v !! l) as [k|]; [|apply safe_refl]. cbv zeta.
  repeat (destruct (String.eqb (f_op f) _);
          [first [apply safe_send|apply safe_refl|apply safe_connect|apply safe_write|apply safe_ack
                 |apply safe_detach|apply safe_close]|]).
  apply safe_send.
Qed.

(** ** Links come and go *)

Lemma safe_hello f v : safe v (fst (serve_hello f v)).
Proof.
  unfold serve_hello. destruct (String.eqb (f_op f) OpHealth); [apply safe_refl|].
  do 3 (destruct (negb _); [apply safe_refl|]).
  destruct (String.eqb (f_instance f) "" || str_in NUL (f_instance f)) eqn:Hi; [apply safe_refl|].
  apply orb_false_iff in Hi as [_ Hi].
  destruct (sv_closed v); [apply safe_refl|]. cbn [fst]. eapply safe_trans; [|apply safe_send].
  set (k := MkLink _ _ _ _ _ _ _). intros [Hsh Hse Hh Hin].
  assert (Happ : map lk_instance (sv_links v ++ [k]) = map lk_instance (sv_links v) ++ [f_instance f]) by apply map_app.
  split; [|by apply moves_same]. split; simpl; try done.
  - intros i s Hl. destruct (Hsh i s Hl) as [? ? ? Hl' ?]. split; try done.
    intros l E. simpl. rewrite Happ. by apply lookup_app_l_Some, Hl'.
  - intros l n. rewrite Happ. intros [Hl|[_ Hl]]%lookup_app_Some; [by apply (Hin l)|].
    apply list_lookup_singleton_Some in Hl as [_ <-]. by apply negb_false_iff in Hi.
Qed.

Lemma safe_foldl {A} (f : server → A → server) (l : list A) v :
  (∀ v a, safe v (f v a)) → safe v (foldl f v l).
Proof.
  intros Hf. revert v. induction l as [|a l IH]; intros v; [apply safe_refl|]. simpl.
  eapply safe_trans; [apply Hf|apply IH].
Qed.

Lemma safe_close_held now l v i : safe v (close_held now l v i).
Proof.
  unfold close_held. destruct (sv_heap v !! i) as [s|] eqn:Hl; [|apply safe_refl].
  pose proof (keeps_detach now l s) as Hk. destruct (detach_locked now l s) as [detached s']. cbn [snd] in Hk.
  pose proof (safe_put i s s' v Hl Hk) as Hs. destruct detached; [|done]. cbn [andb].
  case_bool_decide as Hst; [|done]. eapply safe_trans; [exact Hs|]. apply safe_forget.
  apply (put_closed i s' v); [by eapply lookup_lt_Some|done].
Qed.

Lemma safe_link_close now l v : safe v (link_close now l v).
Proof.
  unfold link_close. destruct (sv_links v !! l) as [k|]; [|apply safe_refl]. destruct (lk_closed k); [apply safe_refl|].
  cbv zeta. eapply safe_trans; [|apply safe_foldl; intros; apply safe_close_held].
  apply safe_ext; [|done]. transitivity (index_of (upd_link l (λ k, k <| lk_closed := true |> <| lk_sessions := ∅ |>) v)); [done|].
  by apply index_upd_link.
Qed.

Lemma safe_writer_take l v : safe v (fst (writer_take l v)).
Proof. unfold writer_take. destruct (sv_links v !! l); [by apply safe_link|apply safe_refl]. Qed.

Lemma safe_writer_pull l i v : safe v (fst (writer_pull l i v)).
Proof.
  unfold writer_pull. destruct (sv_heap v !! i) as [s|] eqn:Hl; [|apply safe_refl].
  pose proof (keeps_pull l pull_batch s) as Hk.
  assert (Hdone : ∀ s' fs dn stale, pull l pull_batch s = (s', fs, dn, stale) → dn = true → s_state s' = stateClosed).
  { intros s' fs dn stale. unfold pull, pull_lines. destruct (negb _); [intros; by simplify_eq|]. cbv zeta.
    destruct (bool_decide (s_state _ = stateDialing)) eqn:Hd; destruct (_ && _) eqn:E; intros; simplify_eq;
      apply andb_true_iff in E as [[E _]%andb_true_iff _]; by apply bool_decide_eq_true_1 in E. }
  destruct (pull l pull_batch s) as [[[s' fs] dn] stale]. cbn [fst] in Hk. specialize (Hdone s' fs dn stale eq_refl).
  pose proof (safe_put i s s' v Hl Hk) as Hs. cbn [fst].
  assert (Hs2 : safe v (if stale || dn then remove_session l i (put_session i s' v) else put_session i s' v)).
  { destruct (_ || _); [|done]. eapply safe_trans; [exact Hs|apply safe_remove]. }
  destruct dn; [|done]. eapply safe_trans; [exact Hs2|]. rewrite orb_true_r. apply safe_spawn.
  apply (put_closed i s' v); [by eapply lookup_lt_Some|by apply Hdone].
Qed.

Lemma safe_reap now v : safe v (reap now v).
Proof.
  unfold reap. apply safe_foldl. intros v' [key i]. destruct (_ ≫= _); [|apply safe_refl]. by apply safe_spawn.
Qed.

Lemma safe_shutdown_server now v : safe v (shutdown_server now v).
Proof.
  unfold shutdown_server. cbv zeta. eapply safe_trans; [|apply safe_foldl; intros; apply safe_end].
  eapply safe_trans; [|apply safe_foldl; intros; apply safe_link_close]. by apply safe_ext.
Qed.

(** ** Tasks *)

Lemma safe_task err order t v : task_ok (sv_heap v) t → safe v (run_task err order t v).
Proof.
  intros Ht. destruct t as [n| |i reason|i l|i reason|i|i]; cbn [run_task] in *.
  - by apply safe_ext.
  - pose proof (safe_round order v) as Hr. destruct (reclaim_round order v) as [v' again]. cbn [fst] in Hr.
    destruct again; [|done]. eapply safe_trans; [exact Hr|]. by apply safe_spawn.
  - apply safe_end.
  - by apply safe_release.
  - destruct (sv_heap v !! i) as [s|] eqn:Hl; [|apply safe_refl].
    pose proof (safe_shutdown i reason v) as Hs. pose proof (shutdown_closed i s reason v Hl) as Hc.
    destruct (shutdown_session i reason v) as [[v' l] did]. cbn [fst] in *.
    eapply safe_trans; [exact Hs|]. by apply safe_spawn.
  - by apply safe_forget.
  - destruct (sv_heap v !! i) as [s|] eqn:Hl; [|apply safe_refl].
    pose proof (keeps_dial err s) as Hk.
    assert (Hrel : snd (dial_done err s) = true → s_state (fst (fst (dial_done err s))) = stateClosed).
    { unfold dial_done. case_bool_decide; [done|]. by destruct err. }
    destruct (dial_done err s) as [[s' es] rel]. cbn [fst snd] in *.
    assert (Hs : safe v (do_effects i es (put_session i s' v))).
    { eapply safe_trans; [by eapply safe_put|apply safe_effects]. }
    destruct rel; [|done]. eapply safe_trans; [exact Hs|]. apply safe_spawn. simpl.
    pose proof (index_effects i es (put_session i s' v)) as Hix. unfold index_of in Hix. injection Hix as -> _ _ _.
    apply (put_closed i s' v); [by eapply lookup_lt_Some|by apply Hrel].
Qed.

(** ** Runs *)

Section runs.
Context `{UnicodeTables}.

Lemma step_sv_ok o v : sv_ok v → sv_ok (sv_step o v).
Proof.
  assert (Hsafe : ∀ v v', safe v v' → sv_ok v → sv_ok v').
  { intros v1 v2 Hs [Hi Ht]. destruct (Hs Hi) as [Hi' [_ Ht']]. split; auto. }
  intros Hok. destruct o as [f|now pick l f|k err order|now pick i raw|pick i|i|i reason|now|l|l i|now l|now];
    cbn [sv_step].
  3: {
    destruct (sv_tasks v !! k) as [t|] eqn:Ht; [|done]. destruct Hok as [Hi Hts].
    assert (Hok1 : sv_ok (v <| sv_tasks ::= delete k |>)).
    { split; [by apply (index_ok_ext v)|]. unfold tasks_ok in *. simpl. by apply Forall_delete. }
    eapply Hsafe; [|exact Hok1]. apply safe_task.
    unfold tasks_ok in Hts. rewrite Forall_lookup in Hts. by eapply Hts. }
  all: eapply Hsafe; [|exact Hok].
  - apply safe_hello.
  - apply safe_frame.
  - apply safe_on_session. auto with stugan.
  - apply safe_on_session. auto with stugan.
  - apply safe_on_session. intros s. by apply keeps_same.
  - apply safe_end.
  - apply safe_reap.
  - apply safe_writer_take.
  - apply safe_writer_pull.
  - apply safe_link_close.
  - apply safe_shutdown_server.
Qed.

Lemma run_sv_ok ops v : sv_ok v → sv_ok (sv_run ops v).
Proof. revert v. induction ops as [|o ops IH]; intros v Hok; [done|]. simpl. by apply IH, step_sv_ok. Qed.

Lemma new_server_ok o v : new_server o = Some v → sv_ok v.
Proof.
  unfold new_server. destruct (String.eqb _ _); intros; simplify_eq. split; [|constructor].
  split; simpl.
  - intros i s Hl. by rewrite lookup_nil in Hl.
  - intros key i Hl. by rewrite lookup_empty in Hl.
  - intros h i. rewrite lookup_empty. split; [done|]. intros (s & Hl & _). by rewrite lookup_nil in Hl.
  - intros l n Hl. by rewrite lookup_nil in Hl.
Qed.
End runs.

(** ** Theorem *)

(** C6: along every run of the engine its tables agree: the session table leads
    to live sessions under their own key, a handle leads to the session it
    currently claims and to no other, a session is held only by a link of its own
    instance, and a session outside the table is closed with an empty buffer. *)
Theorem tables_agree `{UnicodeTables} o v ops : new_server o = Some v → index_ok (sv_run ops v).
Proof. intros Hnew. apply (run_sv_ok ops v (new_server_ok o v Hnew)). Qed.
