(* ===== verification/EngineBudget.v ===== *)
(** * The global buffer budget

    [budget_ok]: the global count is the sum of every buffer and of the refunds
    that goroutines still have to make, on 64-bit integers.  [reclaim] ends and
    brings the count under its limit, unless the largest buffer is down to its last
    line. *)

From Stdlib Require Import ZArith Lia Ascii.
From stdpp Require Import base tactics list gmap strings.
From S2P Require Import Prelude GoStrings EngineLine LineBuffer Frame EngineSession EngineServer EngineServerInv.

#[local] Open Scope Z_scope.

(** ** The invariant *)

Definition bufs (v : server) : list lineBuffer := map s_buf (sv_heap v).

Definition task_due (t : task) : Z := match t with TRefund n => n | _ => 0 end.

(** Everything that is charged: the buffered lines and the refunds to come. *)
Definition total (v : server) : Z := sumZ cost_sum (bufs v) + sumZ task_due (sv_tasks v).

Definition bytes_ok (b : lineBuffer) : Prop := lb_bytes b = i64 (cost_sum b).

Record budget_ok (v : server) : Prop := {
  bo_used : sv_used v = i64 (total v);
  bo_bytes : Forall bytes_ok (bufs v);
}.

(** What it looks at. *)
Definition money_of (v : server) : list lineBuffer * Z * Z := (bufs v, sv_used v, sumZ task_due (sv_tasks v)).

Lemma budget_ok_ext v v' : money_of v' = money_of v → budget_ok v → budget_ok v'.
Proof. unfold money_of. intros [= E1 E2 E3] []. split; unfold total in *; by rewrite ?E1, ?E2, ?E3. Qed.

(** ** Session operations pay for what they do *)

Definition effect_net (e : effect) : Z := match e with Charge n => n | Refund n => - n | _ => 0 end.
Definition net (es : list effect) : Z := sumZ effect_net es.

Definition pays (b b' : lineBuffer) (n : Z) : Prop :=
  bytes_ok b → bytes_ok b' ∧ i64 (cost_sum b') = i64 (cost_sum b + n).

Lemma pays_refl b : pays b b 0.
Proof. intros Hb. by rewrite Z.add_0_r. Qed.

Lemma pays_trans b1 b2 b3 m n : pays b1 b2 m → pays b2 b3 n → pays b1 b3 (m + n).
Proof.
  intros H1 H2 Hb. destruct (H1 Hb) as [Hb2 E1]. destruct (H2 Hb2) as [Hb3 E2]. split; [done|].
  by rewrite E2, <- i64_add_l, E1, i64_add_l, Z.add_assoc.
Qed.

Lemma net_app es1 es2 : net (es1 ++ es2) = net es1 + net es2.
Proof. apply sumZ_app. Qed.

Lemma pays_push l b : pays b (push l b) (bl_cost l).
Proof.
  intros Hb. unfold bytes_ok, cost_sum, push in *. simpl. rewrite sumZ_app, Hb, i64_add_l. simpl.
  split; f_equal; lia.
Qed.

Lemma pays_drop s : pays (s_buf s) (s_buf (fst (drop_oldest_locked s))) (net (snd (drop_oldest_locked s))).
Proof.
  unfold drop_oldest_locked, drop_oldest. destruct (lb_lines (s_buf s)) as [|l ls] eqn:E; [apply pays_refl|].
  intros Hb. unfold bytes_ok, cost_sum, net in *. rewrite E in *. simpl in *. rewrite Hb, i64_sub_l.
  change (line_cost (bl_line l)) with (bl_cost l). split; f_equal; lia.
Qed.

Lemma pays_cap limit fuel s : pays (s_buf s) (s_buf (fst (cap_loop fuel limit s))) (net (snd (cap_loop fuel limit s))).
Proof.
  revert s. induction fuel as [|fuel IH]; intros s; [apply pays_refl|]. cbn [cap_loop].
  destruct (_ && _); [|apply pays_refl]. pose proof (pays_drop s) as Hd.
  destruct (drop_oldest_locked s) as [s1 es]. specialize (IH s1).
  destruct (cap_loop fuel limit s1) as [s2 es2]. cbn [fst snd] in *. rewrite net_app. by eapply pays_trans.
Qed.

Lemma pays_shed s :
  pays (s_buf s) (s_buf (snd (fst (shed_oldest s)))) (net (snd (shed_oldest s))).
Proof.
  unfold shed_oldest. case_match; [apply pays_refl|]. pose proof (pays_drop s). by destruct (drop_oldest_locked s).
Qed.

Lemma pays_enqueue pick line s :
  pays (s_buf s) (s_buf (fst (enqueue_write pick line s))) (net (snd (enqueue_write pick line s))).
Proof. unfold enqueue_write. repeat case_match; apply pays_refl. Qed.

Lemma pays_ack h q s :
  let '(s', es) := ack h q s in
  bytes_ok (s_buf s) → bytes_ok (s_buf s') ∧ i64 (cost_sum (s_buf s')) = i64 (cost_sum (s_buf s) + net es).
Proof.
  unfold ack. destruct (_ || _); [apply pays_refl|]. unfold ack_through. intros Hb.
  set (n := first_after q (lb_lines (s_buf s))). unfold bytes_ok, cost_sum, net in *. simpl.
  pose proof (freed_sum (take n (lb_lines (s_buf s))) 0) as Hf. rewrite Z.add_0_l in Hf. change (i64 0) with 0 in Hf.
  rewrite Hf, Hb, i64_sub_l, !Z.add_0_r, Z.add_opp_r, !i64_sub_r.
  assert (Hsum : sumZ bl_cost (lb_lines (s_buf s)) =
                 sumZ bl_cost (take n (lb_lines (s_buf s))) + sumZ bl_cost (drop n (lb_lines (s_buf s)))).
  { rewrite <- sumZ_app. by rewrite take_drop. }
  split; f_equal; lia.
Qed.

Section ingest.
Context `{UnicodeTables}.

Lemma pays_ingest limit now pick raw s :
  pays (s_buf s) (s_buf (fst (ingest limit now pick raw s))) (net (snd (ingest limit now pick raw s))).
Proof.
  unfold ingest. destruct (parse_line raw) as [l|]; [|apply pays_refl].
  destruct (Z.ltb _ _); [apply pays_refl|]. destruct (String.eqb _ "PING"); [apply pays_enqueue|].
  destruct (_ && _); [apply pays_refl|]. unfold ingest_locked. destruct (negb _); [apply pays_refl|].
  cbv zeta. set (s1 := update s_buf _ _). pose proof (frozen_track l raw s1) as Hf. set (s2 := track l raw s1) in *.
  pose proof (pays_cap limit (buf_len (s_buf s2)) s2) as Hc. destruct (cap_loop _ _ _) as [s3 es].
  cbn [fst snd] in *. unfold frozen_of in Hf. injection Hf as _ _ _ _ _ _ Eb _. rewrite Eb in Hc.
  assert (Hn : net (Charge (line_cost raw) :: es ++ Reclaim :: notify_link (s_link s3)) = line_cost raw + net es).
  { change (Charge (line_cost raw) :: es ++ Reclaim :: notify_link (s_link s3))
      with ([Charge (line_cost raw)] ++ es ++ [Reclaim] ++ notify_link (s_link s3)).
    rewrite !net_app. unfold net at 1 3. simpl. destruct (s_link s3); unfold net; simpl; lia. }
  rewrite Hn. eapply pays_trans; [|exact Hc]. apply (pays_push (BufferedLine _ now raw)).
Qed.
End ingest.

(** ** Server steps *)

Lemma sumZ_insert {A} (f : A → Z) (l : list A) i x y :
  l !! i = Some x → sumZ f (<[i := y]> l) = sumZ f l - f x + f y.
Proof.
  revert i. induction l as [|a l IH]; intros [|i] Hl; simpl; simplify_eq/=; [lia|]. rewrite (IH _ Hl). lia.
Qed.

Lemma map_insert_same {A B} (g : A → B) (l : list A) i x y :
  l !! i = Some x → g y = g x → map g (<[i := y]> l) = map g l.
Proof.
  revert i. induction l as [|a l IH]; intros [|i] Hl E; simpl; simplify_eq/=; [congruence|]. f_equal. eauto.
Qed.

Lemma map_insert {A B} (g : A → B) (l : list A) i y : map g (<[i := y]> l) = <[i := g y]> (map g l).
Proof. revert i. induction l as [|a l IH]; intros [|i]; simpl; congruence. Qed.

Lemma bufs_lookup v i s : sv_heap v !! i = Some s → bufs v !! i = Some (s_buf s).
Proof. intros Hl. unfold bufs. change (map s_buf (sv_heap v)) with (s_buf <$> sv_heap v). by rewrite list_lookup_fmap, Hl. Qed.

Lemma bufs_bytes v i s : budget_ok v → sv_heap v !! i = Some s → bytes_ok (s_buf s).
Proof. intros [_ Hb] Hl. rewrite Forall_lookup in Hb. eapply Hb. by apply bufs_lookup. Qed.

(** Effects under a lock move the count by their net amount. *)
Lemma money_effects i es v :
  bufs (do_effects i es v) = bufs v ∧ sumZ task_due (sv_tasks (do_effects i es v)) = sumZ task_due (sv_tasks v) ∧
  (∀ t, sv_used v = i64 t → sv_used (do_effects i es v) = i64 (t + net es)).
Proof.
  unfold do_effects. revert v. induction es as [|e es IH]; intros v.
  { split_and!; [done|done|]. intros t Ht. unfold net. simpl. by rewrite Z.add_0_r. }
  simpl. destruct (IH (do_effect i e v)) as (IHb & IHt & IHu).
  assert (He : bufs (do_effect i e v) = bufs v ∧ sumZ task_due (sv_tasks (do_effect i e v)) = sumZ task_due (sv_tasks v) ∧
    ∀ t, sv_used v = i64 t → sv_used (do_effect i e v) = i64 (t + effect_net e)).
  { destruct e; simpl; split_and!; try done; rewrite ?sumZ_app; simpl; try lia; intros t Ht;
      rewrite ?Ht, ?i64_add_l, ?i64_sub_l, ?Z.add_0_r, ?Z.add_opp_r; done. }
  destruct He as (Hb & Ht & Hu). split_and!; [congruence|congruence|].
  intros t E. specialize (Hu t E). rewrite (IHu _ Hu). f_equal. unfold net. simpl. lia.
Qed.

(** Replacing a session and running the effects of the operation. *)
Lemma budget_put i s s' es v :
  sv_heap v !! i = Some s → pays (s_buf s) (s_buf s') (net es) → budget_ok v →
  budget_ok (do_effects i es (put_session i s' v)).
Proof.
  intros Hl Hp Hok. destruct (Hp (bufs_bytes v i s Hok Hl)) as [Hb' Hc]. destruct Hok as [Hu Hb].
  destruct (money_effects i es (put_session i s' v)) as (E1 & E2 & E3).
  assert (Eb : bufs (put_session i s' v) = <[i := s_buf s']> (bufs v)) by (unfold bufs, put_session; simpl; apply map_insert).
  assert (Et : sv_tasks (put_session i s' v) = sv_tasks v) by done.
  split.
  - rewrite (E3 (total v) Hu). unfold total. rewrite E1, E2, Eb, Et, (sumZ_insert _ _ _ _ _ (bufs_lookup v i s Hl)).
    set (A := sumZ cost_sum (bufs v)). set (D := sumZ task_due _).
    replace (A - cost_sum (s_buf s) + cost_sum (s_buf s') + D) with (cost_sum (s_buf s') + (A - cost_sum (s_buf s) + D)) by lia.
    rewrite <- (i64_add_l (cost_sum (s_buf s'))), Hc, i64_add_l. f_equal. lia.
  - rewrite E1, Eb. by apply Forall_insert.
Qed.

Lemma budget_put_same i s s' v :
  sv_heap v !! i = Some s → s_buf s' = s_buf s → budget_ok v → budget_ok (put_session i s' v).
Proof.
  intros Hl E Hok. eapply budget_ok_ext; [|exact Hok]. unfold money_of. f_equal; f_equal.
  unfold bufs, put_session. simpl. by eapply map_insert_same.
Qed.

Lemma budget_on_session i op v :
  (∀ s, pays (s_buf s) (s_buf (fst (op s))) (net (snd (op s)))) → budget_ok v → budget_ok (on_session i op v).
Proof.
  intros Hop Hok. unfold on_session. destruct (sv_heap v !! i) as [s|] eqn:Hl; [|done].
  specialize (Hop s). destruct (op s) as [s' es]. by eapply budget_put.
Qed.

(** As for the index: preservation as a relation. *)
Definition pays_for (v v' : server) : Prop := budget_ok v → budget_ok v'.

Lemma pays_for_trans v1 v2 v3 : pays_for v1 v2 → pays_for v2 v3 → pays_for v1 v3.
Proof. unfold pays_for. auto. Qed.

Lemma budget_spawn t v : task_due t = 0 → pays_for v (spawn t v).
Proof.
  intros Ht. unfold pays_for. apply budget_ok_ext. unfold money_of. f_equal. simpl. rewrite sumZ_app. simpl. lia.
Qed.

Lemma budget_spawn_refund i s s' n v :
  sv_heap v !! i = Some s → (bytes_ok (s_buf s) → bytes_ok (s_buf s') ∧ i64 (cost_sum (s_buf s')) = i64 (cost_sum (s_buf s) - n)) →
  budget_ok v → budget_ok (spawn (TRefund n) (put_session i s' v)).
Proof.
  intros Hl Hp Hok. destruct (Hp (bufs_bytes v i s Hok Hl)) as [Hb' Hc]. destruct Hok as [Hu Hb].
  assert (Eb : bufs (put_session i s' v) = <[i := s_buf s']> (bufs v)) by (unfold bufs, put_session; simpl; apply map_insert).
  split.
  - change (sv_used (spawn (TRefund n) (put_session i s' v))) with (sv_used v). rewrite Hu. unfold total.
    change (bufs (spawn (TRefund n) (put_session i s' v))) with (bufs (put_session i s' v)).
    rewrite Eb, (sumZ_insert _ _ _ _ _ (bufs_lookup v i s Hl)).
    change (sv_tasks (spawn (TRefund n) (put_session i s' v))) with (sv_tasks v ++ [TRefund n]).
    rewrite sumZ_app. simpl. set (A := sumZ cost_sum (bufs v)). set (D := sumZ task_due _).
    replace (A - cost_sum (s_buf s) + cost_sum (s_buf s') + (D + (n + 0)))
      with (cost_sum (s_buf s') + (A - cost_sum (s_buf s) + D + n)) by lia.
    rewrite <- (i64_add_l (cost_sum (s_buf s'))), Hc, i64_add_l. f_equal. lia.
  - change (bufs (spawn (TRefund n) (put_session i s' v))) with (bufs (put_session i s' v)).
    rewrite Eb. by apply Forall_insert.
Qed.

Lemma budget_forget i v : pays_for v (forget_locked i v).
Proof.
  unfold pays_for, forget_locked. destruct (sv_heap v !! i) as [s|] eqn:Hl; [|done]. cbn [clear]. unfold clear.
  intros Hok. set (s' := update s_buf _ s).
  eapply (budget_ok_ext (spawn (TRefund (lb_bytes (s_buf s))) (put_session i s' v))); [done|].
  eapply budget_spawn_refund; [done| |done]. intros Hb. split; [done|].
  subst s'. simpl. change (cost_sum (LineBuffer [] 0)) with 0. unfold bytes_ok in Hb. rewrite Hb, i64_sub_r. f_equal. lia.
Qed.

Lemma budget_shutdown i reason v : pays_for v (fst (fst (shutdown_session i reason v))).
Proof.
  unfold pays_for, shutdown_session. destruct (sv_heap v !! i) as [s|] eqn:Hl; [|done].
  assert (Hp : pays (s_buf s) (s_buf (fst (fst (shutdown reason s)))) (net (snd (shutdown reason s)))).
  { unfold shutdown. case_bool_decide; [apply pays_refl|]. cbn [snd fst]. destruct (s_conn s); apply pays_refl. }
  destruct (shutdown reason s) as [[s' [l did]] es]. cbn [fst snd] in *. by eapply budget_put.
Qed.

Lemma budget_end i reason v : pays_for v (end_session i reason v).
Proof.
  unfold end_session. pose proof (budget_shutdown i reason v) as Hs.
  destruct (shutdown_session i reason v) as [[v' l] did]. cbn [fst] in Hs.
  destruct did; [|done]. eapply pays_for_trans; [exact Hs|by apply budget_spawn].
Qed.

Lemma pays_for_refl v : pays_for v v.
Proof. by intros Hok. Qed.

Lemma pays_for_ext v v' : money_of v' = money_of v → pays_for v v'.
Proof. intros E Hok. by apply (budget_ok_ext v). Qed.

Lemma pays_for_foldl {A} (f : server → A → server) (l : list A) v :
  (∀ v a, pays_for v (f v a)) → pays_for v (foldl f v l).
Proof.
  intros Hf. revert v. induction l as [|a l IH]; intros v; [apply pays_for_refl|]. simpl.
  eapply pays_for_trans; [apply Hf|apply IH].
Qed.

Lemma budget_put_keep i s s' v : sv_heap v !! i = Some s → s_buf s' = s_buf s → pays_for v (put_session i s' v).
Proof. intros Hl E Hok. by eapply budget_put_same. Qed.

Lemma buf_detach now l s : s_buf (snd (detach_locked now l s)) = s_buf s.
Proof. unfold detach_locked. by case_match. Qed.

Lemma buf_pull l n s : s_buf (fst (fst (fst (pull l n s)))) = s_buf s.
Proof.
  unfold pull, pull_lines. destruct (negb _); [done|]. cbv zeta.
  destruct (bool_decide (s_state _ = stateDialing)); by destruct (_ && _).
Qed.

Lemma budget_replace now i s v : sv_heap v !! i = Some s → pays_for v (connect_replace now i s v).
Proof.
  intros Hl. unfold connect_replace. set (v1 := match s_link s with Some h => _ | None => v end).
  assert (H1 : pays_for v v1).
  { subst v1. destruct (s_link s) as [h|]; [|apply pays_for_refl].
    apply (pays_for_trans _ (link_send h (eframe OpDetached (s_handle s) "replaced by a new connection") (remove_session h i v)));
      [by apply pays_for_ext|]. eapply (budget_put_keep i s); [done|apply buf_detach]. }
  pose proof (budget_shutdown i "replaced by a new connection" v1) as H2.
  destruct (shutdown_session i _ v1) as [[v2 l] did]. cbn [fst] in H2.
  eapply pays_for_trans; [exact H1|]. eapply pays_for_trans; [exact H2|]. apply budget_forget.
Qed.

Lemma budget_attach now l f i s v : sv_heap v !! i = Some s → pays_for v (connect_attach now l f i s v).
Proof.
  intros Hl Hok. eapply budget_ok_ext; [|exact Hok]. unfold connect_attach, money_of.
  destruct (s_link s) as [h|]; f_equal; f_equal; unfold bufs; simpl; by eapply map_insert_same.
Qed.

Lemma budget_fresh now l k f key v : pays_for v (connect_fresh now l k f key v).
Proof.
  intros [Hu Hb]. set (v' := connect_fresh now l k f key v).
  assert (Eb : bufs v' = bufs v ++ [empty_buffer]) by (subst v'; unfold bufs, connect_fresh; simpl; by rewrite map_app).
  assert (Et : sv_tasks v' = sv_tasks v ++ [TDial (length (sv_heap v))]) by done.
  assert (Eu : sv_used v' = sv_used v) by done. clearbody v'.
  split.
  - rewrite Eu, Hu. unfold total. rewrite Eb, Et, !sumZ_app. simpl. f_equal.
    change (cost_sum empty_buffer) with 0. lia.
  - rewrite Eb. apply Forall_app. split; [done|]. by repeat constructor.
Qed.

Lemma budget_connect now l f v : pays_for v (handle_connect now l f v).
Proof.
  unfold handle_connect. destruct (sv_links v !! l) as [k|]; [|apply pays_for_refl].
  destruct (_ || _); [by apply pays_for_ext|]. destruct (split_host_port _); [by apply pays_for_ext|].
  cbv zeta. destruct (sv_closed v); [by apply pays_for_ext|]. case_bool_decide; [by apply pays_for_ext|].
  destruct (_ ≫= _) as [[i s]|] eqn:E; [|apply budget_fresh].
  assert (Hl : sv_heap v !! i = Some s).
  { destruct (sv_sessions v !! _); cbn [mbind option_bind] in E; [|done].
    destruct (sv_heap v !! n) eqn:En; cbn [mbind option_bind] in E; by simplify_eq. }
  destruct (match _ with Some hk => _ | None => false end); [by apply pays_for_ext|].
  destruct (reusable _ _); [by apply budget_attach|].
  eapply pays_for_trans; [by apply budget_replace|apply budget_fresh].
Qed.

(** The session a table entry leads to. *)
Lemma found_session (o : option sid) v i s :
  (j ← o; t ← sv_heap v !! j; Some (j, t)) = Some (i, s) → sv_heap v !! i = Some s.
Proof.
  destruct o as [j|]; cbn [mbind option_bind]; [|done].
  destruct (sv_heap v !! j) eqn:En; cbn [mbind option_bind]; [|done]. intros; by simplify_eq.
Qed.

Lemma budget_ack k f v : pays_for v (handle_ack k f v).
Proof.
  unfold handle_ack. destruct (_ ≫= _) as [[i s]|] eqn:E; [|apply pays_for_refl]. apply found_session in E as Hl.
  assert (Hes : snd (ack (f_handle f) (f_seq f) s) = [] ∧ fst (ack (f_handle f) (f_seq f) s) = s ∨
                ∃ n, snd (ack (f_handle f) (f_seq f) s) = [Refund n]).
  { unfold ack. destruct (_ || _); [by left|]. right. destruct (ack_through _ _) as [freed b]. by exists freed. }
  pose proof (pays_ack (f_handle f) (f_seq f) s) as Hp. destruct (ack _ _ s) as [s' es]. cbn [fst snd] in Hes.
  destruct Hes as [[-> ->]|[n ->]]; simpl; [by apply (budget_put_keep i s)|].
  intros Hok. eapply budget_spawn_refund; [done| |done]. unfold net in Hp. simpl in Hp.
  by rewrite Z.add_0_r, Z.add_opp_r in Hp.
Qed.

Lemma budget_frame now pick l f v : pays_for v (handle_frame now pick l f v).
Proof.
  unfold handle_frame. destruct (sv_links v !! l) as [k|]; [|apply pays_for_refl]. cbv zeta.
  destruct (String.eqb _ OpPing); [by apply pays_for_ext|]. destruct (String.eqb _ OpPong); [apply pays_for_refl|].
  destruct (String.eqb _ OpConnect); [apply budget_connect|].
  destruct (String.eqb _ OpWrite).
  { unfold handle_write. destruct (_ || _); [apply pays_for_refl|].
    destruct (_ ≫= _) as [[i s]|]; [|apply pays_for_refl]. destruct (_ && _); [|apply pays_for_refl].
    intros Hok. apply budget_on_session; [|done]. intros. apply pays_enqueue. }
  destruct (String.eqb _ OpAck); [apply budget_ack|].
  destruct (String.eqb _ OpDetach).
  { unfold handle_detach. destruct (_ ≫= _) as [[i s]|] eqn:E; [|apply pays_for_refl].
    apply found_session in E as Hl. set (p := if String.eqb _ _ then _ else _).
    assert (Hb : s_buf (snd p) = s_buf s) by (subst p; destruct (String.eqb _ _); [apply buf_detach|done]).
    destruct p as [detached s']. cbn [snd] in Hb. pose proof (budget_put_keep i s s' v Hl Hb) as Hp.
    destruct (negb detached); [done|]. eapply pays_for_trans; [exact Hp|].
    eapply pays_for_trans; [by apply (pays_for_ext _ (remove_session l i (put_session i s' v)))|].
    destruct (bool_decide _); [apply budget_forget|apply pays_for_refl]. }
  destruct (String.eqb _ OpClose); [|by apply pays_for_ext].
  unfold handle_close. destruct (_ ≫= _) as [[i s]|] eqn:E; [|apply pays_for_refl].
  apply found_session in E as Hl. destruct (_ && _); [|apply pays_for_refl].
  eapply pays_for_trans; [apply (budget_put_keep i s (snd (detach_locked now l s) <| s_finished := true |>) v Hl); apply (buf_detach now l s)|].
  eapply pays_for_trans; [by eapply (pays_for_ext _ (remove_session l i _))|]. by apply (budget_spawn (TShut i _)).
Qed.

Lemma budget_link_close now l v : pays_for v (link_close now l v).
Proof.
  unfold link_close. destruct (sv_links v !! l) as [k|]; [|apply pays_for_refl].
  destruct (lk_closed k); [apply pays_for_refl|]. cbv zeta.
  eapply pays_for_trans; [|apply pays_for_foldl]; [by apply pays_for_ext|]. intros v' i. unfold close_held.
  destruct (sv_heap v' !! i) as [s|] eqn:Hl; [|apply pays_for_refl]. pose proof (buf_detach now l s) as Hb.
  destruct (detach_locked now l s) as [detached s']. cbn [snd] in Hb.
  pose proof (budget_put_keep i s s' v' Hl Hb) as Hp. destruct (_ && _); [|done].
  eapply pays_for_trans; [exact Hp|]. apply budget_forget.
Qed.

Lemma budget_round order v : pays_for v (fst (reclaim_round order v)).
Proof.
  unfold reclaim_round. destruct (Z.leb _ _); [apply pays_for_refl|].
  destruct (largest order v) as [i|]; [|apply pays_for_refl].
  destruct (sv_heap v !! i) as [s|] eqn:Hl; [|apply pays_for_refl]. pose proof (pays_shed s) as Hp.
  destruct (shed_oldest s) as [[ok s'] es]. cbn [fst snd] in *. intros Hok. by eapply budget_put.
Qed.

Lemma sumZ_delete {A} (f : A → Z) (l : list A) k x : l !! k = Some x → sumZ f (delete k l) = sumZ f l - f x.
Proof.
  revert k. induction l as [|a l IH]; intros [|k] Hl; simplify_eq/=; [lia|].
  change (delete (S k) (a :: l)) with (a :: delete k l). simpl. rewrite (IH _ Hl). lia.
Qed.

Lemma budget_run_task err order t v :
  (∀ n, t ≠ TRefund n) → pays_for v (run_task err order t v).
Proof.
  intros Hn. destruct t as [n| |i reason|i l|i reason|i|i]; cbn [run_task].
  - by destruct (Hn n).
  - pose proof (budget_round order v) as Hr. destruct (reclaim_round order v) as [v' again]. cbn [fst] in Hr.
    destruct again; [|done]. eapply pays_for_trans; [exact Hr|by apply budget_spawn].
  - apply budget_end.
  - destruct l; [by apply pays_for_ext|apply budget_forget].
  - destruct (sv_heap v !! i); [|apply pays_for_refl]. pose proof (budget_shutdown i reason v) as Hs.
    destruct (shutdown_session i reason v) as [[v' l] did]. cbn [fst] in Hs.
    eapply pays_for_trans; [exact Hs|by apply budget_spawn].
  - apply budget_forget.
  - destruct (sv_heap v !! i) as [s|] eqn:Hl; [|apply pays_for_refl].
    assert (Hp : pays (s_buf s) (s_buf (fst (fst (dial_done err s)))) (net (snd (fst (dial_done err s))))).
    { unfold dial_done. case_bool_decide; [destruct err; apply pays_refl|]. destruct err; [apply pays_refl|].
      cbv zeta. cbn [fst snd]. set (s1 := update s_ctrl _ _).
      assert (net (notify_link (s_link s1)) = 0) as -> by (by destruct (s_link s1)). apply pays_refl. }
    destruct (dial_done err s) as [[s' es] rel]. cbn [fst snd] in Hp.
    assert (Hs : pays_for v (do_effects i es (put_session i s' v))) by (intros Hok; by eapply budget_put).
    destruct rel; [|done]. eapply pays_for_trans; [exact Hs|by apply budget_spawn].
Qed.

Lemma budget_otask k err order t v :
  sv_tasks v !! k = Some t → pays_for v (run_task err order t (v <| sv_tasks ::= delete k |>)).
Proof.
  intros Ht. set (v1 := update sv_tasks _ v).
  assert (Ed : sumZ task_due (sv_tasks v1) = sumZ task_due (sv_tasks v) - task_due t) by (by apply sumZ_delete).
  assert (Hcase : (∃ n, t = TRefund n) ∨ ∀ n, t ≠ TRefund n) by (destruct t; eauto; by right).
  destruct Hcase as [[n ->]|Hn].
  - cbn [run_task]. intros [Hu Hb]. split; [|done].
    change (sv_used (refund n v1)) with (i64 (sv_used v - n)). rewrite Hu, i64_sub_l. f_equal. unfold total.
    change (sumZ task_due (sv_tasks (refund n v1))) with (sumZ task_due (sv_tasks v1)).
    change (bufs (refund n v1)) with (bufs v). rewrite Ed. simpl. lia.
  - eapply pays_for_trans; [|by apply budget_run_task]. apply pays_for_ext. unfold money_of.
    rewrite Ed. assert (task_due t = 0) as -> by (destruct t; try done; by destruct (Hn n)). f_equal. lia.
Qed.

Section runs.
Context `{UnicodeTables}.

Lemma step_budget o v : budget_ok v → budget_ok (sv_step o v).
Proof.
  intros Hok. destruct o as [f|now pick l f|k err order|now pick i raw|pick i|i|i reason|now|l|l i|now l|now];
    cbn [sv_step].
  - unfold serve_hello. repeat (case_match; try done). by apply (budget_ok_ext v).
  - by apply budget_frame.
  - destruct (sv_tasks v !! k) as [t|] eqn:Ht; [|done]. by apply (budget_otask k).
  - apply budget_on_session; [|done]. intros. apply pays_ingest.
  - apply budget_on_session; [|done]. intros. apply pays_enqueue.
  - apply budget_on_session; [|done]. intros. apply pays_refl.
  - by apply budget_end.
  - unfold reap. apply pays_for_foldl; [|done]. intros v' [key i]. destruct (_ ≫= _); [by apply budget_spawn|apply pays_for_refl].
  - unfold writer_take. destruct (sv_links v !! l); [by apply (budget_ok_ext v)|done].
  - unfold writer_pull. destruct (sv_heap v !! i) as [s|] eqn:Hl; [|done]. pose proof (buf_pull l pull_batch s) as Hb.
    destruct (pull l pull_batch s) as [[[s' fs] dn] stale]. cbn [fst] in *.
    pose proof (budget_put_keep i s s' v Hl Hb Hok) as Hp.
    assert (Hp2 : budget_ok (if stale || dn then remove_session l i (put_session i s' v) else put_session i s' v)).
    { destruct (_ || _); [by apply (budget_ok_ext (put_session i s' v))|done]. }
    destruct dn; [by apply budget_spawn|done].
  - by apply budget_link_close.
  - unfold shutdown_server. cbv zeta. apply pays_for_foldl; [intros; apply budget_end|].
    apply pays_for_foldl; [intros; apply budget_link_close|]. by apply (budget_ok_ext v).
Qed.

Lemma run_budget ops v : budget_ok v → budget_ok (sv_run ops v).
Proof. revert v. induction ops as [|o ops IH]; intros v Hok; [done|]. simpl. by apply IH, step_budget. Qed.
End runs.

Lemma new_server_budget o v : new_server o = Some v → budget_ok v.
Proof. unfold new_server. destruct (String.eqb _ _); intros; simplify_eq. split; [done|constructor]. Qed.

(** ** Reclaiming *)

(** What [largest] returns, met in any order. *)
Lemma largest_fold order v best size :
  (∀ i, best = Some i → ∃ s, sv_heap v !! i = Some s ∧ lb_bytes (s_buf s) = size) → 0 ≤ size →
  let '(b, n) := foldl (λ '(best, size) i,
         match sv_heap v !! i with
         | Some s => if Z.ltb size (lb_bytes (s_buf s)) then (Some i, lb_bytes (s_buf s)) else (best, size)
         | None => (best, size)
         end) (best, size) order in
  (∀ i, b = Some i → (i ∈ order ∨ best = Some i) ∧ ∃ s, sv_heap v !! i = Some s ∧ lb_bytes (s_buf s) = n) ∧
  size ≤ n ∧ (b = None → best = None ∧ n = size) ∧
  (∀ j s, j ∈ order → sv_heap v !! j = Some s → lb_bytes (s_buf s) ≤ n).
Proof.
  revert best size. induction order as [|j order IH]; intros best size Hb Hn.
  { simpl. split_and!; [intros i Hi; split; [by right|by apply Hb]|lia|done|].
    intros j s Hj. by apply not_elem_of_nil in Hj. }
  cbn [foldl]. destruct (sv_heap v !! j) as [t|] eqn:Hj.
  - destruct (Z.ltb_spec size (lb_bytes (s_buf t))) as [Hlt|Hge].
    + specialize (IH (Some j) (lb_bytes (s_buf t))). destruct (foldl _ _ order) as [b n].
      destruct IH as (H1 & H2 & H3 & H4); [intros i [= <-]; by exists t|lia|]. split_and!.
      * intros i Hi. destruct (H1 i Hi) as [[Ho|[= <-]] Hs]; (split; [left; set_solver|done]).
      * lia.
      * intros Hx. by destruct (H3 Hx).
      * intros i s [->|Hi]%elem_of_cons Hl; [simplify_eq; lia|eauto].
    + specialize (IH best size Hb Hn). destruct (foldl _ _ order) as [b n].
      destruct IH as (H1 & H2 & H3 & H4). split_and!; [|done|done|].
      * intros i Hi. destruct (H1 i Hi) as [[Ho|Ho] Hs]; (split; [set_solver|done]).
      * intros i s [->|Hi]%elem_of_cons Hl; [simplify_eq; lia|eauto].
  - specialize (IH best size Hb Hn). destruct (foldl _ _ order) as [b n].
    destruct IH as (H1 & H2 & H3 & H4). split_and!; [|done|done|].
    + intros i Hi. destruct (H1 i Hi) as [[Ho|Ho] Hs]; (split; [set_solver|done]).
    + intros i s [->|Hi]%elem_of_cons Hl; [simplify_eq|eauto].
Qed.

(** Nothing is left to reclaim: the count fits, or no buffer holds a byte, or the
    largest one is down to a line. *)
Definition settled (order : list sid) (v : server) : Prop :=
  sv_used v ≤ o_totalBufferBytes (sv_opts v) ∨
  (∀ j s, j ∈ order → sv_heap v !! j = Some s → lb_bytes (s_buf s) ≤ 0) ∨
  ∃ i t, i ∈ order ∧ sv_heap v !! i = Some t ∧ (buf_len (s_buf t) ≤ 1)%nat ∧
    ∀ j s, j ∈ order → sv_heap v !! j = Some s → lb_bytes (s_buf s) ≤ lb_bytes (s_buf t).

(** The lines buffered anywhere: what [reclaim] can take at most. *)
Definition line_count (v : server) : Z := sumZ (λ s, Z.of_nat (buf_len (s_buf s))) (sv_heap v).

Lemma shed_lines s :
  let '(ok, s', _) := shed_oldest s in
  if ok then S (buf_len (s_buf s')) = buf_len (s_buf s) else s' = s ∧ (buf_len (s_buf s) ≤ 1)%nat.
Proof.
  unfold shed_oldest. destruct (Nat.leb_spec (buf_len (s_buf s)) 1); [done|].
  unfold drop_oldest_locked, drop_oldest, buf_len in *. by destruct (lb_lines (s_buf s)); simpl in *; [lia|].
Qed.

Lemma round_settles order v :
  let '(v', again) := reclaim_round order v in
  if again then line_count v' = line_count v - 1 else v' = v ∧ settled order v.
Proof.
  unfold reclaim_round, settled. destruct (Z.leb_spec (sv_used v) (o_totalBufferBytes (sv_opts v))) as [Hle|Hgt]; [auto|].
  pose proof (largest_fold order v None 0 ltac:(done) ltac:(lia)) as Hlg. unfold largest.
  destruct (foldl _ _ order) as [b n]. destruct Hlg as (H1 & H2 & H3 & H4). cbn [fst].
  destruct b as [i|].
  2: { split; [done|]. right. left. destruct H3 as [_ ->]; [done|]. done. }
  destruct (H1 i eq_refl) as ([Ho|Ho] & s & Hl & Hn); [|done]. rewrite Hl.
  pose proof (shed_lines s) as Hsh. destruct (shed_oldest s) as [[ok s'] es] eqn:Es. destruct ok.
  - pose proof (index_effects i es (put_session i s' v)) as Hix. unfold index_of in Hix. injection Hix as Eh _ _ _.
    unfold line_count. rewrite Eh. unfold put_session. simpl. rewrite (sumZ_insert _ _ _ _ _ Hl). lia.
  - destruct Hsh as [-> Hlen]. assert (es = []) as ->.
    { unfold shed_oldest in Es. destruct (Nat.leb_spec (buf_len (s_buf s)) 1); [by simplify_eq|].
      by destruct (drop_oldest_locked s); simplify_eq. }
    unfold do_effects. simpl. split.
    + unfold put_session. simpl. rewrite (list_insert_id _ i s) by done. by destruct v.
    + right. right. exists i, s. split_and!; [done|done|done|]. rewrite Hn. done.
Qed.

Lemma line_count_nonneg v : 0 ≤ line_count v.
Proof. apply sumZ_nonneg. lia. Qed.

(** ** Theorems *)

(** Run to its end, [reclaim] stops, and stops only when the bytes fit the
    global limit, no buffer holds anything, or the largest buffer is down to one
    line; one round per buffered line is enough. *)
Theorem reclaim_settles order fuel v :
  line_count v < Z.of_nat fuel → settled order (reclaim fuel order v).
Proof.
  revert v. induction fuel as [|fuel IH]; intros v Hf; [pose proof (line_count_nonneg v); lia|]. cbn [reclaim].
  pose proof (round_settles order v) as Hr. destruct (reclaim_round order v) as [v' again].
  destruct again; [apply IH; lia|]. by destruct Hr as [-> Hs].
Qed.

(** C7: along every run of the engine the global byte count is exactly the bytes
    buffered for all sessions plus the refunds goroutines still have to make, as
    long as that sum fits a 64-bit integer. *)
Theorem budget_exact `{UnicodeTables} o v ops :
  new_server o = Some v → let v' := sv_run ops v in
  - 2 ^ 63 ≤ total v' < 2 ^ 63 → sv_used v' = total v'.
Proof.
  intros Hnew v' Hr. destruct (run_budget ops v (new_server_budget o v Hnew)) as [Hu _].
  unfold v'. rewrite Hu. by apply i64_small.
Qed.
