(* ===== verification/EngineServerThms.v ===== *)
(** * Properties of the engine's server

    Which sessions a frame can touch, who may end a socket, what a connect and a
    closing link leave behind. *)

From Stdlib Require Import ZArith Lia Ascii.
From stdpp Require Import base tactics list gmap strings.
From S2P Require Import Prelude GoStrings EngineLine LineBuffer Frame EngineSession EngineServer EngineServerInv EngineBudget.

#[local] Open Scope Z_scope.

(** ** What a step touches *)

(** Sessions outside [P] keep their state and their table entry. *)
Record touches (P : sid → Prop) (v v' : server) : Prop := {
  to_heap : ∀ j s, ¬ P j → sv_heap v !! j = Some s → sv_heap v' !! j = Some s;
  to_table : ∀ j key, ¬ P j → sv_sessions v !! key = Some j → sv_sessions v' !! key = Some j;
}.

Lemma touches_refl P v : touches P v v.
Proof. by split. Qed.

Lemma touches_trans P v1 v2 v3 : touches P v1 v2 → touches P v2 v3 → touches P v1 v3.
Proof. intros [] []. split; auto. Qed.

Lemma touches_index P v v' : index_of v' = index_of v → touches P v v'.
Proof. unfold index_of. intros [= E1 _ E3 _]. split; by rewrite ?E1, ?E3. Qed.

Lemma touches_put (P : sid → Prop) i s' v : P i → touches P v (put_session i s' v).
Proof.
  intros Hi. split; [|done]. intros j s Hj Hl. unfold put_session. simpl.
  rewrite list_lookup_insert_ne; [done|]. by intros ->.
Qed.

Lemma touches_forget (P : sid → Prop) i v : P i → touches P v (forget_locked i v).
Proof.
  intros Hi. split.
  - intros j s Hj Hl. rewrite forget_heap. destruct (sv_heap v !! i); [|done].
    rewrite list_lookup_insert_ne; [done|]. by intros ->.
  - intros j key Hj Hl. unfold forget_locked. destruct (sv_heap v !! i); [|done]. unfold clear. simpl.
    apply delete_mine_lookup. split; [done|]. intros [_ ->]. done.
Qed.

Lemma touches_shutdown (P : sid → Prop) i reason v : P i → touches P v (fst (fst (shutdown_session i reason v))).
Proof.
  intros Hi. destruct (sv_heap v !! i) as [s|] eqn:Hl.
  - destruct (shutdown_session_spec i s reason v Hl) as (s' & _ & Hix & _).
    eapply touches_trans; [by apply (touches_put P i s')|by apply touches_index].
  - unfold shutdown_session. rewrite Hl. apply touches_refl.
Qed.

Lemma touches_on_session (P : sid → Prop) i op v : P i → touches P v (on_session i op v).
Proof.
  intros Hi. unfold on_session. destruct (sv_heap v !! i) as [s|]; [|apply touches_refl].
  destruct (op s) as [s' es]. eapply touches_trans; [by apply (touches_put P i s')|].
  apply touches_index. apply index_effects.
Qed.

Lemma touches_attach (P : sid → Prop) now l f i s v : P i → touches P v (connect_attach now l f i s v).
Proof.
  intros Hi. pose proof (connect_attach_index now l f i s v) as Hix.
  set (v' := connect_attach now l f i s v) in *. clearbody v'. unfold index_of in Hix. injection Hix as E1 _ E3 _.
  split; rewrite ?E1, ?E3; [|done]. intros j t Hj Hl. rewrite list_lookup_insert_ne; [done|]. by intros ->.
Qed.

Lemma touches_replace (P : sid → Prop) now i s v : P i → touches P v (connect_replace now i s v).
Proof.
  intros Hi. unfold connect_replace. set (v1 := match s_link s with Some h => _ | None => v end).
  assert (H1 : touches P v v1).
  { subst v1. destruct (s_link s) as [h|]; [|apply touches_refl].
    eapply touches_trans; [|by apply touches_put]. apply touches_index. by rewrite index_send, index_remove. }
  pose proof (touches_shutdown P i "replaced by a new connection" v1 Hi) as H2.
  destruct (shutdown_session i _ v1) as [[v2 l] did]. cbn [fst] in H2.
  eapply touches_trans; [exact H1|]. eapply touches_trans; [exact H2|]. by apply touches_forget.
Qed.

Lemma touches_fresh (P : sid → Prop) now l k f key v :
  (∀ j, sv_sessions v !! key = Some j → P j) → touches P v (connect_fresh now l k f key v).
Proof.
  intros Hk. pose proof (connect_fresh_index now l k f key v) as Hix.
  set (v' := connect_fresh now l k f key v) in *. clearbody v'. unfold index_of in Hix. injection Hix as E1 _ E3 _.
  split; rewrite ?E1, ?E3.
  - intros j s _ Hl. by apply lookup_app_l_Some.
  - intros j key' Hj Hl. rewrite lookup_insert_ne; [done|]. intros <-. by apply Hj, Hk.
Qed.

(** ** Frames and instances *)

(** The sessions of instance [n] (and the slots no session has yet). *)
Definition in_instance (v : server) (n : string) (i : sid) : Prop :=
  ∀ s, sv_heap v !! i = Some s → s_instance s = n.

Lemma key_in_instance v n id i :
  index_ok v → no_byte NUL n = true → sv_sessions v !! session_key n id = Some i → in_instance v n i.
Proof. intros Hok Hn Hk s Hl. by destruct (lookup_by_key v n id i s Hok Hn Hk Hl) as (_ & _ & ? & _). Qed.

Lemma link_in_instance v l k i s :
  index_ok v → sv_links v !! l = Some k → sv_heap v !! i = Some s → s_link s = Some l → in_instance v (lk_instance k) i.
Proof.
  intros Hok Hk Hl Hs t Ht. assert (t = s) as -> by congruence.
  destruct (ok_shape v Hok i s Hl) as [_ _ _ Hli _].
  specialize (Hli l Hs). rewrite (instances_lookup v l k Hk) in Hli. by simplify_eq.
Qed.

Lemma connect_touches now l k f v :
  index_ok v → sv_links v !! l = Some k → touches (in_instance v (lk_instance k)) v (handle_connect now l f v).
Proof.
  intros Hok Hlk. assert (Hn : no_byte NUL (lk_instance k) = true) by (eapply (ok_instances v Hok l); by apply instances_lookup).
  unfold handle_connect. rewrite Hlk.
  destruct (_ || _); [by apply touches_index, index_send|]. destruct (split_host_port _); [by apply touches_index, index_send|].
  cbv zeta. destruct (sv_closed v); [by apply touches_index, index_send|].
  case_bool_decide; [by apply touches_index, index_send|].
  destruct (_ ≫= _) as [[i s]|] eqn:E.
  - assert (Hk : sv_sessions v !! session_key (lk_instance k) (f_id f) = Some i).
    { destruct (sv_sessions v !! _) as [j|]; cbn [mbind option_bind] in E; [|done].
      destruct (sv_heap v !! j); cbn [mbind option_bind] in E; by simplify_eq. }
    pose proof (key_in_instance v _ _ i Hok Hn Hk) as Hi. apply found_session in E as Hl.
    destruct (match _ with Some hk => _ | None => false end); [by apply touches_index, index_send|].
    destruct (reusable _ _); [by apply touches_attach|].
    eapply touches_trans; [by apply touches_replace|]. apply touches_fresh.
    destruct (lookup_by_key v _ _ i s Hok Hn Hk Hl) as (Hlist & Hkey & _).
    destruct (connect_replace_spec now i s v Hl Hlist Hok) as (_ & Hno & _). rewrite <- Hkey, Hno. done.
  - apply touches_fresh. intros j Hj. by apply (key_in_instance v _ _ j Hok Hn Hj).
Qed.

Lemma detach_touches now l f v k :
  index_ok v → sv_links v !! l = Some k → touches (in_instance v (lk_instance k)) v (handle_detach now l f v).
Proof.
  intros Hok Hlk. unfold handle_detach. destruct (_ ≫= _) as [[i s]|] eqn:E; [|apply touches_refl].
  apply found_session in E as Hl.
  destruct (decide (s_link s = Some l)) as [Hs|Hs].
  - pose proof (link_in_instance v l k i s Hok Hlk Hl Hs) as Hi. destruct (if String.eqb _ _ then _ else _) as [d s'].
    pose proof (touches_put _ i s' v Hi) as Hp. destruct (negb d); [done|]. eapply touches_trans; [exact Hp|].
    eapply touches_trans; [apply touches_index, (index_remove l i)|].
    destruct (bool_decide _); [by apply touches_forget|apply touches_refl].
  - assert (Hd : (if String.eqb (s_handle s) (f_handle f) then detach_locked now l s else (false, s)) = (false, s)).
    { unfold detach_locked. rewrite bool_decide_eq_false_2 by done. by destruct (String.eqb _ _). }
    rewrite Hd. cbn [negb]. apply touches_index. unfold index_of, put_session. simpl. by rewrite list_insert_id.
Qed.

(** ** Theorems *)

(** Session [i] keeps its state and its place in the table. *)
Definition untouched (i : sid) (s : session) (v v' : server) : Prop :=
  sv_heap v' !! i = Some s ∧ (listed v i s → listed v' i s).

(** A frame changes only sessions of the instance its link speaks for:
    every other session keeps its state and its place in the table. *)
Theorem frames_stay_in_instance now pick l k f v i s :
  index_ok v → sv_links v !! l = Some k → sv_heap v !! i = Some s → s_instance s ≠ lk_instance k →
  untouched i s v (handle_frame now pick l f v).
Proof.
  intros Hok Hlk Hl Hne. set (v' := handle_frame now pick l f v). unfold untouched.
  assert (Ht : touches (in_instance v (lk_instance k)) v v').
  { unfold v', handle_frame. rewrite Hlk. cbv zeta.
    destruct (String.eqb _ OpPing); [by apply touches_index, index_send|].
    destruct (String.eqb _ OpPong); [apply touches_refl|].
    destruct (String.eqb _ OpConnect); [by apply connect_touches|].
    destruct (String.eqb _ OpWrite).
    { unfold handle_write. destruct (_ || _); [apply touches_refl|].
      destruct (_ ≫= _) as [[j t]|] eqn:E; [|apply touches_refl]. apply found_session in E as Hj.
      destruct (_ && _) eqn:Hg; [|apply touches_refl]. apply andb_true_iff in Hg as [[_ Hlnk]%andb_true_iff _].
      apply bool_decide_eq_true_1 in Hlnk. apply touches_on_session. by eapply link_in_instance. }
    assert (Hn : no_byte NUL (lk_instance k) = true) by (eapply (ok_instances v Hok l); by apply instances_lookup).
    destruct (String.eqb _ OpAck).
    { unfold handle_ack, lookup_session. destruct (sv_sessions v !! _) as [j|] eqn:Hk; cbn [mbind option_bind]; [|apply touches_refl].
      destruct (sv_heap v !! j) as [t|]; cbn [mbind option_bind]; [|apply touches_refl].
      destruct (ack _ _ t) as [t' es]. eapply touches_trans; [apply (touches_put _ j t'); by eapply key_in_instance|].
      generalize (put_session j t' v) as v1. clear. induction es as [|e es IH]; intros v1; [apply touches_refl|].
      simpl. eapply touches_trans; [|apply IH]. destruct e; apply touches_refl || by apply touches_index. }
    destruct (String.eqb _ OpDetach); [by apply detach_touches|].
    destruct (String.eqb _ OpClose); [|by apply touches_index, index_send].
    unfold handle_close, lookup_session. destruct (sv_sessions v !! _) as [j|] eqn:Hk; cbn [mbind option_bind]; [|apply touches_refl].
    destruct (sv_heap v !! j) as [t|]; cbn [mbind option_bind]; [|apply touches_refl].
    destruct (_ && _); [|apply touches_refl].
    eapply touches_trans; [apply (touches_put _ j); by eapply key_in_instance|].
    apply touches_index. rewrite index_spawn. apply index_remove. }
  assert (Hout : ¬ in_instance v (lk_instance k) i) by (intros Hi; by apply Hne, Hi).
  destruct Ht as [H1 H2]. split; [by apply H1|]. intros Hlist. by apply H2.
Qed.

(** Frame [f] from link [l] names the current claim on session [s]. *)
Definition may_act (l : lid) (f : Frame) (s : session) : Prop :=
  s_handle s = f_handle f ∧ (s_link s = Some l ∨ f_op f = OpClose ∧ s_link s = None).

(** A connect that was superseded cannot act on its successor's socket: a
    write, detach or close leaves a session as it is unless it names the session's
    current handle and comes from the link that holds it (or, for a close, nobody
    holds it). *)
Theorem superseded_handle_inert now pick l f v i s :
  f_op f = OpWrite ∨ f_op f = OpDetach ∨ f_op f = OpClose →
  sv_heap v !! i = Some s →
  ¬ may_act l f s →
  sv_heap (handle_frame now pick l f v) !! i = Some s.
Proof.
  intros Hop Hl Hg. unfold may_act in Hg. unfold handle_frame. destruct (sv_links v !! l) as [k|]; [|done]. cbv zeta.
  destruct Hop as [Hop|[Hop|Hop]]; rewrite Hop; cbn [String.eqb Ascii.eqb Bool.eqb OpWrite OpDetach OpClose OpPing OpPong OpConnect OpAck].
  - unfold handle_write. destruct (_ || _); [done|]. destruct (_ ≫= _) as [[j t]|] eqn:E; [|done].
    apply found_session in E as Hj. destruct (_ && _) eqn:Hc; [|done].
    apply andb_true_iff in Hc as [[Hh Hlk]%andb_true_iff _]. apply String.eqb_eq in Hh. apply bool_decide_eq_true_1 in Hlk.
    destruct (touches_on_session (λ x, x = j) j (enqueue_write pick (text f)) v eq_refl) as [Ht _]. apply Ht; [|done].
    intros ->. simplify_eq. naive_solver.
  - unfold handle_detach. destruct (_ ≫= _) as [[j t]|] eqn:E; [|done]. apply found_session in E as Hj.
    destruct (decide (i = j)) as [<-|Hne].
    + assert (t = s) as -> by congruence.
      assert (Hd : (if String.eqb (s_handle s) (f_handle f) then detach_locked now l s else (false, s)) = (false, s)).
      { destruct (String.eqb_spec (s_handle s) (f_handle f)); [|done]. unfold detach_locked.
        rewrite bool_decide_eq_false_2; [done|]. naive_solver. }
      rewrite Hd. cbn [negb]. unfold put_session. simpl. apply list_lookup_insert_eq. by eapply lookup_lt_Some.
    + destruct (if String.eqb _ _ then _ else _) as [d t'].
      assert (Hp : touches (λ x, x = j) v (put_session j t' v)) by by apply touches_put.
      destruct (negb d); [by apply Hp|].
      assert (Hp2 : touches (λ x, x = j) v (remove_session l j (put_session j t' v))).
      { eapply touches_trans; [exact Hp|]. apply touches_index, index_remove. }
      destruct (bool_decide _); [|by apply Hp2].
      by apply (touches_trans _ _ _ _ Hp2 (touches_forget (λ x, x = j) j _ eq_refl)).
  - unfold handle_close. destruct (_ ≫= _) as [[j t]|] eqn:E; [|done]. apply found_session in E as Hj.
    destruct (_ && _) eqn:Hc; [|done]. apply andb_true_iff in Hc as [Hh Hlk]. apply String.eqb_eq in Hh.
    assert (i ≠ j) by (intros ->; simplify_eq; apply orb_true_iff in Hlk as [H0|H0]; apply bool_decide_eq_true_1 in H0; naive_solver).
    change (sv_heap (spawn _ ?w)) with (sv_heap w).
    match goal with |- sv_heap (remove_session l j ?w) !! i = _ => change (sv_heap w !! i = Some s) end.
    unfold put_session. simpl. by rewrite list_lookup_insert_ne.
Qed.

(** The table's session for [key] is [i], held by link [l]. *)
Definition held_by (v : server) (key : string) (i : sid) (s : session) (l : lid) (k : link) : Prop :=
  sv_sessions v !! key = Some i ∧ sv_heap v !! i = Some s ∧ s_link s = Some l ∧ sv_links v !! l = Some k.

(** A session held by a newer stugan process is not stolen: the older
    process's connect is answered with an error and changes nothing else. *)
Theorem newer_process_keeps now l k l' k' f v i s :
  sv_links v !! l = Some k → held_by v (session_key (lk_instance k) (f_id f)) i s l' k' → l' ≠ l →
  lk_gen k < lk_gen k' →
  ∃ why, handle_connect now l f v = link_send l (eframe OpError (f_handle f) why) v.
Proof.
  intros Hlk (Hk & Hl & Hs & Hlk') Hne Hgen. unfold handle_connect. rewrite Hlk.
  destruct (_ || _); [by eexists|]. destruct (split_host_port _); [by eexists|]. cbv zeta.
  destruct (sv_closed v); [by eexists|]. case_bool_decide; [by eexists|].
  rewrite Hk. cbn [mbind option_bind]. rewrite Hl. cbn [mbind option_bind]. rewrite Hs. cbn [mbind option_bind].
  rewrite bool_decide_eq_false_2 by done. rewrite Hlk'.
  assert (Z.ltb (lk_gen k) (lk_gen k') = true) as -> by (by apply Z.ltb_lt). by eexists.
Qed.

(** A connect frame the engine does not refuse outright. *)
Record connect_valid (v : server) (l : lid) (k : link) (f : Frame) : Prop := {
  cv_link : sv_links v !! l = Some k;
  cv_named : f_id f ≠ "" ∧ f_handle f ≠ "" ∧ f_addr f ≠ "";
  cv_addr : ∃ hp, split_host_port (f_addr f) = inr hp;
  cv_open : sv_closed v = false;
  cv_unused : sv_byHandle v !! f_handle f = None;
  cv_newest : ∀ i s h hk, sv_sessions v !! session_key (lk_instance k) (f_id f) = Some i → sv_heap v !! i = Some s →
    s_link s = Some h → h ≠ l → sv_links v !! h = Some hk → lk_gen hk ≤ lk_gen k;
}.

(** A fresh session is indexed under its key and handle, at the end of the
    heap, and leaves the closed sessions closed. *)
Lemma connect_fresh_claims now l k f key w :
  let n := length (sv_heap w) in
  let w' := connect_fresh now l k f key w in
  sv_sessions w' !! key = Some n ∧ sv_byHandle w' !! f_handle f = Some n ∧
  sv_heap w' !! n = Some (new_session now (lk_instance k) l f key) ∧
  ∀ i0, closed_at (sv_heap w) i0 → closed_at (sv_heap w') i0.
Proof.
  intros n w'. pose proof (connect_fresh_index now l k f key w) as Hix. fold w' in Hix. clearbody w'.
  unfold index_of in Hix. injection Hix as E1 _ E3 E4. rewrite E1, E3, E4.
  split_and!; [apply lookup_insert_eq|apply lookup_insert_eq|by apply list_lookup_middle|].
  intros i0. apply stays_closed_app.
Qed.

(** A replaced session is closed in place: the heap keeps its length. *)
Lemma connect_replace_closes now i s v : sv_heap v !! i = Some s →
  length (sv_heap (connect_replace now i s v)) = length (sv_heap v) ∧
  closed_at (sv_heap (connect_replace now i s v)) i.
Proof.
  intros Hl. unfold connect_replace. set (v1 := match s_link s with Some h => _ | None => v end).
  assert (H1 : length (sv_heap v1) = length (sv_heap v) ∧ ∃ s1, sv_heap v1 !! i = Some s1).
  { subst v1. destruct (s_link s) as [h|]; [|eauto]. unfold put_session. simpl. rewrite length_insert.
    split; [done|]. eexists. apply list_lookup_insert_eq. by eapply lookup_lt_Some. }
  clearbody v1. destruct H1 as (Hlen1 & s1 & Hl1).
  destruct (shutdown_session_spec i s1 "replaced by a new connection" v1 Hl1) as (s2 & Hh & _ & _ & Hst).
  destruct (shutdown_session i _ v1) as [[v2 ll] did]. cbn [fst] in Hh. rewrite forget_heap, Hh.
  rewrite list_lookup_insert_eq by (by eapply lookup_lt_Some). rewrite !length_insert. split; [done|].
  eexists. rewrite list_lookup_insert_eq; [done|]. rewrite length_insert. by eapply lookup_lt_Some.
Qed.

(** C4: connect-or-attach: whatever the engine held before, a valid connect leaves
    its key with exactly one session, claimed by the connecting link under the new
    handle; it is the session found there, with its buffer and its socket,
    exactly if that could be re-attached, and otherwise a new one that is being
    dialed, the old one, if any, being closed and out of the table. *)
Theorem connect_claims now l k f v :
  index_ok v → connect_valid v l k f →
  let key := session_key (lk_instance k) (f_id f) in
  let v' := handle_connect now l f v in
  ∃ i s, sv_sessions v' !! key = Some i ∧ sv_byHandle v' !! f_handle f = Some i ∧ sv_heap v' !! i = Some s ∧
    s_link s = Some l ∧ s_handle s = f_handle f ∧
    ((∃ s0, sv_sessions v !! key = Some i ∧ sv_heap v !! i = Some s0 ∧ reusable (f_fp f) s0 = true ∧
            s = attach_locked now l (f_handle f) s0) ∨
     (i = length (sv_heap v) ∧ s = new_session now (lk_instance k) l f key ∧
      ∀ i0, sv_sessions v !! key = Some i0 →
        ∃ s0, sv_heap v !! i0 = Some s0 ∧ reusable (f_fp f) s0 = false ∧ closed_at (sv_heap v') i0)).
Proof.
  intros Hok [Hlk (Hid & Hhd & Had) [hp Hhp] Hop Hun Hnew] key v'.
  assert (Hn : no_byte NUL (lk_instance k) = true) by (eapply (ok_instances v Hok l); by apply instances_lookup).
  unfold v', handle_connect. rewrite Hlk.
  rewrite (proj2 (String.eqb_neq _ _) Hid), (proj2 (String.eqb_neq _ _) Hhd), (proj2 (String.eqb_neq _ _) Had), Hhp. cbn [orb].
  cbv zeta. rewrite Hop. rewrite bool_decide_eq_false_2 by (rewrite Hun; by intros []). fold key.
  destruct (sv_sessions v !! key) as [i|] eqn:Hk; cbn [mbind option_bind].
  2: { destruct (connect_fresh_claims now l k f key v) as (H1 & H2 & H3 & _). eexists _, _. split_and!; [exact H1|exact H2|exact H3|done|done|].
       right. split_and!; done. }
  destruct (ok_sessions v Hok _ _ Hk) as (s & Hl & Hkey). rewrite Hl. cbn [mbind option_bind].
  assert (Hnewer : match s_link s ≫= λ h, if bool_decide (h = l) then None else sv_links v !! h with
                   | Some hk => Z.ltb (lk_gen k) (lk_gen hk) | None => false end = false).
  { destruct (s_link s) as [h|] eqn:Hs; cbn [mbind option_bind]; [|done]. case_bool_decide; [done|].
    destruct (sv_links v !! h) as [hk|] eqn:Hhk; [|done]. apply Z.ltb_ge. by eapply Hnew. }
  rewrite Hnewer. destruct (lookup_by_key v _ _ i s Hok Hn Hk Hl) as (Hlist & _ & _ & _).
  destruct (reusable (f_fp f) s) eqn:Hr.
  - pose proof (connect_attach_index now l f i s v) as Hix. set (w := connect_attach now l f i s v) in *. clearbody w.
    unfold index_of in Hix. injection Hix as E1 _ E3 E4.
    exists i, (attach_locked now l (f_handle f) s). rewrite E1, E3, E4.
    split_and!; [done|by apply lookup_insert_eq|by apply list_lookup_insert_eq; eapply lookup_lt_Some|done|done|].
    left. by exists s.
  - destruct (connect_replace_spec now i s v Hl Hlist Hok) as (Hs & _ & _ & _).
    destruct (Hs Hok) as [Hok1 _].
    destruct (connect_replace_closes now i s v Hl) as [Hlen Hcl].
    destruct (connect_fresh_claims now l k f key (connect_replace now i s v)) as (H1 & H2 & H3 & H4).
    rewrite Hlen in *.
    eexists _, _. split_and!; [exact H1|exact H2|exact H3|done|done|].
    right. split_and!; [done|done|]. intros i0 [= <-]. exists s. split_and!; [done|done|by apply H4].
Qed.

(** What the end of link [l] does to a session [s]. *)
Record let_go (now : time) (l : lid) (s s' : session) : Prop := {
  lg_state : (s_key s', s_state s', s_closeErr s', s_conn s', s_stopped s', s_writeQ s') =
             (s_key s, s_state s, s_closeErr s, s_conn s, s_stopped s, s_writeQ s);
  lg_claim : s' = s ∨ s_link s = Some l ∧ s_link s' = None ∧ s_detachedAt s' = now ∧
             (s_state s ≠ stateClosed → s_buf s' = s_buf s);
}.

Lemma let_go_step now l v j i s s0 :
  let_go now l s0 s → sv_heap v !! i = Some s →
  ∃ s', sv_heap (close_held now l v j) !! i = Some s' ∧ let_go now l s0 s' ∧
    (i = j → s_link s' ≠ Some l) ∧ (s_link s ≠ Some l → s_link s' ≠ Some l) ∧
    (s_state s ≠ stateClosed → sv_sessions v !! s_key s = Some i → sv_sessions (close_held now l v j) !! s_key s = Some i).
Proof.
  intros Hlg Hl. unfold close_held. destruct (sv_heap v !! j) as [t|] eqn:Hj.
  2: { exists s. split_and!; auto. intros ->. congruence. }
  destruct (decide (i = j)) as [<-|Hne].
  - assert (t = s) as -> by congruence. clear Hj.
    assert (Hlen : (i < length (sv_heap v))%nat) by (by eapply lookup_lt_Some).
    unfold detach_locked. destruct (decide (s_link s = Some l)) as [Hs|Hs].
    + rewrite bool_decide_eq_true_2 by done. set (s1 := update s_ctrl _ _). cbn [andb].
      destruct Hlg as [Hst Hcl]. assert (Hlive : s0 = s ∨ s_link s = None) by naive_solver.
      destruct Hlive as [->|Hx]; [|congruence].
      case_bool_decide as Hc.
      * exists (s1 <| s_buf := LineBuffer [] 0 |>). rewrite forget_heap. unfold put_session. simpl.
        rewrite !list_lookup_insert_eq by (by rewrite ?length_insert). split_and!; [done| |done|done|].
        -- split; [done|]. right. split_and!; [done|done|done|]. intros Hx. by destruct Hx.
        -- intros Hx. by destruct Hx.
      * exists s1. unfold put_session. simpl. rewrite list_lookup_insert_eq by done. split_and!; [done| |done|done|done].
        split; [done|]. right. by split_and!.
    + rewrite bool_decide_eq_false_2 by done. cbn [andb]. exists s. unfold put_session. simpl.
      rewrite list_lookup_insert_eq by done. by split_and!.
  - destruct (detach_locked now l t) as [d t'].
    assert (Hp : sv_heap (put_session j t' v) !! i = Some s) by (unfold put_session; simpl; by rewrite list_lookup_insert_ne).
    exists s. destruct (_ && _).
    + destruct (touches_forget (λ x, x = j) j (put_session j t' v) eq_refl) as [H1 H2].
      split_and!; [by apply H1|done|done|done|]. intros _ Hk. by apply H2.
    + by split_and!.
Qed.

(** When a link to a stugan process goes away, every session it held is let
    go of and none is closed: its socket, its state and its queue are untouched,
    and a session that is not already dead keeps its buffer and its table entry.
    Sessions of other links do not change at all. *)
Theorem link_close_keeps_sockets now l k v i s :
  sv_links v !! l = Some k → lk_closed k = false → sv_heap v !! i = Some s →
  let v' := link_close now l v in
  ∃ s', sv_heap v' !! i = Some s' ∧ let_go now l s s' ∧ (i ∈ lk_sessions k → s_link s' ≠ Some l) ∧
    (s_state s ≠ stateClosed → listed v i s → listed v' i s).
Proof.
  intros Hlk Hop Hl v'. unfold v', link_close, listed. rewrite Hlk, Hop. cbv zeta.
  set (v1 := update sv_live _ _).
  assert (Hl1 : sv_heap v1 !! i = Some s) by done. change (sv_sessions v) with (sv_sessions v1).
  assert (Hin : i ∈ lk_sessions k → i ∈ elements (lk_sessions k)) by (by rewrite elem_of_elements).
  revert Hin. generalize (elements (lk_sessions k)) as held. intros held Hin.
  assert (Hgo : ∃ s', sv_heap (foldl (close_held now l) v1 held) !! i = Some s' ∧ let_go now l s s' ∧
    (i ∈ held → s_link s' ≠ Some l) ∧
    (s_state s ≠ stateClosed → sv_sessions v1 !! s_key s = Some i →
     sv_sessions (foldl (close_held now l) v1 held) !! s_key s = Some i)); [|naive_solver].
  clear Hin. induction held as [|j held IH] using rev_ind.
  { exists s. simpl. split_and!; [done| | |done].
    - split; [done|by left].
    - intros Hx. by apply not_elem_of_nil in Hx. }
  rewrite foldl_app. simpl. destruct IH as (s' & Hs' & Hlg & Hn & Ht).
  destruct (let_go_step now l _ j i s' s Hlg Hs') as (s'' & Hs'' & Hlg' & Hj & Hkeep & Htab).
  exists s''. split_and!; [done|done| |].
  - intros [Hx|Hx]%elem_of_app; [by apply Hkeep, Hn|]. apply list_elem_of_singleton in Hx. by apply Hj.
  - intros Hst Hlist. specialize (Ht Hst Hlist).
    destruct Hlg as [Elg _]. injection Elg as Ek Est _ _ _ _. rewrite Ek, Est in Htab. by apply Htab.
Qed.

(** ** The theorems at a concrete engine *)

Definition demo_options : Options := MkOptions "s3cret" "1.0" 0 0 0 0 0 0 0 0.
Definition demo_hello (instance : string) (gen : Z) : Frame :=
  frame OpHello <| f_secret := "s3cret" |> <| f_protocol := 1 |> <| f_instance := instance |> <| f_gen := gen |>.
Definition demo_connect_as (handle : string) : Frame :=
  frame OpConnect <| f_id := "net" |> <| f_handle := handle |> <| f_addr := "irc.example:6697" |> <| f_fp := "fp" |>.

(** Two installations and a second process of the first; one socket, registered,
    with a line buffered. *)
Definition demo_history : list sv_op :=
  [OHello (demo_hello "app" 1); OHello (demo_hello "other" 1); OHello (demo_hello "app" 2);
   OFrame 1 true 0%nat (demo_connect_as "h1"); OTask 0 None [];
   OIngest 2 true 0%nat ":srv 001 me :Welcome"; OIngest 3 true 0%nat ":srv 376 me :End"].

Definition demo_start : server :=
  default (MkServer demo_options true [] [] ∅ ∅ ∅ 0 ∅ []) (new_server demo_options).
Definition demo_engine (ops : list sv_op) : server := @sv_run ascii_tables ops demo_start.
Definition demo_link (v : server) (l : lid) : link := default (MkLink "" 0 "" false false [] ∅) (sv_links v !! l).
Definition demo_held (v : server) (i : sid) : session :=
  default (new_session 0 "" 0%nat (frame "") "") (sv_heap v !! i).

Lemma demo_index_ok ops : index_ok (demo_engine ops).
Proof. exact (vo_index _ (@run_sv_ok ascii_tables ops demo_start (new_server_ok demo_options demo_start eq_refl))). Qed.

Lemma tables_agree_witness : new_server demo_options = Some demo_start ∧ index_ok (demo_engine demo_history).
Proof. split; [reflexivity|]. exact (@tables_agree ascii_tables demo_options demo_start demo_history eq_refl). Defined.

Lemma budget_exact_witness :
  sv_used (demo_engine demo_history) = total (demo_engine demo_history) ∧ 0 < total (demo_engine demo_history).
Proof.
  split; [|vm_compute; reflexivity].
  refine (@budget_exact ascii_tables demo_options demo_start demo_history eq_refl _).
  vm_compute. split; congruence.
Defined.

Lemma reclaim_settles_witness :
  settled [0%nat] (reclaim 3 [0%nat] (demo_engine demo_history <| sv_opts := demo_options |>)).
Proof. apply reclaim_settles. vm_compute. reflexivity. Defined.

Lemma frames_stay_in_instance_witness :
  let v := demo_engine demo_history in
  untouched 0%nat (demo_held v 0) v (handle_frame 9 true 1%nat (demo_connect_as "h2") v).
Proof.
  refine (frames_stay_in_instance 9 true 1%nat (demo_link (demo_engine demo_history) 1) (demo_connect_as "h2")
            (demo_engine demo_history) 0%nat (demo_held (demo_engine demo_history) 0) (demo_index_ok _) _ _ _).
  - vm_compute. reflexivity.
  - vm_compute. reflexivity.
  - vm_compute. congruence.
Defined.

Lemma superseded_handle_inert_witness :
  let v := demo_engine (demo_history ++ [OFrame 9 true 2%nat (demo_connect_as "h2")]) in
  sv_heap (handle_frame 10 true 0%nat (hframe OpClose "h1" <| f_id := "net" |>) v) !! 0%nat = Some (demo_held v 0).
Proof.
  apply superseded_handle_inert.
  - right. right. reflexivity.
  - vm_compute. reflexivity.
  - intros [Hh _]. revert Hh. vm_compute. congruence.
Defined.

Lemma newer_process_keeps_witness :
  let v := demo_engine (demo_history ++ [OFrame 9 true 2%nat (demo_connect_as "h2")]) in
  ∃ why, handle_connect 10 0%nat (demo_connect_as "h3") v =
         link_send 0%nat (eframe OpError (f_handle (demo_connect_as "h3")) why) v.
Proof.
  set (v := demo_engine _).
  refine (newer_process_keeps 10 0%nat (demo_link v 0) 2%nat (demo_link v 2) (demo_connect_as "h3") v 0%nat (demo_held v 0)
            _ _ _ _); try (vm_compute; reflexivity); [|congruence]. split_and!; vm_compute; reflexivity.
Defined.

Lemma connect_claims_witness :
  let v := demo_engine demo_history in
  let k := demo_link v 2 in
  let f := demo_connect_as "h2" in
  let key := session_key (lk_instance k) (f_id f) in
  let v' := handle_connect 9 2%nat f v in
  ∃ i s, sv_sessions v' !! key = Some i ∧ sv_byHandle v' !! f_handle f = Some i ∧ sv_heap v' !! i = Some s ∧
    s_link s = Some 2%nat ∧ s_handle s = f_handle f ∧
    ((∃ s0, sv_sessions v !! key = Some i ∧ sv_heap v !! i = Some s0 ∧ reusable (f_fp f) s0 = true ∧
            s = attach_locked 9 2%nat (f_handle f) s0) ∨
     (i = length (sv_heap v) ∧ s = new_session 9 (lk_instance k) 2%nat f key ∧
      ∀ i0, sv_sessions v !! key = Some i0 →
        ∃ s0, sv_heap v !! i0 = Some s0 ∧ reusable (f_fp f) s0 = false ∧ closed_at (sv_heap v') i0)).
Proof.
  intros v k f key v'. apply (connect_claims 9 2%nat k f v); [apply demo_index_ok|].
  assert (Hv : sv_links v !! 2%nat = Some k) by (vm_compute; reflexivity).
  split; [exact Hv|vm_compute; repeat split; congruence|vm_compute; eexists; reflexivity|vm_compute; reflexivity|
          vm_compute; reflexivity|].
  intros i s h hk Hi Hs Hh _ Hhk.
  assert (E : sv_sessions v !! session_key (lk_instance k) (f_id f) = Some 0%nat) by (vm_compute; reflexivity).
  rewrite E in Hi. injection Hi as <-.
  assert (E2 : sv_heap v !! 0%nat = Some (demo_held v 0)) by (vm_compute; reflexivity).
  rewrite E2 in Hs. injection Hs as <-.
  assert (E3 : s_link (demo_held v 0) = Some 0%nat) by (vm_compute; reflexivity).
  rewrite E3 in Hh. injection Hh as <-.
  assert (E4 : sv_links v !! 0%nat = Some (demo_link v 0)) by (vm_compute; reflexivity).
  rewrite E4 in Hhk. injection Hhk as <-. vm_compute. congruence.
Defined.

Lemma link_close_keeps_sockets_witness :
  let v := demo_engine demo_history in
  let s := demo_held v 0 in
  let v' := link_close 50 0%nat v in
  ∃ s', sv_heap v' !! 0%nat = Some s' ∧ let_go 50 0%nat s s' ∧
    (0%nat ∈ lk_sessions (demo_link v 0) → s_link s' ≠ Some 0%nat) ∧
    (s_state s ≠ stateClosed → listed v 0 s → listed v' 0 s).
Proof.
  intros v s v'. apply (link_close_keeps_sockets 50 0%nat (demo_link v 0) v 0%nat s); vm_compute; reflexivity.
Defined.

(** A connect that arrives after the link's writer closed the link attaches a
    session to it all the same; the link is never closed again, so the session
    stays held by a link that is gone and [reap] never ends it. *)
Definition demo_late : server :=
  demo_engine [OHello (demo_hello "app" 1); OLinkClose 5 0%nat; OFrame 6 true 0%nat (demo_connect_as "h1"); OTask 0 None [];
               OLinkClose 7 0%nat].

Lemma late_connect_is_never_reaped now :
  let s := demo_held demo_late 0 in
  s_state s = stateOpen ∧ s_link s = Some 0%nat ∧ lk_closed (demo_link demo_late 0) = true ∧
  sv_live demo_late = ∅ ∧ reap_reason (sv_opts demo_late) now s = None.
Proof.
  cbv zeta.
  assert (Hs : s_link (demo_held demo_late 0) = Some 0%nat) by (vm_compute; reflexivity).
  split_and!; [vm_compute; reflexivity|exact Hs|vm_compute; reflexivity|vm_compute; reflexivity|].
  unfold reap_reason. by rewrite Hs.
Qed.
