(* ===== verification/LinkTags.v ===== *)
(** * Tags the relay adds ([internal/enginelink/tags.go])

    [tag_line] is [TagLine]; [tags_of] and [body_of] are how a reader of the line
    takes it apart again.  A server cannot forge the relay's tags. *)

From Stdlib Require Import ZArith Lia Ascii.
From stdpp Require Import base tactics list strings pretty.
From S2P Require Import Prelude GoStrings.

#[local] Open Scope Z_scope.

Definition TagPrefix := "stugan/".
Definition TagSeq := "stugan/seq".
Definition TagReplay := "stugan/replay".
Definition TagAck := "stugan/ack".
Definition AckProbeCommand := "STUGANACK".

Definition CRLF : string := String CR (String LF "").

(** [AckProbe]. *)
Definition ack_probe (seq : Z) : string :=
  "@" +:+ TagAck +:+ "=" +:+ itoa seq +:+ " :stugan " +:+ AckProbeCommand +:+ CRLF.

(** ** [time.UnixMilli(at).UTC().Format(serverTimeFormat)]

    Days since 1970-01-01 to a civil date (the proleptic Gregorian calendar,
    counted in 400-year eras from 1 March of year 0), then fixed-width fields. *)

Definition civil (days : Z) : Z * Z * Z :=
  let z := days + 719468 in
  let era := z / 146097 in
  let doe := z - era * 146097 in
  let yoe := (doe - doe / 1460 + doe / 36524 - doe / 146096) / 365 in
  let doy := doe - (365 * yoe + yoe / 4 - yoe / 100) in
  let mp := (5 * doy + 2) / 153 in
  let d := doy - (153 * mp + 2) / 5 + 1 in
  let m := if Z.ltb mp 10 then mp + 3 else mp - 9 in
  (yoe + era * 400 + (if Z.leb m 2 then 1 else 0), m, d).

(** [n] digits at least, padded with zeros. *)
Definition padded (n : nat) (z : Z) : string :=
  let s := itoa z in str_repeat "0" (n - String.length s) +:+ s.

Definition server_time (at_ms : Z) : string :=
  let secs := at_ms / 1000 in
  let '(y, m, d) := civil (secs / 86400) in
  let t := secs `mod` 86400 in
  padded 4 y +:+ "-" +:+ padded 2 m +:+ "-" +:+ padded 2 d +:+ "T" +:+
  padded 2 (t / 3600) +:+ ":" +:+ padded 2 ((t / 60) `mod` 60) +:+ ":" +:+ padded 2 (t `mod` 60) +:+ "." +:+
  padded 3 (at_ms `mod` 1000) +:+ "Z".

(** ** [TagLine] *)

Definition tag_key (t : string) : string := let '(k, _, _) := cut_byte "=" t in k.

(** A tag only the relay may set. *)
Definition is_ours (t : string) : bool := has_prefix TagPrefix (tag_key t).

(** The tags of the line that are kept, and whether one of them is [time]. *)
Definition kept_tags (section : string) : list string :=
  filter (λ t, t ≠ "" ∧ is_ours t = false) (split_byte ";" section).

Definition has_time (ts : list string) : bool := existsb (λ t, String.eqb (tag_key t) "time") ts.

(** The relay's own tags. *)
Definition our_tags (seq at_ms : Z) (replay timed : bool) : list string :=
  (if Z.ltb 0 seq then [TagSeq +:+ "=" +:+ itoa seq] else []) ++
  (if replay then [TagReplay] else []) ++
  (if negb timed && Z.ltb 0 at_ms then ["time=" +:+ server_time at_ms] else []).

Definition tag_line (line : string) (seq at_ms : Z) (replay : bool) : string :=
  let add kept rest :=
    match our_tags seq at_ms replay (has_time kept) ++ kept with
    | [] => rest
    | tags => "@" +:+ str_join ";" tags +:+ " " +:+ rest
    end in
  if has_prefix "@" line then
    match index_byte SP line with
    | None => line
    | Some i => add (kept_tags (str_drop 1 (str_take i line))) (trim_left (Ascii.eqb SP) (str_drop (S i) line))
    end
  else add [] line.

(** ** Reading a line back *)

(** The tag section of a line and what follows it. *)
Definition split_tags (line : string) : list string * string :=
  if has_prefix "@" line then
    match cut_byte SP (str_drop 1 line) with
    | (section, rest, true) => (filter (λ t, t ≠ "") (split_byte ";" section), trim_left (Ascii.eqb SP) rest)
    | _ => ([], line)
    end
  else ([], line).

Definition tags_of (line : string) : list string := fst (split_tags line).
Definition body_of (line : string) : string := snd (split_tags line).

(** ** Lemmas *)

Lemma pretty_N_go_all p x s :
  (∀ d, (d < 10)%N → p (pretty_N_char d) = true) → str_all p s = true → str_all p (pretty_N_go x s) = true.
Proof.
  intros Hp. revert s. induction (N.lt_wf_0 x) as [x _ IH]; intros s Hs.
  destruct (decide (0 < x)%N) as [Hx|Hx].
  - rewrite pretty_N_go_step by done. apply IH; [apply N.div_lt; lia|]. simpl. rewrite Hs, andb_true_r.
    apply Hp. by apply N.mod_lt.
  - assert (x = 0%N) as -> by lia. by rewrite pretty_N_go_0.
Qed.

(** The bytes of a number: digits, and a sign in front of a negative one. *)
Lemma itoa_all p z :
  (∀ d, (d < 10)%N → p (pretty_N_char d) = true) → p "-"%char = true → str_all p (itoa z) = true.
Proof.
  intros Hp Hm. assert (HN : ∀ n : N, str_all p (pretty n) = true).
  { intros n. unfold pretty, pretty_N. destruct (decide (n = 0%N)); [|by apply pretty_N_go_all].
    change (p (pretty_N_char 0) && true = true). by rewrite (Hp 0%N). }
  unfold itoa. destruct z as [|q|q]; [apply (HN 0%N)|apply (HN (N.pos q))|].
  change (p "-"%char && str_all p (pretty (N.pos q)) = true). by rewrite Hm, HN.
Qed.

Lemma digit_cases (P : N → Prop) :
  P 0%N → P 1%N → P 2%N → P 3%N → P 4%N → P 5%N → P 6%N → P 7%N → P 8%N → P 9%N → ∀ d, (d < 10)%N → P d.
Proof.
  intros. destruct (decide (d = 0%N)); [by subst|]. destruct (decide (d = 1%N)); [by subst|].
  destruct (decide (d = 2%N)); [by subst|]. destruct (decide (d = 3%N)); [by subst|].
  destruct (decide (d = 4%N)); [by subst|]. destruct (decide (d = 5%N)); [by subst|].
  destruct (decide (d = 6%N)); [by subst|]. destruct (decide (d = 7%N)); [by subst|].
  destruct (decide (d = 8%N)); [by subst|]. assert (d = 9%N) as -> by lia. done.
Qed.

(** A test that holds of every digit and the sign holds of numbers. *)
Ltac itoa_bytes := apply itoa_all; [by apply digit_cases|done].

(** A tag that survives being joined and split again. *)
Definition tag_ok (t : string) : Prop := t ≠ "" ∧ no_byte ";" t = true ∧ no_byte SP t = true.

Lemma no_byte_app c s t : no_byte c (s +:+ t) = no_byte c s && no_byte c t.
Proof. apply str_all_app. Qed.

Lemma join_no_sp ts : Forall tag_ok ts → no_byte SP (str_join ";" ts) = true.
Proof.
  induction 1 as [|t ts (_ & _ & Ht) _ IH]; [done|]. destruct ts as [|u ts]; [done|].
  rewrite str_join_cons, !no_byte_app, Ht, IH. done.
Qed.

Lemma filter_ne_id ts : Forall tag_ok ts → filter (λ t, t ≠ "") ts = ts.
Proof. intros Hts. apply filter_all. eapply Forall_impl; [exact Hts|]. by intros t []. Qed.

Lemma split_tags_render ts rest :
  ts ≠ [] → Forall tag_ok ts →
  split_tags ("@" +:+ str_join ";" ts +:+ " " +:+ rest) = (ts, trim_left (Ascii.eqb SP) rest).
Proof.
  intros Hne Hts. unfold split_tags. rewrite prefix_app.
  change (str_drop 1 ("@" +:+ str_join ";" ts +:+ " " +:+ rest)) with (str_join ";" ts +:+ String SP rest).
  rewrite cut_byte_app by (by apply join_no_sp). rewrite split_join; [|done|].
  - by rewrite filter_ne_id.
  - eapply Forall_impl; [exact Hts|]. by intros t (_ & ? & _).
Qed.

Lemma server_time_bytes p at_ms :
  (∀ d, (d < 10)%N → p (pretty_N_char d) = true) → p "-"%char = true → p "T"%char = true → p ":"%char = true →
  p "."%char = true → p "Z"%char = true → str_all p (server_time at_ms) = true.
Proof.
  intros Hd Hm HT Hc Hdot HZ. unfold server_time. destruct (civil _) as [[y m] d]. cbv zeta.
  assert (Hpad : ∀ n z, str_all p (padded n z) = true).
  { intros n z. unfold padded. rewrite str_all_app, itoa_all by done. rewrite andb_true_r.
    generalize (n - String.length (itoa z))%nat. intros k. induction k as [|k IH]; [done|].
    simpl. rewrite IH, andb_true_r. exact (Hd 0%N eq_refl). }
  rewrite !str_all_app, !Hpad. simpl. by rewrite Hm, HT, Hc, Hdot, HZ.
Qed.

Lemma our_tags_ok seq at_ms replay timed : Forall tag_ok (our_tags seq at_ms replay timed).
Proof.
  unfold our_tags. rewrite !Forall_app. split_and!.
  - destruct (Z.ltb 0 seq); [|done]. apply Forall_singleton. split_and!; [done| |]; rewrite !no_byte_app.
    + assert (no_byte ";" (itoa seq) = true) as ->; [itoa_bytes|done].
    + assert (no_byte SP (itoa seq) = true) as ->; [itoa_bytes|done].
  - destruct replay; [|done]. by apply Forall_singleton.
  - destruct (_ && _); [|done]. apply Forall_singleton. split_and!; [done| |]; rewrite no_byte_app.
    + assert (no_byte ";" (server_time at_ms) = true) as ->; [|done]. apply server_time_bytes; [by apply digit_cases|done..].
    + assert (no_byte SP (server_time at_ms) = true) as ->; [|done]. apply server_time_bytes; [by apply digit_cases|done..].
Qed.

Lemma kept_tags_ok section : no_byte SP section = true → Forall tag_ok (kept_tags section).
Proof.
  intros Hs. unfold kept_tags. apply Forall_forall. intros t Ht. apply list_elem_of_filter in Ht as [[Hne _] Hin].
  pose proof (split_byte_pieces ";" section) as Hp. rewrite Forall_forall in Hp. split_and!; [done|by apply Hp|].
  rewrite <- (join_split ";" section) in Hs. clear Hne Hp. revert Hs Hin.
  generalize (split_byte ";" section) as l. intros l. induction l as [|x l IH]; [by intros _ ?%not_elem_of_nil|].
  destruct l as [|y l].
  - simpl. intros Hs Hin. by apply list_elem_of_singleton in Hin as ->.
  - rewrite str_join_cons, !no_byte_app. intros [Hx [_ Hs]%andb_true_iff]%andb_true_iff [->|Hin]%elem_of_cons; [done|by apply IH].
Qed.

Lemma filter_split (ts : list string) :
  filter (λ t, is_ours t = false) (filter (λ t, t ≠ "") ts) = filter (λ t, t ≠ "" ∧ is_ours t = false) ts.
Proof.
  induction ts as [|t ts IH]; [done|]. rewrite !filter_cons. destruct (decide (t ≠ "")) as [Ht|Ht].
  - rewrite filter_cons, IH. destruct (decide (is_ours t = false)); destruct (decide (t ≠ "" ∧ is_ours t = false)); naive_solver.
  - rewrite IH. destruct (decide (t ≠ "" ∧ is_ours t = false)); naive_solver.
Qed.

Lemma time_not_ours x : is_ours ("time=" +:+ x) = false.
Proof. unfold is_ours, tag_key. change ("time=" +:+ x) with ("time" +:+ String "=" x). by rewrite cut_byte_app. Qed.

Lemma seq_ours x : is_ours (TagSeq +:+ "=" +:+ x) = true.
Proof. unfold is_ours, tag_key. change (TagSeq +:+ "=" +:+ x) with (TagSeq +:+ String "=" x). by rewrite cut_byte_app. Qed.

(** What the relay vouches for on a line. *)
Definition vouched (seq : Z) (replay : bool) : list string :=
  (if Z.ltb 0 seq then [TagSeq +:+ "=" +:+ itoa seq] else []) ++ (if replay then [TagReplay] else []).

(** What a line is given to carry: the relay's tags before its own. *)
Lemma tag_line_renders line seq at_ms replay :
  (has_prefix "@" line = true → is_Some (index_byte SP line)) → 0 < seq ∨ replay = true →
  let theirs := filter (λ t, is_ours t = false) (tags_of line) in
  ∃ rest, tag_line line seq at_ms replay = "@" +:+ str_join ";" (our_tags seq at_ms replay (has_time theirs) ++ theirs) +:+ " " +:+ rest ∧
    Forall tag_ok theirs ∧ trim_left (Ascii.eqb SP) rest = trim_left (Ascii.eqb SP) (body_of line).
Proof.
  intros Hsp Hour theirs.
  enough (Hout : ∃ kept rest, tag_line line seq at_ms replay = "@" +:+ str_join ";" (our_tags seq at_ms replay (has_time kept) ++ kept) +:+ " " +:+ rest ∧
    kept = theirs ∧ Forall tag_ok kept ∧ trim_left (Ascii.eqb SP) rest = trim_left (Ascii.eqb SP) (body_of line)).
  { destruct Hout as (kept & rest & ? & -> & ? & ?). by exists rest. }
  assert (Hne : ∀ timed kept, our_tags seq at_ms replay timed ++ kept ≠ []).
  { intros timed kept. unfold our_tags. destruct Hour as [Hs| ->].
    - apply Z.ltb_lt in Hs. by rewrite Hs.
    - by destruct (Z.ltb 0 seq). }
  assert (Hadd : ∀ kept rest, match our_tags seq at_ms replay (has_time kept) ++ kept with
                  | [] => rest | tags => "@" +:+ str_join ";" tags +:+ " " +:+ rest end =
                  "@" +:+ str_join ";" (our_tags seq at_ms replay (has_time kept) ++ kept) +:+ " " +:+ rest).
  { intros kept rest. pose proof (Hne (has_time kept) kept). by destruct (our_tags _ _ _ _ ++ kept). }
  unfold tag_line, theirs, tags_of, body_of, split_tags. cbv zeta.
  destruct (has_prefix "@" line) eqn:Hat.
  - destruct (Hsp eq_refl) as [i Hi]. rewrite Hi.
    apply has_prefix_spec in Hat as [w ->].
    assert (Hcut : ∃ b r, w = b +:+ String SP r ∧ no_byte SP b = true).
    { destruct (cut_byte SP w) as [[b r] f] eqn:Hc. apply cut_byte_spec in Hc as [Hb Hf]. destruct f; [by exists b, r|].
      destruct Hf as [-> _]. assert (Hno : no_byte SP ("@" +:+ b) = true) by (by rewrite no_byte_app, Hb).
      apply index_byte_None in Hno. congruence. }
    destruct Hcut as (b & r & -> & Hb).
    assert (Hi' : i = S (String.length b)).
    { assert (Hno : no_byte SP ("@" +:+ b) = true) by (by rewrite no_byte_app, Hb).
      pose proof (index_byte_app SP ("@" +:+ b) r Hno) as E. rewrite str_app_assoc in E. rewrite E in Hi. by injection Hi as <-. }
    subst i. rewrite Hadd.
    assert (E1 : str_drop 1 (str_take (S (String.length b)) ("@" +:+ (b +:+ String SP r))) = b).
    { change (str_take (String.length b) (b +:+ String SP r) = b). apply str_take_app. }
    assert (E2 : str_drop (S (S (String.length b))) ("@" +:+ (b +:+ String SP r)) = r).
    { change (str_drop (S (String.length b)) (b +:+ String SP r) = r).
      replace (b +:+ String SP r) with ((b +:+ " ") +:+ r) by (by rewrite str_app_assoc).
      replace (S (String.length b)) with (String.length (b +:+ " ")) by (rewrite str_length_app; simpl; lia).
      apply str_drop_app. }
    rewrite E1, E2. change (str_drop 1 ("@" +:+ (b +:+ String SP r))) with (b +:+ String SP r). rewrite cut_byte_app by done.
    eexists _, _. split; [done|]. split_and!.
    + cbn [fst]. by rewrite filter_split.
    + by apply kept_tags_ok.
    + done.
  - rewrite Hadd. by exists [], line.
Qed.

(** C8: a server cannot forge the relay's tags: on every line the relay hands to
    the client, the tags under its vendor prefix are exactly the sequence number
    and the replay mark it set itself; every other tag of the server's is kept in
    order, a [time] tag is added only if there was none, and the line proper is
    unchanged. *)
Theorem tag_line_unforgeable line seq at_ms replay :
  (has_prefix "@" line = true → is_Some (index_byte SP line)) → 0 < seq ∨ replay = true →
  let out := tag_line line seq at_ms replay in
  let theirs := filter (λ t, is_ours t = false) (tags_of line) in
  filter (λ t, is_ours t = true) (tags_of out) = vouched seq replay ∧
  filter (λ t, is_ours t = false) (tags_of out) =
    (if negb (has_time theirs) && Z.ltb 0 at_ms then ["time=" +:+ server_time at_ms] else []) ++ theirs ∧
  body_of out = trim_left (Ascii.eqb SP) (body_of line).
Proof.
  intros Hsp Hour out theirs.
  destruct (tag_line_renders line seq at_ms replay Hsp Hour) as (rest & Hout & Hok & Hrest). fold theirs in Hout, Hok. subst out. rewrite Hout.
  assert (Hsplit : split_tags ("@" +:+ str_join ";" (our_tags seq at_ms replay (has_time theirs) ++ theirs) +:+ " " +:+ rest) =
                   (our_tags seq at_ms replay (has_time theirs) ++ theirs, trim_left (Ascii.eqb SP) rest)).
  { apply split_tags_render; [|apply Forall_app; split; [apply our_tags_ok|done]].
    unfold our_tags. destruct Hour as [Hs| ->]; [apply Z.ltb_lt in Hs; by rewrite Hs|by destruct (Z.ltb 0 seq)]. }
  unfold tags_of at 1 2, body_of at 1. rewrite Hsplit. cbn [fst snd].
  assert (Ht : Forall (λ t, is_ours t = false) theirs).
  { apply Forall_forall. intros t Hin. unfold theirs in Hin. by apply list_elem_of_filter in Hin as [? _]. }
  split_and!; [| |done]; rewrite filter_app.
  - rewrite (filter_none _ theirs), app_nil_r.
    2: { eapply Forall_impl; [exact Ht|]. intros t ->. done. }
    unfold our_tags, vouched. rewrite !filter_app, app_assoc. rewrite (filter_none _ (if _ && _ then _ else _)), app_nil_r.
    2: { destruct (_ && _); [|done]. apply Forall_singleton. by rewrite time_not_ours. }
    f_equal; apply filter_all; [destruct (Z.ltb 0 seq)|destruct replay]; try done; apply Forall_singleton; [apply seq_ours|done].
  - rewrite (filter_all _ theirs) by done. f_equal. unfold our_tags. rewrite !filter_app.
    rewrite (filter_none _ (if Z.ltb 0 seq then _ else _)).
    2: { destruct (Z.ltb 0 seq); [|done]. apply Forall_singleton. by rewrite seq_ours. }
    rewrite (filter_none _ (if replay then _ else _)) by (destruct replay; [by apply Forall_singleton|done]).
    apply filter_all. destruct (_ && _); [|done]. apply Forall_singleton. apply time_not_ours.
Qed.

Lemma tag_line_unforgeable_witness :
  let line := "@stugan/seq=99;a=1;;stugan/replay :srv PRIVMSG #x :hi" in
  let out := tag_line line 7 1709164799000 false in
  let theirs := filter (λ t, is_ours t = false) (tags_of line) in
  filter (λ t, is_ours t = true) (tags_of out) = vouched 7 false ∧
  filter (λ t, is_ours t = false) (tags_of out) =
    (if negb (has_time theirs) && Z.ltb 0 1709164799000 then ["time=" +:+ server_time 1709164799000] else []) ++ theirs ∧
  body_of out = trim_left (Ascii.eqb SP) (body_of line).
Proof. apply tag_line_unforgeable; [intros _; by eexists|left; reflexivity]. Defined.
