(* ===== verification/LinkSession.v ===== *)
(** * A relayed connection, stugan's side ([internal/enginelink/session.go, link.go, instance.go])

    A [Session] is a [net.Conn] whose far end is the engine: what the engine sends
    is queued for the IRC client to read, what the client writes becomes write
    frames.  Each definition is one critical section of the session's mutex (or of
    the link's); the frames it sends are returned. *)

From Stdlib Require Import ZArith Lia Ascii.
From stdpp Require Import base tactics list gmap strings.
From S2P Require Import Prelude GoStrings Frame LinkTags.

#[local] Open Scope Z_scope.

Definition max_pending : Z := Z.shiftl 32 20.

(** ** State *)

(** [Info]. *)
Record Info := MkInfo {
  i_attached : bool; i_unattended : bool; i_nick : string; i_channels : list string;
  i_detachedFor : Z; i_backlog : Z; i_lost : Z; i_replay : Z;
}.

Definition no_info : Info := MkInfo false false "" [] 0 0 0 0.

(** [Session].  [lx_ready] is that [readyOnce] has run, [lx_hook] that
    [onRestored] is set; errors are their texts. *)
Record lsession := MkLsession {
  lx_id : string; lx_handle : string; lx_marker : string;
  lx_ready : bool; lx_openErr : option string; lx_info : Info;
  lx_rbuf : string; lx_rerr : option string; lx_closed : bool; lx_deadline : time;
  lx_restoring : bool; lx_hook : bool; lx_wpartial : string;
  lx_delivered : Z; lx_probed : Z; lx_ackPending : Z; lx_ackSent : Z;
}.

#[export] Instance eta_lsession : Eta lsession := λ s,
  MkLsession (lx_id s) (lx_handle s) (lx_marker s) (lx_ready s) (lx_openErr s) (lx_info s)
    (lx_rbuf s) (lx_rerr s) (lx_closed s) (lx_deadline s) (lx_restoring s) (lx_hook s) (lx_wpartial s)
    (lx_delivered s) (lx_probed s) (lx_ackPending s) (lx_ackSent s).

(** [newSession]. *)
Definition new_lsession (id handle : string) : lsession :=
  MkLsession id handle ("stugan-restore-" +:+ handle) false None no_info "" None false zero_time
    false false "" 0 0 0 0.

(** [OnRestored]: whether the function runs at once. *)
Definition on_restored (s : lsession) : lsession * bool :=
  if lx_restoring s then (s <| lx_hook := true |>, false) else (s, true).

(** ** What the engine sends *)

Definition info_of (f : Frame) : Info :=
  MkInfo true (f_unattended f) (f_nick f) (f_channels f) (i64 (f_detached_ms f * millisecond)) (f_backlog f) (f_lost f)
    (Z.of_nat (length (f_replay f))).

(** [opened]: [None] for an open frame, the frame of an attached one. *)
Definition opened (f : option Frame) (s : lsession) : lsession :=
  if lx_ready s then s
  else
    let s := match f with
             | Some f =>
                 s <| lx_info := info_of f |>
                   <| lx_rbuf ::= λ b, b +:+ str_concat (map (λ line, tag_line line 0 0 true +:+ CRLF) (f_replay f))
                                         +:+ "PING :" +:+ lx_marker s +:+ CRLF |>
                   <| lx_restoring := true |>
             | None => s
             end in
    s <| lx_ready := true |>.

(** [remoteClosed] on the session; the link forgets the session. *)
Definition remote_closed (err : string) (s : lsession) : lsession :=
  let s := match lx_rerr s with None => s <| lx_rerr := Some err |> | Some _ => s end in
  if lx_ready s then s else s <| lx_ready := true |> <| lx_openErr := Some err |>.

(** [detach] on the session: the frame to send, if any, and whether the link
    forgets the session. *)
Definition detach (s : lsession) : lsession * list Frame * bool :=
  if lx_closed s then (s, [], false)
  else (s <| lx_closed := true |>,
        match lx_rerr s with None => [hframe OpDetach (lx_handle s)] | Some _ => [] end, true).

(** [deliver]: the session, the frames to send, and whether the link forgets it
    (the client stopped reading). *)
Definition deliver (seq at_ms : Z) (line : string) (s : lsession) : lsession * list Frame * bool :=
  if lx_closed s || bool_decide (lx_rerr s ≠ None) then (s, [], false)
  else
    let s := s <| lx_rbuf ::= λ b, b +:+ tag_line line seq at_ms false +:+ CRLF |>
               <| lx_delivered ::= Z.max seq |> in
    if Z.ltb max_pending (str_len (lx_rbuf s)) then
      let '(s, fs, _) := detach (remote_closed "stugan-engine: client stopped reading" s) in (s, fs, true)
    else (s, [], false).

(** ** What the client reads *)

Inductive read_result :=
  | ReadBytes (p : string)
  | ReadErr (err : string)
  | ReadWait.

(** One round of the loop of [Read], into a buffer of [n] bytes. *)
Definition read_round (now : time) (n : nat) (s : lsession) : lsession * read_result :=
  let s := if String.eqb (lx_rbuf s) "" && Z.ltb (lx_probed s) (lx_delivered s) && negb (lx_closed s)
           then s <| lx_probed := lx_delivered s |> <| lx_rbuf := ack_probe (lx_delivered s) |> else s in
  if negb (String.eqb (lx_rbuf s) "") then (s <| lx_rbuf := str_drop n (lx_rbuf s) |>, ReadBytes (str_take n (lx_rbuf s)))
  else if lx_closed s then (s, ReadErr "use of closed network connection")
  else match lx_rerr s with
       | Some err => (s, ReadErr err)
       | None =>
           if negb (time_is_zero (lx_deadline s)) && Z.leb (lx_deadline s) now then (s, ReadErr "i/o timeout")
           else (s, ReadWait)
       end.

(** [SetReadDeadline]. *)
Definition set_read_deadline (t : time) (s : lsession) : lsession := s <| lx_deadline := t |>.

(** ** What the client writes *)

Section write.
Context `{UnicodeTables}.

(** [isPong]. *)
Definition is_pong (line token : string) : bool :=
  let '(cmd, rest, _) := cut_byte SP line in
  if negb (equal_fold cmd "PONG") then false
  else
    let rest := match last_index_str " :" rest with
                | Some i => str_drop (i + 2) rest
                | None =>
                    let rest := trim_prefix ":" rest in
                    match last_index_byte SP rest with
                    | Some j => str_drop (S j) rest
                    | None => rest
                    end
                end in
    String.eqb rest token.

(** The loop of [Write] over the complete lines: whether the restore goes on, the
    lines to relay, and whether the restore ended here. *)
Fixpoint relay_lines (marker : string) (restoring : bool) (ls : list string) : bool * list string * bool :=
  match ls with
  | [] => (restoring, [], false)
  | l :: ls =>
      let line := trim_right (Ascii.eqb CR) l in
      if String.eqb line "" then relay_lines marker restoring ls
      else if restoring then
        if is_pong line marker
        then let '(r, out, _) := relay_lines marker false ls in (r, out, true)
        else relay_lines marker true ls
      else let '(r, out, e) := relay_lines marker false ls in (r, line :: out, e)
  end.

(** The complete lines of a byte sequence and the unfinished rest. *)
Definition complete_lines (s : string) : list string * string :=
  let pieces := split_byte LF s in
  (removelast pieces, List.last pieces "").

Definition write_frame (handle line : string) : Frame := set_line line (hframe OpWrite handle).

Inductive write_result := WriteOk (n : Z) | WriteErr (err : string).

(** [Write], when the link's connection accepts frames: the frames sent, whether
    the restore hook runs, and the result. *)
Definition write (p : string) (s : lsession) : lsession * list Frame * bool * write_result :=
  if lx_closed s then (s, [], false, WriteErr "use of closed network connection")
  else match lx_rerr s with
  | Some err => (s, [], false, WriteErr err)
  | None =>
      let '(lines, partial) := complete_lines (lx_wpartial s +:+ p) in
      let '(restoring, out, ended) := relay_lines (lx_marker s) (lx_restoring s) lines in
      let fire := ended && lx_hook s in
      (s <| lx_wpartial := partial |> <| lx_restoring := restoring |>
         <| lx_hook ::= λ h, if ended then false else h |>,
       map (write_frame (lx_handle s)) out, fire, WriteOk (str_len p))
  end.
End write.

(** ** Ending and acknowledging *)

(** [Terminate]: always forgotten, always told. *)
Definition terminate (s : lsession) : lsession * list Frame :=
  (s <| lx_closed := true |>, [frame OpClose <| f_id := lx_id s |> <| f_handle := lx_handle s |>]).

(** [Ack]: whether the connection's ack loop is woken. *)
Definition ack_session (seq : Z) (s : lsession) : lsession * bool :=
  if Z.leb seq (lx_ackPending s) then (s, false) else (s <| lx_ackPending := seq |>, true).

(** One session's share of [flushAcks]; [up] is that the send succeeds. *)
Definition flush_ack (up : bool) (s : lsession) : lsession * list Frame :=
  let seq := lx_ackPending s in
  if Z.leb seq (lx_ackSent s) || negb up then (s, [])
  else (s <| lx_ackSent := seq |>,
        [frame OpAck <| f_id := lx_id s |> <| f_handle := lx_handle s |> <| f_seq := seq |>]).

(** ** The link *)

(** A dialed connection is a number; [ll_heap] holds every session with the
    connection it was opened on, [ll_sessions] is [Link.sessions]. *)
Record llink := MkLlink {
  ll_closed : bool; ll_cur : option nat;
  ll_heap : list (nat * lsession); ll_sessions : gmap string nat;
}.

#[export] Instance eta_llink : Eta llink := λ v,
  MkLlink (ll_closed v) (ll_cur v) (ll_heap v) (ll_sessions v).

Definition put_lsession (i : nat) (s : lsession) (v : llink) : llink :=
  v <| ll_heap ::= alter (λ '(c, _), (c, s)) i |>.

(** [forget]. *)
Definition forget (i : nat) (v : llink) : llink :=
  match ll_heap v !! i with
  | None => v
  | Some (_, s) => v <| ll_sessions ::= λ m, if bool_decide (m !! lx_handle s = Some i) then delete (lx_handle s) m else m |>
  end.

(** [ConnectRequest]. *)
Record ConnectRequest := MkConnectRequest {
  cr_id : string; cr_addr : string; cr_tls : bool; cr_insecure : bool; cr_cert : string; cr_fp : string;
}.

(** [Open] on connection [c], up to the wait for the engine: [None] when the link
    was lost meanwhile. *)
Definition open_session (c : nat) (handle : string) (req : ConnectRequest) (v : llink) : option (llink * Frame) :=
  if ll_closed v || negb (bool_decide (ll_cur v = Some c)) then None
  else
    let i := length (ll_heap v) in
    Some (v <| ll_heap ::= λ h, h ++ [(c, new_lsession (cr_id req) handle)] |> <| ll_sessions ::= <[handle := i]> |>,
          frame OpConnect <| f_id := cr_id req |> <| f_handle := handle |> <| f_addr := cr_addr req |>
            <| f_tls := cr_tls req |> <| f_insecure := cr_insecure req |> <| f_cert := cr_cert req |>
            <| f_fp := cr_fp req |>).

(** [remoteClosed]: the session is failed and forgotten. *)
Definition fail_session (i : nat) (err : string) (v : llink) : llink :=
  match ll_heap v !! i with
  | None => v
  | Some (_, s) => forget i (put_lsession i (remote_closed err s) v)
  end.

(** [drop]: every session of connection [c] leaves the map, then fails. *)
Definition drop_conn (c : nat) (err : string) (v : llink) : llink :=
  let mine i := match ll_heap v !! i with Some (c', _) => bool_decide (c' = c) | None => false end in
  let victims := filter (λ '(_, i), mine i = true) (map_to_list (ll_sessions v)) in
  let v := v <| ll_cur ::= λ o, if bool_decide (o = Some c) then None else o |>
             <| ll_sessions ::= λ m, foldl (λ m '(h, _), delete h m) m victims |> in
  foldl (λ v '(_, i), fail_session i err v) v victims.

(** [dispatch] of a frame that came in on connection [c]. *)
Definition dispatch (c : nat) (f : Frame) (v : llink) : llink * list Frame :=
  let op := f_op f in
  if String.eqb op OpPing then (v, [frame OpPong])
  else if String.eqb op OpPong || String.eqb op OpHello then (v, [])
  else if String.eqb (f_handle f) "" then (v, [])
  else match i ← ll_sessions v !! f_handle f; p ← ll_heap v !! i; Some (i, p) with
  | None => (v, [])
  | Some (i, (c', s)) =>
      if negb (bool_decide (c' = c)) then (v, [])
      else if String.eqb op OpOpen then (put_lsession i (opened None s) v, [])
      else if String.eqb op OpAttached then (put_lsession i (opened (Some f) s) v, [])
      else if String.eqb op OpLine then
        let '(s, fs, gone) := deliver (f_seq f) (f_at f) (text f) s in
        let v := put_lsession i s v in
        (if gone then forget i v else v, fs)
      else if String.eqb op OpClosed then
        (fail_session i (if String.eqb (f_error f) "" then "connection closed by server" else f_error f) v, [])
      else if String.eqb op OpDetached then (fail_session i ("connection taken over: " +:+ f_error f) v, [])
      else if String.eqb op OpError then (fail_session i ("stugan-engine: " +:+ f_error f) v, [])
      else (v, [])
  end.

(** The hello [dial] sends. *)
Definition hello_frame (secret instance version : string) (gen : Z) : Frame :=
  frame OpHello <| f_protocol := protocol_major |> <| f_minor := protocol_minor |> <| f_secret := secret |>
    <| f_instance := instance |> <| f_gen := gen |> <| f_version := version |>.

(** What [dial] makes of the engine's answer: a working link, a [RefusedError]
    with its message, or an unexpected op. *)
Inductive hello_result := LinkUp | LinkRefused (msg : string) | LinkUnexpected (op : string).

Definition hello_answer (f : Frame) : hello_result :=
  if String.eqb (f_op f) OpHello then
    if Z.eqb (f_protocol f) protocol_major then LinkUp
    else LinkRefused ("engine speaks protocol " +:+ itoa (f_protocol f) +:+ ", stugan speaks " +:+ itoa protocol_major)
  else if String.eqb (f_op f) OpError then LinkRefused (f_error f)
  else LinkUnexpected (f_op f).

(** [validInstanceID].  The ranges are ASCII, so runes are bytes: a rune from a
    longer encoding is outside both. *)
Definition valid_instance_id (id : string) : bool :=
  (8 <=? String.length id)%nat && (String.length id <=? 128)%nat &&
  str_all (λ c, between 48 57 (byte_z c) || between 97 102 (byte_z c)) id.
