(* ===== verification/LinkThms.v ===== *)
(** * Properties of the relayed connection

    Writes do not depend on how they are cut into chunks and are swallowed until
    the restore marker is answered; an ack probe follows every line it vouches for;
    acknowledgements only move forward; a link's hello is accepted. *)

From Stdlib Require Import ZArith Lia Ascii.
From stdpp Require Import base tactics list gmap strings.
From S2P Require Import Prelude GoStrings Utf8 EngineLine LineBuffer Frame EngineSession EngineServer LinkTags LinkSession.

#[local] Open Scope Z_scope.

(** ** Lines and chunks *)

Lemma removelast_app_ne {A} (l1 l2 : list A) : l2 ≠ [] → removelast (l1 ++ l2) = l1 ++ removelast l2.
Proof. apply removelast_app. Qed.

Lemma last_app_ne {A} (l1 l2 : list A) d : l2 ≠ [] → List.last (l1 ++ l2) d = List.last l2 d.
Proof.
  intros Hne. induction l1 as [|x l1 IH]; [done|]. simpl. destruct (l1 ++ l2) eqn:E; [|done].
  apply app_nil in E as [_ ->]. done.
Qed.

(** The lines of two chunks: those of the first, then those its rest starts. *)
Lemma complete_lines_app s1 s2 :
  complete_lines (s1 +:+ s2) =
  let '(ls1, r1) := complete_lines s1 in
  let '(ls2, r2) := complete_lines (r1 +:+ s2) in (ls1 ++ ls2, r2).
Proof.
  unfold complete_lines. rewrite split_byte_concat.
  pose proof (split_byte_nonempty LF (List.last (split_byte LF s1) "" +:+ s2)) as Hne.
  f_equal; [by apply removelast_app_ne|by apply last_app_ne].
Qed.

Section write.
Context `{UnicodeTables}.

Lemma relay_lines_app marker r ls1 ls2 :
  relay_lines marker r (ls1 ++ ls2) =
  let '(r1, out1, e1) := relay_lines marker r ls1 in
  let '(r2, out2, e2) := relay_lines marker r1 ls2 in (r2, out1 ++ out2, e1 || e2).
Proof.
  revert r. induction ls1 as [|l ls1 IH]; intros r; cbn [relay_lines app].
  { by destruct (relay_lines marker r ls2) as [[r2 out2] e2]. }
  destruct (String.eqb _ ""); [apply IH|]. destruct r.
  - destruct (is_pong _ _); [|apply IH]. rewrite IH.
    destruct (relay_lines marker false ls1) as [[r1 out1] e1].
    by destruct (relay_lines marker r1 ls2) as [[r2 out2] e2].
  - rewrite IH. destruct (relay_lines marker false ls1) as [[r1 out1] e1].
    by destruct (relay_lines marker r1 ls2) as [[r2 out2] e2].
Qed.

(** A restore that ended cannot end again. *)
Lemma relay_lines_ended marker r ls :
  let '(r', _, e) := relay_lines marker r ls in (e = true → r = true ∧ r' = false) ∧ (r = false → r' = false).
Proof.
  revert r. induction ls as [|l ls IH]; intros r; cbn [relay_lines]; [done|].
  destruct (String.eqb _ ""); [apply IH|]. destruct r.
  - destruct (is_pong _ _); [|apply IH]. specialize (IH false).
    destruct (relay_lines marker false ls) as [[r' out] e]. naive_solver.
  - specialize (IH false). destruct (relay_lines marker false ls) as [[r' out] e]. naive_solver.
Qed.

(** What the client writes does not depend on how its bytes are cut into
    [Write] calls: two writes send the frames, run the restore hook and leave the
    session as one write of both does. *)
Theorem write_chunks p q s :
  lx_closed s = false → lx_rerr s = None →
  let '(s1, fs1, h1, _) := write p s in
  let '(s2, fs2, h2, _) := write q s1 in
  write (p +:+ q) s = (s2, fs1 ++ fs2, h1 || h2, WriteOk (str_len (p +:+ q))).
Proof.
  intros Hc He. unfold write at 1 3. rewrite Hc, He, <- str_app_assoc.
  rewrite (complete_lines_app (lx_wpartial s +:+ p) q).
  destruct (complete_lines (lx_wpartial s +:+ p)) as [ls1 r1].
  destruct (complete_lines (r1 +:+ q)) as [ls2 r2] eqn:E2. rewrite relay_lines_app.
  pose proof (relay_lines_ended (lx_marker s) (lx_restoring s) ls1) as Hend1.
  destruct (relay_lines (lx_marker s) (lx_restoring s) ls1) as [[b1 out1] e1].
  pose proof (relay_lines_ended (lx_marker s) b1 ls2) as Hend2.
  unfold write. cbn -[complete_lines relay_lines]. rewrite Hc, He, E2.
  destruct (relay_lines (lx_marker s) b1 ls2) as [[b2 out2] e2]. rewrite map_app.
  destruct e1, e2, (lx_hook s); simpl; try done.
  all: try (destruct Hend1 as [[_ Hb] _]; [done|]; destruct Hend2 as [[Hb' _] _]; [done|]; congruence).
Qed.

(** On a re-attached connection nothing the client writes reaches the server
    until it has answered the restore marker; every line after that is relayed, in
    order, empty ones aside, and the restore hook runs exactly then. *)
Theorem restore_swallows marker pre pong post :
  Forall (λ l, is_pong (trim_right (Ascii.eqb CR) l) marker = false) pre →
  is_pong (trim_right (Ascii.eqb CR) pong) marker = true → trim_right (Ascii.eqb CR) pong ≠ "" →
  relay_lines marker true pre = (true, [], false) ∧
  relay_lines marker true (pre ++ pong :: post) =
    (false, filter (λ l, l ≠ "") (map (trim_right (Ascii.eqb CR)) post), true).
Proof.
  intros Hpre Hpong Hne.
  assert (H1 : relay_lines marker true pre = (true, [], false)).
  { induction Hpre as [|l pre Hl _ IH]; [done|]. cbn [relay_lines].
    destruct (String.eqb _ ""); [done|]. by rewrite Hl. }
  assert (H2 : relay_lines marker false post = (false, filter (λ l, l ≠ "") (map (trim_right (Ascii.eqb CR)) post), false)).
  { induction post as [|l post IH]; [done|]. cbn [relay_lines map]. rewrite filter_cons.
    destruct (String.eqb_spec (trim_right (Ascii.eqb CR) l) "") as [E|E]; [|by rewrite IH, decide_True].
    rewrite E, decide_False by (intros Hx; by apply Hx). done. }
  split; [done|]. rewrite relay_lines_app, H1. cbn [relay_lines].
  rewrite (proj2 (String.eqb_neq _ _) Hne), Hpong, H2. done.
Qed.
End write.

(** ** What the client reads *)

(** What was queued for the client, piece by piece. *)
Inductive item :=
  | ILine (seq at_ms : Z) (line : string)
  | IReplay (line : string)
  | IMarker (marker : string)
  | IProbe (seq : Z).

Definition render_item (i : item) : string :=
  match i with
  | ILine q t l => tag_line l q t false +:+ CRLF
  | IReplay l => tag_line l 0 0 true +:+ CRLF
  | IMarker m => "PING :" +:+ m +:+ CRLF
  | IProbe q => ack_probe q
  end.

Definition item_seq (i : item) : Z := match i with ILine q _ _ => q | _ => 0 end.
Definition max_seq (l : list item) : Z := foldr (λ i n, Z.max (item_seq i) n) 0 l.

Inductive lop :=
  | LOpened (f : option Frame)
  | LDeliver (seq at_ms : Z) (line : string)
  | LRead (now : time) (n : nat)
  | LRemote (err : string)
  | LDetach
  | LTerminate
  | LDeadline (t : time)
  | LAck (seq : Z)
  | LFlush (up : bool).

(** A run: the session, the pieces queued, the bytes read and the frames sent. *)
Record lrun := LRun { lr_s : lsession; lr_items : list item; lr_read : string; lr_sent : list Frame }.

Definition lstep (r : lrun) (o : lop) : lrun :=
  let s := lr_s r in
  match o with
  | LOpened f =>
      LRun (opened f s)
        (lr_items r ++ match f with
                       | Some f => if lx_ready s then [] else map IReplay (f_replay f) ++ [IMarker (lx_marker s)]
                       | None => []
                       end) (lr_read r) (lr_sent r)
  | LDeliver q t l =>
      let '(s', fs, _) := deliver q t l s in
      LRun s' (lr_items r ++ if lx_closed s || bool_decide (lx_rerr s ≠ None) then [] else [ILine q t l])
        (lr_read r) (lr_sent r ++ fs)
  | LRead now n =>
      let '(s', res) := read_round now n s in
      LRun s' (lr_items r ++ if String.eqb (lx_rbuf s) "" && Z.ltb (lx_probed s) (lx_delivered s) && negb (lx_closed s)
                             then [IProbe (lx_delivered s)] else [])
        (lr_read r +:+ match res with ReadBytes p => p | _ => "" end) (lr_sent r)
  | LRemote err => LRun (remote_closed err s) (lr_items r) (lr_read r) (lr_sent r)
  | LDetach => let '(s', fs, _) := detach s in LRun s' (lr_items r) (lr_read r) (lr_sent r ++ fs)
  | LTerminate => let '(s', fs) := terminate s in LRun s' (lr_items r) (lr_read r) (lr_sent r ++ fs)
  | LDeadline t => LRun (set_read_deadline t s) (lr_items r) (lr_read r) (lr_sent r)
  | LAck q => LRun (fst (ack_session q s)) (lr_items r) (lr_read r) (lr_sent r)
  | LFlush up => let '(s', fs) := flush_ack up s in LRun s' (lr_items r) (lr_read r) (lr_sent r ++ fs)
  end.

Definition lruns (ops : list lop) (r : lrun) : lrun := foldl lstep r ops.

Definition lstart (id handle : string) : lrun := LRun (new_lsession id handle) [] "" [].

(** Every probe vouches for the lines queued before it, and no more: [m] is the
    last number queued so far. *)
Fixpoint probes_from (m : Z) (l : list item) : Prop :=
  match l with
  | [] => True
  | IProbe q :: l => q = m ∧ probes_from m l
  | i :: l => probes_from (Z.max m (item_seq i)) l
  end.

Definition probes_ok (l : list item) : Prop := probes_from 0 l.

Record reads_ok (r : lrun) : Prop := {
  ro_stream : lr_read r +:+ lx_rbuf (lr_s r) = str_concat (map render_item (lr_items r));
  ro_delivered : lx_delivered (lr_s r) = max_seq (lr_items r);
  ro_probes : probes_ok (lr_items r);
}.

Lemma str_concat_one x : str_concat [x] = x.
Proof. apply str_app_nil_r. Qed.

Lemma max_seq_app l1 l2 : max_seq (l1 ++ l2) = Z.max (max_seq l1) (max_seq l2).
Proof.
  assert (Hnn : ∀ l, 0 ≤ max_seq l) by (intros l; induction l; simpl; lia).
  induction l1 as [|x l1 IH]; simpl; [specialize (Hnn l2); lia|]. lia.
Qed.

Lemma max_seq_nonneg l : 0 ≤ max_seq l.
Proof. induction l; simpl; lia. Qed.

Lemma probes_app m l1 l2 :
  0 ≤ m → probes_from m (l1 ++ l2) ↔ probes_from m l1 ∧ probes_from (Z.max m (max_seq l1)) l2.
Proof.
  revert m. induction l1 as [|x l1 IH]; intros m Hm; simpl; [rewrite Z.max_l by lia; tauto|].
  pose proof (max_seq_nonneg l1). destruct x; cbn [item_seq]; rewrite IH by lia.
  all: match goal with
       | |- context [probes_from (Z.max (Z.max ?a ?b) ?c)] =>
           replace (Z.max (Z.max a b) c) with (Z.max a (Z.max b c)) by lia; tauto
       | _ => rewrite (Z.max_r 0 (max_seq l1)) by lia; tauto
       end.
Qed.

Lemma probes_replay m ls mk : 0 ≤ m → probes_from m (map IReplay ls ++ [IMarker mk]).
Proof.
  intros Hm. induction ls as [|l ls IH]; [done|]. simpl. by rewrite Z.max_l by lia.
Qed.

(** A step that leaves the buffer and the watermark alone keeps the account
    of what was read. *)
Lemma reads_quiet r s' sent : reads_ok r →
  lx_rbuf s' = lx_rbuf (lr_s r) → lx_delivered s' = lx_delivered (lr_s r) →
  reads_ok (LRun s' (lr_items r) (lr_read r) sent).
Proof. intros [Hs Hd Hp] E1 E2. split; simpl; [by rewrite E1|by rewrite E2|done]. Qed.

(** More items: their renderings go to the end of the buffer, and their
    sequence numbers count in the watermark. *)
Lemma reads_app r l s' sent : reads_ok r →
  probes_from (max_seq (lr_items r)) l →
  lx_rbuf s' = lx_rbuf (lr_s r) +:+ str_concat (map render_item l) →
  lx_delivered s' = Z.max (lx_delivered (lr_s r)) (max_seq l) →
  reads_ok (LRun s' (lr_items r ++ l) (lr_read r) sent).
Proof.
  intros [Hs Hd Hp] Hf E1 E2. pose proof (max_seq_nonneg (lr_items r)). split; simpl.
  - by rewrite E1, map_app, str_concat_app, <- Hs, str_app_assoc.
  - by rewrite E2, Hd, max_seq_app.
  - apply probes_app; [lia|]. by rewrite Z.max_r by lia.
Qed.

Lemma opened_reads r f : reads_ok r → reads_ok (lstep r (LOpened f)).
Proof.
  intros Hr. pose proof (max_seq_nonneg (lr_items r)) as Hn. pose proof (ro_delivered r Hr) as Hd.
  unfold lstep; cbv zeta. unfold opened. destruct f as [f|].
  - destruct (lx_ready (lr_s r)); [rewrite app_nil_r; by apply reads_quiet|].
    apply reads_app; simpl; [done|by apply probes_replay| |].
    + rewrite map_app, str_concat_app, map_map. cbn [map]. by rewrite str_concat_one.
    + assert (max_seq (map IReplay (f_replay f) ++ [IMarker (lx_marker (lr_s r))]) = 0) as ->; [|lia].
      rewrite max_seq_app. simpl. induction (f_replay f); simpl; lia.
  - rewrite app_nil_r. destruct (lx_ready (lr_s r)); by apply reads_quiet.
Qed.

Lemma deliver_reads r q t l : reads_ok r → reads_ok (lstep r (LDeliver q t l)).
Proof.
  intros Hr. unfold lstep; cbv zeta. unfold deliver.
  destruct (_ || _) eqn:Hg; [rewrite app_nil_r; by apply reads_quiet|].
  set (s1 := update lx_delivered _ _).
  assert (H1 : ∀ s' sent, lx_rbuf s' = lx_rbuf s1 → lx_delivered s' = lx_delivered s1 →
    reads_ok (LRun s' (lr_items r ++ [ILine q t l]) (lr_read r) sent)).
  { intros s' sent E1 E2. pose proof (max_seq_nonneg (lr_items r)). pose proof (ro_delivered r Hr).
    apply reads_app; [done|done| |].
    - rewrite E1. subst s1. simpl. by rewrite str_app_nil_r.
    - rewrite E2. subst s1. simpl. lia. }
  destruct (Z.ltb _ _); [|by apply H1]. unfold remote_closed, detach.
  destruct (lx_rerr s1); destruct (lx_ready _); simpl; destruct (lx_closed _); by apply H1.
Qed.

Lemma read_reads r now n : reads_ok r → reads_ok (lstep r (LRead now n)).
Proof.
  intros Hr. unfold lstep; cbv zeta. unfold read_round. set (pr := String.eqb _ _ && _ && _).
  set (s1 := if pr then _ else _). set (l := if pr then _ else _).
  assert (H1 : reads_ok (LRun s1 (lr_items r ++ l) (lr_read r) (lr_sent r))).
  { subst s1 l. destruct pr eqn:Hpr; [|rewrite app_nil_r; by apply reads_quiet].
    subst pr. apply andb_true_iff in Hpr as [[He _]%andb_true_iff _]. apply String.eqb_eq in He.
    pose proof (max_seq_nonneg (lr_items r)). pose proof (ro_delivered r Hr) as Hd.
    apply reads_app; [done|done| |]; simpl; [by rewrite He, str_app_nil_r|lia]. }
  clearbody s1 l. destruct (negb (String.eqb (lx_rbuf s1) "")).
  - destruct H1 as [E1 E2 E3]. split; simpl; [|done|done]. by rewrite str_app_assoc, str_take_drop.
  - assert (Hq : reads_ok (LRun s1 (lr_items r ++ l) (lr_read r +:+ "") (lr_sent r))) by by rewrite str_app_nil_r.
    destruct (lx_closed s1); [done|]. destruct (lx_rerr s1); [done|]. by destruct (negb (time_is_zero _) && _).
Qed.

(** Every step of the connection keeps the account of what was read. *)
Lemma step_reads r o : reads_ok r → reads_ok (lstep r o).
Proof.
  intros Hr. destruct o as [f|q t l|now n|err| | |t|q|up].
  - by apply opened_reads.
  - by apply deliver_reads.
  - by apply read_reads.
  - apply reads_quiet; [done| |]; unfold remote_closed; destruct (lx_rerr (lr_s r)); cbn -[lr_s]; by destruct (lx_ready (lr_s r)).
  - unfold lstep, detach. destruct (lx_closed (lr_s r)); by apply reads_quiet.
  - by apply reads_quiet.
  - by apply reads_quiet.
  - apply reads_quiet; [done| |]; unfold ack_session; by destruct (Z.leb q (lx_ackPending (lr_s r))).
  - unfold lstep, flush_ack. destruct (_ || _); by apply reads_quiet.
Qed.

(** The frames that acknowledge lines, by their sequence numbers. *)
Definition ack_seqs (fs : list Frame) : list Z :=
  omap (λ f, if String.eqb (f_op f) OpAck then Some (f_seq f) else None) fs.

(** The highest line the run ever committed. *)
Definition acked_max (ops : list lop) : Z := foldr (λ o n, match o with LAck q => Z.max q n | _ => n end) 0 ops.

Definition increasing (l : list Z) : Prop := ∀ i j x y, (i < j)%nat → l !! i = Some x → l !! j = Some y → x < y.

Record acks_ok (m : Z) (r : lrun) : Prop := {
  ao_sent : lx_ackSent (lr_s r) ≤ lx_ackPending (lr_s r);
  ao_pending : lx_ackPending (lr_s r) = m;
  ao_bound : Forall (λ q, q ≤ lx_ackSent (lr_s r)) (ack_seqs (lr_sent r));
  ao_order : increasing (ack_seqs (lr_sent r));
}.

Lemma increasing_snoc l x : increasing l → Forall (λ y, y < x) l → increasing (l ++ [x]).
Proof.
  intros Hl Hx i j a b Hij Hi Hj. rewrite Forall_forall in Hx.
  apply lookup_app_Some in Hj as [Hj|[Hge Hj]].
  - apply lookup_lt_Some in Hj as Hlt. rewrite lookup_app_l in Hi by lia. exact (Hl i j a b Hij Hi Hj).
  - apply list_lookup_singleton_Some in Hj as [Hz <-]. apply lookup_app_Some in Hi as [Hi|[Hge' Hi]].
    + apply Hx. by eapply list_elem_of_lookup_2.
    + apply list_lookup_singleton_Some in Hi as [? _]. lia.
Qed.

Lemma ack_seqs_app l1 l2 : ack_seqs (l1 ++ l2) = ack_seqs l1 ++ ack_seqs l2.
Proof. apply omap_app. Qed.

Lemma step_acks m r o :
  acks_ok m r → acks_ok (match o with LAck q => Z.max m q | _ => m end) (lstep r o).
Proof.
  intros [Hs Hp Hb Ho].
  assert (Hquiet : ∀ s' items read fs, lx_ackSent s' = lx_ackSent (lr_s r) → lx_ackPending s' = lx_ackPending (lr_s r) →
    ack_seqs fs = [] → acks_ok m (LRun s' items read (lr_sent r ++ fs))).
  { intros s' items read fs E1 E2 E3. split; simpl; rewrite ?ack_seqs_app, ?E3, ?app_nil_r, ?E1, ?E2; done. }
  assert (Hquiet0 : ∀ s' items read, lx_ackSent s' = lx_ackSent (lr_s r) → lx_ackPending s' = lx_ackPending (lr_s r) →
    acks_ok m (LRun s' items read (lr_sent r))).
  { intros s' items read E1 E2. rewrite <- (app_nil_r (lr_sent r)). by apply Hquiet. }
  destruct o as [f|q t l|now n|err| | |t|q|up]; unfold lstep; cbv zeta.
  - apply Hquiet0; unfold opened; destruct (lx_ready (lr_s r)), f; done.
  - unfold deliver. destruct (_ || _); [by apply Hquiet|]. destruct (Z.ltb _ _); [|by apply Hquiet].
    unfold remote_closed, detach. cbn -[lr_s tag_line str_len].
    destruct (lx_rerr (lr_s r)); cbn -[lr_s tag_line]; destruct (lx_ready (lr_s r)); cbn -[lr_s tag_line];
      destruct (lx_closed (lr_s r)); by apply Hquiet.
  - unfold read_round. set (s1 := if _ && _ && _ then _ else _).
    assert (H1 : lx_ackSent s1 = lx_ackSent (lr_s r) ∧ lx_ackPending s1 = lx_ackPending (lr_s r)) by (subst s1; by destruct (_ && _)).
    destruct H1. destruct (negb (String.eqb (lx_rbuf s1) "")); [by apply Hquiet0|].
    destruct (lx_closed s1); [by apply Hquiet0|]. destruct (lx_rerr s1); [by apply Hquiet0|].
    destruct (negb (time_is_zero _) && _); by apply Hquiet0.
  - apply Hquiet0; unfold remote_closed; destruct (lx_rerr (lr_s r)); cbn -[lr_s]; by destruct (lx_ready (lr_s r)).
  - unfold detach. destruct (lx_closed (lr_s r)); apply Hquiet; try done. by destruct (lx_rerr (lr_s r)).
  - by apply Hquiet.
  - by apply Hquiet0.
  - unfold ack_session. destruct (Z.leb_spec q (lx_ackPending (lr_s r))); cbn [fst].
    + replace (Z.max m q) with m by lia. by apply Hquiet0.
    + replace (Z.max m q) with q by lia. split; simpl; [lia|done|done|done].
  - unfold flush_ack. destruct (_ || _) eqn:Hg; [by apply Hquiet|].
    apply orb_false_iff in Hg as [Hg%Z.leb_gt _]. split; simpl; [lia|done| |]; rewrite ack_seqs_app; simpl.
    + apply Forall_app. split; [|by apply Forall_singleton]. eapply Forall_impl; [exact Hb|]. simpl. intros; lia.
    + apply increasing_snoc; [done|]. eapply Forall_impl; [exact Hb|]. simpl. intros; lia.
Qed.

(** The bytes the client reads are the queued pieces in order, and every ack
    probe among them comes after all the lines it vouches for: its number is that
    of the last line queued before it, so answering it acknowledges nothing the
    client has not read. *)
Theorem probe_after_lines id handle ops : reads_ok (lruns ops (lstart id handle)).
Proof.
  unfold lruns. rewrite <- (rev_involutive ops). induction (rev ops) as [|o l IH]; [by split|].
  simpl. rewrite foldl_app. simpl. by apply step_reads.
Qed.

(** The acknowledgements a session sends only move forward, never beyond what
    was committed, and one successful flush sends the newest. *)
Theorem acks_move_forward id handle ops :
  let r := lruns ops (lstart id handle) in
  increasing (ack_seqs (lr_sent r)) ∧ Forall (λ q, q ≤ acked_max ops) (ack_seqs (lr_sent r)) ∧
  ack_seqs (lr_sent (lruns (ops ++ [LFlush true]) (lstart id handle))) =
    ack_seqs (lr_sent r) ++ (if Z.leb (acked_max ops) (lx_ackSent (lr_s r)) then [] else [acked_max ops]).
Proof.
  assert (Hok : acks_ok (acked_max ops) (lruns ops (lstart id handle))).
  { induction ops as [|o ops IH] using rev_ind.
    - split; simpl; [done|done|by constructor|]. intros i j x y _ Hi. by rewrite lookup_nil in Hi.
    - unfold lruns in *. rewrite foldl_app. simpl.
      assert (acked_max (ops ++ [o]) = match o with LAck q => Z.max (acked_max ops) q | _ => acked_max ops end) as ->.
      { clear. induction ops as [|x ops IH]; simpl; [destruct o; lia|]. rewrite IH. destruct x, o; lia. }
      by apply step_acks. }
  cbv zeta. split_and!; [apply Hok| |].
  - destruct Hok as [H1 H2 H3 _]. eapply Forall_impl; [exact H3|]. simpl. intros. lia.
  - unfold lruns. rewrite foldl_app. simpl. unfold flush_ack.
    fold (lruns ops (lstart id handle)). destruct Hok as [_ H2 _ _]. rewrite H2, orb_false_r.
    destruct (Z.leb _ _); simpl; rewrite ack_seqs_app; done.
Qed.

(** ** Frames of other connections *)

Lemma forget_lheap i v : ll_heap (forget i v) = ll_heap v.
Proof. unfold forget. by destruct (ll_heap v !! i) as [[c s]|]. Qed.

Lemma put_lheap_ne i j s v : i ≠ j → ll_heap (put_lsession i s v) !! j = ll_heap v !! j.
Proof. intros Hne. unfold put_lsession. simpl. by apply list_lookup_alter_ne. Qed.

(** A frame reaches only the session it names, and only over the connection
    that session was opened on: every other session is left as it is, so frames of
    a dropped connection or of a superseded handle change nothing. *)
Theorem dispatch_reaches_one c f v i c' s :
  ll_heap v !! i = Some (c', s) → c' ≠ c ∨ ll_sessions v !! f_handle f ≠ Some i →
  ll_heap (fst (dispatch c f v)) !! i = Some (c', s).
Proof.
  intros Hl Hne. unfold dispatch. cbv zeta.
  destruct (String.eqb _ OpPing); [done|]. destruct (_ || _); [done|]. destruct (String.eqb _ ""); [done|].
  destruct (ll_sessions v !! f_handle f) as [j|] eqn:Hj; cbn [mbind option_bind]; [|done].
  destruct (ll_heap v !! j) as [[cj sj]|] eqn:Hlj; cbn [mbind option_bind]; [|done].
  case_bool_decide as Hc; [|done]. cbn [negb].
  assert (Hij : j ≠ i) by (intros ->; destruct Hne; congruence).
  assert (Hput : ∀ s', ll_heap (put_lsession j s' v) !! i = Some (c', s)) by (intros s'; by rewrite put_lheap_ne).
  assert (Hfail : ∀ err, ll_heap (fail_session j err v) !! i = Some (c', s)).
  { intros err. unfold fail_session. rewrite Hlj, forget_lheap. apply Hput. }
  destruct (String.eqb _ OpOpen); [apply Hput|]. destruct (String.eqb _ OpAttached); [apply Hput|].
  destruct (String.eqb _ OpLine).
  { destruct (deliver _ _ _ _) as [[s' fs] gone]. destruct gone; cbn [fst]; [rewrite forget_lheap|]; apply Hput. }
  destruct (String.eqb _ OpClosed); [apply Hfail|]. destruct (String.eqb _ OpDetached); [apply Hfail|].
  destruct (String.eqb _ OpError); [apply Hfail|done].
Qed.

(** ** The two ends agree *)

Lemma valid_id_no_nul id : valid_instance_id id = true → str_in NUL id = false ∧ id ≠ "".
Proof.
  intros Hv. unfold valid_instance_id in Hv. apply andb_true_iff in Hv as [[Hlo _]%andb_true_iff Hall]. split.
  - unfold str_in. apply negb_false_iff. clear Hlo. induction id as [|a id IH]; [done|]. simpl in *.
    apply andb_true_iff in Hall as [Ha Hall]. rewrite IH by done. rewrite andb_true_r.
    destruct (Ascii.eqb_spec a NUL) as [->|]; [done|done].
  - by intros ->.
Qed.

(** The engine accepts the hello of a stugan process that holds its secret and
    a well-formed instance id, registers the link under that instance and
    generation, and the frame it answers with is one the process takes as a
    working link. *)
Theorem hello_accepted id ver gen v :
  valid_instance_id id = true → sv_closed v = false →
  let '(v', out) := serve_hello (hello_frame (o_secret (sv_opts v)) id ver gen) v in
  out = HelloAccept (length (sv_links v)) ∧
  ∃ k f, sv_links v' !! length (sv_links v) = Some k ∧ lk_instance k = id ∧ lk_gen k = gen ∧
         lk_ctrl k = [f] ∧ hello_answer f = LinkUp.
Proof.
  intros Hid Hop. destruct (valid_id_no_nul id Hid) as [Hnul Hne]. unfold serve_hello, hello_frame. simpl.
  rewrite String.eqb_refl. simpl. rewrite (proj2 (String.eqb_neq _ _) Hne), Hnul, Hop. simpl. split; [done|].
  eexists _, _. split; [rewrite list_lookup_alter_eq, list_lookup_middle by done; reflexivity|].
  split_and!; reflexivity.
Qed.

(** ** The theorems at concrete inputs *)

Lemma write_chunks_witness :
  let s := new_lsession "net" "h" in
  let '(s1, fs1, h1, _) := @write ascii_tables "PRIVM" s in
  let '(s2, fs2, h2, _) := @write ascii_tables ("SG #a :hi" +:+ CRLF +:+ "QU") s1 in
  @write ascii_tables ("PRIVM" +:+ ("SG #a :hi" +:+ CRLF +:+ "QU")) s =
    (s2, fs1 ++ fs2, h1 || h2, WriteOk (str_len ("PRIVM" +:+ ("SG #a :hi" +:+ CRLF +:+ "QU")))).
Proof. apply (@write_chunks ascii_tables); reflexivity. Defined.

Lemma restore_swallows_witness :
  @relay_lines ascii_tables "m" true ["NICK me"; "USER u"] = (true, [], false) ∧
  @relay_lines ascii_tables "m" true (["NICK me"; "USER u"] ++ "PONG :m" :: ["JOIN #a"; ""]) =
    (false, filter (λ l, l ≠ "") (map (trim_right (Ascii.eqb CR)) ["JOIN #a"; ""]), true).
Proof.
  apply (@restore_swallows ascii_tables); [repeat constructor|reflexivity|]. intros E. vm_compute in E. congruence.
Defined.

Definition demo_llink : llink :=
  MkLlink false (Some 1%nat) [(0%nat, new_lsession "a" "h0"); (1%nat, new_lsession "a" "h1")]
    (<["h0" := 0%nat]> (<["h1" := 1%nat]> ∅)).

Lemma dispatch_reaches_one_witness :
  ll_heap (fst (dispatch 1%nat (eframe OpClosed "h0" "bye") demo_llink)) !! 0%nat = Some (0%nat, new_lsession "a" "h0").
Proof. apply dispatch_reaches_one; [reflexivity|left; congruence]. Defined.

Definition demo_llink_server : server :=
  default (MkServer (MkOptions "" "" 0 0 0 0 0 0 0 0) true [] [] ∅ ∅ ∅ 0 ∅ []) (new_server (MkOptions "s3cret" "1" 0 0 0 0 0 0 0 0)).

Lemma hello_accepted_witness :
  let v := demo_llink_server in
  let '(v', out) := serve_hello (hello_frame (o_secret (sv_opts v)) "0123abcd" "1" 5) v in
  out = HelloAccept (length (sv_links v)) ∧
  ∃ k f, sv_links v' !! length (sv_links v) = Some k ∧ lk_instance k = "0123abcd" ∧ lk_gen k = 5 ∧
         lk_ctrl k = [f] ∧ hello_answer f = LinkUp.
Proof. apply (hello_accepted "0123abcd" "1" 5 demo_llink_server); reflexivity. Defined.
