(* ===== verification/CoreTypes.v ===== *)
(** * The data of the core: networks, buffers, auto-join lists

    [internal/core/types.go], [network.go], the name folding of [sink.go] and
    the name classification of [engine.go].  A [*Channel] is an id into the
    heap of its network, because [Network.Channels] and the lookaside map
    [byFold] both point at it; a Go map is a [gmap]; an enumeration of string
    constants is an inductive type. *)

From Stdlib Require Import ZArith Lia Ascii Bool.
From stdpp Require Import base tactics list gmap strings.
From S2P Require Import Prelude GoStrings Utf8 EngineLine.

#[local] Open Scope Z_scope.

(** ** Names *)

Definition fold_rune (r : Z) : Z :=
  if between 65 90 r then r + 32
  else if Z.eqb r 91 then 123
  else if Z.eqb r 93 then 125
  else if Z.eqb r 92 then 124
  else if Z.eqb r 126 then 94
  else r.

(** [FoldIRC]: [strings.Map] of the rfc1459 case mapping. *)
Definition FoldIRC (s : string) : string := map_runes fold_rune s.

Definition EqualIRC (a b : string) : bool := String.eqb (FoldIRC a) (FoldIRC b).

Definition StatusBuffer : string := "*status".

Definition first_byte (s : string) : option ascii :=
  match s with String a _ => Some a | "" => None end%string.

Definition is_channel_name (name : string) : bool :=
  match first_byte name with
  | Some a => Ascii.eqb a "#" || Ascii.eqb a "&" || Ascii.eqb a "+" || Ascii.eqb a "!"
  | None => false
  end%char.

Definition IsPluginBuffer (name : string) : bool :=
  (1 <? str_len name) && bool_decide (first_byte name = Some "*"%char) && negb (String.eqb name StatusBuffer).

Definition IsQueryBuffer (name : string) : bool :=
  negb (String.eqb name StatusBuffer) && negb (is_channel_name name).

(** ** Types *)

Inductive conn_state := StateDisconnected | StateConnecting | StateRegistered.

Inductive channel_kind := KindChannel | KindQuery | KindStatus.

Inductive msg_kind :=
  | MsgPrivmsg | MsgNotice | MsgAction | MsgJoin | MsgPart | MsgQuit | MsgNick
  | MsgChghost | MsgSetname | MsgTopic | MsgSystem
  | MsgOther (s : string).              (** a kind a script made up *)

#[export] Instance conn_state_eq : EqDecision conn_state.
Proof. solve_decision. Defined.
#[export] Instance channel_kind_eq : EqDecision channel_kind.
Proof. solve_decision. Defined.
#[export] Instance msg_kind_eq : EqDecision msg_kind.
Proof. solve_decision. Defined.

(** The string constant behind a [MsgKind]. *)
Definition kind_string (k : msg_kind) : string :=
  match k with
  | MsgPrivmsg => "privmsg" | MsgNotice => "notice" | MsgAction => "action" | MsgJoin => "join"
  | MsgPart => "part" | MsgQuit => "quit" | MsgNick => "nick" | MsgChghost => "chghost"
  | MsgSetname => "setname" | MsgTopic => "topic" | MsgSystem => "system"
  | MsgOther s => s
  end.

Definition kind_of_string (s : string) : msg_kind :=
  default (MsgOther s)
    (list_find (λ k, kind_string k = s)
       [MsgPrivmsg; MsgNotice; MsgAction; MsgJoin; MsgPart; MsgQuit; MsgNick; MsgChghost; MsgSetname; MsgTopic; MsgSystem]
     ≫= λ '(_, k), Some k).

Definition bufferKind (name : string) : channel_kind :=
  if String.eqb name StatusBuffer then KindStatus
  else if is_channel_name name then KindChannel else KindQuery.

Record member := Member {
  m_nick : string;
  m_account : string;
  m_modes : string;
  m_away : bool;
}.

Record channel := Channel {
  ch_name : string;
  ch_kind : channel_kind;
  ch_topic : string;
  ch_topic_setter : string;
  ch_topic_time : time;
  ch_mode : string;
  ch_members : gmap string member;
  ch_unread : Z;
  ch_highlight : Z;
  ch_state : gmap string string;
}.

Record bouncer_network := BouncerNetwork {
  bn_id : string;
  bn_name : string;
  bn_host : string;
  bn_port : Z;
  bn_tls : bool;
  bn_nick : string;
  bn_state : string;
  bn_error : string;
}.

Record network_params := NetworkParams {
  np_id : string;
  np_name : string;
  np_addr : string;
  np_fallbacks : list string;
  np_tls : bool;
  np_insecure : bool;
  np_nick : string;
  np_user : string;
  np_realname : string;
  np_sasl_user : string;
  np_sasl_pass : string;
  np_channels : list string;
  np_monitor : list string;
  np_channel_keys : gmap string string;
  np_server_pass : string;
  np_perform : list string;
  np_sasl_external : bool;
  np_sasl_scram : bool;
  np_cert_pem : string;
  np_pos : Z;
  np_buffer_order : list string;
  np_join_hold_timeout : Z;
}.

Record message := Message {
  msg_id : string;
  msg_seq : Z;
  msg_network : string;
  msg_buffer : string;
  msg_time : time;
  msg_from : string;
  msg_account : string;
  msg_kind_of : msg_kind;
  msg_text : string;
  msg_tags : gmap string string;
  msg_self : bool;
  msg_highlight : bool;
}.

(** A channel's address. *)
Notation cid := nat.

Record network := Network {
  net_id : string;
  net_name : string;
  net_nick : string;
  net_state : conn_state;
  net_channels : list cid;
  net_by_fold : option (gmap string cid);   (** [None]: the map is nil *)
  net_caps : list string;
  net_params : network_params;
  net_monitor_online : gmap string bool;
  net_bouncer : list bouncer_network;
  net_heap : gmap cid channel;              (** what the ids point at *)
  net_next : cid;                           (** the next fresh id *)
}.

#[export] Instance eta_channel : Eta channel := λ r,
  Channel (ch_name r) (ch_kind r) (ch_topic r) (ch_topic_setter r) (ch_topic_time r) (ch_mode r)
    (ch_members r) (ch_unread r) (ch_highlight r) (ch_state r).
#[export] Instance eta_bouncer_network : Eta bouncer_network := λ r,
  BouncerNetwork (bn_id r) (bn_name r) (bn_host r) (bn_port r) (bn_tls r) (bn_nick r) (bn_state r)
    (bn_error r).
#[export] Instance eta_params : Eta network_params := λ r,
  NetworkParams (np_id r) (np_name r) (np_addr r) (np_fallbacks r) (np_tls r) (np_insecure r) (np_nick r)
    (np_user r) (np_realname r) (np_sasl_user r) (np_sasl_pass r) (np_channels r) (np_monitor r)
    (np_channel_keys r) (np_server_pass r) (np_perform r) (np_sasl_external r) (np_sasl_scram r)
    (np_cert_pem r) (np_pos r) (np_buffer_order r) (np_join_hold_timeout r).
#[export] Instance eta_network : Eta network := λ r,
  Network (net_id r) (net_name r) (net_nick r) (net_state r) (net_channels r) (net_by_fold r) (net_caps r)
    (net_params r) (net_monitor_online r) (net_bouncer r) (net_heap r) (net_next r).

Record user := User { u_id : string; u_name : string; u_networks : list network }.

(** [User.Network]. *)
Definition user_network (u : user) (id : string) : option network :=
  snd <$> list_find (λ n, net_id n = id) (u_networks u).

(** ** Buffers of a network *)

(** The name of the buffer an id points at. *)
Definition chan_name (n : network) (c : cid) : string :=
  match net_heap n !! c with Some ch => ch_name ch | None => "" end.

(** [initByFold]: the last channel with a folded name wins. *)
Definition index_channels (n : network) : gmap string cid :=
  foldl (λ m c, <[FoldIRC (chan_name n c) := c]> m) ∅ (net_channels n).

Definition init_by_fold (n : network) : network :=
  match net_by_fold n with
  | None => n <| net_by_fold := Some (index_channels n) |>
  | Some _ => n
  end.

(** [Network.Channel]; the lookup builds the index when it is missing. *)
Definition by_fold (n : network) : gmap string cid :=
  match net_by_fold n with Some m => m | None => index_channels n end.

Definition net_channel (n : network) (name : string) : network * option cid :=
  let n := init_by_fold n in (n, by_fold n !! FoldIRC name).

Definition empty_channel (name : string) (kind : channel_kind) : channel :=
  Channel name kind "" "" zero_time "" ∅ 0 0 ∅.

Definition get_or_create (n : network) (name : string) (kind : channel_kind) : network * cid * bool :=
  let '(n, found) := net_channel n name in
  match found with
  | Some c => (n, c, false)
  | None =>
      let c := net_next n in
      let n := n <| net_heap ::= <[c := empty_channel name kind]> |> <| net_next ::= S |> in
      let n := n <| net_channels ::= λ l, l ++ [c] |> in
      let n := init_by_fold n in
      (n <| net_by_fold ::= fmap <[FoldIRC name := c]> |>, c, true)
  end.

(** Deleting the first element with a property, in place. *)
Fixpoint remove_first {A} (p : A → bool) (l : list A) : list A :=
  match l with
  | [] => []
  | x :: l => if p x then l else x :: remove_first p l
  end.

Definition net_remove (n : network) (name : string) : network :=
  let n := init_by_fold n in
  let n := n <| net_by_fold ::= fmap (delete (FoldIRC name)) |> in
  n <| net_channels ::= remove_first (λ c, EqualIRC (chan_name n c) name) |>.

(** Assigning through a channel pointer. *)
Definition update_channel (n : network) (c : cid) (f : channel → channel) : network :=
  n <| net_heap ::= alter f c |>.

(** ** The auto-join list and its keys *)

(** The map is iterated in an unspecified order; [lookup_key_unique] shows the
    order does not matter as long as no two keys fold alike, which every
    operation here preserves. *)
Definition lookup_key (keys : gmap string string) (name : string) : option string :=
  (λ x, snd (snd x)) <$> list_find (λ kv, EqualIRC kv.1 name = true) (map_to_list keys).

Definition delete_key (keys : gmap string string) (name : string) : gmap string string :=
  filter (λ kv, EqualIRC kv.1 name = false) keys.

Definition lookup_channel_key (p : network_params) (name : string) : option string :=
  lookup_key (np_channel_keys p) name.

Definition delete_channel_key (p : network_params) (name : string) : network_params :=
  p <| np_channel_keys ::= λ m, delete_key m name |>.

Definition set_channel_key (p : network_params) (name key : string) : network_params * bool :=
  let cur := lookup_channel_key p name in
  if String.eqb key "" then
    match cur with
    | None => (p, false)
    | Some _ => (delete_channel_key p name, true)
    end
  else if bool_decide (cur = Some key) then (p, false)
  else
    let p := delete_channel_key p name in
    (p <| np_channel_keys ::= <[name := key]> |>, true).

Definition add_autojoin (p : network_params) (name key : string) (has_key : bool) : network_params * bool :=
  if negb (is_channel_name name) then (p, false)
  else
    let '(name, changed) :=
      match list_find (λ c, EqualIRC c name = true) (np_channels p) with
      | Some (_, c) => (c, false)
      | None => (name, true)
      end in
    let p := if changed then p <| np_channels ::= λ l, l ++ [name] |> else p in
    if has_key then
      let '(p, set) := set_channel_key p name key in (p, changed || set)
    else (p, changed).

Definition remove_autojoin (p : network_params) (name : string) : network_params * bool :=
  let '(p, changed) :=
    match list_find (λ c, EqualIRC c name = true) (np_channels p) with
    | Some _ => (p <| np_channels ::= remove_first (λ c, EqualIRC c name) |>, true)
    | None => (p, false)
    end in
  match lookup_channel_key p name with
  | Some _ => (delete_channel_key p name, true)
  | None => (p, changed)
  end.

(** ** Snapshots: [Network.clone], [User.clone] *)

(** The clone allocates its channels afresh, numbered in list order; [Caps] is
    not copied. *)
Definition net_clone (n : network) : network :=
  let chans := omap (λ c, net_heap n !! c) (net_channels n) in
  let ids := seq 0 (length chans) in
  let heap := list_to_map (zip ids chans) : gmap cid channel in
  let base := Network (net_id n) (net_name n) (net_nick n) (net_state n) ids None []
                (net_params n) (net_monitor_online n) (net_bouncer n) heap (length chans) in
  base <| net_by_fold := Some (index_channels base) |>.

Definition user_clone (u : user) : user :=
  User (u_id u) (u_name u) (net_clone <$> u_networks u).

(** ** The buffer index *)

(** Searching the list, as the code did before the index existed. *)
Definition search_channel (n : network) (name : string) : option cid :=
  snd <$> list_find (λ c, EqualIRC (chan_name n c) name = true) (net_channels n).

Definition fold_of (n : network) (c : cid) : string := FoldIRC (chan_name n c).

(** Every listed id is allocated, no two buffers fold alike, and the index
    (when built) is the one the list defines. *)
Definition net_wf (n : network) : Prop :=
  Forall (λ c, is_Some (net_heap n !! c) ∧ (c < net_next n)%nat) (net_channels n) ∧
  NoDup (fold_of n <$> net_channels n) ∧
  match net_by_fold n with Some m => m = index_channels n | None => True end.

(** The operations on buffers, as the engine issues them. *)
Inductive net_op :=
  | OpLookup (name : string)
  | OpCreate (name : string) (kind : channel_kind)
  | OpRemove (name : string)
  | OpUpdate (c : cid) (f : channel → channel).

(** No assignment through a channel pointer changes its name. *)
Definition op_ok (o : net_op) : Prop :=
  match o with OpUpdate _ f => ∀ ch, ch_name (f ch) = ch_name ch | _ => True end.

Definition net_step (n : network) (o : net_op) : network :=
  match o with
  | OpLookup name => (net_channel n name).1
  | OpCreate name kind => (get_or_create n name kind).1.1
  | OpRemove name => net_remove n name
  | OpUpdate c f => update_channel n c f
  end.

Lemma foldl_index {A} (f : A → string) (l : list A) (m : gmap string A) k c :
  NoDup (f <$> l) →
  foldl (λ m c, <[f c := c]> m) m l !! k = Some c ↔
  (c ∈ l ∧ f c = k) ∨ (k ∉ f <$> l ∧ m !! k = Some c).
Proof.
  revert m. induction l as [|x l IH]; intros m Hnd; simpl.
  { set_solver. }
  apply NoDup_cons in Hnd as [Hx Hnd]. rewrite IH by done.
  destruct (decide (f x = k)) as [<-|Hk].
  - rewrite lookup_insert_eq. split.
    + intros [[? ?]|[? [= <-]]]; left; set_solver.
    + intros [[Hc Hf]|[Hn _]]; [|set_solver].
      apply elem_of_cons in Hc as [->|Hc]; [by right|]. by left.
  - rewrite lookup_insert_ne by done. set_solver.
Qed.

Lemma index_channels_spec n k c :
  NoDup (fold_of n <$> net_channels n) →
  index_channels n !! k = Some c ↔ c ∈ net_channels n ∧ fold_of n c = k.
Proof.
  intros Hnd. unfold index_channels.
  rewrite (foldl_index (fold_of n)) by done. rewrite lookup_empty.
  split; [intros [?|[_ ?]]; done|by left].
Qed.

Lemma by_fold_index n : net_wf n → by_fold n = index_channels n.
Proof. intros (_ & _ & Hm). unfold by_fold. by destruct (net_by_fold n). Qed.

Lemma fold_nodup_inj n c d :
  NoDup (fold_of n <$> net_channels n) → c ∈ net_channels n → d ∈ net_channels n →
  fold_of n c = fold_of n d → c = d.
Proof.
  generalize (net_channels n). intros l. induction l as [|x l IH]; [set_solver|].
  intros [Hx Hnd]%NoDup_cons. rewrite !elem_of_cons.
  intros [->|Hc] [->|Hd] He; [done| | |by apply IH].
  - destruct Hx. rewrite He. by apply list_elem_of_fmap_2.
  - destruct Hx. rewrite <- He. by apply list_elem_of_fmap_2.
Qed.

Lemma equal_irc_fold n c name : EqualIRC (chan_name n c) name = true ↔ fold_of n c = FoldIRC name.
Proof. unfold EqualIRC, fold_of. by rewrite String.eqb_eq. Qed.

Lemma search_channel_spec n name c :
  NoDup (fold_of n <$> net_channels n) →
  search_channel n name = Some c ↔ c ∈ net_channels n ∧ fold_of n c = FoldIRC name.
Proof.
  intros Hnd. unfold search_channel. split.
  - intros [[i x] [(Hi & Hp & _)%list_find_Some ->]]%fmap_Some. cbn.
    split; [by eapply list_elem_of_lookup_2|by apply equal_irc_fold].
  - intros [Hc Hf]. match goal with |- snd <$> ?o = _ => destruct o as [[i x]|] eqn:E end.
    + apply list_find_Some in E as (Hi & Hp & _). cbn. f_equal.
      apply (fold_nodup_inj n); [done|by eapply list_elem_of_lookup_2|done|].
      rewrite Hf. by apply equal_irc_fold.
    + apply list_find_None in E. rewrite Forall_forall in E. destruct (E c Hc). by apply equal_irc_fold.
Qed.

Lemma init_by_fold_wf n : net_wf n → net_wf (init_by_fold n).
Proof.
  intros (Ha & Hnd & Hm). unfold init_by_fold. destruct (net_by_fold n) eqn:E; [by repeat split; rewrite ?E|].
  by repeat split.
Qed.

Lemma init_by_fold_same n :
  net_channels (init_by_fold n) = net_channels n ∧ net_heap (init_by_fold n) = net_heap n ∧
  net_next (init_by_fold n) = net_next n ∧ net_params (init_by_fold n) = net_params n.
Proof. unfold init_by_fold. by destruct (net_by_fold n). Qed.

(** The lookup through the index is the search through the list. *)
Lemma net_channel_lookup n name : net_wf n → (net_channel n name).2 = search_channel n name.
Proof.
  intros Hwf. pose proof (init_by_fold_wf _ Hwf) as Hwf'. cbn.
  rewrite by_fold_index by done. destruct Hwf as (_ & Hnd & _). destruct Hwf' as (_ & Hnd' & _).
  pose proof (init_by_fold_same n) as (Hc & Hh & _).
  assert (Hs : ∀ c, index_channels (init_by_fold n) !! FoldIRC name = Some c ↔ search_channel n name = Some c).
  { intros c. rewrite index_channels_spec, search_channel_spec by done.
    unfold fold_of, chan_name. by rewrite Hc, Hh. }
  destruct (search_channel n name) as [c|]; [by apply Hs|].
  destruct (index_channels _ !! _) as [c|]; [|done]. by pose proof (proj1 (Hs c) eq_refl).
Qed.

Lemma remove_first_none {A} (p : A → bool) l : Forall (λ x, p x = false) l → remove_first p l = l.
Proof. induction 1 as [|x l Hx _ IH]; [done|]. simpl. by rewrite Hx, IH. Qed.

(** Where folds are distinct, removing the first match removes every match. *)
Lemma remove_first_filter {A} (f : A → string) (k : string) l : NoDup (f <$> l) →
  remove_first (λ x, String.eqb (f x) k) l = filter (λ x, f x ≠ k) l.
Proof.
  induction l as [|x l IH]; intros Hnd; [done|]. apply NoDup_cons in Hnd as [Hx Hnd].
  rewrite filter_cons. cbn [remove_first]. destruct (String.eqb_spec (f x) k) as [<-|Hk].
  - rewrite decide_False by (by intros []). symmetry. apply filter_all.
    apply Forall_forall. intros y Hy He. destruct Hx. rewrite <- He. by apply list_elem_of_fmap_2.
  - rewrite decide_True by done. by rewrite IH.
Qed.

Lemma fold_of_heap n n' c : net_heap n !! c = net_heap n' !! c → fold_of n c = fold_of n' c.
Proof. unfold fold_of, chan_name. by intros ->. Qed.

Lemma fold_of_heaps n n' (l : list cid) : (∀ c, c ∈ l → net_heap n !! c = net_heap n' !! c) →
  fold_of n <$> l = fold_of n' <$> l.
Proof. intros H. apply list_fmap_ext. intros i c Hi. apply fold_of_heap, H. by eapply list_elem_of_lookup_2. Qed.

Lemma net_wf_fresh n c : net_wf n → c ∈ net_channels n → c ≠ net_next n.
Proof. intros (Ha & _ & _) Hc ->. rewrite Forall_forall in Ha. destruct (Ha _ Hc). lia. Qed.

Lemma index_snoc n n' c :
  net_channels n' = net_channels n ++ [c] →
  (∀ d, d ∈ net_channels n → net_heap n' !! d = net_heap n !! d) →
  index_channels n' = <[fold_of n' c := c]> (index_channels n).
Proof.
  intros Hc Hh. unfold index_channels. rewrite Hc, foldl_app. cbn. unfold fold_of. f_equal.
  generalize (∅ : gmap string cid). revert Hh. generalize (net_channels n). intros l.
  induction l as [|d l IH]; intros Hh m0; [done|]. cbn [foldl]. unfold chan_name at 2 4.
  rewrite Hh by set_solver. apply IH. intros. apply Hh. set_solver.
Qed.

Lemma get_or_create_wf n name kind : net_wf n → net_wf (get_or_create n name kind).1.1.
Proof.
  intros Hwf. pose proof (init_by_fold_wf _ Hwf) as Hwf'. unfold get_or_create, net_channel.
  set (n1 := init_by_fold n) in *. destruct (by_fold n1 !! FoldIRC name) as [c|] eqn:E; [done|].
  rewrite (by_fold_index _ Hwf') in E. pose proof Hwf' as (Ha & Hnd & Hm).
  assert (Hb : net_by_fold n1 = Some (index_channels n1)).
  { unfold n1, init_by_fold in *. destruct (net_by_fold n) eqn:En; [|done]. rewrite En in Hm. by rewrite En, Hm. }
  assert (Hh : ∀ d, d ∈ net_channels n1 →
    <[net_next n1 := empty_channel name kind]> (net_heap n1) !! d = net_heap n1 !! d).
  { intros d Hd. apply lookup_insert_ne. intros <-. by apply (net_wf_fresh n1 _ Hwf' Hd). }
  unfold init_by_fold at 1. cbn -[index_channels]. rewrite Hb. cbn -[index_channels]. split_and!.
  - cbn. apply Forall_app. split.
    + eapply Forall_impl; [exact Ha|]. intros d [Hd ?]. split; [|lia].
      by rewrite lookup_insert_ne by lia.
    + constructor; [|constructor]. rewrite lookup_insert_eq. split; [done|lia].
  - cbn. rewrite fmap_app. apply NoDup_app. rewrite (fold_of_heaps _ n1) by exact Hh. split_and!; [done| |apply NoDup_singleton].
    intros k Hk. cbn. rewrite list_elem_of_singleton. unfold fold_of, chan_name. cbn.
    rewrite lookup_insert_eq. cbn. intros ->. apply list_elem_of_fmap in Hk as (d & Hd & Hdn).
    assert (index_channels n1 !! FoldIRC name = Some d) by (by apply index_channels_spec). congruence.
  - cbn -[index_channels]. symmetry. etrans; [apply (index_snoc n1 _ (net_next n1)); [done|exact Hh]|]. f_equal.
    unfold fold_of, chan_name. cbn. by rewrite lookup_insert_eq.
Qed.

Lemma net_remove_wf n name : net_wf n → net_wf (net_remove n name).
Proof.
  intros Hwf. pose proof (init_by_fold_wf _ Hwf) as Hwf'. unfold net_remove.
  set (n1 := init_by_fold n) in *. pose proof Hwf' as (Ha & Hnd & Hm).
  assert (Hb : net_by_fold n1 = Some (index_channels n1)).
  { unfold n1, init_by_fold in *. destruct (net_by_fold n) eqn:En; [|done]. rewrite En in Hm. by rewrite En, Hm. }
  unfold EqualIRC. cbn -[index_channels]. change (λ c, String.eqb (FoldIRC (chan_name _ c)) (FoldIRC name))
    with (λ c, String.eqb (fold_of n1 c) (FoldIRC name)).
  rewrite remove_first_filter by done.
  assert (Hnd2 : NoDup (fold_of n1 <$> filter (λ c, fold_of n1 c ≠ FoldIRC name) (net_channels n1))).
  { eapply sublist_NoDup; [exact Hnd|]. apply fmap_sublist, sublist_filter. }
  split_and!; cbn -[index_channels].
  - apply Forall_forall. intros c [_ Hc]%list_elem_of_filter. rewrite Forall_forall in Ha. by apply Ha.
  - done.
  - rewrite Hb. cbn -[index_channels]. apply map_eq. intros k. apply option_eq. intros c.
    rewrite index_channels_spec by exact Hnd2. cbn -[index_channels]. rewrite list_elem_of_filter.
    rewrite lookup_delete_Some, index_channels_spec by done.
    change (fold_of _ c) with (fold_of n1 c) at 3. naive_solver.
Qed.

Lemma update_channel_wf n c f : (∀ ch, ch_name (f ch) = ch_name ch) → net_wf n → net_wf (update_channel n c f).
Proof.
  intros Hf (Ha & Hnd & Hm).
  assert (Hn : ∀ d, chan_name (update_channel n c f) d = chan_name n d).
  { intros d. unfold chan_name, update_channel. cbn. destruct (decide (c = d)) as [->|Hcd].
    - rewrite lookup_alter_eq. destruct (net_heap n !! d); cbn; [apply Hf|done].
    - by rewrite lookup_alter_ne. }
  split_and!; cbn -[index_channels].
  - eapply Forall_impl; [exact Ha|]. intros d [Hd ?]. split; [|done].
    destruct (decide (c = d)) as [->|Hcd]; [rewrite lookup_alter_eq; by apply fmap_is_Some|by rewrite lookup_alter_ne].
  - erewrite list_fmap_ext; [exact Hnd|]. intros i d _. unfold fold_of. by rewrite Hn.
  - destruct (net_by_fold n); [|done]. rewrite Hm. unfold index_channels. cbn.
    generalize (∅ : gmap string cid). generalize (net_channels n). intros l.
    induction l as [|d l IH]; intros m0; [done|]. cbn. by rewrite Hn, IH.
Qed.

Lemma net_step_wf n o : op_ok o → net_wf n → net_wf (net_step n o).
Proof.
  intros Ho Hwf. destruct o; [by apply init_by_fold_wf|by apply get_or_create_wf|by apply net_remove_wf|].
  by apply update_channel_wf.
Qed.

Lemma net_run_wf n os : Forall op_ok os → net_wf n → net_wf (foldl net_step n os).
Proof. intros Hos. revert n. induction Hos as [|o os Ho _ IH]; intros n Hwf; [done|]. apply IH. by apply net_step_wf. Qed.

(** C9: the lookaside index is invisible: after any sequence of lookups,
    creations, removals and in-place updates on a network that started
    without buffers, [Channel(name)] answers what a case-insensitive search
    of the list answers, and no two buffers of the list have equal names. *)
Theorem buffer_index_transparent n os name :
  net_channels n = [] → net_by_fold n = None → Forall op_ok os →
  let n' := foldl net_step n os in
  (net_channel n' name).2 = search_channel n' name ∧ NoDup (fold_of n' <$> net_channels n').
Proof.
  intros Hc Hb Hos n'. assert (Hwf : net_wf n').
  { apply net_run_wf; [done|]. repeat split; rewrite ?Hc, ?Hb; constructor. }
  split; [by apply net_channel_lookup|apply Hwf].
Qed.

Lemma init_by_fold_idemp n : init_by_fold (init_by_fold n) = init_by_fold n.
Proof. unfold init_by_fold. destruct (net_by_fold n) eqn:E; [by rewrite E|done]. Qed.

Lemma init_by_fold_some n : net_by_fold (init_by_fold n) = Some (by_fold (init_by_fold n)).
Proof. unfold init_by_fold, by_fold. destruct (net_by_fold n) eqn:En; [by rewrite En|done]. Qed.

Lemma get_or_create_found n name kind : net_wf n →
  (net_channel (get_or_create n name kind).1.1 name).2 = Some (get_or_create n name kind).1.2.
Proof.
  intros Hwf. pose proof (get_or_create_wf n name kind Hwf) as Hwf'.
  rewrite net_channel_lookup by done. apply search_channel_spec; [apply Hwf'|].
  pose proof (init_by_fold_wf _ Hwf) as Hwf1. unfold get_or_create, net_channel.
  set (n1 := init_by_fold n) in *. destruct (by_fold n1 !! FoldIRC name) as [c|] eqn:E.
  - rewrite (by_fold_index _ Hwf1) in E. apply index_channels_spec in E; [done|apply Hwf1].
  - unfold init_by_fold at 1 3. cbn -[index_channels]. destruct (net_by_fold n1); cbn -[index_channels];
      (split; [set_solver|]); unfold fold_of, chan_name; cbn; by rewrite lookup_insert_eq.
Qed.

Lemma get_or_create_others n name kind other : net_wf n → FoldIRC other ≠ FoldIRC name →
  (net_channel (get_or_create n name kind).1.1 other).2 = (net_channel n other).2.
Proof.
  intros Hwf Ho. pose proof (get_or_create_wf n name kind Hwf) as Hwf'. revert Hwf'.
  pose proof (init_by_fold_wf _ Hwf) as Hwf1. unfold get_or_create, net_channel.
  set (n1 := init_by_fold n) in *. destruct (by_fold n1 !! FoldIRC name) as [c|] eqn:E; intros Hwf'.
  - cbn [fst snd]. unfold n1. by rewrite init_by_fold_idemp.
  - unfold init_by_fold at 1 2. cbn -[index_channels by_fold].
    unfold n1. rewrite !init_by_fold_some. cbn -[index_channels]. by rewrite lookup_insert_ne.
Qed.

(** [getOrCreate] returns the buffer a lookup of the name then finds; it
    creates one exactly when there was none, empty and of the given kind, and
    leaves every other name's buffer where it was. *)
Theorem get_or_create_spec n name kind :
  net_wf n →
  let '(n', c, created) := get_or_create n name kind in
  net_wf n' ∧
  (net_channel n' name).2 = Some c ∧
  (created = true ↔ (net_channel n name).2 = None) ∧
  (created = true → net_heap n' !! c = Some (empty_channel name kind)) ∧
  ∀ other, FoldIRC other ≠ FoldIRC name → (net_channel n' other).2 = (net_channel n other).2.
Proof.
  intros Hwf. pose proof (get_or_create_wf n name kind Hwf) as H1.
  pose proof (get_or_create_found n name kind Hwf) as H2.
  pose proof (λ o, get_or_create_others n name kind o Hwf) as H3.
  destruct (get_or_create n name kind) as [[n' c] created] eqn:E. cbn [fst snd] in *.
  assert (Hcase : (created = true ↔ (net_channel n name).2 = None) ∧
                  (created = true → net_heap n' !! c = Some (empty_channel name kind))).
  { unfold get_or_create in E. destruct (net_channel n name) as [n1 [c1|]]; [by simplify_eq|].
    injection E as <- <- <-. split; [done|]. intros _. unfold init_by_fold. cbn.
    destruct (net_by_fold n1); cbn; by rewrite lookup_insert_eq. }
  by destruct Hcase.
Qed.

(** [remove] drops the named buffer, whatever casing it is named in, and
    no other. *)
Lemma net_remove_spec n name :
  net_wf n →
  (net_channel (net_remove n name) name).2 = None ∧
  ∀ other, FoldIRC other ≠ FoldIRC name → (net_channel (net_remove n name) other).2 = (net_channel n other).2.
Proof.
  intros Hwf. unfold net_remove, net_channel at 1 2 3.
  unfold init_by_fold at 1 3. cbn -[index_channels by_fold]. rewrite init_by_fold_some. cbn -[index_channels].
  split; [apply lookup_delete_eq|]. intros other Ho. by rewrite lookup_delete_ne.
Qed.

(** ** The auto-join list *)

(** No two stored keys are for names that fold alike. *)
Definition keys_wf (keys : gmap string string) : Prop :=
  ∀ k1 k2, is_Some (keys !! k1) → is_Some (keys !! k2) → FoldIRC k1 = FoldIRC k2 → k1 = k2.

Definition autojoin_wf (p : network_params) : Prop :=
  keys_wf (np_channel_keys p) ∧ NoDup (FoldIRC <$> np_channels p).

Lemma EqualIRC_spec a b : EqualIRC a b = true ↔ FoldIRC a = FoldIRC b.
Proof. unfold EqualIRC. apply String.eqb_eq. Qed.

(** Whatever the order of iteration, there is one entry to find. *)
Lemma lookup_key_unique keys name v : keys_wf keys →
  lookup_key keys name = Some v ↔ ∃ k, keys !! k = Some v ∧ FoldIRC k = FoldIRC name.
Proof.
  intros Hwf. unfold lookup_key. split.
  - intros [[i [k w]] [(Hi & Hp & _)%list_find_Some ->]]%fmap_Some. cbn in *. exists k.
    split; [|by apply EqualIRC_spec]. apply elem_of_map_to_list. by eapply list_elem_of_lookup_2.
  - intros (k & Hk & Hf). match goal with |- _ <$> ?o = _ => destruct o as [[i [k' w]]|] eqn:E end.
    + apply list_find_Some in E as (Hi & Hp & _). cbn in *. apply EqualIRC_spec in Hp.
      apply list_elem_of_lookup_2, elem_of_map_to_list in Hi.
      assert (k' = k) as -> by (apply Hwf; [done|done|congruence]). congruence.
    + apply list_find_None in E. rewrite Forall_forall in E.
      destruct (E (k, v)); [by apply elem_of_map_to_list|]. by apply EqualIRC_spec.
Qed.

Lemma delete_key_lookup keys name k v :
  delete_key keys name !! k = Some v ↔ keys !! k = Some v ∧ FoldIRC k ≠ FoldIRC name.
Proof.
  unfold delete_key. rewrite map_lookup_filter_Some. cbn. unfold EqualIRC. by rewrite String.eqb_neq.
Qed.

Lemma delete_key_wf keys name : keys_wf keys → keys_wf (delete_key keys name).
Proof.
  intros Hwf k1 k2 [v1 [H1 _]%delete_key_lookup] [v2 [H2 _]%delete_key_lookup]. by apply Hwf.
Qed.

Lemma insert_key_wf keys name key : keys_wf keys → keys_wf (<[name := key]> (delete_key keys name)).
Proof.
  intros Hwf k1 k2 [v1 H1] [v2 H2] Hf. apply lookup_insert_Some in H1, H2.
  rewrite delete_key_lookup in H1, H2. destruct H1 as [[<- _]|(? & ? & ?)], H2 as [[<- _]|(? & ? & ?)]; try congruence.
  by apply Hwf.
Qed.

Lemma lookup_key_ext keys keys' name name' : keys_wf keys → keys_wf keys' →
  (∀ v, (∃ k, keys !! k = Some v ∧ FoldIRC k = FoldIRC name) ↔
        (∃ k, keys' !! k = Some v ∧ FoldIRC k = FoldIRC name')) →
  lookup_key keys name = lookup_key keys' name'.
Proof.
  intros H1 H2 He. apply option_eq. intros v. by rewrite !lookup_key_unique.
Qed.

Lemma lookup_key_none keys name : keys_wf keys → lookup_key keys name = None ↔
  ∀ k v, keys !! k = Some v → FoldIRC k ≠ FoldIRC name.
Proof.
  intros Hwf. split.
  - intros Hn k v Hk Hf. assert (lookup_key keys name = Some v) by (apply lookup_key_unique; eauto). congruence.
  - intros Hall. destruct (lookup_key keys name) as [v|] eqn:E; [|done].
    apply lookup_key_unique in E as (k & Hk & Hf); [|done]. by destruct (Hall k v).
Qed.

Lemma delete_key_same keys name : keys_wf keys →
  lookup_key (delete_key keys name) name = None.
Proof. intros Hwf. apply lookup_key_none; [by apply delete_key_wf|]. by intros k v [_ ?]%delete_key_lookup. Qed.

Lemma delete_key_other keys name other : keys_wf keys → FoldIRC other ≠ FoldIRC name →
  lookup_key (delete_key keys name) other = lookup_key keys other.
Proof.
  intros Hwf Ho. apply lookup_key_ext; [by apply delete_key_wf|done|]. intros v.
  setoid_rewrite delete_key_lookup. split; [naive_solver|]. intros (k & Hk & Hf). exists k. split_and!; congruence.
Qed.

(** [setChannelKey] on the map it works on: it stores or clears the key of the
    folded name, and says whether it did anything. *)
Lemma set_channel_key_spec p name key : keys_wf (np_channel_keys p) →
  let '(p', changed) := set_channel_key p name key in
  keys_wf (np_channel_keys p') ∧ np_channels p' = np_channels p ∧
  (changed = false ↔ p' = p) ∧
  lookup_channel_key p' name = (if String.eqb key "" then None else Some key) ∧
  ∀ other, FoldIRC other ≠ FoldIRC name → lookup_channel_key p' other = lookup_channel_key p other.
Proof.
  intros Hwf. unfold set_channel_key. unfold lookup_channel_key at 1.
  destruct (String.eqb_spec key "") as [->|Hne].
  - destruct (lookup_key (np_channel_keys p) name) as [v|] eqn:E; [|by split_and!].
    unfold lookup_channel_key, delete_channel_key. cbn. split_and!; [by apply delete_key_wf|done| |by apply delete_key_same|].
    + split; [done|]. intros Hp. apply (f_equal np_channel_keys) in Hp. cbn in Hp.
      pose proof (delete_key_same (np_channel_keys p) name Hwf). rewrite Hp in *. congruence.
    + intros other Ho. by apply delete_key_other.
  - case_bool_decide as Hk; [by split_and!|].
    unfold lookup_channel_key, delete_channel_key. cbn.
    assert (Hwf' := insert_key_wf _ name key Hwf).
    assert (Hin : lookup_key (<[name := key]> (delete_key (np_channel_keys p) name)) name = Some key).
    { apply lookup_key_unique; [done|]. exists name. by rewrite lookup_insert_eq. }
    split_and!; [done|done| |done|].
    + split; [done|]. intros Hp. apply (f_equal np_channel_keys) in Hp. cbn in Hp. rewrite Hp in Hin. by destruct Hk.
    + intros other Ho. apply lookup_key_ext; [done..|]. intros v.
      setoid_rewrite lookup_insert_Some. setoid_rewrite delete_key_lookup. split.
      * intros (k & [[<- _]|(? & ? & ?)] & Hf); [congruence|eauto].
      * intros (k & Hk' & Hf). exists k. split; [right; split_and!; congruence|done].
Qed.

Lemma channel_found p name :
  match list_find (λ c, EqualIRC c name = true) (np_channels p) with
  | Some (_, c) => c ∈ np_channels p ∧ FoldIRC c = FoldIRC name
  | None => FoldIRC name ∉ FoldIRC <$> np_channels p
  end.
Proof.
  destruct (list_find _ _) as [[i c]|] eqn:E.
  - apply list_find_Some in E as (Hi & Hp & _). split; [by eapply list_elem_of_lookup_2|by apply EqualIRC_spec].
  - apply list_find_None in E. rewrite Forall_forall in E. intros (c & Hf & Hc)%list_elem_of_fmap.
    destruct (E c Hc). by apply EqualIRC_spec.
Qed.

(** [addAutojoin] records a channel once, whatever its casing; a key is
    stored, cleared, or left alone as asked, under the name the list holds;
    the result says whether the parameters changed; other channels keep
    their keys. *)
Theorem add_autojoin_spec p name key has_key :
  autojoin_wf p → is_channel_name name = true →
  let '(p', changed) := add_autojoin p name key has_key in
  autojoin_wf p' ∧
  FoldIRC name ∈ FoldIRC <$> np_channels p' ∧
  (changed = false ↔ p' = p) ∧
  lookup_channel_key p' name =
    (if has_key then if String.eqb key "" then None else Some key else lookup_channel_key p name) ∧
  ∀ other, FoldIRC other ≠ FoldIRC name → lookup_channel_key p' other = lookup_channel_key p other.
Proof.
  intros [Hkeys Hnd] Hname. unfold add_autojoin. rewrite Hname. cbn [negb].
  pose proof (channel_found p name) as Hf. destruct (list_find _ _) as [[i c]|].
  - destruct Hf as [Hc Hfc]. assert (Hin : FoldIRC name ∈ FoldIRC <$> np_channels p).
    { rewrite <- Hfc. by apply list_elem_of_fmap_2. }
    destruct has_key; [|by split_and!].
    pose proof (set_channel_key_spec p c key Hkeys) as Hs. destruct (set_channel_key p c key) as [p' set].
    destruct Hs as (H1 & H2 & H3 & H4 & H5). cbn [orb]. unfold autojoin_wf. rewrite H2. split_and!; try done.
    + rewrite <- H4. apply lookup_key_ext; [done..|]. by rewrite Hfc.
    + intros other Ho. apply H5. congruence.
  - set (p1 := p <| np_channels ::= λ l, l ++ [name] |>).
    assert (Hnd1 : NoDup (FoldIRC <$> np_channels p1)).
    { cbn. rewrite fmap_app. apply NoDup_app. split_and!; [done| |apply NoDup_singleton].
      intros k Hk. cbn. rewrite list_elem_of_singleton. by intros ->. }
    assert (Hin : FoldIRC name ∈ FoldIRC <$> np_channels p1) by (cbn; rewrite fmap_app; set_solver).
    assert (Hneq : ∀ q, np_channels q = np_channels p1 → q ≠ p).
    { intros q Hq ->. cbn in Hq. apply (f_equal length) in Hq. rewrite length_app in Hq. cbn in Hq. lia. }
    destruct has_key; [|].
    + pose proof (set_channel_key_spec p1 name key Hkeys) as Hs. destruct (set_channel_key p1 name key) as [p' set].
      destruct Hs as (H1 & H2 & H3 & H4 & H5). cbn [orb]. unfold autojoin_wf. rewrite H2. split_and!; try done.
      split; [done|]. intros ->. by destruct (Hneq p).
    + split_and!; try done. split; [done|]. intros Hp. by destruct (Hneq p1).
Qed.

(** [removeAutojoin] forgets the channel and its key, whatever casing it
    is named in, reports whether it knew either, and keeps the rest. *)
Lemma remove_autojoin_spec p name :
  autojoin_wf p →
  let '(p', changed) := remove_autojoin p name in
  autojoin_wf p' ∧
  FoldIRC name ∉ FoldIRC <$> np_channels p' ∧
  lookup_channel_key p' name = None ∧
  (changed = false ↔ p' = p) ∧
  ∀ other, FoldIRC other ≠ FoldIRC name →
    lookup_channel_key p' other = lookup_channel_key p other ∧
    (other ∈ np_channels p' ↔ other ∈ np_channels p).
Proof.
  intros [Hkeys Hnd]. unfold remove_autojoin.
  pose proof (channel_found p name) as Hf.
  set (p1 := p <| np_channels := filter (λ c, FoldIRC c ≠ FoldIRC name) (np_channels p) |>).
  assert (Hp1 : ∃ b, match list_find (λ c, EqualIRC c name = true) (np_channels p) with
    | Some _ => (p <| np_channels ::= remove_first (λ c, EqualIRC c name) |>, true) | None => (p, false) end
    = (p1, b) ∧ (b = false → p1 = p) ∧ (b = true → np_channels p1 ≠ np_channels p)).
  { destruct (list_find _ _) as [[i c]|].
    - exists true. destruct Hf as [Hc Hfc]. split_and!; [|done|].
      + unfold p1. cbn. unfold EqualIRC. by rewrite remove_first_filter.
      + cbn. intros _ He. rewrite <- He in Hc. by apply list_elem_of_filter in Hc as [[] _].
    - exists false. assert (Hall : filter (λ c, FoldIRC c ≠ FoldIRC name) (np_channels p) = np_channels p).
      { apply filter_all, Forall_forall. intros c Hc He. apply Hf. rewrite <- He. by apply list_elem_of_fmap_2. }
      split_and!; [|intros _|done]; unfold p1; cbn; rewrite Hall; by destruct p. }
  destruct Hp1 as (b & -> & Hb1 & Hb2).
  assert (Hnd1 : NoDup (FoldIRC <$> np_channels p1)) by (eapply sublist_NoDup; [exact Hnd|apply fmap_sublist, sublist_filter]).
  assert (Hout : FoldIRC name ∉ FoldIRC <$> np_channels p1).
  { cbn. intros (c & Hc & [Hn _]%list_elem_of_filter)%list_elem_of_fmap. congruence. }
  assert (Hoth : ∀ other, FoldIRC other ≠ FoldIRC name → other ∈ np_channels p1 ↔ other ∈ np_channels p).
  { intros other Ho. cbn. rewrite list_elem_of_filter. naive_solver. }
  unfold lookup_channel_key at 1. change (np_channel_keys p1) with (np_channel_keys p).
  destruct (lookup_key (np_channel_keys p) name) as [v|] eqn:E.
  - unfold delete_channel_key, lookup_channel_key, autojoin_wf. cbn. split_and!; try done.
    + by apply delete_key_wf.
    + by apply delete_key_same.
    + split; [done|]. intros Hp. apply (f_equal np_channel_keys) in Hp. cbn in Hp.
      pose proof (delete_key_same (np_channel_keys p) name Hkeys) as Hn. rewrite Hp in Hn. congruence.
    + intros other Ho. split; [by apply delete_key_other|by apply Hoth].
  - split_and!; try done.
    + destruct b; [|naive_solver]. split; [done|]. intros Hp. destruct (Hb2 eq_refl). by rewrite Hp.
    + intros other Ho. split; [done|by apply Hoth].
Qed.

(** ** Snapshots *)

(** What a buffer holds, whatever its address. *)
Definition contents (n : network) (c : cid) : option channel := net_heap n !! c.

Lemma zip_seq_lookup {A} (l : list A) k i x :
  (list_to_map (zip (seq k (length l)) l) : gmap nat A) !! i = Some x ↔ (k ≤ i)%nat ∧ l !! (i - k)%nat = Some x.
Proof.
  revert k. induction l as [|y l IH]; intros k; cbn.
  { rewrite lookup_empty. split; [done|]. by intros [_ ?]. }
  destruct (decide (i = k)) as [->|Hne].
  - rewrite lookup_insert_eq, Nat.sub_diag. cbn. naive_solver lia.
  - rewrite lookup_insert_ne by done. rewrite IH. split.
    + intros [Hle Hl]. split; [lia|]. by replace (i - k)%nat with (S (i - S k)) by lia.
    + intros [Hle Hl]. split; [lia|]. by replace (i - k)%nat with (S (i - S k)) in Hl by lia.
Qed.

Lemma net_clone_channels n : Forall (λ c, is_Some (net_heap n !! c)) (net_channels n) →
  (contents (net_clone n)) <$> net_channels (net_clone n) = contents n <$> net_channels n.
Proof.
  intros Ha. unfold net_clone, contents. cbn -[index_channels].
  set (chans := omap (λ c, net_heap n !! c) (net_channels n)).
  assert (Hch : (λ c, net_heap n !! c) <$> net_channels n = Some <$> chans).
  { unfold chans. induction Ha as [|c l [ch Hc] _ IH]; [done|]. cbn. rewrite Hc. cbn. by rewrite <- IH. }
  rewrite Hch. apply list_eq. intros i. rewrite !list_lookup_fmap.
  destruct (decide (i < length chans)%nat) as [Hi|Hi].
  - rewrite lookup_seq_lt by done. cbn. destruct (lookup_lt_is_Some_2 chans i Hi) as [ch Hch']. rewrite Hch'. cbn.
    f_equal. apply zip_seq_lookup. split; [lia|]. by rewrite Nat.sub_0_r.
  - rewrite lookup_seq_ge by lia. by rewrite lookup_ge_None_2 by lia.
Qed.

Lemma contents_fold n c : fold_of n c = default (FoldIRC "") (FoldIRC ∘ ch_name <$> contents n c).
Proof. unfold fold_of, chan_name, contents. by destruct (net_heap n !! c). Qed.

Lemma net_clone_folds n : net_wf n → fold_of (net_clone n) <$> net_channels (net_clone n) = fold_of n <$> net_channels n.
Proof.
  intros (Ha & _ & _).
  assert (Hfm : ∀ m (l : list cid), fold_of m <$> l = (λ o, default (FoldIRC "") (FoldIRC ∘ ch_name <$> o)) <$> (contents m <$> l)).
  { intros m l. rewrite <- list_fmap_compose. apply list_fmap_ext. intros i c _. apply contents_fold. }
  rewrite !Hfm, net_clone_channels; [done|]. eapply Forall_impl; [exact Ha|]. by intros c [? _].
Qed.

Lemma net_clone_wf n : net_wf n → net_wf (net_clone n).
Proof.
  intros Hwf. pose proof (net_clone_folds n Hwf) as Hf. destruct Hwf as (Ha & Hnd & _).
  split_and!; [|by rewrite Hf|done].
  cbn -[index_channels]. apply Forall_forall. intros c Hc. apply elem_of_seq in Hc.
  split; [|lia]. destruct (lookup_lt_is_Some_2 (omap (λ c, net_heap n !! c) (net_channels n)) c) as [ch Hch]; [lia|].
  exists ch. apply zip_seq_lookup. split; [lia|]. by rewrite Nat.sub_0_r.
Qed.

(** A snapshot holds what the network holds: the same buffers in the same
    order, each name leading to the same contents, and it is well formed, so
    its own index answers lookups. *)
Theorem net_clone_faithful n name :
  net_wf n →
  net_wf (net_clone n) ∧
  contents (net_clone n) <$> net_channels (net_clone n) = contents n <$> net_channels n ∧
  ((net_channel (net_clone n) name).2 ≫= contents (net_clone n)) = ((net_channel n name).2 ≫= contents n).
Proof.
  intros Hwf. pose proof (net_clone_wf n Hwf) as Hwf'.
  assert (Hc : contents (net_clone n) <$> net_channels (net_clone n) = contents n <$> net_channels n).
  { apply net_clone_channels. destruct Hwf as (Ha & _). eapply Forall_impl; [exact Ha|]. by intros c [? _]. }
  split_and!; [done..|]. rewrite !net_channel_lookup by done.
  assert (Hs : ∀ m, net_wf m → search_channel m name ≫= contents m =
    mjoin (snd <$> list_find (λ o, FoldIRC name = default (FoldIRC "") (FoldIRC ∘ ch_name <$> o)) (contents m <$> net_channels m))).
  { intros m _. unfold search_channel. rewrite list_find_fmap. rewrite <- !option_fmap_compose.
    rewrite (list_find_ext _ (λ c, FoldIRC name = default (FoldIRC "") (FoldIRC ∘ ch_name <$> contents m c))).
    - by destruct (list_find _ _) as [[i c]|].
    - intros c. cbn. rewrite equal_irc_fold, contents_fold. split; intros He; symmetry; exact He. }
  by rewrite !Hs, Hc.
Qed.

(** ** Folding in the core and in the engine *)

Lemma high_byte_fold z : 128 ≤ z < 256 → fold_byte (byte_of_z z) = byte_of_z z.
Proof.
  intros Hz. assert (He : byte_z (byte_of_z z) = z) by (apply byte_z_of_z; lia).
  unfold fold_byte. rewrite He. repeat (rewrite between_out by lia).
  repeat match goal with |- context [Ascii.eqb (byte_of_z z) ?c] =>
    destruct (Ascii.eqb_spec (byte_of_z z) c) as [Hc|_];
      [exfalso; apply (f_equal byte_z) in Hc; rewrite He in Hc; vm_compute in Hc; subst; lia|] end.
  done.
Qed.

Lemma encode_fold r : scalar r = true → encode_rune (fold_rune r) = str_map fold_byte (encode_rune r).
Proof.
  intros Hs. pose proof Hs as Hr. apply scalar_spec in Hr.
  destruct (decide (r < 128)) as [Hlt|Hge].
  - assert (∃ k, (k < 128)%nat ∧ r = Z.of_nat k) as (k & Hk & ->) by (exists (Z.to_nat r); lia).
    do 128 (destruct k as [|k]; [vm_compute; reflexivity|]). lia.
  - assert (fold_rune r = r) as ->.
    { unfold fold_rune. rewrite between_out by lia.
      repeat match goal with |- context [Z.eqb ?a ?b] => destruct (Z.eqb_spec a b); [lia|] end. done. }
    divs r. destruct (decide (r < 2048)); [|destruct (decide (r < 65536))].
    + rewrite encode_2 by lia. cbn. by rewrite !high_byte_fold by lia.
    + rewrite encode_3 by (done || lia). cbn. by rewrite !high_byte_fold by lia.
    + rewrite encode_4 by lia. cbn. by rewrite !high_byte_fold by lia.
Qed.

Lemma fold_rune_nonneg r : 0 ≤ r → 0 ≤ fold_rune r.
Proof. intros. unfold fold_rune. repeat (destruct (_ : bool); [lia|]). done. Qed.

Lemma str_map_app f a b : str_map f (a +:+ b) = str_map f a +:+ str_map f b.
Proof. induction a as [|c a IH]; cbn; [done|]. by rewrite IH. Qed.

(** On valid UTF-8 the rune-wise folding of the core ([FoldIRC]) is the
    byte-wise folding of the engine ([fold]): the two halves of the program
    agree on which names are equal. *)
Theorem fold_irc_is_fold s : valid_utf8 s = true → FoldIRC s = fold s.
Proof.
  intros Hv. rewrite <- (to_valid_valid s Hv). unfold to_valid, FoldIRC.
  pose proof (runes_scalar s) as Hl. revert Hl. generalize (fst <$> runes s). intros l Hl.
  rewrite map_runes_of_runes; [|done|].
  2: { eapply Forall_impl; [exact Hl|]. intros r Hr%scalar_spec. apply fold_rune_nonneg. lia. }
  unfold of_runes, fold. induction Hl as [|r l Hr _ IH]; [done|].
  rewrite !fmap_cons, !str_concat_cons, str_map_app, IH. by rewrite encode_fold.
Qed.

(** On invalid UTF-8 they part: every undecodable byte folds to U+FFFD, so two
    Latin-1 channel names the server holds apart are one buffer to the core. *)
Lemma fold_irc_conflates :
  let a := String "#" (String (byte_of_z 233) "") in
  let b := String "#" (String (byte_of_z 232) "") in
  EqualIRC a b = true ∧ fold a ≠ fold b.
Proof. split; [by vm_compute|]. intros H. vm_compute in H. done. Qed.

(** ** Witnesses *)

Definition sample_params : network_params :=
  NetworkParams "libera" "Libera" "irc.libera.chat:6697" [] true false "me" "me" "Me" "" "" ["#Stugan"] []
    {[ "#Stugan" := "k1" ]} "" [] false false "" 0 [] 0.

Definition sample_net : network :=
  Network "libera" "Libera" "me" StateRegistered [] None [] sample_params ∅ [] ∅ 0%nat.

Definition sample_ops : list net_op :=
  [OpCreate "#A[x]" KindChannel; OpCreate "bob" KindQuery; OpLookup "BOB"; OpRemove "#a{X}";
   OpCreate "#c" KindChannel; OpUpdate 1%nat (λ ch, ch <| ch_topic := "t" |>)].

Lemma sample_ops_ok : Forall op_ok sample_ops.
Proof. repeat constructor. Qed.

Lemma sample_net_wf : net_wf (foldl net_step sample_net sample_ops).
Proof. apply net_run_wf; [exact sample_ops_ok|]. repeat split; constructor. Qed.

Lemma buffer_index_transparent_witness :
  (net_channel (foldl net_step sample_net sample_ops) "BoB").2 = Some 1%nat ∧
  ((net_channel (foldl net_step sample_net sample_ops) "BoB").2 =
     search_channel (foldl net_step sample_net sample_ops) "BoB" ∧
   NoDup (fold_of (foldl net_step sample_net sample_ops) <$> net_channels (foldl net_step sample_net sample_ops))).
Proof.
  split; [vm_compute; reflexivity|].
  exact (buffer_index_transparent sample_net sample_ops "BoB" eq_refl eq_refl sample_ops_ok).
Defined.

Lemma get_or_create_spec_witness :
  let n := foldl net_step sample_net sample_ops in
  (get_or_create n "#C" KindChannel).2 = false ∧ (get_or_create n "#d" KindChannel).2 = true ∧
  let '(n', c, created) := get_or_create n "#d" KindChannel in
  net_wf n' ∧
  (net_channel n' "#d").2 = Some c ∧
  (created = true ↔ (net_channel n "#d").2 = None) ∧
  (created = true → net_heap n' !! c = Some (empty_channel "#d" KindChannel)) ∧
  ∀ other, FoldIRC other ≠ FoldIRC "#d" → (net_channel n' other).2 = (net_channel n other).2.
Proof.
  split; [vm_compute; reflexivity|]. split; [vm_compute; reflexivity|].
  exact (get_or_create_spec _ "#d" KindChannel sample_net_wf).
Defined.

Lemma sample_params_wf : autojoin_wf sample_params.
Proof.
  split; [|apply NoDup_singleton]. intros k1 k2 [v1 H1] [v2 H2] _. cbn in H1, H2.
  apply lookup_singleton_Some in H1 as [<- _], H2 as [<- _]. done.
Qed.

Lemma add_autojoin_spec_witness :
  let '(p', changed) := add_autojoin sample_params "#STUGAN" "k2" true in
  autojoin_wf p' ∧
  FoldIRC "#STUGAN" ∈ FoldIRC <$> np_channels p' ∧
  (changed = false ↔ p' = sample_params) ∧
  lookup_channel_key p' "#STUGAN" = Some "k2" ∧
  ∀ other, FoldIRC other ≠ FoldIRC "#STUGAN" →
    lookup_channel_key p' other = lookup_channel_key sample_params other.
Proof. exact (add_autojoin_spec sample_params "#STUGAN" "k2" true sample_params_wf eq_refl). Defined.

Lemma net_clone_faithful_witness :
  let n := foldl net_step sample_net sample_ops in
  net_wf (net_clone n) ∧
  contents (net_clone n) <$> net_channels (net_clone n) = contents n <$> net_channels n ∧
  ((net_channel (net_clone n) "BOB").2 ≫= contents (net_clone n)) = ((net_channel n "BOB").2 ≫= contents n).
Proof. exact (net_clone_faithful _ "BOB" sample_net_wf). Defined.

Lemma fold_irc_is_fold_witness : FoldIRC "#Caf[É]" = fold "#Caf[É]" ∧ fold "#Caf[É]" = "#caf{É}"%string.
Proof. split; [apply fold_irc_is_fold; vm_compute; reflexivity|vm_compute; reflexivity]. Defined.
