(* ===== verification/CoreEvent.v ===== *)
(** * Events of the core

    [internal/core/event.go] and the part of [engine.go] that commits an event
    to a network: [applyLocked], one definition per case of its switch, with
    the helpers that keep mode strings and member lists.  A case is a function
    of the network, the event and the clock; what [applyLocked] reads or writes
    elsewhere in the engine (remembered buffer state, pending join keys) is an
    argument, and [CoreEngine] supplies it. *)

From Stdlib Require Import ZArith Lia Ascii Bool.
From stdpp Require Import base tactics list gmap strings sorting.
From S2P Require Import Prelude GoStrings Utf8 EngineLine CoreTypes.

#[local] Open Scope Z_scope.

(** ** The event record *)

Inductive event_type :=
  | EvMessageIn | EvMessageOut | EvJoin | EvPart | EvKick | EvQuit | EvNick | EvTopic
  | EvConnect | EvDisconnect | EvCommand | EvNames | EvAway | EvAccount | EvChgHost | EvSetName
  | EvHistoryTarget | EvHistoryBatch | EvBouncerNetwork | EvInvite | EvMode | EvListItem | EvListEnd
  | EvTyping | EvReact | EvRedact | EvNumeric | EvMonitor | EvSetState | EvSync.

#[export] Instance event_type_eq : EqDecision event_type.
Proof. solve_decision. Defined.

Record member_mode := MemberMode { mm_nick : string; mm_symbol : string; mm_add : bool }.

Record event := Event {
  evt_type : event_type;
  evt_network : string;
  evt_time : time;
  evt_message : option message;
  evt_nick : string;
  evt_new_nick : string;
  evt_buffer : string;
  evt_account : string;
  evt_text : string;
  evt_state : conn_state;
  evt_topic_meta : bool;
  evt_target : string;
  evt_kicker : string;
  evt_command : string;
  evt_args : option (list string);      (** [None]: a nil slice *)
  evt_members : list member;
  evt_member_modes : list member_mode;
  evt_chan_modes : string;
  evt_bouncer : option bouncer_network;
  evt_away : bool;
  evt_online : bool;
  evt_count : Z;
  evt_resumed : bool;
  evt_sync : option nat;                (** the callback of a barrier, by number *)
}.

#[export] Instance eta_event : Eta event := λ r,
  Event (evt_type r) (evt_network r) (evt_time r) (evt_message r) (evt_nick r) (evt_new_nick r)
    (evt_buffer r) (evt_account r) (evt_text r) (evt_state r) (evt_topic_meta r) (evt_target r)
    (evt_kicker r) (evt_command r) (evt_args r) (evt_members r) (evt_member_modes r)
    (evt_chan_modes r) (evt_bouncer r) (evt_away r) (evt_online r) (evt_count r) (evt_resumed r) (evt_sync r).
#[export] Instance eta_message : Eta message := λ r,
  Message (msg_id r) (msg_seq r) (msg_network r) (msg_buffer r) (msg_time r) (msg_from r)
    (msg_account r) (msg_kind_of r) (msg_text r) (msg_tags r) (msg_self r) (msg_highlight r).
#[export] Instance eta_member : Eta member := λ r,
  Member (m_nick r) (m_account r) (m_modes r) (m_away r).

(** A composite literal that names only the type, the network and the time. *)
Definition new_event (ty : event_type) (network : string) (t : time) : event :=
  Event ty network t None "" "" "" "" "" StateDisconnected false "" "" "" None [] [] "" None
    false false 0 false None.

Definition event_args (ev : event) : list string := default [] (evt_args ev).

(** [Message{Network: …, Buffer: …, Time: …, From: …, Kind: …, Text: …}]. *)
Definition new_message (network buffer : string) (t : time) (from : string) (kind : msg_kind)
    (text : string) : message :=
  Message "" 0 network buffer t from "" kind text ∅ false false.

(** ** Mode strings *)

Definition membershipPrefixOrder : string := "~&@%+".

Definition prefix_rank (b : ascii) : nat :=
  match index_byte b membershipPrefixOrder with
  | Some i => i
  | None => String.length membershipPrefixOrder
  end.

(** The scan of [addPrefix]: before the first symbol of a lower rank. *)
Fixpoint insert_prefix (sr : nat) (sym modes : string) : string :=
  match modes with
  | "" => sym
  | String b rest =>
      if (sr <? prefix_rank b)%nat then sym +:+ modes else String b (insert_prefix sr sym rest)
  end%string.

Definition addPrefix (modes sym : string) : string :=
  match sym with
  | "" => modes
  | String s _ => if contains_str sym modes then modes else insert_prefix (prefix_rank s) sym modes
  end%string.

(** The flag set a change string makes of another: [+] and [-] switch between
    adding and removing. *)
Fixpoint mode_changes (adding : bool) (flags : list Z) (set : gset Z) : gset Z :=
  match flags with
  | [] => set
  | r :: flags =>
      if Z.eqb r 43 then mode_changes true flags set
      else if Z.eqb r 45 then mode_changes false flags set
      else mode_changes adding flags (if adding then {[ r ]} ∪ set else set ∖ {[ r ]})
  end.

Definition mode_set_of (current : string) : gset Z :=
  if has_prefix "+" current then list_to_set (fst <$> runes (str_drop 1 current)) else ∅.

Definition show_modes (set : gset Z) : string :=
  if decide (set = ∅) then "" else "+" +:+ of_runes (merge_sort Z.le (elements set)).

Definition updateChannelMode (current change : string) : string :=
  let changeFlags := (cut_byte SP (trim_space change)).1.1 in
  if negb (has_prefix "+" changeFlags) && negb (has_prefix "-" changeFlags) then changeFlags
  else show_modes (mode_changes true (fst <$> runes changeFlags) (mode_set_of current)).

(** ** Bouncer attributes: [MergeBouncerAttrs] *)

Definition merge_attr (patch old : bouncer_network) (k : string) : bouncer_network :=
  if String.eqb k "name" then old <| bn_name := bn_name patch |>
  else if String.eqb k "host" then old <| bn_host := bn_host patch |>
  else if String.eqb k "port" then old <| bn_port := bn_port patch |>
  else if String.eqb k "tls" then old <| bn_tls := bn_tls patch |>
  else if String.eqb k "nickname" then old <| bn_nick := bn_nick patch |>
  else if String.eqb k "state" then old <| bn_state := bn_state patch |>
  else if String.eqb k "error" then old <| bn_error := bn_error patch |>
  else old.

Definition MergeBouncerAttrs (old patch : bouncer_network) (keys : list string) : bouncer_network :=
  foldl (merge_attr patch) old keys.

(** ** Committing an event to a network: [applyLocked]

    What a case returns: the network it leaves, the lines it emits, whether
    observers need a snapshot, whether the stored parameters changed. *)

Record applied := Applied {
  ap_net : network;
  ap_emit : list message;
  ap_changed : bool;
  ap_persist : bool;
}.

Section apply.
Context `{UnicodeTables} (now : time).

(** The closures [sys] and [line]. *)
Definition sys (n : network) (buffer text : string) : message :=
  new_message (net_id n) buffer now "" MsgSystem text.

Definition line (n : network) (kind : msg_kind) (buffer from text : string) : message :=
  new_message (net_id n) buffer now from kind text.

Definition put_member (n : network) (c : cid) (nick : string) (m : member) : network :=
  update_channel n c (λ ch, ch <| ch_members ::= <[FoldIRC nick := m]> |>).

Definition del_member (n : network) (c : cid) (nick : string) : network :=
  update_channel n c (λ ch, ch <| ch_members ::= delete (FoldIRC nick) |>).

(** [for _, c := range n.Channels { if m, ok := c.Members[FoldIRC(nick)]; ok { … } }]:
    the body gives the channel it leaves and the lines it emits; the flag says
    whether it ran at all. *)
Definition each_member (n : network) (nick : string)
    (body : channel → member → channel * list message) : network * list message * bool :=
  foldl (λ '(n, out, hit) c,
    match net_heap n !! c with
    | Some ch =>
        match ch_members ch !! FoldIRC nick with
        | Some m => let '(ch', ls) := body ch m in (update_channel n c (λ _, ch'), out ++ ls, true)
        | None => (n, out, hit)
        end
    | None => (n, out, hit)
    end) (n, [], false) (net_channels n).

(** [applyPendingStateLocked]: [pending] is what a plugin set on this network,
    by folded buffer name. *)
Definition apply_pending_state (pending : gmap string (gmap string string)) (n : network) (c : cid)
    : network :=
  let st := default ∅ (pending !! FoldIRC (chan_name n c)) in
  if decide (st = ∅) then n else update_channel n c (λ ch, ch <| ch_state := st |>).

Definition apply_set_state (n : network) (ev : event) : applied :=
  Applied (n <| net_state := evt_state ev |>) [] true false.

Definition resumed_channel (pending : gmap string (gmap string string)) (n : network) (ch : string)
    : network :=
  if String.eqb ch "" then n
  else
    let '(n, c, created) := get_or_create n ch KindChannel in
    if created then apply_pending_state pending n c else n.

Definition apply_connect (pending : gmap string (gmap string string)) (n : network) (ev : event)
    : applied :=
  let n := n <| net_state := StateRegistered |> in
  let n := if String.eqb (evt_nick ev) "" then n else n <| net_nick := evt_nick ev |> in
  let '(n, verb) :=
    if evt_resumed ev then (foldl (resumed_channel pending) n (event_args ev), "resumed ")
    else (n, "connected to ") in
  Applied n [sys n StatusBuffer (verb +:+ net_name n +:+ " as " +:+ net_nick n)] true false.

Definition clear_members (n : network) (c : cid) : network :=
  update_channel n c (λ ch, ch <| ch_members := ∅ |>).

Definition apply_disconnect (n : network) (ev : event) : applied :=
  let n := n <| net_state := StateDisconnected |> in
  let msg := "disconnected" +:+ (if String.eqb (evt_text ev) "" then "" else ": " +:+ evt_text ev) in
  let out := [sys n StatusBuffer msg] in
  let n := n <| net_monitor_online := ∅ |> <| net_bouncer := [] |> in
  Applied (foldl clear_members n (net_channels n)) out true false.

(** [highlight] is [Highlighter.Match]. *)
Definition apply_message_in (pending : gmap string (gmap string string))
    (highlight : string → string → bool) (n : network) (ev : event) : applied :=
  match evt_message ev with
  | None => Applied n [] false false
  | Some m =>
      let m :=
        if negb (msg_self m) &&
           bool_decide (msg_kind_of m = MsgPrivmsg ∨ msg_kind_of m = MsgNotice ∨ msg_kind_of m = MsgAction)
        then m <| msg_highlight := highlight (msg_text m) (net_nick n) |> else m in
      let '(n, c, created) := get_or_create n (msg_buffer m) (bufferKind (msg_buffer m)) in
      let n := if created then apply_pending_state pending n c else n in
      Applied n [m] created false
  end.

Definition apply_bouncer_network (n : network) (ev : event) : applied :=
  let bs := net_bouncer n in
  let bs' :=
    match evt_bouncer ev with
    | Some b =>
        match list_find (λ x, bn_id x = bn_id b) bs with
        | Some (i, old) =>
            <[i := match evt_args ev with None => b | Some keys => MergeBouncerAttrs old b keys end]> bs
        | None => bs ++ [b]
        end
    | None =>
        if String.eqb (evt_target ev) "" then []
        else filter (λ x, bn_id x ≠ evt_target ev) bs
    end in
  Applied (n <| net_bouncer := bs' |>) [] true false.

Definition apply_history_target (n : network) (ev : event) : applied :=
  let '(n, _, created) := get_or_create n (evt_buffer ev) KindQuery in
  Applied n [] created false.

Definition apply_names (n : network) (ev : event) : applied :=
  let '(n, c, _) := get_or_create n (evt_buffer ev) KindChannel in
  Applied (foldl (λ n m, put_member n c (m_nick m) m) n (evt_members ev)) [] true false.

Definition apply_away (n : network) (ev : event) : applied :=
  let '(n, _, hit) := each_member n (evt_nick ev) (λ ch m,
    (ch <| ch_members ::= <[FoldIRC (evt_nick ev) := m <| m_away := evt_away ev |>]> |>, [])) in
  Applied n [] hit false.

Definition apply_account (n : network) (ev : event) : applied :=
  let '(n, _, hit) := each_member n (evt_nick ev) (λ ch m,
    (ch <| ch_members ::= <[FoldIRC (evt_nick ev) := m <| m_account := evt_account ev |>]> |>, [])) in
  Applied n [] hit false.

Definition apply_identity (n : network) (ev : event) : applied :=
  let '(_, out, _) := each_member n (evt_nick ev) (λ ch m,
    (ch, [if decide (evt_type ev = EvSetName)
          then line n MsgSetname (ch_name ch) (m_nick m)
                 (m_nick m +:+ " changed their name to " +:+ go_quote (evt_text ev))
          else line n MsgChghost (ch_name ch) (m_nick m)
                 (m_nick m +:+ " changed host to " +:+ evt_text ev)])) in
  Applied n out false false.

Definition apply_invite (n : network) (ev : event) : applied :=
  if EqualIRC (evt_new_nick ev) (net_nick n) then
    Applied n [sys n StatusBuffer (evt_nick ev +:+ " invited you to " +:+ evt_buffer ev +:+
                 " — /join " +:+ evt_buffer ev +:+ " to accept")] false false
  else
    match net_channel n (evt_buffer ev) with
    | (n, Some _) =>
        Applied n [sys n (evt_buffer ev) (evt_nick ev +:+ " invited " +:+ evt_new_nick ev +:+ " to " +:+
                     evt_buffer ev)] false false
    | (n, None) => Applied n [] false false
    end.

Definition apply_monitor (n : network) (ev : event) : applied :=
  let friends : gset string := list_to_set (FoldIRC <$> np_monitor (net_params n)) in
  let '(online, changed) :=
    foldl (λ '(online, changed) nk,
      let lk := FoldIRC nk in
      if decide (lk ∈ friends) then (<[lk := evt_online ev]> online, true) else (online, changed))
      (net_monitor_online n, false) (event_args ev) in
  Applied (n <| net_monitor_online := online |>) [] changed false.

(** [key] is what [takePendingKey] would return; the caller forgets it when we
    are the one joining. *)
Definition apply_join (pending : gmap string (gmap string string)) (key : option string)
    (n : network) (ev : event) : applied :=
  let '(n, c, created) := get_or_create n (evt_buffer ev) KindChannel in
  let n := if created then apply_pending_state pending n c else n in
  let n := put_member n c (evt_nick ev) (Member (evt_nick ev) (evt_account ev) "" false) in
  let out := [line n MsgJoin (evt_buffer ev) (evt_nick ev)
                (evt_nick ev +:+ " has joined " +:+ evt_buffer ev)] in
  if EqualIRC (evt_nick ev) (net_nick n) then
    let '(p, stored) := add_autojoin (net_params n) (evt_buffer ev) (default "" key)
                          (bool_decide (is_Some key)) in
    Applied (n <| net_params := p |>) out true stored
  else Applied n out true false.

Definition with_reason (text reason : string) : string :=
  if String.eqb reason "" then text else text +:+ " (" +:+ reason +:+ ")".

Definition apply_part (n : network) (ev : event) : applied :=
  let '(n, persist) :=
    if EqualIRC (evt_nick ev) (net_nick n) then
      let n := net_remove n (evt_buffer ev) in
      let '(p, forgot) := remove_autojoin (net_params n) (evt_buffer ev) in
      (n <| net_params := p |>, forgot)
    else
      match net_channel n (evt_buffer ev) with
      | (n, Some c) => (del_member n c (evt_nick ev), false)
      | (n, None) => (n, false)
      end in
  let text := with_reason (evt_nick ev +:+ " has left " +:+ evt_buffer ev) (evt_text ev) in
  Applied n [line n MsgPart (evt_buffer ev) (evt_nick ev) text] true persist.

Definition apply_kick (n : network) (ev : event) : applied :=
  let self := EqualIRC (evt_nick ev) (net_nick n) in
  let text :=
    if self then "you were kicked from " +:+ evt_buffer ev +:+ " by " +:+ evt_kicker ev
    else evt_nick ev +:+ " was kicked from " +:+ evt_buffer ev +:+ " by " +:+ evt_kicker ev in
  let n :=
    match net_channel n (evt_buffer ev) with
    | (n, Some c) => if self then clear_members n c else del_member n c (evt_nick ev)
    | (n, None) => n
    end in
  Applied n [line n MsgPart (evt_buffer ev) (evt_nick ev) (with_reason text (evt_text ev))] true false.

Definition apply_quit (n : network) (ev : event) : applied :=
  let text := with_reason (evt_nick ev +:+ " has quit") (evt_text ev) in
  let '(n', out, hit) := each_member n (evt_nick ev) (λ ch _,
    (ch <| ch_members ::= delete (FoldIRC (evt_nick ev)) |>,
     [line n MsgQuit (ch_name ch) (evt_nick ev) text])) in
  Applied n' out hit false.

Definition apply_nick (n : network) (ev : event) : applied :=
  let self := EqualIRC (net_nick n) (evt_nick ev) in
  let n := if self then n <| net_nick := evt_new_nick ev |> else n in
  let '(n', out, hit) := each_member n (evt_nick ev) (λ ch mem,
    (ch <| ch_members ::= λ ms, <[FoldIRC (evt_new_nick ev) := mem <| m_nick := evt_new_nick ev |>]>
                                  (delete (FoldIRC (evt_nick ev)) ms) |>,
     [line n MsgNick (ch_name ch) (evt_nick ev)
        (evt_nick ev +:+ " is now known as " +:+ evt_new_nick ev)])) in
  Applied n' out (self || hit) false.

Definition member_mode_change (c : cid) (st : network * bool) (mm : member_mode) : network * bool :=
  let '(n, changed) := st in
  match ch ← net_heap n !! c; ch_members ch !! FoldIRC (mm_nick mm) with
  | Some m =>
      let modes := if mm_add mm then addPrefix (m_modes m) (mm_symbol mm)
                   else remove_all (mm_symbol mm) (m_modes m) in
      (put_member n c (mm_nick mm) (m <| m_modes := modes |>), true)
  | None => (n, changed)
  end.

Definition apply_mode (n : network) (ev : event) : applied :=
  match net_channel n (evt_buffer ev) with
  | (n, None) => Applied n [] false false
  | (n, Some c) =>
      let '(n, changed) := foldl (member_mode_change c) (n, false) (evt_member_modes ev) in
      if String.eqb (evt_nick ev) "" then
        Applied (update_channel n c (λ ch, ch <| ch_mode := evt_text ev |>)) [] true false
      else if negb (String.eqb (evt_text ev) "") then
        let change := if String.eqb (evt_chan_modes ev) "" then evt_text ev else evt_chan_modes ev in
        Applied (update_channel n c (λ ch, ch <| ch_mode ::= λ m, updateChannelMode m change |>))
          [sys n (evt_buffer ev) (evt_nick ev +:+ " sets mode " +:+ evt_text ev)] true false
      else Applied n [] changed false
  end.

Definition apply_topic (n : network) (ev : event) : applied :=
  let '(n, c, _) := get_or_create n (evt_buffer ev) KindChannel in
  let n := if evt_topic_meta ev then n
           else update_channel n c (λ ch, ch <| ch_topic := evt_text ev |>) in
  if String.eqb (evt_nick ev) "" then Applied n [] true false
  else
    let n := update_channel n c (λ ch, ch <| ch_topic_setter := evt_nick ev |>) in
    let n := if time_is_zero (evt_time ev) then n
             else update_channel n c (λ ch, ch <| ch_topic_time := evt_time ev |>) in
    let out :=
      if evt_topic_meta ev then []
      else if negb (String.eqb (evt_text ev) "") then
        [sys n (evt_buffer ev) (evt_nick ev +:+ " set topic: " +:+ evt_text ev)]
      else [sys n (evt_buffer ev) (evt_nick ev +:+ " cleared the topic")] in
    Applied n out true false.

(** The switch of [applyLocked].  Events it has no case for change nothing. *)
Definition apply_event (pending : gmap string (gmap string string)) (key : option string)
    (highlight : string → string → bool) (n : network) (ev : event) : applied :=
  match evt_type ev with
  | EvSetState => apply_set_state n ev
  | EvConnect => apply_connect pending n ev
  | EvDisconnect => apply_disconnect n ev
  | EvMessageIn => apply_message_in pending highlight n ev
  | EvBouncerNetwork => apply_bouncer_network n ev
  | EvHistoryTarget => apply_history_target n ev
  | EvNames => apply_names n ev
  | EvAway => apply_away n ev
  | EvAccount => apply_account n ev
  | EvChgHost | EvSetName => apply_identity n ev
  | EvInvite => apply_invite n ev
  | EvMonitor => apply_monitor n ev
  | EvJoin => apply_join pending key n ev
  | EvPart => apply_part n ev
  | EvKick => apply_kick n ev
  | EvQuit => apply_quit n ev
  | EvNick => apply_nick n ev
  | EvMode => apply_mode n ev
  | EvTopic => apply_topic n ev
  | _ => Applied n [] false false
  end.
End apply.
