(* ===== verification/CoreRoster.v ===== *)
(** * Who is in which channel

    The events of [CoreEvent] against an abstract account of membership: a
    roster maps the folded name of every buffer to the folded nicks in it.
    Every event acts on the roster as [roster_event] says ([roster_refines]),
    leaves the network well formed ([events_keep_network]), and reports a
    change whenever an observer could see one ([quiet_events_invisible]). *)

From Stdlib Require Import ZArith Lia Ascii Bool.
From stdpp Require Import base tactics list gmap strings sorting.
From S2P Require Import Prelude GoStrings Utf8 EngineLine CoreTypes CoreEvent.

#[local] Open Scope Z_scope.

(** ** The index under updates *)

Definition keeps_name (f : channel → channel) : Prop := ∀ ch, ch_name (f ch) = ch_name ch.

Lemma chan_name_update n c f d : keeps_name f → chan_name (update_channel n c f) d = chan_name n d.
Proof.
  intros Hf. unfold chan_name, update_channel. cbn. destruct (decide (c = d)) as [->|Hcd].
  - rewrite lookup_alter_eq. destruct (net_heap n !! d); cbn; [apply Hf|done].
  - by rewrite lookup_alter_ne.
Qed.

Lemma index_ext n n' : net_channels n' = net_channels n →
  (∀ c, c ∈ net_channels n → chan_name n' c = chan_name n c) → index_channels n' = index_channels n.
Proof.
  intros Hc Hn. unfold index_channels. rewrite Hc. revert Hn. generalize (∅ : gmap string cid).
  generalize (net_channels n). intros l. induction l as [|d l IH]; intros m0 Hn; [done|]. cbn.
  rewrite Hn by set_solver. apply IH. set_solver.
Qed.

Lemma index_update n c f : keeps_name f → index_channels (update_channel n c f) = index_channels n.
Proof. intros Hf. apply index_ext; [done|]. intros d _. by apply chan_name_update. Qed.

Lemma index_elem n k c : net_wf n → index_channels n !! k = Some c → c ∈ net_channels n ∧ is_Some (net_heap n !! c).
Proof.
  intros (Ha & Hnd & _) [Hc _]%index_channels_spec; [|done]. split; [done|].
  rewrite Forall_forall in Ha. by apply Ha.
Qed.

Lemma index_inj n k1 k2 c : net_wf n →
  index_channels n !! k1 = Some c → index_channels n !! k2 = Some c → k1 = k2.
Proof. intros (_ & Hnd & _) [_ <-]%index_channels_spec [_ <-]%index_channels_spec; done. Qed.

Lemma net_wf_nodup n : net_wf n → NoDup (net_channels n).
Proof. intros (_ & Hnd & _). by eapply NoDup_fmap_1. Qed.

Lemma init_by_fold_index n : index_channels (init_by_fold n) = index_channels n.
Proof. pose proof (init_by_fold_same n) as (Hc & Hh & _). apply index_ext; [done|]. intros. unfold chan_name. by rewrite Hh. Qed.

Lemma net_channel_index n name : net_wf n → (net_channel n name).2 = index_channels n !! FoldIRC name.
Proof. intros Hwf. cbn. rewrite by_fold_index by by apply init_by_fold_wf. by rewrite init_by_fold_index. Qed.

Lemma net_remove_index n name : net_wf n →
  index_channels (net_remove n name) = delete (FoldIRC name) (index_channels n).
Proof.
  intros Hwf. pose proof (net_remove_wf n name Hwf) as Hwf'. rewrite <- (by_fold_index _ Hwf').
  unfold net_remove. unfold by_fold at 1. cbn -[index_channels]. rewrite init_by_fold_some.
  cbn -[index_channels]. rewrite by_fold_index by by apply init_by_fold_wf. by rewrite init_by_fold_index.
Qed.


(** ** Rosters *)

Notation roster := (gmap string (gset string)).

Definition members_of (n : network) (c : cid) : gmap string member :=
  match net_heap n !! c with Some ch => ch_members ch | None => ∅ end.

Definition nicks_of (n : network) (c : cid) : gset string := dom (members_of n c).

Definition roster_of (n : network) : roster := nicks_of n <$> index_channels n.

(** The buffer is there from now on. *)
Definition touch (k : string) (R : roster) : roster := partial_alter (λ o, Some (default ∅ o)) k R.

Lemma lookup_roster n k : roster_of n !! k = nicks_of n <$> (index_channels n !! k).
Proof. apply lookup_fmap. Qed.

Lemma roster_ext n n' : index_channels n' = index_channels n →
  (∀ k c, index_channels n !! k = Some c → nicks_of n' c = nicks_of n c) → roster_of n' = roster_of n.
Proof.
  intros Hi Hm. apply map_eq. intros k. rewrite !lookup_roster, Hi.
  destruct (index_channels n !! k) as [c|] eqn:E; [|done]. cbn. f_equal. by eapply Hm.
Qed.

Lemma lookup_touch k R k' : touch k R !! k' = if decide (k' = k) then Some (default ∅ (R !! k)) else R !! k'.
Proof.
  unfold touch. destruct (decide (k' = k)) as [->|?]; [by rewrite lookup_partial_alter_eq|by rewrite lookup_partial_alter_ne].
Qed.

Lemma get_or_create_roster n name kind : net_wf n →
  let '(n', c, _) := get_or_create n name kind in
  net_wf n' ∧ index_channels n' !! FoldIRC name = Some c ∧ roster_of n' = touch (FoldIRC name) (roster_of n) ∧
  net_nick n' = net_nick n ∧ net_params n' = net_params n.
Proof.
  intros Hwf. pose proof (get_or_create_wf n name kind Hwf) as Hwf'.
  pose proof (get_or_create_found n name kind Hwf) as Hf. rewrite net_channel_index in Hf by done.
  pose proof (init_by_fold_wf _ Hwf) as Hwf1. pose proof (init_by_fold_index n) as Hi1.
  pose proof (init_by_fold_same n) as (Hc1 & Hh1 & Hx1 & Hp1).
  revert Hwf' Hf. unfold get_or_create, net_channel. set (n1 := init_by_fold n) in *.
  assert (Hnick : net_nick n1 = net_nick n) by (unfold n1, init_by_fold; by destruct (net_by_fold n)).
  rewrite (by_fold_index _ Hwf1).
  destruct (index_channels n1 !! FoldIRC name) as [c|] eqn:E; cbn [fst snd]; intros Hwf' Hf.
  - split_and!; try done. apply map_eq. intros k. rewrite lookup_touch.
    destruct (decide (k = FoldIRC name)) as [->|_].
    + rewrite !lookup_roster, <- Hi1, E. cbn. unfold nicks_of, members_of. by rewrite Hh1.
    + rewrite !lookup_roster, Hi1. unfold nicks_of, members_of. by rewrite Hh1.
  - set (n3 := (init_by_fold _) <| net_by_fold ::= _ |>) in *.
    assert (Hc3 : net_channels n3 = net_channels n1 ++ [net_next n1]).
    { unfold n3, init_by_fold. cbn. by destruct (net_by_fold n1). }
    assert (Hh3 : net_heap n3 = <[net_next n1 := empty_channel name kind]> (net_heap n1)).
    { unfold n3, init_by_fold. cbn. by destruct (net_by_fold n1). }
    assert (Hold : ∀ d, d ∈ net_channels n1 → net_heap n3 !! d = net_heap n1 !! d).
    { intros d Hd. rewrite Hh3. apply lookup_insert_ne. intros <-. by apply (net_wf_fresh n1 _ Hwf1 Hd). }
    assert (Hi3 : index_channels n3 = <[FoldIRC name := net_next n1]> (index_channels n1)).
    { rewrite (index_snoc n1 n3 (net_next n1) Hc3 Hold). f_equal.
      unfold fold_of, chan_name. by rewrite Hh3, lookup_insert_eq. }
    split_and!; [done|done| |unfold n3, init_by_fold; cbn; by destruct (net_by_fold n1)..].
    apply map_eq. intros k. rewrite lookup_touch, !lookup_roster, <- Hi1, Hi3.
    destruct (decide (k = FoldIRC name)) as [->|Hk].
    + rewrite lookup_insert_eq, E. cbn. unfold nicks_of, members_of. by rewrite Hh3, lookup_insert_eq.
    + rewrite lookup_insert_ne by done. destruct (index_channels n1 !! k) as [d|] eqn:Ed; [|done].
      cbn. f_equal. unfold nicks_of, members_of. apply index_elem in Ed as [Hd _]; [|done].
      by rewrite Hold, Hh1.
Qed.

(** A write through the pointer of a listed buffer shows under its name only. *)
Lemma update_roster n c k f g : net_wf n → keeps_name f →
  index_channels n !! k = Some c →
  (∀ ch, dom (ch_members (f ch)) = g (dom (ch_members ch))) →
  roster_of (update_channel n c f) = alter g k (roster_of n).
Proof.
  intros Hwf Hf Hk Hg. apply map_eq. intros k'. rewrite lookup_roster, index_update by done.
  destruct (decide (k' = k)) as [->|Hne].
  - rewrite lookup_alter_eq, lookup_roster, Hk. cbn. f_equal. unfold nicks_of, members_of, update_channel. cbn.
    rewrite lookup_alter_eq. destruct (index_elem _ _ _ Hwf Hk) as [_ [ch ->]]. apply Hg.
  - rewrite lookup_alter_ne by done. rewrite lookup_roster.
    destruct (index_channels n !! k') as [d|] eqn:Ed; [|done]. cbn. f_equal.
    unfold nicks_of, members_of, update_channel. cbn. rewrite lookup_alter_ne; [done|].
    intros <-. by destruct Hne, (index_inj n k' k c).
Qed.

Lemma alter_id_map {A} (g : A → A) k (m : gmap string A) : (∀ x, g x = x) → alter g k m = m.
Proof.
  intros Hg. apply map_eq. intros j. destruct (decide (k = j)) as [->|?];
    [rewrite lookup_alter_eq; destruct (m !! j); cbn; by rewrite ?Hg|by rewrite lookup_alter_ne].
Qed.

Lemma alter_twice {A} (f g h : A → A) k (m : gmap string A) : (∀ x, f (g x) = h x) →
  alter f k (alter g k m) = alter h k m.
Proof.
  intros Hh. apply map_eq. intros j. destruct (decide (k = j)) as [->|?].
  - rewrite !lookup_alter_eq. destruct (m !! j); cbn; by rewrite ?Hh.
  - by rewrite !lookup_alter_ne.
Qed.

Lemma update_roster_same n c f : net_wf n → keeps_name f →
  (∀ ch, dom (ch_members (f ch)) = dom (ch_members ch)) → roster_of (update_channel n c f) = roster_of n.
Proof.
  intros Hwf Hf Hg. apply roster_ext; [by apply index_update|]. intros k d _.
  unfold nicks_of, members_of, update_channel. cbn. destruct (decide (c = d)) as [->|?].
  - rewrite lookup_alter_eq. destruct (net_heap n !! d); cbn; [apply Hg|done].
  - by rewrite lookup_alter_ne.
Qed.

(** ** Loops over every channel *)

(** The network with every listed channel replaced. *)
Definition map_listed (n : network) (F : channel → channel) : network :=
  n <| net_heap := foldl (λ h c, alter F c h) (net_heap n) (net_channels n) |>.

Lemma lookup_foldl_alter {A} (F : A → A) (l : list cid) (h : gmap cid A) d : NoDup l →
  foldl (λ h c, alter F c h) h l !! d = if decide (d ∈ l) then F <$> h !! d else h !! d.
Proof.
  revert h. induction l as [|c l IH]; intros h Hnd; [done|].
  apply NoDup_cons in Hnd as [Hc Hnd]. cbn [foldl]. rewrite IH by done.
  destruct (decide (d = c)) as [->|Hdc].
  - rewrite decide_False by done. rewrite decide_True by set_solver. by rewrite lookup_alter_eq.
  - rewrite lookup_alter_ne by done. destruct (decide (d ∈ l)); [by rewrite decide_True by set_solver|].
    rewrite decide_False by set_solver. done.
Qed.

Lemma map_listed_lookup n F c : net_wf n →
  net_heap (map_listed n F) !! c = if decide (c ∈ net_channels n) then F <$> net_heap n !! c else net_heap n !! c.
Proof. intros Hwf. unfold map_listed. cbn. apply lookup_foldl_alter. by apply net_wf_nodup. Qed.

Lemma map_listed_steps n F : map_listed n F = foldl (λ n c, update_channel n c F) n (net_channels n).
Proof.
  unfold map_listed. generalize (net_channels n). intros l. revert n. induction l as [|c l IH]; intros n; [by destruct n|].
  cbn [foldl]. by rewrite <- IH.
Qed.

Lemma map_listed_wf n F : keeps_name F → net_wf n → net_wf (map_listed n F).
Proof.
  intros HF. rewrite map_listed_steps. generalize (net_channels n). intros l. revert n.
  induction l as [|c l IH]; intros n Hwf; [done|]. apply IH. by apply update_channel_wf.
Qed.

Lemma map_listed_roster n F g : net_wf n → keeps_name F →
  (∀ ch, dom (ch_members (F ch)) = g (dom (ch_members ch))) →
  roster_of (map_listed n F) = g <$> roster_of n.
Proof.
  intros Hwf HF Hg.
  assert (Hi : index_channels (map_listed n F) = index_channels n).
  { rewrite map_listed_steps. generalize (net_channels n). intros l. revert n Hwf.
    induction l as [|c l IH]; intros n Hwf; [done|]. cbn. rewrite IH by by apply update_channel_wf. by apply index_update. }
  apply map_eq. intros k. rewrite lookup_fmap, !lookup_roster, Hi.
  destruct (index_channels n !! k) as [c|] eqn:E; [|done]. cbn. f_equal.
  destruct (index_elem _ _ _ Hwf E) as [Hc [ch Hch]]. unfold nicks_of, members_of.
  rewrite map_listed_lookup, decide_True, Hch by done. apply Hg.
Qed.

Lemma clear_members_all n : foldl clear_members n (net_channels n) = map_listed n (λ ch, ch <| ch_members := ∅ |>).
Proof. by rewrite map_listed_steps. Qed.

(** What [each_member] does to one channel, and what it says about it. *)
Definition member_edit (nick : string) (body : channel → member → channel * list message) (ch : channel)
    : channel :=
  match ch_members ch !! FoldIRC nick with Some m => (body ch m).1 | None => ch end.

Definition member_lines (nick : string) (body : channel → member → channel * list message) (n : network)
    (c : cid) : list message :=
  match net_heap n !! c with
  | Some ch => match ch_members ch !! FoldIRC nick with Some m => (body ch m).2 | None => [] end
  | None => []
  end.

Definition shares (nick : string) (n : network) (c : cid) : bool :=
  bool_decide (is_Some (members_of n c !! FoldIRC nick)).

Lemma alter_same {A} (F : A → A) (c : cid) (h : gmap cid A) : (∀ x, h !! c = Some x → F x = x) → alter F c h = h.
Proof.
  intros HF. apply map_eq. intros d. destruct (decide (c = d)) as [->|?]; [|by rewrite lookup_alter_ne].
  rewrite lookup_alter_eq. destruct (h !! d) as [x|] eqn:E; [|done]. cbn. by rewrite HF.
Qed.

Lemma each_member_eq n nick body : NoDup (net_channels n) →
  each_member n nick body =
  (map_listed n (member_edit nick body), mjoin (member_lines nick body n <$> net_channels n),
   existsb (shares nick n) (net_channels n)).
Proof.
  unfold each_member, map_listed. generalize (net_channels n) as l. intros l.
  change (mjoin (member_lines nick body n <$> l)) with ([] ++ mjoin (member_lines nick body n <$> l)).
  change (existsb (shares nick n) l) with (false || existsb (shares nick n) l).
  generalize (@nil message) as out. generalize false as hit. revert n.
  induction l as [|c l IH]; intros n hit out Hnd.
  { cbn. rewrite app_nil_r, orb_false_r. by destruct n. }
  apply NoDup_cons in Hnd as [Hc Hnd].
  change (member_lines nick body n <$> c :: l) with (member_lines nick body n c :: (member_lines nick body n <$> l)).
  match goal with |- context [mjoin (?x :: ?r)] => change (mjoin (x :: r)) with (x ++ mjoin r) end.
  cbn [foldl existsb].
  assert (Hh : (member_lines nick body n c, shares nick n c) =
    match net_heap n !! c with
    | Some ch => match ch_members ch !! FoldIRC nick with Some m => ((body ch m).2, true) | None => ([], false) end
    | None => ([], false)
    end).
  { unfold member_lines, shares, members_of. destruct (net_heap n !! c) as [ch|]; cbn; [|by rewrite lookup_empty].
    by destruct (ch_members ch !! FoldIRC nick). }
  set (n' := n <| net_heap ::= alter (member_edit nick body) c |>).
  assert (Hrest : (member_lines nick body n' <$> l) = (member_lines nick body n <$> l)).
  { apply list_fmap_ext. intros i d Hd%list_elem_of_lookup_2. unfold member_lines, n'. cbn.
    by rewrite lookup_alter_ne by set_solver. }
  assert (Hsh : existsb (shares nick n') l = existsb (shares nick n) l).
  { clear -Hc. induction l as [|d l IH]; [done|]. cbn. rewrite IH by set_solver. f_equal.
    unfold shares, members_of, n'. cbn. by rewrite lookup_alter_ne by set_solver. }
  destruct (net_heap n !! c) as [ch|] eqn:Ech; [destruct (ch_members ch !! FoldIRC nick) as [m|] eqn:Em|];
    injection Hh as -> ->.
  - destruct (body ch m) as [ch' ls] eqn:Eb.
    assert (update_channel n c (λ _, ch') = n') as ->.
    { assert (Ha : alter (λ _, ch') c (net_heap n) = alter (member_edit nick body) c (net_heap n)).
      { apply alter_ext. intros x Hx. simplify_eq. unfold member_edit. by rewrite Em, Eb. }
      unfold update_channel, n'. cbn. by rewrite Ha. }
    rewrite IH, Hrest, Hsh by done. rewrite <- app_assoc.
    by rewrite orb_true_r.
  - rewrite IH by done. rewrite (alter_same _ c (net_heap n)); [done|].
      intros x ?. simplify_eq. unfold member_edit. by rewrite Em.
  - rewrite IH by done. rewrite (alter_same _ c (net_heap n)); [done|]. intros x ?. congruence.
Qed.

(** ** What every event keeps *)

(** Members are keyed by the fold of their nick. *)
Definition keyed (ch : channel) : Prop := map_Forall (λ k m, FoldIRC (m_nick m) = k) (ch_members ch).

(** An auto-join list is what the user wrote: the engine takes it as it comes.
    What is said of the lists themselves is said under the condition [tidy] that
    those given to the engine name no channel twice; for [tidy := False] nothing is
    asked of them and nothing said. *)
Definition net_ok (tidy : Prop) (n : network) : Prop :=
  net_wf n ∧ (tidy → autojoin_wf (net_params n)) ∧ map_Forall (λ _ ch, keyed ch) (net_heap n) ∧
  NoDup (bn_id <$> net_bouncer n).

Definition keeps_keys (f : channel → channel) : Prop := ∀ ch, keyed ch → keyed (f ch).

Lemma keyed_same f : (∀ ch, ch_members (f ch) = ch_members ch) → keeps_keys f.
Proof. intros Hf ch. unfold keyed. by rewrite Hf. Qed.

Lemma keyed_insert nick m : FoldIRC (m_nick m) = FoldIRC nick →
  keeps_keys (λ ch, ch <| ch_members ::= <[FoldIRC nick := m]> |>).
Proof. intros Hm ch Hk. by apply map_Forall_insert_2. Qed.

Lemma keyed_delete k : keeps_keys (λ ch, ch <| ch_members ::= delete k |>).
Proof. intros ch Hk. by apply map_Forall_delete. Qed.

Lemma keyed_empty : keeps_keys (λ ch, ch <| ch_members := ∅ |>).
Proof. intros ch _. apply map_Forall_empty. Qed.

Section wf.
Context {tidy : Prop}.
Notation net_ok := (net_ok tidy).

Lemma update_ok n c f : keeps_name f → keeps_keys f → net_ok n → net_ok (update_channel n c f).
Proof.
  intros Hf Hk (Hwf & Ha & Hm & Hb). split_and!; [by apply update_channel_wf|done| |done].
  intros d ch. unfold update_channel. cbn. rewrite lookup_alter_Some.
  intros [(-> & x & Hx & ->)|(_ & Hx)]; [apply Hk|]; by eapply Hm.
Qed.

Lemma map_listed_ok n F : keeps_name F → keeps_keys F → net_ok n → net_ok (map_listed n F).
Proof.
  intros HF HK. rewrite map_listed_steps. generalize (net_channels n). intros l. revert n.
  induction l as [|c l IH]; intros n Hok; [done|]. apply IH. by apply update_ok.
Qed.

Lemma heap_goc n name kind : net_heap (get_or_create n name kind).1.1 = net_heap n ∨
  net_heap (get_or_create n name kind).1.1 = <[net_next n := empty_channel name kind]> (net_heap n).
Proof.
  unfold get_or_create, net_channel. pose proof (init_by_fold_same n) as (_ & Hh & Hx & _).
  destruct (by_fold _ !! _); [by left|]. right. cbn. unfold init_by_fold at 1. cbn.
  rewrite <- Hh, <- Hx. by destruct (net_by_fold (init_by_fold n)).
Qed.

Lemma goc_bouncer n name kind : net_bouncer (get_or_create n name kind).1.1 = net_bouncer n.
Proof.
  unfold get_or_create, net_channel.
  assert (H : ∀ m, net_bouncer (init_by_fold m) = net_bouncer m) by (intros m; unfold init_by_fold; by destruct (net_by_fold m)).
  destruct (by_fold _ !! _); cbn; by rewrite !H.
Qed.

Lemma get_or_create_ok n name kind : net_ok n →
  let '(n', c, _) := get_or_create n name kind in
  net_ok n' ∧ index_channels n' !! FoldIRC name = Some c ∧ roster_of n' = touch (FoldIRC name) (roster_of n) ∧
  net_nick n' = net_nick n ∧ net_params n' = net_params n.
Proof.
  intros (Hwf & Ha & Hm & Hb). pose proof (get_or_create_roster n name kind Hwf) as H.
  pose proof (heap_goc n name kind) as Hh. pose proof (goc_bouncer n name kind) as Hbn.
  destruct (get_or_create n name kind) as [[n' c] created]. cbn in Hh, Hbn.
  destruct H as (Hwf' & Hi & Hr & Hn & Hp). split_and!; try done.
  split_and!; [done|by rewrite Hp| |by rewrite Hbn].
  destruct Hh as [-> | ->]; [done|]. apply (map_Forall_insert_2 (λ _ ch, keyed ch)); [apply map_Forall_empty|done].
Qed.

Lemma init_by_fold_ok n : net_ok n → net_ok (init_by_fold n).
Proof.
  intros (Hwf & Ha & Hm & Hb). pose proof (init_by_fold_same n) as (Hc & Hh & Hx & Hp).
  split_and!; [by apply init_by_fold_wf|by rewrite Hp|by rewrite Hh|].
  unfold init_by_fold. by destruct (net_by_fold n).
Qed.

Lemma init_by_fold_roster n : roster_of (init_by_fold n) = roster_of n ∧ net_nick (init_by_fold n) = net_nick n.
Proof.
  split; [|unfold init_by_fold; by destruct (net_by_fold n)]. unfold roster_of. rewrite init_by_fold_index.
  apply map_fmap_ext. intros k c _. unfold nicks_of, members_of.
  pose proof (init_by_fold_same n) as (_ & Hh & _). by rewrite Hh.
Qed.

Lemma net_remove_ok n name : net_ok n →
  net_ok (net_remove n name) ∧ roster_of (net_remove n name) = delete (FoldIRC name) (roster_of n) ∧
  net_nick (net_remove n name) = net_nick n ∧ net_params (net_remove n name) = net_params n.
Proof.
  intros Hok. pose proof (init_by_fold_ok n Hok) as (_ & Ha & Hm & Hb). pose proof Hok as (Hwf & _).
  pose proof (init_by_fold_same n) as (_ & Hh & _ & Hp).
  split_and!; [split_and!; [by apply net_remove_wf|done..]| | |done].
  - unfold roster_of. rewrite net_remove_index, fmap_delete by done. f_equal. apply map_fmap_ext. intros k c _.
    unfold nicks_of, members_of, net_remove. cbn. by rewrite Hh.
  - unfold net_remove, init_by_fold. by destruct (net_by_fold n).
Qed.

Lemma pending_state_ok pending n c : net_ok n →
  net_ok (apply_pending_state pending n c) ∧ roster_of (apply_pending_state pending n c) = roster_of n ∧
  index_channels (apply_pending_state pending n c) = index_channels n ∧
  net_nick (apply_pending_state pending n c) = net_nick n ∧
  net_params (apply_pending_state pending n c) = net_params n.
Proof.
  intros Hok. unfold apply_pending_state. case_decide; [done|].
  split_and!; [apply update_ok; [done|by apply keyed_same|done]| |by apply index_update|done|done].
  by apply update_roster_same; [apply Hok|..].
Qed.

Lemma add_autojoin_ok p name key has_key : autojoin_wf p → autojoin_wf (add_autojoin p name key has_key).1.
Proof.
  intros [Hk Hnd]. unfold add_autojoin. destruct (negb (is_channel_name name)); [done|].
  pose proof (channel_found p name) as Hf. destruct (list_find _ _) as [[i c]|].
  - destruct has_key; [|done]. pose proof (set_channel_key_spec p c key Hk) as Hs.
    destruct (set_channel_key p c key) as [p' b]. destruct Hs as (? & Hc & _). split; cbn; [done|by rewrite Hc].
  - cbn [fst snd]. set (p1 := p <| np_channels ::= _ |>).
    assert (Hp1 : autojoin_wf p1).
    { split; [done|]. unfold p1. cbn. rewrite fmap_app. apply NoDup_app. split_and!; [done| |apply NoDup_singleton].
      intros x Hx ->%list_elem_of_singleton. by apply Hf. }
    destruct has_key; [|done]. pose proof (set_channel_key_spec p1 name key (proj1 Hp1)) as Hs.
    destruct (set_channel_key p1 name key) as [p' b]. destruct Hs as (? & Hc & _). split; cbn; [done|]. rewrite Hc. apply Hp1.
Qed.

(** ** The abstract account *)

Definition self_event (nick : string) (ev : event) : bool := EqualIRC (evt_nick ev) nick.

Definition touch_all (R : roster) (names : list string) : roster :=
  foldl (λ R c, if String.eqb c "" then R else touch (FoldIRC c) R) R names.

Definition rename (old new : string) (S : gset string) : gset string :=
  if decide (old ∈ S) then {[ new ]} ∪ (S ∖ {[ old ]}) else S.

(** What an event does to the roster, [nick] being our own nick before it. *)
Definition roster_event (nick : string) (ev : event) (R : roster) : roster :=
  let who := FoldIRC (evt_nick ev) in
  let b := FoldIRC (evt_buffer ev) in
  match evt_type ev with
  | EvConnect => if evt_resumed ev then touch_all R (event_args ev) else R
  | EvDisconnect => (λ _, ∅) <$> R
  | EvMessageIn => match evt_message ev with Some m => touch (FoldIRC (msg_buffer m)) R | None => R end
  | EvHistoryTarget | EvTopic => touch b R
  | EvNames => alter (λ S, list_to_set (FoldIRC ∘ m_nick <$> evt_members ev) ∪ S) b (touch b R)
  | EvJoin => alter (λ S, {[ who ]} ∪ S) b (touch b R)
  | EvPart => if self_event nick ev then delete b R else alter (λ S, S ∖ {[ who ]}) b R
  | EvKick => alter (λ S, if self_event nick ev then ∅ else S ∖ {[ who ]}) b R
  | EvQuit => (λ S, S ∖ {[ who ]}) <$> R
  | EvNick => rename who (FoldIRC (evt_new_nick ev)) <$> R
  | _ => R
  end.

Definition nick_event (nick : string) (ev : event) : string :=
  match evt_type ev with
  | EvConnect => if String.eqb (evt_nick ev) "" then nick else evt_nick ev
  | EvNick => if EqualIRC nick (evt_nick ev) then evt_new_nick ev else nick
  | _ => nick
  end.

Section refine.
Context `{UnicodeTables} (now : time).

(** The three things a case of [applyLocked] owes. *)
Definition stays (n n' : network) (R : roster) (nick : string) : Prop :=
  net_ok n' ∧ roster_of n' = R ∧ net_nick n' = nick.

Lemma stays_refl n : net_ok n → stays n n (roster_of n) (net_nick n).
Proof. done. Qed.

Lemma foldl_put_member n c k l : net_ok n → index_channels n !! k = Some c →
  let n' := foldl (λ n m, put_member n c (m_nick m) m) n l in
  net_ok n' ∧ net_nick n' = net_nick n ∧
  roster_of n' = alter (λ S, list_to_set (FoldIRC ∘ m_nick <$> l) ∪ S) k (roster_of n).
Proof.
  revert n. induction l as [|m l IH]; intros n Hok Hk; cbn zeta.
  { split_and!; [done|done|]. symmetry. apply alter_id_map. cbn. set_solver. }
  cbn [foldl]. set (n1 := put_member n c (m_nick m) m).
  assert (Hok1 : net_ok n1) by (apply update_ok; [done|by apply keyed_insert|done]).
  assert (Hk1 : index_channels n1 !! k = Some c) by (unfold n1, put_member; by rewrite index_update).
  destruct (IH n1 Hok1 Hk1) as (Ha & Hb & Hr). split_and!; [done|done|]. rewrite Hr. unfold n1, put_member.
  rewrite (update_roster n c k _ (λ S, {[ FoldIRC (m_nick m) ]} ∪ S)); [|apply Hok|done|done|].
  - apply alter_twice. intros S. cbn. set_solver.
  - intros ch. cbn. by rewrite dom_insert_L.
Qed.

Lemma resumed_loop pending n names : net_ok n →
  stays n (foldl (resumed_channel pending) n names) (touch_all (roster_of n) names) (net_nick n).
Proof.
  unfold touch_all. revert n. induction names as [|c names IH]; intros n Hok; [by apply stays_refl|].
  cbn [foldl]. unfold resumed_channel at 2. destruct (String.eqb c ""); [by apply IH|].
  pose proof (get_or_create_ok n c KindChannel Hok) as Hg.
  destruct (get_or_create n c KindChannel) as [[n1 c1] created]. destruct Hg as (Hok1 & _ & Hr & Hn & _).
  rewrite <- Hr, <- Hn. destruct created; [|by apply IH].
  pose proof (pending_state_ok pending n1 c1 Hok1) as (Hok2 & Hr2 & _ & Hn2 & _). rewrite <- Hr2, <- Hn2. by apply IH.
Qed.

Lemma each_member_stays n nick body g : net_ok n → keeps_name (member_edit nick body) →
  keeps_keys (member_edit nick body) →
  (∀ ch, dom (ch_members (member_edit nick body ch)) = g (dom (ch_members ch))) →
  stays n (each_member n nick body).1.1 (g <$> roster_of n) (net_nick n).
Proof.
  intros Hok Hn Hk Hg. pose proof Hok as (Hwf & _). rewrite each_member_eq by by apply net_wf_nodup. cbn [fst].
  split_and!; [by apply map_listed_ok|by apply map_listed_roster|done].
Qed.

Lemma dom_put (k : string) (m : member) (M : gmap string member) : is_Some (M !! k) → dom (<[k := m]> M) = dom M.
Proof. intros Hk. rewrite dom_insert_L. apply elem_of_dom in Hk. set_solver. Qed.

Lemma edit_same nick (g : member → member) : (∀ m, FoldIRC (m_nick (g m)) = FoldIRC (m_nick m)) →
  let body := λ ch m, (ch <| ch_members ::= <[FoldIRC nick := g m]> |>, @nil message) in
  keeps_name (member_edit nick body) ∧ keeps_keys (member_edit nick body) ∧
  ∀ ch, dom (ch_members (member_edit nick body ch)) = dom (ch_members ch).
Proof.
  intros Hg. split_and!; intros ch; unfold member_edit; destruct (ch_members ch !! FoldIRC nick) as [m|] eqn:E; try done.
  - intros Hk. apply keyed_insert; [|done]. rewrite Hg. by apply Hk in E.
  - cbn. by apply dom_put.
Qed.

Lemma flagged_stays n nick g : net_ok n → (∀ m, FoldIRC (m_nick (g m)) = FoldIRC (m_nick m)) →
  stays n (each_member n nick (λ ch m, (ch <| ch_members ::= <[FoldIRC nick := g m]> |>, []))).1.1
    (roster_of n) (net_nick n).
Proof.
  intros Hok Hg. destruct (edit_same nick g Hg) as (H1 & H2 & H3).
  rewrite <- (map_fmap_id (roster_of n)). by apply (each_member_stays n nick _ id).
Qed.

Lemma quit_stays n nick ls : net_ok n →
  stays n (each_member n nick (λ ch _, (ch <| ch_members ::= delete (FoldIRC nick) |>, ls ch))).1.1
    ((λ S, S ∖ {[ FoldIRC nick ]}) <$> roster_of n) (net_nick n).
Proof.
  intros Hok. apply each_member_stays; [done|..]; intros ch; unfold member_edit;
    destruct (ch_members ch !! FoldIRC nick) as [m|] eqn:E; try done.
  - apply keyed_delete.
  - cbn. by rewrite dom_delete_L.
  - apply not_elem_of_dom in E. set_solver.
Qed.

Lemma rename_stays n old new ls : net_ok n →
  stays n (each_member n old (λ ch mem, (ch <| ch_members ::= λ ms,
      <[FoldIRC new := mem <| m_nick := new |>]> (delete (FoldIRC old) ms) |>, ls ch))).1.1
    (rename (FoldIRC old) (FoldIRC new) <$> roster_of n) (net_nick n).
Proof.
  intros Hok. apply each_member_stays; [done|..]; intros ch; unfold member_edit;
    destruct (ch_members ch !! FoldIRC old) as [m|] eqn:E; try done.
  - intros Hk. apply (map_Forall_insert_2 (λ k m, FoldIRC (m_nick m) = k)); [done|]. by apply map_Forall_delete.
  - cbn. rewrite dom_insert_L, dom_delete_L. unfold rename. rewrite decide_True; [done|].
    by apply elem_of_dom.
  - unfold rename. rewrite decide_False; [done|]. by apply not_elem_of_dom.
Qed.

Lemma field_stays n f : keeps_name f → (∀ ch, ch_members (f ch) = ch_members ch) → ∀ c, net_ok n →
  stays n (update_channel n c f) (roster_of n) (net_nick n).
Proof.
  intros Hn Hm c Hok. split_and!; [apply update_ok; [done|by apply keyed_same|done]| |done].
  apply update_roster_same; [apply Hok|done|]. intros ch. by rewrite Hm.
Qed.

Lemma member_mode_stays c n b mm : net_ok n →
  stays n (member_mode_change c (n, b) mm).1 (roster_of n) (net_nick n) ∧
  index_channels (member_mode_change c (n, b) mm).1 = index_channels n.
Proof.
  intros Hok. unfold member_mode_change. destruct (net_heap n !! c) as [ch|] eqn:Ec; cbn; [|by split].
  destruct (ch_members ch !! FoldIRC (mm_nick mm)) as [m|] eqn:Em; cbn; [|by split].
  pose proof Hok as (Hwf & _ & Hm & _).
  split; [|by apply index_update]. split_and!; [| |done].
  - apply update_ok; [done| |done]. apply keyed_insert. cbn. by apply (Hm _ _ Ec _ _ Em).
  - apply roster_ext; [by apply index_update|]. intros k d _. unfold nicks_of, members_of, put_member. cbn.
    destruct (decide (c = d)) as [<-|?]; [|by rewrite lookup_alter_ne].
    rewrite lookup_alter_eq, Ec. cbn. by apply dom_put.
Qed.

Lemma member_modes_stay c n b mms : net_ok n →
  stays n (foldl (member_mode_change c) (n, b) mms).1 (roster_of n) (net_nick n).
Proof.
  revert n b. induction mms as [|mm mms IH]; intros n b Hok; [by apply stays_refl|]. cbn [foldl].
  destruct (member_mode_stays c n b mm Hok) as [(Hok1 & Hr & Hn) _].
  destruct (member_mode_change c (n, b) mm) as [n1 b1]. cbn in *. rewrite <- Hr, <- Hn. by apply IH.
Qed.

(** Replacing an entry by one of the same id, appending a new id, removing. *)
Lemma bouncer_ids_ok n ev : NoDup (bn_id <$> net_bouncer n) →
  NoDup (bn_id <$> net_bouncer (ap_net (apply_bouncer_network n ev))).
Proof.
  intros Hnd. unfold apply_bouncer_network. cbn. destruct (evt_bouncer ev) as [b|].
  - destruct (list_find _ _) as [[i old]|] eqn:E.
    + apply list_find_Some in E as (Hi & Hid & _). rewrite list_fmap_insert.
      rewrite list_insert_id; [done|]. rewrite list_lookup_fmap, Hi. cbn. rewrite Hid.
      destruct (evt_args ev) as [keys|]; [|done]. f_equal. rewrite <- Hid. clear. unfold MergeBouncerAttrs. symmetry.
      revert old. induction keys as [|k keys IH]; intros old; [done|]. cbn. rewrite IH. unfold merge_attr.
      by repeat case_match.
    + rewrite fmap_app. apply NoDup_app. split_and!; [done| |apply NoDup_singleton].
      intros x Hx ->%list_elem_of_singleton. apply list_find_None in E. rewrite Forall_forall in E.
      apply list_elem_of_fmap in Hx as (y & Hy & Hin). by destruct (E y Hin).
  - destruct (String.eqb (evt_target ev) ""); [constructor|].
    eapply sublist_NoDup; [exact Hnd|]. apply fmap_sublist, sublist_filter.
Qed.

(** The network after a lookup that found nothing: nothing to see. *)
Lemma lookup_stays n name : net_ok n →
  stays n (net_channel n name).1 (roster_of n) (net_nick n) ∧
  index_channels (net_channel n name).1 = index_channels n.
Proof.
  intros Hok. destruct (init_by_fold_roster n) as [Hr Hn]. cbn.
  split; [|apply init_by_fold_index]. split_and!; [by apply init_by_fold_ok|done|done].
Qed.

(** A write through the pointer a lookup returned. *)
Lemma on_buffer n name f g : net_ok n → keeps_name f → keeps_keys f →
  (∀ ch, dom (ch_members (f ch)) = g (dom (ch_members ch))) →
  stays n (match net_channel n name with (n, Some c) => update_channel n c f | (n, None) => n end)
    (alter g (FoldIRC name) (roster_of n)) (net_nick n).
Proof.
  intros Hok Hn Hk Hg. pose proof (net_channel_index n name (proj1 Hok)) as Hi.
  destruct (lookup_stays n name Hok) as [(Hok1 & Hr & Hnk) Hix].
  destruct (net_channel n name) as [n1 [c|]]; cbn in *.
  - split_and!; [by apply update_ok| |done]. rewrite <- Hr. apply update_roster; [apply Hok1|done| |done].
    by rewrite Hix.
  - split_and!; [done| |done]. rewrite Hr. symmetry. apply map_eq. intros j.
    destruct (decide (FoldIRC name = j)) as [<-|?]; [|by rewrite lookup_alter_ne].
    by rewrite lookup_alter_eq, lookup_roster, <- Hi.
Qed.

Notation pend := (gmap string (gmap string string)).

Lemma join_stays (pending : pend) key n ev : evt_type ev = EvJoin → net_ok n →
  stays n (ap_net (apply_join now pending key n ev)) (roster_event (net_nick n) ev (roster_of n)) (net_nick n).
Proof.
  intros Ht Hok. unfold apply_join, roster_event. rewrite Ht.
  pose proof (get_or_create_ok n (evt_buffer ev) KindChannel Hok) as Hg.
  destruct (get_or_create n (evt_buffer ev) KindChannel) as [[n1 c] created]. destruct Hg as (Hok1 & Hi & Hr & Hn & Hp).
  set (n2 := if created then _ else n1).
  assert (H2 : net_ok n2 ∧ roster_of n2 = roster_of n1 ∧ index_channels n2 = index_channels n1 ∧ net_nick n2 = net_nick n1 ∧ net_params n2 = net_params n1).
  { unfold n2. destruct created; [by apply pending_state_ok|done]. }
  destruct H2 as (Hok2 & Hr2 & Hi2 & Hn2 & Hp2). set (m := Member _ _ _ _). set (n3 := put_member n2 c (evt_nick ev) m).
  assert (Hok3 : net_ok n3) by (apply update_ok; [done|by apply keyed_insert|done]).
  assert (Hr3 : roster_of n3 = alter (λ S, {[ FoldIRC (evt_nick ev) ]} ∪ S) (FoldIRC (evt_buffer ev)) (touch (FoldIRC (evt_buffer ev)) (roster_of n))).
  { rewrite <- Hr, <- Hr2. apply update_roster; [apply Hok2|done|by rewrite Hi2|]. intros ch. cbn. by rewrite dom_insert_L. }
  assert (Hn3 : net_nick n3 = net_nick n) by (unfold n3; cbn; congruence).
  destruct (EqualIRC (evt_nick ev) (net_nick n3)); [|by split_and!].
  pose proof (λ Ht, add_autojoin_ok (net_params n3) (evt_buffer ev) (default "" key) (bool_decide (is_Some key)) (proj1 (proj2 Hok3) Ht)) as Ha.
  destruct (add_autojoin _ _ _ _) as [p stored]. cbn in *. destruct Hok3 as (? & _ & ? & ?). by split_and!.
Qed.

Lemma part_stays n ev : evt_type ev = EvPart → net_ok n →
  stays n (ap_net (apply_part now n ev)) (roster_event (net_nick n) ev (roster_of n)) (net_nick n).
Proof.
  intros Ht Hok. unfold apply_part, roster_event, self_event. rewrite Ht.
  destruct (EqualIRC (evt_nick ev) (net_nick n)).
  - destruct (net_remove_ok n (evt_buffer ev) Hok) as (Hok1 & Hr & Hn & Hp).
    pose proof (λ Ht, remove_autojoin_spec (net_params (net_remove n (evt_buffer ev))) (evt_buffer ev) (proj1 (proj2 Hok1) Ht)) as Ha.
    cbn zeta. destruct (remove_autojoin _ _) as [p forgot].
    destruct Hok1 as (? & _ & ? & ?). split_and!; try done. split_and!; try done. intros Hy. by destruct (Ha Hy).
  - assert (Hb : stays n (match net_channel n (evt_buffer ev) with
        (n, Some c) => del_member n c (evt_nick ev) | (n, None) => n end)
      (alter (λ S, S ∖ {[ FoldIRC (evt_nick ev) ]}) (FoldIRC (evt_buffer ev)) (roster_of n)) (net_nick n)).
    { apply on_buffer; [done|done|apply keyed_delete|]. intros ch. cbn. by rewrite dom_delete_L. }
    by destruct (net_channel n (evt_buffer ev)) as [n1 [c|]].
Qed.

Lemma kick_stays n ev : evt_type ev = EvKick → net_ok n →
  stays n (ap_net (apply_kick now n ev)) (roster_event (net_nick n) ev (roster_of n)) (net_nick n).
Proof.
  intros Ht Hok. unfold apply_kick, roster_event, self_event. rewrite Ht. cbn [ap_net].
  destruct (EqualIRC (evt_nick ev) (net_nick n)).
  - by apply (on_buffer n (evt_buffer ev) (λ ch, ch <| ch_members := ∅ |>) (λ _, ∅)); [|done|apply keyed_empty|].
  - unfold del_member. apply on_buffer; [done|done|apply keyed_delete|]. intros ch. cbn. by rewrite dom_delete_L.
Qed.

Lemma names_stays n ev : evt_type ev = EvNames → net_ok n →
  stays n (ap_net (apply_names n ev)) (roster_event (net_nick n) ev (roster_of n)) (net_nick n).
Proof.
  intros Ht Hok. unfold apply_names, roster_event. rewrite Ht.
  pose proof (get_or_create_ok n (evt_buffer ev) KindChannel Hok) as Hg.
  destruct (get_or_create n (evt_buffer ev) KindChannel) as [[n1 c] created]. destruct Hg as (Hok1 & Hi & Hr & Hn & _).
  destruct (foldl_put_member n1 c _ (evt_members ev) Hok1 Hi) as (Hok2 & Hn2 & Hr2). cbn [ap_net].
  rewrite <- Hn, <- Hr, <- Hr2. by split_and!.
Qed.

Lemma message_stays (pending : pend) hl n ev : evt_type ev = EvMessageIn → net_ok n →
  stays n (ap_net (apply_message_in pending hl n ev)) (roster_event (net_nick n) ev (roster_of n)) (net_nick n).
Proof.
  intros Ht Hok. unfold apply_message_in, roster_event. rewrite Ht.
  destruct (evt_message ev) as [m|]; [|by apply stays_refl]. set (m' := if negb _ && _ then _ else m).
  assert (msg_buffer m' = msg_buffer m) as -> by (unfold m'; by case_match).
  pose proof (get_or_create_ok n (msg_buffer m) (bufferKind (msg_buffer m)) Hok) as Hg.
  destruct (get_or_create n _ _) as [[n1 c] created]. destruct Hg as (Hok1 & Hi & Hr & Hn & _).
  rewrite <- Hr, <- Hn. destruct created; [|by apply stays_refl].
  destruct (pending_state_ok pending n1 c Hok1) as (? & ? & _ & ? & _). by split_and!.
Qed.

Lemma connect_stays (pending : pend) n ev : evt_type ev = EvConnect → net_ok n →
  stays n (ap_net (apply_connect now pending n ev)) (roster_event (net_nick n) ev (roster_of n))
    (nick_event (net_nick n) ev).
Proof.
  intros Ht Hok. unfold apply_connect, roster_event, nick_event. rewrite Ht. cbn zeta.
  set (n1 := if String.eqb (evt_nick ev) "" then _ else _).
  assert (H1 : stays n n1 (roster_of n) (if String.eqb (evt_nick ev) "" then net_nick n else evt_nick ev)).
  { unfold n1. by destruct (String.eqb (evt_nick ev) ""). }
  destruct H1 as (Hok1 & Hr & Hn). rewrite <- Hn, <- Hr. destruct (evt_resumed ev); [|by apply stays_refl].
  by apply resumed_loop.
Qed.

Lemma mode_stays n ev : net_ok n → stays n (ap_net (apply_mode now n ev)) (roster_of n) (net_nick n).
Proof.
  intros Hok. unfold apply_mode. destruct (lookup_stays n (evt_buffer ev) Hok) as [(Hok1 & Hr & Hn) _].
  destruct (net_channel n (evt_buffer ev)) as [n1 [c|]]; cbn in Hok1, Hr, Hn; rewrite <- Hr, <- Hn; [|by apply stays_refl].
  destruct (member_modes_stay c n1 false (evt_member_modes ev) Hok1) as (Hok2 & Hr2 & Hn2).
  destruct (foldl _ _ _) as [n2 changed]. cbn in Hok2, Hr2, Hn2. rewrite <- Hr2, <- Hn2.
  repeat case_match; (by apply stays_refl) || by apply field_stays.
Qed.

Lemma topic_stays n ev : evt_type ev = EvTopic → net_ok n →
  stays n (ap_net (apply_topic now n ev)) (roster_event (net_nick n) ev (roster_of n)) (net_nick n).
Proof.
  intros Ht Hok. unfold apply_topic, roster_event. rewrite Ht.
  pose proof (get_or_create_ok n (evt_buffer ev) KindChannel Hok) as Hg.
  destruct (get_or_create n (evt_buffer ev) KindChannel) as [[n1 c] created]. destruct Hg as (Hok1 & Hi & Hr & Hn & _).
  rewrite <- Hr, <- Hn. set (n2 := if evt_topic_meta ev then n1 else _).
  assert (H2 : stays n1 n2 (roster_of n1) (net_nick n1)).
  { unfold n2. destruct (evt_topic_meta ev); [by apply stays_refl|by apply field_stays]. }
  destruct H2 as (Hok2 & Hr2 & Hn2). rewrite <- Hr2, <- Hn2.
  destruct (String.eqb (evt_nick ev) ""); [by apply stays_refl|]. cbn [ap_net].
  set (n3 := update_channel n2 c _).
  assert (H3 : stays n2 n3 (roster_of n2) (net_nick n2)) by by apply field_stays.
  destruct H3 as (Hok3 & Hr3 & Hn3). rewrite <- Hr3, <- Hn3.
  destruct (time_is_zero (evt_time ev)); [by apply stays_refl|by apply field_stays].
Qed.

Lemma bouncer_stays n ev : net_ok n →
  stays n (ap_net (apply_bouncer_network n ev)) (roster_of n) (net_nick n).
Proof. intros (? & ? & ? & Hb). split_and!; [|done|done]. split_and!; try done. by apply bouncer_ids_ok. Qed.

Lemma monitor_stays n ev : net_ok n → stays n (ap_net (apply_monitor n ev)) (roster_of n) (net_nick n).
Proof. intros Hok. unfold apply_monitor. by destruct (foldl _ _ _) as [online changed]. Qed.

Lemma history_stays n ev : evt_type ev = EvHistoryTarget → net_ok n →
  stays n (ap_net (apply_history_target n ev)) (roster_event (net_nick n) ev (roster_of n)) (net_nick n).
Proof.
  intros Ht Hok. unfold apply_history_target, roster_event. rewrite Ht.
  pose proof (get_or_create_ok n (evt_buffer ev) KindQuery Hok) as Hg.
  destruct (get_or_create n (evt_buffer ev) KindQuery) as [[n1 c] created]. by destruct Hg as (? & _ & ? & ? & _).
Qed.

Lemma disconnect_stays n ev : net_ok n →
  stays n (ap_net (apply_disconnect now n ev)) ((λ _, ∅) <$> roster_of n) (net_nick n).
Proof.
  intros (Hwf & Ha & Hm & Hb). unfold apply_disconnect. cbn [ap_net]. set (n1 := n <| net_state := _ |> <| _ := _ |> <| _ := _ |>).
  change (roster_of n) with (roster_of n1). change (net_nick n) with (net_nick n1).
  assert (Hok1 : net_ok n1) by (split_and!; try done; constructor).
  rewrite clear_members_all. split_and!; [by apply map_listed_ok; [|apply keyed_empty|]| |done].
  by apply map_listed_roster; [apply Hok1|..].
Qed.

Lemma invite_stays n ev : net_ok n → stays n (ap_net (apply_invite now n ev)) (roster_of n) (net_nick n).
Proof.
  intros Hok. unfold apply_invite. destruct (EqualIRC _ _); [done|].
  destruct (lookup_stays n (evt_buffer ev) Hok) as [Hs _]. by destruct (net_channel n (evt_buffer ev)) as [n1 [c|]].
Qed.

Lemma quit_event_stays n ev : net_ok n →
  stays n (ap_net (apply_quit now n ev)) ((λ S, S ∖ {[ FoldIRC (evt_nick ev) ]}) <$> roster_of n) (net_nick n).
Proof.
  intros Hok. unfold apply_quit. set (text := with_reason _ _).
  pose proof (quit_stays n (evt_nick ev) (λ ch, [line now n MsgQuit (ch_name ch) (evt_nick ev) text]) Hok) as Hs.
  by destruct (each_member _ _ _) as [[n' out] hit].
Qed.

Lemma nick_event_stays n ev : evt_type ev = EvNick → net_ok n →
  stays n (ap_net (apply_nick now n ev)) (roster_event (net_nick n) ev (roster_of n)) (nick_event (net_nick n) ev).
Proof.
  intros Ht Hok. unfold apply_nick, roster_event, nick_event. rewrite Ht. cbn zeta.
  set (n1 := if EqualIRC _ _ then _ else n).
  assert (H1 : stays n n1 (roster_of n) (if EqualIRC (net_nick n) (evt_nick ev) then evt_new_nick ev else net_nick n)).
  { unfold n1. by destruct (EqualIRC _ _). }
  destruct H1 as (Hok1 & <- & <-).
  pose proof (rename_stays n1 (evt_nick ev) (evt_new_nick ev) (λ ch, [line now n1 MsgNick (ch_name ch) (evt_nick ev)
    (evt_nick ev +:+ " is now known as " +:+ evt_new_nick ev)]) Hok1) as Hs.
  by destruct (each_member _ _ _) as [[n' out] hit].
Qed.

Lemma apply_event_stays (pending : pend) key hl n ev : net_ok n →
  stays n (ap_net (apply_event now pending key hl n ev)) (roster_event (net_nick n) ev (roster_of n))
    (nick_event (net_nick n) ev).
Proof.
  intros Hok. unfold apply_event. destruct (evt_type ev) eqn:Ht;
    try (by apply connect_stays); try (by apply nick_event_stays); unfold nick_event; rewrite Ht;
    try (by apply message_stays); try (by apply join_stays); try (by apply part_stays);
    try (by apply kick_stays); try (by apply names_stays); try (by apply topic_stays);
    try (by apply history_stays); unfold roster_event; rewrite Ht; try (by apply stays_refl);
    try (by apply quit_event_stays); try (by apply bouncer_stays); try (by apply monitor_stays);
    try (by apply disconnect_stays); try (by apply invite_stays); try (by apply mode_stays).
  - unfold apply_away. destruct (each_member _ _ _) as [[n' out] hit] eqn:E.
    apply (f_equal (λ x, x.1.1)) in E. cbn [fst] in E. subst n'.
    by apply (flagged_stays n (evt_nick ev) (λ m : member, m <| m_away := evt_away ev |>)).
  - unfold apply_account. destruct (each_member _ _ _) as [[n' out] hit] eqn:E.
    apply (f_equal (λ x, x.1.1)) in E. cbn [fst] in E. subst n'.
    by apply (flagged_stays n (evt_nick ev) (λ m : member, m <| m_account := evt_account ev |>)).
  - unfold apply_identity. destruct (each_member _ _ _) as [[n' out] hit]. by apply stays_refl.
  - unfold apply_identity. destruct (each_member _ _ _) as [[n' out] hit]. by apply stays_refl.
  - done.
Qed.

(** C24: membership.  On a well-formed network every event changes who is in
    which buffer exactly as its IRC meaning says: JOIN adds a nick to one
    channel, NAMES a list of them, PART and KICK take one out (our own PART
    drops the buffer, our own KICK empties it), QUIT and NICK act on every
    channel at once, a disconnect empties all of them, and nothing else touches
    membership; names and nicks are compared under the IRC case mapping.  Our
    own nick follows the welcome and our own NICK. *)
Theorem roster_refines (pending : pend) key hl n ev :
  net_ok n →
  let n' := ap_net (apply_event now pending key hl n ev) in
  roster_of n' = roster_event (net_nick n) ev (roster_of n) ∧ net_nick n' = nick_event (net_nick n) ev.
Proof. intros Hok. by destruct (apply_event_stays pending key hl n ev Hok) as (_ & ? & ?). Qed.

(** Every event keeps a network well formed: the buffers of the list are
    allocated and pairwise distinct under case folding, the lookaside index is
    exactly the one the list defines, every member is filed under the fold of
    its nick, the auto-join list and its keys have no two entries for one
    channel, and the bouncer's networks have distinct ids. *)
Theorem events_keep_network (pending : pend) key hl n evs :
  net_ok n → net_ok (foldl (λ n ev, ap_net (apply_event now pending key hl n ev)) n evs).
Proof.
  revert n. induction evs as [|ev evs IH]; intros n Hok; [done|]. apply IH. by apply apply_event_stays.
Qed.
End refine.
End wf.


(** ** What observers are told *)

(** What a snapshot of the network shows besides the stored parameters. *)
Definition net_view (n : network) :=
  (net_id n, net_name n, net_nick n, net_state n, (λ c : cid, net_heap n !! c) <$> net_channels n,
   net_monitor_online n, net_bouncer n).

Lemma init_by_fold_view n : net_view (init_by_fold n) = net_view n ∧ net_params (init_by_fold n) = net_params n.
Proof. unfold init_by_fold. by destruct (net_by_fold n). Qed.

Lemma get_or_create_view n name kind : (get_or_create n name kind).2 = false →
  net_view (get_or_create n name kind).1.1 = net_view n ∧
  net_params (get_or_create n name kind).1.1 = net_params n.
Proof.
  unfold get_or_create, net_channel. destruct (by_fold _ !! _); [|done]. intros _. apply init_by_fold_view.
Qed.

Lemma each_member_miss n nick body : net_wf n → (each_member n nick body).2 = false →
  net_view (each_member n nick body).1.1 = net_view n ∧ net_params (each_member n nick body).1.1 = net_params n.
Proof.
  intros Hwf. rewrite each_member_eq by by apply net_wf_nodup. cbn [fst snd]. intros Hno. split; [|done].
  assert (Hl : (λ c : cid, net_heap (map_listed n (member_edit nick body)) !! c) <$> net_channels n =
    (λ c : cid, net_heap n !! c) <$> net_channels n); [|unfold net_view; cbn -[map_listed]; f_equal; f_equal; f_equal; exact Hl].
  apply list_fmap_ext. intros i c Hi%list_elem_of_lookup_2. rewrite map_listed_lookup, decide_True by done.
  destruct (net_heap n !! c) as [ch|] eqn:E; [|done]. cbn. f_equal. unfold member_edit.
  destruct (ch_members ch !! FoldIRC nick) as [m|] eqn:Em; [|done]. exfalso.
  assert (existsb (shares nick n) (net_channels n) = true); [|congruence].
  apply existsb_exists. exists c. split; [by apply list_elem_of_In|].
  unfold shares, members_of. rewrite E, Em. by apply bool_decide_true.
Qed.

Lemma add_autojoin_quiet p name key has_key : keys_wf (np_channel_keys p) →
  (add_autojoin p name key has_key).2 = false → (add_autojoin p name key has_key).1 = p.
Proof.
  intros Hk. unfold add_autojoin. destruct (negb (is_channel_name name)); [done|].
  destruct (list_find _ _) as [[i c]|].
  - destruct has_key; [|done]. pose proof (set_channel_key_spec p c key Hk) as Hs.
    destruct (set_channel_key p c key) as [p' b]. destruct Hs as (_ & _ & Hq & _). cbn. by intros ->%Hq.
  - destruct has_key; [|done]. by destruct (set_channel_key _ _ _).
Qed.

Section quiet.
Context `{UnicodeTables} (now : time).
Notation pend := (gmap string (gmap string string)).

(** A loop that raises a flag whenever it touches its state. *)
Lemma foldl_flag {A B} (f : B * bool → A → B * bool) l x :
  (∀ x a, (f (x, true) a).2 = true) → (∀ x a, (f (x, false) a).2 = false → f (x, false) a = (x, false)) →
  (foldl f (x, false) l).2 = false → foldl f (x, false) l = (x, false).
Proof.
  intros Ht Hf. induction l as [|a l IH]; [done|]. cbn [foldl]. destruct (f (x, false) a) as [y []] eqn:E.
  - assert (Hstick : ∀ l y, (foldl f (y, true) l).2 = true).
    { clear -Ht. induction l as [|a l IH]; [done|]. intros y. cbn. specialize (Ht y a).
      destruct (f (y, true) a) as [z []]; [apply IH|done]. }
    by rewrite Hstick.
  - pose proof (Hf x a) as Hx. rewrite E in Hx. injection (Hx eq_refl) as ->. apply IH.
Qed.

Lemma member_modes_quiet c n mms :
  (foldl (member_mode_change c) (n, false) mms).2 = false → foldl (member_mode_change c) (n, false) mms = (n, false).
Proof. apply foldl_flag; intros m mm; unfold member_mode_change; by destruct (_ ≫= _). Qed.

Lemma goc_params n name kind : net_params (get_or_create n name kind).1.1 = net_params n.
Proof.
  unfold get_or_create, net_channel. destruct (init_by_fold_view n) as [_ Hp].
  destruct (by_fold _ !! _); [done|]. cbn [fst]. rewrite <- Hp. unfold init_by_fold at 1. cbn.
  by destruct (net_by_fold (init_by_fold n)).
Qed.

Lemma foldl_params {A} (f : network → A → network) n l :
  (∀ n a, net_params (f n a) = net_params n) → net_params (foldl f n l) = net_params n.
Proof. intros Hf. revert n. induction l as [|a l IH]; intros n; [done|]. cbn. by rewrite IH. Qed.

Lemma pending_params (pending : pend) n c : net_params (apply_pending_state pending n c) = net_params n.
Proof. unfold apply_pending_state. by case_decide. Qed.

Lemma resumed_params (pending : pend) n ch : net_params (resumed_channel pending n ch) = net_params n.
Proof.
  unfold resumed_channel. destruct (String.eqb ch ""); [done|].
  pose proof (goc_params n ch KindChannel) as Hp. destruct (get_or_create _ _ _) as [[n' c] []]; [|done].
  by rewrite pending_params.
Qed.

Lemma each_member_params n nick body : net_params (each_member n nick body).1.1 = net_params n.
Proof.
  unfold each_member. assert (Hl : ∀ l n (out : list message) (hit : bool), net_params (foldl (λ '(n, out, hit) c,
    match net_heap n !! c with
    | Some ch =>
        match ch_members ch !! FoldIRC nick with
        | Some m => let '(ch', ls) := body ch m in (update_channel n c (λ _, ch'), out ++ ls, true)
        | None => (n, out, hit)
        end
    | None => (n, out, hit)
    end) (n, out, hit) l).1.1 = net_params n); [|apply Hl].
  induction l as [|c l IH]; intros m out hit; [done|]. cbn [foldl].
  repeat case_match; by rewrite IH.
Qed.

Lemma mode_params c n b mms : net_params (foldl (member_mode_change c) (n, b) mms).1 = net_params n.
Proof.
  revert n b. induction mms as [|mm mms IH]; intros n b; [done|]. cbn [foldl].
  unfold member_mode_change at 2. destruct (_ ≫= _); by rewrite IH.
Qed.

Lemma lookup_params n name : net_params (net_channel n name).1 = net_params n.
Proof. apply init_by_fold_view. Qed.

Lemma join_params (pending : pend) key n ev : keys_wf (np_channel_keys (net_params n)) →
  ap_persist (apply_join now pending key n ev) = false →
  net_params (ap_net (apply_join now pending key n ev)) = net_params n.
Proof.
  intros Hk. unfold apply_join. pose proof (goc_params n (evt_buffer ev) KindChannel) as Hp.
  destruct (get_or_create _ _ _) as [[n1 c] created]. cbn in Hp. set (n2 := if created then _ else n1).
  assert (Hp2 : net_params n2 = net_params n) by (unfold n2; destruct created; by rewrite ?pending_params).
  destruct (EqualIRC _ _); [|done]. cbn. rewrite Hp2.
  pose proof (add_autojoin_quiet (net_params n) (evt_buffer ev) (default "" key) (bool_decide (is_Some key)) Hk) as Hq.
  destruct (add_autojoin _ _ _ _) as [p stored]. cbn in *. by intros ->%Hq.
Qed.

Lemma part_params n ev : autojoin_wf (net_params n) →
  ap_persist (apply_part now n ev) = false → net_params (ap_net (apply_part now n ev)) = net_params n.
Proof.
  intros Ha. unfold apply_part. destruct (EqualIRC _ _).
  - assert (Hp : net_params (net_remove n (evt_buffer ev)) = net_params n) by apply init_by_fold_view.
    cbn zeta. rewrite Hp. pose proof (remove_autojoin_spec (net_params n) (evt_buffer ev) Ha) as Hs.
    destruct (remove_autojoin _ _) as [p forgot]. destruct Hs as (_ & _ & _ & Hq & _). cbn. by intros ->%Hq.
  - pose proof (lookup_params n (evt_buffer ev)) as Hp. by destruct (net_channel _ _) as [n1 [c|]].
Qed.

Lemma quiet_params (pending : pend) key hl n ev : autojoin_wf (net_params n) →
  ap_persist (apply_event now pending key hl n ev) = false →
  net_params (ap_net (apply_event now pending key hl n ev)) = net_params n.
Proof.
  intros Ha. unfold apply_event.
  destruct (evt_type ev); try done; try (by apply join_params; apply Ha); try (by apply part_params); intros _.
  - unfold apply_message_in. destruct (evt_message ev) as [m|]; [|done]. set (b := msg_buffer _).
    pose proof (goc_params n b (bufferKind b)) as Hp. destruct (get_or_create _ _ _) as [[n1 c] []]; [|done].
    cbn in *. by rewrite pending_params.
  - unfold apply_kick. cbn [ap_net]. pose proof (lookup_params n (evt_buffer ev)) as Hp.
    destruct (net_channel _ _) as [n1 [c|]]; [|done]. by destruct (EqualIRC _ _).
  - unfold apply_quit. set (body := λ ch (_ : member), _). pose proof (each_member_params n (evt_nick ev) body) as Hp.
    by destruct (each_member _ _ _) as [[n' out] hit].
  - unfold apply_nick. set (n1 := if EqualIRC _ _ then _ else n). cbn zeta.
    assert (Hp1 : net_params n1 = net_params n) by (unfold n1; by destruct (EqualIRC _ _)).
    rewrite <- Hp1. destruct (each_member _ _ _) as [[n' out] hit] eqn:E. cbn.
    apply (f_equal (λ x, x.1.1)) in E. cbn in E. subst n'. apply each_member_params.
  - unfold apply_topic. pose proof (goc_params n (evt_buffer ev) KindChannel) as Hp.
    destruct (get_or_create _ _ _) as [[n1 c] created]. cbn in Hp.
    destruct (String.eqb (evt_nick ev) ""), (evt_topic_meta ev), (time_is_zero (evt_time ev)); exact Hp.
  - unfold apply_connect. destruct (evt_resumed ev); [|by destruct (String.eqb (evt_nick ev) "")].
    cbn. rewrite foldl_params by apply resumed_params. by destruct (String.eqb (evt_nick ev) "").
  - unfold apply_disconnect. cbn. by rewrite foldl_params.
  - unfold apply_names. pose proof (goc_params n (evt_buffer ev) KindChannel) as Hp.
    destruct (get_or_create _ _ _) as [[n1 c] created]. cbn in *. by rewrite foldl_params.
  - unfold apply_away. destruct (each_member _ _ _) as [[n' out] hit] eqn:E.
    apply (f_equal (λ x, x.1.1)) in E. cbn in E |- *. subst n'. apply each_member_params.
  - unfold apply_account. destruct (each_member _ _ _) as [[n' out] hit] eqn:E.
    apply (f_equal (λ x, x.1.1)) in E. cbn in E |- *. subst n'. apply each_member_params.
  - unfold apply_identity. by destruct (each_member _ _ _) as [[n' out] hit].
  - unfold apply_identity. by destruct (each_member _ _ _) as [[n' out] hit].
  - unfold apply_history_target. pose proof (goc_params n (evt_buffer ev) KindQuery) as Hp.
    by destruct (get_or_create _ _ _) as [[n1 c] created].
  - unfold apply_invite. destruct (EqualIRC _ _); [done|]. pose proof (lookup_params n (evt_buffer ev)) as Hp.
    by destruct (net_channel _ _) as [n1 [c|]].
  - unfold apply_mode. pose proof (lookup_params n (evt_buffer ev)) as Hp.
    destruct (net_channel _ _) as [n1 [c|]]; [|done]. pose proof (mode_params c n1 false (evt_member_modes ev)) as Hm.
    destruct (foldl _ _ _) as [n2 b]. cbn in *. by repeat case_match; cbn; congruence.
  - unfold apply_monitor. by destruct (foldl _ _ _) as [online changed].
Qed.

(** The cases that report a change whatever they do. *)
Ltac always_changes :=
  unfold apply_join, apply_part, apply_topic, apply_connect, apply_names; cbn zeta; repeat case_match; done.

Definition quiet (n : network) (a : applied) : Prop := ap_changed a = false → net_view (ap_net a) = net_view n.

Lemma each_quiet n nick body out : net_wf n →
  quiet n (let '(n', _, hit) := each_member n nick body in Applied n' out hit false).
Proof.
  intros Hwf. pose proof (each_member_miss n nick body Hwf) as Hm.
  destruct (each_member n nick body) as [[n' o] hit]. intros Hc. by apply Hm.
Qed.

Lemma message_quiet (pending : pend) hl n ev : net_wf n → quiet n (apply_message_in pending hl n ev).
Proof.
  intros Hwf. unfold apply_message_in. destruct (evt_message ev) as [m|]; [|done]. set (b := msg_buffer _).
  pose proof (get_or_create_view n b (bufferKind b)) as Hp. destruct (get_or_create _ _ _) as [[n1 c] []]; [done|].
  intros _. by apply Hp.
Qed.

Lemma history_quiet n ev : quiet n (apply_history_target n ev).
Proof.
  unfold apply_history_target. pose proof (get_or_create_view n (evt_buffer ev) KindQuery) as Hp.
  destruct (get_or_create _ _ _) as [[n1 c] []]; [done|]. intros _. by apply Hp.
Qed.

Lemma quit_quiet n ev : net_wf n → quiet n (apply_quit now n ev).
Proof.
  intros Hwf. unfold apply_quit, quiet. cbn zeta. destruct (each_member _ _ _) as [[n' o] hit] eqn:E.
  intros Hc. cbn in *. subst hit. pose proof (f_equal (λ x, x.1.1) E) as E1. pose proof (f_equal snd E) as E2.
  cbn in E1, E2. subst n'. by apply each_member_miss.
Qed.

Lemma nick_quiet n ev : net_wf n → quiet n (apply_nick now n ev).
Proof.
  intros Hwf. unfold apply_nick, quiet. cbn zeta. destruct (EqualIRC _ _).
  - by destruct (each_member _ _ _) as [[n' o] hit].
  - destruct (each_member _ _ _) as [[n' o] hit] eqn:E. intros Hc. cbn in *. subst hit.
    pose proof (f_equal (λ x, x.1.1) E) as E1. pose proof (f_equal snd E) as E2. cbn in E1, E2. subst n'.
    by apply each_member_miss.
Qed.

Lemma away_quiet n ev : net_wf n → quiet n (apply_away n ev).
Proof. intros Hwf. by apply each_quiet. Qed.

Lemma account_quiet n ev : net_wf n → quiet n (apply_account n ev).
Proof. intros Hwf. by apply each_quiet. Qed.

Lemma invite_quiet n ev : quiet n (apply_invite now n ev).
Proof.
  unfold apply_invite. destruct (EqualIRC _ _); [done|]. pose proof (proj1 (init_by_fold_view n)) as Hv.
  unfold net_channel. destruct (_ !! _); intros _; exact Hv.
Qed.

Lemma mode_quiet n ev : quiet n (apply_mode now n ev).
Proof.
  unfold apply_mode, quiet. pose proof (proj1 (init_by_fold_view n)) as Hv. unfold net_channel.
  destruct (_ !! _) as [c|]; [|done]. pose proof (member_modes_quiet c (init_by_fold n) (evt_member_modes ev)) as Hm.
  destruct (foldl _ _ _) as [n2 b]. cbn in Hm.
  repeat case_match; try done. cbn. intros ->. by injection (Hm eq_refl) as ->.
Qed.

Lemma monitor_quiet n ev : quiet n (apply_monitor n ev).
Proof.
  unfold apply_monitor, quiet. destruct (foldl _ _ _) as [online changed] eqn:E. cbn. intros ->.
  assert (online = net_monitor_online n) as ->; [|by destruct n].
  enough ((online, false) = (net_monitor_online n, false)) by congruence.
  rewrite <- E. apply foldl_flag; [| |by rewrite E]; intros x nk; by case_decide.
Qed.

(** No change goes unreported.  If committing an event does not ask for a
    new snapshot, everything a snapshot shows of the network (name, nick,
    state, every buffer with its topic, modes and members, presence, bouncer
    networks) is as it was; if it does not ask for the parameters to be
    stored, they are as they were. *)
Theorem quiet_events_invisible (pending : pend) key hl n ev :
  net_ok True n →
  let a := apply_event now pending key hl n ev in
  (ap_changed a = false → net_view (ap_net a) = net_view n) ∧
  (ap_persist a = false → net_params (ap_net a) = net_params n).
Proof.
  intros Hok a. pose proof (proj1 Hok) as Hwf. split; [|apply quiet_params; by apply Hok].
  unfold a, apply_event. destruct (evt_type ev); try done; try (always_changes; fail).
  - by apply message_quiet.
  - by apply quit_quiet.
  - by apply nick_quiet.
  - by apply away_quiet.
  - by apply account_quiet.
  - unfold apply_identity. by destruct (each_member _ _ _) as [[n' out] hit].
  - unfold apply_identity. by destruct (each_member _ _ _) as [[n' out] hit].
  - by apply history_quiet.
  - by apply invite_quiet.
  - by apply mode_quiet.
  - by apply monitor_quiet.
Qed.
End quiet.

(** ** Witnesses *)

Lemma sample_net_ok : net_ok True sample_net.
Proof. split_and!; [by repeat split; constructor|intros _; apply sample_params_wf|apply map_Forall_empty|constructor]. Qed.

Definition joins : list event :=
  [new_event EvJoin "libera" 5 <| evt_nick := "me" |> <| evt_buffer := "#A[b]" |>;
   new_event EvNames "libera" 5 <| evt_buffer := "#a{B}" |> <| evt_members := [Member "Al" "" "@" false] |>;
   new_event EvKick "libera" 6 <| evt_nick := "ME" |> <| evt_buffer := "#a[b]" |> <| evt_kicker := "Al" |>].

Definition joined_net : network :=
  foldl (λ n ev, ap_net (@apply_event ascii_tables 7 ∅ None (λ _ _, false) n ev)) sample_net joins.

Lemma events_keep_network_witness : net_ok True sample_net ∧ net_ok True joined_net.
Proof. split; [apply sample_net_ok|]. apply (@events_keep_network True ascii_tables). apply sample_net_ok. Defined.

Lemma joined_net_ok : net_ok True joined_net.
Proof.
  unfold joined_net. induction joins as [|ev evs IH] using rev_ind; [apply sample_net_ok|].
  rewrite foldl_app. cbn [foldl]. by apply (@apply_event_stays True ascii_tables).
Qed.

Lemma roster_refines_witness :
  let ev := new_event EvNick "libera" 8 <| evt_nick := "AL" |> <| evt_new_nick := "Bo^" |> in
  let n' := ap_net (@apply_event ascii_tables 9 ∅ None (λ _ _, false) joined_net ev) in
  roster_of joined_net = ({[ "#a{b}" := ∅ ]} : roster) ∧
  roster_of n' = roster_event "me" ev (roster_of joined_net) ∧ net_nick n' = "me".
Proof.
  split; [by vm_compute|]. apply (@roster_refines True ascii_tables 9 ∅ None (λ _ _, false) joined_net). apply joined_net_ok.
Defined.

Lemma quiet_events_invisible_witness :
  let ev := new_event EvQuit "libera" 8 <| evt_nick := "nobody" |> in
  let a := @apply_event ascii_tables 9 ∅ None (λ _ _, false) joined_net ev in
  ap_changed a = false ∧ net_view (ap_net a) = net_view joined_net.
Proof.
  split; [by vm_compute|].
  apply (@quiet_events_invisible ascii_tables 9 ∅ None (λ _ _, false) joined_net
           (new_event EvQuit "libera" 8 <| evt_nick := "nobody" |>) joined_net_ok). by vm_compute.
Defined.
