(* ===== verification/CoreModes.v ===== *)
(** * Mode strings

    The two mode strings of [CoreEvent] against what they stand for: a
    member's prefixes are kept highest rank first without repetition, a
    channel's flags are the set of flags that is in force. *)

From Stdlib Require Import ZArith Lia Ascii Bool.
From stdpp Require Import base tactics list gmap strings sorting.
From S2P Require Import Prelude GoStrings Utf8 CoreTypes CoreEvent.

#[local] Open Scope Z_scope.

(** ** Membership prefixes *)

Notation bytes := String.list_ascii_of_string.

Definition rank_le (a b : ascii) : Prop := (prefix_rank a ≤ prefix_rank b)%nat.

(** Highest rank first. *)
Definition ranked (modes : string) : Prop := StronglySorted rank_le (bytes modes).

Lemma bytes_app s t : bytes (s +:+ t) = bytes s ++ bytes t.
Proof. induction s as [|a s IH]; [done|]. cbn. by rewrite IH. Qed.

Lemma has_prefix_byte c a s : has_prefix (String c "") (String a s) = bool_decide (c = a).
Proof.
  unfold has_prefix. cbn. destruct (ascii_dec c a) as [->|?];
    [rewrite bool_decide_true by done; by destruct s|by rewrite bool_decide_false].
Qed.

Lemma index_str_byte c s : index_str (String c "") s = index_byte c s.
Proof.
  induction s as [|a s IH]; [done|]. cbn [index_str index_byte]. rewrite has_prefix_byte.
  destruct (Ascii.eqb_spec a c) as [->|Hne]; [by rewrite bool_decide_true|by rewrite bool_decide_false, IH by congruence].
Qed.

Lemma contains_byte c s : contains_str (String c "") s = true ↔ c ∈ bytes s.
Proof.
  unfold contains_str. rewrite index_str_byte. induction s as [|a s IH]; [set_solver|].
  cbn [index_byte String.list_ascii_of_string]. rewrite elem_of_cons. destruct (Ascii.eqb_spec a c) as [->|Hne]; [naive_solver|].
  destruct (index_byte c s); naive_solver.
Qed.

Lemma insert_prefix_perm sr s modes : bytes (insert_prefix sr (String s "") modes) ≡ₚ s :: bytes modes.
Proof.
  induction modes as [|b modes IH]; [done|]. cbn -[Nat.ltb]. destruct (sr <? prefix_rank b)%nat; [done|].
  cbn. rewrite IH. constructor.
Qed.

Lemma insert_prefix_ranked s modes : ranked modes → ranked (insert_prefix (prefix_rank s) (String s "") modes).
Proof.
  unfold ranked. induction modes as [|b modes IH]; intros Hr; [repeat constructor|]. cbn -[Nat.ltb] in *.
  apply StronglySorted_inv in Hr as [Hr Hb].
  destruct (Nat.ltb_spec (prefix_rank s) (prefix_rank b)) as [Hlt|Hge]; cbn.
  - constructor; [by constructor|]. constructor; [unfold rank_le; lia|].
    eapply Forall_impl; [exact Hb|]. unfold rank_le. intros. lia.
  - constructor; [by apply IH|]. rewrite insert_prefix_perm. constructor; [exact Hge|done].
Qed.

(** [addPrefix] with one symbol keeps the prefixes ranked, so that the first
    one is the member's effective rank, and adds the symbol once. *)
Lemma add_prefix_ranked modes s : ranked modes → NoDup (bytes modes) →
  let modes' := addPrefix modes (String s "") in
  ranked modes' ∧ NoDup (bytes modes') ∧ ∀ b, b ∈ bytes modes' ↔ b = s ∨ b ∈ bytes modes.
Proof.
  intros Hr Hnd. cbn zeta. unfold addPrefix. destruct (contains_str (String s "") modes) eqn:E.
  - apply contains_byte in E. split_and!; [done|done|]. naive_solver.
  - assert (Hs : s ∉ bytes modes) by (rewrite <- contains_byte; congruence).
    split_and!; [by apply insert_prefix_ranked|rewrite insert_prefix_perm; by constructor|].
    intros b. rewrite insert_prefix_perm. apply elem_of_cons.
Qed.

Lemma replace_byte_fuel fuel s modes : (String.length modes ≤ fuel)%nat →
  bytes (replace_fuel fuel (String s "") "" modes) = filter (λ b, b ≠ s) (bytes modes).
Proof.
  revert modes. induction fuel as [|fuel IH]; intros modes Hf.
  { destruct modes; [done|cbn in Hf; lia]. }
  cbn [replace_fuel]. rewrite index_str_byte. cbn [String.length].
  assert (Hi : match index_byte s modes with
    | Some i => filter (λ b, b ≠ s) (bytes modes) =
                  bytes (str_take i modes) ++ filter (λ b, b ≠ s) (bytes (str_drop (i + 1) modes)) ∧
                (i < String.length modes)%nat
    | None => filter (λ b, b ≠ s) (bytes modes) = bytes modes end).
  { clear. induction modes as [|a modes IH]; [done|]. cbn [index_byte]. destruct (Ascii.eqb_spec a s) as [->|Hne].
    - cbn [String.list_ascii_of_string]. rewrite filter_cons_False by (by intros []). cbn. split; [done|lia].
    - cbn [String.list_ascii_of_string]. rewrite filter_cons_True by done.
      destruct (index_byte s modes) as [i|]; cbn; [|by rewrite IH]. destruct IH as [-> ?]. split; [done|lia]. }
  destruct (index_byte s modes) as [i|]; [|by rewrite Hi]. destruct Hi as [-> Hlt].
  rewrite bytes_app. cbn [String.append]. rewrite IH; [done|]. rewrite str_length_drop. lia.
Qed.

Lemma StronglySorted_sublist {A} (R : A → A → Prop) l k : sublist l k → StronglySorted R k → StronglySorted R l.
Proof.
  induction 1 as [|x l k Hs IH|x l k Hs IH]; intros Hk; [constructor|..]; apply StronglySorted_inv in Hk as [Hk Hx].
  - constructor; [by apply IH|]. rewrite Forall_forall in Hx |- *. intros y Hy. apply Hx.
    by eapply elem_of_sublist.
  - by apply IH.
Qed.

(** Removing a symbol removes it, keeps the others and their order. *)
Lemma remove_prefix_ranked modes s : ranked modes → NoDup (bytes modes) →
  let modes' := remove_all (String s "") modes in
  ranked modes' ∧ NoDup (bytes modes') ∧ ∀ b, b ∈ bytes modes' ↔ b ≠ s ∧ b ∈ bytes modes.
Proof.
  intros Hr Hnd. cbn zeta. unfold ranked, remove_all. cbn [String.eqb]. rewrite replace_byte_fuel by done.
  split_and!; [eapply StronglySorted_sublist; [apply sublist_filter|done]|by apply NoDup_filter|].
  intros b. by rewrite list_elem_of_filter.
Qed.

(** ** Channel flags *)

Lemma mode_changes_scalar adding flags S :
  Forall (λ r, scalar r = true) flags → set_Forall (λ r, scalar r = true) S →
  set_Forall (λ r, scalar r = true) (mode_changes adding flags S).
Proof.
  intros Hf. revert adding S. induction Hf as [|r flags Hr _ IH]; intros adding S HS; [done|]. cbn [mode_changes].
  repeat case_match; try (by apply IH); apply IH.
  - apply set_Forall_union; [by apply set_Forall_singleton|done].
  - intros x [Hx _]%elem_of_difference. by apply HS.
Qed.

Lemma mode_set_scalar s : set_Forall (λ r, scalar r = true) (mode_set_of s).
Proof.
  unfold mode_set_of. destruct (has_prefix "+" s); [|done]. intros r Hr%elem_of_list_to_set.
  pose proof (runes_scalar (str_drop 1 s)) as Hs. rewrite Forall_forall in Hs. by apply Hs.
Qed.

(** Reading back the flags that were written gives them back. *)
Lemma mode_set_show S : set_Forall (λ r, scalar r = true) S → mode_set_of (show_modes S) = S.
Proof.
  intros HS. unfold show_modes. case_decide as HE; [by subst|].
  unfold mode_set_of. rewrite (prefix_app "+"). change (str_drop 1 _) with (of_runes (merge_sort Z.le (elements S))).
  assert (Hp : merge_sort Z.le (elements S) ≡ₚ elements S) by apply merge_sort_Permutation.
  rewrite runes_of_runes.
  - rewrite <- list_fmap_compose, list_fmap_id. apply set_eq. intros r. rewrite elem_of_list_to_set, Hp. apply elem_of_elements.
  - rewrite Hp. apply Forall_forall. intros r Hr%elem_of_elements. by apply HS.
Qed.

(** The flags are written in increasing order. *)
Lemma show_modes_sorted S : S ≠ ∅ → set_Forall (λ r, scalar r = true) S →
  ∃ l, runes (show_modes S) = (43, "+") :: ((λ r, (r, encode_rune r)) <$> l) ∧ Sorted Z.le l ∧ NoDup l.
Proof.
  intros Hne HS. unfold show_modes. rewrite decide_False by done. exists (merge_sort Z.le (elements S)).
  assert (Hp : merge_sort Z.le (elements S) ≡ₚ elements S) by apply merge_sort_Permutation.
  split_and!; [|apply (Sorted_merge_sort Z.le)|rewrite Hp; apply NoDup_elements].
  cbn [String.append]. rewrite runes_ascii by done. f_equal. apply runes_of_runes.
  rewrite Hp. apply Forall_forall. intros r Hr%elem_of_elements. by apply HS.
Qed.

(** What a change string says last about a flag: set, unset, or nothing. *)
Fixpoint last_sign (adding : bool) (flags : list Z) (r : Z) : option bool :=
  match flags with
  | [] => None
  | x :: flags =>
      if Z.eqb x 43 then last_sign true flags r
      else if Z.eqb x 45 then last_sign false flags r
      else match last_sign adding flags r with
           | Some b => Some b
           | None => if Z.eqb x r then Some adding else None
           end
  end.

Lemma mode_changes_last adding flags S r :
  r ∈ mode_changes adding flags S ↔
  match last_sign adding flags r with Some b => b = true | None => r ∈ S end.
Proof.
  revert adding S. induction flags as [|x flags IH]; intros adding S; [done|]. cbn [mode_changes last_sign].
  destruct (Z.eqb x 43); [apply IH|]. destruct (Z.eqb x 45); [apply IH|]. rewrite IH.
  destruct (last_sign adding flags r) as [b|]; [done|]. destruct (Z.eqb_spec x r) as [->|Hne]; destruct adding; set_solver.
Qed.

Lemma channel_flags_set current change :
  let flags := (cut_byte SP (trim_space change)).1.1 in
  has_prefix "+" flags || has_prefix "-" flags = true →
  mode_set_of (updateChannelMode current change) =
  mode_changes true (fst <$> runes flags) (mode_set_of current).
Proof.
  intros flags Hs. unfold updateChannelMode. fold flags.
  assert (negb (has_prefix "+" flags) && negb (has_prefix "-" flags) = false) as ->.
  { by rewrite <- negb_orb, Hs. }
  apply mode_set_show, mode_changes_scalar; [apply runes_scalar|apply mode_set_scalar].
Qed.

(** The flags of a channel are a set, and the last word counts.  Whatever
    the stored mode string is, after a change that begins with a sign a flag
    can be read back from the new string exactly if the change set it last, or
    did not mention it and it was there before. *)
Theorem channel_flags_last_wins current change r :
  let flags := (cut_byte SP (trim_space change)).1.1 in
  has_prefix "+" flags || has_prefix "-" flags = true →
  r ∈ mode_set_of (updateChannelMode current change) ↔
  match last_sign true (fst <$> runes flags) r with Some b => b = true | None => r ∈ mode_set_of current end.
Proof. intros flags Hs. rewrite channel_flags_set by done. apply mode_changes_last. Qed.

Lemma channel_flags_last_wins_witness :
  last_sign true (fst <$> runes "+nt-m+k") 109 = Some false ∧
  (109 ∈ mode_set_of (updateChannelMode "+im" "+nt-m+k key") ↔ false = true).
Proof. split; [by vm_compute|]. apply (channel_flags_last_wins "+im" "+nt-m+k key" 109). by vm_compute. Defined.

(** The reply to a mode query is stored with its parameters ([apply_mode]), and
    the next change reads them as flags. *)
Example mode_parameters_become_flags : updateChannelMode "+ntk key" "+m" = "+ ekmnty".
Proof. by vm_compute. Qed.
