(* ===== verification/CoreEngine.v ===== *)
(** * The engine of the core: state, fan-out, networks

    [internal/core/engine.go]: the [Engine] with its locks taken as given (a
    definition is one call, which takes [mu] for its critical sections and does
    its I/O after), the operations the web server and the bouncer call, and the
    commit of events.  What an engine does to the outside is recorded in order
    as [core_effect]s: calls of the sinks, of connections, of the store.

    A connection is an id; what the engine asks of one ([Caps], whether a
    write is accepted), of the connector, the plugin host and the history store
    is the argument [cenv], the state of the world during the call. *)

From Stdlib Require Import ZArith Lia Ascii Bool.
From stdpp Require Import base tactics list gmap strings sorting.
From S2P Require Import Prelude GoStrings Utf8 EngineLine CoreTypes CoreEvent.

#[local] Open Scope Z_scope.

(** ** State *)

Notation conn := nat.
Notation run_id := nat.

(** Numbers of nanoseconds. *)
Definition ns_second : Z := 1000000000.

Record join_gate := JoinGate {
  g_held : bool;
  g_pending : bool;
  g_conn : conn;
  g_timer : option nat;
}.

(** [catchUp]. *)
Record catch_up := CatchUp { cu_pages : Z; cu_since : time }.

Record list_item := ListItem { li_name : string; li_users : Z; li_topic : string }.

(** [Highlighter]: its source patterns, which mirror the compiled ones. *)
Record highlighter := Highlighter { hl_patterns : list string; hl_exceptions : list string }.

(** What a connection goroutine ([runConn]) is doing. *)
Inductive run_phase :=
  | RunTop                         (** about to connect *)
  | RunConnecting (start : time)   (** inside [Connect] *)
  | RunSleeping.                   (** waiting out the backoff *)

Record run := Run {
  r_network : string;
  r_conn : conn;
  r_cancelled : bool;
  r_phase : run_phase;
  r_backoff : Z;
}.

(** Calls of sinks, connections and the network store, in order. *)
Inductive core_effect :=
  | SPrint (m : message)
  | SNetworkChanged (n : network)
  | SNetworkRemoved (id : string)
  | SNetworksReordered (ids : list string)
  | SChannelList (network : string) (items : list list_item)
  | STyping (network buffer nick state : string)
  | SReact (network buffer target nick reaction : string)
  | SRedact (network buffer target nick reason : string)
  | SReadMarker (network buffer : string) (ts : time)
  | CSendRaw (c : conn) (raw : string)
  | CMessage (c : conn) (target text : string)
  | CAutojoin (c : conn)
  | CClose (c : conn)
  | CDetach (c : conn)
  | DSave (p : network_params)
  | DDelete (id : string)
  | OSync (callback : nat).        (** the function of a [Sync] runs *)

(** What goroutines the engine has started still have to do. *)
Inductive core_task :=
  | TPerform (network : string) (seq : Z) (c : conn) (commands : list string)
      (variables : gmap string string) (hasAutojoin : bool)
  | TAutoRelease (network : string) (c : conn)
  | TStartCatchUp (network : string) (c : conn) (buffers : list string)
  | TCatchUp (network buffer : string) (c : conn) (newest fallback : time)
  | TPlugin (network buffer : string) (call : string) (target name : string).

Record core := Core {
  co_user : user;
  co_highlight : highlighter;
  co_aliases : gmap string string;
  co_conns : gmap string conn;
  co_cancels : gmap string run_id;
  co_startup : gmap string Z;
  co_catchups : gmap string catch_up;
  co_targets_since : gmap string time;
  co_list_accum : gmap string (list list_item);
  co_pending_whois : gmap string string;
  co_pending_keys : gmap string string;
  co_pending_state : gmap string (gmap string (gmap string string));
  co_gates : gmap string join_gate;
  co_id_seq : Z;
  co_running : bool;
  co_stopping : bool;
  co_events : list event;          (** the channel [events] *)
  co_wedged : bool;                (** the loop is blocked sending to [events] *)
  co_dirty : gset string;
  co_kick : bool;                  (** the channel [kick], of capacity one *)
  co_tasks : list core_task;
  co_timers : gmap nat (string * conn);
  co_runs : gmap run_id run;
  co_next : nat;                   (** the next timer or run *)
  co_out : list core_effect;
}.

#[export] Instance eta_core : Eta core := λ r,
  Core (co_user r) (co_highlight r) (co_aliases r) (co_conns r) (co_cancels r) (co_startup r) (co_catchups r)
    (co_targets_since r) (co_list_accum r) (co_pending_whois r) (co_pending_keys r) (co_pending_state r)
    (co_gates r) (co_id_seq r) (co_running r) (co_stopping r) (co_events r) (co_wedged r) (co_dirty r)
    (co_kick r) (co_tasks r) (co_timers r) (co_runs r) (co_next r) (co_out r).
#[export] Instance eta_gate : Eta join_gate := λ r,
  JoinGate (g_held r) (g_pending r) (g_conn r) (g_timer r).
#[export] Instance eta_run : Eta run := λ r,
  Run (r_network r) (r_conn r) (r_cancelled r) (r_phase r) (r_backoff r).
#[export] Instance eta_user : Eta user := λ r, User (u_id r) (u_name r) (u_networks r).

(** [New]; the caller's defaults for a missing user and highlighter. *)
Definition new_core (u : option user) (aliases : gmap string string) (hl : option highlighter) : core :=
  Core (default (User "default" "default" []) u) (default (Highlighter [] []) hl) aliases ∅ ∅ ∅ ∅ ∅ ∅ ∅ ∅ ∅ ∅
    0 false false [] false ∅ false [] ∅ ∅ 0 [].

(** ** The world during a call *)

(** What a plugin may call while a hook runs ([API]). *)
Inductive api_call :=
  | ApiSend (network raw : string)
  | ApiMessage (network target text : string)
  | ApiNotice (network target text : string)
  | ApiAction (network target text : string)
  | ApiJoin (network channel : string)
  | ApiPart (network channel : string)
  | ApiPrint (network buffer text : string)
  | ApiSetBufferState (network buffer : string) (state : gmap string string)
  | ApiHoldJoins (network : string)
  | ApiReleaseJoins (network : string).

(** [regexp]: whether a pattern compiles, whether a text matches it. *)
Class Regexp := { re_ok : string → bool; re_match : string → string → bool }.

Record cenv := CEnv {
  ce_now : time;
  ce_caps : conn → list string;                  (** [IRCConn.Caps] *)
  ce_send_ok : conn → bool;                      (** [SendRaw], [Message] return nil *)
  ce_detacher : conn → bool;                     (** the connection is a [Detacher] *)
  ce_connector : option (network_params → conn + string);   (** [Connector.Dial]; [None]: no connector *)
  ce_dispatch : event → list api_call * event * bool;       (** [PluginHost.Dispatch], with the calls it made *)
  ce_last_chat : option (string → string → option time);    (** [LastChatTime], if the history store has it *)
  ce_store : bool;                               (** a [NetworkStore] is configured *)
  ce_id_base : string;                           (** [idBase] *)
  ce_plugin : string → string → string → option string;     (** a plugin host call's error *)
}.

(** The pass-through host. *)
Definition nop_dispatch (ev : event) : list api_call * event * bool := ([], ev, true).

(** ** Highlights: [highlight.go] *)

Section highlight.
Context `{Regexp}.

(** [NewHighlighter]: blank patterns are skipped; [None] is the error of the
    first that does not compile. *)
Definition compile_patterns (src : list string) : option (list string) :=
  let kept := filter (λ p, p ≠ "") src in
  if forallb (λ p, re_ok ("(?i)" +:+ p)) kept then Some kept else None.

Definition NewHighlighter (patterns exceptions : list string) : option highlighter :=
  p ← compile_patterns patterns;
  x ← compile_patterns exceptions;
  Some (Highlighter p x).

(** [regexp.QuoteMeta]. *)
Definition is_meta (a : ascii) : bool := str_in a "\.+*?()|[]{}^$".

Fixpoint quote_meta (s : string) : string :=
  match s with
  | "" => ""
  | String a s => if is_meta a then String "\" (String a (quote_meta s)) else String a (quote_meta s)
  end%string.

Definition mentionsNick (text nick : string) : bool :=
  let pat := "(?i)\b" +:+ quote_meta nick +:+ "\b" in re_ok pat && re_match pat text.

Definition highlight_match (h : highlighter) (text nick : string) : bool :=
  if existsb (λ p, re_match ("(?i)" +:+ p) text) (hl_exceptions h) then false
  else if negb (String.eqb nick "") && mentionsNick text nick then true
  else existsb (λ p, re_match ("(?i)" +:+ p) text) (hl_patterns h).
End highlight.

(** ** Networks of the user *)

Definition find_network (c : core) (id : string) : option network := user_network (co_user c) id.

(** Writing through the pointer [User.Network(id)] returned. *)
Fixpoint set_network (id : string) (n : network) (l : list network) : list network :=
  match l with
  | [] => []
  | x :: l => if String.eqb (net_id x) id then n :: l else x :: set_network id n l
  end.

Definition put_network (id : string) (n : network) (c : core) : core :=
  c <| co_user ::= λ u : user, u <| u_networks ::= set_network id n |> |>.

Definition emit (e : core_effect) (c : core) : core := c <| co_out ::= λ l, l ++ [e] |>.

Definition emits (es : list core_effect) (c : core) : core := c <| co_out ::= λ l, l ++ es |>.

Definition send (cn : conn) (raw : string) (c : core) : core := emit (CSendRaw cn raw) c.

(** ** Snapshots: [orderChannels], [SnapshotNetwork], [Snapshot] *)

(** [slices.SortStableFunc] by a key, as insertion of the elements from the
    right. *)
Fixpoint insert_by {A} (key : A → Z) (x : A) (l : list A) : list A :=
  match l with
  | [] => [x]
  | y :: l' => if key x <=? key y then x :: l else y :: insert_by key x l'
  end.

Definition sort_stable {A} (key : A → Z) (l : list A) : list A := foldr (insert_by key) [] l.

(** The first position of a name in the order. *)
Definition order_rank (order : list string) (name : string) : Z :=
  match list_find (λ x, x = name) order with
  | Some (i, _) => Z.of_nat i
  | None => Z.of_nat (length order)
  end.

Definition orderChannels (n : network) : network :=
  let order := np_buffer_order (net_params n) in
  if (length order =? 0)%nat || (length (net_channels n) <? 2)%nat then n
  else n <| net_channels ::= sort_stable (λ c, order_rank order (FoldIRC (chan_name n c))) |>.

Section engine.
Context `{UnicodeTables, Regexp} (E : cenv).

Definition snapshot_of (c : core) (n : network) : network :=
  let nc := net_clone n in
  let nc := match co_conns c !! net_id n with Some cn => nc <| net_caps := ce_caps E cn |> | None => nc end in
  orderChannels nc.

Definition SnapshotNetwork (c : core) (id : string) : option network :=
  snapshot_of c <$> find_network c id.

Definition Snapshot (c : core) : user :=
  User (u_id (co_user c)) (u_name (co_user c)) (snapshot_of c <$> u_networks (co_user c)).

(** ** Settings *)

(** [SetHighlighter]; [None] is nil. *)
Definition SetHighlighter (h : option highlighter) (c : core) : core :=
  c <| co_highlight := default (Highlighter [] []) h |>.

(** [HighlightRules]. *)
Definition HighlightRules (c : core) : list string * list string :=
  (hl_patterns (co_highlight c), hl_exceptions (co_highlight c)).

Definition SetAliases (m : gmap string string) (c : core) : core := c <| co_aliases := m |>.

(** [Aliases]. *)
Definition Aliases (c : core) : gmap string string := co_aliases c.

(** ** Fan-out *)

Definition notifyNetwork (id : string) (c : core) : core :=
  match SnapshotNetwork c id with Some n => emit (SNetworkChanged n) c | None => c end.

Definition markDirty (id : string) (c : core) : core := c <| co_dirty ::= union {[ id ]} |>.

(** The ids are sorted: the order on strings. *)
Definition flushDirty (c : core) : core :=
  let ids := merge_sort String.le (elements (co_dirty c)) in
  foldl (λ c id, notifyNetwork id c) (c <| co_dirty := ∅ |>) ids.

Definition wakeFlush (c : core) : core := if co_running c then c <| co_kick := true |> else flushDirty c.

Definition synthID (c : core) : core * string :=
  let n := u64 (co_id_seq c + 1) in
  (c <| co_id_seq := n |>, "loc-" +:+ ce_id_base E +:+ "-" +:+ base36 n).

Definition broadcast (m : message) (c : core) : core :=
  let '(c, m) :=
    if String.eqb (msg_id m) "" then let '(c, id) := synthID c in (c, m <| msg_id := id |>) else (c, m) in
  emit (SPrint m) c.

(** [inject]: a synthetic line, past the plugin hooks. *)
Definition inject (m : message) (c : core) : core :=
  match find_network c (msg_network m) with
  | None => c
  | Some n =>
      let '(n, _, created) := get_or_create n (msg_buffer m) (bufferKind (msg_buffer m)) in
      let c := put_network (msg_network m) n c in
      let c := broadcast m c in
      if created then wakeFlush (markDirty (msg_network m) c) else c
  end.

(** A system line put into a buffer. *)
Definition say (network buffer text : string) (c : core) : core :=
  inject (new_message network buffer (ce_now E) "" MsgSystem text) c.

(** [HandleEvent]: the channel holds 256 events.  A goroutine that finds it
    full waits; the loop itself would wait for ever. *)
Definition event_capacity : nat := 256.

Definition HandleEvent (ev : event) (c : core) : core :=
  if (length (co_events c) <? event_capacity)%nat then c <| co_events ::= λ l, l ++ [ev] |>
  else c <| co_wedged := true |>.

(** ** Connections *)

Definition connFor (c : core) (id : string) : option conn := co_conns c !! id.

Definition has_str (x : string) (l : list string) : bool := existsb (String.eqb x) l.

Definition connWithCap (c : core) (network cap : string) : option conn :=
  cn ← connFor c network;
  if has_str cap (ce_caps E cn) then Some cn else None.

Definition hasCap (c : core) (network cap : string) : bool := bool_decide (is_Some (connWithCap c network cap)).

Definition echoMessage (c : core) (network : string) : bool := hasCap c network "echo-message".

Definition NetworkNick (c : core) (id : string) : string :=
  match find_network c id with Some n => net_nick n | None => "" end.

(** [startConnLocked]: a new goroutine under a context of its own. *)
Definition base_backoff : Z := ns_second.
Definition max_backoff : Z := 30 * ns_second.
Definition stable_for : Z := 60 * ns_second.

Definition startConnLocked (id : string) (cn : conn) (c : core) : core :=
  let r := co_next c in
  c <| co_next ::= S |> <| co_cancels ::= <[id := r]> |>
    <| co_runs ::= <[r := Run id cn false RunTop base_backoff]> |>.

Definition cancel_run (r : run_id) (c : core) : core :=
  c <| co_runs ::= alter (λ x : run, x <| r_cancelled := true |>) r |>.

(** [if cancel := e.connCancels[id]; cancel != nil { cancel(); delete(…) }]. *)
Definition cancel_network (id : string) (c : core) : core :=
  match co_cancels c !! id with
  | Some r => cancel_run r c <| co_cancels ::= delete id |>
  | None => c
  end.

Definition releaseConn (id : string) (cn : conn) (c : core) : core :=
  if bool_decide (co_conns c !! id = Some cn) then cancel_network id c else c.

Definition reconnectDelay (backoff lasted : Z) : Z * Z :=
  let backoff := if stable_for <=? lasted then base_backoff else backoff in
  (backoff, Z.min (i64 (backoff * 2)) max_backoff).

(** ** Join gates *)

Definition stop_timer (t : option nat) (c : core) : core :=
  match t with Some i => c <| co_timers ::= delete i |> | None => c end.

Definition resetJoinGateLocked (network : string) (c : core) : core :=
  match co_gates c !! network with
  | Some g => stop_timer (g_timer g) c <| co_gates ::= delete network |>
  | None => c
  end.

Definition startupActiveLocked (network : string) (seq : Z) (cn : conn) (c : core) : bool :=
  match find_network c network with
  | Some n => bool_decide (net_state n = StateRegistered) && bool_decide (co_conns c !! network = Some cn) &&
              Z.eqb (default 0 (co_startup c !! network)) seq
  | None => false
  end.

Definition isConnActiveLocked (network : string) (cn : option conn) (c : core) : bool :=
  match find_network c network with
  | Some n => bool_decide (net_state n = StateRegistered) && bool_decide (co_conns c !! network = cn) &&
              bool_decide (is_Some cn)
  | None => false
  end.

Definition HoldJoins (network : string) (c : core) : core * option string :=
  match find_network c network with
  | None => (c, Some ("network not found: " +:+ network))
  | Some n =>
      let netID := net_id n in
      match co_conns c !! netID with
      | None => (c, Some ("network not connected: " +:+ network))
      | Some cn =>
          (* A new gate's zero [conn] is nil, which no connection equals. *)
          let '(c, pending, timer) :=
            match co_gates c !! netID with
            | Some g => if bool_decide (g_conn g = cn) then (c, g_pending g, g_timer g)
                        else (stop_timer (g_timer g) c, false, None)
            | None => (c, false, None)
            end in
          let c := stop_timer timer c in
          let t := co_next c in
          let c := c <| co_next ::= S |> <| co_timers ::= <[t := (netID, cn)]> |> in
          (c <| co_gates ::= <[netID := JoinGate true pending cn (Some t)]> |>, None)
      end
  end.

(** The timeout the timer of [HoldJoins] is set to. *)
Definition join_hold_timeout (n : network) : Z :=
  let s := np_join_hold_timeout (net_params n) in
  i64 ((if s <=? 0 then 45 else s) * ns_second).

Definition autojoin (cn : conn) (c : core) : core := emit (CAutojoin cn) c.

Definition ReleaseJoins (network : string) (c : core) : core * option string :=
  match find_network c network with
  | None => (c, Some ("network not found: " +:+ network))
  | Some n =>
      let netID := net_id n in
      let cn := co_conns c !! netID in
      match co_gates c !! netID with
      | None => (c, None)
      | Some g =>
          let c := stop_timer (g_timer g) c in
          let g := g <| g_timer := None |> <| g_held := false |> in
          let now := g_pending g && bool_decide (cn = Some (g_conn g)) && isConnActiveLocked netID cn c in
          let g := if now then g <| g_pending := false |> else g in
          let c := c <| co_gates ::= <[netID := g]> |> in
          (match cn with Some cn => if now then autojoin cn c else c | None => c end, None)
      end
  end.

(** What the timer of [HoldJoins] runs. *)
Definition autoReleaseJoins (netID : string) (cn : conn) (c : core) : core :=
  match co_gates c !! netID with
  | None => c
  | Some g =>
      if negb (g_held g) || negb (bool_decide (g_conn g = cn)) then c
      else
        let now := g_pending g && isConnActiveLocked netID (Some cn) c in
        let g := g <| g_held := false |> <| g_timer := None |> <| g_pending := false |> in
        let c := c <| co_gates ::= <[netID := g]> |> in
        if now then autojoin cn c else c
  end.

Definition triggerAutojoinOrQueue (network : string) (seq : Z) (cn : conn) (c : core) : core :=
  if negb (startupActiveLocked network seq cn c) then c
  else
    match co_gates c !! network with
    | Some g =>
        if g_held g && bool_decide (g_conn g = cn)
        then c <| co_gates ::= <[network := g <| g_pending := true |>]> |>
        else autojoin cn c
    | None => autojoin cn c
    end.

(** ** Committing events *)

Definition TAB : string := String (byte_of_z 9) "".

Definition whoisKey (network nick : string) : string := network +:+ TAB +:+ FoldIRC nick.

Definition pending_key_of (network channel : string) : string := network +:+ TAB +:+ FoldIRC channel.

(** [recordPendingKeys]: the keys of a [/join] argument string, by position. *)
Fixpoint record_keys (network : string) (chans keys : list string) (m : gmap string string)
    : gmap string string :=
  match chans with
  | [] => m
  | ch :: chans =>
      let ch := trim_space ch in
      let m :=
        match keys with
        | [] => m
        | k :: _ =>
            let key := trim_space k in
            if String.eqb ch "" || String.eqb key "" then m else <[pending_key_of network ch := key]> m
        end in
      record_keys network chans (tail keys) m
  end.

Definition recordPendingKeys (network text : string) (c : core) : core :=
  let '(chans, keys, _) := cut_byte SP (trim_space text) in
  c <| co_pending_keys ::=
    record_keys network (split_byte "," chans) (split_byte "," (trim_space keys)) |>.

Definition takePendingKey (network channel : string) (c : core) : core :=
  c <| co_pending_keys ::= delete (pending_key_of network channel) |>.

(** [applyLocked]: the network's part is [apply_event]; a join of our own takes
    the pending key, a disconnect drops the join gate and the lookups that will
    not be answered. *)
Definition applyLocked (ev : event) (c : core) : core * list message * bool * bool :=
  match find_network c (evt_network ev) with
  | None => (c, [], false, false)
  | Some n =>
      let pending := default ∅ (co_pending_state c !! evt_network ev) in
      let key := co_pending_keys c !! pending_key_of (evt_network ev) (evt_buffer ev) in
      let a := apply_event (ce_now E) pending key (highlight_match (co_highlight c)) n ev in
      let c :=
        if decide (evt_type ev = EvDisconnect) then
          resetJoinGateLocked (evt_network ev) c <| co_pending_whois ::=
            filter (λ kv, has_prefix (evt_network ev +:+ TAB) kv.1 = false) |>
        else if decide (evt_type ev = EvJoin) then
          if EqualIRC (evt_nick ev) (net_nick n) then takePendingKey (evt_network ev) (evt_buffer ev) c else c
        else c in
      (put_network (evt_network ev) (ap_net a) c, ap_emit a, ap_changed a, ap_persist a)
  end.

Definition applyNumeric (ev : event) (c : core) : core :=
  let key := whoisKey (evt_network ev) (evt_nick ev) in
  let found := co_pending_whois c !! key in
  let b := default "" found in
  let buf := if String.eqb b "" then StatusBuffer else b in
  let n := evt_count ev in
  if negb (bool_decide (is_Some found)) && existsb (Z.eqb n) [352; 354; 315; 366] then c
  else
    let c := if existsb (Z.eqb n) [318; 369; 315; 366] then c <| co_pending_whois ::= delete key |> else c in
    inject (new_message (evt_network ev) buf (evt_time ev) "" MsgSystem (evt_text ev)) c.

(** [applyMessageOut].  The buffer is created before the line is sent; a line
    that cannot be sent leaves it behind unannounced. *)
Definition applyMessageOut (ev : event) (c : core) : core :=
  match evt_message ev with
  | None => c
  | Some m =>
      let echo := echoMessage c (evt_network ev) in
      match find_network c (evt_network ev) with
      | None => c
      | Some n =>
          let m := if String.eqb (msg_from m) "" then m <| msg_from := net_nick n |> else m in
          let '(n, _, created) := get_or_create n (msg_buffer m) (bufferKind (msg_buffer m)) in
          let c := put_network (evt_network ev) n c in
          match connFor c (evt_network ev) with
          | None => c
          | Some cn =>
              let c := emit (CMessage cn (msg_buffer m) (msg_text m)) c in
              if negb (ce_send_ok E cn) then c
              else
                let c := if echo then c else broadcast m c in
                if created then markDirty (evt_network ev) c else c
          end
      end
  end.

(** [maxListItems]. *)
Definition max_list_items : nat := 2000.

Definition persist_params (id : string) (p : network_params) (c : core) : core :=
  if ce_store E then emit (DSave p) c else c.

Definition commit (ev : event) (c : core) : core :=
  let net := evt_network ev in
  match evt_type ev with
  | EvListItem =>
      let items := default [] (co_list_accum c !! net) in
      if (length items <? max_list_items)%nat
      then c <| co_list_accum ::= <[net := items ++ [ListItem (evt_buffer ev) (evt_count ev) (evt_text ev)]]> |>
      else c
  | EvListEnd =>
      let items := default [] (co_list_accum c !! net) in
      emit (SChannelList net items) (c <| co_list_accum ::= delete net |>)
  | EvMessageOut => applyMessageOut ev c
  | EvTyping => emit (STyping net (evt_buffer ev) (evt_nick ev) (evt_text ev)) c
  | EvReact => emit (SReact net (evt_buffer ev) (evt_target ev) (evt_nick ev) (evt_text ev)) c
  | EvRedact => emit (SRedact net (evt_buffer ev) (evt_target ev) (evt_nick ev) (evt_text ev)) c
  | EvNumeric => applyNumeric ev c
  | _ =>
      let '(c, out, netChanged, persist) := applyLocked ev c in
      let params := net_params <$> find_network c net in
      let c := foldl (λ c m, broadcast m c) c out in
      let c := match params with
               | Some p => if persist then persist_params net p c else c
               | None => c
               end in
      if netChanged then markDirty net c else c
  end.

(** ** Networks at runtime *)

Definition persistAndNotify (p : network_params) (c : core) : core :=
  notifyNetwork (np_id p) (persist_params (np_id p) p c).

(** The [Network] of a configured connection. *)
Definition fresh_network (p : network_params) : network :=
  Network (np_id p) (np_name p) (np_nick p) StateDisconnected [] None [] p ∅ [] ∅ 0.

Definition add_network (p : network_params) (cn : conn) (c : core) : core :=
  c <| co_user ::= λ u : user, u <| u_networks ::= λ l, l ++ [fresh_network p] |> |>
    <| co_conns ::= <[np_id p := cn]> |>.

(** [AddNetwork], before the engine runs. *)
Definition AddNetwork (p : network_params) (cn : conn) (c : core) : core := add_network p cn c.

(** The errors of [AddNetworkLive] its caller tells apart. *)
Inductive add_error := ErrNetworkExists | ErrOther (text : string).

Definition add_error_text (e : add_error) : string :=
  match e with ErrNetworkExists => "network already exists" | ErrOther text => text end.

Definition errNoConnector : string := "runtime networks not supported".

Definition AddNetworkLive (p : network_params) (c : core) : core * option add_error :=
  if String.eqb (np_id p) "" || String.eqb (np_addr p) "" then
    (c, Some (ErrOther "network requires id and addr"))
  else
    match ce_connector E with
    | None => (c, Some (ErrOther errNoConnector))
    | Some dial =>
        match find_network c (np_id p) with
        | Some _ => (c, Some ErrNetworkExists)
        | None =>
            match dial p with
            | inr err => (c, Some (ErrOther err))
            | inl cn =>
                let c := add_network p cn c in
                let c := if co_running c then startConnLocked (np_id p) cn c else c in
                (persistAndNotify p c, None)
            end
        end
    end.

Definition drop_prefix {A} (pre : string) (m : gmap string A) : gmap string A :=
  filter (λ kv, has_prefix pre kv.1 = false) m.

Definition RemoveNetwork (id : string) (c : core) : core * option string :=
  match find_network c id with
  | None => (c, Some "unknown network")
  | Some _ =>
      let c := cancel_network id c in
      let cn := co_conns c !! id in
      let c := c <| co_conns ::= delete id |> <| co_pending_state ::= delete id |>
                 <| co_list_accum ::= delete id |> <| co_startup ::= delete id |>
                 <| co_targets_since ::= delete id |>
                 <| co_catchups ::= drop_prefix (id +:+ String NUL "") |> in
      let c := resetJoinGateLocked id c in
      let c := c <| co_user ::= λ u : user, u <| u_networks ::= remove_first (λ n, String.eqb (net_id n) id) |> |> in
      let c := match cn with Some cn => emit (CClose cn) c | None => c end in
      let c := if ce_store E then emit (DDelete id) c else c in
      (emit (SNetworkRemoved id) c, None)
  end.

Definition kind_word (k : channel_kind) : string :=
  match k with KindChannel => "channel" | KindQuery => "query" | KindStatus => "status" end.

Definition CloseBuffer (network buffer : string) (c : core) : core * option string :=
  match find_network c network with
  | None => (c, Some "unknown network")
  | Some n =>
      let '(n, found) := net_channel n buffer in
      let c := put_network network n c in
      match found ≫= (λ ch, net_heap n !! ch) with
      | None => (c, Some "unknown buffer")
      | Some ch =>
          if decide (ch_kind ch = KindQuery) then
            (notifyNetwork network (put_network network (net_remove n buffer) c), None)
          else (c, Some ("cannot close a " +:+ kind_word (ch_kind ch) +:+ " buffer"))
      end
  end.

(** [reconcileKeys]: the keys of channels still listed, under the list's
    casing. *)
Definition reconcileKeys (keys : gmap string string) (channels : list string) : gmap string string :=
  map_fold (λ k v out,
    match list_find (λ ch, EqualIRC ch k = true) channels with
    | Some (_, ch) => <[ch := v]> out
    | None => out
    end) ∅ keys.

Definition needsReconnect (old p : network_params) : bool :=
  negb (String.eqb (np_addr old) (np_addr p)) || negb (Bool.eqb (np_tls old) (np_tls p)) ||
  negb (bool_decide (np_fallbacks old = np_fallbacks p)) || negb (Bool.eqb (np_insecure old) (np_insecure p)) ||
  negb (String.eqb (np_user old) (np_user p)) || negb (String.eqb (np_realname old) (np_realname p)) ||
  negb (String.eqb (np_sasl_user old) (np_sasl_user p)) || negb (String.eqb (np_sasl_pass old) (np_sasl_pass p)) ||
  negb (String.eqb (np_server_pass old) (np_server_pass p)) ||
  negb (Bool.eqb (np_sasl_external old) (np_sasl_external p)) ||
  negb (Bool.eqb (np_sasl_scram old) (np_sasl_scram p)) || negb (String.eqb (np_cert_pem old) (np_cert_pem p)).

Definition has_irc (l : list string) (s : string) : bool := existsb (λ x, EqualIRC x s) l.

Definition diffChannels (old updated : list string) : list string * list string :=
  (filter (λ c, negb (String.eqb c "") && negb (has_irc old c) = true) updated,
   filter (λ c, negb (String.eqb c "") && negb (has_irc updated c) = true) old).

Definition UpdateNetwork (p : network_params) (c : core) : core * option string :=
  let id := np_id p in
  match find_network c id with
  | None => (c, Some "unknown network")
  | Some n =>
      let old := net_params n in
      let p := p <| np_channel_keys := reconcileKeys (np_channel_keys old) (np_channels p) |> in
      if needsReconnect old p then
        match ce_connector E with
        | None => (c, Some errNoConnector)
        | Some dial =>
            match dial p with
            | inr err => (c, Some err)
            | inl cn =>
                let c := cancel_network id c in
                let oldConn := co_conns c !! id in
                let c := put_network id (n <| net_params := p |> <| net_name := np_name p |> <| net_nick := np_nick p |>) c in
                let c := c <| co_conns ::= <[id := cn]> |> in
                let c := if co_running c then startConnLocked id cn c else c in
                let c := match oldConn with Some o => emit (CClose o) c | None => c end in
                (persistAndNotify p c, None)
            end
        end
      else
        let registered := bool_decide (net_state n = StateRegistered) in
        let '(added, removed) := diffChannels (np_channels old) (np_channels p) in
        let c := put_network id (n <| net_params := p |> <| net_name := np_name p |>) c in
        let c :=
          match co_conns c !! id with
          | Some cn =>
              if registered then
                let c := if String.eqb (np_nick old) (np_nick p) then c else send cn ("NICK " +:+ np_nick p) c in
                let c := foldl (λ c ch, send cn ("PART " +:+ ch) c) c removed in
                foldl (λ c ch, send cn ("JOIN " +:+ ch) c) c added
              else c
          | None => c
          end in
        (persistAndNotify p c, None)
  end.

Definition ListChannels (network query : string) (c : core) : core * option string :=
  match connFor c network with
  | None => (c, Some "unknown or disconnected network")
  | Some cn =>
      let c := c <| co_list_accum ::= <[network := []]> |> in
      let cmd := if String.eqb query "" then "LIST" else "LIST " +:+ query in
      (send cn cmd c, if ce_send_ok E cn then None else Some "send failed")
  end.

Definition ReorderBuffers (network : string) (names : list string) (c : core) : core * option string :=
  match find_network c network with
  | None => (c, Some "unknown network")
  | Some n =>
      let p := net_params n <| np_buffer_order := FoldIRC <$> names |> in
      (persistAndNotify p (put_network network (n <| net_params := p |>) c), None)
  end.

(** The networks named, in the order named and once each; then the rest. *)
Fixpoint pick_networks (l : list network) (seen : list string) (ids : list string) : list network :=
  match ids with
  | [] => filter (λ n, has_str (net_id n) seen = false) l
  | id :: ids =>
      if has_str id seen then pick_networks l seen ids
      else match list_find (λ n, net_id n = id) l with
           | Some (_, n) => n :: pick_networks l (id :: seen) ids
           | None => pick_networks l seen ids
           end
  end.

Definition ReorderNetworks (ids : list string) (c : core) : core :=
  let l := pick_networks (u_networks (co_user c)) [] ids in
  let l := imap (λ i n, n <| net_params ::= λ p : network_params, p <| np_pos := Z.of_nat i |> |>) l in
  let c := c <| co_user ::= λ u : user, u <| u_networks := l |> |> in
  let c := if ce_store E then emits ((λ n, DSave (net_params n)) <$> l) c else c in
  emit (SNetworksReordered (net_id <$> l)) c.

Definition NetworkConfig (c : core) (id : string) : option network_params := net_params <$> find_network c id.

Definition SetConnected (id : string) (connect : bool) (c : core) : core * option string :=
  match find_network c id with
  | None => (c, Some "unknown network")
  | Some n =>
      if connect then
        match co_cancels c !! id with
        | Some _ => (c, None)
        | None =>
            match ce_connector E with
            | None => (c, Some errNoConnector)
            | Some dial =>
                match dial (net_params n) with
                | inr err => (c, Some err)
                | inl cn =>
                    let old := co_conns c !! id in
                    let c := c <| co_conns ::= <[id := cn]> |> in
                    let c := if co_running c then startConnLocked id cn c else c in
                    (match old with
                     | Some o => if bool_decide (o = cn) then c else emit (CClose o) c
                     | None => c
                     end, None)
                end
            end
        end
      else
        let c := cancel_network id c in
        let cn := co_conns c !! id in
        let c := put_network id (n <| net_state := StateDisconnected |>) c in
        let c := match cn with Some cn => emit (CClose cn) c | None => c end in
        (notifyNetwork id c, None)
  end.

Definition monitor_live (id : string) (n : network) (raw : string) (c : core) : core :=
  match co_conns c !! id with
  | Some cn => if bool_decide (net_state n = StateRegistered) then send cn raw c else c
  | None => c
  end.

Definition AddMonitor (id nick : string) (c : core) : core * option string :=
  let nick := trim_space nick in
  if String.eqb nick "" then (c, Some "empty nick")
  else
    match find_network c id with
    | None => (c, Some "unknown network")
    | Some n =>
        if has_irc (np_monitor (net_params n)) nick then (c, None)
        else
          let p := net_params n <| np_monitor ::= λ l, l ++ [to_lower nick] |> in
          let c := put_network id (n <| net_params := p |>) c in
          (persistAndNotify p (monitor_live id n ("MONITOR + " +:+ nick) c), None)
    end.

Definition RemoveMonitor (id nick : string) (c : core) : core * option string :=
  match find_network c id with
  | None => (c, Some "unknown network")
  | Some n =>
      let l := filter (λ s, EqualIRC s nick = false) (np_monitor (net_params n)) in
      if (length l =? length (np_monitor (net_params n)))%nat then (c, None)
      else
        let p := net_params n <| np_monitor := l |> in
        let n := n <| net_params := p |> <| net_monitor_online ::= delete (to_lower nick) |> in
        let c := put_network id n c in
        (persistAndNotify p (monitor_live id n ("MONITOR - " +:+ nick) c), None)
  end.

Definition MarkRead (network buffer : string) (ts : time) (c : core) : core :=
  let ts := if time_is_zero ts then ce_now E else ts in
  let c :=
    match find_network c network with
    | None => c
    | Some n =>
        let '(n, found) := net_channel n buffer in
        let n := match found with
                 | Some ch => update_channel n ch (λ ch : channel, ch <| ch_unread := 0 |> <| ch_highlight := 0 |>)
                 | None => n
                 end in
        put_network network n c
    end in
  emit (SReadMarker network buffer ts) c.
End engine.
