(* ===== verification/CoreHistory.v ===== *)
(** * Upstream chat history

    [internal/core/chathistory.go]: the [/chathistory] command, and catch-up:
    after registering, the engine asks the server for what it missed, one page
    of CHATHISTORY AFTER at a time per buffer.  [catch_up_bounded] shows that a
    chain of pages ends whatever the server answers. *)

From Stdlib Require Import ZArith Lia Ascii Bool.
From stdpp Require Import base tactics list gmap strings sorting.
From S2P Require Import Prelude GoStrings Utf8 EngineLine LinkTags CoreTypes CoreEvent CoreEngine.

#[local] Open Scope Z_scope.

(** ** Request lines *)

Definition catchUpLimit : Z := 100.
Definition catchUpMaxPages : Z := 10.
Definition targetsLimit : Z := 100.
Definition maxChatHistory : Z := 1000.

Definition ns_minute : Z := 60 * ns_second.
Definition ns_week : Z := 7 * 24 * 3600 * ns_second.

(** [t.UTC().Format(chatHistoryLayout)]: milliseconds, truncated. *)
Definition chatHistoryTime (t : time) : string := server_time (t / 1000000).

Definition catchUpKey (network buffer : string) : string := network +:+ String NUL "" +:+ FoldIRC buffer.

Section history.
Context `{UnicodeTables, TimeParse}.

Definition ref_layouts : list string :=
  ["2006-01-02T15:04:05.999999999Z07:00"; "2006-01-02T15:04:05"; "2006-01-02 15:04:05"; "2006-01-02 15:04";
   "2006-01-02"].

(** The first layout that parses. *)
Fixpoint parse_layouts (layouts : list string) (raw : string) : option time :=
  match layouts with
  | [] => None
  | l :: layouts => match time_parse l raw with Some t => Some t | None => parse_layouts layouts raw end
  end.

(** A value or an error. *)
Notation result A := (A + string)%type.

Definition chatHistoryRef (s : string) : result string :=
  if String.eqb s "*" then inl s
  else if has_prefix "msgid=" s && (6 <? str_len s) then inl s
  else
    match parse_layouts ref_layouts (trim_prefix "timestamp=" s) with
    | Some t => inl ("timestamp=" +:+ chatHistoryTime t)
    | None => inr ("bad reference " +:+ go_quote s +:+
                   ": use msgid=ID, timestamp=TIME, a date like 2024-05-01, or *")
    end.

Definition chatHistoryUsage : string :=
  "usage: /chathistory [latest] [n] | before|after|around <ref> [n] | between <ref> <ref> [n] | targets [<ref> <ref>] [n]  (ref: msgid=ID, timestamp=TIME, a date, or *)".

(** The closure [refs]. *)
Fixpoint map_refs (args : list string) : result (list string) :=
  match args with
  | [] => inl []
  | a :: args =>
      match chatHistoryRef a with
      | inr e => inr e
      | inl r => match map_refs args with inl rs => inl (r :: rs) | inr e => inr e end
      end
  end.

Definition history_refs (want : nat) (args : list string) : result (list string) :=
  if (length args =? want)%nat then map_refs args else inr chatHistoryUsage.

(** The subcommand and the arguments after it. *)
Definition history_sub (args : list string) : string * list string :=
  match args with
  | a :: rest => match atoi a with Some _ => ("latest", args) | None => (to_lower a, rest) end
  | [] => ("latest", [])
  end.

(** A trailing bare number is the limit. *)
Definition history_count (args : list string) : result (Z * list string) :=
  match last args with
  | Some a =>
      match atoi a with
      | Some v => if v <? 1 then inr "limit must be at least 1"
                  else inl (Z.min v maxChatHistory, take (length args - 1) args)
      | None => inl (50, args)
      end
  | None => inl (50, args)
  end.

(** The closure [needBuffer]. *)
Definition history_buffer (buffer sub : string) : option string :=
  if String.eqb buffer "" || String.eqb buffer StatusBuffer || IsPluginBuffer buffer
  then Some ("/chathistory " +:+ sub +:+ " works in a channel or query") else None.

Definition history_line (words : list string) (limit : Z) : string :=
  str_join " " ("CHATHISTORY" :: words ++ [itoa limit]).

Definition chatHistoryLine (buffer : string) (args : list string) (now : time) : result string :=
  let '(sub, args) := history_sub args in
  match history_count args with
  | inr e => inr e
  | inl (limit, args) =>
      let in_buffer (k : result string) : result string :=
        match history_buffer buffer sub with Some e => inr e | None => k end in
      if String.eqb sub "latest" then
        in_buffer
          match args with
          | [] => inl (history_line ["LATEST"; buffer; "*"] limit)
          | _ => match history_refs 1 args with
                 | inl rs => inl (history_line ("LATEST" :: buffer :: rs) limit)
                 | inr e => inr e
                 end
          end
      else if String.eqb sub "before" || String.eqb sub "after" || String.eqb sub "around" then
        in_buffer
          match history_refs 1 args with
          | inl rs => inl (history_line (to_upper sub :: buffer :: rs) limit)
          | inr e => inr e
          end
      else if String.eqb sub "between" then
        in_buffer
          match history_refs 2 args with
          | inl rs => inl (history_line ("BETWEEN" :: buffer :: rs) limit)
          | inr e => inr e
          end
      else if String.eqb sub "targets" then
        match args with
        | [] => inl (history_line ["TARGETS"; "timestamp=" +:+ chatHistoryTime (now - ns_week);
                                   "timestamp=" +:+ chatHistoryTime (now + ns_minute)] limit)
        | _ => match history_refs 2 args with
               | inl rs => inl (history_line ("TARGETS" :: rs) limit)
               | inr e => inr e
               end
        end
      else inr chatHistoryUsage
  end.

(** ** Commands and events *)

Context `{Regexp} (E : cenv).

Definition hasChatHistory (cn : conn) : bool :=
  has_str "draft/chathistory" (ce_caps E cn) || has_str "chathistory" (ce_caps E cn).

Definition runChatHistory (ev : event) (cn : conn) (c : core) : core :=
  let say := say E (evt_network ev) (evt_buffer ev) in
  if negb (hasChatHistory cn) then say "this server does not support chathistory" c
  else
    match chatHistoryLine (evt_buffer ev) (event_args ev) (ce_now E) with
    | inr err => say err c
    | inl line => send cn line c
    end.

Definition spawn (t : core_task) (c : core) : core := c <| co_tasks ::= λ l, l ++ [t] |>.

Definition conversation (n : network) (ch : cid) : list string :=
  match net_heap n !! ch with
  | Some ch => if decide (ch_kind ch = KindStatus) then [] else [ch_name ch]
  | None => []
  end.

Definition startCatchUp (network : string) (c : core) : core :=
  match ce_last_chat E, co_conns c !! network with
  | Some _, Some cn =>
      if hasChatHistory cn then
        let buffers := match find_network c network with
                       | Some n => mjoin (conversation n <$> net_channels n)
                       | None => []
                       end in
        spawn (TStartCatchUp network cn buffers) c
      else c
  | _, _ => c
  end.

(** The goroutine: the newest line stored for any buffer is the baseline. *)
Definition run_start_catch_up (network : string) (cn : conn) (buffers : list string) (c : core) : core :=
  match ce_last_chat E with
  | None => c
  | Some last_chat =>
      let since := foldl (λ since b, match last_chat network b with
                                     | Some t => if since <? t then t else since
                                     | None => since
                                     end) zero_time buffers in
      if time_is_zero since || negb (bool_decide (co_conns c !! network = Some cn)) then c
      else
        send cn ("CHATHISTORY TARGETS timestamp=" +:+ chatHistoryTime since +:+ " timestamp=" +:+
                 chatHistoryTime (ce_now E + ns_minute) +:+ " " +:+ itoa targetsLimit)
          (c <| co_targets_since ::= <[network := since]> |>)
  end.

Definition catchUpBuffer (network buffer : string) (newest fallback : time) (c : core) : core :=
  match ce_last_chat E, co_conns c !! network with
  | Some _, Some cn =>
      if hasChatHistory cn then spawn (TCatchUp network buffer cn newest fallback) c else c
  | _, _ => c
  end.

Definition after_line (buffer : string) (since : time) : string :=
  "CHATHISTORY AFTER " +:+ buffer +:+ " timestamp=" +:+ chatHistoryTime since +:+ " " +:+ itoa catchUpLimit.

Definition run_catch_up (network buffer : string) (cn : conn) (newest fallback : time) (c : core) : core :=
  match ce_last_chat E ≫= (λ f, f network buffer) with
  | None => c
  | Some since =>
      let since := if time_is_zero since then fallback else since in
      if time_is_zero since || (negb (time_is_zero newest) && (newest <=? since)) ||
         negb (bool_decide (co_conns c !! network = Some cn))
      then c
      else send cn (after_line buffer since)
             (c <| co_catchups ::= <[catchUpKey network buffer := CatchUp 1 since]> |>)
  end.

Definition onHistoryTarget (ev : event) (c : core) : core :=
  let b := evt_buffer ev in
  if String.eqb b "" || negb (IsQueryBuffer b) || IsPluginBuffer b then c
  else
    match find_network c (evt_network ev) with
    | None => c
    | Some n =>
        if EqualIRC (net_nick n) b then c
        else
          let fallback := default zero_time (co_targets_since c !! evt_network ev) in
          catchUpBuffer (evt_network ev) b (evt_time ev) fallback (commit E ev c)
    end.

Definition onHistoryBatch (ev : event) (c : core) : core :=
  let key := catchUpKey (evt_network ev) (evt_buffer ev) in
  match co_catchups c !! key with
  | None => c
  | Some ch =>
      match co_conns c !! evt_network ev with
      | Some cn =>
          if (evt_count ev <? catchUpLimit) || (catchUpMaxPages <=? cu_pages ch) || (evt_time ev <=? cu_since ch)
          then c <| co_catchups ::= delete key |>
          else
            send cn (after_line (evt_buffer ev) (evt_time ev))
              (c <| co_catchups ::= <[key := CatchUp (cu_pages ch + 1) (evt_time ev)]> |>)
      | None => c <| co_catchups ::= delete key |>
      end
  end.

Definition dropCatchUps (network : string) (c : core) : core :=
  c <| co_catchups ::= drop_prefix (network +:+ String NUL "") |> <| co_targets_since ::= delete network |>.
End history.

(** ** A chain of pages ends *)

(** The batches of one buffer, as they come in. *)
Definition batches (evs : list event) (c : core) : core := foldl (λ c ev, onHistoryBatch ev c) c evs.

Definition chain_of (key : string) (ev : event) : Prop := catchUpKey (evt_network ev) (evt_buffer ev) = key.

Definition is_request (t : time) (e : core_effect) : Prop := ∃ cn b, e = CSendRaw cn (after_line b t).

(** The chain is over, or has made [k] more requests. *)
Lemma batch_step key ch ev c : chain_of key ev → co_catchups c !! key = Some ch →
  let c' := onHistoryBatch ev c in
  co_catchups c' !! key = None ∧ co_out c' = co_out c ∨
  cu_pages ch < catchUpMaxPages ∧ cu_since ch < evt_time ev ∧
  co_catchups c' !! key = Some (CatchUp (cu_pages ch + 1) (evt_time ev)) ∧
  ∃ e, is_request (evt_time ev) e ∧ co_out c' = co_out c ++ [e].
Proof.
  intros Hk Hc c'. unfold chain_of in Hk. subst key. unfold c', onHistoryBatch. rewrite Hc.
  destruct (co_conns c !! evt_network ev) as [cn|]; [|left; split; [apply lookup_delete_eq|done]].
  destruct (evt_count ev <? catchUpLimit); [left; split; [apply lookup_delete_eq|done]|].
  destruct (Z.leb_spec catchUpMaxPages (cu_pages ch)); [left; split; [apply lookup_delete_eq|done]|].
  destruct (Z.leb_spec (evt_time ev) (cu_since ch)); [left; split; [apply lookup_delete_eq|done]|].
  right. split_and!; [done|done|apply lookup_insert_eq|]. eexists. split; [by eexists _, _|done].
Qed.

Lemma batches_over key evs c : Forall (chain_of key) evs → co_catchups c !! key = None → batches evs c = c.
Proof.
  intros Hk. revert c. induction Hk as [|ev evs Hev _ IH]; intros c Hc; [done|]. cbn.
  assert (onHistoryBatch ev c = c) as -> by (unfold onHistoryBatch; by rewrite Hev, Hc). by apply IH.
Qed.

(** Catch-up ends.  From a buffer's first page on, whatever batches the
    server sends for it (how many, how full, with whatever times), at most ten
    pages are requested in all, each from a strictly later point than the one
    before, and after at most ten batches the chain is over, whether or not
    the server kept sending full pages. *)
Theorem catch_up_bounded key ch evs c :
  co_catchups c !! key = Some ch → 1 ≤ cu_pages ch ≤ catchUpMaxPages → Forall (chain_of key) evs →
  let c' := batches evs c in
  ∃ ts es, co_out c' = co_out c ++ es ∧ Forall2 is_request ts es ∧
    StronglySorted Z.lt (cu_since ch :: ts) ∧
    cu_pages ch + Z.of_nat (length ts) ≤ catchUpMaxPages ∧
    (catchUpMaxPages < cu_pages ch + Z.of_nat (length evs) → co_catchups c' !! key = None).
Proof.
  intros Hc Hp Hk. revert c ch Hc Hp. induction Hk as [|ev evs Hev Hevs IH]; intros c ch Hc Hp; cbn zeta.
  { exists [], []. cbn. rewrite app_nil_r. split_and!; [done|constructor|repeat constructor|lia|lia]. }
  change (batches (ev :: evs) c) with (batches evs (onHistoryBatch ev c)).
  destruct (batch_step key ch ev c Hev Hc) as [[Hn Ho]|(Hlt & Hs & Hc' & e & He & Ho)].
  - rewrite (batches_over key) by done. exists [], []. rewrite app_nil_r.
    split_and!; [done|constructor|repeat constructor|cbn; lia|done].
  - destruct (IH _ _ Hc') as (ts & es & Hout & Hreq & Hsort & Hlen & Hend); [cbn; lia|].
    exists (evt_time ev :: ts), (e :: es). cbn [cu_pages cu_since] in *.
    split_and!; [by rewrite Hout, Ho, <- app_assoc|by constructor| |cbn [length]; lia|cbn [length] in *; intros; apply Hend; lia].
    constructor; [done|]. apply StronglySorted_inv in Hsort as [_ Hall].
    constructor; [done|]. eapply Forall_impl; [exact Hall|]. cbn. intros. lia.
Qed.

(** Twelve full batches in a row: nine more requests, then silence. *)
Definition full_batch (t : time) : event :=
  new_event EvHistoryBatch "libera" t <| evt_buffer := "#Stugan" |> <| evt_count := 100 |>.

Definition chain_state : core :=
  new_core None ∅ None <| co_conns := {[ "libera" := 0%nat ]} |>
    <| co_catchups := {[ catchUpKey "libera" "#stugan" := CatchUp 1 5 ]} |>.

Lemma catch_up_bounded_witness :
  let evs := (λ i : nat, full_batch (10 + Z.of_nat i)) <$> seq 0 12 in
  let c' := batches evs chain_state in
  length (co_out c') = 9%nat ∧
  ∃ ts es, co_out c' = co_out chain_state ++ es ∧ Forall2 is_request ts es ∧
    StronglySorted Z.lt (5 :: ts) ∧ 1 + Z.of_nat (length ts) ≤ catchUpMaxPages ∧
    (catchUpMaxPages < 1 + Z.of_nat (length evs) → co_catchups c' !! catchUpKey "libera" "#stugan" = None).
Proof.
  split; [by vm_compute|].
  apply (catch_up_bounded (catchUpKey "libera" "#stugan") (CatchUp 1 5)); [by vm_compute|by split|].
  apply Forall_fmap, Forall_forall. intros i _. by vm_compute.
Defined.
