(* ===== verification/CoreBouncer.v ===== *)
(** * Bouncer control

    [internal/core/bouncer.go], the client side of soju.im/bouncer-networks:
    the attribute lists of BOUNCER lines, and the operations that manage a
    bouncer's networks.  [bouncer_attrs_parse] is the round trip of an
    attribute list; [merge_attrs_spec] says what a notification updates. *)

From Stdlib Require Import ZArith Lia Ascii Bool.
From stdpp Require Import base tactics list gmap strings pretty.
From S2P Require Import Prelude GoStrings Utf8 EngineLine LinkTags CoreTypes CoreEvent CoreEngine.

#[local] Open Scope Z_scope.

(** ** Attribute values

    [bouncerEscaper] has one-byte patterns, [bouncerUnescaper] two-byte ones
    that all begin with a backslash: a replacer of either kind goes through the
    string once. *)

Definition escape_byte (a : ascii) : string :=
  if Ascii.eqb a "\" then "\\"
  else if Ascii.eqb a ";" then "\:"
  else if Ascii.eqb a SP then "\s"
  else if Ascii.eqb a CR then "\r"
  else if Ascii.eqb a LF then "\n"
  else String a "".

Fixpoint escapeBouncerValue (s : string) : string :=
  match s with
  | "" => ""
  | String a s => escape_byte a +:+ escapeBouncerValue s
  end%string.

Definition unescape_byte (b : ascii) : option ascii :=
  if Ascii.eqb b ":" then Some ";"%char
  else if Ascii.eqb b "s" then Some SP
  else if Ascii.eqb b "\" then Some "\"%char
  else if Ascii.eqb b "r" then Some CR
  else if Ascii.eqb b "n" then Some LF
  else None.

Fixpoint unescapeBouncerValue (s : string) : string :=
  match s with
  | "" => ""
  | String a s' =>
      if Ascii.eqb a "\" then
        match s' with
        | String b s'' =>
            match unescape_byte b with
            | Some x => String x (unescapeBouncerValue s'')
            | None => String a (unescapeBouncerValue s')
            end
        | "" => String a ""
        end
      else String a (unescapeBouncerValue s')
  end%string.

(** The value [strconv.Atoi] returns beside its error: 0 for a malformed
    number, the nearest [int] for one out of range.  The scan stops at the
    digit that overflows 64 bits. *)
Fixpoint uint_value (s : string) (n : Z) : option Z :=
  match s with
  | EmptyString => Some n
  | String a s =>
      if between 48 57 (byte_z a) then
        let n' := n * 10 + (byte_z a - 48) in
        if 2 ^ 64 <=? n' then Some (2 ^ 64 - 1) else uint_value s n'
      else None
  end.

Definition atoi_value (s : string) : Z :=
  let '(neg, d) := match s with
                   | String "-" d => (true, d)
                   | String "+" d => (false, d)
                   | _ => (false, s)
                   end%string in
  if String.eqb d "" then 0
  else match uint_value d 0 with
       | None => 0
       | Some v => if neg then Z.max (- 2 ^ 63) (- v) else Z.min (2 ^ 63 - 1) v
       end.

(** ** [ParseBouncerAttrs] *)

Definition parse_attr (b : bouncer_network) (k v : string) : bouncer_network :=
  if String.eqb k "name" then b <| bn_name := v |>
  else if String.eqb k "host" then b <| bn_host := v |>
  else if String.eqb k "port" then b <| bn_port := atoi_value v |>
  else if String.eqb k "tls" then b <| bn_tls := String.eqb v "1" |>
  else if String.eqb k "nickname" then b <| bn_nick := v |>
  else if String.eqb k "state" then b <| bn_state := v |>
  else if String.eqb k "error" then b <| bn_error := v |>
  else b.

Definition blank_bouncer (id : string) : bouncer_network := BouncerNetwork id "" "" 0 false "" "" "".

(** The network a line describes, and the attributes it named. *)
Definition attr_step (acc : bouncer_network * list string) (kv : string) : bouncer_network * list string :=
  let '(b, keys) := acc in
  let '(k, v, _) := cut_byte "=" kv in
  (parse_attr b k (unescapeBouncerValue v), keys ++ [k]).

Definition ParseBouncerAttrs (id attrs : string) : bouncer_network * list string :=
  foldl attr_step (blank_bouncer id, []) (split_byte ";" attrs).

(** ** Managing a bouncer's networks *)

Definition capBouncerNetworks : string := "soju.im/bouncer-networks".

Definition errNoBouncer : string :=
  "this network is not a bouncer control connection (log in without a /network suffix to manage networks)".

Section bouncer.
Context `{UnicodeTables, Regexp} (E : cenv).

Definition bouncerConn (network : string) (c : core) : conn + string :=
  match co_conns c !! network with
  | None => inr "unknown network"
  | Some cn => if has_str capBouncerNetworks (ce_caps E cn) then inl cn else inr errNoBouncer
  end.

Definition listBouncerNetworks (network : string) (c : core) : core :=
  match bouncerConn network c with inl cn => send cn "BOUNCER LISTNETWORKS" c | inr _ => c end.

(** The closure [attr]. *)
Definition attr (k v : string) : string :=
  if String.eqb v "" then "" else ";" +:+ k +:+ "=" +:+ escapeBouncerValue v.

Definition bouncer_attrs (b : bouncer_network) (pass : string) : string :=
  "host=" +:+ escapeBouncerValue (trim_space (bn_host b)) +:+ attr "name" (trim_space (bn_name b)) +:+
  (if 0 <? bn_port b then ";port=" +:+ itoa (bn_port b) else "") +:+
  (if bn_tls b then ";tls=1" else ";tls=0") +:+
  attr "nickname" (trim_space (bn_nick b)) +:+ attr "pass" pass.

(** A write followed by a request for the list, unless the write failed. *)
Definition send_and_list (cn : conn) (raw : string) (c : core) : core * option string :=
  let c := send cn raw c in
  if ce_send_ok E cn then (send cn "BOUNCER LISTNETWORKS" c, None) else (c, Some "send failed").

Definition BouncerAdd (network : string) (b : bouncer_network) (pass : string) (c : core)
    : core * option string :=
  match bouncerConn network c with
  | inr err => (c, Some err)
  | inl cn =>
      if String.eqb (trim_space (bn_host b)) "" then (c, Some "a host is required")
      else send_and_list cn ("BOUNCER ADDNETWORK " +:+ bouncer_attrs b pass) c
  end.

Definition bouncerNetwork (network id : string) (c : core) : option bouncer_network :=
  n ← find_network c network;
  snd <$> list_find (λ b, bn_id b = id) (net_bouncer n).

Definition BouncerDelete (network id : string) (c : core) : core * option string :=
  match bouncerConn network c with
  | inr err => (c, Some err)
  | inl cn =>
      match bouncerNetwork network id c with
      | None => (c, Some "unknown bouncer network")
      | Some _ => send_and_list cn ("BOUNCER DELNETWORK " +:+ id) c
      end
  end.

(** The account name, without [/network], and the [@client] suffix. *)
Definition split_login (login : string) : string * string :=
  let '(user, client) := match index_byte "@" login with
                         | Some i => (str_take i login, str_drop i login)
                         | None => (login, "")
                         end in
  (match index_byte "/" user with Some i => str_take i user | None => user end, client).

(** The parameters [BouncerOpen] adds. *)
Definition bound_params (network : string) (b : bouncer_network) (p : network_params) : network_params :=
  let '(user, client) := split_login (np_sasl_user p) in
  let name := network +:+ "-" +:+ bn_name b in
  p <| np_id := name |> <| np_name := name |> <| np_sasl_user := user +:+ "/" +:+ bn_name b +:+ client |>
    <| np_channels := [] |> <| np_channel_keys := ∅ |> <| np_perform := [] |> <| np_monitor := [] |>
    <| np_buffer_order := [] |> <| np_pos := 0 |>.

Definition BouncerOpen (network id : string) (c : core) : core * option string :=
  match bouncerNetwork network id c with
  | None => (c, Some "unknown bouncer network")
  | Some b =>
      match NetworkConfig c network with
      | None => (c, Some "unknown network")
      | Some p =>
          if String.eqb (bn_name b) "" || String.eqb (np_sasl_user p) "" then
            (c, Some "opening a bouncer network needs a SASL login on the control network and a named upstream")
          else
            let np := bound_params network b p in
            match AddNetworkLive E np c with
            | (c, Some err) =>
                (c, Some match err with
                         | ErrNetworkExists => go_quote (np_id np) +:+ " is already open"
                         | ErrOther err => err
                         end)
            | (c, None) => (c, None)
            end
      end
  end.
End bouncer.

(** ** Values round-trip *)

Lemma unescape_byte_escape a s : unescapeBouncerValue (escape_byte a +:+ s) = String a (unescapeBouncerValue s).
Proof.
  unfold escape_byte.
  destruct (Ascii.eqb_spec a "\") as [->|H1]; [done|].
  destruct (Ascii.eqb_spec a ";") as [->|_]; [done|].
  destruct (Ascii.eqb_spec a SP) as [->|_]; [done|].
  destruct (Ascii.eqb_spec a CR) as [->|_]; [done|].
  destruct (Ascii.eqb_spec a LF) as [->|_]; [done|].
  cbn. destruct (Ascii.eqb_spec a "\"); [done|reflexivity].
Qed.

Lemma unescape_escape_bouncer s : unescapeBouncerValue (escapeBouncerValue s) = s.
Proof. induction s as [|a s IH]; [done|]. cbn [escapeBouncerValue]. by rewrite unescape_byte_escape, IH. Qed.

Lemma escape_no_semi s : no_byte ";" (escapeBouncerValue s) = true.
Proof.
  unfold no_byte. induction s as [|a s IH]; [done|]. cbn [escapeBouncerValue]. rewrite str_all_app, IH, andb_true_r.
  unfold escape_byte. repeat (match goal with |- context [Ascii.eqb a ?b] => destruct (Ascii.eqb_spec a b) as [->|?] end; [done|]).
  cbn. by destruct (Ascii.eqb_spec a ";").
Qed.

Lemma digit_value : ∀ d, (d < 10)%N → byte_z (pretty_N_char d) = 48 + Z.of_N d.
Proof. by apply digit_cases. Qed.

Lemma uint_value_digit d s n : (d < 10)%N → 0 ≤ n → n * 10 + Z.of_N d < 2 ^ 64 →
  uint_value (String (pretty_N_char d) s) n = uint_value s (n * 10 + Z.of_N d).
Proof.
  intros Hd Hn Hb. cbn [uint_value]. rewrite digit_value by done. rewrite between_true by lia.
  replace (n * 10 + (48 + Z.of_N d - 48)) with (n * 10 + Z.of_N d) by lia. by rewrite (proj2 (Z.leb_gt _ _)).
Qed.

Lemma uint_value_go x s : (0 < x)%N → Z.of_N x < 2 ^ 64 → uint_value (pretty_N_go x s) 0 = uint_value s (Z.of_N x).
Proof.
  revert s. induction (N.lt_wf_0 x) as [x _ IH]; intros s Hx Hb. rewrite pretty_N_go_step by done.
  assert (Hm : (x `mod` 10 < 10)%N) by (by apply N.mod_lt).
  assert (Hdm : Z.of_N x = Z.of_N (x `div` 10) * 10 + Z.of_N (x `mod` 10)).
  { rewrite (N.div_mod x 10) at 1 by done. lia. }
  destruct (decide (x `div` 10 = 0)%N) as [H0|H0].
  - rewrite H0, pretty_N_go_0. rewrite uint_value_digit by lia. f_equal. lia.
  - assert (Hq : (x `div` 10 < x)%N) by (apply N.div_lt; lia).
    revert H0 Hdm Hm Hq. generalize (x `div` 10)%N (x `mod` 10)%N. intros q r H0 Hdm Hm Hq.
    rewrite IH by lia. rewrite uint_value_digit by lia. f_equal. lia.
Qed.

(** A number written by [strconv.Itoa] is read back. *)
Lemma atoi_value_itoa z : 0 < z < 2 ^ 63 → atoi_value (itoa z) = z.
Proof.
  intros Hz. unfold itoa. destruct z as [|q|q]; [lia| |lia].
  change (pretty (Z.pos q)) with (pretty (N.pos q)).
  assert (Hgo : pretty (N.pos q) = pretty_N_go (N.pos q) "") by done. rewrite Hgo.
  assert (Hv : uint_value (pretty_N_go (N.pos q) "") 0 = Some (Z.pos q)) by (by rewrite uint_value_go by lia).
  assert (Hd : str_all (λ a, between 48 57 (byte_z a)) (pretty_N_go (N.pos q) "") = true).
  { apply pretty_N_go_all; [|done]. intros d Hd. rewrite digit_value by done. apply between_true. lia. }
  revert Hv Hd. generalize (pretty_N_go (N.pos q) ""). intros d Hv Hd. unfold atoi_value.
  assert (match d with String "-" d => (true, d) | String "+" d => (false, d) | _ => (false, d) end%string = (false, d)) as ->.
  { destruct d as [|a d]; [done|]. cbn [str_all] in Hd. apply andb_true_iff in Hd as [Ha _].
    destruct a as [[] [] [] [] [] [] [] []]; try done; vm_compute in Ha; discriminate. }
  destruct (String.eqb_spec d "") as [->|_]; [cbn in Hv; congruence|]. rewrite Hv. lia.
Qed.

(** ** Attribute lists *)

Section attrs.

(** The list [bouncer_attrs] writes, item by item. *)
Definition attr_item (k v : string) : list string :=
  if String.eqb v "" then [] else [k +:+ "=" +:+ escapeBouncerValue v].

Definition attr_items (b : bouncer_network) (pass : string) : list string :=
  ["host=" +:+ escapeBouncerValue (trim_space (bn_host b))] ++ attr_item "name" (trim_space (bn_name b)) ++
  (if 0 <? bn_port b then ["port=" +:+ itoa (bn_port b)] else []) ++
  [if bn_tls b then "tls=1" else "tls=0"] ++
  attr_item "nickname" (trim_space (bn_nick b)) ++ attr_item "pass" pass.

Lemma str_join_app sep x l1 l2 :
  str_join sep (x :: l1) +:+ str_concat ((λ y, sep +:+ y) <$> l2) = str_join sep (x :: l1 ++ l2).
Proof.
  revert x. induction l1 as [|y l1 IH]; intros x.
  - revert x. induction l2 as [|y l2 IH2]; intros x; [apply str_app_nil_r|]. cbn [app].
    rewrite str_join_cons, <- IH2, fmap_cons, str_concat_cons. cbn [str_join]. by rewrite str_app_assoc.
  - cbn [app]. rewrite !str_join_cons, !str_app_assoc. by rewrite IH.
Qed.

Lemma attr_concat k v : attr k v = str_concat ((λ y, ";" +:+ y) <$> attr_item k v).
Proof. unfold attr, attr_item. destruct (String.eqb v ""); [done|]. cbn. by rewrite str_app_nil_r. Qed.

Lemma bouncer_attrs_join b pass : bouncer_attrs b pass = str_join ";" (attr_items b pass).
Proof.
  unfold bouncer_attrs, attr_items. cbn [app].
  match goal with |- _ = str_join ";" (?x :: ?l) => rewrite <- (str_join_app ";" x [] l : _ = str_join ";" (x :: l)) end.
  cbn [str_join].
  rewrite !fmap_app, !str_concat_app, <- !attr_concat, !str_app_assoc. f_equal. f_equal. f_equal. f_equal; [|f_equal].
  - destruct (0 <? bn_port b); [|done]. cbn. by rewrite str_app_nil_r.
  - rewrite fmap_cons, str_concat_cons, fmap_app, str_concat_app, <- !attr_concat. by destruct (bn_tls b).
Qed.

Lemma attr_items_no_semi b pass : Forall (λ x, no_byte ";" x = true) (attr_items b pass).
Proof.
  assert (Hi : ∀ k v, no_byte ";" k = true → Forall (λ x, no_byte ";" x = true) (attr_item k v)).
  { intros k v Hk. unfold attr_item. destruct (String.eqb v ""); constructor; [|constructor].
    by rewrite !no_byte_app, Hk, escape_no_semi. }
  unfold attr_items. repeat apply Forall_app_2; try (by apply Hi).
  - constructor; [|constructor]. by rewrite no_byte_app, escape_no_semi.
  - destruct (0 <? bn_port b); constructor; [|constructor]. rewrite no_byte_app. cbn [andb no_byte]. unfold no_byte at 2.
    assert (str_all (λ a, negb (Ascii.eqb a ";")) (itoa (bn_port b)) = true) as -> by itoa_bytes. done.
  - constructor; [|constructor]. by destruct (bn_tls b).
Qed.

Lemma attr_step_item b keys k v : no_byte "=" k = true →
  attr_step (b, keys) (k +:+ "=" +:+ escapeBouncerValue v) = (parse_attr b k v, keys ++ [k]).
Proof.
  intros Hk. unfold attr_step. change (k +:+ "=" +:+ escapeBouncerValue v) with (k +:+ String "=" (escapeBouncerValue v)).
  by rewrite cut_byte_app, unescape_escape_bouncer.
Qed.

Lemma attr_item_step b keys k v : no_byte "=" k = true → parse_attr b k "" = b →
  (foldl attr_step (b, keys) (attr_item k v)).1 = parse_attr b k v.
Proof.
  intros Hk Hb. unfold attr_item. destruct (String.eqb_spec v "") as [->|_]; [by rewrite Hb|].
  cbn [foldl]. by rewrite attr_step_item.
Qed.

(** An attribute list round-trips.  What [BouncerAdd] sends, escaped and
    joined, [ParseBouncerAttrs] reads back: host, name, port, TLS flag and
    nick of the network, trimmed, whatever bytes they contain, and nothing
    else. *)
Theorem bouncer_attrs_parse id b pass :
  bn_port b < 2 ^ 63 →
  (ParseBouncerAttrs id (bouncer_attrs b pass)).1 =
  BouncerNetwork id (trim_space (bn_name b)) (trim_space (bn_host b)) (Z.max 0 (bn_port b)) (bn_tls b)
    (trim_space (bn_nick b)) "" "".
Proof.
  intros Hp. unfold ParseBouncerAttrs.
  rewrite bouncer_attrs_join, split_join; [|done|apply attr_items_no_semi].
  assert (Hitem : ∀ st b k v, st.1 = b → no_byte "=" k = true → parse_attr b k "" = b →
    (foldl attr_step st (attr_item k v)).1 = parse_attr b k v).
  { intros [b' ks] b1 k v <-. apply attr_item_step. }
  unfold attr_items. rewrite !foldl_app.
  set (h := trim_space (bn_host b)). set (n := trim_space (bn_name b)). set (k := trim_space (bn_nick b)).
  set (s1 := foldl attr_step _ ["host=" +:+ _]).
  assert (H1 : s1.1 = BouncerNetwork id "" h 0 false "" "" "").
  { exact (f_equal fst (attr_step_item (blank_bouncer id) [] "host" h eq_refl)). }
  set (s2 := foldl attr_step s1 _).
  assert (H2 : s2.1 = BouncerNetwork id n h 0 false "" "" "") by exact (Hitem s1 _ "name" n H1 eq_refl eq_refl).
  set (s3 := foldl attr_step s2 _).
  assert (H3 : s3.1 = BouncerNetwork id n h (Z.max 0 (bn_port b)) false "" "" "").
  { unfold s3. destruct (Z.ltb_spec 0 (bn_port b)) as [Hpos|Hneg].
    - cbn [foldl]. destruct s2 as [b2 ks2]. cbn in H2. subst b2. unfold attr_step.
      change ("port=" +:+ itoa (bn_port b)) with ("port" +:+ String "=" (itoa (bn_port b))). rewrite cut_byte_app by done.
      assert (unescapeBouncerValue (itoa (bn_port b)) = itoa (bn_port b)) as ->.
      { assert (Hd : str_all (λ a, negb (Ascii.eqb a "\")) (itoa (bn_port b)) = true) by itoa_bytes.
        revert Hd. generalize (itoa (bn_port b)). intros t. induction t as [|a t IH]; [done|]. cbn.
        destruct (Ascii.eqb a "\"); [done|]. intros Hd. by rewrite IH. }
      cbn. rewrite atoi_value_itoa by lia. f_equal. lia.
    - rewrite Z.max_l by lia. exact H2. }
  set (s4 := foldl attr_step s3 _).
  assert (H4 : s4.1 = BouncerNetwork id n h (Z.max 0 (bn_port b)) (bn_tls b) "" "" "").
  { unfold s4. destruct s3 as [b3 ks3]. cbn in H3. subst b3. by destruct (bn_tls b). }
  set (s5 := foldl attr_step s4 _).
  assert (H5 : s5.1 = BouncerNetwork id n h (Z.max 0 (bn_port b)) (bn_tls b) k "" "")
    by exact (Hitem s4 _ "nickname" k H4 eq_refl eq_refl).
  exact (Hitem s5 _ "pass" pass H5 eq_refl eq_refl).
Qed.

Lemma merge_field {A} (f : bouncer_network → A) kk :
  (∀ old patch k, f (merge_attr patch old k) = if String.eqb kk k then f patch else f old) →
  ∀ old patch keys, f (MergeBouncerAttrs old patch keys) = if has_str kk keys then f patch else f old.
Proof.
  intros Hf old patch keys. unfold MergeBouncerAttrs, has_str. revert old.
  induction keys as [|k keys IH]; intros old; [done|]. cbn [foldl existsb]. rewrite IH, Hf.
  by destruct (String.eqb kk k), (existsb _ keys).
Qed.

Ltac merge_attr_tac :=
  let k := fresh "k" in intros ? ? k; unfold merge_attr;
  repeat (match goal with |- context [if String.eqb k ?s then _ else _] =>
    destruct (String.eqb_spec k s) as [->|?]; [done|] end);
  first [done | match goal with |- context [String.eqb ?kk k] => by rewrite (proj2 (String.eqb_neq kk k)) by congruence end].

(** A notification updates the attributes it names and no others. *)
Lemma merge_attrs_spec old patch keys :
  let b := MergeBouncerAttrs old patch keys in
  bn_name b = (if has_str "name" keys then bn_name patch else bn_name old) ∧
  bn_host b = (if has_str "host" keys then bn_host patch else bn_host old) ∧
  bn_port b = (if has_str "port" keys then bn_port patch else bn_port old) ∧
  bn_tls b = (if has_str "tls" keys then bn_tls patch else bn_tls old) ∧
  bn_nick b = (if has_str "nickname" keys then bn_nick patch else bn_nick old) ∧
  bn_state b = (if has_str "state" keys then bn_state patch else bn_state old) ∧
  bn_error b = (if has_str "error" keys then bn_error patch else bn_error old).
Proof. cbn zeta. split_and!; apply merge_field; merge_attr_tac. Qed.
End attrs.

(** A network whose name needs escaping. *)
Definition sample_bouncer : bouncer_network := BouncerNetwork "" "my net; \ home" " irc.example.org " 6697 true "me" "" "".

Lemma bouncer_attrs_parse_witness :
  bn_port sample_bouncer < 2 ^ 63 ∧
  (ParseBouncerAttrs "7" (bouncer_attrs sample_bouncer "p;w")).1 =
  BouncerNetwork "7" "my net; \ home" "irc.example.org" 6697 true "me" "" "".
Proof.
  split; [by vm_compute|].
  exact (bouncer_attrs_parse "7" sample_bouncer "p;w" ltac:(by vm_compute)).
Defined.
