(* ===== verification/CoreCommand.v ===== *)
(** * Commands, the plugin API, and the loop

    [internal/core/command.go] and the loop of [engine.go]: what a line of
    input does, what a plugin may call, the perform sequence that runs after a
    connection registers, and [core_step], one step of the running engine. *)

From Stdlib Require Import ZArith Lia Ascii Bool.
From stdpp Require Import base tactics list gmap strings.
From S2P Require Import Prelude GoStrings Utf8 EngineLine CoreTypes CoreEvent CoreEngine CoreHistory CoreBouncer.

#[local] Open Scope Z_scope.

(** ** Text *)

Definition nth_arg (args : list string) (i : nat) : string :=
  match i with O => "" | S i => default "" (args !! i) end.

(** [expandAlias]. *)
Fixpoint expandAlias (tmpl : string) (args : list string) : string :=
  match tmpl with
  | EmptyString => ""
  | String a rest =>
      match rest with
      | String next rest2 =>
          if negb (Ascii.eqb a "$") then String a (expandAlias rest args)
          else if Ascii.eqb next "*" then str_join " " args +:+ expandAlias rest2 args
          else if between 49 57 (byte_z next) then
            let n := Z.to_nat (byte_z next - 48) in
            match rest2 with
            | String d rest3 =>
                if Ascii.eqb d "-" then str_join " " (drop (n - 1) args) +:+ expandAlias rest3 args
                else nth_arg args n +:+ expandAlias rest2 args
            | EmptyString => nth_arg args n
            end
          else String "$" (expandAlias rest args)
      | EmptyString => String a ""
      end
  end.

Definition is_name_byte (a : ascii) : bool :=
  let b := byte_z a in between 97 122 b || between 65 90 b || between 48 57 b || Z.eqb b 95.

(** The longest run of name bytes and what follows it. *)
Fixpoint take_name (s : string) : string * string :=
  match s with
  | EmptyString => (EmptyString, EmptyString)
  | String a s' => if is_name_byte a then let '(n, r) := take_name s' in (String a n, r) else (EmptyString, s)
  end.

(** [expandPerformVariables]; every round consumes a byte, so the length is
    enough fuel ([perform_fuel_enough]). *)
Fixpoint expand_perform (fuel : nat) (line : string) (variables : gmap string string) : string :=
  match fuel, line with
  | S fuel, String a rest =>
      if negb (Ascii.eqb a "$") then String a (expand_perform fuel rest variables)
      else
        match rest with
        | EmptyString => "$"
        | String b rest2 =>
            if Ascii.eqb b "$" then String "$" (expand_perform fuel rest2 variables)
            else if Ascii.eqb b "{" then
              match index_byte "}" rest2 with
              | None => String "$" (expand_perform fuel rest variables)
              | Some i =>
                  let name := str_take i rest2 in
                  default ("${" +:+ name +:+ "}") (variables !! name) +:+
                  expand_perform fuel (str_drop (S i) rest2) variables
              end
            else
              let '(name, rest) := take_name rest in
              default (String "$" name) (variables !! name) +:+ expand_perform fuel rest variables
        end
  | _, _ => ""
  end.

Definition expandPerformVariables (line : string) (variables : gmap string string) : string :=
  expand_perform (String.length line) line variables.

(** [filepath.Base]. *)
Definition is_slash (a : ascii) : bool := Ascii.eqb a "/".
Definition file_base (path : string) : string :=
  if String.eqb path "" then "."
  else
    let p := trim_right is_slash path in
    let p := match last_index_byte "/" p with Some i => str_drop (S i) p | None => p end in
    if String.eqb p "" then "/" else p.

Definition script_name (arg : string) : string := trim_suffix ".lua" (file_base arg).

Section command.
Context `{UnicodeTables, TimeParse, Regexp} (E : cenv).

(** ** The plugin API *)

Definition unknown_network (network : string) : string := "unknown network " +:+ go_quote network.

Definition api_raw (network raw : string) (c : core) : core * option string :=
  match connFor c network with
  | None => (c, Some (unknown_network network))
  | Some cn => (send cn raw c, if ce_send_ok E cn then None else Some "send failed")
  end.

(** [sendSelf]: [call] is the write, already made. *)
Definition sendSelf (network target text : string) (kind : msg_kind) (call : conn → core_effect) (c : core)
    : core * option string :=
  match connFor c network with
  | None => (c, Some (unknown_network network))
  | Some cn =>
      let c := emit (call cn) c in
      if negb (ce_send_ok E cn) then (c, Some "send failed")
      else if echoMessage E c network then (c, None)
      else (inject E (new_message network target (ce_now E) (NetworkNick c network) kind text
                        <| msg_self := true |>) c, None)
  end.

Definition api_message (network target text : string) : core → core * option string :=
  sendSelf network target text MsgPrivmsg (λ cn, CMessage cn target text).

Definition api_notice (network target text : string) : core → core * option string :=
  sendSelf network target text MsgNotice (λ cn, CSendRaw cn ("NOTICE " +:+ target +:+ " :" +:+ text)).

Definition SOH : string := String (byte_of_z 1) "".

Definition api_action (network target text : string) : core → core * option string :=
  sendSelf network target text MsgAction
    (λ cn, CSendRaw cn ("PRIVMSG " +:+ target +:+ " :" +:+ SOH +:+ "ACTION " +:+ text +:+ SOH)).

Definition api_print (network buffer text : string) (c : core) : core :=
  let from := if IsPluginBuffer buffer then buffer else "" in
  inject E (new_message network buffer (ce_now E) from MsgSystem text) c.

Definition setPendingStateLocked (network buffer : string) (state : gmap string string) (c : core) : core :=
  let bk := FoldIRC buffer in
  if decide (state = ∅) then
    match co_pending_state c !! network with
    | Some m =>
        let m := delete bk m in
        if decide (m = ∅) then c <| co_pending_state ::= delete network |>
        else c <| co_pending_state ::= <[network := m]> |>
    | None => c
    end
  else c <| co_pending_state ::= <[network := <[bk := state]> (default ∅ (co_pending_state c !! network))]> |>.

Definition SetBufferState (network buffer : string) (state : gmap string string) (c : core) : core :=
  let c := setPendingStateLocked network buffer state c in
  match find_network c network with
  | None => c
  | Some n =>
      match net_channel n buffer with
      | (n, None) => put_network network n c
      | (n, Some ch) =>
          let n := update_channel n ch (λ ch : channel, ch <| ch_state := state |>) in
          notifyNetwork E network (put_network network n c)
      end
  end.

Definition run_api (call : api_call) (c : core) : core :=
  match call with
  | ApiSend network raw => (api_raw network raw c).1
  | ApiMessage network target text => (api_message network target text c).1
  | ApiNotice network target text => (api_notice network target text c).1
  | ApiAction network target text => (api_action network target text c).1
  | ApiJoin network channel => (api_raw network ("JOIN " +:+ channel) c).1
  | ApiPart network channel => (api_raw network ("PART " +:+ channel) c).1
  | ApiPrint network buffer text => api_print network buffer text c
  | ApiSetBufferState network buffer state => SetBufferState network buffer state c
  | ApiHoldJoins network => (HoldJoins network c).1
  | ApiReleaseJoins network => (ReleaseJoins network c).1
  end.

(** ** Input *)

(** [sendInput]; aliases are expanded at most eight deep. *)
Fixpoint send_input (fuel : nat) (network buffer text : string) (c : core) : core * option string :=
  let command := has_prefix "/" text && negb (has_prefix "//" text) in
  let '(name, argstr, _) := cut_byte SP (trim_prefix "/" text) in
  if command && negb (String.eqb name "") then
    match co_aliases c !! to_lower name, fuel with
    | Some tmpl, S fuel => send_input fuel network buffer (expandAlias tmpl (fields argstr)) c
    | _, _ =>
        (HandleEvent (new_event EvCommand network (ce_now E) <| evt_buffer := buffer |> <| evt_command := name |>
                        <| evt_args := Some (fields argstr) |> <| evt_text := argstr |>) c, None)
    end
  else
    let text := trim_prefix "/" text in
    match find_network c network with
    | None => (c, Some (unknown_network network))
    | Some n =>
        if bool_decide (net_state n = StateRegistered) && bool_decide (is_Some (co_conns c !! network)) then
          let m := new_message network buffer (ce_now E) "" MsgPrivmsg text <| msg_self := true |> in
          (HandleEvent (new_event EvMessageOut network (ce_now E) <| evt_message := Some m |>) c, None)
        else (c, Some ("network " +:+ go_quote network +:+ " is not connected — message not sent"))
    end.

Definition SendInput (network buffer text : string) (c : core) : core * option string :=
  send_input 8 network buffer text c.

(** [SendTyping], [SendReaction], [SendRedact]. *)
Definition SendTyping (network buffer state : string) (c : core) : core :=
  if has_str state ["active"; "paused"; "done"] then
    match connWithCap E c network "message-tags" with
    | Some cn => send cn ("@+typing=" +:+ state +:+ " TAGMSG " +:+ buffer) c
    | None => c
    end
  else c.

Definition SendReaction (network buffer target reaction : string) (c : core) : core :=
  if String.eqb target "" || String.eqb reaction "" then c
  else
    match connWithCap E c network "message-tags" with
    | None => c
    | Some cn =>
        let c := send cn ("@+draft/react=" +:+ reaction +:+ ";+draft/reply=" +:+ target +:+ " TAGMSG " +:+ buffer) c in
        if negb (ce_send_ok E cn) || echoMessage E c network then c
        else
          let nick := NetworkNick c network in
          if String.eqb nick "" then c
          else HandleEvent (new_event EvReact network (ce_now E) <| evt_nick := nick |> <| evt_buffer := buffer |>
                              <| evt_target := target |> <| evt_text := reaction |>) c
    end.

Definition SendRedact (network buffer target reason : string) (c : core) : core :=
  if String.eqb target "" then c
  else
    match connWithCap E c network "draft/message-redaction" with
    | Some cn => send cn ("REDACT " +:+ buffer +:+ " " +:+ target +:+
                          (if String.eqb reason "" then "" else " :" +:+ reason)) c
    | None => c
    end.

(** ** Built-in commands *)

Definition startNumeric (ev : event) (raw : string) (c : core) : core :=
  match connFor c (evt_network ev), event_args ev with
  | Some cn, target :: _ =>
      send cn (raw +:+ " " +:+ target)
        (c <| co_pending_whois ::= <[whoisKey (evt_network ev) target := evt_buffer ev]> |>)
  | _, _ => c
  end.

Definition mode_shorthand (name : string) : string * string :=
  if String.eqb name "op" then ("+", "o")
  else if String.eqb name "deop" then ("-", "o")
  else if String.eqb name "voice" then ("+", "v")
  else if String.eqb name "devoice" then ("-", "v")
  else if String.eqb name "halfop" then ("+", "h")
  else ("-", "h").

Definition applyModeShorthand (cn : conn) (ev : event) (name : string) (c : core) : core :=
  let args := event_args ev in
  if String.eqb (evt_buffer ev) "" || (length args =? 0)%nat then c
  else
    let '(sign, flag) := mode_shorthand name in
    send cn ("MODE " +:+ evt_buffer ev +:+ " " +:+ sign +:+ str_repeat flag (length args) +:+ " " +:+
             str_join " " args) c.

Definition kickCmd (cn : conn) (ev : event) (c : core) : core :=
  match event_args ev with
  | [] => c
  | first :: rest =>
      let '(chan, args) := if is_channel_name first then (first, rest) else (evt_buffer ev, first :: rest) in
      match args with
      | nick :: words =>
          if String.eqb chan "" then c
          else
            let reason := str_join " " words in
            send cn ("KICK " +:+ chan +:+ " " +:+ nick +:+ (if String.eqb reason "" then "" else " :" +:+ reason)) c
      | [] => c
      end
  end.

(** The commands that manage plugins and the connection; [None] for the
    others, and for [/connect] with arguments. *)
Definition manage_command (name : string) (ev : event) (c : core) : option core :=
  let net := evt_network ev in
  let say := say E net (evt_buffer ev) in
  let with_arg (usage : string) (k : string → core) : option core :=
    Some match event_args ev with [] => say usage c | arg :: _ => k arg end in
  if String.eqb name "load" then
    with_arg "usage: /load <script-name|URL> [custom-name]" (λ target,
      let isURL := has_prefix "http://" target || has_prefix "https://" target in
      let c := if isURL then say ("importing plugin from " +:+ target +:+ "...") c
               else say ("downloading plugin " +:+ go_quote target +:+ "...") c in
      spawn (TPlugin net (evt_buffer ev) (if isURL then "import" else "download") target
               (nth_arg (event_args ev) 2)) c)
  else if String.eqb name "update" then
    with_arg "usage: /update <script-name>" (λ arg,
      let script := script_name arg in
      spawn (TPlugin net (evt_buffer ev) "update" script "")
        (say ("updating plugin " +:+ go_quote script +:+ "...") c))
  else if String.eqb name "unload" || String.eqb name "reload" then
    with_arg ("usage: /" +:+ name +:+ " <script-name>") (λ arg,
      let script := script_name arg in
      match ce_plugin E name script "" with
      | Some err => say ("failed to " +:+ name +:+ " plugin " +:+ go_quote script +:+ ": " +:+ err) c
      | None => say (name +:+ "ed plugin " +:+ go_quote script) c
      end)
  else if String.eqb name "disconnect" || String.eqb name "connect" && (length (event_args ev) =? 0)%nat then
    Some match SetConnected E net (String.eqb name "connect") c with
         | (c, Some err) => say (name +:+ " failed: " +:+ err) c
         | (c, None) => c
         end
  else None.

(** The goroutine a plugin command starts: what it says when the call is over. *)
Definition run_plugin_task (net buffer call target name : string) (c : core) : core :=
  let say := say E net buffer in
  let err := ce_plugin E call target name in
  if String.eqb call "update" then
    match err with
    | Some err => say ("failed to update plugin " +:+ go_quote target +:+ ": " +:+ err) c
    | None => say ("successfully updated and reloaded plugin " +:+ go_quote target) c
    end
  else
    match err with
    | Some err => say ("failed to load plugin " +:+ go_quote target +:+ ": " +:+ err) c
    | None =>
        let clean := if String.eqb name "" then script_name target else name in
        say ("successfully loaded plugin " +:+ go_quote clean) c
    end.

(** The commands that need a connection. *)
Definition conn_command (name : string) (ev : event) (cn : conn) (c : core) : core :=
  let net := evt_network ev in
  let buf := evt_buffer ev in
  let text := evt_text ev in
  let args := event_args ev in
  let raw (s : string) := send cn s c in
  let to_target (k : string → string → string → core → core * option string) :=
    let '(target, rest, _) := cut_byte SP text in
    if String.eqb target "" || String.eqb rest "" then c else (k net target rest c).1 in
  if String.eqb name "me" then (api_action net buf text c).1
  else if String.eqb name "msg" then to_target api_message
  else if String.eqb name "notice" then to_target api_notice
  else if String.eqb name "join" then
    if String.eqb text "" then c else send cn ("JOIN " +:+ text) (recordPendingKeys net text c)
  else if String.eqb name "part" then raw ("PART " +:+ match args with a :: _ => a | [] => buf end)
  else if String.eqb name "topic" then
    if String.eqb text "" then raw ("TOPIC " +:+ buf) else raw ("TOPIC " +:+ buf +:+ " :" +:+ text)
  else if String.eqb name "nick" then match args with a :: _ => raw ("NICK " +:+ a) | [] => c end
  else if String.eqb name "quit" then raw ("QUIT :" +:+ text)
  else if String.eqb name "chathistory" then runChatHistory E ev cn c
  else if String.eqb name "raw" || String.eqb name "quote" then raw text
  else if String.eqb name "whois" then startNumeric ev "WHOIS" c
  else if String.eqb name "whowas" then startNumeric ev "WHOWAS" c
  else if String.eqb name "who" then startNumeric ev "WHO" c
  else if String.eqb name "names" then
    let target := match args with a :: _ => a | [] => buf end in
    if String.eqb target "" then c
    else send cn ("NAMES " +:+ target) (c <| co_pending_whois ::= <[whoisKey net target := buf]> |>)
  else if String.eqb name "mode" then
    let '(target, rest) := match args with a :: _ => (a, (cut_byte SP text).1.2) | [] => (buf, text) end in
    raw ("MODE " +:+ target +:+ (if String.eqb rest "" then "" else " " +:+ rest))
  else if has_str name ["op"; "deop"; "voice"; "devoice"; "halfop"; "dehalfop"] then applyModeShorthand cn ev name c
  else if String.eqb name "ban" || String.eqb name "unban" then
    if String.eqb buf "" || (length args =? 0)%nat then c
    else raw ("MODE " +:+ buf +:+ (if String.eqb name "ban" then " +b " else " -b ") +:+ str_join " " args)
  else if String.eqb name "kick" then kickCmd cn ev c
  else if String.eqb name "invite" then
    match args with
    | [] => c
    | nick :: rest =>
        let ch := match rest with a :: _ => a | [] => buf end in
        if String.eqb ch "" then c else raw ("INVITE " +:+ nick +:+ " " +:+ ch)
    end
  else if String.eqb name "away" then if String.eqb text "" then raw "AWAY" else raw ("AWAY :" +:+ text)
  else if String.eqb name "back" then raw "AWAY"
  else if String.eqb name "query" then
    match args with
    | [] => c
    | target :: more =>
        let c := say E net target ("opened query with " +:+ target) c in
        let rest := (cut_byte SP text).1.2 in
        if (length more =? 0)%nat || String.eqb rest "" then c else (SendInput net target rest c).1
    end
  else raw (to_upper (evt_command ev) +:+ " " +:+ text).

Definition runBuiltinCommand (ev : event) (c : core) : core :=
  let name := to_lower (evt_command ev) in
  match manage_command name ev c with
  | Some c => c
  | None => match connFor c (evt_network ev) with Some cn => conn_command name ev cn c | None => c end
  end.

(** ** The perform sequence *)

Definition perform_variables (n : network) : gmap string string :=
  list_to_map
    [("me", net_nick n); ("nick", net_nick n);
     ("network", if String.eqb (net_name n) "" then net_id n else net_name n);
     ("server", np_addr (net_params n)); ("user", np_user (net_params n));
     ("realname", np_realname (net_params n))].

Definition next_startup (network : string) (c : core) : core * Z :=
  let seq := u64 (default 0 (co_startup c !! network) + 1) in
  (c <| co_startup ::= <[network := seq]> |>, seq).

Definition runPerform (network : string) (c : core) : core :=
  match find_network c network, co_conns c !! network with
  | Some n, Some cn =>
      let '(c, seq) := next_startup network c in
      let lines := np_perform (net_params n) in
      if (length lines =? 0)%nat then triggerAutojoinOrQueue network seq cn c
      else
        let commands := filter (λ l, trim_space l ≠ "") lines in
        spawn (TPerform network seq cn commands (perform_variables n)
                 (0 <? length (np_channels (net_params n)))%nat) c
  | _, _ => c
  end.

Definition resumeStartup (network : string) (c : core) : core := (next_startup network c).1.

(** The goroutine, one command at a time: between two steps it waits. *)
Definition run_perform (network : string) (seq : Z) (cn : conn) (commands : list string)
    (variables : gmap string string) (hasAutojoin : bool) (c : core) : core :=
  match commands with
  | [] => triggerAutojoinOrQueue network seq cn c
  | line :: rest =>
      if negb (startupActiveLocked network seq cn c) then c
      else
        let c := (SendInput network StatusBuffer (expandPerformVariables line variables) c).1 in
        if negb (length rest =? 0)%nat || hasAutojoin
        then spawn (TPerform network seq cn rest variables hasAutojoin) c
        else triggerAutojoinOrQueue network seq cn c
  end.

(** ** The loop *)

(** [Dispatch]: the hooks' API calls, then the event they leave. *)
Definition dispatch (ev : event) (c : core) : core * event * bool :=
  let '(calls, out, keep) := ce_dispatch E ev in
  (foldl (λ c call, run_api call c) c calls, out, keep).

Definition after_commit (ev : event) (c : core) : core :=
  let net := evt_network ev in
  match evt_type ev with
  | EvConnect =>
      if evt_resumed ev then resumeStartup net c
      else listBouncerNetworks E net (startCatchUp E net (runPerform net c))
  | EvDisconnect => dropCatchUps net c
  | EvJoin =>
      let self := match find_network c net with Some n => EqualIRC (net_nick n) (evt_nick ev) | None => false end in
      if self && is_channel_name (evt_buffer ev) then catchUpBuffer E net (evt_buffer ev) zero_time zero_time c
      else c
  | _ => c
  end.

Definition handle (ev : event) (c : core) : core :=
  if bool_decide (evt_type ev = EvDisconnect) && co_stopping c then c
  else
    match evt_type ev with
    | EvSync => match evt_sync ev with Some fn => emit (OSync fn) c | None => c end
    | EvSetState => commit E ev c
    | EvMessageIn | EvMessageOut | EvTopic =>
        let '(c, out, keep) := dispatch ev c in if keep then commit E out c else c
    | EvCommand =>
        let '(c, _, keep) := dispatch ev c in if keep then runBuiltinCommand ev c else c
    | EvHistoryTarget => onHistoryTarget E ev c
    | EvHistoryBatch => onHistoryBatch ev c
    | _ =>
        let '(c, _, _) := dispatch ev c in
        after_commit ev (commit E ev c)
    end.

(** One round of [loop]: an event, then the snapshots if the queue is empty or
    they have waited long enough ([late]). *)
Definition loop_event (late : bool) (c : core) : core :=
  match co_events c with
  | [] => c
  | ev :: rest =>
      if co_wedged c then c
      else
        let c := handle ev (c <| co_events := rest |>) in
        if (length (co_events c) =? 0)%nat || late then flushDirty E c else c
  end.

(** ... or a wake-up. *)
Definition loop_kick (c : core) : core :=
  if co_kick c && negb (co_wedged c) then flushDirty E (c <| co_kick := false |>) else c.

(** ** Connection goroutines: [runConn] *)

(** Room for the events a goroutine is about to queue; it waits otherwise. *)
Definition room (k : nat) (c : core) : bool := (length (co_events c) + k <=? event_capacity)%nat.

Definition set_run (r : run_id) (x : run) (c : core) : core := c <| co_runs ::= <[r := x]> |>.
Definition end_run (r : run_id) (c : core) : core := c <| co_runs ::= delete r |>.

Definition run_connect (r : run_id) (c : core) : core :=
  match co_runs c !! r with
  | Some x =>
      match r_phase x with
      | RunTop =>
          if r_cancelled x then end_run r c
          else if room 1 c then
            set_run r (x <| r_phase := RunConnecting (ce_now E) |>)
              (HandleEvent (new_event EvSetState (r_network x) zero_time <| evt_state := StateConnecting |>) c)
          else c
      | _ => c
      end
  | None => c
  end.

(** How [Connect] returned. *)
Inductive connect_result := ConnectEnded | ConnectFailed (err : string) | ConnectAuthFailed.

Definition auth_failed_text : string :=
  "authentication failed — check the network's SASL credentials, then save or /connect to retry".

(** [fmt_duration] renders a [time.Duration]; it is only shown. *)
Definition run_returned (fmt_duration : Z → string) (r : run_id) (res : connect_result) (c : core) : core :=
  match co_runs c !! r with
  | Some x =>
      match r_phase x with
      | RunConnecting start =>
          let net := r_network x in
          if r_cancelled x then end_run r c
          else if negb (room 2 c) then c
          else
            match res with
            | ConnectAuthFailed =>
                let c := releaseConn net (r_conn x) c in
                let c := HandleEvent (new_event EvSetState net zero_time <| evt_state := StateDisconnected |>) c in
                end_run r (HandleEvent (new_event EvNumeric net zero_time <| evt_text := auth_failed_text |>) c)
            | _ =>
                let '(sleep, backoff) := reconnectDelay (r_backoff x) (ce_now E - start) in
                let c := match res with
                         | ConnectFailed err =>
                             HandleEvent (new_event EvNumeric net (ce_now E) <| evt_text :=
                               "connection failed: " +:+ err +:+ " — retrying in " +:+ fmt_duration sleep |>) c
                         | _ => c
                         end in
                set_run r (x <| r_phase := RunSleeping |> <| r_backoff := backoff |>) c
            end
      | _ => c
      end
  | None => c
  end.

Definition run_wake (r : run_id) (c : core) : core :=
  match co_runs c !! r with
  | Some x =>
      match r_phase x with
      | RunSleeping => if r_cancelled x then end_run r c else set_run r (x <| r_phase := RunTop |>) c
      | _ => c
      end
  | None => c
  end.

(** ** Start and shutdown: [Run] *)

Definition start (c : core) : core :=
  if co_running c || co_stopping c then c
  else map_fold (λ id cn c, startConnLocked id cn c) (c <| co_running := true |>) (co_conns c).

Definition shutdown_core (c : core) : core :=
  let c := c <| co_stopping := true |> <| co_runs ::= fmap (λ x : run, x <| r_cancelled := true |>) |>
             <| co_running := false |> in
  let c := map_fold (λ _ g c, stop_timer (g_timer g) c) c (co_gates c) <| co_gates := ∅ |> in
  map_fold (λ _ cn c, emit (if ce_detacher E cn then CDetach cn else CClose cn) c) c (co_conns c).

(** ** One step of the running engine *)

Definition run_task (t : core_task) (c : core) : core :=
  match t with
  | TPerform network seq cn commands variables hasAutojoin =>
      run_perform network seq cn commands variables hasAutojoin c
  | TAutoRelease network cn => autoReleaseJoins network cn c
  | TStartCatchUp network cn buffers => run_start_catch_up E network cn buffers c
  | TCatchUp network buffer cn newest fallback => run_catch_up E network buffer cn newest fallback c
  | TPlugin net buffer call target name => run_plugin_task net buffer call target name c
  end.

Inductive core_input :=
  | IEvent (ev : event)                                  (** a connection delivers an event *)
  | ILoop (late : bool)
  | IKick
  | ITask (i : nat)
  | ITimer (t : nat)
  | IConnect (r : run_id)
  | IReturned (r : run_id) (res : connect_result)
  | IWake (r : run_id)
  | IStart
  | IShutdown
  | IInput (network buffer text : string)
  | IAdd (p : network_params)
  | IRemove (id : string)
  | IClose (network buffer : string)
  | IUpdate (p : network_params)
  | IReorderBuffers (network : string) (names : list string)
  | IReorderNetworks (ids : list string)
  | ISetConnected (id : string) (connect : bool)
  | IAddMonitor (id nick : string)
  | IRemoveMonitor (id nick : string)
  | IMarkRead (network buffer : string) (ts : time)
  | IListChannels (network query : string)
  | ITyping (network buffer state : string)
  | IReaction (network buffer target reaction : string)
  | IRedact (network buffer target reason : string)
  | IBouncerAdd (network : string) (b : bouncer_network) (pass : string)
  | IBouncerDelete (network id : string)
  | IBouncerOpen (network id : string)
  | IHighlight (h : option highlighter)
  | IAliases (m : gmap string string)
  | IApi (call : api_call).                              (** a plugin acts outside a hook *)

Definition core_step (fmt_duration : Z → string) (i : core_input) (c : core) : core :=
  match i with
  | IEvent ev => if room 1 c then HandleEvent ev c else c
  | ILoop late => loop_event late c
  | IKick => loop_kick c
  | ITask k =>
      match co_tasks c !! k with
      | Some t => if room 1 c then run_task t (c <| co_tasks ::= delete k |>) else c
      | None => c
      end
  | ITimer t =>
      match co_timers c !! t with
      | Some (network, cn) => spawn (TAutoRelease network cn) (c <| co_timers ::= delete t |>)
      | None => c
      end
  | IConnect r => run_connect r c
  | IReturned r res => run_returned fmt_duration r res c
  | IWake r => run_wake r c
  | IStart => start c
  | IShutdown => shutdown_core c
  | IInput network buffer text => if room 1 c then (SendInput network buffer text c).1 else c
  | IAdd p => (AddNetworkLive E p c).1
  | IRemove id => (RemoveNetwork E id c).1
  | IClose network buffer => (CloseBuffer E network buffer c).1
  | IUpdate p => (UpdateNetwork E p c).1
  | IReorderBuffers network names => (ReorderBuffers E network names c).1
  | IReorderNetworks ids => ReorderNetworks E ids c
  | ISetConnected id connect => (SetConnected E id connect c).1
  | IAddMonitor id nick => (AddMonitor E id nick c).1
  | IRemoveMonitor id nick => (RemoveMonitor E id nick c).1
  | IMarkRead network buffer ts => MarkRead E network buffer ts c
  | IListChannels network query => (ListChannels E network query c).1
  | ITyping network buffer state => SendTyping network buffer state c
  | IReaction network buffer target reaction =>
      if room 1 c then SendReaction network buffer target reaction c else c
  | IRedact network buffer target reason => SendRedact network buffer target reason c
  | IBouncerAdd network b pass => (BouncerAdd E network b pass c).1
  | IBouncerDelete network id => (BouncerDelete E network id c).1
  | IBouncerOpen network id => (BouncerOpen E network id c).1
  | IHighlight h => SetHighlighter h c
  | IAliases m => SetAliases m c
  | IApi call => run_api call c
  end.

(** The error a call of the web server returns. *)
Definition core_error (i : core_input) (c : core) : option string :=
  match i with
  | IInput network buffer text => (SendInput network buffer text c).2
  | IAdd p => add_error_text <$> (AddNetworkLive E p c).2
  | IRemove id => (RemoveNetwork E id c).2
  | IClose network buffer => (CloseBuffer E network buffer c).2
  | IUpdate p => (UpdateNetwork E p c).2
  | IReorderBuffers network names => (ReorderBuffers E network names c).2
  | ISetConnected id connect => (SetConnected E id connect c).2
  | IAddMonitor id nick => (AddMonitor E id nick c).2
  | IRemoveMonitor id nick => (RemoveMonitor E id nick c).2
  | IListChannels network query => (ListChannels E network query c).2
  | IBouncerAdd network b pass => (BouncerAdd E network b pass c).2
  | IBouncerDelete network id => (BouncerDelete E network id c).2
  | IBouncerOpen network id => (BouncerOpen E network id c).2
  | _ => None
  end.
End command.
