(* ===== verification/CoreFrame.v ===== *)
(** * What the engine's calls leave alone

    Most calls of [CoreEngine], [CoreHistory], [CoreBouncer] and [CoreCommand]
    only queue events, report to the outside, touch the bookkeeping of one
    network, or write a well-formed network back under its id.  [Frame R] says
    that a relation between the states before and after a call allows exactly
    that, and the lemmas say, once for all such relations, which calls stay
    within it.  [CoreInv] and [CoreThms] use them with relations of their own. *)

From Stdlib Require Import ZArith Lia Ascii Bool.
From stdpp Require Import base tactics list gmap strings sorting.
From S2P Require Import Prelude GoStrings Utf8 EngineLine CoreTypes CoreEvent CoreRoster CoreEngine CoreHistory CoreBouncer CoreCommand.

#[local] Open Scope Z_scope.
#[local] Notation pend := (gmap string (gmap string string)).

(** ** Networks keep their ids *)

Lemma goc_id n name kind : net_id (get_or_create n name kind).1.1 = net_id n.
Proof.
  unfold get_or_create, net_channel. destruct (init_by_fold_view n) as [Hv _].
  assert (Hi : net_id (init_by_fold n) = net_id n) by (by injection Hv).
  destruct (by_fold _ !! _); [done|]. cbn [fst]. rewrite <- Hi. unfold init_by_fold at 1. cbn.
  by destruct (net_by_fold (init_by_fold n)).
Qed.

Lemma lookup_id n name : net_id (net_channel n name).1 = net_id n.
Proof. cbn. unfold init_by_fold. by destruct (net_by_fold n). Qed.

Lemma remove_id n name : net_id (net_remove n name) = net_id n.
Proof. unfold net_remove. cbn. unfold init_by_fold. by destruct (net_by_fold n). Qed.

Lemma foldl_id {A} (f : network → A → network) n l :
  (∀ n a, net_id (f n a) = net_id n) → net_id (foldl f n l) = net_id n.
Proof. intros Hf. revert n. induction l as [|a l IH]; intros n; [done|]. cbn. by rewrite IH. Qed.

Lemma pending_id (pending : pend) n c : net_id (apply_pending_state pending n c) = net_id n.
Proof. unfold apply_pending_state. by case_decide. Qed.

Lemma each_member_id n nick body : net_id (each_member n nick body).1.1 = net_id n.
Proof.
  unfold each_member. generalize (@nil message) false. generalize (net_channels n) at 1. intros l.
  revert n. induction l as [|c l IH]; intros n out hit; [done|]. cbn [foldl].
  repeat case_match; by rewrite IH.
Qed.

Lemma mode_id c n b mms : net_id (foldl (member_mode_change c) (n, b) mms).1 = net_id n.
Proof.
  revert n b. induction mms as [|mm mms IH]; intros n b; [done|]. cbn [foldl].
  unfold member_mode_change at 2. destruct (_ ≫= _); by rewrite IH.
Qed.

Ltac net_ids :=
  repeat match goal with
  | |- context [get_or_create ?n ?b ?k] =>
      let H := fresh in pose proof (goc_id n b k) as H; destruct (get_or_create n b k) as [[? ?] []]; cbn [fst] in H
  | |- context [net_channel ?n ?b] =>
      let H := fresh in pose proof (lookup_id n b) as H; destruct (net_channel n b) as [? [?|]]; cbn [fst] in H
  | |- context [each_member ?n ?b ?k] =>
      let H := fresh in pose proof (each_member_id n b k) as H; destruct (each_member n b k) as [[? ?] ?]; cbn [fst] in H
  end.

Lemma resumed_id (pending : pend) n ch : net_id (resumed_channel pending n ch) = net_id n.
Proof. unfold resumed_channel. destruct (String.eqb ch ""); [done|]. net_ids; rewrite ?pending_id; done. Qed.

Lemma apply_event_id `{UnicodeTables} now (pending : pend) key hl n ev :
  net_id (ap_net (apply_event now pending key hl n ev)) = net_id n.
Proof.
  unfold apply_event. destruct (evt_type ev); try done.
  - unfold apply_message_in. destruct (evt_message ev); [|done]. cbn zeta. net_ids; cbn; rewrite ?pending_id; done.
  - unfold apply_join. net_ids; cbn zeta; destruct (EqualIRC _ _); try destruct (add_autojoin _ _ _ _);
      cbn; by rewrite ?pending_id.
  - unfold apply_part. destruct (EqualIRC _ _); cbn zeta.
    + destruct (remove_autojoin _ _). apply remove_id.
    + net_ids; done.
  - unfold apply_kick. cbn zeta. net_ids; [|done]. by destruct (EqualIRC _ _).
  - unfold apply_quit. cbn zeta. net_ids; done.
  - unfold apply_nick. cbn zeta. net_ids. cbn. destruct (EqualIRC _ _); done.
  - unfold apply_topic. net_ids; repeat case_match; cbn; congruence.
  - unfold apply_connect. cbn zeta. destruct (evt_resumed ev); cbn;
      rewrite ?foldl_id by apply resumed_id; by destruct (String.eqb _ _).
  - unfold apply_disconnect. cbn. by rewrite foldl_id.
  - unfold apply_names. net_ids; cbn; by rewrite foldl_id.
  - unfold apply_away. net_ids; done.
  - unfold apply_account. net_ids; done.
  - unfold apply_identity. by destruct (each_member _ _ _) as [[? ?] ?].
  - unfold apply_identity. by destruct (each_member _ _ _) as [[? ?] ?].
  - unfold apply_history_target. net_ids; done.
  - unfold apply_invite. destruct (EqualIRC _ _); [done|]. net_ids; done.
  - unfold apply_mode. net_ids; [|done]. match goal with |- context [foldl (member_mode_change ?c) (?m, false) ?l] => pose proof (mode_id c m false l) as Hm end.
    destruct (foldl _ _ _) as [n2 b]. cbn in Hm. repeat case_match; cbn; congruence.
  - unfold apply_monitor. by destruct (foldl _ _ _).
Qed.

(** ** Relations that hold across the bookkeeping *)

Definition nets_ok (tidy : Prop) (c : core) : Prop := Forall (net_ok tidy) (u_networks (co_user c)).

Definition is_autojoin (e : core_effect) : bool := match e with CAutojoin _ => true | _ => false end.

(** What a call may do without leaving the frame.  [within] is the relation
    itself, under a name the hint database can look up. *)
Definition within (R : core → core → Prop) (c c' : core) : Prop := R c c'.

Class Frame (R : core → core → Prop) : Prop := {
  fr_refl c : within R c c;
  fr_trans c1 c2 c3 : within R c1 c2 → within R c2 c3 → within R c1 c3;
  fr_emit e c : is_autojoin e = false → within R c (emit e c);
  fr_event ev c : within R c (HandleEvent ev c);
  fr_put id n c : net_id n = id → (∀ tidy, nets_ok tidy c → net_ok tidy n) → within R c (put_network id n c);
  fr_startup f c : within R c (c <| co_startup ::= f |>);
  fr_catchups f c : within R c (c <| co_catchups ::= f |>);
  fr_targets_since f c : within R c (c <| co_targets_since ::= f |>);
  fr_list_accum f c : within R c (c <| co_list_accum ::= f |>);
  fr_pending_whois f c : within R c (c <| co_pending_whois ::= f |>);
  fr_pending_keys f c : within R c (c <| co_pending_keys ::= f |>);
  fr_pending_state f c : within R c (c <| co_pending_state ::= f |>);
  fr_id_seq f c : within R c (c <| co_id_seq ::= f |>);
  fr_dirty f c : within R c (c <| co_dirty ::= f |>);
  fr_kick f c : within R c (c <| co_kick ::= f |>);
  fr_highlight h c : within R c (SetHighlighter h c);
  fr_aliases m c : within R c (SetAliases m c);
  spawn_frame t c : within R c (spawn t c);
  reset_gate_frame network c : within R c (resetJoinGateLocked network c);
  hold_frame network c : within R c (HoldJoins network c).1;
}.

Create HintDb frame.
#[export] Hint Resolve fr_event fr_startup fr_catchups fr_targets_since fr_list_accum fr_pending_whois fr_pending_keys fr_pending_state fr_id_seq fr_dirty fr_kick fr_highlight fr_aliases
  spawn_frame reset_gate_frame hold_frame : frame.
#[export] Hint Extern 1 (within _ _ (emit _ _)) => apply fr_emit; reflexivity : frame.

(** The last call of a chain, by its lemma; then the calls before it. *)
Ltac frame_step := eapply fr_trans; [|solve [eauto 5 with frame typeclass_instances]].
Ltac frame :=
  repeat match goal with
  | |- within _ _ (let _ := _ in _) => cbv zeta
  | |- within _ ?c ?c => apply fr_refl
  | |- within _ ?c (match ?x with _ => _ end) => destruct x eqn:?
  | |- _ => frame_step
  end.

Lemma find_network_spec c id n : find_network c id = Some n →
  net_id n = id ∧ n ∈ u_networks (co_user c) ∧ (∀ tidy, nets_ok tidy c → net_ok tidy n).
Proof.
  unfold find_network, user_network. intros ([i m] & (Hi & Hid & _)%list_find_Some & [= <-])%fmap_Some.
  apply list_elem_of_lookup_2 in Hi. split_and!; [done|done|]. intros tidy. unfold nets_ok. rewrite Forall_forall. by auto.
Qed.

Lemma set_network_ids id n l : net_id n = id → net_id <$> set_network id n l = net_id <$> l.
Proof.
  intros Hid. induction l as [|m l IH]; [done|]. cbn. destruct (String.eqb_spec (net_id m) id) as [->|]; cbn; congruence.
Qed.

Lemma set_network_ok tidy id n l : net_ok tidy n → Forall (net_ok tidy) l → Forall (net_ok tidy) (set_network id n l).
Proof.
  intros Hn Hl. induction Hl as [|m l Hm Hl IH]; [done|]. cbn. destruct (String.eqb (net_id m) id); by constructor.
Qed.

Lemma put_put id n m c : net_id m = id → put_network id n (put_network id m c) = put_network id n c.
Proof.
  intros Hid. destruct c as [[uid name l]]. unfold put_network. cbn. do 2 f_equal.
  induction l as [|x l IH]; [done|]. cbn [set_network]. destruct (String.eqb_spec (net_id x) id) as [Hx|Hx]; cbn [set_network].
  - by rewrite (proj2 (String.eqb_eq _ _) Hid).
  - rewrite (proj2 (String.eqb_neq _ _) Hx). by rewrite IH.
Qed.

Section frame.
Context `{Frame R}.

Lemma fr_foldl {A} (f : core → A → core) l c : (∀ c a, within R c (f c a)) → within R c (foldl f c l).
Proof.
  intros Hf. revert c. induction l as [|a l IH]; intros c; [apply fr_refl|]. cbn. eapply fr_trans; [apply Hf|apply IH].
Qed.

Lemma fr_fst {A} (x : core * A) c : within R c x.1 → ∀ c' a, x = (c', a) → within R c c'.
Proof. intros Hx c' a ->. exact Hx. Qed.

Section fanout.
Context `{UnicodeTables, Regexp, TimeParse} (E : cenv).

Lemma notify_frame id c : within R c (notifyNetwork E id c).
Proof. unfold notifyNetwork. frame. Qed.
Hint Resolve notify_frame : frame.

Lemma flush_frame c : within R c (flushDirty E c).
Proof. unfold flushDirty. eapply fr_trans; [apply (fr_dirty (λ _, ∅))|]. apply fr_foldl. intros. apply notify_frame. Qed.
Hint Resolve flush_frame : frame.

Lemma mark_frame id c : within R c (markDirty id c).
Proof. apply fr_dirty. Qed.
Hint Resolve mark_frame : frame.

Lemma wake_frame c : within R c (wakeFlush E c).
Proof. unfold wakeFlush. frame. Qed.
Hint Resolve wake_frame : frame.

Lemma broadcast_frame m c : within R c (broadcast E m c).
Proof.
  unfold broadcast. destruct (String.eqb (msg_id m) ""); cbn [synthID]; frame.
Qed.
Hint Resolve broadcast_frame : frame.

Lemma goc_frame id n name kind c : find_network c id = Some n →
  within R c (put_network id (get_or_create n name kind).1.1 c).
Proof.
  intros (Hid & _ & Hok)%find_network_spec. apply fr_put; [by rewrite goc_id|]. intros tidy Hc.
  pose proof (get_or_create_ok n name kind (Hok _ Hc)) as Hg. by destruct (get_or_create n name kind) as [[? ?] ?], Hg.
Qed.

Lemma inject_frame m c : within R c (inject E m c).
Proof.
  unfold inject. destruct (find_network c (msg_network m)) as [n|] eqn:Hn; [|apply fr_refl].
  pose proof (goc_frame _ _ (msg_buffer m) (bufferKind (msg_buffer m)) _ Hn) as Hg.
  destruct (get_or_create _ _ _) as [[n' ch] created]. cbn in Hg. eapply fr_trans; [exact Hg|]. frame.
Qed.
Hint Resolve inject_frame : frame.

Lemma say_frame network buffer text c : within R c (say E network buffer text c).
Proof. apply inject_frame. Qed.
Hint Resolve say_frame : frame.

(** ** Engine *)

Lemma record_keys_frame network text c : within R c (recordPendingKeys network text c).
Proof. unfold recordPendingKeys. frame. Qed.
Hint Resolve record_keys_frame : frame.

Lemma take_key_frame network channel c : within R c (takePendingKey network channel c).
Proof. unfold takePendingKey. frame. Qed.
Hint Resolve take_key_frame : frame.

Lemma fr_put_after id n c c1 : within R c c1 → net_id n = id → (∀ tidy, nets_ok tidy c1 → net_ok tidy n) →
  within R c (put_network id n c1).
Proof. intros. eapply fr_trans; [eassumption|by apply fr_put]. Qed.

Lemma reset_gate_user network c : co_user (resetJoinGateLocked network c) = co_user c.
Proof. unfold resetJoinGateLocked, stop_timer. by repeat case_match. Qed.

Lemma apply_locked_frame ev c : within R c (applyLocked E ev c).1.1.1.
Proof.
  unfold applyLocked. destruct (find_network c (evt_network ev)) as [n|] eqn:Hn; [|apply fr_refl].
  apply find_network_spec in Hn as (Hid & _ & Hok). cbn [fst]. apply fr_put_after.
  - repeat case_match; frame.
  - by rewrite apply_event_id.
  - intros tidy Hc. apply apply_event_stays, Hok. revert Hc. unfold nets_ok.
    repeat case_match; cbn; by rewrite ?reset_gate_user.
Qed.

Lemma numeric_frame ev c : within R c (applyNumeric E ev c).
Proof. unfold applyNumeric. frame. Qed.
Hint Resolve numeric_frame : frame.

Lemma message_out_frame ev c : within R c (applyMessageOut E ev c).
Proof.
  unfold applyMessageOut. destruct (evt_message ev) as [m|]; [|apply fr_refl].
  destruct (find_network c (evt_network ev)) as [n|] eqn:Hn; [|apply fr_refl]. cbv zeta.
  set (m' := if String.eqb _ _ then _ else m).
  pose proof (goc_frame _ _ (msg_buffer m') (bufferKind (msg_buffer m')) _ Hn) as Hg.
  destruct (get_or_create _ _ _) as [[n' ch] created]. cbn in Hg. eapply fr_trans; [exact Hg|].
  frame.
Qed.
Hint Resolve message_out_frame : frame.

Lemma persist_frame id p c : within R c (persist_params E id p c).
Proof. unfold persist_params. frame. Qed.
Hint Resolve persist_frame : frame.

Lemma commit_rest_frame ev c :
  within R c (let '(c, out, netChanged, persist) := applyLocked E ev c in
      let params := net_params <$> find_network c (evt_network ev) in
      let c := foldl (λ c m, broadcast E m c) c out in
      let c := match params with
               | Some p => if persist then persist_params E (evt_network ev) p c else c
               | None => c
               end in
      if netChanged then markDirty (evt_network ev) c else c).
Proof.
  pose proof (apply_locked_frame ev c) as Ha. destruct (applyLocked E ev c) as [[[c1 out] changed] persist].
  cbn in Ha. eapply fr_trans; [exact Ha|]. cbv zeta.
  eapply fr_trans; [apply (fr_foldl (λ c m, broadcast E m c) out); intros; apply broadcast_frame|].
  frame.
Qed.

Lemma commit_frame ev c : within R c (commit E ev c).
Proof. unfold commit. cbv zeta. destruct (evt_type ev); try apply commit_rest_frame; frame. Qed.
Hint Resolve commit_frame : frame.

Lemma persist_notify_frame p c : within R c (persistAndNotify E p c).
Proof. unfold persistAndNotify. frame. Qed.
Hint Resolve persist_notify_frame : frame.

(** A parameter that well-formedness does not look at. *)
Lemma same_params_ok tidy n p : net_ok tidy n → np_channels p = np_channels (net_params n) →
  np_channel_keys p = np_channel_keys (net_params n) → net_ok tidy (n <| net_params := p |>).
Proof. intros (Hwf & Ha & Hm & Hb) Hc Hk. split_and!; try done. intros Ht. specialize (Ha Ht). unfold autojoin_wf in *. cbn. by rewrite Hc, Hk. Qed.

Lemma close_frame network buffer c : within R c (CloseBuffer E network buffer c).1.
Proof.
  unfold CloseBuffer. destruct (find_network c network) as [n|] eqn:Hn; [|apply fr_refl].
  apply find_network_spec in Hn as (Hid & _ & Hok).
  assert (Hl : net_id (net_channel n buffer).1 = network) by by rewrite lookup_id.
  assert (Hlok : ∀ tidy, nets_ok tidy c → net_ok tidy (net_channel n buffer).1) by (intros; apply init_by_fold_ok; auto).
  assert (Hput : within R c (put_network network (net_channel n buffer).1 c)) by by apply fr_put.
  destruct (net_channel n buffer) as [n' found]. cbn in Hl, Hlok, Hput. cbv zeta.
  destruct (_ ≫= _) as [ch|]; [|exact Hput]. case_decide; [|exact Hput]. cbn [fst].
  eapply fr_trans; [|apply notify_frame]. rewrite put_put by done. apply fr_put; [by rewrite remove_id|].
  intros tidy Hc. by apply net_remove_ok, Hlok.
Qed.

Lemma list_channels_frame network query c : within R c (ListChannels E network query c).1.
Proof. unfold ListChannels. destruct (connFor c network); [|apply fr_refl]. cbv zeta. cbn [fst]. unfold send. frame. Qed.

Lemma reorder_buffers_frame network names c : within R c (ReorderBuffers E network names c).1.
Proof.
  unfold ReorderBuffers. destruct (find_network c network) as [n|] eqn:Hn; [|apply fr_refl].
  apply find_network_spec in Hn as (Hid & _ & Hok). cbv zeta. cbn [fst].
  eapply fr_trans; [|apply persist_notify_frame]. apply fr_put; [done|]. intros tidy Hc. by apply same_params_ok; auto.
Qed.

Lemma monitor_live_frame id n raw c : within R c (monitor_live id n raw c).
Proof. unfold monitor_live, send. frame. Qed.
Hint Resolve monitor_live_frame : frame.

Lemma add_monitor_frame id nick c : within R c (AddMonitor E id nick c).1.
Proof.
  unfold AddMonitor. cbv zeta. destruct (String.eqb _ _); [apply fr_refl|].
  destruct (find_network c id) as [n|] eqn:Hn; [|apply fr_refl]. apply find_network_spec in Hn as (Hid & _ & Hok).
  destruct (has_irc _ _); [apply fr_refl|]. cbn [fst].
  eapply fr_trans; [|apply persist_notify_frame]. eapply fr_trans; [|apply monitor_live_frame].
  apply fr_put; [done|]. intros tidy Hc. by apply same_params_ok; auto.
Qed.

Lemma remove_monitor_frame id nick c : within R c (RemoveMonitor E id nick c).1.
Proof.
  unfold RemoveMonitor. cbv zeta. destruct (find_network c id) as [n|] eqn:Hn; [|apply fr_refl].
  apply find_network_spec in Hn as (Hid & _ & Hok). destruct (_ =? _)%nat; [apply fr_refl|]. cbn [fst].
  eapply fr_trans; [|apply persist_notify_frame]. eapply fr_trans; [|apply monitor_live_frame].
  apply fr_put; [done|]. intros tidy Hc. pose proof (Hok tidy Hc) as (? & ? & ? & ?). by split_and!.
Qed.

Lemma field_ok tidy n c f : keeps_name f → (∀ ch, ch_members (f ch) = ch_members ch) → net_ok tidy n → net_ok tidy (update_channel n c f).
Proof. intros Hf Hm. apply update_ok; [done|by apply keyed_same]. Qed.

Lemma mark_read_frame network buffer ts c : within R c (MarkRead E network buffer ts c).
Proof.
  unfold MarkRead. cbv zeta. eapply fr_trans; [|by apply fr_emit].
  destruct (find_network c network) as [n|] eqn:Hn; [|apply fr_refl]. apply find_network_spec in Hn as (Hid & _ & Hok).
  pose proof (lookup_id n buffer) as Hl.
  assert (Hlok : ∀ tidy, nets_ok tidy c → net_ok tidy (net_channel n buffer).1) by (intros; apply init_by_fold_ok; auto).
  destruct (net_channel n buffer) as [n' [ch|]]; cbn [fst] in *; apply fr_put; try done; [by rewrite <- Hid, <- Hl|..|congruence].
  intros tidy Hc. by apply field_ok; auto.
Qed.

(** ** Catch-up *)

Lemma send_frame cn raw c : within R c (send cn raw c).
Proof. by apply fr_emit. Qed.
Hint Resolve send_frame : frame.

Lemma run_chat_history_frame ev cn c : within R c (runChatHistory E ev cn c).
Proof. unfold runChatHistory. cbv zeta. frame. Qed.
Hint Resolve run_chat_history_frame : frame.

Lemma start_catch_up_frame network c : within R c (startCatchUp E network c).
Proof. unfold startCatchUp. frame. Qed.

Lemma run_start_catch_up_frame network cn buffers c : within R c (run_start_catch_up E network cn buffers c).
Proof. unfold run_start_catch_up. frame. Qed.

Lemma catch_up_frame network buffer newest fallback c : within R c (catchUpBuffer E network buffer newest fallback c).
Proof. unfold catchUpBuffer. frame. Qed.
Hint Resolve start_catch_up_frame catch_up_frame : frame.

Lemma run_catch_up_frame network buffer cn newest fallback c :
  within R c (run_catch_up E network buffer cn newest fallback c).
Proof. unfold run_catch_up. frame. Qed.

Lemma history_target_frame ev c : within R c (onHistoryTarget E ev c).
Proof. unfold onHistoryTarget. cbv zeta. frame. Qed.

Lemma history_batch_frame ev c : within R c (onHistoryBatch ev c).
Proof. unfold onHistoryBatch. cbv zeta. frame. Qed.

Lemma drop_catch_ups_frame network c : within R c (dropCatchUps network c).
Proof. unfold dropCatchUps. frame. Qed.
Hint Resolve drop_catch_ups_frame : frame.

(** ** Bouncer control *)

Lemma list_bouncer_frame network c : within R c (listBouncerNetworks E network c).
Proof. unfold listBouncerNetworks. frame. Qed.
Hint Resolve list_bouncer_frame : frame.

Lemma send_and_list_frame cn raw c : within R c (send_and_list E cn raw c).1.
Proof. unfold send_and_list. cbv zeta. repeat case_match; cbn [fst]; frame. Qed.

Lemma bouncer_add_frame network b pass c : within R c (BouncerAdd E network b pass c).1.
Proof. unfold BouncerAdd. repeat case_match; try apply fr_refl; apply send_and_list_frame. Qed.

Lemma bouncer_delete_frame network id c : within R c (BouncerDelete E network id c).1.
Proof. unfold BouncerDelete. repeat case_match; try apply fr_refl; apply send_and_list_frame. Qed.

(** ** Input and commands *)

Lemma api_raw_frame network raw c : within R c (api_raw E network raw c).1.
Proof. unfold api_raw. repeat case_match; cbn [fst]; frame. Qed.

Lemma send_self_frame network target text kind call c : (∀ cn, is_autojoin (call cn) = false) →
  within R c (sendSelf E network target text kind call c).1.
Proof.
  intros Hcall. unfold sendSelf. destruct (connFor c network) as [cn|]; [|apply fr_refl]. cbv zeta.
  assert (He : within R c (emit (call cn) c)) by by apply fr_emit.
  repeat case_match; cbn [fst]; try exact He. eapply fr_trans; [exact He|]. frame.
Qed.

Lemma api_message_frame network target text c : within R c (api_message E network target text c).1.
Proof. by apply send_self_frame. Qed.

Lemma api_notice_frame network target text c : within R c (api_notice E network target text c).1.
Proof. by apply send_self_frame. Qed.

Lemma api_action_frame network target text c : within R c (api_action E network target text c).1.
Proof. by apply send_self_frame. Qed.
Hint Resolve api_raw_frame api_message_frame api_notice_frame api_action_frame : frame.

Lemma set_pending_frame network buffer state c : within R c (setPendingStateLocked network buffer state c).
Proof. unfold setPendingStateLocked. cbv zeta. frame. Qed.

Lemma set_pending_user network buffer state c : co_user (setPendingStateLocked network buffer state c) = co_user c.
Proof. unfold setPendingStateLocked. cbv zeta. by repeat case_match. Qed.

Lemma set_state_frame network buffer state c : within R c (SetBufferState E network buffer state c).
Proof.
  unfold SetBufferState. cbv zeta. eapply fr_trans; [apply (set_pending_frame network buffer state)|].
  generalize (setPendingStateLocked network buffer state c). clear c. intros c.
  destruct (find_network c network) as [n|] eqn:Hn; [|apply fr_refl]. apply find_network_spec in Hn as (Hid & _ & Hok).
  pose proof (lookup_id n buffer) as Hl.
  assert (Hlok : ∀ tidy, nets_ok tidy c → net_ok tidy (net_channel n buffer).1) by (intros; apply init_by_fold_ok; auto).
  destruct (net_channel n buffer) as [n' [ch|]]; cbn [fst] in *; [|by apply fr_put; [congruence|]].
  eapply fr_trans; [|apply notify_frame]. apply fr_put; [by rewrite <- Hid, <- Hl|]. intros tidy Hc. by apply field_ok; auto.
Qed.

Lemma send_input_frame fuel network buffer text c : within R c (send_input E fuel network buffer text c).1.
Proof.
  revert text. induction fuel as [|fuel IH]; intros text; cbn [send_input]; cbv zeta;
    destruct (cut_byte SP (trim_prefix "/" text)) as [[name argstr] found]; destruct (_ && _);
    repeat case_match; cbn [fst]; try apply IH; frame.
Qed.

Lemma input_frame network buffer text c : within R c (SendInput E network buffer text c).1.
Proof. apply send_input_frame. Qed.
Hint Resolve input_frame : frame.

Lemma typing_frame network buffer state c : within R c (SendTyping E network buffer state c).
Proof. unfold SendTyping. frame. Qed.

Lemma reaction_frame network buffer target reaction c : within R c (SendReaction E network buffer target reaction c).
Proof. unfold SendReaction. cbv zeta. frame. Qed.

Lemma redact_frame network buffer target reason c : within R c (SendRedact E network buffer target reason c).
Proof. unfold SendRedact. frame. Qed.

Lemma start_numeric_frame ev raw c : within R c (startNumeric ev raw c).
Proof. unfold startNumeric. frame. Qed.

Lemma shorthand_frame cn ev name c : within R c (applyModeShorthand cn ev name c).
Proof. unfold applyModeShorthand. cbv zeta. frame. Qed.

Lemma kick_frame cn ev c : within R c (kickCmd cn ev c).
Proof. unfold kickCmd. frame. Qed.
Hint Resolve start_numeric_frame shorthand_frame kick_frame : frame.

Lemma plugin_task_frame net buffer call target name c : within R c (run_plugin_task E net buffer call target name c).
Proof. unfold run_plugin_task. cbv zeta. frame. Qed.

Lemma conn_command_frame name ev cn c : within R c (conn_command E name ev cn c).
Proof. unfold conn_command. cbv zeta. frame. Qed.
Hint Resolve conn_command_frame : frame.

Lemma next_startup_frame network c : within R c (next_startup network c).1.
Proof. unfold next_startup. cbn [fst]. frame. Qed.

Lemma resume_frame network c : within R c (resumeStartup network c).
Proof. apply next_startup_frame. Qed.
End fanout.
End frame.

#[export] Hint Resolve notify_frame flush_frame mark_frame wake_frame broadcast_frame inject_frame say_frame
  record_keys_frame take_key_frame numeric_frame message_out_frame persist_frame
  commit_frame persist_notify_frame monitor_live_frame send_frame run_chat_history_frame
  start_catch_up_frame catch_up_frame drop_catch_ups_frame list_bouncer_frame api_raw_frame api_message_frame
  api_notice_frame api_action_frame set_state_frame input_frame history_target_frame history_batch_frame
  start_numeric_frame shorthand_frame kick_frame conn_command_frame resume_frame : frame.

(** ** Calls that may start the auto-join *)

Class JoinFrame (R : core → core → Prop) : Prop := {
  #[global] join_frame :: Frame R;
  release_frame network c : within R c (ReleaseJoins network c).1;
  auto_release_frame netID cn c : within R c (autoReleaseJoins netID cn c);
  trigger_frame network seq cn c : within R c (triggerAutojoinOrQueue network seq cn c);
}.
#[export] Hint Resolve release_frame trigger_frame : frame.

Section join.
Context `{JoinFrame R, UnicodeTables, Regexp, TimeParse} (E : cenv).

Lemma run_api_frame call c : within R c (run_api E call c).
Proof. destruct call; cbn [run_api]; unfold api_print; frame. Qed.

Lemma calls_frame calls c : within R c (foldl (λ c call, run_api E call c) c calls).
Proof. apply (fr_foldl (λ c call, run_api E call c)). intros. apply run_api_frame. Qed.

Lemma dispatch_frame ev c : within R c (dispatch E ev c).1.1.
Proof. unfold dispatch. destruct (ce_dispatch E ev) as [[calls out] keep]. apply calls_frame. Qed.

Lemma perform_frame network c : within R c (runPerform network c).
Proof.
  unfold runPerform. destruct (find_network c network), (co_conns c !! network); try apply fr_refl.
  pose proof (next_startup_frame network c) as Hs. destruct (next_startup network c) as [c1 seq]. cbn [fst] in Hs.
  cbv zeta. eapply fr_trans; [exact Hs|]. frame.
Qed.
Hint Resolve perform_frame : frame.

Lemma run_perform_frame network seq cn commands variables hasAutojoin c :
  within R c (run_perform E network seq cn commands variables hasAutojoin c).
Proof. unfold run_perform. cbv zeta. frame. Qed.

Lemma after_commit_frame ev c : within R c (after_commit E ev c).
Proof. unfold after_commit. cbv zeta. frame. Qed.

Lemma run_task_frame t c : within R c (run_task E t c).
Proof.
  destruct t; cbn [run_task]; [apply run_perform_frame|apply auto_release_frame|apply run_start_catch_up_frame|
    apply run_catch_up_frame|apply plugin_task_frame].
Qed.
End join.

(** ** Everything but a round of the loop

    A relation that also allows any change of the networks, the connections and
    their goroutines holds across every step that takes no event from the
    queue. *)

Class WideFrame (R : core → core → Prop) : Prop := {
  #[global] wide_frame :: Frame R;
  fr_user f c : within R c (c <| co_user ::= f |>);
  fr_conns f c : within R c (c <| co_conns ::= f |>);
  fr_cancels f c : within R c (c <| co_cancels ::= f |>);
  fr_runs f c : within R c (c <| co_runs ::= f |>);
  fr_running f c : within R c (c <| co_running ::= f |>);
  fr_stopping f c : within R c (c <| co_stopping ::= f |>);
  fr_next c : within R c (c <| co_next ::= S |>);
  fr_drop_gates c : within R c (map_fold (λ _ g c, stop_timer (g_timer g) c) c (co_gates c) <| co_gates := ∅ |>);
}.
#[export] Hint Resolve fr_user fr_conns fr_cancels fr_runs fr_running fr_stopping fr_next : frame.

Section wide.
Context `{WideFrame R, UnicodeTables, Regexp, TimeParse} (E : cenv).

Lemma put_wide id n c : within R c (put_network id n c).
Proof. apply fr_user. Qed.

Lemma start_conn_wide id cn c : within R c (startConnLocked id cn c).
Proof. unfold startConnLocked. cbv zeta. frame. Qed.

Lemma cancel_wide id c : within R c (cancel_network id c).
Proof. unfold cancel_network, cancel_run. frame. Qed.
Hint Resolve put_wide start_conn_wide cancel_wide : frame.

Lemma add_network_wide p cn c : within R c (add_network p cn c).
Proof. unfold add_network. frame. Qed.
Hint Resolve add_network_wide : frame.

Lemma add_live_wide p c : within R c (AddNetworkLive E p c).1.
Proof. unfold AddNetworkLive. cbv zeta. repeat case_match; cbn [fst]; frame. Qed.

Lemma remove_wide id c : within R c (RemoveNetwork E id c).1.
Proof. unfold RemoveNetwork. cbv zeta. destruct (find_network c id); [|apply fr_refl]. cbn [fst]. frame. Qed.

Lemma foldl_send_wide cn (f : string → string) l c : within R c (foldl (λ c ch, send cn (f ch) c) c l).
Proof. apply (fr_foldl (λ c ch, send cn (f ch) c)). intros. apply send_frame. Qed.
Hint Resolve foldl_send_wide : frame.

Lemma update_wide p c : within R c (UpdateNetwork E p c).1.
Proof.
  unfold UpdateNetwork. cbv zeta. destruct (find_network c (np_id p)); [|apply fr_refl].
  destruct (needsReconnect _ _).
  - repeat case_match; cbn [fst]; try apply fr_refl; frame.
  - destruct (diffChannels _ _) as [added removed]. cbn [fst]. eapply fr_trans; [|apply persist_notify_frame].
    destruct (co_conns _ !! _); [|frame]. destruct (bool_decide _); [|frame].
    eapply fr_trans; [|apply (foldl_send_wide _ (λ ch, "JOIN " +:+ ch))].
    eapply fr_trans; [|apply (foldl_send_wide _ (λ ch, "PART " +:+ ch))]. frame.
Qed.

Lemma set_connected_wide id connect c : within R c (SetConnected E id connect c).1.
Proof. unfold SetConnected. cbv zeta. repeat case_match; cbn [fst]; frame. Qed.
Hint Resolve set_connected_wide : frame.

Lemma bouncer_open_wide network id c : within R c (BouncerOpen E network id c).1.
Proof.
  unfold BouncerOpen. cbv zeta. destruct (bouncerNetwork network id c) as [b|]; [|apply fr_refl].
  destruct (NetworkConfig c network) as [p|]; [|apply fr_refl]. destruct (_ || _); [apply fr_refl|].
  pose proof (add_live_wide (bound_params network b p) c) as Ha.
  by destruct (AddNetworkLive E _ c) as [c1 [err|]].
Qed.

Lemma emits_frame es c : Forall (λ e, is_autojoin e = false) es → within R c (emits es c).
Proof.
  intros Hes. assert (emits es c = foldl (λ c e, emit e c) c es) as ->.
  { unfold emits. rewrite <- (app_nil_r es) at 1. revert c. clear Hes. induction es as [|e es IH]; intros c.
    - cbn. rewrite app_nil_r. by destruct c.
    - cbn [foldl app]. rewrite <- IH. destruct c. cbn. by rewrite <- app_assoc. }
  revert c. induction Hes as [|e es He _ IH]; intros c; [apply fr_refl|]. cbn. eapply fr_trans; [by apply fr_emit|apply IH].
Qed.

Lemma reorder_wide ids c : within R c (ReorderNetworks E ids c).
Proof.
  unfold ReorderNetworks. cbv zeta. eapply fr_trans; [|by apply fr_emit]. destruct (ce_store E); [|frame].
  eapply fr_trans; [|apply emits_frame]; [frame|]. apply Forall_fmap, Forall_forall. done.
Qed.

Lemma manage_wide name ev c c' : manage_command E name ev c = Some c' → within R c c'.
Proof.
  intros Hm. unfold manage_command in Hm. cbv zeta in Hm.
  assert (Hs : ∀ b c' err, SetConnected E (evt_network ev) b c = (c', err) → within R c c').
  { intros b c1 err Hs. pose proof (set_connected_wide (evt_network ev) b c) as Hc. by rewrite Hs in Hc. }
  repeat case_match; simplify_eq; by eauto || (frame; fail) || (eapply fr_trans; [by eauto|apply say_frame]).
Qed.

Lemma builtin_wide ev c : within R c (runBuiltinCommand E ev c).
Proof.
  unfold runBuiltinCommand. cbv zeta. destruct (manage_command E _ ev c) as [c'|] eqn:Hm; [by eapply manage_wide|].
  frame.
Qed.

Lemma handle_wide `{!JoinFrame R} ev c : within R c (handle E ev c).
Proof.
  unfold handle. destruct (_ && _); [apply fr_refl|]. pose proof (dispatch_frame E ev c) as Hd.
  destruct (dispatch E ev c) as [[c1 out] keep]. cbn [fst] in Hd.
  assert (Hafter : within R c (after_commit E ev (commit E ev c1))).
  { eapply fr_trans; [exact Hd|]. eapply fr_trans; [apply commit_frame|apply after_commit_frame]. }
  assert (Hcommit : within R c (commit E out c1)) by (eapply fr_trans; [exact Hd|apply commit_frame]).
  assert (Hbuiltin : within R c (runBuiltinCommand E ev c1)) by (eapply fr_trans; [exact Hd|apply builtin_wide]).
  destruct (evt_type ev); try exact Hafter; try destruct keep; try exact Hd; try assumption; try frame.
Qed.

(** A round of the loop, from the state without the event it takes. *)
Lemma round_wide `{!JoinFrame R} late ev rest c : co_events c = ev :: rest → co_wedged c = false →
  within R (c <| co_events := rest |>) (loop_event E late c).
Proof.
  intros Hev Hw. unfold loop_event. rewrite Hev, Hw. cbv zeta.
  assert (Hh : within R (c <| co_events := rest |>) (handle E ev (c <| co_events := rest |>))) by apply handle_wide.
  destruct (_ || late); [|exact Hh]. eapply fr_trans; [exact Hh|apply flush_frame].
Qed.

Lemma release_conn_wide id cn c : within R c (releaseConn id cn c).
Proof. unfold releaseConn. frame. Qed.
Hint Resolve release_conn_wide : frame.

Lemma start_wide c : within R c (start c).
Proof.
  unfold start. destruct (_ || _); [apply fr_refl|]. apply (map_fold_weak_ind (λ c' _, within R c c')); [frame|].
  intros i cn m c' _ IH. eapply fr_trans; [exact IH|apply start_conn_wide].
Qed.

Lemma shutdown_wide c : within R c (shutdown_core E c).
Proof.
  unfold shutdown_core. cbv zeta. apply (map_fold_weak_ind (λ c' _, within R c c')).
  - eapply fr_trans; [|apply fr_drop_gates]. frame.
  - intros i cn m c' _ IH. eapply fr_trans; [exact IH|]. apply fr_emit. by destruct (ce_detacher E cn).
Qed.

(** Inputs that take nothing from the queue, the tasks or the timers, and are
    no plugin's. *)
Definition plain_input (i : core_input) : bool :=
  match i with ILoop _ | ITask _ | ITimer _ | IApi _ => false | _ => true end.

Lemma step_wide fmt i c : plain_input i = true → within R c (core_step E fmt i c).
Proof.
  destruct i; try done; intros _; cbn [core_step];
    try (destruct (room 1 c); [|apply fr_refl]);
    first [apply start_wide|apply shutdown_wide|apply add_live_wide|apply remove_wide|apply update_wide|apply reorder_wide
      |apply set_connected_wide|apply bouncer_open_wide|apply input_frame|apply close_frame|apply reorder_buffers_frame
      |apply add_monitor_frame|apply remove_monitor_frame|apply mark_read_frame|apply list_channels_frame|apply typing_frame
      |apply reaction_frame|apply redact_frame|apply bouncer_add_frame|apply bouncer_delete_frame
      |apply fr_highlight|apply fr_aliases|apply fr_event|idtac].
  - unfold loop_kick. frame.
  - unfold run_connect, set_run, end_run. frame.
  - unfold run_returned, set_run, end_run. cbv zeta. frame.
  - unfold run_wake, set_run, end_run. frame.
Qed.
End wide.

(** ** Relations that do not look at gates, timers and tasks *)

Class RawFrame (R : core → core → Prop) : Prop := {
  raw_refl c : within R c c;
  raw_trans c1 c2 c3 : within R c1 c2 → within R c2 c3 → within R c1 c3;
  raw_emit e c : within R c (emit e c);
  raw_event ev c : within R c (HandleEvent ev c);
  raw_put id n c : net_id n = id → (∀ tidy, nets_ok tidy c → net_ok tidy n) → within R c (put_network id n c);
  raw_startup f c : within R c (c <| co_startup ::= f |>);
  raw_catchups f c : within R c (c <| co_catchups ::= f |>);
  raw_targets_since f c : within R c (c <| co_targets_since ::= f |>);
  raw_list_accum f c : within R c (c <| co_list_accum ::= f |>);
  raw_pending_whois f c : within R c (c <| co_pending_whois ::= f |>);
  raw_pending_keys f c : within R c (c <| co_pending_keys ::= f |>);
  raw_pending_state f c : within R c (c <| co_pending_state ::= f |>);
  raw_id_seq f c : within R c (c <| co_id_seq ::= f |>);
  raw_dirty f c : within R c (c <| co_dirty ::= f |>);
  raw_kick f c : within R c (c <| co_kick ::= f |>);
  raw_highlight h c : within R c (SetHighlighter h c);
  raw_aliases m c : within R c (SetAliases m c);
  raw_tasks f c : within R c (c <| co_tasks ::= f |>);
  raw_gates f c : within R c (c <| co_gates ::= f |>);
  raw_timers f c : within R c (c <| co_timers ::= f |>);
  raw_next c : within R c (c <| co_next ::= S |>);
}.

Section raw.
Context `{RawFrame R}.

Lemma raw_stop_timer t c : within R c (stop_timer t c).
Proof. unfold stop_timer. destruct t; [apply raw_timers|apply raw_refl]. Qed.

Ltac raw :=
  repeat match goal with
  | |- within _ _ (let _ := _ in _) => cbv zeta
  | |- within _ ?c ?c => apply raw_refl
  | |- within _ ?c (match ?x with _ => _ end) => destruct x eqn:?
  | |- _ => eapply raw_trans; [|first [apply raw_stop_timer|apply raw_gates|apply raw_timers|apply raw_next|apply raw_emit]]
  end.

#[export] Instance raw_join : JoinFrame R.
Proof.
  split; [split|..]; intros.
  - apply raw_refl.
  - by eapply raw_trans.
  - apply raw_emit.
  - apply raw_event.
  - by apply raw_put.
  - apply raw_startup.
  - apply raw_catchups.
  - apply raw_targets_since.
  - apply raw_list_accum.
  - apply raw_pending_whois.
  - apply raw_pending_keys.
  - apply raw_pending_state.
  - apply raw_id_seq.
  - apply raw_dirty.
  - apply raw_kick.
  - apply raw_highlight.
  - apply raw_aliases.
  - apply raw_tasks.
  - unfold resetJoinGateLocked. raw.
  - unfold HoldJoins. destruct (find_network c network) as [n|]; [|apply raw_refl].
    cbv zeta. destruct (co_conns c !! net_id n) as [cn|]; [|apply raw_refl].
    set (g := match co_gates c !! net_id n with Some _ => _ | None => _ end).
    assert (Hg : within R c g.1.1) by (unfold g; repeat case_match; cbn [fst]; raw).
    destruct g as [[c1 pending] timer]. cbn [fst] in *. eapply raw_trans; [exact Hg|]. raw.
  - unfold ReleaseJoins. destruct (find_network c network) as [n|]; [|apply raw_refl]. cbv zeta.
    destruct (co_gates c !! net_id n) as [g|]; [|apply raw_refl]. cbn [fst]. unfold autojoin. raw.
  - unfold autoReleaseJoins, autojoin. cbv zeta. raw.
  - unfold triggerAutojoinOrQueue, autojoin. raw.
Qed.

Lemma raw_drop_gates c : within R c (map_fold (λ _ g c, stop_timer (g_timer g) c) c (co_gates c) <| co_gates := ∅ |>).
Proof.
  eapply raw_trans; [|apply (raw_gates (λ _, ∅))]. apply (map_fold_weak_ind (λ c' _, within R c c')); [apply raw_refl|].
  intros i g m c' _ IH. eapply raw_trans; [exact IH|apply raw_stop_timer].
Qed.
End raw.
