(* ===== verification/CoreInv.v ===== *)
(** * Invariants of the running engine

    What holds of an engine along every run of [core_step], whatever calls,
    events, timers and goroutine steps are interleaved: its networks have
    distinct ids and are well formed, and the connection goroutines are the
    ones the engine can still stop ([engine_inv]).  The steps outside the frame
    of [CoreFrame] (adding, removing, editing, connecting and disconnecting
    networks, starting and stopping) have a lemma each. *)

From Stdlib Require Import ZArith Lia Ascii Bool.
From stdpp Require Import base tactics list gmap strings sorting.
From S2P Require Import Prelude GoStrings Utf8 EngineLine CoreTypes CoreEvent CoreRoster CoreEngine CoreHistory CoreBouncer CoreCommand CoreFrame.

#[local] Open Scope Z_scope.

(** ** The invariant *)

Definition network_ids (c : core) : list string := net_id <$> u_networks (co_user c).

Record engine_inv (tidy : Prop) (c : core) : Prop := {
  ei_ids : NoDup (network_ids c);
  ei_ok : nets_ok tidy c;
  ei_conns : ∀ id, is_Some (co_conns c !! id) → id ∈ network_ids c;
  ei_fresh : ∀ r x, co_runs c !! r = Some x → (r < co_next c)%nat;
  ei_live : ∀ r x, co_runs c !! r = Some x → r_cancelled x = false →
    co_cancels c !! r_network x = Some r ∧ co_conns c !! r_network x = Some (r_conn x);
  ei_held : co_stopping c = false → ∀ id r, co_cancels c !! id = Some r →
    ∃ x, co_runs c !! r = Some x ∧ r_network x = id ∧ r_cancelled x = false;
  ei_idle : co_running c = false → ∀ r x, co_runs c !! r = Some x → r_cancelled x = true;
  ei_stop : co_stopping c = true → co_running c = false;
}.

Arguments ei_ids {tidy} c _.
Arguments ei_ok {tidy} c _.
Arguments ei_conns {tidy} c _.
Arguments ei_fresh {tidy} c _.
Arguments ei_live {tidy} c _.
Arguments ei_held {tidy} c _.
Arguments ei_idle {tidy} c _.
Arguments ei_stop {tidy} c _.

(** The part of the state the invariant is about stays as it is. *)
Record steady (c c' : core) : Prop := {
  sd_conns : co_conns c' = co_conns c;
  sd_cancels : co_cancels c' = co_cancels c;
  sd_runs : co_runs c' = co_runs c;
  sd_running : co_running c' = co_running c;
  sd_stopping : co_stopping c' = co_stopping c;
  sd_ids : network_ids c' = network_ids c;
  sd_next : (co_next c ≤ co_next c')%nat;
  sd_ok tidy : nets_ok tidy c → nets_ok tidy c';
}.

#[export] Instance steady_frame : RawFrame steady.
Proof.
  assert (Hrefl : ∀ c c', co_user c' = co_user c → co_conns c' = co_conns c → co_cancels c' = co_cancels c →
    co_runs c' = co_runs c → co_running c' = co_running c → co_stopping c' = co_stopping c →
    (co_next c ≤ co_next c')%nat → within steady c c').
  { intros c c' Hu ? ? ? ? ? ?. split; try done; unfold network_ids, nets_ok; by rewrite Hu. }
  split; intros; try (apply Hrefl; try done; cbn; lia).
  - destruct H, H0. split; try congruence; [lia|auto].
  - unfold HandleEvent. destruct (_ <? _)%nat; by apply Hrefl.
  - split; try done; [by apply set_network_ids|]. intros tidy Hok. apply set_network_ok; auto.
Qed.

Section inv.
Context {tidy : Prop}.
Notation engine_inv := (engine_inv tidy).

Lemma steady_inv c c' : within steady c c' → engine_inv c → engine_inv c'.
Proof.
  intros [Hc Hk Hr Hn Hs Hi Hx Ho] [Hids Hok Hconns Hfresh Hlive Hheld Hidle Hstop].
  split; rewrite ?Hc, ?Hk, ?Hr, ?Hn, ?Hs, ?Hi; auto. intros r x Hx'. specialize (Hfresh r x Hx'). lia.
Qed.

(** ** Connections and their goroutines *)

Lemma put_inv id n c : net_id n = id → net_ok tidy n → engine_inv c → engine_inv (put_network id n c).
Proof.
  intros Hid Hn [Hids Hok Hconns Hfresh Hlive Hheld Hidle Hstop].
  assert (Hl : network_ids (put_network id n c) = network_ids c) by by apply set_network_ids.
  split; rewrite ?Hl; try done. by apply set_network_ok.
Qed.

Lemma start_inv id cn c : co_running c = true → co_cancels c !! id = None → co_conns c !! id = Some cn →
  engine_inv c → engine_inv (startConnLocked id cn c).
Proof.
  intros Hrun Hnone Hconn [Hids Hok Hconns Hfresh Hlive Hheld Hidle Hstop].
  assert (Hnew : co_runs c !! co_next c = None).
  { destruct (co_runs c !! co_next c) as [x|] eqn:E; [|done]. apply Hfresh in E. lia. }
  split; try done; cbn.
  - intros r x [[<- _]|[_ Hx]]%lookup_insert_Some; [lia|]. apply Hfresh in Hx. lia.
  - intros r x [[<- <-]|[Hne Hx]]%lookup_insert_Some Hc; [cbn; by rewrite lookup_insert_eq|].
    destruct (Hlive r x Hx Hc) as [Ha Hb]. rewrite lookup_insert_ne; [done|]. intros Heq; rewrite <- Heq in *; congruence.
  - intros Hs id' r. destruct (decide (id = id')) as [<-|Hne].
    + rewrite lookup_insert_eq. intros [= <-]. eexists. by rewrite lookup_insert_eq.
    + rewrite lookup_insert_ne by done. intros Hr. destruct (Hheld Hs id' r Hr) as (x & Hx & Hid & Hc).
      exists x. rewrite lookup_insert_ne by congruence. done.
  - congruence.
Qed.

(** Cancelling leaves the network without a goroutine that counts. *)
Lemma cancel_inv id c : engine_inv c → engine_inv (cancel_network id c) ∧ co_cancels (cancel_network id c) !! id = None.
Proof.
  intros [Hids Hok Hconns Hfresh Hlive Hheld Hidle Hstop]. unfold cancel_network.
  destruct (co_cancels c !! id) as [r0|] eqn:Hr0; [|by split; [split|]].
  split; [|apply lookup_delete_eq].
  assert (Hal : ∀ r x, co_runs (cancel_run r0 c) !! r = Some x → ∃ y, co_runs c !! r = Some y ∧
    r_network x = r_network y ∧ r_conn x = r_conn y ∧
    (r_cancelled x = false → r_cancelled y = false ∧ r ≠ r0) ∧ (r_cancelled y = true → r_cancelled x = true)).
  { intros r x. cbn. rewrite lookup_alter_Some. intros [(<- & y & Hy & ->)|(Hne & Hx)]; eexists; by split_and!. }
  split; try done.
  - intros r x (y & Hy & _)%Hal. by eapply Hfresh.
  - intros r x (y & Hy & -> & -> & Hc & _)%Hal Hx. destruct (Hc Hx) as [Hyc Hne]. cbn.
    destruct (Hlive r y Hy Hyc) as [Ha Hb]. rewrite lookup_delete_ne; [done|]. intros Heq. rewrite <- Heq in Ha. congruence.
  - intros Hs id' r. cbn. intros [Hne Hr]%lookup_delete_Some. destruct (Hheld Hs id' r Hr) as (x & Hx & Hid & Hc).
    exists x. split_and!; [|done|done]. rewrite lookup_alter_ne; [done|]. intros <-.
    destruct (Hheld Hs id r0 Hr0) as (y & Hy & Hid' & _). congruence.
  - intros Hn r x (y & Hy & _ & _ & _ & Hc)%Hal. apply Hc. by eapply Hidle.
Qed.

Lemma cancel_same id c : co_conns (cancel_network id c) = co_conns c ∧ co_user (cancel_network id c) = co_user c ∧
  co_running (cancel_network id c) = co_running c ∧ co_next (cancel_network id c) = co_next c.
Proof. unfold cancel_network. by destruct (co_cancels c !! id). Qed.

(** A network without a goroutine may be given another connection. *)
Lemma set_conn_inv id cn c : co_cancels c !! id = None → id ∈ network_ids c →
  engine_inv c → engine_inv (c <| co_conns ::= <[id := cn]> |>).
Proof.
  intros Hnone Hid [Hids Hok Hconns Hfresh Hlive Hheld Hidle Hstop]. split; try done.
  - intros id'. cbn. destruct (decide (id = id')) as [<-|Hne]; [done|]. rewrite lookup_insert_ne by done. apply Hconns.
  - intros r x Hx Hc. destruct (Hlive r x Hx Hc) as [Ha Hb]. cbn. split; [done|].
    rewrite lookup_insert_ne; [done|]. intros Heq; rewrite <- Heq in *; congruence.
Qed.

(** ... which starts one if the engine runs. *)
Lemma connect_inv id cn c : co_cancels c !! id = None → id ∈ network_ids c → engine_inv c →
  let c := c <| co_conns ::= <[id := cn]> |> in
  engine_inv (if co_running c then startConnLocked id cn c else c).
Proof.
  intros Hnone Hid Hinv c'. pose proof (set_conn_inv id cn c Hnone Hid Hinv) as Hinv'. fold c' in Hinv'.
  destruct (co_running c') eqn:Hrun; [|done]. apply start_inv; try done. unfold c'. cbn. apply lookup_insert_eq.
Qed.

Lemma drop_conn_inv id c : co_cancels c !! id = None → engine_inv c → engine_inv (c <| co_conns ::= delete id |>).
Proof.
  intros Hnone [Hids Hok Hconns Hfresh Hlive Hheld Hidle Hstop]. split; try done.
  - intros id' [cn Hc]. cbn in Hc. apply lookup_delete_Some in Hc as [_ Hc]. by apply Hconns.
  - intros r x Hx Hc. destruct (Hlive r x Hx Hc) as [Ha Hb]. cbn. split; [done|].
    rewrite lookup_delete_ne; [done|]. intros Heq; rewrite <- Heq in *; congruence.
Qed.

(** ** Networks coming and going *)

Lemma find_network_elem c id n : find_network c id = Some n → id ∈ network_ids c.
Proof. intros (<- & Hn & _)%find_network_spec. by apply list_elem_of_fmap_2. Qed.

Lemma find_network_none c id : find_network c id = None → id ∉ network_ids c.
Proof.
  unfold find_network, user_network. rewrite fmap_None. intros Hn%list_find_None (n & -> & Hin)%list_elem_of_fmap.
  rewrite Forall_forall in Hn. by destruct (Hn n Hin).
Qed.

Lemma fresh_network_ok p : (tidy → autojoin_wf p) → net_ok tidy (fresh_network p).
Proof. intros Hp. split_and!; [by repeat split; constructor|done|apply map_Forall_empty|constructor]. Qed.

(** No goroutine for a network that does not exist. *)
Lemma no_network_no_run c id : engine_inv c → co_stopping c = false → id ∉ network_ids c → co_cancels c !! id = None.
Proof.
  intros [Hids Hok Hconns Hfresh Hlive Hheld Hidle Hstop] Hs Hid. destruct (co_cancels c !! id) as [r|] eqn:Hr; [|done].
  destruct (Hheld Hs id r Hr) as (x & Hx & <- & Hc). destruct (Hlive r x Hx Hc) as [_ Hcn].
  destruct Hid. apply Hconns. by rewrite Hcn.
Qed.

Lemma append_inv p c : np_id p ∉ network_ids c → (tidy → autojoin_wf p) → engine_inv c →
  engine_inv (c <| co_user ::= λ u : user, u <| u_networks ::= λ l, l ++ [fresh_network p] |> |>).
Proof.
  intros Hnew Hp [Hids Hok Hconns Hfresh Hlive Hheld Hidle Hstop].
  assert (Hi : network_ids (c <| co_user ::= λ u : user, u <| u_networks ::= λ l, l ++ [fresh_network p] |> |>) =
    network_ids c ++ [np_id p]) by (unfold network_ids; cbn; by rewrite fmap_app).
  split; try done; rewrite ?Hi.
  - apply NoDup_app. split_and!; [done| |apply NoDup_singleton]. intros x Hx ->%list_elem_of_singleton. done.
  - unfold nets_ok. cbn. apply Forall_app. split; [done|]. by apply Forall_singleton, fresh_network_ok.
  - intros id Hid. apply elem_of_app. left. by apply Hconns.
Qed.

(** Networks added one after the other before the engine runs. *)
Definition add_all (nets : list (network_params * conn)) (c : core) : core :=
  foldl (λ c pc, AddNetwork pc.1 pc.2 c) c nets.

Lemma add_inv p cn c : np_id p ∉ network_ids c → (tidy → autojoin_wf p) → co_cancels c = ∅ → engine_inv c →
  engine_inv (AddNetwork p cn c) ∧ network_ids (AddNetwork p cn c) = network_ids c ++ [np_id p].
Proof.
  intros Hnot Hp Hk Hinv. pose proof (append_inv p c Hnot Hp Hinv) as Hinv1. set (c1 := update co_user _ c) in Hinv1.
  assert (Hi1 : network_ids c1 = network_ids c ++ [np_id p]) by (unfold network_ids, c1; cbn; by rewrite fmap_app).
  split; [|exact Hi1]. apply (set_conn_inv (np_id p) cn c1); [unfold c1; cbn; by rewrite Hk| |done].
  rewrite Hi1. apply elem_of_app. right. by apply list_elem_of_singleton.
Qed.

Lemma add_all_inv nets c :
  NoDup (network_ids c ++ (np_id ∘ fst <$> nets)) → (tidy → Forall (λ pc, autojoin_wf pc.1) nets) →
  co_cancels c = ∅ → engine_inv c →
  engine_inv (add_all nets c) ∧ network_ids (add_all nets c) = network_ids c ++ (np_id ∘ fst <$> nets) ∧
  co_cancels (add_all nets c) = ∅ ∧ co_running (add_all nets c) = co_running c.
Proof.
  revert c. induction nets as [|[p cn] nets IH]; intros c Hnd Hwf Hk Hinv; [by rewrite app_nil_r|].
  assert (Hp : tidy → autojoin_wf p) by (intros Ht; by destruct (proj1 (Forall_cons _ _ _) (Hwf Ht))).
  assert (Hwf' : tidy → Forall (λ pc, autojoin_wf pc.1) nets) by (intros Ht; by destruct (proj1 (Forall_cons _ _ _) (Hwf Ht))).
  cbn [fmap list_fmap fst] in Hnd |- *.
  assert (Hnot : np_id p ∉ network_ids c).
  { intros Hin. apply NoDup_app in Hnd as (_ & Hnew & _). apply (Hnew _ Hin). by left. }
  destruct (add_inv p cn c Hnot Hp Hk Hinv) as [Hinv1 Hi1].
  destruct (IH (AddNetwork p cn c)) as (Hinv2 & Hi2 & Hk2 & Hr2); [|done|done|done|].
  - rewrite Hi1, <- app_assoc. done.
  - rewrite Hi1, <- app_assoc in Hi2. done.
Qed.

Lemma new_core_inv u aliases hl : u_networks (default (User "default" "default" []) u) = [] → engine_inv (new_core u aliases hl).
Proof. intros Hu. split; try done; unfold network_ids, nets_ok; cbn; rewrite ?Hu; try constructor. by intros id [cn Hc]. Qed.

Lemma remove_network_inv id c : co_conns c !! id = None → engine_inv c →
  engine_inv (c <| co_user ::= λ u : user, u <| u_networks ::= remove_first (λ n, String.eqb (net_id n) id) |> |>).
Proof.
  intros Hnone [Hids Hok Hconns Hfresh Hlive Hheld Hidle Hstop]. set (c' := update _ _ _).
  assert (Hl : u_networks (co_user c') = filter (λ n, net_id n ≠ id) (u_networks (co_user c)))
    by by apply (remove_first_filter net_id).
  split; try done; unfold network_ids, nets_ok; rewrite Hl.
  - eapply sublist_NoDup; [exact Hids|]. apply fmap_sublist, sublist_filter.
  - apply Forall_forall. intros n [_ Hn]%list_elem_of_filter. unfold nets_ok in Hok. rewrite Forall_forall in Hok. auto.
  - intros id' Hid'. assert (Hne : id' ≠ id) by (intros ->; cbn in Hid'; rewrite Hnone in Hid'; by destruct Hid').
    apply Hconns in Hid' as (n & -> & Hn)%list_elem_of_fmap. apply list_elem_of_fmap_2. by apply list_elem_of_filter.
Qed.

Lemma filter_ext_in {A} (P Q : A → Prop) `{!∀ x, Decision (P x), !∀ x, Decision (Q x)} (l : list A) :
  (∀ x, x ∈ l → P x ↔ Q x) → filter P l = filter Q l.
Proof.
  induction l as [|x l IH]; intros HPQ; [done|]. rewrite !filter_cons. assert (HI : filter P l = filter Q l).
  { apply IH. intros y Hy. apply HPQ. by constructor. }
  assert (P x ↔ Q x) by (apply HPQ; constructor). rewrite HI. repeat case_decide; naive_solver.
Qed.

(** A reordering lists the same networks. *)
Lemma pick_networks_perm l seen ids : NoDup (net_id <$> l) →
  pick_networks l seen ids ≡ₚ filter (λ n, has_str (net_id n) seen = false) l.
Proof.
  intros Hnd. revert seen. induction ids as [|id ids IH]; intros seen; [done|]. cbn [pick_networks].
  destruct (has_str id seen) eqn:Hs; [apply IH|]. destruct (list_find _ l) as [[i n]|] eqn:Hf; [|apply IH].
  apply list_find_Some in Hf as (Hi & Hid & _). rewrite IH. cbv beta in Hid. clear IH.
  assert (Hcons : ∀ m, has_str (net_id m) (id :: seen) = String.eqb (net_id m) id || has_str (net_id m) seen) by done.
  revert i Hi Hnd. induction l as [|m l IHl]; intros i Hi Hnd; [done|].
  apply NoDup_cons in Hnd as [Hm Hnd]. rewrite !filter_cons, Hcons. destruct i as [|i].
  - injection Hi as ->. rewrite Hid, String.eqb_refl, Hs. cbn [orb]. rewrite decide_False, decide_True by done.
    constructor. apply reflexive_eq, filter_ext_in. intros x Hx. rewrite Hcons.
    rewrite (proj2 (String.eqb_neq _ _)); [done|]. intros Hx'. destruct Hm. rewrite Hid, <- Hx'.
    by apply list_elem_of_fmap_2.
  - assert (Hne : net_id m ≠ id).
    { intros Hm'. destruct Hm. rewrite Hm', <- Hid. apply list_elem_of_fmap_2. by eapply list_elem_of_lookup_2. }
    rewrite (proj2 (String.eqb_neq _ _)) by done. cbn [orb]. destruct (decide _).
    + rewrite <- (IHl i) by done. apply perm_swap.
    + by apply (IHl i).
Qed.

Section steps.
Context `{UnicodeTables, Regexp, TimeParse} (E : cenv).

Lemma frame_inv c c' : (∀ R, JoinFrame R → within R c c') → engine_inv c → engine_inv c'.
Proof. intros Hf. apply steady_inv. exact (Hf steady raw_join). Qed.

Lemma emit_inv e c : engine_inv c → engine_inv (emit e c).
Proof. by apply steady_inv. Qed.

Lemma set_conn_start_inv id cn c c' : c' = c <| co_conns ::= <[id := cn]> |> →
  co_cancels c !! id = None → id ∈ network_ids c → engine_inv c →
  engine_inv (if co_running c' then startConnLocked id cn c' else c').
Proof. intros ->. apply connect_inv. Qed.

Lemma add_live_inv p c : (tidy → autojoin_wf p) → engine_inv c → engine_inv (AddNetworkLive E p c).1.
Proof.
  intros Hp Hinv. unfold AddNetworkLive. destruct (_ || _); [done|]. destruct (ce_connector E) as [dial|]; [|done].
  destruct (find_network c (np_id p)) eqn:Hf; [done|]. destruct (dial p) as [cn|err]; [|done]. cbv zeta. cbn [fst].
  apply find_network_none in Hf. eapply frame_inv; [intros; apply persist_notify_frame|].
  set (c1 := c <| co_user ::= λ u : user, u <| u_networks ::= λ l, l ++ [fresh_network p] |> |>).
  assert (Hinv1 : engine_inv c1) by by (apply append_inv).
  assert (Hin : np_id p ∈ network_ids c1).
  { unfold network_ids, c1. cbn. rewrite fmap_app. apply elem_of_app. right. apply list_elem_of_singleton. done. }
  destruct (co_stopping c) eqn:Hs.
  - pose proof (ei_stop c Hinv Hs) as Hr. change (co_running (add_network p cn c)) with (co_running c). rewrite Hr.
    destruct Hinv1 as [Hids Hok Hconns Hfresh Hlive Hheld Hidle Hstop]. split; try done.
    + intros id'. cbn. destruct (decide (np_id p = id')) as [<-|Hne]; [done|]. rewrite lookup_insert_ne by done. apply Hconns.
    + intros r x Hx Hc. rewrite (Hidle Hr r x Hx) in Hc. done.
  - apply (connect_inv (np_id p) cn c1); [|done|done]. exact (no_network_no_run c _ Hinv Hs Hf).
Qed.

Lemma remove_inv id c : engine_inv c → engine_inv (RemoveNetwork E id c).1.
Proof.
  intros Hinv. unfold RemoveNetwork. destruct (find_network c id) as [n|]; [|done]. cbv zeta. cbn [fst].
  destruct (cancel_inv id c Hinv) as [Hinv1 Hnone]. set (c1 := cancel_network id c) in *.
  pose proof (drop_conn_inv id c1 Hnone Hinv1) as Hinv2. set (c2 := c1 <| co_conns ::= delete id |>) in *.
  set (c3 := resetJoinGateLocked id _).
  assert (H3 : within steady c2 c3).
  { unfold c3. frame. }
  assert (Hc3 : co_conns c3 !! id = None).
  { destruct H3 as [-> _ _ _ _ _ _ _]. apply lookup_delete_eq. }
  pose proof (remove_network_inv id c3 Hc3 (steady_inv _ _ H3 Hinv2)) as Hinv4. set (c4 := update co_user _ c3) in *.
  apply emit_inv. assert (Hinv5 : engine_inv (match co_conns c1 !! id with Some cn => emit (CClose cn) c4 | None => c4 end)).
  { destruct (co_conns c1 !! id); [by apply emit_inv|done]. }
  destruct (ce_store E); [by apply emit_inv|done].
Qed.

Lemma set_connected_inv id connect c : engine_inv c → engine_inv (SetConnected E id connect c).1.
Proof.
  intros Hinv. unfold SetConnected. destruct (find_network c id) as [n|] eqn:Hn; [|done].
  pose proof (find_network_elem _ _ _ Hn) as Hin. apply find_network_spec in Hn as (Hid & _ & Hnok).
  specialize (Hnok _ (ei_ok c Hinv)). destruct connect.
  - destruct (co_cancels c !! id) eqn:Hc; [done|]. destruct (ce_connector E) as [dial|]; [|done].
    destruct (dial (net_params n)) as [cn|]; [|done]. cbv zeta. cbn [fst].
    pose proof (connect_inv id cn c Hc Hin Hinv) as Hinv1. cbv zeta in Hinv1.
    destruct (co_conns c !! id) as [o|]; [|done]. destruct (bool_decide (o = cn)); [done|by apply emit_inv].
  - cbv zeta. cbn [fst]. eapply frame_inv; [intros; apply notify_frame|].
    destruct (cancel_inv id c Hinv) as [Hinv1 _]. destruct (cancel_same id c) as (-> & _).
    assert (Hinv2 : engine_inv (put_network id (n <| net_state := StateDisconnected |>) (cancel_network id c))) by by apply put_inv.
    destruct (co_conns c !! id); [by apply emit_inv|done].
Qed.

Lemma reconcile_keys_wf keys channels : NoDup (FoldIRC <$> channels) → keys_wf (reconcileKeys keys channels).
Proof.
  intros Hnd.
  assert (Hin : ∀ k, is_Some (reconcileKeys keys channels !! k) → k ∈ channels).
  { unfold reconcileKeys. apply (map_fold_weak_ind (λ out _, ∀ k, is_Some (out !! k) → k ∈ channels)).
    - intros k [v Hv]. by rewrite lookup_empty in Hv.
    - intros i x m out _ IH k. destruct (list_find _ channels) as [[j ch]|] eqn:Hf; [|apply IH].
      intros [v [[<- _]|[_ Hv]]%lookup_insert_Some]; [|by apply IH].
      apply list_find_Some in Hf as (Hj & _). by eapply list_elem_of_lookup_2. }
  intros k1 k2 K1%Hin K2%Hin Hf.
  apply list_elem_of_lookup in K1 as [i Hi]. apply list_elem_of_lookup in K2 as [j Hj].
  assert (i = j) as <-; [|congruence].
  apply (NoDup_lookup (FoldIRC <$> channels) i j (FoldIRC k1)); [done|by rewrite list_lookup_fmap, Hi|].
  by rewrite list_lookup_fmap, Hj, Hf.
Qed.

Lemma params_name_ok n p name nick : net_ok tidy n → (tidy → autojoin_wf p) →
  net_ok tidy (n <| net_params := p |> <| net_name := name |> <| net_nick := nick |>).
Proof. intros (Hwf & _ & Hm & Hb) Hp. by split_and!. Qed.

Lemma update_inv p c : (tidy → NoDup (FoldIRC <$> np_channels p)) → engine_inv c → engine_inv (UpdateNetwork E p c).1.
Proof.
  intros Hp Hinv. unfold UpdateNetwork. cbv zeta. destruct (find_network c (np_id p)) as [n|] eqn:Hn; [|done].
  pose proof (find_network_elem _ _ _ Hn) as Hin. apply find_network_spec in Hn as (Hid & _ & Hnok).
  specialize (Hnok tidy (ei_ok c Hinv)). set (p' := p <| np_channel_keys := _ |>).
  assert (Hp' : tidy → autojoin_wf p') by (intros Ht; split; [by apply reconcile_keys_wf, Hp|by apply Hp]).
  destruct (needsReconnect _ _).
  - destruct (ce_connector E) as [dial|]; [|done]. destruct (dial p') as [cn|]; [|done]. cbn [fst].
    eapply frame_inv; [intros; apply persist_notify_frame|].
    destruct (cancel_inv (np_id p) c Hinv) as [Hinv1 Hnone]. destruct (cancel_same (np_id p) c) as (Hc & Hu & _).
    set (c1 := put_network _ _ _). assert (Hinv2 : engine_inv c1) by by apply put_inv; [|apply params_name_ok|].
    assert (Hin1 : np_id p ∈ network_ids c1).
    { unfold network_ids, c1. cbn. rewrite set_network_ids by done. by rewrite Hu. }
    pose proof (connect_inv (np_id p) cn c1 Hnone Hin1 Hinv2) as Hinv3. cbv zeta in Hinv3.
    destruct (co_conns (cancel_network (np_id p) c) !! np_id p); [by apply emit_inv|done].
  - destruct (diffChannels _ _) as [added removed]. cbn [fst]. eapply frame_inv; [intros; apply persist_notify_frame|].
    set (c1 := put_network _ _ _). assert (Hinv1 : engine_inv c1) by (apply put_inv; [done|by apply (params_name_ok n p' (np_name p') (net_nick n))|done]).
    destruct (co_conns c1 !! np_id p) as [cn|]; [|done]. destruct (bool_decide _); [|done].
    eapply frame_inv; [|exact Hinv1]. intros R HR.
    do 2 (eapply fr_trans; [|apply (fr_foldl (R := R)); intros; apply send_frame]). frame.
Qed.

Lemma bound_params_wf network b p : autojoin_wf (bound_params network b p).
Proof.
  unfold bound_params. destruct (split_login _) as [user client]. split; [|constructor].
  intros k1 k2 [v Hv]. cbn in Hv. by rewrite lookup_empty in Hv.
Qed.

Lemma bouncer_open_inv network id c : engine_inv c → engine_inv (BouncerOpen E network id c).1.
Proof.
  intros Hinv. unfold BouncerOpen. destruct (bouncerNetwork network id c) as [b|]; [|done].
  destruct (NetworkConfig c network) as [p|]; [|done]. destruct (_ || _); [done|]. cbv zeta.
  pose proof (add_live_inv _ c (λ _, bound_params_wf network b p) Hinv) as Ha.
  by destruct (AddNetworkLive E _ c) as [c1 [err|]].
Qed.

Lemma reorder_inv ids c : engine_inv c → engine_inv (ReorderNetworks E ids c).
Proof.
  intros Hinv. pose proof Hinv as [Hids Hok Hconns Hfresh Hlive Hheld Hidle Hstop].
  unfold ReorderNetworks. cbv zeta. set (l := imap _ _). set (c1 := update co_user _ c).
  assert (Hperm : pick_networks (u_networks (co_user c)) [] ids ≡ₚ u_networks (co_user c)).
  { rewrite pick_networks_perm by done. apply reflexive_eq. rewrite (filter_ext_in _ (λ _, True)) by done.
    clear. induction (u_networks (co_user c)) as [|n l IH]; [done|]. rewrite filter_cons, decide_True by done. by rewrite IH. }
  assert (Hl : network_ids c1 ≡ₚ network_ids c).
  { unfold network_ids. rewrite <- Hperm. apply reflexive_eq. unfold c1, l. cbn. rewrite fmap_imap.
    apply list_eq. intros i. rewrite list_lookup_imap, list_lookup_fmap. by destruct (_ !! i). }
  assert (Hinv1 : engine_inv c1).
  { split; try done; [by rewrite Hl| |intros id Hid; rewrite Hl; by apply Hconns].
    unfold nets_ok, c1, l. cbn. apply Forall_lookup. intros i n. rewrite list_lookup_imap, fmap_Some.
    intros (m & Hm & ->). apply list_elem_of_lookup_2 in Hm. rewrite Hperm in Hm.
    assert (Hmok : net_ok tidy m) by (unfold nets_ok in Hok; rewrite Forall_forall in Hok; auto). by apply same_params_ok. }
  apply emit_inv. destruct (ce_store E); [|done]. by apply (steady_inv c1).
Qed.

(** ** Goroutines *)

(** A goroutine that records another phase, or, cancelled, ends. *)
Lemma set_run_inv r x y c : co_runs c !! r = Some x →
  r_network y = r_network x → r_conn y = r_conn x → r_cancelled y = r_cancelled x →
  engine_inv c → engine_inv (set_run r y c).
Proof.
  intros Hx Hn Hc Hca [Hids Hok Hconns Hfresh Hlive Hheld Hidle Hstop]. split; try done; cbn.
  - intros r' z [[<- _]|[_ Hz]]%lookup_insert_Some; by eapply Hfresh.
  - intros r' z [[<- <-]|[_ Hz]]%lookup_insert_Some; [rewrite Hn, Hc, Hca|]; by apply Hlive.
  - intros Hs id r' Hr'. destruct (Hheld Hs id r' Hr') as (z & Hz & Hid & Hzc).
    destruct (decide (r = r')) as [<-|Hne]; [|exists z; by rewrite lookup_insert_ne].
    exists y. rewrite lookup_insert_eq. split_and!; congruence.
  - intros Hr r' z [[<- <-]|[_ Hz]]%lookup_insert_Some; [rewrite Hca|]; by eapply Hidle.
Qed.

Lemma end_run_inv r x c : co_runs c !! r = Some x → r_cancelled x = true → engine_inv c → engine_inv (end_run r c).
Proof.
  intros Hx Hca [Hids Hok Hconns Hfresh Hlive Hheld Hidle Hstop]. split; try done; cbn.
  - intros r' z [_ Hz]%lookup_delete_Some. by eapply Hfresh.
  - intros r' z [_ Hz]%lookup_delete_Some. by apply Hlive.
  - intros Hs id r' Hr'. destruct (Hheld Hs id r' Hr') as (z & Hz & Hid & Hzc). exists z.
    rewrite lookup_delete_ne by congruence. done.
  - intros Hr r' z [_ Hz]%lookup_delete_Some. by eapply Hidle.
Qed.

Lemma event_inv ev c : engine_inv c → engine_inv (HandleEvent ev c).
Proof. apply steady_inv, fr_event. Qed.

Lemma event_runs ev c : co_runs (HandleEvent ev c) = co_runs c.
Proof. unfold HandleEvent. by case_match. Qed.

Lemma run_connect_inv r c : engine_inv c → engine_inv (run_connect E r c).
Proof.
  intros Hinv. unfold run_connect. destruct (co_runs c !! r) as [x|] eqn:Hx; [|done].
  destruct (r_phase x); try done. destruct (r_cancelled x) eqn:Hc; [by eapply end_run_inv|].
  destruct (room 1 c); [|done]. eapply set_run_inv; [by rewrite event_runs|done..|by apply event_inv].
Qed.

Lemma run_wake_inv r c : engine_inv c → engine_inv (run_wake r c).
Proof.
  intros Hinv. unfold run_wake. destruct (co_runs c !! r) as [x|] eqn:Hx; [|done].
  destruct (r_phase x); try done. destruct (r_cancelled x) eqn:Hc; [by eapply end_run_inv|by eapply set_run_inv].
Qed.

(** A goroutine that gives up lets go of its slot first. *)
Lemma release_own_inv r x c : co_runs c !! r = Some x → r_cancelled x = false → engine_inv c →
  engine_inv (releaseConn (r_network x) (r_conn x) c) ∧
  ∃ y, co_runs (releaseConn (r_network x) (r_conn x) c) !! r = Some y ∧ r_cancelled y = true.
Proof.
  intros Hx Hc Hinv. destruct (ei_live c Hinv r x Hx Hc) as [Hk Hcn]. unfold releaseConn.
  rewrite bool_decide_true by done. split; [by apply cancel_inv|].
  unfold cancel_network. rewrite Hk. cbn. rewrite lookup_alter_eq, Hx. by eexists.
Qed.

Lemma run_returned_inv fmt r res c : engine_inv c → engine_inv (run_returned E fmt r res c).
Proof.
  intros Hinv. unfold run_returned. destruct (co_runs c !! r) as [x|] eqn:Hx; [|done].
  destruct (r_phase x); try done. cbv zeta. destruct (r_cancelled x) eqn:Hc; [by eapply end_run_inv|].
  destruct (negb (room 2 c)); [done|]. destruct res.
  - destruct (reconnectDelay _ _). by eapply set_run_inv.
  - destruct (reconnectDelay _ _). eapply set_run_inv; [by rewrite event_runs|done..|by apply event_inv].
  - destruct (release_own_inv r x c Hx Hc Hinv) as (Hinv1 & y & Hy & Hyc).
    eapply end_run_inv; [by rewrite !event_runs|done|]. by do 2 apply event_inv.
Qed.

(** ** Start and shutdown *)

Lemma start_engine_inv c : engine_inv c → engine_inv (start c).
Proof.
  intros Hinv. unfold start. destruct (co_running c) eqn:Hr; [done|]. destruct (co_stopping c) eqn:Hs; [done|]. cbn [orb].
  pose proof Hinv as [Hids Hok Hconns Hfresh Hlive Hheld Hidle Hstop].
  assert (Hnone : ∀ id, co_cancels c !! id = None).
  { intros id. destruct (co_cancels c !! id) as [r|] eqn:Hk; [|done].
    destruct (Hheld Hs id r Hk) as (x & Hx & _ & Hc). by rewrite (Hidle Hr r x Hx) in Hc. }
  set (c0 := c <| co_running := true |>).
  assert (Hinv0 : engine_inv c0) by (split; try done; cbn; congruence).
  enough (Hall : co_conns c ⊆ co_conns c → let c' := map_fold (λ id cn c, startConnLocked id cn c) c0 (co_conns c) in
    engine_inv c' ∧ co_conns c' = co_conns c ∧ co_running c' = true ∧
    ∀ id, co_conns c !! id = None → co_cancels c' !! id = None) by by apply Hall.
  apply (map_fold_weak_ind (λ c' m, m ⊆ co_conns c → engine_inv c' ∧ co_conns c' = co_conns c ∧ co_running c' = true ∧
    ∀ id, m !! id = None → co_cancels c' !! id = None)); [by intros _; split_and!|].
  intros id cn m c' Hm IH Hsub.
  assert (Hcn : co_conns c !! id = Some cn) by (eapply lookup_weaken; [apply lookup_insert_eq|done]).
  destruct IH as (Hinv' & Hcn' & Hr' & Hca').
  { etrans; [|exact Hsub]. by apply insert_subseteq. }
  split_and!; [|done|done|].
  - apply start_inv; [done|by apply Hca'|by rewrite Hcn'|done].
  - intros id' Hid'. apply lookup_insert_None in Hid' as [Hid' Hne]. cbn. rewrite lookup_insert_ne by done. by apply Hca'.
Qed.

Lemma shutdown_inv c : engine_inv c → engine_inv (shutdown_core E c).
Proof.
  intros [Hids Hok Hconns Hfresh Hlive Hheld Hidle Hstop]. unfold shutdown_core. cbv zeta.
  set (c1 := update co_running _ _).
  assert (Hruns : ∀ r x, co_runs c1 !! r = Some x → ∃ y, co_runs c !! r = Some y ∧ r_cancelled x = true).
  { intros r x. cbn. rewrite lookup_fmap, fmap_Some. intros (y & Hy & ->). by eexists. }
  assert (Hinv1 : engine_inv c1).
  { split; try done.
    - intros r x (y & Hy & _)%Hruns. by eapply Hfresh.
    - intros r x (y & _ & Hc)%Hruns Hc'. congruence.
    - intros _ r x (y & _ & Hc)%Hruns. done. }
  apply (steady_inv c1); [|done].
  apply (map_fold_weak_ind (λ c' _, within steady c1 c')).
  - apply (raw_drop_gates c1).
  - intros i cn m c' _ IH. eapply fr_trans; [exact IH|]. apply fr_emit. by destruct (ce_detacher E cn).
Qed.

(** ** Commands, the loop, every step *)

Lemma manage_inv name ev c c' : manage_command E name ev c = Some c' → engine_inv c → engine_inv c'.
Proof.
  intros Hm Hinv. unfold manage_command in Hm. cbv zeta in Hm.
  assert (Hconnect : ∀ b c' err, SetConnected E (evt_network ev) b c = (c', err) → engine_inv c').
  { intros b c1 err Hs. pose proof (set_connected_inv (evt_network ev) b c Hinv) as Hc. by rewrite Hs in Hc. }
  assert (Hsay : ∀ text c, engine_inv c → engine_inv (say E (evt_network ev) (evt_buffer ev) text c)).
  { intros text c1. apply frame_inv. intros. apply say_frame. }
  assert (Hspawn : ∀ t c, engine_inv c → engine_inv (spawn t c)).
  { intros t c1. apply frame_inv. intros. apply spawn_frame. }
  repeat case_match; simplify_eq; eauto.
Qed.

Lemma builtin_inv ev c : engine_inv c → engine_inv (runBuiltinCommand E ev c).
Proof.
  intros Hinv. unfold runBuiltinCommand. cbv zeta.
  destruct (manage_command E _ ev c) as [c'|] eqn:Hm; [by eapply manage_inv|].
  destruct (connFor c (evt_network ev)); [|done]. eapply frame_inv; [|exact Hinv]. intros. apply conn_command_frame.
Qed.

Lemma dispatch_inv ev c : engine_inv c → engine_inv (dispatch E ev c).1.1.
Proof. apply frame_inv. intros. apply dispatch_frame. Qed.

Lemma handle_inv ev c : engine_inv c → engine_inv (handle E ev c).
Proof.
  intros Hinv. unfold handle. destruct (_ && _); [done|]. pose proof (dispatch_inv ev c Hinv) as Hd.
  destruct (dispatch E ev c) as [[c1 out] keep]. cbn [fst] in Hd.
  assert (Hcommit : ∀ ev c, engine_inv c → engine_inv (commit E ev c)).
  { intros. eapply frame_inv; [intros; apply commit_frame|done]. }
  assert (Hafter : engine_inv (after_commit E ev (commit E ev c1))).
  { eapply frame_inv; [intros; apply after_commit_frame|]. auto. }
  destruct (evt_type ev); try done;
    try (eapply frame_inv; [|exact Hinv]; intros; apply history_target_frame || apply history_batch_frame);
    try destruct keep; try destruct (evt_sync ev); auto using emit_inv, builtin_inv.
Qed.

Lemma flush_inv c : engine_inv c → engine_inv (flushDirty E c).
Proof. apply frame_inv. intros. apply flush_frame. Qed.

Lemma loop_inv late c : engine_inv c → engine_inv (loop_event E late c).
Proof.
  intros Hinv. unfold loop_event. destruct (co_events c) as [|ev rest]; [done|]. destruct (co_wedged c); [done|]. cbv zeta.
  assert (Hinv1 : engine_inv (handle E ev (c <| co_events := rest |>))) by (apply handle_inv; by destruct Hinv).
  destruct (_ || late); [by apply flush_inv|done].
Qed.

(** The auto-join list the callers of [AddNetworkLive] and [UpdateNetwork] give
    names no channel twice. *)
Definition tidy_input (i : core_input) : Prop :=
  match i with
  | IAdd p => autojoin_wf p
  | IUpdate p => NoDup (FoldIRC <$> np_channels p)
  | _ => True
  end.

Lemma step_inv fmt i c : (tidy → tidy_input i) → engine_inv c → engine_inv (core_step E fmt i c).
Proof.
  intros Hi Hinv.
  destruct i; cbn [core_step tidy_input] in *;
    auto using loop_inv, run_connect_inv, run_returned_inv, run_wake_inv, start_engine_inv, shutdown_inv, add_live_inv,
      remove_inv, update_inv, reorder_inv, set_connected_inv, bouncer_open_inv;
    try (destruct (room 1 c); [|done]).
  - by apply event_inv.
  - unfold loop_kick. destruct (_ && _); [|done]. apply flush_inv. by destruct Hinv.
  - destruct (co_tasks c !! i); [|done]. destruct (room 1 c); [|done]. eapply frame_inv; [intros; apply run_task_frame|].
    by destruct Hinv.
  - destruct (co_timers c !! t) as [[network cn]|]; [|done]. apply (steady_inv c); [|done]. eapply raw_trans; [|apply raw_tasks]. apply raw_timers.
  - eapply frame_inv; [intros; apply input_frame|done].
  - eapply frame_inv; [intros; apply close_frame|done].
  - eapply frame_inv; [intros; apply reorder_buffers_frame|done].
  - eapply frame_inv; [intros; apply add_monitor_frame|done].
  - eapply frame_inv; [intros; apply remove_monitor_frame|done].
  - eapply frame_inv; [intros; apply mark_read_frame|done].
  - eapply frame_inv; [intros; apply list_channels_frame|done].
  - eapply frame_inv; [intros; apply typing_frame|done].
  - eapply frame_inv; [intros; apply reaction_frame|done].
  - eapply frame_inv; [intros; apply redact_frame|done].
  - eapply frame_inv; [intros; apply bouncer_add_frame|done].
  - eapply frame_inv; [intros; apply bouncer_delete_frame|done].
  - by apply (steady_inv c); [apply raw_highlight|].
  - by apply (steady_inv c); [apply raw_aliases|].
  - eapply frame_inv; [intros; apply run_api_frame|done].
Qed.
End steps.
End inv.
