(* ===== verification/CoreThms.v ===== *)
(** * What the engine promises

    Theorems about runs of [core_step]: the goroutines of the connections
    ([one_run_per_network]), the networks ([engine_well_formed]), the order of events ([barrier_runs]), joins
    ([autojoin_ready], [holds_end]) and input ([input_answered]). *)

From Stdlib Require Import ZArith Lia Ascii Bool.
From stdpp Require Import base tactics list gmap strings sorting.
From S2P Require Import Prelude GoStrings Utf8 EngineLine CoreTypes CoreEvent CoreRoster CoreEngine CoreHistory CoreBouncer CoreCommand CoreFrame CoreInv.

#[local] Open Scope Z_scope.

(** ** Runs *)

(** What a relation that only looks at the queue and the output owes. *)
Record grows (c c' : core) : Prop := {
  gr_events : ∃ new, co_events c' = co_events c ++ new;
  gr_out : ∃ new, co_out c' = co_out c ++ new;
  gr_wedged : co_wedged c' = false → co_wedged c = false;
}.

Lemma grows_same c c' : co_events c' = co_events c → co_out c' = co_out c → co_wedged c' = co_wedged c → grows c c'.
Proof. intros He Ho Hw. split; [exists []; by rewrite app_nil_r|exists []; by rewrite app_nil_r|by rewrite Hw]. Qed.

#[export] Instance grows_raw : RawFrame grows.
Proof.
  split; intros; try (by apply grows_same).
  - destruct H as [[e1 He1] [o1 Ho1] Hw1], H0 as [[e2 He2] [o2 Ho2] Hw2].
    split; [exists (e1 ++ e2); by rewrite He2, He1, app_assoc|exists (o1 ++ o2); by rewrite Ho2, Ho1, app_assoc|auto].
  - split; [exists []; by rewrite app_nil_r|by exists [e]|done].
  - unfold HandleEvent. destruct (_ <? _)%nat.
    + split; [by exists [ev]|exists []; by rewrite app_nil_r|done].
    + split; [exists []; by rewrite app_nil_r|exists []; by rewrite app_nil_r|done].
Qed.

#[export] Instance grows_wide : WideFrame grows.
Proof. split; [apply raw_join|..]; intros; try (by apply grows_same). apply raw_drop_gates. Qed.

Section runs.
Context `{UnicodeTables, Regexp, TimeParse} (fmt : Z → string).

(** The engine through a sequence of steps, the world of each given. *)
Definition core_run (l : list (cenv * core_input)) (c : core) : core :=
  foldl (λ c ei, core_step ei.1 fmt ei.2 c) c l.

Lemma core_run_snoc l E i c : core_run (l ++ [(E, i)]) c = core_step E fmt i (core_run l c).
Proof. unfold core_run. by rewrite foldl_app. Qed.

(** An engine as [New] and [AddNetwork] leave it before [Run]. *)
Definition boot (aliases : gmap string string) (hl : option highlighter) (nets : list (network_params * conn)) : core :=
  add_all nets (new_core None aliases hl).

Lemma boot_inv tidy aliases hl nets :
  NoDup (np_id ∘ fst <$> nets) → (tidy → Forall (λ pc, autojoin_wf pc.1) nets) →
  engine_inv tidy (boot aliases hl nets) ∧ network_ids (boot aliases hl nets) = np_id ∘ fst <$> nets ∧
  co_cancels (boot aliases hl nets) = ∅ ∧ co_running (boot aliases hl nets) = false.
Proof.
  intros Hnd Hwf. by apply (add_all_inv nets (new_core None aliases hl)); [..|apply new_core_inv].
Qed.

Lemma run_inv tidy l c : (tidy → Forall (λ ei, tidy_input ei.2) l) → engine_inv tidy c → engine_inv tidy (core_run l c).
Proof.
  induction l as [|[E i] l IH] using rev_ind; intros Hl Hc; [done|]. rewrite core_run_snoc.
  apply step_inv; [|apply IH; [|done]]; intros Ht; apply Hl, Forall_app in Ht as [Hi Hs]; [|done].
  by rewrite Forall_singleton in Hs.
Qed.

(** Whatever the auto-join lists say. *)
Lemma booted_inv aliases hl nets l : NoDup (np_id ∘ fst <$> nets) → engine_inv False (core_run l (boot aliases hl nets)).
Proof. intros Hn. apply run_inv; [done|]. by apply boot_inv. Qed.

(** The goroutine drives the network's connection and has not been told to
    stop. *)
Definition active (c : core) (id : string) (r : run_id) : Prop :=
  ∃ x, co_runs c !! r = Some x ∧ r_network x = id ∧ r_cancelled x = false.

(** C10: one goroutine per network.  Along every run of the engine, whatever is
    added, edited, removed, connected, disconnected or given up on in between:
    a network has at most one connection goroutine that has not been told to
    stop; it drives the connection the engine sends through; and until
    shutdown it is exactly the one a later edit, disconnect or removal will
    stop, so that a network the engine takes for running has a goroutine and a
    network without one can be connected again.  After shutdown there is
    none. *)
Theorem one_run_per_network aliases hl nets l :
  NoDup (np_id ∘ fst <$> nets) →
  let c := core_run l (boot aliases hl nets) in
  (∀ id r r', active c id r → active c id r' → r = r') ∧
  (∀ id r x, active c id r → co_runs c !! r = Some x → co_conns c !! id = Some (r_conn x)) ∧
  (co_stopping c = false → ∀ id r, co_cancels c !! id = Some r ↔ active c id r) ∧
  (co_stopping c = true → ∀ id r, ¬ active c id r).
Proof.
  intros Hb c. pose proof (booted_inv aliases hl nets l Hb) as Hinv. fold c in Hinv.
  destruct Hinv as [_ _ _ _ Hlive Hheld Hidle Hstop].
  assert (Hslot : ∀ id r, active c id r → co_cancels c !! id = Some r).
  { intros id r (x & Hx & <- & Hc). by apply Hlive. }
  split_and!.
  - intros id r r' Hr%Hslot Hr'%Hslot. congruence.
  - intros id r x (y & Hy & <- & Hc) Hx. assert (y = x) as -> by congruence.
    exact (proj2 (Hlive r x Hx Hc)).
  - intros Hs id r. split; [apply Hheld, Hs|apply Hslot].
  - intros Hs id r (x & Hx & _ & Hc). rewrite (Hidle (Hstop Hs) r x Hx) in Hc. done.
Qed.

(** C11: the engine's networks stay well formed.  Started with networks of
    distinct ids, along every run, whatever is added, edited or received, their
    ids are distinct and each is well formed: its buffers are distinct under case
    folding and found by the index, its members are filed under the fold of
    their nicks, its bouncer networks have distinct ids.  What is sent through a
    connection belongs to a network the user still has.  An auto-join list is
    stored as the user gives it; if those given at the start, on adding and on
    editing name no channel twice under case folding, none ever does. *)
Theorem engine_well_formed aliases hl nets l :
  NoDup (np_id ∘ fst <$> nets) →
  let c := core_run l (boot aliases hl nets) in
  NoDup (network_ids c) ∧ Forall (net_ok False) (u_networks (co_user c)) ∧
  (∀ id cn, connFor c id = Some cn → ∃ n, find_network c id = Some n) ∧
  (Forall (λ pc, autojoin_wf pc.1) nets → Forall (λ ei, tidy_input ei.2) l →
   Forall (λ n, autojoin_wf (net_params n)) (u_networks (co_user c))).
Proof.
  intros Hb c. pose proof (booted_inv aliases hl nets l Hb) as [Hids Hok Hconns _ _ _ _ _].
  split_and!; [done|done| |].
  2: { intros Hn Hl. pose proof (run_inv True l _ (λ _, Hl) (proj1 (boot_inv True aliases hl nets Hb (λ _, Hn)))) as Hinv.
       eapply Forall_impl; [exact (ei_ok _ Hinv)|]. intros n (_ & Ha & _). by apply Ha. }
  intros id cn Hcn. destruct (find_network (core_run l (boot aliases hl nets)) id) as [n|] eqn:Hn; [by exists n|].
  destruct (find_network_none _ _ Hn). apply Hconns. by exists cn.
Qed.

(** ** The queue *)

Lemma step_grows E i c : (∀ late, i ≠ ILoop late) → grows c (core_step E fmt i c).
Proof.
  intros Hi. change (within grows c (core_step E fmt i c)).
  destruct (plain_input i) eqn:Hp; [by apply step_wide|]. destruct i; try done; cbn [core_step].
  - by destruct (Hi late).
  - destruct (co_tasks c !! i) as [t|]; [|apply raw_refl]. destruct (room 1 c); [|apply raw_refl].
    eapply fr_trans; [|apply run_task_frame]. by apply raw_tasks.
  - destruct (co_timers c !! t) as [[network cn]|]; [|apply raw_refl]. eapply fr_trans; [|apply spawn_frame]. by apply raw_timers.
  - apply run_api_frame.
Qed.

Definition round_of (ei : cenv * core_input) : bool := match ei.2 with ILoop _ => true | _ => false end.

(** How many rounds of the loop a run has. *)
Definition rounds (l : list (cenv * core_input)) : nat := length (filter (λ ei, round_of ei = true) l).

Lemma rounds_snoc l ei : rounds (l ++ [ei]) = (rounds l + if round_of ei then 1 else 0)%nat.
Proof.
  unfold rounds. rewrite filter_app, length_app. f_equal. rewrite filter_cons.
  destruct (round_of ei); [by rewrite decide_True|by rewrite decide_False].
Qed.

(** Nothing is unsaid, and a wedged loop stays wedged. *)
Lemma step_mono E i c : (co_wedged (core_step E fmt i c) = false → co_wedged c = false) ∧
  ∃ new, co_out (core_step E fmt i c) = co_out c ++ new.
Proof.
  destruct (round_of (E, i)) eqn:Hi; [|destruct (step_grows E i c) as [_ Ho Hw]; [by intros late ->|by split]].
  destruct i; try done.
  cbn [core_step]. assert (Hnil : ∃ new, co_out c = co_out c ++ new) by (exists []; by rewrite app_nil_r).
  destruct (co_events c) as [|ev rest] eqn:He; [unfold loop_event; by rewrite He|].
  destruct (co_wedged c) eqn:Hw; [unfold loop_event; rewrite He, Hw; by split; [congruence|]|].
  destruct (round_wide (R := grows) E late ev rest c He Hw) as [_ Ho _]. by split.
Qed.

Lemma run_mono l c : (co_wedged (core_run l c) = false → co_wedged c = false) ∧
  ∃ new, co_out (core_run l c) = co_out c ++ new.
Proof.
  induction l as [|[E i] l [IHw [o1 Ho1]]] using rev_ind; [split; [done|exists []; by rewrite app_nil_r]|].
  rewrite core_run_snoc. destruct (step_mono E i (core_run l c)) as [Hw [o2 Ho2]]. split; [auto|].
  exists (o1 ++ o2). by rewrite Ho2, Ho1, app_assoc.
Qed.

(** A run takes the events off the queue in order, one a round, and adds to
    its end. *)
Lemma queue_fifo l c : co_wedged (core_run l c) = false → (rounds l ≤ length (co_events c))%nat →
  ∃ new, co_events (core_run l c) = drop (rounds l) (co_events c) ++ new.
Proof.
  induction l as [|[E i] l IH] using rev_ind; intros Hw Hr; [exists []; by rewrite app_nil_r|].
  rewrite core_run_snoc in Hw |- *. rewrite rounds_snoc in Hr |- *. set (c1 := core_run l c) in *.
  pose proof (proj1 (step_mono E i c1) Hw) as Hw1. destruct IH as [new Hn]; [done|lia|].
  destruct (round_of (E, i)) eqn:Hi.
  - destruct i; try done. cbn [core_step] in *.
    assert (Hne : drop (rounds l) (co_events c) ≠ []).
    { intros Hd%(f_equal length). rewrite length_drop in Hd. cbn in Hd. lia. }
    destruct (drop (rounds l) (co_events c)) as [|ev d] eqn:Hd; [done|]. cbn in Hn.
    destruct (round_wide (R := grows) E late ev (d ++ new) c1 Hn Hw1) as [[e1 He1] _ _].
    exists (new ++ e1). rewrite He1. cbn. rewrite <- drop_drop, Hd, app_assoc. done.
  - rewrite Nat.add_0_r. assert (Hg : grows c1 (core_step E fmt i c1)) by (apply step_grows; by intros late ->).
    destruct Hg as [[e1 He1] _ _]. exists (new ++ e1). by rewrite He1, Hn, app_assoc.
Qed.

Lemma rounds_split l n : (n < rounds l)%nat →
  ∃ l1 E late l2, l = l1 ++ (E, ILoop late) :: l2 ∧ rounds l1 = n.
Proof.
  induction l as [|[E i] l IH] using rev_ind; [unfold rounds; cbn; lia|]. rewrite rounds_snoc. intros Hn.
  destruct (decide (n < rounds l)%nat) as [Hlt|Hge].
  - destruct (IH Hlt) as (l1 & E1 & late & l2 & -> & Hr). exists l1, E1, late, (l2 ++ [(E, i)]). by rewrite <- app_assoc.
  - destruct (round_of (E, i)) eqn:Hi; [|lia]. destruct i; try done. exists l, E, late, []. split; [done|]. lia.
Qed.

(** C14: a barrier runs, and in its turn.  A function handed to [Sync] with [n]
    events queued before it runs in the round of the loop that follows exactly
    [n] rounds, with the barrier at the head of the queue: every event queued
    before it has been handled and none queued after it.  It does so whatever
    else happens in between, as long as the loop is not stuck on its own
    queue. *)
Theorem barrier_runs l c q bar q' fn :
  co_events c = q ++ bar :: q' → evt_type bar = EvSync → evt_sync bar = Some fn →
  co_wedged (core_run l c) = false → (length q < rounds l)%nat →
  OSync fn ∈ co_out (core_run l c) ∧
  ∃ l1 E late l2, l = l1 ++ (E, ILoop late) :: l2 ∧ rounds l1 = length q ∧
    (∃ q'', co_events (core_run l1 c) = bar :: q'') ∧
    ∃ new, co_out (core_run (l1 ++ [(E, ILoop late)]) c) = co_out (core_run l1 c) ++ OSync fn :: new.
Proof.
  intros Hq Hty Hfn Hw Hlt. destruct (rounds_split l (length q) Hlt) as (l1 & E & late & l2 & -> & Hr).
  assert (Hsplit : core_run (l1 ++ (E, ILoop late) :: l2) c = core_run l2 (core_run (l1 ++ [(E, ILoop late)]) c)).
  { unfold core_run. by rewrite !foldl_app. }
  rewrite Hsplit in Hw |- *. destruct (run_mono l2 (core_run (l1 ++ [(E, ILoop late)]) c)) as [Hw2 [o2 Ho2]].
  specialize (Hw2 Hw). rewrite core_run_snoc in Hw2, Ho2 |- *.
  pose proof (proj1 (step_mono E (ILoop late) (core_run l1 c)) Hw2) as Hw1.
  destruct (queue_fifo l1 c Hw1) as [new Hn]; [rewrite Hr, Hq, length_app; cbn; lia|].
  rewrite Hr, Hq, drop_app_length in Hn. cbn in Hn.
  assert (Hout : ∃ new, co_out (core_step E fmt (ILoop late) (core_run l1 c)) = co_out (core_run l1 c) ++ OSync fn :: new).
  { cbn [core_step]. unfold loop_event. rewrite Hn, Hw1. cbv zeta.
    assert (Hh : handle E bar (core_run l1 c <| co_events := q' ++ new |>) =
      emit (OSync fn) (core_run l1 c <| co_events := q' ++ new |>)).
    { unfold handle. by rewrite Hty, Hfn. }
    rewrite Hh. destruct (_ || late); [|by exists []].
    destruct (flush_frame (R := grows) E (emit (OSync fn) (core_run l1 c <| co_events := q' ++ new |>))) as [_ [o Ho] _].
    exists o. rewrite Ho. cbn. by rewrite <- app_assoc. }
  split.
  - rewrite Ho2. destruct Hout as [o ->]. apply elem_of_app. left. apply elem_of_app. right. constructor.
  - exists l1, E, late, l2. split_and!; [done|done|by eexists|]. by rewrite core_run_snoc.
Qed.
End runs.

(** ** Joins *)

(** Only a join gate, or the end of the startup sequence, joins channels. *)
Definition mute (c c' : core) : Prop :=
  ∃ new, co_out c' = co_out c ++ new ∧ Forall (λ e, is_autojoin e = false) new.

Lemma mute_same c c' : co_out c' = co_out c → mute c c'.
Proof. intros Ho. exists []. by rewrite app_nil_r. Qed.

Lemma stop_timer_out t c : co_out (stop_timer t c) = co_out c.
Proof. by destruct t. Qed.

#[export] Instance mute_frame : Frame mute.
Proof.
  split; intros; try (by apply mute_same).
  - destruct H as (o1 & Ho1 & Hf1), H0 as (o2 & Ho2 & Hf2). exists (o1 ++ o2).
    split; [by rewrite Ho2, Ho1, app_assoc|by apply Forall_app].
  - exists [e]. split; [done|by constructor].
  - apply mute_same. unfold HandleEvent. by destruct (_ <? _)%nat.
  - apply mute_same. unfold resetJoinGateLocked. destruct (co_gates c !! network); [|done]. cbn. by rewrite stop_timer_out.
  - apply mute_same. unfold HoldJoins. destruct (find_network c network) as [n|]; [|done]. cbv zeta.
    destruct (co_conns c !! net_id n) as [cn|]; [|done].
    set (g := match co_gates c !! net_id n with Some _ => _ | None => _ end).
    assert (Hg : co_out g.1.1 = co_out c) by (unfold g; repeat case_match; cbn [fst]; by rewrite ?stop_timer_out).
    destruct g as [[c1 pending] timer]. cbn [fst] in *. cbn. by rewrite stop_timer_out.
Qed.

#[export] Instance mute_wide : WideFrame mute.
Proof.
  split; [apply mute_frame|..]; intros; try (by apply mute_same). apply mute_same. cbn.
  apply (map_fold_weak_ind (λ c' _, co_out c' = co_out c)); [done|]. intros i g m c' _ IH. by rewrite stop_timer_out.
Qed.

Section joins.
Context `{UnicodeTables, Regexp, TimeParse}.

(** The connection is the network's current one, registered, and nothing holds
    its joins. *)
Definition joinable (c : core) (id : string) (cn : conn) : Prop :=
  ∃ n, find_network c id = Some n ∧ net_state n = StateRegistered ∧ co_conns c !! id = Some cn ∧
    ∀ g, co_gates c !! id = Some g → g_held g = true → g_conn g ≠ cn.

(** Channels joined between two states were joined on connections that are
    ready for it in the second. *)
Definition joins (c c' : core) : Prop :=
  ∃ new, co_out c' = co_out c ++ new ∧ ∀ cn, CAutojoin cn ∈ new → ∃ id, joinable c' id cn.

Definition same_gate (c c' : core) : Prop :=
  co_user c' = co_user c ∧ co_conns c' = co_conns c ∧ co_gates c' = co_gates c.

Lemma mute_no_join new cn : Forall (λ e, is_autojoin e = false) new → CAutojoin cn ∉ new.
Proof. rewrite Forall_forall. intros Hf Hin. by specialize (Hf _ Hin). Qed.

Lemma mute_joins c c' : within mute c c' → joins c c'.
Proof. intros (new & Ho & Hf). exists new. split; [done|]. intros cn Hin. by destruct (mute_no_join new cn). Qed.

Lemma joinable_same c c' id cn : same_gate c c' → joinable c id cn → joinable c' id cn.
Proof.
  intros (Hu & Hc & Hg) (n & Hn & Hs & Hcn & Hgate). exists n. unfold find_network. rewrite Hu, Hc, Hg. done.
Qed.

Lemma joins_then_mute c c1 c2 : joins c c1 → within mute c1 c2 → same_gate c1 c2 → joins c c2.
Proof.
  intros (n1 & Ho1 & Hj) (n2 & Ho2 & Hf) Hs. exists (n1 ++ n2). split; [by rewrite Ho2, Ho1, app_assoc|].
  intros cn [Hin|Hin]%elem_of_app; [|by destruct (mute_no_join n2 cn)].
  destruct (Hj cn Hin) as [id Hid]. exists id. by apply (joinable_same c1).
Qed.

Lemma mute_then_joins c c1 c2 : within mute c c1 → joins c1 c2 → joins c c2.
Proof.
  intros (n1 & Ho1 & Hf) (n2 & Ho2 & Hj). exists (n1 ++ n2). split; [by rewrite Ho2, Ho1, app_assoc|].
  intros cn [Hin|Hin]%elem_of_app; [by destruct (mute_no_join n1 cn)|auto].
Qed.

Lemma autojoin_joins c c1 id cn : co_out c1 = co_out c → joinable c1 id cn → joins c (autojoin cn c1).
Proof.
  intros Ho Hj. exists [CAutojoin cn]. split; [cbn; by rewrite Ho|]. intros cn' [= ->]%list_elem_of_singleton. by exists id.
Qed.

Lemma active_registered c id cn : isConnActiveLocked id (Some cn) c = true →
  ∃ n, find_network c id = Some n ∧ net_state n = StateRegistered ∧ co_conns c !! id = Some cn.
Proof.
  unfold isConnActiveLocked. destruct (find_network c id) as [n|]; [|done].
  intros [[Hs%bool_decide_eq_true Hc%bool_decide_eq_true]%andb_true_iff _]%andb_true_iff. by exists n.
Qed.

Lemma release_joins network c : joins c (ReleaseJoins network c).1.
Proof.
  unfold ReleaseJoins. destruct (find_network c network) as [n|]; [|by apply mute_joins, fr_refl]. cbv zeta.
  destruct (co_gates c !! net_id n) as [g|]; [|by apply mute_joins, fr_refl]. cbn [fst].
  destruct (co_conns c !! net_id n) as [cn|] eqn:Hcn; [|apply mute_joins, mute_same; cbn; apply stop_timer_out].
  destruct (_ && _ && _) eqn:Hnow; [|apply mute_joins, mute_same; cbn; apply stop_timer_out].
  apply andb_true_iff in Hnow as [[_ _]%andb_true_iff Hact%active_registered].
  destruct Hact as (m & Hm & Hs & Hc). apply (autojoin_joins _ _ (net_id n)); [cbn; apply stop_timer_out|].
  exists m. split_and!; [exact Hm|done|exact Hc|]. intros g'. cbn. rewrite lookup_insert_eq. by intros [= <-].
Qed.

Lemma auto_release_joins netID cn c : joins c (autoReleaseJoins netID cn c).
Proof.
  unfold autoReleaseJoins. destruct (co_gates c !! netID) as [g|]; [|by apply mute_joins, fr_refl].
  destruct (_ || _); [by apply mute_joins, fr_refl|]. cbv zeta.
  destruct (_ && _) eqn:Hnow; [|by apply mute_joins, mute_same]. apply andb_true_iff in Hnow as [_ Hact%active_registered].
  destruct Hact as (n & Hn & Hs & Hc). apply (autojoin_joins _ _ netID); [done|]. exists n. split_and!; try done.
  intros g'. cbn. rewrite lookup_insert_eq. by intros [= <-].
Qed.

Lemma trigger_joins network seq cn c : joins c (triggerAutojoinOrQueue network seq cn c).
Proof.
  unfold triggerAutojoinOrQueue. destruct (startupActiveLocked network seq cn c) eqn:Hact; [|by apply mute_joins, fr_refl].
  cbn [negb]. unfold startupActiveLocked in Hact. destruct (find_network c network) as [n|] eqn:Hn; [|done].
  apply andb_true_iff in Hact as [[Hs%bool_decide_eq_true Hc%bool_decide_eq_true]%andb_true_iff _].
  destruct (co_gates c !! network) as [g|] eqn:Hg.
  - destruct (g_held g && _) eqn:Hheld; [by apply mute_joins, mute_same|]. apply (autojoin_joins _ _ network); [done|].
    exists n. split_and!; try done. rewrite Hg. intros g' [= <-] Hh. rewrite Hh in Hheld. by apply bool_decide_eq_false in Hheld.
  - apply (autojoin_joins _ _ network); [done|]. exists n. split_and!; try done. by rewrite Hg.
Qed.

Context (E : cenv).

Lemma run_api_joins call c : joins c (run_api E call c).
Proof.
  destruct call; cbn [run_api]; try apply release_joins; apply mute_joins;
    [apply api_raw_frame|apply api_message_frame|apply api_notice_frame|apply api_action_frame|apply api_raw_frame
    |apply api_raw_frame|apply inject_frame|apply set_state_frame|apply hold_frame].
Qed.

(** The states a plugin's calls lead through while it handles an event. *)
Definition hook_moments (ev : event) (c : core) : list core :=
  let calls := (ce_dispatch E ev).1.1 in
  (λ k, foldl (λ c call, run_api E call c) c (take k calls)) <$> seq 1 (length calls).

(** Whether a round of the loop hands the event to the plugins. *)
Definition dispatched (ev : event) (c : core) : bool :=
  negb (bool_decide (evt_type ev = EvDisconnect) && co_stopping c) &&
  negb (bool_decide (evt_type ev ∈ [EvSync; EvSetState; EvHistoryTarget; EvHistoryBatch])).

Definition moments (fmt : Z → string) (i : core_input) (c : core) : list core :=
  match i, co_events c with
  | ILoop _, ev :: rest =>
      (if dispatched ev c && negb (co_wedged c) then hook_moments ev (c <| co_events := rest |>) else []) ++
      [core_step E fmt i c]
  | _, _ => [core_step E fmt i c]
  end.

(** Channels joined between two states, with the moments to look at. *)
Definition joins_at (ms : list core) (c c' : core) : Prop :=
  ∃ new, co_out c' = co_out c ++ new ∧ ∀ cn, CAutojoin cn ∈ new → ∃ m id, m ∈ ms ∧ joinable m id cn.

Lemma joins_moment c c' : joins c c' → joins_at [c'] c c'.
Proof.
  intros (new & Ho & Hj). exists new. split; [done|]. intros cn Hin. destruct (Hj cn Hin) as [id Hid].
  exists c', id. split; [by constructor|done].
Qed.

Lemma joins_at_trans ms1 ms2 c c1 c2 : joins_at ms1 c c1 → joins_at ms2 c1 c2 → joins_at (ms1 ++ ms2) c c2.
Proof.
  intros (n1 & Ho1 & H1') (n2 & Ho2 & H2'). exists (n1 ++ n2). split; [by rewrite Ho2, Ho1, app_assoc|].
  intros cn [Hin|Hin]%elem_of_app; [destruct (H1' cn Hin) as (m & id & Hm & Hj)|destruct (H2' cn Hin) as (m & id & Hm & Hj)];
    exists m, id; split; try done; apply elem_of_app; auto.
Qed.

Lemma calls_joins calls c :
  joins_at ((λ k, foldl (λ c call, run_api E call c) c (take k calls)) <$> seq 1 (length calls)) c
    (foldl (λ c call, run_api E call c) c calls).
Proof.
  induction calls as [|call calls IH] using rev_ind.
  { exists []. rewrite app_nil_r. split; [done|]. by intros cn ?%not_elem_of_nil. }
  rewrite length_app, seq_app, fmap_app, foldl_app. cbn [length seq foldl].
  eapply joins_at_trans with (c1 := foldl (λ c call, run_api E call c) c calls).
  - assert (Heq : (λ k, foldl (λ c call, run_api E call c) c (take k (calls ++ [call]))) <$> seq 1 (length calls) =
      (λ k, foldl (λ c call, run_api E call c) c (take k calls)) <$> seq 1 (length calls)).
    { apply list_fmap_ext. intros i k Hk%lookup_seq. rewrite take_app_le by lia. done. }
    by rewrite Heq.
  - cbn [fmap list_fmap]. rewrite take_ge by (rewrite length_app; cbn; lia). rewrite foldl_app. apply joins_moment, run_api_joins.
Qed.

Ltac gate_same := unfold same_gate; repeat case_match; by split_and!.

Lemma flush_gate c : same_gate c (flushDirty E c).
Proof.
  unfold flushDirty. generalize (merge_sort String.le (elements (co_dirty c))). intros ids.
  assert (Hn : ∀ ids c1, same_gate c c1 → same_gate c (foldl (λ c id, notifyNetwork E id c) c1 ids)); [|by apply Hn].
  clear ids. induction ids as [|id ids IH]; intros c1 Hs; [done|]. cbn. apply IH. unfold notifyNetwork.
  by destruct (SnapshotNetwork E c1 id).
Qed.

Lemma after_commit_joins ev c : joins c (after_commit E ev c).
Proof.
  unfold after_commit. cbv zeta. destruct (evt_type ev); try (by apply mute_joins, fr_refl).
  - destruct (_ && _); [|by apply mute_joins, fr_refl]. apply mute_joins, catch_up_frame.
  - destruct (evt_resumed ev); [apply mute_joins, resume_frame|].
    eapply joins_then_mute; [eapply joins_then_mute|apply list_bouncer_frame|].
    + instantiate (1 := runPerform (evt_network ev) c). unfold runPerform.
      destruct (find_network c (evt_network ev)) as [n|], (co_conns c !! evt_network ev) as [cn|]; try (by apply mute_joins, fr_refl).
      pose proof (next_startup_frame (R := mute) (evt_network ev) c) as Hs. destruct (next_startup _ c) as [c1 seq]. cbn [fst] in Hs.
      cbv zeta. destruct (_ =? 0)%nat.
      * eapply mute_then_joins; [exact Hs|apply trigger_joins].
      * apply mute_joins. eapply fr_trans; [exact Hs|apply spawn_frame].
    + apply start_catch_up_frame.
    + unfold startCatchUp. gate_same.
    + unfold listBouncerNetworks. gate_same.
  - apply mute_joins, drop_catch_ups_frame.
Qed.

(** What is left of [handle] when the hooks have run. *)
Lemma handled_joins ev c calls out keep : ce_dispatch E ev = (calls, out, keep) → dispatched ev c = true →
  joins (foldl (λ c call, run_api E call c) c calls) (handle E ev c).
Proof.
  intros Hd Hdis. unfold dispatched in Hdis. unfold handle. destruct (_ && co_stopping c); [done|].
  cbn [negb andb] in Hdis. unfold dispatch. rewrite Hd. set (c1 := foldl _ c calls).
  assert (Hafter : joins c1 (after_commit E ev (commit E ev c1))).
  { eapply mute_then_joins; [apply commit_frame|apply after_commit_joins]. }
  destruct (evt_type ev); try done; try exact Hafter; destruct keep; try (by apply mute_joins, fr_refl);
    apply mute_joins; apply commit_frame || apply builtin_wide.
Qed.

Lemma undispatched_mute ev c : dispatched ev c = false → within mute c (handle E ev c).
Proof.
  intros Hdis. unfold dispatched in Hdis. unfold handle. destruct (_ && co_stopping c); [apply fr_refl|].
  cbn [negb andb] in Hdis. destruct (evt_type ev); try done.
  - apply history_target_frame.
  - apply history_batch_frame.
  - apply commit_frame.
  - destruct (evt_sync ev); [by apply fr_emit|apply fr_refl].
Qed.

Lemma handle_joins ev c :
  joins_at ((if dispatched ev c then hook_moments ev c else []) ++ [handle E ev c]) c (handle E ev c).
Proof.
  destruct (dispatched ev c) eqn:Hdis; [|by apply joins_moment, mute_joins, undispatched_mute].
  destruct (ce_dispatch E ev) as [[calls out] keep] eqn:Hd. unfold hook_moments. rewrite Hd. cbn [fst].
  eapply joins_at_trans; [apply calls_joins|]. by eapply joins_moment, handled_joins.
Qed.

Lemma joins_at_last ms c c1 c2 : joins_at (ms ++ [c1]) c c1 → within mute c1 c2 → same_gate c1 c2 → joins_at (ms ++ [c2]) c c2.
Proof.
  intros (n1 & Ho1 & Hj) (n2 & Ho2 & Hf) Hs. exists (n1 ++ n2). split; [by rewrite Ho2, Ho1, app_assoc|].
  intros cn [Hin|Hin]%elem_of_app; [|by destruct (mute_no_join n2 cn)].
  destruct (Hj cn Hin) as (m & id & [Hm|Hm]%elem_of_app & Hid).
  - exists m, id. split; [|done]. apply elem_of_app. by left.
  - apply list_elem_of_singleton in Hm as ->. exists c2, id. split; [|by eapply joinable_same].
    apply elem_of_app. right. by apply list_elem_of_singleton.
Qed.

Lemma run_task_joins t c : joins c (run_task E t c).
Proof.
  destruct t; cbn [run_task]; [|apply auto_release_joins|apply mute_joins, run_start_catch_up_frame
    |apply mute_joins, run_catch_up_frame|apply mute_joins, plugin_task_frame].
  unfold run_perform. destruct commands as [|line rest]; [apply trigger_joins|].
  destruct (negb _); [by apply mute_joins, fr_refl|]. cbv zeta.
  assert (Hin : within mute c (SendInput E network StatusBuffer (expandPerformVariables line variables) c).1) by apply input_frame.
  destruct (_ || _); [apply mute_joins; eapply fr_trans; [exact Hin|apply spawn_frame]|].
  eapply mute_then_joins; [exact Hin|apply trigger_joins].
Qed.

(** Channels are joined only where they may be.  Whenever a step of the
    engine tells a connection to join its channels, then at that moment (after
    the step, or after the call of a plugin hook that caused it) the
    connection is the current one of a network that is registered, and no
    plugin is holding back the joins of that connection. *)
Theorem autojoin_ready fmt i c : ∃ new,
  co_out (core_step E fmt i c) = co_out c ++ new ∧
  ∀ cn, CAutojoin cn ∈ new → ∃ m id, m ∈ moments fmt i c ∧ joinable m id cn.
Proof.
  change (joins_at (moments fmt i c) c (core_step E fmt i c)).
  assert (Hquiet : within mute c (core_step E fmt i c) → joins_at (moments fmt i c) c (core_step E fmt i c)).
  { intros Hm. destruct (mute_joins _ _ Hm) as (new & Ho & Hj). exists new. split; [done|]. intros cn Hin.
    destruct Hm as (new' & Ho' & Hf). rewrite Ho in Ho'. apply app_inv_head in Ho' as ->. by destruct (mute_no_join new' cn). }
  assert (Hone : ∀ i, moments fmt i c = [core_step E fmt i c] → joins c (core_step E fmt i c) →
    joins_at (moments fmt i c) c (core_step E fmt i c)) by (intros i' ->; apply joins_moment).
  destruct i.
  2: { unfold moments. cbn [core_step]. unfold loop_event. destruct (co_events c) as [|ev rest] eqn:He; [by apply joins_moment, mute_joins, fr_refl|].
    destruct (co_wedged c); [rewrite andb_false_r; by apply joins_moment, mute_joins, fr_refl|]. rewrite andb_true_r. cbv zeta.
    set (c0 := c <| co_events := rest |>). change (dispatched ev c) with (dispatched ev c0).
    change (co_out c) with (co_out c0). pose proof (handle_joins ev c0) as Hh.
    assert (Hsame : ∀ ms c', joins_at ms c0 c' → joins_at ms c c') by done. apply Hsame.
    destruct (_ || late); [|exact Hh]. eapply joins_at_last; [exact Hh|apply flush_frame|apply flush_gate]. }
  all: try (apply Hquiet; by apply step_wide).
  all: apply Hone; [done|]; cbn [core_step].
  - destruct (co_tasks c !! i) as [t|]; [|by apply mute_joins, fr_refl]. destruct (room 1 c); [|by apply mute_joins, fr_refl].
    set (c0 := c <| co_tasks ::= delete i |>). by apply (run_task_joins t c0).
  - apply mute_joins. destruct (co_timers c !! t) as [[network cn]|]; [|apply fr_refl].
    eapply fr_trans; [|apply spawn_frame]. by apply mute_same.
  - apply run_api_joins.
Qed.
End joins.

(** ** Witnesses *)

#[local] Existing Instance ascii_tables.
Definition no_regexp : Regexp := {| re_ok _ := true; re_match _ _ := false |}.
Definition no_times : TimeParse := λ _ _, None.
#[local] Existing Instance no_regexp.
#[local] Existing Instance no_times.

(** A world without plugins and stores, where every write succeeds and every
    dial gives connection 1. *)
Definition sample_env : cenv :=
  CEnv 5 (λ _, []) (λ _, true) (λ _, false) (Some (λ _, inl 1%nat)) nop_dispatch None false "b" (λ _ _ _, None).

Definition sample_nets : list (network_params * conn) := [(sample_params, 0%nat)].

Lemma sample_ids : NoDup (np_id ∘ fst <$> sample_nets).
Proof. apply NoDup_singleton. Qed.

Lemma sample_tidy : Forall (λ pc, autojoin_wf pc.1) sample_nets.
Proof. by apply Forall_singleton, sample_params_wf. Qed.

(** Started, connecting, edited to another address, connecting again, while
    the first goroutine has yet to notice. *)
Definition sample_inputs : list (cenv * core_input) :=
  pair sample_env <$> [IStart; IConnect 0; IUpdate (sample_params <| np_addr := "irc.example.org:6697" |>); IConnect 1].

Lemma sample_inputs_tidy : Forall (λ ei, tidy_input ei.2) sample_inputs.
Proof. repeat constructor. intros ?%not_elem_of_nil. done. Qed.

Definition no_durations : Z → string := λ _, "".

Lemma one_run_per_network_witness :
  let c := core_run no_durations sample_inputs (boot ∅ None sample_nets) in
  map_size (co_runs c) = 2%nat ∧ co_cancels c !! "libera" = Some 1%nat ∧
  (∀ id r r', active c id r → active c id r' → r = r') ∧
  (∀ id r x, active c id r → co_runs c !! r = Some x → co_conns c !! id = Some (r_conn x)) ∧
  (co_stopping c = false → ∀ id r, co_cancels c !! id = Some r ↔ active c id r) ∧
  (co_stopping c = true → ∀ id r, ¬ active c id r).
Proof.
  split; [by vm_compute|split; [by vm_compute|]].
  exact (one_run_per_network no_durations ∅ None sample_nets sample_inputs sample_ids).
Defined.

Lemma engine_well_formed_witness :
  let c := core_run no_durations sample_inputs (boot ∅ None sample_nets) in
  connFor c "libera" = Some 1%nat ∧
  NoDup (network_ids c) ∧ Forall (net_ok False) (u_networks (co_user c)) ∧
  (∀ id cn, connFor c id = Some cn → ∃ n, find_network c id = Some n) ∧
  Forall (λ n, autojoin_wf (net_params n)) (u_networks (co_user c)).
Proof.
  split; [by vm_compute|].
  destruct (engine_well_formed no_durations ∅ None sample_nets sample_inputs sample_ids) as (H1 & H2 & H3 & H4).
  exact (conj H1 (conj H2 (conj H3 (H4 sample_tidy sample_inputs_tidy)))).
Defined.

(** An edit may name a channel twice: the list is stored as it is. *)
Example untidy_edit :
  let c := core_run no_durations (pair sample_env <$> [IUpdate (sample_params <| np_channels := ["#a"; "#A"] |>)])
             (boot ∅ None sample_nets) in
  np_channels ∘ net_params <$> u_networks (co_user c) = [["#a"; "#A"]].
Proof. by vm_compute. Qed.

Definition sync_event (fn : nat) : event := new_event EvSync "" 0 <| evt_sync := Some fn |>.

Definition barrier_state : core :=
  boot ∅ None sample_nets <| co_events := [new_event EvConnect "libera" 3 <| evt_nick := "me" |>; sync_event 9;
                                           new_event EvDisconnect "libera" 4] |>.

Definition barrier_inputs : list (cenv * core_input) :=
  pair sample_env <$> [ILoop false; IInput "libera" "#c" "hi"; ILoop true; ILoop true].

Lemma barrier_runs_witness :
  let c' := core_run no_durations barrier_inputs barrier_state in
  OSync 9 ∈ co_out c' ∧
  ∃ l1 E late l2, barrier_inputs = l1 ++ (E, ILoop late) :: l2 ∧ rounds l1 = 1%nat ∧
    (∃ q'', co_events (core_run no_durations l1 barrier_state) = sync_event 9 :: q'') ∧
    ∃ new, co_out (core_run no_durations (l1 ++ [(E, ILoop late)]) barrier_state) =
      co_out (core_run no_durations l1 barrier_state) ++ OSync 9 :: new.
Proof.
  apply (barrier_runs no_durations barrier_inputs barrier_state [new_event EvConnect "libera" 3 <| evt_nick := "me" |>]
           (sync_event 9) [new_event EvDisconnect "libera" 4] 9); [done|done|done|by vm_compute|by vm_compute; lia].
Defined.
