(* ===== verification/CoreGates.v ===== *)
(** * Join gates are released

    A plugin may hold back the joins of a connection ([HoldJoins]); a timer
    releases them if the plugin does not.  [gates_inv] says that a held gate
    always has its release on the way, and [holds_end] that the release then
    happens and joins what was waiting. *)

From Stdlib Require Import ZArith Lia Ascii Bool.
From stdpp Require Import base tactics list gmap strings sorting.
From S2P Require Import Prelude GoStrings Utf8 EngineLine CoreTypes CoreEvent CoreRoster CoreEngine CoreHistory CoreBouncer CoreCommand CoreFrame CoreInv CoreThms.

#[local] Open Scope Z_scope.

Record gates_inv (c : core) : Prop := {
  (** A held gate has a timer, or the goroutine the timer has started. *)
  gi_due : ∀ id g, co_gates c !! id = Some g → g_held g = true →
    ∃ t, g_timer g = Some t ∧
      (co_timers c !! t = Some (id, g_conn g) ∨ TAutoRelease id (g_conn g) ∈ co_tasks c);
  (** No other network's gate has the same timer. *)
  gi_own : ∀ id g t x, co_gates c !! id = Some g → g_timer g = Some t → co_timers c !! t = Some x → x.1 = id;
  gi_next : ∀ id g t, co_gates c !! id = Some g → g_timer g = Some t → (t < co_next c)%nat;
  gi_fresh : ∀ t, is_Some (co_timers c !! t) → (t < co_next c)%nat;
}.

Definition gated (c c' : core) : Prop := gates_inv c → gates_inv c'.

#[export] Instance gated_refl : Reflexive gated.
Proof. intros c Hc. exact Hc. Qed.

#[export] Instance gated_trans : Transitive gated.
Proof. intros c1 c2 c3 H12 H23 Hc. auto. Qed.

Lemma gated_same c c' : co_gates c' = co_gates c → co_timers c' = co_timers c → (co_next c ≤ co_next c')%nat →
  (∀ t, t ∈ co_tasks c → t ∈ co_tasks c') → gated c c'.
Proof.
  intros Hg Ht Hn Hk [Hdue Hown Hnext Hfresh]. split; rewrite ?Hg, ?Ht.
  - intros id g Hid Hh. destruct (Hdue id g Hid Hh) as (t & Htm & Hd). exists t. naive_solver.
  - done.
  - intros id g t Hid Htm. specialize (Hnext id g t Hid Htm). lia.
  - intros t Hin. specialize (Hfresh t Hin). lia.
Qed.

Lemma stop_timer_fields t c : co_gates (stop_timer t c) = co_gates c ∧ co_tasks (stop_timer t c) = co_tasks c ∧
  co_next (stop_timer t c) = co_next c ∧
  co_timers (stop_timer t c) = match t with Some t => delete t (co_timers c) | None => co_timers c end.
Proof. by destruct t. Qed.

(** Writing one gate, with a timer of its own or none; only its own timer is
    touched. *)
Lemma regate id (g' : option join_gate) c c' :
  co_gates c' = partial_alter (λ _, g') id (co_gates c) →
  (∀ t, co_timers c' !! t = co_timers c !! t ∨
     (∃ g, co_gates c !! id = Some g ∧ g_timer g = Some t ∧ co_timers c' !! t = None) ∨
     (co_next c ≤ t)%nat ∧ ∃ cn, co_timers c' !! t = Some (id, cn) ∧ (t < co_next c')%nat) →
  (∀ t, t ∈ co_tasks c → t ∈ co_tasks c') → (co_next c ≤ co_next c')%nat →
  (∀ g, g' = Some g → ∀ t, g_timer g = Some t → (t < co_next c')%nat ∧ co_timers c' !! t = Some (id, g_conn g)) →
  (∀ g, g' = Some g → g_held g = true → is_Some (g_timer g)) →
  gated c c'.
Proof.
  intros Hg Ht Hk Hn Hnew Hheld [Hdue Hown Hnext Hfresh]. split.
  - intros id' g. rewrite Hg. destruct (decide (id = id')) as [<-|Hne].
    + rewrite lookup_partial_alter_eq. intros Hg' Hh. destruct (Hheld g Hg' Hh) as [t Htm]. exists t.
      split; [done|]. left. by apply Hnew.
    + rewrite lookup_partial_alter_ne by done. intros Hid Hh. destruct (Hdue id' g Hid Hh) as (t & Htm & Hd). exists t.
      split; [done|]. destruct Hd as [Hd|Hd]; [|by right; apply Hk]. left.
      destruct (Ht t) as [->|[(g0 & Hg0 & Ht0 & _)|(Hge & _)]]; [done| |].
      * by specialize (Hown id g0 t _ Hg0 Ht0 Hd).
      * specialize (Hnext id' g t Hid Htm). lia.
  - intros id' g t x. rewrite Hg. destruct (decide (id = id')) as [<-|Hne].
    + rewrite lookup_partial_alter_eq. intros Hg' Htm Hx. destruct (Hnew g Hg' t Htm) as [_ Hx']. rewrite Hx' in Hx. by injection Hx as <-.
    + rewrite lookup_partial_alter_ne by done. intros Hid Htm Hx. pose proof (Hnext id' g t Hid Htm) as Hlt.
      destruct (Ht t) as [Heq|[(g0 & Hg0 & Ht0 & Heq)|(Hge & _)]]; [rewrite Heq in Hx; by eapply Hown|congruence|lia].
  - intros id' g t. rewrite Hg. destruct (decide (id = id')) as [<-|Hne].
    + rewrite lookup_partial_alter_eq. intros Hg' Htm. by apply (Hnew g Hg' t Htm).
    + rewrite lookup_partial_alter_ne by done. intros Hid Htm. specialize (Hnext id' g t Hid Htm). lia.
  - intros t [x Hx]. destruct (Ht t) as [Heq|[(g0 & Hg0 & Ht0 & Heq)|(Hge & cn & Heq & Hlt)]]; [|congruence|done].
    rewrite Heq in Hx. assert (t < co_next c)%nat by (apply Hfresh; by exists x). lia.
Qed.

(** Writing one gate that keeps its timer. *)
Lemma regate_same id g g' c : co_gates c !! id = Some g → g_timer g' = g_timer g → g_conn g' = g_conn g →
  (g_held g' = true → g_held g = true) → gated c (c <| co_gates ::= <[id := g']> |>).
Proof.
  intros Hid Htm Hcn Hh [Hdue Hown Hnext Hfresh]. split; cbn.
  - intros id' x [[<- <-]|[_ Hx]]%lookup_insert_Some Hxh; [rewrite Htm, Hcn|]; by eauto.
  - intros id' x t y [[<- <-]|[_ Hx]]%lookup_insert_Some Hxt Hy; [|by eauto]. rewrite Htm in Hxt. by eauto.
  - intros id' x t [[<- <-]|[_ Hx]]%lookup_insert_Some Hxt; [|by eauto]. rewrite Htm in Hxt. by eauto.
  - done.
Qed.

(** What stopping the timer of the gate of [id] may do to the timers. *)
Lemma stopped id g c t : co_gates c !! id = Some g →
  co_timers (stop_timer (g_timer g) c) !! t = co_timers c !! t ∨
  ∃ g, co_gates c !! id = Some g ∧ g_timer g = Some t ∧ co_timers (stop_timer (g_timer g) c) !! t = None.
Proof.
  intros Hg. destruct (g_timer g) as [t0|] eqn:Ht0; [|by left]. cbn. destruct (decide (t0 = t)) as [->|Hne].
  - right. exists g. rewrite Ht0. cbn. by rewrite lookup_delete_eq.
  - left. by rewrite lookup_delete_ne.
Qed.

Lemma reset_gated network c : gated c (resetJoinGateLocked network c).
Proof.
  unfold resetJoinGateLocked. destruct (co_gates c !! network) as [g|] eqn:Hg; [|done].
  destruct (stop_timer_fields (g_timer g) c) as (Hsg & Hsk & Hsn & _).
  apply (regate network None); cbn; rewrite ?Hsg, ?Hsk, ?Hsn; try done.
  intros t. destruct (stopped network g c t Hg) as [Ht|(g0 & Hg0 & Ht0 & Ht)]; [by left|]. right. left. exists g0.
  split_and!; try done. assert (g0 = g) as -> by congruence. done.
Qed.

Lemma hold_gated network c : gated c (HoldJoins network c).1.
Proof.
  unfold HoldJoins. destruct (find_network c network) as [n|]; [|done]. cbv zeta.
  set (id := net_id n). destruct (co_conns c !! id) as [cn|]; [|done].
  set (r := match co_gates c !! id with Some _ => _ | None => _ end).
  assert (Hr : co_gates (stop_timer r.2 r.1.1) = co_gates c ∧ co_tasks (stop_timer r.2 r.1.1) = co_tasks c ∧
    co_next (stop_timer r.2 r.1.1) = co_next c ∧
    ∀ t, co_timers (stop_timer r.2 r.1.1) !! t = co_timers c !! t ∨
      ∃ g, co_gates c !! id = Some g ∧ g_timer g = Some t ∧ co_timers (stop_timer r.2 r.1.1) !! t = None).
  { unfold r. destruct (co_gates c !! id) as [g|] eqn:Hg; [|by split_and!; [..|by left]].
    destruct (stop_timer_fields (g_timer g) c) as (? & ? & ? & _).
    destruct (bool_decide (g_conn g = cn)); cbn [fst snd stop_timer]; (split_and!; [done..|]); intros t;
      destruct (stopped id g c t Hg) as [Ht|(g0 & Hg0 & Ht0 & Ht)]; (by left) || (right; exists g0);
      assert (g0 = g) as -> by congruence; done. }
  destruct r as [[c1 pending] timer]. cbn [fst snd] in *. destruct Hr as (Hg & Hk & Hn & Ht).
  set (c2 := stop_timer timer c1) in *. cbv zeta. cbn [fst].
  apply (regate id (Some (JoinGate true pending cn (Some (co_next c2))))); cbn; rewrite ?Hg, ?Hk, ?Hn; try done; [|lia| |].
  - intros t. destruct (decide (co_next c = t)) as [<-|Hne].
    + right. right. split; [lia|]. exists cn. rewrite lookup_insert_eq. split; [done|lia].
    + rewrite lookup_insert_ne by done. destruct (Ht t) as [Heq|Heq]; [by left|by right; left].
  - intros g [= <-] t [= <-]. rewrite lookup_insert_eq. split; [lia|done].
  - intros g [= <-] _. by eexists.
Qed.

Lemma release_gated network c : gated c (ReleaseJoins network c).1.
Proof.
  unfold ReleaseJoins. destruct (find_network c network) as [n|]; [|done]. cbv zeta. set (id := net_id n).
  destruct (co_gates c !! id) as [g|] eqn:Hg; [|done]. cbn [fst].
  destruct (stop_timer_fields (g_timer g) c) as (Hsg & Hsk & Hsn & _).
  set (g0 := g <| g_timer := None |> <| g_held := false |>).
  match goal with |- gated c (match _ with Some cn => if ?b then autojoin cn ?x else ?y | None => ?z end) =>
    assert (Hz : gated c z) end.
  { eapply (regate id (Some _)); cbn; rewrite ?Hsg, ?Hsk, ?Hsn; try done.
    - intros t. destruct (stopped id g c t Hg) as [Ht|(g1 & Hg1 & Ht1 & Ht)]; [by left|]. right. left. exists g1.
      split_and!; try done. assert (g1 = g) as -> by congruence. done.
    - intros g1 [= <-] t. by destruct (_ && _ && _).
    - intros g1 [= <-]. by destruct (_ && _ && _). }
  destruct (co_conns c !! id); [|done]. destruct (_ && _ && _); [|done].
  etrans; [exact Hz|]. by apply gated_same.
Qed.

Lemma auto_release_gated netID cn c : gated c (autoReleaseJoins netID cn c).
Proof.
  unfold autoReleaseJoins. destruct (co_gates c !! netID) as [g|] eqn:Hg; [|done]. destruct (_ || _); [done|]. cbv zeta.
  set (g0 := g <| g_held := false |> <| g_timer := None |> <| g_pending := false |>).
  assert (Hz : gated c (c <| co_gates ::= <[netID := g0]> |>)).
  { apply (regate netID (Some g0)); cbn; try done; [by left|by intros x [= <-]..]. }
  destruct (_ && _); [|done]. etrans; [exact Hz|]. by apply gated_same.
Qed.

Lemma trigger_gated network seq cn c : gated c (triggerAutojoinOrQueue network seq cn c).
Proof.
  unfold triggerAutojoinOrQueue. destruct (negb _); [done|]. destruct (co_gates c !! network) as [g|] eqn:Hg; [|by apply gated_same].
  destruct (_ && _); [by apply (regate_same network g)|by apply gated_same].
Qed.

#[export] Instance gated_frame : Frame gated.
Proof.
  split; intros; try (by apply gated_same).
  - by etrans.
  - unfold HandleEvent. destruct (_ <? _)%nat; by apply gated_same.
  - apply gated_same; try done. intros x Hx. cbn. apply elem_of_app. by left.
  - apply reset_gated.
  - apply hold_gated.
Qed.

#[export] Instance gated_join : JoinFrame gated.
Proof. split; intros; [apply gated_frame|apply release_gated|apply auto_release_gated|apply trigger_gated]. Qed.

#[export] Instance gated_wide : WideFrame gated.
Proof.
  split; intros; [apply gated_frame|..]; try (by apply gated_same); [apply gated_same; try done; cbn; lia|].
  intros [Hdue Hown Hnext Hfresh].
  assert (Ht : ∀ c', (map_fold (λ _ (g : join_gate) c, stop_timer (g_timer g) c) c (co_gates c)) = c' →
    co_next c' = co_next c ∧ ∀ t, is_Some (co_timers c' !! t) → is_Some (co_timers c !! t)).
  { intros c' <-. apply (map_fold_weak_ind (λ c' _, co_next c' = co_next c ∧ ∀ t, is_Some (co_timers c' !! t) → is_Some (co_timers c !! t)));
      [done|]. intros i g m c' _ [Hn Ht]. destruct (stop_timer_fields (g_timer g) c') as (_ & _ & -> & ->). split; [done|].
    intros t. destruct (g_timer g); [|apply Ht]. intros [x [_ Hx]%lookup_delete_Some]. apply Ht. by exists x. }
  destruct (Ht _ eq_refl) as [Hn Ht']. split; cbn; try (intros id g; by rewrite lookup_empty).
  intros t Hin. rewrite Hn. auto.
Qed.

Section gates.
Context `{UnicodeTables, Regexp, TimeParse} (fmt : Z → string).

(** A timer that fires starts the release. *)
Lemma timer_gated t network cn c : co_timers c !! t = Some (network, cn) →
  gated c (spawn (TAutoRelease network cn) (c <| co_timers ::= delete t |>)).
Proof.
  intros Ht [Hdue Hown Hnext Hfresh]. split; cbn.
  - intros id g Hg Hh. destruct (Hdue id g Hg Hh) as (t' & Ht' & Hd). exists t'. split; [done|].
    destruct Hd as [Hd|Hd]; [|right; apply elem_of_app; by left]. destruct (decide (t = t')) as [<-|Hne].
    + right. apply elem_of_app. right. rewrite Ht in Hd. injection Hd as -> ->. by apply list_elem_of_singleton.
    + left. by rewrite lookup_delete_ne.
  - intros id g t' x Hg Htm [_ Hx]%lookup_delete_Some. by eapply Hown.
  - done.
  - intros t' [x [_ Hx]%lookup_delete_Some]. apply Hfresh. by exists x.
Qed.

(** A task taken off the list is run; a release leaves no gate waiting for
    it. *)
Lemma task_gated E k t c : co_tasks c !! k = Some t → gated c (run_task E t (c <| co_tasks ::= delete k |>)).
Proof.
  intros Hk. set (c0 := c <| co_tasks ::= delete k |>).
  assert (Hsub : ∀ x, x ∈ co_tasks c → x = t ∨ x ∈ co_tasks c0).
  { intros x Hx. apply elem_of_Permutation in Hx as [l Hl]. rewrite (delete_Permutation _ _ _ Hk) in Hl.
    assert (Hin : x ∈ t :: co_tasks c0) by (unfold c0; cbn; rewrite Hl; constructor). by apply elem_of_cons in Hin. }
  assert (Hother : (∀ id cn, t ≠ TAutoRelease id cn) → gated c (run_task E t c0)).
  { intros Hne. etrans; [|apply run_task_frame]. intros [Hdue Hown Hnext Hfresh]. split; try done.
    intros id g Hg Hh. destruct (Hdue id g Hg Hh) as (t' & Ht' & Hd). exists t'. split; [done|].
    destruct Hd as [Hd|[Hd|Hd]%Hsub]; [by left|by destruct (Hne id (g_conn g))|by right]. }
  destruct t as [| id cn | | |]; try (by apply Hother). clear Hother. intros [Hdue Hown Hnext Hfresh].
  cbn [run_task]. unfold autoReleaseJoins. change (co_gates c0) with (co_gates c).
  assert (Hdue' : ∀ id' g, co_gates c !! id' = Some g → g_held g = true → (id' = id → g_conn g ≠ cn) →
    ∃ t, g_timer g = Some t ∧ (co_timers c0 !! t = Some (id', g_conn g) ∨ TAutoRelease id' (g_conn g) ∈ co_tasks c0)).
  { intros id' g Hg Hh Hne. destruct (Hdue id' g Hg Hh) as (t & Ht & Hd). exists t. split; [done|].
    destruct Hd as [Hd|[[= <- <-]|Hd]%Hsub]; [by left|by destruct Hne|by right]. }
  destruct (co_gates c !! id) as [g0|] eqn:Hg0.
  2: { split; try done. intros id' g Hg Hh. apply Hdue'; [done..|]. intros ->. change (co_gates c0) with (co_gates c) in Hg. congruence. }
  destruct (negb (g_held g0) || negb (bool_decide (g_conn g0 = cn))) eqn:Hstale.
  { split; try done. intros id' g Hg Hh. apply Hdue'; [done..|]. intros -> Hcn. change (co_gates c0) with (co_gates c) in Hg.
    assert (g = g0) as -> by congruence. rewrite Hh, bool_decide_true in Hstale by done. done. }
  cbv zeta. set (g1 := g0 <| g_held := false |> <| g_timer := None |> <| g_pending := false |>).
  assert (Hz : gates_inv (c0 <| co_gates ::= <[id := g1]> |>)).
  { split; cbn.
    - intros id' g [[<- <-]|[Hne Hg]]%lookup_insert_Some Hh; [done|]. apply Hdue'; [done..|congruence].
    - intros id' g t x [[<- <-]|[Hne Hg]]%lookup_insert_Some Ht Hx; [done|]. by eapply Hown.
    - intros id' g t [[<- <-]|[Hne Hg]]%lookup_insert_Some Ht; [done|]. by eapply Hnext.
    - done. }
  destruct (_ && _); [|done]. revert Hz. by apply gated_same.
Qed.

Lemma step_gated E i c : gated c (core_step E fmt i c).
Proof.
  destruct (plain_input i) eqn:Hp; [by apply step_wide|]. destruct i; try done; cbn [core_step].
  - destruct (co_events c) as [|ev rest] eqn:He; [unfold loop_event; by rewrite He|].
    destruct (co_wedged c) eqn:Hw; [unfold loop_event; by rewrite He, Hw|].
    etrans; [|apply (round_wide E late ev rest c He Hw)]. by apply gated_same.
  - destruct (co_tasks c !! i) as [t|] eqn:Ht; [|done]. destruct (room 1 c); [by apply task_gated|done].
  - destruct (co_timers c !! t) as [[network cn]|] eqn:Ht; [by apply timer_gated|done].
  - apply run_api_frame.
Qed.

Lemma run_gated l c : gated c (core_run fmt l c).
Proof.
  induction l as [|[E i] l IH] using rev_ind; [done|]. rewrite core_run_snoc. etrans; [exact IH|apply step_gated].
Qed.

Lemma boot_gates aliases hl nets : gates_inv (boot aliases hl nets).
Proof.
  assert (Hb : co_gates (boot aliases hl nets) = ∅ ∧ co_timers (boot aliases hl nets) = ∅).
  { unfold boot, add_all. induction nets as [|pc nets IH] using rev_ind; [done|]. by rewrite foldl_app. }
  destruct Hb as [Hg Ht]. split; [intros id g|intros id g t x|intros id g t|intros t]; rewrite ?Hg, ?Ht, lookup_empty; try done.
Qed.

(** The release task, when it runs. *)
Lemma release_runs E id g k c : co_gates c !! id = Some g → g_held g = true → room 1 c = true →
  co_tasks c !! k = Some (TAutoRelease id (g_conn g)) →
  let c' := core_step E fmt (ITask k) c in
  (∃ g', co_gates c' !! id = Some g' ∧ g_held g' = false) ∧
  co_out c' = co_out c ++ (if g_pending g && isConnActiveLocked id (Some (g_conn g)) c then [CAutojoin (g_conn g)] else []).
Proof.
  intros Hg Hh Hroom Hk c'. unfold c'. cbn [core_step]. rewrite Hk, Hroom. cbn [run_task]. unfold autoReleaseJoins.
  set (c0 := c <| co_tasks ::= delete k |>). change (co_gates c0) with (co_gates c). rewrite Hg, Hh, bool_decide_true by done.
  cbn [negb orb]. cbv zeta. change (isConnActiveLocked id (Some (g_conn g)) c0) with (isConnActiveLocked id (Some (g_conn g)) c).
  destruct (_ && _); (split; [eexists; cbn; by rewrite lookup_insert_eq|cbn; by rewrite ?app_nil_r]).
Qed.

(** Steps that are due for a release: a goroutine, or a timer and then the
    goroutine it starts. *)
Definition release_path (due : list core_input) : Prop :=
  ∃ k, due = [ITask k] ∨ ∃ t, due = [ITimer t; ITask k].

(** C15: a hold ends.  In every state a run of the engine can reach, a gate
    that holds back the joins of a network is released by steps that are due:
    the goroutine its timer has started, or the timer and that goroutine.
    When it is released, joins that were waiting are sent, once, if the
    connection is still the current one of a registered network, and nothing
    is sent otherwise. *)
Theorem holds_end aliases hl nets l id g E :
  let c := core_run fmt l (boot aliases hl nets) in
  co_gates c !! id = Some g → g_held g = true → room 1 c = true →
  ∃ due, release_path due ∧
    let c' := core_run fmt (pair E <$> due) c in
    (∃ g', co_gates c' !! id = Some g' ∧ g_held g' = false) ∧
    co_out c' = co_out c ++
      (if g_pending g && isConnActiveLocked id (Some (g_conn g)) c then [CAutojoin (g_conn g)] else []).
Proof.
  intros c Hg Hh Hroom. pose proof (run_gated l _ (boot_gates aliases hl nets)) as [Hdue _ _ _].
  destruct (Hdue id g Hg Hh) as (t & Ht & [Hd|[k Hk]%list_elem_of_lookup]).
  - set (c1 := core_step E fmt (ITimer t) c).
    assert (Hc1 : c1 = spawn (TAutoRelease id (g_conn g)) (c <| co_timers ::= delete t |>)).
    { unfold c1. cbn [core_step]. by rewrite (Hd : co_timers c !! t = _). }
    exists [ITimer t; ITask (length (co_tasks c))]. split; [eexists; right; by exists t|].
    change (core_run fmt (pair E <$> [ITimer t; ITask (length (co_tasks c))]) c) with
      (core_step E fmt (ITask (length (co_tasks c))) c1).
    destruct (release_runs E id g (length (co_tasks c)) c1) as [Hgate Hout]; try done; try (by rewrite Hc1).
    { rewrite Hc1. cbn. by apply list_lookup_middle. }
    split; [exact Hgate|]. rewrite Hout. by rewrite Hc1.
  - exists [ITask k]. split; [exists k; by left|]. by apply release_runs.
Qed.
End gates.

(** ** Witness *)

#[local] Existing Instance ascii_tables.
#[local] Existing Instance no_regexp.
#[local] Existing Instance no_times.

(** A plugin holds the joins; the connection registers; they wait. *)
Definition held_inputs : list (cenv * core_input) :=
  pair sample_env <$> [IApi (ApiHoldJoins "libera"); IEvent (new_event EvConnect "libera" 3 <| evt_nick := "me" |>); ILoop false].

Lemma holds_end_witness :
  let c := core_run no_durations held_inputs (boot ∅ None sample_nets) in
  let g := JoinGate true true 0 (Some 0%nat) in
  co_gates c !! "libera" = Some g ∧
  ∃ due, release_path due ∧
    let c' := core_run no_durations (pair sample_env <$> due) c in
    (∃ g', co_gates c' !! "libera" = Some g' ∧ g_held g' = false) ∧ co_out c' = co_out c ++ [CAutojoin 0].
Proof.
  split; [by vm_compute|].
  apply (holds_end no_durations ∅ None sample_nets held_inputs "libera" (JoinGate true true 0 (Some 0%nat)) sample_env); by vm_compute.
Defined.
