(* ===== verification/CoreInput.v ===== *)
(** * What becomes of a line of input

    [SendInput] expands aliases, then queues exactly one event or refuses the
    line ([input_answered]); the substitution of [$variables] in a perform line
    is total and leaves lines without a dollar alone. *)

From Stdlib Require Import ZArith Lia Ascii Bool.
From stdpp Require Import base tactics list gmap strings sorting.
From S2P Require Import Prelude GoStrings Utf8 EngineLine CoreTypes CoreEvent CoreRoster CoreEngine CoreHistory CoreBouncer CoreCommand CoreFrame CoreInv CoreThms.

#[local] Open Scope Z_scope.

Section input.
Context `{UnicodeTables, Regexp, TimeParse} (E : cenv).

(** The command and its arguments, if the line is a command. *)
Definition command_of (text : string) : option (string * string) :=
  if has_prefix "/" text && negb (has_prefix "//" text) then
    let '(name, argstr, _) := cut_byte SP (trim_prefix "/" text) in
    if String.eqb name "" then None else Some (name, argstr)
  else None.

(** The line an alias puts in the place of another. *)
Definition aliased (aliases : gmap string string) (text : string) : option string :=
  '(name, argstr) ← command_of text;
  tmpl ← aliases !! to_lower name;
  Some (expandAlias tmpl (fields argstr)).

Fixpoint expansions (aliases : gmap string string) (n : nat) (text : string) : string :=
  match n with
  | O => text
  | S n => match aliased aliases text with Some text' => expansions aliases n text' | None => text end
  end.

(** What the line asks for once no alias is left to expand. *)
Definition queue_input (network buffer text : string) (c : core) : core * option string :=
  match command_of text with
  | Some (name, argstr) =>
      (HandleEvent (new_event EvCommand network (ce_now E) <| evt_buffer := buffer |> <| evt_command := name |>
                      <| evt_args := Some (fields argstr) |> <| evt_text := argstr |>) c, None)
  | None =>
      match find_network c network with
      | None => (c, Some (unknown_network network))
      | Some n =>
          if bool_decide (net_state n = StateRegistered) && bool_decide (is_Some (co_conns c !! network)) then
            (HandleEvent (new_event EvMessageOut network (ce_now E) <| evt_message :=
               Some (new_message network buffer (ce_now E) "" MsgPrivmsg (trim_prefix "/" text) <| msg_self := true |>) |>) c, None)
          else (c, Some ("network " +:+ go_quote network +:+ " is not connected — message not sent"))
      end
  end.

Lemma send_input_unfold fuel network buffer text c :
  send_input E fuel network buffer text c =
  match command_of text, fuel with
  | Some (name, argstr), S fuel =>
      match co_aliases c !! to_lower name with
      | Some tmpl => send_input E fuel network buffer (expandAlias tmpl (fields argstr)) c
      | None => queue_input network buffer text c
      end
  | _, _ => queue_input network buffer text c
  end.
Proof.
  destruct (command_of text) as [[name argstr]|] eqn:Hc.
  - unfold queue_input. rewrite Hc. unfold command_of in Hc.
    destruct fuel; cbn [send_input]; cbv zeta; destruct (cut_byte SP (trim_prefix "/" text)) as [[name' argstr'] found];
      destruct (has_prefix "/" text && negb (has_prefix "//" text)); try done;
      destruct (String.eqb name' ""); try done; injection Hc as -> ->; cbn [andb negb];
      by destruct (co_aliases c !! to_lower name).
  - assert (Hp : send_input E fuel network buffer text c = queue_input network buffer text c); [|by destruct fuel].
    unfold queue_input. rewrite Hc. unfold command_of in Hc.
    destruct fuel; cbn [send_input]; cbv zeta; destruct (cut_byte SP (trim_prefix "/" text)) as [[name' argstr'] found];
      (destruct (has_prefix "/" text && negb (has_prefix "//" text)); [|done]);
      destruct (String.eqb name' ""); done.
Qed.

Lemma send_input_plain fuel network buffer text c :
  send_input E fuel network buffer text c = queue_input network buffer (expansions (co_aliases c) fuel text) c.
Proof.
  revert text. induction fuel as [|fuel IH]; intros text; rewrite send_input_unfold; cbn [expansions].
  - by destruct (command_of text) as [[name argstr]|].
  - unfold aliased. destruct (command_of text) as [[name argstr]|]; [|done]. cbn [mbind option_bind].
    destruct (co_aliases c !! to_lower name); cbn [mbind option_bind]; [apply IH|done].
Qed.

(** C16: a line of input is refused or becomes one event.  With room in the
    queue, [SendInput] first replaces the line by its alias, up to eight times;
    what is left is a command, and is queued as one; or a message, and is
    queued (without its escaping slash, into the buffer it was typed in) if
    the network is registered and has a connection.  Otherwise the caller gets
    an error that names the network, and nothing at all has changed. *)
Theorem input_answered network buffer text c : room 1 c = true →
  let final := expansions (co_aliases c) 8 text in
  let '(c', err) := SendInput E network buffer text c in
  match err with
  | None => ∃ ev, c' = c <| co_events ::= λ l, l ++ [ev] |> ∧ evt_network ev = network ∧
      match command_of final with
      | Some (name, argstr) => evt_type ev = EvCommand ∧ evt_command ev = name ∧ evt_text ev = argstr ∧ evt_buffer ev = buffer
      | None => evt_type ev = EvMessageOut ∧ (∃ m, evt_message ev = Some m ∧ msg_text m = trim_prefix "/" final ∧
          msg_buffer m = buffer ∧ msg_self m = true) ∧
          (∃ n, find_network c network = Some n ∧ net_state n = StateRegistered) ∧ is_Some (co_conns c !! network)
      end
  | Some e => c' = c ∧ command_of final = None ∧ (∃ a b, e = a +:+ go_quote network +:+ b) ∧
      ¬ ((∃ n, find_network c network = Some n ∧ net_state n = StateRegistered) ∧ is_Some (co_conns c !! network))
  end.
Proof.
  intros Hroom final. unfold SendInput. rewrite send_input_plain. fold final. unfold queue_input.
  assert (Hev : ∀ ev, HandleEvent ev c = c <| co_events ::= λ l, l ++ [ev] |>).
  { intros ev. unfold HandleEvent. unfold room in Hroom. apply Nat.leb_le in Hroom.
    by rewrite (proj2 (Nat.ltb_lt _ _)) by lia. }
  destruct (command_of final) as [[name argstr]|]; [rewrite Hev; by eexists|].
  destruct (find_network c network) as [n|] eqn:Hn.
  - destruct (decide (net_state n = StateRegistered ∧ is_Some (co_conns c !! network))) as [[Hs Hc]|Hno].
    + rewrite !bool_decide_true by done. cbn [andb]. rewrite Hev.
      eexists. split_and!; [done|done|done|by eexists|by exists n|done].
    + assert (bool_decide (net_state n = StateRegistered) && bool_decide (is_Some (co_conns c !! network)) = false) as ->.
      { apply andb_false_iff. destruct (decide (net_state n = StateRegistered)); [right|left]; apply bool_decide_eq_false; naive_solver. }
      split_and!; [done|done|by exists "network ", " is not connected — message not sent"|]. intros [(m & [= ->] & Hs) Hc]. by destruct Hno.
  - split_and!; [done|done| |by intros [(m & Hm & _) _]].
    exists "unknown network ", "". unfold unknown_network. by rewrite str_app_nil_r.
Qed.

(** ** Perform lines *)

Lemma take_name_length s : (String.length (take_name s).2 ≤ String.length s)%nat.
Proof.
  induction s as [|a s IH]; [done|]. cbn [take_name]. destruct (is_name_byte a); [|done].
  destruct (take_name s) as [n r]. cbn in *. lia.
Qed.

Lemma str_drop_length i s : (String.length (str_drop i s) ≤ String.length s)%nat.
Proof. revert s. induction i as [|i IH]; intros [|a s]; cbn; try lia. specialize (IH s). lia. Qed.

(** The length of the line is fuel enough: more changes nothing. *)
Lemma perform_fuel_enough fuel line variables : (String.length line ≤ fuel)%nat →
  expand_perform fuel line variables = expandPerformVariables line variables.
Proof.
  unfold expandPerformVariables. remember (String.length line) as n eqn:Hn. revert line fuel Hn.
  induction n as [n IH] using lt_wf_ind. intros line fuel Hn Hf.
  assert (Hrec : ∀ f g s, (String.length s < n)%nat → (String.length s ≤ f)%nat → (String.length s ≤ g)%nat →
    expand_perform f s variables = expand_perform g s variables).
  { intros f g s Hs Hfs Hgs. rewrite (IH _ Hs s f), (IH _ Hs s g); done. }
  destruct line as [|a rest]; [subst n; by destruct fuel|]. cbn [String.length] in Hn.
  destruct n as [|n]; [lia|]. destruct fuel as [|fuel]; [lia|]. injection Hn as Hn. cbn [expand_perform].
  destruct (negb (Ascii.eqb a "$")); [f_equal; apply Hrec; lia|].
  destruct rest as [|b rest2] eqn:Hrest; [done|]. cbn [String.length] in Hn.
  destruct (Ascii.eqb b "$"); [f_equal; apply Hrec; lia|]. destruct (Ascii.eqb b "{").
  - destruct (index_byte "}" rest2) as [i|]; [|f_equal; apply Hrec; cbn; lia].
    f_equal. pose proof (str_drop_length (S i) rest2). apply Hrec; lia.
  - pose proof (take_name_length (String b rest2)) as Hl. destruct (take_name (String b rest2)) as [name r]. cbn in Hl.
    f_equal. apply Hrec; lia.
Qed.

(** A line without a dollar sign is performed as it is. *)
Lemma perform_plain line variables : index_byte "$" line = None → expandPerformVariables line variables = line.
Proof.
  unfold expandPerformVariables. induction line as [|a s IH]; [done|]. cbn. intros Hi.
  destruct (Ascii.eqb_spec a "$") as [->|Ha]; [done|]. cbn [negb]. f_equal. apply IH.
  by destruct (index_byte "$" s).
Qed.
End input.

(** ** Witness *)

#[local] Existing Instance ascii_tables.
#[local] Existing Instance no_regexp.
#[local] Existing Instance no_times.

(** An alias for a message, on a network that is not connected. *)
Definition input_state : core := boot {[ "j" := "/join $1" ]} None sample_nets.

Lemma input_answered_witness :
  expansions (co_aliases input_state) 8 "/J #c rest" = "/join #c" ∧
  ∃ ev, (SendInput sample_env "libera" "*status" "/J #c rest" input_state).1 = input_state <| co_events ::= λ l, l ++ [ev] |> ∧
    evt_network ev = "libera" ∧ evt_type ev = EvCommand ∧ evt_command ev = "join" ∧ evt_text ev = "#c" ∧ evt_buffer ev = "*status".
Proof.
  split; [by vm_compute|].
  exact (input_answered sample_env "libera" "*status" "/J #c rest" input_state eq_refl).
Defined.
