(* ===== verification/IrcTranslate.v ===== *)
(** * From the wire to the core: [irc/translate.go]

    What the connection layer makes of a parsed IRC line.  [toEvent] is split
    into one definition per case of its switch; [namesEvent] and
    [channelModeEvent] take the server's own prefix and mode tables.  The IRC
    library (girc) is a parameter: [Girc] lists the methods of its event the
    source calls, [GircLaws] what their documentation promises.  The clock is
    an argument, read only where a line carries no time of its own. *)

From Stdlib Require Import ZArith Lia Ascii Bool.
From stdpp Require Import base tactics list gmap strings pretty.
From S2P Require Import Prelude GoStrings Utf8 EngineLine LinkTags CoreTypes CoreEvent CoreBouncer.

#[local] Open Scope Z_scope.

(** ** Parsed lines *)

Record source := Source { src_name : string; src_ident : string; src_host : string }.

Definition wire_tags : Type := option (gmap string string).   (** [None]: a nil map *)

Record wire := Wire {
  w_source : option source;
  w_tags : wire_tags;
  w_time : time;
  w_command : string;
  w_params : list string;
  w_echo : bool;
}.

#[export] Instance eta_wire : Eta wire := λ r,
  Wire (w_source r) (w_tags r) (w_time r) (w_command r) (w_params r) (w_echo r).

(** The methods of a girc event. *)
Class Girc := {
  g_last : list string → string;                       (** [Last], of the parameters *)
  g_action : wire → option string;                     (** [IsAction], [StripAction] *)
  g_ctcp : wire → option (string * string);            (** [IsCTCP]: command and text *)
  g_is_server : source → bool;                         (** [Source.IsServer] *)
  g_tag : wire_tags → string → option string;          (** [Tags.Get] *)
}.

(** What is documented of them: the last parameter, a source without ident
    and host, a tag that is there or not. *)
Class GircLaws `{Girc} : Prop := {
  g_last_snoc : ∀ ps p, g_last (ps ++ [p]) = p;
  g_last_nil : g_last [] = "";
  g_is_server_spec : ∀ s, g_is_server s = (String.eqb (src_ident s) "" && String.eqb (src_host s) "");
  g_tag_nil : ∀ k, g_tag None k = None;
  g_tag_none : ∀ m k, g_tag (Some m) k = None ↔ m !! k = None;
}.

(** What a translation comes to: the boolean of the pair it returns, or a
    slice expression out of range. *)
Inductive translated := Dropped | Becomes (ev : event) | Panics.

Definition of_event (o : option event) : translated :=
  match o with Some ev => Becomes ev | None => Dropped end.

Section translate.
Context `{UnicodeTables, Girc, TimeParse} (now : time).

Definition nth_param (e : wire) (i : nat) : string := default "" (w_params e !! i).
Definition e_last (e : wire) : string := g_last (w_params e).
Definition nparams (e : wire) : nat := length (w_params e).

(** [e.Timestamp], or the clock. *)
Definition when (e : wire) : time := if time_is_zero (w_time e) then now else w_time e.

Definition from_of (e : wire) : string :=
  match w_source e with Some s => src_name s | None => "" end.

(** [tag]. *)
Definition tag (e : wire) (key : string) : string := default "" (g_tag (w_tags e) key).

(** [copyTags]; a nil map is the empty one. *)
Definition copyTags (t : wire_tags) : gmap string string :=
  filter (λ '(k, _), has_prefix TagPrefix k = false) (default ∅ t).

(** [isChannel]. *)
Definition isChannel (target : string) : bool :=
  match first_byte target with
  | None => false
  | Some a => Ascii.eqb a "#" || Ascii.eqb a "&" || Ascii.eqb a "+" || Ascii.eqb a "!"
  end%char.

(** [isServerSource]. *)
Definition isServerSource (s : source) : bool :=
  g_is_server s && (String.eqb (src_name s) "" || str_in "." (src_name s)).

(** [self != "" && from == self], the echo flag before it. *)
Definition is_outbound (e : wire) (self : string) : bool :=
  w_echo e || (negb (String.eqb self "") && String.eqb (from_of e) self).

(** ** Membership prefixes *)

Definition membershipPrefixes : string := "~&@%+".

Fixpoint splitPrefixes (tok prefixes : string) : string * string :=
  match tok with
  | String a rest =>
      if str_in a prefixes then let '(m, r) := splitPrefixes rest prefixes in (String a m, r)
      else ("", tok)
  | "" => ("", "")
  end%string.

Definition prefixSymbols (prefix : string) : string :=
  match index_byte ")" prefix with
  | Some i => if (i + 1 <? String.length prefix)%nat then str_drop (i + 1) prefix else membershipPrefixes
  | None => membershipPrefixes
  end.

(** One token of a NAMES reply. *)
Definition names_token (prefixes tok : string) : option member :=
  let '(modes, rest) := splitPrefixes tok prefixes in
  let nick := match index_byte "!" rest with Some i => str_take i rest | None => rest end in
  if String.eqb nick "" then None else Some (Member nick "" modes false).

Definition namesEvent (network : string) (e : wire) (prefixes : string) : option event :=
  if (nparams e <? 4)%nat then None
  else
    match omap (names_token prefixes) (fields (e_last e)) with
    | [] => None
    | members => Some (new_event EvNames network (when e) <| evt_buffer := nth_param e 2 |> <| evt_members := members |>)
    end.

(** ** Channel modes *)

Definition splitPrefixSpec (prefix : string) : string * string :=
  let default := ("ov", "@+") in
  if has_prefix "(" prefix then
    match index_byte ")" prefix with
    | Some i =>
        if (1 <? i)%nat then
          let letters := str_drop 1 (str_take i prefix) in
          let symbols := str_drop (i + 1) prefix in
          if Nat.eqb (String.length letters) (String.length symbols) then (letters, symbols) else default
        else default
    | None => default
    end
  else default.

(** [strings.SplitN(s, string(c), n)], [n] at least 1. *)
Fixpoint split_n (n : nat) (c : ascii) (s : string) : list string :=
  match n with
  | O | 1%nat => [s]
  | S n =>
      match cut_byte c s with
      | (a, b, true) => a :: split_n n c b
      | (_, _, false) => [s]
      end
  end.

Definition splitChanmodes (chanmodes : string) : string * string * string * string :=
  let parts := split_n 4 "," chanmodes in
  let get i := default "" (parts !! i) in
  (get 0%nat, get 1%nat, get 2%nat, get 3%nat).

Definition is_sign (a : ascii) : bool := Ascii.eqb a "+" || Ascii.eqb a "-".

Fixpoint setting_flags (drop flags : string) : string :=
  match flags with
  | "" => ""
  | String c rest =>
      if negb (is_sign c) && str_in c drop then setting_flags drop rest
      else String c (setting_flags drop rest)
  end%string.

Definition channelSettingFlags (prefix chanmodes flags : string) : string :=
  let letters := (splitPrefixSpec prefix).1 in
  let listArgs := (splitChanmodes chanmodes).1.1.1 in
  (if has_prefix "+" flags || has_prefix "-" flags then "" else "+") +:+
  setting_flags (letters +:+ listArgs) flags.

(** Whether a mode letter takes an argument. *)
Definition takes_arg (prefix chanmodes : string) (add : bool) (c : ascii) : bool :=
  let '(listArgs, alwaysArgs, setArgs, _) := splitChanmodes chanmodes in
  str_in c (splitPrefixSpec prefix).1 || str_in c listArgs || str_in c alwaysArgs || (add && str_in c setArgs).

(** [string(symbols[pi])]: the byte as a rune, which UTF-8 encodes. *)
Definition prefix_symbol (prefix : string) (c : ascii) : option string :=
  let '(letters, symbols) := splitPrefixSpec prefix in
  i ← index_byte c letters; s ← String.get i symbols; Some (encode_rune (byte_z s)).

Fixpoint mode_scan (prefix chanmodes : string) (add : bool) (flags : string) (args : list string)
    : list member_mode :=
  match flags with
  | "" => []
  | String c flags =>
      if Ascii.eqb c "+" then mode_scan prefix chanmodes true flags args
      else if Ascii.eqb c "-" then mode_scan prefix chanmodes false flags args
      else
        let '(arg, args) :=
          if takes_arg prefix chanmodes add c then
            match args with a :: args => (a, args) | [] => ("", []) end
          else ("", args) in
        let rest := mode_scan prefix chanmodes add flags args in
        match prefix_symbol prefix c with
        | Some sym => if String.eqb arg "" then rest else MemberMode arg sym add :: rest
        | None => rest
        end
  end%string.

Definition membershipModeChanges (prefix chanmodes flags : string) (args : list string) : list member_mode :=
  mode_scan prefix chanmodes true flags args.

Definition channelModeEvent (network : string) (e : wire) (prefix chanmodes : string) : option event :=
  if (nparams e <? 2)%nat || negb (isChannel (nth_param e 0)) then None
  else
    let flags := nth_param e 1 in
    let args := drop 2 (w_params e) in
    Some (new_event EvMode network (when e) <| evt_buffer := nth_param e 0 |> <| evt_nick := from_of e |>
            <| evt_text := trim_space (flags +:+ " " +:+ str_join " " args) |>
            <| evt_member_modes := membershipModeChanges prefix chanmodes flags args |>
            <| evt_chan_modes := channelSettingFlags prefix chanmodes flags |>).

(** ** Lines that are messages *)

(** The kind and the text of a PRIVMSG or NOTICE, and whether it is a reply to
    our own CTCP query; nothing for a CTCP request, which the library answers
    itself. *)
Definition message_body (e : wire) : option (msg_kind * string * bool) :=
  let notice := String.eqb (w_command e) "NOTICE" in
  match g_action e with
  | Some text => Some (MsgAction, text, false)
  | None =>
      match g_ctcp e with
      | Some (command, text) =>
          if notice then Some (MsgSystem, trim_space ("CTCP " +:+ command +:+ " reply: " +:+ text), true)
          else None
      | None => Some (if notice then MsgNotice else MsgPrivmsg, e_last e, false)
      end
  end.

(** The buffer a PRIVMSG or NOTICE lands in. *)
Definition message_buffer (e : wire) (self : string) (ctcpReply : bool) : string :=
  let target := nth_param e 0 in
  if isChannel target then target
  else if match w_source e with Some s => isServerSource s | None => false end then StatusBuffer
  else if String.eqb (w_command e) "NOTICE" && negb (is_outbound e self) && negb ctcpReply then StatusBuffer
  else if negb (is_outbound e self) && negb (String.eqb (from_of e) "") then from_of e
  else target.

Definition account_tag (e : wire) : string :=
  let account := tag e "account" in if String.eqb account "*" then "" else account.

Definition message_event (network : string) (e : wire) (self : string) : option event :=
  if (nparams e =? 0)%nat then None
  else
    '(kind, text, ctcpReply) ← message_body e;
    let m := Message (tag e "msgid") 0 network (message_buffer e self ctcpReply) (when e) (from_of e)
               (account_tag e) kind text (copyTags (w_tags e)) (w_echo e) false in
    Some (new_event EvMessageIn network (when e) <| evt_message := Some m |>).

(** ** Membership and identity *)

Definition join_event (network : string) (e : wire) : option event :=
  let account := tag e "account" in
  let account :=
    if String.eqb account "" && (3 <=? nparams e)%nat && negb (String.eqb (nth_param e 1) "*")
    then nth_param e 1 else account in
  Some (new_event EvJoin network (when e) <| evt_nick := from_of e |> <| evt_buffer := nth_param e 0 |>
          <| evt_account := account |>).

Definition part_event (network : string) (e : wire) : option event :=
  Some (new_event EvPart network (when e) <| evt_nick := from_of e |> <| evt_buffer := nth_param e 0 |>
          <| evt_text := if (1 <? nparams e)%nat then e_last e else "" |>).

Definition kick_event (network : string) (e : wire) : option event :=
  if (nparams e <? 2)%nat then None
  else Some (new_event EvKick network (when e) <| evt_nick := nth_param e 1 |> <| evt_kicker := from_of e |>
               <| evt_buffer := nth_param e 0 |> <| evt_text := if (2 <? nparams e)%nat then e_last e else "" |>).

Definition quit_event (network : string) (e : wire) : option event :=
  Some (new_event EvQuit network (when e) <| evt_nick := from_of e |> <| evt_text := e_last e |>).

Definition nick_change_event (network : string) (e : wire) : option event :=
  Some (new_event EvNick network (when e) <| evt_nick := from_of e |> <| evt_new_nick := e_last e |>).

Definition away_event (network : string) (e : wire) : option event :=
  Some (new_event EvAway network (when e) <| evt_nick := from_of e |>
          <| evt_away := negb (String.eqb (e_last e) "") |>).

Definition account_event (network : string) (e : wire) : option event :=
  if (nparams e =? 0)%nat then None
  else Some (new_event EvAccount network (when e) <| evt_nick := from_of e |>
               <| evt_account := if String.eqb (nth_param e 0) "*" then "" else nth_param e 0 |>).

Definition chghost_event (network : string) (e : wire) : option event :=
  if negb (nparams e =? 2)%nat then None
  else Some (new_event EvChgHost network (when e) <| evt_nick := from_of e |>
               <| evt_text := nth_param e 0 +:+ "@" +:+ nth_param e 1 |>).

Definition setname_event (network : string) (e : wire) : option event :=
  Some (new_event EvSetName network (when e) <| evt_nick := from_of e |> <| evt_text := e_last e |>).

Definition invite_event (network : string) (e : wire) : option event :=
  if (nparams e <? 2)%nat then None
  else Some (new_event EvInvite network (when e) <| evt_nick := from_of e |>
               <| evt_new_nick := nth_param e 0 |> <| evt_buffer := e_last e |>).

(** ** Bouncer networks, history targets, channel lists *)

Definition bouncer_event (network : string) (e : wire) : option event :=
  if (nparams e <? 3)%nat || negb (equal_fold (nth_param e 0) "NETWORK") then None
  else
    let id := nth_param e 1 in
    if String.eqb (nth_param e 2) "*" then
      Some (new_event EvBouncerNetwork network (when e) <| evt_target := id |>)
    else
      let '(b, keys) := ParseBouncerAttrs id (nth_param e 2) in
      Some (new_event EvBouncerNetwork network (when e) <| evt_bouncer := Some b |> <| evt_args := Some keys |>).

Definition RFC3339Nano : string := "2006-01-02T15:04:05.999999999Z07:00".

Definition chathistory_event (network : string) (e : wire) : option event :=
  if (nparams e <? 3)%nat || negb (equal_fold (nth_param e 0) "TARGETS") then None
  else
    ts ← time_parse RFC3339Nano (trim_prefix "timestamp=" (nth_param e 2));
    Some (new_event EvHistoryTarget network ts <| evt_buffer := nth_param e 1 |>).

Definition list_event (network : string) (e : wire) : option event :=
  if (nparams e <? 3)%nat then None
  else Some (new_event EvListItem network (when e) <| evt_buffer := nth_param e 1 |>
               <| evt_count := atoi_value (nth_param e 2) |> <| evt_text := e_last e |>).

Definition list_end_event (network : string) (e : wire) : option event :=
  Some (new_event EvListEnd network (when e)).

(** ** Typing, reactions, redactions *)

Definition tagmsg_event (network : string) (e : wire) (self : string) : option event :=
  if String.eqb (from_of e) "" || (nparams e =? 0)%nat then None
  else
    let target := nth_param e 0 in
    let buffer := if negb (isChannel target) && negb (is_outbound e self) then from_of e else target in
    let react := tag e "+draft/react" in
    if negb (String.eqb react "") then
      let msgid := tag e "+draft/reply" in
      if String.eqb msgid "" then None
      else Some (new_event EvReact network (when e) <| evt_nick := from_of e |> <| evt_buffer := buffer |>
                   <| evt_target := msgid |> <| evt_text := react |>)
    else
      state ← g_tag (w_tags e) "+typing";
      if String.eqb (from_of e) self then None
      else Some (new_event EvTyping network (when e) <| evt_nick := from_of e |> <| evt_buffer := buffer |>
                   <| evt_text := state |>).

Definition redact_event (network : string) (e : wire) (self : string) : option event :=
  if (nparams e <? 2)%nat then None
  else
    let target := nth_param e 0 in
    let buffer :=
      if isChannel target then target
      else if negb (String.eqb (from_of e) "") && is_outbound e self then target
      else if negb (String.eqb (from_of e) "") then from_of e
      else target in
    Some (new_event EvRedact network (when e) <| evt_nick := from_of e |> <| evt_buffer := buffer |>
            <| evt_target := nth_param e 1 |> <| evt_text := if (2 <? nparams e)%nat then e_last e else "" |>).

(** ** Topics and mode replies *)

Definition topic_event (network : string) (e : wire) : option event :=
  Some (new_event EvTopic network (when e) <| evt_buffer := nth_param e 0 |> <| evt_text := e_last e |>
          <| evt_nick := from_of e |>).

Definition rpl_topic_event (network : string) (e : wire) : option event :=
  if (nparams e <? 2)%nat then None
  else Some (new_event EvTopic network (when e) <| evt_buffer := nth_param e 1 |> <| evt_text := e_last e |>).

Definition rpl_notopic_event (network : string) (e : wire) : option event :=
  if (nparams e <? 2)%nat then None
  else Some (new_event EvTopic network (when e) <| evt_buffer := nth_param e 1 |>).

(** [time.Unix(sec, 0)].  A time counts seconds from the year 1 internally,
    and the addition that gets there wraps. *)
Definition time_unix (sec : Z) : time := (i64 (sec + 62135596800) - 62135596800) * second.

Definition topic_who_event (network : string) (e : wire) : option event :=
  if (nparams e <? 4)%nat then None
  else
    let sec := atoi_value (nth_param e 3) in
    let t := if 0 <? sec then time_unix sec else when e in
    Some (new_event EvTopic network t <| evt_buffer := nth_param e 1 |> <| evt_nick := nth_param e 2 |>
            <| evt_topic_meta := true |>).

Definition mode_is_event (network : string) (e : wire) : option event :=
  if (nparams e <? 3)%nat then None
  else Some (new_event EvMode network (when e) <| evt_buffer := nth_param e 1 |>
               <| evt_text := str_join " " (drop 2 (w_params e)) |>).

(** ** Standard replies and numerics *)

(** The label of a standard reply: its parameters without the description. *)
Definition reply_label (ps : list string) : list string :=
  match last ps with
  | Some p => if String.eqb p (g_last ps) then removelast ps else ps
  | None => ps
  end.

Definition formatStandardReply (e : wire) : string :=
  let head := "[" +:+ w_command e +:+ "]" in
  match reply_label (w_params e) with
  | [] => trim_space (head +:+ " " +:+ e_last e)
  | label => trim_space (head +:+ " " +:+ str_join " " label +:+ ": " +:+ e_last e)
  end.

Definition standard_reply_event (network : string) (e : wire) : option event :=
  Some (new_event EvNumeric network (when e) <| evt_text := formatStandardReply e |>).

(** The reply to a WHOIS about the real host: the fields between the nick and
    the trailing text, whatever they are. *)
Definition whois_actually (e : wire) : string :=
  let middle := if (3 <=? nparams e)%nat then take (nparams e - 3) (drop 2 (w_params e)) else [] in
  str_join " " (nth_param e 1 :: middle ++ (if String.eqb (e_last e) "" then [] else [e_last e])).

(** What [formatNumeric] says of a reply: its text and the nick or channel it
    is about. *)
Inductive formatted := Unformatted | Formatted (text subject : string) | SliceError.

Definition whois_numeric (e : wire) : option string :=
  let subject := nth_param e 1 in
  let cmd := String.eqb (w_command e) in
  if cmd "301" then Some (subject +:+ " is away: " +:+ e_last e)
  else if cmd "307" then Some (subject +:+ " is a registered nick")
  else if cmd "311" then Some (subject +:+ " (" +:+ nth_param e 2 +:+ "@" +:+ nth_param e 3 +:+ "): " +:+ e_last e)
  else if cmd "312" then Some (subject +:+ " on " +:+ nth_param e 2 +:+ " (" +:+ e_last e +:+ ")")
  else if cmd "313" then Some (subject +:+ " " +:+ e_last e)
  else if cmd "317" then Some (subject +:+ ": idle " +:+ nth_param e 2 +:+ "s, signon " +:+ nth_param e 3)
  else if cmd "319" then Some (subject +:+ " on: " +:+ e_last e)
  else if cmd "320" then Some (subject +:+ " " +:+ e_last e)
  else if cmd "330" then Some (subject +:+ " is logged in as " +:+ nth_param e 2)
  else if cmd "338" then Some (whois_actually e)
  else if cmd "378" then Some (subject +:+ " " +:+ e_last e)
  else if cmd "379" then Some (subject +:+ " " +:+ e_last e)
  else if cmd "671" then Some (subject +:+ " " +:+ e_last e)
  else if cmd "276" then Some (subject +:+ " " +:+ e_last e)
  else if cmd "318" then Some ("End of WHOIS for " +:+ subject)
  else if cmd "314" then
    Some ("(was) " +:+ subject +:+ " (" +:+ nth_param e 2 +:+ "@" +:+ nth_param e 3 +:+ "): " +:+ e_last e)
  else if cmd "369" then Some ("End of WHOWAS for " +:+ subject)
  else None.

Definition who_numeric (e : wire) : formatted :=
  let subject := nth_param e 1 in
  let cmd := String.eqb (w_command e) in
  if cmd "352" then
    Formatted (nth_param e 5 +:+ " [" +:+ nth_param e 6 +:+ "] (" +:+ nth_param e 2 +:+ "@" +:+ nth_param e 3 +:+ ") on " +:+
               subject +:+ " via " +:+ nth_param e 4 +:+ ": " +:+ e_last e) subject
  else if cmd "354" then
    match w_params e with
    | [] => SliceError
    | _ :: rest => Formatted (str_join " " rest) subject
    end
  else if cmd "315" then Formatted ("End of WHO for " +:+ subject) subject
  else if cmd "366" then Formatted ("End of NAMES for " +:+ subject) subject
  else if cmd "341" then Formatted ("inviting " +:+ subject +:+ " to " +:+ nth_param e 2) subject
  else Unformatted.

Definition error_numeric (e : wire) : option string :=
  let subject := nth_param e 1 in
  let cmd := String.eqb (w_command e) in
  if cmd "401" then Some ("no such nick: " +:+ subject)
  else if cmd "402" then Some ("no such server: " +:+ subject)
  else if cmd "403" then Some ("no such channel: " +:+ subject)
  else if cmd "404" then Some ("cannot send to " +:+ subject +:+ ": " +:+ e_last e)
  else if cmd "433" then Some ("nickname in use: " +:+ subject)
  else if cmd "441" then Some (subject +:+ " is not in " +:+ nth_param e 2)
  else if cmd "442" then Some ("not on channel: " +:+ subject)
  else if cmd "461" then Some (subject +:+ ": " +:+ e_last e)
  else if cmd "473" then Some (subject +:+ ": invite-only channel")
  else if cmd "474" then Some (subject +:+ ": banned from channel")
  else if cmd "475" then Some (subject +:+ ": bad channel key")
  else if cmd "482" then Some (subject +:+ ": you're not a channel operator")
  else None.

Definition formatNumeric (e : wire) : formatted :=
  match whois_numeric e with
  | Some text => Formatted text (nth_param e 1)
  | None =>
      match who_numeric e with
      | Unformatted => match error_numeric e with Some text => Formatted text (nth_param e 1) | None => Unformatted end
      | r => r
      end
  end.

Definition numeric_event (network : string) (e : wire) : translated :=
  match formatNumeric e with
  | Unformatted => Dropped
  | SliceError => Panics
  | Formatted text subject =>
      Becomes (new_event EvNumeric network (when e) <| evt_nick := subject |> <| evt_text := text |>
                 <| evt_count := atoi_value (w_command e) |>)
  end.

(** The numerics the connection registers for. *)
Definition numericReplies : list string :=
  ["301"; "307"; "311"; "312"; "313"; "317"; "318"; "319"; "320"; "330"; "338"; "378"; "379"; "671"; "276";
   "314"; "369"; "352"; "354"; "315"; "366"; "341"; "401"; "402"; "403"; "404"; "433"; "441"; "442";
   "461"; "473"; "474"; "475"; "482"].

(** ** [toEvent] *)

Definition toEvent (network : string) (e : wire) (self : string) : translated :=
  let cmd := String.eqb (w_command e) in
  if cmd "PRIVMSG" || cmd "NOTICE" then of_event (message_event network e self)
  else if cmd "JOIN" then of_event (join_event network e)
  else if cmd "PART" then of_event (part_event network e)
  else if cmd "KICK" then of_event (kick_event network e)
  else if cmd "QUIT" then of_event (quit_event network e)
  else if cmd "NICK" then of_event (nick_change_event network e)
  else if cmd "AWAY" then of_event (away_event network e)
  else if cmd "ACCOUNT" then of_event (account_event network e)
  else if cmd "CHGHOST" then of_event (chghost_event network e)
  else if cmd "BOUNCER" then of_event (bouncer_event network e)
  else if cmd "CHATHISTORY" then of_event (chathistory_event network e)
  else if cmd "SETNAME" then of_event (setname_event network e)
  else if cmd "INVITE" then of_event (invite_event network e)
  else if cmd "322" then of_event (list_event network e)
  else if cmd "323" then of_event (list_end_event network e)
  else if cmd "TAGMSG" then of_event (tagmsg_event network e self)
  else if cmd "REDACT" then of_event (redact_event network e self)
  else if cmd "FAIL" || cmd "WARN" || cmd "NOTE" then of_event (standard_reply_event network e)
  else if cmd "353" then of_event (namesEvent network e membershipPrefixes)
  else if cmd "TOPIC" then of_event (topic_event network e)
  else if cmd "332" then of_event (rpl_topic_event network e)
  else if cmd "331" then of_event (rpl_notopic_event network e)
  else if cmd "333" then of_event (topic_who_event network e)
  else if cmd "324" then of_event (mode_is_event network e)
  else numeric_event network e.
End translate.

(** ** Only one reply is not guarded *)

Section facts.
Context `{UnicodeTables, G : Girc, TimeParse} (now : time).

Lemma of_event_total o : of_event o ≠ Panics.
Proof. by destruct o. Qed.

Lemma format_numeric_panics e : formatNumeric e = SliceError ↔ w_command e = "354" ∧ w_params e = [].
Proof.
  unfold formatNumeric. split.
  - destruct (whois_numeric e); [done|]. unfold who_numeric. cbv zeta.
    destruct (String.eqb_spec (w_command e) "352"); [done|].
    destruct (String.eqb_spec (w_command e) "354") as [->|_]; [by destruct (w_params e)|].
    repeat case_match; done.
  - intros [Hc Hp]. unfold whois_numeric, who_numeric. by rewrite Hc, Hp.
Qed.

(** Every line a server can send is translated or dropped without a
    fault, whatever its parameters, the one exception being a 354 reply with
    no parameter at all: its case slices from the second parameter on without
    a check. *)
Theorem translation_guarded network e self :
  toEvent now network e self = Panics ↔ w_command e = "354" ∧ w_params e = [].
Proof.
  split.
  - unfold toEvent. cbv zeta.
    repeat (case_match; [intros K; exfalso; revert K; apply of_event_total|]).
    unfold numeric_event. intros K. apply format_numeric_panics. by destruct (formatNumeric e).
  - intros [Hc Hp]. unfold toEvent, numeric_event.
    rewrite (proj2 (format_numeric_panics e) (conj Hc Hp)). by rewrite Hc.
Qed.

(** The numerics registered for are exactly those that are formatted. *)
Lemma registered_numerics cmd : cmd ∈ numericReplies ↔
  formatNumeric (Wire None None 0 cmd [""] false) ≠ Unformatted.
Proof.
  split.
  - intros Hin. unfold numericReplies in Hin.
    repeat (apply elem_of_cons in Hin as [->|Hin]; [vm_compute; discriminate|]).
    by apply not_elem_of_nil in Hin.
  - intros Hf. revert Hf. unfold formatNumeric, whois_numeric, who_numeric, error_numeric. cbn [w_command w_params].
    repeat match goal with |- context [String.eqb cmd ?s] => destruct (String.eqb_spec cmd s) as [->|?];
      [intros _; first [done | apply list_elem_of_In; cbn; tauto]|] end.
    done.
Qed.
End facts.

(** ** Where a message goes *)

Lemma channel_buffer name : isChannel name = is_channel_name name.
Proof. done. Qed.

(** The other end of a direct message. *)
Definition other_party (e : wire) (self : string) : string :=
  if is_outbound e self || String.eqb (from_of e) "" then nth_param e 0 else from_of e.

Section routing.
Context `{UnicodeTables, G : Girc, TimeParse} (now : time).

(** The other cases make events of other kinds. *)
Lemma only_messages network e self ev m :
  toEvent now network e self = Becomes ev → evt_message ev = Some m →
  (w_command e = "PRIVMSG" ∨ w_command e = "NOTICE") ∧ message_event now network e self = Some ev.
Proof.
  unfold toEvent. cbv zeta.
  destruct (String.eqb (w_command e) "PRIVMSG" || String.eqb (w_command e) "NOTICE") eqn:Hc.
  - intros Ht _. split; [apply orb_true_iff in Hc as [Hc|Hc]; apply String.eqb_eq in Hc; auto|].
    by destruct (message_event now network e self); simplify_eq/=.
  - unfold numeric_event, namesEvent, join_event, part_event, kick_event, quit_event, nick_change_event, away_event,
      account_event, chghost_event, bouncer_event, chathistory_event, setname_event, invite_event, list_event,
      list_end_event, tagmsg_event, redact_event, standard_reply_event, topic_event, rpl_topic_event,
      rpl_notopic_event, topic_who_event, mode_is_event. cbv zeta.
    intros Ht Hm. exfalso. revert Ht. repeat (case_match; try discriminate); intros Ht; simplify_option_eq.
    1: by destruct (time_parse _ _); simplify_eq/=.
    all: by destruct (g_tag _ _); simplify_eq/=.
Qed.

(** A conversation is keyed by the other party, and only a conversation
    opens one.  When a line puts a message into a query buffer, it was a
    PRIVMSG or NOTICE for a nick, not sent by the server itself; the buffer is
    the sender's for a line that came in and the target's for one of our own,
    so both directions meet in one buffer; and a notice that came in is there
    only as the reply to a CTCP query.  A message that is no conversation goes
    to the channel it was sent to or to the status buffer. *)
Theorem queries_are_conversations network e self ev m :
  toEvent now network e self = Becomes ev → evt_message ev = Some m →
  (w_command e = "PRIVMSG" ∨ w_command e = "NOTICE") ∧
  (bufferKind (msg_buffer m) = KindQuery →
     isChannel (nth_param e 0) = false ∧ msg_buffer m = other_party e self ∧
     (∀ s, w_source e = Some s → isServerSource s = false) ∧
     (w_command e = "NOTICE" → is_outbound e self = false → msg_kind_of m = MsgSystem)) ∧
  (isChannel (nth_param e 0) = true → msg_buffer m = nth_param e 0) ∧
  (isChannel (nth_param e 0) = false → msg_buffer m = StatusBuffer ∨ msg_buffer m = other_party e self).
Proof.
  intros Ht Hm.
  pose proof (only_messages network e self ev m Ht Hm) as Hmsg.
  destruct Hmsg as [Hc Hev]. clear Ht. split; [done|]. unfold message_event in Hev.
  destruct (nparams e =? 0)%nat; [done|].
  destruct (message_body e) as [[[kind text] ctcp]|] eqn:Hb; simplify_eq/=.
  assert (Hk : ctcp = true → kind = MsgSystem).
  { unfold message_body in Hb. by repeat case_match; simplify_eq/=. }
  unfold message_buffer, other_party.
  destruct (isChannel (nth_param e 0)) eqn:Hch.
  { split_and!; [|done..]. unfold bufferKind. rewrite <- channel_buffer, Hch. by destruct (String.eqb _ _). }
  destruct (match w_source e with Some s => isServerSource s | None => false end) eqn:Hs.
  { split_and!; [done..|by left]. }
  destruct (String.eqb_spec (w_command e) "NOTICE") as [Hn|Hn], (is_outbound e self) eqn:Ho, ctcp; cbn [negb andb orb];
    split_and!; auto; try done; try (intros _; split_and!; auto; try done; try (by destruct (String.eqb _ _));
      intros s Hs'; by rewrite Hs' in Hs); intros _; right; by destruct (String.eqb _ _).
Qed.
End routing.

(** ** Mode lines *)

(** One change of a MODE line: its sign, its letter, the argument it takes. *)
Record mode_item := ModeItem { mi_add : bool; mi_letter : ascii; mi_arg : option string }.

(** The flag string of a line, a sign written where it changes, and its
    arguments. *)
Fixpoint mode_flags (add : bool) (items : list mode_item) : string :=
  match items with
  | [] => ""
  | it :: items =>
      (if Bool.eqb add (mi_add it) then "" else if mi_add it then "+" else "-") +:+
      String (mi_letter it) (mode_flags (mi_add it) items)
  end%string.

Definition mode_args (items : list mode_item) : list string := omap mi_arg items.

(** An item as a server with these tables sends it. *)
Definition item_ok (prefix chanmodes : string) (it : mode_item) : Prop :=
  is_sign (mi_letter it) = false ∧
  bool_decide (is_Some (mi_arg it)) = takes_arg prefix chanmodes (mi_add it) (mi_letter it).

(** The membership change it makes. *)
Definition item_change (prefix : string) (it : mode_item) : option member_mode :=
  sym ← prefix_symbol prefix (mi_letter it);
  nick ← mi_arg it;
  if String.eqb nick "" then None else Some (MemberMode nick sym (mi_add it)).

(** The changes of a MODE line are read with the arguments they were
    written with.  For any mode tables of the server and any mix of membership,
    list, setting and unknown modes, a line that gives each mode the argument
    those tables say it takes yields the membership changes of the line in
    order: nick, symbol and sign of each, and no change for the rest. *)
Theorem mode_line_read prefix chanmodes items :
  Forall (item_ok prefix chanmodes) items →
  membershipModeChanges prefix chanmodes (mode_flags true items) (mode_args items) =
  omap (item_change prefix) items.
Proof.
  intros Hok. unfold membershipModeChanges. generalize true.
  induction Hok as [|it items [Hs Ha] Hok IH]; intros add; [done|].
  assert (Hsign : ∀ fl args, mode_scan prefix chanmodes add
    ((if Bool.eqb add (mi_add it) then "" else if mi_add it then "+" else "-") +:+ fl)%string args =
    mode_scan prefix chanmodes (mi_add it) fl args).
  { intros fl args. destruct add, (mi_add it); done. }
  cbn [mode_flags]. rewrite Hsign. cbn [mode_scan].
  unfold is_sign in Hs. apply orb_false_iff in Hs as [-> ->]. rewrite <- Ha.
  unfold mode_args in *. cbn [omap list_omap]. unfold item_change at 1.
  destruct (mi_arg it) as [arg|]; cbn.
  - destruct (prefix_symbol prefix (mi_letter it)) as [sym|]; cbn; [destruct (String.eqb arg "")|]; by rewrite IH.
  - destruct (prefix_symbol prefix (mi_letter it)); cbn; by rewrite IH.
Qed.

Lemma mode_line_read_witness :
  membershipModeChanges "(qov)~@+" "beI,k,l,imnpst" "+o-b+kv" ["alice"; "*!*@host"; "key"; "bob"] =
  [MemberMode "alice" "@" true; MemberMode "bob" "+" true].
Proof.
  refine (mode_line_read "(qov)~@+" "beI,k,l,imnpst"
    [ModeItem true "o" (Some "alice"); ModeItem false "b" (Some "*!*@host"); ModeItem true "k" (Some "key");
     ModeItem true "v" (Some "bob")] _).
  repeat constructor.
Defined.

(** ** NAMES replies *)

(** An entry of a NAMES reply: the prefixes, the nick, the host when the
    server sends one. *)
Record names_entry := NamesEntry { ne_modes : string; ne_nick : string; ne_host : option string }.

Definition names_text (ne : names_entry) : string :=
  ne_modes ne +:+ ne_nick ne +:+ match ne_host ne with Some h => "!" +:+ h | None => "" end.

Definition entry_ok (prefixes : string) (ne : names_entry) : Prop :=
  str_all (λ a, str_in a prefixes) (ne_modes ne) = true ∧
  (∃ a s, ne_nick ne = String a s ∧ str_in a prefixes = false) ∧
  no_byte "!" (ne_nick ne) = true ∧ word (names_text ne) = true.

Lemma split_prefixes_app prefixes modes a s :
  str_all (λ a, str_in a prefixes) modes = true → str_in a prefixes = false →
  splitPrefixes (modes +:+ String a s) prefixes = (modes, String a s).
Proof.
  intros Hm Ha. induction modes as [|b modes IH]; cbn; [by rewrite Ha|].
  cbn in Hm. apply andb_true_iff in Hm as [-> Hm]. by rewrite IH.
Qed.

Lemma names_token_entry prefixes ne : entry_ok prefixes ne →
  names_token prefixes (names_text ne) = Some (Member (ne_nick ne) "" (ne_modes ne) false).
Proof.
  intros (Hm & (a & s & Hn & Ha) & Hx & _). unfold names_token, names_text. rewrite Hn in *.
  change (String a s +:+ ?h) with (String a (s +:+ h)). rewrite split_prefixes_app by done.
  change (String a (s +:+ ?h)) with (String a s +:+ h).
  destruct (ne_host ne) as [h|].
  - change ("!" +:+ h) with (String "!" h). rewrite index_byte_app by done. by rewrite str_take_app.
  - rewrite str_app_nil_r. by rewrite (proj2 (index_byte_None _ _) Hx).
Qed.

Section names.
Context `{UnicodeTables, GL : GircLaws} (now : time).

(** A NAMES reply round-trips.  A reply that lists members, each with any
    of the server's prefixes before the nick and perhaps a host behind it, is
    read as those members with those prefixes, in order; also when several
    prefixes stand before one nick and when the server has prefixes of its
    own. *)
Theorem names_reply_read network src tags t me sym channel prefixes entries :
  entries ≠ [] → Forall (entry_ok prefixes) entries →
  namesEvent now network
    (Wire src tags t "353" ([me; sym; channel] ++ [str_join " " (names_text <$> entries)]) false) prefixes =
  Some (new_event EvNames network (if time_is_zero t then now else t) <| evt_buffer := channel |>
          <| evt_members := (λ ne, Member (ne_nick ne) "" (ne_modes ne) false) <$> entries |>).
Proof.
  intros Hne Hok. unfold namesEvent, nparams, e_last, when, nth_param. cbn [w_params w_time app length Nat.ltb Nat.leb].
  change [me; sym; channel; ?x] with ([me; sym; channel] ++ [x]). rewrite g_last_snoc.
  rewrite fields_join.
  2: { apply Forall_fmap. eapply Forall_impl; [exact Hok|]. intros ne Ht. exact (proj2 (proj2 (proj2 Ht))). }
  assert (omap (names_token prefixes) (names_text <$> entries) =
          (λ ne, Member (ne_nick ne) "" (ne_modes ne) false) <$> entries) as ->.
  { clear Hne. induction Hok as [|ne l Hn Hl IH]; [done|]. cbn. rewrite names_token_entry by done. cbn. by rewrite IH. }
  by destruct entries.
Qed.
End names.

(** ** Samples *)

(** A girc that knows unframed text only. *)
#[local] Instance plain_girc : Girc := {|
  g_last ps := default "" (last ps);
  g_action _ := None;
  g_ctcp _ := None;
  g_is_server s := String.eqb (src_ident s) "" && String.eqb (src_host s) "";
  g_tag t k := m ← t; m !! k;
|}.

#[local] Instance plain_girc_laws : GircLaws.
Proof.
  split; try done.
  - intros ps p. cbn. by rewrite last_snoc.
Qed.

#[local] Existing Instance ascii_tables.
#[local] Instance no_times : TimeParse := λ _ _, None.

Definition sample_line (nick command : string) (params : list string) : wire :=
  Wire (Some (Source nick "u" "host")) None 5 command params false.

Definition sample_privmsg (nick buffer text : string) : message :=
  Message "" 0 "net" buffer 5 nick "" MsgPrivmsg text ∅ false false.

Lemma queries_are_conversations_witness :
  bufferKind "alice" = KindQuery ∧ isChannel "me" = false ∧
  "alice" = other_party (sample_line "alice" "PRIVMSG" ["me"; "hi"]) "me".
Proof.
  split; [done|].
  destruct (queries_are_conversations 0 "net" (sample_line "alice" "PRIVMSG" ["me"; "hi"]) "me"
    (new_event EvMessageIn "net" 5 <| evt_message := Some (sample_privmsg "alice" "alice" "hi") |>)
    (sample_privmsg "alice" "alice" "hi") ltac:(by vm_compute) eq_refl) as (_ & Hq & _).
  destruct (Hq eq_refl) as (H1 & H2 & _). exact (conj H1 H2).
Defined.

Lemma names_reply_read_witness :
  namesEvent 0 "net" (Wire None None 9 "353" ["me"; "="; "#go"; "!@alice +bob!b@host carol"] false) "!@+" =
  Some (new_event EvNames "net" 9 <| evt_buffer := "#go" |>
          <| evt_members := [Member "alice" "" "!@" false; Member "bob" "" "+" false; Member "carol" "" "" false] |>).
Proof.
  refine (names_reply_read 0 "net" None None 9 "me" "=" "#go" "!@+"
    [NamesEntry "!@" "alice" None; NamesEntry "+" "bob" (Some "b@host"); NamesEntry "" "carol" None] _ _).
  - done.
  - repeat constructor; cbn; eauto.
Defined.
