(* ===== verification/IrcSasl.v ===== *)
(** * Logging in to a network: [irc/sasl.go], [irc/scram.go]

    The two mechanisms stugan brings itself, PLAIN and SCRAM, and the chunking
    of their responses.  A mechanism answers one AUTHENTICATE line of the server
    at a time; what it sends before the answer it returns is part of the result.
    The hash functions and the PRECIS profile are parameters; HMAC and PBKDF2
    are written out. *)

From Stdlib Require Import ZArith Lia Ascii Bool.
From stdpp Require Import base tactics list gmap strings pretty.
From S2P Require Import Prelude GoStrings Utf8 GoNet LinkTags.

#[local] Open Scope Z_scope.

(** ** Chunks *)

Definition saslChunk : nat := 400.

(** [sendChunked]: the chunks it writes, the one it returns.  The fuel is the
    length of the payload. *)
Fixpoint chunks_fuel (fuel : nat) (payload : string) : list string * string :=
  match fuel with
  | O => ([], payload)
  | S fuel =>
      if (saslChunk <? String.length payload)%nat then
        let '(sent, last) := chunks_fuel fuel (str_drop saslChunk payload) in
        (str_take saslChunk payload :: sent, last)
      else ([], payload)
  end.

Definition sendChunked (payload : string) : list string * string :=
  chunks_fuel (String.length payload) payload.

(** ** PLAIN *)

Definition NULL : string := String (byte_of_z 0) "".

Definition plain_response (user pass : string) : string := NULL +:+ user +:+ NULL +:+ pass.

(** [saslPlain.Encode]. *)
Definition plain_encode (user pass : string) (params : list string) : list string * string :=
  match params with
  | [p] => if String.eqb p "+" then sendChunked (b64_encode (plain_response user pass)) else ([], "")
  | _ => ([], "")
  end.

(** ** Keyed hashes *)

Inductive scram_hash := SHA512 | SHA256.

Definition hash_name (h : scram_hash) : string :=
  match h with SHA512 => "SCRAM-SHA-512" | SHA256 => "SCRAM-SHA-256" end.

Definition hash_size (h : scram_hash) : nat := match h with SHA512 => 64 | SHA256 => 32 end.
Definition hash_block (h : scram_hash) : nat := match h with SHA512 => 128 | SHA256 => 64 end.

Class Crypto := {
  hash_sum : scram_hash → string → string;
  opaque_string : string → option string;       (** [precis.OpaqueString.String] *)
}.

(** A digest has the size of its hash. *)
Class CryptoLaws `{Crypto} : Prop := hash_sum_size : ∀ h s, String.length (hash_sum h s) = hash_size h.

Fixpoint xor_str (a b : string) : string :=
  match a, b with
  | String x a, String y b => String (byte_of_z (Z.lxor (byte_z x) (byte_z y))) (xor_str a b)
  | _, _ => ""
  end%string.

Section crypto.
Context `{Crypto} (h : scram_hash).

(** RFC 2104. *)
Definition pad_key (key : string) : string :=
  let key := if (hash_block h <? String.length key)%nat then hash_sum h key else key in
  key +:+ str_repeat NULL (hash_block h - String.length key).

Definition xor_byte (z : Z) (s : string) : string := str_map (λ a, byte_of_z (Z.lxor (byte_z a) z)) s.

Definition hmacSum (key msg : string) : string :=
  let key := pad_key key in
  hash_sum h (xor_byte 92 key +:+ hash_sum h (xor_byte 54 key +:+ msg)).

(** RFC 8018, for a key of one block: [n] further rounds after [u]. *)
Fixpoint pbkdf2_rounds (n : nat) (pass u acc : string) : string :=
  match n with
  | O => acc
  | S n => let u := hmacSum pass u in pbkdf2_rounds n pass u (xor_str acc u)
  end.

Definition block_one : string := NULL +:+ NULL +:+ NULL +:+ String (byte_of_z 1) "".

Definition pbkdf2_key (pass salt : string) (iter : Z) : string :=
  let u := hmacSum pass (salt +:+ block_one) in
  pbkdf2_rounds (Z.to_nat iter - 1) pass u u.
End crypto.

(** ** SCRAM *)

Definition scramMaxIter : Z := Z.shiftl 1 20.

Inductive scram_step := scramStart | scramSentFirst | scramSentFinal | scramDone.

Record saslScram := SaslScram {
  sc_user : string;
  sc_pass : string;
  sc_mechs : gset string;
  sc_hash : option scram_hash;
  sc_step : scram_step;
  sc_cnonce : string;
  sc_client_first : string;
  sc_server_sig : string;
}.

#[export] Instance eta_scram : Eta saslScram := λ r,
  SaslScram (sc_user r) (sc_pass r) (sc_mechs r) (sc_hash r) (sc_step r) (sc_cnonce r) (sc_client_first r) (sc_server_sig r).

Definition new_scram (user pass : string) : saslScram := SaslScram user pass ∅ None scramStart "" "" "".

Definition scramHashes : list scram_hash := [SHA512; SHA256].

Section scram.
Context `{UnicodeTables, Crypto}.

Definition advertise (caps : string) (s : saslScram) : saslScram :=
  foldl (λ (s : saslScram) tok,
    if has_prefix "sasl=" tok
    then s <| sc_mechs ::= λ ms, list_to_set (to_upper <$> split_byte "," (str_drop 5 tok)) ∪ ms |>
    else s) s (fields caps).

(** [Method]: the strongest variant the server offered. *)
Definition Method (s : saslScram) : saslScram * string :=
  let h := match filter (λ h, hash_name h ∈ sc_mechs s) scramHashes with h :: _ => h | [] => SHA256 end in
  (s <| sc_hash := Some h |>, hash_name h).

Definition variant (s : saslScram) : saslScram * scram_hash :=
  let h := default SHA256 (sc_hash s) in (s <| sc_hash := Some h |>, h).

Definition scram_reset (s : saslScram) : saslScram := new_scram (sc_user s) (sc_pass s).

Definition scramEscape (u : string) : string := replace_byte "," "=2C" (replace_byte "=" "=3D" u).

Definition saslPrep (s : string) : string := default s (opaque_string s).

(** [scramAttrs]: a key of one byte; the last of a repeated one counts. *)
Definition scramAttrs (msg : string) : gmap string string :=
  foldl (λ m part, let '(k, v, ok) := cut_byte "=" part in
    if ok && (str_len k =? 1) then <[k := v]> m else m) ∅ (split_byte "," msg).

Definition attr_of (msg k : string) : string := default "" (scramAttrs msg !! k).

(** The end of an exchange: nothing written, nothing returned. *)
Definition abort_with (s : saslScram) : saslScram * list string * string := (s, [], "").

(** [first]; [random] is what the generator gave, if anything. *)
Definition scram_first (random : option string) (s : saslScram) : saslScram * list string * string :=
  match random with
  | None => abort_with s
  | Some b =>
      let cnonce := b64_encode b in
      let first := "n=" +:+ scramEscape (saslPrep (sc_user s)) +:+ ",r=" +:+ cnonce in
      let '(sent, last) := sendChunked (b64_encode ("n,," +:+ first)) in
      (s <| sc_cnonce := cnonce |> <| sc_client_first := first |> <| sc_step := scramSentFirst |>, sent, last)
  end.

Definition scram_auth (first server_first no_proof : string) : string :=
  first +:+ "," +:+ server_first +:+ "," +:+ no_proof.

(** The reply to a server-first message that passed the checks. *)
Definition scram_prove (nonce salt : string) (iter : Z) (serverFirst : string) (s : saslScram)
    : saslScram * list string * string :=
  let '(s, h) := variant s in
  let salted := pbkdf2_key h (saslPrep (sc_pass s)) salt iter in
  let clientKey := hmacSum h salted "Client Key" in
  let noProof := "c=biws,r=" +:+ nonce in
  let authMsg := scram_auth (sc_client_first s) serverFirst noProof in
  let proof := xor_str clientKey (hmacSum h (hash_sum h clientKey) authMsg) in
  let '(sent, last) := sendChunked (b64_encode (noProof +:+ ",p=" +:+ b64_encode proof)) in
  (s <| sc_server_sig := hmacSum h (hmacSum h salted "Server Key") authMsg |> <| sc_step := scramSentFinal |>, sent, last).

Definition scram_final (arg : string) (s : saslScram) : saslScram * list string * string :=
  match b64_decode arg with
  | None => abort_with s
  | Some serverFirst =>
      let nonce := attr_of serverFirst "r" in
      if negb (has_prefix (sc_cnonce s) nonce) || (str_len nonce =? str_len (sc_cnonce s)) then abort_with s
      else
        match b64_decode (attr_of serverFirst "s") with
        | None | Some ""%string => abort_with s
        | Some salt =>
            match atoi (attr_of serverFirst "i") with
            | None => abort_with s
            | Some iter =>
                if (iter <? 1) || (scramMaxIter <? iter) then abort_with s
                else scram_prove nonce salt iter serverFirst s
            end
        end
  end.

Definition scram_verify (arg : string) (s : saslScram) : saslScram * list string * string :=
  match raw ← b64_decode arg; b64_decode (attr_of raw "v") with
  | Some sig => if String.eqb sig (sc_server_sig s) then (s <| sc_step := scramDone |>, [], "+") else abort_with s
  | None => abort_with s
  end.

(** [Encode]. *)
Definition scram_encode (random : option string) (params : list string) (s : saslScram)
    : saslScram * list string * string :=
  match params with
  | [p] =>
      match sc_step s with
      | scramStart => if String.eqb p "+" then scram_first random s else abort_with s
      | scramSentFirst => scram_final p s
      | scramSentFinal => scram_verify p s
      | scramDone => abort_with s
      end
  | _ => abort_with s
  end.
End scram.

(** ** Chunks rejoin *)

(** What a server makes of a response it reassembles. *)
Definition whole (r : list string * string) : string := str_concat r.1 +:+ r.2.

Lemma str_length_take_min n s : String.length (str_take n s) = (n `min` String.length s)%nat.
Proof. revert n. induction s as [|a s IH]; intros [|n]; cbn; [done..|]. by rewrite IH. Qed.

Lemma chunks_fuel_spec fuel payload : (String.length payload ≤ fuel)%nat →
  whole (chunks_fuel fuel payload) = payload ∧
  Forall (λ c, String.length c = saslChunk) (chunks_fuel fuel payload).1 ∧
  (String.length (chunks_fuel fuel payload).2 ≤ saslChunk)%nat.
Proof.
  revert payload. induction fuel as [|fuel IH]; intros payload Hf.
  { cbn. split_and!; [done|constructor|lia]. }
  cbn [chunks_fuel]. destruct (Nat.ltb_spec saslChunk (String.length payload)) as [Hl|Hl].
  - destruct (IH (str_drop saslChunk payload)) as (Hw & Hc & Hb).
    { rewrite str_length_drop. unfold saslChunk in *. lia. }
    destruct (chunks_fuel fuel (str_drop saslChunk payload)) as [sent last]. unfold whole in *. cbn [fst snd] in *.
    split_and!; [|constructor; [rewrite str_length_take_min; lia|done]|done].
    by rewrite str_concat_cons, str_app_assoc, Hw, str_take_drop.
  - unfold whole. cbn. split_and!; [done|constructor|lia].
Qed.

(** The chunks are full ones, the last has at most the size of one, and
    together they are the payload. *)
Lemma send_chunked_spec payload :
  whole (sendChunked payload) = payload ∧
  Forall (λ c, String.length c = saslChunk) (sendChunked payload).1 ∧
  (String.length (sendChunked payload).2 ≤ saslChunk)%nat.
Proof. by apply chunks_fuel_spec. Qed.

(** ** Numbers and attributes *)

Lemma parse_digits_go x s : (0 < x)%N → parse_digits (pretty_N_go x s) 0 = parse_digits s (Z.of_N x).
Proof.
  revert s. induction (N.lt_wf_0 x) as [x _ IH]; intros s Hx. rewrite pretty_N_go_step by done.
  assert (Hd : ∀ d, (d < 10)%N → byte_z (pretty_N_char d) = 48 + Z.of_N d) by by apply digit_cases.
  assert (Hm : (x `mod` 10 < 10)%N) by (by apply N.mod_lt).
  assert (Hdm : Z.of_N x = Z.of_N (x `div` 10) * 10 + Z.of_N (x `mod` 10)).
  { rewrite (N.div_mod x 10) at 1 by done. lia. }
  assert (Hstep : ∀ d n, (d < 10)%N → parse_digits (String (pretty_N_char d) s) n = parse_digits s (n * 10 + Z.of_N d)).
  { intros d n Hdd. cbn [parse_digits]. rewrite Hd by done. rewrite between_true by lia. f_equal. lia. }
  destruct (decide (x `div` 10 = 0)%N) as [H0|H0].
  - rewrite H0, pretty_N_go_0, Hstep by done. f_equal. lia.
  - rewrite IH by (first [apply N.div_lt; lia | lia]). rewrite Hstep by done. f_equal. lia.
Qed.

Lemma atoi_itoa z : 0 < z < 2 ^ 63 → atoi (itoa z) = Some z.
Proof.
  intros Hz. unfold itoa. destruct z as [|q|q]; [lia| |lia].
  change (pretty (Z.pos q)) with (pretty (N.pos q)).
  assert (Hgo : pretty (N.pos q) = pretty_N_go (N.pos q) "") by done. rewrite Hgo.
  assert (Hv : parse_digits (pretty_N_go (N.pos q) "") 0 = Some (Z.pos q)) by (by rewrite parse_digits_go by lia).
  assert (Hd : str_all (λ a, between 48 57 (byte_z a)) (pretty_N_go (N.pos q) "") = true).
  { apply pretty_N_go_all; [|done]. by apply digit_cases. }
  revert Hv Hd. generalize (pretty_N_go (N.pos q) ""). intros d Hv Hd. unfold atoi.
  assert (match d with String "-" d => (true, d) | String "+" d => (false, d) | _ => (false, d) end%string = (false, d)) as ->.
  { destruct d as [|a d]; [done|]. cbn [str_all] in Hd. apply andb_true_iff in Hd as [Ha _].
    destruct a as [[] [] [] [] [] [] [] []]; try done; vm_compute in Ha; discriminate. }
  destruct d as [|a d]; [done|]. rewrite Hv. cbn [mbind option_bind]. by rewrite between_true by lia.
Qed.

Lemma b64_no_byte c s : b64_alphabet c = false → no_byte c (b64_encode s) = true.
Proof.
  intros Hc. pose proof (b64_encode_alphabet s) as Ha. revert Ha. unfold no_byte. generalize (b64_encode s). intros t.
  induction t as [|a t IH]; [done|]. cbn [str_all]. intros [Ht Hr]%andb_true_iff. rewrite IH by done.
  destruct (Ascii.eqb_spec a c) as [->|]; [congruence|done].
Qed.

(** One attribute of a message. *)
Definition kv (k : ascii) (v : string) : string := String k (String "=" v).

Lemma scram_attr_step k v (m : gmap string string) : Ascii.eqb k "=" = false →
  (let '(k', v', ok) := cut_byte "=" (kv k v) in if ok && (str_len k' =? 1) then <[k' := v']> m else m) =
  <[String k "" := v]> m.
Proof.
  intros Hk. unfold kv. change (String k (String "=" v)) with (String k "" +:+ String "=" v).
  rewrite cut_byte_app; [done|]. unfold no_byte. cbn [str_all]. by rewrite Hk.
Qed.

Definition server_first (nonce salt : string) (iter : Z) : string :=
  str_join "," [kv "r" nonce; kv "s" (b64_encode salt); kv "i" (itoa iter)].

Lemma server_first_attrs nonce salt iter : no_byte "," nonce = true →
  attr_of (server_first nonce salt iter) "r" = nonce ∧
  attr_of (server_first nonce salt iter) "s" = b64_encode salt ∧
  attr_of (server_first nonce salt iter) "i" = itoa iter.
Proof.
  intros Hn. unfold attr_of, scramAttrs, server_first. rewrite split_join; [|done|].
  2: { assert (Hi : no_byte "," (itoa iter) = true) by (unfold no_byte; itoa_bytes).
       repeat constructor; unfold kv, no_byte in *; cbn [str_all]; rewrite ?Hn, ?Hi; try done. by apply b64_no_byte. }
  cbn [foldl]. rewrite !scram_attr_step by done.
  split_and!; by simplify_map_eq.
Qed.

Lemma signature_attr v : attr_of (kv "v" (b64_encode v)) "v" = b64_encode v.
Proof.
  unfold attr_of, scramAttrs. rewrite split_byte_no_byte.
  - cbn [foldl]. rewrite scram_attr_step by done. by simplify_map_eq.
  - unfold no_byte, kv. cbn [str_all]. by apply b64_no_byte.
Qed.

(** ** The exchange with an honest server *)

Lemma xor_str_length a b : String.length a = String.length b → String.length (xor_str a b) = String.length a.
Proof.
  revert b. induction a as [|x a IH]; intros [|y b]; cbn; try done. intros K. f_equal. apply IH. lia.
Qed.

Lemma xor_str_cancel a b : String.length a = String.length b → xor_str (xor_str a b) b = a.
Proof.
  revert b. induction a as [|x a IH]; intros [|y b]; cbn [xor_str String.length]; try done. intros K.
  rewrite byte_z_of_z by apply lxor_byte. rewrite Z.lxor_assoc, Z.lxor_nilpotent, Z.lxor_0_r, byte_of_byte_z.
  by rewrite IH by lia.
Qed.

Section exchange.
Context `{UnicodeTables, CryptoLaws}.

(** What a server keeps of a password: RFC 5802's StoredKey and ServerKey. *)
Definition stored_key (h : scram_hash) (salted : string) : string := hash_sum h (hmacSum h salted "Client Key").
Definition server_key (h : scram_hash) (salted : string) : string := hmacSum h salted "Server Key".

(** A client-final message whose proof yields the stored key. *)
Definition proof_valid (h : scram_hash) (stored first sfirst final no_proof : string) : Prop :=
  ∃ p64 p, final = no_proof +:+ ",p=" +:+ p64 ∧ no_byte "," p64 = true ∧ b64_decode p64 = Some p ∧
    String.length p = hash_size h ∧
    hash_sum h (xor_str p (hmacSum h stored (scram_auth first sfirst no_proof))) = stored.

Lemma hmac_size h key msg : String.length (hmacSum h key msg) = hash_size h.
Proof. apply hash_sum_size. Qed.

Lemma prove_spec nonce salt iter sfirst s :
  let h := (variant s).2 in
  let salted := pbkdf2_key h (saslPrep (sc_pass s)) salt iter in
  let no_proof := "c=biws,r=" +:+ nonce in
  let '(s', sent, last) := scram_prove nonce salt iter sfirst s in
  (∃ final, b64_decode (whole (sent, last)) = Some final ∧
     proof_valid h (stored_key h salted) (sc_client_first s) sfirst final no_proof) ∧
  sc_step s' = scramSentFinal ∧
  sc_server_sig s' = hmacSum h (server_key h salted) (scram_auth (sc_client_first s) sfirst no_proof).
Proof.
  cbv zeta. unfold scram_prove, variant. cbv zeta. cbn [snd].
  match goal with |- context [sendChunked ?p] =>
    pose proof (send_chunked_spec p) as (Hw & _); destruct (sendChunked p) as [sent last] end.
  split; [|done]. rewrite Hw. eexists. split; [apply b64_decode_encode|].
  unfold proof_valid. do 2 eexists. split; [by rewrite str_app_assoc|].
  split; [by apply b64_no_byte|]. split; [apply b64_decode_encode|].
  split; [by rewrite xor_str_length; rewrite !hmac_size|].
  rewrite xor_str_cancel by (by rewrite !hmac_size). done.
Qed.

(** C13: SCRAM authenticates both ways.  The client and a server that holds the
    keys derived from the same password, at any salt and any iteration count up
    to the bound, complete the exchange: the responses, reassembled from their
    chunks, decode to the client's first message and to a final message whose
    proof gives the server back the key it stored; and whatever the server then
    sends, the client acknowledges it exactly if it carries the signature that
    only the server key gives. *)
Theorem scram_exchange b rnd rnd' snonce salt iter s0 :
  sc_step s0 = scramStart → no_byte "," snonce = true → snonce ≠ ""%string → salt ≠ ""%string →
  1 ≤ iter ≤ scramMaxIter →
  let '(s1, sent1, last1) := scram_encode (Some b) ["+"] s0 in
  let sfirst := server_first (sc_cnonce s1 +:+ snonce) salt iter in
  let '(s2, sent2, last2) := scram_encode rnd [b64_encode sfirst] s1 in
  let h := (variant s0).2 in
  let salted := pbkdf2_key h (saslPrep (sc_pass s0)) salt iter in
  let no_proof := "c=biws,r=" +:+ sc_cnonce s1 +:+ snonce in
  b64_decode (whole (sent1, last1)) = Some ("n,," +:+ sc_client_first s1) ∧
  (∃ final, b64_decode (whole (sent2, last2)) = Some final ∧
     proof_valid h (stored_key h salted) (sc_client_first s1) sfirst final no_proof) ∧
  (∀ arg, (scram_encode rnd' [arg] s2).2 = "+" ↔
     ∃ raw, b64_decode arg = Some raw ∧
       b64_decode (attr_of raw "v") = Some (hmacSum h (server_key h salted) (scram_auth (sc_client_first s1) sfirst no_proof))).
Proof.
  intros Hs Hn Hne Hsalt Hiter. unfold scram_encode at 1. rewrite Hs, String.eqb_refl. unfold scram_first.
  match goal with |- context [sendChunked ?p] =>
    pose proof (send_chunked_spec p) as (Hw1 & _); destruct (sendChunked p) as [sent1 last1] end.
  cbv zeta. set (s1 := update sc_step _ _).
  set (sfirst := server_first (sc_cnonce s1 +:+ snonce) salt iter).
  assert (Hcn : no_byte "," (sc_cnonce s1 +:+ snonce) = true).
  { unfold no_byte in *. rewrite str_all_app, Hn, andb_true_r. by apply b64_no_byte. }
  destruct (server_first_attrs (sc_cnonce s1 +:+ snonce) salt iter Hcn) as (Hr & Hsa & Hi). fold sfirst in Hr, Hsa, Hi.
  assert (Hfin : scram_encode rnd [b64_encode sfirst] s1 = scram_prove (sc_cnonce s1 +:+ snonce) salt iter sfirst s1).
  { change (scram_encode rnd [b64_encode sfirst] s1) with (scram_final (b64_encode sfirst) s1).
    unfold scram_final. rewrite b64_decode_encode, Hr, Hsa, Hi, prefix_app, b64_decode_encode. cbn [negb orb].
    assert (str_len (sc_cnonce s1 +:+ snonce) =? str_len (sc_cnonce s1) = false) as ->.
    { apply Z.eqb_neq. unfold str_len. rewrite str_length_app. destruct snonce; [done|]. cbn [String.length]. lia. }
    destruct salt; [done|]. unfold scramMaxIter in *. change (Z.shiftl 1 20) with 1048576 in *.
    rewrite atoi_itoa by lia. by rewrite (proj2 (Z.ltb_ge _ _)), (proj2 (Z.ltb_ge _ _)) by lia. }
  rewrite Hfin. pose proof (prove_spec (sc_cnonce s1 +:+ snonce) salt iter sfirst s1) as Hp.
  destruct (scram_prove _ _ _ _ _) as [[s2 sent2] last2]. cbv zeta in Hp. destruct Hp as (Hf & Hst & Hsig).
  change (variant s0).2 with (variant s1).2. change (sc_pass s0) with (sc_pass s1).
  split_and!; [by rewrite Hw1, b64_decode_encode|exact Hf|].
  intros arg. cbn [scram_encode]. rewrite Hst. unfold scram_verify. rewrite Hsig. split.
  - destruct (b64_decode arg) as [raw|]; [|done]. cbn [mbind option_bind].
    destruct (b64_decode (attr_of raw "v")) as [sig|] eqn:Hd; [|done].
    destruct (String.eqb_spec sig (hmacSum (variant s1).2 (server_key (variant s1).2
      (pbkdf2_key (variant s1).2 (saslPrep (sc_pass s1)) salt iter))
      (scram_auth (sc_client_first s1) sfirst ("c=biws,r=" +:+ sc_cnonce s1 +:+ snonce)))) as [->|]; [|done].
    intros _. by exists raw.
  - intros (raw & -> & Hv). cbn [mbind option_bind]. rewrite Hv, String.eqb_refl. done.
Qed.
End exchange.

(** ** Samples *)

(** A checksum of the right size. *)
#[local] Instance toy_crypto : Crypto := {|
  hash_sum h s := str_take (hash_size h) (s +:+ str_repeat NULL (hash_size h));
  opaque_string := Some;
|}.

Lemma repeat_null_length n : String.length (str_repeat NULL n) = n.
Proof. induction n as [|n IH]; [done|]. cbn. by rewrite IH. Qed.

#[local] Instance toy_crypto_laws : CryptoLaws.
Proof. intros h s. cbn [hash_sum toy_crypto]. rewrite str_length_take_min, str_length_app, repeat_null_length. lia. Qed.

#[local] Existing Instance ascii_tables.

Definition toy_scram : saslScram := new_scram "me" "a password".

Lemma scram_exchange_witness :
  let '(s1, sent1, last1) := scram_encode (Some "client nonce") ["+"] toy_scram in
  sc_step toy_scram = scramStart ∧ 1 ≤ 4096 ≤ scramMaxIter ∧
  b64_decode (whole (sent1, last1)) = Some ("n,," +:+ sc_client_first s1).
Proof.
  pose proof (scram_exchange "client nonce" None None "server nonce" "salt" 4096 toy_scram
    eq_refl eq_refl ltac:(done) ltac:(done) ltac:(vm_compute; split; discriminate)) as K.
  destruct (scram_encode (Some "client nonce") ["+"] toy_scram) as [[s1 sent1] last1].
  cbv zeta in K.
  destruct (scram_encode None [b64_encode (server_first (sc_cnonce s1 +:+ "server nonce") "salt" 4096)] s1) as [[s2 sent2] last2].
  split; [done|]. split; [by vm_compute|]. exact (proj1 K).
Defined.
