(* ===== verification/IrcConn.v ===== *)
(** * A connection to a network: [irc/conn.go], [irc/relay.go]

    One connection as a state and what it does to the world: the events it
    emits, the lines it hands to the IRC library.  Every handler the source
    registers is a function; [irc_step] is what can happen to a connection: a
    line arrives, core calls one of its methods, its writer goroutine takes a
    turn, a connect begins or ends.  The library's client is the environment
    [genv] (nick, capabilities, server options, whether it is connected); the
    relay session is a handle whose calls are effects ([LinkSession] has it). *)

From Stdlib Require Import ZArith Lia Ascii Bool.
From stdpp Require Import base tactics list gmap strings pretty.
From S2P Require Import Prelude GoStrings Utf8 EngineLine Frame LinkTags LinkSession CoreTypes CoreEvent CoreBouncer CoreCommand IrcTranslate IrcSasl.

#[local] Open Scope Z_scope.

(** ** Options *)

Record irc_options := IrcOptions {
  io_network : string; io_addr : string; io_fallbacks : list string;
  io_tls : bool; io_insecure : bool;
  io_nick : string; io_user : string; io_realname : string;
  io_sasl_user : string; io_sasl_pass : string; io_server_pass : string;
  io_sasl_external : bool; io_sasl_scram : bool; io_cert : string;
  io_channels : list string; io_channel_keys : gmap string string; io_monitor : list string;
  io_relay : bool; io_relay_id : string;
}.

(** The mechanism of a connection, and the part of the library's configuration
    the source sets; [gc_sasl]: the mechanism is installed. *)
Inductive sasl_mech := MechExternal | MechScram (m : saslScram) | MechPlain.

Record tls_settings := TlsSettings { ts_server_name : string; ts_insecure : bool; ts_cert : bool }.

Record girc_config := GircConfig {
  gc_server : string; gc_port : Z; gc_nick : string; gc_user : string; gc_name : string;
  gc_ssl : bool; gc_server_pass : string; gc_disable_sts : bool;
  gc_caps : list string; gc_tls : option tls_settings; gc_sasl : bool;
}.

#[export] Instance eta_tls : Eta tls_settings := λ r, TlsSettings (ts_server_name r) (ts_insecure r) (ts_cert r).
#[export] Instance eta_girc_config : Eta girc_config := λ r,
  GircConfig (gc_server r) (gc_port r) (gc_nick r) (gc_user r) (gc_name r) (gc_ssl r) (gc_server_pass r)
    (gc_disable_sts r) (gc_caps r) (gc_tls r) (gc_sasl r).

(** ** State *)

Record outboundRequest := OutboundRequest { or_raw : string; or_target : string; or_text : string }.

Record histBatch := HistBatch { hb_target : string; hb_count : Z; hb_last : time }.

Record multilineBatch := MultilineBatch {
  mb_notice : bool; mb_target : string; mb_source : option source; mb_tags : wire_tags;
  mb_time : time; mb_echo : bool; mb_lines : list string; mb_concat : list bool;
}.

#[export] Instance eta_hist_batch : Eta histBatch := λ r, HistBatch (hb_target r) (hb_count r) (hb_last r).
#[export] Instance eta_multiline : Eta multilineBatch := λ r,
  MultilineBatch (mb_notice r) (mb_target r) (mb_source r) (mb_tags r) (mb_time r) (mb_echo r) (mb_lines r) (mb_concat r).

Record resumeState := ResumeState { rs_info : Info; rs_marker : string }.

(** What a connection does, oldest first in [ic_out]. *)
Inductive irc_effect :=
  | XEmit (ev : event)                          (** [handler.HandleEvent] *)
  | XRaw (line : string)                        (** [Cmd.SendRaw] *)
  | XMessage (target text : string)             (** [Cmd.Message] *)
  | XCloseClient                                (** [client.Close] *)
  | XTerminate                                  (** [Session.Terminate] *)
  | XCloseSession                               (** [Session.Close] *)
  | XSyncAck (seq : Z)                          (** [Sync(func() { sess.Ack(seq) })] *)
  | XAuthenticate (chunk : string)              (** an AUTHENTICATE line the mechanism sends itself *)
  | XAnswer (chunk : string).                   (** what the mechanism returns for the library to send *)

Record iconn := IConn {
  ic_opts : irc_options;
  ic_cfg : girc_config;
  ic_addrs : list string;
  ic_addr_idx : nat;
  ic_batches : gmap string multilineBatch;
  ic_hist : gmap string histBatch;
  ic_batch_seq : Z;
  ic_auth_failed : bool;
  ic_mech : option sasl_mech;
  ic_queue : list outboundRequest;
  ic_bg : list outboundRequest;
  ic_closed : bool;                             (** the writer is closed *)
  ic_waiting : bool;                            (** it found its queue empty *)
  ic_in_hand : option outboundRequest;          (** what it is dispatching *)
  ic_refresh : list (list outboundRequest);     (** lines goroutines wait to queue in the background *)
  ic_fingerprint : string;
  ic_sess : bool;
  ic_restoring : bool;
  ic_resume : option resumeState;
  ic_skip_connected : bool;
  ic_last_seq : Z;
  ic_processed : Z;
  ic_ack_queued : Z;                            (** [queued] of [ackLoop] *)
  ic_closing : bool;
  ic_out : list irc_effect;
}.

#[export] Instance eta_iconn : Eta iconn := λ r,
  IConn (ic_opts r) (ic_cfg r) (ic_addrs r) (ic_addr_idx r) (ic_batches r) (ic_hist r) (ic_batch_seq r)
    (ic_auth_failed r) (ic_mech r) (ic_queue r) (ic_bg r) (ic_closed r) (ic_waiting r) (ic_in_hand r) (ic_refresh r)
    (ic_fingerprint r) (ic_sess r) (ic_restoring r) (ic_resume r) (ic_skip_connected r) (ic_last_seq r)
    (ic_processed r) (ic_ack_queued r) (ic_closing r) (ic_out r).

(** The library's client, and the rest of the world. *)
Record genv := GEnv {
  ge_now : time;
  ge_nick : string;                             (** [GetNick] *)
  ge_connected : bool;                          (** [IsConnected] *)
  ge_has_cap : string → bool;                   (** [HasCapability] *)
  ge_option : string → option string;           (** [GetServerOption] *)
  ge_default_prefixes : string;                 (** [girc.DefaultPrefixes] *)
  ge_mode_defaults : string;                    (** [girc.ModeDefaults] *)
  ge_cert_error : string → option string;       (** the error of [tls.X509KeyPair] *)
  ge_sha256_hex : string → string;              (** [sha256.Sum256], in hexadecimal *)
  ge_seconds : Z → string;                      (** a duration rounded to seconds *)
}.

Definition firstNonEmpty (vals : list string) : string := default "" (head (filter (λ v, v ≠ ""%string) vals)).

Definition xemit (ev : event) (c : iconn) : iconn := c <| ic_out ::= λ l, l ++ [XEmit ev] |>.
Definition xdo (x : irc_effect) (c : iconn) : iconn := c <| ic_out ::= λ l, l ++ [x] |>.

(** ** Addresses *)

Section addr.
Context `{UnicodeTables}.

Definition atoi_error (s : string) : string :=
  let d := match s with String "-" d | String "+" d => d | _ => s end%string in
  let digits := negb (String.eqb d "") && str_all (λ a, between 48 57 (byte_z a)) d in
  "strconv.Atoi: parsing " +:+ go_quote s +:+ ": " +:+ (if digits then "value out of range" else "invalid syntax").

Definition splitAddr (addr : string) (tls : bool) : (string * Z) + string :=
  if String.eqb addr "" then inr "irc: empty addr"
  else
    match split_host_port addr with
    | inl _ => inl (addr, if tls then 6697 else 6667)
    | inr (host, port) =>
        match atoi port with
        | Some p => inl (host, p)
        | None => inr ("irc: bad port in " +:+ go_quote addr +:+ ": " +:+ atoi_error port)
        end
    end.

Definition join_host_port (host : string) (port : Z) : string :=
  (if str_in ":" host then "[" +:+ host +:+ "]" else host) +:+ ":" +:+ itoa port.

Definition set_server (host : string) (port : Z) (g : girc_config) : girc_config :=
  g <| gc_server := host |> <| gc_port := port |>.

(** [useAddr]: [Some] is the error. *)
Definition useAddr (addr : string) (c : iconn) : iconn * option string :=
  match splitAddr addr (io_tls (ic_opts c)) with
  | inr err => (c, Some err)
  | inl (host, port) =>
      (c <| ic_cfg ::= λ g, set_server host port g <| gc_tls ::= fmap (λ t : tls_settings, t <| ts_server_name := host |>) |> |>,
       None)
  end.

Definition advanceAddr (c : iconn) : iconn :=
  if (1 <? length (ic_addrs c))%nat then c <| ic_addr_idx ::= λ i, (S i mod length (ic_addrs c))%nat |> else c.

Definition current_addr (c : iconn) : string := default "" (ic_addrs c !! ic_addr_idx c).
End addr.

(** ** [New] *)

Definition requestedCaps : list string :=
  ["echo-message"; "setname"; "soju.im/bouncer-networks"; "soju.im/bouncer-networks-notify"; "draft/chathistory";
   "chathistory"; "account-tag"; "labeled-response"; "standard-replies"; "draft/message-redaction"; "draft/multiline";
   "draft/read-marker"; "read-marker"].

Definition mech_of (o : irc_options) : option sasl_mech :=
  if io_sasl_external o then Some MechExternal
  else if negb (String.eqb (io_sasl_user o) "") && io_sasl_scram o then
    Some (MechScram (new_scram (io_sasl_user o) (io_sasl_pass o)))
  else if negb (String.eqb (io_sasl_user o) "") then Some MechPlain
  else None.

Definition format_bool (b : bool) : string := if b then "true" else "false".

Definition fingerprint_parts (o : irc_options) (addrs : list string) : list string :=
  ["v1"; str_join "," addrs; format_bool (io_tls o); format_bool (io_insecure o);
   io_user o; io_realname o; io_sasl_user o; io_sasl_pass o; io_server_pass o;
   format_bool (io_sasl_external o); io_cert o] ++
  (if io_sasl_scram o && negb (io_sasl_external o) && negb (String.eqb (io_sasl_user o) "") then ["scram"] else []).

Definition registrationFingerprint (G : genv) (o : irc_options) (addrs : list string) : string :=
  ge_sha256_hex G (str_join NULL (fingerprint_parts o addrs)).

Section new.
Context `{UnicodeTables} (G : genv).

Definition irc_addrs (o : irc_options) : list string :=
  io_addr o :: filter (λ a, a ≠ ""%string) (trim_space <$> io_fallbacks o).

(** The TLS settings of a direct connection with a certificate or without
    verification; the error of a bad certificate. *)
Definition tls_of (host : string) (o : irc_options) : option tls_settings + string :=
  if negb (io_relay o) && (negb (String.eqb (io_cert o) "") || io_insecure o) then
    if String.eqb (io_cert o) "" then inl (Some (TlsSettings host (io_insecure o) false))
    else match ge_cert_error G (io_cert o) with
         | Some err => inr ("parse client certificate: " +:+ err)
         | None => inl (Some (TlsSettings host (io_insecure o) true))
         end
  else inl None.

Definition relay_error (o : irc_options) : option string :=
  if negb (io_relay o) then None
  else if String.eqb (io_relay_id o) "" then Some "irc: relay connection needs a RelayID"
  else if String.eqb (io_cert o) "" then None
  else (λ err, "parse client certificate: " +:+ err) <$> ge_cert_error G (io_cert o).

Definition config_of (host : string) (port : Z) (tls : option tls_settings) (o : irc_options) : girc_config :=
  GircConfig host port (firstNonEmpty [io_nick o; "stugan"]) (firstNonEmpty [io_user o; io_nick o; "stugan"])
    (firstNonEmpty [io_realname o; "stugan"]) (if io_relay o then false else io_tls o) (io_server_pass o)
    (io_relay o) requestedCaps tls (bool_decide (is_Some (mech_of o))).

Definition New (o : irc_options) : iconn + string :=
  match splitAddr (io_addr o) (io_tls o) with
  | inr err => inr err
  | inl (host, port) =>
      match relay_error o with
      | Some err => inr err
      | None =>
          match tls_of host o with
          | inr err => inr err
          | inl tls =>
              let addrs := irc_addrs o in
              inl (IConn o (config_of host port tls o) addrs 0 ∅ ∅ 0 false (mech_of o) [] [] false false None []
                     (if io_relay o then registrationFingerprint G o addrs else "") false false None false 0 0 0 false [])
          end
      end
  end.
End new.

(** ** The outbound queue *)

Definition outboundQueueSize : nat := 256.
Definition backgroundQueueSize : nat := 64.

Inductive send_error := NotConnected | QueueFull.

Definition raw_request (line : string) : outboundRequest := OutboundRequest line "" "".

Definition enqueue (r : outboundRequest) (c : iconn) : iconn * option send_error :=
  if ic_closed c then (c, Some NotConnected)
  else if (length (ic_queue c) <? outboundQueueSize)%nat then (c <| ic_queue ::= λ q, q ++ [r] |>, None)
  else (c, Some QueueFull).

(** One attempt of [enqueueBackground] by the [i]-th goroutine that refreshes
    channels: it queues its next line when there is room, gives up once the
    writer is closed, and waits otherwise. *)
Definition enqueueBackground (i : nat) (c : iconn) : iconn :=
  match ic_refresh c !! i with
  | Some (r :: rest) =>
      if ic_closed c then c <| ic_refresh ::= <[i := []]> |>
      else if (length (ic_bg c) <? backgroundQueueSize)%nat then
        c <| ic_bg ::= λ q, q ++ [r] |> <| ic_refresh ::= <[i := rest]> |>
      else c
  | _ => c
  end.

(** The channel a [select] of the writer receives from. *)
Inductive pick := PickQueue | PickBg.

Definition hold (r : outboundRequest) (c : iconn) : iconn :=
  c <| ic_waiting := false |> <| ic_in_hand := Some r |>.

(** One [select] of [run].  The first has a default, taken when the writer is
    open and its queue is empty; the second waits for any of the three.  [None]:
    the channel is not ready. *)
Definition writer_select (p : pick) (c : iconn) : option iconn :=
  match ic_in_hand c with
  | Some _ => None
  | None =>
      match p with
      | PickQueue => match ic_queue c with r :: q => Some (hold r (c <| ic_queue := q |>)) | [] => None end
      | PickBg =>
          if ic_waiting c then match ic_bg c with r :: q => Some (hold r (c <| ic_bg := q |>)) | [] => None end
          else None
      end
  end.

Definition writer_default (c : iconn) : option iconn :=
  match ic_in_hand c, ic_queue c with
  | None, [] => if ic_waiting c || ic_closed c then None else Some (c <| ic_waiting := true |>)
  | _, _ => None
  end.

Definition writer_close (c : iconn) : iconn := c <| ic_closed := true |>.

(** ** What a request becomes *)

Definition batch_line (ref target ln : string) : string :=
  "@batch=" +:+ ref +:+ " PRIVMSG " +:+ target +:+ " :" +:+ ln.

Definition messageNow (G : genv) (target text : string) (c : iconn) : iconn :=
  if negb (str_in LF text) then xdo (XMessage target text) c
  else
    let lines := split_byte LF text in
    if negb (ge_has_cap G "draft/multiline") then foldl (λ c ln, xdo (XMessage target ln) c) c lines
    else
      let n := u64 (ic_batch_seq c + 1) in
      let ref := "ml" +:+ itoa n in
      let c := xdo (XRaw ("BATCH +" +:+ ref +:+ " draft/multiline " +:+ target)) (c <| ic_batch_seq := n |>) in
      let c := foldl (λ c ln, xdo (XRaw (batch_line ref target ln)) c) c lines in
      xdo (XRaw ("BATCH -" +:+ ref)) c.

(** [dispatchOutbound]: it waits ([None]) while the client is not connected or
    is being restored, and drops the request if the writer is closed then. *)
Definition dispatchOutbound (G : genv) (c : iconn) : option iconn :=
  match ic_in_hand c with
  | None => None
  | Some r =>
      if negb (ge_connected G) || ic_restoring c then
        if ic_closed c then Some (c <| ic_in_hand := None |>) else None
      else
        let c := c <| ic_in_hand := None |> in
        Some (if String.eqb (or_raw r) "" then messageNow G (or_target r) (or_text r) c else xdo (XRaw (or_raw r)) c)
  end.

Definition SendRaw (G : genv) (line : string) (c : iconn) : iconn * option send_error :=
  if ge_connected G then enqueue (raw_request line) c else (c, Some NotConnected).

Definition ConnMessage (G : genv) (target text : string) (c : iconn) : iconn * option send_error :=
  if ge_connected G then enqueue (OutboundRequest "" target text) c else (c, Some NotConnected).

(** ** Joining channels *)

Definition joinLineBudget : Z := 400.

Definition keyed_channel (keys : gmap string string) (ch : string) : option (string * string) :=
  let key := default "" (keys !! ch) in if String.eqb key "" then None else Some (ch, key).

Definition planAutojoin (channels : list string) (keys : gmap string string)
    : list (string * string) * list string :=
  (omap (keyed_channel keys) channels, filter (λ ch, keyed_channel keys ch = None) channels).

Definition join_line (batch : list string) : string := "JOIN " +:+ str_join "," batch.

(** The loop over the channels without a key; [size] counts their bytes and a
    comma each. *)
Fixpoint join_batches (batch : list string) (size : Z) (chans : list string) : list string :=
  match chans with
  | [] => match batch with [] => [] | _ => [join_line batch] end
  | ch :: chans =>
      if bool_decide (batch ≠ []) && (joinLineBudget <? size + 1 + str_len ch)
      then join_line batch :: join_batches [ch] (str_len ch + 1) chans
      else join_batches (batch ++ [ch]) (size + str_len ch + 1) chans
  end.

Definition autojoinLines (channels : list string) (keys : gmap string string) : list string :=
  let '(keyed, keyless) := planAutojoin channels keys in
  ((λ '(ch, key), "JOIN " +:+ ch +:+ " " +:+ key) <$> keyed) ++ join_batches [] 0 keyless.

(** The lines are queued up to the first that is refused. *)
Fixpoint send_lines (G : genv) (lines : list string) (c : iconn) : iconn :=
  match lines with
  | [] => c
  | l :: lines => match SendRaw G l c with (c, None) => send_lines G lines c | (c, Some _) => c end
  end.

Definition Autojoin (G : genv) (c : iconn) : iconn :=
  send_lines G (autojoinLines (io_channels (ic_opts c)) (io_channel_keys (ic_opts c))) c.

(** ** MONITOR *)

Definition monitorChunk : nat := 15.

(** [l] in pieces of [n]; the fuel is the length of [l]. *)
Fixpoint pieces {A} (fuel n : nat) (l : list A) : list (list A) :=
  match fuel, l with
  | O, _ | _, [] => []
  | S fuel, _ => take n l :: pieces fuel n (drop n l)
  end.

Definition monitor_lines (friends : list string) : list string :=
  (λ l, "MONITOR + " +:+ str_join "," l) <$> pieces (length friends) monitorChunk friends.

Definition armMonitor (c : iconn) : iconn :=
  foldl (λ c line, (enqueue (raw_request line) c).1) c (monitor_lines (io_monitor (ic_opts c))).

Section handlers.
Context `{UnicodeTables, Girc, TimeParse} (G : genv).

Definition monitor_nick (tok : string) : option string :=
  let tok := trim_space tok in
  let tok := match index_byte "!" tok with Some i => str_take i tok | None => tok end in
  if String.eqb tok "" then None else Some tok.

Definition emitMonitor (e : wire) (online : bool) (c : iconn) : iconn :=
  let list := e_last e in
  if String.eqb list "" then c
  else
    match omap monitor_nick (split_byte "," list) with
    | [] => c
    | nicks =>
        xemit (new_event EvMonitor (io_network (ic_opts c)) zero_time <| evt_online := online |> <| evt_args := Some nicks |>) c
    end.

(** ** Batches *)

Definition isHistoryBatch (typ : string) : bool :=
  String.eqb typ "chathistory" || String.eqb typ "draft/chathistory".

(** [a.After(b)]. *)
Definition time_after (a b : time) : bool := negb (time_is_zero a) && (time_is_zero b || (b <? a)).

(** [filterHistory]: whether the event is emitted. *)
Definition filterHistory (e : wire) (ev : event) (c : iconn) : iconn * bool :=
  let ref := tag e "batch" in
  match ic_hist c !! ref with
  | None => (c, true)
  | Some b =>
      if decide (evt_type ev = EvMessageIn) then
        let b := b <| hb_count ::= λ n, n + 1 |> in
        let b := match evt_message ev with
                 | Some m => if time_after (msg_time m) (hb_last b) then b <| hb_last := msg_time m |> else b
                 | None => b
                 end in
        (c <| ic_hist ::= <[ref := b]> |>, true)
      else (c, false)
  end.

Definition absorb_line (e : wire) (b : multilineBatch) : multilineBatch :=
  b <| mb_notice := String.eqb (w_command e) "NOTICE" |> <| mb_echo ::= λ x, x || w_echo e |>
    <| mb_lines ::= λ l, l ++ [e_last e] |>
    <| mb_concat ::= λ l, l ++ [match w_tags e with
                                | None => false
                                | Some _ => bool_decide (is_Some (g_tag (w_tags e) "draft/multiline-concat"))
                                end] |>.

Definition absorbMultiline (e : wire) (c : iconn) : iconn * bool :=
  if negb (String.eqb (w_command e) "PRIVMSG") && negb (String.eqb (w_command e) "NOTICE") then (c, false)
  else
    let ref := tag e "batch" in
    match ic_batches c !! ref with
    | None => (c, false)
    | Some b => (c <| ic_batches ::= <[ref := absorb_line e b]> |>, true)
    end.

(** [joinMultiline]: [first] is [i = 0]. *)
Fixpoint join_lines (first : bool) (lines : list string) (concat : list bool) : string :=
  match lines with
  | [] => ""
  | ln :: lines =>
      (if negb first && negb (default false (head concat)) then String LF "" else "") +:+
      ln +:+ join_lines false lines (tail concat)
  end%string.

Definition joinMultiline (lines : list string) (concat : list bool) : string := join_lines true lines concat.

Definition emit_translated (t : translated) (c : iconn) : iconn :=
  match t with Becomes ev => xemit ev c | _ => c end.

Definition synthetic (b : multilineBatch) : wire :=
  Wire (mb_source b) (mb_tags b) (mb_time b) (if mb_notice b then "NOTICE" else "PRIVMSG")
    [mb_target b; joinMultiline (mb_lines b) (mb_concat b)] (mb_echo b).

Definition finishBatch (b : multilineBatch) (c : iconn) : iconn :=
  emit_translated (toEvent (ge_now G) (io_network (ic_opts c)) (synthetic b) (ge_nick G)) c.

Definition open_batch (ref : string) (e : wire) (c : iconn) : iconn :=
  let typ := nth_param e 1 in
  let network := io_network (ic_opts c) in
  let c := if (2 <=? nparams e)%nat && String.eqb typ "soju.im/bouncer-networks"
           then xemit (new_event EvBouncerNetwork network zero_time) c else c in
  let c := if (3 <=? nparams e)%nat && isHistoryBatch typ
           then c <| ic_hist ::= <[ref := HistBatch (nth_param e 2) 0 zero_time]> |> else c in
  if (3 <=? nparams e)%nat && String.eqb typ "draft/multiline"
  then c <| ic_batches ::= <[ref := MultilineBatch false (nth_param e 2) (w_source e) (w_tags e) (w_time e) false [] []]> |>
  else c.

Definition close_batch (ref : string) (c : iconn) : iconn :=
  let c := match ic_hist c !! ref with
           | Some h =>
               xemit (new_event EvHistoryBatch (io_network (ic_opts c)) (hb_last h) <| evt_buffer := hb_target h |>
                        <| evt_count := hb_count h |>) (c <| ic_hist ::= delete ref |>)
           | None => c
           end in
  match ic_batches c !! ref with
  | Some b => finishBatch b (c <| ic_batches ::= delete ref |>)
  | None => c
  end.

Definition handleBatch (e : wire) (c : iconn) : iconn :=
  match w_params e with
  | String s ref :: _ =>
      if String.eqb ref "" then c
      else if Ascii.eqb s "+" then open_batch ref e c
      else if Ascii.eqb s "-" then close_batch ref c
      else c
  | _ => c
  end%string.
End handlers.

(** ** The relay's bookkeeping *)

Definition parse_uint (s : string) : option Z :=
  if String.eqb s "" then None else v ← parse_digits s 0; if v <? 2 ^ 64 then Some v else None.

Section relay.
Context `{UnicodeTables, Girc, TimeParse} (G : genv).

(** [relayTag]. *)
Definition relayTag (e : wire) (key : string) : option Z :=
  match w_tags e with
  | None => None
  | Some _ => v ← g_tag (w_tags e) key; n ← parse_uint v; if 0 <? n then Some n else None
  end.

(** [isReplay]. *)
Definition isReplay (e : wire) : bool :=
  match w_tags e with
  | None => false
  | Some _ => bool_decide (is_Some (g_tag (w_tags e) TagReplay))
  end.

Definition markProcessed (seq : Z) (c : iconn) : iconn := c <| ic_processed ::= Z.max seq |>.

(** The first handler of every line. *)
Definition on_any (e : wire) (c : iconn) : iconn :=
  match relayTag e TagAck with
  | Some seq => markProcessed seq c
  | None =>
      match relayTag e TagSeq with
      | Some seq =>
          let prev := ic_last_seq c in
          let c := c <| ic_last_seq := seq |> in
          if 0 <? prev then markProcessed prev c else c
      | None => c
      end
  end.

(** One tick of [ackLoop]. *)
Definition ackLoop (c : iconn) : iconn :=
  if ic_ack_queued c <? ic_processed c
  then xdo (XSyncAck (ic_processed c)) (c <| ic_ack_queued := ic_processed c |>) else c.

Definition numeric_line (text : string) (c : iconn) : event :=
  new_event EvNumeric (io_network (ic_opts c)) (ge_now G) <| evt_text := text |>.

Definition refresh_lines (channels : list string) : list outboundRequest :=
  channels ≫= λ ch, [raw_request ("NAMES " +:+ ch); raw_request ("TOPIC " +:+ ch)].

Definition finishResume (r : resumeState) (c : iconn) : iconn :=
  let info := rs_info r in
  let c := xemit (numeric_line ("resumed connection held by stugan-engine (detached " +:+
             ge_seconds G (i_detachedFor info) +:+ ", " +:+ itoa (i_backlog info) +:+ " buffered line(s))") c) c in
  let c := if 0 <? i_lost info
           then xemit (numeric_line ("warning: stugan-engine's buffer filled while stugan was down; " +:+
                  itoa (i_lost info) +:+ " earlier line(s) were lost") c) c else c in
  if i_unattended info then c
  else
    let nick := if String.eqb (i_nick info) "" then ge_nick G else i_nick info in
    let c := xemit (new_event EvConnect (io_network (ic_opts c)) zero_time <| evt_nick := nick |>
                      <| evt_resumed := true |> <| evt_args := Some (i_channels info) |>) c in
    let c := armMonitor c in
    match i_channels info with
    | [] => c
    | chans => c <| ic_refresh ::= λ l, l ++ [refresh_lines chans] |>
    end.

(** ** The handlers of commands *)

Definition on_connected (c : iconn) : iconn :=
  if ic_skip_connected c then c <| ic_skip_connected := false |>
  else armMonitor (xemit (new_event EvConnect (io_network (ic_opts c)) zero_time <| evt_nick := ge_nick G |>) c).

Definition on_disconnected (reason : string) (c : iconn) : iconn :=
  xemit (new_event EvDisconnect (io_network (ic_opts c)) zero_time <| evt_text := reason |>) c.

Definition on_ping (e : wire) (c : iconn) : iconn :=
  match ic_resume c with
  | Some r => if String.eqb (e_last e) (rs_marker r) then finishResume r (c <| ic_resume := None |>) else c
  | None => c
  end.

(** The commands of the generic handler. *)
Definition handled_commands : list string :=
  ["PRIVMSG"; "NOTICE"; "JOIN"; "PART"; "KICK"; "QUIT"; "NICK"; "TOPIC"; "332"; "331"; "AWAY"; "INVITE"; "ACCOUNT";
   "CHGHOST"; "SETNAME"; "CHATHISTORY"; "BOUNCER"; "322"; "323"; "TAGMSG"; "REDACT"; "FAIL"; "WARN"; "NOTE"] ++
  numericReplies.

Definition translate_line (e : wire) (c : iconn) : translated :=
  toEvent (ge_now G) (io_network (ic_opts c)) e (ge_nick G).

Definition on_command (e : wire) (c : iconn) : iconn :=
  if isReplay e then c
  else
    match absorbMultiline e c with
    | (c, true) => c
    | (c, false) =>
        match translate_line e c with
        | Becomes ev => let '(c, keep) := filterHistory e ev c in if keep then xemit ev c else c
        | _ => c
        end
    end.

(** Our own lines, echoed. *)
Definition on_echo (e : wire) (c : iconn) : iconn :=
  if w_echo e && negb (isReplay e) then
    match absorbMultiline e c with
    | (c, true) => c
    | (c, false) => emit_translated (translate_line e c) c
    end
  else c.

Definition on_names (e : wire) (c : iconn) : iconn :=
  if isReplay e then c
  else emit_translated (of_event (namesEvent (ge_now G) (io_network (ic_opts c)) e
         (prefixSymbols (default (ge_default_prefixes G) (ge_option G "PREFIX"))))) c.

Definition on_mode (e : wire) (c : iconn) : iconn :=
  if isReplay e then c
  else emit_translated (of_event (channelModeEvent (ge_now G) (io_network (ic_opts c)) e
         (default (ge_default_prefixes G) (ge_option G "PREFIX"))
         (default (ge_mode_defaults G) (ge_option G "CHANMODES")))) c.

Definition sasl_failures : list string := ["904"; "905"; "906"; "902"].

Definition on_sasl_failure (e : wire) (c : iconn) : iconn :=
  if isReplay e then c else c <| ic_auth_failed := true |>.

Definition install_mech (on : bool) (c : iconn) : iconn :=
  match ic_mech c with Some _ => c <| ic_cfg ::= λ g, g <| gc_sasl := on |> |> | None => c end.

Definition on_cap (e : wire) (c : iconn) : iconn :=
  match ic_mech c with
  | Some (MechScram m) =>
      if (3 <=? nparams e)%nat && (String.eqb (nth_param e 1) "LS" || String.eqb (nth_param e 1) "NEW")
      then c <| ic_mech := Some (MechScram (advertise (e_last e) m)) |> else c
  | _ => c
  end.

(** The handlers of one line that run after [on_any]: our own echoed lines go
    to the handler of all lines only. *)
Definition run_handlers (e : wire) (c : iconn) : iconn :=
  let c := on_echo e c in
  let cmd := String.eqb (w_command e) in
  if w_echo e then c
  else if cmd "PING" then on_ping e c
  else if cmd "730" then emitMonitor e true c
  else if cmd "731" then emitMonitor e false c
  else if cmd "CAP" then on_cap e c
  else if cmd "903" then install_mech false c
  else if cmd "BATCH" then handleBatch G e c
  else if bool_decide (w_command e ∈ handled_commands) then on_command e c
  else if cmd "353" then on_names e c
  else if bool_decide (w_command e ∈ sasl_failures) then on_sasl_failure e c
  else if cmd "MODE" then on_mode e c
  else c.

(** ** Connecting *)

Definition stableConn : Z := 30 * second.

Definition irc_error (c : iconn) (err : string) : string := "irc " +:+ io_network (ic_opts c) +:+ ": " +:+ err.

Definition via (c : iconn) : string := if io_tls (ic_opts c) then "TLS" else "plaintext".

Definition drop_batches (c : iconn) : iconn := c <| ic_batches := ∅ |> <| ic_hist := ∅ |>.

Definition reset_mech (c : iconn) : iconn :=
  match ic_mech c with
  | Some (MechScram m) => c <| ic_mech := Some (MechScram (scram_reset m)) |>
  | _ => c
  end.

(** [Connect] without a relay, up to the library's own connect: [Some] is the
    error it returns at once. *)
Definition connect_direct (c : iconn) : iconn * option string :=
  let c := drop_batches c in
  match useAddr (current_addr c) c with
  | (c, Some err) => (advanceAddr c, Some (irc_error c err))
  | (c, None) =>
      let c := xemit (numeric_line ("connecting to " +:+ gc_server (ic_cfg c) +:+ ":" +:+ itoa (gc_port (ic_cfg c)) +:+
                 " (" +:+ via c +:+ ")…") c) c in
      (install_mech true (reset_mech c) <| ic_auth_failed := false |>, None)
  end.

(** What it returns once the library's connect has: [None] is the context's
    error.  [lasted] is how long the connection was up. *)
Definition direct_done (cancelled : bool) (err : option string) (lasted : Z) (c : iconn)
    : iconn * option connect_result :=
  if cancelled then (c, None)
  else if ic_auth_failed c then (c, Some ConnectAuthFailed)
  else
    let c := if lasted <? stableConn then advanceAddr c else c in
    (c, Some match err with Some err => ConnectFailed (irc_error c err) | None => ConnectEnded end).

(** [connectRelay] up to [Open]: the request, or the error. *)
Definition connect_relay (c : iconn) : iconn * (ConnectRequest + string) :=
  let c := drop_batches c in
  let o := ic_opts c in
  match splitAddr (current_addr c) (io_tls o) with
  | inr err => (advanceAddr c, inr (irc_error c err))
  | inl (host, port) =>
      let c := c <| ic_cfg ::= set_server host port |> in
      let addr := join_host_port host port in
      let c := xemit (numeric_line ("connecting to " +:+ addr +:+ " (" +:+ via c +:+ ") via stugan-engine…") c) c in
      (c, inl (MkConnectRequest (io_relay_id o) addr (io_tls o) (io_insecure o) (io_cert o) (ic_fingerprint c)))
  end.

(** How [Open] came back; an upstream error is the server's fault. *)
Inductive open_result := OpenFailed (err : string) (upstream : bool) | Opened (s : lsession).

Definition live_nick (info : Info) (o : irc_options) : string :=
  if i_attached info && negb (String.eqb (i_nick info) "") then i_nick info else firstNonEmpty [io_nick o; "stugan"].

(** What follows, up to the library's connect: the session with its hook, and
    the result when there is nothing to run. *)
Definition relay_opened (cancelled : bool) (r : open_result) (c : iconn)
    : iconn * option lsession * option (option connect_result) :=
  match cancelled, r with
  | true, Opened _ => (xdo XCloseSession c, None, Some None)
  | true, OpenFailed _ _ => (c, None, Some None)
  | false, OpenFailed err upstream =>
      ((if upstream then advanceAddr c else c), None, Some (Some (ConnectFailed (irc_error c err))))
  | false, Opened s =>
      let c := c <| ic_sess := true |> in
      if ic_closing c then
        (xdo XTerminate c, None, Some (Some (ConnectFailed "use of closed network connection")))
      else
        let info := lx_info s in
        let c := c <| ic_last_seq := 0 |> <| ic_processed := 0 |> <| ic_ack_queued := 0 |>
                   <| ic_cfg ::= λ g, g <| gc_nick := live_nick info (ic_opts c) |> |> in
        let '(c, s) :=
          if i_attached info then
            let '(s', now) := on_restored s in
            (c <| ic_restoring := negb now |> <| ic_skip_connected := negb (i_unattended info) |>
               <| ic_resume := Some (ResumeState info (lx_marker s)) |>, s')
          else (c <| ic_restoring := false |> <| ic_skip_connected := false |> <| ic_resume := None |>, s) in
        (install_mech true c <| ic_auth_failed := false |>, Some s, None)
  end.

(** What it returns once the library's connect has. *)
Definition relay_done (cancelled : bool) (err : option string) (lasted : Z) (c : iconn)
    : iconn * option connect_result :=
  let c := if 0 <? ic_last_seq c then xdo (XSyncAck (ic_last_seq c)) c else c in
  let c := c <| ic_restoring := false |> <| ic_resume := None |> in
  if negb cancelled && ic_auth_failed c then (xdo XTerminate c, Some ConnectAuthFailed)
  else
    let c := xdo XCloseSession c in
    if cancelled then (c, None)
    else
      let c := if lasted <? stableConn then advanceAddr c else c in
      (c, Some match err with Some err => ConnectFailed (irc_error c err) | None => ConnectEnded end).

(** ** The mechanism's turn *)

(** [Encode], of any mechanism; EXTERNAL's is the library's. *)
Definition mech_encode `{Crypto} (random : option string) (params : list string) (c : iconn) : iconn :=
  let answer sent last c := xdo (XAnswer last) (foldl (λ c x, xdo (XAuthenticate x) c) c sent) in
  match ic_mech c with
  | Some (MechScram m) =>
      let '(m, sent, last) := scram_encode random params m in
      answer sent last (c <| ic_mech := Some (MechScram m) |>)
  | Some MechPlain =>
      let '(sent, last) := plain_encode (io_sasl_user (ic_opts c)) (io_sasl_pass (ic_opts c)) params in
      answer sent last c
  | _ => c
  end.

Definition mech_method (c : iconn) : iconn :=
  match ic_mech c with
  | Some (MechScram m) => c <| ic_mech := Some (MechScram (Method m).1) |>
  | _ => c
  end.

(** ** Closing *)

Definition Close (c : iconn) : iconn :=
  let c := writer_close (c <| ic_closing := true |>) in
  let c := if ic_sess c then xdo XTerminate c else c in
  xdo XCloseClient c.

Definition Detach (c : iconn) : iconn :=
  if io_relay (ic_opts c) then xdo XCloseClient (writer_close c) else Close c.

Definition knownCaps : list string :=
  ["echo-message"; "server-time"; "away-notify"; "account-notify"; "message-tags"; "multi-prefix"; "extended-join";
   "userhost-in-names"; "invite-notify"; "draft/chathistory"; "chathistory"; "account-tag"; "labeled-response";
   "standard-replies"; "draft/message-redaction"; "draft/multiline"; "chghost"; "setname"; "soju.im/bouncer-networks";
   "soju.im/bouncer-networks-notify"].

Definition Caps : list string := filter (λ name, ge_has_cap G name = true) knownCaps.

Definition CurrentNick : string := ge_nick G.
End relay.

(** ** What can happen to a connection

    The library finishes every handler of one line before it starts the next;
    the acknowledging goroutine, the writer and core's calls come in between.
    A line is therefore two steps, and [st_line] is the one in progress.  A
    connect begins, and returns, while no line is. *)

Record irc_state := IrcState { st_conn : iconn; st_line : option wire }.

Inductive irc_input :=
  | InArrive (e : wire)
  | InHandle
  | InConnected
  | InDisconnected (reason : string)
  | InRestored
  | InSendRaw (line : string)
  | InMessage (target text : string)
  | InAutojoin
  | InSelect (p : pick)
  | InDefault
  | InDispatch
  | InRefresh (i : nat)
  | InAckTick
  | InConnectDirect
  | InDirectDone (cancelled : bool) (err : option string) (lasted : Z)
  | InConnectRelay
  | InRelayOpened (cancelled : bool) (r : open_result)
  | InRelayDone (cancelled : bool) (err : option string) (lasted : Z)
  | InMethod
  | InEncode (random : option string) (params : list string)
  | InClose
  | InDetach.

Section steps.
Context `{UnicodeTables, Girc, TimeParse, Crypto}.

Definition irc_step (G : genv) (i : irc_input) (s : irc_state) : option irc_state :=
  let c := st_conn s in
  let next c := Some (IrcState c (st_line s)) in
  let between_lines c := if st_line s then None else next c in
  match i with
  | InArrive e => if st_line s then None else Some (IrcState (on_any e c) (Some e))
  | InHandle => e ← st_line s; Some (IrcState (run_handlers G e c) None)
  | InConnected => next (on_connected G c)
  | InDisconnected reason => next (on_disconnected reason c)
  | InRestored => next (c <| ic_restoring := false |>)
  | InSendRaw line => next (SendRaw G line c).1
  | InMessage target text => next (ConnMessage G target text c).1
  | InAutojoin => next (Autojoin G c)
  | InSelect p => c ← writer_select p c; next c
  | InDefault => c ← writer_default c; next c
  | InDispatch => c ← dispatchOutbound G c; next c
  | InRefresh i => next (enqueueBackground i c)
  | InAckTick => next (ackLoop c)
  | InConnectDirect => between_lines (connect_direct G c).1
  | InDirectDone cancelled err lasted => between_lines (direct_done cancelled err lasted c).1
  | InConnectRelay => between_lines (connect_relay G c).1
  | InRelayOpened cancelled r => between_lines (relay_opened cancelled r c).1.1
  | InRelayDone cancelled err lasted => between_lines (relay_done cancelled err lasted c).1
  | InMethod => next (mech_method c)
  | InEncode random params => next (mech_encode random params c)
  | InClose => next (Close c)
  | InDetach => next (Detach c)
  end.

Fixpoint irc_run (steps : list (genv * irc_input)) (s : irc_state) : option irc_state :=
  match steps with
  | [] => Some s
  | (G, i) :: steps => s ← irc_step G i s; irc_run steps s
  end.
End steps.
