(* ===== verification/IrcConnThms.v ===== *)
(** * Properties of a connection

    What [IrcConn] promises: the channels of the auto-join list are all joined,
    in lines that fit; a message of several lines and a page of history come
    out of their batches whole; the writer keeps the user's lines ahead of the
    background; a line is acknowledged to the relay only when core has all its
    events; the fingerprint of a registration tells registrations apart. *)

From Stdlib Require Import ZArith Lia Ascii Bool.
From stdpp Require Import base tactics list gmap strings.
From S2P Require Import Prelude GoStrings Utf8 EngineLine Frame LinkTags LinkSession CoreTypes CoreEvent CoreCommand IrcTranslate IrcSasl IrcConn.

#[local] Open Scope Z_scope.

(** ** JOIN lines *)

(** The bytes of a list of channels, a comma after each. *)
Definition join_size (chans : list string) : Z := sumZ (λ ch, str_len ch + 1) chans.

Lemma join_size_join chans : chans ≠ [] → str_len (str_join "," chans) = join_size chans - 1.
Proof.
  induction chans as [|x [|y l] IH]; [done|intros _; unfold join_size; cbn; lia|]. intros _.
  rewrite str_join_cons. unfold join_size, str_len in *. rewrite !str_length_app. cbn [sumZ foldr].
  specialize (IH ltac:(done)). unfold str_len in IH. cbn [sumZ foldr] in IH. cbn [String.length]. lia.
Qed.

(** A batch that fits: a single channel, or under the budget. *)
Definition batch_fits (b : list string) : Prop :=
  b ≠ [] ∧ (length b = 1%nat ∨ str_len (str_join "," b) < joinLineBudget).

Lemma join_batches_spec batch chans :
  batch = [] ∨ batch_fits batch →
  ∃ bs, join_batches batch (join_size batch) chans = join_line <$> bs ∧ concat bs = batch ++ chans ∧ Forall batch_fits bs.
Proof.
  revert batch. induction chans as [|ch chans IH]; intros batch Hb; cbn [join_batches].
  { destruct batch as [|x l]; [by exists []|]. destruct Hb as [?|Hb]; [done|]. exists [x :: l].
    cbn. rewrite !app_nil_r. auto. }
  destruct (bool_decide_reflect (batch ≠ [])) as [Hne|He]; cbn [andb].
  - destruct (Z.ltb_spec joinLineBudget (join_size batch + 1 + str_len ch)) as [Hl|Hl].
    + destruct (IH [ch]) as (bs & Hj & Hc & Hf); [right; split; [done|by left]|].
      exists (batch :: bs). unfold join_size in Hj. cbn [sumZ foldr] in Hj. rewrite Z.add_0_r in Hj. rewrite Hj. cbn.
      rewrite Hc. destruct Hb as [?|Hb]; [done|]. auto.
    + assert (Hs : join_size (batch ++ [ch]) = join_size batch + str_len ch + 1).
      { unfold join_size. rewrite sumZ_app. cbn. lia. }
      destruct (IH (batch ++ [ch])) as (bs & Hj & Hc & Hf).
      { right. split; [by destruct batch|]. right. rewrite join_size_join by (by destruct batch). lia. }
      exists bs. rewrite Hs in Hj. rewrite Hj, Hc, <- app_assoc. done.
  - assert (batch = []) as -> by (destruct batch; [done|by exfalso; apply He]).
    destruct (IH [ch]) as (bs & Hj & Hc & Hf); [right; split; [done|by left]|].
    exists bs. unfold join_size in *. cbn [sumZ foldr app] in *. rewrite Z.add_0_r in Hj. auto.
Qed.

Lemma plan_perm channels keys :
  (fst <$> (planAutojoin channels keys).1) ++ (planAutojoin channels keys).2 ≡ₚ channels.
Proof.
  unfold planAutojoin. cbn [fst snd]. induction channels as [|ch l IH]; [done|]. cbn [omap list_omap].
  destruct (keyed_channel keys ch) as [[ch' key]|] eqn:Hk.
  - rewrite filter_cons_False by (rewrite Hk; done). cbn. rewrite IH.
    unfold keyed_channel in Hk. by destruct (String.eqb _ _); simplify_eq/=.
  - rewrite filter_cons_True by done. by rewrite <- Permutation_middle, IH.
Qed.

(** Auto-join joins every channel of the list once, in lines that fit.  A
    channel with a key has a line of its own with the key; the others are
    batched in their order, each batch a single channel or shorter than the
    budget of 400 bytes. *)
Theorem autojoin_lines_fit channels keys :
  ∃ batches,
    autojoinLines channels keys =
      ((λ '(ch, key), "JOIN " +:+ ch +:+ " " +:+ key) <$> (planAutojoin channels keys).1) ++ (join_line <$> batches) ∧
    Forall batch_fits batches ∧
    (fst <$> (planAutojoin channels keys).1) ++ concat batches ≡ₚ channels.
Proof.
  destruct (join_batches_spec [] (planAutojoin channels keys).2) as (bs & Hj & Hc & Hf); [by left|].
  exists bs. unfold autojoinLines. cbn [app] in Hc.
  pose proof (plan_perm channels keys) as Hp. destruct (planAutojoin channels keys) as [keyed keyless].
  cbn [fst snd] in *. change (join_size []) with 0 in Hj. rewrite Hj, Hc. auto.
Qed.

(** ** The writer *)

(** The background lines a run of the writer dispatches while, at each of its
    steps, a line of the user is waiting. *)
Inductive writer_move : iconn → iconn → bool → Prop :=
  | move_select p c c' : writer_select p c = Some c' →
      writer_move c c' (match p with PickBg => true | PickQueue => false end)
  | move_default c c' : writer_default c = Some c' → writer_move c c' false
  | move_dispatch G c c' : dispatchOutbound G c = Some c' → writer_move c c' false
  | move_enqueue r c : writer_move c (enqueue r c).1 false
  | move_refresh i c : writer_move c (enqueueBackground i c) false.

Inductive writer_run : iconn → iconn → nat → Prop :=
  | run_nil c : writer_run c c 0
  | run_step c c1 c2 bg n : ic_queue c ≠ [] → writer_move c c1 bg → writer_run c1 c2 n →
      writer_run c c2 ((if bg then 1 else 0) + n).

Lemma foldl_keep {A B} (f : A → B) {X} (g : A → X → A) l a :
  (∀ a x, f (g a x) = f a) → f (foldl g a l) = f a.
Proof. intros Hg. revert a. induction l as [|x l IH]; intros a; [done|]. cbn. by rewrite IH, Hg. Qed.

Lemma message_now_waiting G target text c : ic_waiting (messageNow G target text c) = ic_waiting c.
Proof.
  unfold messageNow. destruct (negb _); [done|]. cbv zeta. destruct (negb _); [by rewrite foldl_keep|].
  cbn. by rewrite foldl_keep.
Qed.

Lemma move_waiting c c' bg : ic_queue c ≠ [] → writer_move c c' bg →
  (bg = true → ic_waiting c = true ∧ ic_waiting c' = false) ∧ (ic_waiting c = false → ic_waiting c' = false).
Proof.
  intros Hq Hm. destruct Hm as [p c c' Hs|c c' Hd|G c c' Hd|r c|i c].
  - unfold writer_select in Hs. destruct (ic_in_hand c); [done|]. destruct p.
    + destruct (ic_queue c); simplify_eq. split; done.
    + destruct (ic_waiting c); [|done]. destruct (ic_bg c); simplify_eq. split; done.
  - unfold writer_default in Hd. destruct (ic_in_hand c), (ic_queue c); done.
  - split; [done|]. unfold dispatchOutbound in Hd. destruct (ic_in_hand c); [|done].
    destruct (_ || _); [destruct (ic_closed c); by simplify_eq|]. cbv zeta in Hd. simplify_eq.
    destruct (String.eqb _ _); [rewrite message_now_waiting; done|done].
  - split; [done|]. unfold enqueue. by repeat case_match.
  - split; [done|]. unfold enqueueBackground. by repeat case_match.
Qed.

(** The background never delays the user by more than one line.  While a
    line of the user is queued, the writer dispatches at most one background
    line, whatever is queued meanwhile and however the choices between ready
    channels fall; and none at all unless it had been waiting for either. *)
Theorem background_yields c c' n : writer_run c c' n →
  (n ≤ 1)%nat ∧ (ic_waiting c = false → n = 0%nat).
Proof.
  induction 1 as [|c c1 c2 bg n Hq Hm _ [IH1 IH2]]; [lia|].
  destruct (move_waiting c c1 bg Hq Hm) as [Ht Hf]. destruct bg.
  - destruct (Ht eq_refl) as [Hw Hw']. rewrite (IH2 Hw'). split; [lia|congruence].
  - split; [lia|]. intros Hw. by rewrite (IH2 (Hf Hw)).
Qed.

(** ** Messages of several lines *)

Section batches.
Context `{UnicodeTables, G0 : Girc, TimeParse} (G : genv).

(** A BATCH line of the server, and a line of a multiline batch. *)
Definition batch_command (e : wire) (params : list string) : Prop :=
  w_command e = "BATCH" ∧ w_echo e = false ∧ w_params e = params.

Definition multiline_member (ref : string) (echo : bool) (e : wire) : Prop :=
  w_command e = "PRIVMSG" ∧ w_echo e = echo ∧ tag e "batch" = ref ∧ isReplay e = false ∧
  g_tag (w_tags e) "draft/multiline-concat" = None.

Lemma join_lines_plain x l :
  joinMultiline (x :: l) (replicate (S (length l)) false) = str_join (String LF "") (x :: l).
Proof.
  unfold joinMultiline. cbn [length replicate join_lines negb andb tail]. change ("" +:+ ?a)%string with a.
  revert x. induction l as [|y l IH]; intros x; [apply str_app_nil_r|].
  rewrite str_join_cons, <- IH. cbn [length replicate join_lines negb andb tail head default]. done.
Qed.

Lemma batch_handled e params c : batch_command e params → run_handlers G e c = handleBatch G e c.
Proof. intros (Hc & He & _). unfold run_handlers, on_echo. by rewrite He, Hc. Qed.

Lemma absorb_member ref echo e b c : multiline_member ref echo e → ic_batches c !! ref = Some b →
  run_handlers G e c = c <| ic_batches ::= <[ref := absorb_line e b]> |>.
Proof.
  intros (Hc & He & Ht & Hr & _) Hb.
  assert (Ha : absorbMultiline e c = (c <| ic_batches ::= <[ref := absorb_line e b]> |>, true)).
  { unfold absorbMultiline. rewrite Hc. cbn [String.eqb negb andb]. by rewrite Ht, Hb. }
  unfold run_handlers, on_echo, on_command. rewrite He, Hr, Hc, Ha. cbv zeta.
  destruct echo; [done|]. cbn [andb String.eqb Ascii.eqb Bool.eqb].
  assert (bool_decide ("PRIVMSG" ∈ handled_commands) = true) as -> by by vm_compute. by rewrite Ha.
Qed.

Lemma absorb_members ref echo es b c : Forall (multiline_member ref echo) es → ic_batches c !! ref = Some b →
  foldl (λ c e, run_handlers G e c) c es =
  c <| ic_batches ::= <[ref := foldl (λ b e, absorb_line e b) b es]> |>.
Proof.
  intros Hes. revert b c. induction Hes as [|e es He Hes IH]; intros b c Hb; cbn [foldl].
  - destruct c. cbn in *. unfold update. cbn. by rewrite insert_id.
  - rewrite (absorb_member ref echo e b) by done.
    rewrite (IH (absorb_line e b)) by (cbn; by rewrite lookup_insert_eq).
    destruct c. unfold update. cbn. by rewrite insert_insert_eq.
Qed.

Lemma absorb_lines ref echo es b : Forall (multiline_member ref echo) es →
  foldl (λ b e, absorb_line e b) b es =
  MultilineBatch (if bool_decide (es = []) then mb_notice b else false) (mb_target b) (mb_source b) (mb_tags b) (mb_time b)
    (mb_echo b || (negb (bool_decide (es = [])) && echo)) (mb_lines b ++ (e_last <$> es))
    (mb_concat b ++ replicate (length es) false).
Proof.
  intros Hes. revert b. induction Hes as [|e es (Hc & He & Ht & Hr & Hm) Hes IH]; intros b; cbn [foldl].
  - destruct b. cbn. by rewrite orb_false_r, !app_nil_r.
  - rewrite IH. unfold absorb_line. rewrite Hc, He, Hm. cbn.
    destruct (bool_decide (es = [])); destruct (w_tags e); cbn; rewrite <- ?app_assoc; f_equal;
      destruct (mb_echo b), echo; done.
Qed.

Lemma handle_open_batch ref typ target e c : ref ≠ ""%string → w_params e = ["+" +:+ ref; typ; target] →
  handleBatch G e c = open_batch ref e c.
Proof.
  intros Hr Hp. unfold handleBatch. rewrite Hp. change ("+" +:+ ref) with (String "+" ref). cbv iota beta.
  by rewrite (proj2 (String.eqb_neq ref "")).
Qed.

Lemma handle_close_batch ref e c : ref ≠ ""%string → w_params e = ["-" +:+ ref] → handleBatch G e c = close_batch G ref c.
Proof.
  intros Hr Hp. unfold handleBatch. rewrite Hp. change ("-" +:+ ref) with (String "-" ref). cbv iota beta.
  by rewrite (proj2 (String.eqb_neq ref "")).
Qed.

Lemma close_multiline ref b c : ic_hist c !! ref = None → ic_batches c !! ref = Some b →
  close_batch G ref c = finishBatch G b (c <| ic_batches ::= delete ref |>).
Proof. intros Hh Hb. unfold close_batch. by rewrite Hh, Hb. Qed.

Lemma delete_put ref b c : (c <| ic_batches ::= <[ref := b]> |>) <| ic_batches ::= delete ref |> = c <| ic_batches ::= delete ref |>.
Proof. destruct c. unfold update. cbn. f_equal. apply delete_insert_eq. Qed.

(** C12: a message of several lines comes out of its batch whole.  When the
    lines of a text arrive one by one inside a multiline batch, ours or
    another's, nothing is emitted until the batch closes; then the connection
    does what a single PRIVMSG with the whole text, carrying the source, tags
    and time of the batch, would have made it do, and forgets the batch. *)
Theorem multiline_reassembled ref target text opening es closing echo c :
  ref ≠ ""%string → ic_hist c !! ref = None →
  batch_command opening ["+" +:+ ref; "draft/multiline"; target] →
  Forall (multiline_member ref echo) es → e_last <$> es = split_byte LF text →
  batch_command closing ["-" +:+ ref] →
  foldl (λ c e, run_handlers G e c) c ([opening] ++ es ++ [closing]) =
  emit_translated
    (toEvent (ge_now G) (io_network (ic_opts c))
       (Wire (w_source opening) (w_tags opening) (w_time opening) "PRIVMSG" [target; text] echo) (ge_nick G))
    (c <| ic_batches ::= delete ref |>).
Proof.
  intros Href Hh Ho Hes Htext Hcl. rewrite !foldl_app. cbn [foldl].
  rewrite (batch_handled opening _ _ Ho), (handle_open_batch ref _ _ _ _ Href (proj2 (proj2 Ho))).
  set (b0 := MultilineBatch false target (w_source opening) (w_tags opening) (w_time opening) false [] []).
  assert (open_batch ref opening c = c <| ic_batches ::= <[ref := b0]> |>) as ->.
  { unfold open_batch, nparams, nth_param. by rewrite (proj2 (proj2 Ho)). }
  rewrite (absorb_members ref echo es b0); [|done|cbn; by rewrite lookup_insert_eq].
  rewrite (batch_handled closing _ _ Hcl), (handle_close_batch ref _ _ Href (proj2 (proj2 Hcl))).
  rewrite (absorb_lines ref echo) by done. rewrite Htext.
  assert (Hne : es ≠ []). { intros ->. cbn in Htext. by destruct (split_byte_nonempty LF text). }
  assert (Hlen : length es = length (split_byte LF text)) by (by rewrite <- Htext, length_fmap).
  rewrite bool_decide_eq_false_2 by done. cbn [negb andb orb mb_notice mb_target mb_source mb_tags mb_time mb_echo mb_lines mb_concat b0 app].
  rewrite Hlen. erewrite (close_multiline ref) by (first [exact Hh | exact (lookup_insert_eq _ _ _)]).
  rewrite delete_put, delete_put. unfold finishBatch, synthetic. cbn [mb_notice mb_target mb_source mb_tags mb_time mb_echo mb_lines mb_concat].
  pose proof (join_split LF text) as Hj. destruct (split_byte LF text) as [|x l].
  { by apply fmap_nil_inv in Htext. }
  cbn [length]. by rewrite join_lines_plain, Hj.
Qed.

(** ** Pages of history *)

(** A line of an open history batch, of a command the connection translates. *)
Definition history_member (ref : string) (e : wire) : Prop :=
  w_command e ∈ handled_commands ∧ w_echo e = false ∧ isReplay e = false ∧ tag e "batch" = ref.

(** The message a line of a page carries, if it is one. *)
Definition page_message (c : iconn) (e : wire) : option event :=
  match translate_line G e c with
  | Becomes ev => if decide (evt_type ev = EvMessageIn) then Some ev else None
  | _ => None
  end.

Definition newest (t : time) (evs : list event) : time :=
  foldl (λ t ev, match evt_message ev with
                 | Some m => if time_after (msg_time m) t then msg_time m else t
                 | None => t
                 end) t evs.

Lemma generic_handler e c : w_command e ∈ handled_commands → w_echo e = false →
  run_handlers G e c = on_command G e c.
Proof.
  intros Hc He. unfold run_handlers, on_echo. rewrite He. cbv zeta. cbn [andb].
  assert (Hall : Forall (λ cmd, forallb (λ x, negb (String.eqb cmd x)) ["PING"; "730"; "731"; "CAP"; "903"; "BATCH"] = true)
    handled_commands) by (apply Forall_forall; intros x Hx; revert x Hx; apply Forall_forall; repeat constructor).
  rewrite Forall_forall in Hall. specialize (Hall _ Hc). cbn [forallb] in Hall.
  repeat match goal with K : negb _ && _ = true |- _ => apply andb_true_iff in K as [?%negb_true_iff K] end.
  repeat match goal with K : String.eqb _ _ = false |- _ => rewrite K; clear K end.
  by rewrite bool_decide_eq_true_2.
Qed.

(** A page in progress: its batch, and what was passed on. *)
Definition put_page (ref : string) (b : histBatch) (evs : list event) (c : iconn) : iconn :=
  c <| ic_hist ::= <[ref := b]> |> <| ic_out ::= λ l, l ++ (XEmit <$> evs) |>.

Lemma put_page_nil ref b c : ic_hist c !! ref = Some b → put_page ref b [] c = c.
Proof.
  intros Hb. destruct c. cbn in Hb. unfold put_page, update. cbn. f_equal; [by apply insert_id|by apply app_nil_r].
Qed.

Lemma put_page_put ref b b' evs evs' c :
  put_page ref b' evs' (put_page ref b evs c) = put_page ref b' (evs ++ evs') c.
Proof.
  destruct c. unfold put_page, update. cbn. f_equal; [by apply insert_insert_eq|by rewrite fmap_app, app_assoc].
Qed.

(** The batch after messages. *)
Definition counted (b : histBatch) (evs : list event) : histBatch :=
  HistBatch (hb_target b) (hb_count b + Z.of_nat (length evs)) (newest (hb_last b) evs).

Lemma counted_cons b ev evs : counted (counted b [ev]) evs = counted b (ev :: evs).
Proof. unfold counted. cbn [hb_target hb_count hb_last length]. f_equal. lia. Qed.

Lemma page_line ref b e c : history_member ref e → ic_batches c !! ref = None → ic_hist c !! ref = Some b →
  run_handlers G e c =
  match page_message c e with Some ev => put_page ref (counted b [ev]) [ev] c | None => c end.
Proof.
  intros (Hc & He & Hr & Ht) Hb Hh. rewrite generic_handler by done. unfold on_command. rewrite Hr.
  assert (absorbMultiline e c = (c, false)) as -> by (unfold absorbMultiline; rewrite Ht, Hb; by destruct (_ && _)).
  unfold page_message. destruct (translate_line G e c) as [|ev|]; [done| |done].
  unfold filterHistory. rewrite Ht, Hh. destruct (decide (evt_type ev = EvMessageIn)); [|done].
  unfold put_page, counted, newest. cbn [foldl]. destruct (evt_message ev) as [m|]; [destruct (time_after _ _)|]; by destruct b.
Qed.

Lemma page_lines ref es b c : Forall (history_member ref) es → ic_batches c !! ref = None → ic_hist c !! ref = Some b →
  foldl (λ c e, run_handlers G e c) c es =
  put_page ref (counted b (omap (page_message c) es)) (omap (page_message c) es) c.
Proof.
  intros Hes. revert b c. induction Hes as [|e es He Hes IH]; intros b c Hb Hh; cbn [foldl].
  - rewrite put_page_nil; [done|]. rewrite Hh. f_equal. destruct b. unfold counted. cbn. f_equal. lia.
  - rewrite (page_line ref b) by done. cbn [omap list_omap]. destruct (page_message c e) as [ev|]; [|by apply IH].
    rewrite (IH (counted b [ev])); [|exact Hb|exact (lookup_insert_eq _ _ _)].
    change (page_message (put_page ref (counted b [ev]) [ev] c)) with (page_message c).
    by rewrite put_page_put, counted_cons.
Qed.

Lemma close_page ref b evs c : ic_batches c !! ref = None →
  close_batch G ref (put_page ref b evs c) =
  c <| ic_hist ::= delete ref |>
    <| ic_out ::= λ l, l ++ (XEmit <$> evs ++
         [new_event EvHistoryBatch (io_network (ic_opts c)) (hb_last b)
            <| evt_buffer := hb_target b |> <| evt_count := hb_count b |>]) |>.
Proof.
  intros Hb. unfold close_batch.
  assert (ic_hist (put_page ref b evs c) !! ref = Some b) as -> by exact (lookup_insert_eq _ _ _).
  change (ic_batches _ !! ref) with (ic_batches c !! ref). rewrite Hb.
  destruct c. unfold xemit, put_page, update. cbn. f_equal; [by apply delete_insert_eq|].
  by rewrite fmap_app, app_assoc.
Qed.

(** A page of history is counted and adds messages only.  Of the lines of a
    chathistory batch exactly those that are messages are passed on, in their
    order; anything else, a JOIN or a NICK that would rewrite the present
    members, is dropped; and when the batch closes the connection reports the
    number of the messages it passed on and the time of the newest, from which
    the next page is asked for. *)
Theorem history_page_reported ref typ target opening es closing c :
  ref ≠ ""%string → isHistoryBatch typ = true → ic_batches c !! ref = None →
  batch_command opening ["+" +:+ ref; typ; target] →
  Forall (history_member ref) es →
  batch_command closing ["-" +:+ ref] →
  let msgs := omap (page_message c) es in
  foldl (λ c e, run_handlers G e c) c ([opening] ++ es ++ [closing]) =
  c <| ic_hist ::= delete ref |>
    <| ic_out ::= λ l, l ++ (XEmit <$> msgs ++
         [new_event EvHistoryBatch (io_network (ic_opts c)) (newest zero_time msgs)
            <| evt_buffer := target |> <| evt_count := Z.of_nat (length msgs) |>]) |>.
Proof.
  intros Href Htyp Hb Ho Hes Hcl msgs. rewrite !foldl_app. cbn [foldl].
  rewrite (batch_handled opening _ _ Ho), (handle_open_batch ref _ _ _ _ Href (proj2 (proj2 Ho))).
  assert (open_batch ref opening c = c <| ic_hist ::= <[ref := HistBatch target 0 zero_time]> |>) as ->.
  { unfold open_batch, nparams, nth_param. rewrite (proj2 (proj2 Ho)). unfold isHistoryBatch in Htyp.
    apply orb_true_iff in Htyp as [Ht|Ht]; apply String.eqb_eq in Ht; by subst typ. }
  assert (c <| ic_hist ::= <[ref := HistBatch target 0 zero_time]> |> = put_page ref (HistBatch target 0 zero_time) [] c) as ->.
  { destruct c. unfold put_page, update. cbn. by rewrite app_nil_r. }
  rewrite (page_lines ref es (HistBatch target 0 zero_time)); [|done|exact Hb|exact (lookup_insert_eq _ _ _)].
  change (page_message (put_page ref _ [] c)) with (page_message c). fold msgs. rewrite put_page_put.
  rewrite (batch_handled closing _ _ Hcl), (handle_close_batch ref _ _ Href (proj2 (proj2 Hcl))).
  by rewrite close_page.
Qed.
End batches.

(** ** What is acknowledged to the relay *)

Definition is_ack (x : irc_effect) : bool := match x with XSyncAck _ => true | _ => false end.

(** Steps that leave the bookkeeping of sequence numbers alone. *)
Record quiet (c c' : iconn) : Prop := {
  q_last : ic_last_seq c' = ic_last_seq c;
  q_processed : ic_processed c' = ic_processed c;
  q_queued : ic_ack_queued c' = ic_ack_queued c;
  q_out : ∃ new, ic_out c' = ic_out c ++ new ∧ existsb is_ack new = false;
}.

#[export] Instance quiet_po : PreOrder quiet.
Proof.
  split.
  - intros c. split; [done..|]. exists []. by rewrite app_nil_r.
  - intros c1 c2 c3 [H1 H2 H3 (n1 & Ho1 & Hn1)] [K1 K2 K3 (n2 & Ho2 & Hn2)].
    split; [congruence..|]. exists (n1 ++ n2). rewrite Ho2, Ho1, app_assoc. split; [done|].
    by rewrite existsb_app, Hn1, Hn2.
Qed.

Lemma quiet_same c c' :
  ic_last_seq c' = ic_last_seq c → ic_processed c' = ic_processed c → ic_ack_queued c' = ic_ack_queued c →
  ic_out c' = ic_out c → quiet c c'.
Proof. intros H1 H2 H3 Ho. split; [done..|]. exists []. by rewrite app_nil_r. Qed.

Lemma quiet_do c0 x c : is_ack x = false → quiet c0 c → quiet c0 (xdo x c).
Proof.
  intros Hx K. etransitivity; [exact K|]. split; [done..|]. exists [x]. split; [done|]. cbn. by rewrite Hx.
Qed.

Lemma quiet_emit c0 ev c : quiet c0 c → quiet c0 (xemit ev c).
Proof. intros K. by apply (quiet_do c0 (XEmit ev)). Qed.

(** A change of other fields on top. *)
Lemma quiet_put c0 c c' :
  ic_last_seq c' = ic_last_seq c → ic_processed c' = ic_processed c → ic_ack_queued c' = ic_ack_queued c →
  ic_out c' = ic_out c → quiet c0 c → quiet c0 c'.
Proof. intros. etransitivity; [done|by apply quiet_same]. Qed.

Lemma quiet_handlers_foldl {X} (g : iconn → X → iconn) l c0 c :
  (∀ c x, quiet c0 c → quiet c0 (g c x)) → quiet c0 c → quiet c0 (foldl g c l).
Proof. intros Hg. revert c. induction l as [|x l IH]; intros c K; [done|]. cbn. apply IH. by apply Hg. Qed.

Section quiet.
Context `{UnicodeTables, Girc, TimeParse, Crypto} (G : genv) (c0 : iconn).

Lemma quiet_enqueue r c : quiet c0 c → quiet c0 (enqueue r c).1.
Proof. intros K. unfold enqueue. repeat case_match; [done| |done]. revert K. by apply quiet_put. Qed.

Lemma quiet_arm c : quiet c0 c → quiet c0 (armMonitor c).
Proof. intros K. unfold armMonitor. apply quiet_handlers_foldl; [|done]. intros. by apply quiet_enqueue. Qed.

Lemma quiet_advance c : quiet c0 c → quiet c0 (advanceAddr c).
Proof. intros K. unfold advanceAddr. destruct (_ <? _)%nat; [|done]. revert K. by apply quiet_put. Qed.

Lemma quiet_install b c : quiet c0 c → quiet c0 (install_mech b c).
Proof. intros K. unfold install_mech. destruct (ic_mech c); [|done]. revert K. by apply quiet_put. Qed.

Lemma quiet_translated t c : quiet c0 c → quiet c0 (emit_translated t c).
Proof. intros K. destruct t; [done|by apply quiet_emit|done]. Qed.
End quiet.

(** One call or one change of other fields at a time: the goal is
    [quiet c0 (f … c)]. *)
Ltac quiet_all := repeat first
  [ assumption
  | reflexivity
  | apply quiet_emit
  | apply quiet_do; [done|]
  | apply quiet_handlers_foldl; [intros|]
  | apply quiet_translated
  | apply quiet_enqueue
  | apply quiet_arm
  | apply quiet_advance
  | apply quiet_install
  | match goal with |- quiet _ (update _ _ ?c) => apply (quiet_put _ c); [reflexivity..|] end ].

Section quiet_handlers.
Context `{UnicodeTables, Girc, TimeParse, Crypto} (G : genv) (c0 : iconn).

Lemma quiet_batch e c : quiet c0 c → quiet c0 (handleBatch G e c).
Proof.
  intros K. unfold handleBatch, open_batch, close_batch, finishBatch. cbv zeta.
  destruct (w_params e) as [|[|s ref] ps]; try done.
  destruct (String.eqb ref ""); [done|]. destruct (Ascii.eqb s "+").
  { repeat match goal with |- context [if ?b then _ else _] => destruct b end; quiet_all. }
  destruct (Ascii.eqb s "-"); [|done].
  destruct (ic_hist c !! ref); [destruct (ic_batches (xemit _ _) !! ref)|destruct (ic_batches c !! ref)]; quiet_all.
Qed.

Lemma quiet_absorb e c : quiet c0 c → quiet c0 (absorbMultiline e c).1.
Proof. intros K. unfold absorbMultiline. repeat case_match; cbn [fst]; quiet_all. Qed.

Lemma quiet_filter e ev c : quiet c0 c → quiet c0 (filterHistory e ev c).1.
Proof. intros K. unfold filterHistory. cbv zeta. destruct (ic_hist c !! _); [|done]. destruct (decide _); cbn [fst]; quiet_all. Qed.

Lemma quiet_command e c : quiet c0 c → quiet c0 (on_command G e c).
Proof.
  intros K. unfold on_command. destruct (isReplay e); [done|].
  pose proof (quiet_absorb e c K) as Ka. destruct (absorbMultiline e c) as [c1 []]; [done|].
  destruct (translate_line G e c1) as [|ev|]; [done| |done].
  pose proof (quiet_filter e ev c1 Ka) as Kf. destruct (filterHistory e ev c1) as [c2 []]; quiet_all.
Qed.

Lemma quiet_echo e c : quiet c0 c → quiet c0 (on_echo G e c).
Proof.
  intros K. unfold on_echo. destruct (_ && _); [|done].
  pose proof (quiet_absorb e c K) as Ka. destruct (absorbMultiline e c) as [c1 []]; quiet_all.
Qed.

Lemma quiet_resume r c : quiet c0 c → quiet c0 (finishResume G r c).
Proof.
  intros K. unfold finishResume. cbv zeta. destruct (0 <? i_lost (rs_info r)), (i_unattended (rs_info r)), (i_channels (rs_info r)); quiet_all.
Qed.

Lemma quiet_monitor e b c : quiet c0 c → quiet c0 (emitMonitor e b c).
Proof. intros K. unfold emitMonitor. cbv zeta. repeat case_match; quiet_all. Qed.

Lemma quiet_handlers e c : quiet c0 c → quiet c0 (run_handlers G e c).
Proof.
  intros K. unfold run_handlers. cbv zeta. apply (quiet_echo e) in K. revert K. generalize (on_echo G e c). clear c.
  intros c K. repeat (match goal with |- quiet _ (if ?b then _ else _) => destruct b end; [|]); try done.
  all: first [by apply quiet_monitor | by apply quiet_batch | by apply quiet_command | by apply quiet_install | idtac].
  - unfold on_ping. destruct (ic_resume c); [|done]. destruct (String.eqb _ _); [|done].
    apply quiet_resume. quiet_all.
  - unfold on_cap. destruct (ic_mech c) as [[| |]|]; try done. destruct (_ && _); quiet_all.
  - unfold on_names. destruct (isReplay e); quiet_all.
  - unfold on_sasl_failure. destruct (isReplay e); quiet_all.
  - unfold on_mode. destruct (isReplay e); quiet_all.
Qed.
End quiet_handlers.

(** What a relayed connection has been given: the highest sequence number whose
    handlers have all run, and that of the line in progress. *)
Record seen := Seen { sn_done : Z; sn_line : option Z }.

Section acks.
Context `{UnicodeTables, Girc, TimeParse, Crypto}.

Definition line_seq (e : wire) : option Z :=
  match relayTag e TagAck with Some _ => None | None => relayTag e TagSeq end.

Definition watch (c : iconn) (i : irc_input) (w : seen) : seen :=
  match i with
  | InArrive e => Seen (sn_done w) (line_seq e)
  | InHandle => Seen (match sn_line w with Some n => Z.max (sn_done w) n | None => sn_done w end) None
  | InRelayOpened false (Opened _) => if ic_closing c then w else Seen 0 None
  | _ => w
  end.

(** The relay numbers lines upwards, and probes for lines it has delivered. *)
Definition relay_sends (i : irc_input) (w : seen) : Prop :=
  match i with
  | InArrive e =>
      (∀ p, relayTag e TagAck = Some p → p ≤ sn_done w) ∧ (∀ n, line_seq e = Some n → sn_done w < n)
  | _ => True
  end.

Definition fresh_conn (s : irc_state) : Prop :=
  st_line s = None ∧ ic_last_seq (st_conn s) = 0 ∧ ic_processed (st_conn s) = 0 ∧ ic_ack_queued (st_conn s) = 0.

Inductive relay_run : irc_state → seen → Prop :=
  | relay_start s : fresh_conn s → relay_run s (Seen 0 None)
  | relay_step G i s s' w : relay_run s w → relay_sends i w → irc_step G i s = Some s' →
      relay_run s' (watch (st_conn s) i w).

Lemma relay_step_to G i s s' w w' :
  relay_run s w → relay_sends i w → irc_step G i s = Some s' → watch (st_conn s) i w = w' → relay_run s' w'.
Proof. intros Hr Hs Hi <-. by apply (relay_step G i s). Qed.

Record covered (s : irc_state) (w : seen) : Prop := {
  cov_done : 0 ≤ sn_done w;
  cov_processed : ic_processed (st_conn s) ≤ sn_done w;
  cov_queued : ic_ack_queued (st_conn s) ≤ sn_done w;
  cov_line : match sn_line w with
             | Some n => sn_done w < n ∧ ic_last_seq (st_conn s) ≤ n
             | None => ic_last_seq (st_conn s) ≤ sn_done w
             end;
  cov_idle : st_line s = None → sn_line w = None;
}.

Lemma covered_quiet c c' l w : quiet c c' → covered (IrcState c l) w → covered (IrcState c' l) w.
Proof. intros [E1 E2 E3 _] [K1 K2 K3 K4 K5]. cbn in *. split; cbn; rewrite ?E1, ?E2, ?E3; done. Qed.

(** The steps that touch no sequence number. *)
Definition plain_step (i : irc_input) : bool :=
  match i with
  | InArrive _ | InAckTick | InRelayOpened false (Opened _) | InRelayDone _ _ _ => false
  | _ => true
  end.

Lemma quiet_send_lines G lines c0 c : quiet c0 c → quiet c0 (send_lines G lines c).
Proof.
  revert c. induction lines as [|l lines IH]; intros c K; [done|]. cbn [send_lines]. unfold SendRaw.
  destruct (ge_connected G); [|done]. pose proof (quiet_enqueue c0 (raw_request l) c K) as Ke.
  destruct (enqueue _ c) as [c1 [|]]; [done|by apply IH].
Qed.

Lemma quiet_message_now G target text c0 c : quiet c0 c → quiet c0 (messageNow G target text c).
Proof.
  intros K. unfold messageNow. cbv zeta. destruct (negb _); [by apply quiet_do|].
  destruct (negb _); [apply quiet_handlers_foldl; [|done]; intros; by apply quiet_do|]. quiet_all.
Qed.

Lemma quiet_connects G c0 c : quiet c0 c →
  quiet c0 (connect_direct G c).1 ∧ quiet c0 (connect_relay G c).1 ∧
  (∀ b err d, quiet c0 (direct_done b err d c).1).
Proof.
  intros K. split_and!.
  - unfold connect_direct, useAddr. cbv zeta. destruct (splitAddr _ _) as [[h p]|err]; cbn [fst].
    + apply (quiet_put _ (install_mech true (reset_mech (xemit (numeric_line G
        ("connecting to " +:+ gc_server (set_server h p (ic_cfg c) <| gc_tls ::= fmap (λ t : tls_settings, t <| ts_server_name := h |>) |>) +:+ ":" +:+
         itoa (gc_port (set_server h p (ic_cfg c))) +:+ " (" +:+ via c +:+ ")…") c)
        (drop_batches c <| ic_cfg ::= λ g, set_server h p g <| gc_tls ::= fmap (λ t : tls_settings, t <| ts_server_name := h |>) |> |>)))));
        [reflexivity..|].
      apply quiet_install. unfold reset_mech. destruct (ic_mech _) as [[| |]|]; unfold drop_batches; quiet_all.
    + apply quiet_advance. unfold drop_batches. quiet_all.
  - unfold connect_relay. cbv zeta. destruct (splitAddr _ _) as [[h p]|err]; cbn [fst].
    + apply quiet_emit. unfold drop_batches. quiet_all.
    + apply quiet_advance. unfold drop_batches. quiet_all.
  - intros b err d. unfold direct_done. destruct b; [done|]. destruct (ic_auth_failed c); [done|]. cbn [fst].
    destruct (_ <? _); quiet_all.
Qed.

Lemma quiet_calls G c0 c : quiet c0 c →
  quiet c0 (on_connected G c) ∧ (∀ r, quiet c0 (on_disconnected r c)) ∧ (∀ i, quiet c0 (enqueueBackground i c)) ∧
  (∀ p c', writer_select p c = Some c' → quiet c0 c') ∧ (∀ c', writer_default c = Some c' → quiet c0 c') ∧
  (∀ c', dispatchOutbound G c = Some c' → quiet c0 c') ∧
  quiet c0 (mech_method c) ∧ (∀ r ps, quiet c0 (mech_encode r ps c)) ∧ quiet c0 (Close c) ∧ quiet c0 (Detach c).
Proof.
  intros K.
  assert (Kclose : quiet c0 (Close c)).
  { unfold Close, writer_close. cbv zeta. destruct (ic_sess _); quiet_all. }
  split_and!; [| | | | | | | |exact Kclose|].
  - unfold on_connected. destruct (ic_skip_connected c); quiet_all.
  - intros r. unfold on_disconnected. quiet_all.
  - intros i. unfold enqueueBackground. repeat case_match; quiet_all.
  - intros p c'. unfold writer_select, hold. intros Hs. repeat case_match; simplify_eq; quiet_all.
  - intros c'. unfold writer_default. intros Hs. repeat case_match; simplify_eq; quiet_all.
  - intros c'. unfold dispatchOutbound. cbv zeta. intros Hs.
    repeat case_match; simplify_eq; [quiet_all|apply quiet_message_now; quiet_all|quiet_all].
  - unfold mech_method. destruct (ic_mech c) as [[| |]|]; quiet_all.
  - intros r ps. unfold mech_encode. cbv zeta. destruct (ic_mech c) as [[|m|]|]; [done| | |done].
    + destruct (scram_encode r ps m) as [[m' sent] last]. quiet_all.
    + destruct (plain_encode _ _ _) as [sent last]. quiet_all.
  - unfold Detach, writer_close. destruct (io_relay _); [quiet_all|done].
Qed.

Lemma plain_quiet G i s s' : plain_step i = true → irc_step G i s = Some s' →
  quiet (st_conn s) (st_conn s') ∧ st_line s' = match i with InHandle => None | _ => st_line s end.
Proof.
  intros Hp Hs. destruct s as [c l].
  destruct (quiet_calls G c c (reflexivity c)) as (Q1 & Q2 & Q3 & Q4 & Q5 & Q6 & Q7 & Q8 & Q9 & Q10).
  destruct (quiet_connects G c c (reflexivity c)) as (R1 & R2 & R3).
  assert (Q11 : quiet c (c <| ic_restoring := false |>)) by by apply quiet_same.
  assert (Q12 : ∀ line, quiet c (SendRaw G line c).1).
  { intros line. unfold SendRaw. destruct (ge_connected G); [apply quiet_enqueue|]; reflexivity. }
  assert (Q13 : ∀ t x, quiet c (ConnMessage G t x c).1).
  { intros t x. unfold ConnMessage. destruct (ge_connected G); [apply quiet_enqueue|]; reflexivity. }
  assert (Q14 : quiet c (Autojoin G c)) by (apply quiet_send_lines; reflexivity).
  assert (Q15 : ∀ b r, plain_step (InRelayOpened b r) = true → quiet c (relay_opened b r c).1.1).
  { intros b r Hr. unfold relay_opened. destruct b, r as [err [|]|x]; try discriminate Hr; cbn [fst]; quiet_all. }
  destruct i; try discriminate Hp; cbn [irc_step st_conn st_line] in Hs;
    try (destruct l as [e|]; cbn in Hs; first [discriminate Hs | idtac]);
    repeat match type of Hs with (?o ≫= _) = _ => destruct o eqn:?; cbn in Hs; [|discriminate Hs] end;
    injection Hs as <-; (split; [|reflexivity]); cbn [st_conn];
    first [apply quiet_handlers; reflexivity | eauto].
Qed.

Lemma covered_step G i s s' w : covered s w → relay_sends i w → irc_step G i s = Some s' →
  covered s' (watch (st_conn s) i w).
Proof.
  intros Hcov Hsend Hs. destruct (plain_step i) eqn:Hp.
  - destruct (plain_quiet G i s s' Hp Hs) as [Hq Hl]. destruct s as [c l], s' as [c' l']. cbn in *. subst l'.
    pose proof (covered_quiet c c' l w Hq Hcov) as [K1 K2 K3 K4 K5]. cbn in *.
    assert (Hsame : i = InHandle ∨ (watch c i w = w ∧ match i with InHandle => None | _ => l end = l)).
    { destruct i; try discriminate Hp; auto. right. cbn in Hp |- *. by destruct cancelled, r. }
    destruct Hsame as [->|[-> ->]]; [|by split].
    cbn. split; cbn; [..|done]; destruct (sn_line w); lia.
  - destruct Hcov as [K1 K2 K3 K4 K5]. destruct s as [c l]. cbn in *.
    destruct i; try discriminate Hp; cbn [irc_step st_conn st_line] in Hs.
    + destruct l; [done|]. simplify_eq. cbn in Hsend. destruct Hsend as [Hprobe Hup]. rewrite (K5 eq_refl) in K4.
      unfold on_any. cbn [watch]. unfold line_seq in *.
      destruct (relayTag e TagAck) as [p|] eqn:Ha.
      * specialize (Hprobe p eq_refl). split; cbn; lia || done.
      * destruct (relayTag e TagSeq) as [n|] eqn:Hn; [|split; cbn; lia || done].
        specialize (Hup n eq_refl). split; cbn; destruct (0 <? ic_last_seq c); cbn; lia || done.
    + simplify_eq. cbn [watch]. unfold ackLoop. destruct (_ <? _); split; cbn; lia || done.
    + destruct l; [done|]. destruct cancelled, r as [|x]; try discriminate Hp. simplify_eq. cbn [watch].
      unfold relay_opened, install_mech. cbv zeta. cbn [ic_closing].
      assert (Hcl : ic_closing (c <| ic_sess := true |>) = ic_closing c) by done. rewrite Hcl.
      destruct (ic_closing c); [split; cbn; done|].
      destruct (i_attached _); [destruct (on_restored x)|]; cbn; destruct (ic_mech c); split; cbn; lia || done.
    + destruct l; [done|]. simplify_eq. cbn [watch]. unfold relay_done, advanceAddr. cbv zeta.
      repeat match goal with |- context [if ?b then _ else _] => destruct b end; split; cbn; done.
Qed.

Lemma relay_run_covered s w : relay_run s w → covered s w.
Proof.
  induction 1 as [s (Hl & E1 & E2 & E3)|G i s s' w _ IH Hsend Hs]; [split; cbn; lia || done|].
  by apply (covered_step G i s).
Qed.

Lemma app_nothing {A} (l new : list A) x : l = l ++ new → x ∉ new.
Proof. intros Ho. rewrite <- (app_nil_r l) in Ho at 1. apply app_inv_head in Ho as <-. apply not_elem_of_nil. Qed.

(** The acknowledgements of the two ends of a connect. *)
Lemma opened_acks r c : ic_out (relay_opened false (Opened r) c).1.1 = ic_out c ++ (if ic_closing c then [XTerminate] else []).
Proof.
  unfold relay_opened, install_mech. cbv zeta. change (ic_closing (update ic_sess _ c)) with (ic_closing c).
  destruct (ic_closing c); [done|]. rewrite app_nil_r.
  destruct (i_attached _); [destruct (on_restored r)|]; cbn; by destruct (ic_mech c).
Qed.

Lemma done_acks cancelled err lasted c new p :
  ic_out (relay_done cancelled err lasted c).1 = ic_out c ++ new → XSyncAck p ∈ new → p = ic_last_seq c.
Proof.
  unfold relay_done, advanceAddr. cbv zeta.
  repeat match goal with |- context [if ?b then _ else _] => destruct b end; cbn;
    rewrite <- ?app_assoc; intros Ho Hq; apply app_inv_head in Ho as <-; cbn in Hq; set_solver.
Qed.

(** What a step acknowledges: what was processed, or, when nothing is in
    progress, the last line. *)
Lemma irc_step_acks G i s s' new p :
  irc_step G i s = Some s' → ic_out (st_conn s') = ic_out (st_conn s) ++ new → XSyncAck p ∈ new →
  p = ic_processed (st_conn s) ∨ (p = ic_last_seq (st_conn s) ∧ st_line s = None).
Proof.
  intros Hs Hout Hin. destruct (plain_step i) eqn:Hp.
  { destruct (plain_quiet G i s s' Hp Hs) as [[_ _ _ (new' & Ho & Hn)] _].
    rewrite Hout in Ho. apply app_inv_head in Ho as <-. apply list_elem_of_In in Hin.
    assert (existsb is_ack new = true) by (apply existsb_exists; by eexists). congruence. }
  destruct s as [c l]. destruct i; try discriminate Hp; cbn [irc_step st_conn st_line] in *.
  - destruct l; [done|]. simplify_eq. exfalso. revert Hin. apply (app_nothing (ic_out c)). rewrite <- Hout.
    cbn. unfold on_any. destruct (relayTag e TagAck); [done|]. destruct (relayTag e TagSeq); [|done]. cbv zeta.
    by destruct (0 <? _).
  - simplify_eq. unfold ackLoop in Hout. cbn in Hout. destruct (_ <? _); cbn in Hout.
    + apply app_inv_head in Hout as <-. apply list_elem_of_singleton in Hin. simplify_eq. by left.
    + by destruct (app_nothing _ _ _ Hout Hin).
  - destruct l; [done|]. destruct cancelled, r as [|x]; try discriminate Hp. simplify_eq. cbn in Hout. exfalso.
    pose proof (opened_acks x c) as Ho. cbn in Ho. rewrite Ho in Hout. apply app_inv_head in Hout as <-.
    destruct (ic_closing c); set_solver.
  - destruct l; [done|]. simplify_eq. right. split; [|done]. by apply (done_acks cancelled err lasted c new).
Qed.

(** C5: a line is acknowledged only when it is dealt with.  In any run of a
    relayed connection, with acknowledging ticks, sends and reconnects between
    and inside lines, whenever a number is handed over to be acknowledged every
    line up to it has had all its handlers run, so its events are already with
    core and go through before the barrier that releases the acknowledgement;
    in particular the line in progress, if any, is not covered. *)
Theorem acks_cover_handled_lines G i s s' w new p :
  relay_run s w → irc_step G i s = Some s' →
  ic_out (st_conn s') = ic_out (st_conn s) ++ new → XSyncAck p ∈ new →
  p ≤ sn_done w ∧ (∀ n, sn_line w = Some n → p < n).
Proof.
  intros Hrun Hs Hout Hin. apply relay_run_covered in Hrun as [K1 K2 K3 K4 K5].
  destruct (irc_step_acks G i s s' new p Hs Hout Hin) as [->|[-> Hl]].
  - split; [done|]. intros n Hn. rewrite Hn in K4. lia.
  - rewrite (K5 Hl) in *. split; [done|discriminate].
Qed.
End acks.

(** ** Which registrations are the same *)

(** The settings that shape a registration, as the fingerprint should see them:
    the nick, the channels and the monitor list are not among them. *)
Definition uses_scram (o : irc_options) : bool :=
  io_sasl_scram o && negb (io_sasl_external o) && negb (String.eqb (io_sasl_user o) "").

Definition registration (o : irc_options) (addrs : list string) :=
  (addrs, (io_tls o, io_insecure o, io_sasl_external o, uses_scram o),
   [io_user o; io_realname o; io_sasl_user o; io_sasl_pass o; io_server_pass o; io_cert o]).

(** Nothing contains the separators. *)
Definition separable (o : irc_options) (addrs : list string) : Prop :=
  addrs ≠ [] ∧ Forall (λ a, no_byte "," a = true) addrs ∧
  Forall (λ p, no_byte (byte_of_z 0) p = true) (fingerprint_parts o addrs).

Lemma format_bool_inj a b : format_bool a = format_bool b → a = b.
Proof. by destruct a, b. Qed.

(** The fingerprint of a registration is that of its settings.  Two
    connections have the same fingerprint exactly if they agree on the servers
    and on every setting a registration depends on, the choice of SCRAM
    included; so the engine re-attaches a held socket after a change of nick or
    channels, and never after a change of credentials.  (The digest is taken to
    be injective, and no setting contains a NUL or an address a comma.) *)
Theorem fingerprint_is_registration G o addrs o' addrs' :
  (∀ x y, ge_sha256_hex G x = ge_sha256_hex G y → x = y) →
  separable o addrs → separable o' addrs' →
  registrationFingerprint G o addrs = registrationFingerprint G o' addrs' ↔
  registration o addrs = registration o' addrs'.
Proof.
  intros Hinj (Hn & Hc & Hp) (Hn' & Hc' & Hp'). unfold registrationFingerprint. split.
  - intros Hf. apply Hinj in Hf.
    assert (Hparts : fingerprint_parts o addrs = fingerprint_parts o' addrs').
    { rewrite <- (split_join (byte_of_z 0) (fingerprint_parts o addrs)) by done.
      rewrite <- (split_join (byte_of_z 0) (fingerprint_parts o' addrs')) by done. by f_equal. }
    unfold fingerprint_parts in Hparts. cbn [app] in Hparts.
    fold (uses_scram o) in Hparts. fold (uses_scram o') in Hparts. simplify_eq.
    assert (Ha : addrs = addrs').
    { rewrite <- (split_join "," addrs) by done. rewrite <- (split_join "," addrs') by done. by f_equal. }
    repeat match goal with K : format_bool _ = format_bool _ |- _ => apply format_bool_inj in K end.
    assert (Hs : uses_scram o = uses_scram o').
    { destruct (uses_scram o), (uses_scram o'); done. }
    unfold registration. congruence.
  - unfold registration. intros Hr. simplify_eq. f_equal. f_equal. unfold fingerprint_parts.
    fold (uses_scram o). fold (uses_scram o').
    by repeat match goal with K : ?f o = ?f o' |- _ => rewrite K; clear K end.
Qed.

(** ** SCRAM across reconnects *)

Section scram_reconnect.
Context `{UnicodeTables, Girc, TimeParse, Crypto} (G : genv).

(** A reconnect through the relay does not restart a SCRAM exchange.  A
    direct connect resets the mechanism before it dials; a relayed one installs
    it as the last exchange left it.  After a completed login the mechanism then
    answers every line of the server with nothing, and the login of the new
    registration is aborted. *)
Theorem relay_reconnect_keeps_scram c m x random params :
  ic_mech c = Some (MechScram m) → sc_step m = scramDone → ic_closing c = false →
  ((connect_direct G c).2 = None → ic_mech (connect_direct G c).1 = Some (MechScram (new_scram (sc_user m) (sc_pass m)))) ∧
  let c' := (relay_opened false (Opened x) (connect_relay G c).1).1.1 in
  ic_mech c' = Some (MechScram m) ∧
  ic_out (mech_encode random params c') = ic_out c' ++ [XAnswer ""].
Proof.
  intros Hm Hs Hc. split.
  - unfold connect_direct, useAddr. cbv zeta. destruct (splitAddr _ _) as [[h p]|err]; [|done]. intros _.
    cbn [fst]. unfold install_mech, reset_mech. cbn. rewrite Hm. done.
  - intros c'.
    assert (Hr : ic_mech (connect_relay G c).1 = Some (MechScram m) ∧ ic_closing (connect_relay G c).1 = false).
    { unfold connect_relay, advanceAddr. cbv zeta. destruct (splitAddr _ _) as [[h p]|err]; [done|]. cbn [fst].
      by destruct (_ <? _)%nat. }
    destruct Hr as [Hrm Hrc].
    assert (Hm' : ic_mech c' = Some (MechScram m)).
    { subst c'. unfold relay_opened, install_mech. cbv zeta. change (ic_closing (update ic_sess _ ?c)) with (ic_closing c).
      rewrite Hrc. destruct (i_attached _); [destruct (on_restored x)|]; cbn; rewrite Hrm; done. }
    split; [done|]. unfold mech_encode. rewrite Hm'.
    assert (scram_encode random params m = (m, [], ""%string)) as ->.
    { unfold scram_encode. rewrite Hs. by destruct params as [|p [|]]. }
    done.
Qed.
End scram_reconnect.

(** ** Samples *)

#[local] Existing Instance plain_girc.
#[local] Existing Instance plain_girc_laws.
#[local] Existing Instance ascii_tables.
#[local] Existing Instance IrcTranslate.no_times.
#[local] Existing Instance toy_crypto.

Definition sample_options : irc_options :=
  IrcOptions "libera" "irc.libera.chat:6697" [] true false "me" "" "" "me" "pw" "" false true "" ["#a"; "#b"]
    {[ "#b" := "key" ]} [] true "libera".

Definition sample_genv : genv :=
  GEnv 7 "me" true (λ _, true) (λ _, None) "(ov)@+" "beI,k,l,imnpst" (λ _, None) id (λ _, "0s").

Definition sample_conn : iconn :=
  match New sample_genv sample_options with
  | inl c => c
  | inr _ => IConn sample_options (config_of "" 0 None sample_options) [] 0 ∅ ∅ 0 false None [] [] false false None [] ""
               false false None false 0 0 0 false []
  end.

Definition tagged (tags : list (string * string)) (command : string) (params : list string) : wire :=
  Wire (Some (Source "alice" "u" "host")) (Some (list_to_map tags)) 9 command params false.

(** A user line queued behind a writer that had been waiting. *)
Definition sample_writer : iconn :=
  sample_conn <| ic_bg := [raw_request "NAMES #a"; raw_request "TOPIC #a"] |> <| ic_waiting := true |>
    <| ic_queue := [raw_request "PRIVMSG #a :hi"] |>.

Definition sample_written : iconn :=
  hold (raw_request "NAMES #a") (sample_writer <| ic_bg := [raw_request "TOPIC #a"] |>).

Lemma background_yields_witness : writer_run sample_writer sample_written 1 ∧ (1 ≤ 1)%nat.
Proof.
  assert (Hr : writer_run sample_writer sample_written 1).
  { apply (run_step _ sample_written _ true 0); [done|by apply (move_select PickBg)|apply run_nil]. }
  split; [exact Hr|]. exact (proj1 (background_yields _ _ _ Hr)).
Defined.

Lemma multiline_reassembled_witness :
  foldl (λ c e, run_handlers sample_genv e c) sample_conn
    ([tagged [("msgid", "x")] "BATCH" ["+1"; "draft/multiline"; "#a"]] ++
     [tagged [("batch", "1")] "PRIVMSG" ["#a"; "one"]; tagged [("batch", "1")] "PRIVMSG" ["#a"; "two"]] ++
     [tagged [] "BATCH" ["-1"]]) =
  emit_translated
    (toEvent 7 "libera" (tagged [("msgid", "x")] "PRIVMSG" ["#a"; "one" +:+ String LF "two"]) "me")
    (sample_conn <| ic_batches ::= delete "1" |>).
Proof.
  refine (multiline_reassembled sample_genv "1" "#a" ("one" +:+ String LF "two") _ _ _ false sample_conn _ _ _ _ _ _).
  - done.
  - done.
  - done.
  - repeat constructor.
  - done.
  - done.
Defined.

Lemma history_page_reported_witness :
  let es := [tagged [("batch", "1")] "PRIVMSG" ["#a"; "old"]; tagged [("batch", "1")] "JOIN" ["#a"]] in
  let msgs := omap (page_message sample_genv sample_conn) es in
  length msgs = 1%nat ∧
  foldl (λ c e, run_handlers sample_genv e c) sample_conn
    ([tagged [] "BATCH" ["+1"; "chathistory"; "#a"]] ++ es ++ [tagged [] "BATCH" ["-1"]]) =
  sample_conn <| ic_hist ::= delete "1" |>
    <| ic_out ::= λ l, l ++ (XEmit <$> msgs ++
         [new_event EvHistoryBatch "libera" (newest zero_time msgs) <| evt_buffer := "#a" |> <| evt_count := 1 |>]) |>.
Proof.
  intros es msgs. split; [by vm_compute|].
  refine (history_page_reported sample_genv "1" "chathistory" "#a" (tagged [] "BATCH" ["+1"; "chathistory"; "#a"]) es
    (tagged [] "BATCH" ["-1"]) sample_conn _ _ _ _ _ _).
  - done.
  - done.
  - done.
  - done.
  - repeat constructor; apply bool_decide_unpack; by vm_compute.
  - done.
Defined.

Definition step_to (i : irc_input) (s : irc_state) : irc_state := default s (irc_step sample_genv i s).
Definition relayed (n : string) : wire := tagged [("stugan/seq", n)] "PRIVMSG" ["#a"; "hi"].
Definition sample_start : irc_state := IrcState sample_conn None.
Definition sample_line : irc_state :=
  step_to (InArrive (relayed "2")) (step_to InHandle (step_to (InArrive (relayed "1")) sample_start)).

Lemma acks_cover_handled_lines_witness :
  ∃ w, relay_run sample_line w ∧
    ic_out (st_conn (step_to InAckTick sample_line)) = ic_out (st_conn sample_line) ++ [XSyncAck 1] ∧
    1 ≤ sn_done w ∧ (∀ n, sn_line w = Some n → 1 < n).
Proof.
  assert (Hsends : ∀ n w, relayTag (relayed n) TagAck = None →
    (∀ k, line_seq (relayed n) = Some k → sn_done w < k) → relay_sends (InArrive (relayed n)) w).
  { intros n w Ha Hn. split; [|exact Hn]. intros p Hp. rewrite Ha in Hp. discriminate. }
  assert (Hrun : relay_run sample_line (Seen 1 (Some 2))).
  { apply (relay_step_to sample_genv (InArrive (relayed "2")) (step_to InHandle (step_to (InArrive (relayed "1")) sample_start)) _ (Seen 1 None)); [| | |by vm_compute].
    - apply (relay_step_to sample_genv InHandle (step_to (InArrive (relayed "1")) sample_start) _ (Seen 0 (Some 1))); [| | |by vm_compute].
      + apply (relay_step_to sample_genv (InArrive (relayed "1")) sample_start _ (Seen 0 None)); [by apply (relay_start sample_start)| | |by vm_compute].
        * apply Hsends; [by vm_compute|]. intros k Hk. vm_compute in Hk. by simplify_eq.
        * by vm_compute.
      + done.
      + by vm_compute.
    - apply Hsends; [by vm_compute|]. intros k Hk. vm_compute in Hk. by simplify_eq.
    - by vm_compute. }
  exists (Seen 1 (Some 2)). split; [exact Hrun|]. split; [by vm_compute|].
  apply (acks_cover_handled_lines sample_genv InAckTick sample_line (step_to InAckTick sample_line) _ [XSyncAck 1] 1 Hrun).
  - reflexivity.
  - by vm_compute.
  - by left.
Defined.

Definition other_nick : irc_options :=
  IrcOptions "libera" "irc.libera.chat:6697" [] true false "other" "" "" "me" "pw" "" false true "" ["#c"] ∅ [] true "libera".

Lemma fingerprint_is_registration_witness :
  registrationFingerprint sample_genv sample_options ["irc.libera.chat:6697"] =
  registrationFingerprint sample_genv other_nick ["irc.libera.chat:6697"].
Proof.
  apply (fingerprint_is_registration sample_genv); [done| | |done].
  all: split; [done|]; split; repeat constructor.
Defined.

Lemma relay_reconnect_keeps_scram_witness :
  let m := toy_scram <| sc_step := scramDone |> in
  let c := sample_conn <| ic_mech := Some (MechScram m) |> in
  let c' := (relay_opened false (Opened (new_lsession "libera" "h")) (connect_relay sample_genv c).1).1.1 in
  ic_mech c' = Some (MechScram m) ∧ ic_out (mech_encode None ["+"] c') = ic_out c' ++ [XAnswer ""].
Proof.
  intros m c. exact (proj2 (relay_reconnect_keeps_scram sample_genv c m (new_lsession "libera" "h") None ["+"]
    eq_refl eq_refl eq_refl)).
Defined.
