(* ===== verification/PlugLua.v ===== *)
(** * Values that cross between Go and Lua

    The scripts of the plugin host ([internal/plugin]) run in an embedded Lua
    interpreter (gopher-lua), a parameter of the model: its numbers, closures
    and states are abstract types ([LuaTypes]), its conversions a class
    ([LuaRT]).  This file has the values the bindings exchange with a script,
    the tables handed to hooks and read back from them ([convert.go]), the JSON
    conversions of [bindings.go] and the primitives of [crypto.go], with the
    block cipher as a parameter.

    A table is the list of its entries in the order [ForEach] visits them.  The
    bindings read a table they are given at once and hand out fresh ones, so a
    value is enough. *)

From Stdlib Require Import ZArith Zpow_facts Lia Ascii Bool.
From stdpp Require Import base tactics list gmap strings pretty.
From S2P Require Import Prelude GoStrings GoNet CoreTypes CoreEvent.

#[local] Open Scope Z_scope.

(** ** The interpreter *)

Class LuaTypes := {
  lnum : Type;      (** [LNumber], a float64 *)
  lfn : Type;       (** [LFunction], a closure *)
  lstate : Type;    (** [LState] *)
}.

Inductive lval `{LuaTypes} :=
  | LNil
  | LBool (b : bool)
  | LNum (n : lnum)
  | LStr (s : string)
  | LFun (f : lfn)
  | LTab (fields : list (lval * lval)).

Class LuaRT `{LuaTypes} := {
  num_of : Z → lnum;                      (** [LNumber(n)] *)
  num_int : lnum → Z;                     (** [int(n)] *)
  num_eqb : lnum → lnum → bool;           (** the equality of table keys *)
  lua_check_string : lval → option string;   (** [CheckString], [None] when it raises *)
  lua_check_int : lval → option Z;        (** [CheckInt] *)
  lua_tostring : lval → string;           (** [ToStringMeta(v).String()] *)
  lval_string : lval → string;            (** [v.String()] *)
}.

(** A float64 holds every integer up to 2^53, and a string is one. *)
Class LuaLaws `{LuaTypes} (R : LuaRT) := {
  num_int_of : ∀ z, 0 ≤ z ≤ 2 ^ 53 → num_int (num_of z) = z;
  num_eqb_of : ∀ a b, 0 ≤ a ≤ 2 ^ 53 → 0 ≤ b ≤ 2 ^ 53 → num_eqb (num_of a) (num_of b) = Z.eqb a b;
  check_string_str : ∀ s, lua_check_string (LStr s) = Some s;
  lval_string_str : ∀ s, lval_string (LStr s) = s;
}.

(** What a script does while it runs, as the host sees it: it calls bindings,
    each answered with values or a raised error, until it returns or fails.  A
    run is finite because every call has a deadline. *)
Inductive bres `{LuaTypes} :=
  | BRet (vs : list lval)
  | BRaise (msg : string).

Inductive lua_run `{LuaTypes} :=
  | LDone (L : lstate) (ret : lval)
  | LError (L : lstate) (msg : string)
  | LCall (f : string) (args : list lval) (k : bres → lua_run).

Section tables.
Context `{LuaRT}.

(** [RawGetString]. *)
Definition raw_get_string (k : string) (fields : list (lval * lval)) : lval :=
  match find (λ e, match fst e with LStr s => String.eqb s k | _ => false end) fields with
  | Some (_, v) => v
  | None => LNil
  end.

Definition str_table (l : list (string * lval)) : lval := LTab ((λ '(k, v), (LStr k, v)) <$> l).

(** [Append] on a fresh table. *)
Definition arr_table (l : list lval) : lval := LTab (imap (λ i v, (LNum (num_of (Z.of_nat (S i))), v)) l).

Definition lvString (v : lval) : string := match v with LStr s => s | _ => "" end.

(** [L.Get(n)]: nil beyond the last argument. *)
Definition arg (args : list lval) (n : nat) : lval := default LNil (args !! pred n).

(** ** [convert.go] *)

Definition ctx_buffer_kind (name : string) : string :=
  match name with
  | "" => "status"
  | String a _ => if str_in a "#&+!" then "channel" else "query"
  end.

Definition msgToTable (m : message) : lval :=
  str_table
    [("id", LStr (msg_id m)); ("network", LStr (msg_network m)); ("buffer", LStr (msg_buffer m));
     ("from", LStr (msg_from m)); ("account", LStr (msg_account m)); ("kind", LStr (kind_string (msg_kind_of m)));
     ("text", LStr (msg_text m)); ("self", LBool (msg_self m)); ("time", LNum (num_of (msg_time m / second)));
     ("tags", str_table ((λ '(k, v), (k, LStr v)) <$> map_to_list (msg_tags m)))].

Definition tableToMsg (fields : list (lval * lval)) (base : message) : message :=
  let m := base in
  let m := match raw_get_string "text" fields with LStr s => m <| msg_text := s |> | _ => m end in
  let m := match raw_get_string "buffer" fields with LStr s => m <| msg_buffer := s |> | _ => m end in
  match raw_get_string "kind" fields with LStr s => m <| msg_kind_of := kind_of_string s |> | _ => m end.

Definition topicTable (ev : event) (text : string) : lval :=
  str_table [("network", LStr (evt_network ev)); ("buffer", LStr (evt_buffer ev)); ("nick", LStr (evt_nick ev));
             ("text", LStr text)].

Definition ctx_fields (network buffer nick : string) : list (string * lval) :=
  [("network", LStr network); ("buffer", LStr buffer); ("kind", LStr (ctx_buffer_kind buffer)); ("nick", LStr nick)].

Definition ctxTable (network buffer nick : string) : lval := str_table (ctx_fields network buffer nick).

Definition signalTable (ev : event) : lval :=
  str_table [("network", LStr (evt_network ev)); ("nick", LStr (evt_nick ev)); ("new_nick", LStr (evt_new_nick ev));
             ("channel", LStr (evt_buffer ev)); ("account", LStr (evt_account ev)); ("text", LStr (evt_text ev));
             ("kicker", LStr (evt_kicker ev))].

Definition stringArray (ss : list string) : lval := arr_table (LStr <$> ss).

(** [signalName]. *)
Definition signalName (ev : event) : option string :=
  match evt_type ev with
  | EvJoin => Some "join"
  | EvPart => Some "part"
  | EvKick => Some "kick"
  | EvQuit => Some "quit"
  | EvNick => Some "nick"
  | EvTopic => Some "topic"
  | EvConnect => Some (if evt_resumed ev then "resume" else "connect")
  | EvDisconnect => Some "disconnect"
  | EvMode => Some "mode"
  | EvInvite => Some "invite"
  | EvAccount => Some "account"
  | EvChgHost => Some "chghost"
  | EvSetName => Some "setname"
  | _ => None
  end.

(** [lc]. *)
Definition lc (s : string) : string := str_map ascii_lower s.

(** ** Configuration and JSON values *)

(** An [any] of TOML or JSON; a map in the order Go happens to range over it.
    [GOther] is a value of any other type, by its [%v] text. *)
Inductive goval :=
  | GNil
  | GStr (s : string)
  | GBool (b : bool)
  | GInt (z : Z)
  | GFloat (n : lnum)
  | GArr (l : list goval)
  | GMap (l : list (string * goval))
  | GOther (text : string).

Fixpoint goToLua (v : goval) : lval :=
  match v with
  | GStr s => LStr s
  | GBool b => LBool b
  | GInt z => LNum (num_of z)
  | GFloat n => LNum n
  | GArr l => arr_table (map goToLua l)
  | GMap l => str_table (map (λ '(k, e), (k, goToLua e)) l)
  | GNil => LStr "<nil>"
  | GOther text => LStr text
  end.

(** [int(num) > 0] for a number, and the largest such key. *)
Definition array_key (k : lval) : option Z :=
  match k with LNum n => if 0 <? num_int n then Some (num_int n) else None | _ => None end.

Definition is_array {A} (fields : list (lval * A)) : bool := forallb (λ e, bool_decide (is_Some (array_key e.1))) fields.

Definition max_key {A} (fields : list (lval * A)) : Z :=
  foldl (λ m e, match array_key e.1 with Some n => Z.max m n | None => m end) 0 fields.

(** [RawGetInt], on the converted entries. *)
Definition get_int (i : Z) (fields : list (lval * goval)) : goval :=
  match find (λ e, match fst e with LNum n => num_eqb n (num_of i) | _ => false end) fields with
  | Some (_, v) => v
  | None => GNil
  end.

(** [m[k] = v]. *)
Fixpoint map_put (k : string) (v : goval) (l : list (string * goval)) : list (string * goval) :=
  match l with
  | [] => [(k, v)]
  | (k', v') :: l => if String.eqb k k' then (k, v) :: l else (k', v') :: map_put k v l
  end.

Fixpoint luaToGo (v : lval) : goval :=
  match v with
  | LBool b => GBool b
  | LNum n => GFloat n
  | LStr s => GStr s
  | LTab fields =>
      let conv := map (λ '(k, e), (k, luaToGo e)) fields in
      if is_array conv && (0 <? max_key conv)
      then GArr ((λ i, get_int (Z.of_nat (S i)) conv) <$> seq 0 (Z.to_nat (max_key conv)))
      else GMap (foldl (λ m '(k, e), map_put (lval_string k) e m) [] conv)
  | LNil | LFun _ => GNil
  end.

End tables.

(** ** [crypto.go] *)

Definition maxRandomBytes : Z := 4096.

(** [big.Int.SetBytes], and the [n] low bytes of a number, big-endian. *)
Fixpoint be_value (s : string) (acc : Z) : Z :=
  match s with
  | "" => acc
  | String a s => be_value s (acc * 256 + byte_z a)
  end%string.

Fixpoint be_bytes (n : nat) (v : Z) (acc : string) : string :=
  match n with
  | O => acc
  | S n => be_bytes n (v / 256) (String (byte_of_z (v mod 256)) acc)
  end.

(** [big.Int.Exp] for a positive modulus. *)
Definition big_exp (b e m : Z) : Z := Zpow_mod b e m.

(** The [modexp] binding; the error is the text it raises. *)
Definition modexp (base exp modulus : string) : string + string :=
  if String.eqb modulus "" then inr "stugan.crypto.modexp: modulus is empty"
  else
    let m := be_value modulus 0 in
    if m =? 0 then inr "stugan.crypto.modexp: modulus is zero"
    else inl (be_bytes (String.length modulus) (big_exp (be_value base 0) (be_value exp 0) m) "").

(** The block cipher of [golang.org/x/crypto/blowfish]: a block under a key. *)
Class Blowfish := { bf_encrypt : string → string → string; bf_decrypt : string → string → string }.

Definition block_size : nat := 8.

(** A cipher under keys of 1 to 56 bytes permutes the blocks. *)
Class BlowfishLaws (B : Blowfish) := {
  bf_enc_len : ∀ k b, String.length b = block_size → String.length (bf_encrypt k b) = block_size;
  bf_dec_enc : ∀ k b, (1 ≤ String.length k ≤ 56)%nat → String.length b = block_size → bf_decrypt k (bf_encrypt k b) = b;
}.

(** The data in blocks; [n] of them. *)
Fixpoint blocks (n : nat) (s : string) : list string :=
  match n with
  | O => []
  | S n => str_take block_size s :: blocks n (str_drop block_size s)
  end.

Definition block_count (s : string) : nat := (String.length s / block_size)%nat.

Fixpoint xor_block (a b : string) : string :=
  match a, b with
  | String x a, String y b => String (byte_of_z (Z.lxor (byte_z x) (byte_z y))) (xor_block a b)
  | _, _ => ""
  end%string.

(** [cipher.NewCBCEncrypter], [NewCBCDecrypter] over the blocks. *)
Fixpoint cbc_encrypt `{Blowfish} (key iv : string) (bs : list string) : list string :=
  match bs with
  | [] => []
  | b :: bs => let c := bf_encrypt key (xor_block iv b) in c :: cbc_encrypt key c bs
  end.

Fixpoint cbc_decrypt `{Blowfish} (key iv : string) (bs : list string) : list string :=
  match bs with
  | [] => []
  | c :: bs => xor_block iv (bf_decrypt key c) :: cbc_decrypt key c bs
  end.

Definition checkBlowfishKey (key : string) : option string :=
  if (String.length key <? 1)%nat || (56 <? String.length key)%nat
  then Some ("blowfish: key must be 1..56 bytes (got " +:+ itoa (str_len key) +:+ ")") else None.

Definition check_blocks (data : string) : option string :=
  if Nat.eqb (String.length data mod block_size) 0 then None
  else Some ("blowfish: data length must be a multiple of 8 (got " +:+ itoa (str_len data) +:+ ")").

(** The first error raised, if any. *)
Fixpoint first_error (checks : list (option string)) (ok : string) : string + string :=
  match checks with
  | [] => inl ok
  | Some err :: _ => inr err
  | None :: checks => first_error checks ok
  end.

Definition luaBlowfishECB `{Blowfish} (enc : bool) (key data : string) : string + string :=
  first_error [checkBlowfishKey key; check_blocks data]
    (str_concat ((if enc then bf_encrypt key else bf_decrypt key) <$> blocks (block_count data) data)).

Definition luaBlowfishCBC `{Blowfish} (enc : bool) (key iv data : string) : string + string :=
  first_error
    [checkBlowfishKey key;
     (if Nat.eqb (String.length iv) block_size then None
      else Some ("blowfish: IV must be 8 bytes (got " +:+ itoa (str_len iv) +:+ ")"));
     check_blocks data]
    (str_concat ((if enc then cbc_encrypt else cbc_decrypt) key iv (blocks (block_count data) data))).

(** ** JSON values through Lua *)

Section goval_ind.
Context `{LuaTypes} (P : goval → Prop).
Hypotheses (Pnil : P GNil) (Pstr : ∀ s, P (GStr s)) (Pbool : ∀ b, P (GBool b)) (Pint : ∀ z, P (GInt z))
  (Pfloat : ∀ n, P (GFloat n)) (Parr : ∀ l, Forall P l → P (GArr l))
  (Pmap : ∀ l, Forall (λ e, P e.2) l → P (GMap l)) (Pother : ∀ s, P (GOther s)).

Fixpoint goval_nested_ind (v : goval) : P v :=
  match v with
  | GNil => Pnil
  | GStr s => Pstr s
  | GBool b => Pbool b
  | GInt z => Pint z
  | GFloat n => Pfloat n
  | GArr l => Parr l ((fix go l : Forall P l :=
      match l with [] => List.Forall_nil _ | v :: l => List.Forall_cons _ _ _ (goval_nested_ind v) (go l) end) l)
  | GMap l => Pmap l ((fix go l : Forall (λ e, P e.2) l :=
      match l with [] => List.Forall_nil _ | e :: l => List.Forall_cons _ e _ (goval_nested_ind e.2) (go l) end) l)
  | GOther s => Pother s
  end.
End goval_ind.

(** A value [json.Unmarshal] makes, with no null and no empty array in it. *)
Fixpoint json_ok `{LuaTypes} (v : goval) : Prop :=
  match v with
  | GStr _ | GBool _ | GFloat _ => True
  | GArr l => l ≠ [] ∧ Z.of_nat (length l) ≤ 2 ^ 53 ∧ foldr (λ v, and (json_ok v)) True l
  | GMap l => NoDup (fst <$> l) ∧ foldr (λ e, and (json_ok e.2)) True l
  | GNil | GInt _ | GOther _ => False
  end.

Section json.
Context `{LuaLaws}.

(** The entries of a fresh array, from index [b]. *)
Definition numbered {A} (b : nat) (l : list A) : list (lval * A) :=
  imap (λ i v, (LNum (num_of (Z.of_nat (S (b + i)))), v)) l.

Lemma numbered_cons {A} b (v : A) l : numbered b (v :: l) = (LNum (num_of (Z.of_nat (S b))), v) :: numbered (S b) l.
Proof.
  unfold numbered. cbn [imap]. f_equal; [by rewrite Nat.add_0_r|]. apply imap_ext. intros i x _. cbn.
  do 3 f_equal. lia.
Qed.

Lemma key_small n : Z.of_nat (S n) ≤ 2 ^ 53 → 0 ≤ Z.of_nat (S n) ≤ 2 ^ 53.
Proof. lia. Qed.

Lemma array_key_numbered n : Z.of_nat (S n) ≤ 2 ^ 53 → array_key (LNum (num_of (Z.of_nat (S n)))) = Some (Z.of_nat (S n)).
Proof. intros Hn. unfold array_key. rewrite num_int_of by lia. by rewrite (proj2 (Z.ltb_lt _ _)) by lia. Qed.

Lemma numbered_is_array {A} (l : list A) b : Z.of_nat (b + length l) ≤ 2 ^ 53 → is_array (numbered b l) = true.
Proof.
  revert b. induction l as [|v l IH]; intros b Hb; [done|]. cbn [length] in Hb.
  rewrite numbered_cons. unfold is_array in *. cbn [forallb fst]. rewrite array_key_numbered by lia.
  rewrite IH by lia. by rewrite bool_decide_eq_true_2.
Qed.

Lemma numbered_max {A} (l : list A) b m : Z.of_nat (b + length l) ≤ 2 ^ 53 → 0 ≤ m ≤ Z.of_nat b →
  foldl (λ m e, match array_key e.1 with Some n => Z.max m n | None => m end) m (numbered b l) =
  match l with [] => m | _ => Z.of_nat (b + length l) end.
Proof.
  revert b m. induction l as [|v l IH]; intros b m Hb Hm; [done|]. cbn [length] in Hb.
  rewrite numbered_cons. cbn [foldl fst]. rewrite array_key_numbered by lia. rewrite IH by lia.
  destruct l; cbn [length] in *; lia.
Qed.

Lemma get_numbered l b i : Z.of_nat (b + length l) ≤ 2 ^ 53 → (i < length l)%nat →
  get_int (Z.of_nat (S (b + i))) (numbered b l) = default GNil (l !! i).
Proof.
  unfold get_int. revert b i. induction l as [|v l IH]; intros b i Hb Hi; cbn [length] in *; [lia|].
  rewrite numbered_cons. cbn [find fst]. rewrite num_eqb_of by lia.
  destruct i as [|i].
  - rewrite Nat.add_0_r, Z.eqb_refl. done.
  - rewrite (proj2 (Z.eqb_neq _ _)) by lia. cbn [lookup list_lookup].
    replace (S (b + S i)) with (S (S b + i)) by lia. exact (IH (S b) i ltac:(lia) ltac:(lia)).
Qed.

Lemma map_put_new k v l : k ∉ (fst <$> l) → map_put k v l = l ++ [(k, v)].
Proof.
  induction l as [|[k' v'] l IH]; intros Hk; [done|]. cbn in *. apply not_elem_of_cons in Hk as [Hk Hl].
  rewrite (proj2 (String.eqb_neq _ _)) by done. by rewrite IH.
Qed.

Lemma map_put_all (l acc : list (string * goval)) : NoDup (fst <$> (acc ++ l)) →
  foldl (λ m '(k, e), map_put (lval_string k) e m) acc ((λ '(k, v), (LStr k, v)) <$> l) = acc ++ l.
Proof.
  revert acc. induction l as [|[k v] l IH]; intros acc Hd; [by rewrite app_nil_r|].
  cbn [fmap list_fmap foldl]. rewrite lval_string_str.
  rewrite map_put_new.
  - rewrite IH; by rewrite <- app_assoc.
  - rewrite fmap_app in Hd. apply NoDup_app in Hd as (_ & Hd & _). intros Hin.
    eapply Hd; [exact Hin|]. cbn. by apply elem_of_cons; left.
Qed.

(** Both conversions keep the keys of a table and convert its values. *)
Lemma conv_numbered b l : map (λ '(k, e), (k, luaToGo e)) (numbered b (goToLua <$> l)) = numbered b (luaToGo ∘ goToLua <$> l).
Proof. revert b. induction l as [|v l IH]; intros b; [done|]. cbn [fmap list_fmap]. rewrite !numbered_cons. cbn. by rewrite IH. Qed.

Lemma roundtrips l : Forall (λ v, json_ok v → luaToGo (goToLua v) = v) l → foldr (λ v, and (json_ok v)) True l →
  luaToGo ∘ goToLua <$> l = l.
Proof. induction 1 as [|v l Hv _ IH]; intros Hok; [done|]. destruct Hok as [Hv' Hok]. cbn. by rewrite Hv, IH. Qed.

Lemma str_fields_converted l : Forall (λ e : string * goval, json_ok e.2 → luaToGo (goToLua e.2) = e.2) l →
  foldr (λ e, and (json_ok e.2)) True l →
  map (λ '(k, e), (k, luaToGo e)) ((λ '(k, v), (LStr k, v)) <$> map (λ '(k, e), (k, goToLua e)) l) =
  (λ '(k, v), (LStr k, v)) <$> l.
Proof. induction 1 as [|[k v] l Hv _ IH]; intros Hok; [done|]. destruct Hok as [Hv' Hok]. cbn in *. by rewrite Hv, IH. Qed.

(** A JSON value comes back from Lua as it went in.  Whatever a script
    decodes and hands back unchanged is encoded as the same value: strings,
    numbers, objects with any keys and arrays, nested to any depth; the
    exceptions are null, which reaches the script as the text of nil, and the
    empty array, which comes back as the empty object. *)
Theorem json_roundtrip v : json_ok v → luaToGo (goToLua v) = v.
Proof.
  induction v as [| | | | |l IH|l IH|] using goval_nested_ind; intros Hok; try done.
  - destruct Hok as (Hne & Hlen & Hok). cbn [goToLua]. unfold arr_table. cbn [luaToGo].
    change (imap _ _) with (numbered 0 (goToLua <$> l)). rewrite conv_numbered, (roundtrips l IH Hok).
    rewrite numbered_is_array by (cbn; lia). unfold max_key. rewrite numbered_max by (cbn; lia).
    destruct l as [|v l]; [done|]. set (w := v :: l) in *. cbn [Nat.add].
    rewrite (proj2 (Z.ltb_lt _ _)) by (cbn; lia). rewrite Nat2Z.id. cbn [andb]. f_equal.
    apply list_eq_same_length with (length w); [done|by rewrite length_fmap, length_seq|].
    intros i x y Hi Hx Hy. rewrite list_lookup_fmap, lookup_seq_lt in Hx by done. cbn [fmap option_fmap option_map Nat.add] in Hx.
    pose proof (get_numbered w 0 i ltac:(cbn [Nat.add]; lia) Hi) as Hg. cbn [Nat.add] in Hg.
    rewrite Hg, Hy in Hx. by simplify_eq/=.
  - destruct Hok as (Hd & Hok). cbn [goToLua]. unfold str_table. cbn [luaToGo].
    rewrite (str_fields_converted l IH Hok). destruct l as [|[k v] l]; [done|].
    cbn [fmap list_fmap is_array forallb fst array_key andb]. rewrite bool_decide_eq_false_2 by (intros []; done). cbn [andb].
    f_equal. exact (map_put_all ((k, v) :: l) [] Hd).
Qed.
End json.

(** A decoded null is the text of Go's nil, not a Lua nil. *)
Lemma json_null_is_text `{LuaRT} : goToLua GNil = LStr "<nil>".
Proof. done. Qed.

(** ** Key exchange and encryption *)

Lemma be_value_app s t acc : be_value (s +:+ t) acc = be_value t (be_value s acc).
Proof. revert acc. induction s as [|a s IH]; intros acc; [done|]. cbn. apply IH. Qed.

Lemma be_value_bytes n v t : 0 ≤ v → be_value (be_bytes n v t) 0 = be_value t (v mod 256 ^ Z.of_nat n).
Proof.
  revert v t. induction n as [|n IH]; intros v t Hv.
  - cbn. by rewrite Z.mod_1_r.
  - cbn [be_bytes]. rewrite IH by (apply Z.div_pos; lia). cbn [be_value].
    rewrite byte_z_of_z by (pose proof (Z.mod_pos_bound v 256); lia). f_equal.
    rewrite Nat2Z.inj_succ, Z.pow_succ_r by lia.
    rewrite Z.rem_mul_r by lia. lia.
Qed.

Lemma be_bytes_length n v t : String.length (be_bytes n v t) = (n + String.length t)%nat.
Proof. revert v t. induction n as [|n IH]; intros v t; [done|]. cbn. rewrite IH. cbn. lia. Qed.

Lemma be_value_bound s acc : 0 ≤ acc → 0 ≤ be_value s acc < (acc + 1) * 256 ^ str_len s.
Proof.
  unfold str_len. revert acc. induction s as [|a s IH]; intros acc Hacc; [cbn; lia|].
  cbn [be_value String.length]. pose proof (byte_z_range a) as Ha.
  rewrite Nat2Z.inj_succ, Z.pow_succ_r by lia.
  specialize (IH (acc * 256 + byte_z a) ltac:(lia)).
  assert (0 < 256 ^ Z.of_nat (String.length s)) by (apply Z.pow_pos_nonneg; lia). nia.
Qed.

(** The result has the width of the modulus, and its value is the power. *)
Lemma modexp_value base exp modulus r : modexp base exp modulus = inl r →
  String.length r = String.length modulus ∧
  be_value r 0 = be_value base 0 ^ be_value exp 0 mod be_value modulus 0.
Proof.
  unfold modexp. destruct (String.eqb modulus ""); [done|]. destruct (Z.eqb_spec (be_value modulus 0) 0) as [|Hm]; [done|].
  intros [= <-]. rewrite be_bytes_length. cbn [String.length]. split; [lia|].
  pose proof (be_value_bound modulus 0 ltac:(lia)) as Hb.
  pose proof (be_value_bound exp 0 ltac:(lia)) as He.
  unfold big_exp. rewrite Zpow_mod_correct by done.
  pose proof (Z.mod_pos_bound (be_value base 0 ^ be_value exp 0) (be_value modulus 0) ltac:(lia)).
  rewrite be_value_bytes by lia. cbn [be_value]. apply Z.mod_small. unfold str_len in Hb. lia.
Qed.

(** Both sides of a key exchange derive the same secret. *)
Lemma dh_agreement g a b p ga gb :
  modexp g a p = inl ga → modexp g b p = inl gb → modexp gb a p = modexp ga b p.
Proof.
  intros Ha Hb. pose proof (modexp_value _ _ _ _ Ha) as [_ Va]. pose proof (modexp_value _ _ _ _ Hb) as [_ Vb].
  unfold modexp in *. destruct (String.eqb p ""); [done|]. destruct (Z.eqb_spec (be_value p 0) 0) as [|Hm]; [done|].
  do 2 f_equal. rewrite Va, Vb. unfold big_exp. rewrite !Zpow_mod_correct by done.
  pose proof (be_value_bound a 0 ltac:(lia)). pose proof (be_value_bound b 0 ltac:(lia)).
  rewrite <- !Zpower_mod by (pose proof (be_value_bound p 0 ltac:(lia)); lia).
  rewrite <- !Z.pow_mul_r by lia. do 2 f_equal. lia.
Qed.

Section cipher.
Context `{BlowfishLaws}.

Lemma xor_block_twice a b : String.length a = String.length b → xor_block a (xor_block a b) = b.
Proof.
  revert b. induction a as [|x a IH]; intros [|y b] Hl; try done. injection Hl as Hl. cbn. rewrite IH by done. f_equal.
  pose proof (lxor_byte x y) as Hr.
  rewrite byte_z_of_z by done. by rewrite <- Z.lxor_assoc, Z.lxor_nilpotent, Z.lxor_0_l, byte_of_byte_z.
Qed.

Lemma xor_block_length a b : String.length a = String.length b → String.length (xor_block a b) = String.length b.
Proof. revert b. induction a as [|x a IH]; intros [|y b] Hl; try done. injection Hl as Hl. cbn. by rewrite IH. Qed.

Lemma cbc_blocks key iv bs : (1 ≤ String.length key ≤ 56)%nat → String.length iv = block_size →
  Forall (λ b, String.length b = block_size) bs →
  Forall (λ b, String.length b = block_size) (cbc_encrypt key iv bs) ∧ cbc_decrypt key iv (cbc_encrypt key iv bs) = bs.
Proof.
  intros Hk Hiv Hbs. revert iv Hiv. induction Hbs as [|b bs Hb _ IH]; intros iv Hiv; [done|].
  cbn [cbc_encrypt cbc_decrypt].
  assert (Hx : String.length (xor_block iv b) = block_size) by (rewrite xor_block_length; congruence).
  pose proof (bf_enc_len key _ Hx) as Hc. destruct (IH _ Hc) as [Hf Hd].
  split; [by constructor|]. rewrite bf_dec_enc, xor_block_twice by (done || congruence). by rewrite Hd.
Qed.

Lemma str_length_take_le n s : (n ≤ String.length s)%nat → String.length (str_take n s) = n.
Proof. revert s. induction n as [|n IH]; intros [|a s] Hn; cbn in *; try done; [lia|]. by rewrite IH by lia. Qed.

Lemma blocks_all n s : String.length s = (n * block_size)%nat →
  Forall (λ b, String.length b = block_size) (blocks n s) ∧ str_concat (blocks n s) = s.
Proof.
  revert s. induction n as [|n IH]; intros s Hl; [by destruct s|]. cbn [blocks].
  pose proof (str_take_drop block_size s) as Hs.
  assert (Ht : String.length (str_take block_size s) = block_size) by (apply str_length_take_le; lia).
  assert (Hd : String.length (str_drop block_size s) = (n * block_size)%nat).
  { apply (f_equal String.length) in Hs. rewrite str_length_app in Hs. lia. }
  destruct (IH _ Hd) as [Hf Hc]. split.
  - by constructor.
  - cbn [str_concat foldr]. fold (str_concat (blocks n (str_drop block_size s))). by rewrite Hc.
Qed.

Lemma blocks_concat bs : Forall (λ b, String.length b = block_size) bs →
  blocks (length bs) (str_concat bs) = bs ∧ String.length (str_concat bs) = (length bs * block_size)%nat.
Proof.
  induction 1 as [|b bs Hb _ [IH1 IH2]]; [done|]. cbn [length blocks str_concat foldr]. fold (str_concat bs).
  rewrite <- Hb at 1 2. rewrite str_take_app, str_drop_app, IH1, str_length_app, IH2, Hb. split; [done|lia].
Qed.

Lemma cbc_encrypt_length key iv bs : length (cbc_encrypt key iv bs) = length bs.
Proof. revert iv. induction bs as [|b bs IH]; intros iv; [done|]. cbn. by rewrite IH. Qed.

Lemma blocks_length n s : length (blocks n s) = n.
Proof. revert s. induction n as [|n IH]; intros s; [done|]. cbn. by rewrite IH. Qed.

(** What a script encrypts in CBC mode it decrypts with the same key and
    vector. *)
Lemma cbc_round_trip key iv data c :
  luaBlowfishCBC true key iv data = inl c → luaBlowfishCBC false key iv c = inl data.
Proof.
  unfold luaBlowfishCBC, first_error, check_blocks.
  destruct (checkBlowfishKey key) eqn:Hk; [done|]. destruct (Nat.eqb_spec (String.length iv) block_size) as [Hiv|]; [|done].
  destruct (Nat.eqb_spec (String.length data mod block_size) 0) as [Hd|]; [|done]. intros [= <-].
  assert (Hkey : (1 ≤ String.length key ≤ 56)%nat).
  { unfold checkBlowfishKey in Hk. destruct (Nat.ltb_spec (String.length key) 1), (Nat.ltb_spec 56 (String.length key)); done || lia. }
  assert (Hlen : String.length data = (block_count data * block_size)%nat).
  { unfold block_count. pose proof (Nat.div_mod_eq (String.length data) block_size). lia. }
  destruct (blocks_all _ data Hlen) as [Hf Hc]. destruct (cbc_blocks key iv _ Hkey Hiv Hf) as [Hf' Hdec].
  destruct (blocks_concat _ Hf') as [Hb Hl]. rewrite cbc_encrypt_length, blocks_length in *.
  set (e := str_concat (cbc_encrypt key iv (blocks (block_count data) data))) in *.
  rewrite Hl, Nat.Div0.mod_mul. cbn [Nat.eqb].
  assert (block_count e = block_count data) as -> by (unfold block_count at 1; rewrite Hl; by apply Nat.div_mul).
  by rewrite Hb, Hdec, Hc.
Qed.
End cipher.

(** ** A concrete interpreter *)

(** Integers for numbers, closures with a number, one global variable: used to
    evaluate the model. *)
Definition toy_types : LuaTypes := {| lnum := Z; lfn := nat; lstate := Z |}.

Definition toy_string `{LuaTypes} (v : lval) : string := match v with LStr s => s | _ => "" end.

Definition toy_rt : @LuaRT toy_types := {|
  num_of z := (z : @lnum toy_types); num_int := λ n : Z, n; num_eqb := Z.eqb;
  lua_check_string v := match v with LStr s => Some s | _ => None end;
  lua_check_int v := match v with LNum n => Some (n : Z) | _ => None end;
  lua_tostring := toy_string; lval_string := toy_string |}.

Definition toy_laws : LuaLaws toy_rt.
Proof. by split. Defined.

#[local] Existing Instance toy_types.
#[local] Existing Instance toy_rt.

(** [{"a": [1, true], "b": {"c": "x"}}]. *)
Definition sample_json : goval :=
  GMap [("a", GArr [GFloat (1 : lnum); GBool true]); ("b", GMap [("c", GStr "x")])].

Lemma json_roundtrip_witness : json_ok sample_json ∧ luaToGo (goToLua sample_json) = sample_json.
Proof.
  assert (Hok : json_ok sample_json).
  { cbn. repeat split; try done; repeat constructor; set_solver. }
  split; [exact Hok|]. apply (json_roundtrip (H0 := toy_laws)). exact Hok.
Defined.
