(* ===== verification/PlugHost.v ===== *)
(** * The plugin host

    [internal/plugin]: [host.go], [bindings.go], [http.go] and [watch.go].  A
    host runs the Lua scripts of a directory and hands them the events of the
    core; all Lua runs on one goroutine, so a step of the model is one job of
    its queue.

    A script is a record on a heap, as the code shares pointers to it; its
    interpreter state and closures are the parameter of [PlugLua], and calling a
    closure gives a [lua_run], which [exec] plays against the bindings.  The
    lists of hooks are Go slices: a header (array, length, capacity) over arrays
    on a heap, because a loop over a list holds a copy of the header while a
    hook it calls registers or removes hooks in the array underneath.

    What the host is given from outside is the class [HostEnv]: the core's API,
    the key-value store, the script directory, the HTTP client. *)

From Stdlib Require Import ZArith Lia Ascii Bool.
From stdpp Require Import base tactics list gmap strings pretty.
From S2P Require Import Prelude GoStrings GoNet CoreTypes CoreEvent CoreEngine PlugLua.

#[local] Open Scope Z_scope.

(** ** The environment *)

Record httpResult := HttpResult { hr_status : Z; hr_body : string; hr_header : list (string * string) }.

Record http_request := HttpRequest {
  rq_method : string; rq_url : string; rq_headers : gmap string string; rq_body : string }.

(** What [os.Remove] reports. *)
Inductive removal := Removed | NotFound | RemoveError (err : string).

Class HostEnv `{LuaTypes} := {
  world : Type;
  w_api : api_call → world → world * option string;     (** the calls of [core.API], with their error *)
  w_networks : world → list (string * string * string * string);   (** id, name, nick, state *)
  w_channels : world → string → list (string * string * string);   (** name, kind, topic *)
  w_members : world → string → string → list member;
  w_nick : world → string → string;
  w_backlog : world → string → string → Z → list (string * string * time);   (** from, text, time *)
  w_kv_all : world → string → gmap string string;       (** [KV.GetAll] *)
  w_kv_set : string → string → string → world → world * bool;      (** [KV.Set]; [false]: an error *)
  w_kv_del : string → string → world → world * bool;    (** [KV.Delete] *)
  w_files : world → list string;                        (** the files of the script directory *)
  w_stat : world → string → bool;                       (** [os.Stat] finds the path *)
  w_read : world → string → option string;              (** [os.ReadFile] *)
  w_write : string → string → world → world * option string;       (** [os.WriteFile] *)
  w_mkdir : string → world → world * option string;     (** [os.MkdirAll] *)
  w_remove : string → world → world * removal;
  w_http : http_request → world → world * (httpResult + string);   (** [HTTPDoer.Do] with the body read *)
  w_random : Z → world → world * option string;         (** [rand.Read] *)
  w_new_state : bool → lstate;                          (** [newState], sandboxed or not *)
  w_dofile : string → lstate → world → lua_run;         (** [DoFile] *)
  w_call : lfn → list lval → lstate → lua_run;          (** [PCall] of a closure *)
  w_grow : nat → nat;                                   (** the capacity [append] allocates for a length *)
  w_sha256 : string → string;
  w_url_parse : string → option (string * string * string);        (** [url.Parse]: scheme, host, path *)
  w_float_ok : string → bool;                           (** [strconv.ParseFloat] succeeds *)
  w_marshal : goval → string + string;                  (** [json.Marshal] *)
  w_unmarshal : string → goval + string;                (** [json.Unmarshal] *)
}.

(** ** State *)

(** A [*script]. *)
Notation sid := nat (only parsing).

Section types.
Context `{LuaTypes}.

Record settingDecl := SettingDecl {
  sd_name : string; sd_typ : string; sd_label : string; sd_help : string; sd_def : string;
  sd_secret : bool; sd_options : list string; sd_apply : option lfn }.

(** [script]; [ps_closed] once [L.Close] ran. *)
Record script := Script {
  ps_name : string; ps_path : string; ps_desc : string; ps_settings : list settingDecl;
  ps_lua : lstate; ps_errs : Z; ps_disabled : bool; ps_closed : bool }.

(** [hook]; ids are unique, so they stand for the pointers. *)
Record hook := Hook { hk_script : sid; hk_fn : lfn; hk_prio : Z; hk_id : Z }.

Record timerHook := TimerHook { tm_script : sid; tm_fn : lfn; tm_id : Z; tm_interval : Z }.

Record slice := Slice { sl_arr : nat; sl_len : nat; sl_cap : nat }.

Inductive hook_list := HMsg | HInput | HTopic | HCompletion | HSignal (event : string).

(** The function of an [unhooker]. *)
Inductive unhook_fn :=
  | UnList (l : hook_list)
  | UnCommand (key : string)
  | UnTimer.

Record hookPresence := HookPresence {
  hp_msg : bool; hp_input : bool; hp_cmd : bool; hp_topic : bool; hp_signals : gset string }.

(** A request in flight: the goroutine [startHTTP] leaves. *)
Record pending_http := PendingHttp { ph_script : sid; ph_request : http_request; ph_cb : lfn }.

End types.

Section host_type.
Context `{HostEnv}.

Record host := Host {
  ho_dir : string;
  ho_settings : gmap string (gmap string goval);
  ho_sandbox : bool;
  ho_trusted : bool;                   (** [trustedOnly] *)
  ho_kv_store : bool;                  (** [kvStore] is set *)
  ho_http : bool;                      (** [httpClient] is set *)
  ho_scripts : gmap string sid;
  ho_kv : gmap string (gmap string string);
  ho_updates : gset string;
  ho_msg : slice;
  ho_input : slice;
  ho_topic : slice;
  ho_completion : slice;
  ho_signals : gmap string slice;
  ho_cmds : gmap string hook;
  ho_origin : gmap string string;      (** [replyOrigin] *)
  ho_timers : list timerHook;
  ho_next_id : Z;
  ho_unhookers : gmap Z (sid * unhook_fn);
  ho_present : option hookPresence;
  ho_quit : bool;
  ho_states : gmap sid script;         (** every script there was *)
  ho_next_script : sid;
  ho_arrays : gmap nat (list (option hook));   (** the arrays under the slices *)
  ho_next_array : nat;
  ho_started : list timerHook;         (** the ticker goroutines that were started *)
  ho_requests : list pending_http;
  ho_down : bool;                      (** a panic outside [PCall] took the daemon down *)
  ho_world : world;
}.
End host_type.

#[export] Instance eta_script `{LuaTypes} : Eta script := λ r,
  Script (ps_name r) (ps_path r) (ps_desc r) (ps_settings r) (ps_lua r) (ps_errs r) (ps_disabled r) (ps_closed r).
#[export] Instance eta_slice : Eta slice := λ r, Slice (sl_arr r) (sl_len r) (sl_cap r).
#[export] Instance eta_setting `{LuaTypes} : Eta settingDecl := λ r,
  SettingDecl (sd_name r) (sd_typ r) (sd_label r) (sd_help r) (sd_def r) (sd_secret r) (sd_options r) (sd_apply r).
#[export] Instance eta_host `{HostEnv} : Eta host := λ r,
  Host (ho_dir r) (ho_settings r) (ho_sandbox r) (ho_trusted r) (ho_kv_store r) (ho_http r) (ho_scripts r) (ho_kv r)
    (ho_updates r) (ho_msg r) (ho_input r) (ho_topic r) (ho_completion r) (ho_signals r) (ho_cmds r) (ho_origin r)
    (ho_timers r) (ho_next_id r) (ho_unhookers r) (ho_present r) (ho_quit r) (ho_states r) (ho_next_script r)
    (ho_arrays r) (ho_next_array r) (ho_started r) (ho_requests r) (ho_down r) (ho_world r).

#[export] Instance hook_list_eq : EqDecision hook_list.
Proof. solve_decision. Defined.

Definition maxScriptErrors : Z := 10.
Definition defaultPriority : Z := 500.
Definition maxConcurrentHTTP : nat := 4.
Definition maxHTTPBody : Z := 1048576.

Definition scriptName (path : string) : string := trim_suffix ".lua" (path_base path).

(** The guard on names that come from a client. *)
Definition bare_name (name : string) : bool :=
  negb (String.eqb name "" || negb (String.eqb name (path_base name)) ||
        str_in SLASH name || str_in "\"%char name).

(** ** The official plugins *)

Record CuratedPluginInfo := Curated {
  cu_name : string; cu_description : string; cu_url : string;
  cu_installed : bool; cu_loaded : bool; cu_update : bool }.

Definition curated (name description : string) : CuratedPluginInfo :=
  Curated name description
    ("https://raw.githubusercontent.com/klppl/stugan/main/plugins/" +:+ name +:+ ".lua") false false false.

Definition curatedPlugins : list CuratedPluginInfo :=
  [curated "fish" "FiSH-style Blowfish encryption (+OK CBC/ECB, DH1080 key exchange)";
   curated "ai" "AI chat assistant & conversation summarizer (/ask, /summarize)";
   curated "webhooks" "Outbound highlight & mention notification forwarder";
   curated "ignore" "Server-side per-nick ignore filter";
   curated "away" "Idle auto-away + auto-reply timer";
   curated "greet" "Greeting command (/greet) & spoiler content filter";
   curated "highlight_reply" "Auto-reply when a configurable trigger word is mentioned";
   curated "team_mentions" "Extend tab-completion with @team group mentions";
   curated "sed" "Fix typos in your last line with s/find/replace/";
   curated "urls" "Scrape and remember links posted in a buffer (/urls)";
   curated "title" "Scrape and announce web page titles of posted links";
   curated "expand" "Text expander for trigger shortcuts (e.g. ;shrug)";
   curated "nickserv" "Identify and reclaim nick on network connect";
   curated "watch" "Mirror of ignore: surface & track watched nicks";
   curated "qauth" "QuakeNet Q authentication (CHALLENGEAUTH)";
   curated "fun" "Toy commands (/roll, /8ball, /slap)"].

Definition curatedPlugin (name : string) : option CuratedPluginInfo :=
  find (λ p, String.eqb (cu_name p) name) curatedPlugins.

Definition isExactCuratedSource (name url : string) : bool :=
  match curatedPlugin name with Some p => String.eqb (cu_url p) url | None => false end.

Section state.
Context `{UnicodeTables, LuaTypes, !LuaRT, !HostEnv}.

(** ** Hook lists as slices *)

Definition nil_slice : slice := Slice 0 0 0.

Definition get_list (l : hook_list) (h : host) : slice :=
  match l with
  | HMsg => ho_msg h
  | HInput => ho_input h
  | HTopic => ho_topic h
  | HCompletion => ho_completion h
  | HSignal e => default nil_slice (ho_signals h !! e)
  end.

Definition put_list (l : hook_list) (s : slice) (h : host) : host :=
  match l with
  | HMsg => h <| ho_msg := s |>
  | HInput => h <| ho_input := s |>
  | HTopic => h <| ho_topic := s |>
  | HCompletion => h <| ho_completion := s |>
  | HSignal e => h <| ho_signals ::= <[e := s]> |>
  end.

Definition array_of (h : host) (a : nat) : list (option hook) := default [] (ho_arrays h !! a).

(** The hook in a slot of an array. *)
Definition slot (h : host) (a i : nat) : option hook := array_of h a !! i ≫= id.

Definition set_array (a : nat) (l : list (option hook)) (h : host) : host := h <| ho_arrays ::= <[a := l]> |>.

(** [append(s, x)]: in place while the capacity allows, else to a new array. *)
Definition append_hook (x : hook) (s : slice) (h : host) : host * slice :=
  if (sl_len s <? sl_cap s)%nat
  then (set_array (sl_arr s) (<[sl_len s := Some x]> (array_of h (sl_arr s))) h, s <| sl_len ::= S |>)
  else
    let n := S (sl_len s) in
    let cap := Nat.max n (w_grow n) in
    let a := ho_next_array h in
    (set_array a (take (sl_len s) (array_of h (sl_arr s)) ++ [Some x] ++ replicate (cap - n) None) h
       <| ho_next_array := S a |>, Slice a n cap).

Definition slot_prio (x : option hook) : Z := match x with Some hk => hk_prio hk | None => 0 end.

(** [sortHooks]: a stable sort of the slice, in its array. *)
Definition sortHooks (s : slice) (h : host) : host :=
  let l := array_of h (sl_arr s) in
  set_array (sl_arr s) (sort_stable slot_prio (take (sl_len s) l) ++ drop (sl_len s) l) h.

(** The position of a hook in a slice. *)
Definition hook_index (id : Z) (s : slice) (h : host) : option nat :=
  fst <$> list_find (λ x, (hk_id <$> x) = Some id) (take (sl_len s) (array_of h (sl_arr s))).

(** [removeHook]: [append(hooks[:i], hooks[i+1:]...)] shifts the rest down in
    the array; the last slot keeps what it had. *)
Definition removeHook (id : Z) (s : slice) (h : host) : host * slice :=
  match hook_index id s h with
  | None => (h, s)
  | Some i =>
      let l := array_of h (sl_arr s) in
      (set_array (sl_arr s) (take i l ++ take (sl_len s - S i) (drop (S i) l) ++ drop (sl_len s - 1) l) h,
       s <| sl_len ::= pred |>)
  end.

(** [dropHooks]: the others are appended to a slice without capacity. *)
Definition dropHooks (x : sid) (s : slice) (h : host) : host * slice :=
  foldl (λ '(h, kept) o, match o with
                          | Some hk => if Nat.eqb (hk_script hk) x then (h, kept) else append_hook hk kept h
                          | None => (h, kept)
                          end)
    (h, Slice (sl_arr s) 0 0) (take (sl_len s) (array_of h (sl_arr s))).

Definition drop_list (x : sid) (l : hook_list) (h : host) : host :=
  let '(h, s) := dropHooks x (get_list l h) h in put_list l s h.

(** The hooks of a list. *)
Definition hooks_of (l : hook_list) (h : host) : list hook :=
  let s := get_list l h in omap id (take (sl_len s) (array_of h (sl_arr s))).

(** ** Scripts *)

Definition set_script (x : sid) (f : script → script) (h : host) : host := h <| ho_states ::= alter f x |>.

Definition disabled (h : host) (x : sid) : bool :=
  match ho_states h !! x with Some s => ps_disabled s | None => false end.

Definition name_of (h : host) (x : sid) : string :=
  match ho_states h !! x with Some s => ps_name s | None => "" end.

(** [scriptError]. *)
Definition scriptError (x : sid) (h : host) : host :=
  set_script x (λ s,
    let s := s <| ps_errs ::= Z.succ |> in
    if (maxScriptErrors <=? ps_errs s) && negb (ps_disabled s) then s <| ps_disabled := true |> else s) h.

Definition newID (h : host) : host * Z :=
  let n := ho_next_id h + 1 in (h <| ho_next_id := n |>, n).

(** ** The presence summary *)

Definition present_of (h : host) : hookPresence :=
  HookPresence (0 <? sl_len (ho_msg h))%nat (0 <? sl_len (ho_input h))%nat
    (bool_decide (ho_cmds h ≠ ∅)) (0 <? sl_len (ho_topic h))%nat
    (dom (filter (λ '(_, s), 0 < sl_len s)%nat (ho_signals h))).

Definition refreshPresence (h : host) : host := h <| ho_present := Some (present_of h) |>.

Definition wants (h : host) (ev : event) : bool :=
  match ho_present h with
  | None => true
  | Some p =>
      let signal name := bool_decide (name ∈ hp_signals p) in
      match evt_type ev with
      | EvMessageIn => hp_msg p
      | EvMessageOut =>
          hp_input p || match evt_message ev with Some m => IsPluginBuffer (msg_buffer m) | None => false end
      | EvCommand => hp_cmd p
      | EvTopic => hp_topic p || signal "topic"
      | _ => match signalName ev with Some name => signal name | None => false end
      end
  end.

(** ** The key-value cache *)

(** [kvCacheByName], [kvCache]. *)
Definition kvCache (name : string) (h : host) : host * gmap string string :=
  match ho_kv h !! name with
  | Some m => (h, m)
  | None =>
      let m := if ho_kv_store h then w_kv_all (ho_world h) name else ∅ in
      (h <| ho_kv ::= <[name := m]> |>, m)
  end.

(** [kvGetByName], [kvGet]. *)
Definition kvGet (name key : string) (h : host) : host * option string :=
  let '(h, m) := kvCache name h in (h, m !! key).

(** [kvSetByName], [kvSet]: an error of the store is only logged. *)
Definition kvSet (name key val : string) (h : host) : host :=
  let '(h, m) := kvCache name h in
  let h := h <| ho_kv ::= <[name := <[key := val]> m]> |> in
  if ho_kv_store h then h <| ho_world := (w_kv_set name key val (ho_world h)).1 |> else h.

Definition kvDelete (name key : string) (h : host) : host :=
  let '(h, m) := kvCache name h in
  let h := h <| ho_kv ::= <[name := delete key m]> |> in
  if ho_kv_store h then h <| ho_world := (w_kv_del name key (ho_world h)).1 |> else h.

(** [getScriptMetaLocked]: source URL and type. *)
Definition getScriptMetaLocked (name : string) (h : host) : host * string * string :=
  let '(h, url) := kvGet name "_source_url" h in
  let '(h, typ) := kvGet name "_source_type" h in
  let url := default "" url in
  let typ := default "" typ in
  if String.eqb typ "" && String.eqb url "" then
    match curatedPlugin name with
    | Some c => (h, cu_url c, "curated")
    | None => (h, url, "manual")
    end
  else (h, url, typ).

Definition setScriptMetaLocked (name url typ hash : string) (h : host) : host :=
  let put key v h := if String.eqb v "" then h else kvSet name key v h in
  put "_installed_hash" hash (put "_source_type" typ (put "_source_url" url h)).

Definition trustedScriptLocked (name : string) (h : host) : host * bool :=
  let '(h, url, typ) := getScriptMetaLocked name h in
  (h, if String.eqb typ "" || String.eqb typ "manual" then true
      else if String.eqb typ "curated" then isExactCuratedSource name url
      else false).

(** ** Settings *)

Definition settingValue (name : string) (d : settingDecl) (h : host) : host * string :=
  let '(h, v) := kvGet name (sd_name d) h in (h, default (sd_def d) v).

Definition quote_list (l : list string) : string := "[" +:+ str_join " " l +:+ "]".

(** [coerceSetting]. *)
Definition coerceSetting (d : settingDecl) (value : string) : string + string :=
  if String.eqb (sd_typ d) "number" then
    if w_float_ok (trim_space value) then inl (trim_space value)
    else inr ("setting " +:+ go_quote (sd_name d) +:+ " expects a number, got " +:+ go_quote value)
  else if String.eqb (sd_typ d) "select" then
    if bool_decide (value ∈ sd_options d) then inl value
    else inr ("setting " +:+ go_quote (sd_name d) +:+ " must be one of " +:+ quote_list (sd_options d) +:+
              ", got " +:+ go_quote value)
  else inl value.
End state.
