(* ===== verification/PlugBind.v ===== *)
(** * What a script can call

    The bindings of [bindings.go], [http.go] and [crypto.go]: one definition per
    function of the [stugan] table, the table itself ([bindings]), and [exec],
    which plays a run of Lua code against it.  A binding reads its arguments
    first, as the code does, and raises before it changes anything when one is
    missing or of the wrong type. *)

From Stdlib Require Import ZArith Lia Ascii Bool.
From stdpp Require Import base tactics list gmap strings pretty.
From S2P Require Import Prelude GoStrings GoNet CoreTypes CoreEvent CoreEngine PlugLua PlugHost.

#[local] Open Scope Z_scope.

Section bind.
Context `{UnicodeTables, LuaTypes, !LuaRT, !Blowfish, !HostEnv}.

(** ** Arguments *)

Definition answer : Type := host * bres.

Definition bad_arg (n : nat) : bres := BRaise ("bad argument #" +:+ pretty n).

Definition check_string (args : list lval) (n : nat) (h : host) (k : string → answer) : answer :=
  match lua_check_string (arg args n) with Some s => k s | None => (h, bad_arg n) end.

Definition check_int (args : list lval) (n : nat) (h : host) (k : Z → answer) : answer :=
  match lua_check_int (arg args n) with Some z => k z | None => (h, bad_arg n) end.

Definition check_function (args : list lval) (n : nat) (h : host) (k : lfn → answer) : answer :=
  match arg args n with LFun f => k f | _ => (h, bad_arg n) end.

Definition check_table (args : list lval) (n : nat) (h : host) (k : list (lval * lval) → answer) : answer :=
  match arg args n with LTab t => k t | _ => (h, bad_arg n) end.

Definition opt_int (args : list lval) (n : nat) (d : Z) (h : host) (k : Z → answer) : answer :=
  match arg args n with LNil => k d | _ => check_int args n h k end.

Definition optPriority (args : list lval) (n : nat) : Z :=
  match arg args n with
  | LTab t => match raw_get_string "priority" t with LNum p => num_int p | _ => defaultPriority end
  | _ => defaultPriority
  end.

(** [push2]. *)
Definition push2 (err : option string) : bres :=
  match err with
  | Some e => BRet [LNil; LStr e]
  | None => BRet [LBool true; LNil]
  end.

Definition ret_id (id : Z) : bres := BRet [LNum (num_of id)].

(** ** Registration *)

Definition hook_command (x : sid) (args : list lval) (h : host) : answer :=
  check_string args 1 h (λ name,
  check_function args 2 h (λ fn,
    let prio := optPriority args 3 in
    let '(h, id) := newID h in
    let hk := Hook x fn prio id in
    let key := lc name in
    (h <| ho_cmds ::= <[key := hk]> |> <| ho_unhookers ::= <[id := (x, UnCommand key)]> |>, ret_id id))).

(** Appends a hook to a list, sorts it and remembers how to undo it. *)
Definition add_hook (l : hook_list) (hk : hook) (h : host) : host :=
  let '(h, s) := append_hook hk (get_list l h) h in
  let h := sortHooks s (put_list l s h) in
  h <| ho_unhookers ::= <[hk_id hk := (hk_script hk, UnList l)]> |>.

Definition registerListHook (l : hook_list) (x : sid) (args : list lval) (h : host) : answer :=
  check_function args 1 h (λ fn,
    let prio := optPriority args 2 in
    let '(h, id) := newID h in
    (add_hook l (Hook x fn prio id) h, ret_id id)).

Definition hook_signal (x : sid) (args : list lval) (h : host) : answer :=
  check_string args 1 h (λ event,
  check_function args 2 h (λ fn,
    let prio := optPriority args 3 in
    let '(h, id) := newID h in
    (add_hook (HSignal (lc event)) (Hook x fn prio id) h, ret_id id))).

(** [registerTimer]; [NewTicker] panics on an interval that is not positive,
    which [PCall] turns into an error of the script. *)
Definition registerTimer (x : sid) (args : list lval) (h : host) : answer :=
  check_int args 1 h (λ ms,
  check_function args 2 h (λ fn,
    let ms := Z.max 1 ms in
    let '(h, id) := newID h in
    let d := i64 (ms * millisecond) in
    if d <=? 0 then (h, BRaise "non-positive interval for NewTicker")
    else
      let t := TimerHook x fn id d in
      (h <| ho_timers ::= λ l, l ++ [t] |> <| ho_unhookers ::= <[id := (x, UnTimer)]> |>
         <| ho_started ::= λ l, l ++ [t] |>, ret_id id))).

(** [stopTimer]. *)
Definition stopTimer (id : Z) (h : host) : host :=
  h <| ho_timers ::= remove_first (λ t, Z.eqb (tm_id t) id) |>.

Definition run_unhook (id : Z) (u : unhook_fn) (h : host) : host :=
  match u with
  | UnList l => let '(h, s) := removeHook id (get_list l h) h in put_list l s h
  | UnCommand key =>
      match ho_cmds h !! key with
      | Some hk => if Z.eqb (hk_id hk) id then h <| ho_cmds ::= delete key |> else h
      | None => h
      end
  | UnTimer => stopTimer id h
  end.

Definition unhook (x : sid) (args : list lval) (h : host) : answer :=
  check_int args 1 h (λ id,
    match ho_unhookers h !! id with
    | Some (_, u) => (run_unhook id u h <| ho_unhookers ::= delete id |>, BRet [])
    | None => (h, BRet [])
    end).

(** ** Actions *)

Definition api (call : api_call) (h : host) : host * option string :=
  let '(w, err) := w_api call (ho_world h) in (h <| ho_world := w |>, err).

Definition action1 (f : string → api_call) (x : sid) (args : list lval) (h : host) : answer :=
  check_string args 1 h (λ a, let '(h, err) := api (f a) h in (h, push2 err)).

Definition action2 (f : string → string → api_call) (x : sid) (args : list lval) (h : host) : answer :=
  check_string args 1 h (λ a, check_string args 2 h (λ b, let '(h, err) := api (f a b) h in (h, push2 err))).

Definition action3 (f : string → string → string → api_call) (x : sid) (args : list lval) (h : host) : answer :=
  check_string args 1 h (λ a, check_string args 2 h (λ b, check_string args 3 h (λ c,
    let '(h, err) := api (f a b c) h in (h, push2 err)))).

(** [print]: of a context table the reply buffer comes first. *)
Definition bind_print (x : sid) (args : list lval) (h : host) : answer :=
  match arg args 1 with
  | LTab t =>
      let network := lvString (raw_get_string "network" t) in
      let reply := lvString (raw_get_string "reply" t) in
      let buffer := if String.eqb reply "" then lvString (raw_get_string "buffer" t) else reply in
      check_string args 2 h (λ text, ((api (ApiPrint network buffer text) h).1, BRet []))
  | _ =>
      check_string args 1 h (λ network, check_string args 2 h (λ buffer, check_string args 3 h (λ text,
        ((api (ApiPrint network buffer text) h).1, BRet []))))
  end.

(** The entries of a state table with string keys. *)
Definition state_of (t : list (lval * lval)) : gmap string string :=
  foldl (λ m '(k, v), match k with LStr s => <[s := lua_tostring v]> m | _ => m end) ∅ t.

Definition bind_set_buffer_state (x : sid) (args : list lval) (h : host) : answer :=
  check_string args 1 h (λ network, check_string args 2 h (λ buffer,
    match arg args 3 with
    | LNil => ((api (ApiSetBufferState network buffer ∅) h).1, BRet [])
    | LTab t => ((api (ApiSetBufferState network buffer (state_of t)) h).1, BRet [])
    | _ => (h, BRaise "set_buffer_state: third arg must be a table or nil")
    end)).

(** ** State reads *)

Definition bind_networks (x : sid) (args : list lval) (h : host) : answer :=
  (h, BRet [arr_table ((λ '(id, name, nick, state),
    str_table [("id", LStr id); ("name", LStr name); ("nick", LStr nick); ("state", LStr state)]) <$>
      w_networks (ho_world h))]).

Definition bind_channels (x : sid) (args : list lval) (h : host) : answer :=
  check_string args 1 h (λ network,
    (h, BRet [arr_table ((λ '(name, kind, topic),
      str_table [("name", LStr name); ("kind", LStr kind); ("topic", LStr topic)]) <$>
        w_channels (ho_world h) network)])).

Definition bind_members (x : sid) (args : list lval) (h : host) : answer :=
  check_string args 1 h (λ network, check_string args 2 h (λ channel,
    (h, BRet [arr_table ((λ m,
      str_table [("nick", LStr (m_nick m)); ("account", LStr (m_account m)); ("modes", LStr (m_modes m));
                 ("away", LBool (m_away m))]) <$> w_members (ho_world h) network channel)]))).

Definition bind_nick (x : sid) (args : list lval) (h : host) : answer :=
  check_string args 1 h (λ network, (h, BRet [LStr (w_nick (ho_world h) network)])).

Definition bind_backlog (x : sid) (args : list lval) (h : host) : answer :=
  check_string args 1 h (λ net, check_string args 2 h (λ buf, opt_int args 3 50 h (λ limit,
    (h, BRet [arr_table ((λ '(from, text, t),
      str_table [("from", LStr from); ("text", LStr text); ("time", LNum (num_of (t / second)))]) <$>
        w_backlog (ho_world h) net buf limit)])))).

(** ** [stugan.kv], [config], [log], [json] *)

Definition kv_set (x : sid) (args : list lval) (h : host) : answer :=
  check_string args 1 h (λ key, (kvSet (name_of h x) key (lua_tostring (arg args 2)) h, BRet [])).

Definition kv_get (x : sid) (args : list lval) (h : host) : answer :=
  let '(h, m) := kvCache (name_of h x) h in
  check_string args 1 h (λ key, (h, BRet [match m !! key with Some v => LStr v | None => LNil end])).

Definition kv_delete (x : sid) (args : list lval) (h : host) : answer :=
  check_string args 1 h (λ key, (kvDelete (name_of h x) key h, BRet [])).

Definition kv_all (x : sid) (args : list lval) (h : host) : answer :=
  let '(h, m) := kvCache (name_of h x) h in
  (h, BRet [str_table ((λ '(k, v), (k, LStr v)) <$> map_to_list m)]).

Definition bind_config (x : sid) (args : list lval) (h : host) : answer :=
  check_string args 1 h (λ key,
    (h, BRet [match ho_settings h !! name_of h x ≫= (.!! key) with
              | Some v => goToLua v
              | None => arg args 2
              end])).

Definition buildLog (x : sid) (args : list lval) (h : host) : answer :=
  check_string args 1 h (λ _, (h, BRet [])).

Definition json_decode (x : sid) (args : list lval) (h : host) : answer :=
  check_string args 1 h (λ s,
    (h, match w_unmarshal s with inl v => BRet [goToLua v] | inr err => BRet [LNil; LStr err] end)).

Definition json_encode (x : sid) (args : list lval) (h : host) : answer :=
  (h, match w_marshal (luaToGo (arg args 1)) with inl s => BRet [LStr s] | inr err => BRet [LNil; LStr err] end).

(** ** [describe], [setting] *)

Definition describe (x : sid) (args : list lval) (h : host) : answer :=
  check_string args 1 h (λ text, (set_script x (λ s, s <| ps_desc := text |>) h, BRet [])).

(** The declaration an options table makes. *)
Definition setting_decl (name : string) (opts : option (list (lval * lval))) : settingDecl :=
  let d := SettingDecl name "text" name "" "" false [] None in
  match opts with
  | None => d
  | Some t =>
      let d := match raw_get_string "type" t with
               | LStr v => if String.eqb v "" then d else d <| sd_typ := v |> | _ => d end in
      let d := match raw_get_string "label" t with
               | LStr v => if String.eqb v "" then d else d <| sd_label := v |> | _ => d end in
      let d := match raw_get_string "help" t with LStr v => d <| sd_help := v |> | _ => d end in
      let d := match raw_get_string "default" t with LNil => d | v => d <| sd_def := lua_tostring v |> end in
      let d := match raw_get_string "secret" t with LBool v => d <| sd_secret := v |> | _ => d end in
      let d := match raw_get_string "options" t with
               | LTab o => d <| sd_options := (λ '(_, v), lval_string v) <$> o |> | _ => d end in
      match raw_get_string "apply" t with LFun f => d <| sd_apply := Some f |> | _ => d end
  end.

Definition setting (x : sid) (args : list lval) (h : host) : answer :=
  check_string args 1 h (λ name,
    let opts := match arg args 2 with LTab t => Some t | _ => None end in
    let d := setting_decl name opts in
    let h := set_script x (λ s, s <| ps_settings ::= λ l, l ++ [d] |>) h in
    let '(h, v) := settingValue (name_of h x) d h in
    (h, BRet [LStr v])).

(** ** [stugan.http] *)

(** [startHTTP]; the slots of the semaphore are the requests in flight. *)
Definition startHTTP (x : sid) (rq : http_request) (cb : lfn) (h : host) : answer :=
  if negb (ho_http h) then (h, BRet [LBool false; LStr "http: disabled"])
  else if (length (ho_requests h) <? maxConcurrentHTTP)%nat
       then (h <| ho_requests ::= λ l, l ++ [PendingHttp x rq cb] |>, BRet [LBool true; LNil])
       else (h, BRet [LBool false; LStr "http: too many concurrent requests"]).

Definition http_get (x : sid) (args : list lval) (h : host) : answer :=
  check_string args 1 h (λ url, check_function args 2 h (λ cb,
    startHTTP x (HttpRequest "GET" url ∅ "") cb h)).

Definition bind_http_request (x : sid) (args : list lval) (h : host) : answer :=
  check_table args 1 h (λ t, check_function args 2 h (λ cb,
    let method := match raw_get_string "method" t with
                  | LStr v => if String.eqb v "" then "GET" else to_upper v | _ => "GET" end in
    let url := lvString (raw_get_string "url" t) in
    if String.eqb url "" then (h, BRaise "request: missing url")
    else
      let body := lvString (raw_get_string "body" t) in
      let headers := match raw_get_string "headers" t with LTab ht => state_of ht | _ => ∅ end in
      startHTTP x (HttpRequest method url headers body) cb h)).

(** ** [stugan.crypto] *)

Definition of_result (r : string + string) : bres :=
  match r with inl s => BRet [LStr s] | inr err => BRaise err end.

Definition blowfish_ecb (enc : bool) (x : sid) (args : list lval) (h : host) : answer :=
  check_string args 1 h (λ key, check_string args 2 h (λ data, (h, of_result (luaBlowfishECB enc key data)))).

Definition blowfish_cbc (enc : bool) (x : sid) (args : list lval) (h : host) : answer :=
  check_string args 1 h (λ key, check_string args 2 h (λ iv, check_string args 3 h (λ data,
    (h, of_result (luaBlowfishCBC enc key iv data))))).

Definition bind_sha256 (x : sid) (args : list lval) (h : host) : answer :=
  check_string args 1 h (λ s, (h, BRet [LStr (w_sha256 s)])).

Definition crypto_random (x : sid) (args : list lval) (h : host) : answer :=
  check_int args 1 h (λ n,
    if (n <? 1) || (maxRandomBytes <? n)
    then (h, BRaise ("stugan.crypto.random: n must be 1.." +:+ itoa maxRandomBytes +:+ " (got " +:+ itoa n +:+ ")"))
    else
      let '(w, r) := w_random n (ho_world h) in
      let h := h <| ho_world := w |> in
      (h, match r with Some s => BRet [LStr s] | None => BRaise "stugan.crypto.random" end)).

Definition bind_modexp (x : sid) (args : list lval) (h : host) : answer :=
  check_string args 1 h (λ base, check_string args 2 h (λ exp, check_string args 3 h (λ m,
    (h, of_result (modexp base exp m))))).

(** ** The [stugan] table *)

(** [buildAPI], [buildKV], [buildLog], [buildJSON], [buildHTTP],
    [buildCrypto]: the functions by name. *)
Definition bindings : list (string * (sid → list lval → host → answer)) :=
  [("hook_command", hook_command); ("hook_message", registerListHook HMsg); ("hook_input", registerListHook HInput);
   ("hook_topic", registerListHook HTopic); ("hook_completion", registerListHook HCompletion);
   ("hook_signal", hook_signal); ("hook_timer", registerTimer); ("unhook", unhook);
   ("send", action2 ApiSend); ("message", action3 ApiMessage); ("notice", action3 ApiNotice);
   ("action", action3 ApiAction); ("join", action2 ApiJoin); ("part", action2 ApiPart);
   ("hold_joins", action1 ApiHoldJoins); ("release_joins", action1 ApiReleaseJoins);
   ("print", bind_print); ("set_buffer_state", bind_set_buffer_state);
   ("networks", bind_networks); ("channels", bind_channels); ("members", bind_members); ("nick", bind_nick);
   ("backlog", bind_backlog); ("config", bind_config); ("describe", describe); ("setting", setting);
   ("kv.set", kv_set); ("kv.get", kv_get); ("kv.delete", kv_delete); ("kv.all", kv_all);
   ("log.debug", buildLog); ("log.info", buildLog); ("log.warn", buildLog); ("log.error", buildLog);
   ("json.decode", json_decode); ("json.encode", json_encode);
   ("http.get", http_get); ("http.request", bind_http_request);
   ("crypto.blowfish_ecb_encrypt", blowfish_ecb true); ("crypto.blowfish_ecb_decrypt", blowfish_ecb false);
   ("crypto.blowfish_cbc_encrypt", blowfish_cbc true); ("crypto.blowfish_cbc_decrypt", blowfish_cbc false);
   ("crypto.sha256", bind_sha256); ("crypto.random", crypto_random); ("crypto.modexp", bind_modexp)].

Definition binding (x : sid) (f : string) (args : list lval) (h : host) : answer :=
  match find (λ b, String.eqb (fst b) f) bindings with
  | Some (_, g) => g x args h
  | None => (h, BRaise "attempt to call a nil value")
  end.

(** A run of Lua code of a script: the host it leaves, the interpreter's state
    and what the code returned, or the error it failed with. *)
Fixpoint exec (x : sid) (r : lua_run) (h : host) : host * lstate * (lval + string) :=
  match r with
  | LDone L v => (h, L, inl v)
  | LError L err => (h, L, inr err)
  | LCall f args k => let '(h, b) := binding x f args h in exec x (k b) h
  end.

(** [call]: into a closed interpreter it panics outside [PCall]. *)
Definition call (x : sid) (fn : lfn) (args : list lval) (h : host) : host * option lval :=
  match ho_states h !! x with
  | None => (h, None)
  | Some s =>
      if ps_closed s then (h <| ho_down := true |>, None)
      else
        let '(h, L, r) := exec x (w_call fn args (ps_lua s)) h in
        let h := set_script x (λ s, s <| ps_lua := L |>) h in
        match r with
        | inl v => (h, Some v)
        | inr _ => (scriptError x h, None)
        end
  end.
End bind.
