(* ===== verification/PlugRun.v ===== *)
(** * Running the plugins

    [host.go] of [internal/plugin]: loading and unloading scripts, dispatching
    events to their hooks, timers and HTTP callbacks, and the management calls
    of the web client.  [host_step] is the host as a state machine: one input
    per job of its goroutine, in whatever order they come.  An operation that
    queues several jobs (a download) is one step here; jobs of others that run
    between them are not interleaved with it. *)

From Stdlib Require Import ZArith Lia Ascii Bool.
From stdpp Require Import base tactics list gmap strings pretty sorting.
From S2P Require Import Prelude GoStrings GoNet CoreTypes CoreEvent CoreEngine PlugLua PlugHost PlugBind.

#[local] Open Scope Z_scope.

Record PluginSetting := PluginSettingInfo {
  pse_name : string; pse_type : string; pse_label : string; pse_help : string;
  pse_default : string; pse_value : string; pse_secret : bool; pse_options : list string }.

Record PluginInfo := MkPluginInfo {
  pi_name : string; pi_description : string; pi_loaded : bool; pi_disabled : bool; pi_errors : Z;
  pi_commands : list string; pi_hooks : nat; pi_settings : list PluginSetting;
  pi_source_type : string; pi_source_url : string; pi_update : bool }.

Section run.
Context `{UnicodeTables, LuaTypes, !LuaRT, !Blowfish, !HostEnv}.

(** ** Loading *)

(** [unloadScript]. *)
Definition unloadScript (name : string) (h : host) : host :=
  match ho_scripts h !! name with
  | None => h
  | Some x =>
      let h := drop_list x HCompletion (drop_list x HTopic (drop_list x HInput (drop_list x HMsg h))) in
      let h := foldl (λ h e, drop_list x (HSignal e) h) h (elements (dom (ho_signals h))) in
      h <| ho_cmds ::= filter (λ '(_, hk), hk_script hk ≠ x) |>
        <| ho_timers ::= filter (λ t, tm_script t ≠ x) |>
        <| ho_unhookers ::= filter (λ '(_, (y, _)), y ≠ x) |>
        <| ho_scripts ::= delete name |>
        <| ho_states ::= alter (λ s, s <| ps_closed := true |>) x |>
  end.

(** The script [loadScript] runs the file with. *)
Definition new_script (name path : string) (h : host) : host * sid :=
  let x := ho_next_script h in
  (h <| ho_states ::= <[x := Script name path "" [] (w_new_state (ho_sandbox h)) 0 false false]> |>
     <| ho_next_script := S x |>, x).

Definition run_file (x : sid) (path : string) (h : host) : host * option string :=
  match ho_states h !! x with
  | None => (h, None)
  | Some s =>
      let '(h, L, r) := exec x (w_dofile path (ps_lua s) (ho_world h)) h in
      (set_script x (λ s, s <| ps_lua := L |>) h, match r with inl _ => None | inr err => Some err end)
  end.

(** [loadScript]. *)
Definition loadScript (path : string) (h : host) : host :=
  let name := scriptName path in
  let h := unloadScript name h in
  let '(h, trusted) := if ho_trusted h then trustedScriptLocked name h else (h, true) in
  if negb trusted then h
  else
    let '(h, x) := new_script name path h in
    let '(h, err) := run_file x path h in
    match err with
    | Some _ => set_script x (λ s, s <| ps_closed := true |>) h
    | None => h <| ho_scripts ::= <[name := x]> |>
    end.

Definition is_lua (name : string) : bool := has_suffix ".lua" name.

(** [loadAll]. *)
Definition loadAll (h : host) : host :=
  if String.eqb (ho_dir h) "" then h
  else foldl (λ h f, loadScript (path_join (ho_dir h) f) h) h (filter is_lua (w_files (ho_world h))).

(** ** Hooks *)

(** The loop over a list of hooks: it keeps its own header, so what it finds in
    a slot is whatever the array holds there by then.  The body says whether to
    go on. *)
Fixpoint range_hooks {A} (body : hook → A → host → host * (bool * A)) (a i n : nat) (acc : A) (h : host)
    : host * (bool * A) :=
  match n with
  | O => (h, (true, acc))
  | S n =>
      match slot h a i with
      | None => (h <| ho_down := true |>, (false, acc))
      | Some hk =>
          if disabled h (hk_script hk) then range_hooks body a (S i) n acc h
          else
            let '(h, (go, acc)) := body hk acc h in
            if go && negb (ho_down h) then range_hooks body a (S i) n acc h else (h, (go, acc))
      end
  end.

Definition range_list {A} (body : hook → A → host → host * (bool * A)) (l : hook_list) (acc : A) (h : host) :=
  let s := get_list l h in range_hooks body (sl_arr s) 0 (sl_len s) acc h.

(** What a message hook's result does to the message: [None] drops it. *)
Definition message_result (ret : option lval) (msg : message) : option message :=
  match ret with
  | None => Some msg
  | Some LNil | Some (LBool false) => None
  | Some (LTab t) => Some (tableToMsg t msg)
  | Some _ => Some msg
  end.

Definition message_body (hk : hook) (msg : message) (h : host) : host * (bool * message) :=
  let '(h, ret) := call (hk_script hk) (hk_fn hk) [msgToTable msg] h in
  (h, match message_result ret msg with Some m => (true, m) | None => (false, msg) end).

(** [runMessageHooks]. *)
Definition runMessageHooks (ev : event) (h : host) : host * (event * bool) :=
  match evt_message ev with
  | None => (h, (ev, true))
  | Some msg =>
      let '(h, (keep, msg)) := range_list message_body HMsg msg h in
      (h, if keep then (ev <| evt_message := Some msg |>, true) else (ev, false))
  end.

Definition input_result (ret : option lval) (msg : message) : option message :=
  match ret with
  | None => Some msg
  | Some LNil | Some (LBool false) => None
  | Some (LStr s) => Some (msg <| msg_text := s |>)
  | Some _ => Some msg
  end.

Definition input_body (nick : string) (hk : hook) (msg : message) (h : host) : host * (bool * message) :=
  let '(h, ret) := call (hk_script hk) (hk_fn hk)
                     [LStr (msg_text msg); ctxTable (msg_network msg) (msg_buffer msg) nick] h in
  (h, match input_result ret msg with Some m => (true, m) | None => (false, msg) end).

(** [runInputHooks]. *)
Definition runInputHooks (ev : event) (h : host) : host * (event * bool) :=
  match evt_message ev with
  | None => (h, (ev, true))
  | Some msg =>
      let nick := w_nick (ho_world h) (msg_network msg) in
      let '(h, (keep, msg)) := range_list (input_body nick) HInput msg h in
      (h, if keep then (ev <| evt_message := Some msg |>, true) else (ev, false))
  end.

Definition topic_result (ret : option lval) (text : string) : string :=
  match ret with
  | Some (LStr s) => s
  | Some (LTab t) => match raw_get_string "text" t with LStr s => s | _ => text end
  | _ => text
  end.

Definition topic_body (ev : event) (hk : hook) (text : string) (h : host) : host * (bool * string) :=
  let '(h, ret) := call (hk_script hk) (hk_fn hk) [topicTable ev text] h in (h, (true, topic_result ret text)).

(** [runTopicHooks]. *)
Definition runTopicHooks (ev : event) (h : host) : host * (event * bool) :=
  let '(h, (_, text)) := range_list (topic_body ev) HTopic (evt_text ev) h in
  (h, (ev <| evt_text := text |>, true)).

Definition signal_body (ev : event) (hk : hook) (acc : unit) (h : host) : host * (bool * unit) :=
  let '(h, _) := call (hk_script hk) (hk_fn hk) [signalTable ev] h in (h, (true, tt)).

(** [runSignalHooks]. *)
Definition runSignalHooks (name : string) (ev : event) (h : host) : host :=
  (range_list (signal_body ev) (HSignal name) tt h).1.

Definition replyBuffer (name : string) : string := "*" +:+ name.

(** [runCommand]. *)
Definition runCommand (ev : event) (h : host) : host * (event * bool) :=
  let cmd := to_lower (evt_command ev) in
  match ho_cmds h !! cmd with
  | None => (h, (ev, true))
  | Some hk =>
      if disabled h (hk_script hk) then (h, (ev, true))
      else
        let name := name_of h (hk_script hk) in
        let nick := w_nick (ho_world h) (evt_network ev) in
        let reply := replyBuffer name in
        let key := evt_network ev +:+ String (byte_of_z 0) name in
        let '(h, buffer) :=
          if String.eqb (evt_buffer ev) reply then
            let o := default "" (ho_origin h !! key) in
            (h, if String.eqb o "" then evt_buffer ev else o)
          else (h <| ho_origin ::= <[key := evt_buffer ev]> |>, evt_buffer ev) in
        let ctx := str_table (ctx_fields (evt_network ev) buffer nick ++ [("reply", LStr reply); ("command", LStr cmd)]) in
        ((call (hk_script hk) (hk_fn hk) [stringArray (event_args ev); ctx] h).1, (ev, false))
  end.

Definition reply_hint (name : string) : string :=
  "this is the " +:+ name +:+ " plugin's window — run its /commands here; text typed here is not sent to IRC".

(** [runReplyBufferInput]: [None] when the line is not for a reply query. *)
Definition runReplyBufferInput (ev : event) (h : host) : host * option (event * bool) :=
  match evt_message ev with
  | None => (h, None)
  | Some m =>
      if negb (IsPluginBuffer (msg_buffer m)) then (h, None)
      else
        let name := str_drop 1 (msg_buffer m) in
        match ho_scripts h !! name with
        | None => (h, None)
        | Some x =>
            let own := match ho_cmds h !! to_lower name with
                       | Some hk => Nat.eqb (hk_script hk) x && negb (disabled h x) | None => false end in
            if own then
              let cmd := new_event EvCommand (msg_network m) (msg_time m) <| evt_buffer := msg_buffer m |>
                           <| evt_command := name |> <| evt_args := Some (fields (msg_text m)) |>
                           <| evt_text := msg_text m |> in
              ((runCommand cmd h).1, Some (ev, false))
            else ((api (ApiPrint (msg_network m) (msg_buffer m) (reply_hint name)) h).1, Some (ev, false))
        end
  end.

(** The strings of a candidate table. *)
Definition candidates (t : list (lval * lval)) : list string :=
  omap (λ '(_, v), match v with LStr s => if String.eqb s "" then None else Some s | _ => None end) t.

Definition completion_body (word network buffer nick : string) (hk : hook) (out : list string) (h : host)
    : host * (bool * list string) :=
  let '(h, ret) := call (hk_script hk) (hk_fn hk) [LStr word; ctxTable network buffer nick] h in
  (h, (true, match ret with Some (LTab t) => out ++ candidates t | _ => out end)).

(** [runCompletionHooks]. *)
Definition runCompletionHooks (word network buffer : string) (h : host) : host * list string :=
  if (sl_len (ho_completion h) =? 0)%nat then (h, [])
  else
    let nick := w_nick (ho_world h) network in
    let '(h, (_, out)) := range_list (completion_body word network buffer nick) HCompletion [] h in (h, out).

(** [dispatch]. *)
Definition dispatch (ev : event) (h : host) : host * (event * bool) :=
  match evt_type ev with
  | EvMessageIn => runMessageHooks ev h
  | EvMessageOut =>
      let '(h, r) := runReplyBufferInput ev h in
      match r with Some r => (h, r) | None => runInputHooks ev h end
  | EvCommand => runCommand ev h
  | EvTopic =>
      let '(h, (out, keep)) := runTopicHooks ev h in
      (match signalName out with Some name => if keep then runSignalHooks name out h else h | None => h end, (out, keep))
  | _ => (match signalName ev with Some name => runSignalHooks name ev h | None => h end, (ev, true))
  end.

(** ** Jobs *)

(** [do]: runs on the plugin goroutine, which then rebuilds the summary; a no-op
    on a closed host. *)
Definition job (f : host → host) (h : host) : host :=
  if ho_quit h || ho_down h then h else refreshPresence (f h).

Definition job_ret {A} (d : A) (f : host → host * A) (h : host) : host * A :=
  if ho_quit h || ho_down h then (h, d) else let '(h, a) := f h in (refreshPresence h, a).

(** [Dispatch]. *)
Definition Dispatch (ev : event) (h : host) : host * (event * bool) :=
  if negb (wants h ev) then (h, (ev, true)) else job_ret (ev, true) (dispatch ev) h.

(** [Complete], [Commands]. *)
Definition Complete (word network buffer : string) (h : host) : host * list string :=
  job_ret [] (runCompletionHooks word network buffer) h.

Definition Commands (h : host) : host * list string := job_ret [] (λ h, (h, elements (dom (ho_cmds h)))) h.

Definition is_current (h : host) (x : sid) : bool := bool_decide (ho_scripts h !! name_of h x = Some x).

(** [runTimer]. *)
Definition runTimer (t : timerHook) (h : host) : host :=
  if negb (is_current h (tm_script t)) || disabled h (tm_script t) then h
  else (call (tm_script t) (tm_fn t) [] h).1.

(** ** HTTP *)

Definition is_token (a : ascii) : bool :=
  between 48 57 (byte_z a) || between 65 90 (byte_z a) || between 97 122 (byte_z a) || str_in a "!#$%&'*+-.^_`|~".

Fixpoint canonical_from (upper : bool) (s : string) : string :=
  match s with
  | "" => ""
  | String a s => String (if upper then ascii_upper a else ascii_lower a) (canonical_from (Ascii.eqb a "-") s)
  end%string.

(** [CanonicalMIMEHeaderKey]. *)
Definition canonical_header (key : string) : string :=
  if str_all is_token key then canonical_from true key else key.

(** [doHTTP]. *)
Definition doHTTP (rq : http_request) (name : string) (h : host) : host * (httpResult + string) :=
  let hdr := foldl (λ m '(k, v), <[canonical_header k := v]> m) ∅ (map_to_list (rq_headers rq)) in
  let hdr := if String.eqb (default "" (hdr !! "User-Agent")) "" then <["User-Agent" := "stugan-plugin/" +:+ name]> hdr else hdr in
  let '(w, r) := w_http (HttpRequest (rq_method rq) (rq_url rq) hdr (rq_body rq)) (ho_world h) in
  (h <| ho_world := w |>,
   match r with
   | inl res => inl (HttpResult (hr_status res) (str_take (Z.to_nat maxHTTPBody) (hr_body res)) (hr_header res))
   | inr err => inr err
   end).

Definition httpResultTable (r : httpResult + string) : lval :=
  match r with
  | inr err =>
      str_table [("ok", LBool false); ("status", LNum (num_of 0)); ("body", LStr ""); ("headers", LTab []); ("error", LStr err)]
  | inl res =>
      str_table [("ok", LBool true); ("status", LNum (num_of (hr_status res))); ("body", LStr (hr_body res));
                 ("headers", str_table ((λ '(k, v), (to_lower k, LStr v)) <$> hr_header res))]
  end.

(** The goroutine [startHTTP] leaves: the request, the callback if its script is
    still the one loaded, then its slot is free again. *)
Definition run_request (i : nat) (h : host) : host :=
  match ho_requests h !! i with
  | None => h
  | Some p =>
      let '(h, r) := doHTTP (ph_request p) (name_of h (ph_script p)) h in
      let h := job (λ h, if negb (is_current h (ph_script p)) || disabled h (ph_script p) then h
                         else (call (ph_script p) (ph_cb p) [httpResultTable r] h).1) h in
      h <| ho_requests ::= delete i |>
  end.

(** ** Management *)

(** [scriptPath]. *)
Definition scriptPath (name : string) (h : host) : string + string :=
  if negb (bare_name name) then inr ("invalid plugin name " +:+ go_quote name)
  else if String.eqb (ho_dir h) "" then inr "no scripts directory"
  else inl (path_join (ho_dir h) (name +:+ ".lua")).

Definition isLoaded (name : string) (h : host) : bool :=
  negb (ho_quit h) && bool_decide (is_Some (ho_scripts h !! name)).

(** [LoadPlugin], [ReloadPlugin]. *)
Definition LoadPlugin (name : string) (h : host) : host * option string :=
  match scriptPath name h with
  | inr err => (h, Some err)
  | inl path =>
      if negb (w_stat (ho_world h) path) then (h, Some ("no such plugin " +:+ go_quote name))
      else
        let h := job (loadScript path) h in
        (h, if isLoaded name h then None else Some ("plugin " +:+ go_quote name +:+ " failed to load (check the log)"))
  end.

Definition UnloadPlugin (name : string) (h : host) : host * option string :=
  match scriptPath name h with
  | inr err => (h, Some err)
  | inl _ =>
      if negb (isLoaded name h) then (h, Some ("plugin " +:+ go_quote name +:+ " is not loaded"))
      else (job (unloadScript name) h, None)
  end.

Definition UninstallPlugin (name : string) (h : host) : host * option string :=
  match scriptPath name h with
  | inr err => (h, Some err)
  | inl path =>
      if isLoaded name h then (h, Some ("plugin " +:+ go_quote name +:+ " must be unloaded before uninstalling"))
      else
        let '(w, r) := w_remove path (ho_world h) in
        let h := h <| ho_world := w |> in
        match r with
        | NotFound => (h, Some ("no such plugin " +:+ go_quote name))
        | RemoveError err =>
            (h, Some ("remove plugin " +:+ go_quote name +:+ ": " +:+ err +:+ " (check directory ownership/permissions)"))
        | Removed => (job (λ h, h <| ho_updates ::= λ u, u ∖ {[name]} |>) h, None)
        end
  end.

(** [downloadScriptFromURL]. *)
Definition downloadScriptFromURL (url : string) (h : host) : host * (string + string) :=
  let '(w, r) := w_http (HttpRequest "GET" url ∅ "") (ho_world h) in
  let h := h <| ho_world := w |> in
  (h, match r with
      | inr err => inr ("download failed: " +:+ err)
      | inl res =>
          if hr_status res =? 404 then inr ("script not found at " +:+ url)
          else if negb (hr_status res =? 200)
               then inr ("HTTP " +:+ itoa (hr_status res) +:+ " downloading script from " +:+ url)
               else inl (str_take (Z.to_nat maxHTTPBody) (hr_body res))
      end).

(** [hashBytes]. *)
Definition hashBytes (b : string) : string :=
  str_concat ((λ a, hex_digits 2 (byte_z a)) <$> String.list_ascii_of_string (w_sha256 b)).

(** Fetch, write, record, load: what the three ways to install a script share. *)
Definition install (name url typ : string) (h : host) : host * option string :=
  let '(h, r) := downloadScriptFromURL url h in
  match r with
  | inr err => (h, Some err)
  | inl body =>
      let '(w, err) := w_mkdir (ho_dir h) (ho_world h) in
      let h := h <| ho_world := w |> in
      match err with
      | Some e => (h, Some ("create scripts dir " +:+ go_quote (ho_dir h) +:+ ": " +:+ e +:+ " (check directory ownership/permissions)"))
      | None =>
          let dst := path_join (ho_dir h) (name +:+ ".lua") in
          let '(w, err) := w_write dst body (ho_world h) in
          let h := h <| ho_world := w |> in
          match err with
          | Some e => (h, Some ("write plugin file " +:+ go_quote dst +:+ ": " +:+ e +:+ " (check directory ownership/permissions)"))
          | None =>
              let h := job (λ h, setScriptMetaLocked name url typ (hashBytes body) h
                                   <| ho_updates ::= λ u, u ∖ {[name]} |>) h in
              LoadPlugin name h
          end
      end
  end.

Definition clean_name (name : string) : string := trim_suffix ".lua" (trim_space name).

Definition DownloadPlugin (name : string) (h : host) : host * option string :=
  let name := clean_name name in
  if negb (bare_name name) then (h, Some ("invalid plugin name " +:+ go_quote name))
  else if String.eqb (ho_dir h) "" then (h, Some "no scripts directory configured")
  else match curatedPlugin name with
       | None => (h, Some ("plugin " +:+ go_quote name +:+ " is not in the curated library"))
       | Some c => install name (cu_url c) "curated" h
       end.

Definition ImportPlugin (url name : string) (h : host) : host * option string :=
  if ho_trusted h then (h, Some "remote plugin imports are disabled in multi-user mode")
  else
    let url := trim_space url in
    match w_url_parse url with
    | None => (h, Some ("invalid script URL " +:+ go_quote url))
    | Some (scheme, hostname, path) =>
        if negb (String.eqb scheme "http" || String.eqb scheme "https") || String.eqb hostname ""
        then (h, Some ("invalid script URL " +:+ go_quote url))
        else
          let name := clean_name name in
          let name := if String.eqb name "" then trim_suffix ".lua" (path_base path) else name in
          if negb (bare_name name) then (h, Some ("invalid plugin name derived from URL " +:+ go_quote url))
          else if String.eqb (ho_dir h) "" then (h, Some "no scripts directory configured")
          else install name url (if isExactCuratedSource name url then "curated" else "remote") h
    end.

(** The source an update may come from. *)
Definition may_update (h : host) (name url typ : string) : bool :=
  negb (ho_trusted h) || (String.eqb typ "curated" && isExactCuratedSource name url).

Definition script_meta (name : string) (h : host) : host * (string * string) :=
  job_ret ("", "") (λ h, let '(h, url, typ) := getScriptMetaLocked name h in (h, (url, typ))) h.

Definition UpdatePlugin (name : string) (h : host) : host * option string :=
  let name := clean_name name in
  if negb (bare_name name) then (h, Some ("invalid plugin name " +:+ go_quote name))
  else if String.eqb (ho_dir h) "" then (h, Some "no scripts directory configured")
  else
    let '(h, (url, typ)) := script_meta name h in
    if String.eqb url "" then (h, Some ("plugin " +:+ go_quote name +:+ " has no remote source URL"))
    else if negb (may_update h name url typ)
         then (h, Some ("plugin " +:+ go_quote name +:+ " is not from the curated library"))
         else install name url typ h.

(** ** The list of plugins *)

Definition commandsFor (x : sid) (h : host) : list string :=
  merge_sort (λ a b, Is_true (String.leb a b))
    (omap (λ '(name, hk), if Nat.eqb (hk_script hk) x then Some name else None) (map_to_list (ho_cmds h))).

Definition owned (x : sid) (l : hook_list) (h : host) : nat :=
  length (filter (λ hk, hk_script hk = x) (hooks_of l h)).

Definition hookCount (x : sid) (h : host) : nat :=
  (owned x HMsg h + owned x HInput h + owned x HTopic h + owned x HCompletion h
   + sum_list ((λ e, owned x (HSignal e) h) <$> elements (dom (ho_signals h)))
   + length (filter (λ t, tm_script t = x) (ho_timers h)))%nat.

(** [settingsFor]: a secret's value is withheld. *)
Definition settingsFor (x : sid) (h : host) : host * list PluginSetting :=
  match ho_states h !! x with
  | None => (h, [])
  | Some s =>
      foldl (λ '(h, out) d,
        let '(h, v) := if sd_secret d then (h, "") else settingValue (ps_name s) d h in
        (h, out ++ [PluginSettingInfo (sd_name d) (sd_typ d) (sd_label d) (sd_help d) (sd_def d) v (sd_secret d) (sd_options d)]))
        (h, []) (ps_settings s)
  end.

Definition loaded_info (name : string) (x : sid) (h : host) : host * PluginInfo :=
  let '(h, url, typ) := getScriptMetaLocked name h in
  let '(h, settings) := settingsFor x h in
  let s := ho_states h !! x in
  (h, MkPluginInfo name (default "" (ps_desc <$> s)) true (disabled h x) (default 0 (ps_errs <$> s))
        (commandsFor x h) (hookCount x h) settings typ url (bool_decide (name ∈ ho_updates h))).

Definition unloaded_info (name : string) (h : host) : host * PluginInfo :=
  let '(h, url, typ) := getScriptMetaLocked name h in
  (h, MkPluginInfo name "" false false 0 [] 0 [] typ url (bool_decide (name ∈ ho_updates h))).

(** One file of the directory, unless its name was seen. *)
Definition file_info (f : string) (st : host * list PluginInfo * gset string) : host * list PluginInfo * gset string :=
  let '(h, out, seen) := st in
  let name := scriptName f in
  if bool_decide (name ∈ seen) then st
  else let '(h, i) := unloaded_info name h in (h, out ++ [i], {[name]} ∪ seen).

Definition list_plugins (h : host) : host * list PluginInfo :=
  let '(h, out) := foldl (λ '(h, out) '(name, x), let '(h, i) := loaded_info name x h in (h, out ++ [i]))
                     (h, []) (map_to_list (ho_scripts h)) in
  if String.eqb (ho_dir h) "" then (h, out)
  else
    let '(h, out, _) := foldl (λ st f, file_info f st) (h, out, dom (ho_scripts h))
                          (filter is_lua (w_files (ho_world h))) in (h, out).

Definition Plugins (h : host) : host * list PluginInfo :=
  let '(h, out) := job_ret [] list_plugins h in
  (h, merge_sort (λ a b, Is_true (String.leb (pi_name a) (pi_name b))) out).

Definition CuratedPlugins (h : host) : list CuratedPluginInfo :=
  if ho_quit h || ho_down h then []
  else (λ c,
    Curated (cu_name c) (cu_description c) (cu_url c)
      (negb (String.eqb (ho_dir h) "") && w_stat (ho_world h) (path_join (ho_dir h) (cu_name c +:+ ".lua")))
      (bool_decide (is_Some (ho_scripts h !! cu_name c))) (bool_decide (cu_name c ∈ ho_updates h))) <$> curatedPlugins.

(** One script of [CheckPluginUpdates]. *)
Definition check_update (h : host) (n : string) : host :=
  let '(h, (url, typ)) := script_meta n h in
  if String.eqb url "" || negb (may_update h n url typ) then h
  else match w_read (ho_world h) (path_join (ho_dir h) (n +:+ ".lua")) with
       | None => h
       | Some local =>
           let '(h, r) := downloadScriptFromURL url h in
           match r with
           | inr _ => h
           | inl body =>
               job (λ h, if String.eqb (hashBytes local) (hashBytes body) then h <| ho_updates ::= λ u, u ∖ {[n]} |>
                         else h <| ho_updates ::= λ u, {[n]} ∪ u |>) h
           end
       end.

Definition CheckPluginUpdates (name : string) (h : host) : host * option string :=
  if String.eqb (ho_dir h) "" then (h, Some "no scripts directory configured")
  else
    let '(h, toCheck) :=
      if String.eqb name "" then
        let '(h, infos) := Plugins h in
        let names := pi_name <$> infos in
        (h, names ++ filter (λ n, n ∉ names) (cu_name <$> curatedPlugins))
      else (h, [trim_suffix ".lua" (path_base name)]) in
    (foldl check_update h toCheck, None).

(** [SetPluginSetting]. *)
Definition SetPluginSetting (name key value : string) (h : host) : host * option string :=
  job_ret None (λ h,
    match ho_scripts h !! name with
    | None => (h, Some ("plugin " +:+ go_quote name +:+ " is not loaded"))
    | Some x =>
        match find (λ d, String.eqb (sd_name d) key) (default [] (ps_settings <$> ho_states h !! x)) with
        | None => (h, Some ("plugin " +:+ go_quote name +:+ " has no setting " +:+ go_quote key))
        | Some d =>
            match coerceSetting d value with
            | inr err => (h, Some err)
            | inl v =>
                let h := kvSet (name_of h x) key v h in
                (match sd_apply d with Some fn => (call x fn [LStr v] h).1 | None => h end, None)
            end
        end
    end) h.

(** [Close]: the tickers are stopped, their list stays; a tick that comes later is
    not run, since the host has quit. *)
Definition Close (h : host) : host :=
  let h := h <| ho_quit := true |> in
  foldl (λ h '(_, x), set_script x (λ s, s <| ps_closed := true |>) h) h (map_to_list (ho_scripts h)).

(** ** The host as a state machine *)

Definition empty_host (dir : string) (settings : gmap string (gmap string goval))
    (sandbox trusted kv_store http : bool) (w : world) : host :=
  Host dir settings sandbox trusted kv_store http ∅ ∅ ∅ nil_slice nil_slice nil_slice nil_slice ∅ ∅ ∅ [] 0 ∅ None false
    ∅ 0 ∅ 1 [] [] false w.

(** [New]. *)
Definition New dir settings sandbox trusted kv_store http (w : world) : host :=
  job loadAll (empty_host dir settings sandbox trusted kv_store http w).

Inductive host_input :=
  | JDispatch (ev : event)
  | JComplete (word network buffer : string)
  | JPlugins
  | JTick (i : nat)                     (** a ticker that was started fires *)
  | JRequest (i : nat)                  (** a request in flight is answered *)
  | JLoad (name : string)
  | JUnload (name : string)
  | JUninstall (name : string)
  | JDownload (name : string)
  | JImport (url name : string)
  | JUpdate (name : string)
  | JCheckUpdates (name : string)
  | JSetting (name key value : string)
  | JFileRemoved (path : string)        (** [watch]: a script was removed or renamed *)
  | JFileWritten (path : string)        (** [watch]: a script was written, after the debounce *)
  | JClose                              (** the owner of a host closes it once *).

Definition host_step (i : host_input) (h : host) : host :=
  if ho_down h then h
  else match i with
       | JDispatch ev => (Dispatch ev h).1
       | JComplete word network buffer => (Complete word network buffer h).1
       | JPlugins => (Plugins h).1
       | JTick i => match ho_started h !! i with Some t => job (runTimer t) h | None => h end
       | JRequest i => run_request i h
       | JLoad name => (LoadPlugin name h).1
       | JUnload name => (UnloadPlugin name h).1
       | JUninstall name => (UninstallPlugin name h).1
       | JDownload name => (DownloadPlugin name h).1
       | JImport url name => (ImportPlugin url name h).1
       | JUpdate name => (UpdatePlugin name h).1
       | JCheckUpdates name => (CheckPluginUpdates name h).1
       | JSetting name key value => (SetPluginSetting name key value h).1
       | JFileRemoved path => if is_lua path then job (unloadScript (scriptName path)) h else h
       | JFileWritten path => if is_lua path then job (loadScript path) h else h
       | JClose => if ho_quit h then h else Close h
       end.

Definition host_run (h : host) (inputs : list host_input) : host := foldl (λ h i, host_step i h) h inputs.
End run.
