(* ===== verification/PlugPrim.v ===== *)
(** * The moves of a plugin host

    Whatever a host does is a sequence of a few moves ([prim]): something
    happens outside its hooks and scripts, a script that may run registers or
    removes a hook or changes its own record, a script is created, put in
    service, closed or unloaded.  [step_prims] shows it for every input, so an
    invariant needs one case per move. *)

From Stdlib Require Import ZArith Lia Ascii Bool.
From stdpp Require Import base tactics list gmap strings relations.
From S2P Require Import Prelude GoStrings GoNet CoreTypes CoreEvent CoreEngine PlugLua PlugHost PlugBind PlugRun.

#[local] Open Scope Z_scope.

Section prim.
Context `{UnicodeTables, LuaTypes, !LuaRT, !Blowfish, !HostEnv}.

(** Nothing about scripts and hooks changed. *)
Record aside (h h' : host) : Prop := {
  as_scripts : ho_scripts h' = ho_scripts h;
  as_lists : ∀ l, get_list l h' = get_list l h;
  as_signals : ho_signals h' = ho_signals h;
  as_cmds : ho_cmds h' = ho_cmds h;
  as_timers : ho_timers h' = ho_timers h;
  as_next_id : ho_next_id h' = ho_next_id h;
  as_unhookers : ho_unhookers h' = ho_unhookers h;
  as_states : ho_states h' = ho_states h;
  as_next_script : ho_next_script h' = ho_next_script h;
  as_arrays : ho_arrays h' = ho_arrays h;
  as_next_array : ho_next_array h' = ho_next_array h;
  as_down : ho_down h' = ho_down h;
}.

(** A script that is not closed; unless [b], one that is not disabled either. *)
Definition may_run (b : bool) (h : host) (x : sid) : Prop :=
  ∃ s, ho_states h !! x = Some s ∧ ps_closed s = false ∧ (b = true ∨ ps_disabled s = false).

(** What a script may change of its record by running. *)
Definition own_change (f : script → script) : Prop :=
  ∀ s, ps_name (f s) = ps_name s ∧ ps_errs (f s) = ps_errs s ∧ ps_disabled (f s) = ps_disabled s ∧
       ps_closed (f s) = ps_closed s.

Definition fresh_hook (x : sid) (fn : lfn) (prio : Z) (h : host) : hook := Hook x fn prio (ho_next_id h + 1).

Definition add_command (key : string) (hk : hook) (h : host) : host :=
  h <| ho_cmds ::= <[key := hk]> |> <| ho_unhookers ::= <[hk_id hk := (hk_script hk, UnCommand key)]> |>.

Definition add_timer (t : timerHook) (h : host) : host :=
  h <| ho_timers ::= λ l, l ++ [t] |> <| ho_unhookers ::= <[tm_id t := (tm_script t, UnTimer)]> |>
    <| ho_started ::= λ l, l ++ [t] |>.

(** The moves of a script that runs, or of nobody. *)
Inductive move (b : bool) (h : host) : host → Prop :=
  | MAside h' : aside h h' → move b h h'
  | MScript x f : may_run b h x → own_change f → move b h (set_script x f h)
  | MError x : may_run b h x → move b h (scriptError x h)
  | MNewID : move b h (newID h).1
  | MHook x l fn prio : may_run b h x → move b h (add_hook l (fresh_hook x fn prio h) (newID h).1)
  | MCommand x key fn prio : may_run b h x → move b h (add_command key (fresh_hook x fn prio h) (newID h).1)
  | MTimer x fn d : may_run b h x → move b h (add_timer (TimerHook x fn (ho_next_id h + 1) d) (newID h).1)
  | MUnhook id x u : ho_unhookers h !! id = Some (x, u) →
      move b h (run_unhook id u h <| ho_unhookers ::= delete id |>).

(** And those of the host itself. *)
Inductive prim (b : bool) (h : host) : host → Prop :=
  | PMove h' : move b h h' → prim b h h'
  | PNew name path : prim b h (new_script name path h).1
  | PService name x : may_run b h x → prim b h (h <| ho_scripts ::= <[name := x]> |>)
  | PClosed x : prim b h (set_script x (λ s, s <| ps_closed := true |>) h)
  | PUnload name : prim b h (unloadScript name h)
  | PDown : prim b h (h <| ho_down := true |>).

Notation moves b := (rtc (move b)).
Notation prims b := (rtc (prim b)).

#[local] Hint Constructors move prim : core.
#[local] Hint Resolve rtc_refl : core.

Lemma moves_prims b h h' : moves b h h' → prims b h h'.
Proof. induction 1 as [|h1 h2 h3 Hm _ IH]; [done|]. eapply rtc_l; [by constructor|done]. Qed.

Lemma aside_refl h : aside h h.
Proof. by constructor. Qed.

Lemma aside_moves b h h' : aside h h' → moves b h h'.
Proof. intros Ha. apply rtc_once. by constructor. Qed.

Lemma aside_prims b h h' : aside h h' → prims b h h'.
Proof. intros Ha. by apply moves_prims, aside_moves. Qed.

(** Setters of the fields that are beside the point. *)
Ltac solve_aside := constructor; try done; by intros [].
Lemma aside_world w h : aside h (h <| ho_world := w |>). Proof. solve_aside. Qed.
Lemma aside_kv f h : aside h (h <| ho_kv ::= f |>). Proof. solve_aside. Qed.
Lemma aside_updates f h : aside h (h <| ho_updates ::= f |>). Proof. solve_aside. Qed.
Lemma aside_origin f h : aside h (h <| ho_origin ::= f |>). Proof. solve_aside. Qed.
Lemma aside_requests f h : aside h (h <| ho_requests ::= f |>). Proof. solve_aside. Qed.
Lemma aside_quit v h : aside h (h <| ho_quit := v |>). Proof. solve_aside. Qed.
Lemma aside_present h : aside h (refreshPresence h). Proof. solve_aside. Qed.

#[local] Hint Resolve aside_refl aside_world aside_kv aside_updates aside_origin aside_requests aside_quit
  aside_present : core.

Lemma aside_trans h1 h2 h3 : aside h1 h2 → aside h2 h3 → aside h1 h3.
Proof. intros [] []. constructor; try congruence. Qed.

(** ** The cache, the API and the store are beside the point *)

Lemma kvCache_aside name h : aside h (kvCache name h).1.
Proof. unfold kvCache. by destruct (ho_kv h !! name); cbn. Qed.

Lemma kvGet_aside name key h : aside h (kvGet name key h).1.
Proof. unfold kvGet. pose proof (kvCache_aside name h). by destruct (kvCache name h). Qed.

Lemma kvSet_aside name key v h : aside h (kvSet name key v h).
Proof.
  unfold kvSet. pose proof (kvCache_aside name h) as Ha. destruct (kvCache name h) as [h1 m]. cbn [fst] in Ha.
  case_match; [eapply aside_trans; [|apply aside_world]|]; (eapply aside_trans; [exact Ha|apply aside_kv]).
Qed.

Lemma kvDelete_aside name key h : aside h (kvDelete name key h).
Proof.
  unfold kvDelete. pose proof (kvCache_aside name h) as Ha. destruct (kvCache name h) as [h1 m]. cbn [fst] in Ha.
  case_match; [eapply aside_trans; [|apply aside_world]|]; (eapply aside_trans; [exact Ha|apply aside_kv]).
Qed.

Lemma api_aside c h : aside h (api c h).1.
Proof. unfold api. by destruct (w_api c (ho_world h)). Qed.

Lemma meta_aside name h : aside h (getScriptMetaLocked name h).1.1.
Proof.
  unfold getScriptMetaLocked. pose proof (kvGet_aside name "_source_url" h) as Ha.
  destruct (kvGet name "_source_url" h) as [h1 u]. pose proof (kvGet_aside name "_source_type" h1) as Hb.
  destruct (kvGet name "_source_type" h1) as [h2 t]. pose proof (aside_trans _ _ _ Ha Hb). by repeat case_match.
Qed.

Lemma setMeta_aside name u t s h : aside h (setScriptMetaLocked name u t s h).
Proof.
  unfold setScriptMetaLocked. cbv zeta.
  repeat case_match; repeat first [apply aside_refl | apply kvSet_aside | eapply aside_trans; [|apply kvSet_aside]].
Qed.

Lemma trusted_aside name h : aside h (trustedScriptLocked name h).1.
Proof. unfold trustedScriptLocked. pose proof (meta_aside name h). by destruct (getScriptMetaLocked name h) as [[h1 u] t]. Qed.

Lemma value_aside name d h : aside h (settingValue name d h).1.
Proof. unfold settingValue. pose proof (kvGet_aside name (sd_name d) h). by destruct (kvGet name (sd_name d) h). Qed.

(** ** Running code *)

(** Moves of a running script, after which it may go on. *)
Definition runs (b : bool) (x : sid) (h h' : host) : Prop :=
  moves b h h' ∧ may_run b h' x ∧ ho_down h' = ho_down h.

Lemma runs_refl b x h : may_run b h x → runs b x h h.
Proof. by repeat split. Qed.

Lemma runs_trans b x h1 h2 h3 : runs b x h1 h2 → (may_run b h2 x → runs b x h2 h3) → runs b x h1 h3.
Proof.
  intros (Hp & Hr & Hd) Hn. destruct (Hn Hr) as (Hp' & Hr' & Hd'). split; [by etransitivity|]. split; [done|congruence].
Qed.

Lemma may_run_states b h h' x : ho_states h' = ho_states h → may_run b h x → may_run b h' x.
Proof. unfold may_run. by intros ->. Qed.

Lemma runs_aside b x h h' : may_run b h x → aside h h' → runs b x h h'.
Proof.
  intros Hr Ha. split; [by apply aside_moves|]. split; [|apply Ha].
  eapply may_run_states; [exact (as_states _ _ Ha)|done].
Qed.

(** Moves that leave every script's record as it is. *)
Lemma runs_move b x h h' : may_run b h x → move b h h' → ho_states h' = ho_states h → ho_down h' = ho_down h → runs b x h h'.
Proof. intros Hr Hp Hs Hd. split; [by apply rtc_once|]. split; [by eapply may_run_states|done]. Qed.

Lemma own_runs b x f h : may_run b h x → own_change f → runs b x h (set_script x f h).
Proof.
  intros Hr Hf. split; [apply rtc_once; by constructor|]. split; [|done]. destruct Hr as (s & Hs & Hc & Hd).
  exists (f s). unfold set_script. cbn. rewrite lookup_alter_eq, Hs. cbn. destruct (Hf s) as (_ & _ & -> & ->). done.
Qed.

Lemma append_hook_states x s h :
  ho_states (append_hook x s h).1 = ho_states h ∧ ho_down (append_hook x s h).1 = ho_down h.
Proof. unfold append_hook. by case_match. Qed.

Lemma put_list_states l s h : ho_states (put_list l s h) = ho_states h ∧ ho_down (put_list l s h) = ho_down h.
Proof. by destruct l. Qed.

Lemma add_hook_states l hk h : ho_states (add_hook l hk h) = ho_states h ∧ ho_down (add_hook l hk h) = ho_down h.
Proof.
  unfold add_hook. pose proof (append_hook_states hk (get_list l h) h) as [Ha Hb]. destruct (append_hook _ _ _) as [h1 s].
  cbn [fst] in Ha, Hb. destruct (put_list_states l s h1). unfold sortHooks, set_array. cbn. split; congruence.
Qed.

Lemma run_unhook_states id u h : ho_states (run_unhook id u h) = ho_states h ∧ ho_down (run_unhook id u h) = ho_down h.
Proof.
  destruct u as [l|key|]; cbn [run_unhook].
  - unfold removeHook. by destruct (hook_index _ _ _), l.
  - by repeat case_match.
  - done.
Qed.

(** Peels off the argument checks of a binding. *)
Ltac checked :=
  repeat match goal with
  | |- runs _ _ _ (check_string ?a ?n _ _).1 => unfold check_string at 1; destruct (lua_check_string (arg a n)); [|by apply runs_refl]
  | |- runs _ _ _ (check_int ?a ?n _ _).1 => unfold check_int at 1; destruct (lua_check_int (arg a n)); [|by apply runs_refl]
  | |- runs _ _ _ (check_function ?a ?n _ _).1 => unfold check_function at 1; destruct (arg a n); try by apply runs_refl
  | |- runs _ _ _ (check_table ?a ?n _ _).1 => unfold check_table at 1; destruct (arg a n); try by apply runs_refl
  end.

(** A binding changes nothing about scripts and hooks but through the moves of
    its own script. *)
Definition tame (g : sid → list lval → host → answer) : Prop :=
  ∀ b x args h, may_run b h x → runs b x h (g x args h).1.

Lemma hook_command_tame : tame hook_command.
Proof.
  intros b x args h Hr. unfold hook_command. checked.
  apply runs_move; [done| |done|done]. exact (MCommand b h x _ _ _ Hr).
Qed.

Lemma list_hook_tame l : tame (registerListHook l).
Proof.
  intros b x args h Hr. unfold registerListHook. checked. apply runs_move; [done|exact (MHook b h x l _ _ Hr)|..];
    exact (proj1 (add_hook_states _ _ _)) || exact (proj2 (add_hook_states _ _ _)).
Qed.

Lemma hook_signal_tame : tame hook_signal.
Proof.
  intros b x args h Hr. unfold hook_signal. checked. apply runs_move; [done|exact (MHook b h x _ _ _ Hr)|..];
    exact (proj1 (add_hook_states _ _ _)) || exact (proj2 (add_hook_states _ _ _)).
Qed.

Lemma timer_tame : tame registerTimer.
Proof.
  intros b x args h Hr. unfold registerTimer. checked. cbv zeta. destruct (newID h) as [h1 id] eqn:Hn. injection Hn as <- <-.
  case_match.
  - apply runs_move; [done|exact (MNewID b h)|done|done].
  - apply runs_move; [done|exact (MTimer b h x _ _ Hr)|done|done].
Qed.

Lemma unhook_tame : tame unhook.
Proof.
  intros b x args h Hr. unfold unhook. checked. destruct (ho_unhookers h !! _) as [[y u]|] eqn:Hu; [|by apply runs_refl].
  apply runs_move; [done|exact (MUnhook b h _ y u Hu)|..]; apply (run_unhook_states _ u h).
Qed.

Lemma api_runs b x c h : may_run b h x → runs b x h (api c h).1.
Proof. intros Hr. apply runs_aside; [done|apply api_aside]. Qed.

Lemma action1_tame f : tame (action1 f).
Proof. intros b x args h Hr. unfold action1. checked. pose proof (api_runs b x (f s) h Hr). by destruct (api _ h). Qed.

Lemma action2_tame f : tame (action2 f).
Proof. intros b x args h Hr. unfold action2. checked. pose proof (api_runs b x (f s s0) h Hr). by destruct (api _ h). Qed.

Lemma action3_tame f : tame (action3 f).
Proof. intros b x args h Hr. unfold action3. checked. pose proof (api_runs b x (f s s0 s1) h Hr). by destruct (api _ h). Qed.

Lemma print_tame : tame bind_print.
Proof. intros b x args h Hr. unfold bind_print. destruct (arg args 1); checked; by apply api_runs. Qed.

Lemma buffer_state_tame : tame bind_set_buffer_state.
Proof. intros b x args h Hr. unfold bind_set_buffer_state. checked. destruct (arg args 3); by (apply runs_refl || apply api_runs). Qed.

Lemma kv_tame_cache name h b x (k : host → gmap string string → answer) :
  may_run b h x → (∀ h' m, may_run b h' x → runs b x h' (k h' m).1) →
  runs b x h (let '(h, m) := kvCache name h in k h m).1.
Proof.
  intros Hr Hk. pose proof (runs_aside b x h _ Hr (kvCache_aside name h)) as Hc.
  destruct (kvCache name h) as [h1 m]. eapply runs_trans; [exact Hc|]. intros Hr1. by apply Hk.
Qed.

Lemma kv_set_tame : tame kv_set.
Proof. intros b x args h Hr. unfold kv_set. checked. apply runs_aside; [done|apply kvSet_aside]. Qed.

Lemma kv_get_tame : tame kv_get.
Proof. intros b x args h Hr. unfold kv_get. apply kv_tame_cache; [done|]. intros h' m Hr'. checked. by apply runs_refl. Qed.

Lemma kv_delete_tame : tame kv_delete.
Proof. intros b x args h Hr. unfold kv_delete. checked. apply runs_aside; [done|apply kvDelete_aside]. Qed.

Lemma kv_all_tame : tame kv_all.
Proof. intros b x args h Hr. unfold kv_all. apply kv_tame_cache; [done|]. intros h' m Hr'. by apply runs_refl. Qed.

Lemma describe_tame : tame describe.
Proof. intros b x args h Hr. unfold describe. checked. by apply own_runs. Qed.

Lemma setting_tame : tame setting.
Proof.
  intros b x args h Hr. unfold setting. checked. cbv zeta. set (d := setting_decl _ _).
  set (h1 := set_script x _ h). eapply runs_trans; [apply (own_runs b x (λ s, s <| ps_settings ::= λ l, l ++ [d] |>)); done|].
  intros Hr1. pose proof (runs_aside b x _ _ Hr1 (value_aside (name_of h1 x) d h1)) as Hv. fold h1 in Hv |- *.
  by destruct (settingValue _ d h1).
Qed.

Lemma start_http_runs b x rq cb h : may_run b h x → runs b x h (startHTTP x rq cb h).1.
Proof. intros Hr. unfold startHTTP. repeat case_match; try by apply runs_refl. apply runs_aside; [done|]. apply aside_requests. Qed.

Lemma http_get_tame : tame http_get.
Proof. intros b x args h Hr. unfold http_get. checked. by apply start_http_runs. Qed.

Lemma http_request_tame : tame bind_http_request.
Proof. intros b x args h Hr. unfold bind_http_request. checked. cbv zeta. case_match; by (apply runs_refl || apply start_http_runs). Qed.

Lemma random_tame : tame crypto_random.
Proof.
  intros b x args h Hr. unfold crypto_random. checked. case_match; [by apply runs_refl|].
  destruct (w_random _ _) as [w r]. apply runs_aside; [done|apply aside_world].
Qed.

(** Bindings that only read. *)
Ltac reads := intros b x args h Hr; unfold bind_networks, bind_channels, bind_members, bind_nick, bind_backlog, bind_config,
  buildLog, json_decode, json_encode, blowfish_ecb, blowfish_cbc, bind_sha256, bind_modexp, opt_int;
  checked; try case_match; checked; by apply runs_refl.

Lemma bindings_tame : Forall (λ e, tame e.2) bindings.
Proof.
  unfold bindings.
  repeat (constructor; [cbn [snd]; first
    [ exact hook_command_tame | exact (list_hook_tame _) | exact hook_signal_tame | exact timer_tame | exact unhook_tame
    | exact (action2_tame _) | exact (action3_tame _) | exact (action1_tame _) | exact print_tame | exact buffer_state_tame
    | exact describe_tame | exact setting_tame | exact kv_set_tame | exact kv_get_tame | exact kv_delete_tame
    | exact kv_all_tame | exact http_get_tame | exact http_request_tame | exact random_tame | reads ]|]).
  constructor.
Qed.

Lemma binding_runs b x f args h : may_run b h x → runs b x h (binding x f args h).1.
Proof.
  intros Hr. unfold binding. destruct (find _ bindings) as [[n g]|] eqn:Hf; [|by apply runs_refl].
  apply find_some in Hf as [Hin _]. pose proof bindings_tame as Ht. rewrite Forall_forall in Ht.
  apply list_elem_of_In in Hin. exact (Ht _ Hin b x args h Hr).
Qed.

Lemma exec_runs b x r h : may_run b h x → runs b x h (exec x r h).1.1.
Proof.
  revert h. induction r as [L v|L err|f args k IH]; intros h Hr; try by apply runs_refl.
  cbn [exec]. pose proof (binding_runs b x f args h Hr) as Hb. destruct (binding x f args h) as [h1 a].
  eapply runs_trans; [exact Hb|]. intros Hr1. by apply IH.
Qed.

Lemma lua_change L : own_change (λ s, s <| ps_lua := L |>).
Proof. done. Qed.

(** A call of a script's function, unless the script is disabled. *)
Lemma call_moves b x fn args h : may_run b h x →
  moves b h (call x fn args h).1 ∧ ho_down (call x fn args h).1 = ho_down h.
Proof.
  intros Hr. pose proof Hr as (s & Hs & Hc & _). unfold call. rewrite Hs, Hc.
  pose proof (exec_runs b x (w_call fn args (ps_lua s)) h Hr) as He. destruct (exec x _ h) as [[h1 L] r]. cbn [fst] in He.
  destruct (runs_trans b x h h1 _ He (λ Hr1, own_runs b x _ h1 Hr1 (lua_change L))) as (Hp & Hr2 & Hd).
  destruct r; [done|]. split; [|exact Hd]. etransitivity; [exact Hp|]. by apply rtc_once, MError.
Qed.

Lemma call_prims b x fn args h : b = true ∨ disabled h x = false → prims b h (call x fn args h).1.
Proof.
  intros Hb. destruct (ho_states h !! x) as [s|] eqn:Hs; [|unfold call; by rewrite Hs].
  destruct (ps_closed s) eqn:Hc; [unfold call; rewrite Hs, Hc; apply rtc_once, PDown|].
  apply moves_prims, call_moves. exists s. split; [done|]. split; [done|]. unfold disabled in Hb. by rewrite Hs in Hb.
Qed.

(** ** Loops *)

Lemma range_prims {A} b (body : hook → A → host → host * (bool * A)) :
  (∀ hk acc h, disabled h (hk_script hk) = false → prims b h (body hk acc h).1) →
  ∀ n a i acc h, prims b h (range_hooks body a i n acc h).1.
Proof.
  intros Hb n a. induction n as [|n IH]; intros i acc h; [done|]. cbn [range_hooks].
  destruct (slot h a i) as [hk|]; [|apply rtc_once, PDown].
  destruct (disabled h (hk_script hk)) eqn:Hd; [done|]. pose proof (Hb hk acc h Hd) as Hp.
  destruct (body hk acc h) as [h1 [go acc1]]. cbn [fst] in Hp. case_match; [|done]. by etransitivity.
Qed.

Lemma range_list_prims {A} b (body : hook → A → host → host * (bool * A)) l acc h :
  (∀ hk acc h, disabled h (hk_script hk) = false → prims b h (body hk acc h).1) →
  prims b h (range_list body l acc h).1.
Proof. intros Hb. by apply range_prims. Qed.

(** A body that calls the hook and looks at the result. *)
Ltac calling := let h' := fresh "h'" in intros hk acc h' Hd;
  match goal with |- rtc (prim ?b) _ (let '(_, _) := call ?x ?f ?a h' in _).1 =>
    pose proof (call_prims b x f a h' (or_intror Hd)) as Hc; destruct (call x f a h'); exact Hc end.

Lemma message_prims b ev h : prims b h (runMessageHooks ev h).1.
Proof.
  unfold runMessageHooks. destruct (evt_message ev) as [msg|]; [|done].
  pose proof (range_list_prims b message_body HMsg msg h) as Hr. destruct (range_list _ _ _ _) as [h1 [keep m]].
  apply Hr. unfold message_body. calling.
Qed.

Lemma input_prims b ev h : prims b h (runInputHooks ev h).1.
Proof.
  unfold runInputHooks. destruct (evt_message ev) as [msg|]; [|done]. set (nick := w_nick _ _). cbv zeta.
  pose proof (range_list_prims b (input_body nick) HInput msg h) as Hr. destruct (range_list _ _ _ _) as [h1 [keep m]].
  apply Hr. unfold input_body. calling.
Qed.

Lemma topic_prims b ev h : prims b h (runTopicHooks ev h).1.
Proof.
  unfold runTopicHooks.
  pose proof (range_list_prims b (topic_body ev) HTopic (evt_text ev) h) as Hr. destruct (range_list _ _ _ _) as [h1 [keep m]].
  apply Hr. unfold topic_body. calling.
Qed.

Lemma signal_prims b name ev h : prims b h (runSignalHooks name ev h).
Proof. apply range_list_prims. unfold signal_body. calling. Qed.

Lemma completion_prims b word network buffer h : prims b h (runCompletionHooks word network buffer h).1.
Proof.
  unfold runCompletionHooks. case_match; [done|]. set (nick := w_nick _ _). cbv zeta.
  pose proof (range_list_prims b (completion_body word network buffer nick) HCompletion [] h) as Hr.
  destruct (range_list _ _ _ _) as [h1 [keep m]]. apply Hr. unfold completion_body. calling.
Qed.

Lemma command_prims b ev h : prims b h (runCommand ev h).1.
Proof.
  unfold runCommand. cbv zeta. destruct (ho_cmds h !! _) as [hk|]; [|done].
  destruct (disabled h (hk_script hk)) eqn:Hd; [done|]. destruct (String.eqb (evt_buffer ev) _); cbn [fst].
  - apply call_prims. by right.
  - etransitivity; [apply aside_prims, aside_origin|]. apply call_prims. by right.
Qed.

Lemma reply_prims b ev h : prims b h (runReplyBufferInput ev h).1.
Proof.
  unfold runReplyBufferInput. destruct (evt_message ev) as [m|]; [|done]. case_match; [done|]. cbv zeta.
  destruct (ho_scripts h !! _) as [x|]; [|done]. case_match; [apply command_prims|apply aside_prims, api_aside].
Qed.

Lemma dispatch_prims b ev h : prims b h (dispatch ev h).1.
Proof.
  assert (Hsig : prims b h (match signalName ev with Some name => runSignalHooks name ev h | None => h end)).
  { case_match; [apply signal_prims|done]. }
  unfold dispatch. destruct (evt_type ev); try exact Hsig.
  - apply message_prims.
  - pose proof (reply_prims b ev h) as Hr. destruct (runReplyBufferInput ev h) as [h1 [r|]]; [exact Hr|].
    etransitivity; [exact Hr|apply input_prims].
  - pose proof (topic_prims b ev h) as Hr. destruct (runTopicHooks ev h) as [h1 [out keep]]. cbn [fst] in *.
    etransitivity; [exact Hr|]. destruct (signalName out); [|done]. destruct keep; [apply signal_prims|done].
  - apply command_prims.
Qed.

(** ** Loading *)

Lemma new_script_runs b name path h : may_run b (new_script name path h).1 (new_script name path h).2.
Proof. eexists. cbn. rewrite lookup_insert_eq. split; [done|]. split; [done|by right]. Qed.

Lemma run_file_runs b x path h : may_run b h x → runs b x h (run_file x path h).1.
Proof.
  intros Hr. unfold run_file. destruct (ho_states h !! x) as [s|] eqn:Hs; [|by apply runs_refl].
  pose proof (exec_runs b x (w_dofile path (ps_lua s) (ho_world h)) h Hr) as He.
  destruct (exec x _ h) as [[h1 L] r]. cbn [fst] in He |- *.
  exact (runs_trans b x h h1 _ He (λ Hr1, own_runs b x _ h1 Hr1 (lua_change L))).
Qed.

Lemma load_prims b path h : prims b h (loadScript path h).
Proof.
  unfold loadScript. cbv zeta. set (name := scriptName path).
  etransitivity; [apply rtc_once, (PUnload b h name)|]. set (h0 := unloadScript name h).
  assert (Ht : prims b h0 (if ho_trusted h0 then trustedScriptLocked name h0 else (h0, true)).1).
  { case_match; [apply aside_prims, trusted_aside|done]. }
  destruct (if ho_trusted h0 then _ else _) as [h1 trusted]. cbn [fst] in Ht. destruct trusted; cbn [negb]; [|exact Ht].
  etransitivity; [exact Ht|]. etransitivity; [apply rtc_once, (PNew b h1 name path)|].
  pose proof (new_script_runs b name path h1) as Hn. destruct (new_script name path h1) as [h2 x]. cbn [fst snd] in *.
  pose proof (run_file_runs b x path h2 Hn) as (Hp & Hr & _). destruct (run_file x path h2) as [h3 err]. cbn [fst] in *.
  etransitivity; [apply moves_prims; exact Hp|]. apply rtc_once. destruct err; [apply PClosed|by apply PService].
Qed.

Lemma foldl_prims {A} b (f : host → A → host) l : (∀ h a, prims b h (f h a)) → ∀ h, prims b h (foldl f h l).
Proof. intros Hf. induction l as [|a l IH]; intros h; [done|]. cbn. etransitivity; [apply Hf|apply IH]. Qed.

Lemma load_all_prims b h : prims b h (loadAll h).
Proof. unfold loadAll. case_match; [done|]. apply foldl_prims. intros h' f. apply load_prims. Qed.

(** ** Jobs *)

Lemma job_prims b f h : prims b h (f h) → prims b h (job f h).
Proof. intros Hf. unfold job. case_match; [done|]. etransitivity; [exact Hf|apply aside_prims, aside_present]. Qed.

Lemma job_ret_prims {A} b (d : A) f h : prims b h (f h).1 → prims b h (job_ret d f h).1.
Proof.
  intros Hf. unfold job_ret. case_match; [done|]. destruct (f h) as [h1 a]. etransitivity; [exact Hf|apply aside_prims, aside_present].
Qed.

Lemma timer_prims b t h : prims b h (runTimer t h).
Proof. unfold runTimer. case_match; [done|]. boolify. apply call_prims. by right. Qed.

Lemma do_http_aside rq name h : aside h (doHTTP rq name h).1.
Proof. unfold doHTTP. cbv zeta. destruct (w_http _ _). apply aside_world. Qed.

Lemma request_prims b i h : prims b h (run_request i h).
Proof.
  unfold run_request. destruct (ho_requests h !! i) as [p|]; [|done].
  pose proof (do_http_aside (ph_request p) (name_of h (ph_script p)) h) as Ha. destruct (doHTTP _ _ h) as [h1 r]. cbv zeta.
  etransitivity; [apply aside_prims; exact Ha|]. etransitivity; [|apply aside_prims, aside_requests].
  apply job_prims. case_match; [done|]. boolify. apply call_prims. by right.
Qed.

(** ** Management *)

Lemma load_plugin_prims b name h : prims b h (LoadPlugin name h).1.
Proof.
  unfold LoadPlugin. destruct (scriptPath name h); [|done]. case_match; [done|]. cbv zeta. apply job_prims, load_prims.
Qed.

Lemma unload_plugin_prims b name h : prims b h (UnloadPlugin name h).1.
Proof.
  unfold UnloadPlugin. destruct (scriptPath name h); [|done]. case_match; [done|]. cbv zeta.
  apply job_prims, rtc_once, PUnload.
Qed.

Lemma uninstall_prims b name h : prims b h (UninstallPlugin name h).1.
Proof.
  unfold UninstallPlugin. destruct (scriptPath name h); [|done]. case_match; [done|].
  destruct (w_remove _ _) as [w r]. destruct r; try (apply aside_prims, aside_world).
  etransitivity; [apply aside_prims, aside_world|]. apply job_prims, aside_prims, aside_updates.
Qed.

Lemma download_aside url h : aside h (downloadScriptFromURL url h).1.
Proof. unfold downloadScriptFromURL. destruct (w_http _ _). apply aside_world. Qed.

Lemma install_prims b name url typ h : prims b h (install name url typ h).1.
Proof.
  unfold install. pose proof (download_aside url h) as Ha. destruct (downloadScriptFromURL url h) as [h1 [body|err]];
    cbn [fst] in Ha; [|by apply aside_prims].
  destruct (w_mkdir _ _) as [w err]. cbv zeta. pose proof (aside_trans _ _ _ Ha (aside_world w h1)) as Hb.
  destruct err; [by apply aside_prims|]. destruct (w_write _ _ _) as [w' err'].
  pose proof (aside_trans _ _ _ Hb (aside_world w' _)) as Hc. destruct err'; [by apply aside_prims|].
  etransitivity; [apply aside_prims; exact Hc|]. etransitivity; [|apply load_plugin_prims]. apply job_prims, aside_prims.
  eapply aside_trans; [apply setMeta_aside|apply aside_updates].
Qed.

Lemma download_prims b name h : prims b h (DownloadPlugin name h).1.
Proof.
  unfold DownloadPlugin. cbv zeta. case_match; [done|]. case_match; [done|]. destruct (curatedPlugin _); [apply install_prims|done].
Qed.

Lemma import_prims b url name h : prims b h (ImportPlugin url name h).1.
Proof.
  unfold ImportPlugin. cbv zeta. case_match; [done|]. destruct (w_url_parse _) as [[[sch hst] path]|]; [|done].
  case_match; [done|]. case_match; [done|]. destruct (String.eqb (ho_dir h) ""); [done|]. apply install_prims.
Qed.

Lemma script_meta_prims b name h : prims b h (script_meta name h).1.
Proof.
  unfold script_meta. apply job_ret_prims. pose proof (meta_aside name h) as Ha.
  destruct (getScriptMetaLocked name h) as [[h1 u] t]. by apply aside_prims.
Qed.

Lemma update_prims b name h : prims b h (UpdatePlugin name h).1.
Proof.
  unfold UpdatePlugin. cbv zeta. case_match; [done|]. case_match; [done|].
  pose proof (script_meta_prims b (clean_name name) h) as Hm. destruct (script_meta _ h) as [h1 [u t]].
  case_match; [exact Hm|]. case_match; [exact Hm|]. etransitivity; [exact Hm|apply install_prims].
Qed.

Lemma settings_for_aside x h : aside h (settingsFor x h).1.
Proof.
  unfold settingsFor. destruct (ho_states h !! x) as [s|]; [|apply aside_refl].
  assert (Hg : ∀ l (st : host * list PluginSetting), aside h st.1 →
    aside h (foldl (λ '(h, out) d,
        let '(h, v) := if sd_secret d then (h, "") else settingValue (ps_name s) d h in
        (h, out ++ [PluginSettingInfo (sd_name d) (sd_typ d) (sd_label d) (sd_help d) (sd_def d) v (sd_secret d) (sd_options d)]))
        st l).1); [|by apply Hg, aside_refl].
  induction l as [|d l IH]; intros [h1 out] Ha; [done|]. cbn [foldl]. apply IH. destruct (sd_secret d); [done|].
  pose proof (value_aside (ps_name s) d h1) as Hv. destruct (settingValue _ d h1). by eapply aside_trans.
Qed.

Lemma loaded_aside name x h : aside h (loaded_info name x h).1.
Proof.
  unfold loaded_info. pose proof (meta_aside name h) as Hm. destruct (getScriptMetaLocked name h) as [[h1 u] t].
  pose proof (settings_for_aside x h1) as Hs. destruct (settingsFor x h1). by eapply aside_trans.
Qed.

Lemma unloaded_aside name h : aside h (unloaded_info name h).1.
Proof. unfold unloaded_info. pose proof (meta_aside name h) as Hm. by destruct (getScriptMetaLocked name h) as [[h1 u] t]. Qed.

Lemma list_plugins_aside h : aside h (list_plugins h).1.
Proof.
  unfold list_plugins.
  assert (Hl : ∀ l (st : host * list PluginInfo), aside h st.1 →
    aside h (foldl (λ '(h, out) '(name, x), let '(h, i) := loaded_info name x h in (h, out ++ [i])) st l).1).
  { induction l as [|[name x] l IH]; intros [h1 out] Ha; [done|]. cbn [foldl]. apply IH.
    pose proof (loaded_aside name x h1) as Hi. destruct (loaded_info name x h1). by eapply aside_trans. }
  specialize (Hl (map_to_list (ho_scripts h)) (h, []) (aside_refl h)). destruct (foldl _ (h, []) _) as [h1 out].
  case_match; [exact Hl|].
  assert (Hf : ∀ l (st : host * list PluginInfo * gset string), aside h st.1.1 →
    aside h (foldl (λ st f, file_info f st) st l).1.1).
  { induction l as [|f l IH]; intros [[h2 o] seen] Ha; [done|]. cbn [foldl]. apply IH. unfold file_info. cbv zeta.
    case_match; [done|]. pose proof (unloaded_aside (scriptName f) h2) as Hu. destruct (unloaded_info _ h2). by eapply aside_trans. }
  specialize (Hf (filter is_lua (w_files (ho_world h1))) (h1, out, dom (ho_scripts h1)) Hl). by destruct (foldl _ (h1, _, _) _) as [[]].
Qed.

Lemma plugins_prims b h : prims b h (Plugins h).1.
Proof.
  unfold Plugins. pose proof (job_ret_prims b [] list_plugins h (aside_prims b _ _ (list_plugins_aside h))) as Hj.
  by destruct (job_ret [] list_plugins h).
Qed.

Lemma check_update_prims b h n : prims b h (check_update h n).
Proof.
  unfold check_update. pose proof (script_meta_prims b n h) as Hm. destruct (script_meta n h) as [h1 [u t]]. cbn [fst] in Hm.
  case_match; [done|]. destruct (w_read _ _) as [local|]; [|done].
  pose proof (download_aside u h1) as Ha. destruct (downloadScriptFromURL u h1) as [h2 [body|err]]; cbn [fst] in Ha.
  - etransitivity; [exact Hm|]. etransitivity; [apply aside_prims; exact Ha|]. apply job_prims, aside_prims.
    case_match; apply aside_updates.
  - etransitivity; [exact Hm|by apply aside_prims].
Qed.

Lemma check_updates_prims b name h : prims b h (CheckPluginUpdates name h).1.
Proof.
  unfold CheckPluginUpdates. case_match; [done|]. destruct (String.eqb name "").
  - pose proof (plugins_prims b h) as Hp. destruct (Plugins h) as [h1 infos]. cbv zeta. etransitivity; [exact Hp|].
    apply foldl_prims, check_update_prims.
  - apply foldl_prims, check_update_prims.
Qed.

Lemma set_setting_prims name key value h : prims true h (SetPluginSetting name key value h).1.
Proof.
  unfold SetPluginSetting. apply job_ret_prims. destruct (ho_scripts h !! name) as [x|]; [|done].
  destruct (find _ _) as [d|]; [|done]. destruct (coerceSetting d value) as [v|]; [|done]. cbv zeta. cbn [fst].
  etransitivity; [apply aside_prims, kvSet_aside|]. destruct (sd_apply d); [|done]. apply call_prims. by left.
Qed.

Lemma close_prims b h : prims b h (Close h).
Proof.
  unfold Close. cbv zeta. etransitivity; [apply aside_prims, aside_quit|].
  apply foldl_prims. intros h' [name x]. apply rtc_once, PClosed.
Qed.

(** Whether the step may run a disabled script: a change of a setting calls its
    [apply] function without a look at the flag. *)
Definition is_setting (i : host_input) : bool := match i with JSetting _ _ _ => true | _ => false end.

Lemma step_prims i h : prims (is_setting i) h (host_step i h).
Proof.
  unfold host_step. case_match; [done|]. destruct i; cbn [is_setting].
  - unfold Dispatch. case_match; [done|]. apply job_ret_prims, dispatch_prims.
  - apply job_ret_prims, completion_prims.
  - apply plugins_prims.
  - destruct (ho_started h !! i) as [t|]; [|done]. apply job_prims, timer_prims.
  - apply request_prims.
  - apply load_plugin_prims.
  - apply unload_plugin_prims.
  - apply uninstall_prims.
  - apply download_prims.
  - apply import_prims.
  - apply update_prims.
  - apply check_updates_prims.
  - apply set_setting_prims.
  - case_match; [|done]. apply job_prims, rtc_once, PUnload.
  - case_match; [|done]. apply job_prims, load_prims.
  - destruct (ho_quit h); [done|apply close_prims].
Qed.
End prim.
