(* ===== verification/PlugHeap.v ===== *)
(** * Hook lists and their arrays

    The slices of hooks and the lists they stand for: what [append], the sort,
    [removeHook] and [dropHooks] do to a list, and that no two lists ever share
    an array, so that one list never changes by way of another ([heap_ok]).
    Every list is sorted by priority, hooks of one priority in the order they
    were registered. *)

From Stdlib Require Import ZArith Lia Ascii Bool.
From stdpp Require Import base tactics list gmap strings relations sorting.
From S2P Require Import Prelude GoStrings GoNet CoreTypes CoreEvent CoreEngine PlugLua PlugHost PlugBind PlugRun PlugPrim.

#[local] Open Scope Z_scope.

(** ** Stable sorting *)

Section sort.
Context {A : Type} (key : A → Z).

Lemma insert_by_perm x l : insert_by key x l ≡ₚ x :: l.
Proof. induction l as [|y l IH]; [done|]. cbn. case_match; [done|]. rewrite IH. apply Permutation_swap. Qed.

Lemma sort_stable_perm l : sort_stable key l ≡ₚ l.
Proof. induction l as [|x l IH]; [done|]. cbn. by rewrite insert_by_perm, IH. Qed.

Lemma insert_by_map {B} (g : B → A) x l : insert_by key (g x) (g <$> l) = g <$> insert_by (key ∘ g) x l.
Proof. induction l as [|y l IH]; [done|]. cbn. case_match; [done|]. cbn. by rewrite IH. Qed.

Lemma sort_stable_map {B} (g : B → A) l : sort_stable key (g <$> l) = g <$> sort_stable (key ∘ g) l.
Proof. unfold sort_stable. induction l as [|x l IH]; [done|]. cbn [fmap list_fmap foldr]. by rewrite IH, insert_by_map. Qed.

(** An order that refines the key. *)
Context (R : A → A → Prop).
Hypothesis R_key : ∀ x y, key x < key y → R x y.
Hypothesis key_R : ∀ x y, R x y → key x ≤ key y.

Lemma insert_by_sorted x l :
  StronglySorted R l → Forall (λ y, key x = key y → R x y) l → StronglySorted R (insert_by key x l).
Proof.
  intros Hs Hx. induction l as [|y l IH]; cbn; [by repeat constructor|].
  apply Forall_cons in Hx as [Hy Hx]. apply StronglySorted_inv in Hs as [Hs Hl].
  destruct (Z.leb_spec (key x) (key y)) as [Hle|Hlt].
  - constructor; [by constructor|].
    assert (R x y) by (destruct (decide (key x = key y)); [auto|apply R_key; lia]).
    constructor; [done|]. rewrite Forall_forall in Hl, Hx |- *. intros z Hz. specialize (Hl z Hz). specialize (Hx z Hz).
    pose proof (key_R y z Hl). destruct (decide (key x = key z)); [auto|apply R_key; lia].
  - constructor; [by apply IH|]. rewrite insert_by_perm. constructor; [apply R_key; lia|done].
Qed.

(** A stable sort keeps the order of elements with equal keys. *)
Lemma sort_stable_sorted l : StronglySorted (λ x y, key x = key y → R x y) l → StronglySorted R (sort_stable key l).
Proof.
  induction 1 as [|x l _ IH Hx]; [constructor|]. cbn. apply insert_by_sorted; [exact IH|]. by rewrite (sort_stable_perm l).
Qed.
End sort.

(** ** Slices *)

Section heap.
Context `{UnicodeTables, LuaTypes, !LuaRT, !Blowfish, !HostEnv}.

(** The slice stands for a list of hooks. *)
Record holds (h : host) (s : slice) (xs : list hook) : Prop := {
  hs_view : take (sl_len s) (array_of h (sl_arr s)) = Some <$> xs;
  hs_len : length xs = sl_len s;
  hs_cap : (sl_len s ≤ sl_cap s)%nat;
  hs_arr : (0 < sl_cap s)%nat → length (array_of h (sl_arr s)) = sl_cap s ∧ (sl_arr s < ho_next_array h)%nat;
}.

Lemma array_set a l h : array_of (set_array a l h) a = l.
Proof. unfold array_of, set_array. cbn. by rewrite lookup_insert_eq. Qed.

Lemma array_set_ne a a' l h : a ≠ a' → array_of (set_array a l h) a' = array_of h a'.
Proof. intros Hn. unfold array_of, set_array. cbn. by rewrite lookup_insert_ne. Qed.

Lemma array_next n h a : array_of (h <| ho_next_array := n |>) a = array_of h a.
Proof. done. Qed.

(** What an operation on one slice may do to the heap: it writes its own array
    or makes a new one. *)
Record touches (s : slice) (h h' : host) (s' : slice) : Prop := {
  tc_next : (ho_next_array h ≤ ho_next_array h')%nat;
  tc_own : (0 < sl_cap s' → sl_arr s' = sl_arr s ∧ 0 < sl_cap s ∨ ho_next_array h ≤ sl_arr s')%nat;
  tc_other : ∀ a, (a < ho_next_array h)%nat → (sl_cap s = 0%nat ∨ a ≠ sl_arr s) → array_of h' a = array_of h a;
}.

(** Another slice, in another array, is not affected. *)
Lemma touches_holds s h h' s' t ys :
  touches s h h' s' → holds h t ys → (0 < sl_cap s → 0 < sl_cap t → sl_arr s ≠ sl_arr t)%nat → holds h' t ys.
Proof.
  intros [Hn Ho Hf] [Hv Hl Hc Ha] Hd. destruct (decide (sl_cap t = 0)%nat) as [Hz|Hz].
  - assert (sl_len t = 0)%nat as Hl0 by lia. rewrite Hl0 in Hl. apply nil_length_inv in Hl as ->.
    split; [by rewrite Hl0|by rewrite Hl0|lia|lia].
  - destruct Ha as [Ha1 Ha2]; [lia|]. assert (array_of h' (sl_arr t) = array_of h (sl_arr t)) as He.
    { apply Hf; [done|]. destruct (decide (sl_cap s = 0)%nat); [by left|right]. intros He. symmetry in He. revert He. apply Hd; lia. }
    split; [by rewrite He|done|done|]. intros _. rewrite He. lia.
Qed.

Lemma append_holds x s h xs : holds h s xs →
  let '(h', s') := append_hook x s h in holds h' s' (xs ++ [x]) ∧ touches s h h' s'.
Proof.
  intros [Hv Hl Hc Ha]. unfold append_hook. destruct (Nat.ltb_spec (sl_len s) (sl_cap s)) as [Hlt|Hge].
  - destruct Ha as [Ha1 Ha2]; [lia|]. set (l := array_of h (sl_arr s)) in *. split.
    + split; cbn [sl_len sl_arr sl_cap update].
      * change (sl_arr (s <| sl_len ::= S |>)) with (sl_arr s). change (sl_len (s <| sl_len ::= S |>)) with (S (sl_len s)).
        rewrite array_set. rewrite (take_S_r _ _ (Some x)).
        -- rewrite take_insert_ge by lia. by rewrite Hv, fmap_app.
        -- apply list_lookup_insert_eq. lia.
      * rewrite length_app. cbn. change (sl_len (s <| sl_len ::= S |>)) with (S (sl_len s)). lia.
      * change (sl_len (s <| sl_len ::= S |>)) with (S (sl_len s)). change (sl_cap (s <| sl_len ::= S |>)) with (sl_cap s). lia.
      * intros _. change (sl_arr (s <| sl_len ::= S |>)) with (sl_arr s). rewrite array_set, length_insert. done.
    + split; [done| |].
      * intros _. left. split; [done|lia].
      * intros a _ Hna. apply array_set_ne. destruct Hna; [lia|done].
  - set (n := S (sl_len s)). set (cap := Nat.max n (w_grow n)). set (l := array_of h (sl_arr s)).
    assert (Htake : length (take (sl_len s) l) = sl_len s) by (unfold l; rewrite Hv, length_fmap; done).
    split.
    + split; cbn [sl_len sl_arr sl_cap].
      * rewrite array_next, array_set, app_assoc, take_app_le by (rewrite length_app, Htake; cbn; lia).
        rewrite take_ge by (rewrite length_app, Htake; cbn; lia). unfold l. by rewrite Hv, fmap_app.
      * rewrite length_app. cbn. lia.
      * lia.
      * intros _. rewrite array_next, array_set, !length_app, Htake, length_replicate. cbn [length].
        split; [unfold cap; lia|]. cbn. lia.
    + split; [cbn; lia| |].
      * intros _. right. cbn. lia.
      * intros a Ha' _. rewrite array_next. apply array_set_ne. lia.
Qed.

Lemma sort_holds s h xs : holds h s xs →
  holds (sortHooks s h) s (sort_stable hk_prio xs) ∧ touches s h (sortHooks s h) s.
Proof.
  intros [Hv Hl Hc Ha]. unfold sortHooks. set (l := array_of h (sl_arr s)) in *.
  assert (Hlen : length (sort_stable slot_prio (take (sl_len s) l)) = sl_len s).
  { rewrite (Permutation_length (sort_stable_perm _ _)), Hv, length_fmap. done. }
  split.
  - split; [|by rewrite (Permutation_length (sort_stable_perm _ _))|done|].
    + rewrite array_set. rewrite take_app_length' by done. rewrite Hv. exact (sort_stable_map slot_prio Some xs).
    + intros Hp. rewrite array_set, length_app, Hlen, length_drop. destruct (Ha Hp). split; [lia|done].
  - split; [done| |].
    + intros Hp. by left.
    + intros a _ [Hz|Hn]; [|by apply array_set_ne]. destruct (decide (a = sl_arr s)) as [->|]; [|by apply array_set_ne].
      rewrite array_set. assert (sl_len s = 0)%nat as -> by lia. rewrite take_0, drop_0. done.
Qed.

(** A list without the hook with an id. *)
Definition remove_hook (id : Z) (xs : list hook) : list hook :=
  match list_find (λ hk, hk_id hk = id) xs with Some (i, _) => delete i xs | None => xs end.

Lemma hook_index_find id s h xs : holds h s xs → hook_index id s h = fst <$> list_find (λ hk, hk_id hk = id) xs.
Proof.
  intros [Hv _ _ _]. unfold hook_index. rewrite Hv. clear Hv. induction xs as [|y ys IH]; [done|].
  cbn [fmap list_fmap list_find]. destruct (decide (hk_id y = id)) as [He|Hn].
  - rewrite decide_True by (cbn; congruence). done.
  - rewrite decide_False by (cbn; congruence).
    destruct (list_find _ (Some <$> ys)) as [[j o]|], (list_find _ ys) as [[j' o']|]; cbn in *; congruence.
Qed.

Lemma remove_holds id s h xs : holds h s xs →
  let '(h', s') := removeHook id s h in holds h' s' (remove_hook id xs) ∧ touches s h h' s'.
Proof.
  intros Hh. unfold removeHook, remove_hook. rewrite (hook_index_find id s h xs Hh). destruct Hh as [Hv Hl Hc Ha].
  destruct (list_find _ xs) as [[i o]|] eqn:Hf; cbn [fmap option_fmap option_map fst].
  2: { split; [by split|]. split; [done|by left|done]. }
  apply list_find_Some in Hf as (Hi & _ & _). apply lookup_lt_Some in Hi.
  destruct Ha as [Ha1 Ha2]; [lia|]. set (l := array_of h (sl_arr s)) in *.
  change (sl_arr (s <| sl_len ::= pred |>)) with (sl_arr s).
  assert (Hhead : take i l ++ take (sl_len s - S i) (drop (S i) l) = Some <$> delete i xs).
  { rewrite delete_take_drop, fmap_app, fmap_take, fmap_drop, <- Hv, take_take, skipn_firstn_comm.
    by rewrite Nat.min_l by lia. }
  assert (Hn : length (delete i xs) = (sl_len s - 1)%nat) by (rewrite length_delete by (apply lookup_lt_is_Some; done); lia).
  split.
  - split.
    + change (sl_arr (s <| sl_len ::= pred |>)) with (sl_arr s). change (sl_len (s <| sl_len ::= pred |>)) with (pred (sl_len s)).
      rewrite array_set, app_assoc, Hhead. rewrite take_app_le by (rewrite length_fmap; lia).
      apply take_ge. rewrite length_fmap. lia.
    + change (sl_len (s <| sl_len ::= pred |>)) with (pred (sl_len s)). lia.
    + change (sl_len (s <| sl_len ::= pred |>)) with (pred (sl_len s)). change (sl_cap (s <| sl_len ::= pred |>)) with (sl_cap s). lia.
    + intros _. change (sl_arr (s <| sl_len ::= pred |>)) with (sl_arr s). change (sl_cap (s <| sl_len ::= pred |>)) with (sl_cap s).
      rewrite array_set, app_assoc, Hhead, length_app, length_fmap, length_drop. split; [lia|done].
  - split; [done| |].
    + intros _. left. split; [done|lia].
    + intros a _ Hna. apply array_set_ne. destruct Hna; [lia|done].
Qed.

(** Built up in new arrays only. *)
Record anew (h h' : host) (s' : slice) : Prop := {
  an_next : (ho_next_array h ≤ ho_next_array h')%nat;
  an_arr : (0 < sl_cap s' → ho_next_array h ≤ sl_arr s')%nat;
  an_other : ∀ a, (a < ho_next_array h)%nat → array_of h' a = array_of h a;
}.

Lemma anew_touches s h h' s' : anew h h' s' → touches s h h' s'.
Proof. intros [Hn Ha Ho]. split; [done| |]; auto. Qed.

Lemma drop_loop x xs : ∀ h0 h kept ys, holds h kept ys → anew h0 h kept →
  let '(h', s') := foldl (λ '(h, kept) o, match o with
                                          | Some hk => if Nat.eqb (hk_script hk) x then (h, kept) else append_hook hk kept h
                                          | None => (h, kept)
                                          end) (h, kept) (Some <$> xs) in
  holds h' s' (ys ++ filter (λ hk, hk_script hk ≠ x) xs) ∧ anew h0 h' s'.
Proof.
  induction xs as [|hk xs IH]; intros h0 h kept ys Hh Ha; cbn [fmap list_fmap foldl]; [by rewrite app_nil_r|].
  destruct (Nat.eqb_spec (hk_script hk) x) as [He|Hn].
  - rewrite filter_cons_False by (intros Hx; by apply Hx). by apply IH.
  - rewrite filter_cons_True by done. pose proof (append_holds hk kept h ys Hh) as Hp.
    destruct (append_hook hk kept h) as [h1 s1]. destruct Hp as [Hp Ht].
    replace (ys ++ hk :: filter (λ hk, hk_script hk ≠ x) xs) with ((ys ++ [hk]) ++ filter (λ hk, hk_script hk ≠ x) xs)
      by by rewrite <- app_assoc.
    apply IH; [done|]. destruct Ha as [Ha1 Ha2 Ha3], Ht as [Ht1 Ht2 Ht3]. split; [lia| |].
    + intros Hc. destruct (Ht2 Hc) as [[-> Hc']|]; [auto|lia].
    + intros a Hlt. rewrite Ht3; [auto|lia|].
      destruct (decide (sl_cap kept = 0)%nat) as [|Hz]; [by left|right]. specialize (Ha2 ltac:(lia)). lia.
Qed.

Lemma drop_holds x s h xs : holds h s xs →
  let '(h', s') := dropHooks x s h in holds h' s' (filter (λ hk, hk_script hk ≠ x) xs) ∧ anew h h' s'.
Proof.
  intros Hh. unfold dropHooks. rewrite (hs_view _ _ _ Hh). apply (drop_loop x xs h h _ []).
  - split; [done|done|done|cbn; lia].
  - split; [done|cbn; lia|done].
Qed.

(** ** All the lists of a host *)

Definition hook_lt (a b : hook) : Prop := hk_prio a < hk_prio b ∨ (hk_prio a = hk_prio b ∧ hk_id a < hk_id b).

Lemma holds_hooks l h xs : holds h (get_list l h) xs → hooks_of l h = xs.
Proof. intros [Hv _ _ _]. unfold hooks_of. rewrite Hv. clear. induction xs as [|x xs IH]; [done|]. cbn. by f_equal. Qed.

(** Every list stands for its hooks, in an array of its own. *)
Record lists_ok (h : host) : Prop := {
  lo_holds : ∀ l, holds h (get_list l h) (hooks_of l h);
  lo_apart : ∀ l l', l ≠ l' → (0 < sl_cap (get_list l h))%nat → (0 < sl_cap (get_list l' h))%nat →
    sl_arr (get_list l h) ≠ sl_arr (get_list l' h);
}.

Record heap_ok (h : host) : Prop := {
  hp_lists : lists_ok h;
  hp_sorted : ∀ l, StronglySorted hook_lt (hooks_of l h);
  hp_ids : ∀ l hk, hk ∈ hooks_of l h → hk_id hk ≤ ho_next_id h;
}.

Lemma get_put l s h : get_list l (put_list l s h) = s.
Proof. destruct l; try done. unfold get_list, put_list. cbn. by rewrite lookup_insert_eq. Qed.

Lemma get_put_ne l l' s h : l ≠ l' → get_list l' (put_list l s h) = get_list l' h.
Proof. intros Hn. destruct l, l'; try done. unfold get_list, put_list. cbn. rewrite lookup_insert_ne; [done|congruence]. Qed.

Lemma array_put l s h a : array_of (put_list l s h) a = array_of h a.
Proof. by destruct l. Qed.

Lemma next_put l s h : ho_next_array (put_list l s h) = ho_next_array h.
Proof. by destruct l. Qed.

Lemma holds_put l s' h s xs : holds h s xs → holds (put_list l s' h) s xs.
Proof. intros [Hv Hl Hc Ha]. split; rewrite ?array_put, ?next_put; done. Qed.

Lemma put_touches l s' s h h' t : touches s h h' t → touches s h (put_list l s' h') t.
Proof. intros [Hn Ho Hf]. split; rewrite ?next_put; [done|done|]. intros a. rewrite array_put. apply Hf. Qed.

(** One list changed, within its array or into a new one. *)
Lemma list_changed l h h' xs :
  lists_ok h → holds h' (get_list l h') xs → touches (get_list l h) h h' (get_list l h') →
  (∀ l', l' ≠ l → get_list l' h' = get_list l' h) →
  lists_ok h' ∧ hooks_of l h' = xs ∧ (∀ l', l' ≠ l → hooks_of l' h' = hooks_of l' h).
Proof.
  intros [Hh Ha] Hx Ht Hg.
  assert (Ho : ∀ l', l' ≠ l → holds h' (get_list l' h') (hooks_of l' h)).
  { intros l' Hn. rewrite (Hg l' Hn). eapply touches_holds; [exact Ht|apply Hh|]. intros H1' H2'. by apply Ha. }
  assert (Hfar : ∀ l', l' ≠ l → (0 < sl_cap (get_list l h'))%nat → (0 < sl_cap (get_list l' h'))%nat →
                   sl_arr (get_list l h') ≠ sl_arr (get_list l' h')).
  { intros l' Hn Hc Hc'. rewrite (Hg l' Hn) in Hc' |- *. destruct (tc_own _ _ _ _ Ht Hc) as [[-> Hc0]|Hge].
    - by apply Ha.
    - pose proof (proj2 (hs_arr _ _ _ (Hh l') Hc')). lia. }
  split; [|split].
  - split.
    + intros l'. destruct (decide (l' = l)) as [->|Hn]; [by rewrite (holds_hooks l h' xs)|].
      rewrite (holds_hooks l' h' (hooks_of l' h)); auto.
    + intros l1 l2 Hn Hc1 Hc2. destruct (decide (l1 = l)) as [->|Hn1]; [by apply Hfar|].
      destruct (decide (l2 = l)) as [->|Hn2]; [intros He; by apply (Hfar l1)|].
      rewrite (Hg l1 Hn1), (Hg l2 Hn2) in *. by apply Ha.
  - by apply holds_hooks.
  - intros l' Hn. by apply holds_hooks, Ho.
Qed.

(** Fields other than the lists and their arrays do not matter. *)
Lemma same_lists h h' : ho_arrays h' = ho_arrays h → ho_next_array h' = ho_next_array h →
  (∀ l, get_list l h' = get_list l h) → (∀ l, hooks_of l h' = hooks_of l h) ∧ (lists_ok h → lists_ok h').
Proof.
  intros He Hn Hg. assert (Ha : ∀ a, array_of h' a = array_of h a) by (intros a; unfold array_of; by rewrite He).
  assert (Hk : ∀ l, hooks_of l h' = hooks_of l h) by (intros l; unfold hooks_of; by rewrite Hg, Ha).
  split; [done|]. intros [Hh Hd]. split.
  - intros l. rewrite Hg, Hk. destruct (Hh l) as [Hv Hl Hc Hr]. split; rewrite ?Ha, ?Hn; done.
  - intros l l'. rewrite !Hg. apply Hd.
Qed.

Lemma append_lists x s h l : get_list l (append_hook x s h).1 = get_list l h.
Proof. unfold append_hook. by case_match; destruct l. Qed.

Lemma append_ids x s h : ho_next_id (append_hook x s h).1 = ho_next_id h.
Proof. unfold append_hook. by case_match. Qed.

Lemma sort_lists s h l : get_list l (sortHooks s h) = get_list l h.
Proof. by destruct l. Qed.

Lemma put_ids l s h : ho_next_id (put_list l s h) = ho_next_id h.
Proof. by destruct l. Qed.

(** Registration puts the new hook where its priority says, behind those of the
    same priority. *)
Lemma add_hook_lists l hk h : lists_ok h →
  lists_ok (add_hook l hk h) ∧ hooks_of l (add_hook l hk h) = sort_stable hk_prio (hooks_of l h ++ [hk]) ∧
  (∀ l', l' ≠ l → hooks_of l' (add_hook l hk h) = hooks_of l' h).
Proof.
  intros Hok. unfold add_hook. pose proof (append_holds hk (get_list l h) h _ (lo_holds h Hok l)) as Hp.
  pose proof (append_lists hk (get_list l h) h) as Hg. destruct (append_hook hk (get_list l h) h) as [h1 s]. cbn [fst] in Hg.
  destruct Hp as [Hp Ht]. set (h2 := put_list l s h1).
  destruct (list_changed l h h2 (hooks_of l h ++ [hk])) as (Hok2 & Hl2 & Ho2); [done| | | |].
  { unfold h2. rewrite get_put. by apply holds_put. }
  { unfold h2. rewrite get_put. by apply put_touches. }
  { intros l' Hn. unfold h2. rewrite get_put_ne by done. apply Hg. }
  assert (Hs : get_list l h2 = s) by apply get_put.
  destruct (sort_holds s h2 (hooks_of l h ++ [hk])) as [Hs1 Hs2].
  { rewrite <- Hs, <- Hl2. apply Hok2. }
  destruct (list_changed l h2 (sortHooks s h2) (sort_stable hk_prio (hooks_of l h ++ [hk]))) as (Hok3 & Hl3 & Ho3); [done| | | |].
  { by rewrite sort_lists, Hs. }
  { by rewrite sort_lists, Hs. }
  { intros l' _. apply sort_lists. }
  set (h3 := sortHooks s h2) in *. destruct (same_lists h3 (h3 <| ho_unhookers ::= <[hk_id hk := (hk_script hk, UnList l)]> |>)) as [Hk Hl];
    [done|done|by intros []|].
  split; [by apply Hl|]. split; [by rewrite Hk|]. intros l' Hn. rewrite Hk, Ho3, Ho2; done.
Qed.

Lemma remove_lists id s h l : get_list l (removeHook id s h).1 = get_list l h.
Proof. unfold removeHook. case_match; by destruct l. Qed.

(** Removal takes the hook out of its list. *)
Lemma unhook_lists l id h : lists_ok h →
  let h' := run_unhook id (UnList l) h in
  lists_ok h' ∧ hooks_of l h' = remove_hook id (hooks_of l h) ∧ (∀ l', l' ≠ l → hooks_of l' h' = hooks_of l' h).
Proof.
  intros Hok. cbn [run_unhook]. pose proof (remove_holds id (get_list l h) h _ (lo_holds h Hok l)) as Hp.
  pose proof (remove_lists id (get_list l h) h) as Hg. destruct (removeHook id (get_list l h) h) as [h1 s]. cbn [fst] in Hg.
  destruct Hp as [Hp Ht]. cbv zeta. apply list_changed; [done| | |].
  - rewrite get_put. by apply holds_put.
  - rewrite get_put. by apply put_touches.
  - intros l' Hn. rewrite get_put_ne by done. apply Hg.
Qed.

Lemma drop_get x s h l : get_list l (dropHooks x s h).1 = get_list l h.
Proof.
  unfold dropHooks. generalize (take (sl_len s) (array_of h (sl_arr s))) (Slice (sl_arr s) 0 0). intros os. revert h.
  induction os as [|[hk|] os IH]; intros h t; [done| |apply IH]. cbn [foldl].
  destruct (Nat.eqb _ _); [apply IH|]. pose proof (append_lists hk t h l) as Ha. destruct (append_hook hk t h) as [h1 t1].
  cbn [fst] in Ha. by rewrite IH.
Qed.

Lemma drop_list_lists x l h : lists_ok h →
  lists_ok (drop_list x l h) ∧ hooks_of l (drop_list x l h) = filter (λ hk, hk_script hk ≠ x) (hooks_of l h) ∧
  (∀ l', l' ≠ l → hooks_of l' (drop_list x l h) = hooks_of l' h) ∧
  ((0 < sl_cap (get_list l (drop_list x l h)) → ho_next_array h ≤ sl_arr (get_list l (drop_list x l h)))%nat).
Proof.
  intros Hok. unfold drop_list. pose proof (drop_holds x (get_list l h) h _ (lo_holds h Hok l)) as Hp.
  pose proof (drop_get x (get_list l h) h) as Hg. destruct (dropHooks x (get_list l h) h) as [h1 s]. cbn [fst] in Hg.
  destruct Hp as [Hp Ht].
  destruct (list_changed l h (put_list l s h1) (filter (λ hk, hk_script hk ≠ x) (hooks_of l h))) as (K1 & K2 & K3); [done| | | |].
  - rewrite get_put. by apply holds_put.
  - rewrite get_put. apply put_touches. by apply anew_touches.
  - intros l' Hn. rewrite get_put_ne by done. apply Hg.
  - repeat (split; [done|]). rewrite get_put. apply Ht.
Qed.

(** ** The invariant *)

Lemma sorted_sublist {A} (R : A → A → Prop) l' l : l' `sublist_of` l → StronglySorted R l → StronglySorted R l'.
Proof.
  induction 1 as [|x l' l Hsub IH|x l' l _ IH]; intros Hs; [done| |]; apply StronglySorted_inv in Hs as [Hs Hx]; [|auto].
  constructor; [auto|]. rewrite Forall_forall in Hx |- *. intros y Hy. apply Hx. by apply (sublist_subseteq _ _ Hsub).
Qed.

Lemma remove_sublist id xs : remove_hook id xs `sublist_of` xs.
Proof. unfold remove_hook. destruct (list_find _ xs) as [[i o]|]; [apply sublist_delete|done]. Qed.

(** Nothing of the lists changed, and ids only grow. *)
Lemma heap_same h h' : ho_arrays h' = ho_arrays h → ho_next_array h' = ho_next_array h →
  (∀ l, get_list l h' = get_list l h) → ho_next_id h ≤ ho_next_id h' → heap_ok h → heap_ok h'.
Proof.
  intros He Hn Hg Hi [Hl Hs Hd]. destruct (same_lists h h' He Hn Hg) as [Hk Ho]. split; [auto|by intros l; rewrite Hk|].
  intros l hk. rewrite Hk. intros Hin. specialize (Hd l hk Hin). lia.
Qed.

Lemma key_hook_lt x y : hook_lt x y → hk_prio x ≤ hk_prio y.
Proof. unfold hook_lt. lia. Qed.

Lemma registered_sorted xs hk : StronglySorted hook_lt xs → Forall (λ y, hk_id y < hk_id hk) xs →
  StronglySorted hook_lt (sort_stable hk_prio (xs ++ [hk])).
Proof.
  intros Hs Hi. apply sort_stable_sorted; [by left|exact key_hook_lt|].
  induction Hs as [|x xs Hs IH Hx]; [by repeat constructor|]. apply Forall_cons in Hi as [Hxi Hi]. cbn. constructor; [by apply IH|].
  apply Forall_app. split.
  - eapply Forall_impl; [exact Hx|]. intros y Hy _. exact Hy.
  - constructor; [|done]. intros He. right. done.
Qed.

Lemma add_hook_ok x l fn prio h : heap_ok h → heap_ok (add_hook l (fresh_hook x fn prio h) (newID h).1).
Proof.
  intros Hok. assert (Hn : heap_ok (newID h).1) by (apply (heap_same h); [done|done|by intros []|cbn; lia|done]).
  set (h0 := (newID h).1) in *. set (hk := fresh_hook x fn prio h).
  destruct (add_hook_lists l hk h0 (hp_lists h0 Hn)) as (Hl & He & Ho).
  assert (Hid : ho_next_id (add_hook l hk h0) = ho_next_id h + 1).
  { unfold add_hook. pose proof (append_ids hk (get_list l h0) h0) as Ha. destruct (append_hook hk _ h0) as [h1 s].
    cbn [fst] in Ha. unfold sortHooks, set_array. cbn. by rewrite put_ids, Ha. }
  assert (Hold : ∀ l, Forall (λ y, hk_id y < hk_id hk) (hooks_of l h0)).
  { intros l'. apply Forall_forall. intros y Hy. assert (hooks_of l' h0 = hooks_of l' h) as Hh by (by destruct l').
    rewrite Hh in Hy. pose proof (hp_ids h Hok l' y Hy). cbn. lia. }
  split; [done| |].
  - intros l'. destruct (decide (l' = l)) as [->|Hne].
    + rewrite He. apply registered_sorted; [apply Hn|apply Hold].
    + rewrite Ho by done. apply Hn.
  - intros l' y. rewrite Hid. destruct (decide (l' = l)) as [->|Hne].
    + rewrite He, (sort_stable_perm hk_prio). intros Hin. apply elem_of_app in Hin as [Hin|Hin].
      * specialize (Hold l). rewrite Forall_forall in Hold. specialize (Hold y Hin). cbn in Hold. lia.
      * apply list_elem_of_singleton in Hin as ->. cbn. lia.
    + rewrite Ho by done. intros Hin. specialize (Hold l'). rewrite Forall_forall in Hold. specialize (Hold y Hin). cbn in Hold. lia.
Qed.

Lemma run_unhook_ids id u h : ho_next_id (run_unhook id u h) = ho_next_id h.
Proof.
  destruct u as [l|key|]; cbn [run_unhook]; [|by repeat case_match|done].
  unfold removeHook. destruct (hook_index _ _ _); by rewrite put_ids.
Qed.

Lemma unhook_ok id u h : heap_ok h → heap_ok (run_unhook id u h <| ho_unhookers ::= delete id |>).
Proof.
  intros Hok. apply (heap_same (run_unhook id u h)); [done|done|by intros []|done|]. destruct u as [l|key|].
  - destruct (unhook_lists l id h (hp_lists h Hok)) as (Hl & He & Ho). split; [done| |].
    + intros l'. destruct (decide (l' = l)) as [->|Hn]; [|rewrite Ho by done; apply Hok].
      rewrite He. eapply sorted_sublist; [apply remove_sublist|apply Hok].
    + intros l' hk. rewrite run_unhook_ids. destruct (decide (l' = l)) as [->|Hn]; [|rewrite Ho by done; apply Hok].
      rewrite He. intros Hin%(sublist_subseteq _ _ (remove_sublist _ _)). by apply Hok in Hin.
  - cbn [run_unhook]. repeat case_match; try done. apply (heap_same h); [done|done|by intros []|done|done].
  - apply (heap_same h); [done|done|by intros []|done|done].
Qed.

(** Unloading filters every list. *)
Definition dropped (x : sid) (h h' : host) : Prop :=
  lists_ok h' ∧ (∀ l, hooks_of l h' = filter (λ hk, hk_script hk ≠ x) (hooks_of l h)).

Definition drop_signals (x : sid) (es : list string) (h : host) : host := foldl (λ h e, drop_list x (HSignal e) h) h es.

Lemma drop_signals_lists x es h : lists_ok h →
  lists_ok (drop_signals x es h) ∧
  ∀ l, hooks_of l (drop_signals x es h) =
       match l with
       | HSignal e => if bool_decide (e ∈ es) then filter (λ hk, hk_script hk ≠ x) (hooks_of l h) else hooks_of l h
       | _ => hooks_of l h
       end.
Proof.
  unfold drop_signals. revert h. induction es as [|e es IH]; intros h Hok; cbn [foldl].
  - split; [done|]. by intros [].
  - destruct (drop_list_lists x (HSignal e) h Hok) as (K1 & K2 & K3 & _). destruct (IH _ K1) as [L1 L2]. split; [done|].
    intros l. rewrite L2. destruct l as [| | | |e']; try by apply K3.
    destruct (decide (e' = e)) as [->|Hn].
    + rewrite K2. rewrite (bool_decide_eq_true_2 (e ∈ e :: es)) by (by left). case_bool_decide; [|done].
      rewrite list_filter_filter. apply list_filter_iff. tauto.
    + rewrite K3 by congruence. assert (e' ∈ e :: es ↔ e' ∈ es) as Hiff by (rewrite elem_of_cons; naive_solver).
      by rewrite (bool_decide_ext _ _ Hiff).
Qed.

Lemma no_signal_hooks e h : ho_signals h !! e = None → hooks_of (HSignal e) h = [].
Proof. intros He. unfold hooks_of, get_list. rewrite He. done. Qed.

Definition drop_all (x : sid) (h : host) : host :=
  let h := drop_list x HCompletion (drop_list x HTopic (drop_list x HInput (drop_list x HMsg h))) in
  drop_signals x (elements (dom (ho_signals h))) h.

Lemma drop_all_lists x h : lists_ok h → dropped x h (drop_all x h).
Proof.
  intros H1'. unfold drop_all. cbv zeta.
  destruct (drop_list_lists x HMsg h H1') as (A1 & A2 & A3 & _). set (h1 := drop_list x HMsg h) in *.
  destruct (drop_list_lists x HInput h1 A1) as (B1 & B2 & B3 & _). set (h2 := drop_list x HInput h1) in *.
  destruct (drop_list_lists x HTopic h2 B1) as (C1 & C2 & C3 & _). set (h3 := drop_list x HTopic h2) in *.
  destruct (drop_list_lists x HCompletion h3 C1) as (D1 & D2 & D3 & _). set (h4 := drop_list x HCompletion h3) in *.
  destruct (drop_signals_lists x (elements (dom (ho_signals h4))) h4 D1) as [E1 E2]. split; [done|].
  intros l. rewrite E2. destruct l as [| | | |e].
  - by rewrite D3, C3, B3, A2.
  - by rewrite D3, C3, B2, A3.
  - by rewrite D3, C2, B3, A3.
  - by rewrite D2, C3, B3, A3.
  - rewrite D3, C3, B3, A3 by done. case_bool_decide as Hin; [done|].
    rewrite elem_of_elements, elem_of_dom in Hin.
    assert (hooks_of (HSignal e) h = []) as ->; [|done].
    rewrite <- A3, <- B3, <- C3, <- D3 by done. apply no_signal_hooks. by apply eq_None_not_Some.
Qed.

(** What [unloadScript] does besides. *)
Lemma unload_split name x h : ho_scripts h !! name = Some x →
  ∃ h1, h1 = drop_all x h ∧ unloadScript name h =
    h1 <| ho_cmds ::= filter (λ '(_, hk), hk_script hk ≠ x) |>
       <| ho_timers ::= filter (λ t, tm_script t ≠ x) |>
       <| ho_unhookers ::= filter (λ '(_, (y, _)), y ≠ x) |>
       <| ho_scripts ::= delete name |>
       <| ho_states ::= alter (λ s, s <| ps_closed := true |>) x |>.
Proof. intros Hn. eexists. split; [done|]. unfold unloadScript. by rewrite Hn. Qed.

Lemma drop_list_keeps {A} (f : host → A) x l h :
  (∀ a xs h, f (set_array a xs h) = f h) → (∀ n h, f (h <| ho_next_array := n |>) = f h) →
  (∀ s h, f (put_list l s h) = f h) → f (drop_list x l h) = f h.
Proof.
  intros Ha Hn Hp. unfold drop_list. assert (Hd : f (dropHooks x (get_list l h) h).1 = f h).
  { unfold dropHooks. generalize (take (sl_len (get_list l h)) (array_of h (sl_arr (get_list l h)))) (Slice (sl_arr (get_list l h)) 0 0).
    intros os. clear Hp. revert h. induction os as [|[hk|] os IH]; intros h t; [done| |apply IH]. cbn [foldl].
    destruct (Nat.eqb _ _); [apply IH|]. assert (He : f (append_hook hk t h).1 = f h).
    { unfold append_hook. case_match; cbn [fst]; by rewrite ?Hn, ?Ha. }
    destruct (append_hook hk t h) as [h1 t1]. by rewrite IH. }
  destruct (dropHooks _ _ h) as [h1 s]. by rewrite Hp.
Qed.

Lemma drop_all_keeps {A} (f : host → A) x h :
  (∀ a xs h, f (set_array a xs h) = f h) → (∀ n h, f (h <| ho_next_array := n |>) = f h) →
  (∀ l s h, f (put_list l s h) = f h) → f (drop_all x h) = f h.
Proof.
  intros Ha Hn Hp. unfold drop_all. cbv zeta.
  assert (Hd : ∀ l h, f (drop_list x l h) = f h) by (intros l h'; by apply drop_list_keeps).
  assert (Hs : ∀ es h, f (drop_signals x es h) = f h).
  { unfold drop_signals. induction es as [|e es IH]; intros h'; [done|]. cbn. by rewrite IH. }
  by rewrite Hs, !Hd.
Qed.

Lemma unload_ok name h : heap_ok h → heap_ok (unloadScript name h).
Proof.
  intros Hok. destruct (ho_scripts h !! name) as [x|] eqn:Hn.
  2: { unfold unloadScript. by rewrite Hn. }
  destruct (unload_split name x h Hn) as (h1 & Hd & ->). pose proof (drop_all_lists x h (hp_lists h Hok)) as [Hl Hk].
  rewrite <- Hd in Hl, Hk.
  assert (Hi : ho_next_id h1 = ho_next_id h) by (subst h1; apply (drop_all_keeps ho_next_id); [done|done|by intros []]).
  apply (heap_same h1); [done|done|by intros []|done|]. split; [done| |].
  - intros l. rewrite Hk. eapply sorted_sublist; [apply sublist_filter|apply Hok].
  - intros l hk. rewrite Hk, Hi. intros [_ Hin]%list_elem_of_filter. by apply Hok in Hin.
Qed.

(** The counter of scripts is nobody's business but the loader's. *)
Lemma add_hook_scripts l hk h : ho_next_script (add_hook l hk h) = ho_next_script h.
Proof.
  assert (Ha : ∀ s, ho_next_script (append_hook hk s h).1 = ho_next_script h) by (intros s; unfold append_hook; by case_match).
  unfold add_hook. specialize (Ha (get_list l h)). destruct (append_hook hk _ h) as [h1 s]. cbn [fst] in Ha.
  unfold sortHooks, set_array. cbn. rewrite <- Ha. by destruct l.
Qed.

Lemma run_unhook_scripts id u h : ho_next_script (run_unhook id u h <| ho_unhookers ::= delete id |>) = ho_next_script h.
Proof.
  destruct u as [l|key|]; cbn [run_unhook]; [|by repeat case_match|done].
  unfold removeHook. by destruct (hook_index _ _ _), l.
Qed.

Lemma unload_next name h : ho_next_script (unloadScript name h) = ho_next_script h.
Proof.
  destruct (ho_scripts h !! name) as [x|] eqn:Hn; [|unfold unloadScript; by rewrite Hn].
  destruct (unload_split name x h Hn) as (h1 & -> & ->). cbn. apply (drop_all_keeps ho_next_script); [done|done|by intros []].
Qed.

Lemma move_heap b h h' : move b h h' → heap_ok h → heap_ok h'.
Proof.
  intros Hp Hok. destruct Hp as [h' Ha|x f _ _|x _| |x l fn prio _|x key fn prio _|x fn d _|id x u _];
    try by (apply (heap_same h); [..|by intros []|cbn; lia|]).
  - destruct Ha. apply (heap_same h); [done|done|done|lia|done].
  - by apply add_hook_ok.
  - by apply unhook_ok.
Qed.

Lemma prim_heap b h h' : prim b h h' → heap_ok h → heap_ok h'.
Proof.
  intros Hp Hok. destruct Hp as [h' Hm|name path|name x _|x|name|];
    try by (apply (heap_same h); [..|by intros []|cbn; lia|]).
  - by eapply move_heap.
  - by apply unload_ok.
Qed.

Lemma prims_heap b h h' : rtc (prim b) h h' → heap_ok h → heap_ok h'.
Proof. induction 1 as [|h1 h2 h3 Hp _ IH]; [done|]. intros Hok. apply IH. by eapply prim_heap. Qed.

Lemma empty_heap dir settings sandbox trusted kv http w : heap_ok (empty_host dir settings sandbox trusted kv http w).
Proof.
  assert (Hg : ∀ l, get_list l (empty_host dir settings sandbox trusted kv http w) = nil_slice).
  { by intros []. }
  assert (Hk : ∀ l, hooks_of l (empty_host dir settings sandbox trusted kv http w) = []).
  { intros l. unfold hooks_of. by rewrite Hg. }
  split; [split| |].
  - intros l. rewrite Hg, Hk. split; [done|done|done|cbn; lia].
  - intros l l' _. rewrite Hg. cbn. lia.
  - intros l. rewrite Hk. constructor.
  - intros l hk. rewrite Hk. intros Hin. by apply not_elem_of_nil in Hin.
Qed.
End heap.
