(* ===== verification/PlugToy.v ===== *)
(** * A small runtime for the plugin host

    Concrete instances of the parameters of the plugin host, to evaluate the
    model: numbers are integers, a closure is a number that selects a given
    behaviour, an interpreter's state is one global variable, and the world is
    the log of what the plugins asked the core to do, over given script files. *)

From Stdlib Require Import ZArith Lia Ascii Bool.
From stdpp Require Import base tactics list gmap strings.
From S2P Require Import Prelude GoStrings GoNet CoreTypes CoreEvent CoreEngine PlugLua PlugHost PlugBind PlugRun.

#[local] Open Scope Z_scope.

Definition toy_cipher : Blowfish := {| bf_encrypt _ b := b; bf_decrypt _ b := b |}.

Section toy.
#[local] Existing Instance toy_types.
#[local] Existing Instance toy_rt.

(** The script files with what running them does, and what the closures do. *)
Context (files : list (string * lua_run)) (closures : nat → list lval → Z → lua_run).

Definition toy_file (path : string) (L : Z) : lua_run :=
  match find (λ f, String.eqb (path_join "scripts" (fst f)) path) files with
  | Some (_, r) => r
  | None => LDone L LNil
  end.

Definition toy_env : @HostEnv toy_types := {|
  world := list api_call; w_api c w := (w ++ [c], None); w_networks _ := []; w_channels _ _ := [];
  w_members _ _ _ := []; w_nick _ _ := "me"; w_backlog _ _ _ _ := []; w_kv_all _ _ := ∅;
  w_kv_set _ _ _ w := (w, true); w_kv_del _ _ w := (w, true); w_files _ := fst <$> files;
  w_stat _ path := existsb (λ f, String.eqb (path_join "scripts" (fst f)) path) files;
  w_read _ _ := None; w_write _ _ w := (w, None); w_mkdir _ w := (w, None); w_remove _ w := (w, Removed);
  w_http _ w := (w, inr "no network"); w_random _ w := (w, None); w_new_state _ := (0 : @lstate toy_types);
  w_dofile path L _ := toy_file path L; w_call fn args L := closures fn args L; w_grow n := (2 * n + 1)%nat;
  w_sha256 s := s; w_url_parse _ := None; w_float_ok _ := false; w_marshal _ := inr "no encoder";
  w_unmarshal _ := inr "no decoder" |}.

(** The host over those files. *)
Definition toy_host (inputs : list host_input) : @host toy_types toy_env :=
  @host_run ascii_tables toy_types toy_rt toy_cipher toy_env
    (@New ascii_tables toy_types toy_rt toy_cipher toy_env "scripts" ∅ true false false false []) inputs.
End toy.

(** A message event, and the calls it is answered with. *)
Definition toy_message (text : string) : event :=
  new_event EvMessageIn "net" 0 <| evt_message := Some (new_message "net" "#go" 0 "ann" MsgPrivmsg text) |>.
