(* ===== verification/PlugThms.v ===== *)
(** * What the plugin host guarantees

    The loop over a list of hooks is a walk along the list it stands for, in
    order of priority, as long as no hook changes a list ([hooks_run_in_order]);
    skipping the plugin goroutine for events nobody listens to changes nothing
    ([presence_transparent]); a script that is disabled is left alone
    ([disabled_stays_idle]).  What goes wrong when a hook does change the list
    it is called from is [unhook_skips_next] of [PlugSafe]. *)

From Stdlib Require Import ZArith Lia Ascii Bool.
From stdpp Require Import base tactics list gmap strings relations sorting.
From S2P Require Import Prelude GoStrings GoNet CoreTypes CoreEvent CoreEngine PlugLua PlugHost PlugBind PlugRun PlugPrim PlugHeap PlugToy.

#[local] Open Scope Z_scope.

(** ** Calls that leave the lists alone *)

Definition hook_calls : list string :=
  ["hook_message"; "hook_input"; "hook_topic"; "hook_completion"; "hook_signal"; "unhook"].

Section thms.
Context `{UnicodeTables, LuaTypes, !LuaRT, !Blowfish, !HostEnv}.

(** A run that registers and removes no hook in a list. *)
Fixpoint steady (r : lua_run) : Prop :=
  match r with
  | LCall f args k => f ∉ hook_calls ∧ ∀ b, steady (k b)
  | _ => True
  end.

(** Neither the arrays nor the end of the process are touched. *)
Definition calm (h h' : host) : Prop := ho_arrays h' = ho_arrays h ∧ ho_down h' = ho_down h.

Lemma calm_refl h : calm h h.
Proof. done. Qed.

Lemma calm_trans h1 h2 h3 : calm h1 h2 → calm h2 h3 → calm h1 h3.
Proof. unfold calm. intuition congruence. Qed.

Lemma aside_calm h h' : aside h h' → calm h h'.
Proof. intros Ha. split; apply Ha. Qed.

(** Peels off the argument checks. *)
Ltac peel :=
  repeat match goal with
  | |- calm _ (check_string ?a ?n _ _).1 => unfold check_string at 1; destruct (lua_check_string (arg a n)); [|done]
  | |- calm _ (check_int ?a ?n _ _).1 => unfold check_int at 1; destruct (lua_check_int (arg a n)); [|done]
  | |- calm _ (check_function ?a ?n _ _).1 => unfold check_function at 1; destruct (arg a n); try done
  | |- calm _ (check_table ?a ?n _ _).1 => unfold check_table at 1; destruct (arg a n); try done
  end.

Definition calm_binding (g : sid → list lval → host → answer) : Prop := ∀ x args h, calm h (g x args h).1.

Lemma api_calm c h : calm h (api c h).1.
Proof. apply aside_calm, api_aside. Qed.

Lemma calm_cache name h (k : host → gmap string string → answer) :
  (∀ h' m, calm h' (k h' m).1) → calm h (let '(h, m) := kvCache name h in k h m).1.
Proof.
  intros Hk. pose proof (aside_calm _ _ (kvCache_aside name h)) as Hc. destruct (kvCache name h) as [h1 m].
  eapply calm_trans; [exact Hc|apply Hk].
Qed.

Lemma calm_actions (call : api_call) h (k : option string → bres) :
  calm h (let '(h, err) := api call h in (h, k err)).1.
Proof. pose proof (api_calm call h) as Ha. by destruct (api call h). Qed.

Lemma setting_calm : calm_binding setting.
Proof.
  intros x args h. unfold setting. peel. cbv zeta. set (h1 := set_script x _ h). set (d := setting_decl _ _).
  pose proof (aside_calm _ _ (value_aside (name_of h1 x) d h1)) as Hv. destruct (settingValue _ d h1).
  eapply calm_trans; [|exact Hv]. done.
Qed.

Lemma timer_calm : calm_binding registerTimer.
Proof. intros x args h. unfold registerTimer. peel. cbv zeta. cbn. by case_match. Qed.

Lemma random_calm : calm_binding crypto_random.
Proof. intros x args h. unfold crypto_random. peel. case_match; [done|]. by destruct (w_random _ _). Qed.

Lemma kv_calm : calm_binding kv_set ∧ calm_binding kv_get ∧ calm_binding kv_delete ∧ calm_binding kv_all.
Proof.
  split; [|split; [|split]]; intros x args h; unfold kv_set, kv_get, kv_delete, kv_all.
  - peel. apply aside_calm, kvSet_aside.
  - apply calm_cache. intros h' m. by peel.
  - peel. apply aside_calm, kvDelete_aside.
  - by apply calm_cache.
Qed.

Lemma http_calm x rq cb h : calm h (startHTTP x rq cb h).1.
Proof. unfold startHTTP. by repeat case_match. Qed.

Ltac easy_calm := intros x args h;
  unfold hook_command, action1, action2, action3, bind_print, bind_set_buffer_state, describe, http_get, bind_http_request,
    bind_networks, bind_channels, bind_members, bind_nick, bind_backlog, bind_config, buildLog, json_decode, json_encode,
    blowfish_ecb, blowfish_cbc, bind_sha256, bind_modexp, opt_int;
  cbv zeta; repeat first [progress peel | apply calm_actions | apply api_calm | apply http_calm | case_match]; done.

Lemma bindings_calm : Forall (λ e, e.1 ∈ hook_calls ∨ calm_binding e.2) bindings.
Proof.
  destruct kv_calm as (K1 & K2 & K3 & K4). unfold bindings.
  repeat (constructor; [cbn [fst snd]; first
    [ left; apply list_elem_of_In; cbn; tauto | right; first
      [ exact setting_calm | exact timer_calm | exact random_calm | exact K1 | exact K2 | exact K3 | exact K4 | easy_calm ]]|]).
  constructor.
Qed.
Lemma exec_calm x r h : steady r → calm h (exec x r h).1.1.
Proof.
  revert h. induction r as [L v|L err|f args k IH]; intros h Hs; try done. destruct Hs as [Hf Hk].
  cbn [exec]. assert (Hb : calm h (binding x f args h).1).
  { unfold binding. destruct (find _ bindings) as [[n g]|] eqn:Hg; [|done]. apply find_some in Hg as [Hin He].
    cbn in He. apply String.eqb_eq in He as ->. apply list_elem_of_In in Hin.
    pose proof bindings_calm as Hall. rewrite Forall_forall in Hall. destruct (Hall _ Hin) as [|Hc]; [done|apply Hc]. }
  destruct (binding x f args h) as [h1 b]. eapply calm_trans; [exact Hb|]. by apply IH.
Qed.

Lemma call_calm x fn args h : (∀ args L, steady (w_call fn args L)) → ho_arrays (call x fn args h).1 = ho_arrays h.
Proof.
  intros Hs. unfold call. destruct (ho_states h !! x) as [s|]; [|done]. destruct (ps_closed s); [done|].
  pose proof (exec_calm x _ h (Hs args (ps_lua s))) as [He _]. destruct (exec x _ h) as [[h1 L] r]. by destruct r.
Qed.

(** ** The loop as a walk along the list *)

Fixpoint chain {A} (body : hook → A → host → host * (bool * A)) (l : list hook) (acc : A) (h : host) : host * (bool * A) :=
  match l with
  | [] => (h, (true, acc))
  | hk :: l =>
      if disabled h (hk_script hk) then chain body l acc h
      else
        let '(h, (go, acc)) := body hk acc h in
        if go && negb (ho_down h) then chain body l acc h else (h, (go, acc))
  end.

(** A body that calls the hook once and looks at the result. *)
Definition calls_hook {A} (body : hook → A → host → host * (bool * A)) : Prop :=
  ∀ hk acc h, ∃ args (k : option lval → bool * A),
    body hk acc h = (let '(h, ret) := call (hk_script hk) (hk_fn hk) args h in (h, k ret)).

Lemma bodies_call :
  calls_hook message_body ∧ (∀ nick, calls_hook (input_body nick)) ∧ (∀ ev, calls_hook (topic_body ev)) ∧
  (∀ ev, calls_hook (signal_body ev)) ∧ (∀ word network buffer nick, calls_hook (completion_body word network buffer nick)).
Proof.
  repeat split; intros; intros hk acc h.
  - eexists _, (λ ret, match message_result ret acc with Some m => (true, m) | None => (false, acc) end). done.
  - eexists _, (λ ret, match input_result ret acc with Some m => (true, m) | None => (false, acc) end). done.
  - eexists _, (λ ret, (true, topic_result ret acc)). done.
  - eexists _, (λ _, (true, tt)). done.
  - eexists _, (λ ret, (true, match ret with Some (LTab t) => acc ++ candidates t | _ => acc end)). done.
Qed.

Lemma range_chain {A} (body : hook → A → host → host * (bool * A)) a xs : calls_hook body →
  (∀ hk, hk ∈ xs → ∀ args L, steady (w_call (hk_fn hk) args L)) →
  ∀ i acc h, take (length xs) (drop i (array_of h a)) = Some <$> xs →
    range_hooks body a i (length xs) acc h = chain body xs acc h.
Proof.
  intros Hb. induction xs as [|hk xs IH]; intros Hs i acc h Hv; [done|]. cbn [length range_hooks chain].
  assert (Hslot : slot h a i = Some hk).
  { unfold slot. rewrite <- (Nat.add_0_r i), <- lookup_drop. destruct (drop i (array_of h a)) as [|o l]; [done|].
    cbn in Hv. by injection Hv as -> _. }
  assert (Hrest : take (length xs) (drop (S i) (array_of h a)) = Some <$> xs).
  { rewrite <- Nat.add_1_r, <- drop_drop. destruct (drop i (array_of h a)) as [|o l]; [done|].
    cbn in Hv |- *. rewrite drop_0. by injection Hv as _ Hv. }
  assert (Hs' : ∀ hk, hk ∈ xs → ∀ args L, steady (w_call (hk_fn hk) args L)) by (intros y Hy; apply Hs; by right).
  rewrite Hslot. destruct (disabled h (hk_script hk)); [by apply IH|].
  destruct (Hb hk acc h) as (args & k & He). rewrite He.
  pose proof (call_calm (hk_script hk) (hk_fn hk) args h (Hs hk ltac:(by left))) as Ha.
  destruct (call _ _ args h) as [h1 ret]. cbn [fst] in Ha. destruct (k ret) as [go acc1].
  destruct (go && negb (ho_down h1)); [|done]. apply IH; [done|]. unfold array_of in *. by rewrite Ha.
Qed.

Section reach.
Context (dir : string) (settings : gmap string (gmap string goval)) (sandbox trusted kv http : bool) (w : world).

(** A host as some inputs have left it. *)
Definition reached (inputs : list host_input) : host := host_run (New dir settings sandbox trusted kv http w) inputs.

Lemma reached_heap inputs : heap_ok (reached inputs).
Proof.
  unfold reached, host_run. assert (H0' : heap_ok (New dir settings sandbox trusted kv http w)).
  { eapply prims_heap; [apply (job_prims false), load_all_prims|]. apply empty_heap. }
  revert H0'. generalize (New dir settings sandbox trusted kv http w). induction inputs as [|i inputs IH]; intros h Hh; [done|].
  cbn [foldl]. apply IH. eapply prims_heap; [apply step_prims|done].
Qed.

(** C18: hooks run once each, in order of priority.  Whatever has happened to a
    host - scripts loaded, reloaded and unloaded, hooks registered and removed,
    calls failing - each of its lists is sorted by priority, hooks of one
    priority in the order of registration, none twice; and the loop that
    dispatches an event, a walk over the slots of a shared array, calls exactly
    the hooks of that list whose script is not disabled, in that order, each
    with the result of the one before, until one drops the event - provided that
    none of the list's hooks registers or removes a list hook while it runs.  The
    condition is needed: removing a hook from the list that is being walked moves
    the others under the walk ([unhook_skips_next]). *)
Theorem hooks_run_in_order {A} inputs l (body : hook → A → host → host * (bool * A)) acc :
  let h := reached inputs in
  calls_hook body →
  (∀ hk, hk ∈ hooks_of l h → ∀ args L, steady (w_call (hk_fn hk) args L)) →
  StronglySorted hook_lt (hooks_of l h) ∧
  range_list body l acc h = chain body (hooks_of l h) acc h.
Proof.
  intros h Hb Hs. pose proof (reached_heap inputs) as Hok. fold h in Hok. split; [apply Hok|].
  pose proof (lo_holds h (hp_lists h Hok) l) as Hh. unfold range_list.
  rewrite <- (hs_len _ _ _ Hh). apply range_chain; [done|done|]. rewrite drop_0, (hs_len _ _ _ Hh). apply Hh.
Qed.

(** ** The summary of hooks *)

Definition present_ok (h : host) : Prop := ho_present h = Some (present_of h).

Lemma job_present f h : present_ok h → present_ok (job f h).
Proof. intros Hp. unfold job. by case_match. Qed.

Lemma job_ret_present {B} (d : B) f h : present_ok h → present_ok (job_ret d f h).1.
Proof. intros Hp. unfold job_ret. case_match; [done|]. by destruct (f h). Qed.

Lemma load_plugin_present name h : present_ok h → present_ok (LoadPlugin name h).1.
Proof. intros Hp. unfold LoadPlugin. destruct (scriptPath name h); [|done]. case_match; [done|]. by apply job_present. Qed.

Lemma install_present name url typ h : present_ok h → present_ok (install name url typ h).1.
Proof.
  intros Hp. unfold install, downloadScriptFromURL. destruct (w_http _ _) as [w1 [res|err]]; cbv zeta; [|done].
  destruct (hr_status res =? 404); [done|]. destruct (negb (hr_status res =? 200)); [done|].
  destruct (w_mkdir _ _) as [w2 [err|]]; [done|]. destruct (w_write _ _ _) as [w3 [err|]]; [done|].
  by apply load_plugin_present, job_present.
Qed.

Lemma script_meta_present name h : present_ok h → present_ok (script_meta name h).1.
Proof. intros Hp. unfold script_meta. by apply job_ret_present. Qed.

Lemma plugins_present h : present_ok h → present_ok (Plugins h).1.
Proof.
  intros Hp. unfold Plugins. pose proof (job_ret_present [] list_plugins h Hp) as Hj. by destruct (job_ret [] list_plugins h).
Qed.

Lemma check_update_present h n : present_ok h → present_ok (check_update h n).
Proof.
  intros Hp. unfold check_update, downloadScriptFromURL. pose proof (script_meta_present n h Hp) as Hm.
  destruct (script_meta n h) as [h1 [u t]]. case_match; [done|]. destruct (w_read _ _); [|done].
  destruct (w_http _ _) as [w1 [res|err]]; cbv zeta; [|done].
  destruct (hr_status res =? 404); [done|]. destruct (negb (hr_status res =? 200)); [done|]. by apply job_present.
Qed.

Lemma close_present h : present_ok h → present_ok (Close h).
Proof.
  intros Hp. unfold Close. cbv zeta. set (h0 := h <| ho_quit := true |>).
  assert (H0' : present_ok h0) by done. revert H0'. generalize h0 (map_to_list (ho_scripts h0)). intros h1 l. clear.
  revert h1. induction l as [|[n x] l IH]; intros h1 Hp; [done|]. cbn. by apply IH.
Qed.

Lemma step_present i h : present_ok h → present_ok (host_step i h).
Proof.
  intros Hp. unfold host_step. case_match; [done|]. destruct i.
  - unfold Dispatch. case_match; [done|]. by apply job_ret_present.
  - by apply job_ret_present.
  - by apply plugins_present.
  - destruct (ho_started h !! i); [|done]. by apply job_present.
  - unfold run_request, doHTTP. destruct (ho_requests h !! i) as [p|]; [|done]. cbv zeta. destruct (w_http _ _) as [w1 r].
    match goal with |- present_ok (_ <| ho_requests ::= _ |>) => idtac end.
    assert (Hj : ∀ f, present_ok (job f (h <| ho_world := w1 |>))) by (intros f; by apply job_present). exact (Hj _).
  - by apply load_plugin_present.
  - unfold UnloadPlugin. destruct (scriptPath name h); [|done]. case_match; [done|]. by apply job_present.
  - unfold UninstallPlugin. destruct (scriptPath name h); [|done]. case_match; [done|]. destruct (w_remove _ _) as [w1 []]; try done.
    by apply job_present.
  - unfold DownloadPlugin. repeat case_match; try done. by apply install_present.
  - unfold ImportPlugin. cbv zeta. case_match; [done|]. destruct (w_url_parse _) as [[[sch hst] path]|]; [|done].
    case_match; [done|]. case_match; [done|]. destruct (String.eqb (ho_dir h) ""); [done|]. by apply install_present.
  - unfold UpdatePlugin. cbv zeta. case_match; [done|]. case_match; [done|].
    pose proof (script_meta_present (clean_name name) h Hp) as Hm. destruct (script_meta _ h) as [h1 [u t]].
    case_match; [done|]. case_match; [done|]. by apply install_present.
  - unfold CheckPluginUpdates. case_match; [done|].
    assert (Hf : ∀ l h, present_ok h → present_ok (foldl check_update h l)).
    { induction l as [|n l IH]; intros h' Hh; [done|]. cbn. by apply IH, check_update_present. }
    destruct (String.eqb name ""); [|by apply Hf].
    pose proof (plugins_present h Hp) as Hq. destruct (Plugins h). by apply Hf.
  - by apply job_ret_present.
  - case_match; [|done]. by apply job_present.
  - case_match; [|done]. by apply job_present.
  - destruct (ho_quit h); [done|by apply close_present].
Qed.

Lemma reached_present inputs : present_ok (reached inputs).
Proof.
  unfold reached, host_run. assert (H0' : present_ok (New dir settings sandbox trusted kv http w)) by done.
  revert H0'. generalize (New dir settings sandbox trusted kv http w). induction inputs as [|i inputs IH]; intros h Hh; [done|].
  cbn [foldl]. by apply IH, step_present.
Qed.
Lemma empty_range {A} (body : hook → A → host → host * (bool * A)) l acc h :
  sl_len (get_list l h) = 0%nat → range_list body l acc h = (h, (true, acc)).
Proof. intros Hl. unfold range_list. by rewrite Hl. Qed.

Lemma set_same_message ev m : evt_message ev = Some m → ev <| evt_message := Some m |> = ev.
Proof. destruct ev. cbn. by intros ->. Qed.

Lemma set_same_text ev : ev <| evt_text := evt_text ev |> = ev.
Proof. by destruct ev. Qed.

(** No list for a signal, or an empty one. *)
Lemma no_signals h name : name ∉ hp_signals (present_of h) → sl_len (get_list (HSignal name) h) = 0%nat.
Proof.
  intros Hn. cbn [get_list]. destruct (ho_signals h !! name) as [s|] eqn:Hs; [|done]. cbn.
  destruct (decide (0 < sl_len s)%nat) as [Hp|]; [|lia]. exfalso. apply Hn. cbn [present_of hp_signals].
  apply elem_of_dom. exists s. by apply map_lookup_filter_Some.
Qed.

Lemma unwanted_signal h name ev : name ∉ hp_signals (present_of h) → runSignalHooks name ev h = h.
Proof. intros Hn. unfold runSignalHooks. by rewrite empty_range by by apply no_signals. Qed.

Lemma ltb_zero n : (0 <? n)%nat = false → n = 0%nat.
Proof. intros Hn. apply Nat.ltb_ge in Hn. lia. Qed.

Lemma dispatch_unwanted ev h : present_ok h → wants h ev = false → dispatch ev h = (h, (ev, true)).
Proof.
  intros Hp Hw. unfold wants in Hw. rewrite Hp in Hw.
  assert (Hsig : ∀ e, bool_decide (e ∈ hp_signals (present_of h)) = false → runSignalHooks e ev h = h).
  { intros e He. apply bool_decide_eq_false in He. by apply unwanted_signal. }
  unfold dispatch. destruct (evt_type ev) eqn:Ht;
    try (destruct (signalName ev) as [name|]; [by rewrite Hsig|done]).
  - unfold runMessageHooks. destruct (evt_message ev) as [m|] eqn:Hm; [|done].
    rewrite empty_range by by apply ltb_zero. by rewrite set_same_message.
  - apply orb_false_iff in Hw as [Hi Hb]. unfold runReplyBufferInput, runInputHooks.
    destruct (evt_message ev) as [m|] eqn:Hm; [|done]. rewrite Hb. cbn [negb]. cbv zeta.
    rewrite empty_range by by apply ltb_zero. by rewrite set_same_message.
  - apply orb_false_iff in Hw as [Hi Hs]. unfold runTopicHooks. rewrite empty_range by by apply ltb_zero.
    rewrite set_same_text. unfold signalName. rewrite Ht. by rewrite Hsig.
  - unfold runCommand. cbv zeta. cbn [present_of hp_cmd] in Hw. apply bool_decide_eq_false in Hw.
    assert (ho_cmds h = ∅) as -> by (by apply dec_stable). by rewrite lookup_empty.
Qed.

Lemma refresh_same h : present_ok h → refreshPresence h = h.
Proof. unfold present_ok, refreshPresence. destruct h. cbn. by intros ->. Qed.

(** Skipping the plugin goroutine changes nothing.  At any point of a
    host's life the summary of its hooks that the engine's loop reads is exact,
    so an event it makes [Dispatch] pass through unseen is one for which the
    full dispatch would have called nothing, changed nothing and returned the
    event as it came. *)
Theorem presence_transparent inputs ev :
  let h := reached inputs in
  ho_quit h = false → ho_down h = false →
  Dispatch ev h = job_ret (ev, true) (dispatch ev) h.
Proof.
  intros h Hq Hd. pose proof (reached_present inputs) as Hp. fold h in Hp. unfold Dispatch.
  destruct (wants h ev) eqn:Hw; [done|]. cbn [negb]. unfold job_ret. rewrite Hq, Hd. cbn [orb].
  rewrite (dispatch_unwanted ev h Hp Hw). by rewrite (refresh_same h Hp).
Qed.

(** ** Disabled scripts *)

(** What running a script could change of its record. *)
Definition record_of (x : sid) (h : host) : option script := (λ s, s <| ps_closed := false |>) <$> ho_states h !! x.

Lemma script_other x y f h : x ≠ y → record_of y (set_script x f h) = record_of y h.
Proof. intros Hn. unfold record_of, set_script. cbn. by rewrite lookup_alter_ne. Qed.

Lemma closing_record x y h : record_of y (set_script x (λ s, s <| ps_closed := true |>) h) = record_of y h.
Proof.
  unfold record_of, set_script. cbn. destruct (decide (x = y)) as [->|Hn]; [|by rewrite lookup_alter_ne].
  rewrite lookup_alter_eq. by destruct (ho_states h !! y).
Qed.

Lemma disabled_record h x : disabled h x = default false (ps_disabled <$> record_of x h).
Proof. unfold disabled, record_of. by destruct (ho_states h !! x). Qed.

(** Scripts are numbered from below. *)
Definition numbered_below (h : host) : Prop := ∀ x, is_Some (ho_states h !! x) → (x < ho_next_script h)%nat.

Lemma same_states_record h h' x : ho_states h' = ho_states h → record_of x h' = record_of x h.
Proof. unfold record_of. by intros ->. Qed.

Lemma not_running x y h : disabled h x = true → may_run false h y → y ≠ x.
Proof. intros Hd (s & Hs & _ & [|Hn]) ->; [done|]. unfold disabled in Hd. rewrite Hs in Hd. congruence. Qed.

Lemma move_idle x h h' : move false h h' → disabled h x = true → record_of x h' = record_of x h.
Proof.
  intros Hm Hd. destruct Hm as [h' Ha|y f Hr _|y Hr| |y l fn prio _|y key fn prio _|y fn d _|id y u _];
    try by apply same_states_record.
  - by apply same_states_record, Ha.
  - apply script_other. by eapply not_running.
  - apply script_other. by eapply not_running.
  - apply same_states_record. by rewrite (proj1 (add_hook_states _ _ _)).
  - apply same_states_record. exact (proj1 (run_unhook_states _ _ _)).
Qed.

Lemma unload_states name h :
  ho_states (unloadScript name h) = ho_states h ∨
  ∃ x, ho_states (unloadScript name h) = alter (λ s, s <| ps_closed := true |>) x (ho_states h).
Proof.
  destruct (ho_scripts h !! name) as [x|] eqn:Hn; [|left; unfold unloadScript; by rewrite Hn].
  right. exists x. destruct (unload_split name x h Hn) as (h1 & -> & ->). cbn. f_equal.
  apply (drop_all_keeps ho_states); [done|done|by intros []].
Qed.

Lemma prim_idle x h h' : prim false h h' → numbered_below h → disabled h x = true → record_of x h' = record_of x h.
Proof.
  intros Hp Hb Hd. destruct Hp as [h' Hm|name path|name y _|y|name|]; try by apply same_states_record.
  - by eapply move_idle.
  - unfold record_of, new_script. cbn. rewrite lookup_insert_ne; [done|]. intros He.
    unfold disabled in Hd. destruct (ho_states h !! x) as [s|] eqn:Hs; [|done].
    pose proof (Hb x ltac:(by eexists)). lia.
  - apply closing_record.
  - destruct (unload_states name h) as [He|[y He]]; [by apply same_states_record|].
    rewrite <- (closing_record y x h). unfold record_of, set_script. cbn. by rewrite He.
Qed.

Lemma script_some x f h y : is_Some (ho_states (set_script x f h) !! y) → is_Some (ho_states h !! y).
Proof. intros [s Hs]. unfold set_script in Hs. cbn in Hs. apply lookup_alter_Some in Hs as [(-> & z & Hz & _)|[_ Hs]]; by eexists. Qed.

Lemma prim_numbered b h h' : prim b h h' → numbered_below h → numbered_below h'.
Proof.
  intros Hp Hb. destruct Hp as [h' Hm|name path|name y _|y|name|]; try done.
  - destruct Hm as [h' Ha|y f Hr _|y Hr| |y l fn prio _|y key fn prio _|y fn d _|id y u _]; try done.
    + intros x. rewrite (as_states _ _ Ha), (as_next_script _ _ Ha). apply Hb.
    + intros x Hx. apply Hb. exact (script_some _ _ _ _ Hx).
    + intros x Hx. apply Hb. exact (script_some _ _ _ _ Hx).
    + intros x. rewrite (proj1 (add_hook_states _ _ _)). intros Hx. rewrite add_hook_scripts. by apply Hb.
    + intros x Hx. rewrite run_unhook_scripts. apply Hb. revert Hx.
      change (ho_states (run_unhook id u h <| ho_unhookers ::= delete id |>)) with (ho_states (run_unhook id u h)).
      by rewrite (proj1 (run_unhook_states id u h)).
  - intros x. cbn. intros Hx. destruct (decide (x = ho_next_script h)) as [->|Hn]; [lia|].
    rewrite lookup_insert_ne in Hx by done. specialize (Hb x Hx). lia.
  - intros x Hx. apply Hb. exact (script_some _ _ _ _ Hx).
  - intros x. rewrite unload_next. intros Hx. apply Hb.
    destruct (unload_states name h) as [He|[y He]]; rewrite He in Hx; [done|exact (script_some y _ h x Hx)].
Qed.
(** A script is disabled exactly once it has failed ten times. *)
Definition errors_counted (h : host) : Prop :=
  ∀ x s, ho_states h !! x = Some s → ps_disabled s = (maxScriptErrors <=? ps_errs s).

Lemma counted_alter x f h : errors_counted h →
  (∀ s, ps_disabled s = (maxScriptErrors <=? ps_errs s) → ps_disabled (f s) = (maxScriptErrors <=? ps_errs (f s))) →
  errors_counted (set_script x f h).
Proof.
  intros Hc Hf y s. unfold set_script. cbn. intros Hs. apply lookup_alter_Some in Hs as [(-> & z & Hz & ->)|[_ Hs]].
  - eauto.
  - by eapply Hc.
Qed.

Lemma error_counted x h : errors_counted h → errors_counted (scriptError x h).
Proof.
  intros Hc. apply counted_alter; [done|]. intros s Hs. cbv zeta.
  change (ps_errs (s <| ps_errs ::= Z.succ |>)) with (Z.succ (ps_errs s)).
  change (ps_disabled (s <| ps_errs ::= Z.succ |>)) with (ps_disabled s). rewrite Hs.
  destruct s as [nm pa de se L errs dis cl]. cbn in Hs |- *. unfold update. cbn. rewrite Hs. unfold maxScriptErrors.
  destruct (Z.leb_spec 10 errs), (Z.leb_spec 10 (Z.succ errs)); cbn; symmetry; (apply Z.leb_le || apply Z.leb_gt); lia.
Qed.

Lemma same_counted h h' : ho_states h' = ho_states h → errors_counted h → errors_counted h'.
Proof. unfold errors_counted. by intros ->. Qed.

Lemma prim_counted b h h' : prim b h h' → errors_counted h → errors_counted h'.
Proof.
  intros Hp Hc. destruct Hp as [h' Hm|name path|name y _|y|name|]; try by apply (same_counted h).
  - destruct Hm as [h' Ha|y f _ Hf|y Hr| |y l fn prio _|y key fn prio _|y fn d _|id y u _]; try by apply (same_counted h).
    + apply (same_counted h); [apply Ha|done].
    + apply counted_alter; [done|]. intros s Hs. destruct (Hf s) as (_ & -> & -> & _). done.
    + by apply error_counted.
    + apply (same_counted h); [|done]. by rewrite (proj1 (add_hook_states _ _ _)).
    + apply (same_counted h); [|done]. exact (proj1 (run_unhook_states _ _ _)).
  - intros x s. cbn. intros Hs. apply lookup_insert_Some in Hs as [[_ <-]|[_ Hs]]; [done|by eapply Hc].
  - by apply counted_alter.
  - destruct (unload_states name h) as [He|[y He]]; [by apply (same_counted h)|].
    apply (same_counted (set_script y (λ s, s <| ps_closed := true |>) h)); [done|by apply counted_alter].
Qed.

Lemma prims_inv (P : host → Prop) b h h' : (∀ h h', prim b h h' → P h → P h') → rtc (prim b) h h' → P h → P h'.
Proof. intros Hp. induction 1 as [|h1 h2 h3 Hm _ IH]; [done|]. intros Hh. apply IH. by eapply Hp. Qed.

(** An invariant of the moves holds wherever a host can get. *)
Lemma reached_inv (P : host → Prop) inputs : (∀ b h h', prim b h h' → P h → P h') →
  P (empty_host dir settings sandbox trusted kv http w) → P (reached inputs).
Proof.
  intros Hp H0'. unfold reached, host_run.
  assert (H1' : P (New dir settings sandbox trusted kv http w)).
  { eapply (prims_inv P false); [apply Hp|apply job_prims, load_all_prims|done]. }
  revert H1'. generalize (New dir settings sandbox trusted kv http w). induction inputs as [|i inputs IH]; intros h Hh; [done|].
  cbn [foldl]. apply IH. eapply (prims_inv P); [apply Hp|apply step_prims|done].
Qed.

Lemma idle_prims x h h' : rtc (prim false) h h' → numbered_below h → disabled h x = true →
  record_of x h' = record_of x h ∧ numbered_below h'.
Proof.
  induction 1 as [|h1 h2 h3 Hp _ IH]; intros Hb Hd; [done|].
  pose proof (prim_idle x h1 h2 Hp Hb Hd) as He. pose proof (prim_numbered _ _ _ Hp Hb) as Hb2.
  destruct (IH Hb2) as [He' Hb3]; [by rewrite disabled_record, He, <- disabled_record|]. by rewrite He', He.
Qed.

(** A script that keeps failing is left alone.  Once a script has raised ten
    errors nothing calls it any more: whatever events, timers, answers to its
    requests and management calls follow, its interpreter, its count of errors
    and its settings stay exactly as they were, until it is loaded afresh under
    a new record; the one exception is a change of one of its settings from the
    web client, which runs the setting's callback all the same. *)
Theorem disabled_stays_idle inputs more x s :
  let h := reached inputs in
  ho_states h !! x = Some s → maxScriptErrors ≤ ps_errs s →
  Forall (λ i, is_setting i = false) more →
  record_of x (host_run h more) = Some (s <| ps_closed := false |>).
Proof.
  intros h Hs He Hm.
  assert (Hc : errors_counted h) by (apply reached_inv; [intros b; apply prim_counted|intros y z Hz; destruct (lookup_empty_Some _ _ Hz)]).
  assert (Hb : numbered_below h) by (apply reached_inv; [intros b; apply prim_numbered|intros y [z Hz]; destruct (lookup_empty_Some _ _ Hz)]).
  assert (Hd : disabled h x = true).
  { unfold disabled. rewrite Hs, (Hc x s Hs). by apply Z.leb_le. }
  assert (Hr : record_of x h = Some (s <| ps_closed := false |>)) by (unfold record_of; by rewrite Hs).
  rewrite <- Hr. clear Hs He Hr Hc. clearbody h. revert h Hb Hd.
  induction Hm as [|i more Hi Hm IH]; intros h Hb Hd; [done|]. cbn [host_run foldl].
  pose proof (step_prims i h) as Hp. rewrite Hi in Hp. destruct (idle_prims x _ _ Hp Hb Hd) as [Hr Hb'].
  specialize (IH (host_step i h) Hb'). unfold host_run in IH. rewrite IH; [done|].
  by rewrite disabled_record, Hr, <- disabled_record.
Qed.
End reach.

(** A script nothing was noted about is trusted, whoever put it there: the
    callers of [trustedScriptLocked] take it for one the operator installed. *)
Lemma unmarked_trusted name h m : ho_kv h !! name = Some m → m !! "_source_url"%string = None → m !! "_source_type"%string = None →
  trustedScriptLocked name h = (h, true).
Proof.
  intros Hc Hu Ht. assert (Hkv : ∀ key, kvGet name key h = (h, m !! key)) by (intros key; unfold kvGet, kvCache; by rewrite Hc).
  unfold trustedScriptLocked, getScriptMetaLocked. rewrite !Hkv, Hu, Ht. unfold isExactCuratedSource.
  destruct (curatedPlugin name) as [c|]; [|done]. cbn. by rewrite String.eqb_refl.
Qed.
End thms.

(** ** On a small runtime *)

#[local] Existing Instance ascii_tables.
#[local] Existing Instance toy_types.
#[local] Existing Instance toy_rt.
#[local] Existing Instance toy_cipher.

(** A file that hooks messages twice, the second hook before the first. *)
Definition two_hooks : lua_run :=
  LCall "hook_message" [LFun (1%nat : lfn)] (λ _,
    LCall "hook_message" [LFun (2%nat : lfn); str_table [("priority", LNum (5 : lnum))]] (λ _, LDone (0 : lstate) LNil)).

Definition two_dir : list (string * lua_run) := [("two.lua", two_hooks)].

(** Closures that say who they are. *)
Definition sayers (fn : nat) (args : list lval) (L : Z) : lua_run :=
  LCall "send" [LStr "net"; LStr (itoa (Z.of_nat fn))] (λ _, LDone (L : lstate) (LBool true)).

(** Closures that fail. *)
Definition failing (fn : nat) (args : list lval) (L : Z) : lua_run := LError (L : lstate) "boom".

Definition sample_msg : message := new_message "net" "#go" 0 "ann" MsgPrivmsg "hi".

Lemma hooks_run_in_order_witness :
  let h := toy_host two_dir sayers [] in
  StronglySorted hook_lt (hooks_of HMsg h) ∧ length (hooks_of HMsg h) = 2%nat ∧
  ho_world (range_list message_body HMsg sample_msg h).1 = [ApiSend "net" "2"; ApiSend "net" "1"] ∧
  range_list message_body HMsg sample_msg h = chain message_body (hooks_of HMsg h) sample_msg h.
Proof.
  cbv zeta.
  destruct (hooks_run_in_order (H3 := toy_env two_dir sayers) "scripts" ∅ true false false false [] [] HMsg message_body
              sample_msg) as [Hs Hc].
  - apply bodies_call.
  - intros hk _ args L. split; [unfold hook_calls; set_solver|done].
  - split; [exact Hs|]. split; [vm_compute; reflexivity|]. split; [vm_compute; reflexivity|]. exact Hc.
Defined.

Lemma presence_transparent_witness :
  let h := reached (H3 := toy_env two_dir sayers) "scripts" ∅ true false false false [] [] in
  Dispatch (toy_message "hi") h = job_ret (toy_message "hi", true) (dispatch (toy_message "hi")) h.
Proof.
  exact (presence_transparent (H3 := toy_env two_dir sayers) "scripts" ∅ true false false false [] [] (toy_message "hi")
           ltac:(vm_compute; reflexivity) ltac:(vm_compute; reflexivity)).
Defined.

Lemma disabled_stays_idle_witness :
  let h := reached (H3 := toy_env two_dir failing) "scripts" ∅ true false false false []
             (replicate 5 (JDispatch (toy_message "hi"))) in
  ∃ s, ho_states h !! 0%nat = Some s ∧ maxScriptErrors ≤ ps_errs s ∧
    record_of 0%nat (host_run h [JDispatch (toy_message "hi")]) = Some (s <| ps_closed := false |>).
Proof.
  cbv zeta. eexists. split; [vm_compute; reflexivity|]. split; [vm_compute; discriminate|].
  apply (disabled_stays_idle (H3 := toy_env two_dir failing) "scripts" ∅ true false false false []
           (replicate 5 (JDispatch (toy_message "hi")))).
  - vm_compute. reflexivity.
  - vm_compute. discriminate.
  - repeat constructor.
Defined.
