(* ===== verification/PlugLive.v ===== *)
(** * Hosts that only lead to open interpreters

    A host is live when every hook in an array of a list, every command and
    every name leads to a script whose interpreter is open.  Running code keeps
    it live, and keeps what a loop over a list relies on while the hooks it
    calls change that list. *)

From Stdlib Require Import ZArith Lia Ascii Bool.
From stdpp Require Import base tactics list gmap strings relations sorting.
From S2P Require Import Prelude GoStrings GoNet CoreTypes CoreEvent CoreEngine PlugLua PlugHost PlugBind PlugRun PlugPrim PlugHeap PlugThms.

#[local] Open Scope Z_scope.

Section live.
Context `{UnicodeTables, LuaTypes, !LuaRT, !Blowfish, !HostEnv}.

(** ** What an array holds *)

Definition all_in (Q : hook → Prop) (a : nat) (h : host) : Prop := ∀ hk, Some hk ∈ array_of h a → Q hk.

(** Arrays keep their hooks' slots filled and get at most new hooks of [P]. *)
Record grows (P : hook → Prop) (h h' : host) : Prop := {
  gr_next : (ho_next_array h ≤ ho_next_array h')%nat;
  gr_slot : ∀ a i, (a < ho_next_array h)%nat → is_Some (slot h a i) → is_Some (slot h' a i);
  gr_all : ∀ Q a, (∀ hk, P hk → Q hk) → (a < ho_next_array h)%nat → all_in Q a h → all_in Q a h';
}.

Lemma arrays_grow P h h' : ho_arrays h' = ho_arrays h → ho_next_array h' = ho_next_array h → grows P h h'.
Proof.
  intros Ha Hn. assert (Hs : ∀ a, array_of h' a = array_of h a) by (intros a; unfold array_of; by rewrite Ha).
  split; [lia| |].
  - intros a i _. unfold slot. by rewrite Hs.
  - intros Q a _ _. unfold all_in. by rewrite Hs.
Qed.

Lemma grows_trans P h1 h2 h3 : grows P h1 h2 → grows P h2 h3 → grows P h1 h3.
Proof.
  intros [N1 S1 A1] [N2 S2 A2]. split; [lia| |].
  - intros a i Ha Hi. apply S2; [lia|]. by apply S1.
  - intros Q a HQ Ha Hq. apply A2; [done|lia|]. by apply A1.
Qed.

Lemma grows_weaken (P P' : hook → Prop) h h' : (∀ hk, P hk → P' hk) → grows P h h' → grows P' h h'.
Proof. intros Hp [N S A]. split; [done|done|]. intros Q a HQ. apply A. auto. Qed.

(** Only one array was written. *)
Lemma grows_array P a l h : (∀ i, is_Some (slot h a i) → is_Some (l !! i ≫= id)) →
  (∀ hk, Some hk ∈ l → P hk ∨ Some hk ∈ array_of h a) → grows P h (set_array a l h).
Proof.
  intros Hs Hp. split; [done| |].
  - intros b i _ Hi. unfold slot. destruct (decide (a = b)) as [->|Hn].
    + rewrite array_set. by apply Hs.
    + by rewrite array_set_ne.
  - intros Q b HQ _ Hq hk. destruct (decide (a = b)) as [->|Hn].
    + rewrite array_set. intros Hin. destruct (Hp hk Hin); [auto|by apply Hq].
    + rewrite array_set_ne by done. apply Hq.
Qed.

Lemma append_grows x s h xs : holds h s xs → grows (λ y, y = x) h (append_hook x s h).1.
Proof.
  intros [Hv Hl Hc Ha]. unfold append_hook. destruct (Nat.ltb_spec (sl_len s) (sl_cap s)) as [Hlt|Hge]; cbn [fst].
  - apply grows_array.
    + intros i Hi. unfold slot in Hi. destruct (decide (i = sl_len s)) as [->|Hn].
      * rewrite list_lookup_insert_eq by (destruct Ha; lia). by eexists.
      * by rewrite list_lookup_insert_ne.
    + intros hk Hin. apply list_elem_of_lookup in Hin as [i Hi]. destruct (decide (i = sl_len s)) as [->|Hn].
      * rewrite list_lookup_insert_eq in Hi by (destruct Ha; lia). left. congruence.
      * rewrite list_lookup_insert_ne in Hi by done. right. by eapply list_elem_of_lookup_2.
  - split; [cbn; lia| |].
    + intros a i Hlt Hi. unfold slot. rewrite array_next, array_set_ne by lia. exact Hi.
    + intros Q a _ Hlt Hq hk. rewrite array_next, array_set_ne by lia. apply Hq.
Qed.

Lemma append_own x s h xs (Q : hook → Prop) : holds h s xs → Q x → ((0 < sl_cap s)%nat → all_in Q (sl_arr s) h) →
  all_in Q (sl_arr (append_hook x s h).2) (append_hook x s h).1.
Proof.
  intros [Hv Hl Hc Ha] Hx Hq. unfold append_hook. destruct (Nat.ltb_spec (sl_len s) (sl_cap s)) as [Hlt|Hge]; cbn [fst snd].
  - change (sl_arr (s <| sl_len ::= S |>)) with (sl_arr s). intros hk. rewrite array_set. intros Hin.
    apply list_elem_of_lookup in Hin as [i Hi]. destruct (decide (i = sl_len s)) as [->|Hn].
    + rewrite list_lookup_insert_eq in Hi by (destruct Ha; lia). congruence.
    + rewrite list_lookup_insert_ne in Hi by done. apply Hq; [lia|]. by eapply list_elem_of_lookup_2.
  - cbn [sl_arr]. intros hk. rewrite array_next, array_set, !elem_of_app. intros [Hin|[Hin|Hin]].
    + assert (0 < sl_cap s)%nat as Hp.
      { destruct (decide (sl_cap s = 0)%nat) as [Hz|]; [|lia]. assert (sl_len s = 0)%nat as Hz' by lia.
        rewrite Hz', take_0 in Hin. by apply not_elem_of_nil in Hin. }
      apply (Hq Hp). apply elem_of_take in Hin as (i & Hi & _). by eapply list_elem_of_lookup_2.
    + apply list_elem_of_singleton in Hin. congruence.
    + apply elem_of_replicate in Hin as [Hin _]. done.
Qed.

Lemma sort_grows s h xs : holds h s xs → grows (λ _, False) h (sortHooks s h).
Proof.
  intros Hh. destruct (sort_holds s h xs Hh) as [[Hv' Hl' _ _] _]. unfold sortHooks in *. destruct Hh as [Hv Hl Hc Ha].
  set (l := array_of h (sl_arr s)) in *. apply grows_array.
  - intros i Hi. destruct (decide (i < sl_len s)%nat) as [Hlt|Hge].
    + rewrite array_set in Hv'. rewrite <- (lookup_take_lt _ (sl_len s)) by done. rewrite Hv', list_lookup_fmap.
      destruct (sort_stable hk_prio xs !! i) as [y|] eqn:Hy; [by eexists|].
      apply lookup_ge_None in Hy. rewrite Hl' in Hy. lia.
    + unfold slot in Hi. fold l in Hi. rewrite lookup_app_r.
      * rewrite (Permutation_length (sort_stable_perm _ _)). rewrite lookup_drop.
        destruct (decide (length l ≤ sl_len s)%nat).
        { rewrite (lookup_ge_None_2 l i) in Hi by lia. by destruct Hi. }
        rewrite length_take, Nat.min_l by lia. by replace (sl_len s + (i - sl_len s))%nat with i by lia.
      * rewrite (Permutation_length (sort_stable_perm _ _)), length_take. lia.
  - intros hk Hin. right. apply elem_of_app in Hin as [Hin|Hin].
    + rewrite (sort_stable_perm slot_prio) in Hin. apply elem_of_take in Hin as (i & Hi & _). by eapply list_elem_of_lookup_2.
    + apply list_elem_of_lookup in Hin as [i Hi]. rewrite lookup_drop in Hi. by eapply list_elem_of_lookup_2.
Qed.

Lemma remove_grows id s h xs : holds h s xs → grows (λ _, False) h (removeHook id s h).1.
Proof.
  intros Hh. pose proof (remove_holds id s h xs Hh) as Hr.
  unfold removeHook in *. destruct (hook_index id s h) as [i0|] eqn:Hi0; [|by apply arrays_grow].
  destruct Hr as [[Hv' Hl' _ _] _]. cbn [fst]. destruct Hh as [Hv Hl Hc Ha]. set (l := array_of h (sl_arr s)) in *.
  change (sl_arr (s <| sl_len ::= pred |>)) with (sl_arr s) in *. change (sl_len (s <| sl_len ::= pred |>)) with (pred (sl_len s)) in *.
  rewrite array_set in Hv'. assert (Hi0' : (i0 < sl_len s)%nat).
  { unfold hook_index in Hi0. destruct (list_find _ _) as [[j o]|] eqn:Hf; [|done]. injection Hi0 as ->.
    apply list_find_Some in Hf as (Hf & _). apply lookup_lt_Some in Hf. rewrite length_take in Hf. lia. }
  assert (Hll : (sl_len s ≤ length l)%nat).
  { apply (f_equal length) in Hv. rewrite length_take, length_fmap in Hv. lia. }
  apply grows_array.
  - intros i Hi. destruct (decide (i < pred (sl_len s))%nat) as [Hlt|Hge].
    + rewrite <- (lookup_take_lt _ (pred (sl_len s))) by done. rewrite Hv', list_lookup_fmap.
      destruct (remove_hook id xs !! i) as [y|] eqn:Hy; [by eexists|]. apply lookup_ge_None in Hy. lia.
    + unfold slot in Hi. fold l in Hi. rewrite app_assoc, lookup_app_r.
      * rewrite lookup_drop, length_app, !length_take, length_drop.
        replace (sl_len s - 1 + (i - (i0 `min` length l + (sl_len s - S i0) `min` (length l - S i0))))%nat with i by lia. done.
      * rewrite length_app, !length_take, length_drop. lia.
  - intros hk Hin. right. rewrite !elem_of_app in Hin. destruct Hin as [Hin|[Hin|Hin]].
    + apply elem_of_take in Hin as (i & Hi & _). by eapply list_elem_of_lookup_2.
    + apply elem_of_take in Hin as (i & Hi & _). rewrite lookup_drop in Hi. by eapply list_elem_of_lookup_2.
    + apply list_elem_of_lookup in Hin as [i Hi]. rewrite lookup_drop in Hi. by eapply list_elem_of_lookup_2.
Qed.
(** ** Live hosts *)

Definition open (h : host) : sid → Prop := may_run true h.

Definition open_hook (h : host) (hk : hook) : Prop := open h (hk_script hk).

(** Every hook, command and name leads to a script whose interpreter is open. *)
Record live (h : host) : Prop := {
  lv_heap : heap_ok h;
  lv_arrays : ∀ l, (0 < sl_cap (get_list l h))%nat → all_in (open_hook h) (sl_arr (get_list l h)) h;
  lv_cmds : ∀ key hk, ho_cmds h !! key = Some hk → open_hook h hk;
  lv_scripts : ∀ n x, ho_scripts h !! n = Some x → open h x ∧ name_of h x = n;
  lv_numbered : numbered_below h;
}.

(** What a loop that is under way may rely on. *)
Record extends (h h' : host) : Prop := {
  ex_open : ∀ x, open h x → open h' x ∧ name_of h' x = name_of h x;
  ex_next : (ho_next_array h ≤ ho_next_array h')%nat;
  ex_slot : ∀ a i, (a < ho_next_array h)%nat → is_Some (slot h a i) → is_Some (slot h' a i);
  ex_arrays : ∀ a, (a < ho_next_array h)%nat → all_in (open_hook h) a h → all_in (open_hook h') a h';
}.

Lemma extends_refl h : extends h h.
Proof. by split. Qed.

Lemma extends_trans h1 h2 h3 : extends h1 h2 → extends h2 h3 → extends h1 h3.
Proof.
  intros [O1 N1 S1 A1] [O2 N2 S2 A2]. split; [|lia| |].
  - intros x Hx. destruct (O1 x Hx) as [Hx1 E1]. destruct (O2 x Hx1) as [Hx2 E2]. split; [done|congruence].
  - intros a i Ha Hi. apply S2; [lia|auto].
  - intros a Ha Hi. apply A2; [lia|auto].
Qed.

(** Scripts keep their records, up to what does not matter here. *)
Definition same_open (h h' : host) : Prop := ∀ x, open h x → open h' x ∧ name_of h' x = name_of h x.

Lemma states_open h h' : ho_states h' = ho_states h → same_open h h'.
Proof. intros He x. unfold open, may_run, name_of. by rewrite He. Qed.

Lemma own_open y f h : (∀ s, ps_name (f s) = ps_name s ∧ ps_closed (f s) = ps_closed s) → same_open h (set_script y f h).
Proof.
  intros Hf x (s & Hs & Hc & _). unfold open, may_run, name_of, set_script. cbn. rewrite Hs.
  destruct (decide (y = x)) as [->|Hn].
  - rewrite lookup_alter_eq, Hs. cbn. destruct (Hf s) as [-> Hc']. split; [|done]. exists (f s).
    split; [done|]. split; [congruence|by left].
  - rewrite lookup_alter_ne, Hs by done. split; [|done]. exists s. by split; [|split; [|left]].
Qed.

Lemma all_in_open a h h' : same_open h h' → all_in (open_hook h) a h → array_of h' a = array_of h a → all_in (open_hook h') a h'.
Proof. intros Ho Ha He hk. rewrite He. intros Hin. by apply Ho, Ha. Qed.

(** A change that leaves lists, commands and names as they are. *)
Lemma live_same h h' : live h → heap_ok h' → same_open h h' → ho_arrays h' = ho_arrays h → ho_next_array h' = ho_next_array h →
  (∀ l, get_list l h' = get_list l h) → ho_cmds h' = ho_cmds h → ho_scripts h' = ho_scripts h → numbered_below h' →
  live h' ∧ extends h h'.
Proof.
  intros [L1 L2 L3 L4 L5] Hh Ho Ha Hn Hg Hc Hs Hb.
  assert (He : ∀ a, array_of h' a = array_of h a) by (intros a; unfold array_of; by rewrite Ha).
  split.
  - split; [done| | | |done].
    + intros l. rewrite Hg. intros Hp. by apply (all_in_open _ h); [|apply L2|].
    + intros key hk. rewrite Hc. intros Hk. by apply Ho, (L3 key).
    + intros n x. rewrite Hs. intros Hx. destruct (L4 n x Hx) as [Hx1 Hx2]. destruct (Ho x Hx1) as [Hx3 Hx4].
      split; [done|congruence].
  - split; [done|lia| |].
    + intros a i _. unfold slot. by rewrite He.
    + intros a _ Hq. by apply (all_in_open _ h).
Qed.

(** One list changed by way of its array. *)
Lemma live_list l h h' (P : hook → Prop) : live h → heap_ok h' → ho_states h' = ho_states h → grows P h h' →
  (∀ hk, P hk → open_hook h hk) →
  ((0 < sl_cap (get_list l h'))%nat → all_in (open_hook h) (sl_arr (get_list l h')) h') →
  (∀ l', l' ≠ l → get_list l' h' = get_list l' h) → ho_cmds h' = ho_cmds h → ho_scripts h' = ho_scripts h →
  ho_next_script h' = ho_next_script h → live h' ∧ extends h h'.
Proof.
  intros [L1 L2 L3 L4 L5] Hh Hst [G1 G2 G3] HP Hl Hg Hc Hs Hn.
  assert (Ho : ∀ x, open h' x ↔ open h x) by (intros x; unfold open, may_run; by rewrite Hst).
  assert (Hq : ∀ a, all_in (open_hook h) a h' → all_in (open_hook h') a h') by (intros a Ha hk Hin; by apply Ho, Ha).
  split.
  - split; [done| | | |].
    + intros l' Hp. apply Hq. destruct (decide (l' = l)) as [->|Hne]; [by apply Hl|].
      rewrite (Hg l' Hne) in Hp |- *. apply G3; [done| |by apply L2].
      apply (hs_arr _ _ _ (lo_holds h (hp_lists h L1) l') Hp).
    + intros key hk. rewrite Hc. intros Hk. by apply Ho, (L3 key).
    + intros n x. rewrite Hs. intros Hx. unfold name_of. rewrite Hst, Ho. by apply L4.
    + intros x. rewrite Hst, Hn. apply L5.
  - split; [by apply states_open|done|done|]. intros a Ha Hin. apply Hq, G3; [done|done|done].
Qed.

Lemma grows_put P l s h h' : grows P h h' → grows P h (put_list l s h').
Proof.
  intros [N S A]. split; [by rewrite next_put| |].
  - intros a i Ha Hi. unfold slot. rewrite array_put. by apply S.
  - intros Q a HQ Ha Hq hk. rewrite array_put. by apply A.
Qed.

Lemma add_hook_fields l hk h : ho_cmds (add_hook l hk h) = ho_cmds h ∧ ho_scripts (add_hook l hk h) = ho_scripts h.
Proof.
  assert (Ha : ∀ s, ho_cmds (append_hook hk s h).1 = ho_cmds h ∧ ho_scripts (append_hook hk s h).1 = ho_scripts h)
    by (intros s; unfold append_hook; by case_match).
  unfold add_hook. destruct (Ha (get_list l h)) as [Hb Hc]. destruct (append_hook hk _ h) as [h1 s]. cbn [fst] in Hb, Hc.
  unfold sortHooks, set_array. cbn. rewrite <- Hb, <- Hc. by destruct l.
Qed.

(** What [add_hook] does, in its two steps. *)
Lemma add_hook_grows l hk h (Q : hook → Prop) : lists_ok h → Q hk →
  ((0 < sl_cap (get_list l h))%nat → all_in Q (sl_arr (get_list l h)) h) →
  grows (λ y, y = hk) h (add_hook l hk h) ∧ all_in Q (sl_arr (get_list l (add_hook l hk h))) (add_hook l hk h) ∧
  (∀ l', l' ≠ l → get_list l' (add_hook l hk h) = get_list l' h).
Proof.
  intros Hok HQ Hq. pose proof (lo_holds h Hok l) as Hh. unfold add_hook.
  pose proof (append_grows hk (get_list l h) h _ Hh) as Hg. pose proof (append_own hk (get_list l h) h _ Q Hh HQ Hq) as Ho.
  pose proof (append_holds hk (get_list l h) h _ Hh) as Hp. pose proof (append_lists hk (get_list l h) h) as Hl.
  destruct (append_hook hk (get_list l h) h) as [h1 s]. cbn [fst snd] in *. destruct Hp as [Hp Ht].
  pose proof (holds_put l s h1 s _ Hp) as Hp2. pose proof (grows_put _ l s _ _ Hg) as Hg2. set (h2 := put_list l s h1) in *.
  pose proof (sort_grows s h2 _ Hp2) as Hs. destruct (sort_holds s h2 _ Hp2) as [Hp3 _]. set (h3 := sortHooks s h2) in *.
  split; [|split].
  - eapply grows_trans; [exact Hg2|]. eapply grows_trans; [eapply grows_weaken; [|exact Hs]; done|]. by apply arrays_grow.
  - assert (get_list l (h3 <| ho_unhookers ::= <[hk_id hk := (hk_script hk, UnList l)]> |>) = s) as ->.
    { transitivity (get_list l h3); [by destruct l|]. unfold h3. rewrite sort_lists. apply get_put. }
    change (all_in Q (sl_arr s) h3). assert (Ho2 : all_in Q (sl_arr s) h2) by (intros y; unfold h2; rewrite array_put; apply Ho).
    destruct (decide (sl_cap s = 0)%nat) as [Hz|Hz].
    + exfalso. pose proof (hs_cap _ _ _ Hp). pose proof (hs_len _ _ _ Hp) as Hlen. rewrite length_app in Hlen. cbn in Hlen. lia.
    + apply (gr_all _ _ _ Hs); [done| |done]. apply (hs_arr _ _ _ Hp2). lia.
  - intros l' Hn. transitivity (get_list l' h3); [by destruct l'|]. unfold h3. rewrite sort_lists. unfold h2.
    rewrite get_put_ne by done. apply Hl.
Qed.

Lemma unhook_list_grows l id h (Q : hook → Prop) : lists_ok h →
  ((0 < sl_cap (get_list l h))%nat → all_in Q (sl_arr (get_list l h)) h) →
  let h' := run_unhook id (UnList l) h in
  grows (λ _, False) h h' ∧ ((0 < sl_cap (get_list l h'))%nat → all_in Q (sl_arr (get_list l h')) h') ∧
  (∀ l', l' ≠ l → get_list l' h' = get_list l' h) ∧ ho_cmds h' = ho_cmds h ∧ ho_scripts h' = ho_scripts h.
Proof.
  intros Hok Hq. pose proof (lo_holds h Hok l) as Hh. cbn [run_unhook].
  pose proof (remove_grows id (get_list l h) h _ Hh) as Hg. pose proof (remove_lists id (get_list l h) h) as Hl.
  assert (Hf : (removeHook id (get_list l h) h).2 = get_list l h ∨
               (removeHook id (get_list l h) h).2 = get_list l h <| sl_len ::= pred |>).
  { unfold removeHook. destruct (hook_index _ _ _); [by right|by left]. }
  assert (Hs : ho_cmds (removeHook id (get_list l h) h).1 = ho_cmds h ∧ ho_scripts (removeHook id (get_list l h) h).1 = ho_scripts h).
  { unfold removeHook. by case_match. }
  destruct (removeHook id (get_list l h) h) as [h1 s]. cbn [fst snd] in *. cbv zeta.
  pose proof (grows_put _ l s _ _ Hg) as Hg2.
  split; [done|]. split; [|split; [|split]].
  - rewrite get_put. intros Hc. assert (sl_arr s = sl_arr (get_list l h) ∧ sl_cap s = sl_cap (get_list l h)) as [Ha Hc'] by (by destruct Hf as [->| ->]).
    rewrite Hc' in Hc. rewrite Ha. apply (gr_all _ _ _ Hg2); [done| |by apply Hq]. by apply (hs_arr _ _ _ Hh).
  - intros l' Hn. rewrite get_put_ne by done. apply Hl.
  - rewrite <- (proj1 Hs). by destruct l.
  - rewrite <- (proj2 Hs). by destruct l.
Qed.

Lemma live_fields h h' : live h → heap_ok h' → ho_states h' = ho_states h → ho_arrays h' = ho_arrays h →
  ho_next_array h' = ho_next_array h → (∀ l, get_list l h' = get_list l h) → ho_scripts h' = ho_scripts h →
  ho_next_script h' = ho_next_script h →
  (∀ key hk, ho_cmds h' !! key = Some hk → open_hook h hk) → live h' ∧ extends h h'.
Proof.
  intros Hl Hh Hst Ha Hn Hg Hs Hx Hc. destruct (live_same h (h' <| ho_cmds := ho_cmds h |>)) as [[L1 L2 L3 L4 L5] [E1 E2 E3 E4]];
    [done| |by apply states_open|done|done|by intros l; rewrite <- Hg; destruct l|done|done| |].
  - apply (heap_same h'); [done|done|by intros []|cbn; lia|done].
  - intros x. cbn. rewrite Hst, Hx. apply Hl.
  - split; [|by split]. split; [done| | |done|done].
    + intros l Hp. specialize (L2 l). destruct l; apply L2, Hp.
    + intros key hk Hk. apply (states_open h h' Hst). by eapply Hc.
Qed.

Lemma id_live h : live h → live (newID h).1 ∧ extends h (newID h).1.
Proof.
  intros Hl. assert (Hm : move true h (newID h).1) by constructor.
  pose proof (prim_numbered true h _ (PMove true h _ Hm) (lv_numbered h Hl)).
  apply live_same; try done. exact (move_heap true h _ Hm (lv_heap h Hl)).
Qed.

(** Every move of running code keeps a host live and what a loop relies on. *)
Lemma move_live b h h' : move b h h' → live h → live h' ∧ extends h h'.
Proof.
  intros Hm Hl. pose proof (move_heap b h h' Hm (lv_heap h Hl)) as Hh.
  pose proof (prim_numbered b h h' (PMove b h h' Hm) (lv_numbered h Hl)) as Hn.
  destruct Hm as [h' Ha|y f Hr Hf|y Hr| |y l fn prio Hr|y key fn prio Hr|y fn d Hr|id y u Hu].
  - destruct Ha. apply live_same; try done. by apply states_open.
  - apply live_same; try done. apply own_open. intros s. destruct (Hf s) as (-> & _ & _ & ->). done.
  - apply live_same; try done. apply own_open. intros s. cbv zeta. by destruct (_ && _).
  - by apply id_live.
  - set (hk := fresh_hook y fn prio h) in *. set (h0 := (newID h).1) in *.
    assert (Hl0 : live h0) by by apply id_live.
    assert (Ho : open_hook h hk) by (destruct Hr as (s & Hs & Hc & _); exists s; split; [done|]; split; [done|by left]).
    destruct (add_hook_grows l hk h0 (open_hook h) (hp_lists h0 (lv_heap h0 Hl0)) Ho) as (G1 & G2 & G3).
    { intros Hp. exact (lv_arrays h0 Hl0 l Hp). }
    destruct (add_hook_fields l hk h0) as [F1 F2].
    apply (live_list l h _ (λ y, y = hk)); [done|done|exact (proj1 (add_hook_states l hk h0))|by destruct G1 as [N S A]; split|by intros ? ->|by intros _|done|done|done|exact (add_hook_scripts l hk h0)].
  - apply live_fields; try done. intros k hk. cbn. intros Hk.
    apply lookup_insert_Some in Hk as [[_ <-]|[_ Hk]]; [|by eapply lv_cmds].
    destruct Hr as (s & Hs & Hc & _). exists s. by split; [|split; [|left]].
  - by apply live_same.
  - destruct u as [l|key|].
    + destruct (unhook_list_grows l id h (open_hook h) (hp_lists h (lv_heap h Hl)) (lv_arrays h Hl l)) as (G1 & G2 & G3 & F1 & F2).
      apply (live_list l h _ (λ _, False)); [done|done|exact (proj1 (run_unhook_states id (UnList l) h))| |done| | |done|done|].
      * destruct G1 as [N S A]. by split.
      * intros Hp hk Hin. destruct l; by apply G2.
      * intros l' Hne. rewrite <- (G3 l' Hne). by destruct l'.
      * apply run_unhook_scripts.
    + apply live_fields; try done.
      * exact (proj1 (run_unhook_states id (UnCommand key) h)).
      * cbn [run_unhook]. by repeat case_match.
      * cbn [run_unhook]. by repeat case_match.
      * intros l. cbn [run_unhook]. repeat case_match; by destruct l.
      * cbn [run_unhook]. by repeat case_match.
      * apply run_unhook_scripts.
      * intros k hk. cbn [run_unhook]. intros Hk. apply (lv_cmds h Hl k). revert Hk. repeat case_match; try done.
        change (_ <| ho_cmds ::= delete key |> <| ho_unhookers ::= _ |>) with
          (h <| ho_cmds ::= delete key |> <| ho_unhookers ::= delete id |>). cbn. intros Hk.
        by apply lookup_delete_Some in Hk as [_ Hk].
    + by apply live_same.
Qed.

Lemma moves_live b h h' : rtc (move b) h h' → live h → live h' ∧ extends h h'.
Proof.
  induction 1 as [|h1 h2 h3 Hm _ IH]; intros Hl; [by split; [|apply extends_refl]|].
  destruct (move_live b h1 h2 Hm Hl) as [Hl2 He]. destruct (IH Hl2) as [Hl3 He']. split; [done|by eapply extends_trans].
Qed.

(** A call of an open script never panics. *)
Definition fine (h : host) : Prop := live h ∧ ho_down h = false.

Lemma call_fine x fn args h : fine h → open h x → fine (call x fn args h).1 ∧ extends h (call x fn args h).1.
Proof.
  intros [Hl Hd] Ho. destruct (call_moves true x fn args h Ho) as [Hm Hdn].
  destruct (moves_live true h _ Hm Hl) as [Hl' He]. split; [|done]. split; [done|congruence].
Qed.

Lemma aside_fine h h' : aside h h' → fine h → fine h' ∧ extends h h'.
Proof.
  intros Ha [Hl Hd]. destruct (move_live true h h' (MAside true h h' Ha) Hl) as [Hl' He]. split; [|done].
  split; [done|]. by rewrite (as_down _ _ Ha).
Qed.

(** The loop: the slots of the array it walks stay filled with hooks of open
    scripts, whatever the hooks do to the list. *)
Lemma range_fine {A} (body : hook → A → host → host * (bool * A)) a n : calls_hook body →
  ∀ i acc h, fine h → (a < ho_next_array h)%nat → all_in (open_hook h) a h →
    (∀ j, (i ≤ j < i + n)%nat → is_Some (slot h a j)) →
    fine (range_hooks body a i n acc h).1 ∧ extends h (range_hooks body a i n acc h).1.
Proof.
  intros Hb. induction n as [|n IH]; intros i acc h Hf Ha Hin Hs; [by split; [|apply extends_refl]|]. cbn [range_hooks].
  destruct (Hs i ltac:(lia)) as [hk Hk]. rewrite Hk.
  destruct (disabled h (hk_script hk)); [apply IH; [done|done|done|]; intros j Hj; apply Hs; lia|].
  destruct (Hb hk acc h) as (args & k & ->).
  assert (Ho : open h (hk_script hk)).
  { apply Hin. unfold slot in Hk. destruct (array_of h a !! i) as [o|] eqn:He; [|done]. cbn in Hk. subst o.
    by eapply list_elem_of_lookup_2. }
  destruct (call_fine (hk_script hk) (hk_fn hk) args h Hf Ho) as [Hf1 He1].
  destruct (call _ _ args h) as [h1 ret]. cbn [fst] in *. destruct (k ret) as [go acc1]. case_match; [|done].
  destruct (IH (S i) acc1 h1) as [Hf2 He2]; [done|pose proof (ex_next _ _ He1); lia|by apply (ex_arrays _ _ He1)| |].
  { intros j Hj. apply (ex_slot _ _ He1); [done|]. apply Hs. lia. }
  split; [done|by eapply extends_trans].
Qed.

Lemma range_list_fine {A} (body : hook → A → host → host * (bool * A)) l acc h : calls_hook body → fine h →
  fine (range_list body l acc h).1.
Proof.
  intros Hb Hf. unfold range_list. pose proof Hf as [Hl _]. pose proof (lo_holds h (hp_lists h (lv_heap h Hl)) l) as [Hv Hlen Hc Ha].
  destruct (decide (sl_cap (get_list l h) = 0)%nat) as [Hz|Hz].
  { assert (sl_len (get_list l h) = 0)%nat as -> by lia. done. }
  destruct Ha as [_ Ha]; [lia|]. apply range_fine; [done|done|done|apply Hl; lia|].
  intros j Hj. unfold slot. rewrite <- (lookup_take_lt _ (sl_len (get_list l h))) by lia. rewrite Hv, list_lookup_fmap.
  destruct (hooks_of l h !! j) as [y|] eqn:Hy; [by eexists|]. apply lookup_ge_None in Hy. lia.
Qed.
End live.
