(* ===== verification/PlugSafe.v ===== *)
(** * No plugin takes the daemon down

    Calling into a closed interpreter panics outside the protected call and ends
    the process.  [no_panic] shows that no event, timer, answer or management
    call ever does, whatever the scripts register, remove and fail at while a
    list is being walked, as long as every file that is loaded runs to its end;
    [failed_load_panics] that a file which registers a hook and then fails
    leaves the hook behind, and the next event ends the daemon. *)

From Stdlib Require Import ZArith Lia Ascii Bool.
From stdpp Require Import base tactics list gmap strings relations sorting.
From S2P Require Import Prelude GoStrings GoNet CoreTypes CoreEvent CoreEngine PlugLua PlugHost PlugBind PlugRun PlugPrim PlugHeap PlugThms PlugLive PlugToy.

#[local] Open Scope Z_scope.

Section safe.
Context `{UnicodeTables, LuaTypes, !LuaRT, !Blowfish, !HostEnv}.

(** ** Unloading a script *)

Definition arrays_in (Q : hook → Prop) (l : hook_list) (h : host) : Prop :=
  (0 < sl_cap (get_list l h))%nat → all_in Q (sl_arr (get_list l h)) h.

Definition kept (x : sid) (Q : hook → Prop) (hk : hook) : Prop := Q hk ∧ hk_script hk ≠ x.

Lemma drop_loop_in x Q xs : ∀ h k ys, holds h k ys → Forall Q xs → ((0 < sl_cap k)%nat → all_in (kept x Q) (sl_arr k) h) →
  let '(h', s') := foldl (λ '(h, kept) o, match o with
                                          | Some hk => if Nat.eqb (hk_script hk) x then (h, kept) else append_hook hk kept h
                                          | None => (h, kept)
                                          end) (h, k) (Some <$> xs) in
  (0 < sl_cap s')%nat → all_in (kept x Q) (sl_arr s') h'.
Proof.
  induction xs as [|hk xs IH]; intros h k ys Hh HQ Hk; cbn [fmap list_fmap foldl]; [done|].
  apply Forall_cons in HQ as [Hq HQ]. destruct (Nat.eqb_spec (hk_script hk) x) as [He|Hn]; [by apply (IH h k ys)|].
  pose proof (append_holds hk k h ys Hh) as Hp. pose proof (append_own hk k h ys (kept x Q) Hh) as Ho.
  destruct (append_hook hk k h) as [h1 s1]. destruct Hp as [Hp _]. apply (IH h1 s1 (ys ++ [hk])); [done|done|].
  intros _. by apply Ho.
Qed.

Lemma drop_list_in x Q l h : lists_ok h → (∀ l', arrays_in Q l' h) →
  arrays_in (kept x Q) l (drop_list x l h) ∧
  (∀ l' P, l' ≠ l → arrays_in P l' h → arrays_in P l' (drop_list x l h)).
Proof.
  intros Hok HQ. unfold drop_list. pose proof (lo_holds h Hok l) as Hh.
  pose proof (drop_holds x (get_list l h) h _ Hh) as Hd. pose proof (drop_get x (get_list l h) h) as Hg.
  assert (Hi : let '(h', s') := dropHooks x (get_list l h) h in (0 < sl_cap s')%nat → all_in (kept x Q) (sl_arr s') h').
  { unfold dropHooks. rewrite (hs_view _ _ _ Hh). apply (drop_loop_in x Q _ h _ []); [split; [done|done|done|cbn; lia]| |cbn; lia].
    apply Forall_forall. intros hk Hin. assert (Hs : Some hk ∈ Some <$> hooks_of l h) by (apply list_elem_of_fmap; by exists hk). rewrite <- (hs_view _ _ _ Hh) in Hs.
    apply elem_of_take in Hs as (i & Hi & Hlt). apply (HQ l); [pose proof (hs_cap _ _ _ Hh); lia|]. by eapply list_elem_of_lookup_2. }
  destruct (dropHooks x (get_list l h) h) as [h1 s]. cbn [fst] in Hg. destruct Hd as [Hd [Hn1 Ha1 Ho1]]. split.
  - unfold arrays_in. rewrite get_put. intros Hc hk. rewrite array_put. by apply Hi.
  - intros l' P Hn HP. unfold arrays_in. rewrite get_put_ne, Hg by done. intros Hc hk. rewrite array_put, Ho1; [by apply HP|].
    by apply (hs_arr _ _ _ (lo_holds h Hok l')).
Qed.

Lemma kept_in x Q l h : arrays_in (kept x Q) l h → arrays_in Q l h.
Proof. intros Hk Hc hk Hin. by destruct (Hk Hc hk Hin). Qed.

(** Dropping one list more, of those that were kept apart already. *)
Lemma drop_next x Q l h (done_ : hook_list → Prop) : lists_ok h → (∀ l', arrays_in Q l' h) →
  (∀ l', done_ l' → arrays_in (kept x Q) l' h) →
  lists_ok (drop_list x l h) ∧ (∀ l', arrays_in Q l' (drop_list x l h)) ∧
  (∀ l', l' = l ∨ done_ l' → arrays_in (kept x Q) l' (drop_list x l h)).
Proof.
  intros Hok HQ Hd. destruct (drop_list_lists x l h Hok) as (Hok' & _). destruct (drop_list_in x Q l h Hok HQ) as [D1 D2].
  split; [done|]. split.
  - intros l'. destruct (decide (l' = l)) as [->|Hn]; [by eapply kept_in|by apply D2, HQ].
  - intros l' Hl. destruct (decide (l' = l)) as [->|Hn]; [done|]. apply D2; [done|]. destruct Hl as [|Hl]; [done|by apply Hd].
Qed.

Lemma drop_signals_in x Q es : ∀ h (done_ : hook_list → Prop), lists_ok h → (∀ l', arrays_in Q l' h) →
  (∀ l', done_ l' → arrays_in (kept x Q) l' h) →
  (∀ l', arrays_in Q l' (drop_signals x es h)) ∧
  (∀ l', (∃ e, l' = HSignal e ∧ e ∈ es) ∨ done_ l' → arrays_in (kept x Q) l' (drop_signals x es h)).
Proof.
  unfold drop_signals. induction es as [|e es IH]; intros h d Hok HQ Hd; cbn [foldl].
  - split; [done|]. intros l' [(e & _ & He)|Hl]; [by apply not_elem_of_nil in He|by apply Hd].
  - destruct (drop_next x Q (HSignal e) h d Hok HQ Hd) as (K1 & K2 & K3).
    destruct (IH _ (λ l', l' = HSignal e ∨ d l') K1 K2 K3) as [M1 M2]. split; [done|].
    intros l' Hl. apply M2. destruct Hl as [(e' & -> & He)|Hl]; [|by right; right].
    apply elem_of_cons in He as [->|He]; [by right; left|left; by exists e'].
Qed.

Lemma drop_all_in x Q h : lists_ok h → (∀ l, arrays_in Q l h) → ∀ l, arrays_in (kept x Q) l (drop_all x h).
Proof.
  intros Hok HQ. unfold drop_all. cbv zeta.
  destruct (drop_next x Q HMsg h (λ _, False) Hok HQ) as (A1 & A2 & A3); [done|]. set (h1 := drop_list x HMsg h) in *.
  destruct (drop_next x Q HInput h1 _ A1 A2 A3) as (B1 & B2 & B3). set (h2 := drop_list x HInput h1) in *.
  destruct (drop_next x Q HTopic h2 _ B1 B2 B3) as (C1 & C2 & C3). set (h3 := drop_list x HTopic h2) in *.
  destruct (drop_next x Q HCompletion h3 _ C1 C2 C3) as (D1 & D2 & D3). set (h4 := drop_list x HCompletion h3) in *.
  destruct (drop_signals_in x Q (elements (dom (ho_signals h4))) h4
              (λ l, arrays_in (kept x Q) l h4) D1 D2) as [E1 E2]; [done|].
  intros l. apply E2. destruct l as [| | | |e]; [right; apply D3; tauto..|].
  destruct (ho_signals h4 !! e) as [s|] eqn:He.
  - left. exists e. split; [done|]. apply elem_of_elements, elem_of_dom. by eexists.
  - right. unfold arrays_in, get_list. rewrite He. cbn. lia.
Qed.

(** The scripts but [x] stay open, under their names. *)
Lemma unload_open name x h : ho_scripts h !! name = Some x → ∀ y, y ≠ x → open h y →
  open (unloadScript name h) y ∧ name_of (unloadScript name h) y = name_of h y.
Proof.
  intros Hx y Hn (s & Hs & Hc & _). destruct (unload_split name x h Hx) as (h1 & Hd & ->).
  assert (Hst : ho_states h1 = ho_states h) by (subst h1; apply (drop_all_keeps ho_states); [done|done|by intros []]).
  unfold open, may_run, name_of. cbn. rewrite Hst, lookup_alter_ne by done. rewrite Hs. split; [|done].
  exists s. by split; [|split; [|left]].
Qed.

Lemma unload_live name h : live h → live (unloadScript name h).
Proof.
  intros [L1 L2 L3 L4 L5]. destruct (ho_scripts h !! name) as [x|] eqn:Hx.
  2: { unfold unloadScript. by rewrite Hx. }
  assert (Ho : ∀ hk, kept x (open_hook h) hk → open_hook (unloadScript name h) hk).
  { intros hk [Hk Hn]. by apply (unload_open name x h). }
  pose proof (drop_all_in x (open_hook h) h (hp_lists h L1) L2) as Ha.
  pose proof (unload_ok name h L1) as Hk. pose proof (unload_open name x h Hx) as Hy.
  pose proof (prim_numbered true h _ (PUnload true h name) L5) as H5. pose proof (L4 name x Hx) as [_ Hnx].
  destruct (unload_split name x h Hx) as (h1 & Hd & He). rewrite <- Hd in Ha.
  assert (Hcm : ho_cmds h1 = ho_cmds h) by (subst h1; apply (drop_all_keeps ho_cmds); [done|done|by intros []]).
  assert (Hsc : ho_scripts h1 = ho_scripts h) by (subst h1; apply (drop_all_keeps ho_scripts); [done|done|by intros []]).
  rewrite He in *. split; [done| | | |done].
  - intros l Hc hk Hin. apply Ho. specialize (Ha l). destruct l; exact (Ha Hc hk Hin).
  - intros key hk. cbn. rewrite Hcm. intros [Hl Hn]%map_lookup_filter_Some. apply Ho. split; [by eapply L3|done].
  - intros n y. cbn. rewrite Hsc. intros [Hn Hl]%lookup_delete_Some. destruct (L4 n y Hl) as [Hoy Hny].
    assert (y ≠ x) as Hyx by congruence. destruct (Hy y Hyx Hoy) as [Hoy' Hny']. split; [done|]. cbn in Hny'. congruence.
Qed.

Lemma unload_down name h : ho_down (unloadScript name h) = ho_down h.
Proof.
  destruct (ho_scripts h !! name) as [x|] eqn:Hx; [|by unfold unloadScript; rewrite Hx].
  destruct (unload_split name x h Hx) as (h1 & Hd & ->). change (ho_down h1 = ho_down h). subst h1.
  apply (drop_all_keeps ho_down); [done|done|by intros []].
Qed.

Lemma unload_fine name h : fine h → fine (unloadScript name h).
Proof. intros [Hl Hd]. split; [by apply unload_live|]. by rewrite unload_down. Qed.

(** ** Loading a script *)

(** Code that runs to its end, whatever the host answers. *)
Inductive succeeds : lua_run → Prop :=
  | SDone L v : succeeds (LDone L v)
  | SCall f args k : (∀ b, succeeds (k b)) → succeeds (LCall f args k).

Lemma exec_succeeds x r h : succeeds r → ∃ v, (exec x r h).2 = inl v.
Proof.
  intros Hs. revert h. induction Hs as [L v|f args k _ IH]; intros h; [by exists v|]. cbn [exec].
  destruct (binding x f args h) as [h1 b]. apply IH.
Qed.

Lemma new_script_fine name path h : fine h →
  let '(h', x) := new_script name path h in fine h' ∧ open h' x ∧ name_of h' x = name.
Proof.
  intros [Hl Hd]. unfold new_script. cbv zeta. set (h' := _ <| ho_next_script := _ |>).
  assert (Hp : prim true h h') by exact (PNew true h name path).
  pose proof (prim_heap true h h' Hp (lv_heap h Hl)) as Hh. pose proof (prim_numbered true h h' Hp (lv_numbered h Hl)) as Hn.
  split; [|split].
  - split; [|done]. apply (live_same h); try done. intros y (s & Hs & Hc & _).
    assert (y ≠ ho_next_script h) by (pose proof (lv_numbered h Hl y ltac:(by eexists)); lia).
    unfold open, may_run, name_of. cbn. rewrite lookup_insert_ne, Hs by done. split; [|done]. exists s. by split; [|split; [|left]].
  - eexists. cbn. rewrite lookup_insert_eq. split; [done|]. by split; [|left].
  - unfold name_of. cbn. by rewrite lookup_insert_eq.
Qed.

Lemma run_file_fine x path h : fine h → open h x → (∀ path L w, succeeds (w_dofile path L w)) →
  let '(h', err) := run_file x path h in fine h' ∧ extends h h' ∧ err = None.
Proof.
  intros [Hl Hd] Ho Hs. pose proof (run_file_runs true x path h Ho) as (Hm & _ & Hd').
  destruct (moves_live true _ _ Hm Hl) as [Hl' He].
  assert (Herr : (run_file x path h).2 = None).
  { unfold run_file. destruct (ho_states h !! x) as [s|]; [|done].
    destruct (exec_succeeds x (w_dofile path (ps_lua s) (ho_world h)) h (Hs _ _ _)) as [v Hv].
    destruct (exec x _ h) as [[h1 L] r]. cbn [snd] in Hv |- *. by subst r. }
  destruct (run_file x path h) as [h1 err]. cbn [fst snd] in *. split; [|done]. split; [done|congruence].
Qed.

Lemma service_live name x h : live h → open h x → name_of h x = name → live (h <| ho_scripts ::= <[name := x]> |>).
Proof.
  intros [L1 L2 L3 L4 L5] Ho Hn. split; [|done|done| |done].
  - apply (heap_same h); [done|done|by intros []|done|done].
  - intros n y. cbn. intros [[<- <-]|[_ Hy]]%lookup_insert_Some; [done|]. by apply L4.
Qed.

Section loads.
Hypothesis all_succeed : ∀ path L w, succeeds (w_dofile path L w).

Lemma load_fine path h : fine h → fine (loadScript path h).
Proof.
  intros Hf. unfold loadScript. cbv zeta. set (name := scriptName path). pose proof (unload_fine name h Hf) as H0f.
  set (h0 := unloadScript name h) in *.
  assert (Ht : fine (if ho_trusted h0 then trustedScriptLocked name h0 else (h0, true)).1).
  { case_match; [by apply (aside_fine h0); [apply trusted_aside|]|done]. }
  destruct (if ho_trusted h0 then _ else _) as [h1 trusted]. cbn [fst] in Ht. destruct trusted; cbn [negb]; [|done].
  pose proof (new_script_fine name path h1 Ht) as Hn. destruct (new_script name path h1) as [h2 x]. destruct Hn as (Hf2 & Ho & Hn).
  pose proof (run_file_fine x path h2 Hf2 Ho all_succeed) as Hr. destruct (run_file x path h2) as [h3 err].
  destruct Hr as ([Hl3 Hd3] & He & ->). destruct (ex_open _ _ He x Ho) as [Ho3 Hn3]. split; [|done].
  apply service_live; [done|done|congruence].
Qed.

Lemma foldl_fine {A} (f : host → A → host) l : (∀ h a, fine h → fine (f h a)) → ∀ h, fine h → fine (foldl f h l).
Proof. intros Hf. induction l as [|a l IH]; intros h Hh; [done|]. cbn. by apply IH, Hf. Qed.

Lemma load_all_fine h : fine h → fine (loadAll h).
Proof. intros Hf. unfold loadAll. case_match; [done|]. apply foldl_fine; [|done]. intros h' f. apply load_fine. Qed.

(** ** Events *)

Lemma aside_stays h h' : aside h h' → fine h → fine h'.
Proof. intros Ha Hf. exact (proj1 (aside_fine h h' Ha Hf)). Qed.

Lemma call_stays x fn args h : fine h → open h x → fine (call x fn args h).1.
Proof. intros Hf Ho. exact (proj1 (call_fine x fn args h Hf Ho)). Qed.

Lemma message_fine ev h : fine h → fine (runMessageHooks ev h).1.
Proof.
  intros Hf. unfold runMessageHooks. destruct (evt_message ev) as [m|]; [|done].
  pose proof (range_list_fine message_body HMsg m h (proj1 bodies_call) Hf) as Hr.
  destruct (range_list _ _ m h) as [h1 [keep m1]]. by destruct keep.
Qed.

Lemma input_fine ev h : fine h → fine (runInputHooks ev h).1.
Proof.
  intros Hf. unfold runInputHooks. destruct (evt_message ev) as [m|]; [|done]. cbv zeta.
  pose proof (range_list_fine (input_body (w_nick (ho_world h) (msg_network m))) HInput m h (proj1 (proj2 bodies_call) _) Hf) as Hr.
  destruct (range_list _ _ m h) as [h1 [keep m1]]. by destruct keep.
Qed.

Lemma topic_fine ev h : fine h → fine (runTopicHooks ev h).1.
Proof.
  intros Hf. unfold runTopicHooks. pose proof (range_list_fine (topic_body ev) HTopic (evt_text ev) h (proj1 (proj2 (proj2 bodies_call)) _) Hf) as Hr.
  by destruct (range_list _ _ _ h) as [h1 [keep t]].
Qed.

Lemma signal_fine name ev h : fine h → fine (runSignalHooks name ev h).
Proof. intros Hf. unfold runSignalHooks. exact (range_list_fine _ _ _ h (proj1 (proj2 (proj2 (proj2 bodies_call))) _) Hf). Qed.

Lemma completion_fine word network buffer h : fine h → fine (runCompletionHooks word network buffer h).1.
Proof.
  intros Hf. unfold runCompletionHooks. case_match; [done|]. cbv zeta.
  pose proof (range_list_fine (completion_body word network buffer (w_nick (ho_world h) network)) HCompletion [] h
                (proj2 (proj2 (proj2 (proj2 bodies_call))) _ _ _ _) Hf) as Hr.
  by destruct (range_list _ _ _ h) as [h1 [keep t]].
Qed.

Lemma command_fine ev h : fine h → fine (runCommand ev h).1.
Proof.
  intros Hf. unfold runCommand. cbv zeta. destruct (ho_cmds h !! _) as [hk|] eqn:Hk; [|done].
  pose proof (lv_cmds h (proj1 Hf) _ _ Hk) as Ho. destruct (disabled h (hk_script hk)); [done|].
  destruct (String.eqb _ _); cbn [fst].
  - by apply call_stays.
  - by apply call_stays; [apply (aside_stays h); [apply aside_origin|]|].
Qed.

Lemma reply_fine ev h : fine h → fine (runReplyBufferInput ev h).1.
Proof.
  intros Hf. unfold runReplyBufferInput. destruct (evt_message ev) as [m|]; [|done]. case_match; [done|]. cbv zeta.
  destruct (ho_scripts h !! _) as [x|]; [|done]. destruct (match ho_cmds h !! _ with Some _ => _ | None => _ end); cbn [fst].
  - by apply command_fine.
  - by apply (aside_stays h); [apply api_aside|].
Qed.

Lemma dispatch_fine ev h : fine h → fine (dispatch ev h).1.
Proof.
  intros Hf. unfold dispatch.
  assert (Hsig : fine (match signalName ev with Some name => runSignalHooks name ev h | None => h end))
    by (case_match; [by apply signal_fine|done]).
  destruct (evt_type ev); try exact Hsig.
  - by apply message_fine.
  - pose proof (reply_fine ev h Hf) as Hr. destruct (runReplyBufferInput ev h) as [h1 [r|]]; [done|by apply input_fine].
  - pose proof (topic_fine ev h Hf) as Hr. destruct (runTopicHooks ev h) as [h1 [out keep]]. cbn [fst] in *.
    destruct (signalName out); [|done]. destruct keep; [by apply signal_fine|done].
  - by apply command_fine.
Qed.

Lemma timer_fine t h : fine h → fine (runTimer t h).
Proof.
  intros Hf. unfold runTimer, is_current. case_bool_decide as Hc; [|done]. cbn [negb orb].
  destruct (disabled _ _); [done|]. apply call_stays; [done|]. by eapply lv_scripts; [apply Hf|].
Qed.

(** ** Every input *)

(** A host that is not down and, unless it was closed, is live. *)
Definition safe (h : host) : Prop := ho_down h = false ∧ (ho_quit h = true ∨ live h).

Lemma job_safe f h : (fine h → fine (f h)) → safe h → safe (job f h).
Proof.
  intros Hf [Hd Hq]. unfold job. rewrite Hd, orb_false_r. destruct (ho_quit h) eqn:Hz; [split; [done|by left]|].
  destruct Hq as [|Hl]; [done|]. destruct (aside_stays (f h) (refreshPresence (f h))) as [Hl' Hd'];
    [apply aside_present|by apply Hf|]. split; [done|by right].
Qed.

Lemma job_ret_safe {A} (d : A) f h : (fine h → fine (f h).1) → safe h → safe (job_ret d f h).1.
Proof.
  intros Hf Hs. pose proof (job_safe (λ h, (f h).1) h Hf Hs) as Hj. unfold job in Hj. unfold job_ret.
  case_match; [done|]. by destruct (f h).
Qed.

Lemma safe_aside h h' : aside h h' → ho_quit h' = ho_quit h → safe h → safe h'.
Proof.
  intros Ha Hq [Hd Hl]. split; [by rewrite (as_down _ _ Ha)|]. rewrite Hq. destruct Hl as [|Hl]; [by left|right].
  by destruct (aside_stays h h' Ha).
Qed.
Lemma safe_world w h : safe h → safe (h <| ho_world := w |>).
Proof. by apply safe_aside; [apply aside_world|]. Qed.

Lemma load_plugin_safe name h : safe h → safe (LoadPlugin name h).1.
Proof.
  intros Hs. unfold LoadPlugin. destruct (scriptPath name h); [|done]. case_match; [done|]. cbv zeta.
  by apply job_safe; [apply load_fine|].
Qed.

Lemma unload_plugin_safe name h : safe h → safe (UnloadPlugin name h).1.
Proof.
  intros Hs. unfold UnloadPlugin. destruct (scriptPath name h); [|done]. case_match; [done|].
  by apply job_safe; [apply unload_fine|].
Qed.

Lemma request_safe i h : safe h → safe (run_request i h).
Proof.
  intros Hs. unfold run_request. destruct (ho_requests h !! i) as [p|]; [|done].
  assert (Hd : safe (doHTTP (ph_request p) (name_of h (ph_script p)) h).1)
    by (unfold doHTTP; cbv zeta; destruct (w_http _ _); by apply safe_world).
  destruct (doHTTP _ _ h) as [h1 r]. cbv zeta. eapply safe_aside; [apply aside_requests|done|].
  apply job_safe; [|done]. intros Hf. unfold is_current. case_bool_decide as Hc; [|done]. cbn [negb orb].
  destruct (disabled _ _); [done|]. apply call_stays; [done|]. by eapply lv_scripts; [apply Hf|].
Qed.

Lemma uninstall_safe name h : safe h → safe (UninstallPlugin name h).1.
Proof.
  intros Hs. unfold UninstallPlugin. destruct (scriptPath name h); [|done]. case_match; [done|].
  destruct (w_remove _ _) as [w r]. pose proof (safe_world w h Hs). destruct r; [|done..].
  apply job_safe; [|done]. intros Hf. by apply (aside_stays _ _ (aside_updates _ _)).
Qed.

Lemma download_safe url h : safe h → safe (downloadScriptFromURL url h).1.
Proof. intros Hs. unfold downloadScriptFromURL. destruct (w_http _ _). by apply safe_world. Qed.

Lemma install_safe name url typ h : safe h → safe (install name url typ h).1.
Proof.
  intros Hs. unfold install. pose proof (download_safe url h Hs) as Hd.
  destruct (downloadScriptFromURL url h) as [h1 [body|err]]; [|done]. cbn [fst] in Hd.
  destruct (w_mkdir _ _) as [w err]. pose proof (safe_world w h1 Hd) as Hw. destruct err; [done|].
  destruct (w_write _ _ _) as [w' err']. pose proof (safe_world w' _ Hw) as Hw'. destruct err'; [done|].
  apply load_plugin_safe, job_safe; [|done]. intros Hf. eapply aside_stays; [|exact Hf].
  eapply aside_trans; [apply setMeta_aside|apply aside_updates].
Qed.

Lemma script_meta_safe name h : safe h → safe (script_meta name h).1.
Proof.
  intros Hs. apply job_ret_safe; [|done]. intros Hf. pose proof (meta_aside name h) as Ha.
  destruct (getScriptMetaLocked name h) as [[h1 u] t]. by apply (aside_stays h).
Qed.

Lemma update_safe name h : safe h → safe (UpdatePlugin name h).1.
Proof.
  intros Hs. unfold UpdatePlugin. cbv zeta. case_match; [done|]. case_match; [done|].
  pose proof (script_meta_safe (clean_name name) h Hs) as Hm. destruct (script_meta _ h) as [h1 [u t]].
  case_match; [done|]. case_match; [done|]. by apply install_safe.
Qed.

Lemma plugins_safe h : safe h → safe (Plugins h).1.
Proof.
  intros Hs. assert (Hj : safe (job_ret [] list_plugins h).1).
  { apply job_ret_safe; [|done]. apply aside_stays, list_plugins_aside. }
  unfold Plugins. by destruct (job_ret [] list_plugins h).
Qed.

Lemma check_update_safe h n : safe h → safe (check_update h n).
Proof.
  intros Hs. unfold check_update. pose proof (script_meta_safe n h Hs) as Hm. destruct (script_meta n h) as [h1 [u t]].
  case_match; [done|]. destruct (w_read _ _) as [local|]; [|done]. pose proof (download_safe u h1 Hm) as Hd.
  destruct (downloadScriptFromURL u h1) as [h2 [body|err]]; [|done]. apply job_safe; [|done].
  apply aside_stays. case_match; apply aside_updates.
Qed.

Lemma check_updates_safe name h : safe h → safe (CheckPluginUpdates name h).1.
Proof.
  intros Hs. assert (Hf : ∀ l h, safe h → safe (foldl check_update h l)).
  { induction l as [|n l IH]; intros h' Hh; [done|]. by apply IH, check_update_safe. }
  unfold CheckPluginUpdates. case_match; [done|]. destruct (String.eqb name ""); [|by apply Hf].
  pose proof (plugins_safe h Hs) as Hp. destruct (Plugins h) as [h1 infos]. by apply Hf.
Qed.

Lemma set_setting_safe name key value h : safe h → safe (SetPluginSetting name key value h).1.
Proof.
  intros Hs. apply job_ret_safe; [|done]. intros Hf. destruct (ho_scripts h !! name) as [x|] eqn:Hx; [|done].
  destruct (find _ _) as [d|]; [|done]. destruct (coerceSetting d value) as [v|]; [|done]. cbv zeta. cbn [fst].
  pose proof (kvSet_aside (name_of h x) key v h) as Ha. destruct (aside_fine _ _ Ha Hf) as [Hf' He].
  destruct (sd_apply d) as [fn|]; [|done]. apply call_stays; [done|]. apply (ex_open _ _ He).
  by apply (lv_scripts h (proj1 Hf) name).
Qed.

Lemma close_safe h : safe h → safe (Close h).
Proof.
  intros [Hd _]. unfold Close. cbv zeta. generalize (map_to_list (ho_scripts h)). intros l.
  set (h1 := h <| ho_quit := true |>).
  enough (Hl : ∀ l h, ho_down h = false → ho_quit h = true → safe (foldl
            (λ (h : host) '(_, x), set_script x (λ s, s <| ps_closed := true |>) h) h l)) by by apply Hl.
  clear. induction l as [|[n x] l IH]; intros h Hd Hq; [by split; [|left]|]. by apply IH.
Qed.

Lemma step_safe i h : safe h → safe (host_step i h).
Proof.
  intros Hs. unfold host_step. case_match; [done|]. destruct i.
  - unfold Dispatch. case_match; [done|]. apply job_ret_safe; [apply dispatch_fine|done].
  - apply job_ret_safe; [apply completion_fine|done].
  - by apply plugins_safe.
  - destruct (ho_started h !! i) as [t|]; [|done]. apply job_safe; [apply timer_fine|done].
  - by apply request_safe.
  - by apply load_plugin_safe.
  - by apply unload_plugin_safe.
  - by apply uninstall_safe.
  - unfold DownloadPlugin. cbv zeta. case_match; [done|]. destruct (String.eqb (ho_dir h) ""); [done|].
    destruct (curatedPlugin _); [by apply install_safe|done].
  - unfold ImportPlugin. cbv zeta. case_match; [done|]. destruct (w_url_parse _) as [[[sch hst] path]|]; [|done].
    case_match; [done|]. case_match; [done|]. destruct (String.eqb (ho_dir h) ""); [done|]. by apply install_safe.
  - by apply update_safe.
  - by apply check_updates_safe.
  - by apply set_setting_safe.
  - case_match; [|done]. apply job_safe; [apply unload_fine|done].
  - case_match; [|done]. apply job_safe; [apply load_fine|done].
  - destruct (ho_quit h); [done|by apply close_safe].
Qed.

Lemma empty_live dir settings sandbox trusted kv http w : live (empty_host dir settings sandbox trusted kv http w).
Proof.
  split; [apply empty_heap| | | |]; cbn.
  - assert (Hn : ∀ l, sl_cap (get_list l (empty_host dir settings sandbox trusted kv http w)) = 0%nat).
    { by intros []. }
    intros l Hp. rewrite Hn in Hp. lia.
  - intros key hk Hk. by destruct (lookup_empty_Some _ _ Hk).
  - intros n x Hx. by destruct (lookup_empty_Some _ _ Hx).
  - intros x [s Hx]. by destruct (lookup_empty_Some _ _ Hx).
Qed.
End loads.

(** C17: no plugin takes the daemon down.  As long as every script file that is
    loaded runs to its end, no sequence of events, completions, timers, answers
    to requests, loads, reloads, unloads, installs and changes of settings ever
    calls into an interpreter that was closed or reads an empty slot of a list
    of hooks, which are what would panic outside the protected call - however
    the scripts register and remove hooks, commands and timers, their own and
    each other's, also while the list they are in is being walked. *)
Theorem no_panic dir settings sandbox trusted kv http w inputs :
  (∀ path L w, succeeds (w_dofile path L w)) →
  ho_down (host_run (New dir settings sandbox trusted kv http w) inputs) = false.
Proof.
  intros Hs. assert (H0' : safe (New dir settings sandbox trusted kv http w)).
  { apply job_safe; [by apply load_all_fine|]. split; [done|]. right. apply empty_live. }
  revert H0'. generalize (New dir settings sandbox trusted kv http w). unfold host_run.
  induction inputs as [|i inputs IH]; intros h Hh; [apply Hh|]. cbn [foldl]. apply IH. by apply step_safe.
Qed.
End safe.

(** ** On a small runtime *)

#[local] Existing Instance ascii_tables.
#[local] Existing Instance toy_types.
#[local] Existing Instance toy_rt.
#[local] Existing Instance toy_cipher.

(** A file that hooks messages with three closures, the first of which keeps its
    id; a file that hooks messages and then fails. *)
Definition hook_message_then (fn : nat) (k : bres → lua_run) : lua_run := LCall "hook_message" [LFun (fn : lfn)] k.

Definition three_hooks : lua_run :=
  hook_message_then 0 (λ b, hook_message_then 1 (λ _, hook_message_then 2 (λ _,
    LDone (match b with BRet [LNum id] => id | _ => 0 : lnum end) LNil))).

Definition bad_file : lua_run := hook_message_then 1 (λ _, LError (0 : lstate) "attempt to index a nil value").

(** Closure 0 removes the hook whose id is the global; the others say who they are. *)
Definition closures (fn : nat) (args : list lval) (L : Z) : lua_run :=
  match fn with
  | 0%nat => LCall "unhook" [LNum (L : lnum)] (λ _, LDone (L : lstate) (LBool true))
  | n => LCall "send" [LStr "net"; LStr (itoa (Z.of_nat n))] (λ _, LDone (L : lstate) (LBool true))
  end.

Definition good_dir : list (string * lua_run) := [("three.lua", three_hooks)].
Definition bad_dir : list (string * lua_run) := [("bad.lua", bad_file)].

Lemma no_panic_witness :
  (∀ path L w, succeeds (@w_dofile _ (toy_env good_dir closures) path L w)) ∧
  ho_down (toy_host good_dir closures [JDispatch (toy_message "hi"); JUnload "three"; JDispatch (toy_message "hi")]) = false.
Proof.
  assert (Hs : ∀ path L w, succeeds (@w_dofile _ (toy_env good_dir closures) path L w)).
  { intros path L w. cbn [w_dofile toy_env]. unfold toy_file. destruct (find _ _) as [[n r]|] eqn:Hf; [|constructor].
    apply find_some in Hf as [[[= <- <-]|[]] _]. repeat (constructor; intros ?). }
  split; [exact Hs|]. apply (no_panic (H3 := toy_env good_dir closures)). exact Hs.
Defined.

(** A hook that removes itself while the list is walked shifts the ones after
    it: the next is passed over and the last is called twice. *)
Lemma unhook_skips_next :
  ho_world (toy_host good_dir closures [JDispatch (toy_message "hi")]) = [ApiSend "net" "2"; ApiSend "net" "2"].
Proof. vm_compute. reflexivity. Qed.

(** A file that fails after it registered a hook leaves the hook behind with a
    closed interpreter. *)
Lemma failed_load_panics :
  ho_down (toy_host bad_dir closures []) = false ∧
  ho_down (toy_host bad_dir closures [JDispatch (toy_message "hi")]) = true.
Proof. split; vm_compute; reflexivity. Qed.
