(* ===== verification/StoreDb.v ===== *)
(** * The history database

    The tables of [internal/store] and the statements it runs on them, each
    statement an atomic function on a [database].  A table is the list of its
    rows in the order of their ids, as SQLite stores it; what SQL leaves open is
    a parameter ([SqlHost]): the order in which rows without an ORDER BY are
    visited, whether an ignored insert uses up a row id, and the full-text
    match.  The search index is not a table here: its triggers keep it equal to
    the text of the messages. *)

From Stdlib Require Import ZArith Lia Ascii Bool.
From stdpp Require Import base tactics list gmap strings sorting.
From S2P Require Import Prelude GoStrings Utf8 GoNet CoreTypes CoreEvent.

#[local] Open Scope Z_scope.

(** ** Tables *)

Record row := Row {
  row_id : Z; row_msgid : string; row_network : string; row_buffer : string; row_fold : string; row_ts : Z;
  row_from : string; row_account : string; row_kind : string; row_text : string; row_self : Z; row_highlight : Z;
  row_tags : string }.

Record database := Database {
  db_messages : list row;
  db_seq : Z;                            (** the largest id AUTOINCREMENT gave out *)
  db_networks : gmap string string;
  db_kv : gmap (string * string) string;
  db_markers : gmap (string * string) Z;
  db_prefs : gmap string string;
  db_version : Z;                        (** [PRAGMA user_version] *)
}.

#[export] Instance eta_row : Eta row := λ r,
  Row (row_id r) (row_msgid r) (row_network r) (row_buffer r) (row_fold r) (row_ts r) (row_from r) (row_account r)
    (row_kind r) (row_text r) (row_self r) (row_highlight r) (row_tags r).
#[export] Instance eta_database : Eta database := λ r,
  Database (db_messages r) (db_seq r) (db_networks r) (db_kv r) (db_markers r) (db_prefs r) (db_version r).

Class SqlHost := {
  sql_scan : list row → list row;        (** the order rows are visited in *)
  sql_skip : Z → Z;                      (** the id sequence after an insert that was ignored *)
  fts_match : string → string → bool;    (** [MATCH] of the trigram index: expression, text *)
}.

(** What SQL promises of them. *)
Class SqlLaws (S : SqlHost) := {
  sql_scan_perm : ∀ l, sql_scan l ≡ₚ l;
  sql_skip_range : ∀ z, z ≤ sql_skip z ≤ z + 1;
}.

(** [encoding/json]. *)
Class StoreJson := {
  tags_json : gmap string string → string;
  json_tags : string → gmap string string;        (** what [Unmarshal] fills in, its error ignored *)
  params_json : network_params → option string;
  json_params : string → option network_params;
}.

Definition schemaVersion : Z := 2.
Definition maxRowid : Z := 2 ^ 63 - 1.

(** [UnixMilli]; the zero time is in year 1. *)
Definition unix_milli (t : time) : Z := if time_is_zero t then -62135596800000 else t / millisecond.

Definition boolToInt (b : bool) : Z := if b then 1 else 0.

(** ** The case mapping in SQL *)

Definition sql_lower (s : string) : string := str_map ascii_lower s.

Definition sql_replace (a b : ascii) (s : string) : string := str_map (λ c, if Ascii.eqb c a then b else c) s.

(** [sqlFoldBuffer], [sqlFoldFrom]: nested [replace] over [lower]. *)
Definition sql_fold (s : string) : string :=
  sql_replace "~" "^" (sql_replace "\" "|" (sql_replace "]" "}" (sql_replace "[" "{" (sql_lower s)))).

(** ** Messages *)

Section statements.
Context `{SqlHost, StoreJson}.

(** The unique index on (network, buffer_fold, msgid), of rows with a msgid. *)
Definition same_key (r r' : row) : bool :=
  negb (String.eqb (row_msgid r) "") && String.eqb (row_msgid r) (row_msgid r') &&
  String.eqb (row_network r) (row_network r') && String.eqb (row_fold r) (row_fold r').

Definition stored (r : row) (d : database) : bool := existsb (same_key r) (db_messages d).

(** [insertMessageSQL]: INSERT OR IGNORE with the next id; [None] once the ids
    are used up. *)
Definition insert_message (r : row) (d : database) : option database :=
  if stored r d then Some (d <| db_seq ::= sql_skip |>)
  else if maxRowid <=? db_seq d then None
  else let id := db_seq d + 1 in
       Some (d <| db_messages ::= λ l, l ++ [r <| row_id := id |>] |> <| db_seq := id |>).

(** The values [execOp] inserts. *)
Definition message_row (m : message) : row :=
  Row 0 (msg_id m) (msg_network m) (msg_buffer m) (FoldIRC (msg_buffer m)) (unix_milli (msg_time m)) (msg_from m)
    (msg_account m) (kind_string (msg_kind_of m)) (msg_text m) (boolToInt (msg_self m)) (boolToInt (msg_highlight m))
    (if bool_decide (msg_tags m = ∅) then "" else tags_json (msg_tags m)).

(** [scanMessage]. *)
Definition scanMessage (r : row) : message :=
  Message (row_msgid r) (row_id r) (row_network r) (row_buffer r) (row_ts r * millisecond) (row_from r) (row_account r)
    (kind_of_string (row_kind r)) (row_text r)
    (if String.eqb (row_tags r) "" then ∅ else json_tags (row_tags r))
    (negb (row_self r =? 0)) (negb (row_highlight r =? 0)).

(** The DELETE of a redaction. *)
Definition delete_message (network fold msgid : string) (d : database) : database :=
  d <| db_messages ::= filter (λ r, ¬ (row_network r = network ∧ row_fold r = fold ∧ row_msgid r = msgid)) |>.

(** [LIMIT n]: a negative one is no limit. *)
Definition sql_limit {A} (n : Z) (l : list A) : list A := if n <? 0 then l else take (Z.to_nat n) l.

(** The DELETE of one batch of [Prune], and how many rows it removed. *)
Definition delete_older (before limit : Z) (d : database) : database * Z :=
  let ids := row_id <$> sql_limit limit (sql_scan (filter (λ r, row_ts r < before) (db_messages d))) in
  (d <| db_messages ::= filter (λ r, row_id r ∉ ids) |>,
   Z.of_nat (length (filter (λ r, row_id r ∈ ids) (db_messages d)))).

(** ** The other tables *)

(** [SaveNetwork]; [false]: an error. *)
Definition SaveNetwork (p : network_params) (d : database) : database * bool :=
  match params_json p with
  | None => (d, false)
  | Some data => (d <| db_networks ::= <[np_id p := data]> |>, true)
  end.

Definition DeleteNetwork (id : string) (d : database) : database := d <| db_networks ::= delete id |>.

(** [Networks]: in the order of their ids; [None] if one does not parse. *)
Definition Networks (d : database) : option (list network_params) :=
  mapM (λ e, json_params e.2)
    (merge_sort (λ a b, Is_true (String.leb a.1 b.1)) (map_to_list (db_networks d))).

Definition PluginKVGetAll (script : string) (d : database) : gmap string string :=
  list_to_map (omap (λ '((s, k), v), if String.eqb s script then Some (k, v) else None) (map_to_list (db_kv d))).

Definition PluginKVSet (script key value : string) (d : database) : database := d <| db_kv ::= <[(script, key) := value]> |>.

Definition PluginKVDelete (script key : string) (d : database) : database := d <| db_kv ::= delete (script, key) |>.

Definition Pref (key : string) (d : database) : string := default "" (db_prefs d !! key).

Definition SetPref (key value : string) (d : database) : database := d <| db_prefs ::= <[key := value]> |>.

(** [MAX(ts, excluded.ts)] on conflict. *)
Definition put_marker (network fold : string) (ts : Z) (m : gmap (string * string) Z) : gmap (string * string) Z :=
  <[(network, fold) := match m !! (network, fold) with Some old => Z.max old ts | None => ts end]> m.

(** [MarkRead], [ReadMarker]. *)
Definition MarkRead (now : time) (network buffer : string) (ts : time) (d : database) : database :=
  d <| db_markers ::= put_marker network (FoldIRC buffer) (unix_milli (if time_is_zero ts then now else ts)) |>.

(** ** Migrations *)

(** [migrateReadMarkers]: markers regrouped under the folded names, the furthest
    kept. *)
Definition fold_markers (m : gmap (string * string) Z) : gmap (string * string) Z :=
  foldl (λ acc '((network, buffer), ts), put_marker network (sql_fold buffer) ts acc) ∅ (map_to_list m).

Definition fold_row (r : row) : row :=
  if String.eqb (row_fold r) "" then r <| row_fold := sql_fold (row_buffer r) |> else r.

(** Keeps the row with the smallest id of each key. *)
Definition first_of_key (l : list row) : list row :=
  foldl (λ kept r, if existsb (same_key r) kept then kept else kept ++ [r]) [] l.

(** [migrate]. *)
Definition migrate (d : database) : database :=
  if schemaVersion <=? db_version d then d
  else d <| db_messages ::= λ l, first_of_key (fold_row <$> l) |> <| db_markers ::= fold_markers |>
         <| db_version := schemaVersion |>.

(** ** [Import] *)

Inductive ImportMode := ImportModeReplace | ImportModeMerge.

(** A database to import: which tables it has, the columns of its messages (in a
    row, a column it lacks is not looked at), and their rows. *)
Record backup := Backup {
  bk_tables : list string; bk_columns : list string; bk_messages : list row; bk_networks : gmap string string;
  bk_kv : gmap (string * string) string; bk_markers : gmap (string * string) Z; bk_prefs : gmap string string }.

Definition has_table (b : backup) (t : string) : bool := existsb (String.eqb t) (bk_tables b).
Definition has_column (b : backup) (c : string) : bool := existsb (String.eqb c) (bk_columns b).

Definition required_columns : list string := ["network"; "buffer"; "ts"; "kind"; "text"].

(** A row as [importMessagesSQL] selects it, with the defaults of the columns
    that are not there. *)
Definition selected (b : backup) (r : row) : row :=
  let text c v := if has_column b c then v else "" in
  let int c v := if has_column b c then v else 0 in
  Row (row_id r) (text "msgid" (row_msgid r)) (row_network r) (row_buffer r) (text "buffer_fold" (row_fold r)) (row_ts r)
    (text "from_nick" (row_from r)) (text "account" (row_account r)) (row_kind r) (row_text r)
    (int "self" (row_self r)) (int "highlight" (row_highlight r)) (text "tags" (row_tags r)).

Fixpoint insert_by_id (r : row) (l : list row) : list row :=
  match l with
  | [] => [r]
  | x :: l' => if row_id r <? row_id x then r :: l else x :: insert_by_id r l'
  end.

(** INSERT OR IGNORE under the row's own id. *)
Definition insert_with_id (r : row) (d : database) : option database :=
  if stored r d || existsb (λ x, row_id x =? row_id r) (db_messages d) then Some d
  else Some (d <| db_messages ::= insert_by_id r |> <| db_seq ::= Z.max (row_id r) |>).

Definition import_row (keep : bool) (b : backup) (d : option database) (r : row) : option database :=
  d ≫= (if keep && has_column b "id" then insert_with_id else insert_message) (selected b r).

Definition import_messages (keep : bool) (b : backup) (d : database) : option database :=
  if negb (forallb (has_column b) required_columns) then None
  else foldl (import_row keep b) (Some d) (bk_messages b).

(** The UPDATE that folds the names of old rows fails on the unique index. *)
Fixpoint unique_keys (l : list row) : bool :=
  match l with
  | [] => true
  | r :: l => negb (existsb (same_key r) l) && unique_keys l
  end.

Definition fold_imported (d : database) : option database :=
  let l := fold_row <$> db_messages d in
  if unique_keys l then Some (d <| db_messages := l |>) else None.

Definition clear_tables (d : database) : database :=
  d <| db_messages := [] |> <| db_networks := ∅ |> <| db_markers := ∅ |> <| db_kv := ∅ |> <| db_prefs := ∅ |>.

Definition import_tables (b : backup) (d : database) : database :=
  let d := if has_table b "networks" then d <| db_networks ::= λ m, bk_networks b ∪ m |> else d in
  let d := if has_table b "plugin_kv" then d <| db_kv ::= λ m, bk_kv b ∪ m |> else d in
  let d := if has_table b "prefs" then d <| db_prefs ::= λ m, bk_prefs b ∪ m |> else d in
  if has_table b "read_markers"
  then d <| db_markers ::= λ m,
         map_fold (λ '(network, fold) ts m, <[(network, fold) := Z.max ts (default 0 (m !! (network, fold)))]> m) m
           (fold_markers (bk_markers b)) |>
  else d.

(** [Import]: one transaction, rolled back on an error. *)
Definition Import (b : backup) (mode : ImportMode) (d : database) : option database :=
  let keep := match mode with ImportModeReplace => true | ImportModeMerge => false end in
  let d := if keep then clear_tables d else d in
  let d := import_tables b d in
  if has_table b "messages" then import_messages keep b d ≫= fold_imported else Some d.
End statements.

(** ** A concrete SQL *)

(** Rows are visited in the order of the table; used to evaluate the model. *)
Definition plain_sql : SqlHost := {| sql_scan l := l; sql_skip z := z; fts_match _ _ := true |}.

Definition plain_laws : SqlLaws plain_sql.
Proof. split; [done|]. cbn. lia. Defined.

Definition plain_json : StoreJson :=
  {| tags_json _ := "{}"; json_tags _ := ∅; params_json _ := Some "{}"; json_params _ := None |}.

Definition empty_db : database := Database [] 0 ∅ ∅ ∅ ∅ 0.
