(* ===== verification/StoreQuery.v ===== *)
(** * Reading the history

    The queries of [internal/store]: paging through a buffer, windows around a
    line, read markers and unread counts, and the search with its filters.  Each
    is a function on the [database] a flush has left. *)

From Stdlib Require Import ZArith Lia Ascii Bool.
From stdpp Require Import base tactics list gmap strings sorting.
From S2P Require Import Prelude GoStrings Utf8 GoNet CoreTypes CoreEvent StoreDb.

#[local] Open Scope Z_scope.

Section query.
Context `{UnicodeTables, TimeParse, SqlHost, StoreJson}.

Definition in_buffer (network fold : string) (r : row) : Prop := row_network r = network ∧ row_fold r = fold.

#[global] Instance in_buffer_dec network fold r : Decision (in_buffer network fold r).
Proof. unfold in_buffer. apply _. Defined.

Definition chat_kinds : list string := ["privmsg"; "notice"; "action"].

(** [kind IN ('privmsg', 'notice', 'action')]. *)
Definition is_chat (r : row) : Prop := row_kind r ∈ chat_kinds.

#[global] Instance is_chat_dec r : Decision (is_chat r).
Proof. unfold is_chat. apply _. Defined.

(** ORDER BY id, up or down, LIMIT. *)
Definition select_asc (P : row → Prop) `{!∀ r, Decision (P r)} (limit : Z) (d : database) : list row :=
  sql_limit limit (filter P (db_messages d)).

Definition select_desc (P : row → Prop) `{!∀ r, Decision (P r)} (limit : Z) (d : database) : list row :=
  sql_limit limit (rev (filter P (db_messages d))).

(** ** Pages *)

Definition max_int64 : Z := 2 ^ 63 - 1.

(** Cuts the extra row off, and whether there was one. *)
Definition page {A} (limit : Z) (l : list A) : list A * bool :=
  if limit <? Z.of_nat (length l) then (take (Z.to_nat limit) l, true) else (l, false).

(** [Backlog]. *)
Definition Backlog (network buffer : string) (beforeSeq limit : Z) (d : database) : list message * bool :=
  let limit := if limit <=? 0 then 100 else limit in
  let beforeSeq := if beforeSeq <=? 0 then max_int64 else beforeSeq in
  let rows := select_desc (λ r, in_buffer network (FoldIRC buffer) r ∧ row_id r < beforeSeq) (i64 (limit + 1)) d in
  let '(desc, more) := page limit (scanMessage <$> rows) in
  (rev desc, more).

(** The row id of a message id; 0 if there is none. *)
Definition anchor_seq (network buffer anchor : string) (d : database) : Z :=
  if String.eqb anchor "" then 0
  else match filter (λ r, in_buffer network (FoldIRC buffer) r ∧ row_msgid r = anchor) (db_messages d) with
       | r :: _ => row_id r
       | [] => 0
       end.

(** [BacklogAround]: the messages, whether there are older, whether newer. *)
Definition BacklogAround (network buffer anchor : string) (around : time) (limit : Z) (d : database)
    : list message * bool * bool :=
  let limit := if limit <=? 0 then 100 else limit in
  let seq := anchor_seq network buffer anchor d in
  if (seq =? 0) && time_is_zero around then
    let '(msgs, more) := Backlog network buffer 0 limit d in (msgs, more, false)
  else
    let beforeHalf := Z.max (limit / 2) 1 in
    let afterHalf := limit - beforeHalf in
    let upto r := if seq =? 0 then row_ts r <=? unix_milli around else row_id r <=? seq in
    let older := select_desc (λ r, in_buffer network (FoldIRC buffer) r ∧ upto r = true) (beforeHalf + 1) d in
    let '(older, more) := page beforeHalf (scanMessage <$> older) in
    let newer := select_asc (λ r, in_buffer network (FoldIRC buffer) r ∧ upto r = false) (afterHalf + 1) d in
    let '(newer, moreNewer) := page afterHalf (scanMessage <$> newer) in
    (rev older ++ newer, more, moreNewer).

(** ** Read markers *)

(** [LastChatTime]. *)
Definition LastChatTime (network buffer : string) (d : database) : time :=
  match filter (λ r, in_buffer network (FoldIRC buffer) r ∧ is_chat r) (db_messages d) with
  | [] => zero_time
  | r :: l => foldl (λ m x, Z.max m (row_ts x)) (row_ts r) l * millisecond
  end.

(** [ReadMarkers]. *)
Definition ReadMarkers (d : database) : gmap string Z :=
  map_fold (λ '(network, buffer) ts m, <[network +:+ "/" +:+ FoldIRC buffer := ts]> m) ∅ (db_markers d).

(** A conversational line of somebody else past the marker of its buffer. *)
Definition unread (d : database) (r : row) : Prop :=
  match db_markers d !! (row_network r, row_fold r) with
  | Some ts => ts < row_ts r ∧ row_self r = 0 ∧ is_chat r
  | None => False
  end.

#[global] Instance unread_dec d r : Decision (unread d r).
Proof. unfold unread. destruct (db_markers d !! _); apply _. Defined.

Record UnreadCount := Unread { uc_network : string; uc_buffer : string; uc_unread : Z; uc_highlight : Z }.

(** One GROUP BY network, buffer_fold. *)
Definition count_group (l : list row) (key : string * string) : option UnreadCount :=
  match filter (λ r, in_buffer key.1 key.2 r) l with
  | [] => None
  | r :: g =>
      Some (Unread key.1 (foldl (λ m x, if String.ltb (row_buffer x) m then row_buffer x else m) (row_buffer r) g)
              (Z.of_nat (length (r :: g))) (foldl (λ n x, n + row_highlight x) 0 (r :: g)))
  end.

(** [UnreadCounts]: the groups in the order they are met. *)
Definition UnreadCounts (d : database) : list UnreadCount :=
  let l := sql_scan (filter (unread d) (db_messages d)) in
  omap (count_group l) (remove_dups ((λ r, (row_network r, row_fold r)) <$> l)).

(** [MissedHighlights]. *)
Definition MissedHighlights (limit : Z) (d : database) : list message :=
  let limit := if limit <=? 0 then 50 else limit in
  rev (scanMessage <$> select_desc (λ r, unread d r ∧ row_highlight r = 1) limit d).

(** ** Search *)

Record searchFilter := SearchFilter {
  sf_from : string; sf_in : string; sf_link : bool; sf_before : Z; sf_after : Z }.

Definition date_layout : string := "2006-01-02".
Definition day : Z := 24 * hour.

(** One word of the query: a filter, or [None] for a search term. *)
Definition filter_term (sf : searchFilter) (f : string) : option searchFilter :=
  let '(key, val, found) := cut_byte ":" f in
  if negb found || String.eqb val "" then None
  else
    let key := to_lower key in
    let '(SearchFilter from inb link before after) := sf in
    if existsb (String.eqb key) ["from"; "by"; "author"] then Some (SearchFilter val inb link before after)
    else if existsb (String.eqb key) ["in"; "buffer"; "chan"; "channel"] then Some (SearchFilter from val link before after)
    else if String.eqb key "has" then
      if equal_fold val "link" || equal_fold val "url" then Some (SearchFilter from inb true before after) else None
    else if String.eqb key "before" then
      match time_parse date_layout val with
      | Some t => Some (SearchFilter from inb link ((t + day) / millisecond) after)
      | None => None
      end
    else if existsb (String.eqb key) ["after"; "since"] then
      match time_parse date_layout val with
      | Some t => Some (SearchFilter from inb link before (t / millisecond))
      | None => None
      end
    else None.

(** [parseSearchFilters]: the filters and [cleanQuery]. *)
Definition parseSearchFilters (raw : string) : searchFilter * string :=
  let '(sf, terms) :=
    foldl (λ '(sf, terms) f, match filter_term sf f with
                              | Some sf => (sf, terms)
                              | None => (sf, terms ++ [f])
                              end)
      (SearchFilter "" "" false 0 0, []) (fields raw) in
  (sf, str_join " " terms).

(** A term as an FTS5 string: in quotes, the quotes in it doubled. *)
Definition quote_char : ascii := byte_of_z 34.

Definition fts_quote (f : string) : string :=
  String quote_char (replace_byte quote_char (DQUOTE +:+ DQUOTE) f +:+ DQUOTE).

Definition is_short (f : string) : bool := (length (runes f) <? 3)%nat.

(** [searchQuery]: the match expression and the terms too short for it. *)
Definition searchQuery (raw : string) : string * list string :=
  let l := fields raw in
  (str_join " " (fts_quote <$> filter (λ f, is_short f = false) l), filter (λ f, is_short f = true) l).

(** [text LIKE '%p%']: case is ignored in ASCII. *)
Definition sql_contains (p text : string) : bool := contains_str (sql_lower p) (sql_lower text).

Definition is_empty (s : string) : bool := String.eqb s "".

(** The WHERE clause. *)
Definition search_match (sf : searchFilter) (match_ : string) (short : list string) (network buffer : string) (r : row)
    : bool :=
  (is_empty match_ || fts_match match_ (row_text r)) &&
  forallb (λ term, sql_contains term (row_text r)) short &&
  (is_empty network || String.eqb (row_network r) network) &&
  (if negb (is_empty buffer) then String.eqb (row_fold r) (FoldIRC buffer)
   else is_empty (sf_in sf) || String.eqb (row_fold r) (FoldIRC (sf_in sf))) &&
  (is_empty (sf_from sf) || String.eqb (sql_fold (row_from r)) (FoldIRC (sf_from sf))) &&
  (negb (sf_link sf) || sql_contains "http://" (row_text r) || sql_contains "https://" (row_text r)) &&
  (negb (0 <? sf_before sf) || (row_ts r <? sf_before sf)) &&
  (negb (0 <? sf_after sf) || (sf_after sf <=? row_ts r)).

(** [Search]. *)
Definition Search_ (query network buffer : string) (limit : Z) (d : database) : list message :=
  let limit := if limit <=? 0 then 50 else limit in
  let '(sf, clean) := parseSearchFilters query in
  let '(match_, short) := searchQuery clean in
  if is_empty match_ && (length short =? 0)%nat && is_empty (sf_from sf) && is_empty (sf_in sf) && negb (sf_link sf) &&
     (sf_before sf =? 0) && (sf_after sf =? 0)
  then []
  else scanMessage <$> select_desc (λ r, search_match sf match_ short network buffer r = true) limit d.
End query.
