(* ===== verification/Store.v ===== *)
(** * The history store

    The writer of [internal/store]: [Print] and [Redact] queue writes, one
    goroutine commits what has accumulated in one transaction, and a reader
    queues a barrier and waits for it.  [store_step] is the store as a state
    machine: its inputs are the calls, the writer's receives and commits, with
    the faults of the database as part of a commit, and the statements other
    calls run directly, in any order.  A call that would block is no step. *)

From Stdlib Require Import ZArith Lia Ascii Bool.
From stdpp Require Import base tactics list gmap strings.
From S2P Require Import Prelude GoStrings Utf8 GoNet CoreTypes CoreEvent StoreDb StoreQuery.

#[local] Open Scope Z_scope.

(** ** Writes *)

Inductive writeOp :=
  | OpMsg (m : message)
  | OpRedact (network fold msgid : string)
  | OpBarrier (b : nat).

Definition writeQueue : nat := 4096.
Definition maxBatch : nat := 1024.
Definition pruneBatch : Z := 2000.

(** What goes wrong during one commit: the transaction cannot begin, a statement
    of it fails, it does not commit, a statement of the second try fails. *)
Record faults := Faults { ft_begin : bool; ft_exec : nat → bool; ft_commit : bool; ft_retry : nat → bool }.

Definition no_faults : faults := Faults false (λ _, false) false (λ _, false).

Section store.
Context `{UnicodeTables, TimeParse, SqlHost, StoreJson}.

(** [execOp]; [None] is an error. *)
Definition execOp (op : writeOp) (d : database) : option database :=
  match op with
  | OpMsg m => insert_message (message_row m) d
  | OpRedact network fold msgid => Some (delete_message network fold msgid d)
  | OpBarrier _ => Some d
  end.

Definition try_op (fails : bool) (op : writeOp) (d : database) : option database :=
  if fails then None else execOp op d.

(** The transaction: up to the first error. *)
Fixpoint exec_all (f : nat → bool) (i : nat) (batch : list writeOp) (d : database) : option database :=
  match batch with
  | [] => Some d
  | op :: batch => try_op (f i) op d ≫= exec_all f (S i) batch
  end.

(** The second try: what fails is logged and left out. *)
Fixpoint exec_each (f : nat → bool) (i : nat) (batch : list writeOp) (d : database) : database :=
  match batch with
  | [] => d
  | op :: batch => exec_each f (S i) batch (default d (try_op (f i) op d))
  end.

Definition is_barrier (op : writeOp) : bool := match op with OpBarrier _ => true | _ => false end.

(** [commitBatch]. *)
Definition commitBatch (f : faults) (batch : list writeOp) (d : database) : database :=
  if forallb is_barrier batch then d
  else
    match (if ft_begin f then None else exec_all (ft_exec f) 0 batch d) with
    | Some d' => if ft_commit f then exec_each (ft_retry f) 0 batch d else d'
    | None => exec_each (ft_retry f) 0 batch d
    end.

(** ** The store *)

Record store := StoreState {
  st_db : database;
  st_queue : list writeOp;            (** [writes] *)
  st_batch : list writeOp;            (** the writer's batch *)
  st_closed : bool;
  st_released : gset nat;             (** the barriers that were closed *)
  st_writer_done : bool;
}.

#[global] Instance eta_store : Eta store := λ r,
  StoreState (st_db r) (st_queue r) (st_batch r) (st_closed r) (st_released r) (st_writer_done r).

(** [enqueue]: blocks on a full queue, does nothing on a closed store. *)
Definition enqueue (op : writeOp) (s : store) : option store :=
  if st_closed s then Some s
  else if (length (st_queue s) <? writeQueue)%nat then Some (s <| st_queue ::= λ q, q ++ [op] |>) else None.

(** [Print]: a message without a time is stamped. *)
Definition stamped (now : time) (m : message) : message :=
  if time_is_zero (msg_time m) then m <| msg_time := now |> else m.

Definition Print_ (now : time) (m : message) (s : store) : option store := enqueue (OpMsg (stamped now m)) s.

(** [Redact]. *)
Definition Redact (network buffer target : string) (s : store) : option store :=
  if String.eqb target "" then Some s else enqueue (OpRedact network (FoldIRC buffer) target) s.

(** The writer takes an op into its batch; it stops taking at [maxBatch]. *)
Definition writer_take (s : store) : option store :=
  match st_queue s with
  | op :: q =>
      if (length (st_batch s) <? maxBatch)%nat then Some (s <| st_queue := q |> <| st_batch ::= λ b, b ++ [op] |>) else None
  | [] => None
  end.

Definition barriers (l : list writeOp) : gset nat :=
  list_to_set (omap (λ op, match op with OpBarrier b => Some b | _ => None end) l).

(** The writer commits its batch and lets go of those who wait for it. *)
Definition writer_commit (f : faults) (s : store) : option store :=
  match st_batch s with
  | [] => None
  | batch =>
      Some (s <| st_db ::= commitBatch f batch |> <| st_batch := [] |> <| st_released ::= λ r, r ∪ barriers batch |>)
  end.

(** The writer ends once the queue is closed and empty. *)
Definition writer_exit (s : store) : option store :=
  match st_batch s, st_queue s with
  | [], [] => if st_closed s then Some (s <| st_writer_done := true |>) else None
  | _, _ => None
  end.

(** A statement that is not queued. *)
Inductive direct :=
  | DSaveNetwork (p : network_params)
  | DDeleteNetwork (id : string)
  | DKVSet (script key value : string)
  | DKVDelete (script key : string)
  | DSetPref (key value : string)
  | DMarkRead (now : time) (network buffer : string) (ts : time)
  | DPrune (before : time)              (** one batch of [Prune] *)
  | DImport (b : backup) (mode : ImportMode).

Definition run_direct (x : direct) (d : database) : database :=
  match x with
  | DSaveNetwork p => (SaveNetwork p d).1
  | DDeleteNetwork id => DeleteNetwork id d
  | DKVSet script key value => PluginKVSet script key value d
  | DKVDelete script key => PluginKVDelete script key d
  | DSetPref key value => SetPref key value d
  | DMarkRead now network buffer ts => MarkRead now network buffer ts d
  | DPrune before => (delete_older (unix_milli before) pruneBatch d).1
  | DImport b mode => default d (Import b mode d)
  end.

Inductive store_input :=
  | IPrint (now : time) (m : message)
  | IRedact (network buffer target : string)
  | IFlush (b : nat)                    (** a reader queues its barrier *)
  | ITake
  | ICommit (f : faults)
  | IExit
  | IClose
  | IDirect (x : direct).

(** [None]: the call waits. *)
Definition store_step (i : store_input) (s : store) : option store :=
  match i with
  | IPrint now m => Print_ now m s
  | IRedact network buffer target => Redact network buffer target s
  | IFlush b => enqueue (OpBarrier b) s
  | ITake => writer_take s
  | ICommit f => writer_commit f s
  | IExit => writer_exit s
  | IClose => Some (s <| st_closed := true |>)
  | IDirect x => Some (s <| st_db ::= run_direct x |>)
  end.

Fixpoint store_run (inputs : list store_input) (s : store) : option store :=
  match inputs with
  | [] => Some s
  | i :: inputs => store_step i s ≫= store_run inputs
  end.

(** [Open]: the schema and its migrations, then the writer. *)
Definition Open (d : database) : store := StoreState (migrate d) [] [] false ∅ false.

(** ** [Prune] *)

(** Deletes in batches until one is not full; [cancel] says before which batch
    the context ends.  [None]: the fuel is used up. *)
Fixpoint prune_loop (fuel : nat) (cancel : nat → bool) (i : nat) (before total : Z) (d : database)
    : option (database * Z * bool) :=
  match fuel with
  | O => None
  | S fuel =>
      let '(d, n) := delete_older before pruneBatch d in
      let total := total + n in
      if n <? pruneBatch then Some (d, total, true)
      else if cancel (S i) then Some (d, total, false)
      else prune_loop fuel cancel (S i) before total d
  end.

Definition Prune (cancel : nat → bool) (before : time) (d : database) : option (database * Z * bool) :=
  prune_loop (S (length (db_messages d))) cancel 0 (unix_milli before) 0 d.
End store.
