(* ===== verification/StoreInv.v ===== *)
(** * The tables stay well formed

    Row ids strictly increase in the table and no two rows share a key (network,
    folded buffer, message id), whatever is printed, redacted, pruned, migrated
    or imported. *)

From Stdlib Require Import ZArith Lia Ascii Bool.
From stdpp Require Import base tactics list gmap strings sorting.
From S2P Require Import Prelude GoStrings Utf8 GoNet CoreTypes CoreEvent StoreDb StoreQuery Store.

#[local] Open Scope Z_scope.

Section inv.
Context `{UnicodeTables, TimeParse, SqlHost, StoreJson, !SqlLaws _}.

(** ** Keys *)

Definition key_of (r : row) : string * string * string := (row_network r, row_fold r, row_msgid r).

Lemma same_key_spec r r' : same_key r r' = true ↔ row_msgid r ≠ "" ∧ key_of r = key_of r'.
Proof.
  unfold same_key, key_of. rewrite !andb_true_iff, negb_true_iff, String.eqb_neq, !String.eqb_eq. split.
  - intros [[[Hm He] Hn] Hf]. split; [done|congruence].
  - intros [Hm [= Hn Hf He]]. done.
Qed.

Lemma same_key_sym r r' : same_key r r' = same_key r' r.
Proof.
  apply eq_true_iff_eq. rewrite !same_key_spec. split; intros [Hn He]; (split; [|done]); unfold key_of in He; congruence.
Qed.

Lemma existsb_false {A} (f : A → bool) l : existsb f l = false ↔ ∀ x, x ∈ l → f x = false.
Proof.
  induction l as [|y l IH]; cbn; [by split; [intros _ x Hx%not_elem_of_nil|]|].
  rewrite orb_false_iff, IH. split.
  - intros [Hy Hl] x [->|Hx]%elem_of_cons; auto.
  - intros Hl. split; [apply Hl; by left|]. intros x Hx. apply Hl. by right.
Qed.

Lemma unique_app l r : unique_keys (l ++ [r]) = unique_keys l && negb (existsb (same_key r) l).
Proof.
  induction l as [|x l IH]; cbn; [done|]. rewrite IH, existsb_app. cbn. rewrite orb_false_r, (same_key_sym x r).
  destruct (existsb (same_key x) l), (same_key r x), (unique_keys l), (existsb (same_key r) l); done.
Qed.

Lemma unique_perm l l' : l ≡ₚ l' → unique_keys l = unique_keys l'.
Proof.
  assert (He : ∀ (f : row → bool) l l', l ≡ₚ l' → existsb f l = existsb f l').
  { clear. intros f l l'. induction 1 as [|x l l' _ IH|x y l|l1 l2 l3 _ IH1 _ IH2]; cbn; [done|by rewrite IH| |congruence].
    destruct (f x), (f y); done. }
  induction 1 as [|x l l' Hp IH|x y l|l1 l2 l3 _ IH1 _ IH2]; cbn; [done|by rewrite IH, (He _ _ _ Hp)| |congruence].
  rewrite (same_key_sym x y). destruct (same_key y x), (existsb (same_key x) l), (existsb (same_key y) l); done.
Qed.

Lemma unique_sublist l l' : l' `sublist_of` l → unique_keys l = true → unique_keys l' = true.
Proof.
  induction 1 as [|x l1 l2 Hs IH|x l1 l2 Hs IH]; cbn; [done| |intros [_ Hu]%andb_true_iff; auto].
  intros [Hn Hu]%andb_true_iff. rewrite IH by done. rewrite andb_true_r. apply negb_true_iff in Hn. apply negb_true_iff.
  rewrite existsb_false in Hn |- *. intros y Hy. apply Hn. by eapply elem_of_sublist.
Qed.

(** Uniqueness, one key at a time. *)
Lemma unique_spec l : unique_keys l = true →
  ∀ i j r r', l !! i = Some r → l !! j = Some r' → row_msgid r ≠ "" → key_of r = key_of r' → i = j.
Proof.
  induction l as [|x l IH]; [done|]. cbn. intros [Hn Hu]%andb_true_iff i j r r' Hi Hj Hm Hk.
  apply negb_true_iff in Hn. rewrite existsb_false in Hn. destruct i as [|i], j as [|j]; cbn in Hi, Hj; [done| | |].
  - injection Hi as ->. specialize (Hn r' (list_elem_of_lookup_2 _ _ _ Hj)).
    assert (same_key r r' = true) by by apply same_key_spec. congruence.
  - injection Hj as ->. specialize (Hn r (list_elem_of_lookup_2 _ _ _ Hi)).
    assert (same_key r' r = true); [|congruence]. apply same_key_spec. split; [|done]. unfold key_of in Hk. congruence.
  - f_equal. by eapply IH.
Qed.

(** ** The invariant *)

Definition ids_sorted (l : list row) : Prop := StronglySorted (λ r r', row_id r < row_id r') l.

Record db_ok (d : database) : Prop := {
  ok_sorted : ids_sorted (db_messages d);
  ok_ids : Forall (λ r, 0 < row_id r ≤ db_seq d) (db_messages d);
  ok_seq : 0 ≤ db_seq d;
  ok_keys : unique_keys (db_messages d) = true;
}.

Lemma sorted_sub l l' : l' `sublist_of` l → ids_sorted l → ids_sorted l'.
Proof.
  unfold ids_sorted. induction 1 as [|x l1 l2 Hs IH|x l1 l2 Hs IH]; intros Hl; [done| |].
  - apply StronglySorted_inv in Hl as [Hl Hx]. constructor; [auto|]. rewrite Forall_forall in *. intros y Hy.
    apply Hx. by eapply elem_of_sublist.
  - apply StronglySorted_inv in Hl as [Hl _]. auto.
Qed.

Lemma ok_sub d d' : db_messages d' `sublist_of` db_messages d → db_seq d' = db_seq d → db_ok d → db_ok d'.
Proof.
  intros Hs Hq [H1' H2' H3' H4']. split; [by eapply sorted_sub| |lia|by eapply unique_sublist].
  rewrite Hq. rewrite Forall_forall in *. intros r Hr. apply H2'. by eapply elem_of_sublist.
Qed.

Lemma sorted_snoc l r : ids_sorted l → Forall (λ x, row_id x < row_id r) l → ids_sorted (l ++ [r]).
Proof.
  unfold ids_sorted. induction 1 as [|x l Hl IH Hx]; cbn; [by repeat constructor|]. intros [Hr Hf]%Forall_cons.
  constructor; [auto|]. apply Forall_app. by repeat constructor.
Qed.

Lemma insert_ok r d d' : db_ok d → insert_message r d = Some d' → db_ok d'.
Proof.
  intros [H1' H2' H3' H4']. unfold insert_message. destruct (stored r d) eqn:Hs.
  - intros [= <-]. pose proof (sql_skip_range (db_seq d)). split; [done| |cbn; lia|done]. cbn.
    eapply Forall_impl; [exact H2'|]. cbn. lia.
  - case_match; [done|]. cbv zeta. intros [= <-]. split; cbn.
    + apply sorted_snoc; [done|]. eapply Forall_impl; [exact H2'|]. cbn. lia.
    + apply Forall_app. split; [eapply Forall_impl; [exact H2'|]; cbn; lia|]. repeat constructor; cbn; lia.
    + lia.
    + rewrite unique_app, H4'. change (negb (stored r d) = true). by rewrite Hs.
Qed.

Lemma insert_with_ok r d d' : 0 < row_id r → db_ok d → insert_with_id r d = Some d' → db_ok d'.
Proof.
  intros Hr [H1' H2' H3' H4']. unfold insert_with_id. destruct (stored r d) eqn:Hs; cbn [orb]; [by intros [= <-]|].
  destruct (existsb _ _) eqn:He; [by intros [= <-]|]. intros [= <-].
  assert (Hp : ∀ l, insert_by_id r l ≡ₚ r :: l).
  { induction l as [|x l IH]; cbn; [done|]. case_match; [done|]. rewrite IH. apply Permutation_swap. }
  rewrite existsb_false in He. split; cbn.
  - revert H1' He. generalize (db_messages d). unfold ids_sorted. induction 1 as [|x l Hl IH Hx]; intros He; cbn; [by repeat constructor|].
    assert (row_id x ≠ row_id r) as Hne by (apply Z.eqb_neq, He; by left).
    destruct (Z.ltb_spec (row_id r) (row_id x)) as [Hlt|Hge].
    + constructor; [by constructor|]. constructor; [done|]. eapply Forall_impl; [exact Hx|]. cbn. lia.
    + constructor; [apply IH; intros y Hy; apply He; by right|]. rewrite Hp. constructor; [lia|done].
  - rewrite Hp. constructor; [lia|]. eapply Forall_impl; [exact H2'|]. cbn. lia.
  - lia.
  - rewrite (unique_perm _ _ (Hp _)). cbn. unfold stored in Hs. by rewrite Hs, H4'.
Qed.

Lemma delete_ok network fold msgid d : db_ok d → db_ok (delete_message network fold msgid d).
Proof. apply ok_sub; [|done]. apply sublist_filter. Qed.

Lemma prune_ok before limit d : db_ok d → db_ok (delete_older before limit d).1.
Proof. apply ok_sub; [|done]. apply sublist_filter. Qed.

(** ** Opening and importing *)

(** A database on disk: one of an older build may hold a key twice. *)
Record on_disk (d : database) : Prop := {
  od_sorted : ids_sorted (db_messages d);
  od_ids : Forall (λ r, 0 < row_id r ≤ db_seq d) (db_messages d);
  od_seq : 0 ≤ db_seq d;
  od_keys : schemaVersion ≤ db_version d → unique_keys (db_messages d) = true;
}.

Lemma first_of_key_spec l : first_of_key l `sublist_of` l ∧ unique_keys (first_of_key l) = true.
Proof.
  unfold first_of_key. enough (He : ∀ l kept pre, kept `sublist_of` pre → unique_keys kept = true →
    foldl (λ kept r, if existsb (same_key r) kept then kept else kept ++ [r]) kept l `sublist_of` pre ++ l ∧
    unique_keys (foldl (λ kept r, if existsb (same_key r) kept then kept else kept ++ [r]) kept l) = true)
    by by apply (He l [] []).
  clear l. induction l as [|r l IH]; intros kept pre Hs Hu; cbn; [by rewrite app_nil_r|].
  replace (pre ++ r :: l) with ((pre ++ [r]) ++ l) by by rewrite <- app_assoc. apply IH.
  - case_match; [by apply sublist_inserts_r|]. by apply sublist_app.
  - destruct (existsb (same_key r) kept) eqn:He; [done|]. by rewrite unique_app, Hu, He.
Qed.

Lemma fold_row_id r : row_id (fold_row r) = row_id r.
Proof. unfold fold_row. by case_match. Qed.

Lemma fold_rows_ids l : ids_sorted l → ids_sorted (fold_row <$> l).
Proof.
  unfold ids_sorted. induction 1 as [|x l Hl IH Hx]; cbn; constructor; [done|]. apply Forall_fmap.
  eapply Forall_impl; [exact Hx|]. intros y. cbn. by rewrite !fold_row_id.
Qed.

Lemma fold_rows_bound l q : Forall (λ r, 0 < row_id r ≤ q) l → Forall (λ r, 0 < row_id r ≤ q) (fold_row <$> l).
Proof. intros Hl. apply Forall_fmap. eapply Forall_impl; [exact Hl|]. intros y. cbn. by rewrite fold_row_id. Qed.

Lemma migrate_ok d : on_disk d → db_ok (migrate d).
Proof.
  intros [H1' H2' H3' H4']. unfold migrate. destruct (Z.leb_spec schemaVersion (db_version d)); [by split; auto|].
  destruct (first_of_key_spec (fold_row <$> db_messages d)) as [Hs Hu]. split; cbn; [| |done|done].
  - eapply sorted_sub; [exact Hs|]. by apply fold_rows_ids.
  - rewrite Forall_forall. intros r Hr. pose proof (fold_rows_bound _ _ H2') as Hb. rewrite Forall_forall in Hb.
    apply Hb. by eapply elem_of_sublist.
Qed.

(** The ids of a backup are row ids. *)
Definition backup_ok (b : backup) : Prop := Forall (λ r, 0 < row_id r) (bk_messages b).

Lemma import_messages_ok keep b d d' : backup_ok b → db_ok d → import_messages keep b d = Some d' → db_ok d'.
Proof.
  unfold backup_ok, import_messages. intros Hb Hd. case_match; [done|].
  set (f := import_row keep b). enough (He : ∀ l (o : option database), Forall (λ r, 0 < row_id r) l →
    (∀ d, o = Some d → db_ok d) → ∀ d', foldl f o l = Some d' → db_ok d').
  { apply (He (bk_messages b)); [done|]. by intros ? [= <-]. }
  clear d' Hb. induction l as [|r l IH]; intros o Hl Ho d' Hf; [by apply Ho|]. apply Forall_cons in Hl as [Hr Hl].
  apply (IH (f o r)); [done| |done]. unfold f, import_row. destruct o as [d1|]; [|done]. cbn. intros d2 Hi.
  specialize (Ho d1 eq_refl). case_match; [by eapply insert_with_ok; [|exact Ho|exact Hi]|by eapply insert_ok].
Qed.

Lemma fold_imported_ok d d' : db_ok d → fold_imported d = Some d' → db_ok d'.
Proof.
  intros [H1' H2' H3' H4']. unfold fold_imported. cbv zeta. destruct (unique_keys (fold_row <$> _)) eqn:Hu; [|done]. intros [= <-].
  split; cbn; [by apply fold_rows_ids|by apply fold_rows_bound|done|done].
Qed.

Lemma import_tables_same b d : db_messages (import_tables b d) = db_messages d ∧ db_seq (import_tables b d) = db_seq d.
Proof. unfold import_tables. cbv zeta. by repeat case_match. Qed.

Lemma Import_ok b mode d d' : backup_ok b → db_ok d → Import b mode d = Some d' → db_ok d'.
Proof.
  intros Hb Hd. unfold Import. cbv zeta.
  assert (H0' : db_ok (if match mode with ImportModeReplace => true | ImportModeMerge => false end then clear_tables d else d)).
  { destruct mode; [|done]. apply (ok_sub d); [apply sublist_nil_l|done|done]. }
  revert H0'. generalize (if match mode with ImportModeReplace => true | ImportModeMerge => false end then clear_tables d else d).
  intros d0 H0'. destruct (import_tables_same b d0) as [Hm Hq].
  assert (H1' : db_ok (import_tables b d0)) by (apply (ok_sub d0); [by rewrite Hm|done|done]).
  case_match; [|by intros [= <-]]. destruct (import_messages _ b _) as [d1|] eqn:Hi; [|done].
  apply fold_imported_ok. by eapply import_messages_ok.
Qed.

(** ** Along a run *)

Definition input_ok (i : store_input) : Prop := match i with IDirect (DImport b _) => backup_ok b | _ => True end.

Lemma exec_ok op d d' : db_ok d → execOp op d = Some d' → db_ok d'.
Proof.
  intros Hd. destruct op; cbn; [by apply insert_ok|intros [= <-]; by apply delete_ok|by intros [= <-]].
Qed.

Lemma try_ok f op d d' : db_ok d → try_op f op d = Some d' → db_ok d'.
Proof. unfold try_op. case_match; [done|]. apply exec_ok. Qed.

Lemma exec_all_ok f batch : ∀ i d d', db_ok d → exec_all f i batch d = Some d' → db_ok d'.
Proof.
  induction batch as [|op batch IH]; intros i d d' Hd; cbn; [by intros [= <-]|].
  destruct (try_op _ op d) as [d1|] eqn:He; [|done]. cbn. apply IH. by eapply try_ok.
Qed.

Lemma exec_each_ok f batch : ∀ i d, db_ok d → db_ok (exec_each f i batch d).
Proof.
  induction batch as [|op batch IH]; intros i d Hd; cbn; [done|]. apply IH.
  destruct (try_op _ op d) as [d1|] eqn:He; [|done]. by eapply try_ok.
Qed.

Lemma commit_ok f batch d : db_ok d → db_ok (commitBatch f batch d).
Proof.
  intros Hd. unfold commitBatch. case_match; [done|]. destruct (if ft_begin f then None else _) as [d1|] eqn:He.
  - destruct (ft_commit f); [by apply exec_each_ok|]. destruct (ft_begin f); [done|]. by eapply exec_all_ok.
  - by apply exec_each_ok.
Qed.

Lemma direct_ok x d : input_ok (IDirect x) → db_ok d → db_ok (run_direct x d).
Proof.
  intros Hx Hd. destruct x; cbn [run_direct]; try by apply (ok_sub d).
  - unfold SaveNetwork. case_match; by apply (ok_sub d).
  - by apply prune_ok.
  - destruct (Import b mode d) as [d1|] eqn:He; [|done]. by eapply Import_ok.
Qed.

Lemma enqueue_db op s s' : enqueue op s = Some s' → st_db s' = st_db s.
Proof. unfold enqueue. repeat case_match; by intros [= <-]. Qed.

Lemma store_step_ok i s s' : input_ok i → db_ok (st_db s) → store_step i s = Some s' → db_ok (st_db s').
Proof.
  intros Hi Hd. destruct i; cbn.
  - unfold Print_. intros He. by rewrite (enqueue_db _ _ _ He).
  - unfold Redact. case_match; [by intros [= <-]|]. intros He. by rewrite (enqueue_db _ _ _ He).
  - intros He. by rewrite (enqueue_db _ _ _ He).
  - unfold writer_take. repeat case_match; try done. by intros [= <-].
  - unfold writer_commit. case_match; [done|]. intros [= <-]. cbn. by apply commit_ok.
  - unfold writer_exit. repeat case_match; try done. by intros [= <-].
  - by intros [= <-].
  - intros [= <-]. cbn. by apply direct_ok.
Qed.

Lemma store_run_ok inputs : ∀ s s', Forall input_ok inputs → db_ok (st_db s) → store_run inputs s = Some s' → db_ok (st_db s').
Proof.
  induction inputs as [|i inputs IH]; intros s s' Hi Hd; cbn; [by intros [= <-]|].
  apply Forall_cons in Hi as [Hi His]. destruct (store_step i s) as [s1|] eqn:He; [|done]. cbn. apply IH; [done|].
  by eapply store_step_ok.
Qed.

(** C21: history holds every line once.  Whatever is printed, replayed, redacted,
    pruned, marked and imported on a database, one of an older build included,
    and whatever statements fail, the ids of the messages strictly increase in
    the order of the table and are at most the last one given out, and no two
    messages of a buffer share a message id. *)
Theorem lines_stored_once d inputs s :
  on_disk d → Forall input_ok inputs → store_run inputs (Open d) = Some s →
  ids_sorted (db_messages (st_db s)) ∧
  (∀ r, r ∈ db_messages (st_db s) → 0 < row_id r ≤ db_seq (st_db s)) ∧
  (∀ i j r r', db_messages (st_db s) !! i = Some r → db_messages (st_db s) !! j = Some r' →
     row_msgid r ≠ "" → row_network r = row_network r' → row_fold r = row_fold r' → row_msgid r = row_msgid r' → i = j).
Proof.
  intros Hd Hi Hr. pose proof (store_run_ok inputs (Open d) s Hi (migrate_ok d Hd) Hr) as [H1' H2' H3' H4'].
  split; [done|]. split; [by apply Forall_forall|]. intros i j r r' Hri Hrj Hm Hn Hf Hk.
  eapply unique_spec; [exact H4'|exact Hri|exact Hrj|done|]. unfold key_of. congruence.
Qed.
End inv.

(** ** On a small run *)

#[local] Existing Instance ascii_tables.
#[local] Existing Instance plain_sql.
#[local] Existing Instance plain_laws.
#[local] Existing Instance plain_json.
#[local] Instance no_dates : TimeParse := λ _ _, None.

Definition sample_line : message := new_message "net" "#Go" (5 * second) "ann" MsgPrivmsg "hello" <| msg_id := "m1" |>.

(** The same line twice, the second time from a replay. *)
Definition sample_inputs : list store_input :=
  [IPrint 0 sample_line; ITake; ICommit no_faults; IPrint 0 sample_line; IFlush 0; ITake; ITake; ICommit no_faults].

Lemma lines_stored_once_witness : ∃ s,
  store_run sample_inputs (Open empty_db) = Some s ∧ length (db_messages (st_db s)) = 1%nat ∧ ids_sorted (db_messages (st_db s)).
Proof.
  eexists. split; [vm_compute; reflexivity|]. split; [reflexivity|].
  apply (lines_stored_once empty_db sample_inputs).
  - split; cbn; [constructor|constructor|lia|done].
  - repeat constructor.
  - vm_compute. reflexivity.
Defined.
