(* ===== verification/StoreThms.v ===== *)
(** * The writer and the readers

    A reader that waited for its barrier finds every line queued before it,
    except those the database refused twice ([flush_sees_writes]), and the writer always gets there ([writer_progress]);
    paging back through a buffer meets every line once, while new ones arrive
    ([backlog_pages]); a prune removes what is older and ends ([prune_exact]);
    read markers only move forward ([markers_advance]); what is stored reads
    back as it was ([message_round_trip]). *)

From Stdlib Require Import ZArith Lia Ascii Bool.
From stdpp Require Import base tactics list gmap strings sorting.
From S2P Require Import Prelude GoStrings Utf8 GoNet CoreTypes CoreEvent StoreDb StoreQuery Store StoreInv.

#[local] Open Scope Z_scope.

Section thms.
Context `{UnicodeTables, TimeParse, SqlHost, StoreJson, !SqlLaws _}.

(** ** Group commit *)

(** What happened to the database, one write or statement at a time.  A write
    that the database refuses changes nothing; one whose own statement failed is
    lost. *)
Inductive entry := EWrite (op : writeOp) | ELost (op : writeOp) | EDirect (x : direct).

Definition apply_entry (d : database) (e : entry) : database :=
  match e with
  | EWrite op => default d (execOp op d)
  | ELost _ => d
  | EDirect x => run_direct x d
  end.

Definition writes_of (l : list entry) : list writeOp :=
  omap (λ e, match e with EWrite op | ELost op => Some op | EDirect _ => None end) l.
Definition directs_of (l : list entry) : list direct := omap (λ e, match e with EDirect x => Some x | _ => None end) l.
Definition lost_of (l : list entry) : list writeOp := omap (λ e, match e with ELost op => Some op | _ => None end) l.

(** The writes a run accepted, in order, and its other statements. *)
Fixpoint accepted (closed : bool) (inputs : list store_input) : list writeOp :=
  match inputs with
  | [] => []
  | i :: inputs =>
      (if closed then []
       else match i with
            | IPrint now m => [OpMsg (stamped now m)]
            | IRedact network buffer target =>
                if String.eqb target "" then [] else [OpRedact network (FoldIRC buffer) target]
            | IFlush b => [OpBarrier b]
            | _ => []
            end) ++ accepted (closed || match i with IClose => true | _ => false end) inputs
  end.

Definition directs (inputs : list store_input) : list direct :=
  omap (λ i, match i with IDirect x => Some x | _ => None end) inputs.

(** The database takes every write of a batch. *)
Fixpoint takes (batch : list writeOp) (d : database) : bool :=
  match batch with
  | [] => true
  | op :: batch => match execOp op d with Some d => takes batch d | None => false end
  end.

(** A transaction goes through if it begins, none of its statements fails or is
    refused, and it commits. *)
Definition goes_through (f : faults) (batch : list writeOp) (d : database) : bool :=
  negb (ft_begin f) && forallb (λ n, negb (ft_exec f n)) (seq 0 (length batch)) && takes batch d && negb (ft_commit f).

(** What becomes of the writes of a batch: all are made if the transaction goes
    through; if not, each is made on its own, and those are lost whose own
    statement fails. *)
Definition outcome (f : faults) (batch : list writeOp) (d : database) : list entry :=
  if goes_through f batch d then EWrite <$> batch
  else imap (λ n op, if ft_retry f n && negb (is_barrier op) then ELost op else EWrite op) batch.

(** What happened in a run: each commit has the outcome of the batch it met. *)
Fixpoint story (inputs : list store_input) (s : store) : list entry :=
  match inputs with
  | [] => []
  | i :: inputs =>
      match i with
      | ICommit f => outcome f (st_batch s) (st_db s)
      | IDirect x => [EDirect x]
      | _ => []
      end ++ match store_step i s with Some s => story inputs s | None => [] end
  end.

(** No statement of a second try fails, whatever became of the first. *)
Definition retries (i : store_input) : Prop := match i with ICommit f => ∀ n, ft_retry f n = false | _ => True end.

Lemma exec_all_takes f batch : ∀ i d, exec_all f i batch d =
  if forallb (λ n, negb (f n)) (seq i (length batch)) && takes batch d
  then Some (foldl apply_entry d (EWrite <$> batch)) else None.
Proof.
  induction batch as [|op batch IH]; intros i d; [done|]. cbn [exec_all length seq forallb takes]. unfold try_op.
  destruct (f i); [done|]. cbn [negb andb fmap list_fmap foldl apply_entry]. destruct (execOp op d) as [d1|]; cbn.
  - apply IH.
  - by rewrite andb_false_r.
Qed.

Lemma exec_each_outcome f batch : ∀ i d, exec_each f i batch d =
  foldl apply_entry d (imap (λ n op, if f (i + n)%nat && negb (is_barrier op) then ELost op else EWrite op) batch).
Proof.
  induction batch as [|op batch IH]; intros i d; [done|]. cbn [exec_each imap foldl]. rewrite IH, Nat.add_0_r.
  assert (He : ∀ d, foldl apply_entry d (imap (λ n op, if f (S i + n)%nat && negb (is_barrier op) then ELost op else EWrite op) batch) =
    foldl apply_entry d (imap ((λ n op, if f (i + n)%nat && negb (is_barrier op) then ELost op else EWrite op) ∘ S) batch)).
  { intros d'. f_equal. apply imap_ext. intros n x _. cbn. by rewrite Nat.add_succ_r. }
  rewrite He. f_equal. unfold try_op. destruct (f i); cbn; [|done]. by destruct op.
Qed.

Lemma barriers_only (g : nat → writeOp → entry) batch d : forallb is_barrier batch = true →
  (∀ n op, is_barrier op = true → g n op = EWrite op) → foldl apply_entry d (imap g batch) = d.
Proof.
  revert g. induction batch as [|op batch IH]; intros g; [done|]. cbn. intros [Ho Hb]%andb_true_iff Hg.
  rewrite Hg by done. destruct op; try done. cbn. apply IH; [done|]. intros n op. apply Hg.
Qed.

Lemma commit_outcome f batch d : commitBatch f batch d = foldl apply_entry d (outcome f batch d).
Proof.
  unfold commitBatch, outcome, goes_through. destruct (forallb is_barrier batch) eqn:Hb.
  { case_match.
    - replace (EWrite <$> batch) with (imap (λ _, EWrite) batch) by (clear; induction batch as [|op l IH]; [done|]; cbn; by f_equal).
      by rewrite barriers_only.
    - rewrite barriers_only; [done|done|]. intros n op ->. by rewrite andb_false_r. }
  rewrite exec_all_takes, exec_each_outcome. destruct (ft_begin f); [done|]. cbn [negb andb].
  destruct (_ && takes batch d); cbn [andb]; [by destruct (ft_commit f)|done].
Qed.

Lemma outcome_writes f batch d : writes_of (outcome f batch d) = batch.
Proof.
  unfold outcome. assert (Hg : ∀ g : nat → writeOp → entry, (∀ n op, g n op = EWrite op ∨ g n op = ELost op) → writes_of (imap g batch) = batch).
  { clear. induction batch as [|op l IH]; intros g Hg; [done|]. unfold writes_of in *. cbn [imap omap list_omap].
    destruct (Hg 0%nat op) as [-> | ->]; f_equal; apply IH; intros n x; apply Hg. }
  case_match; [|apply Hg; intros n op; case_match; auto].
  clear. induction batch as [|op l IH]; [done|]. cbn. by f_equal.
Qed.

Lemma outcome_directs f batch d : directs_of (outcome f batch d) = [].
Proof.
  unfold outcome. case_match; [clear; by induction batch|]. generalize (ft_retry f). clear. intros g.
  assert (Hg : ∀ h : nat → writeOp → entry, (∀ n op, h n op = EWrite op ∨ h n op = ELost op) → directs_of (imap h batch) = []).
  { induction batch as [|op l IH]; intros h Hh; [done|]. unfold directs_of in *. cbn [imap omap list_omap].
    destruct (Hh 0%nat op) as [-> | ->]; apply IH; intros n x; apply Hh. }
  apply Hg. intros n op. case_match; auto.
Qed.

Lemma outcome_kept f batch d : (∀ n, ft_retry f n = false) → lost_of (outcome f batch d) = [].
Proof.
  intros Hf. unfold outcome. case_match; [clear; by induction batch|].
  rewrite (imap_ext _ (λ _, EWrite)) by (intros n op _; cbn; by rewrite Hf). clear. induction batch as [|op l IH]; [done|]. apply IH.
Qed.

(** The store and what it has promised so far. *)
Record writer_inv (s0 : store) (pre : list store_input) (s : store) : Prop := {
  wi_run : store_run pre s0 = Some s;
  wi_db : st_db s = foldl apply_entry (st_db s0) (story pre s0);
  wi_directs : directs_of (story pre s0) = directs pre;
  wi_writes : accepted false pre = writes_of (story pre s0) ++ st_batch s ++ st_queue s;
  wi_released : ∀ b, b ∈ st_released s ↔ OpBarrier b ∈ writes_of (story pre s0);
  wi_closed : st_closed s = existsb (λ i, match i with IClose => true | _ => false end) pre;
}.

Lemma store_run_snoc pre i s0 s : store_run pre s0 = Some s → store_run (pre ++ [i]) s0 = store_step i s.
Proof.
  revert s0. induction pre as [|j pre IH]; intros s0; cbn; [intros [= ->]; by destruct (store_step i s)|].
  destruct (store_step j s0) as [s1|]; [|done]. cbn. apply IH.
Qed.

Lemma story_snoc pre i s0 s : store_run pre s0 = Some s → story (pre ++ [i]) s0 = story pre s0 ++ story [i] s.
Proof.
  revert s0. induction pre as [|j pre IH]; intros s0; [by intros [= ->]|].
  cbn [store_run app]. destruct (store_step j s0) as [s1|] eqn:Hj; [|done]. cbn [mbind option_bind]. intros Hr.
  change (story (j :: pre ++ [i]) s0) with (match j with ICommit f => outcome f (st_batch s0) (st_db s0) | IDirect x => [EDirect x] | _ => [] end
    ++ match store_step j s0 with Some s => story (pre ++ [i]) s | None => [] end).
  change (story (j :: pre) s0) with (match j with ICommit f => outcome f (st_batch s0) (st_db s0) | IDirect x => [EDirect x] | _ => [] end
    ++ match store_step j s0 with Some s => story pre s | None => [] end).
  rewrite Hj, (IH s1) by done. apply app_assoc.
Qed.

Lemma accepted_snoc pre i : ∀ c, accepted c (pre ++ [i]) =
  accepted c pre ++ accepted (c || existsb (λ i, match i with IClose => true | _ => false end) pre) [i].
Proof.
  induction pre as [|j pre IH]; intros c; cbn [app accepted existsb]; [by rewrite orb_false_r, app_nil_r|].
  by rewrite IH, <- app_assoc, orb_assoc.
Qed.

Lemma directs_snoc pre i : directs (pre ++ [i]) = directs pre ++ directs [i].
Proof. apply omap_app. Qed.

Lemma barriers_spec b l : b ∈ barriers l ↔ OpBarrier b ∈ l.
Proof.
  unfold barriers. rewrite elem_of_list_to_set, list_elem_of_omap. split.
  - intros (op & Hin & Hop). destruct op; simplify_eq/=. done.
  - intros Hin. by exists (OpBarrier b).
Qed.

Lemma writes_app l1 l2 : writes_of (l1 ++ l2) = writes_of l1 ++ writes_of l2.
Proof. apply omap_app. Qed.

Lemma directs_app l1 l2 : directs_of (l1 ++ l2) = directs_of l1 ++ directs_of l2.
Proof. apply omap_app. Qed.

(** One step, given what it adds to the story. *)
Lemma writer_snoc s0 pre i s s' new : writer_inv s0 pre s → store_step i s = Some s' → story [i] s = new →
  st_db s' = foldl apply_entry (st_db s) new → directs_of new = directs [i] →
  writes_of new ++ st_batch s' ++ st_queue s' = st_batch s ++ st_queue s ++ accepted (st_closed s) [i] →
  (∀ b, b ∈ st_released s' ↔ b ∈ st_released s ∨ OpBarrier b ∈ writes_of new) →
  st_closed s' = st_closed s || match i with IClose => true | _ => false end → writer_inv s0 (pre ++ [i]) s'.
Proof.
  intros [Hr Hdb Hdi Hw Hre Hcl] Hs Hn Hd Hdn Ha Hb Hc. pose proof (story_snoc pre i s0 s Hr) as Hst. rewrite Hn in Hst.
  split; rewrite ?Hst.
  - by rewrite (store_run_snoc pre i s0 s).
  - by rewrite foldl_app, <- Hdb.
  - by rewrite directs_app, directs_snoc, Hdi, Hdn.
  - rewrite accepted_snoc, Hw. cbn [orb]. rewrite <- Hcl, writes_app, <- !app_assoc. f_equal. by rewrite Ha.
  - intros b. by rewrite Hb, Hre, writes_app, elem_of_app.
  - rewrite Hc, existsb_app, Hcl. cbn. by rewrite orb_false_r.
Qed.

(** Inputs that leave the database and what was executed alone. *)
Lemma quiet_step s0 pre i s s' : writer_inv s0 pre s → store_step i s = Some s' →
  match i with ICommit _ | IDirect _ => False | _ => True end → st_db s' = st_db s → st_released s' = st_released s →
  st_batch s' ++ st_queue s' = st_batch s ++ st_queue s ++ accepted (st_closed s) [i] →
  st_closed s' = st_closed s || match i with IClose => true | _ => false end → writer_inv s0 (pre ++ [i]) s'.
Proof.
  intros Hw Hs Hi Hd Hr Ha Hc. apply (writer_snoc s0 pre i s s' []); try done.
  - cbn [story]. rewrite Hs. by destruct i.
  - by destruct i.
  - intros b. rewrite Hr. split; [by left|]. intros [?|?%elem_of_nil]; done.
Qed.

Lemma enqueue_step s0 pre i op s s' : writer_inv s0 pre s → store_step i s = Some s' → enqueue op s = Some s' →
  match i with IPrint _ _ | IRedact _ _ _ | IFlush _ => True | _ => False end →
  (∀ c, accepted c [i] = if c then [] else [op]) → writer_inv s0 (pre ++ [i]) s'.
Proof.
  intros Hw Hs He Hi Ha. unfold enqueue in He. destruct (st_closed s) eqn:Hcl.
  - injection He as <-. apply (quiet_step s0 pre i s); try done; [by destruct i|by rewrite Ha, Hcl, app_nil_r|by rewrite Hcl].
  - destruct (_ <? _)%nat; [|done]. injection He as <-. apply (quiet_step s0 pre i s); try done; [by destruct i| |].
    + by rewrite Ha, Hcl.
    + cbn. rewrite Hcl. by destruct i.
Qed.

Lemma writer_step s0 pre i s s' : writer_inv s0 pre s → store_step i s = Some s' → writer_inv s0 (pre ++ [i]) s'.
Proof.
  intros Hw Hs. pose proof Hs as He. destruct i as [now m|network buffer target|b| |f| | |x]; cbn [store_step] in He.
  - eapply enqueue_step; [exact Hw|exact Hs|exact He|done|]. by intros [].
  - unfold Redact in He. destruct (String.eqb target "") eqn:Ht.
    + injection He as <-. apply (quiet_step s0 pre _ s); try done; [cbn; rewrite Ht|by rewrite orb_false_r].
      by destruct (st_closed s); rewrite app_nil_r.
    + eapply enqueue_step; [exact Hw|exact Hs|exact He|done|]. intros []; cbn; by rewrite ?Ht.
  - eapply enqueue_step; [exact Hw|exact Hs|exact He|done|]. by intros [].
  - unfold writer_take in He. destruct (st_queue s) as [|op q] eqn:Hq; [done|]. case_match; [|done]. injection He as <-.
    apply (quiet_step s0 pre _ s); try done; [cbn|by rewrite orb_false_r]. rewrite Hq. destruct (st_closed s); by rewrite app_nil_r, <- app_assoc.
  - unfold writer_commit in He. destruct (st_batch s) as [|op batch] eqn:Hb; [done|]. injection He as <-.
    apply (writer_snoc s0 pre _ s _ (outcome f (op :: batch) (st_db s)) Hw Hs).
    + cbn [story]. rewrite Hs, Hb. apply app_nil_r.
    + apply commit_outcome.
    + apply outcome_directs.
    + rewrite outcome_writes, Hb. cbn. destruct (st_closed s); by rewrite app_nil_r.
    + intros b. rewrite outcome_writes, <- barriers_spec. apply elem_of_union.
    + by rewrite orb_false_r.
  - unfold writer_exit in He. destruct (st_batch s) as [|? ?] eqn:Hb; [|done]. destruct (st_queue s) as [|? ?] eqn:Hq; [|done].
    case_match; [|done]. injection He as <-. apply (quiet_step s0 pre _ s); try done; [cbn|by rewrite orb_false_r].
    rewrite Hb, Hq. by destruct (st_closed s).
  - injection He as <-. apply (quiet_step s0 pre _ s); try done; [|by rewrite orb_true_r].
    cbn. by destruct (st_closed s); rewrite app_nil_r.
  - injection He as <-. apply (writer_snoc s0 pre _ s _ [EDirect x] Hw Hs); try done.
    + cbn. destruct (st_closed s); by rewrite app_nil_r.
    + intros b. split; [by left|]. intros [?|?%elem_of_nil]; done.
    + by rewrite orb_false_r.
Qed.

Lemma writer_run s0 inputs : ∀ pre s s', writer_inv s0 pre s → store_run inputs s = Some s' → writer_inv s0 (pre ++ inputs) s'.
Proof.
  induction inputs as [|i inputs IH]; intros pre s s' Hw; cbn; [intros [= <-]; by rewrite app_nil_r|].
  destruct (store_step i s) as [s1|] eqn:He; [|done]. cbn. intros Hr.
  replace (pre ++ i :: inputs) with ((pre ++ [i]) ++ inputs) by by rewrite <- app_assoc.
  eapply IH; [|exact Hr]. by eapply writer_step.
Qed.

Lemma writer_opened d inputs s : store_run inputs (Open d) = Some s → writer_inv (Open d) inputs s.
Proof. intros Hr. apply (writer_run (Open d) inputs [] (Open d) s); [|done]. split; try done; set_solver. Qed.

Lemma story_kept inputs : ∀ s, Forall retries inputs → lost_of (story inputs s) = [].
Proof.
  induction inputs as [|i inputs IH]; intros s Hf; [done|]. apply Forall_cons in Hf as [Hi Hf]. cbn [story]. unfold lost_of in *.
  rewrite omap_app. assert (H0' : omap (λ e, match e with ELost op => Some op | _ => None end)
    match store_step i s with Some s => story inputs s | None => [] end = []) by (case_match; auto).
  rewrite H0', app_nil_r. destruct i; try done. by apply outcome_kept.
Qed.

Lemma split_at {A} (x : A) ex rest pre post : ex ++ rest = pre ++ x :: post → x ∈ ex → x ∉ pre →
  ∃ more, ex = pre ++ x :: more ∧ post = more ++ rest.
Proof.
  intros He Hin Hn. apply app_eq_inv in He as [(k & Hp & Hr)|(k & Hp & Hr)].
  - destruct k as [|y k]; [|injection Hr as <- ->; by exists k]. cbn in Hr. rewrite app_nil_r in Hp. by subst pre.
  - subst pre. destruct Hn. apply elem_of_app. by left.
Qed.

(** C19: a reader sees every line queued before it asked.  Once the barrier a
    reader queued has been let go, in any run of the store - however the writer
    batched, whatever statements failed, whatever other statements ran meanwhile -
    the database is the result of the story of the run: every write queued before
    the barrier and some queued after it, one at a time in the order they were
    queued, each made unless the transaction of its batch did not go through (it
    did not begin, one of its statements failed or was refused, it did not
    commit) and its own statement of the second try failed too.  So no write is
    lost as long as no statement of a second try fails. *)
Theorem flush_sees_writes d inputs s pre b post :
  store_run inputs (Open d) = Some s → accepted false inputs = pre ++ OpBarrier b :: post →
  OpBarrier b ∉ pre → b ∈ st_released s →
  st_db s = foldl apply_entry (migrate d) (story inputs (Open d)) ∧
  directs_of (story inputs (Open d)) = directs inputs ∧
  (∃ more, more `prefix_of` post ∧ writes_of (story inputs (Open d)) = pre ++ OpBarrier b :: more) ∧
  (Forall retries inputs → lost_of (story inputs (Open d)) = []).
Proof.
  intros Hr Ha Hn Hb. destruct (writer_opened d inputs s Hr) as [_ Hdb Hdi Hac Hre _].
  rewrite Ha in Hac. symmetry in Hac. apply Hre in Hb. destruct (split_at _ _ _ _ _ Hac Hb Hn) as (more & Hw & ->).
  split_and!; [done|done| |apply story_kept]. exists more. split; [by eexists|done].
Qed.

(** What the writer has left to do. *)
Definition writer_left (s : store) : nat := (2 * length (st_queue s) + length (st_batch s))%nat.

(** C22: no reader waits for ever.  As long as anything is queued the writer can
    take a step, whatever its next commit runs into; every step leaves it less
    to do; and when nothing is left every barrier that was ever queued has been
    let go. *)
Theorem writer_progress d inputs s f :
  store_run inputs (Open d) = Some s →
  (writer_left s ≠ 0%nat → is_Some (store_step ITake s) ∨ is_Some (store_step (ICommit f) s)) ∧
  (∀ i s', i = ITake ∨ i = ICommit f → store_step i s = Some s' → (writer_left s' < writer_left s)%nat) ∧
  (writer_left s = 0%nat → ∀ b, OpBarrier b ∈ accepted false inputs → b ∈ st_released s).
Proof.
  intros Hr. destruct (writer_opened d inputs s Hr) as [_ _ _ Hac Hre _]. unfold writer_left.
  split; [|split].
  - cbn [store_step]. unfold writer_take, writer_commit. destruct (st_batch s) as [|op batch]; [|by right].
    destruct (st_queue s) as [|op q]; [done|]. by left.
  - intros i s' [->| ->]; cbn [store_step].
    + unfold writer_take. destruct (st_queue s) as [|op q] eqn:Hq; [done|]. case_match; [|done]. intros He. injection He as <-.
      cbn. rewrite length_app. cbn. lia.
    + unfold writer_commit. destruct (st_batch s) as [|op batch] eqn:Hb; [done|]. intros He. injection He as <-. cbn. lia.
  - intros Hz b Hb. apply Hre. rewrite Hac in Hb.
    assert (st_queue s = [] ∧ st_batch s = []) as [Hq Hba] by (split; apply nil_length_inv; lia).
    by rewrite Hq, Hba, !app_nil_r in Hb.
Qed.

(** ** Pages *)

Definition buffer_rows (network buffer : string) (d : database) : list row :=
  filter (in_buffer network (FoldIRC buffer)) (db_messages d).

(** Lines that arrive later: the older rows stay, new ones have larger ids. *)
Definition later (d d' : database) : Prop :=
  ∃ new, db_messages d' = db_messages d ++ new ∧ Forall (λ r, db_seq d < row_id r) new.

(** A client that pages back from the newest line, over the databases its
    requests meet, until it is told there is no more. *)
Fixpoint scroll (fuel : nat) (dbs : nat → database) (i : nat) (network buffer : string) (cursor limit : Z)
    : option (list message) :=
  match fuel with
  | O => None
  | S fuel =>
      let '(msgs, more) := Backlog network buffer cursor limit (dbs i) in
      if more then
        match msgs with
        | m :: _ => (λ older, older ++ msgs) <$> scroll fuel dbs (S i) network buffer (msg_seq m) limit
        | [] => None
        end
      else Some msgs
  end.
Lemma filter_older network buffer c d d' : later d d' → c ≤ db_seq d + 1 →
  filter (λ r, in_buffer network (FoldIRC buffer) r ∧ row_id r < c) (db_messages d') =
  filter (λ r, row_id r < c) (buffer_rows network buffer d).
Proof.
  intros (new & -> & Hnew) Hc. rewrite filter_app, (filter_none _ new), app_nil_r.
  - unfold buffer_rows. rewrite list_filter_filter. apply list_filter_iff. intros r. tauto.
  - eapply Forall_impl; [exact Hnew|]. cbn. lia.
Qed.

Lemma sorted_cut l j r : ids_sorted l → l !! j = Some r → filter (λ x, row_id x < row_id r) l = take j l.
Proof.
  unfold ids_sorted. intros Hl. revert j. induction Hl as [|x l Hl IH Hx]; intros j; [done|]. destruct j as [|j].
  - intros Hj. injection Hj as ->. rewrite filter_cons_False by lia. apply filter_none. eapply Forall_impl; [exact Hx|]. cbn. lia.
  - intros Hj. change (l !! j = Some r) in Hj. rewrite firstn_cons, filter_cons_True; [by rewrite (IH j Hj)|]. rewrite Forall_forall in Hx. apply Hx. by eapply list_elem_of_lookup_2.
Qed.

Lemma page_limit {A B} (g : A → B) limit l : 0 < limit ≤ max_int64 →
  page limit (g <$> sql_limit (i64 (limit + 1)) l) =
  if limit <? Z.of_nat (length l) then (g <$> take (Z.to_nat limit) l, true) else (g <$> l, false).
Proof.
  intros Hl. unfold page, max_int64 in *. destruct (decide (limit = 2 ^ 63 - 1)) as [->|Hn].
  - unfold sql_limit. rewrite length_fmap. change (i64 (2 ^ 63 - 1 + 1) <? 0) with true. cbn match. case_match; [|done].
    by rewrite fmap_take.
  - unfold sql_limit. rewrite (i64_small (limit + 1)) by lia. destruct (Z.ltb_spec (limit + 1) 0); [lia|].
    rewrite length_fmap, length_take. destruct (Z.ltb_spec limit (Z.of_nat (length l))) as [Hlt|Hge].
    + destruct (Z.ltb_spec limit (Z.of_nat (Z.to_nat (limit + 1) `min` length l))); [|lia].
      by rewrite <- fmap_take, take_take, Nat.min_l by lia.
    + destruct (Z.ltb_spec limit (Z.of_nat (Z.to_nat (limit + 1) `min` length l))); [lia|]. by rewrite take_ge by lia.
Qed.

Lemma fmap_rev {A B} (g : A → B) l : g <$> rev l = rev (g <$> l).
Proof. apply map_rev. Qed.

Definition page_size (limit : Z) : Z := if limit <=? 0 then 100 else limit.

(** One page, of the rows [l] before the cursor. *)
Lemma backlog_page network buffer c limit d l : 0 < c → limit ≤ max_int64 →
  filter (λ r, in_buffer network (FoldIRC buffer) r ∧ row_id r < c) (db_messages d) = l →
  Backlog network buffer c limit d =
    if page_size limit <? Z.of_nat (length l)
    then (scanMessage <$> drop (length l - Z.to_nat (page_size limit)) l, true) else (scanMessage <$> l, false).
Proof.
  intros Hc Hl He. unfold Backlog. cbv zeta. destruct (Z.leb_spec c 0) as [|_]; [lia|]. fold (page_size limit).
  unfold select_desc. rewrite He. assert (Hp : 0 < page_size limit ≤ max_int64).
  { unfold page_size, max_int64 in *. destruct (Z.leb_spec limit 0); lia. }
  rewrite page_limit by done. rewrite length_rev. destruct (Z.ltb_spec (page_size limit) (Z.of_nat (length l))).
  - f_equal. rewrite <- fmap_rev. f_equal. by rewrite firstn_rev, rev_involutive.
  - f_equal. by rewrite <- fmap_rev, rev_involutive.
Qed.
Lemma scroll_S fuel dbs i network buffer cursor limit : scroll (S fuel) dbs i network buffer cursor limit =
  let '(msgs, more) := Backlog network buffer cursor limit (dbs i) in
  if more then
    match msgs with
    | m :: _ => (λ older, older ++ msgs) <$> scroll fuel dbs (S i) network buffer (msg_seq m) limit
    | [] => None
    end
  else Some msgs.
Proof. done. Qed.

Lemma scroll_from network buffer limit (dbs : nat → database) : db_ok (dbs 0%nat) → (∀ i, later (dbs 0%nat) (dbs i)) →
  limit ≤ max_int64 → ∀ k l c i, (length l ≤ k)%nat → 0 < c →
    filter (λ r, row_id r < c) (buffer_rows network buffer (dbs 0%nat)) = l →
    filter (λ r, in_buffer network (FoldIRC buffer) r ∧ row_id r < c) (db_messages (dbs i)) = l →
    scroll (S k) dbs i network buffer c limit = Some (scanMessage <$> l).
Proof.
  intros Hok Hlater Hlim k. set (d := dbs 0%nat) in *. induction k as [|k IH]; intros l c i Hk Hc He Hi;
    rewrite scroll_S, (backlog_page network buffer c limit (dbs i) l Hc Hlim Hi).
  - assert (l = []) as -> by (apply nil_length_inv; lia). destruct (Z.ltb_spec (page_size limit) (Z.of_nat (length (@nil row)))) as [Hlt|]; [|done].
    unfold page_size in Hlt. cbn in Hlt. destruct (Z.leb_spec limit 0); lia.
  - assert (Hp : 0 < page_size limit) by (unfold page_size; destruct (Z.leb_spec limit 0); lia).
    destruct (Z.ltb_spec (page_size limit) (Z.of_nat (length l))) as [Hlt|Hge]; [|done].
    set (j := (length l - Z.to_nat (page_size limit))%nat). destruct (lookup_lt_is_Some_2 l j) as [r Hr]; [lia|].
    rewrite (drop_S l r j Hr). cbn [fmap list_fmap]. change (msg_seq (scanMessage r)) with (row_id r).
    assert (Hl : ids_sorted l) by (subst l; eapply sorted_sub; [|apply Hok]; etransitivity; apply sublist_filter).
    assert (Hin : r ∈ db_messages d).
    { apply list_elem_of_lookup_2 in Hr. rewrite <- He in Hr. apply list_elem_of_filter in Hr as [_ Hr].
      by apply list_elem_of_filter in Hr as [_ Hr]. }
    pose proof (ok_ids _ Hok) as Hids. rewrite Forall_forall in Hids. specialize (Hids r Hin).
    assert (Hrc : row_id r < c).
    { apply list_elem_of_lookup_2 in Hr. rewrite <- He in Hr. by apply list_elem_of_filter in Hr as [Hr _]. }
    assert (Hcut : filter (λ x, row_id x < row_id r) (buffer_rows network buffer d) = take j l).
    { rewrite <- (sorted_cut l j r Hl Hr), <- He, list_filter_filter. apply list_filter_iff. intros x. lia. }
    rewrite (IH (take j l) (row_id r) (S i)); [|rewrite length_take; lia|lia|done|].
    + cbn. f_equal. rewrite <- (take_drop j l) at 3. by rewrite fmap_app, (drop_S l r j Hr).
    + rewrite <- Hcut. apply filter_older; [apply Hlater|lia].
Qed.

(** C20: paging meets every line once.  A client that asks for the newest page of
    a buffer and then pages back by the sequence number of the oldest message it
    holds, until it is told that nothing older remains, has read every line the
    buffer held when it began, each exactly once and in order - whatever the
    page size, and however many lines arrive meanwhile. *)
Theorem backlog_pages network buffer limit (dbs : nat → database) :
  db_ok (dbs 0%nat) → db_seq (dbs 0%nat) < max_int64 → (∀ i, later (dbs 0%nat) (dbs i)) → limit ≤ max_int64 →
  ∃ fuel, scroll fuel dbs 0 network buffer 0 limit = Some (scanMessage <$> buffer_rows network buffer (dbs 0%nat)).
Proof.
  intros Hok Hseq Hlater Hlim. set (rows := buffer_rows network buffer (dbs 0%nat)).
  exists (S (length rows)). pose proof (ok_ids _ Hok) as Hids. rewrite Forall_forall in Hids.
  assert (Hall : Forall (λ r, row_id r < max_int64) (db_messages (dbs 0%nat))).
  { apply Forall_forall. intros r Hr. specialize (Hids r Hr). lia. }
  change (scroll (S (length rows)) dbs 0 network buffer max_int64 limit = Some (scanMessage <$> rows)).
  apply scroll_from; [done|done|done|lia|by unfold max_int64| |].
  - apply filter_all. rewrite Forall_forall in Hall |- *. intros r Hr. apply list_elem_of_filter in Hr as [_ Hr]. by apply Hall.
  - unfold rows, buffer_rows. rewrite <- (filter_all (λ r, row_id r < max_int64) (db_messages (dbs 0%nat))) at 2 by done.
    rewrite list_filter_filter. apply list_filter_iff. tauto.
Qed.
(** ** Pruning *)

Definition older_rows (before : Z) (d : database) : list row := filter (λ r, row_ts r < before) (db_messages d).
Definition newer_rows (before : Z) (d : database) : list row := filter (λ r, ¬ row_ts r < before) (db_messages d).

Lemma filter_elem_iff {A} (P Q : A → Prop) `{!∀ x, Decision (P x)} `{!∀ x, Decision (Q x)} (l : list A) :
  (∀ x, x ∈ l → P x ↔ Q x) → filter P l = filter Q l.
Proof.
  induction l as [|x l IH]; intros Hl; [done|]. assert (Hx : P x ↔ Q x) by (apply Hl; by left).
  assert (IH' : filter P l = filter Q l) by (apply IH; intros y Hy; apply Hl; by right).
  destruct (decide (P x)) as [Hp|Hp]; [rewrite !filter_cons_True by tauto|rewrite !filter_cons_False by tauto]; by rewrite IH'.
Qed.

Lemma sorted_ids_inj l r r' : ids_sorted l → r ∈ l → r' ∈ l → row_id r = row_id r' → r = r'.
Proof.
  unfold ids_sorted. induction 1 as [|x l Hl IH Hx]; [by intros Hr%not_elem_of_nil|]. rewrite Forall_forall in Hx.
  intros [->|Hr]%elem_of_cons [->|Hr']%elem_of_cons He; [done| | |by apply IH].
  - specialize (Hx r' Hr'). lia.
  - specialize (Hx r Hr). lia.
Qed.

Lemma sorted_nodup l : ids_sorted l → NoDup l.
Proof.
  unfold ids_sorted. induction 1 as [|x l Hl IH Hx]; constructor; [|done]. intros Hin. rewrite Forall_forall in Hx.
  specialize (Hx x Hin). lia.
Qed.

Lemma count_split {A} (P : A → Prop) `{!∀ x, Decision (P x)} (l : list A) :
  (length (filter P l) + length (filter (λ x, ¬ P x) l) = length l)%nat.
Proof.
  induction l as [|x l IH]; [done|]. destruct (decide (P x)).
  - rewrite filter_cons_True, (filter_cons_False (λ x, ¬ P x)) by tauto. cbn [length]. lia.
  - rewrite filter_cons_False, (filter_cons_True (λ x, ¬ P x)) by tauto. cbn [length]. lia.
Qed.

(** One batch. *)
Lemma delete_older_spec before limit d : ids_sorted (db_messages d) → 0 ≤ limit →
  let '(d', n) := delete_older before limit d in
  n = Z.min limit (Z.of_nat (length (older_rows before d))) ∧
  db_messages d' `sublist_of` db_messages d ∧ newer_rows before d' = newer_rows before d ∧
  Z.of_nat (length (older_rows before d')) = Z.of_nat (length (older_rows before d)) - n ∧
  d' = d <| db_messages := db_messages d' |>.
Proof.
  intros Hs Hl. unfold delete_older. cbv zeta. set (l := db_messages d) in *.
  set (picked := sql_limit limit (sql_scan (filter (λ r, row_ts r < before) l))).
  assert (Hpick : picked = take (Z.to_nat limit) (sql_scan (older_rows before d))).
  { unfold picked, sql_limit. destruct (Z.ltb_spec limit 0); [lia|done]. }
  pose proof (sql_scan_perm (older_rows before d)) as Hperm.
  assert (Hsub : ∀ r, r ∈ picked → r ∈ l ∧ row_ts r < before).
  { intros r Hr. rewrite Hpick in Hr. apply elem_of_take in Hr as (i & Hi & _). apply list_elem_of_lookup_2 in Hi.
    rewrite Hperm in Hi. by apply list_elem_of_filter in Hi as [H1' H2']. }
  assert (Hin : ∀ r, r ∈ l → row_id r ∈ row_id <$> picked ↔ r ∈ picked).
  { intros r Hr. rewrite list_elem_of_fmap. split; [|by exists r]. intros (y & He & Hy). destruct (Hsub y Hy) as [Hyl _].
    by rewrite (sorted_ids_inj l r y Hs Hr Hyl He). }
  assert (Hnd : NoDup picked).
  { rewrite Hpick. eapply sublist_NoDup; [|apply sublist_take]. rewrite Hperm. by apply NoDup_filter, sorted_nodup. }
  assert (Hlen : length (filter (λ r, row_id r ∈ row_id <$> picked) l) = length picked).
  { apply Permutation_length, NoDup_Permutation; [by apply NoDup_filter, sorted_nodup|done|]. intros r.
    rewrite list_elem_of_filter. split; [intros [Hr Hrl]; by apply Hin|]. intros Hr. destruct (Hsub r Hr) as [Hrl _]. by rewrite Hin. }
  assert (Hn : Z.of_nat (length picked) = Z.min limit (Z.of_nat (length (older_rows before d)))).
  { rewrite Hpick, length_take, (Permutation_length Hperm). lia. }
  assert (Hnew : newer_rows before (d <| db_messages := filter (λ r, row_id r ∉ row_id <$> picked) l |>) = newer_rows before d).
  { unfold newer_rows. cbn. rewrite list_filter_filter. apply filter_elem_iff. intros r Hr. rewrite Hin by done.
    split; [tauto|]. intros Ht. split; [done|]. intros Hp. by destruct (Hsub r Hp). }
  split; [by rewrite Hlen, Hn|]. split; [apply sublist_filter|]. split; [done|]. split; [|done].
  pose proof (count_split (λ r, row_ts r < before) l) as Hc1.
  pose proof (count_split (λ r, row_ts r < before) (filter (λ r, row_id r ∉ row_id <$> picked) l)) as Hc2.
  pose proof (count_split (λ r, row_id r ∈ row_id <$> picked) l) as Hc3.
  apply (f_equal length) in Hnew. unfold newer_rows, older_rows in *. cbn in *. rewrite Hlen in *. subst l. lia.
Qed.
Lemma prune_loop_spec cancel before fuel : ∀ i total d, ids_sorted (db_messages d) →
  (length (older_rows before d) < fuel)%nat →
  ∃ d' n fin, prune_loop fuel cancel i before total d = Some (d', total + n, fin) ∧
    d' = d <| db_messages := db_messages d' |> ∧
    db_messages d' `sublist_of` db_messages d ∧ newer_rows before d' = newer_rows before d ∧
    n = Z.of_nat (length (older_rows before d)) - Z.of_nat (length (older_rows before d')) ∧
    (fin = true → older_rows before d' = []) ∧ ((∀ j, cancel j = false) → fin = true).
Proof.
  induction fuel as [|fuel IH]; intros i total d Hs Hf; [lia|]. cbn [prune_loop].
  pose proof (delete_older_spec before pruneBatch d Hs ltac:(done)) as Hd. destruct (delete_older before pruneBatch d) as [d1 n1].
  destruct Hd as (Hn & Hsub & Hnew & Hold & Heq). destruct (Z.ltb_spec n1 pruneBatch) as [Hlt|Hge].
  - exists d1, n1, true. repeat (split; [done|]). split; [lia|]. split; [|done]. intros _. apply nil_length_inv. lia.
  - destruct (cancel (S i)) eqn:Hc.
    + exists d1, n1, false. repeat (split; [done|]). split; [lia|]. split; [done|]. intros Hcc. by rewrite Hcc in Hc.
    + unfold pruneBatch in *. destruct (IH (S i) (total + n1) d1) as (d2 & n2 & fin & He & Heq2 & Hsub2 & Hnew2 & Hn2 & Hfin & Hcan);
        [by eapply sorted_sub|lia|]. exists d2, (n1 + n2), fin. rewrite Z.add_assoc. split; [done|].
      split; [rewrite Heq2, Heq; done|]. split; [by etransitivity|]. split; [congruence|]. split; [lia|done].
Qed.

(** C23: a prune removes exactly what is older and ends.  Pruning deletes in
    batches of two thousand until one is not full, rows picked in any order; it
    always ends, no message that is recent enough is ever touched, the count it
    reports is the number of messages gone, and unless its context ends between
    two batches no older message is left. *)
Theorem prune_exact cancel before d : db_ok d →
  ∃ d' n fin, Prune cancel before d = Some (d', n, fin) ∧
    db_messages d' `sublist_of` db_messages d ∧ newer_rows (unix_milli before) d' = newer_rows (unix_milli before) d ∧
    n = Z.of_nat (length (db_messages d)) - Z.of_nat (length (db_messages d')) ∧
    (fin = true → db_messages d' = newer_rows (unix_milli before) d) ∧ ((∀ j, cancel j = false) → fin = true).
Proof.
  intros Hok. set (b := unix_milli before).
  destruct (prune_loop_spec cancel b (S (length (db_messages d))) 0 0 d) as (d' & n & fin & He & _ & Hsub & Hnew & Hn & Hfin & Hcan).
  { apply Hok. }
  { unfold older_rows. pose proof (length_filter (λ r, row_ts r < b) (db_messages d)). lia. }
  exists d', n, fin. split; [done|]. split; [done|]. split; [done|]. split; [|split; [|done]].
  - pose proof (count_split (λ r, row_ts r < b) (db_messages d)) as H1'. pose proof (count_split (λ r, row_ts r < b) (db_messages d')) as H2'.
    apply (f_equal length) in Hnew. unfold older_rows, newer_rows in *. lia.
  - intros Hft. rewrite <- Hnew. specialize (Hfin Hft). unfold newer_rows. symmetry. apply filter_all.
    apply Forall_forall. intros r Hr Hlt. assert (Hi : r ∈ older_rows b d') by by apply list_elem_of_filter.
    rewrite Hfin in Hi. by apply not_elem_of_nil in Hi.
Qed.

(** ** Read markers *)

Definition marker (d : database) (network fold : string) : option Z := db_markers d !! (network, fold).

(** At least as far. *)
Definition reaches (a b : option Z) : Prop := match a with Some t => ∃ t', b = Some t' ∧ t ≤ t' | None => True end.

Lemma reaches_refl a : reaches a a.
Proof. destruct a; [|done]. by eexists. Qed.

Lemma reaches_trans a b c : reaches a b → reaches b c → reaches a c.
Proof. destruct a as [t|]; [|done]. intros (t1 & -> & H1') (t2 & -> & H2'). exists t2. split; [done|lia]. Qed.

Lemma put_marker_reaches network fold ts m k : reaches (m !! k) (put_marker network fold ts m !! k).
Proof.
  unfold put_marker. destruct (decide (k = (network, fold))) as [->|Hn].
  - rewrite lookup_insert_eq. destruct (m !! _); [|done]. eexists. split; [done|lia].
  - rewrite lookup_insert_ne by done. apply reaches_refl.
Qed.
Lemma direct_markers x d key : match x with DImport _ ImportModeReplace => False | _ => True end →
  reaches (db_markers d !! key) (db_markers (run_direct x d) !! key).
Proof.
  assert (Hi : ∀ b d, reaches (db_markers d !! key) (db_markers (import_tables b d) !! key)).
  { clear. intros b d. unfold import_tables. cbv zeta.
    assert (Hm : ∀ m : gmap (string * string) Z, reaches (m !! key)
      (map_fold (λ '(network, fold) ts m, <[(network, fold) := Z.max ts (default 0 (m !! (network, fold)))]> m) m
         (fold_markers (bk_markers b)) !! key)).
    { intros m. apply (map_fold_weak_ind (λ (m' : gmap (string * string) Z) _, reaches (m !! key) (m' !! key)));
        [apply reaches_refl|]. intros [network fold] ts _ m' _ IH. eapply reaches_trans; [exact IH|].
      destruct (decide (key = (network, fold))) as [->|Hn]; [|rewrite lookup_insert_ne by done; apply reaches_refl].
      rewrite lookup_insert_eq. destruct (m' !! _); [|done]. eexists. split; [done|]. cbn. lia. }
    repeat case_match; first [apply Hm|apply reaches_refl]. }
  destruct x as [p|id|sc k v|sc k|k v|now net buf ts|before|b mode]; cbn [run_direct]; intros Hx; try apply reaches_refl.
  - unfold SaveNetwork. case_match; apply reaches_refl.
  - apply put_marker_reaches.
  - destruct mode; [done|]. unfold Import. cbv zeta. case_match; [|apply Hi].
    destruct (import_messages false b (import_tables b d)) as [d1|] eqn:He; [|apply reaches_refl]. cbn.
    assert (Hm : db_markers d1 = db_markers (import_tables b d)).
    { revert He. unfold import_messages. case_match; [done|].
      enough (Hf : ∀ l o, (∀ d', o = Some d' → db_markers d' = db_markers (import_tables b d)) →
        ∀ d', foldl (import_row false b) o l = Some d' → db_markers d' = db_markers (import_tables b d))
        by (apply Hf; by intros ? [= <-]).
      induction l as [|r l IH]; intros o Ho d' Hf; [by apply Ho|]. apply (IH (import_row false b o r)); [|done].
      unfold import_row. destruct o as [d2|]; [|done]. cbn. intros d3. unfold insert_message.
      repeat case_match; try done; intros [= <-]; cbn; by apply Ho. }
    unfold fold_imported. cbv zeta. destruct (unique_keys (fold_row <$> _)); [|apply reaches_refl]. cbn. rewrite Hm. apply Hi.
Qed.
Lemma insert_markers r d d' : insert_message r d = Some d' → db_markers d' = db_markers d.
Proof. unfold insert_message. repeat case_match; try done; by intros [= <-]. Qed.

Lemma commit_markers f batch d : db_markers (commitBatch f batch d) = db_markers d.
Proof.
  rewrite commit_outcome. pose proof (outcome_directs f batch d) as Hd. revert Hd. generalize (outcome f batch d).
  intros l. revert d. induction l as [|e l IH]; intros d Hd; [done|]. cbn [foldl].
  destruct e as [op|op|x]; [|by apply IH|done]. rewrite IH by done. destruct op as [m|network fold msgid|b]; cbn; [|done|done].
  destruct (insert_message _ d) as [d1|] eqn:He; [|done]. by eapply insert_markers.
Qed.

Definition merges_only (i : store_input) : Prop := match i with IDirect (DImport _ ImportModeReplace) => False | _ => True end.

(** What was read stays read.  Along any run that replaces no data by a
    backup the read marker of a buffer only moves forward - however stale the
    positions clients report, and through merges of other databases; and so a
    line that is not unread now, in a buffer that has a marker, is never unread
    again. *)
Theorem markers_advance inputs s s' network fold :
  Forall merges_only inputs → store_run inputs s = Some s' →
  reaches (marker (st_db s) network fold) (marker (st_db s') network fold) ∧
  (∀ r, row_network r = network → row_fold r = fold → is_Some (marker (st_db s) network fold) →
     unread (st_db s') r → unread (st_db s) r).
Proof.
  intros Hm Hr. assert (Hre : reaches (marker (st_db s) network fold) (marker (st_db s') network fold)).
  { revert s Hr. induction Hm as [|i inputs Hi _ IH]; intros s Hr; [injection Hr as ->; apply reaches_refl|]. cbn in Hr.
    destruct (store_step i s) as [s1|] eqn:He; [|done]. cbn in Hr. eapply reaches_trans; [|by apply IH].
    unfold marker. destruct i as [now m|n b t|b|  |f| | |x]; cbn in He.
    - rewrite (enqueue_db _ _ _ He). apply reaches_refl.
    - unfold Redact in He. case_match; [injection He as <-|rewrite (enqueue_db _ _ _ He)]; apply reaches_refl.
    - rewrite (enqueue_db _ _ _ He). apply reaches_refl.
    - unfold writer_take in He. repeat case_match; try done. injection He as <-. apply reaches_refl.
    - unfold writer_commit in He. case_match; [done|]. injection He as <-. cbn. rewrite commit_markers. apply reaches_refl.
    - unfold writer_exit in He. repeat case_match; try done. injection He as <-. apply reaches_refl.
    - injection He as <-. apply reaches_refl.
    - injection He as <-. cbn. apply direct_markers. by destruct x as [| | | | | | |? []]. }
  split; [done|]. intros r Hn Hf [t Ht]. unfold unread, marker in *. rewrite Hn, Hf, Ht in *. destruct Hre as (t' & -> & Hle).
  intros (Hlt & Hs & Hc). split; [lia|done].
Qed.

(** ** What is stored reads back *)

(** As the database keeps it: the time to the millisecond, under an id. *)
Definition kept_message (id : Z) (m : message) : message :=
  m <| msg_seq := id |> <| msg_time := msg_time m / millisecond * millisecond |>.

(** A kind whose text is that of no other. *)
Definition kind_normal (k : msg_kind) : Prop := kind_of_string (kind_string k) = k.

Lemma scan_message id m : msg_time m ≠ zero_time → kind_normal (msg_kind_of m) →
  tags_json (msg_tags m) ≠ "" → json_tags (tags_json (msg_tags m)) = msg_tags m →
  scanMessage (message_row m <| row_id := id |>) = kept_message id m.
Proof.
  intros Ht Hk Hj1 Hj2. destruct m as [mid seq net buf t from acc k text tags self hl]. cbn in Ht, Hk, Hj1, Hj2.
  unfold scanMessage, message_row, kept_message, kind_normal in *. cbn -[kind_of_string kind_string boolToInt unix_milli].
  rewrite Hk.
  assert (unix_milli t = t / millisecond) as ->.
  { unfold unix_milli, time_is_zero. destruct (Z.eqb_spec t 0); [by destruct Ht|done]. }
  assert ((if String.eqb (if bool_decide (tags = ∅) then "" else tags_json tags) "" then ∅
           else json_tags (if bool_decide (tags = ∅) then "" else tags_json tags)) = tags) as ->.
  { case_bool_decide as Ht0; [by subst|]. by rewrite (proj2 (String.eqb_neq _ _) Hj1). }
  by destruct self, hl.
Qed.

Lemma backlog_last network buffer limit d l r : limit ≤ max_int64 →
  filter (λ r, in_buffer network (FoldIRC buffer) r ∧ row_id r < max_int64) (db_messages d) = l ++ [r] →
  last (Backlog network buffer 0 limit d).1 = Some (scanMessage r).
Proof.
  intros Hl He. change (Backlog network buffer 0 limit d) with (Backlog network buffer max_int64 limit d).
  rewrite (backlog_page network buffer max_int64 limit d (l ++ [r])) by done.
  assert (Hp : 0 < page_size limit) by (unfold page_size; destruct (Z.leb_spec limit 0); lia).
  case_match; cbn [fst]; [|rewrite fmap_app; apply last_snoc].
  rewrite drop_app_le by (rewrite length_app; cbn; lia). rewrite fmap_app. apply last_snoc.
Qed.

(** A printed line comes back.  When a line the buffer does not hold yet is
    committed, the newest page of its buffer ends with exactly that line, under
    a new sequence number and with its time to the millisecond: sender, account,
    kind, text, tags, own and highlight marks survive the database.  The
    hypotheses on JSON are what encoding a map and decoding it again promises. *)
Theorem message_round_trip m d d' limit :
  db_ok d → execOp (OpMsg m) d = Some d' → stored (message_row m) d = false → db_seq d + 1 < max_int64 →
  limit ≤ max_int64 → msg_time m ≠ zero_time → kind_normal (msg_kind_of m) →
  tags_json (msg_tags m) ≠ "" → json_tags (tags_json (msg_tags m)) = msg_tags m →
  last (Backlog (msg_network m) (msg_buffer m) 0 limit d').1 = Some (kept_message (db_seq d + 1) m).
Proof.
  intros Hok He Hs Hq Hl Ht Hk Hj1 Hj2. cbn in He. unfold insert_message in He. rewrite Hs in He.
  case_match; [done|]. cbv zeta in He. injection He as <-. rewrite <- scan_message by done.
  eapply backlog_last; [done|]. cbn [db_messages]. 
  change (db_messages (_ <| db_seq := _ |>)) with (db_messages d ++ [message_row m <| row_id := db_seq d + 1 |>]).
  rewrite filter_app. f_equal. rewrite filter_cons_True; [done|]. split; [done|]. cbn. lia.
Qed.
End thms.

(** ** On a small run *)

#[local] Existing Instance ascii_tables.
#[local] Existing Instance plain_sql.
#[local] Existing Instance plain_laws.
#[local] Existing Instance plain_json.
#[local] Existing Instance no_dates.

Lemma empty_ok : db_ok empty_db.
Proof. split; cbn; [constructor|constructor|lia|done]. Qed.

(** A transaction that does not begin, and a second try that goes well. *)
Definition one_flush : list store_input :=
  [IPrint 0 sample_line; IFlush 0; ITake; ITake; ICommit (Faults true (λ _, true) true (λ _, false))].

Lemma flush_sees_writes_witness : ∃ s more,
  store_run one_flush (Open empty_db) = Some s ∧ st_db s = foldl apply_entry (migrate empty_db) (story one_flush (Open empty_db)) ∧
  more `prefix_of` [] ∧ writes_of (story one_flush (Open empty_db)) = [OpMsg sample_line; OpBarrier 0] ++ more ∧
  lost_of (story one_flush (Open empty_db)) = [] ∧ length (db_messages (st_db s)) = 1%nat.
Proof.
  assert (Hs : ∃ s, store_run one_flush (Open empty_db) = Some s ∧ bool_decide (0%nat ∈ st_released s) = true ∧
    length (db_messages (st_db s)) = 1%nat) by (eexists; split; [vm_compute; reflexivity|split; vm_compute; reflexivity]).
  destruct Hs as (s & Hs & Hb & Hl). apply bool_decide_eq_true in Hb. exists s.
  destruct (flush_sees_writes empty_db one_flush s [OpMsg sample_line] 0 []) as (Hdb & _ & (more & Hm & Hw) & Hf);
    [exact Hs|reflexivity| |exact Hb|].
  - intros Hin%list_elem_of_singleton. discriminate.
  - exists more. split_and!; [exact Hs|exact Hdb|exact Hm|exact Hw| |exact Hl]. apply Hf. repeat constructor.
Defined.

Lemma writer_progress_witness : ∃ s,
  store_run [IPrint 0 sample_line] (Open empty_db) = Some s ∧
  (is_Some (store_step ITake s) ∨ is_Some (store_step (ICommit no_faults) s)).
Proof.
  eexists. split; [reflexivity|].
  apply (proj1 (writer_progress empty_db [IPrint 0 sample_line] _ no_faults eq_refl)). discriminate.
Defined.

(** Three lines, read in pages of one while a fourth arrives. *)
Definition sample_db (n : nat) : database :=
  foldl (λ d k, default d (insert_message (message_row (sample_line <| msg_id := itoa (Z.of_nat k) |>)) d)) empty_db (seq 1 n).

Definition arriving (i : nat) : database := sample_db (if (i =? 0)%nat then 3 else 4).

Lemma backlog_pages_witness : ∃ fuel,
  scroll fuel arriving 0 "net" "#go" 0 1 = Some (scanMessage <$> buffer_rows "net" "#go" (arriving 0)) ∧
  length (buffer_rows "net" "#go" (arriving 0)) = 3%nat.
Proof.
  destruct (backlog_pages "net" "#go" 1 arriving) as [fuel Hf].
  - split; [repeat constructor|repeat constructor| |reflexivity]; vm_compute; discriminate.
  - vm_compute. reflexivity.
  - intros i. destruct i as [|i].
    + exists []. split; [vm_compute; reflexivity|constructor].
    + eexists [_]. split; [vm_compute; reflexivity|]. repeat constructor.
  - vm_compute. discriminate.
  - exists fuel. split; [exact Hf|vm_compute; reflexivity].
Defined.

Lemma prune_exact_witness : ∃ d' n fin,
  Prune (λ _, false) (6 * second) (sample_db 3) = Some (d', n, fin) ∧ db_messages d' = [] ∧ n = 3.
Proof.
  destruct (prune_exact (λ _, false) (6 * second) (sample_db 3)) as (d' & n & fin & He & _ & _ & Hn & Hf & Hc).
  - split; [repeat constructor|repeat constructor| |reflexivity]; vm_compute; discriminate.
  - exists d', n, fin. split; [exact He|]. assert (Hd : db_messages d' = []).
    { rewrite (Hf (Hc (λ _, eq_refl))). vm_compute. reflexivity. }
    split; [exact Hd|]. rewrite Hn, Hd. reflexivity.
Defined.

Lemma markers_advance_witness :
  let inputs := [IDirect (DMarkRead 0 "net" "#go" (9 * second)); IDirect (DMarkRead 0 "net" "#go" (3 * second))] in
  ∃ s, store_run inputs (Open empty_db) = Some s ∧
    reaches (marker (st_db (Open empty_db)) "net" "#go") (marker (st_db s) "net" "#go") ∧
    marker (st_db s) "net" "#go" = Some 9000.
Proof.
  cbv zeta. eexists. split; [reflexivity|]. split; [|vm_compute; reflexivity].
  apply (markers_advance [IDirect (DMarkRead 0 "net" "#go" (9 * second)); IDirect (DMarkRead 0 "net" "#go" (3 * second))]);
    [repeat constructor|reflexivity].
Defined.

Lemma message_round_trip_witness : ∃ d',
  execOp (OpMsg sample_line) empty_db = Some d' ∧
  last (Backlog "net" "#Go" 0 10 d').1 = Some (kept_message 1 sample_line).
Proof.
  eexists. split; [reflexivity|].
  apply (message_round_trip sample_line empty_db _ 10); try reflexivity; try discriminate. apply empty_ok.
Defined.

(** A backup of a build that did not fold buffer names cannot be merged into a
    history that holds one of its lines: the import inserts the line under an
    empty name, where the index does not see the other, and the statement that
    then fills in the name breaks the index. *)
Definition old_backup : backup :=
  Backup ["messages"] ["id"; "msgid"; "network"; "buffer"; "ts"; "kind"; "text"]
    [message_row sample_line <| row_id := 1 |>] ∅ ∅ ∅ ∅.

Lemma old_backup_merge_fails : ∃ d,
  execOp (OpMsg sample_line) empty_db = Some d ∧ Import old_backup ImportModeMerge d = None ∧
  is_Some (Import old_backup ImportModeReplace d).
Proof. eexists. split; [reflexivity|]. split; [vm_compute; reflexivity|]. vm_compute. by eexists. Qed.
