(* ===== verification/StoreSearch.v ===== *)
(** * Names and search terms in SQL

    Two places where Go hands strings to SQL and both must agree: the case
    mapping, which the migrations and the sender filter compute with nested
    [replace] calls ([sql_fold_agrees]), and the match expression, into which
    the words of a search are quoted ([search_terms_literal]). *)

From Stdlib Require Import ZArith Lia Ascii Bool.
From stdpp Require Import base tactics list gmap strings sorting.
From S2P Require Import Prelude GoStrings Utf8 GoNet CoreTypes CoreEvent StoreDb StoreQuery.

#[local] Open Scope Z_scope.

(** ** The case mapping *)

(** The nested calls, byte by byte. *)
Definition sql_fold_byte (a : ascii) : ascii :=
  let r (x y c : ascii) := if Ascii.eqb c x then y else c in
  r "~"%char "^"%char (r "\"%char "|"%char (r "]"%char "}"%char (r "["%char "{"%char (ascii_lower a)))).

Lemma str_map_map f g s : str_map f (str_map g s) = str_map (λ a, f (g a)) s.
Proof. induction s as [|a s IH]; [done|]. cbn. by rewrite IH. Qed.

Lemma sql_fold_bytes s : sql_fold s = str_map sql_fold_byte s.
Proof. unfold sql_fold, sql_replace, sql_lower. by rewrite !str_map_map. Qed.

(** A fact about every byte, by looking at all of them. *)
Lemma all_bytes (P : ascii → bool) : forallb (λ n, P (ascii_of_nat n)) (seq 0 256) = true → ∀ a, P a = true.
Proof.
  intros Hall a. rewrite forallb_forall in Hall. rewrite <- (ascii_nat_embedding a). apply Hall. apply in_seq.
  pose proof (nat_ascii_bounded a). lia.
Qed.

Lemma fold_byte_high a : 128 ≤ byte_z a → sql_fold_byte a = a.
Proof.
  assert (Hc : ∀ a, (byte_z a <? 128) || Ascii.eqb (sql_fold_byte a) a = true) by (apply all_bytes; by vm_compute).
  specialize (Hc a). intros Ha. destruct (Z.ltb_spec (byte_z a) 128); [lia|]. by apply Ascii.eqb_eq.
Qed.

Lemma fold_byte_low a : byte_z a < 128 → sql_fold_byte a = byte_of_z (fold_rune (byte_z a)).
Proof.
  assert (Hc : ∀ a, negb (byte_z a <? 128) || Ascii.eqb (sql_fold_byte a) (byte_of_z (fold_rune (byte_z a))) = true)
    by (apply all_bytes; by vm_compute).
  specialize (Hc a). intros Ha. destruct (Z.ltb_spec (byte_z a) 128); [|lia]. by apply Ascii.eqb_eq.
Qed.

Lemma fold_rune_range r : 0 ≤ r → 0 ≤ fold_rune r ∧ (r < 128 → fold_rune r < 128) ∧ (128 ≤ r → fold_rune r = r).
Proof.
  intros Hr. unfold fold_rune. destruct (between 65 90 r) eqn:Hb; [apply between_spec in Hb; lia|].
  repeat (case_match; [boolify; lia|]). lia.
Qed.

Lemma fold_high_bytes l : Forall (λ z, 128 ≤ z < 256) l →
  str_map sql_fold_byte (String.string_of_list_ascii (byte_of_z <$> l)) = String.string_of_list_ascii (byte_of_z <$> l).
Proof.
  induction 1 as [|z l Hz _ IH]; [done|]. cbn. rewrite IH, fold_byte_high; [done|]. rewrite byte_z_of_z; lia.
Qed.

(** One rune at a time. *)
Lemma fold_encoded r : scalar r = true → str_map sql_fold_byte (encode_rune r) = encode_rune (fold_rune r).
Proof.
  intros Hs. pose proof Hs as Hr. apply scalar_spec in Hr. destruct (fold_rune_range r) as (F1 & F2 & F3); [lia|].
  destruct (decide (r < 128)) as [Hlt|Hge].
  - rewrite !encode_1 by lia. cbn. f_equal. rewrite fold_byte_low; rewrite byte_z_of_z by lia; [done|lia].
  - rewrite F3 by lia.
    assert (Hl : ∃ l, encode_rune r = String.string_of_list_ascii (byte_of_z <$> l) ∧ Forall (λ z, 128 ≤ z < 256) l).
    { pose proof (Z.mod_pos_bound r 64 ltac:(lia)). pose proof (Z.mod_pos_bound (r / 64) 64 ltac:(lia)).
      pose proof (Z.mod_pos_bound (r / 4096) 64 ltac:(lia)).
      destruct (decide (r < 2048)); [|destruct (decide (r < 65536))].
      - exists [192 + r / 64; 128 + r mod 64]. rewrite encode_2 by lia. split; [done|].
        assert (0 ≤ r / 64 < 32) by (split; [apply Z.div_pos; lia|apply Z.div_lt_upper_bound; lia]).
        repeat constructor; lia.
      - exists [224 + r / 4096; 128 + (r / 64) mod 64; 128 + r mod 64]. rewrite encode_3 by (done || lia). split; [done|].
        assert (0 ≤ r / 4096 < 16) by (split; [apply Z.div_pos; lia|apply Z.div_lt_upper_bound; lia]).
        repeat constructor; lia.
      - exists [240 + r / 262144; 128 + (r / 4096) mod 64; 128 + (r / 64) mod 64; 128 + r mod 64].
        rewrite encode_4 by lia. split; [done|].
        assert (0 ≤ r / 262144 < 5) by (split; [apply Z.div_pos; lia|apply Z.div_lt_upper_bound; lia]).
        repeat constructor; lia. }
    destruct Hl as (l & -> & Hl). by apply fold_high_bytes.
Qed.

Lemma fold_of_runes l : Forall (λ r, scalar r = true) l → str_map sql_fold_byte (of_runes l) = of_runes (fold_rune <$> l).
Proof.
  unfold of_runes. induction 1 as [|r l Hr _ IH]; [done|]. rewrite !fmap_cons, !str_concat_cons, str_map_app, IH.
  by rewrite fold_encoded.
Qed.

(** SQL and Go fold names alike.  On every name that is text (valid UTF-8)
    the expression the migrations, the imports and the sender filter fold names
    with gives what [FoldIRC] gives, under which the same names are stored and
    looked up. *)
Theorem sql_fold_agrees s : valid_utf8 s = true → sql_fold s = FoldIRC s.
Proof.
  intros Hv. rewrite sql_fold_bytes. rewrite <- (to_valid_valid s Hv). unfold to_valid, FoldIRC.
  pose proof (runes_scalar s) as Hr. rewrite fold_of_runes by done. symmetry.
  apply map_runes_of_runes; [done|].
  eapply Forall_impl; [exact Hr|]. intros r Hs%scalar_spec. apply fold_rune_range. lia.
Qed.

(** ** The match expression *)

(** FTS5 strings: in quotes, with quotes inside doubled; anything but strings
    and blanks between them would be an operator or a column filter. *)
Inductive fts_state := FOut | FIn (acc : string) | FQuote (acc : string).

Fixpoint fts_lex (s : string) (st : fts_state) : option (list string) :=
  match s, st with
  | "", FOut => Some []
  | "", FIn _ => None
  | "", FQuote acc => Some [acc]
  | String c s, FOut =>
      if Ascii.eqb c SP then fts_lex s FOut else if Ascii.eqb c quote_char then fts_lex s (FIn "") else None
  | String c s, FIn acc =>
      if Ascii.eqb c quote_char then fts_lex s (FQuote acc) else fts_lex s (FIn (acc +:+ String c ""))
  | String c s, FQuote acc =>
      if Ascii.eqb c quote_char then fts_lex s (FIn (acc +:+ DQUOTE))
      else if Ascii.eqb c SP then cons acc <$> fts_lex s FOut else None
  end%string.

Lemma lex_quoted f : ∀ rest acc,
  fts_lex (replace_byte quote_char (DQUOTE +:+ DQUOTE) f +:+ DQUOTE +:+ rest) (FIn acc) = fts_lex rest (FQuote (acc +:+ f)).
Proof.
  induction f as [|c f IH]; intros rest acc; [by rewrite str_app_nil_r|]. cbn [replace_byte].
  destruct (Ascii.eqb_spec c quote_char) as [->|Hn].
  - change (fts_lex (replace_byte quote_char (DQUOTE +:+ DQUOTE) f +:+ DQUOTE +:+ rest) (FIn (acc +:+ DQUOTE)) =
            fts_lex rest (FQuote (acc +:+ String quote_char f))).
    rewrite IH. by rewrite str_app_assoc.
  - change (String c (replace_byte quote_char (DQUOTE +:+ DQUOTE) f) +:+ DQUOTE +:+ rest)
      with (String c (replace_byte quote_char (DQUOTE +:+ DQUOTE) f +:+ DQUOTE +:+ rest)).
    cbn [fts_lex]. rewrite (proj2 (Ascii.eqb_neq c quote_char) Hn), IH. by rewrite str_app_assoc.
Qed.

Lemma lex_terms l : fts_lex (str_join " " (fts_quote <$> l)) FOut = Some l.
Proof.
  assert (Hq : ∀ f rest, fts_lex (fts_quote f +:+ rest) FOut = fts_lex rest (FQuote f)).
  { intros f rest. unfold fts_quote.
    change (String quote_char (replace_byte quote_char (DQUOTE +:+ DQUOTE) f +:+ DQUOTE) +:+ rest)
      with (String quote_char ((replace_byte quote_char (DQUOTE +:+ DQUOTE) f +:+ DQUOTE) +:+ rest)).
    rewrite str_app_assoc.
    change (fts_lex (replace_byte quote_char (DQUOTE +:+ DQUOTE) f +:+ DQUOTE +:+ rest) (FIn "") = fts_lex rest (FQuote f)).
    by rewrite lex_quoted. }
  induction l as [|f l IH]; [done|]. destruct l as [|g l].
  - cbn [fmap list_fmap str_join]. rewrite <- (str_app_nil_r (fts_quote f)). by rewrite Hq.
  - rewrite !fmap_cons, str_join_cons, Hq. rewrite fmap_cons in IH.
    change (cons f <$> fts_lex (str_join " " (fts_quote g :: (fts_quote <$> l))) FOut = Some (f :: g :: l)). by rewrite IH.
Qed.

(** Search words stay words.  Whatever is typed into the search, quotes and
    the operators of the query language included, the match expression is a
    sequence of strings and nothing else, and these strings are exactly the
    words of the query of three characters or more; the shorter words are
    looked for one by one, so no word is dropped. *)
Theorem search_terms_literal `{UnicodeTables} raw :
  fts_lex (searchQuery raw).1 FOut = Some (filter (λ f, is_short f = false) (fields raw)) ∧
  (∀ f, f ∈ fields raw → f ∈ (searchQuery raw).2 ∨ f ∈ filter (λ f, is_short f = false) (fields raw)).
Proof.
  split; [apply lex_terms|]. intros f Hf. unfold searchQuery. cbn [snd]. rewrite !list_elem_of_filter. destruct (is_short f); [by left|by right].
Qed.

Lemma sql_fold_agrees_witness : valid_utf8 "#Go[Dev]~" = true ∧ sql_fold "#Go[Dev]~" = FoldIRC "#Go[Dev]~".
Proof. split; [reflexivity|]. apply sql_fold_agrees. reflexivity. Defined.
