(* ===== verification/WebProto.v ===== *)
(** * The wire messages of the web client

    [internal/proto]: the frames the daemon and the browser exchange, one record
    per payload.  A JSON document is a tree ([json]); what [json.Unmarshal] makes
    of one is written out for every payload a client may send: fields are matched
    by name without regard to case, unknown ones are skipped, null leaves a field
    alone, and any field of the wrong type fails the whole.  The text of a
    document is a parameter ([JsonText]). *)

From Stdlib Require Import ZArith Lia Ascii Bool.
From stdpp Require Import base tactics list gmap strings.
From S2P Require Import Prelude GoStrings.

#[local] Open Scope Z_scope.

(** ** Documents *)

Inductive json :=
  | JNull
  | JBool (b : bool)
  | JNum (lit : string)                       (** the literal *)
  | JStr (s : string)
  | JArr (l : list json)
  | JObj (l : list (string * json)).          (** in the order of the text *)

(** [encoding/json] on text: printing, parsing, and the literal a number has
    after it went through a float64, as one in an [any] does. *)
Class JsonText := {
  json_text : json → string;
  text_json : string → option json;
  float_literal : string → option string;
}.

(** A document in which nothing is lost by printing it. *)
Fixpoint json_clean (j : json) : bool :=
  match j with
  | JNull | JBool _ => true
  | JNum l => match atoi l with Some _ => true | None => false end
  | JStr s => valid_utf8 s
  | JArr l => forallb json_clean l
  | JObj l => forallb (λ '(k, v), valid_utf8 k && json_clean v) l
  end.

(** What its documentation promises. *)
Class JsonLaws (J : JsonText) := {
  text_json_text : ∀ j, json_clean j = true → text_json (json_text j) = Some j;
  text_json_empty : text_json "" = None;
}.

(** ** Decoding values; the second argument is what the field holds so far *)

Definition dec_str (j : json) (old : string) : option string :=
  match j with JStr s => Some s | JNull => Some old | _ => None end.

Definition dec_bool (j : json) (old : bool) : option bool :=
  match j with JBool b => Some b | JNull => Some old | _ => None end.

Definition dec_int (j : json) (old : Z) : option Z :=
  match j with JNum l => atoi l | JNull => Some old | _ => None end.

Definition dec_strs (j : json) (old : list string) : option (list string) :=
  match j with
  | JArr l => mapM (λ '(i, j), dec_str j (default "" (old !! i))) (zip (seq 0 (length l)) l)
  | JNull => Some []
  | _ => None
  end.

(** A map keeps what it held. *)
Definition dec_str_map (j : json) (old : gmap string string) : option (gmap string string) :=
  match j with
  | JObj l => foldl (λ m '(k, j), m ← m; s ← dec_str j ""; Some (<[k := s]> m)) (Some old) l
  | JNull => Some ∅
  | _ => None
  end.

Section any.
Context `{JsonText}.

(** An [any]: a number becomes a float64. *)
Fixpoint dec_any (j : json) : option json :=
  match j with
  | JNum l => JNum <$> float_literal l
  | JArr l => JArr <$> mapM dec_any l
  | JObj l => JObj <$> mapM (λ '(k, v), v ← dec_any v; Some (k, v)) l
  | _ => Some j
  end.

(** A [map[string]any]; [None] inside is the nil map. *)
Definition dec_any_map (j : json) (old : option (gmap string json)) : option (option (gmap string json)) :=
  match j with
  | JObj l => Some <$> foldl (λ m '(k, j), m ← m; v ← dec_any j; Some (<[k := v]> m)) (Some (default ∅ old)) l
  | JNull => Some None
  | _ => None
  end.
End any.

(** ** Decoding structs *)

(** A field: its name in the document, and how a value updates the struct. *)
Definition slot (T : Type) : Type := string * (json → T → option T).

(** [foldName]: upper case; the two runes outside ASCII that fold into it. *)
Definition fold_name (s : string) : string :=
  map_runes (λ r, if between 97 122 r then r - 32 else if r =? 383 then 83 else if r =? 8490 then 75 else r) s.

Definition find_slot {T} (fs : list (slot T)) (key : string) : option (slot T) :=
  match find (λ f, String.eqb f.1 key) fs with
  | Some f => Some f
  | None => find (λ f, String.eqb (fold_name f.1) (fold_name key)) fs
  end.

Definition dec_field {T} (fs : list (slot T)) (v : option T) (e : string * json) : option T :=
  v ← v; match find_slot fs e.1 with Some f => f.2 e.2 v | None => Some v end.

Class Payload (T : Type) := { zero : T; fields_of : list (slot T) }.

(** [json.Unmarshal] into a fresh [T]; [None] is any error. *)
Definition unmarshal `{Payload T} (j : json) : option T :=
  match j with
  | JObj l => foldl (dec_field fields_of) (Some zero) l
  | JNull => Some zero
  | _ => None
  end.

(** Into a slice of [T]. *)
Definition unmarshal_list `{Payload T} (j : json) : option (list T) :=
  match j with JArr l => mapM unmarshal l | JNull => Some [] | _ => None end.

Notation "'json_field' k p dec" := (k%string, λ (j : json) v, a ← dec j (p v); Some (v <| p := a |>))
  (at level 10, k at level 9, p at level 9, dec at level 9, only parsing).

(** ** Frames *)

(** [Envelope]; [None] in [env_d] is an empty payload. *)
Record envelope := Envelope { env_t : string; env_id : string; env_d : option json }.

#[export] Instance eta_envelope : Eta envelope := λ r, Envelope (env_t r) (env_id r) (env_d r).
#[export] Instance payload_envelope : Payload envelope := {
  zero := Envelope "" "" None;
  fields_of := [json_field "t" env_t dec_str; json_field "id" env_id dec_str;
                ("d"%string, λ j v, Some (v <| env_d := Some j |>))] }.

(** [decode]. *)
Definition decode `{Payload T} (env : envelope) : option T := d ← env_d env; unmarshal d.

(** ** What a client sends *)

Record MsgSend := MkMsgSend { ms_network : string; ms_buffer : string; ms_text : string }.

#[export] Instance eta_MsgSend : Eta MsgSend := λ r,
  MkMsgSend (ms_network r) (ms_buffer r) (ms_text r).
#[export] Instance payload_MsgSend : Payload MsgSend := {
  zero := MkMsgSend "" "" "";
  fields_of := [json_field "network" ms_network dec_str; json_field "buffer" ms_buffer dec_str;
                json_field "text" ms_text dec_str] }.

Record BacklogFetch := MkBacklogFetch { bf_network : string; bf_buffer : string; bf_before_seq : Z;
  bf_anchor : string; bf_around : string; bf_limit : Z }.

#[export] Instance eta_BacklogFetch : Eta BacklogFetch := λ r,
  MkBacklogFetch (bf_network r) (bf_buffer r) (bf_before_seq r) (bf_anchor r) (bf_around r) (bf_limit r).
#[export] Instance payload_BacklogFetch : Payload BacklogFetch := {
  zero := MkBacklogFetch "" "" 0 "" "" 0;
  fields_of := [json_field "network" bf_network dec_str; json_field "buffer" bf_buffer dec_str;
                json_field "before_seq" bf_before_seq dec_int; json_field "anchor" bf_anchor dec_str;
                json_field "around" bf_around dec_str; json_field "limit" bf_limit dec_int] }.

Record ContextFetch := MkContextFetch { cf_network : string; cf_buffer : string; cf_id : string;
  cf_around : string; cf_limit : Z }.

#[export] Instance eta_ContextFetch : Eta ContextFetch := λ r,
  MkContextFetch (cf_network r) (cf_buffer r) (cf_id r) (cf_around r) (cf_limit r).
#[export] Instance payload_ContextFetch : Payload ContextFetch := {
  zero := MkContextFetch "" "" "" "" 0;
  fields_of := [json_field "network" cf_network dec_str; json_field "buffer" cf_buffer dec_str;
                json_field "id" cf_id dec_str; json_field "around" cf_around dec_str;
                json_field "limit" cf_limit dec_int] }.

Record SearchReq := MkSearchReq { sr_query : string; sr_network : string; sr_buffer : string; sr_limit : Z }.

#[export] Instance eta_SearchReq : Eta SearchReq := λ r,
  MkSearchReq (sr_query r) (sr_network r) (sr_buffer r) (sr_limit r).
#[export] Instance payload_SearchReq : Payload SearchReq := {
  zero := MkSearchReq "" "" "" 0;
  fields_of := [json_field "query" sr_query dec_str; json_field "network" sr_network dec_str;
                json_field "buffer" sr_buffer dec_str; json_field "limit" sr_limit dec_int] }.

Record NetAdd := MkNetAdd { na_name : string; na_addr : string; na_fallbacks : list string; na_tls : bool;
  na_insecure : bool; na_nick : string; na_user : string; na_realname : string; na_sasl_user : string;
  na_sasl_pass : string; na_server_pass : string; na_perform : list string; na_sasl_external : bool;
  na_sasl_scram : bool; na_cert_pem : string; na_channels : list string }.

#[export] Instance eta_NetAdd : Eta NetAdd := λ r,
  MkNetAdd (na_name r) (na_addr r) (na_fallbacks r) (na_tls r) (na_insecure r) (na_nick r) (na_user r)
    (na_realname r) (na_sasl_user r) (na_sasl_pass r) (na_server_pass r) (na_perform r) (na_sasl_external r)
    (na_sasl_scram r) (na_cert_pem r) (na_channels r).
#[export] Instance payload_NetAdd : Payload NetAdd := {
  zero := MkNetAdd "" "" [] false false "" "" "" "" "" "" [] false false "" [];
  fields_of := [json_field "name" na_name dec_str; json_field "addr" na_addr dec_str;
                json_field "fallbacks" na_fallbacks dec_strs; json_field "tls" na_tls dec_bool;
                json_field "insecure" na_insecure dec_bool; json_field "nick" na_nick dec_str;
                json_field "user" na_user dec_str; json_field "realname" na_realname dec_str;
                json_field "sasl_user" na_sasl_user dec_str; json_field "sasl_pass" na_sasl_pass dec_str;
                json_field "server_pass" na_server_pass dec_str; json_field "perform" na_perform dec_strs;
                json_field "sasl_external" na_sasl_external dec_bool;
                json_field "sasl_scram" na_sasl_scram dec_bool; json_field "cert_pem" na_cert_pem dec_str;
                json_field "channels" na_channels dec_strs] }.

Record NetRemove := MkNetRemove { nr_network : string }.

#[export] Instance eta_NetRemove : Eta NetRemove := λ r,
  MkNetRemove (nr_network r).
#[export] Instance payload_NetRemove : Payload NetRemove := {
  zero := MkNetRemove "";
  fields_of := [json_field "network" nr_network dec_str] }.

Record NetReorder := MkNetReorder { no_networks : list string }.

#[export] Instance eta_NetReorder : Eta NetReorder := λ r,
  MkNetReorder (no_networks r).
#[export] Instance payload_NetReorder : Payload NetReorder := {
  zero := MkNetReorder [];
  fields_of := [json_field "networks" no_networks dec_strs] }.

Record BufReorder := MkBufReorder { bo_network : string; bo_buffers : list string }.

#[export] Instance eta_BufReorder : Eta BufReorder := λ r,
  MkBufReorder (bo_network r) (bo_buffers r).
#[export] Instance payload_BufReorder : Payload BufReorder := {
  zero := MkBufReorder "" [];
  fields_of := [json_field "network" bo_network dec_str; json_field "buffers" bo_buffers dec_strs] }.

Record ListReq := MkListReq { lr_network : string; lr_query : string }.

#[export] Instance eta_ListReq : Eta ListReq := λ r,
  MkListReq (lr_network r) (lr_query r).
#[export] Instance payload_ListReq : Payload ListReq := {
  zero := MkListReq "" "";
  fields_of := [json_field "network" lr_network dec_str; json_field "query" lr_query dec_str] }.

Record Typing := MkTyping { ty_network : string; ty_buffer : string; ty_nick : string; ty_state : string }.

#[export] Instance eta_Typing : Eta Typing := λ r,
  MkTyping (ty_network r) (ty_buffer r) (ty_nick r) (ty_state r).
#[export] Instance payload_Typing : Payload Typing := {
  zero := MkTyping "" "" "" "";
  fields_of := [json_field "network" ty_network dec_str; json_field "buffer" ty_buffer dec_str;
                json_field "nick" ty_nick dec_str; json_field "state" ty_state dec_str] }.

Record React := MkReact { re_network : string; re_buffer : string; re_target : string; re_nick : string;
  re_reaction : string }.

#[export] Instance eta_React : Eta React := λ r,
  MkReact (re_network r) (re_buffer r) (re_target r) (re_nick r) (re_reaction r).
#[export] Instance payload_React : Payload React := {
  zero := MkReact "" "" "" "" "";
  fields_of := [json_field "network" re_network dec_str; json_field "buffer" re_buffer dec_str;
                json_field "target" re_target dec_str; json_field "nick" re_nick dec_str;
                json_field "reaction" re_reaction dec_str] }.

Record Redact := MkRedact { rd_network : string; rd_buffer : string; rd_target : string; rd_by : string;
  rd_reason : string }.

#[export] Instance eta_Redact : Eta Redact := λ r,
  MkRedact (rd_network r) (rd_buffer r) (rd_target r) (rd_by r) (rd_reason r).
#[export] Instance payload_Redact : Payload Redact := {
  zero := MkRedact "" "" "" "" "";
  fields_of := [json_field "network" rd_network dec_str; json_field "buffer" rd_buffer dec_str;
                json_field "target" rd_target dec_str; json_field "by" rd_by dec_str;
                json_field "reason" rd_reason dec_str] }.

Record ReadMark := MkReadMark { rm_network : string; rm_buffer : string; rm_timestamp : string }.

#[export] Instance eta_ReadMark : Eta ReadMark := λ r,
  MkReadMark (rm_network r) (rm_buffer r) (rm_timestamp r).
#[export] Instance payload_ReadMark : Payload ReadMark := {
  zero := MkReadMark "" "" "";
  fields_of := [json_field "network" rm_network dec_str; json_field "buffer" rm_buffer dec_str;
                json_field "timestamp" rm_timestamp dec_str] }.

Record NetConnect := MkNetConnect { nc_network : string; nc_connect : bool }.

#[export] Instance eta_NetConnect : Eta NetConnect := λ r,
  MkNetConnect (nc_network r) (nc_connect r).
#[export] Instance payload_NetConnect : Payload NetConnect := {
  zero := MkNetConnect "" false;
  fields_of := [json_field "network" nc_network dec_str; json_field "connect" nc_connect dec_bool] }.

Record NetInfoReq := MkNetInfoReq { ni_network : string }.

#[export] Instance eta_NetInfoReq : Eta NetInfoReq := λ r,
  MkNetInfoReq (ni_network r).
#[export] Instance payload_NetInfoReq : Payload NetInfoReq := {
  zero := MkNetInfoReq "";
  fields_of := [json_field "network" ni_network dec_str] }.

Record NetConfig := MkNetConfig { cfg_network : string; cfg_name : string; cfg_addr : string;
  cfg_fallbacks : list string; cfg_tls : bool; cfg_insecure : bool; cfg_nick : string; cfg_user : string;
  cfg_realname : string; cfg_sasl_user : string; cfg_sasl_pass : string; cfg_server_pass : string;
  cfg_perform : list string; cfg_sasl_external : bool; cfg_sasl_scram : bool; cfg_cert_pem : string;
  cfg_channels : list string }.

#[export] Instance eta_NetConfig : Eta NetConfig := λ r,
  MkNetConfig (cfg_network r) (cfg_name r) (cfg_addr r) (cfg_fallbacks r) (cfg_tls r) (cfg_insecure r)
    (cfg_nick r) (cfg_user r) (cfg_realname r) (cfg_sasl_user r) (cfg_sasl_pass r) (cfg_server_pass r)
    (cfg_perform r) (cfg_sasl_external r) (cfg_sasl_scram r) (cfg_cert_pem r) (cfg_channels r).
#[export] Instance payload_NetConfig : Payload NetConfig := {
  zero := MkNetConfig "" "" "" [] false false "" "" "" "" "" "" [] false false "" [];
  fields_of := [json_field "network" cfg_network dec_str; json_field "name" cfg_name dec_str;
                json_field "addr" cfg_addr dec_str; json_field "fallbacks" cfg_fallbacks dec_strs;
                json_field "tls" cfg_tls dec_bool; json_field "insecure" cfg_insecure dec_bool;
                json_field "nick" cfg_nick dec_str; json_field "user" cfg_user dec_str;
                json_field "realname" cfg_realname dec_str; json_field "sasl_user" cfg_sasl_user dec_str;
                json_field "sasl_pass" cfg_sasl_pass dec_str; json_field "server_pass" cfg_server_pass dec_str;
                json_field "perform" cfg_perform dec_strs;
                json_field "sasl_external" cfg_sasl_external dec_bool;
                json_field "sasl_scram" cfg_sasl_scram dec_bool; json_field "cert_pem" cfg_cert_pem dec_str;
                json_field "channels" cfg_channels dec_strs] }.

Record PluginAction := MkPluginAction { pa_name : string; pa_action : string; pa_url : string }.

#[export] Instance eta_PluginAction : Eta PluginAction := λ r,
  MkPluginAction (pa_name r) (pa_action r) (pa_url r).
#[export] Instance payload_PluginAction : Payload PluginAction := {
  zero := MkPluginAction "" "" "";
  fields_of := [json_field "name" pa_name dec_str; json_field "action" pa_action dec_str;
                json_field "url" pa_url dec_str] }.

Record PluginSettingReq := MkPluginSettingReq { ps_name : string; ps_key : string; ps_value : string }.

#[export] Instance eta_PluginSettingReq : Eta PluginSettingReq := λ r,
  MkPluginSettingReq (ps_name r) (ps_key r) (ps_value r).
#[export] Instance payload_PluginSettingReq : Payload PluginSettingReq := {
  zero := MkPluginSettingReq "" "" "";
  fields_of := [json_field "name" ps_name dec_str; json_field "key" ps_key dec_str;
                json_field "value" ps_value dec_str] }.

Record CompleteReq := MkCompleteReq { cq_network : string; cq_buffer : string; cq_word : string; cq_seq : Z }.

#[export] Instance eta_CompleteReq : Eta CompleteReq := λ r,
  MkCompleteReq (cq_network r) (cq_buffer r) (cq_word r) (cq_seq r).
#[export] Instance payload_CompleteReq : Payload CompleteReq := {
  zero := MkCompleteReq "" "" "" 0;
  fields_of := [json_field "network" cq_network dec_str; json_field "buffer" cq_buffer dec_str;
                json_field "word" cq_word dec_str; json_field "seq" cq_seq dec_int] }.

Record HighlightRules := MkHighlightRules { hr_patterns : list string; hr_exceptions : list string }.

#[export] Instance eta_HighlightRules : Eta HighlightRules := λ r,
  MkHighlightRules (hr_patterns r) (hr_exceptions r).
#[export] Instance payload_HighlightRules : Payload HighlightRules := {
  zero := MkHighlightRules [] [];
  fields_of := [json_field "patterns" hr_patterns dec_strs; json_field "exceptions" hr_exceptions dec_strs] }.

Record AliasTable := MkAliasTable { at_aliases : gmap string string }.

#[export] Instance eta_AliasTable : Eta AliasTable := λ r,
  MkAliasTable (at_aliases r).
#[export] Instance payload_AliasTable : Payload AliasTable := {
  zero := MkAliasTable ∅;
  fields_of := [json_field "aliases" at_aliases dec_str_map] }.

Record MuteRef := MkMuteRef { mr_network : string; mr_buffer : string }.

#[export] Instance eta_MuteRef : Eta MuteRef := λ r,
  MkMuteRef (mr_network r) (mr_buffer r).
#[export] Instance payload_MuteRef : Payload MuteRef := {
  zero := MkMuteRef "" "";
  fields_of := [json_field "network" mr_network dec_str; json_field "buffer" mr_buffer dec_str] }.

Record MuteSet := MkMuteSet { mu_network : string; mu_buffer : string; mu_muted : bool }.

#[export] Instance eta_MuteSet : Eta MuteSet := λ r,
  MkMuteSet (mu_network r) (mu_buffer r) (mu_muted r).
#[export] Instance payload_MuteSet : Payload MuteSet := {
  zero := MkMuteSet "" "" false;
  fields_of := [json_field "network" mu_network dec_str; json_field "buffer" mu_buffer dec_str;
                json_field "muted" mu_muted dec_bool] }.

Record MonitorRef := MkMonitorRef { mo_network : string; mo_nick : string }.

#[export] Instance eta_MonitorRef : Eta MonitorRef := λ r,
  MkMonitorRef (mo_network r) (mo_nick r).
#[export] Instance payload_MonitorRef : Payload MonitorRef := {
  zero := MkMonitorRef "" "";
  fields_of := [json_field "network" mo_network dec_str; json_field "nick" mo_nick dec_str] }.

Record BufClose := MkBufClose { bc_network : string; bc_buffer : string }.

#[export] Instance eta_BufClose : Eta BufClose := λ r,
  MkBufClose (bc_network r) (bc_buffer r).
#[export] Instance payload_BufClose : Payload BufClose := {
  zero := MkBufClose "" "";
  fields_of := [json_field "network" bc_network dec_str; json_field "buffer" bc_buffer dec_str] }.

Record Presence := MkPresence { pr_visible : bool }.

#[export] Instance eta_Presence : Eta Presence := λ r,
  MkPresence (pr_visible r).
#[export] Instance payload_Presence : Payload Presence := {
  zero := MkPresence false;
  fields_of := [json_field "visible" pr_visible dec_bool] }.

Record BNetAdd := MkBNetAdd { ba_network : string; ba_name : string; ba_host : string; ba_port : Z;
  ba_tls : bool; ba_nick : string; ba_pass : string }.

#[export] Instance eta_BNetAdd : Eta BNetAdd := λ r,
  MkBNetAdd (ba_network r) (ba_name r) (ba_host r) (ba_port r) (ba_tls r) (ba_nick r) (ba_pass r).
#[export] Instance payload_BNetAdd : Payload BNetAdd := {
  zero := MkBNetAdd "" "" "" 0 false "" "";
  fields_of := [json_field "network" ba_network dec_str; json_field "name" ba_name dec_str;
                json_field "host" ba_host dec_str; json_field "port" ba_port dec_int;
                json_field "tls" ba_tls dec_bool; json_field "nick" ba_nick dec_str;
                json_field "pass" ba_pass dec_str] }.

Record BNetRef := MkBNetRef { br_network : string; br_id : string }.

#[export] Instance eta_BNetRef : Eta BNetRef := λ r,
  MkBNetRef (br_network r) (br_id r).
#[export] Instance payload_BNetRef : Payload BNetRef := {
  zero := MkBNetRef "" "";
  fields_of := [json_field "network" br_network dec_str; json_field "id" br_id dec_str] }.

Record BouncerSet := MkBouncerSet { bs_enabled : bool }.

#[export] Instance eta_BouncerSet : Eta BouncerSet := λ r,
  MkBouncerSet (bs_enabled r).
#[export] Instance payload_BouncerSet : Payload BouncerSet := {
  zero := MkBouncerSet false;
  fields_of := [json_field "enabled" bs_enabled dec_bool] }.

Record DraftDTO := MkDraftDTO { dr_network : string; dr_buffer : string; dr_text : string }.

#[export] Instance eta_DraftDTO : Eta DraftDTO := λ r,
  MkDraftDTO (dr_network r) (dr_buffer r) (dr_text r).
#[export] Instance payload_DraftDTO : Payload DraftDTO := {
  zero := MkDraftDTO "" "" "";
  fields_of := [json_field "network" dr_network dec_str; json_field "buffer" dr_buffer dec_str;
                json_field "text" dr_text dec_str] }.

Record SettingsPayload := MkSettingsPayload { sp_settings : option (gmap string json) }.

#[export] Instance eta_SettingsPayload : Eta SettingsPayload := λ r,
  MkSettingsPayload (sp_settings r).
#[export] Instance payload_SettingsPayload `{JsonText} : Payload SettingsPayload := {
  zero := MkSettingsPayload None;
  fields_of := [json_field "settings" sp_settings dec_any_map] }.

(** ** What the daemon sends

    [SettingInfo], [PluginRow] and [CuratedRow] are [PluginSetting], [PluginInfo]
    and [CuratedPluginInfo] of this package. *)

Record Hello := MkHello { he_protocol : Z; he_server : string; he_caps : list string }.

Record MemberDTO := MkMemberDTO { md_nick : string; md_account : string; md_modes : string; md_away : bool }.

Record ChannelDTO := MkChannelDTO { cd_name : string; cd_kind : string; cd_topic : string;
  cd_topic_setter : string; cd_topic_time : string; cd_mode : string; cd_members : list MemberDTO;
  cd_unread : Z; cd_highlight : Z; cd_state : gmap string string }.

#[export] Instance eta_ChannelDTO : Eta ChannelDTO := λ r,
  MkChannelDTO (cd_name r) (cd_kind r) (cd_topic r) (cd_topic_setter r) (cd_topic_time r) (cd_mode r)
    (cd_members r) (cd_unread r) (cd_highlight r) (cd_state r).

Record FriendDTO := MkFriendDTO { fd_nick : string; fd_online : bool }.

Record BouncerNetworkDTO := MkBouncerNetworkDTO { bd_id : string; bd_name : string; bd_host : string;
  bd_port : Z; bd_tls : bool; bd_nick : string; bd_state : string; bd_error : string }.

Record NetworkDTO := MkNetworkDTO { nd_id : string; nd_name : string; nd_nick : string; nd_state : string;
  nd_caps : list string; nd_channels : list ChannelDTO; nd_friends : list FriendDTO;
  nd_bouncer_networks : list BouncerNetworkDTO }.

Record UserDTO := MkUserDTO { ud_id : string; ud_name : string }.

Record BouncerInfo := MkBouncerInfo { bi_available : bool; bi_enabled : bool; bi_host : string; bi_port : Z;
  bi_tls : bool; bi_fingerprint : string; bi_username : string; bi_auth_required : bool; bi_local_only : bool;
  bi_single_user : bool }.

Record InitState := MkInitState { is_user : UserDTO; is_networks : list NetworkDTO;
  is_highlight : HighlightRules; is_aliases : AliasTable; is_muted : list MuteRef;
  is_settings : option (gmap string json); is_drafts : list DraftDTO; is_read_markers : gmap string Z;
  is_bouncer : BouncerInfo }.

#[export] Instance eta_InitState : Eta InitState := λ r,
  MkInitState (is_user r) (is_networks r) (is_highlight r) (is_aliases r) (is_muted r) (is_settings r)
    (is_drafts r) (is_read_markers r) (is_bouncer r).

Record MessageDTO := MkMessageDTO { dm_id : string; dm_server_id : bool; dm_seq : Z; dm_network : string;
  dm_buffer : string; dm_time : string; dm_from : string; dm_account : string; dm_kind : string;
  dm_text : string; dm_self : bool; dm_highlight : bool; dm_tags : gmap string string }.

Record BacklogResp := MkBacklogResp { bp_network : string; bp_buffer : string; bp_messages : list MessageDTO;
  bp_more : bool; bp_more_newer : bool; bp_anchor : string; bp_around : string }.

Record ContextResp := MkContextResp { cr_network : string; cr_buffer : string; cr_id : string;
  cr_messages : list MessageDTO }.

Record SearchResp := MkSearchResp { sq_query : string; sq_results : list MessageDTO }.

Record MissedResp := MkMissedResp { mp_messages : list MessageDTO }.

Record ListChannel := MkListChannel { lc_name : string; lc_users : Z; lc_topic : string }.

Record ListResp := MkListResp { lp_network : string; lp_channels : list ListChannel }.

Record SettingInfo := MkSettingInfo { si_name : string; si_type : string; si_label : string; si_help : string;
  si_value : string; si_default : string; si_secret : bool; si_options : list string }.

Record PluginRow := MkPluginRow { pl_name : string; pl_description : string; pl_loaded : bool;
  pl_disabled : bool; pl_errors : Z; pl_commands : list string; pl_hooks : Z; pl_settings : list SettingInfo;
  pl_source_type : string; pl_source_url : string; pl_update_available : bool }.

Record CuratedRow := MkCuratedRow { cu_row_name : string; cu_row_description : string; cu_source_url : string;
  cu_row_installed : bool; cu_row_loaded : bool; cu_update_available : bool }.

Record PluginListResp := MkPluginListResp { pp_plugins : list PluginRow; pp_curated : list CuratedRow }.

Record CompleteRes := MkCompleteRes { co_res_seq : Z; co_res_items : list string }.

Record WireError := MkWireError { we_code : string; we_message : string }.

(** The payload of a frame. *)
Inductive payload :=
  | PHello (d : Hello) | PInit (d : InitState) | PMsg (d : MessageDTO) | PNetwork (d : NetworkDTO)
  | PNetRemove (d : NetRemove) | PNetReorder (d : NetReorder) | PNetInfo (d : NetConfig)
  | PBacklog (d : BacklogResp) | PContext (d : ContextResp) | PSearch (d : SearchResp) | PMissed (d : MissedResp)
  | PList (d : ListResp) | PTyping (d : Typing) | PReact (d : React) | PRedact (d : Redact) | PRead (d : ReadMark)
  | PPluginList (d : PluginListResp) | PComplete (d : CompleteRes) | PHighlight (d : HighlightRules)
  | PAliases (d : AliasTable) | PSettings (d : SettingsPayload) | PDraft (d : DraftDTO) | PBouncer (d : BouncerInfo)
  | PMute (d : MuteSet) | PPong | PError (d : WireError).

(** A frame the daemon sends: an [Envelope] whose payload is not marshalled yet. *)
Record frame := MkFrame { fr_t : string; fr_id : string; fr_d : payload }.

(** [Frame]; marshalling these payloads does not fail. *)
Definition Frame (t : string) (d : payload) : frame := MkFrame t "" d.

(** [Protocol]. *)
Definition Protocol : Z := 1.
