(* ===== verification/WebAuth.v ===== *)
(** * Who may talk to the web server

    [internal/auth]; [ratelimit.go] and the gate and login handlers of
    [server.go] in [internal/server]; the hub of [cmd/stugan] that joins them.
    Password hashing is a parameter ([Bcrypt]); a new token is an argument.  A
    handler that verifies a password is two steps, since requests run side by
    side between the limiter's [allow] and its [fail]. *)

From Stdlib Require Import ZArith Lia Ascii Bool.
From stdpp Require Import base tactics list gmap strings.
From S2P Require Import Prelude GoStrings GoNet WebProto.

#[local] Open Scope Z_scope.

(** ** Sessions: [auth.go] *)

(** [bcrypt.CompareHashAndPassword] succeeds. *)
Class Bcrypt := bcrypt_ok : string → string → bool.

Record session := Session { sn_user : string; sn_expires : time }.

Record Sessions := MkSessions { ss_ttl : Z; ss_toks : gmap string session }.

#[export] Instance eta_sessions : Eta Sessions := λ r, MkSessions (ss_ttl r) (ss_toks r).

Definition default_ttl : Z := 30 * 24 * hour.

Definition NewSessions (ttl : Z) : Sessions := MkSessions (if ttl <=? 0 then default_ttl else ttl) ∅.

(** [Create]; the new token is given. *)
Definition Create (now : time) (tok user : string) (s : Sessions) : Sessions :=
  s <| ss_toks ::= <[tok := Session user (now + ss_ttl s)]> |>.

Definition Lookup (now : time) (tok : string) (s : Sessions) : Sessions * option string :=
  match ss_toks s !! tok with
  | None => (s, None)
  | Some e => if sn_expires e <? now then (s <| ss_toks ::= delete tok |>, None) else (s, Some (sn_user e))
  end.

Definition Delete (tok : string) (s : Sessions) : Sessions := s <| ss_toks ::= delete tok |>.

(** [Users.Verify]; the compare for an unknown user only takes time. *)
Definition Verify `{Bcrypt} (hashes : gmap string string) (username password : string) : bool :=
  match hashes !! username with Some h => bcrypt_ok h password | None => false end.

(** ** The limiter: [ratelimit.go] *)

Record authRateLimit := RateLimit {
  rl_hits : gmap string (list time);
  rl_window : Z;
  rl_max : Z;
  rl_maxIPs : Z;
}.

#[export] Instance eta_limit : Eta authRateLimit := λ r, RateLimit (rl_hits r) (rl_window r) (rl_max r) (rl_maxIPs r).

Definition defaultRateLimitIPs : Z := 10000.

(** [newAuthRateLimit] with the default cap. *)
Definition newAuthRateLimit (window max : Z) : authRateLimit := RateLimit ∅ window max defaultRateLimitIPs.

(** The entries from [cutoff] on. *)
Fixpoint drop_before (cutoff : time) (l : list time) : list time :=
  match l with [] => [] | t :: l' => if t <? cutoff then drop_before cutoff l' else l end.

(** [pruneLocked] on the map. *)
Definition prune_hits (ip : string) (cutoff : time) (hits : gmap string (list time)) : gmap string (list time) :=
  match drop_before cutoff (default [] (hits !! ip)) with
  | [] => delete ip hits
  | l => <[ip := l]> hits
  end.

Definition pruneLocked (ip : string) (cutoff : time) (r : authRateLimit) : authRateLimit :=
  r <| rl_hits ::= prune_hits ip cutoff |>.

(** [allow]: the limiter after the call, and whether another attempt is let in. *)
Definition allow (now : time) (ip : string) (r : authRateLimit) : authRateLimit * bool :=
  let r := pruneLocked ip (now - rl_window r) r in
  (r, Z.of_nat (length (default [] (rl_hits r !! ip))) <? rl_max r).

Definition pruneAllLocked (cutoff : time) (r : authRateLimit) : authRateLimit :=
  r <| rl_hits ::= λ m, map_fold (λ ip _ m', prune_hits ip cutoff m') m m |>.

(** One round of the loop of [evictOldestLocked]: the map, the oldest so far. *)
Definition evict_round (ip : string) (l : list time) (st : gmap string (list time) * (string * time)) :
    gmap string (list time) * (string * time) :=
  let '(m, (oldestIP, oldest)) := st in
  match last l with
  | None => (delete ip m, (oldestIP, oldest))
  | Some t => (m, if String.eqb oldestIP "" || (t <? oldest) then (ip, t) else (oldestIP, oldest))
  end.

Definition evictOldestLocked (r : authRateLimit) : authRateLimit :=
  r <| rl_hits ::= λ m,
    let '(m', (oldestIP, _)) := map_fold evict_round (m, (""%string, zero_time)) m in
    if String.eqb oldestIP "" then m' else delete oldestIP m' |>.

(** [fail]. *)
Definition rate_fail (now : time) (ip : string) (r : authRateLimit) : authRateLimit :=
  let full r := rl_maxIPs r <=? Z.of_nat (size (rl_hits r)) in
  let r := pruneLocked ip (now - rl_window r) r in
  let r := if bool_decide (rl_hits r !! ip = None) && full r
           then let r := pruneAllLocked (now - rl_window r) r in if full r then evictOldestLocked r else r
           else r in
  r <| rl_hits ::= λ m, <[ip := default [] (m !! ip) ++ [now]]> m |>.

(** ** Requests *)

Record request := Request {
  rq_method : string;
  rq_path : string;
  rq_remote : string;
  rq_header : gmap string string;
  rq_cookies : gmap string string;
  rq_tls : bool;
  rq_body : option json;               (** [None]: the body is not JSON *)
}.

Definition header (r : request) (name : string) : string := default "" (rq_header r !! name).

(** [trustedProxy]. *)
Definition trustedProxy (proxies : list ip_net) (ip : string) : bool :=
  match parse_ip ip with Some a => existsb (λ n, net_contains n a) proxies | None => false end.

(** [parseTrustedProxies]. *)
Definition parseTrustedProxies (cidrs : list string) : list ip_net :=
  omap (λ c,
    parse_cidr
      (if str_in SLASH c then c
       else match parse_ip c with
            | Some ip => c +:+ "/" +:+ itoa (match to4 ip with Some _ => 32 | None => 128 end)
            | None => c
            end)) cidrs.

Section auth.
Context `{UnicodeTables, Bcrypt}.

(** [clientIP]. *)
Definition clientIP (proxies : list ip_net) (r : request) : string :=
  let host := default (rq_remote r) (split_host (rq_remote r)) in
  if negb (trustedProxy proxies host) then host
  else
    let cf := trim_space (header r "CF-Connecting-IP") in
    if negb (String.eqb cf "") && bool_decide (is_Some (parse_ip cf)) then cf
    else
      let xff := header r "X-Forwarded-For" in
      if String.eqb xff "" then host
      else default host
             (find (λ ip, negb (String.eqb ip "") && negb (trustedProxy proxies ip))
                (rev (trim_space <$> split_byte "," xff))).

(** [secureCookie]. *)
Definition secureCookie (r : request) : bool :=
  let '(proto, _, _) := cut_byte "," (header r "X-Forwarded-Proto") in
  rq_tls r || equal_fold (trim_space proto) "https" ||
  contains_str (DQUOTE +:+ "scheme" +:+ DQUOTE +:+ ":" +:+ DQUOTE +:+ "https" +:+ DQUOTE) (header r "CF-Visitor").
End auth.

(** ** The gate around the routes *)

(** [magicWordOpen], of a cleaned path. *)
Definition magicWordOpen (path : string) : bool :=
  existsb (String.eqb path) ["/api/me"; "/api/magicword"; "/api/magicword/logout"; "/healthz"]%string ||
  has_prefix "/uploads/" path ||
  (negb (String.eqb path "/ws") && negb (has_prefix "/api/" path)).

Definition magicCookie : string := "stugan_magic".
Definition sessionCookie : string := "stugan_session".
Definition magicWordTTL : Z := 30 * 24 * hour.

(** What the handlers need of the configuration: the outer password's hash, and
    the hub's ([cmd/stugan/hub.go]) users with their hashes. *)
Record web_config := WebConfig {
  wc_magic_hash : string;
  wc_auth : bool;                      (** [AuthEnabled] *)
  wc_hashes : gmap string string;
  wc_max_age : Z;                      (** seconds *)
  wc_users : list string;              (** the tenants, in the order [Users] lists them *)
  wc_proxies : list ip_net;
}.

Record auth_state := AuthState {
  au_limit : authRateLimit;
  au_magic : Sessions;
  au_sessions : Sessions;
}.

#[export] Instance eta_auth : Eta auth_state := λ r, AuthState (au_limit r) (au_magic r) (au_sessions r).

(** [buildHub] and [server.New]. *)
Definition new_auth (C : web_config) : auth_state :=
  AuthState (newAuthRateLimit (60 * second) 8) (NewSessions magicWordTTL) (NewSessions (wc_max_age C * second)).

(** [magicGranted]; looking a token up drops it when it has expired. *)
Definition magicGranted (C : web_config) (now : time) (r : request) (a : auth_state) : auth_state * bool :=
  if String.eqb (wc_magic_hash C) "" then (a, true)
  else match rq_cookies r !! magicCookie with
       | None => (a, false)
       | Some tok => let '(s, u) := Lookup now tok (au_magic a) in (a <| au_magic := s |>, bool_decide (is_Some u))
       end.

(** [Handler] with [magicGate]: whether the request gets to the routes. *)
Definition magicGate (C : web_config) (now : time) (r : request) (a : auth_state) : auth_state * bool :=
  if String.eqb (wc_magic_hash C) "" || magicWordOpen (path_clean (rq_path r)) then (a, true)
  else magicGranted C now r a.

(** [userOf], with the hub's [Session]. *)
Definition userOf (C : web_config) (now : time) (r : request) (a : auth_state) : auth_state * option string :=
  if negb (wc_auth C) then (a, head (wc_users C))
  else match rq_cookies r !! sessionCookie with
       | None => (a, None)
       | Some tok => let '(s, u) := Lookup now tok (au_sessions a) in (a <| au_sessions := s |>, u)
       end.

(** ** Responses and the login handlers *)

(** A cookie that is set: its name, value, whether it is a deletion, [Secure]. *)
Record cookie := Cookie { ck_name : string; ck_value : string; ck_max_age : Z; ck_secure : bool }.

Record response := Response { rs_code : Z; rs_cookie : option cookie; rs_text : string }.

Definition refuse (code : Z) (text : string) : response := Response code None text.

(** The bodies of the two login forms. *)
Record login_form := LoginForm {
  lf_word : string; lf_username : string; lf_password : string; lf_email : string; lf_website : string }.

#[export] Instance eta_login : Eta login_form := λ r,
  LoginForm (lf_word r) (lf_username r) (lf_password r) (lf_email r) (lf_website r).

Definition word_form : Payload login_form := {|
  zero := LoginForm "" "" "" "" "";
  fields_of := [json_field "Word" lf_word dec_str; json_field "Email" lf_email dec_str;
                json_field "Website" lf_website dec_str] |}.

Definition user_form : Payload login_form := {|
  zero := LoginForm "" "" "" "" "";
  fields_of := [json_field "Username" lf_username dec_str; json_field "Password" lf_password dec_str;
                json_field "Email" lf_email dec_str; json_field "Website" lf_website dec_str] |}.

Section handlers.
Context `{UnicodeTables, Bcrypt} (C : web_config).

(** The common beginning of the two logins: refuse, or go on for this address. *)
Definition login_begin (now : time) (r : request) (a : auth_state) : auth_state * (response + string) :=
  if negb (String.eqb (rq_method r) "POST") then (a, inl (refuse 405 "method not allowed"))
  else
    let ip := clientIP (wc_proxies C) r in
    let '(l, ok) := allow now ip (au_limit a) in
    (a <| au_limit := l |>, if ok then inr ip else inl (refuse 429 "too many attempts; try again later")).

Definition word_begin (now : time) (r : request) (a : auth_state) : auth_state * (response + string) :=
  if String.eqb (wc_magic_hash C) "" then (a, inl (refuse 404 "magic word not configured"))
  else login_begin now r a.

Definition login_failed (now : time) (ip text : string) (a : auth_state) : auth_state * response :=
  (a <| au_limit ::= rate_fail now ip |>, refuse 401 text).

Definition honeypot (f : login_form) : bool := negb (String.eqb (lf_email f) "") || negb (String.eqb (lf_website f) "").

(** The rest of [handleMagicWord]. *)
Definition word_finish (now : time) (tok ip : string) (r : request) (a : auth_state) : auth_state * response :=
  match rq_body r ≫= @unmarshal _ word_form with
  | None => (a, refuse 400 "bad request")
  | Some f =>
      if honeypot f || negb (bcrypt_ok (wc_magic_hash C) (lf_word f)) then login_failed now ip "unauthorized" a
      else (a <| au_magic ::= Create now tok "magic" |>,
            Response 204 (Some (Cookie magicCookie tok (ss_ttl (au_magic a) / second) (secureCookie r))) "")
  end.

(** The rest of [handleLogin], with the hub's [Login] and [StartSession]. *)
Definition login_finish (now : time) (tok ip : string) (r : request) (a : auth_state) : auth_state * response :=
  match rq_body r ≫= @unmarshal _ user_form with
  | None => (a, refuse 400 "bad request")
  | Some f =>
      if honeypot f || negb (wc_auth C && Verify (wc_hashes C) (lf_username f) (lf_password f))
      then login_failed now ip "invalid credentials" a
      else (a <| au_sessions ::= Create now tok (lf_username f) |>,
            Response 200 (Some (Cookie sessionCookie tok (wc_max_age C) (secureCookie r))) (lf_username f))
  end.

(** [handleMagicWordLogout]; without a magic word there are no sessions. *)
Definition handleMagicWordLogout (r : request) (a : auth_state) : auth_state * response :=
  (match rq_cookies r !! magicCookie with
   | Some tok => if String.eqb (wc_magic_hash C) "" then a else a <| au_magic ::= Delete tok |>
   | None => a
   end, Response 204 (Some (Cookie magicCookie "" (-1) false)) "").

(** [handleLogout], with the hub's [EndSession]. *)
Definition handleLogout (r : request) (a : auth_state) : auth_state * response :=
  (match rq_cookies r !! sessionCookie with
   | Some tok => if wc_auth C then a <| au_sessions ::= Delete tok |> else a
   | None => a
   end, Response 204 (Some (Cookie sessionCookie "" (-1) false)) "").

(** [handleMe]: auth enabled, the user, magic word required, magic word granted. *)
Definition handleMe (now : time) (r : request) (a : auth_state) :
    auth_state * (bool * option string * bool * bool) :=
  let '(a, user) := userOf C now r a in
  let '(a, granted) := magicGranted C now r a in
  (a, (wc_auth C, user, negb (String.eqb (wc_magic_hash C) ""), granted)).
End handlers.
