(* ===== verification/WebDto.v ===== *)
(** * From the state of an account to the wire

    [dto.go] and [prefs.go] of [internal/server]: what a client is shown of
    networks, messages and plugins, what a network form means, and the
    preferences of an account, which its store keeps as JSON text. *)

From Stdlib Require Import ZArith Lia Ascii Bool.
From stdpp Require Import base tactics list gmap strings sorting.
From S2P Require Import Prelude GoStrings GoNet LinkTags CoreTypes CoreEvent StoreDb StoreQuery PlugHost PlugRun WebProto.

#[local] Open Scope Z_scope.

(** ** Times: [Format] with the layouts RFC3339 and RFC3339Nano, in UTC *)

Definition rfc3339 (t : time) : string :=
  let s := server_time (t / millisecond) in str_take (String.length s - 5) s +:+ "Z".

Definition rfc3339_nano (t : time) : string :=
  if time_is_zero t then "0001-01-01T00:00:00Z"
  else if t mod second =? 0 then rfc3339 t
  else trim_suffix "Z" (rfc3339 t) +:+ "." +:+ trim_right (Ascii.eqb "0") (padded 9 (t mod second)) +:+ "Z".

(** ** [dto.go] *)

Definition kind_word (k : channel_kind) : string :=
  match k with KindChannel => "channel" | KindQuery => "query" | KindStatus => "status" end.

Definition conn_word (s : conn_state) : string :=
  match s with StateDisconnected => "disconnected" | StateConnecting => "connecting" | StateRegistered => "registered" end.

Definition optional_time (t : time) : string := if time_is_zero t then "" else rfc3339 t.

Definition toMessageDTO (m : message) : MessageDTO :=
  MkMessageDTO (msg_id m) (negb (String.eqb (default ""%string (msg_tags m !! "msgid"%string)) "")) (msg_seq m)
    (msg_network m) (msg_buffer m) (optional_time (msg_time m)) (msg_from m) (msg_account m)
    (kind_string (msg_kind_of m)) (msg_text m) (msg_self m) (msg_highlight m) (msg_tags m).

Definition toMessageDTOs (ms : list message) : list MessageDTO := toMessageDTO <$> ms.

Definition toChannelDTO (c : channel) : ChannelDTO :=
  MkChannelDTO (ch_name c) (kind_word (ch_kind c)) (ch_topic c) (ch_topic_setter c) (optional_time (ch_topic_time c))
    (ch_mode c)
    ((λ m, MkMemberDTO (m_nick m) (m_account m) (m_modes m) (m_away m)) <$> (map_to_list (ch_members c)).*2)
    (ch_unread c) (ch_highlight c) (ch_state c).

Definition toNetworkDTO (n : network) : NetworkDTO :=
  MkNetworkDTO (net_id n) (net_name n) (net_nick n) (conn_word (net_state n)) (net_caps n)
    (omap (λ c, toChannelDTO <$> net_heap n !! c) (net_channels n))
    ((λ nick, MkFriendDTO nick (default false (net_monitor_online n !! FoldIRC nick))) <$> np_monitor (net_params n))
    ((λ b, MkBouncerNetworkDTO (bn_id b) (bn_name b) (bn_host b) (bn_port b) (bn_tls b) (bn_nick b) (bn_state b)
             (bn_error b)) <$> net_bouncer n).

(** [toInitState]; the rest of the state is filled in by [handleWS]. *)
Definition toInitState (u : user) : InitState :=
  MkInitState (MkUserDTO (u_id u) (u_name u)) (toNetworkDTO <$> u_networks u) (MkHighlightRules [] []) (MkAliasTable ∅)
    [] None [] ∅ (MkBouncerInfo false false "" 0 false "" "" false false false).

(** [applyUnread]; the last count of a buffer wins. *)
Definition applyUnread (counts : list UnreadCount) (state : InitState) : InitState :=
  let by_buf : gmap (string * string) UnreadCount :=
    foldl (λ m u, <[(uc_network u, FoldIRC (uc_buffer u)) := u]> m) ∅ counts in
  let mark (n : NetworkDTO) (c : ChannelDTO) : ChannelDTO :=
    match by_buf !! (nd_id n, FoldIRC (cd_name c)) with
    | Some u => c <| cd_unread := uc_unread u |> <| cd_highlight := uc_highlight u |>
    | None => c
    end in
  state <| is_networks ::= fmap (λ n,
    MkNetworkDTO (nd_id n) (nd_name n) (nd_nick n) (nd_state n) (nd_caps n) (mark n <$> nd_channels n) (nd_friends n)
      (nd_bouncer_networks n)) |>.

Definition netAddParams (d : NetAdd) : network_params :=
  NetworkParams (na_name d) (na_name d) (na_addr d) (na_fallbacks d) (na_tls d) (na_insecure d) (na_nick d) (na_user d)
    (na_realname d) (na_sasl_user d) (na_sasl_pass d) (na_channels d) [] ∅ (na_server_pass d) (na_perform d)
    (na_sasl_external d) (na_sasl_scram d) (na_cert_pem d) 0 [] 0.

Definition netConfigParams (d : NetConfig) (existing : network_params) : network_params :=
  existing <| np_id := cfg_network d |> <| np_name := cfg_network d |> <| np_addr := cfg_addr d |>
    <| np_fallbacks := cfg_fallbacks d |> <| np_tls := cfg_tls d |> <| np_insecure := cfg_insecure d |>
    <| np_nick := cfg_nick d |> <| np_user := cfg_user d |> <| np_realname := cfg_realname d |>
    <| np_sasl_user := cfg_sasl_user d |> <| np_sasl_pass := cfg_sasl_pass d |> <| np_channels := cfg_channels d |>
    <| np_server_pass := cfg_server_pass d |> <| np_perform := cfg_perform d |>
    <| np_sasl_external := cfg_sasl_external d |> <| np_sasl_scram := cfg_sasl_scram d |>
    <| np_cert_pem := cfg_cert_pem d |>.

Definition netConfigDTO (p : network_params) : NetConfig :=
  MkNetConfig (np_id p) (np_name p) (np_addr p) (np_fallbacks p) (np_tls p) (np_insecure p) (np_nick p) (np_user p)
    (np_realname p) (np_sasl_user p) (np_sasl_pass p) (np_server_pass p) (np_perform p) (np_sasl_external p)
    (np_sasl_scram p) (np_cert_pem p) (np_channels p).

Definition toPluginSettings (ss : list PluginSetting) : list SettingInfo :=
  (λ s, MkSettingInfo (pse_name s) (pse_type s) (pse_label s) (pse_help s)
          (if pse_secret s then ""%string else pse_value s) (pse_default s) (pse_secret s) (pse_options s)) <$> ss.

Definition toPluginInfos (ps : list PluginInfo) : list PluginRow :=
  (λ p, MkPluginRow (pi_name p) (pi_description p) (pi_loaded p) (pi_disabled p) (pi_errors p) (pi_commands p)
          (Z.of_nat (pi_hooks p)) (toPluginSettings (pi_settings p)) (pi_source_type p) (pi_source_url p)
          (pi_update p)) <$> ps.

Definition toCuratedPluginInfos (cs : list CuratedPluginInfo) : list CuratedRow :=
  (λ c, MkCuratedRow (cu_name c) (cu_description c) (cu_url c) (cu_installed c) (cu_loaded c) (cu_update c)) <$> cs.

(** ** [prefs.go] *)

Definition prefHighlight : string := "highlight".
Definition prefMuted : string := "muted".
Definition prefAliases : string := "aliases".
Definition prefSettings : string := "settings".
Definition prefDrafts : string := "drafts".
Definition prefBouncer : string := "bouncer".

(** [BouncerAllowed], of what [Pref("bouncer")] returns; [None] is an error. *)
Definition bouncer_allowed (v : option string) : bool :=
  match v with Some v => negb (String.eqb v "off") | None => true end.

(** [setDraft]. *)
Definition same_buffer (network buffer network' buffer' : string) : bool :=
  String.eqb network' network && EqualIRC buffer' buffer.

Section text.
Context `{UnicodeTables}.

Definition setDraft (drafts : list DraftDTO) (network buffer text : string) : list DraftDTO :=
  let out := filter (λ d, same_buffer network buffer (dr_network d) (dr_buffer d) = false) drafts in
  if String.eqb (trim_space text) "" then out else out ++ [MkDraftDTO network buffer text].

(** [sanitizeAliases]: the entries it keeps, and the map they make, an order of
    the entries given. *)
Definition clean_alias (e : string * string) : option (string * string) :=
  let k := to_lower (trim_prefix "/" (trim_space e.1)) in
  let v := trim_space e.2 in
  if String.eqb k "" || String.eqb v "" || str_in SP k || str_in (byte_of_z 9) k then None else Some (k, v).

Definition sanitizeAliases (m : gmap string string) : gmap string string :=
  foldl (λ out '(k, v), <[k := v]> out) ∅ (omap clean_alias (map_to_list m)).
End text.

(** [setMuted]. *)
Definition setMuted (refs : list MuteRef) (network buffer : string) (muted : bool) : list MuteRef :=
  let out := filter (λ r, same_buffer network buffer (mr_network r) (mr_buffer r) = false) refs in
  if muted then out ++ [MkMuteRef network buffer] else out.

Definition isMuted (refs : list MuteRef) (network buffer : string) : bool :=
  existsb (λ r, same_buffer network buffer (mr_network r) (mr_buffer r)) refs.

(** ** Preferences as text *)

Section prefs.
Context `{JsonText}.

Definition strs_json (l : list string) : json := JArr (JStr <$> l).
Definition rules_json (d : HighlightRules) : json :=
  JObj [("patterns"%string, strs_json (hr_patterns d)); ("exceptions"%string, strs_json (hr_exceptions d))].
Definition sorted_entries {A} (m : gmap string A) : list (string * A) :=
  merge_sort (λ a b, Is_true (String.leb a.1 b.1)) (map_to_list m).
Definition map_json (m : gmap string string) : json := JObj ((λ '(k, v), (k, JStr v)) <$> sorted_entries m).
Definition any_map_json (m : gmap string json) : json := JObj (sorted_entries m).
Definition draft_json (d : DraftDTO) : json :=
  JObj [("network"%string, JStr (dr_network d)); ("buffer"%string, JStr (dr_buffer d)); ("text"%string, JStr (dr_text d))].
Definition ref_json (r : MuteRef) : json :=
  JObj [("network"%string, JStr (mr_network r)); ("buffer"%string, JStr (mr_buffer r))].

(** What a preference holds; an empty one is unset, and so is one that does not
    parse. *)
Definition load_pref {A} (dec : json → option A) (none : A) (v : string) : A :=
  if String.eqb v "" then none else default none (text_json v ≫= dec).

Definition loadMuted (v : string) : list MuteRef := load_pref unmarshal_list [] v.
Definition loadDrafts (v : string) : list DraftDTO := load_pref unmarshal_list [] v.
Definition loadSettings (v : string) : option (gmap string json) := load_pref (λ j, dec_any_map j None) None v.
End prefs.
