(* ===== verification/WebServer.v ===== *)
(** * The web server

    [internal/server]: [server.go], [client.go], [push.go].  A browser is a
    [client]: its outbound queue, what has been written to its socket, and what
    its reading goroutine is doing.  [web_step] is the server as a state
    machine: a request or a frame arrives, a handler that runs aside ends, a
    frame is written, a sink of an engine is called, in any order.

    What the server asks of an account's engine is answered by a state of the
    core ([we_core]), of its history by the tables of the store ([we_db]); a call
    that changes an engine is recorded as the [core_input] it is.  A handler is
    one step, except where it reads a preference and writes it back: other
    sockets of the account may do so in between. *)

From Stdlib Require Import ZArith Lia Ascii Bool.
From stdpp Require Import base tactics list gmap strings.
From S2P Require Import Prelude GoStrings GoNet CoreTypes CoreEvent CoreEngine CoreHistory CoreBouncer CoreCommand StoreDb StoreQuery PlugHost PlugRun WebProto WebAuth WebDto.

#[local] Open Scope Z_scope.

(** ** Clients *)

Definition sendBuffer : nat := 128.
Definition maxAsyncPerClient : nat := 4.

(** What the goroutine that reads a socket is doing. *)
Inductive reader :=
  | RInit                                              (** [handleWS] has registered the client *)
  | RReading
  | RMute (refs : list MuteRef) (d : MuteSet)          (** about to save, having read the list *)
  | RDraft (drafts : list DraftDTO) (d : DraftDTO)
  | RDone.

Record client := Client {
  cl_user : string;
  cl_send : list frame;
  cl_sent : list frame;               (** what [writePump] has written *)
  cl_visible : bool;
  cl_slots : nat;                     (** handlers running aside *)
  cl_reader : reader;
  cl_broken : bool;                   (** [CloseNow] was called, or a write failed *)
}.

#[export] Instance eta_client : Eta client := λ r,
  Client (cl_user r) (cl_send r) (cl_sent r) (cl_visible r) (cl_slots r) (cl_reader r) (cl_broken r).

Definition newClient (user : string) : client := Client user [] [] true 0 RInit false.

(** [trySend]. *)
Definition trySend (f : frame) (c : client) : client :=
  if (length (cl_send c) <? sendBuffer)%nat then c <| cl_send ::= λ l, l ++ [f] |> else c <| cl_broken := true |>.

(** ** The server *)

(** A management call of the plugin host. *)
Inductive plugin_call :=
  | PLoad (name : string) | PUnload (name : string) | PUninstall (name : string) | PReload (name : string)
  | PImport (url name : string) | PUpdate (name : string) | PDownload (name : string) | PCheckUpdates (name : string)
  | PSetting (name key value : string).

Record pushPayload := PushPayload { pu_title : string; pu_body : string; pu_network : string; pu_buffer : string }.

(** What the server does to its surroundings, in order. *)
Inductive web_effect :=
  | WCore (user : string) (i : core_input)             (** a call of the user's engine *)
  | WPlugin (user : string) (call : plugin_call)
  | WDisconnect (user : string)                        (** [Bouncer.DisconnectUser] *)
  | WServe (user : option string) (path : string)      (** a handler outside this model runs, for this user *)
  | WAnswer (r : response)
  | WMe (auth : bool) (user : option string) (required granted : bool).

(** A webpush.Subscription; only its endpoint matters here. *)
Record subscription := Subscription { sub_endpoint : string; sub_keys : string }.

#[export] Instance eta_sub : Eta subscription := λ r, Subscription (sub_endpoint r) (sub_keys r).
#[export] Instance payload_sub : Payload subscription := {
  zero := Subscription "" "";
  fields_of := [json_field "endpoint" sub_endpoint dec_str] }.

(** A request whose password is being verified. *)
Record attempt := Attempt { at_word : bool; at_ip : string; at_request : request }.

Record web := Web {
  wb_auth : auth_state;
  wb_attempts : list attempt;
  wb_clients : gmap string (gset nat);
  wb_heap : gmap nat client;
  wb_next : nat;
  wb_async : list (nat * envelope);                    (** handlers running aside *)
  wb_prefs : gmap (string * string) string;            (** user and key *)
  wb_subs : gmap string (gmap string subscription);
  wb_pushes : list (string * pushPayload);             (** [notify] goroutines *)
  wb_out : list web_effect;
}.

#[export] Instance eta_web : Eta web := λ r,
  Web (wb_auth r) (wb_attempts r) (wb_clients r) (wb_heap r) (wb_next r) (wb_async r) (wb_prefs r) (wb_subs r)
    (wb_pushes r) (wb_out r).

(** [Options] and the hub, as far as they do not change. *)
Record web_options := WebOptions {
  wo_config : web_config;
  wo_server_name : string;
  wo_prefs : bool;                    (** the tenants have [Prefs] *)
  wo_history : bool;                  (** and [History] *)
  wo_uploads : bool;                  (** an upload directory or mode custom *)
  wo_push : bool;
  wo_bouncer : option (string * Z * bool * string);    (** its [Listener] *)
}.

Definition new_web (O : web_options) (prefs : gmap (string * string) string)
    (subs : gmap string (gmap string subscription)) : web :=
  Web (new_auth (wo_config O)) [] ∅ ∅ 0 [] prefs subs [] [].

(** The world during a step. *)
Record wenv := WEnv {
  we_now : time;
  we_cenv : cenv;
  we_core : string → core;
  we_db : string → database;
  we_db_ok : bool;                                     (** its queries succeed *)
  we_pref_ok : bool;                                   (** [SetPref] succeeds *)
  we_read_ok : bool;                                   (** [Pref] succeeds *)
  we_plugins : string → list PluginInfo;
  we_curated : string → list CuratedPluginInfo;
  we_complete : string → string → string → string → list string;
  we_plugin_error : string → plugin_call → option string;
  we_url : string → option (string * string);          (** [url.Parse]: scheme and host *)
}.

Section web.
Context `{UnicodeTables, TimeParse, Regexp, SqlHost, StoreJson, Bcrypt, JsonText} (O : web_options) (E : wenv).

Notation C := (wo_config O).

(** ** Clients and fan-out *)

Definition upd_client (c : nat) (f : client → client) (w : web) : web := w <| wb_heap ::= alter f c |>.

Definition send_to (c : nat) (f : frame) (w : web) : web := upd_client c (trySend f) w.

Definition sendError (c : nat) (id code msg : string) (w : web) : web :=
  send_to c (MkFrame "error" id (PError (MkWireError code msg))) w.

Definition reply (c : nat) (id t : string) (d : payload) (w : web) : web := send_to c (MkFrame t id d) w.

Definition clients_of (user : string) (w : web) : gset nat := default ∅ (wb_clients w !! user).

Definition addClient (user : string) (c : nat) (w : web) : web :=
  w <| wb_clients ::= <[user := {[c]} ∪ clients_of user w]> |>.

Definition removeClient (user : string) (c : nat) (w : web) : web :=
  let rest := clients_of user w ∖ {[c]} in
  w <| wb_clients ::= if decide (rest = ∅) then delete user else <[user := rest]> |>.

(** [routeToUser]. *)
Definition routeToUser (user : string) (f : frame) (w : web) : web :=
  foldl (λ w c, send_to c f w) w (elements (clients_of user w)).

Definition broadcast (user t : string) (d : payload) (w : web) : web := routeToUser user (Frame t d) w.

Definition broadcastExcept (user : string) (except : nat) (t : string) (d : payload) (w : web) : web :=
  foldl (λ w c, send_to c (Frame t d) w) w (elements (clients_of user w ∖ {[except]})).

Definition visibleClientCount (user : string) (w : web) : nat :=
  length (filter (λ c, (cl_visible <$> wb_heap w !! c) = Some true) (elements (clients_of user w))).

Definition setClientVisible (c : nat) (visible : bool) (w : web) : web :=
  upd_client c (λ x, x <| cl_visible := visible |>) w.

Definition put_out (e : web_effect) (w : web) : web := w <| wb_out ::= λ l, l ++ [e] |>.

(** A call of the account's engine: recorded, with the error it returns. *)
Definition engine_call (user : string) (i : core_input) (w : web) : web * option string :=
  (put_out (WCore user i) w, core_error (we_cenv E) i (we_core E user)).

Definition engine_do (user : string) (i : core_input) (w : web) : web := put_out (WCore user i) w.

Definition plugin_do (user : string) (p : plugin_call) (w : web) : web * option string :=
  (put_out (WPlugin user p) w, we_plugin_error E user p).

(** ** Preferences *)

(** What [Pref] returns; without [Prefs], or after an error, the callers go on as
    with an unset one. *)
Definition get_pref (user key : string) (w : web) : string :=
  if wo_prefs O && we_read_ok E then default "" (wb_prefs w !! (user, key)) else "".

Definition SetPref (user key value : string) (w : web) : web * option string :=
  if we_pref_ok E then (w <| wb_prefs ::= <[(user, key) := value]> |>, None) else (w, Some "database error"%string).

(** A save whose error is only logged; without [Prefs] there is none. *)
Definition save_pref (user key : string) (j : json) (w : web) : web :=
  if wo_prefs O then (SetPref user key (json_text j) w).1 else w.

Definition muted_of (user : string) (w : web) : list MuteRef := loadMuted (get_pref user prefMuted w).
Definition drafts_of (user : string) (w : web) : list DraftDTO := loadDrafts (get_pref user prefDrafts w).

(** [BouncerAllowed]. *)
Definition allowed (user : string) (w : web) : bool := bouncer_allowed (Some (get_pref user prefBouncer w)).

Definition bouncerInfo (user : string) (w : web) : BouncerInfo :=
  let guarded := wc_auth C || negb (String.eqb (wc_magic_hash C) "") in
  let '(available, (host, port, tls, fingerprint)) :=
    match wo_bouncer O with Some l => (true, l) | None => (false, (""%string, 0, false, ""%string)) end in
  MkBouncerInfo available (allowed user w) host port tls fingerprint user guarded (negb guarded) (negb (wc_auth C)).

(** ** Connecting: [handleWS] *)

(** Its first half, up to [addClient]; [accepted] is the handshake's outcome. *)
Definition ws_connect (r : request) (accepted : bool) (w : web) : web :=
  let '(a, user) := userOf C (we_now E) r (wb_auth w) in
  let w := w <| wb_auth := a |> in
  match user with
  | None => put_out (WAnswer (refuse 401 "unauthorized")) w
  | Some user =>
      if negb (bool_decide (user ∈ wc_users C)) then put_out (WAnswer (refuse 401 "unknown user")) w
      else if negb accepted then w
      else
        let c := wb_next w in
        addClient user c (w <| wb_heap ::= <[c := newClient user]> |> <| wb_next ::= S |>)
  end.

Definition caps : list string :=
  ["previews"; "search"; "plugins"]%string ++ (if wc_auth C then [] else ["plugin-import"%string]) ++
  (if wo_uploads O then ["uploads"%string] else []) ++ (if wo_push O then ["push"%string] else []).

Definition init_state (user : string) (w : web) : InitState :=
  let s := toInitState (Snapshot (we_cenv E) (we_core E user)) in
  let s := if wo_history O && we_db_ok E
           then applyUnread (UnreadCounts (we_db E user)) s <| is_read_markers := ReadMarkers (we_db E user) |> else s in
  let rules := CoreEngine.HighlightRules (we_core E user) in
  s <| is_highlight := MkHighlightRules rules.1 rules.2 |>
    <| is_aliases := MkAliasTable (Aliases (we_core E user)) |>
    <| is_muted := muted_of user w |> <| is_settings := loadSettings (get_pref user prefSettings w) |>
    <| is_drafts := drafts_of user w |> <| is_bouncer := bouncerInfo user w |>.

Definition set_reader (c : nat) (r : reader) (w : web) : web := upd_client c (λ x, x <| cl_reader := r |>) w.

(** Its second half: the two first frames; then it reads. *)
Definition ws_init (c : nat) (x : client) (w : web) : web :=
  let init := Frame "init" (PInit (init_state (cl_user x) w)) in
  let hello := Frame "hello" (PHello (MkHello Protocol (wo_server_name O) caps)) in
  set_reader c RReading (send_to c init (send_to c hello w)).

(** [resyncUser], after an import. *)
Definition resyncUser (user : string) (w : web) : web :=
  if bool_decide (clients_of user w = ∅) then w
  else routeToUser user (Frame "init" (PInit (init_state user w))) w.

(** ** Requests of a client: [route] *)

(** [reqHandle]. *)
Definition reqHandle `{Payload T} (c : nat) (env : envelope) (badMsg : string) (ok : T → bool)
    (fn : T → web → web * option string) (w : web) : web :=
  match decode env with
  | Some d =>
      if ok d then
        let '(w, err) := fn d w in
        match err with Some msg => sendError c (env_id env) "bad_request" msg w | None => w end
      else sendError c (env_id env) "bad_request" badMsg w
  | None => sendError c (env_id env) "bad_request" badMsg w
  end.

(** [bestHandle]. *)
Definition bestHandle `{Payload T} (env : envelope) (ok : T → bool) (fn : T → web → web) (w : web) : web :=
  match decode env with Some d => if ok d then fn d w else w | None => w end.

Definition any_payload {T} (d : T) : bool := true.
Definition given (l : list string) : bool := forallb (λ s, negb (String.eqb s "")) l.

Definition clampLimit (n def : Z) : Z := if (n <=? 0) || (500 <? n) then def else n.

(** [time.Parse(time.RFC3339, s)], the zero time when it fails. *)
Definition parse_around (s : string) : time := default zero_time (time_parse "2006-01-02T15:04:05Z07:00" s).

(** The time of a read mark: the client's, in either layout, or now. *)
Definition mark_time (s : string) : time :=
  if String.eqb s "" then we_now E
  else match time_parse "2006-01-02T15:04:05.999999999Z07:00" s with
       | Some t => t
       | None => default (we_now E) (time_parse "2006-01-02T15:04:05Z07:00" s)
       end.

Definition handleBacklog (c : nat) (user : string) (env : envelope) (w : web) : web :=
  match decode env with
  | Some d =>
      if negb (given [bf_network d; bf_buffer d]) then
        sendError c (env_id env) "bad_request" "backlog:fetch requires network, buffer" w
      else if negb (wo_history O) then sendError c (env_id env) "unavailable" "history is not enabled" w
      else if negb (we_db_ok E) then sendError c (env_id env) "internal" "backlog query failed" w
      else
        let limit := clampLimit (bf_limit d) 100 in
        if negb (String.eqb (bf_anchor d) "") || negb (String.eqb (bf_around d) "") then
          let '(msgs, more, moreNewer) :=
            BacklogAround (bf_network d) (bf_buffer d) (bf_anchor d) (parse_around (bf_around d)) limit (we_db E user) in
          reply c (env_id env) "backlog"
            (PBacklog (MkBacklogResp (bf_network d) (bf_buffer d) (toMessageDTOs msgs) more moreNewer (bf_anchor d)
                         (bf_around d))) w
        else
          let '(msgs, more) := Backlog (bf_network d) (bf_buffer d) (bf_before_seq d) limit (we_db E user) in
          reply c (env_id env) "backlog"
            (PBacklog (MkBacklogResp (bf_network d) (bf_buffer d) (toMessageDTOs msgs) more false "" "")) w
  | None => sendError c (env_id env) "bad_request" "backlog:fetch requires network, buffer" w
  end.

Definition handleContext (c : nat) (user : string) (env : envelope) (w : web) : web :=
  match decode env with
  | Some d =>
      if negb (given [cf_network d; cf_buffer d; cf_id d]) then
        sendError c (env_id env) "bad_request" "context:fetch requires network, buffer, id" w
      else if negb (wo_history O) then sendError c (env_id env) "unavailable" "history is not enabled" w
      else if negb (we_db_ok E) then sendError c (env_id env) "internal" "context query failed" w
      else
        let '(msgs, _, _) :=
          BacklogAround (cf_network d) (cf_buffer d) (cf_id d) (parse_around (cf_around d)) (clampLimit (cf_limit d) 11)
            (we_db E user) in
        reply c (env_id env) "context" (PContext (MkContextResp (cf_network d) (cf_buffer d) (cf_id d) (toMessageDTOs msgs))) w
  | None => sendError c (env_id env) "bad_request" "context:fetch requires network, buffer, id" w
  end.

Definition handleSearch (c : nat) (user : string) (env : envelope) (w : web) : web :=
  match decode env with
  | Some d =>
      if String.eqb (sr_query d) "" then sendError c (env_id env) "bad_request" "search requires a query" w
      else if negb (wo_history O) then sendError c (env_id env) "unavailable" "search is not enabled" w
      else if negb (we_db_ok E) then sendError c (env_id env) "internal" "search failed" w
      else
        let msgs := Search_ (sr_query d) (sr_network d) (sr_buffer d) (clampLimit (sr_limit d) 50) (we_db E user) in
        reply c (env_id env) "search:result" (PSearch (MkSearchResp (sr_query d) (toMessageDTOs msgs))) w
  | None => sendError c (env_id env) "bad_request" "search requires a query" w
  end.

Definition handleMissed (c : nat) (user : string) (env : envelope) (w : web) : web :=
  if negb (wo_history O) then reply c (env_id env) "missed:result" (PMissed (MkMissedResp [])) w
  else if negb (we_db_ok E) then sendError c (env_id env) "internal" "missed fetch failed" w
  else reply c (env_id env) "missed:result" (PMissed (MkMissedResp (toMessageDTOs (MissedHighlights 50 (we_db E user))))) w.

Definition plugin_list (user : string) : payload :=
  PPluginList (MkPluginListResp (toPluginInfos (we_plugins E user)) (toCuratedPluginInfos (we_curated E user))).

(** The actions that need a name and nothing else. *)
Definition named_actions : list (string * (string → plugin_call)) :=
  [("load", PLoad); ("unload", PUnload); ("uninstall", PUninstall); ("reload", PReload); ("update", PUpdate);
   ("download", PDownload)]%string.

(** The call behind an action, or the error it is refused with. *)
Definition plugin_action (d : PluginAction) : plugin_call + string * string :=
  let name := pa_name d in
  match find (λ a, String.eqb a.1 (pa_action d)) named_actions with
  | Some (_, call) =>
      if String.eqb name "" then inr ("bad_request"%string, "plugin:action " +:+ pa_action d +:+ " requires name")
      else inl (call name)
  | None =>
      if String.eqb (pa_action d) "import" then
        if wc_auth C then inr ("forbidden", "remote plugin imports are disabled in multi-user mode")
        else if String.eqb (pa_url d) "" then inr ("bad_request", "plugin:action import requires url")
        else inl (PImport (pa_url d) name)
      else if String.eqb (pa_action d) "check_updates" then inl (PCheckUpdates name)
      else inr ("bad_request", "invalid plugin:action action")
  end%string.

Definition handlePluginAction (c : nat) (user : string) (env : envelope) (w : web) : web :=
  match decode env with
  | Some d =>
      if String.eqb (pa_action d) "" then sendError c (env_id env) "bad_request" "plugin:action requires action" w
      else match plugin_action d with
           | inr (code, msg) => sendError c (env_id env) code msg w
           | inl call =>
               let '(w, err) := plugin_do user call w in
               match err with
               | Some msg => sendError c (env_id env) "bad_request" msg w
               | None => reply c (env_id env) "plugin:list" (plugin_list user) w
               end
           end
  | None => sendError c (env_id env) "bad_request" "plugin:action requires action" w
  end.

Definition handleComplete (c : nat) (user : string) (env : envelope) (w : web) : web :=
  bestHandle env any_payload (λ d,
    reply c (env_id env) "complete:res"
      (PComplete (MkCompleteRes (cq_seq d) (we_complete E user (cq_network d) (cq_buffer d) (cq_word d))))) w.

(** A switch on the type of a frame; an unknown type is ignored. *)
Definition switch (cases : list (string * (web → web))) (t : string) (w : web) : web :=
  match find (λ h, String.eqb h.1 t) cases with Some h => h.2 w | None => w end.

Definition has_case (cases : list (string * (web → web))) (t : string) : bool := existsb (λ h, String.eqb h.1 t) cases.

(** The handlers [route] hands to [async]. *)
Definition slow_cases (c : nat) (user : string) (env : envelope) : list (string * (web → web)) :=
  [("backlog:fetch", handleBacklog c user env); ("context:fetch", handleContext c user env);
   ("complete:req", handleComplete c user env); ("search", handleSearch c user env);
   ("missed:fetch", handleMissed c user env); ("plugin:action", handlePluginAction c user env)]%string.

Definition run_slow (c : nat) (user : string) (env : envelope) (w : web) : web :=
  switch (slow_cases c user env) (env_t env) w.

(** [async]. *)
Definition async (c : nat) (x : client) (env : envelope) (w : web) : web :=
  if (cl_slots x <? maxAsyncPerClient)%nat
  then upd_client c (λ x, x <| cl_slots ::= S |>) w <| wb_async ::= λ l, l ++ [(c, env)] |>
  else run_slow c (cl_user x) env w.

(** [highlight:set]; the text of a pattern's error is not modelled. *)
Definition set_highlight (user : string) (d : HighlightRules) (w : web) : web * option string :=
  match NewHighlighter (hr_patterns d) (hr_exceptions d) with
  | None => (w, Some "invalid pattern"%string)
  | Some hl =>
      let w := engine_do user (IHighlight (Some hl)) w in
      let w := save_pref user prefHighlight (rules_json d) w in
      (broadcast user "highlight" (PHighlight (MkHighlightRules (hl_patterns hl) (hl_exceptions hl))) w, None)
  end.

Definition set_aliases (user : string) (d : AliasTable) (w : web) : web * option string :=
  let aliases := sanitizeAliases (at_aliases d) in
  let w := engine_do user (IAliases aliases) w in
  let w := save_pref user prefAliases (map_json aliases) w in
  (broadcast user "aliases" (PAliases (MkAliasTable aliases)) w, None).

Definition set_settings (c : nat) (user : string) (d : SettingsPayload) (w : web) : web * option string :=
  let w := match sp_settings d with Some m => save_pref user prefSettings (any_map_json m) w | None => w end in
  (broadcastExcept user c "settings" (PSettings d) w, None).

Definition set_bouncer (user : string) (d : BouncerSet) (w : web) : web * option string :=
  if negb (wo_prefs O) then (w, Some "preferences unavailable"%string)
  else
    let '(w, err) := SetPref user prefBouncer (if bs_enabled d then "on" else "off") w in
    match err with
    | Some e => (w, Some e)
    | None =>
        let w := if negb (bs_enabled d) && bool_decide (is_Some (wo_bouncer O)) then put_out (WDisconnect user) w else w in
        (broadcast user "bouncer" (PBouncer (bouncerInfo user w)) w, None)
    end.

Definition plugin_setting (c : nat) (user id : string) (d : PluginSettingReq) (w : web) : web * option string :=
  let '(w, err) := plugin_do user (PSetting (ps_name d) (ps_key d) (ps_value d)) w in
  match err with Some e => (w, Some e) | None => (reply c id "plugin:list" (plugin_list user) w, None) end.

Definition net_info (c : nat) (user : string) (env : envelope) (w : web) : web :=
  match decode env with
  | Some d =>
      if String.eqb (ni_network d) "" then sendError c (env_id env) "bad_request" "net:info requires network" w
      else match NetworkConfig (we_core E user) (ni_network d) with
           | None => sendError c (env_id env) "not_found" "unknown network" w
           | Some p => reply c (env_id env) "net:info" (PNetInfo (netConfigDTO p)) w
           end
  | None => sendError c (env_id env) "bad_request" "net:info requires network" w
  end.

Definition no_params : network_params := NetworkParams "" "" "" [] false false "" "" "" "" "" [] [] ∅ "" [] false false "" 0 [] 0.

(** [net:edit] starts from the network's parameters. *)
Definition edited (user : string) (d : NetConfig) : network_params :=
  netConfigParams d (default no_params (NetworkConfig (we_core E user) (cfg_network d))).

(** The calls that change an engine and report an error. *)
Definition engine_cases (c : nat) (user : string) (env : envelope) : list (string * (web → web)) :=
  let call i := engine_call user i in
  [("msg:send", reqHandle c env "msg:send requires network, buffer, text" (λ d, given [ms_network d; ms_buffer d; ms_text d])
        (λ d, call (IInput (ms_network d) (ms_buffer d) (ms_text d))));
   ("net:add", reqHandle c env "net:add requires name and addr" (λ d, given [na_name d; na_addr d])
        (λ d, call (IAdd (netAddParams d))));
   ("net:remove", reqHandle c env "net:remove requires network" (λ d, given [nr_network d]) (λ d, call (IRemove (nr_network d))));
   ("redact", reqHandle c env "redact requires network, buffer, target" (λ d, given [rd_network d; rd_buffer d; rd_target d])
        (λ d, call (IRedact (rd_network d) (rd_buffer d) (rd_target d) (rd_reason d))));
   ("list", reqHandle c env "list requires network" (λ d, given [lr_network d])
        (λ d, call (IListChannels (lr_network d) (lr_query d))));
   ("net:connect", reqHandle c env "net:connect requires network" (λ d, given [nc_network d])
        (λ d, call (ISetConnected (nc_network d) (nc_connect d))));
   ("net:edit", reqHandle c env "net:edit requires network and addr" (λ d, given [cfg_network d; cfg_addr d])
        (λ d, call (IUpdate (edited user d))));
   ("bnet:add", reqHandle c env "bnet:add requires network and host" (λ d, given [ba_network d; ba_host d])
        (λ d, call (IBouncerAdd (ba_network d)
           (BouncerNetwork "" (ba_name d) (ba_host d) (ba_port d) (ba_tls d) (ba_nick d) "" "") (ba_pass d))));
   ("bnet:del", reqHandle c env "bnet:del requires network and id" (λ d, given [br_network d; br_id d])
        (λ d, call (IBouncerDelete (br_network d) (br_id d))));
   ("bnet:open", reqHandle c env "bnet:open requires network and id" (λ d, given [br_network d; br_id d])
        (λ d, call (IBouncerOpen (br_network d) (br_id d))));
   ("buf:close", reqHandle c env "buf:close requires network and buffer" (λ d, given [bc_network d; bc_buffer d])
        (λ d, call (IClose (bc_network d) (bc_buffer d))));
   ("net:reorder", reqHandle c env "net:reorder requires networks" any_payload (λ d, call (IReorderNetworks (no_networks d))));
   ("buf:reorder", reqHandle c env "buf:reorder requires network and buffers" (λ d, given [bo_network d])
        (λ d, call (IReorderBuffers (bo_network d) (bo_buffers d))))]%string.

(** The calls that answer nothing, not even an error. *)
Definition quiet_cases (c : nat) (user : string) (env : envelope) : list (string * (web → web)) :=
  let call i := engine_do user i in
  [("read", bestHandle env (λ d, given [rm_network d; rm_buffer d])
        (λ d, call (IMarkRead (rm_network d) (rm_buffer d) (mark_time (rm_timestamp d)))));
   ("typing", bestHandle env (λ d, given [ty_network d; ty_buffer d])
        (λ d, call (ITyping (ty_network d) (ty_buffer d) (ty_state d))));
   ("react", bestHandle env (λ d, given [re_network d; re_buffer d])
        (λ d, call (IReaction (re_network d) (re_buffer d) (re_target d) (re_reaction d))));
   ("monitor:add", bestHandle env (λ d, given [mo_network d; mo_nick d]) (λ d, call (IAddMonitor (mo_network d) (mo_nick d))));
   ("monitor:remove", bestHandle env (λ d, given [mo_network d; mo_nick d]) (λ d, call (IRemoveMonitor (mo_network d) (mo_nick d))));
   ("presence", bestHandle env any_payload (λ d, setClientVisible c (pr_visible d)));
   ("draft:set", bestHandle env (λ d, given [dr_network d; dr_buffer d])
        (λ d w, if wo_prefs O then set_reader c (RDraft (drafts_of user w) d) w
        else broadcastExcept user c "draft" (PDraft d) w));
   ("mute", bestHandle env (λ d, given [mu_network d; mu_buffer d])
        (λ d w, if wo_prefs O then set_reader c (RMute (muted_of user w) d) w else w))]%string.

(** The settings, and what is answered from the engine. *)
Definition settings_cases (c : nat) (user : string) (env : envelope) : list (string * (web → web)) :=
  [("net:info", net_info c user env);
   ("plugin:list", reply c (env_id env) "plugin:list" (plugin_list user));
   ("plugin:setting", reqHandle c env "plugin:setting requires name and key" (λ d, given [ps_name d; ps_key d])
        (plugin_setting c user (env_id env)));
   ("highlight:set", reqHandle c env "invalid highlight:set payload" any_payload (set_highlight user));
   ("aliases:set", reqHandle c env "invalid aliases:set payload" any_payload (set_aliases user));
   ("settings:set", reqHandle c env "invalid settings:set payload" any_payload (set_settings c user));
   ("bouncer:set", reqHandle c env "invalid bouncer:set payload" any_payload (set_bouncer user));
   ("ping", reply c (env_id env) "pong" PPong)]%string.

(** [route]. *)
Definition route (c : nat) (x : client) (env : envelope) (w : web) : web :=
  let user := cl_user x in
  if has_case (slow_cases c user env) (env_t env) then async c x env w
  else switch (engine_cases c user env ++ quiet_cases c user env ++ settings_cases c user env) (env_t env) w.

(** The reading goroutine goes on where it left off. *)
Definition resume (c : nat) (x : client) (w : web) : web :=
  match cl_reader x with
  | RInit => ws_init c x w
  | RMute refs d =>
      let w := save_pref (cl_user x) prefMuted (JArr (ref_json <$> setMuted refs (mu_network d) (mu_buffer d) (mu_muted d))) w in
      set_reader c RReading (broadcast (cl_user x) "mute" (PMute d) w)
  | RDraft drafts d =>
      let w := save_pref (cl_user x) prefDrafts (JArr (draft_json <$> setDraft drafts (dr_network d) (dr_buffer d) (dr_text d))) w in
      set_reader c RReading (broadcastExcept (cl_user x) c "draft" (PDraft d) w)
  | RReading | RDone => w
  end.

(** ** Push notifications: [push.go] *)

Definition staleNotify : Z := 15 * minute.

Definition isNotifyDM (m : message) : bool :=
  IsQueryBuffer (msg_buffer m) && bool_decide (msg_kind_of m ∈ [MsgPrivmsg; MsgNotice; MsgAction]).

(** [maybePush]. *)
Definition wants_push (user : string) (m : message) (w : web) : bool :=
  wo_push O && negb (msg_self m) &&
  (time_is_zero (msg_time m) || negb (staleNotify <? time_sub (we_now E) (msg_time m))) &&
  (msg_highlight m || isNotifyDM m) &&
  (visibleClientCount user w =? 0)%nat &&
  negb (bool_decide (user ∈ wc_users C) && negb (msg_highlight m) &&
        isMuted (muted_of user w) (msg_network m) (msg_buffer m)).

Definition push_of (m : message) : pushPayload :=
  PushPayload (if IsQueryBuffer (msg_buffer m) then msg_from m else msg_from m +:+ " in " +:+ msg_buffer m)
    (msg_text m) (msg_network m) (msg_buffer m).

Definition maybePush (user : string) (m : message) (w : web) : web :=
  if wants_push user m w then w <| wb_pushes ::= λ l, l ++ [(user, push_of m)] |> else w.

Definition subs_of (user : string) (w : web) : gmap string subscription := default ∅ (wb_subs w !! user).

(** [pushManager.add], [pushManager.remove]. *)
Definition push_add (user : string) (s : subscription) (w : web) : web :=
  w <| wb_subs ::= <[user := <[sub_endpoint s := s]> (subs_of user w)]> |>.

Definition push_remove (user endpoint : string) (w : web) : web := w <| wb_subs ::= alter (delete endpoint) user |>.

(** [notify]: what the push services answer, by endpoint; gone ones are dropped. *)
Definition notify (user : string) (status : string → option Z) (w : web) : web :=
  foldl (λ w e, match status e with
                | Some code => if (code =? 404) || (code =? 410) then push_remove user e w else w
                | None => w
                end) w (map_to_list (subs_of user w)).*1.

(** [validPushEndpoint]. *)
Definition validPushEndpoint (endpoint : string) : bool :=
  match we_url E endpoint with
  | Some (scheme, host) => String.eqb scheme "https" && negb (String.eqb host "")
  | None => false
  end.

(** [handleSubscribe], past [requireUser]. *)
Definition handleSubscribe (user : string) (r : request) (w : web) : web :=
  if negb (String.eqb (rq_method r) "POST") then put_out (WAnswer (refuse 405 "method not allowed")) w
  else match rq_body r ≫= unmarshal (T := subscription) with
       | Some s =>
           if validPushEndpoint (sub_endpoint s) then put_out (WAnswer (Response 204 None "")) (push_add user s w)
           else put_out (WAnswer (refuse 400 "bad subscription")) w
       | None => put_out (WAnswer (refuse 400 "bad subscription")) w
       end.

(** ** The sink: [userSink] *)

Definition sink (user : string) (e : core_effect) (w : web) : web :=
  let emit t d := broadcast user t d w in
  match e with
  | SPrint m => maybePush user m (emit "msg" (PMsg (toMessageDTO m)))
  | SNetworkChanged n => emit "net:update" (PNetwork (toNetworkDTO n))
  | SNetworkRemoved id => emit "net:remove" (PNetRemove (MkNetRemove id))
  | SNetworksReordered ids => emit "net:reorder" (PNetReorder (MkNetReorder ids))
  | STyping network buffer nick state => emit "typing" (PTyping (MkTyping network buffer nick state))
  | SReact network buffer target nick reaction => emit "react" (PReact (MkReact network buffer target nick reaction))
  | SRedact network buffer target nick reason => emit "redact" (PRedact (MkRedact network buffer target nick reason))
  | SChannelList network items =>
      emit "list:result"
        (PList (MkListResp network ((λ i, MkListChannel (li_name i) (li_users i) (li_topic i)) <$> items)))
  | SReadMarker network buffer ts => emit "read" (PRead (MkReadMark network buffer (rfc3339_nano ts)))
  | _ => w
  end%string.

(** ** Requests *)

(** The routes whose handlers are outside this model; all need a user. *)
Definition user_routes : list string :=
  ["/api/export"; "/api/import"; "/api/preview"; "/api/proxy"]%string ++
  (if wo_uploads O then ["/api/upload"; "/api/uploads"]%string else []).

(** [requireUser]. *)
Definition requireUser (r : request) (fn : string → web → web) (w : web) : web :=
  let '(a, user) := userOf C (we_now E) r (wb_auth w) in
  let w := w <| wb_auth := a |> in
  match user with None => put_out (WAnswer (refuse 401 "unauthorized")) w | Some user => fn user w end.

(** A login form: refused at once, or left to verify. *)
Definition login_route (word : bool) (r : request) (w : web) : web :=
  let '(a, res) := (if word then word_begin else login_begin) C (we_now E) r (wb_auth w) in
  let w := w <| wb_auth := a |> in
  match res with
  | inl resp => put_out (WAnswer resp) w
  | inr ip => w <| wb_attempts ::= λ l, l ++ [Attempt word ip r] |>
  end.

(** The mux, on a request that is past the gate.  Every pattern is a cleaned
    path, so one that is not clean only reaches the files. *)
Definition mux (r : request) (accepted : bool) (w : web) : web :=
  let path := rq_path r in
  if String.eqb path "/ws" then ws_connect r accepted w
  else if String.eqb path "/healthz" then put_out (WAnswer (Response 200 None "")) w
  else if String.eqb path "/api/me" then
    let '(a, (auth, user, required, granted)) := handleMe C (we_now E) r (wb_auth w) in
    put_out (WMe auth user required granted) (w <| wb_auth := a |>)
  else if String.eqb path "/api/magicword" then login_route true r w
  else if String.eqb path "/api/login" then login_route false r w
  else if String.eqb path "/api/magicword/logout" then
    let '(a, resp) := handleMagicWordLogout C r (wb_auth w) in put_out (WAnswer resp) (w <| wb_auth := a |>)
  else if String.eqb path "/api/logout" then
    let '(a, resp) := handleLogout C r (wb_auth w) in put_out (WAnswer resp) (w <| wb_auth := a |>)
  else if wo_push O && String.eqb path "/api/push/subscribe" then
    requireUser r (λ user, handleSubscribe user r) w
  else if existsb (String.eqb path) user_routes then requireUser r (λ user, put_out (WServe (Some user) path)) w
  else put_out (WServe None path) w.

(** [Handler]. *)
Definition serve (r : request) (accepted : bool) (w : web) : web :=
  let '(a, open) := magicGate C (we_now E) r (wb_auth w) in
  let w := w <| wb_auth := a |> in
  if open then mux r accepted w else put_out (WAnswer (refuse 401 "unauthorized")) w.

(** The verification of attempt [i] ends; [tok] is a fresh token. *)
Definition finish_attempt (i : nat) (tok : string) (w : web) : web :=
  match wb_attempts w !! i with
  | None => w
  | Some t =>
      let '(a, resp) := (if at_word t then word_finish else login_finish) C (we_now E) tok (at_ip t) (at_request t) (wb_auth w) in
      put_out (WAnswer resp) (w <| wb_auth := a |> <| wb_attempts ::= delete i |>)
  end.

(** ** The server as a state machine *)

Inductive web_input :=
  | XRequest (r : request) (accepted : bool)
  | XVerified (i : nat) (tok : string)
  | XFrame (c : nat) (env : envelope)          (** [readPump] reads a frame *)
  | XResume (c : nat)                          (** a reader that stopped in a handler goes on *)
  | XClosed (c : nat)                          (** reading fails: [handleWS] ends *)
  | XHandler (i : nat)                         (** a handler running aside does its work *)
  | XWrite (c : nat) (ok : bool)               (** [writePump] *)
  | XLost (c : nat)                            (** a ping goes unanswered *)
  | XSink (user : string) (e : core_effect)
  | XPushed (i : nat) (status : string → option Z).

Definition close_client (c : nat) (x : client) (w : web) : web :=
  removeClient (cl_user x) c (upd_client c (λ x, x <| cl_reader := RDone |> <| cl_broken := true |>) w).

Definition run_handler (i : nat) (w : web) : web :=
  match wb_async w !! i with
  | None => w
  | Some (c, env) =>
      let w := w <| wb_async ::= delete i |> in
      match wb_heap w !! c with
      | Some x => upd_client c (λ x, x <| cl_slots ::= pred |>) (run_slow c (cl_user x) env w)
      | None => w
      end
  end.

Definition write_one (ok : bool) (x : client) : client :=
  match cl_send x with
  | f :: rest =>
      if cl_broken x then x
      else if ok then x <| cl_send := rest |> <| cl_sent ::= λ l, l ++ [f] |>
      else x <| cl_send := rest |> <| cl_broken := true |>
  | [] => x
  end.

Definition web_step (i : web_input) (w : web) : web :=
  match i with
  | XRequest r accepted => serve r accepted w
  | XVerified i tok => finish_attempt i tok w
  | XFrame c env =>
      match wb_heap w !! c with
      | Some x => match cl_reader x with RReading => if cl_broken x then w else route c x env w | _ => w end
      | None => w
      end
  | XResume c => match wb_heap w !! c with Some x => resume c x w | None => w end
  | XClosed c =>
      match wb_heap w !! c with
      | Some x => match cl_reader x with RReading => close_client c x w | _ => w end
      | None => w
      end
  | XHandler i => run_handler i w
  | XWrite c ok => upd_client c (write_one ok) w
  | XLost c => upd_client c (λ x, x <| cl_broken := true |>) w
  | XSink user e => sink user e w
  | XPushed i status =>
      match wb_pushes w !! i with
      | Some (user, _) => notify user status (w <| wb_pushes ::= delete i |>)
      | None => w
      end
  end.
End web.

(** A run of the server: every step in its world. *)
Definition web_run `{UnicodeTables, TimeParse, Regexp, SqlHost, StoreJson, Bcrypt, JsonText} (O : web_options)
    (l : list (wenv * web_input)) (w : web) : web := foldl (λ w s, web_step O s.1 s.2 w) w l.
