(* ===== verification/WebThms.v ===== *)
(** * What the web server guarantees

    A client only acts on its own account ([accounts_isolated]); a committed
    line reaches every open browser of the account, in order and without gaps
    ([lines_reach_tabs]); a mute is saved with the account and silences the
    buffer's ordinary lines, in whatever case its name is written
    ([mute_silences]). *)

From Stdlib Require Import ZArith Lia Ascii Bool.
From stdpp Require Import base tactics list gmap strings.
From S2P Require Import Prelude GoStrings GoNet CoreTypes CoreEvent CoreEngine CoreHistory CoreBouncer CoreCommand StoreDb StoreQuery PlugHost PlugRun WebProto WebAuth WebDto WebServer.

#[local] Open Scope Z_scope.

(** ** One client *)

(** What the browser gets, in order: what is written, then what is queued. *)
Definition stream (x : client) : list frame := cl_sent x ++ cl_send x.

(** How a client may change: it stays somebody's, a broken one stays broken, and
    one that is not broken has everything it was sent. *)
Record grows (x x' : client) : Prop := {
  gr_user : cl_user x' = cl_user x;
  gr_broken : cl_broken x = true → cl_broken x' = true;
  gr_stream : cl_broken x' = false → stream x `prefix_of` stream x';
  gr_queue : (length (cl_send x) ≤ sendBuffer → length (cl_send x') ≤ sendBuffer)%nat;
}.

Lemma gr_refl x : grows x x.
Proof. done. Qed.

Lemma gr_trans x y z : grows x y → grows y z → grows x z.
Proof.
  intros [U1 B1 S1 Q1] [U2 B2 S2 Q2]. split; [congruence|auto| |auto].
  intros Hz. etrans; [|by apply S2]. apply S1. destruct (cl_broken y); [|done]. by rewrite B2 in Hz.
Qed.

Lemma gr_try f x : grows x (trySend f x).
Proof.
  unfold trySend. destruct (Nat.ltb_spec (length (cl_send x)) sendBuffer) as [Hl|Hl]; split; cbn; try done.
  - intros _. unfold stream. cbn. rewrite app_assoc. by eexists.
  - intros _. rewrite length_app. cbn. lia.
Qed.

Lemma gr_write ok x : grows x (write_one ok x).
Proof.
  unfold write_one. destruct (cl_send x) as [|f rest] eqn:Hs; [done|].
  destruct (cl_broken x) eqn:Hb; [done|]. destruct ok; split; cbn; try done; rewrite ?Hs; cbn; try lia.
  intros _. unfold stream. rewrite Hs. cbn. by rewrite <- app_assoc.
Qed.

(** A change of nothing a browser sees. *)
Lemma gr_same x x' : cl_user x' = cl_user x → cl_send x' = cl_send x → cl_sent x' = cl_sent x →
  (cl_broken x = true → cl_broken x' = true) → grows x x'.
Proof. intros Hu Hs Ht Hb. split; [done|done| |by rewrite Hs]. intros _. unfold stream. by rewrite Hs, Ht. Qed.

(** ** One account *)

(** The registry holds clients under their own user. *)
Definition index_ok (w : web) : Prop :=
  ∀ u c, c ∈ clients_of u w → ∃ x, wb_heap w !! c = Some x ∧ cl_user x = u.

Definition of_user (u : string) (e : web_effect) : Prop :=
  match e with WCore v _ | WPlugin v _ | WDisconnect v => v = u | _ => False end.

(** What a client of [u] may do to the server. *)
Record changes (u : string) (w w' : web) : Prop := {
  ch_heap : ∀ c x, wb_heap w !! c = Some x → ∃ x', wb_heap w' !! c = Some x' ∧ grows x x' ∧ (cl_user x ≠ u → x' = x);
  ch_new : ∀ c, wb_heap w !! c = None → wb_heap w' !! c = None;
  ch_clients : wb_clients w' = wb_clients w;
  ch_prefs : ∀ v k, v ≠ u → wb_prefs w' !! (v, k) = wb_prefs w !! (v, k);
  ch_out : ∃ es, wb_out w' = wb_out w ++ es ∧ Forall (of_user u) es;
  ch_rest : wb_auth w' = wb_auth w ∧ wb_attempts w' = wb_attempts w ∧ wb_subs w' = wb_subs w ∧
            wb_pushes w' = wb_pushes w ∧ wb_next w' = wb_next w;
}.

Definition acts (u : string) (w w' : web) : Prop := index_ok w → changes u w w'.

(** Client [c] belongs to [u]. *)
Definition owns (u : string) (c : nat) (w : web) : Prop := ∀ x, wb_heap w !! c = Some x → cl_user x = u.

Lemma changes_index u w w' : changes u w w' → index_ok w → index_ok w'.
Proof.
  intros Hc Hi v c Hin. unfold clients_of in *. rewrite (ch_clients _ _ _ Hc) in Hin.
  destruct (Hi v c Hin) as (x & Hx & Hv). destruct (ch_heap _ _ _ Hc c x Hx) as (x' & Hx' & Hg & _).
  exists x'. split; [done|]. rewrite <- Hv. apply Hg.
Qed.

Lemma changes_owns u v c w w' : changes u w w' → owns v c w → owns v c w'.
Proof.
  intros Hc Ho x' Hx'. destruct (wb_heap w !! c) as [x|] eqn:Hx.
  - destruct (ch_heap _ _ _ Hc c x Hx) as (y & Hy & Hg & _). simplify_eq. rewrite (gr_user _ _ Hg). by apply Ho.
  - by rewrite (ch_new _ _ _ Hc c Hx) in Hx'.
Qed.

Lemma changes_refl u w : changes u w w.
Proof.
  split; try done; [|exists []; by rewrite app_nil_r].
  intros c x Hx. exists x. split_and!; [done|apply gr_refl|done].
Qed.

Lemma changes_trans u w1 w2 w3 : changes u w1 w2 → changes u w2 w3 → changes u w1 w3.
Proof.
  intros H1 H2. split.
  - intros c x Hx. destruct (ch_heap _ _ _ H1 c x Hx) as (y & Hy & Hg & Hs).
    destruct (ch_heap _ _ _ H2 c y Hy) as (z & Hz & Hg' & Hs'). exists z. split_and!; [done|by eapply gr_trans|].
    intros Hu. rewrite <- (Hs Hu). apply Hs'. by rewrite (Hs Hu).
  - intros c Hx. apply (ch_new _ _ _ H2), (ch_new _ _ _ H1), Hx.
  - by rewrite (ch_clients _ _ _ H2), (ch_clients _ _ _ H1).
  - intros v k Hv. by rewrite (ch_prefs _ _ _ H2), (ch_prefs _ _ _ H1).
  - destruct (ch_out _ _ _ H1) as (e1 & O1 & F1), (ch_out _ _ _ H2) as (e2 & O2 & F2).
    exists (e1 ++ e2). rewrite O2, O1, app_assoc. split; [done|by apply Forall_app].
  - destruct (ch_rest _ _ _ H1) as (? & ? & ? & ? & ?), (ch_rest _ _ _ H2) as (? & ? & ? & ? & ?). split_and!; congruence.
Qed.

(** The conditional relation, with ownership along the way. *)
Definition acts_as (u : string) (c : nat) (w w' : web) : Prop := index_ok w → owns u c w → changes u w w'.

Lemma as_refl u c w : acts_as u c w w.
Proof. intros _ _. apply changes_refl. Qed.

Lemma as_trans u c w1 w2 w3 : acts_as u c w1 w2 → acts_as u c w2 w3 → acts_as u c w1 w3.
Proof.
  intros H1 H2 Hi Ho. specialize (H1 Hi Ho).
  eapply changes_trans; [exact H1|]. apply H2; [by eapply changes_index|by eapply changes_owns].
Qed.

(** A change of one client of the account. *)
Lemma changes_client u c f w : owns u c w → (∀ x, cl_user x = u → grows x (f x)) → changes u w (upd_client c f w).
Proof.
  intros Ho Hf. split; try done; [| |exists []; by rewrite app_nil_r].
  - intros d x Hx. cbn. destruct (decide (d = c)) as [->|Hd].
    + exists (f x). rewrite lookup_alter_eq, Hx. split_and!; [done|apply Hf; by apply Ho|]. intros Hu. by specialize (Ho x Hx).
    + exists x. rewrite lookup_alter_ne by done. split_and!; [done|apply gr_refl|done].
  - intros d Hd. cbn. destruct (decide (d = c)) as [->|Hne]; [by rewrite lookup_alter_eq, Hd|by rewrite lookup_alter_ne].
Qed.

Lemma as_client u c f w : (∀ x, cl_user x = u → grows x (f x)) → acts_as u c w (upd_client c f w).
Proof. intros Hf _ Ho. by apply changes_client. Qed.

Lemma as_send u c f w : acts_as u c w (send_to c f w).
Proof. apply as_client. intros x _. apply gr_try. Qed.

Lemma as_out u c e w : of_user u e → acts_as u c w (put_out e w).
Proof.
  intros He _ _. split; try done; [|exists [e]; by auto].
  intros d x Hx. exists x. split_and!; [done|apply gr_refl|done].
Qed.

Lemma as_reader u c r w : acts_as u c w (set_reader c r w).
Proof. apply as_client. intros x _. by apply gr_same. Qed.

Lemma as_visible u c b w : acts_as u c w (setClientVisible c b w).
Proof. apply as_client. intros x _. by apply gr_same. Qed.

Lemma as_async u c l w : acts_as u c w (w <| wb_async := l |>).
Proof.
  intros _ _. split; try done; [|exists []; by rewrite app_nil_r].
  intros d x Hx. exists x. split_and!; [done|apply gr_refl|done].
Qed.

Lemma as_prefs u c k v w : acts_as u c w (w <| wb_prefs ::= <[(u, k) := v]> |>).
Proof.
  intros _ _. split; try done; [| |exists []; by rewrite app_nil_r].
  - intros d x Hx. exists x. split_and!; [done|apply gr_refl|done].
  - intros v' k' Hv. cbn. apply lookup_insert_ne. congruence.
Qed.

(** Fan-out over a set of the account's clients. *)
Lemma changes_fan u f l : ∀ w, (∀ d, d ∈ l → owns u d w) → changes u w (foldl (λ w c, send_to c f w) w l).
Proof.
  induction l as [|d l IH]; intros w Hl; [apply changes_refl|]. cbn.
  assert (Hd : changes u w (send_to d f w)).
  { apply changes_client; [apply Hl; by left|]. intros x _. apply gr_try. }
  eapply changes_trans; [exact Hd|]. apply IH. intros e He. eapply changes_owns; [exact Hd|]. apply Hl. by right.
Qed.

Lemma index_owns u c w : index_ok w → c ∈ clients_of u w → owns u c w.
Proof. intros Hi Hin x Hx. destruct (Hi u c Hin) as (y & Hy & Hu). by simplify_eq. Qed.

Lemma changes_broadcast u t d w : index_ok w → changes u w (broadcast u t d w).
Proof.
  intros Hi. apply changes_fan. intros c Hc. apply index_owns; [done|]. by apply elem_of_elements.
Qed.

Lemma as_broadcast u c t d w : acts_as u c w (broadcast u t d w).
Proof. intros Hi _. by apply changes_broadcast. Qed.

Lemma as_broadcast_except u c e t d w : acts_as u c w (broadcastExcept u e t d w).
Proof.
  intros Hi _. apply changes_fan. intros x Hx. apply index_owns; [done|].
  apply elem_of_elements in Hx. set_solver.
Qed.

Create HintDb web.
#[export] Hint Resolve as_send as_reader as_visible as_async as_prefs as_broadcast as_broadcast_except : web.
#[export] Hint Extern 1 (acts_as _ _ _ (put_out _ _)) => apply as_out; done : web.

(** The last change of a chain by its lemma, then the ones before it. *)
Ltac web :=
  repeat match goal with
  | |- acts_as _ _ ?w ?w => apply as_refl
  | |- acts_as _ _ _ (let _ := _ in _) => cbv zeta
  | |- acts_as _ _ _ (fst (?a, ?b)) => cbn [fst]
  | Heq : ?t = (?w', ?o) |- acts_as _ _ _ ?w' => change w' with (fst (w', o)); rewrite <- Heq; clear Heq
  | |- acts_as _ _ _ (match ?x with _ => _ end) => destruct x eqn:?
  | |- acts_as _ _ _ (fst (match ?x with _ => _ end)) => destruct x eqn:?
  | |- _ => eapply as_trans; [|solve [eauto 4 with web]]
  end.

Section steps.
Context `{UnicodeTables, TimeParse, Regexp, SqlHost, StoreJson, Bcrypt, JsonText} (O : web_options) (E : wenv).

Lemma as_error u c c' id code msg w : c' = c → acts_as u c w (sendError c' id code msg w).
Proof. intros ->. apply as_send. Qed.

Lemma as_reply u c c' id t d w : c' = c → acts_as u c w (reply c' id t d w).
Proof. intros ->. apply as_send. Qed.

Lemma as_engine u c i w : acts_as u c w (engine_call E u i w).1.
Proof. by apply as_out. Qed.

Lemma as_engine_do u c i w : acts_as u c w (engine_do u i w).
Proof. by apply as_out. Qed.

Lemma as_plugin u c p w : acts_as u c w (plugin_do E u p w).1.
Proof. by apply as_out. Qed.

Lemma as_set_pref u c k v w : acts_as u c w (SetPref E u k v w).1.
Proof. unfold SetPref. destruct (we_pref_ok E); [apply as_prefs|apply as_refl]. Qed.

Lemma as_save u c k j w : acts_as u c w (save_pref O E u k j w).
Proof. unfold save_pref. destruct (wo_prefs O); [apply as_set_pref|apply as_refl]. Qed.

Hint Resolve as_error as_reply as_engine as_engine_do as_plugin as_set_pref as_save : web.

Lemma as_req `{Payload T} u c env bad ok fn w :
  (∀ d w, acts_as u c w (fn d w).1) → acts_as u c w (reqHandle (T := T) c env bad ok fn w).
Proof.
  intros Hf. unfold reqHandle. destruct (decode env) as [d|]; [|by apply as_error]. destruct (ok d); [|by apply as_error].
  specialize (Hf d w). destruct (fn d w) as [w' err]. destruct err; [|done]. eapply as_trans; [exact Hf|by apply as_error].
Qed.

Lemma as_best `{Payload T} u c env ok fn w :
  (∀ d w, acts_as u c w (fn d w)) → acts_as u c w (bestHandle (T := T) env ok fn w).
Proof. intros Hf. unfold bestHandle. destruct (decode env) as [d|]; [|apply as_refl]. destruct (ok d); [done|apply as_refl]. Qed.

Lemma as_switch u c cases t w : Forall (λ h, ∀ w, acts_as u c w (h.2 w)) cases → acts_as u c w (switch cases t w).
Proof.
  intros Hc. unfold switch. destruct (find _ cases) as [h|] eqn:Hf; [|apply as_refl].
  apply find_some in Hf as [Hin _]. rewrite Forall_forall in Hc. apply (Hc h). by apply list_elem_of_In.
Qed.

Ltac web_cases :=
  repeat first [apply Forall_nil_2 | apply Forall_cons_2 | apply as_best; intros | apply as_req; intros | progress intros
    | progress cbn [snd] | progress web ].

Lemma as_slow u c env w : acts_as u c w (run_slow O E c u env w).
Proof.
  apply as_switch. unfold slow_cases, handleBacklog, handleContext, handleComplete, handleSearch, handleMissed, handlePluginAction.
  web_cases.
Qed.

Lemma as_async_start u c x env w : cl_user x = u → acts_as u c w (async O E c x env w).
Proof.
  intros Hu. unfold async. destruct (_ <? _)%nat; [|rewrite Hu; apply as_slow].
  eapply as_trans; [|apply as_async]. apply as_client. intros y _. by apply gr_same.
Qed.

Lemma as_route u c x env w : cl_user x = u → acts_as u c w (route O E c x env w).
Proof.
  intros Hu. unfold route. rewrite Hu. cbv zeta. destruct (has_case _ _); [by apply as_async_start|].
  apply as_switch. rewrite !Forall_app. split_and!; [|unfold quiet_cases|].
  - unfold engine_cases. web_cases.
  - web_cases.
  - unfold settings_cases, net_info, plugin_setting, set_highlight, set_aliases, set_settings, set_bouncer. web_cases.
Qed.

Lemma as_resume u c x w : cl_user x = u → acts_as u c w (resume O E c x w).
Proof. intros Hu. unfold resume, ws_init. rewrite Hu. web. Qed.

(** ** The whole server *)

(** The registry is right, the next id is free, no queue is too long. *)
Definition server_ok (w : web) : Prop :=
  index_ok w ∧ ∀ c x, wb_heap w !! c = Some x → (c < wb_next w)%nat ∧ (length (cl_send x) ≤ sendBuffer)%nat.

(** What every step keeps of a client. *)
Definition onward (w w' : web) : Prop :=
  ∀ c x, wb_heap w !! c = Some x → ∃ x', wb_heap w' !! c = Some x' ∧ grows x x'.

Lemma onward_refl w : onward w w.
Proof. intros c x Hx. exists x. by split; [|apply gr_refl]. Qed.

Lemma onward_trans w1 w2 w3 : onward w1 w2 → onward w2 w3 → onward w1 w3.
Proof.
  intros H12 H23 c x Hx. destruct (H12 c x Hx) as (y & Hy & G1), (H23 c y Hy) as (z & Hz & G2).
  exists z. split; [done|by eapply gr_trans].
Qed.

(** A step: the clients go on, the server stays in order, and clients that come
    new are those of a user in [N]. *)
Definition fine_step (N : string → Prop) (w w' : web) : Prop := server_ok w →
  onward w w' ∧ server_ok w' ∧ ∀ c x', wb_heap w' !! c = Some x' → is_Some (wb_heap w !! c) ∨ N (cl_user x').

Section fine.
Context (N : string → Prop).
Notation fine_step := (fine_step N).

Lemma fine_trans w1 w2 w3 : fine_step w1 w2 → fine_step w2 w3 → fine_step w1 w3.
Proof.
  intros H12 H23 Hok. destruct (H12 Hok) as (A & B & X), (H23 B) as (D & F & Y).
  split_and!; [by eapply onward_trans|done|]. intros c z Hz. destruct (Y c z Hz) as [[y Hy]|Hn]; [|by right].
  destruct (X c y Hy) as [Hx|Hn]; [by left|right]. destruct (D c y Hy) as (z' & Hz' & Hg). simplify_eq.
  by rewrite (gr_user _ _ Hg).
Qed.

Lemma fine_same w w' : wb_heap w' = wb_heap w → wb_clients w' = wb_clients w → wb_next w' = wb_next w → fine_step w w'.
Proof.
  intros Hh Hc Hn [Hi Hf]. split; [intros c x Hx; exists x; rewrite Hh; by split; [|apply gr_refl]|].
  split; [|intros c x Hx; left; rewrite <- Hh; by eexists].
  split; [intros u c; unfold clients_of; rewrite Hc, Hh; apply Hi|rewrite Hh, Hn; exact Hf].
Qed.

Lemma fine_changes u w w' : changes u w w' → fine_step w w'.
Proof.
  intros Hc [Hi Hf]. split_and!.
  - intros c x Hx. destruct (ch_heap _ _ _ Hc c x Hx) as (x' & Hx' & Hg & _). by exists x'.
  - split; [by eapply changes_index|]. destruct (ch_rest _ _ _ Hc) as (_ & _ & _ & _ & ->). intros c x Hx.
    destruct (wb_heap w !! c) as [y|] eqn:Hy; [|by rewrite (ch_new _ _ _ Hc c Hy) in Hx].
    destruct (ch_heap _ _ _ Hc c y Hy) as (x' & Hx' & Hg & _), (Hf c y Hy) as [Hn Hq]. simplify_eq.
    split; [done|by apply Hg].
  - intros c x Hx. left. destruct (wb_heap w !! c) as [y|] eqn:Hy; [done|]. by rewrite (ch_new _ _ _ Hc c Hy) in Hx.
Qed.

Lemma fine_as u c w w' : owns u c w → acts_as u c w w' → fine_step w w'.
Proof. intros Ho Ha Hok. by eapply fine_changes; [apply Ha; [apply Hok|]|]. Qed.

Lemma owns_self c x w : wb_heap w !! c = Some x → owns (cl_user x) c w.
Proof. intros Hx y Hy. by simplify_eq. Qed.

Lemma fine_client c f w : (∀ x, grows x (f x)) → fine_step w (upd_client c f w).
Proof.
  intros Hf. destruct (wb_heap w !! c) as [x|] eqn:Hx.
  - apply (fine_as (cl_user x) c); [by apply owns_self|]. by apply as_client.
  - apply fine_same; [|done|done]. cbn. apply alter_id. by rewrite Hx.
Qed.

Lemma fine_remove u c w : fine_step w (removeClient u c w).
Proof.
  intros [Hi Hf]. split; [intros d x Hx; exists x; by split; [|apply gr_refl]|].
  split; [split; [|done]|intros d x Hx; by left].
  intros v d Hin. apply Hi. unfold clients_of, removeClient in *. cbn in Hin.
  destruct (decide (v = u)) as [->|Hv].
  - destruct (decide _) as [Hd|Hd]; [by rewrite lookup_delete_eq in Hin|].
    rewrite lookup_insert_eq in Hin. cbn in Hin. unfold clients_of in Hin. set_solver.
  - by destruct (decide _); [rewrite lookup_delete_ne in Hin by done|rewrite lookup_insert_ne in Hin by done].
Qed.

Lemma fine_connect r accepted w :
  (∀ u, accepted = true → (userOf (wo_config O) (we_now E) r (wb_auth w)).2 = Some u → N u) →
  fine_step w (ws_connect O E r accepted w).
Proof.
  intros HN. unfold ws_connect. destruct (userOf _ _ _ _) as [a [u|]]; [|by apply fine_same].
  destruct (negb _); [by apply fine_same|]. destruct accepted; [|by apply fine_same].
  cbv zeta. intros [Hi Hf]. unfold addClient. cbn.
  assert (Hfresh : wb_heap w !! wb_next w = None).
  { destruct (wb_heap w !! wb_next w) as [x|] eqn:Hx; [|done]. apply Hf in Hx. lia. }
  split_and!.
  - intros c x Hx. exists x. split; [|apply gr_refl]. cbn. rewrite lookup_insert_ne; [done|]. congruence.
  - split.
    + intros v c Hin. unfold clients_of in Hin. cbn in Hin. cbn.
      destruct (decide (c = wb_next w)) as [->|Hc].
      * destruct (decide (v = u)) as [->|Hv]; [exists (newClient u); by rewrite lookup_insert_eq|].
        rewrite lookup_insert_ne in Hin by done. destruct (Hi v (wb_next w)) as (x & Hx & _); [done|]. congruence.
      * rewrite lookup_insert_ne by done. apply Hi. unfold clients_of.
        destruct (decide (v = u)) as [->|Hv]; [|by rewrite lookup_insert_ne in Hin].
        rewrite lookup_insert_eq in Hin. cbn in Hin. unfold clients_of in Hin. set_solver.
    + intros c x Hx. cbn in *. destruct (decide (c = wb_next w)) as [->|Hc].
      * rewrite lookup_insert_eq in Hx. simplify_eq. cbn. lia.
      * rewrite lookup_insert_ne in Hx by done. apply Hf in Hx. lia.
  - cbn. intros c x Hx. destruct (decide (c = wb_next w)) as [->|Hc].
    + rewrite lookup_insert_eq in Hx. simplify_eq. right. by apply HN.
    + rewrite lookup_insert_ne in Hx by done. left. by eexists.
Qed.

Lemma fine_mux r accepted w :
  (∀ u, rq_path r = "/ws"%string → accepted = true → (userOf (wo_config O) (we_now E) r (wb_auth w)).2 = Some u → N u) →
  fine_step w (mux O E r accepted w).
Proof.
  intros HN. unfold mux, login_route, requireUser, handleSubscribe. cbv zeta.
  destruct (String.eqb_spec (rq_path r) "/ws"); [apply fine_connect; auto|].
  repeat match goal with
  | |- fine_step _ (match ?x with _ => _ end) => destruct x
  end; by apply fine_same.
Qed.

(** The user a request connects as. *)
Definition connects (r : request) (w : web) (u : string) : Prop :=
  rq_path r = "/ws"%string ∧
  let '(a, open) := magicGate (wo_config O) (we_now E) r (wb_auth w) in
  open = true ∧ (userOf (wo_config O) (we_now E) r a).2 = Some u.

Lemma fine_serve r accepted w : (∀ u, accepted = true → connects r w u → N u) → fine_step w (serve O E r accepted w).
Proof.
  unfold serve, connects. destruct (magicGate _ _ _ _) as [a open]. intros HN. eapply fine_trans; [by apply (fine_same w (w <| wb_auth := a |>))|].
  destruct open; [apply fine_mux; auto|by apply fine_same].
Qed.

Lemma notify_same user status w :
  let w' := notify user status w in
  wb_heap w' = wb_heap w ∧ wb_clients w' = wb_clients w ∧ wb_next w' = wb_next w ∧ wb_auth w' = wb_auth w ∧
  wb_attempts w' = wb_attempts w.
Proof.
  cbv zeta. unfold notify. generalize (map_to_list (subs_of user w)).*1 as l. intros l. revert w.
  induction l as [|e l IH]; intros w; [done|]. cbn. specialize (IH (match status e with
                | Some code => if (code =? 404) || (code =? 410) then push_remove user e w else w
                | None => w end)). destruct IH as (-> & -> & -> & -> & ->).
  destruct (status e); [|done]. by destruct (_ || _).
Qed.

(** A line is handed to every client of the account. *)
Lemma fan_reaches f l : ∀ w c x, NoDup l → wb_heap w !! c = Some x →
  wb_heap (foldl (λ w c, send_to c f w) w l) !! c = Some (if decide (c ∈ l) then trySend f x else x).
Proof.
  induction l as [|d l IH]; intros w c x Hnd Hx; [done|]. apply NoDup_cons in Hnd as [Hd Hnd]. cbn.
  destruct (decide (c = d)) as [->|Hcd].
  - rewrite (IH _ d (trySend f x) Hnd) by (cbn; by rewrite lookup_alter_eq, Hx).
    rewrite decide_False by done. by rewrite decide_True by left.
  - rewrite (IH _ c x Hnd) by (cbn; by rewrite lookup_alter_ne).
    destruct (decide (c ∈ l)); [by rewrite decide_True by (by right)|]. rewrite decide_False; [done|]. set_solver.
Qed.

Lemma broadcast_reaches u t d w c x : c ∈ clients_of u w → wb_heap w !! c = Some x →
  wb_heap (broadcast u t d w) !! c = Some (trySend (Frame t d) x).
Proof.
  intros Hc Hx. unfold broadcast, routeToUser. rewrite (fan_reaches _ _ w c x); [|apply NoDup_elements|done].
  rewrite decide_True; [done|by apply elem_of_elements].
Qed.

(** After an import every browser of the account is handed its state anew. *)
Lemma resync_reaches u w c x : c ∈ clients_of u w → wb_heap w !! c = Some x →
  wb_heap (resyncUser O E u w) !! c = Some (trySend (Frame "init" (PInit (init_state O E u w))) x).
Proof.
  intros Hc Hx. unfold resyncUser. rewrite bool_decide_false by (intros Hn; set_solver). by apply broadcast_reaches.
Qed.

Lemma fine_broadcast u t d w : fine_step w (broadcast u t d w).
Proof. intros Hok. apply (fine_changes u); [by apply changes_broadcast; apply Hok|done]. Qed.

Lemma fine_sink user e w : fine_step w (sink O E user e w).
Proof.
  destruct e; cbn [sink]; try apply fine_broadcast; try (by apply fine_same).
  eapply fine_trans; [apply fine_broadcast|]. unfold maybePush. destruct (wants_push _ _ _ _ _); by apply fine_same.
Qed.

Lemma fine_web_step i w : (∀ r u, i = XRequest r true → connects r w u → N u) → fine_step w (web_step O E i w).
Proof.
  intros HN. destruct i; cbn [web_step].
  - apply fine_serve. intros u -> Hu. by eapply HN.
  - unfold finish_attempt. destruct (wb_attempts w !! i); [|by apply fine_same].
    destruct ((if at_word _ then _ else _) _ _ _ _ _ _); by apply fine_same.
  - destruct (wb_heap w !! c) as [x|] eqn:Hx; [|by apply fine_same].
    destruct (cl_reader x); try (by apply fine_same). destruct (cl_broken x); [by apply fine_same|].
    eapply fine_as; [by apply owns_self|by apply as_route].
  - destruct (wb_heap w !! c) as [x|] eqn:Hx; [|by apply fine_same].
    eapply fine_as; [by apply owns_self|by apply as_resume].
  - destruct (wb_heap w !! c) as [x|] eqn:Hx; [|by apply fine_same].
    destruct (cl_reader x); try (by apply fine_same). unfold close_client.
    eapply fine_trans; [|apply fine_remove]. apply fine_client. intros y. by apply gr_same.
  - unfold run_handler. destruct (wb_async w !! i) as [[c env]|]; [|by apply fine_same]. cbv zeta.
    eapply fine_trans; [by apply (fine_same w (w <| wb_async ::= delete i |>))|].
    generalize (w <| wb_async ::= delete i |>). intros w1.
    destruct (wb_heap w1 !! c) as [x|] eqn:Hx; [|by apply fine_same].
    eapply fine_trans; [eapply fine_as; [by apply (owns_self c x)|apply as_slow]|].
    apply fine_client. intros y. by apply gr_same.
  - apply fine_client. intros x. apply gr_write.
  - apply fine_client. intros x. by apply gr_same.
  - apply fine_sink.
  - destruct (wb_pushes w !! i) as [[user p]|]; [|by apply fine_same].
    destruct (notify_same user status (w <| wb_pushes ::= delete i |>)) as (? & ? & ? & _). by apply fine_same.
Qed.
End fine.
End steps.

Section runs.
Context `{UnicodeTables, TimeParse, Regexp, SqlHost, StoreJson, Bcrypt, JsonText} (O : web_options).

Lemma web_run_app l1 l2 w : web_run O (l1 ++ l2) w = web_run O l2 (web_run O l1 w).
Proof. apply foldl_app. Qed.

Lemma fine_run l : ∀ w, fine_step (λ _, True) w (web_run O l w).
Proof.
  induction l as [|[E i] l IH]; intros w; [by apply fine_same|]. eapply fine_trans; [by apply fine_web_step|apply IH].
Qed.

Lemma new_ok prefs subs : server_ok (new_web O prefs subs).
Proof. split; [intros u c|intros c x]; cbn; [|done]. unfold clients_of. cbn. set_solver. Qed.

Lemma run_ok_from prefs subs l : server_ok (web_run O l (new_web O prefs subs)).
Proof. apply fine_run, new_ok. Qed.

End runs.

(** ** Accounts *)

(** The client whose request, or waiting handler, a step carries out. *)
Definition acting (i : web_input) (w : web) : option nat :=
  match i with
  | XFrame c _ | XResume c => Some c
  | XHandler k => fst <$> wb_async w !! k
  | _ => None
  end.

Section theorems.
Context `{UnicodeTables, TimeParse, Regexp, SqlHost, StoreJson, Bcrypt, JsonText} (O : web_options).

Lemma acting_changes E i w c x : server_ok w → acting i w = Some c → wb_heap w !! c = Some x →
  changes (cl_user x) w (web_step O E i w).
Proof.
  intros Hok Ha Hx. destruct i; cbn [acting] in Ha; try done; cbn [web_step]; simplify_eq.
  - rewrite Hx. destruct (cl_reader x); try apply changes_refl. destruct (cl_broken x); [apply changes_refl|].
    apply (as_route O E (cl_user x) c x env w); [done|apply Hok|by apply owns_self].
  - rewrite Hx. apply (as_resume O E (cl_user x) c x w); [done|apply Hok|by apply owns_self].
  - unfold run_handler. destruct (wb_async w !! i) as [[d env]|]; [|done]. cbn in Ha. simplify_eq. cbv zeta.
    change (wb_heap (w <| wb_async ::= delete i |>)) with (wb_heap w). rewrite Hx.
    refine (as_trans (cl_user x) c w _ _ (as_async _ _ _ _) _ _ _); [|apply Hok|by apply owns_self].
    eapply as_trans; [apply as_slow|]. apply as_client. intros y _. by apply gr_same.
Qed.

(** C26: accounts are kept apart.  In every reachable state of the server,
    whatever a browser sends, and whatever a handler working for it does later,
    changes no other account's browsers, queues or preferences, lets nobody in or
    out, and calls only the engine, plugins and bouncer of the browser's own
    account. *)
Theorem accounts_isolated prefs subs l E i c x :
  let w := web_run O l (new_web O prefs subs) in
  let w' := web_step O E i w in
  acting i w = Some c → wb_heap w !! c = Some x →
  (∀ d y, wb_heap w !! d = Some y → cl_user y ≠ cl_user x → wb_heap w' !! d = Some y) ∧
  (∀ v k, v ≠ cl_user x → wb_prefs w' !! (v, k) = wb_prefs w !! (v, k)) ∧
  (∃ es, wb_out w' = wb_out w ++ es ∧ Forall (of_user (cl_user x)) es) ∧
  wb_clients w' = wb_clients w ∧ wb_auth w' = wb_auth w ∧ wb_subs w' = wb_subs w.
Proof.
  cbv zeta. intros Ha Hx. set (w := web_run O l (new_web O prefs subs)) in *.
  assert (Hok : server_ok w) by (apply run_ok_from).
  assert (Hc : changes (cl_user x) w (web_step O E i w)) by (by apply (acting_changes E i w c)).
  split_and!; [|apply Hc|apply Hc|apply Hc|apply Hc|apply (ch_rest _ _ _ Hc)].
  intros d y Hy Hu. destruct (ch_heap _ _ _ Hc d y Hy) as (y' & Hy' & _ & Hs). by rewrite <- (Hs Hu).
Qed.

(** C27: committed lines reach every open browser, in order and without gaps.
    When the engine of an account commits a line, every browser registered for
    the account gets it right after everything that was sent to it before, and
    nobody else does; whatever happens later, as long as the browser's socket is
    not given up, what it has been written and what is queued for it go on from
    there, and its queue is never longer than its 128 places. *)
Theorem lines_reach_tabs prefs subs l1 E user m l2 c x :
  let w := web_run O l1 (new_web O prefs subs) in
  let w' := web_run O l2 (web_step O E (XSink user (SPrint m)) w) in
  wb_heap w !! c = Some x →
  ∃ x', wb_heap w' !! c = Some x' ∧ (length (cl_send x') ≤ sendBuffer)%nat ∧
    (c ∈ clients_of user w → cl_broken x' = false →
     stream x ++ [Frame "msg" (PMsg (toMessageDTO m))] `prefix_of` stream x') ∧
    (c ∉ clients_of user w → wb_heap (web_step O E (XSink user (SPrint m)) w) !! c = Some x).
Proof.
  cbv zeta. intros Hx. set (w := web_run O l1 (new_web O prefs subs)) in *.
  assert (Hok : server_ok w) by (apply run_ok_from).
  set (f := Frame "msg" (PMsg (toMessageDTO m))).
  set (y := if decide (c ∈ clients_of user w) then trySend f x else x).
  assert (Hstep : wb_heap (web_step O E (XSink user (SPrint m)) w) !! c = Some y).
  { cbn [web_step sink]. unfold maybePush.
    assert (Hb : wb_heap (broadcast user "msg" (PMsg (toMessageDTO m)) w) !! c = Some y).
    { unfold broadcast, routeToUser. rewrite (fan_reaches _ _ w c x); [|apply NoDup_elements|done].
      unfold y. f_equal. destruct (decide (c ∈ clients_of user w)) as [Hin|Hin].
      - by rewrite decide_True by (by apply elem_of_elements).
      - by rewrite decide_False by (by rewrite elem_of_elements). }
    by destruct (wants_push _ _ _ _ _). }
  assert (Hok' : server_ok (web_step O E (XSink user (SPrint m)) w)) by (by apply (fine_web_step O E (λ _, True))).
  destruct (fine_run O l2 _ Hok') as (Hon & _ & _). destruct (Hon c y Hstep) as (x' & Hx' & Hg).
  exists x'. split_and!; [done| | |].
  - destruct (fine_run O l2 _ Hok') as (_ & [_ Hq] & _). by apply (Hq c x' Hx').
  - intros Hin Hb. unfold y in Hg. rewrite decide_True in Hg by done. etrans; [|by apply Hg].
    assert (Hy : cl_broken (trySend f x) = false).
    { destruct (cl_broken (trySend f x)) eqn:Ht; [|done]. rewrite (gr_broken _ _ Hg) in Hb; [done|exact Ht]. }
    unfold trySend in *. destruct (_ <? _)%nat; [|done]. unfold stream. cbn. by rewrite app_assoc.
  - intros Hin. rewrite Hstep. unfold y. by rewrite decide_False.
Qed.
End theorems.

(** ** The set of muted buffers *)

Lemma same_buffer_spec n b n' b' : same_buffer n b n' b' = true ↔ n' = n ∧ FoldIRC b' = FoldIRC b.
Proof. unfold same_buffer, EqualIRC. by rewrite andb_true_iff, !String.eqb_eq. Qed.

Lemma muted_spec refs n b : isMuted refs n b = true ↔ ∃ r, r ∈ refs ∧ mr_network r = n ∧ FoldIRC (mr_buffer r) = FoldIRC b.
Proof.
  unfold isMuted. rewrite existsb_exists. split; intros (r & Hr & Hs); exists r.
  - apply same_buffer_spec in Hs. split; [by apply list_elem_of_In|done].
  - split; [by apply list_elem_of_In|]. by apply same_buffer_spec.
Qed.

(** Setting is exact: the buffer itself as asked, every other one as it was. *)
Lemma set_muted_spec refs n b on n' b' :
  isMuted (setMuted refs n b on) n' b' = if same_buffer n b n' b' then on else isMuted refs n' b'.
Proof.
  apply eq_true_iff_eq. rewrite muted_spec. unfold setMuted.
  destruct (same_buffer n b n' b') eqn:Hs.
  - apply same_buffer_spec in Hs as [-> Hf]. destruct on; split; try done.
    + intros _. exists (MkMuteRef n b). split; [apply elem_of_app; right; by left|done].
    + intros (r & Hr & Hn & Hb). apply list_elem_of_filter in Hr as [Hr _].
      assert (same_buffer n b (mr_network r) (mr_buffer r) = true); [|congruence]. apply same_buffer_spec. split; congruence.
  - rewrite muted_spec.
    assert (Hout : ∀ r, mr_network r = n' → FoldIRC (mr_buffer r) = FoldIRC b' →
      same_buffer n b (mr_network r) (mr_buffer r) = false).
    { intros r Hn Hb. destruct (same_buffer n b (mr_network r) (mr_buffer r)) eqn:He; [|done].
      apply same_buffer_spec in He as [He1 He2].
      assert (same_buffer n b n' b' = true); [|congruence]. apply same_buffer_spec. split; congruence. }
    split.
    + intros (r & Hr & Hn & Hb). exists r. split; [|done]. destruct on; [apply elem_of_app in Hr as [Hr|Hr]|].
      * by apply list_elem_of_filter in Hr as [_ Hr].
      * apply list_elem_of_singleton in Hr as ->. cbn in Hn, Hb. specialize (Hout (MkMuteRef n b) Hn Hb).
        cbn in Hout. unfold same_buffer, EqualIRC in Hout. by rewrite !String.eqb_refl in Hout.
      * by apply list_elem_of_filter in Hr as [_ Hr].
    + intros (r & Hr & Hn & Hb). exists r. split; [|done].
      assert (Hin : r ∈ filter (λ r, same_buffer n b (mr_network r) (mr_buffer r) = false) refs).
      { apply list_elem_of_filter. split; [by apply Hout|done]. }
      destruct on; [apply elem_of_app; by left|done].
Qed.

(** ** Kept as text *)

Section text.
Context `{J : JsonText, !JsonLaws J}.

Definition ref_valid (r : MuteRef) : Prop := valid_utf8 (mr_network r) = true ∧ valid_utf8 (mr_buffer r) = true.

Lemma text_not_empty j : json_clean j = true → json_text j ≠ ""%string.
Proof. intros Hj He. pose proof (text_json_text j Hj) as Ht. by rewrite He, text_json_empty in Ht. Qed.

Lemma load_text {A} (dec : json → option A) none j v : json_clean j = true → dec j = Some v →
  load_pref dec none (json_text j) = v.
Proof.
  intros Hj Hd. unfold load_pref. destruct (String.eqb_spec (json_text j) ""); [by destruct (text_not_empty j Hj)|].
  rewrite (text_json_text j Hj). cbn. by rewrite Hd.
Qed.

Lemma ref_unmarshal r : unmarshal (ref_json r) = Some r.
Proof. by destruct r. Qed.

Lemma refs_clean l : Forall ref_valid l → json_clean (JArr (ref_json <$> l)) = true.
Proof.
  cbn. induction 1 as [|r l [Hn Hb] _ IH]; [done|]. cbn. rewrite Hn, Hb. cbn.
  change (valid_utf8 "network") with true. change (valid_utf8 "buffer") with true. done.
Qed.

Lemma refs_unmarshal l : unmarshal_list (JArr (ref_json <$> l)) = Some l.
Proof. cbn. induction l as [|r l IH]; [done|]. cbn [fmap list_fmap mapM]. rewrite ref_unmarshal. cbn. by rewrite IH. Qed.

Lemma load_muted l : Forall ref_valid l → loadMuted (json_text (JArr (ref_json <$> l))) = l.
Proof. intros Hl. apply load_text; [by apply refs_clean|apply refs_unmarshal]. Qed.

Lemma set_muted_valid refs n b on : Forall ref_valid refs → ref_valid (MkMuteRef n b) → Forall ref_valid (setMuted refs n b on).
Proof.
  intros Hr Hn. unfold setMuted. assert (Hf : Forall ref_valid (filter (λ r, same_buffer n b (mr_network r) (mr_buffer r) = false) refs)).
  { rewrite Forall_forall in Hr |- *. intros r [_ Hin]%list_elem_of_filter. by apply Hr. }
  destruct on; [|done]. apply Forall_app. split; [done|]. by apply Forall_singleton.
Qed.
End text.

(** ** Muted *)

Section mute.
Context `{UnicodeTables, TimeParse, Regexp, SqlHost, StoreJson, Bcrypt, J : JsonText, !JsonLaws J} (O : web_options).

(** Fan-out leaves everything but the queues alone. *)
Lemma fan_rest f l : ∀ w, let w' := foldl (λ w c, send_to c f w) w l in
  wb_prefs w' = wb_prefs w ∧ wb_pushes w' = wb_pushes w ∧ wb_clients w' = wb_clients w.
Proof.
  induction l as [|c l IH]; intros w; [done|]. cbn. destruct (IH (send_to c f w)) as (-> & -> & ->). done.
Qed.

(** A muted buffer is quiet.  When a browser's request to mute or unmute a
    buffer is carried out and no other one changed the list in between, every
    browser of the account is told; from then on the buffer is muted as asked, in
    whatever case its name is written, and every other buffer is as it was; and
    an ordinary line in a muted buffer rings no phone. *)
Theorem mute_silences E E' w c x refs d m :
  wb_heap w !! c = Some x → cl_reader x = RMute refs d → refs = muted_of O E (cl_user x) w →
  wo_prefs O = true → we_pref_ok E = true → we_read_ok E' = true → Forall ref_valid refs →
  ref_valid (MkMuteRef (mu_network d) (mu_buffer d)) → cl_user x ∈ wc_users (wo_config O) →
  let w' := web_step O E (XResume c) w in
  (∀ e y, e ∈ clients_of (cl_user x) w → e ≠ c → wb_heap w !! e = Some y → wb_heap w' !! e = Some (trySend (Frame "mute" (PMute d)) y)) ∧
  (∀ n b, isMuted (muted_of O E' (cl_user x) w') n b =
     if same_buffer (mu_network d) (mu_buffer d) n b then mu_muted d else isMuted (muted_of O E (cl_user x) w) n b) ∧
  (mu_muted d = true → same_buffer (mu_network d) (mu_buffer d) (msg_network m) (msg_buffer m) = true →
   msg_highlight m = false → wb_pushes (web_step O E' (XSink (cl_user x) (SPrint m)) w') = wb_pushes w').
Proof.
  intros Hx Hr Hrefs Hp Hok Hread Hval Hd Hu. cbv zeta. rewrite <- Hrefs.
  set (user := cl_user x) in *. set (w' := web_step O E (XResume c) w).
  set (v := json_text (JArr (ref_json <$> setMuted refs (mu_network d) (mu_buffer d) (mu_muted d)))).
  set (w1 := w <| wb_prefs ::= <[(user, prefMuted) := v]> |>).
  assert (Hw' : w' = set_reader c RReading (broadcast user "mute" (PMute d) w1)).
  { unfold w'. cbn [web_step]. rewrite Hx. unfold resume. rewrite Hr. unfold save_pref, SetPref. by rewrite Hp, Hok. }
  assert (Hprefs : wb_prefs w' = <[(user, prefMuted) := v]> (wb_prefs w)).
  { rewrite Hw'. cbn. unfold broadcast, routeToUser. by rewrite (proj1 (fan_rest _ _ w1)). }
  assert (Hmuted : ∀ z, wb_prefs z = wb_prefs w' →
    muted_of O E' user z = setMuted refs (mu_network d) (mu_buffer d) (mu_muted d)).
  { intros z Hz. unfold muted_of, get_pref. rewrite Hp, Hread, Hz, Hprefs, lookup_insert_eq. cbn.
    apply load_muted. by apply set_muted_valid. }
  split_and!.
  - intros e y He Hne Hy. rewrite Hw'. cbn. rewrite lookup_alter_ne by done. by apply broadcast_reaches.
  - intros n b. rewrite (Hmuted w') by done. apply set_muted_spec.
  - intros Hon Hsame Hlow. cbn [web_step sink].
    destruct (fan_rest (Frame "msg" (PMsg (toMessageDTO m))) (elements (clients_of user w')) w') as (Hf1 & Hf2 & _).
    unfold maybePush.
    assert (Hno : wants_push O E' user m (broadcast user "msg" (PMsg (toMessageDTO m)) w') = false); [|rewrite Hno; exact Hf2].
    unfold wants_push. rewrite Hlow, (bool_decide_eq_true_2 _ Hu), (Hmuted (broadcast user "msg" (PMsg (toMessageDTO m)) w') Hf1), set_muted_spec, Hsame, Hon. cbn.
    by rewrite !andb_false_r.
Qed.
End mute.
