(* ===== verification/WebGate.v ===== *)
(** * Every browser was let in

    Along every run of the server a session token stands for a password that was
    accepted before, and every connected browser came with such a token, and with
    one of the outer password when there is one ([sockets_authenticated]); no
    route behind the gate is reached without it ([gate_guards]). *)

From Stdlib Require Import ZArith Lia Ascii Bool.
From stdpp Require Import base tactics list gmap strings.
From S2P Require Import Prelude GoStrings GoNet CoreTypes CoreEvent CoreEngine CoreHistory CoreBouncer CoreCommand StoreDb StoreQuery PlugHost PlugRun WebProto WebAuth WebDto WebServer WebThms.

#[local] Open Scope Z_scope.

(** ** Token tables *)

(** A table that only lost tokens. *)
Definition shrinks (s s' : Sessions) : Prop := ss_ttl s' = ss_ttl s ∧ ss_toks s' ⊆ ss_toks s.

Definition auth_shrinks (a a' : auth_state) : Prop :=
  shrinks (au_magic a) (au_magic a') ∧ shrinks (au_sessions a) (au_sessions a').

Lemma shrinks_refl s : shrinks s s.
Proof. done. Qed.

Lemma auth_shrinks_refl a : auth_shrinks a a.
Proof. done. Qed.

Lemma auth_shrinks_trans a1 a2 a3 : auth_shrinks a1 a2 → auth_shrinks a2 a3 → auth_shrinks a1 a3.
Proof. intros [[? ?] [? ?]] [[? ?] [? ?]]. split; (split; [congruence|by etrans]). Qed.

Lemma lookup_shrinks now tok s : shrinks s (Lookup now tok s).1.
Proof.
  unfold Lookup. destruct (ss_toks s !! tok); [|done]. destruct (_ <? _); [|done]. split; [done|]. cbn. apply delete_subseteq.
Qed.

Lemma lookup_found now tok s u : (Lookup now tok s).2 = Some u →
  ∃ e, ss_toks s !! tok = Some e ∧ sn_user e = u ∧ now ≤ sn_expires e.
Proof.
  unfold Lookup. destruct (ss_toks s !! tok) as [e|]; [|done]. destruct (Z.ltb_spec (sn_expires e) now); [done|].
  intros [= <-]. by exists e.
Qed.

Section auth.
Context `{UnicodeTables, Bcrypt} (C : web_config).

Lemma granted_shrinks now r a : auth_shrinks a (magicGranted C now r a).1.
Proof.
  unfold magicGranted. destruct (String.eqb _ _); [done|]. destruct (rq_cookies r !! magicCookie) as [tok|]; [|done].
  pose proof (lookup_shrinks now tok (au_magic a)). by destruct (Lookup now tok (au_magic a)).
Qed.

Lemma gate_shrinks now r a : auth_shrinks a (magicGate C now r a).1.
Proof. unfold magicGate. destruct (_ || _); [done|]. apply granted_shrinks. Qed.

Lemma user_shrinks now r a : auth_shrinks a (userOf C now r a).1.
Proof.
  unfold userOf. destruct (negb (wc_auth C)); [done|]. destruct (rq_cookies r !! sessionCookie) as [tok|]; [|done].
  pose proof (lookup_shrinks now tok (au_sessions a)). by destruct (Lookup now tok (au_sessions a)).
Qed.

Lemma me_shrinks now r a : auth_shrinks a (handleMe C now r a).1.
Proof.
  unfold handleMe. pose proof (user_shrinks now r a). destruct (userOf C now r a) as [a1 u]. cbn [fst] in *.
  pose proof (granted_shrinks now r a1). destruct (magicGranted C now r a1). cbn in *. by eapply auth_shrinks_trans.
Qed.

Lemma login_begin_shrinks now r a : auth_shrinks a (login_begin C now r a).1.
Proof.
  unfold login_begin. destruct (negb _); [done|]. cbv zeta. by destruct (allow _ _ _) as [l []].
Qed.

Lemma word_begin_shrinks now r a : auth_shrinks a (word_begin C now r a).1.
Proof. unfold word_begin. destruct (String.eqb _ _); [done|apply login_begin_shrinks]. Qed.

Lemma delete_shrinks tok s : shrinks s (Delete tok s).
Proof. split; [done|]. cbn. apply delete_subseteq. Qed.

Lemma word_logout_shrinks r a : auth_shrinks a (handleMagicWordLogout C r a).1.
Proof.
  unfold handleMagicWordLogout. cbn. destruct (rq_cookies r !! magicCookie); [|done].
  destruct (String.eqb _ _); [done|]. split; [apply delete_shrinks|done].
Qed.

Lemma logout_shrinks r a : auth_shrinks a (handleLogout C r a).1.
Proof.
  unfold handleLogout. cbn. destruct (rq_cookies r !! sessionCookie); [|done].
  destruct (wc_auth C); [|done]. split; [done|apply delete_shrinks].
Qed.

(** The password of a login form is right: the user it is for. *)
Definition accepted (word : bool) (r : request) (u : string) : Prop :=
  if word then
    ∃ f, rq_body r ≫= @unmarshal _ word_form = Some f ∧ bcrypt_ok (wc_magic_hash C) (lf_word f) = true ∧ u = "magic"%string
  else
    ∃ f, rq_body r ≫= @unmarshal _ user_form = Some f ∧ Verify (wc_hashes C) (lf_username f) (lf_password f) = true ∧
      u = lf_username f.

(** The end of a login: nothing is granted, or a token for an accepted password. *)
Lemma finish_grants (word : bool) now tok ip r a :
  let a' := ((if word then word_finish else login_finish) C now tok ip r a).1 in
  auth_shrinks a a' ∨
  ∃ u, accepted word r u ∧
    if word then au_sessions a' = au_sessions a ∧ au_magic a' = Create now tok u (au_magic a)
    else au_magic a' = au_magic a ∧ au_sessions a' = Create now tok u (au_sessions a).
Proof.
  cbv zeta. destruct word; unfold word_finish, login_finish.
  - destruct (rq_body r ≫= @unmarshal _ word_form) as [f|] eqn:Hf; [|by left].
    destruct (honeypot f); [by left|]. destruct (bcrypt_ok _ _) eqn:Hb; [|by left].
    right. exists "magic"%string. split; [by exists f|done].
  - destruct (rq_body r ≫= @unmarshal _ user_form) as [f|] eqn:Hf; [|by left].
    destruct (honeypot f); [by left|]. cbn [orb]. destruct (wc_auth C); [|by left]. cbn [andb].
    destruct (Verify _ _ _) eqn:Hb; [|by left]. right. exists (lf_username f). split; [by exists f|done].
Qed.
End auth.

Section steps.
Context `{UnicodeTables, TimeParse, Regexp, SqlHost, StoreJson, Bcrypt, JsonText} (O : web_options) (E : wenv).
Notation C := (wo_config O).

Lemma connect_shrinks r acc w : auth_shrinks (wb_auth w) (wb_auth (ws_connect O E r acc w)).
Proof.
  unfold ws_connect. pose proof (user_shrinks C (we_now E) r (wb_auth w)) as Hs.
  destruct (userOf C (we_now E) r (wb_auth w)) as [a [u|]]; [|done].
  destruct (negb (bool_decide _)); [done|]. by destruct (negb acc).
Qed.

Lemma require_shrinks r fn w : (∀ u w, wb_auth (fn u w) = wb_auth w) →
  auth_shrinks (wb_auth w) (wb_auth (requireUser O E r fn w)).
Proof.
  intros Hf. unfold requireUser. pose proof (user_shrinks C (we_now E) r (wb_auth w)) as Hs.
  destruct (userOf C (we_now E) r (wb_auth w)) as [a [u|]]; [by rewrite Hf|done].
Qed.

Lemma subscribe_auth u r w : wb_auth (handleSubscribe E u r w) = wb_auth w.
Proof. unfold handleSubscribe. destruct (negb _); [done|]. destruct (_ ≫= _); [|done]. by destruct (validPushEndpoint _ _). Qed.

Lemma login_route_shrinks word r w : auth_shrinks (wb_auth w) (wb_auth (login_route O E word r w)).
Proof.
  unfold login_route. destruct word.
  - pose proof (word_begin_shrinks C (we_now E) r (wb_auth w)). by destruct (word_begin C _ _ _) as [a []].
  - pose proof (login_begin_shrinks C (we_now E) r (wb_auth w)). by destruct (login_begin C _ _ _) as [a []].
Qed.

Lemma mux_shrinks r acc w : auth_shrinks (wb_auth w) (wb_auth (mux O E r acc w)).
Proof.
  unfold mux. cbv zeta. destruct (String.eqb _ "/ws"); [apply connect_shrinks|].
  destruct (String.eqb _ "/healthz"); [done|]. destruct (String.eqb _ "/api/me").
  { pose proof (me_shrinks C (we_now E) r (wb_auth w)). by destruct (handleMe C _ _ _) as [a [[[auth user] req] granted]]. }
  destruct (String.eqb _ "/api/magicword"); [apply login_route_shrinks|].
  destruct (String.eqb _ "/api/login"); [apply login_route_shrinks|].
  destruct (String.eqb _ "/api/magicword/logout").
  { apply (word_logout_shrinks C r (wb_auth w)). }
  destruct (String.eqb _ "/api/logout").
  { apply (logout_shrinks C r (wb_auth w)). }
  destruct (wo_push O && _); [apply require_shrinks; intros; apply subscribe_auth|].
  destruct (existsb _ _); [by apply require_shrinks|done].
Qed.

Lemma serve_shrinks r acc w : auth_shrinks (wb_auth w) (wb_auth (serve O E r acc w)).
Proof.
  unfold serve. pose proof (gate_shrinks C (we_now E) r (wb_auth w)) as Hg.
  destruct (magicGate C (we_now E) r (wb_auth w)) as [a open]. cbn [fst] in Hg. eapply auth_shrinks_trans; [exact Hg|].
  destruct open; [apply mux_shrinks|done].
Qed.
(** The routes behind the gate: all but the files, the uploads that are linked
    to, the health check, the prompt itself and what tells that it is needed. *)
Definition guarded_routes : list string :=
  ["/ws"; "/api/login"; "/api/logout"; "/api/export"; "/api/import"; "/api/preview"; "/api/proxy"; "/api/upload";
   "/api/uploads"; "/api/push/vapid"; "/api/push/subscribe"]%string.

(** Without the token of the outer password none of them does anything. *)
Lemma gate_guards r acc w : wc_magic_hash C ≠ ""%string → rq_path r ∈ guarded_routes →
  (magicGranted C (we_now E) r (wb_auth w)).2 = false →
  ∃ a, auth_shrinks (wb_auth w) a ∧ serve O E r acc w = put_out (WAnswer (refuse 401 "unauthorized")) (w <| wb_auth := a |>).
Proof.
  intros Hm Hp Hg. exists (magicGate C (we_now E) r (wb_auth w)).1. split; [apply gate_shrinks|].
  assert (Hopen : magicWordOpen (path_clean (rq_path r)) = false).
  { revert Hp. generalize (rq_path r). apply Forall_forall. repeat constructor. }
  unfold serve, magicGate. destruct (String.eqb_spec (wc_magic_hash C) ""); [done|]. rewrite Hopen. cbn [orb].
  destruct (magicGranted C (we_now E) r (wb_auth w)) as [a open]. cbn [snd] in Hg. by subst open.
Qed.

(** A step that grants a token ends a login with an accepted password. *)
Definition grants (i : web_input) (w : web) (a' : auth_state) : Prop :=
  ∃ k tok t u, i = XVerified k tok ∧ wb_attempts w !! k = Some t ∧ accepted C (at_word t) (at_request t) u ∧
    if at_word t then au_sessions a' = au_sessions (wb_auth w) ∧ au_magic a' = Create (we_now E) tok u (au_magic (wb_auth w))
    else au_magic a' = au_magic (wb_auth w) ∧ au_sessions a' = Create (we_now E) tok u (au_sessions (wb_auth w)).

Lemma changes_auth u w w' : changes u w w' → auth_shrinks (wb_auth w) (wb_auth w').
Proof. intros Hc. by rewrite (proj1 (ch_rest _ _ _ Hc)). Qed.

Lemma auth_step i w : server_ok w →
  auth_shrinks (wb_auth w) (wb_auth (web_step O E i w)) ∨ grants i w (wb_auth (web_step O E i w)).
Proof.
  intros Hok. destruct (acting i w) as [c|] eqn:Ha; [left|].
  { destruct (wb_heap w !! c) as [x|] eqn:Hx.
    - eapply changes_auth, acting_changes; [exact Hok|exact Ha|exact Hx].
    - destruct i; cbn in Ha; try done; cbn [web_step]; simplify_eq; rewrite ?Hx; [done..|].
      unfold run_handler. destruct (wb_async w !! i) as [[d env]|]; [|done]. cbn in Ha. simplify_eq. cbv zeta.
      change (wb_heap (w <| wb_async ::= delete i |>)) with (wb_heap w). by rewrite Hx. }
  destruct i; cbn in Ha; try done; cbn [web_step].
  - left. apply serve_shrinks.
  - unfold finish_attempt. destruct (wb_attempts w !! i) as [t|] eqn:Ht; [|by left].
    destruct (finish_grants C (at_word t) (we_now E) tok (at_ip t) (at_request t) (wb_auth w)) as [Hs|(u & Hu & Hc)];
      destruct ((if at_word t then _ else _) _ _ _ _ _ _) as [a' resp]; [by left|right]. exists i, tok, t, u. done.
  - left. destruct (wb_heap w !! c) as [x|]; [|done]. by destruct (cl_reader x).
  - left. unfold run_handler. by destruct (wb_async w !! i).
  - by left.
  - by left.
  - left. destruct e; cbn [sink]; try (eapply changes_auth, changes_broadcast, Hok); try done.
    pose proof (changes_auth user _ _ (changes_broadcast user "msg" (PMsg (toMessageDTO m)) w (proj1 Hok))) as Hs.
    unfold maybePush. by destruct (wants_push _ _ _ _ _).
  - left. destruct (wb_pushes w !! i) as [[user p]|]; [|done].
    destruct (notify_same user status (w <| wb_pushes ::= delete i |>)) as (_ & _ & _ & -> & _). done.
Qed.
End steps.

(** ** Runs *)

Section runs.
Context `{UnicodeTables, TimeParse, Regexp, SqlHost, StoreJson, Bcrypt, JsonText} (O : web_options).
Context (prefs : gmap (string * string) string) (subs : gmap string (gmap string subscription)).
Notation C := (wo_config O).
Notation reached l := (web_run O l (new_web O prefs subs)).

(** How long a token lasts, of the outer password or of a user. *)
Definition token_ttl (word : bool) : Z :=
  ss_ttl (if word then au_magic (new_auth C) else au_sessions (new_auth C)).

(** In the run [l] the token was handed out for an accepted password. *)
Definition granted (l : list (wenv * web_input)) (word : bool) (tok u : string) (expires : time) : Prop :=
  ∃ l1 E k t l2, l = l1 ++ (E, XVerified k tok) :: l2 ∧ wb_attempts (reached l1) !! k = Some t ∧ at_word t = word ∧
    accepted C word (at_request t) u ∧ expires = we_now E + token_ttl word.

Lemma granted_app l l' word tok u e : granted l word tok u e → granted (l ++ l') word tok u e.
Proof.
  intros (l1 & E & k & t & l2 & -> & ?). exists l1, E, k, t, (l2 ++ l'). split; [|done]. by rewrite <- app_assoc.
Qed.

Definition table (word : bool) (a : auth_state) : Sessions := if word then au_magic a else au_sessions a.

Definition tokens_ok (l : list (wenv * web_input)) (a : auth_state) : Prop :=
  ∀ word, ss_ttl (table word a) = token_ttl word ∧
    ∀ tok s, ss_toks (table word a) !! tok = Some s → granted l word tok (sn_user s) (sn_expires s).

Lemma tokens_shrink l a a' : auth_shrinks a a' → tokens_ok l a → tokens_ok l a'.
Proof.
  intros [[T1 S1] [T2 S2]] Hok word. destruct (Hok word) as [Ht Hg]. destruct word; cbn in *.
  - split; [by rewrite T1|]. intros tok s Hs. apply Hg. by eapply lookup_weaken.
  - split; [by rewrite T2|]. intros tok s Hs. apply Hg. by eapply lookup_weaken.
Qed.

Lemma tokens_more l l' a : tokens_ok l a → tokens_ok (l ++ l') a.
Proof. intros Hok word. destruct (Hok word) as [Ht Hg]. split; [done|]. intros tok s Hs. by apply granted_app, Hg. Qed.

Lemma web_run_snoc l E i w : web_run O (l ++ [(E, i)]) w = web_step O E i (web_run O l w).
Proof. unfold web_run. by rewrite foldl_snoc. Qed.

Lemma run_tokens l : tokens_ok l (wb_auth (reached l)).
Proof.
  induction l as [|[E i] l IH] using rev_ind; [by intros []|]. rewrite web_run_snoc.
  destruct (auth_step O E i (reached l) (run_ok_from O prefs subs l)) as [Hs|(k & tok & t & u & -> & Ht & Hu & Hc)].
  - by eapply tokens_shrink, tokens_more.
  - assert (Hnew : granted (l ++ [(E, XVerified k tok)]) (at_word t) tok u (we_now E + token_ttl (at_word t))).
    { by exists l, E, k, t, []. }
    assert (Hc' : table (negb (at_word t)) (wb_auth (web_step O E (XVerified k tok) (reached l))) =
                  table (negb (at_word t)) (wb_auth (reached l)) ∧
                  table (at_word t) (wb_auth (web_step O E (XVerified k tok) (reached l))) =
                  Create (we_now E) tok u (table (at_word t) (wb_auth (reached l)))) by (by destruct (at_word t)).
    clear Hc. destruct Hc' as [Hold Hcreate]. intros word. destruct (tokens_more l [(E, XVerified k tok)] _ IH word) as [Httl Hg].
    destruct (decide (word = at_word t)) as [->|Hw].
    + rewrite Hcreate. split; [exact Httl|]. intros tok' s Hs. cbn in Hs.
      destruct (decide (tok' = tok)) as [->|Hne]; [|rewrite lookup_insert_ne in Hs by done; by apply Hg].
      rewrite lookup_insert_eq in Hs. simplify_eq. cbn. rewrite Httl. exact Hnew.
    + assert (word = negb (at_word t)) as -> by (by destruct word, (at_word t)). by rewrite Hold.
Qed.

(** ** Browsers *)

(** The run [l] has let the user in: a request for a socket that came with the
    token of an accepted password, not yet expired, and where there is an outer
    password with a token of that. *)
Definition let_in (l : list (wenv * web_input)) (u : string) : Prop :=
  ∃ l1 E r l2 tok e, l = l1 ++ (E, XRequest r true) :: l2 ∧ rq_cookies r !! sessionCookie = Some tok ∧
    granted l1 false tok u e ∧ we_now E ≤ e ∧
    (wc_magic_hash C ≠ ""%string → ∃ tok' u' e', rq_cookies r !! magicCookie = Some tok' ∧ granted l1 true tok' u' e' ∧ we_now E ≤ e').

Lemma user_granted l E r a u : wc_auth C = true → tokens_ok l a → (userOf C (we_now E) r a).2 = Some u →
  ∃ tok e, rq_cookies r !! sessionCookie = Some tok ∧ granted l false tok u e ∧ we_now E ≤ e.
Proof.
  intros Hauth Hok Hu. unfold userOf in Hu. rewrite Hauth in Hu. cbn in Hu.
  destruct (rq_cookies r !! sessionCookie) as [tok|]; [|done].
  destruct (Lookup (we_now E) tok (au_sessions a)) as [s o] eqn:Hl. cbn in Hu. subst o.
  destruct (lookup_found (we_now E) tok (au_sessions a) u) as (e & He & Hue & Hle); [by rewrite Hl|].
  exists tok, (sn_expires e). split; [done|]. split; [|done]. rewrite <- Hue. by apply (proj2 (Hok false)).
Qed.

Lemma magic_granted l E r a : wc_magic_hash C ≠ ""%string → tokens_ok l a → (magicGranted C (we_now E) r a).2 = true →
  ∃ tok u e, rq_cookies r !! magicCookie = Some tok ∧ granted l true tok u e ∧ we_now E ≤ e.
Proof.
  intros Hm Hok Hg. unfold magicGranted in Hg. destruct (String.eqb_spec (wc_magic_hash C) ""); [done|].
  destruct (rq_cookies r !! magicCookie) as [tok|]; [|done].
  destruct (Lookup (we_now E) tok (au_magic a)) as [s o] eqn:Hl. cbn in Hg. destruct o as [u|]; [|done].
  destruct (lookup_found (we_now E) tok (au_magic a) u) as (e & He & Hue & Hle); [by rewrite Hl|].
  exists tok, u, (sn_expires e). split; [done|]. split; [|done]. rewrite <- Hue. by apply (proj2 (Hok true)).
Qed.

Lemma connects_let_in l E r u : wc_auth C = true → connects O E r (reached l) u → let_in (l ++ [(E, XRequest r true)]) u.
Proof.
  intros Hauth [Hp Hc]. pose proof (run_tokens l) as Hok.
  pose proof (gate_shrinks C (we_now E) r (wb_auth (reached l))) as Hs.
  destruct (magicGate C (we_now E) r (wb_auth (reached l))) as [a open] eqn:Hgate. destruct Hc as [-> Hu]. cbn [fst] in Hs.
  destruct (user_granted l E r a u Hauth (tokens_shrink _ _ _ Hs Hok) Hu) as (tok & e & Hck & Hgr & Hle).
  exists l, E, r, [], tok, e. split_and!; [done..|]. intros Hm.
  apply (magic_granted l E r (wb_auth (reached l)) Hm Hok).
  unfold magicGate in Hgate. rewrite Hp in Hgate. destruct (String.eqb_spec (wc_magic_hash C) ""); [done|].
  cbn [orb] in Hgate. change (magicWordOpen (path_clean "/ws")) with false in Hgate. cbn iota in Hgate. by rewrite Hgate.
Qed.

(** C25: nobody is connected who did not log in.  With accounts enabled, every
    browser the server ever held a socket for came with a session token that a
    login of its user got for the right password and that had not expired; and
    where the site has an outer password, with the token of that, got and kept in
    the same way. *)
Theorem sockets_authenticated l c x : wc_auth C = true →
  wb_heap (reached l) !! c = Some x → let_in l (cl_user x).
Proof.
  intros Hauth. revert c x. induction l as [|[E i] l IH] using rev_ind; intros c x; [done|].
  rewrite web_run_snoc. intros Hx. pose proof (run_ok_from O prefs subs l) as Hok.
  assert (Hmore : ∀ u, let_in l u → let_in (l ++ [(E, i)]) u).
  { intros u (l1 & E1 & r & l2 & tok & e & -> & Hl). exists l1, E1, r, (l2 ++ [(E, i)]), tok, e.
    split; [by rewrite <- app_assoc|done]. }
  destruct (fine_web_step O E (let_in (l ++ [(E, i)])) i (reached l)) as (Hon & _ & Hnew); [|done|].
  { intros r u -> Hc. by apply connects_let_in. }
  destruct (Hnew c x Hx) as [[y Hy]|Hin]; [|done].
  destruct (Hon c y Hy) as (x' & Hx' & Hg). simplify_eq. rewrite (gr_user _ _ Hg). by apply Hmore, IH with c.
Qed.
End runs.
