(* ===== verification/WebLimit.v ===== *)
(** * The login limiter

    The limiter of [WebAuth] against the log of all failed attempts: as long as
    no more addresses fail than it has room for, an address is let in exactly if
    it failed fewer than [max] times within the window; and it never remembers
    more addresses than it has room for, however many fail. *)

From Stdlib Require Import ZArith Lia Ascii Bool Sorted.
From stdpp Require Import base tactics list gmap strings sorting.
From S2P Require Import Prelude GoStrings GoNet WebProto WebAuth.

#[local] Open Scope Z_scope.

(** ** Runs *)

Inductive limit_op := OpAllow (ip : string) | OpFail (ip : string).

Definition limit_step (r : authRateLimit) (o : time * limit_op) : authRateLimit :=
  match o.2 with OpAllow ip => (allow o.1 ip r).1 | OpFail ip => rate_fail o.1 ip r end.

(** The failures of an address, and every address that failed. *)
Definition fails (ip : string) (ops : list (time * limit_op)) : list time :=
  omap (λ '(t, o), match o with OpFail ip' => if String.eqb ip' ip then Some t else None | OpAllow _ => None end) ops.

Definition failed (ops : list (time * limit_op)) : gset string :=
  list_to_set (omap (λ '(_, o), match o with OpFail ip => Some ip | OpAllow _ => None end) ops).

(** ** One address *)

Definition from (k : Z) (l : list time) : list time := filter (λ t, k ≤ t) l.

Lemma drop_before_from k l : StronglySorted Z.le l → drop_before k l = from k l.
Proof.
  unfold from. induction 1 as [|t l Hs IH Hl]; [done|]. cbn [drop_before]. destruct (Z.ltb_spec t k).
  - by rewrite filter_cons_False by lia.
  - rewrite filter_cons_True by done. f_equal. symmetry. apply filter_all.
    rewrite Forall_forall in Hl |- *. intros x Hx. specialize (Hl x Hx). lia.
Qed.

Lemma from_sorted k l : StronglySorted Z.le l → StronglySorted Z.le (from k l).
Proof.
  unfold from. induction 1 as [|t l Hs IH Hl]; [constructor|]. rewrite filter_cons.
  destruct (decide _); [|done]. constructor; [done|]. rewrite Forall_forall in Hl |- *.
  intros x [_ Hx]%list_elem_of_filter. by apply Hl.
Qed.

Lemma from_from j k l : from j (from k l) = from (Z.max j k) l.
Proof. unfold from. rewrite list_filter_filter. apply list_filter_iff. intros t. lia. Qed.

(** What the limiter remembers of an address. *)
Definition view (r : authRateLimit) (ip : string) : list time := default [] (rl_hits r !! ip).

Lemma prune_lookup ip cutoff m j :
  prune_hits ip cutoff m !! j =
  if decide (j = ip) then match drop_before cutoff (default [] (m !! ip)) with [] => None | l => Some l end else m !! j.
Proof.
  unfold prune_hits. destruct (drop_before _ _) as [|t l]; destruct (decide (j = ip)) as [->|Hj];
    rewrite ?lookup_delete_eq, ?lookup_insert_eq; try done; by rewrite ?lookup_delete_ne, ?lookup_insert_ne by done.
Qed.

Lemma prune_view ip cutoff r j :
  view (pruneLocked ip cutoff r) j = if decide (j = ip) then drop_before cutoff (view r ip) else view r j.
Proof.
  unfold view, pruneLocked. cbn. rewrite prune_lookup. destruct (decide (j = ip)); [|done]. by destruct (drop_before _ _).
Qed.

(** No address is kept with nothing to remember. *)
Definition hits_ok (m : gmap string (list time)) : Prop := ∀ ip, m !! ip ≠ Some [].

Lemma prune_hits_ok ip cutoff m : hits_ok m → hits_ok (prune_hits ip cutoff m).
Proof. intros Hm j. rewrite prune_lookup. destruct (decide _); [|apply Hm]. by destruct (drop_before _ _). Qed.

Lemma prune_dom ip cutoff m : dom (prune_hits ip cutoff m) ⊆ dom m.
Proof.
  intros j. rewrite !elem_of_dom, prune_lookup. destruct (decide (j = ip)) as [->|Hj]; [|done].
  destruct (m !! ip); [by eexists|]. cbn. by intros [? [=]].
Qed.

Lemma prune_all_spec cutoff r : hits_ok (rl_hits r) →
  hits_ok (rl_hits (pruneAllLocked cutoff r)) ∧ dom (rl_hits (pruneAllLocked cutoff r)) ⊆ dom (rl_hits r).
Proof.
  intros Hr. unfold pruneAllLocked. cbn.
  apply (map_fold_weak_ind (λ m' _, hits_ok m' ∧ dom m' ⊆ dom (rl_hits r)) (λ ip _ m', prune_hits ip cutoff m')); [done|].
  intros ip l _ m _ [Hok Hd]. split; [by apply prune_hits_ok|]. etrans; [apply prune_dom|done].
Qed.

Lemma dom_size (m m' : gmap string (list time)) : dom m' ⊆ dom m → (size m' ≤ size m)%nat.
Proof. intros Hd. rewrite <- !size_dom. by apply subseteq_size. Qed.

(** Evicting makes room. *)
Lemma evict_spec r : hits_ok (rl_hits r) → rl_hits r !! ""%string = None → rl_hits r ≠ ∅ →
  ∃ ip, ip ∈ dom (rl_hits r) ∧ rl_hits (evictOldestLocked r) = delete ip (rl_hits r).
Proof.
  intros Hok He Hne. unfold evictOldestLocked. cbn.
  assert (Hf : ∀ m0, let st := map_fold evict_round (m0, (""%string, zero_time)) (rl_hits r) in
    st.1 = m0 ∧ ((rl_hits r = ∅ ∧ st.2.1 = ""%string) ∨ st.2.1 ∈ dom (rl_hits r))).
  { intros m0. cbv zeta.
    assert (Hall : ∀ ip l, rl_hits r !! ip = Some l → ip ≠ ""%string ∧ l ≠ []).
    { intros ip l Hl. split; [intros ->; congruence|intros ->; by apply (Hok ip)]. }
    revert Hall. apply (map_fold_weak_ind (λ st m, (∀ ip l, m !! ip = Some l → ip ≠ ""%string ∧ l ≠ []) →
      st.1 = m0 ∧ ((m = ∅ ∧ st.2.1 = ""%string) ∨ st.2.1 ∈ dom m)) evict_round); [by intros _; split; [|left]|].
    intros ip l m [m1 [o ot]] Hm IH Hall. cbn in IH.
    destruct IH as [-> Ho].
    { intros j k Hj. apply (Hall j k). rewrite lookup_insert_ne; [done|]. intros ->. congruence. }
    destruct (Hall ip l) as [Hip Hl]; [by rewrite lookup_insert_eq|]. unfold evict_round.
    destruct (last l) as [t|] eqn:Ht; [|by apply last_None in Ht]. cbn. split; [done|]. right. rewrite dom_insert.
    destruct (String.eqb_spec o ""); cbn; [set_solver|]. destruct (t <? ot); cbn; [set_solver|].
    destruct Ho as [[_ ->]|Ho]; [done|set_solver]. }
  specialize (Hf (rl_hits r)). cbv zeta in Hf. destruct (map_fold _ _ _) as [m' [o ot]]. cbn in Hf.
  destruct Hf as [-> [[Hr _]|Ho]]; [done|]. exists o. split; [done|].
  destruct (String.eqb_spec o "") as [->|]; [|done]. apply elem_of_dom in Ho as [? Ho]. congruence.
Qed.

(** ** Never too many addresses *)

Record bounded (cap : Z) (r : authRateLimit) : Prop := {
  bd_ok : hits_ok (rl_hits r);
  bd_name : rl_hits r !! ""%string = None;
  bd_cap : rl_maxIPs r = cap;
  bd_size : Z.of_nat (size (rl_hits r)) ≤ cap;
}.

Definition op_ip (o : limit_op) : string := match o with OpAllow ip | OpFail ip => ip end.

Lemma bounded_shrink cap r m : bounded cap r → hits_ok m → dom m ⊆ dom (rl_hits r) → bounded cap (r <| rl_hits := m |>).
Proof.
  intros [H1 H2 H3 H4] Hm Hd. split; cbn; [done| |done|].
  - apply not_elem_of_dom. apply not_elem_of_dom in H2. set_solver.
  - pose proof (dom_size _ _ Hd). lia.
Qed.

Lemma bounded_prune cap ip cutoff r : bounded cap r → bounded cap (pruneLocked ip cutoff r).
Proof.
  intros Hr. apply (bounded_shrink cap r (prune_hits ip cutoff (rl_hits r))); [done|apply prune_hits_ok, Hr|apply prune_dom].
Qed.

Lemma bounded_step cap r o : 1 ≤ cap → op_ip o.2 ≠ ""%string → bounded cap r → bounded cap (limit_step r o).
Proof.
  intros Hcap Hip Hr. destruct o as [now [ip|ip]]; cbn in Hip; unfold limit_step; cbn [fst snd].
  - unfold allow. by apply bounded_prune.
  - unfold rate_fail. cbv zeta. set (r1 := pruneLocked ip (now - rl_window r) r).
    assert (H1 : bounded cap r1) by (by apply bounded_prune).
    assert (Hadd : ∀ r2, bounded cap r2 → (is_Some (rl_hits r2 !! ip) ∨ Z.of_nat (size (rl_hits r2)) < cap) →
      bounded cap (r2 <| rl_hits ::= λ m, <[ip := default [] (m !! ip) ++ [now]]> m |>)).
    { intros r2 [A B D F] Hroom. split; cbn; [|by rewrite lookup_insert_ne|done|].
      - intros j. destruct (decide (j = ip)) as [->|Hj]; [|by rewrite lookup_insert_ne].
        rewrite lookup_insert_eq. intros [=Hx]. by destruct (default [] (rl_hits r2 !! ip)).
      - destruct Hroom as [[l Hl]|Hroom]; [by rewrite map_size_insert_Some by (by eexists)|].
        rewrite map_size_insert. set (n := size (rl_hits r2)) in *. destruct (rl_hits r2 !! ip) as [v|]; cbn; lia. }
    destruct (bool_decide_reflect (rl_hits r1 !! ip = None)) as [Hn|Hn]; cbn [andb];
      [|apply Hadd; [done|left; by destruct (rl_hits r1 !! ip)]].
    rewrite (bd_cap _ _ H1). destruct (Z.leb_spec cap (Z.of_nat (size (rl_hits r1)))); [|by apply Hadd; [done|right; lia]].
    set (r2 := pruneAllLocked (now - rl_window r1) r1).
    destruct (prune_all_spec (now - rl_window r1) r1 (bd_ok _ _ H1)) as [Hok2 Hd2].
    assert (H2 : bounded cap r2) by (by apply (bounded_shrink cap r1 (rl_hits r2))).
    rewrite (bd_cap _ _ H2). destruct (Z.leb_spec cap (Z.of_nat (size (rl_hits r2)))); [|by apply Hadd; [done|right; lia]].
    destruct (evict_spec r2 Hok2 (bd_name _ _ H2)) as (ip' & Hin & Hdel).
    { intros He. rewrite He, map_size_empty in *. lia. }
    assert (H3 : bounded cap (evictOldestLocked r2)).
    { apply (bounded_shrink cap r2 (rl_hits (evictOldestLocked r2))); [done| |]; rewrite Hdel.
      - intros j. rewrite lookup_delete. destruct (decide _); [done|apply Hok2].
      - rewrite dom_delete_L. set_solver. }
    apply Hadd; [done|right]. rewrite Hdel. pose proof (bd_size _ _ H2). apply elem_of_dom in Hin as [l Hl].
    rewrite map_size_delete_Some by (by eexists).
    assert (size (rl_hits r2) ≠ 0%nat) by (apply map_size_non_empty_iff; intros He; by rewrite He in Hl). lia.
Qed.

Lemma bounded_run cap ops : ∀ r, 1 ≤ cap → Forall (λ o, op_ip o.2 ≠ ""%string) ops → bounded cap r →
  bounded cap (foldl limit_step r ops).
Proof.
  induction ops as [|o ops IH]; intros r Hcap Hops Hr; [done|]. inversion Hops; subst. cbn. apply IH; [done..|].
  by apply bounded_step.
Qed.

(** ** Exactly the failures of the window *)

(** The limiter after [ops], the last of them at [T]: of every address it has
    what it failed since some time before the window, and addresses it has
    nothing of are not kept. *)
Record exact (window : Z) (ops : list (time * limit_op)) (T : time) (r : authRateLimit) : Prop := {
  ex_view : ∀ ip, ∃ k, k ≤ T - window ∧ view r ip = from k (fails ip ops);
  ex_ok : hits_ok (rl_hits r);
  ex_window : rl_window r = window;
}.

Lemma fails_app ip ops ops' : fails ip (ops ++ ops') = fails ip ops ++ fails ip ops'.
Proof. apply omap_app. Qed.

Lemma fails_in ip ops t : t ∈ fails ip ops → t ∈ ops.*1.
Proof.
  unfold fails. intros ([t' o] & Hin & Ho)%list_elem_of_omap. apply list_elem_of_fmap. exists (t', o). split; [|done].
  destruct o as [|ip']; [done|]. cbn in Ho. destruct (String.eqb ip' ip); by simplify_eq.
Qed.

Lemma fails_failed ip ops : fails ip ops ≠ [] → ip ∈ failed ops.
Proof.
  unfold failed. rewrite elem_of_list_to_set, list_elem_of_omap.
  destruct (fails ip ops) as [|t l] eqn:Hf; [done|]. intros _.
  assert (Ht : t ∈ fails ip ops) by (rewrite Hf; by left). unfold fails in Ht.
  apply list_elem_of_omap in Ht as ([t' o] & Hin & Ho). exists (t', o). split; [done|].
  destruct o as [|ip']; [done|]. cbn in Ho. by destruct (String.eqb_spec ip' ip) as [->|].
Qed.

Lemma fails_sorted ip ops : StronglySorted Z.le ops.*1 → StronglySorted Z.le (fails ip ops).
Proof.
  induction ops as [|[t o] ops IH]; cbn; [constructor|]. intros Hs. inversion Hs as [|? ? Hs' Hl]; subst.
  specialize (IH Hs'). destruct o as [ip'|ip']; [done|]. destruct (String.eqb ip' ip); [|done]. constructor; [done|].
  rewrite Forall_forall in Hl |- *. intros x Hx. by apply Hl, fails_in with ip.
Qed.

Lemma view_empty r ip : hits_ok (rl_hits r) → view r ip = [] → rl_hits r !! ip = None.
Proof. unfold view. intros Hok. destruct (rl_hits r !! ip) as [[|t l]|] eqn:Hl; [by destruct (Hok ip)|done|done]. Qed.

Lemma exact_later window ops T T' r : exact window ops T r → T ≤ T' → exact window ops T' r.
Proof. intros [Hv Hok Hw] HT. split; [|done|done]. intros ip. destruct (Hv ip) as (k & Hk & He). exists k. split; [lia|done]. Qed.

Lemma exact_prune window ops T r ip now : StronglySorted Z.le ops.*1 → exact window ops T r → T ≤ now →
  exact window ops now (pruneLocked ip (now - window) r) ∧
  view (pruneLocked ip (now - window) r) ip = from (now - window) (fails ip ops).
Proof.
  intros Hs [Hv Hok Hw] HT.
  assert (Hip : view (pruneLocked ip (now - window) r) ip = from (now - window) (fails ip ops)).
  { rewrite prune_view, decide_True by done. destruct (Hv ip) as (k & Hk & ->).
    rewrite drop_before_from, from_from by (by apply from_sorted, fails_sorted). f_equal. lia. }
  split; [|done]. split; [|by apply prune_hits_ok|done].
  intros j. destruct (decide (j = ip)) as [->|Hj]; [exists (now - window); split; [lia|done]|].
  rewrite prune_view, decide_False by done. destruct (Hv j) as (k & Hk & He). exists k. split; [lia|done].
Qed.

Lemma exact_snoc window ops T r t o : (∀ ip, fails ip [(t, o)] = []) → exact window ops T r → exact window (ops ++ [(t, o)]) T r.
Proof.
  intros Ho [Hv Hok Hw]. split; [|done|done]. intros ip. destruct (Hv ip) as (k & Hk & He). exists k. split; [done|].
  by rewrite fails_app, Ho, app_nil_r.
Qed.

Lemma exact_step window cap ops T r now o : 0 ≤ window → StronglySorted Z.le ops.*1 → T ≤ now → rl_maxIPs r = cap →
  Z.of_nat (size (failed (ops ++ [(now, o)]))) ≤ cap →
  exact window ops T r → exact window (ops ++ [(now, o)]) now (limit_step r (now, o)).
Proof.
  intros Hwin Hs HT Hcap Hroom He. pose proof (ex_window _ _ _ _ He) as Hw. destruct o as [ip|ip]; unfold limit_step; cbn [fst snd].
  - unfold allow. rewrite Hw. apply exact_snoc; [done|]. by apply exact_prune with T.
  - unfold rate_fail. cbv zeta. rewrite Hw. set (r1 := pruneLocked ip (now - window) r).
    destruct (exact_prune window ops T r ip now Hs He HT) as [[Hv1 Hok1 Hw1] Hip]. fold r1 in Hv1, Hok1, Hw1, Hip.
    assert (Hfull : bool_decide (rl_hits r1 !! ip = None) && (rl_maxIPs r1 <=? Z.of_nat (size (rl_hits r1))) = false).
    { destruct (bool_decide_reflect (rl_hits r1 !! ip = None)) as [Hn|]; [|done]. cbn. apply Z.leb_gt.
      change (rl_maxIPs r1) with (rl_maxIPs r). rewrite Hcap. eapply Z.lt_le_trans; [|exact Hroom].
      assert (Hd : dom (rl_hits r1) ⊂ failed (ops ++ [(now, OpFail ip)])).
      { assert (Hin : ip ∈ failed (ops ++ [(now, OpFail ip)])).
        { apply fails_failed. rewrite fails_app. cbn. rewrite String.eqb_refl. by destruct (fails ip ops). }
        split; [|intros Hsub; apply Hsub, elem_of_dom in Hin as [? Hx]; congruence].
        intros j Hj. apply fails_failed. rewrite fails_app. apply elem_of_dom in Hj as [l Hl].
        destruct (Hv1 j) as (k & _ & Hj). unfold view in Hj. rewrite Hl in Hj. cbn in Hj.
        destruct (fails j ops); [|done]. cbn in Hj. subst l. by destruct (Hok1 j). }
      apply subset_size in Hd. rewrite size_dom in Hd.
      change (prune_hits ip (now - window) (rl_hits r)) with (rl_hits r1). lia. }
    rewrite Hfull. clearbody r1. split; cbn; [| |done].
    + intros j. unfold view. cbn. rewrite fails_app. destruct (decide (j = ip)) as [->|Hj].
      * exists (now - window). split; [lia|]. rewrite lookup_insert_eq. cbn. rewrite String.eqb_refl.
        unfold view in Hip. rewrite Hip. unfold from. rewrite filter_app. f_equal.
        by rewrite filter_cons_True by lia.
      * rewrite lookup_insert_ne by done. destruct (Hv1 j) as (k & Hk & Hj'). exists k. split; [lia|].
        cbn. rewrite (proj2 (String.eqb_neq ip j)) by done. by rewrite app_nil_r.
    + intros j. destruct (decide (j = ip)) as [->|Hj]; [|rewrite lookup_insert_ne by done; apply Hok1].
      rewrite lookup_insert_eq. intros [=Hx]. by destruct (default [] (rl_hits r1 !! ip)).
Qed.

Lemma limit_caps ops : ∀ r, rl_maxIPs (foldl limit_step r ops) = rl_maxIPs r ∧ rl_max (foldl limit_step r ops) = rl_max r.
Proof.
  induction ops as [|[now [ip|ip]] ops IH]; intros r; [done|cbn [foldl]; by rewrite (proj1 (IH _)), (proj2 (IH _))|]. cbn [foldl].
  destruct (IH (limit_step r (now, OpFail ip))) as [-> ->]. unfold limit_step, rate_fail. cbn [fst snd]. cbv zeta.
  destruct (_ && _); [|done]. by destruct (_ <=? _).
Qed.

Lemma exact_run window max cap ops T : 0 ≤ window → StronglySorted Z.le (ops.*1 ++ [T]) →
  Z.of_nat (size (failed ops)) ≤ cap → exact window ops T (foldl limit_step (RateLimit ∅ window max cap) ops).
Proof.
  intros Hwin. revert T. induction ops as [|[now o] ops IH] using rev_ind; intros T Hs Hroom.
  - split; [|by intros ip|done]. intros ip. by exists (T - window).
  - rewrite fmap_app in Hs. cbn in Hs. rewrite <- app_assoc in Hs.
    assert (Hs' : StronglySorted Z.le (ops.*1 ++ [now])).
    { apply StronglySorted_app_1_l with [T]. by rewrite <- app_assoc. }
    assert (HnT : now ≤ T).
    { apply StronglySorted_app_1_r in Hs. inversion Hs as [|? ? _ Hl]; subst. by inversion Hl. }
    rewrite foldl_snoc. apply exact_later with now; [|done].
    apply (exact_step window cap ops now); [done|by eapply StronglySorted_app_1_l|done|apply limit_caps|done|].
    apply IH; [done|]. eapply Z.le_trans; [|exact Hroom]. apply inj_le. apply subseteq_size. unfold failed.
    rewrite omap_app, list_to_set_app_L. set_solver.
Qed.

(** C28: the limiter counts failures and nothing else, in bounded memory.  Take
    any sequence of checks and failures of any addresses, in the order of time.
    The limiter never holds more addresses than its cap; and when no more
    addresses than that failed, an address is let in exactly if it failed fewer
    than [max] times in the window up to now: no failure is forgotten early, none
    held against it late, and another address's failures never count. *)
Theorem limiter_exact window max cap ops now ip :
  let r := foldl limit_step (RateLimit ∅ window max cap) ops in
  0 ≤ window → 1 ≤ cap → StronglySorted Z.le (ops.*1 ++ [now]) → Forall (λ o, op_ip o.2 ≠ ""%string) ops →
  Z.of_nat (size (rl_hits r)) ≤ cap ∧
  (Z.of_nat (size (failed ops)) ≤ cap →
   (allow now ip r).2 = (Z.of_nat (length (filter (λ t, now - window ≤ t) (fails ip ops))) <? max)).
Proof.
  cbv zeta. intros Hwin Hcap Hs Hops. split.
  - apply (bounded_run cap ops (RateLimit ∅ window max cap)); [done..|]. split; try done. cbn. rewrite map_size_empty. lia.
  - intros Hroom. pose proof (exact_run window max cap ops now Hwin Hs Hroom) as He.
    unfold allow. cbn [snd]. rewrite (ex_window _ _ _ _ He).
    destruct (exact_prune window ops now _ ip now (StronglySorted_app_1_l _ _ _ Hs) He) as [_ Hv]; [done|].
    unfold view in Hv. rewrite Hv. f_equal. apply (proj2 (limit_caps ops (RateLimit ∅ window max cap))).
Qed.

(** Eight failures within a minute, and the address has to wait until the first
    is a minute old; another one does not. *)
Definition sample_ops : list (time * limit_op) :=
  (λ i, (Z.of_nat i * second, OpFail "10.0.0.1"%string)) <$> seq 1 8.

Lemma limiter_exact_witness :
  let r := foldl limit_step (RateLimit ∅ (60 * second) 8 100) sample_ops in
  (allow (30 * second) "10.0.0.1" r).2 = false ∧ (allow (30 * second) "10.0.0.2" r).2 = true ∧
  (allow (62 * second) "10.0.0.1" r).2 = true.
Proof.
  assert (Hs : ∀ now, now ∈ [30 * second; 62 * second] → StronglySorted Z.le (sample_ops.*1 ++ [now])).
  { intros now Hn. apply Sorted_StronglySorted; [intros ? ? ? ? ?; lia|].
    rewrite !elem_of_cons in Hn. destruct Hn as [->|[->|Hn]]; [| |by apply not_elem_of_nil in Hn];
      vm_compute; repeat constructor; discriminate. }
  assert (Hops : Forall (λ o, op_ip o.2 ≠ ""%string) sample_ops).
  { apply (bool_decide_unpack _). vm_compute. done. }
  assert (Hc : Z.of_nat (size (failed sample_ops)) ≤ 100) by (vm_compute; discriminate).
  cbv zeta. split_and!.
  - destruct (limiter_exact (60 * second) 8 100 sample_ops (30 * second) "10.0.0.1") as [_ He];
      [done|lia|apply Hs; by left|done|]. rewrite (He Hc). vm_compute. reflexivity.
  - destruct (limiter_exact (60 * second) 8 100 sample_ops (30 * second) "10.0.0.2") as [_ He];
      [done|lia|apply Hs; by left|done|]. rewrite (He Hc). vm_compute. reflexivity.
  - destruct (limiter_exact (60 * second) 8 100 sample_ops (62 * second) "10.0.0.1") as [_ He];
      [done|lia|apply Hs; right; by left|done|]. rewrite (He Hc). vm_compute. reflexivity.
Defined.
