(* ===== verification/WebSample.v ===== *)
(** * A small web server

    Concrete instances of the web server's parameters, and runs on them: two
    accounts with a browser each that log in, talk and mute. *)

From Stdlib Require Import ZArith Lia Ascii Bool.
From stdpp Require Import base tactics list gmap strings countable.
From S2P Require Import Prelude GoStrings GoNet CoreTypes CoreEvent CoreEngine CoreCommand StoreDb StoreQuery WebProto WebAuth WebDto WebServer WebThms WebGate.

#[local] Open Scope Z_scope.

(** ** A text for documents

    A document as a tree of strings, the tree as a number, its digits to base
    two as text. *)

Fixpoint json_tree (j : json) : gen_tree string :=
  match j with
  | JNull => GenNode 0 []
  | JBool b => GenNode (if b then 1 else 2) []
  | JNum l => GenNode 3 [GenLeaf l]
  | JStr s => GenNode 4 [GenLeaf s]
  | JArr l => GenNode 5 (json_tree <$> l)
  | JObj l => GenNode 6 ((λ '(k, v), GenNode 7 [GenLeaf k; json_tree v]) <$> l)
  end.

Fixpoint tree_json (t : gen_tree string) : json :=
  match t with
  | GenNode 1 _ => JBool true
  | GenNode 2 _ => JBool false
  | GenNode 3 [GenLeaf l] => JNum l
  | GenNode 4 [GenLeaf s] => JStr s
  | GenNode 5 l => JArr (tree_json <$> l)
  | GenNode 6 l =>
      JObj ((λ t, match t with GenNode 7 [GenLeaf k; v] => (k, tree_json v) | _ => (""%string, JNull) end) <$> l)
  | _ => JNull
  end.

Lemma tree_json_tree : ∀ j, tree_json (json_tree j) = j.
Proof.
  fix IH 1. intros [|[]|l|s|l|l]; [done..| |]; cbn; f_equal.
  - induction l as [|j l IHl]; [done|]. cbn. by rewrite IH, IHl.
  - induction l as [|[k v] l IHl]; [done|]. cbn. by rewrite IH, IHl.
Qed.

Fixpoint bits (p : positive) : string :=
  match p with xH => "" | xO p => String "0" (bits p) | xI p => String "1" (bits p) end.

Fixpoint unbits (s : string) : positive :=
  match s with "" => xH | String a s => if Ascii.eqb a "1" then xI (unbits s) else xO (unbits s) end%string.

Lemma unbits_bits p : unbits (bits p) = p.
Proof. induction p as [p IH|p IH|]; cbn; by rewrite ?IH. Qed.

#[export] Instance tree_text : JsonText := {
  json_text j := String "j" (bits (encode (json_tree j)));
  text_json s := match s with "" => None | String _ s => tree_json <$> countable.decode (unbits s) end%string;
  float_literal l := Some l;
}.

#[export] Instance tree_laws : JsonLaws tree_text.
Proof.
  split; [|done]. intros j _. cbn. rewrite unbits_bits, decode_encode. cbn. by rewrite tree_json_tree.
Qed.

(** ** The world *)

#[local] Existing Instance plain_sql.
#[local] Existing Instance plain_json.
#[local] Existing Instance ascii_tables.
#[local] Instance no_dates_here : TimeParse := λ _ _, None.
#[local] Instance no_patterns : Regexp := {| re_ok _ := true; re_match _ _ := false |}.

(** A hash that is the password itself. *)
#[local] Instance plain_hash : Bcrypt := String.eqb.

Definition sample_config : web_config :=
  WebConfig "word" true (<["ann" := "pa"]> (<["bob" := "pb"]> ∅)) 3600 ["ann"; "bob"] [].

Definition sample_options : web_options := WebOptions sample_config "stugan" true true true true None.

Definition sample_cenv : cenv :=
  CEnv 5 (λ _, []) (λ _, true) (λ _, false) (Some (λ _, inl 1%nat)) nop_dispatch None false "b" (λ _ _ _, None).

Definition sample_world (now : time) : wenv :=
  WEnv now sample_cenv (λ u, new_core (Some (User u u [])) ∅ None) (λ _, Database [] 0 ∅ ∅ ∅ ∅ 2) true true true
    (λ _, []) (λ _, []) (λ _ _ _ _, []) (λ _ _, None) (λ _, None).

Definition form (l : list (string * string)) : json := JObj ((λ '(k, v), (k, JStr v)) <$> l).

Definition post (path : string) (cookies : gmap string string) (body : json) : request :=
  Request "POST" path "192.0.2.7:4000" ∅ cookies false (Some body).

Definition upgrade (magic tok : string) : request :=
  Request "GET" "/ws" "192.0.2.7:4000" ∅ (<[magicCookie := magic]> {[sessionCookie := tok]}) false None.

(** The word, then a login of each user, then their sockets. *)
Definition sample_logins : list (wenv * web_input) :=
  pair (sample_world second) <$>
  [XRequest (post "/api/magicword" ∅ (form [("Word", "word")]%string)) true; XVerified 0 "m";
   XRequest (post "/api/login" {[magicCookie := "m"%string]} (form [("Username", "ann"); ("Password", "pa")]%string)) true;
   XVerified 0 "ta";
   XRequest (post "/api/login" {[magicCookie := "m"%string]} (form [("username", "bob"); ("password", "pb")]%string)) true;
   XVerified 0 "tb";
   XRequest (upgrade "m" "ta") true; XRequest (upgrade "m" "tb") true; XRequest (upgrade "m" "ta") true;
   XRequest (upgrade "no" "ta") true; XRequest (upgrade "m" "no") true;
   XResume 0; XResume 1; XResume 2].

Definition sample_start : web := web_run sample_options sample_logins (new_web sample_options ∅ ∅).

Example three_sockets : cl_user <$> wb_heap sample_start = <[0%nat := "ann"]> (<[1%nat := "bob"]> {[2%nat := "ann"]})%string.
Proof. vm_compute. reflexivity. Qed.

Definition mute_frame (buffer : string) (on : bool) : envelope :=
  Envelope "mute" "" (Some (JObj [("network", JStr "libera"); ("buffer", JStr buffer); ("muted", JBool on)]%string)).

(** ** The theorems on these runs *)

Lemma sockets_authenticated_witness :
  wc_auth (wo_config sample_options) = true ∧
  (∃ x, wb_heap sample_start !! 1%nat = Some x ∧ cl_user x = "bob"%string) ∧
  let_in sample_options ∅ ∅ sample_logins "bob".
Proof.
  split; [reflexivity|].
  assert (Hx : ∃ x, wb_heap sample_start !! 1%nat = Some x ∧ cl_user x = "bob"%string) by (vm_compute; eexists; split; reflexivity).
  split; [exact Hx|]. destruct Hx as (x & Hx & Hu). rewrite <- Hu.
  apply (sockets_authenticated sample_options ∅ ∅ sample_logins 1%nat x); [reflexivity|exact Hx].
Defined.

(** Ann's first browser asks to mute; it is bob's that must not change. *)
Lemma accounts_isolated_witness :
  acting (XFrame 0 (mute_frame "#a" true)) sample_start = Some 0%nat ∧
  ∀ y, wb_heap sample_start !! 1%nat = Some y →
    wb_heap (web_step sample_options (sample_world minute) (XFrame 0 (mute_frame "#a" true)) sample_start) !! 1%nat = Some y.
Proof.
  split; [reflexivity|]. intros y Hy.
  assert (Hx : ∃ x, wb_heap sample_start !! 0%nat = Some x ∧ cl_user x = "ann"%string) by (vm_compute; eexists; split; reflexivity).
  destruct Hx as (x & Hx & Hu).
  destruct (accounts_isolated sample_options ∅ ∅ sample_logins (sample_world minute) (XFrame 0 (mute_frame "#a" true)) 0%nat x)
    as [Hd _]; [reflexivity|exact Hx|]. apply Hd; [exact Hy|]. rewrite Hu.
  assert (Hb : cl_user <$> wb_heap sample_start !! 1%nat = Some "bob"%string) by (vm_compute; reflexivity).
  rewrite Hy in Hb. injection Hb as ->. discriminate.
Defined.

Definition sample_message : message :=
  Message "id1" 0 "libera" "bill" (30 * second) "bill" "" MsgPrivmsg "hi" ∅ false false.

(** After the line is committed, ann's second browser mutes bill and its frames
    are written. *)
Definition sample_later : list (wenv * web_input) :=
  pair (sample_world minute) <$> [XFrame 2 (mute_frame "bill" true); XResume 2; XWrite 0 true; XWrite 0 true; XWrite 0 true].

Lemma lines_reach_tabs_witness :
  (∃ x, wb_heap sample_start !! 0%nat = Some x) ∧
  ∃ x', wb_heap (web_run sample_options sample_later
                   (web_step sample_options (sample_world minute) (XSink "ann" (SPrint sample_message)) sample_start)) !! 0%nat = Some x' ∧
    Frame "msg" (PMsg (toMessageDTO sample_message)) ∈ cl_sent x'.
Proof.
  assert (Hx : ∃ x, wb_heap sample_start !! 0%nat = Some x) by (vm_compute; eexists; reflexivity).
  split; [exact Hx|]. destruct Hx as (x & Hx).
  destruct (lines_reach_tabs sample_options ∅ ∅ sample_logins (sample_world minute) "ann" sample_message sample_later 0%nat x Hx)
    as (x' & Hx' & _ & Hreach & _).
  fold sample_start in Hx', Hreach. exists x'. split; [exact Hx'|].
  assert (Hw : (λ y, (cl_broken y, length (cl_sent y), length (cl_sent y ++ cl_send y))) <$>
    wb_heap (web_run sample_options sample_later
      (web_step sample_options (sample_world minute) (XSink "ann" (SPrint sample_message)) sample_start)) !! 0%nat = Some (false, 3%nat, 4%nat))
    by (vm_compute; reflexivity).
  rewrite Hx' in Hw. injection Hw as Hbroken Hsent Hall.
  assert (Hlen : (λ y, length (stream y)) <$> wb_heap sample_start !! 0%nat = Some 2%nat) by (vm_compute; reflexivity).
  rewrite Hx in Hlen. injection Hlen as Hlen.
  destruct Hreach as [more Hmore]; [apply (bool_decide_unpack _); vm_compute; exact I|exact Hbroken|].
  assert (Hat : cl_sent x' !! 2%nat = Some (Frame "msg" (PMsg (toMessageDTO sample_message)))).
  { rewrite <- (lookup_app_l (cl_sent x') (cl_send x')) by lia. change (cl_sent x' ++ cl_send x') with (stream x'). rewrite Hmore.
    rewrite lookup_app_l by (rewrite length_app; cbn; lia). rewrite lookup_app_r by lia. by rewrite Hlen. }
  by eapply list_elem_of_lookup_2.
Defined.

(** Both of ann's browsers have read the list before either saves it. *)
Definition sample_mutes : list (wenv * web_input) :=
  pair (sample_world minute) <$> [XFrame 0 (mute_frame "#a" true); XFrame 2 (mute_frame "#b" true); XResume 0; XResume 2].

(** Then the first mute is lost, although every browser was told of it. *)
Lemma concurrent_mutes_lose_one :
  let w := web_run sample_options sample_mutes sample_start in
  isMuted (muted_of sample_options (sample_world minute) "ann" w) "libera" "#a" = false ∧
  isMuted (muted_of sample_options (sample_world minute) "ann" w) "libera" "#b" = true ∧
  ∀ c, c ∈ [0%nat; 2%nat] → ∃ x, wb_heap w !! c = Some x ∧ Frame "mute" (PMute (MkMuteSet "libera" "#a" true)) ∈ cl_send x.
Proof.
  cbv zeta. split_and!; [vm_compute; reflexivity..|].
  intros c Hc. rewrite !elem_of_cons in Hc. destruct Hc as [->|[->|Hc%not_elem_of_nil]]; [..|done];
    (eexists; split; [vm_compute; reflexivity|]); apply list_elem_of_In; cbn; tauto.
Qed.

Definition muting : web := web_step sample_options (sample_world minute) (XFrame 2 (mute_frame "bill" true)) sample_start.

Lemma mute_silences_witness :
  (∃ x, wb_heap muting !! 2%nat = Some x ∧ cl_user x = "ann"%string ∧ cl_reader x = RMute [] (MkMuteSet "libera" "bill" true)) ∧
  isMuted (muted_of sample_options (sample_world minute) "ann" (web_step sample_options (sample_world minute) (XResume 2) muting))
    "libera" "BILL" = true.
Proof.
  assert (Hx : ∃ x, wb_heap muting !! 2%nat = Some x ∧ cl_user x = "ann"%string ∧ cl_reader x = RMute [] (MkMuteSet "libera" "bill" true))
    by (vm_compute; eexists; split_and!; reflexivity).
  split; [exact Hx|]. destruct Hx as (x & Hx & Hu & Hr).
  destruct (mute_silences sample_options (sample_world minute) (sample_world minute) muting 2%nat x [] (MkMuteSet "libera" "bill" true)
    sample_message) as (_ & Hm & _); [exact Hx|exact Hr|rewrite Hu; vm_compute; reflexivity|reflexivity|reflexivity|reflexivity|constructor
    |split; reflexivity|rewrite Hu; apply (bool_decide_unpack _); vm_compute; exact I|].
  rewrite Hu in Hm. rewrite Hm. vm_compute. reflexivity.
Defined.
