(* ===== verification/ImgStrip.v ===== *)
(** * Metadata of uploaded images: [internal/server/uploads.go]

    [stripImageMetadata] and the four formats it rewrites.  A [[]byte] is a list
    of integers, an index a [Z]; reading out of range is [Panic], which Go would
    do too, and so is running out of fuel. *)

From Stdlib Require Import ZArith Lia Ascii Bool.
From stdpp Require Import base tactics list strings.
From S2P Require Import Prelude GoStrings.

#[local] Open Scope Z_scope.

(** ** Bytes *)

Inductive outcome (A : Type) := Ok (a : A) | Bad | Panic.
Arguments Ok {A} a.
Arguments Bad {A}.
Arguments Panic {A}.

Definition obind {A B} (m : outcome A) (k : A → outcome B) : outcome B :=
  match m with Ok a => k a | Bad => Bad | Panic => Panic end.

Notation "'let?' x := m 'in' k" := (obind m (λ x, k)) (at level 200, x name, right associativity).

Notation bytes := (list Z) (only parsing).
Definition codes (s : string) : bytes := byte_z <$> String.list_ascii_of_string s.
Definition blen (d : bytes) : Z := Z.of_nat (length d).

(** [data[i]] and [data[i:j]]. *)
Definition byte_at (d : bytes) (i : Z) : outcome Z :=
  if i <? 0 then Panic else match d !! Z.to_nat i with Some b => Ok b | None => Panic end.

Definition slice (d : bytes) (i j : Z) : outcome bytes :=
  if (0 <=? i) && (i <=? j) && (j <=? blen d) then Ok (take (Z.to_nat (j - i)) (drop (Z.to_nat i) d)) else Panic.

(** [binary.BigEndian], [binary.LittleEndian]. *)
Definition be (b : bytes) : Z := foldl (λ n x, n * 256 + x) 0 b.
Definition le (b : bytes) : Z := foldr (λ x n, x + 256 * n) 0 b.

Definition be_at (d : bytes) (i n : Z) : outcome Z := let? b := slice d i (i + n) in Ok (be b).
Definition le_at (d : bytes) (i n : Z) : outcome Z := let? b := slice d i (i + n) in Ok (le b).

Fixpoint put_le (n : nat) (v : Z) : bytes :=
  match n with O => [] | S n => v mod 256 :: put_le n (v / 256) end.

(** [bytes.HasPrefix]. *)
Definition starts (p d : bytes) : bool := bool_decide (take (length p) d = p).

(** ** PNG *)

Definition png_sig : bytes := [137; 80; 78; 71; 13; 10; 26; 10].

Definition pngMetaChunks : list bytes := codes <$> ["tEXt"; "zTXt"; "iTXt"; "eXIf"; "tIME"]%string.

Fixpoint png_loop (fuel : nat) (data : bytes) (i : Z) (out : bytes) : outcome bytes :=
  match fuel with
  | O => Panic
  | S fuel =>
      if blen data <? i + 8 then Bad
      else
        let? dataLen := be_at data i 4 in
        let? typ := slice data (i + 4) (i + 8) in
        let end_ := i + 12 + dataLen in
        if (dataLen <? 0) || (blen data <? end_) then Bad
        else
          let? out := if bool_decide (typ ∈ pngMetaChunks) then Ok out
                      else let? b := slice data i end_ in Ok (out ++ b) in
          if bool_decide (typ = codes "IEND") then Ok out else png_loop fuel data end_ out
  end.

Definition stripPNG (data : bytes) : outcome bytes :=
  if negb (starts png_sig data) then Bad else png_loop (S (length data)) data (blen png_sig) png_sig.

(** ** GIF *)

(** [gifSubBlocksEnd]. *)
Fixpoint gif_sub_loop (fuel : nat) (data : bytes) (i : Z) : outcome Z :=
  match fuel with
  | O => Panic
  | S fuel =>
      if i <? blen data then
        let? n := byte_at data i in
        let i := i + 1 in
        if n =? 0 then Ok i else if blen data <? i + n then Bad else gif_sub_loop fuel data (i + n)
      else Bad
  end.

Definition gifSubBlocksEnd (data : bytes) (i : Z) : outcome Z := gif_sub_loop (S (length data)) data i.

(** The size of a colour table, by its flags. *)
Definition table_size (flags : Z) : Z := if Z.land flags 128 =? 0 then 0 else 3 * 2 ^ (Z.land flags 7 + 1).

Definition gif_apps : list bytes := codes <$> ["NETSCAPE2.0"; "ANIMEXTS1.0"]%string.

(** Whether the extension whose blocks start at [i] is dropped. *)
Definition gif_drops (data : bytes) (label i : Z) : outcome bool :=
  if label =? 255 then
    let? first := if i <? blen data then byte_at data i else Ok 0 in
    if (first =? 11) && (i + 12 <=? blen data)
    then let? app := slice data (i + 1) (i + 12) in Ok (negb (bool_decide (app ∈ gif_apps)))
    else Ok true
  else Ok (label =? 254).

Definition gif_image (data : bytes) (start : Z) : outcome Z :=
  if blen data <? start + 10 then Bad
  else
    let? flags := byte_at data (start + 9) in
    let i := start + 10 + table_size flags in
    if blen data <=? i then Bad else gifSubBlocksEnd data (i + 1).

Fixpoint gif_loop (fuel : nat) (data : bytes) (i : Z) (out : bytes) : outcome bytes :=
  match fuel with
  | O => Panic
  | S fuel =>
      if blen data <=? i then Bad
      else
        let? tag := byte_at data i in
        if tag =? 59 then Ok (out ++ [59])
        else if tag =? 44 then
          let? end_ := gif_image data i in
          let? b := slice data i end_ in
          gif_loop fuel data end_ (out ++ b)
        else if tag =? 33 then
          if blen data <? i + 2 then Bad
          else
            let? label := byte_at data (i + 1) in
            let? end_ := gifSubBlocksEnd data (i + 2) in
            let? dropped := gif_drops data label (i + 2) in
            let? out := if dropped then Ok out else let? b := slice data i end_ in Ok (out ++ b) in
            gif_loop fuel data end_ out
        else Bad
  end.

Definition stripGIF (data : bytes) : outcome bytes :=
  if blen data <? 13 then Bad
  else
    let? flags := byte_at data 10 in
    let i := 13 + table_size flags in
    if blen data <? i then Bad
    else let? out := slice data 0 i in gif_loop (S (length data)) data i out.

(** ** WebP *)

Definition webp_meta : list bytes := codes <$> ["EXIF"; "XMP "; "ICCP"]%string.

(** [b[8] &^= 0x2C]. *)
Definition clear_flags (b : bytes) : bytes := alter (λ x, Z.ldiff x 44) 8%nat b.

Fixpoint webp_loop (fuel : nat) (data : bytes) (total i : Z) (out : bytes) : outcome bytes :=
  match fuel with
  | O => Panic
  | S fuel =>
      if total <=? i then Ok out
      else if total <? i + 8 then Bad
      else
        let? size := le_at data (i + 4) 4 in
        let end_ := i + 8 + size in
        let padded := end_ + size mod 2 in
        if (size <? 0) || (end_ <? i) || (total <? padded) then Bad
        else
          let? typ := slice data i (i + 4) in
          let? out :=
            if bool_decide (typ ∈ webp_meta) then Ok out
            else
              let? b := slice data i padded in
              if bool_decide (typ = codes "VP8X")
              then if size <? 1 then Bad else Ok (out ++ clear_flags b)
              else Ok (out ++ b) in
          webp_loop fuel data total padded out
  end.

Definition stripWebP (data : bytes) : outcome bytes :=
  let? riff := le_at data 4 4 in
  let total := riff + 8 in
  if (total <? 12) || (blen data <? total) then Bad
  else
    let? head := slice data 0 12 in
    let? out := webp_loop (S (length data)) data total 12 head in
    Ok (take 4 out ++ put_le 4 ((blen out - 8) mod 2 ^ 32) ++ drop 8 out).

(** ** TIFF and the HEIF family, which are refused *)

Definition imageBrands : list bytes := codes <$> ["avif"; "avis"; "heic"; "heix"; "hevc"; "hevx"; "mif1"; "msf1"]%string.

Fixpoint brand_loop (fuel : nat) (data : bytes) (end_ i : Z) : outcome bool :=
  match fuel with
  | O => Panic
  | S fuel =>
      if i + 4 <=? end_ then
        let? b := slice data i (i + 4) in
        if bool_decide (b ∈ imageBrands) then Ok true else brand_loop fuel data end_ (i + 4)
      else Ok false
  end.

Definition isUnsafeImageContainer (data : bytes) : outcome bool :=
  if starts [73; 73; 42; 0] data || starts [77; 77; 0; 42] data ||
     starts [73; 73; 43; 0] data || starts [77; 77; 0; 43] data then Ok true
  else if blen data <? 12 then Ok false
  else
    let? ftyp := slice data 4 8 in
    if negb (bool_decide (ftyp = codes "ftyp")) then Ok false
    else
      let? brand := slice data 8 12 in
      if bool_decide (brand ∈ imageBrands) then Ok true
      else
        let? boxSize := be_at data 0 4 in
        let end_ := if (16 <=? boxSize) && (boxSize <? blen data) then boxSize else blen data in
        brand_loop (S (length data)) data end_ 16.

(** ** JPEG *)

(** [for k < len(data) && data[k] == 0xFF { k++ }] *)
Fixpoint ff_run (d : bytes) : Z :=
  match d with b :: d' => if b =? 255 then 1 + ff_run d' else 0 | [] => 0 end.

Definition skip_ff (data : bytes) (i : Z) : Z := i + ff_run (drop (Z.to_nat i) data).

(** Stuffing or a restart marker: the scan goes on. *)
Definition in_scan (m : Z) : bool := (m =? 0) || ((208 <=? m) && (m <=? 215)).

(** Where the entropy-coded data from [i] on ends. *)
Fixpoint scan_loop (fuel : nat) (data : bytes) (i : Z) : outcome Z :=
  match fuel with
  | O => Panic
  | S fuel =>
      if i <? blen data then
        let? b := byte_at data i in
        if negb (b =? 255) then scan_loop fuel data (i + 1)
        else
          let k := skip_ff data i in
          if blen data <=? k then Ok (blen data)
          else
            let? m := byte_at data k in
            if in_scan m then scan_loop fuel data (k + 1) else Ok i
      else Ok i
  end.

(** The entries of the directory, from the [k]th on. *)
Fixpoint exif_loop (n : nat) (t : bytes) (num : bytes → Z) (e : Z) : outcome Z :=
  match n with
  | O => Ok 0
  | S n =>
      if blen t <? e + 12 then Ok 0
      else
        let? tag := slice t e (e + 2) in
        let? kind := slice t (e + 2) (e + 4) in
        if (num tag =? 274) && (num kind =? 3) then
          let? v := slice t (e + 8) (e + 10) in
          Ok (if (1 <=? num v) && (num v <=? 8) then num v else 0)
        else exif_loop n t num (e + 12)
  end.

Definition exif_dir (t : bytes) (num : bytes → Z) : outcome Z :=
  let? b := slice t 4 8 in
  let ifd := num b in
  if (ifd <? 8) || (blen t <? ifd + 2) then Ok 0
  else let? n := slice t ifd (ifd + 2) in exif_loop (Z.to_nat (num n)) t num (ifd + 2).

Definition exifOrientation (seg : bytes) : outcome Z :=
  if (blen seg <? 14) || negb (starts [69; 120; 105; 102; 0; 0] seg) then Ok 0
  else
    let? t := slice seg 6 (blen seg) in
    let? order := slice t 0 2 in
    if bool_decide (order = codes "II") then exif_dir t le
    else if bool_decide (order = codes "MM") then exif_dir t be
    else Ok 0.

(** The segment that only holds an orientation. *)
Definition orientation_segment (o : Z) : bytes :=
  [255; 225; 0; 34; 69; 120; 105; 102; 0; 0; 77; 77; 0; 42; 0; 0; 0; 8; 0; 1; 1; 18; 0; 3; 0; 0; 0; 1; 0; o; 0; 0; 0; 0; 0; 0].

Definition withOrientation (jpeg : bytes) (orientation : Z) : bytes :=
  if (orientation <? 2) || (8 <? orientation) then jpeg
  else take 2 jpeg ++ orientation_segment orientation ++ drop 2 jpeg.

(** A segment's length, which counts its own two bytes, checked. *)
Definition seg_len (data : bytes) (i : Z) : outcome Z :=
  if blen data <? i + 2 then Bad
  else
    let? n := be_at data i 2 in
    if (n <? 2) || (blen data <? i + n) then Bad else Ok n.

Definition is_app (m : Z) : bool := (224 <=? m) && (m <=? 239).
Definition stands_alone (m : Z) : bool := (208 <=? m) && (m <=? 215) || (m =? 1).

Fixpoint jpeg_loop (fuel : nat) (data : bytes) (i orientation : Z) (out : bytes) : outcome bytes :=
  match fuel with
  | O => Panic
  | S fuel =>
      if blen data <=? i + 1 then Bad
      else
        let? first := byte_at data i in
        if negb (first =? 255) then Bad
        else
          let i := skip_ff data i in
          if blen data <=? i then Bad
          else
            let? marker := byte_at data i in
            let i := i + 1 in
            if marker =? 217 then Ok (withOrientation (out ++ [255; marker]) orientation)
            else if marker =? 218 then
              let? n := seg_len data i in
              let? header := slice data i (i + n) in
              let? end_ := scan_loop (S (length data)) data (i + n) in
              let? scan := slice data (i + n) end_ in
              let out := out ++ [255; marker] ++ header ++ scan in
              if blen data <=? end_ then Ok (withOrientation out orientation)
              else jpeg_loop fuel data end_ orientation out
            else if stands_alone marker then jpeg_loop fuel data i orientation (out ++ [255; marker])
            else
              let? n := seg_len data i in
              let? orientation :=
                if (marker =? 225) && (orientation =? 0)
                then let? payload := slice data (i + 2) (i + n) in exifOrientation payload
                else Ok orientation in
              let? out :=
                if (marker =? 254) || is_app marker then Ok out
                else let? b := slice data i (i + n) in Ok (out ++ [255; marker] ++ b) in
              jpeg_loop fuel data (i + n) orientation out
  end.

Definition stripJPEG (data : bytes) : outcome bytes :=
  if negb (starts [255; 216] data) then Bad else jpeg_loop (S (length data)) data 2 0 [255; 216].

(** ** The dispatch on the leading bytes *)

Inductive image_kind := JPEG | PNG | GIF | WebP.

Definition kind_of (data : bytes) : option image_kind :=
  if starts [255; 216; 255] data then Some JPEG
  else if starts png_sig data then Some PNG
  else if starts (codes "GIF87a") data || starts (codes "GIF89a") data then Some GIF
  else if starts (codes "RIFF") data && bool_decide (take 4 (drop 8 data) = codes "WEBP") then Some WebP
  else None.

Definition strip_kind (k : image_kind) : bytes → outcome bytes :=
  match k with JPEG => stripJPEG | PNG => stripPNG | GIF => stripGIF | WebP => stripWebP end.

Definition stripImageMetadata (data : bytes) : outcome bytes :=
  match kind_of data with
  | Some k => strip_kind k data
  | None => let? unsafe := isUnsafeImageContainer data in if unsafe then Bad else Ok data
  end.
