(* ===== verification/ImgBlocks.v ===== *)
(** * Files made of blocks

    A file format whose files are a sequence of blocks, each of which says how
    long it is: reading a file into its blocks, and what happens to the reading
    when blocks are edited or dropped.  PNG, GIF and WebP are instances
    ([ImgThms]). *)

From Stdlib Require Import ZArith Lia Bool.
From stdpp Require Import base tactics list.
From S2P Require Import Prelude ImgStrip.

(** ** Formats *)

(** [bf_next] is the length of the first block, [bf_last] whether it ends the
    file, and [bf_open] whether a file may end without such a block. *)
Class BlockFormat := {
  bf_next : bytes → option nat;
  bf_last : bytes → bool;
  bf_open : bool;
}.

Class BlockLaws (F : BlockFormat) := {
  bf_size l n : bf_next l = Some n → 0 < n ≤ length l;
  bf_local l n r : bf_next l = Some n → bf_next (take n l ++ r) = Some n;
}.

Section blocks.
Context `{F : BlockFormat}.

Fixpoint read_blocks (fuel : nat) (l : bytes) : option (list bytes) :=
  match fuel with
  | O => None
  | S fuel =>
      match l with
      | [] => if bf_open then Some [] else None
      | _ =>
          n ← bf_next l;
          if bf_last (take n l) then Some [take n l]
          else bs ← read_blocks fuel (drop n l); Some (take n l :: bs)
      end
  end.

(** The blocks of a file: [None] when it is malformed. *)
Definition blocks (l : bytes) : option (list bytes) := read_blocks (S (length l)) l.

Definition is_block (b : bytes) : Prop := 0 < length b ∧ ∀ r, bf_next (b ++ r) = Some (length b).

Fixpoint chain (bs : list bytes) : Prop :=
  match bs with
  | [] => bf_open = true
  | b :: bs => is_block b ∧ if bf_last b then bs = [] else chain bs
  end.

Context `{!BlockLaws F}.

Lemma is_block_take l n : bf_next l = Some n → is_block (take n l).
Proof.
  intros Hn. pose proof (bf_size _ _ Hn). unfold is_block. rewrite length_take.
  replace (n `min` length l) with n by lia. split; [lia|]. intros r. by apply bf_local.
Qed.

Lemma read_blocks_fuel f l : length l < f → read_blocks f l = blocks l.
Proof.
  unfold blocks. enough (∀ f g l, length l < f → length l < g → read_blocks f l = read_blocks g l) as He by (intros; apply He; lia).
  clear f l. induction f as [|f IH]; intros [|g] l Hf Hg; [lia..|]. cbn [read_blocks]. destruct l as [|x l]; [done|].
  destruct (bf_next (x :: l)) as [n|] eqn:En; [|done]. cbn. pose proof (bf_size _ _ En).
  rewrite (IH g); [done|rewrite length_drop; lia..].
Qed.

(** One step of the reading. *)
Lemma read_blocks_next f l n : bf_next l = Some n →
  read_blocks (S f) l =
    if bf_last (take n l) then Some [take n l] else bs ← read_blocks f (drop n l); Some (take n l :: bs).
Proof. intros Hn. pose proof (bf_size _ _ Hn) as Hlen. destruct l; [cbn in Hlen; lia|]. cbn [read_blocks]. by rewrite Hn. Qed.

Lemma read_blocks_bad f l : bf_next l = None → (l = [] → bf_open = false) → read_blocks (S f) l = None.
Proof. intros Hn Ho. cbn [read_blocks]. destruct l; [by rewrite Ho|by rewrite Hn]. Qed.

(** A file is its blocks and what follows the last one. *)
Lemma blocks_chain l bs : blocks l = Some bs → chain bs ∧ ∃ r, l = concat bs ++ r.
Proof.
  unfold blocks. generalize (S (length l)) as f. intros f. revert l bs.
  induction f as [|f IH]; intros l bs Hb; [done|]. cbn [read_blocks] in Hb. destruct l as [|x l].
  - destruct bf_open eqn:Eo; simplify_eq/=. split; [done|]. by exists [].
  - destruct (bf_next (x :: l)) as [n|] eqn:En; [|done]. cbn in Hb.
    pose proof (is_block_take _ _ En) as Hblk. destruct (bf_last (take n (x :: l))) eqn:El.
    + simplify_eq/=. rewrite El. split; [done|]. exists (drop n (x :: l)). rewrite app_nil_r. by rewrite take_drop.
    + destruct (read_blocks f (drop n (x :: l))) as [bs'|] eqn:Er; simplify_eq/=. rewrite El.
      destruct (IH _ _ Er) as [Hc [r Hr]]. split; [done|]. exists r. rewrite <- app_assoc, <- Hr. by rewrite take_drop.
Qed.

Lemma blocks_cover l bs : blocks l = Some bs → (∀ b, bf_last b = false) → l = concat bs.
Proof.
  intros Hb Hl. unfold blocks in Hb. revert Hb. generalize (S (length l)) as f. intros f. revert l bs.
  induction f as [|f IH]; intros l bs Hb; [done|]. cbn [read_blocks] in Hb. destruct l as [|x l].
  - destruct bf_open; by simplify_eq/=.
  - destruct (bf_next (x :: l)) as [n|] eqn:En; [|done]. cbn in Hb. rewrite Hl in Hb.
    destruct (read_blocks f (drop n (x :: l))) as [bs'|] eqn:Er; simplify_eq/=.
    rewrite <- (IH _ _ Er). by rewrite take_drop.
Qed.

(** And a sequence of blocks is read back as such. *)
Lemma chain_blocks bs r : chain bs → (bf_open = true → r = []) → blocks (concat bs ++ r) = Some bs.
Proof.
  induction bs as [|b bs IH]; intros Hc Hr.
  - cbn in Hc. unfold blocks. rewrite Hr by done. cbn. by rewrite Hc.
  - cbn in Hc. destruct Hc as [[Hlen Hn] Hc]. specialize (Hn (concat bs ++ r)).
    unfold blocks. cbn [concat]. rewrite <- app_assoc. cbn [read_blocks].
    destruct (b ++ concat bs ++ r) as [|x l] eqn:El; [apply (f_equal length) in El; rewrite length_app in El; cbn in El; lia|].
    rewrite Hn. cbn [mbind option_bind]. rewrite <- El, take_app_length, drop_app_length. destruct (bf_last b) eqn:E.
    + by subst bs.
    + rewrite read_blocks_fuel by (rewrite !length_app; lia). by rewrite IH.
Qed.

(** ** Editing *)

(** Blocks that are changed stay blocks; the last one is never dropped. *)
Class Edits (edit : bytes → option bytes) : Prop := {
  edit_block b b' : is_block b → edit b = Some b' → is_block b' ∧ bf_last b' = bf_last b;
  edit_drop b : edit b = None → bf_last b = false;
  edit_twice b b' : is_block b → edit b = Some b' → edit b' = Some b';
}.

Context (edit : bytes → option bytes) `{!Edits edit}.

Lemma chain_edit bs : chain bs → chain (omap edit bs).
Proof.
  induction bs as [|b bs IH]; [done|]. intros [Hb Hc]. cbn [omap list_omap].
  destruct (edit b) as [b'|] eqn:Ee.
  - destruct (edit_block b b' Hb Ee) as [Hb' El]. cbn. rewrite El. split; [done|].
    destruct (bf_last b); [by subst bs|by apply IH].
  - rewrite (edit_drop b Ee) in Hc. by apply IH.
Qed.

Lemma chain_Forall bs : chain bs → Forall is_block bs.
Proof. induction bs as [|b bs IH]; [done|]. intros [Hb Hc]. constructor; [done|]. destruct (bf_last b); [by subst|by apply IH]. Qed.

Lemma omap_edit_twice bs : chain bs → omap edit (omap edit bs) = omap edit bs.
Proof.
  intros Hc%chain_Forall. induction Hc as [|b bs Hb _ IH]; [done|]. cbn [omap list_omap].
  destruct (edit b) as [b'|] eqn:Ee; [|done]. cbn [omap list_omap]. rewrite (edit_twice b b' Hb Ee). by f_equal.
Qed.

(** What is left after an edit reads as the edited blocks, and editing them
    again changes nothing. *)
Lemma edited_blocks l bs : blocks l = Some bs →
  blocks (concat (omap edit bs)) = Some (omap edit bs) ∧ omap edit (omap edit bs) = omap edit bs.
Proof.
  intros Hb. destruct (blocks_chain _ _ Hb) as [Hc _]. split; [|by apply omap_edit_twice].
  rewrite <- (app_nil_r (concat _)). apply chain_blocks; [by apply chain_edit|done].
Qed.
End blocks.
