(* ===== verification/ImgFormats.v ===== *)
(** * What the formats are

    PNG, GIF, WebP and JPEG files as sequences of blocks ([picture]), without an
    index in sight: [read] says which blocks a file has, [clean] which of them
    are kept, [render] writes a file, [settled] says how it reads.  [ImgThms] proves the code against this. *)

From Stdlib Require Import ZArith Lia Bool.
From stdpp Require Import base tactics list strings.
From S2P Require Import Prelude GoStrings ImgStrip ImgBlocks.

#[local] Open Scope Z_scope.

(** ** PNG: chunks *)

Definition png_type (b : bytes) : bytes := take 4 (drop 4 b).

Definition png_format : BlockFormat := {|
  bf_next l :=
    let n := be (take 4 l) in
    if (blen l <? 8) || (n <? 0) || (blen l <? 12 + n) then None else Some (Z.to_nat (12 + n));
  bf_last b := bool_decide (png_type b = codes "IEND");
  bf_open := false |}.

Definition png_text : list bytes := codes <$> ["tEXt"; "zTXt"; "iTXt"; "eXIf"; "tIME"]%string.

Definition png_edit (b : bytes) : option bytes := if bool_decide (png_type b ∈ png_text) then None else Some b.

(** ** GIF: images, extensions, the trailer *)

(** The length of a sequence of sub-blocks with its terminator; [skip] bytes of
    the current one are still to come. *)
Fixpoint gif_sub (skip : nat) (l : bytes) : option nat :=
  match l, skip with
  | [], _ => None
  | _ :: l, S skip => S <$> gif_sub skip l
  | n :: l, O => if n =? 0 then Some 1%nat else S <$> gif_sub (Z.to_nat n) l
  end.

Definition gif_head (flags : Z) : Z := 11 + table_size flags.

Definition gif_format : BlockFormat := {|
  bf_next l :=
    match l with
    | [] => None
    | tag :: rest =>
        if tag =? 59 then Some 1%nat
        else if tag =? 44 then
          if blen l <? 10 then None
          else let h := Z.to_nat (gif_head (nth 9 l 0)) in Nat.add h <$> gif_sub 0 (drop h l)
        else if tag =? 33 then
          match rest with [] => None | _ :: blocks => Nat.add 2 <$> gif_sub 0 blocks end
        else None
    end;
  bf_last b := bool_decide (head b = Some 59);
  bf_open := false |}.

Definition gif_loops : list bytes := codes <$> ["NETSCAPE2.0"; "ANIMEXTS1.0"]%string.

(** Comments go, and so do application blocks other than the loop count. *)
Definition gif_meta (label : Z) (blocks : bytes) : bool :=
  (label =? 254) ||
  (label =? 255) && negb (bool_decide (head blocks = Some 11) && bool_decide (take 11 (drop 1 blocks) ∈ gif_loops)).

Definition gif_edit (b : bytes) : option bytes :=
  match b with
  | tag :: label :: blocks => if (tag =? 33) && gif_meta label blocks then None else Some b
  | _ => Some b
  end.

(** ** WebP: chunks *)

Definition webp_type (b : bytes) : bytes := take 4 b.

Definition webp_format : BlockFormat := {|
  bf_next l :=
    let n := le (take 4 (drop 4 l)) in
    if (blen l <? 8) || (n <? 0) || (blen l <? 8 + n + n mod 2) ||
       (bool_decide (webp_type l = codes "VP8X") && (n <? 1)) then None
    else Some (Z.to_nat (8 + n + n mod 2));
  bf_last _ := false;
  bf_open := true |}.

Definition webp_about : list bytes := codes <$> ["EXIF"; "XMP "; "ICCP"]%string.

Definition webp_edit (b : bytes) : option bytes :=
  if bool_decide (webp_type b ∈ webp_about) then None
  else if bool_decide (webp_type b = codes "VP8X") then Some (clear_flags b) else Some b.

(** ** JPEG: segments and scans *)

Inductive segment :=
  | Alone (m : Z)
  | Segment (m : Z) (body : bytes)              (** its length and payload *)
  | Scan (header scan : bytes).

(** How far the entropy-coded data goes; [pend] bytes FF precede. *)
Fixpoint scan_len (pend : nat) (l : bytes) : nat :=
  match l with
  | [] => pend
  | b :: l =>
      if b =? 255 then scan_len (S pend) l
      else match pend with
           | O => S (scan_len 0 l)
           | _ => if in_scan b then pend + S (scan_len 0 l) else O
           end
  end.

Fixpoint skip_fill (l : bytes) : bytes := match l with b :: l' => if b =? 255 then skip_fill l' else l | [] => [] end.

(** The length a segment starts with, if the segment is all there. *)
Definition body_len (l : bytes) : option nat :=
  let n := be (take 2 l) in if (blen l <? 2) || (n <? 2) || (blen l <? n) then None else Some (Z.to_nat n).

(** The segments of a file, and whether it ends with EOI.  Outside a scan a
    marker is FF and a byte that is neither FF nor 00: a file with an FF 00 there
    does not read, unless [nulls] says to take 00 for a marker all the same. *)
Fixpoint segments (nulls : bool) (fuel : nat) (l : bytes) : option (list segment * bool) :=
  match fuel with
  | O => None
  | S fuel =>
      match skip_fill l with
      | [] => None
      | m :: l' =>
          if negb (bool_decide (head l = Some 255)) then None
          else if m =? 217 then Some ([], true)
          else if m =? 218 then
            n ← body_len l';
            let rest := drop n l' in
            let k := scan_len 0 rest in
            let s := Scan (take n l') (take k rest) in
            if bool_decide (drop k rest = []) then Some ([s], false)
            else '(ss, e) ← segments nulls fuel (drop k rest); Some (s :: ss, e)
          else if stands_alone m then '(ss, e) ← segments nulls fuel l'; Some (Alone m :: ss, e)
          else if (m =? 0) && negb nulls then None
          else n ← body_len l'; '(ss, e) ← segments nulls fuel (drop n l'); Some (Segment m (take n l') :: ss, e)
      end
  end.

Definition jpeg_meta (s : segment) : bool := match s with Segment m _ => (m =? 254) || ((224 <=? m) && (m <=? 239)) | _ => false end.

Definition write_segment (s : segment) : bytes :=
  match s with
  | Alone m => [255; m]
  | Segment m body => 255 :: m :: body
  | Scan header scan => 255 :: 218 :: header ++ scan
  end.

(** A restart marker outside a scan, when nothing is left between it and the scan
    before it, counts as part of that scan. *)
Fixpoint absorb (header scan : bytes) (ss : list segment) : list segment :=
  match ss with
  | Alone m :: ss' => if in_scan m then absorb header (scan ++ [255; m]) ss' else Scan header scan :: ss
  | _ => Scan header scan :: ss
  end.

Fixpoint settle (ss : list segment) : list segment :=
  match ss with
  | [] => []
  | Scan header scan :: ss => absorb header scan (settle ss)
  | s :: ss => s :: settle ss
  end.

(** The orientation an EXIF payload has, 0 if none. *)
Definition exif_value (payload : bytes) : Z := match exifOrientation payload with Ok v => v | _ => 0 end.

Fixpoint orientation_of (o : Z) (ss : list segment) : Z :=
  match ss with
  | [] => o
  | Segment m body :: ss => orientation_of (if (m =? 225) && (o =? 0) then exif_value (drop 2 body) else o) ss
  | _ :: ss => orientation_of o ss
  end.

(** The segment that keeps an orientation; 1 is the default. *)
Definition orientation_kept (o : Z) : list segment :=
  if (o <? 2) || (8 <? o) then [] else [Segment 225 (drop 2 (orientation_segment o))].

(** ** Pictures *)

Inductive picture :=
  | PngPicture (chunks : list bytes)
  | GifPicture (screen : bytes) (blocks : list bytes)
  | WebpPicture (chunks : list bytes)
  | JpegPicture (segs : list segment) (complete : bool).

Definition read (k : image_kind) (d : bytes) : option picture :=
  match k with
  | PNG => PngPicture <$> blocks (F := png_format) (drop 8 d)
  | GIF =>
      let h := 13 + table_size (nth 10 d 0) in
      if (blen d <? 13) || (blen d <? h) then None
      else GifPicture (take (Z.to_nat h) d) <$> blocks (F := gif_format) (drop (Z.to_nat h) d)
  | WebP =>
      let total := le (take 4 (drop 4 d)) + 8 in
      if (total <? 12) || (blen d <? total) then None
      else WebpPicture <$> blocks (F := webp_format) (take (Z.to_nat (total - 12)) (drop 12 d))
  | JPEG => '(ss, e) ← segments false (S (length d)) (drop 2 d); Some (JpegPicture ss e)
  end.

(** [d] is no JPEG, but it reads as [p] when the marker 00 is let pass. *)
Definition null_marked (d : bytes) (p : picture) : Prop :=
  ∃ ss e body, segments true (S (length d)) (drop 2 d) = Some (ss, e) ∧ Segment 0 body ∈ ss ∧ p = JpegPicture ss e.

Definition clean (p : picture) : picture :=
  match p with
  | PngPicture cs => PngPicture (omap png_edit cs)
  | GifPicture s bs => GifPicture s (omap gif_edit bs)
  | WebpPicture cs => WebpPicture (omap webp_edit cs)
  | JpegPicture ss e => JpegPicture (orientation_kept (orientation_of 0 ss) ++ filter (λ s, jpeg_meta s = false) ss) e
  end.

Definition render (p : picture) : bytes :=
  match p with
  | PngPicture cs => png_sig ++ concat cs
  | GifPicture s bs => s ++ concat bs
  | WebpPicture cs =>
      let body := concat cs in
      codes "RIFF" ++ put_le 4 ((blen body + 4) mod 2 ^ 32) ++ codes "WEBP" ++ body
  | JpegPicture ss e => [255; 216] ++ concat (write_segment <$> ss) ++ (if e then [255; 217] else [])
  end.

(** A picture as it is read after segments were taken out of it. *)
Definition settled (p : picture) : picture :=
  match p with JpegPicture ss e => JpegPicture (settle ss) e | _ => p end.

(** The files that are refused whatever they hold: TIFF, and the containers
    whose brands name an image. *)
Definition container (d : bytes) : Prop :=
  (∃ magic, magic ∈ [[73; 73; 42; 0]; [77; 77; 0; 42]; [73; 73; 43; 0]; [77; 77; 0; 43]] ∧ take 4 d = magic) ∨
  (12 ≤ blen d ∧ take 4 (drop 4 d) = codes "ftyp" ∧
   (take 4 (drop 8 d) ∈ imageBrands ∨
    ∃ j : nat, let box := be (take 4 d) in
      16 + 4 * Z.of_nat j + 4 ≤ (if (16 <=? box) && (box <? blen d) then box else blen d) ∧
      take 4 (drop (16 + 4 * j) d) ∈ imageBrands)).
