(* ===== verification/ImgThms.v ===== *)
(** * Uploaded images lose their metadata and nothing else

    [stripImageMetadata] never reads out of range and computes what [ImgFormats]
    says ([strip_exact]); what it stores reads back as the picture without its
    metadata ([strip_clean]). *)

From Stdlib Require Import ZArith Lia Bool.
From stdpp Require Import base tactics list strings.
From S2P Require Import Prelude GoStrings ImgStrip ImgBlocks ImgFormats.

#[local] Open Scope Z_scope.

(** A [[]byte]. *)
Definition is_bytes (d : bytes) : Prop := Forall (λ b, 0 ≤ b < 256) d.

(** ** Reading at an index is reading the rest of the file *)

Lemma blen_nonneg d : 0 ≤ blen d.
Proof. unfold blen. lia. Qed.

Lemma blen_drop i d : 0 ≤ i ≤ blen d → blen (drop (Z.to_nat i) d) = blen d - i.
Proof. unfold blen. rewrite length_drop. lia. Qed.

Lemma drop_from i n (d : bytes) : 0 ≤ i → 0 ≤ n → drop (Z.to_nat (i + n)) d = drop (Z.to_nat n) (drop (Z.to_nat i) d).
Proof. intros. rewrite drop_drop. f_equal. lia. Qed.

(** [data[i+a:i+b]], of the rest from [i] on. *)
Lemma slice_rest d i a b : 0 ≤ i → 0 ≤ a ≤ b → i + b ≤ blen d →
  slice d (i + a) (i + b) = Ok (take (Z.to_nat (b - a)) (drop (Z.to_nat a) (drop (Z.to_nat i) d))).
Proof.
  intros. unfold slice. rewrite !(proj2 (Z.leb_le _ _)) by lia. cbn. rewrite drop_from by lia. do 3 f_equal. lia.
Qed.

Lemma slice_here d i b : 0 ≤ i → 0 ≤ b → i + b ≤ blen d →
  slice d i (i + b) = Ok (take (Z.to_nat b) (drop (Z.to_nat i) d)).
Proof.
  intros. replace (slice d i (i + b)) with (slice d (i + 0) (i + b)) by (f_equal; lia).
  rewrite slice_rest by lia. by rewrite Z.sub_0_r.
Qed.

Lemma byte_rest d i a x : 0 ≤ i → drop (Z.to_nat i) d !! a = Some x → byte_at d (i + Z.of_nat a) = Ok x.
Proof.
  intros Hi Hx. unfold byte_at. destruct (Z.ltb_spec (i + Z.of_nat a) 0); [lia|].
  rewrite lookup_drop in Hx. replace (Z.to_nat (i + Z.of_nat a)) with (Z.to_nat i + a)%nat by lia. by rewrite Hx.
Qed.

Lemma byte_here d i x l : 0 ≤ i → drop (Z.to_nat i) d = x :: l → byte_at d i = Ok x.
Proof. intros Hi Hd. rewrite <- (Z.add_0_r i). apply (byte_rest d i 0); [done|]. by rewrite Hd. Qed.

Lemma be_here d i n : 0 ≤ i → 0 ≤ n → i + n ≤ blen d → be_at d i n = Ok (be (take (Z.to_nat n) (drop (Z.to_nat i) d))).
Proof. intros. unfold be_at. by rewrite slice_here. Qed.

Lemma le_rest d i a n : 0 ≤ i → 0 ≤ a → 0 ≤ n → i + a + n ≤ blen d →
  le_at d (i + a) n = Ok (le (take (Z.to_nat n) (drop (Z.to_nat a) (drop (Z.to_nat i) d)))).
Proof.
  intros. unfold le_at. rewrite <- Z.add_assoc, slice_rest by lia. cbn. by replace (a + n - a) with n by lia.
Qed.

Lemma starts_blen p d : starts p d = true → blen p ≤ blen d.
Proof. intros Hs%bool_decide_eq_true%(f_equal length). rewrite length_take in Hs. unfold blen. lia. Qed.

(** Prefixes of a block, whatever follows it. *)
Lemma take_local {A} (l r : list A) n m : (m ≤ n ≤ length l)%nat → take m (take n l ++ r) = take m l.
Proof. intros. rewrite take_app_le by (rewrite length_take; lia). rewrite take_take. f_equal. lia. Qed.

Lemma mid_local {A} (l r : list A) n m k : (k + m ≤ n ≤ length l)%nat → take m (drop k (take n l ++ r)) = take m (drop k l).
Proof.
  intros. rewrite drop_app_le by (rewrite length_take; lia). rewrite skipn_firstn_comm, take_app_le.
  - rewrite take_take. f_equal. lia.
  - rewrite length_take, length_drop. lia.
Qed.

Lemma nth_local (l r : bytes) n m x : (m < n ≤ length l)%nat → nth m (take n l ++ r) x = nth m l x.
Proof.
  intros. rewrite app_nth1 by (rewrite length_take; lia). rewrite <- (take_drop n l) at 2.
  by rewrite app_nth1 by (rewrite length_take; lia).
Qed.

Lemma drop_local {A} (l r : list A) h k : (h + k ≤ length l)%nat → drop h (take (h + k) l ++ r) = take k (drop h l) ++ r.
Proof. intros. rewrite drop_app_le by (rewrite length_take; lia). by rewrite skipn_firstn_comm, Nat.add_comm, Nat.add_sub. Qed.

Lemma mid_take {A} (l : list A) n m k : (k + m ≤ n ≤ length l)%nat → take m (drop k (take n l)) = take m (drop k l).
Proof. intros. rewrite <- (mid_local l [] n m k) by done. by rewrite app_nil_r. Qed.

Ltac bools := rewrite ?orb_true_iff, ?orb_false_iff, ?andb_true_iff, ?andb_false_iff, ?Z.ltb_lt, ?Z.ltb_ge, ?Z.leb_le, ?Z.leb_gt in *.

(** A check that does not fail. *)
Ltac guard_false := match goal with |- context [if ?c then _ else _] => let H := fresh in destruct c eqn:H; [exfalso; bools; lia|clear H] end.

(** ** PNG *)

#[export] Instance png_laws : BlockLaws png_format.
Proof.
  split; cbn; intros l n.
  - intros H. destruct (_ || _) eqn:E in H; simplify_eq. unfold blen in *. lia.
  - intros r H. destruct (_ || _) eqn:E in H; simplify_eq. unfold blen in *.
    rewrite take_local by lia. rewrite length_app, length_take, Nat.min_l by lia. by guard_false.
Qed.

#[export] Instance png_edits : Edits (F := png_format) png_edit.
Proof.
  unfold png_edit. split.
  - intros b b' Hb He. case_bool_decide; by simplify_eq.
  - intros b He. case_bool_decide as Hin; [|done]. cbn. apply bool_decide_eq_false. intros Heq.
    rewrite Heq in Hin. revert Hin. apply (bool_decide_eq_false_1 (codes "IEND" ∈ png_text)). done.
  - intros b b' Hb He. case_bool_decide; simplify_eq. by rewrite bool_decide_eq_false_2.
Qed.

Lemma png_loop_blocks f d i out : 0 ≤ i ≤ blen d → blen d - i < Z.of_nat f →
  png_loop f d i out =
    match read_blocks (F := png_format) f (drop (Z.to_nat i) d) with
    | Some bs => Ok (out ++ concat (omap png_edit bs))
    | None => Bad
    end.
Proof.
  revert i out. induction f as [|f IH]; intros i out Hi Hf; [lia|]. cbn [png_loop].
  set (l := drop (Z.to_nat i) d). assert (Hl : blen l = blen d - i) by (by apply blen_drop).
  set (n := be (take 4 l)).
  assert (Hnext : bf_next (BlockFormat := png_format) l =
    if (blen l <? 8) || (n <? 0) || (blen l <? 12 + n) then None else Some (Z.to_nat (12 + n))) by done.
  replace (blen d <? i + 8) with (blen l <? 8) by lia.
  destruct (Z.ltb_spec (blen l) 8) as [Hs|Hs]; [by rewrite read_blocks_bad|]. cbn [orb] in Hnext.
  rewrite be_here by lia. fold l. change (Z.to_nat 4) with 4%nat. cbn [obind]. fold n.
  rewrite slice_rest by lia. fold l. change (Z.to_nat (8 - 4)) with 4%nat. change (Z.to_nat 4) with 4%nat. cbn [obind].
  fold (png_type l). destruct (Z.ltb_spec n 0) as [Hn|Hn]; [by rewrite read_blocks_bad|]. cbn [orb] in Hnext |- *.
  replace (blen d <? i + 12 + n) with (blen l <? 12 + n) by lia.
  destruct (Z.ltb_spec (blen l) (12 + n)) as [Hlen|Hlen]; [by rewrite read_blocks_bad|].
  rewrite (read_blocks_next _ _ _ Hnext). set (b := take (Z.to_nat (12 + n)) l).
  assert (Htyp : png_type b = png_type l) by (apply mid_take; unfold blen in *; lia).
  rewrite <- Z.add_assoc, (slice_here d i (12 + n)) by lia. fold l b. cbn [obind].
  set (out' := out ++ default [] (png_edit b)).
  assert (Hout : ∀ bs, out ++ concat (omap png_edit (b :: bs)) = out' ++ concat (omap png_edit bs)).
  { intros bs. unfold out'. rewrite <- app_assoc. cbn [omap list_omap]. by destruct (png_edit b). }
  change pngMetaChunks with png_text. replace (if bool_decide (png_type l ∈ png_text) then Ok out else Ok (out ++ b)) with (Ok out').
  2:{ unfold out', png_edit. rewrite Htyp. case_bool_decide; [by rewrite app_nil_r|done]. }
  cbn [obind bf_last png_format]. rewrite Htyp. destruct (bool_decide (png_type l = codes "IEND")).
  - rewrite Hout. cbn. by rewrite app_nil_r.
  - rewrite IH, drop_from by lia. fold l. destruct (read_blocks f _) as [bs|]; [|done]. cbn [mbind option_bind]. by rewrite Hout.
Qed.

Lemma stripPNG_read d : starts png_sig d = true →
  stripPNG d = match read PNG d with Some p => Ok (render (clean p)) | None => Bad end.
Proof.
  intros Hs. unfold stripPNG. rewrite Hs. cbn [negb].
  assert (Hlen : 8 ≤ blen d) by (by apply (starts_blen png_sig)).
  change (blen png_sig) with 8. rewrite png_loop_blocks by (unfold blen in *; lia).
  change (Z.to_nat 8) with 8%nat. rewrite read_blocks_fuel by (rewrite length_drop; unfold blen in *; lia).
  cbn [read]. by destruct (blocks _).
Qed.

(** ** GIF *)

Lemma gif_sub_size s l k : gif_sub s l = Some k → (0 < k ≤ length l)%nat.
Proof.
  revert s k. induction l as [|n l IH]; intros s k H; [by destruct s|]. destruct s as [|s]; cbn in H.
  - destruct (n =? 0); simplify_eq; [cbn; lia|]. destruct (gif_sub _ l) as [k'|] eqn:E; simplify_eq/=. apply IH in E. lia.
  - destruct (gif_sub s l) as [k'|] eqn:E; simplify_eq/=. apply IH in E. lia.
Qed.

Lemma gif_sub_local s l k r : gif_sub s l = Some k → gif_sub s (take k l ++ r) = Some k.
Proof.
  revert s k. induction l as [|n l IH]; intros s k H; [by destruct s|]. destruct s as [|s]; cbn in H.
  - destruct (n =? 0) eqn:En; simplify_eq; [by cbn; rewrite En|].
    destruct (gif_sub _ l) as [k'|] eqn:E; simplify_eq/=. by rewrite En, (IH _ _ E).
  - destruct (gif_sub s l) as [k'|] eqn:E; simplify_eq/=. by rewrite (IH _ _ E).
Qed.

Lemma gif_sub_skip s l : gif_sub s l = Nat.add s <$> gif_sub 0 (drop s l).
Proof.
  revert s. induction l as [|n l IH]; intros [|s]; cbn [gif_sub drop]; [done|done| |].
  - by destruct (n =? 0), (gif_sub (Z.to_nat n) l).
  - rewrite IH. by destruct (gif_sub 0 (drop s l)).
Qed.

Lemma gif_sub_read f d i : is_bytes d → 0 ≤ i ≤ blen d → blen d - i < Z.of_nat f →
  gif_sub_loop f d i = match gif_sub 0 (drop (Z.to_nat i) d) with Some k => Ok (i + Z.of_nat k) | None => Bad end.
Proof.
  intros Hd. revert i. induction f as [|f IH]; intros i Hi Hf; [lia|]. cbn [gif_sub_loop].
  pose proof (blen_drop i d Hi) as Hl. destruct (drop (Z.to_nat i) d) as [|n l] eqn:El.
  { replace (i <? blen d) with false by (unfold blen in *; cbn in Hl; lia). done. }
  replace (i <? blen d) with true by (unfold blen in *; cbn in Hl; lia). rewrite (byte_here d i n l) by (done || lia). cbn [obind gif_sub].
  destruct (Z.eqb_spec n 0) as [Hn|Hn]; [done|].
  assert (Hn' : 0 ≤ n < 256).
  { apply (Forall_drop _ (Z.to_nat i)) in Hd. rewrite El in Hd. by inversion Hd. }
  assert (Hl' : drop (Z.to_nat (i + 1)) d = l) by (rewrite drop_from, El by lia; done).
  rewrite gif_sub_skip. assert (Hlen : blen l = blen d - i - 1) by (unfold blen in *; cbn in Hl; lia).
  destruct (Z.ltb_spec (blen d) (i + 1 + n)) as [Ho|Ho].
  - rewrite drop_ge by (unfold blen in *; lia). done.
  - rewrite IH, drop_from, Hl' by lia. destruct (gif_sub 0 (drop (Z.to_nat n) l)) as [k|]; [|done]. cbn. f_equal. lia.
Qed.

Definition gif_next : bytes → option nat := bf_next (BlockFormat := gif_format).

Lemma table_size_nonneg b : 0 ≤ table_size b.
Proof. unfold table_size. destruct (_ =? 0); [done|]. pose proof (Z.pow_nonneg 2 (Z.land b 7 + 1)). lia. Qed.

Lemma gif_head_min b : (11 ≤ Z.to_nat (gif_head b))%nat.
Proof. unfold gif_head. pose proof (table_size_nonneg b). lia. Qed.

#[export] Instance gif_laws : BlockLaws gif_format.
Proof.
  split; intros l n; cbn [bf_next gif_format].
  - intros H. destruct l as [|tag rest]; [done|]. destruct (tag =? 59); [simplify_eq; cbn; lia|].
    destruct (tag =? 44).
    + destruct (_ <? 10); [done|]. destruct (gif_sub 0 _) as [k|] eqn:E; simplify_eq/=.
      apply gif_sub_size in E. rewrite length_drop in E. cbn in *. lia.
    + destruct (tag =? 33); [|done]. destruct rest as [|label bs]; [done|].
      destruct (gif_sub 0 bs) as [k|] eqn:E; simplify_eq/=. apply gif_sub_size in E. lia.
  - intros r H. destruct l as [|tag rest]; [done|]. destruct (tag =? 59) eqn:E59; [by simplify_eq/=; rewrite E59|].
    destruct (tag =? 44) eqn:E44.
    + destruct (Z.ltb_spec (blen (tag :: rest)) 10) as [|Hten]; [done|]. set (l := tag :: rest) in *. set (h := Z.to_nat (gif_head (nth 9 l 0))) in *.
      destruct (gif_sub 0 (drop h l)) as [k|] eqn:E; simplify_eq/=. pose proof (gif_sub_size _ _ _ E) as Hk. rewrite length_drop in Hk.
      assert (Hh : (11 ≤ h)%nat) by (apply gif_head_min).
      assert (Hlen : (h + k ≤ length l)%nat) by lia.
      pose proof (nth_local l r (h + k) 9 0 ltac:(lia)) as Hn. pose proof (drop_local l r h k Hlen) as Hd.
      destruct (take (h + k) l ++ r) as [|tag' rest'] eqn:Ex.
      { apply (f_equal length) in Ex. rewrite length_app, length_take in Ex. cbn in Ex. lia. }
      assert (tag' = tag) as ->.
      { pose proof (nth_local l r (h + k) 0 0 ltac:(lia)) as H0. rewrite Ex in H0. by cbn in H0. }
      rewrite E59, E44, Hn. change (Z.to_nat (gif_head (nth 9 l 0))) with h.
      rewrite Hd, (gif_sub_local _ _ _ _ E).
      assert (Hten' : 10 ≤ blen (tag :: rest')).
      { rewrite <- Ex. unfold blen. rewrite length_app, length_take. lia. }
      by destruct (Z.ltb_spec (blen (tag :: rest')) 10); [lia|].
    + destruct (tag =? 33) eqn:E33; [|done]. destruct rest as [|label bs]; [done|].
      destruct (gif_sub 0 bs) as [k|] eqn:E; simplify_eq/=. by rewrite E59, E44, E33, (gif_sub_local _ _ _ _ E).
Qed.

Lemma gif_edit_some b b' : gif_edit b = Some b' → b' = b.
Proof. unfold gif_edit. destruct b as [|? [|??]]; [by intros [= <-]..|]. destruct (_ && _); by intros [= <-]. Qed.

#[export] Instance gif_edits : Edits (F := gif_format) gif_edit.
Proof.
  split.
  - intros b b' Hb ->%gif_edit_some. done.
  - intros b He. cbn. destruct b as [|tag [|label bs]]; [done..|]. cbn in He. case_bool_decide; simplify_eq/=. done.
  - intros b b' Hb He. by pose proof (gif_edit_some _ _ He) as ->.
Qed.

Lemma gif_drops_meta d label j k : 0 ≤ j ≤ blen d → gif_sub 0 (drop (Z.to_nat j) d) = Some k →
  gif_drops d label j = Ok (gif_meta label (take k (drop (Z.to_nat j) d))).
Proof.
  intros Hj Hk. pose proof (blen_drop j d Hj) as Hl. pose proof (gif_sub_size _ _ _ Hk) as Hks.
  unfold gif_drops, gif_meta. destruct (Z.eqb_spec label 255) as [->|].
  2:{ cbn. rewrite orb_false_r. done. }
  destruct (drop (Z.to_nat j) d) as [|n bs] eqn:Ed; [done|]. rewrite (proj2 (Z.ltb_lt j _)) by (unfold blen in *; cbn in Hl; lia).
  rewrite (byte_here d j n bs) by (done || lia). cbn [obind]. destruct k as [|k]; [lia|]. cbn [take head]. change (255 =? 254) with false.
  destruct (Z.eqb_spec n 11) as [->|Hn]; cbn [andb orb].
  - change (gif_sub 0 (11 :: bs)) with (S <$> gif_sub 11 bs) in Hk. rewrite gif_sub_skip in Hk. destruct (gif_sub 0 (drop 11 bs)) as [k'|] eqn:E; [|done]. cbn in Hk. simplify_eq.
    apply gif_sub_size in E. rewrite length_drop in E.
    replace (j + 12 <=? blen d) with true by (symmetry; apply Z.leb_le; unfold blen in *; cbn in Hl; lia).
    rewrite slice_rest by (unfold blen in *; cbn in Hl; lia). rewrite Ed. cbn [obind].
    change (Z.to_nat (12 - 1)) with 11%nat. change (Z.to_nat 1) with 1%nat. cbn [skipn].
    rewrite !drop_0, take_take.
    by rewrite Nat.min_l, (bool_decide_eq_true_2 (Some 11 = Some 11)) by (done || lia).
  - rewrite bool_decide_eq_false_2 by (by intros [= ->]). done.
Qed.

Lemma gif_image_read d i rest : is_bytes d → 0 ≤ i ≤ blen d → drop (Z.to_nat i) d = 44 :: rest →
  gif_image d i = match gif_next (drop (Z.to_nat i) d) with Some n => Ok (i + Z.of_nat n) | None => Bad end.
Proof.
  intros Hd Hi El. pose proof (blen_drop i d Hi) as Hl. set (l := drop (Z.to_nat i) d) in *. unfold gif_image.
  assert (Hnext : gif_next l = if blen l <? 10 then None
    else let h := Z.to_nat (gif_head (nth 9 l 0)) in Nat.add h <$> gif_sub 0 (drop h l)) by (by rewrite El).
  replace (blen d <? i + 10) with (blen l <? 10) by lia. destruct (Z.ltb_spec (blen l) 10) as [Hs|Hs]; [by rewrite Hnext|].
  change (i + 9) with (i + Z.of_nat 9). rewrite (byte_rest d i 9 (nth 9 l 0)).
  2: lia.
  2:{ fold l. destruct (nth_lookup_or_length l 9 0) as [?|Hn]; [done|]. unfold blen in *. lia. }
  cbn [obind]. set (t := nth 9 l 0) in *. pose proof (table_size_nonneg t) as Ht.
  assert (Hh : i + 10 + table_size t + 1 = i + gif_head t) by (unfold gif_head; lia).
  rewrite Hnext. cbv zeta. destruct (Z.leb_spec (blen d) (i + 10 + table_size t)) as [Ho|Ho].
  - rewrite drop_ge; [done|]. unfold gif_head, blen in *. lia.
  - unfold gifSubBlocksEnd. rewrite gif_sub_read; [|done|unfold blen in *; lia..].
    rewrite Hh, drop_from by (unfold gif_head; lia). fold l. pose proof (gif_head_min t).
    destruct (gif_sub 0 _) as [k|]; [|done]. cbn. f_equal. lia.
Qed.

Lemma gif_loop_blocks f d i out : is_bytes d → 0 ≤ i ≤ blen d → blen d - i < Z.of_nat f →
  gif_loop f d i out =
    match read_blocks (F := gif_format) f (drop (Z.to_nat i) d) with
    | Some bs => Ok (out ++ concat (omap gif_edit bs))
    | None => Bad
    end.
Proof.
  intros Hd. revert i out. induction f as [|f IH]; intros i out Hi Hf; [lia|]. cbn [gif_loop].
  pose proof (blen_drop i d Hi) as Hl. set (l := drop (Z.to_nat i) d) in *.
  destruct l as [|tag rest] eqn:El.
  { replace (blen d <=? i) with true by (unfold blen in *; cbn in Hl; lia). done. }
  replace (blen d <=? i) with false by (unfold blen in *; cbn in Hl; lia).
  rewrite (byte_here d i tag rest) by (done || lia). cbn [obind].
  (* What a block does to the output, and the rest. *)
  assert (Hgo : ∀ n out', bf_next (BlockFormat := gif_format) (tag :: rest) = Some n → tag ≠ 59 →
    out' = out ++ default [] (gif_edit (take n (tag :: rest))) →
    gif_loop f d (i + Z.of_nat n) out' =
      match read_blocks (F := gif_format) (S f) (tag :: rest) with
      | Some bs => Ok (out ++ concat (omap gif_edit bs))
      | None => Bad
      end).
  { intros n out' Hn Ht ->. rewrite (read_blocks_next _ _ _ Hn). pose proof (bf_size _ _ Hn) as Hs.
    cbn [bf_last gif_format]. rewrite (bool_decide_eq_false_2 (head _ = _)); [|destruct n; [lia|by intros [= ->]]].
    unfold blen in *. rewrite IH, drop_from, Nat2Z.id by lia. fold l. rewrite El.
    destruct (read_blocks f _) as [bs|]; [|done]. cbn [mbind option_bind omap list_omap]. rewrite <- app_assoc.
    by destruct (gif_edit _). }
  assert (Hslice : ∀ n, (n ≤ length (tag :: rest))%nat → slice d i (i + Z.of_nat n) = Ok (take n (tag :: rest))).
  { intros n Hn. rewrite slice_here, Nat2Z.id by (unfold blen in *; lia). fold l. by rewrite El. }
  destruct (Z.eqb_spec tag 59) as [->|H59]; [done|]. destruct (Z.eqb_spec tag 44) as [->|H44].
  - rewrite (gif_image_read d i rest) by done. fold l. rewrite El. destruct (gif_next (44 :: rest)) as [n|] eqn:En.
    + cbn [obind]. rewrite Hslice by apply (bf_size _ _ En). cbn [obind]. apply Hgo; [done|done|].
      by destruct n as [|[|n]], rest.
    + by rewrite read_blocks_bad.
  - destruct (Z.eqb_spec tag 33) as [->|H33].
    + destruct rest as [|label bs].
      { replace (blen d <? i + 2) with true by (unfold blen in *; cbn in Hl; lia). by rewrite read_blocks_bad. }
      replace (blen d <? i + 2) with false by (unfold blen in *; cbn in Hl; lia).
      change (i + 1) with (i + Z.of_nat 1). rewrite (byte_rest d i 1 label) by (lia || by fold l; rewrite El). cbn [obind].
      assert (Hbs : drop (Z.to_nat (i + 2)) d = bs) by (rewrite drop_from by lia; fold l; by rewrite El).
      assert (Hi2 : 0 ≤ i + 2 ≤ blen d) by (unfold blen in *; cbn in Hl; lia).
      unfold gifSubBlocksEnd. rewrite gif_sub_read, Hbs by (done || unfold blen in *; lia).
      assert (Hnext : bf_next (BlockFormat := gif_format) (33 :: label :: bs) = Nat.add 2 <$> gif_sub 0 bs) by done.
      destruct (gif_sub 0 bs) as [k|] eqn:Ek; [|by rewrite read_blocks_bad].
      cbn [obind]. rewrite (gif_drops_meta d label (i + 2) k), Hbs by (done || by rewrite Hbs). cbn [obind].
      replace (i + 2 + Z.of_nat k) with (i + Z.of_nat (2 + k)) by lia. rewrite Hslice by apply (bf_size _ _ Hnext). cbn [obind].
      assert (Hedit : gif_edit (take (2 + k) (33 :: label :: bs)) =
        if gif_meta label (take k bs) then None else Some (take (2 + k) (33 :: label :: bs))) by done.
      destruct (gif_meta label (take k bs)); cbn [obind]; (apply Hgo; [done|done|]); rewrite Hedit; [by rewrite app_nil_r|done].
    + rewrite read_blocks_bad; [done| |done]. cbn.
      by rewrite (proj2 (Z.eqb_neq _ _) H59), (proj2 (Z.eqb_neq _ _) H44), (proj2 (Z.eqb_neq _ _) H33).
Qed.

Lemma stripGIF_read d : is_bytes d →
  stripGIF d = match read GIF d with Some p => Ok (render (clean p)) | None => Bad end.
Proof.
  intros Hd. unfold stripGIF. cbn [read]. destruct (Z.ltb_spec (blen d) 13) as [Hs|Hs]; [done|]. cbn [orb].
  change 10 with (0 + Z.of_nat 10) at 1. rewrite (byte_rest d 0 10 (nth 10 d 0)).
  2: lia.
  2:{ rewrite drop_0. destruct (nth_lookup_or_length d 10 0) as [?|Hn]; [done|]. unfold blen in *. lia. }
  cbn [obind]. set (h := 13 + table_size (nth 10 d 0)). assert (Hh : 13 ≤ h) by (unfold h; pose proof (table_size_nonneg (nth 10 d 0)); lia).
  destruct (Z.ltb_spec (blen d) h) as [|Ho]; [done|].
  change (slice d 0 h) with (slice d 0 (0 + h)). rewrite slice_here by lia. cbn [obind]. rewrite drop_0, gif_loop_blocks by (done || unfold blen in *; lia).
  rewrite read_blocks_fuel by (rewrite length_drop; lia). by destruct (blocks _).
Qed.

(** ** WebP *)

Definition webp_size (l : bytes) : Z := le (take 4 (drop 4 l)).

Lemma webp_header l n r : (8 ≤ n ≤ length l)%nat →
  webp_size (take n l ++ r) = webp_size l ∧ webp_type (take n l ++ r) = webp_type l.
Proof. intros. unfold webp_size, webp_type. by rewrite mid_local, take_local by lia. Qed.

#[export] Instance webp_laws : BlockLaws webp_format.
Proof.
  assert (Hm : ∀ n, 0 ≤ n mod 2 < 2) by (intros; by apply Z.mod_pos_bound).
  split; intros l n; cbn [bf_next webp_format]; fold (webp_size l); specialize (Hm (webp_size l)).
  - intros H. destruct (_ || _) eqn:E in H; [done|]. injection H as <-. bools. unfold blen in *. lia.
  - intros r H. destruct (_ || _) eqn:E in H; [done|]. injection H as <-. rewrite !orb_false_iff, !Z.ltb_ge in E.
    destruct E as [[[E1 E2] E3] E4]. unfold blen in *.
    destruct (webp_header l (Z.to_nat (8 + webp_size l + webp_size l mod 2)) r) as [H1 H2]; [lia|].
    fold (webp_size (take (Z.to_nat (8 + webp_size l + webp_size l mod 2)) l ++ r)). rewrite H1, H2, E4, orb_false_r.
    rewrite length_app, length_take, Nat.min_l by lia. by guard_false.
Qed.

Lemma clear_flags_blocks b : length (clear_flags b) = length b ∧ take 8 (clear_flags b) = take 8 b.
Proof.
  unfold clear_flags. rewrite length_alter. split; [done|]. apply list_eq. intros i.
  destruct (decide (i < 8)%nat); [|by rewrite !lookup_take_ge by lia]. rewrite !lookup_take_lt by lia.
  by rewrite list_lookup_alter_ne by lia.
Qed.

Lemma clear_flags_twice b : clear_flags (clear_flags b) = clear_flags b.
Proof.
  apply list_eq. intros i. unfold clear_flags. destruct (decide (i = 8%nat)) as [->|]; [|by rewrite !list_lookup_alter_ne by lia].
  rewrite !list_lookup_alter_eq. destruct (b !! 8%nat) as [x|]; [|done]. cbn. f_equal. apply Z.bits_inj'. intros k Hk.
  rewrite !Z.ldiff_spec. by destruct (Z.testbit x k), (Z.testbit 44 k).
Qed.

(** A chunk's length is in its first eight bytes. *)
Lemma webp_head l l' : length l = length l' → take 8 l = take 8 l' → webp_size l = webp_size l' ∧ webp_type l = webp_type l'.
Proof.
  intros Hl Ht. destruct (decide (length l < 8)%nat).
  { rewrite !take_ge in Ht by lia. by subst. }
  unfold webp_size, webp_type. rewrite <- (mid_take l 8 4 4), <- (mid_take l' 8 4 4), Ht by lia. split; [done|].
  change 4%nat with (4 `min` 8)%nat. by rewrite <- !take_take, Ht.
Qed.

Lemma webp_next_head l l' : length l = length l' → take 8 l = take 8 l' →
  bf_next (BlockFormat := webp_format) l = bf_next (BlockFormat := webp_format) l'.
Proof.
  intros Hl Ht. destruct (webp_head l l' Hl Ht) as [H1 H2]. cbn [bf_next webp_format]. fold (webp_size l) (webp_size l').
  unfold blen. by rewrite H1, H2, Hl.
Qed.

Lemma webp_block_len b : is_block (F := webp_format) b → (8 ≤ length b)%nat.
Proof.
  intros [_ Hb]. specialize (Hb []). rewrite app_nil_r in Hb. cbn [bf_next webp_format] in Hb.
  destruct (_ || _) eqn:E in Hb; [done|]. bools. unfold blen in *. lia.
Qed.

#[export] Instance webp_edits : Edits (F := webp_format) webp_edit.
Proof.
  unfold webp_edit. split; [|done|].
  - intros b b' Hb He. destruct (bool_decide (_ ∈ webp_about)); [done|]. destruct (bool_decide _); [|by simplify_eq].
    simplify_eq. destruct (clear_flags_blocks b) as [Hl Ht]. pose proof (webp_block_len b Hb) as H8. split; [|done].
    split; [rewrite Hl; apply Hb|]. intros r. rewrite Hl, <- (proj2 Hb r). apply webp_next_head.
    + by rewrite !length_app, Hl.
    + by rewrite !take_app_le, Ht by lia.
  - intros b b' Hb He. destruct (bool_decide (webp_type b ∈ webp_about)) eqn:E; [done|]. destruct (bool_decide (webp_type b = _)) eqn:E'.
    + simplify_eq. destruct (clear_flags_blocks b) as [Hl Ht]. destruct (webp_head _ _ Hl Ht) as [_ ->].
      by rewrite E, E', clear_flags_twice.
    + simplify_eq. by rewrite E, E'.
Qed.

(** The file from [i] to [total]. *)
Definition window (d : bytes) (i total : Z) : bytes := take (Z.to_nat (total - i)) (drop (Z.to_nat i) d).

Lemma window_blen d i total : 0 ≤ i ≤ total → total ≤ blen d → blen (window d i total) = total - i.
Proof. intros. unfold window, blen in *. rewrite length_take, length_drop. lia. Qed.

Lemma window_slice d i total a n : 0 ≤ i ≤ total → total ≤ blen d → (a + n ≤ length (window d i total))%nat →
  slice d (i + Z.of_nat a) (i + Z.of_nat (a + n)) = Ok (take n (drop a (window d i total))).
Proof.
  intros Hi Ht Hn. pose proof (window_blen d i total Hi Ht). unfold blen in *. unfold window. rewrite slice_rest by (unfold blen; lia).
  rewrite mid_take by (rewrite length_drop; lia). rewrite Nat2Z.id. do 3 f_equal. lia.
Qed.

Lemma window_drop d i total k : 0 ≤ i → 0 ≤ k → i + k ≤ total →
  window d (i + k) total = drop (Z.to_nat k) (window d i total).
Proof. intros. unfold window. rewrite drop_from, skipn_firstn_comm by lia. f_equal. lia. Qed.

(** The three reads at a chunk. *)
Lemma webp_reads d i total (n := webp_size (window d i total)) (k := 8 + n + n mod 2) :
  0 ≤ i ≤ total → total ≤ blen d → 8 ≤ total - i →
  le_at d (i + 4) 4 = Ok n ∧
  (0 ≤ n → k ≤ total - i →
   slice d i (i + 4) = Ok (webp_type (window d i total)) ∧
   slice d i (i + 8 + n + n mod 2) = Ok (take (Z.to_nat k) (window d i total))).
Proof.
  intros Hi Ht H8. pose proof (window_blen d i total Hi Ht) as Hl. pose proof (window_slice d i total) as Hw. unfold blen in Hl.
  pose proof (Z.mod_pos_bound n 2 ltac:(lia)). split.
  - unfold le_at. replace (i + 4 + 4) with (i + Z.of_nat (4 + 4)) by lia. change (i + 4) with (i + Z.of_nat 4).
    by rewrite (Hw 4%nat 4%nat) by (done || lia).
  - intros Hn Hk. split.
    + replace (slice d i (i + 4)) with (slice d (i + Z.of_nat 0) (i + Z.of_nat (0 + 4))) by (f_equal; lia).
      by rewrite Hw by (done || lia).
    + replace (slice d i _) with (slice d (i + Z.of_nat 0) (i + Z.of_nat (0 + Z.to_nat k))) by (f_equal; lia).
      by rewrite Hw by (done || lia).
Qed.

Lemma webp_loop_blocks f d total i out : 0 ≤ i ≤ total → total ≤ blen d → total - i < Z.of_nat f →
  webp_loop f d total i out =
    match read_blocks (F := webp_format) f (window d i total) with
    | Some bs => Ok (out ++ concat (omap webp_edit bs))
    | None => Bad
    end.
Proof.
  intros Hi Htot. revert i out Hi. induction f as [|f IH]; intros i out Hi Hf; [lia|]. cbn [webp_loop].
  set (l := window d i total). assert (Hl : blen l = total - i) by (by apply window_blen).
  destruct (Z.leb_spec total i) as [Hend|Hend].
  { destruct l as [|x l'] eqn:El; [by cbn; rewrite app_nil_r|]. unfold blen in Hl. cbn in Hl. lia. }
  assert (Hnil : l = [] → bf_open (BlockFormat := webp_format) = false) by (intros Hn; rewrite Hn in Hl; unfold blen in Hl; cbn in Hl; lia).
  set (n := webp_size l). set (k := Z.to_nat (8 + n + n mod 2)). assert (Hnext : bf_next (BlockFormat := webp_format) l =
    if (blen l <? 8) || (n <? 0) || (blen l <? 8 + n + n mod 2) || (bool_decide (webp_type l = codes "VP8X") && (n <? 1)) then None
    else Some k) by done.
  replace (total <? i + 8) with (blen l <? 8) by lia. destruct (Z.ltb_spec (blen l) 8) as [Hs|Hs]; [by rewrite read_blocks_bad|].
  destruct (webp_reads d i total) as [-> Hreads]; [done|done|lia|]. fold l n in Hreads |- *. cbn [obind].
  destruct (Z.ltb_spec n 0) as [Hn|Hn]; [by rewrite read_blocks_bad|]. cbn [orb] in Hnext |- *.
  replace (i + 8 + n <? i) with false by (symmetry; apply Z.ltb_ge; lia). pose proof (Z.mod_pos_bound n 2 ltac:(lia)) as Hm.
  replace (total <? i + 8 + n + n mod 2) with (blen l <? 8 + n + n mod 2) by lia. cbn [orb].
  destruct (Z.ltb_spec (blen l) (8 + n + n mod 2)) as [Hlen|Hlen]; [by rewrite read_blocks_bad|]. cbn [orb] in Hnext.
  destruct Hreads as [-> ->]; [done|lia|]. fold k. cbn [obind]. set (b := take k l).
  assert (Htyp : webp_type b = webp_type l) by (unfold b, webp_type; rewrite take_take; f_equal; lia).
  destruct (bool_decide (webp_type l = codes "VP8X") && (n <? 1)) eqn:Ev.
  { rewrite read_blocks_bad by done. apply andb_true_iff in Ev as [->%bool_decide_eq_true ->]. done. }
  rewrite (read_blocks_next _ _ _ Hnext). fold b. cbn [bf_last webp_format].
  transitivity (webp_loop f d total (i + (8 + n + n mod 2)) (out ++ default [] (webp_edit b))).
  { rewrite !Z.add_assoc. change webp_meta with webp_about. unfold webp_edit. rewrite Htyp. destruct (bool_decide (_ ∈ webp_about)); [by rewrite app_nil_r|].
    destruct (bool_decide (_ = _)); [|done]. cbn in Ev. by rewrite Ev. }
  rewrite IH, window_drop by lia. fold l k. destruct (read_blocks f _) as [bs|]; [|done].
  cbn [mbind option_bind omap list_omap]. rewrite <- app_assoc. by destruct (webp_edit b).
Qed.

Lemma codes_len s : blen (codes s) = Z.of_nat (String.length s).
Proof. unfold blen, codes. rewrite length_fmap. f_equal. by induction s as [|? s IH]; cbn; [|rewrite IH]. Qed.

Lemma split_at_4_8 (d : bytes) a b : take 4 d = a → take 4 (drop 8 d) = b → take 12 d = a ++ take 4 (drop 4 d) ++ b.
Proof.
  intros <- <-. change 12%nat with (4 + (4 + 4))%nat. by rewrite <- !take_take_drop, drop_drop.
Qed.

Lemma stripWebP_read d : starts (codes "RIFF") d = true → take 4 (drop 8 d) = codes "WEBP" →
  stripWebP d = match read WebP d with Some p => Ok (render (clean p)) | None => Bad end.
Proof.
  intros Hr%bool_decide_eq_true Hw. change (take 4 d = codes "RIFF") in Hr.
  assert (Hlen : 12 ≤ blen d).
  { apply (f_equal length) in Hw. rewrite length_take, length_drop in Hw. change (length (codes "WEBP")) with 4%nat in Hw. unfold blen. lia. }
  unfold stripWebP, le_at. change (4 + 4) with (0 + 8). change (slice d 4 (0 + 8)) with (slice d (0 + 4) (0 + 8)).
  rewrite slice_rest by lia. cbn [obind read]. rewrite drop_0.
  change (take (Z.to_nat (8 - 4)) (drop (Z.to_nat 4) d)) with (take 4 (drop 4 d)). set (total := le (take 4 (drop 4 d)) + 8).
  destruct (Z.ltb_spec total 12) as [Ht|Ht]; [done|]. cbn [orb]. destruct (Z.ltb_spec (blen d) total) as [Hd|Hd]; [done|].
  change (slice d 0 12) with (slice d 0 (0 + 12)). rewrite slice_here by lia. cbn [obind]. rewrite drop_0.
  change (Z.to_nat 12) with 12%nat. rewrite webp_loop_blocks by (unfold blen in *; lia).
  unfold window. change (Z.to_nat 12) with 12%nat. rewrite read_blocks_fuel by (rewrite length_take, length_drop; unfold blen in *; lia).
  destruct (blocks _) as [bs|]; [|done]. cbn [obind fmap option_fmap clean render]. set (body := concat (omap webp_edit bs)).
  rewrite (split_at_4_8 d _ _ Hr Hw), <- !app_assoc.
  assert (H4 : length (take 4 (drop 4 d)) = 4%nat) by (rewrite length_take, length_drop; unfold blen in *; lia).
  set (out := codes "RIFF" ++ take 4 (drop 4 d) ++ codes "WEBP" ++ body).
  assert (Hsize : blen out - 8 = blen body + 4).
  { unfold out, blen. rewrite !length_app, H4. change (length (codes "RIFF")) with 4%nat. change (length (codes "WEBP")) with 4%nat. lia. }
  assert (Htail : drop 8 out = codes "WEBP" ++ body).
  { unfold out. change 8%nat with (4 + 4)%nat. rewrite <- drop_drop. rewrite (drop_app_length' (codes "RIFF")) by done.
    by rewrite drop_app_length'. }
  rewrite Hsize, Htail. unfold out. by rewrite (take_app_length' (codes "RIFF")).
Qed.
