(* ===== verification/ImgJpeg.v ===== *)
(** * JPEG files

    The marker loop reads what [segments] reads ([jpeg_loop_segments]), the scan
    loop and the EXIF reader never read out of range, a file that does not read
    is refused but for a marker 00 ([stripJPEG_unread]), and what is written reads
    back ([segments_written]), once the restart markers left right after a scan
    are counted as part of it ([settle]). *)

From Stdlib Require Import ZArith Lia Bool.
From stdpp Require Import base tactics list strings.
From S2P Require Import Prelude GoStrings ImgStrip ImgBlocks ImgFormats ImgThms.

#[local] Open Scope Z_scope.

(** ** Runs of FF *)

Lemma ff_run_range l : 0 ≤ ff_run l ≤ blen l.
Proof. unfold blen. induction l as [|b l IH]; cbn; [lia|]. destruct (b =? 255); lia. Qed.

Lemma skip_fill_drop l : skip_fill l = drop (Z.to_nat (ff_run l)) l.
Proof.
  induction l as [|b l IH]; [done|]. cbn [skip_fill ff_run]. destruct (b =? 255); [|done].
  pose proof (ff_run_range l). replace (Z.to_nat (1 + ff_run l)) with (S (Z.to_nat (ff_run l))) by lia. done.
Qed.

Lemma skip_fill_first l x r : skip_fill l = x :: r → x ≠ 255.
Proof. induction l as [|b l IH]; [done|]. cbn [skip_fill]. destruct (Z.eqb_spec b 255); [done|]. by intros [= <- <-]. Qed.

(** ** Scans *)

Lemma scan_len_range p l : (scan_len p l ≤ p + length l)%nat.
Proof.
  revert p. induction l as [|b l IH]; intros p; cbn; [lia|]. pose proof (IH (S p)). pose proof (IH 0%nat).
  destruct (b =? 255); [lia|]. destruct p; [lia|]. destruct (in_scan b); lia.
Qed.

(** A pending run of FF is part of what follows. *)
Lemma scan_len_fill p l : scan_len p l =
  match skip_fill l with
  | [] => (p + length l)%nat
  | m :: r =>
      let k := (p + Z.to_nat (ff_run l))%nat in
      match k with O => S (scan_len 0 r) | _ => if in_scan m then (k + S (scan_len 0 r))%nat else O end
  end.
Proof.
  revert p. induction l as [|b l IH]; intros p; [cbn; lia|]. cbn [scan_len skip_fill ff_run]. destruct (Z.eqb_spec b 255) as [->|Hb].
  - rewrite IH. pose proof (ff_run_range l). replace (p + Z.to_nat (1 + ff_run l))%nat with (S p + Z.to_nat (ff_run l))%nat by lia.
    destruct (skip_fill l); [cbn; lia|done].
  - change (Z.to_nat 0) with 0%nat. rewrite Nat.add_0_r. done.
Qed.

Lemma scan_loop_len f d i : 0 ≤ i ≤ blen d → blen d - i < Z.of_nat f →
  scan_loop f d i = Ok (i + Z.of_nat (scan_len 0 (drop (Z.to_nat i) d))).
Proof.
  revert i. induction f as [|f IH]; intros i Hi Hf; [lia|]. cbn [scan_loop]. pose proof (blen_drop i d Hi) as Hl.
  unfold skip_ff. destruct (drop (Z.to_nat i) d) as [|b l] eqn:El.
  { replace (i <? blen d) with false by (unfold blen in *; cbn in Hl; lia). cbn. f_equal. unfold blen in *. lia. }
  replace (i <? blen d) with true by (unfold blen in *; cbn in Hl; lia). rewrite (byte_here d i b l) by (done || lia). cbn [obind].
  destruct (Z.eqb_spec b 255) as [->|Hb]; cbn [negb].
  - rewrite scan_len_fill. pose proof (skip_fill_drop (255 :: l)) as Hd. pose proof (ff_run_range (255 :: l)) as Hr.
    set (k := ff_run (255 :: l)) in *. assert (Hk : 1 ≤ k) by (unfold k; cbn; pose proof (ff_run_range l); lia).
    assert (Hrest : drop (Z.to_nat (i + k)) d = skip_fill (255 :: l)) by (rewrite drop_from, El by lia; done).
    destruct (skip_fill (255 :: l)) as [|m r] eqn:Em.
    + apply (f_equal length) in Hrest. rewrite length_drop in Hrest. cbn [length] in Hrest.
      assert (blen d ≤ i + k) by (unfold blen; lia). rewrite (proj2 (Z.leb_le _ _)) by done. cbn [Nat.add]. f_equal. unfold blen in *. lia.
    + assert (i + k < blen d).
      { apply (f_equal length) in Hrest. rewrite length_drop in Hrest. cbn [length] in Hrest. unfold blen. lia. }
      rewrite (proj2 (Z.leb_gt _ _)) by done.
      rewrite (byte_here d (i + k) m r) by (done || lia). cbn [obind Nat.add]. destruct (Z.to_nat k) as [|k'] eqn:Ek; [lia|].
      destruct (in_scan m); [|f_equal; lia]. apply (f_equal length) in Hrest as Hlen. rewrite length_drop in Hlen. cbn [length] in Hlen.
      unfold blen in *. rewrite IH, drop_from, Hrest by (unfold blen; lia). change (drop (Z.to_nat 1) (m :: r)) with (drop 0 r). rewrite drop_0. f_equal. lia.
  - cbn [scan_len]. rewrite (proj2 (Z.eqb_neq _ _) Hb). unfold blen in *. cbn in Hl. rewrite IH, drop_from, El by (unfold blen; lia).
    change (drop (Z.to_nat 1) (b :: l)) with (drop 0 l). rewrite drop_0. f_equal. lia.
Qed.

(** ** EXIF *)

Lemma exif_loop_total n t num e : 0 ≤ e → ∃ v, exif_loop n t num e = Ok v ∧ 0 ≤ v ≤ 8.
Proof.
  revert e. induction n as [|n IH]; intros e He; cbn [exif_loop]; [by exists 0|].
  destruct (Z.ltb_spec (blen t) (e + 12)); [by exists 0|]. rewrite slice_here, !slice_rest by lia. cbn [obind].
  destruct (_ && _); [|by apply IH; lia]. destruct (_ && _) eqn:E; eexists; (split; [done|]); [bools|]; lia.
Qed.

Lemma exif_dir_total t num : 8 ≤ blen t → ∃ v, exif_dir t num = Ok v ∧ 0 ≤ v ≤ 8.
Proof.
  intros Ht. unfold exif_dir. change 8 with (0 + 8) at 1. change (slice t 4 (0 + 8)) with (slice t (0 + 4) (0 + 8)).
  rewrite slice_rest by lia. cbn [obind]. destruct (_ || _) eqn:E; [by exists 0|]. bools. rewrite slice_here by lia. cbn [obind].
  apply exif_loop_total. lia.
Qed.

Lemma exif_total seg : exifOrientation seg = Ok (exif_value seg) ∧ 0 ≤ exif_value seg ≤ 8.
Proof.
  enough (∃ v, exifOrientation seg = Ok v ∧ 0 ≤ v ≤ 8) as (v & Hv & Hr) by (unfold exif_value; by rewrite Hv).
  unfold exifOrientation. destruct (_ || _) eqn:E; [by exists 0|]. apply orb_false_iff in E as [E _]. apply Z.ltb_ge in E.
  replace (slice seg 6 (blen seg)) with (slice seg (0 + 6) (0 + blen seg)) by done. rewrite slice_rest by lia. cbn [obind].
  set (t := take _ _). assert (Ht : 8 ≤ blen t) by (unfold t, blen in *; rewrite length_take, !length_drop; lia).
  change (slice t 0 2) with (slice t 0 (0 + 2)). rewrite slice_here by lia. cbn [obind].
  destruct (bool_decide _); [by apply exif_dir_total|]. destruct (bool_decide _); [by apply exif_dir_total|by exists 0].
Qed.

(** ** The marker loop *)

Lemma seg_len_body d j : 0 ≤ j ≤ blen d →
  seg_len d j = match body_len (drop (Z.to_nat j) d) with Some n => Ok (Z.of_nat n) | None => Bad end.
Proof.
  intros Hj. unfold seg_len, body_len. pose proof (blen_drop j d Hj) as Hl. set (l := drop (Z.to_nat j) d) in *.
  replace (blen d <? j + 2) with (blen l <? 2) by lia. destruct (Z.ltb_spec (blen l) 2) as [Hs|Hs]; [done|]. cbn [orb].
  rewrite be_here by lia. fold l. change (Z.to_nat 2) with 2%nat. cbn [obind]. set (n := be (take 2 l)).
  replace (blen d <? j + n) with (blen l <? n) by lia. destruct (_ || _) eqn:E; [done|]. bools. f_equal. lia.
Qed.

Lemma body_len_range l n : body_len l = Some n → (2 ≤ n ≤ length l)%nat.
Proof. unfold body_len. destruct (_ || _) eqn:E; [done|]. intros [= <-]. bools. unfold blen in *. lia. Qed.

(** What is left of a segment. *)
Definition kept (s : segment) : bytes := if jpeg_meta s then [] else write_segment s.

Lemma concat_kept ss : concat (write_segment <$> filter (λ s, jpeg_meta s = false) ss) = concat (kept <$> ss).
Proof.
  induction ss as [|s ss IH]; [done|]. rewrite filter_cons, fmap_cons. cbn [concat]. unfold kept at 1.
  destruct (jpeg_meta s); [by rewrite decide_False|]. rewrite decide_True by done. rewrite fmap_cons. cbn [concat]. by rewrite IH.
Qed.

Definition finish (out : bytes) (o : Z) (r : option (list segment * bool)) : outcome bytes :=
  match r with
  | None => Bad
  | Some (ss, e) => Ok (withOrientation (out ++ concat (kept <$> ss) ++ if e then [255; 217] else []) (orientation_of o ss))
  end.

Definition orient (o : Z) (s : segment) : Z := orientation_of o [s].

Lemma orientation_of_cons o s ss : orientation_of o (s :: ss) = orientation_of (orient o s) ss.
Proof. by destruct s. Qed.

Lemma finish_cons out o s r : finish (out ++ kept s) (orient o s) r = finish out o ('(ss, e) ← r; Some (s :: ss, e)).
Proof.
  destruct r as [[ss e]|]; [|done]. cbn [finish mbind option_bind]. rewrite orientation_of_cons, fmap_cons. cbn [concat].
  by rewrite <- !app_assoc.
Qed.

(** The loop from a marker's byte on: [j] is the index after it. *)
Section marker.
Context (f : nat) (d : bytes) (o : Z) (out : bytes) (j : Z).
Hypothesis IH : ∀ i o out, 0 ≤ i ≤ blen d → blen d - i < Z.of_nat f →
  jpeg_loop f d i o out = finish out o (segments true f (drop (Z.to_nat i) d)).
Hypothesis Hj : 0 ≤ j ≤ blen d.
Hypothesis Hf : blen d - j < Z.of_nat f.

Notation r := (drop (Z.to_nat j) d).

Lemma go_on n s out' o' : (n ≤ length r)%nat → out' = out ++ kept s → o' = orient o s →
  jpeg_loop f d (j + Z.of_nat n) o' out' = finish out o ('(ss, e) ← segments true f (drop n r); Some (s :: ss, e)).
Proof.
  intros Hn -> ->. pose proof (blen_drop j d Hj). unfold blen in *.
  rewrite IH, drop_from, Nat2Z.id, finish_cons by (unfold blen; lia). done.
Qed.

Lemma scan_arm n : body_len r = Some n →
  (let? header := slice d j (j + Z.of_nat n) in
   let? end_ := scan_loop (S (length d)) d (j + Z.of_nat n) in
   let? scan := slice d (j + Z.of_nat n) end_ in
   let out := out ++ [255; 218] ++ header ++ scan in
   if blen d <=? end_ then Ok (withOrientation out o) else jpeg_loop f d end_ o out) =
  finish out o
    (let rest := drop n r in
     let k := scan_len 0 rest in
     let s := Scan (take n r) (take k rest) in
     if bool_decide (drop k rest = []) then Some ([s], false)
     else '(ss, e) ← segments true f (drop k rest); Some (s :: ss, e)).
Proof.
  intros Hn%body_len_range. pose proof (blen_drop j d Hj) as Hl. assert (Hlen : j + Z.of_nat n ≤ blen d) by (unfold blen in *; lia).
  rewrite slice_here, Nat2Z.id by lia. cbn [obind]. rewrite scan_loop_len by (unfold blen in *; lia). cbn [obind].
  rewrite drop_from, Nat2Z.id by lia. cbv zeta. set (rest := drop n r). set (k := scan_len 0 rest).
  assert (Hk : (k ≤ length rest)%nat) by apply (scan_len_range 0).
  assert (Hrest : blen rest = blen d - j - Z.of_nat n) by (unfold rest, blen in *; rewrite length_drop; lia).
  rewrite slice_here, drop_from, !Nat2Z.id by (unfold blen in *; lia). fold rest. cbn [obind].
  destruct (Z.leb_spec (blen d) (j + Z.of_nat n + Z.of_nat k)) as [He|He].
  - rewrite bool_decide_eq_true_2 by (apply drop_ge; unfold blen in *; lia). cbn. by rewrite !app_nil_r.
  - rewrite bool_decide_eq_false_2.
    2:{ intros H%(f_equal length). rewrite length_drop in H. cbn in H. unfold blen in *. lia. }
    replace (j + Z.of_nat n + Z.of_nat k) with (j + Z.of_nat (n + k)) by lia. unfold rest at 3. rewrite drop_drop.
    apply go_on; [unfold rest in *; rewrite length_drop in Hk; lia|done|done].
Qed.

Lemma segment_arm m n : body_len r = Some n →
  (let? orientation :=
     if (m =? 225) && (o =? 0)
     then let? payload := slice d (j + 2) (j + Z.of_nat n) in exifOrientation payload
     else Ok o in
   let? out :=
     if (m =? 254) || is_app m then Ok out
     else let? b := slice d j (j + Z.of_nat n) in Ok (out ++ [255; m] ++ b) in
   jpeg_loop f d (j + Z.of_nat n) orientation out) =
  finish out o ('(ss, e) ← segments true f (drop n r); Some (Segment m (take n r) :: ss, e)).
Proof.
  intros Hn%body_len_range. pose proof (blen_drop j d Hj) as Hl. assert (Hlen : j + Z.of_nat n ≤ blen d) by (unfold blen in *; lia).
  rewrite slice_here, slice_rest, Nat2Z.id by lia. cbn [obind]. rewrite (proj1 (exif_total _)).
  replace (take (Z.to_nat (Z.of_nat n - 2)) (drop (Z.to_nat 2) r)) with (drop 2 (take n r)).
  2:{ rewrite skipn_firstn_comm. f_equal. lia. }
  transitivity (jpeg_loop f d (j + Z.of_nat n) (orient o (Segment m (take n r))) (out ++ kept (Segment m (take n r)))).
  { unfold kept, is_app. cbn [jpeg_meta orient orientation_of]. destruct ((m =? 254) || _); destruct (_ && _); cbn [obind]; by rewrite ?app_nil_r. }
  apply go_on; [lia|done|done].
Qed.
End marker.

Lemma jpeg_loop_segments f d i o out : 0 ≤ i ≤ blen d → blen d - i < Z.of_nat f →
  jpeg_loop f d i o out = finish out o (segments true f (drop (Z.to_nat i) d)).
Proof.
  revert i o out. induction f as [|f IH]; intros i o out Hi Hf; [lia|]. cbn [jpeg_loop segments].
  pose proof (blen_drop i d Hi) as Hl. unfold skip_ff. set (l := drop (Z.to_nat i) d) in *.
  destruct (Z.leb_spec (blen d) (i + 1)) as [Hshort|Hlong].
  { destruct l as [|x [|y l]]; [done| |unfold blen in *; cbn in Hl; lia]. cbn [skip_fill].
    destruct (Z.eqb_spec x 255) as [->|Hx]; [done|]. rewrite bool_decide_eq_false_2; [done|]. by intros [= ->]. }
  destruct l as [|x l'] eqn:El; [unfold blen in *; cbn in Hl; lia|]. rewrite (byte_here d i x l') by (done || lia). cbn [obind].
  destruct (Z.eqb_spec x 255) as [->|Hx]; cbn [negb].
  2:{ cbn [skip_fill]. rewrite (proj2 (Z.eqb_neq _ _) Hx), bool_decide_eq_false_2; [done|]. by intros [= ->]. }
  rewrite bool_decide_eq_true_2 by done. cbn [negb]. pose proof (skip_fill_drop (255 :: l')) as Hd. pose proof (ff_run_range (255 :: l')) as Hr.
  set (k := ff_run (255 :: l')) in *.
  assert (Hrest : drop (Z.to_nat (i + k)) d = skip_fill (255 :: l')) by (rewrite drop_from by lia; fold l; rewrite El; done).
  destruct (skip_fill (255 :: l')) as [|m r] eqn:Em.
  { apply (f_equal length) in Hrest. rewrite length_drop in Hrest. cbn [length] in Hrest.
    assert (blen d ≤ i + k) by (unfold blen; lia). by rewrite (proj2 (Z.leb_le _ _)). }
  assert (Hk : i + k < blen d).
  { apply (f_equal length) in Hrest. rewrite length_drop in Hrest. cbn [length] in Hrest. unfold blen. lia. }
  rewrite (proj2 (Z.leb_gt _ _)) by done. rewrite (byte_here d (i + k) m r) by (done || lia). cbn [obind].
  set (j := i + k + 1). assert (Hj : 0 ≤ j ≤ blen d) by lia.
  assert (Hjr : drop (Z.to_nat j) d = r) by (unfold j; rewrite drop_from, Hrest by lia; done).
  rewrite <- Hjr. destruct (Z.eqb_spec m 217) as [->|H217]; [done|]. destruct (Z.eqb_spec m 218) as [->|H218].
  { rewrite seg_len_body by done. destruct (body_len _) as [n|] eqn:En; [|done]. cbn [mbind option_bind]. cbn [obind].
    exact (scan_arm f d o out j IH Hj ltac:(lia) n En). }
  destruct (stands_alone m) eqn:Es.
  - replace j with (j + Z.of_nat 0) at 1 by lia. rewrite (go_on f d o out j IH Hj ltac:(lia) 0 (Alone m)) by (done || lia). by rewrite drop_0.
  - rewrite andb_false_r, seg_len_body by done. destruct (body_len _) as [n|] eqn:En; [|done].
    cbn [mbind option_bind obind]. exact (segment_arm f d o out j IH Hj ltac:(lia) m n En).
Qed.

(** Reading strictly is reading with 00 let pass, when there is none. *)
Definition is_null (s : segment) : bool := match s with Segment m _ => m =? 0 | _ => false end.

Lemma segments_strict f l : segments false f l =
  '(ss, e) ← segments true f l; if existsb is_null ss then None else Some (ss, e).
Proof.
  revert l. induction f as [|f IH]; intros l; [done|]. cbn [segments]. destruct (skip_fill l) as [|m r]; [done|].
  destruct (negb _); [done|]. destruct (m =? 217); [done|]. destruct (m =? 218).
  { destruct (body_len r) as [n|]; [|done]. cbn [mbind option_bind]. case_bool_decide; [done|]. rewrite IH.
    destruct (segments true f _) as [[ss e]|]; [|done]. cbn. by destruct (existsb is_null ss). }
  destruct (stands_alone m).
  { rewrite IH. destruct (segments true f r) as [[ss e]|]; [|done]. cbn. by destruct (existsb is_null ss). }
  rewrite andb_false_r, andb_true_r. destruct (body_len r) as [n|]; cbn [mbind option_bind]; [|by destruct (m =? 0)]. rewrite IH.
  destruct (segments true f (drop n r)) as [[ss e]|]; cbn; [|by destruct (m =? 0)].
  destruct (m =? 0); [done|]. by destruct (existsb is_null ss).
Qed.

Lemma stripJPEG_segments d : starts [255; 216] d = true →
  stripJPEG d = match segments true (S (length d)) (drop 2 d) with Some (ss, e) => Ok (render (clean (JpegPicture ss e))) | None => Bad end.
Proof.
  intros Hs. unfold stripJPEG. rewrite Hs. cbn [negb]. pose proof (starts_blen _ _ Hs) as Hl. unfold blen in Hl. cbn in Hl.
  rewrite jpeg_loop_segments by (unfold blen; lia). change (Z.to_nat 2) with 2%nat.
  destruct (segments _ _ _) as [[ss e]|]; [|done]. cbn [finish clean render]. rewrite <- concat_kept. f_equal.
  rewrite fmap_app, concat_app. unfold withOrientation, orientation_kept. destruct (_ || _); [done|]. cbn. done.
Qed.

Lemma stripJPEG_read d p : starts [255; 216] d = true → read JPEG d = Some p → stripJPEG d = Ok (render (clean p)).
Proof.
  intros Hs. rewrite stripJPEG_segments by done. cbn [read]. rewrite segments_strict.
  destruct (segments true _ _) as [[ss e]|]; [|done]. cbn. destruct (existsb is_null ss); [done|]. cbn. by intros [= <-].
Qed.

(** What does not read is refused, but for a marker 00. *)
Lemma stripJPEG_unread d : starts [255; 216] d = true → read JPEG d = None →
  (∀ p, null_marked d p → stripJPEG d = Ok (render (clean p))) ∧ ((∀ p, ¬ null_marked d p) → stripJPEG d = Bad).
Proof.
  intros Hs. rewrite stripJPEG_segments by done. cbn [read]. rewrite segments_strict.
  destruct (segments true _ _) as [[ss e]|] eqn:Es; cbn.
  2: { intros _. split; [|done]. intros p (ss & e & body & Hd & _). congruence. }
  destruct (existsb is_null ss) eqn:En; [|done]. intros _. split.
  - intros p (ss' & e' & body & Hd & _ & ->). rewrite Es in Hd. by simplify_eq.
  - intros Hno. exfalso. apply existsb_exists in En as (s & Hin%list_elem_of_In & Hnull). destruct s as [|m body|]; [done| |done].
    apply Z.eqb_eq in Hnull as ->. apply (Hno (JpegPicture ss e)). by exists ss, e, body.
Qed.

(** ** Reading back what was written *)

(** A scan that a marker ends. *)
Definition closed (s : bytes) : Prop := ∀ m y, in_scan m = false → m ≠ 255 → scan_len 0 (s ++ 255 :: m :: y) = length s.

Lemma scan_len_zero p l : scan_len p l = 0%nat ∨ (p ≤ scan_len p l)%nat.
Proof.
  revert p. induction l as [|b l IH]; intros p; cbn [scan_len]; [by right|]. destruct (b =? 255).
  - destruct (IH (S p)); [by left|right; lia].
  - destruct p; [right; lia|]. destruct (in_scan b); [right; lia|by left].
Qed.

Lemma scan_len_take p l m y : in_scan m = false → m ≠ 255 → (scan_len p l < p + length l)%nat →
  (0 < scan_len p l ∨ p = 0)%nat → scan_len p (take (scan_len p l - p) l ++ 255 :: m :: y) = scan_len p l.
Proof.
  intros Hm Hm'. revert p. assert (H0 : ∀ p y, (0 < p)%nat → scan_len p (m :: y) = 0%nat).
  { intros p' y' Hp. cbn [scan_len]. rewrite (proj2 (Z.eqb_neq _ _) Hm'), Hm. destruct p'; [lia|done]. }
  induction l as [|b l IH]; intros p Hlen Hk; [cbn in *; lia|]. cbn [scan_len] in Hlen, Hk |- *. destruct (Z.eqb_spec b 255) as [->|Hb].
  - destruct (scan_len_zero (S p) l) as [Hz|Hp].
    + rewrite Hz in *. destruct Hk as [?| ->]; [lia|]. exact (H0 1%nat y ltac:(lia)).
    + replace (scan_len (S p) l - p)%nat with (S (scan_len (S p) l - S p)) by lia. cbn [take app scan_len].
      apply IH; [cbn in Hlen; lia|left; lia].
  - destruct p as [|p].
    + rewrite Nat.sub_0_r. cbn [take app scan_len]. rewrite (proj2 (Z.eqb_neq _ _) Hb). f_equal.
      rewrite <- (Nat.sub_0_r (scan_len 0 l)) at 1. apply IH; [cbn in Hlen; lia|by right].
    + destruct (in_scan b) eqn:Eb; [|lia]. replace (S p + S (scan_len 0 l) - S p)%nat with (S (scan_len 0 l)) by lia.
      cbn [take app scan_len]. rewrite (proj2 (Z.eqb_neq _ _) Hb), Eb. f_equal. f_equal.
      rewrite <- (Nat.sub_0_r (scan_len 0 l)) at 1. apply IH; [cbn in Hlen; lia|by right].
Qed.

Lemma scan_closed l : (scan_len 0 l < length l)%nat → closed (take (scan_len 0 l) l).
Proof.
  intros Hl m y Hm Hm'. rewrite length_take, Nat.min_l by lia. rewrite <- (scan_len_take 0 l m y Hm Hm') at 2; [|lia|by right].
  by rewrite Nat.sub_0_r.
Qed.

(** A segment's bytes say how long they are. *)
Definition sized (body : bytes) : Prop := ∀ x, body_len (body ++ x) = Some (length body).

Lemma body_len_sized l n : body_len l = Some n → sized (take n l).
Proof.
  intros Hn x. pose proof (body_len_range _ _ Hn). unfold body_len in *. rewrite take_local, length_take, Nat.min_l by lia.
  unfold blen in *. rewrite length_app, length_take. destruct (_ || _) eqn:E in Hn; [done|]. injection Hn as <-. bools.
  guard_false. f_equal.
Qed.

Definition real_marker (m : Z) : Prop := m ≠ 217 ∧ m ≠ 218 ∧ m ≠ 255 ∧ m ≠ 0.

(** Segments that are read one by one, [P] of what comes right after a scan. *)
Section well_formed.
Context (P : segment → Prop).

Fixpoint well_formed (ss : list segment) (e : bool) : Prop :=
  match ss with
  | [] => e = true
  | Alone m :: ss => stands_alone m = true ∧ real_marker m ∧ well_formed ss e
  | Segment m body :: ss => stands_alone m = false ∧ real_marker m ∧ sized body ∧ well_formed ss e
  | Scan header scan :: ss =>
      sized header ∧
      (ss = [] ∧ e = false ∧ scan_len 0 scan = length scan ∨
       closed scan ∧ from_option P True (head ss) ∧ well_formed ss e)
  end.
End well_formed.

(** What ends a scan: anything but a restart marker. *)
Definition ends_scan (s : segment) : Prop := match s with Alone m => in_scan m = false | _ => True end.

Lemma segment_ends m : stands_alone m = false → real_marker m → in_scan m = false.
Proof.
  unfold stands_alone, in_scan, real_marker. intros [-> _]%orb_false_iff (_ & _ & _ & H). by rewrite (proj2 (Z.eqb_neq _ _) H).
Qed.

Definition written (ss : list segment) (e : bool) : bytes := concat (write_segment <$> ss) ++ if e then [255; 217] else [].

(** After a scan, what is written starts with a marker that ends it. *)
Lemma written_ends ss e : well_formed ends_scan ss e → from_option ends_scan True (head ss) →
  ∃ m y, written ss e = 255 :: m :: y ∧ in_scan m = false ∧ m ≠ 255.
Proof.
  destruct ss as [|[m|m body|header scan] ss]; cbn; intros Hw He.
  - subst e. by exists 217, [].
  - destruct Hw as (_ & (_ & _ & H & _) & _). by exists m, (concat (write_segment <$> ss) ++ if e then [255; 217] else []).
  - destruct Hw as (Ha & Hm & _). eexists m, _. split; [done|]. split; [by apply segment_ends|apply Hm].
  - eexists 218, _. split; [|done]. done.
Qed.

Lemma skip_fill_marker m r : m ≠ 255 → skip_fill (255 :: m :: r) = m :: r.
Proof. intros Hm. cbn [skip_fill]. by rewrite (proj2 (Z.eqb_neq m 255) Hm). Qed.

Lemma segments_written ss e f : well_formed ends_scan ss e → (length (written ss e) < f)%nat → segments false f (written ss e) = Some (ss, e).
Proof.
  revert f. induction ss as [|s ss IH]; intros f Hw Hf; (destruct f as [|f]; [lia|]).
  { cbn in Hw. by subst e. }
  assert (Hcons : written (s :: ss) e = write_segment s ++ written ss e) by (unfold written; rewrite fmap_cons; cbn [concat]; by rewrite <- app_assoc).
  rewrite Hcons in Hf |- *. rewrite length_app in Hf. destruct s as [m|m body|header scan]; cbn [write_segment app well_formed] in *.
  - destruct Hw as (Ha & (H1 & H2 & H3 & H4) & Hw). cbn [segments]. rewrite skip_fill_marker by done.
    rewrite bool_decide_eq_true_2 by done. cbn [negb]. rewrite (proj2 (Z.eqb_neq _ _) H1), (proj2 (Z.eqb_neq _ _) H2), Ha.
    rewrite IH; [done|done|]. cbn in Hf. lia.
  - destruct Hw as (Ha & (H1 & H2 & H3 & H4) & Hs & Hw). cbn [segments]. rewrite skip_fill_marker by done.
    rewrite bool_decide_eq_true_2 by done. cbn [negb]. rewrite (proj2 (Z.eqb_neq _ _) H1), (proj2 (Z.eqb_neq _ _) H2), Ha, (proj2 (Z.eqb_neq _ _) H4), Hs.
    cbn [mbind option_bind]. rewrite drop_app_length, take_app_length. rewrite IH; [done|done|]. cbn in Hf. lia.
  - destruct Hw as (Hs & Hw). cbn [segments]. rewrite skip_fill_marker by done. rewrite bool_decide_eq_true_2 by done. cbn [negb].
    change (218 =? 217) with false. change (218 =? 218) with true. cbv iota. rewrite <- app_assoc, Hs. cbn [mbind option_bind].
    rewrite drop_app_length, take_app_length. cbn in Hf. rewrite !length_app in Hf. destruct Hw as [(-> & -> & Hl)|(Hc & He & Hw)].
    + unfold written. cbn [fmap list_fmap concat app]. rewrite !app_nil_r, Hl.
      rewrite bool_decide_eq_true_2 by (by rewrite drop_all). by rewrite take_ge.
    + destruct (written_ends _ _ Hw He) as (m & y & Hy & Hm & Hm'). assert (Hk : scan_len 0 (scan ++ written ss e) = length scan).
      { rewrite Hy. by apply Hc. }
      rewrite Hk, drop_app_length, take_app_length. rewrite bool_decide_eq_false_2 by (by rewrite Hy). rewrite IH; [done|done|lia].
Qed.

(** What is kept of a file is made of what was read. *)
Lemma segments_kept f l ss e : segments false f l = Some (ss, e) →
  well_formed (λ _, True) (filter (λ s, jpeg_meta s = false) ss) e.
Proof.
  revert l ss. induction f as [|f IH]; intros l ss H; [done|]. cbn [segments] in H.
  destruct (skip_fill l) as [|m r] eqn:Em; [done|]. apply skip_fill_first in Em. destruct (negb _); [done|].
  destruct (Z.eqb_spec m 217) as [|H217]; [by simplify_eq|]. destruct (Z.eqb_spec m 218) as [->|H218].
  - destruct (body_len r) as [n|] eqn:En; [|done]. cbn [mbind option_bind] in H. set (rest := drop n r) in *.
    assert (Hk : (scan_len 0 rest ≤ length rest)%nat) by apply (scan_len_range 0).
    case_bool_decide as Hd.
    + simplify_eq. cbn. split; [by apply body_len_sized|left]. split; [done|]. split; [done|].
      apply (f_equal length) in Hd. rewrite length_drop in Hd. cbn in Hd. by rewrite take_ge by lia; lia.
    + destruct (segments false f _) as [[ss' e']|] eqn:Er; [|done]. cbn in H. simplify_eq.
      rewrite filter_cons_True by done. cbn [well_formed]. split; [by apply body_len_sized|right].
      split; [|split; [by destruct (head _)|by apply (IH _ _ Er)]].
      apply scan_closed. destruct (decide (scan_len 0 rest = length rest)) as [He|]; [|lia]. by rewrite He, drop_all in Hd.
  - destruct (stands_alone m) eqn:Ea.
    + destruct (segments false f r) as [[ss' e']|] eqn:Er; [|done]. cbn in H. simplify_eq.
      rewrite filter_cons_True by done. cbn [well_formed]. split; [done|]. split; [|by apply (IH _ _ Er)].
      split_and!; [done..|]. by intros ->.
    + destruct (Z.eqb_spec m 0) as [|H0]; [done|]. cbn [andb] in H.
      destruct (body_len r) as [n|] eqn:En; [|done]. cbn [mbind option_bind] in H.
      destruct (segments false f _) as [[ss' e']|] eqn:Er; [|done]. cbn in H. simplify_eq.
      destruct (jpeg_meta (Segment m (take n r))) eqn:Ej; [rewrite filter_cons_False by (by rewrite Ej); by apply (IH _ _ Er)|].
      rewrite filter_cons_True by done. cbn [well_formed]. split; [done|]. split; [done|].
      split; [by apply body_len_sized|by apply (IH _ _ Er)].
Qed.

(** A closed scan is read to its end, whatever follows. *)
Lemma scan_len_whole p b m x : in_scan m = false → m ≠ 255 → scan_len p (b ++ [255; m]) = (p + length b)%nat →
  scan_len p (b ++ x) = (p + length b + scan_len 0 x)%nat.
Proof.
  intros Hm Hm'. revert p. induction b as [|c b IH]; intros p; cbn [app scan_len length].
  - cbn. rewrite (proj2 (Z.eqb_neq _ _) Hm'), Hm. destruct p; [done|lia].
  - destruct (c =? 255); [intros H; rewrite IH; lia|]. destruct p as [|p].
    + intros H. rewrite IH; lia.
    + destruct (in_scan c); [|lia]. intros H. rewrite IH; lia.
Qed.

Lemma closed_restart b m : closed b → in_scan m = true → m ≠ 255 → closed (b ++ [255; m]).
Proof.
  intros Hb Hm Hm' m' y Hm1 Hm2. rewrite <- app_assoc. rewrite (scan_len_whole 0 b m') by (try done; by apply Hb).
  cbn [app scan_len]. change (255 =? 255) with true. rewrite (proj2 (Z.eqb_neq _ _) Hm'), Hm, (proj2 (Z.eqb_neq _ _) Hm2), Hm1.
  rewrite length_app. cbn. lia.
Qed.

Lemma absorb_written header scan ss : concat (write_segment <$> absorb header scan ss) = write_segment (Scan header scan) ++ concat (write_segment <$> ss).
Proof.
  revert scan. induction ss as [|[m|m body|h' s'] ss IH]; intros scan; try done. cbn [absorb]. destruct (in_scan m); [|done].
  rewrite IH, fmap_cons. cbn. by rewrite <- !app_assoc.
Qed.

(** Settling changes no byte. *)
Lemma settle_written ss e : written (settle ss) e = written ss e.
Proof.
  unfold written. f_equal. induction ss as [|[m|m body|header scan] ss IH]; [done|..]; cbn [settle];
    [by rewrite !fmap_cons; cbn; rewrite IH..|]. by rewrite absorb_written, fmap_cons, IH.
Qed.

Lemma absorb_well_formed header scan ss e : sized header → closed scan → well_formed ends_scan ss e →
  well_formed ends_scan (absorb header scan ss) e.
Proof.
  intros Hh. revert scan. induction ss as [|s ss IH]; intros scan Hc Hw; [cbn; auto 10|].
  assert (Hstop : ends_scan s → well_formed ends_scan (Scan header scan :: s :: ss) e) by (intros; cbn [well_formed]; auto).
  destruct s as [m| |]; [|by apply Hstop..]. cbn [absorb]. destruct (in_scan m) eqn:Em; [|by apply Hstop].
  destruct Hw as (_ & (_ & _ & H & _) & Hw). apply IH; [|done]. by apply closed_restart.
Qed.

Lemma settle_well_formed ss e : well_formed (λ _, True) ss e → well_formed ends_scan (settle ss) e.
Proof.
  induction ss as [|[m|m body|header scan] ss IH]; [done| | |]; cbn [well_formed settle].
  - intros (H1 & H2 & H3). auto.
  - intros (H1 & H2 & H3 & H4). auto.
  - intros (Hh & [(-> & -> & Hl)|(Hc & _ & Hw)]); [cbn; auto|]. by apply absorb_well_formed; auto.
Qed.

(** ** The orientation *)

Lemma orientation_of_meta o ss : Forall (λ s, jpeg_meta s = false) ss → orientation_of o ss = o.
Proof.
  induction 1 as [|[m|m body|header scan] ss Hs _ IH]; [done..| |done]. cbn [orientation_of].
  destruct (Z.eqb_spec m 225) as [->|]; [done|]. done.
Qed.

Lemma kept_orientation o ss : Forall (λ s, jpeg_meta s = false) ss →
  orientation_kept (orientation_of 0 (orientation_kept o ++ ss)) = orientation_kept o.
Proof.
  intros Hss. unfold orientation_kept at 2 3. destruct (_ || _) eqn:E; cbn [app]; [by rewrite orientation_of_meta|]. cbn [orientation_of].
  assert (Hv : exif_value (drop 2 (drop 2 (orientation_segment o))) = o).
  { bools. assert (o = 2 ∨ o = 3 ∨ o = 4 ∨ o = 5 ∨ o = 6 ∨ o = 7 ∨ o = 8) as Ho by lia. by destruct_or! Ho; subst o. }
  change ((225 =? 225) && (0 =? 0)) with true. cbv iota. rewrite Hv, orientation_of_meta by done. unfold orientation_kept. by rewrite E.
Qed.

(** Nothing becomes metadata by settling, and the orientation stays in front. *)
Lemma absorb_meta header scan ss : Forall (λ s, jpeg_meta s = false) ss → Forall (λ s, jpeg_meta s = false) (absorb header scan ss).
Proof.
  intros Hss. revert scan. induction Hss as [|s ss Hs Hss IH]; intros scan; [by constructor|].
  assert (Forall (λ s, jpeg_meta s = false) (Scan header scan :: s :: ss)) by (by repeat constructor).
  destruct s as [m| |]; [|done..]. cbn [absorb]. by destruct (in_scan m).
Qed.

Lemma settle_meta ss : Forall (λ s, jpeg_meta s = false) ss → Forall (λ s, jpeg_meta s = false) (settle ss).
Proof.
  induction 1 as [|[m|m body|header scan] ss Hs _ IH]; [done| | |]; cbn [settle]; [by constructor..|by apply absorb_meta].
Qed.

Lemma settle_orientation o ss : settle (orientation_kept o ++ ss) = orientation_kept o ++ settle ss.
Proof. unfold orientation_kept. by destruct (_ || _). Qed.

Lemma orientation_written P o ss e : well_formed P ss e → well_formed P (orientation_kept o ++ ss) e.
Proof.
  intros Hw. unfold orientation_kept. destruct (_ || _); [done|]. cbn [app well_formed]. split; [done|]. split; [done|]. split; [|done].
  by apply (body_len_sized (drop 2 (orientation_segment o)) 34).
Qed.
