(* ===== verification/ImgClean.v ===== *)
(** * What an uploaded image becomes

    The code computes the cleaned picture, refuses what is none and never reads
    out of range ([strip_exact]); what is stored of a picture reads back as
    exactly that ([strip_clean]).  The one exception is a file that is no JPEG
    because of a marker 00 outside a scan: the code lets it pass, and it can
    smuggle a segment of metadata ([null_marker_smuggles]). *)

From Stdlib Require Import ZArith Lia Bool.
From stdpp Require Import base tactics list strings sets.
From S2P Require Import Prelude GoStrings ImgStrip ImgBlocks ImgFormats ImgThms ImgJpeg.

#[local] Open Scope Z_scope.

(** ** Containers *)

Lemma brand_loop_spec f d e i : 0 ≤ i → e ≤ blen d → e - i < Z.of_nat f → (0 < f)%nat →
  ∃ b, brand_loop f d e i = Ok b ∧
    (b = true ↔ ∃ j : nat, i + 4 * Z.of_nat j + 4 ≤ e ∧ take 4 (drop (Z.to_nat i + 4 * j) d) ∈ imageBrands).
Proof.
  revert i. induction f as [|f IH]; intros i Hi He Hf Hf'; [lia|]. cbn [brand_loop].
  destruct (Z.leb_spec (i + 4) e) as [Hlt|Hge].
  2:{ exists false. split; [done|]. split; [done|]. intros (j & Hj & _). lia. }
  rewrite slice_here by lia. change (Z.to_nat 4) with 4%nat. cbn [obind]. case_bool_decide as Hin.
  - exists true. split; [done|]. split; [|done]. intros _. exists 0%nat. rewrite Nat.mul_0_r, Nat.add_0_r. split; [lia|done].
  - destruct (IH (i + 4)) as (b & Hb & Hiff); [lia..|]. exists b. split; [done|]. rewrite Hiff. split.
    + intros (j & Hj & Hbr). exists (S j). replace (Z.to_nat i + 4 * S j)%nat with (Z.to_nat (i + 4) + 4 * j)%nat by lia. split; [lia|done].
    + intros ([|j] & Hj & Hbr); [by rewrite Nat.mul_0_r, Nat.add_0_r in Hbr|].
      exists j. replace (Z.to_nat (i + 4) + 4 * j)%nat with (Z.to_nat i + 4 * S j)%nat by lia. split; [lia|done].
Qed.

Lemma starts_4 p d : length p = 4%nat → starts p d = true ↔ take 4 d = p.
Proof. intros Hp. unfold starts. by rewrite bool_decide_eq_true, Hp. Qed.

Lemma unsafe_spec d : ∃ b, isUnsafeImageContainer d = Ok b ∧ (b = true ↔ container d).
Proof.
  unfold isUnsafeImageContainer, container. destruct (_ || _) eqn:Et.
  { exists true. split; [done|]. split; [|done]. intros _. left.
    rewrite !orb_true_iff, !starts_4 in Et by done. destruct_or! Et; eexists; (split; [|exact Et]); set_solver. }
  rewrite !orb_false_iff, <- !not_true_iff_false, !starts_4 in Et by done.
  assert (Hm : ¬ ∃ magic, magic ∈ [[73; 73; 42; 0]; [77; 77; 0; 42]; [73; 73; 43; 0]; [77; 77; 0; 43]] ∧ take 4 d = magic).
  { intros (magic & Hin & Hd). set_unfold. naive_solver. }
  destruct (Z.ltb_spec (blen d) 12) as [Hs|Hs].
  { exists false. split; [done|]. split; [done|]. intros [?|[? _]]; [done|lia]. }
  change (slice d 4 8) with (slice d (0 + 4) (0 + 8)). change (slice d 8 12) with (slice d (0 + 8) (0 + 12)).
  rewrite !slice_rest by lia. rewrite !drop_0. change (Z.to_nat (8 - 4)) with 4%nat. change (Z.to_nat (12 - 8)) with 4%nat.
  change (Z.to_nat 4) with 4%nat. change (Z.to_nat 8) with 8%nat. cbn [obind]. case_bool_decide as Hf; cbn [negb].
  2:{ exists false. split; [done|]. split; [done|]. intros [?|(_ & ? & _)]; done. }
  case_bool_decide as Hb.
  { exists true. split; [done|]. split; [|done]. intros _. right. split; [done|]. split; [done|]. by left. }
  rewrite be_here by lia. change (Z.to_nat 4) with 4%nat. rewrite drop_0. cbn [obind]. set (box := be (take 4 d)).
  destruct (brand_loop_spec (S (length d)) d (if (16 <=? box) && (box <? blen d) then box else blen d) 16) as (b & Hbl & Hiff);
    [lia|destruct (_ && _) eqn:E; [bools|]; lia|destruct (_ && _) eqn:E; [bools|]; unfold blen in *; lia|lia|].
  exists b. split; [done|]. rewrite Hiff. split; [intros Hj; right; split; [done|]; split; [done|]; by right|].
  intros [?|(_ & _ & [?|?])]; done.
Qed.

(** ** Kinds *)

Lemma kind_jpeg d : starts [255; 216; 255] d = true → kind_of d = Some JPEG.
Proof. intros H. unfold kind_of. by rewrite H. Qed.

Lemma kind_starts d k : kind_of d = Some k →
  match k with
  | JPEG => starts [255; 216; 255] d = true
  | PNG => starts png_sig d = true
  | GIF => take 6 d = codes "GIF87a" ∨ take 6 d = codes "GIF89a"
  | WebP => starts (codes "RIFF") d = true ∧ take 4 (drop 8 d) = codes "WEBP"
  end.
Proof.
  unfold kind_of. destruct (starts [255; 216; 255] d) eqn:E1; [by intros [= <-]|].
  destruct (starts png_sig d) eqn:E2; [by intros [= <-]|]. destruct (_ || _) eqn:E3.
  { intros [= <-]. apply orb_true_iff in E3 as [E3|E3]; apply bool_decide_eq_true in E3; [by left|by right]. }
  destruct (_ && _) eqn:E4; [|done]. intros [= <-]. by apply andb_true_iff in E4 as [? ?%bool_decide_eq_true].
Qed.

(** The kind is in the first twelve bytes. *)
Lemma kind_of_head d d' : take 12 d = take 12 d' → kind_of d = kind_of d'.
Proof.
  intros H. assert (Hs : ∀ p, (length p ≤ 12)%nat → starts p d = starts p d').
  { intros p Hp. unfold starts. replace (length p) with (length p `min` 12)%nat by lia. by rewrite <- !take_take, H. }
  unfold kind_of. rewrite !Hs by (cbn; lia).
  replace (take 4 (drop 8 d)) with (take 4 (drop 8 d')); [done|].
  assert (Hd : ∀ x : bytes, take 4 (drop 8 x) = drop 8 (take 12 x)) by (intros; by rewrite skipn_firstn_comm).
  by rewrite !Hd, H.
Qed.

Lemma starts_soi d : kind_of d = Some JPEG → starts [255; 216] d = true.
Proof.
  intros Hk%kind_starts%bool_decide_eq_true. unfold starts. apply bool_decide_eq_true.
  change (length [255; 216]) with (2 `min` 3)%nat. rewrite <- take_take. change (length [255; 216; 255]) with 3%nat in Hk. by rewrite Hk.
Qed.

(** The code computes what [ImgFormats] says. *)
Lemma strip_kind_read d k p : is_bytes d → kind_of d = Some k → read k d = Some p → strip_kind k d = Ok (render (clean p)).
Proof.
  intros Hd Hk Hr. destruct k; cbn [strip_kind].
  - apply stripJPEG_read; [by apply starts_soi|done].
  - by rewrite stripPNG_read, Hr by (done || by apply (kind_starts _ _ Hk)).
  - by rewrite stripGIF_read, Hr by (done || by apply (kind_starts _ _ Hk)).
  - by rewrite stripWebP_read, Hr by (done || by apply (kind_starts _ _ Hk)).
Qed.

(** C29: an upload is taken apart as its format says.  For every byte string,
    [stripImageMetadata] ends without reading out of range, and its result is:
    for a file that starts like a JPEG, PNG, GIF or WebP, the picture it reads as
    with the metadata taken out, or a refusal when it does not read as one; of
    the rest, a refusal for TIFF and the HEIF family, wherever the image brand
    stands among the container's, and the file itself for everything else.  The
    one exception to the refusals: of a file that would be a JPEG if 00 were a
    marker byte, what is made is that picture without the segments marked as
    metadata. *)
Theorem strip_exact d : is_bytes d →
  match kind_of d with
  | Some k =>
      match read k d with
      | Some p => stripImageMetadata d = Ok (render (clean p))
      | None => (∀ p, k = JPEG → null_marked d p → stripImageMetadata d = Ok (render (clean p))) ∧
                ((k = JPEG → ∀ p, ¬ null_marked d p) → stripImageMetadata d = Bad)
      end
  | None => (container d → stripImageMetadata d = Bad) ∧ (¬ container d → stripImageMetadata d = Ok d)
  end.
Proof.
  intros Hd. unfold stripImageMetadata. destruct (kind_of d) as [k|] eqn:Ek.
  - destruct (read k d) as [p|] eqn:Er; [by apply strip_kind_read|]. apply kind_starts in Ek as Hs. destruct k; cbn [strip_kind].
    + destruct (stripJPEG_unread d (starts_soi d Ek) Er) as [H1 H2]. split; [by intros p _; apply H1|auto].
    + by rewrite stripPNG_read, Er by done.
    + by rewrite stripGIF_read, Er by done.
    + destruct Hs. by rewrite stripWebP_read, Er by done.
  - destruct (unsafe_spec d) as (b & -> & Hb). cbn. destruct b; [by split; [|intros []; apply Hb]|].
    split; [intros Hc%Hb; done|done].
Qed.

(** ** Reading back *)

Lemma blen_edits (edit : bytes → option bytes) (He : ∀ b b' : bytes, edit b = Some b' → (length b' ≤ length b)%nat) bs :
  (length (concat (omap edit bs)) ≤ length (concat bs))%nat.
Proof.
  induction bs as [|b bs IH]; [done|]. cbn [omap list_omap concat]. rewrite length_app. destruct (edit b) as [b'|] eqn:E; [|lia].
  cbn [concat]. rewrite length_app. apply He in E. lia.
Qed.

Lemma webp_edit_len b b' : webp_edit b = Some b' → (length b' ≤ length b)%nat.
Proof.
  unfold webp_edit. destruct (bool_decide _); [done|]. destruct (bool_decide _); intros [= <-]; [|done].
  by rewrite (proj1 (clear_flags_blocks b)).
Qed.

Lemma le_bound b : is_bytes b → 0 ≤ le b < 256 ^ blen b.
Proof.
  unfold blen. induction 1 as [|x b Hx _ IH]; [done|]. cbn [le foldr length]. rewrite Nat2Z.inj_succ, Z.pow_succ_r by lia. fold (le b). lia.
Qed.

Lemma le_put n v : 0 ≤ v < 256 ^ Z.of_nat n → le (put_le n v) = v ∧ length (put_le n v) = n.
Proof.
  revert v. induction n as [|n IH]; intros v Hv; [cbn in *; split; [lia|done]|]. rewrite Nat2Z.inj_succ, Z.pow_succ_r in Hv by lia.
  cbn [put_le le foldr length]. fold (le (put_le n (v / 256))).
  destruct (IH (v / 256)) as [-> ->]. { split; [apply Z.div_pos; lia|apply Z.div_lt_upper_bound; lia]. }
  split; [|done]. pose proof (Z.div_mod v 256). lia.
Qed.

Lemma read_back_webp d cs : is_bytes d → read WebP d = Some (WebpPicture cs) →
  read WebP (render (clean (WebpPicture cs))) = Some (clean (WebpPicture cs)) ∧ omap webp_edit (omap webp_edit cs) = omap webp_edit cs.
Proof.
  intros Hd Hr. cbn [read] in Hr. set (n := le (take 4 (drop 4 d))) in *. destruct (_ || _) eqn:E; [done|]. bools.
  destruct (blocks _) as [bs|] eqn:Eb; [|done]. cbn in Hr. simplify_eq.
  destruct (edited_blocks webp_edit _ _ Eb) as [Hbs Htw]. split; [|done]. apply blocks_cover in Eb; [|done].
  apply (f_equal length) in Eb. rewrite length_take, length_drop in Eb.
  assert (Hn : 0 ≤ n < 2 ^ 32).
  { assert (Hb : is_bytes (take 4 (drop 4 d))) by (by apply Forall_take, Forall_drop). pose proof (le_bound _ Hb).
    unfold blen in *. rewrite length_take, length_drop, Nat.min_l in H by lia. done. }
  pose proof (blen_edits webp_edit webp_edit_len cs) as Hle. cbn [clean render]. set (body := concat (omap webp_edit cs)) in *.
  assert (Hsize : 0 ≤ blen body + 4 < 2 ^ 32) by (unfold blen in *; lia). rewrite Z.mod_small by done.
  destruct (le_put 4 (blen body + 4)) as [Hput Hlen]; [done|]. set (sz := put_le 4 (blen body + 4)) in *.
  cbn [read]. rewrite (drop_app_length' (codes "RIFF")) by done. rewrite (take_app_length' sz) by done.
  rewrite Hput. change 12%nat with (4 + (4 + 4))%nat. rewrite <- !drop_drop. rewrite (drop_app_length' (codes "RIFF")) by done.
  rewrite (drop_app_length' sz) by done. rewrite (drop_app_length' (codes "WEBP")) by done.
  assert (Htot : blen (codes "RIFF" ++ sz ++ codes "WEBP" ++ body) = blen body + 12).
  { unfold blen. rewrite !length_app, Hlen. cbn. lia. }
  rewrite Htot. destruct (_ || _) eqn:E'; [bools; unfold blen in *; lia|].
  rewrite take_ge by (unfold blen; lia). by rewrite Hbs.
Qed.

Lemma read_back_png d cs : read PNG d = Some (PngPicture cs) →
  read PNG (render (clean (PngPicture cs))) = Some (clean (PngPicture cs)) ∧ omap png_edit (omap png_edit cs) = omap png_edit cs.
Proof.
  cbn [read]. destruct (blocks _) as [bs|] eqn:Eb; [|done]. intros [= ->].
  destruct (edited_blocks png_edit _ _ Eb) as [Hbs Htw]. split; [|done]. cbn [clean render read].
  change 8%nat with (length png_sig). by rewrite drop_app_length, Hbs.
Qed.

Lemma read_back_gif d s bs : read GIF d = Some (GifPicture s bs) →
  read GIF (render (clean (GifPicture s bs))) = Some (clean (GifPicture s bs)) ∧ omap gif_edit (omap gif_edit bs) = omap gif_edit bs.
Proof.
  cbn [read]. set (h := 13 + table_size (nth 10 d 0)). destruct (_ || _) eqn:E; [done|]. bools.
  destruct (blocks _) as [bs'|] eqn:Eb; [|done]. intros [= <- ->]. destruct (edited_blocks gif_edit _ _ Eb) as [Hbs Htw].
  split; [|done]. cbn [clean render read]. pose proof (table_size_nonneg (nth 10 d 0)).
  rewrite nth_local by (unfold blen in *; lia). fold h. set (out := take (Z.to_nat h) d ++ _).
  assert (Hout : h ≤ blen out) by (unfold out, blen in *; rewrite length_app, length_take; lia).
  replace ((blen out <? 13) || (blen out <? h)) with false.
  2:{ symmetry. apply orb_false_iff. split; apply Z.ltb_ge; lia. }
  assert (Hlen : Z.to_nat h = length (take (Z.to_nat h) d)) by (rewrite length_take; unfold blen in *; lia).
  unfold out. rewrite (drop_app_length' (take (Z.to_nat h) d)) by done. rewrite (take_app_length' (take (Z.to_nat h) d)) by done. by rewrite Hbs.
Qed.

Lemma written_head ss e : well_formed ends_scan ss e → ∃ y, written ss e = 255 :: y.
Proof. destruct ss as [|[m|m body|header scan] ss]; cbn; [intros ->| | |]; intros; by eexists. Qed.

Lemma read_back_jpeg d ss e : read JPEG d = Some (JpegPicture ss e) → let q := settled (clean (JpegPicture ss e)) in
  render q = render (clean (JpegPicture ss e)) ∧ read JPEG (render q) = Some q ∧ clean q = q ∧
  starts [255; 216; 255] (render q) = true.
Proof.
  cbn [read]. destruct (segments _ _ _) as [[ss' e']|] eqn:Es; [|done]. cbn [mbind option_bind]. intros [= -> ->].
  cbv zeta. cbn [clean settled]. rewrite settle_orientation. set (o := orientation_of 0 ss).
  set (kept := settle (filter (λ s, jpeg_meta s = false) ss)).
  assert (Hw : well_formed ends_scan (orientation_kept o ++ kept) e).
  { by apply orientation_written, settle_well_formed, (segments_kept _ _ _ _ Es). }
  assert (Hm : Forall (λ s, jpeg_meta s = false) kept).
  { apply settle_meta, Forall_forall. intros s [? _]%list_elem_of_filter. done. }
  split_and!.
  - cbn [render]. f_equal. unfold kept. rewrite <- settle_orientation. apply settle_written.
  - cbn [render]. fold (written (orientation_kept o ++ kept) e). change (drop 2 ([255; 216] ++ ?x)) with x.
    cbn [app drop]. rewrite segments_written; [done|done|]. cbn. lia.
  - rewrite (kept_orientation o kept Hm). f_equal. f_equal. rewrite filter_app. rewrite (filter_none _ (orientation_kept _)).
    + cbn [app]. by apply filter_all.
    + unfold orientation_kept. destruct (_ || _); by repeat constructor.
  - cbn [render]. fold (written (orientation_kept o ++ kept) e). destruct (written_head _ _ Hw) as [y Hy]. by rewrite Hy.
Qed.

Lemma read_kind k d p : read k d = Some p →
  match k, p with JPEG, JpegPicture _ _ | PNG, PngPicture _ | GIF, GifPicture _ _ | WebP, WebpPicture _ => True | _, _ => False end.
Proof.
  destruct k; cbn [read].
  - destruct (segments _ _ _) as [[??]|]; by intros [= <-].
  - destruct (blocks _); by intros [= <-].
  - destruct (_ || _); [done|]. destruct (blocks _); by intros [= <-].
  - destruct (_ || _); [done|]. destruct (blocks _); by intros [= <-].
Qed.

(** ** The kind of what is stored *)

Lemma kind_gif d : take 6 d = codes "GIF87a" ∨ take 6 d = codes "GIF89a" → kind_of d = Some GIF.
Proof.
  intros H. unfold kind_of.
  assert (Hs : ∀ p, (length p ≤ 6)%nat → starts p (codes "GIF87a") = false → starts p (codes "GIF89a") = false → starts p d = false).
  { intros p Hp H1 H2. unfold starts in *. replace (length p) with (length p `min` 6)%nat in H1, H2 |- * by lia.
    rewrite <- take_take in H1, H2 |- *. destruct H as [-> | ->]; done. }
  rewrite (Hs [255; 216; 255]) by (done || cbn; lia).
  assert (Hpng : starts png_sig d = false).
  { unfold starts. apply bool_decide_eq_false. intros Hp. apply (f_equal (take 6)) in Hp. rewrite take_take in Hp. cbn in Hp.
    destruct H as [H|H]; rewrite H in Hp; done. }
  rewrite Hpng. unfold starts. change (length (codes "GIF87a")) with 6%nat. change (length (codes "GIF89a")) with 6%nat.
  destruct H as [-> | ->]; done.
Qed.

Lemma kind_webp sz body : length sz = 4%nat → kind_of (codes "RIFF" ++ sz ++ codes "WEBP" ++ body) = Some WebP.
Proof. intros Hsz. destruct sz as [|a [|b [|c [|d [|]]]]]; done. Qed.

Lemma is_bytes_edits (edit : bytes → option bytes) (He : ∀ b b', edit b = Some b' → b' = b) bs :
  is_bytes (concat bs) → is_bytes (concat (omap edit bs)).
Proof.
  induction bs as [|b bs IH]; [done|]. cbn [concat omap list_omap]. intros [Hb Hbs]%Forall_app.
  destruct (edit b) as [b'|] eqn:E; [|by apply IH]. rewrite (He _ _ E). apply Forall_app. split; [done|by apply IH].
Qed.

Lemma read_gif_bytes d s bs : is_bytes d → read GIF d = Some (GifPicture s bs) →
  is_bytes (s ++ concat (omap gif_edit bs)) ∧ take 6 s = take 6 d.
Proof.
  intros Hd. cbn [read]. destruct (_ || _) eqn:E; [done|]. bools. destruct (blocks _) as [bs'|] eqn:Eb; [|done].
  intros [= <- ->]. apply blocks_chain in Eb as [_ [r Hr]]. pose proof (table_size_nonneg (nth 10 d 0)). split.
  - apply Forall_app. split; [by apply Forall_take|]. apply is_bytes_edits; [apply gif_edit_some|].
    assert (Hdr : is_bytes (drop (Z.to_nat (13 + table_size (nth 10 d 0))) d)) by (by apply Forall_drop). rewrite Hr in Hdr.
    by apply Forall_app in Hdr as [? _].
  - rewrite take_take. f_equal. unfold blen in *. lia.
Qed.

(** What is stored of a picture: the same bytes as the settled picture, which
    reads back and has nothing left to take out. *)
Lemma stored_again k d p : is_bytes d → kind_of d = Some k → read k d = Some p → let q := settled (clean p) in
  render q = render (clean p) ∧ kind_of (render q) = Some k ∧ read k (render q) = Some q ∧ clean q = q ∧
  (k = GIF → is_bytes (render q)).
Proof.
  intros Hd Hk Hr. cbv zeta. pose proof (read_kind k d p Hr) as Hkp. destruct k, p; try done.
  - destruct (read_back_jpeg _ _ _ Hr) as (H1 & H2 & H3 & H4). split_and!; [done|by apply kind_jpeg|done|done|done].
  - destruct (read_back_png _ _ Hr) as [H2 H3]. split_and!; [done|done|done|cbn; by rewrite H3|done].
  - destruct (read_back_gif _ _ _ Hr) as [H2 H3]. destruct (read_gif_bytes _ _ _ Hd Hr) as [Hb Ht].
    split_and!; [done| |done|cbn; by rewrite H3|done]. apply kind_gif. cbn [settled clean render]. apply kind_starts in Hk.
    assert (Hlen : (6 ≤ length screen)%nat).
    { apply (f_equal length) in Ht. rewrite !length_take in Ht. destruct Hk as [Hk|Hk]; apply (f_equal length) in Hk; rewrite length_take in Hk;
        cbn [codes fmap list_fmap length String.list_ascii_of_string] in Hk; lia. }
    by rewrite take_app_le, Ht by done.
  - destruct (read_back_webp _ _ Hd Hr) as [H2 H3]. split_and!; [done| |done|cbn; by rewrite H3|done]. by apply kind_webp.
Qed.

(** C30: a stored image is the picture without its metadata.  Let an upload read
    as a JPEG, PNG, GIF or WebP.  What is stored is of the same kind, and reads
    back as exactly the blocks of the upload that are not metadata, in order and
    unchanged but for the feature flags of a WebP, a JPEG with nothing of its
    EXIF data but a turned orientation (and a restart marker that stood outside a
    scan read as part of the scan it now follows); and there is nothing left to
    take out: stripping it again changes no byte. *)
Theorem strip_clean d k p : is_bytes d → kind_of d = Some k → read k d = Some p →
  ∃ out, stripImageMetadata d = Ok out ∧ kind_of out = Some k ∧ read k out = Some (settled (clean p)) ∧
    clean (settled (clean p)) = settled (clean p) ∧ stripImageMetadata out = Ok out.
Proof.
  intros Hd Hk Hr. destruct (stored_again k d p Hd Hk Hr) as (H1 & H2 & H3 & H4 & H5). rewrite H1 in *.
  exists (render (clean p)). unfold stripImageMetadata. rewrite Hk, H2, (strip_kind_read d k p) by done. split_and!; [done..|].
  apply kind_starts in H2 as Hs. destruct k; cbn [strip_kind].
  - rewrite (stripJPEG_read _ _ (starts_soi _ H2) H3), H4. by rewrite H1.
  - by rewrite stripPNG_read, H3, H4, H1 by done.
  - by rewrite stripGIF_read, H3, H4, H1 by auto.
  - destruct Hs. by rewrite stripWebP_read, H3, H4, H1 by done.
Qed.

(** ** Samples *)

(** A photo held sideways: EXIF with the orientation 6 and a place, a comment, a
    table, a scan with a stuffed FF and a restart marker, and a film after it. *)
Definition sample_exif : bytes :=
  [69; 120; 105; 102; 0; 0; 73; 73; 42; 0; 8; 0; 0; 0; 2; 0;
   37; 136; 4; 0; 1; 0; 0; 0; 99; 0; 0; 0; 18; 1; 3; 0; 1; 0; 0; 0; 6; 0; 0; 0; 0; 0; 0; 0].

Definition sample_jpeg : bytes :=
  [255; 216; 255; 225; 0; 46] ++ sample_exif ++ [255; 254; 0; 4; 104; 105; 255; 219; 0; 3; 7; 255; 255; 218; 0; 2;
   1; 255; 0; 2; 255; 209; 3; 255; 217; 102; 116; 121; 112].

Definition sample_clean_jpeg : bytes :=
  [255; 216] ++ orientation_segment 6 ++ [255; 219; 0; 3; 7; 255; 218; 0; 2; 1; 255; 0; 2; 255; 209; 3; 255; 217].

Example sample_strips : stripImageMetadata sample_jpeg = Ok sample_clean_jpeg.
Proof. by vm_compute. Qed.

Lemma sample_is_bytes : is_bytes sample_jpeg.
Proof. apply (bool_decide_unpack (Forall (λ b, 0 ≤ b < 256) sample_jpeg)). by vm_compute. Qed.

Lemma strip_exact_witness :
  is_bytes sample_jpeg ∧
  stripImageMetadata sample_jpeg = Ok (render (clean (JpegPicture
    [Segment 225 ([0; 46] ++ sample_exif); Segment 254 [0; 4; 104; 105]; Segment 219 [0; 3; 7];
     Scan [0; 2] [1; 255; 0; 2; 255; 209; 3]] true))).
Proof. split; [exact sample_is_bytes|]. exact (strip_exact sample_jpeg sample_is_bytes). Defined.

Lemma strip_clean_witness : ∃ p out,
  read JPEG sample_jpeg = Some p ∧ stripImageMetadata sample_jpeg = Ok out ∧ read JPEG out = Some (settled (clean p)) ∧
  stripImageMetadata out = Ok out.
Proof.
  destruct (strip_clean sample_jpeg JPEG
    (JpegPicture [Segment 225 ([0; 46] ++ sample_exif); Segment 254 [0; 4; 104; 105]; Segment 219 [0; 3; 7];
                  Scan [0; 2] [1; 255; 0; 2; 255; 209; 3]] true)) as (out & H1 & H2 & H3 & H4 & H5).
  - exact sample_is_bytes.
  - reflexivity.
  - vm_compute. reflexivity.
  - eexists _, out. split; [vm_compute; reflexivity|]. split; [exact H1|]. split; [exact H3|exact H5].
Defined.

(** A restart marker outside a scan, once the comment between them is gone. *)
Example stray_restart : let d := [255; 216; 255; 218; 0; 2; 1; 255; 254; 0; 3; 9; 255; 211; 255; 217] in
  stripImageMetadata d = Ok [255; 216; 255; 218; 0; 2; 1; 255; 211; 255; 217] ∧
  (settled ∘ clean <$> read JPEG d) = Some (JpegPicture [Scan [0; 2] [1; 255; 211]] true).
Proof. split; by vm_compute. Qed.

(** After a scan, a segment with the marker 00 is kept although FF 00 is no
    marker and decoders read it as scan data; what it hides is then a segment of
    its own.  So a file that is no JPEG before is one after, with the metadata
    that stripping should have taken out. *)
Definition smuggling_jpeg : bytes :=
  [255; 216; 255; 218; 0; 2; 1; 255; 224; 0; 2; 255; 0; 0; 10; 255; 225; 0; 6; 71; 80; 83; 33; 255; 217].

Lemma null_marker_smuggles : ∃ out ss,
  read JPEG smuggling_jpeg = None ∧ stripImageMetadata smuggling_jpeg = Ok out ∧
  read JPEG out = Some (JpegPicture ss true) ∧
  Segment 225 [0; 6; 71; 80; 83; 33] ∈ ss ∧ stripImageMetadata out ≠ Ok out.
Proof.
  eexists _, _. split; [by vm_compute|]. split; [vm_compute; reflexivity|]. split; [vm_compute; reflexivity|].
  split; [by right; left|]. by vm_compute.
Qed.

(** The other formats. *)
Example png_sample :
  stripImageMetadata (png_sig ++ [0; 0; 0; 1; 116; 69; 88; 116; 9; 1; 2; 3; 4] ++ [0; 0; 0; 0; 73; 69; 78; 68; 5; 6; 7; 8] ++ [1; 1]) =
  Ok (png_sig ++ [0; 0; 0; 0; 73; 69; 78; 68; 5; 6; 7; 8]).
Proof. by vm_compute. Qed.

Example gif_sample :
  stripImageMetadata (codes "GIF89a" ++ [1; 0; 1; 0; 0; 0; 0] ++ [33; 254; 2; 104; 105; 0] ++
    [44; 0; 0; 0; 0; 1; 0; 1; 0; 0; 2; 1; 7; 0; 59; 8]) =
  Ok (codes "GIF89a" ++ [1; 0; 1; 0; 0; 0; 0] ++ [44; 0; 0; 0; 0; 1; 0; 1; 0; 0; 2; 1; 7; 0; 59]).
Proof. by vm_compute. Qed.

Example webp_sample :
  stripImageMetadata (codes "RIFF" ++ [40; 0; 0; 0] ++ codes "WEBP" ++ codes "VP8X" ++ [10; 0; 0; 0; 12; 0; 0; 0; 0; 0; 0; 0; 0; 0] ++
    codes "EXIF" ++ [1; 0; 0; 0; 5; 0] ++ [1; 2; 3]) = Bad.
Proof. by vm_compute. Qed.

Example webp_stripped :
  stripImageMetadata (codes "RIFF" ++ [32; 0; 0; 0] ++ codes "WEBP" ++ codes "VP8X" ++ [10; 0; 0; 0; 12; 0; 0; 0; 0; 0; 0; 0; 0; 0] ++
    codes "EXIF" ++ [1; 0; 0; 0; 5; 0] ++ [1; 2; 3]) =
  Ok (codes "RIFF" ++ [22; 0; 0; 0] ++ codes "WEBP" ++ codes "VP8X" ++ [10; 0; 0; 0; 0; 0; 0; 0; 0; 0; 0; 0; 0; 0]).
Proof. by vm_compute. Qed.
