(* ===== verification/Uploads.v ===== *)
(** * Uploaded files: the store of [internal/server/uploads.go]

    The upload directory is a map from names to files and, in [.meta], from names
    to sidecars.  A handler is one step; its user is the one [requireUser] let
    through.  What is read from a multipart body and from the custom host's
    answer is an argument. *)

From Stdlib Require Import ZArith Lia Ascii Bool SpecFloat.
From stdpp Require Import base tactics list gmap strings sorting.
From S2P Require Import Prelude GoStrings GoNet WebProto WebDto ImgStrip.

#[local] Open Scope Z_scope.

(** ** How long a file is kept *)

Definition minUploadAge : Z := 3 * 24 * hour.
Definition maxUploadAge : Z := 7 * 24 * hour.

(** A [float64], and back to an integer. *)
Definition float64 (z : Z) : spec_float := binary_normalize 53 1024 z 0 false.

Definition trunc64 (f : spec_float) : Z :=
  match f with
  | S754_finite s m e =>
      let v := if 0 <=? e then Zpos m * 2 ^ e else Zpos m / 2 ^ (- e) in if s then - v else v
  | _ => 0
  end.

Definition uploadTTL (maxUpload size : Z) : Z :=
  let one := float64 1 in
  let ratio := SFdiv 53 1024 (float64 size) (float64 maxUpload) in
  let ratio := if SFltb one ratio then one else ratio in
  let ratio := if SFltb ratio (float64 0) then float64 0 else ratio in
  let left := SFsub 53 1024 one ratio in
  minUploadAge + trunc64 (SFmul 53 1024 (SFmul 53 1024 (float64 (maxUploadAge - minUploadAge)) left) left).

(** ** Files and sidecars *)

Record uploadMeta := UploadMeta {
  um_owner : string;
  um_name : string;
  um_uploaded : time;
  um_size : Z;
  um_url : string;
}.

Record upload_file := UploadFile { uf_data : bytes; uf_mtime : time }.

(** The sidecars under their file names; [None] is one that does not parse. *)
Record upload_dir := UploadDir {
  ud_files : gmap string upload_file;
  ud_meta : gmap string (option uploadMeta);
}.

#[export] Instance eta_upload_dir : Eta upload_dir := λ r, UploadDir (ud_files r) (ud_meta r).

(** [uploadMetaPath], within [.meta]. *)
Definition meta_name (stored : string) : string := stored +:+ ".json".

(** [strings.CutSuffix(name, ".json")]. *)
Definition cut_json (name : string) : option string :=
  if has_suffix ".json" name then Some (trim_suffix ".json" name) else None.

Record upload_options := UploadOptions {
  uo_max : Z;
  uo_custom : bool;                    (** mode custom *)
  uo_field : string;                   (** [ResponseField] *)
  uo_dir : bool;                       (** there is an upload directory *)
}.

(** The world during a request: the clock, [randomName], which writes succeed. *)
Record upload_env := UploadEnv {
  ue_now : time;
  ue_random : string;
  ue_dir_ok : bool;
  ue_create_ok : bool;
  ue_write_ok : bool;
  ue_meta_ok : bool;
  ue_readdir_ok : bool;
  ue_unlink_ok : bool;                 (** a file's removal *)
  ue_remove_ok : bool;                 (** a sidecar's *)
}.

(** What the multipart body holds. *)
Inductive upload_form := FormTooLarge | FormNoFile | FormBroken | FormFile (name : string) (data : bytes).

(** What the custom host answers. *)
Inductive remote := RemoteFailed | RemoteBroken | RemoteAnswer (status : Z) (body : string).

Record uploadEntry := UploadEntry {
  en_id : string;
  en_url : string;
  en_name : string;
  en_size : Z;
  en_uploaded : time;
  en_expires : time;
}.

Inductive upload_answer :=
  | URefused (code : Z) (text : string)
  | UStored (id url name expires : string)
  | UListed (entries : list uploadEntry)
  | UDeleted.

(** ** Names *)

(** [filepath.Ext]: from the last dot of the last element on. *)
Definition path_ext (p : string) : string :=
  let base := match last_index_byte SLASH p with Some i => str_drop (S i) p | None => p end in
  match last_index_byte "." base with Some i => str_drop i base | None => "" end.

Definition ext_byte (a : ascii) : bool := between 97 122 (byte_z a) || between 48 57 (byte_z a).

(** The order of the list. *)
Definition newer (a b : uploadEntry) : Prop := en_uploaded b ≤ en_uploaded a.

#[export] Instance newer_dec : RelDecision newer.
Proof. intros a b. unfold newer. apply _. Defined.

#[export] Instance newer_total : Total newer.
Proof. intros a b. unfold newer. lia. Qed.

#[export] Instance newer_trans : Transitive newer.
Proof. intros a b c. unfold newer. lia. Qed.

Section uploads.
Context `{UnicodeTables, JsonText} (O : upload_options).

Definition safeExt (name : string) : string :=
  let ext := to_lower (path_ext name) in
  if (str_len ext <? 2) || (6 <? str_len ext) then ""
  else if str_all ext_byte (str_drop 1 ext) then ext else "".

Notation ttl := (uploadTTL (uo_max O)).

(** ** Storing *)

Definition put_meta (stored : string) (m : uploadMeta) (s : upload_dir) : upload_dir :=
  s <| ud_meta ::= <[meta_name stored := Some m]> |>.

(** An [any] behind a path of keys; a document's last value of a key counts. *)
Definition json_key (k : string) (j : json) : option json :=
  match j with
  | JObj l => snd <$> last (filter (λ e : string * json, e.1 = k) l)
  | _ => None
  end.

Definition json_string (j : json) : option string := match j with JStr s => Some s | _ => None end.

(** [parseCustomUploadResponse]; [None] is an error. *)
Definition parseCustomUploadResponse (body field : string) : option string :=
  if negb (String.eqb field "") then
    obj ← text_json body ≫= dec_any;
    cur ← foldl (λ cur part, cur ← cur; json_key part cur) (Some obj) (split_byte "." field);
    trim_space <$> json_string cur
  else
    let url :=
      m ← text_json body ≫= (λ j, dec_any_map j None);
      s ← default ∅ m !! "url"%string ≫= json_string;
      if String.eqb (trim_space s) "" then None else Some (trim_space s) in
    match url with
    | Some u => Some u
    | None => if String.eqb (trim_space body) "" then None else Some (trim_space body)
    end.

Definition expires (E : upload_env) (size : Z) : string := rfc3339 (ue_now E + ttl size).

(** [handleCustomUpload]. *)
Definition handleCustomUpload (E : upload_env) (user filename : string) (data : bytes) (answer : remote) (s : upload_dir) :
    upload_dir * upload_answer :=
  match answer with
  | RemoteFailed => (s, URefused 502 "custom upload request failed")
  | RemoteBroken => (s, URefused 500 "failed to read custom upload response")
  | RemoteAnswer status body =>
      if (status <? 200) || (300 <=? status) then (s, URefused 502 ("custom upload server error (" +:+ itoa status +:+ ")"))
      else match parseCustomUploadResponse body (uo_field O) with
           | None => (s, URefused 502 "failed to parse custom upload response")
           | Some url =>
               if String.eqb url "" then (s, URefused 502 "failed to parse custom upload response")
               else
                 let name := ue_random E in
                 let size := blen data in
                 let s := if uo_dir O && negb (String.eqb user "") && ue_meta_ok E
                          then put_meta name (UploadMeta user filename (ue_now E) size url) s else s in
                 (s, UStored name url filename (expires E size))
           end
  end.

(** [handleUpload], of a POST. *)
Definition post_upload (E : upload_env) (user : string) (form : upload_form) (answer : remote) (s : upload_dir) :
    upload_dir * upload_answer :=
  match form with
  | FormTooLarge => (s, URefused 413 "upload too large")
  | FormNoFile => (s, URefused 400 "missing file field")
  | FormBroken => (s, URefused 500 "read failed")
  | FormFile filename data =>
      if uo_max O <? blen data then (s, URefused 413 "upload too large")
      else match stripImageMetadata data with
           | Ok data =>
               if uo_custom O then handleCustomUpload E user filename data answer s
               else if negb (ue_dir_ok E) then (s, URefused 500 "server error")
               else
                 let name := ue_random E +:+ safeExt filename in
                 if negb (ue_create_ok E) then (s, URefused 500 "server error")
                 else if negb (ue_write_ok E) then (s <| ud_files ::= delete name |>, URefused 500 "write failed")
                 else
                   let s := s <| ud_files ::= <[name := UploadFile data (ue_now E)]> |> in
                   let size := blen data in
                   let s := if ue_meta_ok E then put_meta name (UploadMeta user filename (ue_now E) size "") s else s in
                   (s, UStored name ("/uploads/" +:+ name) filename (expires E size))
           | _ => (s, URefused 422 "unprocessable image")
           end
  end.

(** ** Listing *)

(** The entry of one sidecar in [user]'s list. *)
Definition entry_of (user : string) (s : upload_dir) (e : string * option uploadMeta) : option uploadEntry :=
  stored ← cut_json e.1;
  m ← e.2;
  if negb (String.eqb (um_owner m) user) then None
  else if negb (String.eqb (um_url m) "") then
    Some (UploadEntry stored (um_url m) (um_name m) (um_size m) (um_uploaded m) (um_uploaded m + ttl (um_size m)))
  else
    f ← ud_files s !! stored;
    let size := blen (uf_data f) in
    Some (UploadEntry stored ("/uploads/" +:+ stored) (um_name m) size (um_uploaded m) (um_uploaded m + ttl size)).

(** [handleUploadList], of a GET; entries of one time come in no order that is
    promised. *)
Definition handleUploadList (E : upload_env) (user : string) (s : upload_dir) : upload_answer :=
  if ue_readdir_ok E then UListed (merge_sort newer (omap (entry_of user s) (sorted_entries (ud_meta s))))
  else URefused 500 "server error".

(** ** Deleting *)

(** The three places of a request that may name an upload: the query, then the
    body. *)
Record delete_request := DeleteRequest {
  de_id : string; de_name : string; de_url : string;
  de_body : option (string * string * string);
}.

Definition first_given (l : list string) : string := default "" (find (λ s, negb (String.eqb s "")) l).

Definition delete_target (r : delete_request) : string :=
  let t := first_given [de_id r; de_name r; de_url r] in
  if negb (String.eqb t "") then t
  else match de_body r with Some (id, name, url) => first_given [id; name; url] | None => "" end.

(** A sidecar of [user] that the target names in some other way. *)
Definition names_upload (user target : string) (e : string * option uploadMeta) : option (string * uploadMeta) :=
  stored ← cut_json e.1;
  m ← e.2;
  if String.eqb (um_owner m) user &&
     (String.eqb (um_url m) target || String.eqb ("/uploads/" +:+ stored) target ||
      String.eqb (um_name m) target || String.eqb stored target)
  then Some (stored, m) else None.

(** The sidecar a target stands for. *)
Definition find_upload (user target stored : string) (s : upload_dir) : option (string * option uploadMeta) :=
  match ud_meta s !! meta_name stored with
  | Some m => Some (stored, m)
  | None =>
      e ← head (omap (names_upload user target) (sorted_entries (ud_meta s)));
      if String.eqb (fst e) "" then None else Some (fst e, Some (snd e))
  end.

(** [handleUploadDelete], of a DELETE. *)
Definition handleUploadDelete (E : upload_env) (user : string) (r : delete_request) (s : upload_dir) :
    upload_dir * upload_answer :=
  let target := delete_target r in
  if String.eqb target "" then (s, URefused 400 "missing upload identifier")
  else
    let stored := if has_prefix "/uploads/" target then path_base (trim_prefix "/uploads/" target) else path_base target in
    if String.eqb stored "." || String.eqb stored "/" || has_prefix "." stored then (s, URefused 400 "invalid upload identifier")
    else match find_upload user target stored s with
         | None => (s, URefused 404 "upload not found")
         | Some (stored, m) =>
             match m with
             | None => (s, URefused 404 "upload not found")
             | Some m =>
                 if negb (String.eqb (um_owner m) user) then (s, URefused 404 "upload not found")
                 else
                   let s := if String.eqb (um_url m) "" && ue_unlink_ok E then s <| ud_files ::= delete stored |> else s in
                   if ue_remove_ok E then (s <| ud_meta ::= delete (meta_name stored) |>, UDeleted)
                   else (s, URefused 500 "server error")
             end
         end.

(** ** Sweeping *)

Definition file_expired (now : time) (f : upload_file) : bool := ttl (blen (uf_data f)) <? time_sub now (uf_mtime f).

Definition sweep_file (now : time) (s : upload_dir) (e : string * upload_file) : upload_dir :=
  if file_expired now e.2 then s <| ud_files ::= delete e.1 |> <| ud_meta ::= delete (meta_name e.1) |> else s.

(** Whether a sidecar goes, given the files that are left. *)
Definition meta_stale (now : time) (files : gmap string upload_file) (stored : string) (m : option uploadMeta) : bool :=
  match m with
  | None => true
  | Some m =>
      if negb (String.eqb (um_url m) "") then ttl (um_size m) <? time_sub now (um_uploaded m)
      else bool_decide (files !! stored = None)
  end.

Definition sweep_meta (now : time) (s : upload_dir) (e : string * option uploadMeta) : upload_dir :=
  match cut_json e.1 with
  | None => s
  | Some stored => if meta_stale now (ud_files s) stored e.2 then s <| ud_meta ::= delete (meta_name stored) |> else s
  end.

(** [sweepUploads]. *)
Definition sweepUploads (now : time) (s : upload_dir) : upload_dir :=
  let s := foldl (sweep_file now) s (map_to_list (ud_files s)) in
  foldl (sweep_meta now) s (map_to_list (ud_meta s)).

(** ** Serving *)

(** The tree under the upload directory. *)
Inductive node := NDir | NFile (data : bytes) | NSidecar (m : option uploadMeta).

Definition tree (s : upload_dir) (path : list string) : option node :=
  match path with
  | [] => Some NDir
  | [name] => if String.eqb name ".meta" then Some NDir else NFile ∘ uf_data <$> ud_files s !! name
  | [dir; name] => if String.eqb dir ".meta" then NSidecar <$> ud_meta s !! name else None
  | _ => None
  end.

(** [http.Dir.Open]: the cleaned path below the directory. *)
Definition dir_open (s : upload_dir) (name : string) : option node :=
  tree s (filter (λ e, e ≠ ""%string) (split_byte SLASH (path_clean ("/" +:+ name)))).

(** [noListFS.Open]. *)
Definition noListFS_open (s : upload_dir) (name : string) : option node :=
  if existsb (has_prefix ".") (split_byte SLASH name) then None
  else match dir_open s name with Some NDir => None | n => n end.

(** [uploadFileServer]: what a path under [/uploads/] shows. *)
Definition serve_upload (s : upload_dir) (path : string) : option node :=
  if has_prefix "/uploads/" path then
    let p := trim_prefix "/uploads/" path in
    noListFS_open s (path_clean (if has_prefix "/" p then p else "/" +:+ p))
  else None.

(** ** The endpoints, and the store as a state machine *)

Inductive http_method := GET | POST | DELETE | OtherMethod.

Record upload_request := UploadRequest {
  ur_method : http_method;
  ur_user : string;
  ur_form : upload_form;
  ur_answer : remote;
  ur_target : delete_request;
}.

(** [/api/upload]. *)
Definition handleUpload (E : upload_env) (r : upload_request) (s : upload_dir) : upload_dir * upload_answer :=
  match ur_method r with
  | DELETE => handleUploadDelete E (ur_user r) (ur_target r) s
  | POST => post_upload E (ur_user r) (ur_form r) (ur_answer r) s
  | _ => (s, URefused 405 "method not allowed")
  end.

(** [/api/uploads]. *)
Definition handleUploads (E : upload_env) (r : upload_request) (s : upload_dir) : upload_dir * upload_answer :=
  match ur_method r with
  | DELETE => handleUploadDelete E (ur_user r) (ur_target r) s
  | GET => (s, handleUploadList E (ur_user r) s)
  | _ => (s, URefused 405 "method not allowed")
  end.

Inductive upload_input := UApi (r : upload_request) | UApiList (r : upload_request) | USweep.

Definition upload_step (E : upload_env) (i : upload_input) (s : upload_dir) : upload_dir * option upload_answer :=
  match i with
  | UApi r => prod_map id Some (handleUpload E r s)
  | UApiList r => prod_map id Some (handleUploads E r s)
  | USweep => (sweepUploads (ue_now E) s, None)
  end.
End uploads.

(** Four days less for the largest, by the square of what is left. *)
Example ttl_samples :
  (λ s, (uploadTTL 10485760 s - minUploadAge) / second) <$> [0; 5242880; 10485760; 20000000; -1] = [345600; 86400; 0; 0; 345600].
Proof. by vm_compute. Qed.
