(* ===== verification/UploadThms.v ===== *)
(** * Uploads: isolation, deletion, listing, expiry and serving

    What the handlers of [Uploads] promise: a user's requests touch that user's
    uploads only, a sweep removes what has expired and nothing else, a stored
    upload is served as the stripped bytes, and a sidecar never is. *)

From Stdlib Require Import ZArith Lia Ascii Bool SpecFloat.
From stdpp Require Import base tactics list gmap strings sorting.
From S2P Require Import Prelude GoStrings GoNet WebProto WebDto WebSample ImgStrip Uploads.

#[local] Open Scope Z_scope.

(** ** Names of sidecars *)

#[export] Instance meta_name_inj : Inj (=) (=) meta_name.
Proof. intros a b. apply str_app_inj_r. Qed.

Lemma cut_meta_name stored : cut_json (meta_name stored) = Some stored.
Proof.
  unfold cut_json, trim_suffix, meta_name.
  assert (Hs : has_suffix ".json" (stored +:+ ".json") = true).
  { unfold has_suffix. rewrite str_length_app. replace (_ - _)%nat with (String.length stored) by (simpl; lia).
    rewrite str_drop_app. apply andb_true_iff. split; [apply Nat.leb_le; simpl; lia|done]. }
  rewrite Hs, str_length_app. replace (_ - _)%nat with (String.length stored) by (simpl; lia). by rewrite str_take_app.
Qed.

Lemma cut_json_spec name stored : cut_json name = Some stored ↔ name = meta_name stored.
Proof.
  split; [|intros ->; apply cut_meta_name]. unfold cut_json, trim_suffix.
  destruct (has_suffix ".json" name) eqn:E; [|done]. intros [= <-].
  unfold has_suffix in E. apply andb_true_iff in E as [_ E]. apply String.eqb_eq in E.
  unfold meta_name. rewrite <- (str_take_drop (String.length name - String.length ".json") name) at 1. by rewrite E.
Qed.

Lemma elem_sorted_entries {A} (m : gmap string A) k a : (k, a) ∈ sorted_entries m ↔ m !! k = Some a.
Proof.
  unfold sorted_entries. rewrite <- elem_of_map_to_list. by rewrite (merge_sort_Permutation _ (map_to_list m)).
Qed.

(** ** Deleting many keys *)

Definition purge {A B} (f : A → option string) (m : gmap string B) (l : list A) : gmap string B :=
  foldl (λ m a, match f a with Some k => delete k m | None => m end) m l.

Lemma purge_lookup {A B} (f : A → option string) (m : gmap string B) l k b :
  purge f m l !! k = Some b ↔ m !! k = Some b ∧ ∀ a, a ∈ l → f a ≠ Some k.
Proof.
  unfold purge. revert m. induction l as [|a l IH]; intros m; simpl.
  - split; [|tauto]. intros H. split; [done|]. by intros a ?%elem_of_nil.
  - rewrite IH. setoid_rewrite elem_of_cons. destruct (f a) as [k'|] eqn:E.
    + rewrite lookup_delete_Some. naive_solver.
    + naive_solver.
Qed.

Section uploads.
Context `{UnicodeTables, JsonText} (O : upload_options).

Notation ttl := (uploadTTL (uo_max O)).
Notation step := (upload_step O).

(** ** Isolation *)

(** What belongs to a user: the sidecars, and the files behind them. *)
Definition holds (user stored : string) (m : uploadMeta) (s : upload_dir) : Prop :=
  ud_meta s !! meta_name stored = Some (Some m) ∧ um_owner m = user.

(** The fresh name of a request is no prefix of a name in use. *)
Definition fresh_name (E : upload_env) (s : upload_dir) : Prop :=
  ∀ ext, ud_meta s !! meta_name (ue_random E +:+ ext) = None ∧ ud_files s !! (ue_random E +:+ ext) = None.

(** Everything outside [user]'s uploads is the same in both stores. *)
Definition others_same (user : string) (s s' : upload_dir) : Prop :=
  ∀ other stored m, other ≠ user → holds other stored m s →
  ud_meta s' !! meta_name stored = Some (Some m) ∧ ud_files s' !! stored = ud_files s !! stored.

Lemma others_refl user s : others_same user s s.
Proof. intros other stored m _ [Hm _]. done. Qed.

Lemma find_upload_spec user target stored s name m :
  find_upload user target stored s = Some (name, Some m) → ud_meta s !! meta_name name = Some (Some m).
Proof.
  unfold find_upload. destruct (ud_meta s !! meta_name stored) eqn:E; [by intros [= <- ->]|].
  destruct (head _) as [[n v]|] eqn:Eh; [|done]. simpl. destruct (String.eqb n ""); [done|]. intros [= <- <-].
  apply head_Some_elem_of, list_elem_of_omap in Eh as ([k om] & Hk & Hn). apply elem_sorted_entries in Hk.
  unfold names_upload in Hn. simpl in Hn. destruct (cut_json k) as [st|] eqn:Ec; [|done]. simpl in Hn.
  destruct om as [m'|]; [|done]. simpl in Hn. destruct (_ && _); [|done]. injection Hn as <- <-.
  apply cut_json_spec in Ec as ->. done.
Qed.

Lemma delete_isolated E user r s : others_same user s (handleUploadDelete E user r s).1.
Proof.
  unfold handleUploadDelete. destruct (String.eqb _ _); [apply others_refl|].
  set (st := if has_prefix _ _ then _ else _). destruct (_ || _); [apply others_refl|].
  destruct (find_upload user _ st s) as [[name [m|]]|] eqn:Ef; [|apply others_refl..].
  destruct (String.eqb (um_owner m) user) eqn:Eo; simpl; [|apply others_refl].
  apply String.eqb_eq in Eo. apply find_upload_spec in Ef.
  intros other stored m' Hne [Hm' Ho]. assert (stored ≠ name) by (intros ->; congruence).
  assert (meta_name name ≠ meta_name stored) by (intros E'%(inj meta_name); congruence).
  destruct (_ && _), (ue_remove_ok E); simpl; rewrite ?lookup_delete_ne by done; done.
Qed.

Lemma put_meta_isolated user stored m s : ud_meta s !! meta_name stored = None → others_same user s (put_meta stored m s).
Proof.
  intros Hf other st m' _ [Hm _]. simpl. rewrite lookup_insert_ne by congruence. done.
Qed.

Lemma post_isolated E user form answer s :
  fresh_name E s → others_same user s (post_upload O E user form answer s).1.
Proof.
  intros Hf. unfold post_upload. destruct form as [| | |filename data]; try apply others_refl.
  destruct (_ <? _); [apply others_refl|]. destruct (stripImageMetadata data) as [data'| |]; try apply others_refl.
  destruct (uo_custom O).
  - unfold handleCustomUpload. destruct answer as [| |status body]; try apply others_refl.
    destruct (_ || _); [apply others_refl|]. destruct (parseCustomUploadResponse _ _) as [url|]; [|apply others_refl].
    destruct (String.eqb url ""); [apply others_refl|]. destruct (_ && _); [|apply others_refl].
    apply put_meta_isolated. destruct (Hf ""%string) as [Hm _]. by rewrite str_app_nil_r in Hm.
  - destruct (Hf (safeExt filename)) as [Hm Hd].
    destruct (ue_dir_ok E); [|apply others_refl]. destruct (ue_create_ok E); [|apply others_refl].
    assert (Hn : ∀ other stored m, holds other stored m s → stored ≠ ue_random E +:+ safeExt filename)
      by (intros other stored m [Hs _] ->; congruence).
    destruct (ue_write_ok E); simpl.
    2: { intros other stored m _ Hs. simpl. rewrite lookup_delete_ne by (symmetry; eauto). by destruct Hs. }
    intros other stored m _ Hs. specialize (Hn _ _ _ Hs). destruct Hs as [Hs _]. destruct (ue_meta_ok E); simpl.
    + rewrite !lookup_insert_ne by (done || congruence). done.
    + rewrite lookup_insert_ne by done. done.
Qed.

(** Nor does a user gain anything by what others do. *)
Definition others_gain (user : string) (s s' : upload_dir) : Prop :=
  ∀ other stored m, other ≠ user → holds other stored m s' → holds other stored m s.

Lemma gain_refl user s : others_gain user s s.
Proof. by intros other stored m _. Qed.

Lemma put_meta_gain user stored m s : um_owner m = user → others_gain user s (put_meta stored m s).
Proof.
  intros Ho other st m' Hne [Hm Ho']. split; [|done]. simpl in Hm.
  destruct (decide (st = stored)) as [->|Hst]; [rewrite lookup_insert_eq in Hm; congruence|].
  rewrite lookup_insert_ne in Hm; [done|]. by intros ?%(inj meta_name).
Qed.

Lemma delete_gain E user r s : others_gain user s (handleUploadDelete E user r s).1.
Proof.
  intros other stored m _ [Hm Ho]. split; [|done]. revert Hm. unfold handleUploadDelete.
  destruct (String.eqb _ _); [done|]. destruct (_ || _); [done|]. destruct (find_upload _ _ _ _) as [[name [m'|]]|]; try done.
  destruct (String.eqb (um_owner m') user); [|done]. simpl.
  destruct (_ && _), (ue_remove_ok E); simpl; try done; by intros [_ ?]%lookup_delete_Some.
Qed.

Lemma post_gain E user form answer s : others_gain user s (post_upload O E user form answer s).1.
Proof.
  unfold post_upload. destruct form as [| | |filename data]; try apply gain_refl.
  destruct (_ <? _); [apply gain_refl|]. destruct (stripImageMetadata data) as [data'| |]; try apply gain_refl.
  destruct (uo_custom O).
  - unfold handleCustomUpload. destruct answer as [| |status body]; try apply gain_refl.
    destruct (_ || _); [apply gain_refl|]. destruct (parseCustomUploadResponse _ _) as [url|]; [|apply gain_refl].
    destruct (String.eqb url ""); [apply gain_refl|]. destruct (_ && _); [|apply gain_refl]. by apply put_meta_gain.
  - destruct (ue_dir_ok E), (ue_create_ok E); simpl; try apply gain_refl. destruct (ue_write_ok E); simpl; [|by intros ????].
    destruct (ue_meta_ok E); simpl; [|by intros ????]. intros other stored m Hne Hh.
    by apply (put_meta_gain user (ue_random E +:+ safeExt filename) (UploadMeta user filename (ue_now E) (blen data') "") s eq_refl).
Qed.

(** The user of a request. *)
Definition input_user (i : upload_input) : option string :=
  match i with UApi r | UApiList r => Some (ur_user r) | USweep => None end.

Lemma api_isolated E i user s :
  input_user i = Some user → fresh_name E s → others_same user s (step E i s).1 ∧ others_gain user s (step E i s).1.
Proof.
  intros Hu Hf. destruct i as [r|r|]; [| |done]; injection Hu as <-; simpl.
  - unfold handleUpload. destruct (ur_method r); simpl; auto using others_refl, gain_refl, post_isolated, post_gain, delete_isolated, delete_gain.
  - unfold handleUploads. destruct (ur_method r); simpl; auto using others_refl, gain_refl, delete_isolated, delete_gain.
Qed.

(** A request of someone else, its fresh name not in use. *)
Definition other_request (user : string) (s s' : upload_dir) : Prop :=
  ∃ E i v, input_user i = Some v ∧ v ≠ user ∧ fresh_name E s ∧ s' = (step E i s).1.

(** ** What a list shows *)

Definition shown (user : string) (s : upload_dir) (e : uploadEntry) : Prop :=
  ∃ m, holds user (en_id e) m s ∧ en_name e = um_name m ∧ en_uploaded e = um_uploaded m ∧
       en_expires e = um_uploaded m + ttl (en_size e) ∧
       ((um_url m ≠ "" ∧ en_url e = um_url m ∧ en_size e = um_size m) ∨
        (um_url m = "" ∧ en_url e = "/uploads/" +:+ en_id e ∧
         ∃ f, ud_files s !! en_id e = Some f ∧ en_size e = blen (uf_data f))).

Lemma entry_of_spec user s k om e :
  ud_meta s !! k = Some om → entry_of O user s (k, om) = Some e → shown user s e ∧ k = meta_name (en_id e).
Proof.
  intros Hk. unfold entry_of. simpl. destruct (cut_json k) as [st|] eqn:Ec; [|done]. apply cut_json_spec in Ec as ->.
  destruct om as [m|]; [|done]. simpl. destruct (String.eqb (um_owner m) user) eqn:Eo; [|done]. simpl.
  apply String.eqb_eq in Eo. destruct (String.eqb (um_url m) "") eqn:Eu; simpl.
  - apply String.eqb_eq in Eu. destruct (ud_files s !! st) as [f|] eqn:Ef; [|done]. simpl. intros [= <-].
    split; [|done]. exists m. do 4 (split; [done|]). right. eauto.
  - apply String.eqb_neq in Eu. intros [= <-]. split; [|done]. exists m. do 4 (split; [done|]). by left.
Qed.

Lemma shown_entry user s e : shown user s e → entry_of O user s (meta_name (en_id e), ud_meta s !! meta_name (en_id e) ≫= id) = Some e.
Proof.
  intros (m & [Hm Ho] & Hn & Hu & Hx & Hc). unfold entry_of. simpl. rewrite cut_meta_name, Hm. simpl.
  rewrite Ho, String.eqb_refl. simpl. destruct e as [i u n sz up ex]. simpl in *.
  destruct Hc as [(Hne & -> & ->)|(-> & -> & f & Hf & ->)].
  - rewrite (proj2 (String.eqb_neq _ _) Hne). simpl. congruence.
  - simpl. rewrite Hf. simpl. congruence.
Qed.

Lemma entries_sublist user s l :
  (∀ k om, (k, om) ∈ l → ud_meta s !! k = Some om) →
  (meta_name ∘ en_id) <$> omap (entry_of O user s) l `sublist_of` l.*1.
Proof.
  induction l as [|[k om] l IH]; intros Hl; [done|]. simpl.
  assert (IH' : (meta_name ∘ en_id) <$> omap (entry_of O user s) l `sublist_of` l.*1).
  { apply IH. intros k' om' Hk. apply Hl. by right. }
  destruct (entry_of O user s (k, om)) as [e|] eqn:Ee; simpl; [|by constructor].
  apply entry_of_spec in Ee as [_ ->]; [by constructor|apply Hl; by left].
Qed.

(** The list is the user's uploads, each once, the newest first. *)
Lemma list_exact E user s :
  ue_readdir_ok E = true →
  ∃ es, handleUploadList O E user s = UListed es ∧ (∀ e, e ∈ es ↔ shown user s e) ∧
        NoDup (en_id <$> es) ∧ StronglySorted newer es.
Proof.
  intros Hr. unfold handleUploadList. rewrite Hr. eexists. split; [done|].
  set (l := sorted_entries (ud_meta s)).
  assert (Hl : ∀ k om, (k, om) ∈ l ↔ ud_meta s !! k = Some om) by (intros; apply elem_sorted_entries).
  assert (Hnd : NoDup l.*1).
  { unfold l, sorted_entries. rewrite merge_sort_Permutation. apply NoDup_fst_map_to_list. }
  split; [|split; [|apply StronglySorted_merge_sort; apply _]].
  - intros e. rewrite merge_sort_Permutation, list_elem_of_omap. split.
    + intros ([k om] & Hk & He). apply Hl in Hk. by apply (entry_of_spec _ _ _ _ _ Hk) in He as [He _].
    + intros He. pose proof He as (m & [Hm _] & _). exists (meta_name (en_id e), Some m). split; [by apply Hl|].
      apply shown_entry in He. by rewrite Hm in He.
  - rewrite merge_sort_Permutation. apply (NoDup_fmap_1 meta_name). rewrite <- list_fmap_compose.
    eapply sublist_NoDup; [exact Hnd|]. apply entries_sublist. intros k om. apply Hl.
Qed.

(** ** What a sweep leaves *)

Definition expired_name (now : time) (e : string * upload_file) : option string :=
  if file_expired O now e.2 then Some e.1 else None.

Lemma sweep_files now l s :
  foldl (sweep_file O now) s l =
  UploadDir (purge (expired_name now) (ud_files s) l) (purge (λ e, meta_name <$> expired_name now e) (ud_meta s) l).
Proof.
  unfold purge. revert s. induction l as [|e l IH]; intros s; [by destruct s|]. simpl. rewrite IH.
  unfold sweep_file, expired_name. by destruct (file_expired O now e.2).
Qed.

Definition stale_name (now : time) (files : gmap string upload_file) (e : string * option uploadMeta) : option string :=
  match cut_json e.1 with
  | Some stored => if meta_stale O now files stored e.2 then Some (meta_name stored) else None
  | None => None
  end.

Lemma sweep_sidecars now l s :
  foldl (sweep_meta O now) s l = UploadDir (ud_files s) (purge (stale_name now (ud_files s)) (ud_meta s) l).
Proof.
  unfold purge. revert s. induction l as [|e l IH]; intros s; [by destruct s|]. simpl. rewrite IH.
  unfold sweep_meta, stale_name. destruct (cut_json e.1); [|done]. by destruct (meta_stale _ _ _ _ _).
Qed.

Lemma expired_listed now (files : gmap string upload_file) k :
  (∀ a, a ∈ map_to_list files → expired_name now a ≠ Some k) ↔
  ∀ f, files !! k = Some f → file_expired O now f = false.
Proof.
  unfold expired_name. split.
  - intros Ha f Hf. apply elem_of_map_to_list in Hf. specialize (Ha _ Hf). simpl in Ha. by destruct (file_expired O now f).
  - intros Hf [n f] Ha%elem_of_map_to_list. simpl. destruct (file_expired O now f) eqn:E; [|done]. intros [= ->].
    apply Hf in Ha. congruence.
Qed.

Lemma swept_file now s name f :
  ud_files (sweepUploads O now s) !! name = Some f ↔ ud_files s !! name = Some f ∧ file_expired O now f = false.
Proof.
  unfold sweepUploads. rewrite sweep_sidecars, sweep_files. simpl. rewrite purge_lookup, expired_listed. naive_solver.
Qed.

Lemma stale_listed now files (meta : gmap string (option uploadMeta)) stored om :
  meta !! meta_name stored = Some om →
  (∀ a, a ∈ map_to_list meta → stale_name now files a ≠ Some (meta_name stored)) ↔ meta_stale O now files stored om = false.
Proof.
  intros Hm. unfold stale_name. split.
  - intros Ha. apply elem_of_map_to_list in Hm. specialize (Ha _ Hm). simpl in Ha. rewrite cut_meta_name in Ha.
    by destruct (meta_stale _ _ _ _ _).
  - intros Hs [n om'] Ha%elem_of_map_to_list. simpl. destruct (cut_json n) as [st|] eqn:Ec; [|done].
    apply cut_json_spec in Ec as ->. destruct (meta_stale O now files st om') eqn:E; [|done].
    intros [= ?%(inj meta_name)]. congruence.
Qed.

(** A sidecar that is left: of a file that is left, or of a custom upload
    within its time. *)
Lemma swept_sidecar now s stored om :
  ud_meta (sweepUploads O now s) !! meta_name stored = Some om ↔
  ud_meta s !! meta_name stored = Some om ∧ (∀ f, ud_files s !! stored = Some f → file_expired O now f = false) ∧
  ∃ m, om = Some m ∧
       if String.eqb (um_url m) "" then is_Some (ud_files s !! stored)
       else time_sub now (um_uploaded m) ≤ ttl (um_size m).
Proof.
  pose proof (swept_file now s stored) as Hfiles. unfold sweepUploads in *. rewrite sweep_sidecars, sweep_files in *. simpl in *.
  set (files := purge _ (ud_files s) _) in *. set (meta := purge _ (ud_meta s) _) in *.
  assert (Hm : meta !! meta_name stored = Some om ↔
    ud_meta s !! meta_name stored = Some om ∧ ∀ f, ud_files s !! stored = Some f → file_expired O now f = false).
  { unfold meta. rewrite purge_lookup, <- expired_listed. apply and_iff_compat_l.
    split; intros Ha a Hin; specialize (Ha a Hin); destruct (expired_name now a); simpl in *; try done; [congruence|].
    intros [= ?%(inj meta_name)]. congruence. }
  assert (Hst : (∀ f, ud_files s !! stored = Some f → file_expired O now f = false) →
    meta_stale O now files stored om = false ↔
    ∃ m, om = Some m ∧ if String.eqb (um_url m) "" then is_Some (ud_files s !! stored) else time_sub now (um_uploaded m) ≤ ttl (um_size m)).
  { intros Hx. unfold meta_stale. destruct om as [m|]; [|naive_solver].
    assert (Ha : (∃ m', Some m = Some m' ∧ if String.eqb (um_url m') "" then is_Some (ud_files s !! stored)
                 else time_sub now (um_uploaded m') ≤ ttl (um_size m')) ↔
                 if String.eqb (um_url m) "" then is_Some (ud_files s !! stored) else time_sub now (um_uploaded m) ≤ ttl (um_size m))
      by naive_solver.
    rewrite Ha. destruct (String.eqb (um_url m) ""); simpl; [|by rewrite Z.ltb_ge].
    rewrite bool_decide_eq_false, <- not_eq_None_Some. destruct (files !! stored) as [f|] eqn:Ef.
    - destruct (proj1 (Hfiles f) eq_refl) as [-> _]. split; done.
    - split; [done|]. intros Hs _. destruct (ud_files s !! stored) as [f|] eqn:Eu; [|done].
      assert (None = Some f) by (apply Hfiles; eauto). done. }
  rewrite purge_lookup. split.
  - intros [Hk Hs]. rewrite stale_listed in Hs by done. apply Hm in Hk as [Hk Hx]. by rewrite <- Hst.
  - intros (Hk & Hx & Hs). apply Hst in Hs; [|done]. assert (Hk' := proj2 Hm (conj Hk Hx)). split; [done|]. by rewrite stale_listed.
Qed.

(** ** What is served *)

(** One element of a path that is not hidden. *)
Definition plain_name (s : string) : bool := no_byte SLASH s && negb (String.eqb s "") && negb (has_prefix "." s).

Lemma plain_not_dots s : plain_name s = true → s ≠ ""%string ∧ s ≠ "."%string ∧ s ≠ ".."%string ∧ s ≠ ".meta"%string.
Proof. intros Hp. repeat split; intros ->; vm_compute in Hp; done. Qed.

Lemma rooted_split s : split_byte SLASH ("/" +:+ s) = ""%string :: split_byte SLASH s.
Proof. apply (split_byte_app SLASH "" s). done. Qed.

Lemma clean_step_plain out e : plain_name e = true → clean_step true out e = e :: out.
Proof.
  intros (Hn & Hd & Hdd & _)%plain_not_dots. unfold clean_step.
  by rewrite (proj2 (String.eqb_neq _ _) Hn), (proj2 (String.eqb_neq _ _) Hd), (proj2 (String.eqb_neq _ _) Hdd).
Qed.

(** A cleaned rooted path without hidden elements. *)
Lemma clean_visible l out :
  Forall (λ e, has_prefix "." e = false) l → Forall (λ e, no_byte SLASH e = true) l →
  Forall (λ e, plain_name e = true) out → Forall (λ e, plain_name e = true) (foldl (clean_step true) out l).
Proof.
  intros Hl. revert out. induction Hl as [|e l He Hl IH]; intros out Hs Hout; [done|]. simpl.
  inversion Hs as [|?? Hse Hsl]; subst. apply IH; [done|].
  destruct (String.eqb e "") eqn:E0; [by apply String.eqb_eq in E0 as ->|].
  assert (plain_name e = true) by (unfold plain_name; by rewrite Hse, E0, He).
  rewrite clean_step_plain by done. by constructor.
Qed.

Lemma cleaned_elements (l : list string) :
  Forall (λ e, plain_name e = true) l → filter (λ e, e ≠ ""%string) (split_byte SLASH ("/" +:+ str_join "/" l)) = l.
Proof.
  intros Hl. rewrite rooted_split. destruct (decide (l = [])) as [->|Hne]; [done|].
  rewrite filter_cons_False by (by intros ?).
  rewrite (split_join SLASH).
  - apply filter_all. eapply Forall_impl; [exact Hl|]. intros e He. by apply plain_not_dots in He as [? _].
  - done.
  - eapply Forall_impl; [exact Hl|]. unfold plain_name. intros e He. by apply andb_true_iff in He as [[? _]%andb_true_iff _].
Qed.

(** What [http.Dir] opens for a name with no hidden element. *)
Lemma dir_open_visible s name :
  Forall (λ e, has_prefix "." e = false) (split_byte SLASH name) →
  ∃ l, Forall (λ e, plain_name e = true) l ∧ dir_open s name = tree s l.
Proof.
  intros Hv. unfold dir_open. exists (reverse (foldl (clean_step true) [] (split_byte SLASH ("/" +:+ name)))).
  assert (Hp : Forall (λ e, plain_name e = true) (reverse (foldl (clean_step true) [] (split_byte SLASH ("/" +:+ name))))).
  { apply Forall_reverse. rewrite rooted_split. apply clean_visible; [by constructor| |done].
    constructor; [done|]. apply split_byte_pieces. }
  split; [done|]. unfold path_clean.
  rewrite prefix_app. by rewrite cleaned_elements.
Qed.

Lemma tree_plain s l n : Forall (λ e, plain_name e = true) l → tree s l = Some n →
  n = NDir ∨ ∃ name f, ud_files s !! name = Some f ∧ n = NFile (uf_data f).
Proof.
  intros Hl. destruct l as [|a [|b [|c l]]]; simpl; [by intros [= <-]; left| | |done].
  - destruct (String.eqb a ".meta"); [by intros [= <-]; left|]. intros (f & Hf & ->)%fmap_Some. right. eauto.
  - inversion Hl as [|?? Ha _]; subst. apply plain_not_dots in Ha as (_ & _ & _ & Ha).
    by rewrite (proj2 (String.eqb_neq _ _) Ha).
Qed.

(** Nothing but the contents of a stored file is ever served: no sidecar, no
    list of the names. *)
Lemma only_files_served s path n :
  serve_upload s path = Some n → ∃ name f, ud_files s !! name = Some f ∧ n = NFile (uf_data f).
Proof.
  unfold serve_upload. destruct (has_prefix "/uploads/" path); [|done]. set (p := path_clean _). unfold noListFS_open.
  destruct (existsb _ _) eqn:Ed; [done|].
  destruct (dir_open_visible s p) as (l & Hl & Ho).
  { apply Forall_forall. intros e He. destruct (has_prefix "." e) eqn:E; [|done].
    rewrite <- Ed. symmetry. apply existsb_exists. exists e. split; [by apply list_elem_of_In|done]. }
  rewrite Ho. destruct (tree s l) as [n'|] eqn:Et; [|done]. destruct (tree_plain _ _ _ Hl Et) as [->|(name & f & Hf & ->)]; [done|].
  intros [= <-]. eauto.
Qed.

(** A visible name under [/uploads/] is that file. *)
Lemma serve_plain s name : plain_name name = true →
  serve_upload s ("/uploads/" +:+ name) = NFile ∘ uf_data <$> ud_files s !! name.
Proof.
  intros Hp. pose proof (plain_not_dots _ Hp) as (Hne & _ & _ & Hnm). unfold serve_upload. rewrite prefix_app, trim_prefix_app.
  pose proof Hp as Hp'. unfold plain_name in Hp'. apply andb_true_iff in Hp' as [[Hs _]%andb_true_iff Hd].
  apply negb_true_iff in Hd.
  assert (Hroot : has_prefix "/" name = false).
  { destruct name as [|a name]; [done|]. unfold no_byte in Hs. simpl in Hs. apply andb_true_iff in Hs as [Ha _].
    unfold has_prefix. cbn [String.prefix]. destruct (ascii_dec "/" a) as [<-|]; [done|]. done. }
  rewrite Hroot.
  assert (Hc : path_clean ("/" +:+ name) = "/" +:+ name).
  { unfold path_clean. rewrite prefix_app, rooted_split, split_byte_no_byte by done. simpl.
    by rewrite clean_step_plain. }
  rewrite Hc. unfold noListFS_open. rewrite rooted_split, split_byte_no_byte by done. simpl existsb. rewrite Hd. simpl orb.
  assert (Ho : dir_open s ("/" +:+ name) = tree s [name]).
  { unfold dir_open. f_equal. unfold path_clean.
    rewrite prefix_app, (rooted_split ("/" +:+ name)), (rooted_split name), (split_byte_no_byte SLASH name) by done.
    simpl foldl. rewrite clean_step_plain by done.
    apply (cleaned_elements [name]). by constructor. }
  rewrite Ho. simpl. rewrite (proj2 (String.eqb_neq _ _) Hnm). by destruct (ud_files s !! name).
Qed.

(** ** Deleting *)

Definition target_stored (target : string) : string :=
  if has_prefix "/uploads/" target then path_base (trim_prefix "/uploads/" target) else path_base target.

(** The ways a target names a stored upload. *)
Definition names (target stored : string) (m : uploadMeta) : Prop :=
  stored = target_stored target ∨ um_url m = target ∨ "/uploads/" +:+ stored = target ∨ um_name m = target ∨ stored = target.

Lemma find_upload_named user target stored s name m :
  find_upload user target stored s = Some (name, Some m) →
  name = stored ∨ um_url m = target ∨ "/uploads/" +:+ name = target ∨ um_name m = target ∨ name = target.
Proof.
  unfold find_upload. destruct (ud_meta s !! meta_name stored); [by intros [= <- _]; left|].
  destruct (head _) as [[n v]|] eqn:Eh; [|done]. simpl. destruct (String.eqb n ""); [done|]. intros [= <- <-].
  apply head_Some_elem_of, list_elem_of_omap in Eh as ([k om] & _ & Hn).
  unfold names_upload in Hn. cbn [fst snd] in Hn. destruct (cut_json k) as [st|]; [|done]. cbn [mbind option_bind] in Hn.
  destruct om as [m'|]; [|done]. cbn [mbind option_bind] in Hn. destruct (String.eqb (um_owner m') user); [|done]. cbn [andb] in Hn.
  destruct (_ || _) eqn:E; [|done]. injection Hn as <- <-.
  rewrite !orb_true_iff, !String.eqb_eq in E. tauto.
Qed.

(** What is left without the upload [stored]. *)
Definition without (E : upload_env) (stored : string) (m : uploadMeta) (s : upload_dir) : upload_dir :=
  UploadDir (if String.eqb (um_url m) "" && ue_unlink_ok E then delete stored (ud_files s) else ud_files s)
            (delete (meta_name stored) (ud_meta s)).

(** A request that is granted removes one upload of its user, which it names;
    one that is refused changes nothing. *)
Lemma delete_exact E user r s s' a :
  ue_remove_ok E = true → handleUploadDelete E user r s = (s', a) →
  (a = UDeleted ∧ ∃ stored m, holds user stored m s ∧ names (delete_target r) stored m ∧ s' = without E stored m s) ∨
  ((∃ code text, a = URefused code text) ∧ s' = s).
Proof.
  intros Hr. unfold handleUploadDelete. destruct (String.eqb _ _); [intros [= <- <-]; right; eauto|].
  set (st := if has_prefix _ _ then _ else _). destruct (_ || _); [intros [= <- <-]; right; eauto|].
  destruct (find_upload user _ st s) as [[name [m|]]|] eqn:Ef; [|intros [= <- <-]; right; by eauto..].
  destruct (String.eqb (um_owner m) user) eqn:Eo; simpl; [|intros [= <- <-]; right; by eauto].
  apply String.eqb_eq in Eo. rewrite Hr. intros [= <- <-]. left. split; [done|]. exists name, m.
  split; [split; [by eapply find_upload_spec|done]|]. split; [by apply find_upload_named in Ef|].
  unfold without. by destruct (_ && _).
Qed.

Lemma trim_right_last p b a : p a = false → trim_right p (b +:+ String a "") = b +:+ String a "".
Proof. intros Ha. induction b as [|c b IH]; simpl; [by rewrite Ha|]. rewrite IH. by destruct b. Qed.

Lemma trim_right_none p s : str_all (λ a, negb (p a)) s = true → trim_right p s = s.
Proof.
  induction s as [|a s IH]; simpl; [done|]. intros [Ha%negb_true_iff Hs]%andb_true_iff. rewrite IH by done.
  destruct s; [by rewrite Ha|done].
Qed.

Lemma base_plain s : plain_name s = true → path_base s = s.
Proof.
  intros Hp. pose proof (plain_not_dots _ Hp) as (Hne & _). unfold plain_name in Hp.
  apply andb_true_iff in Hp as [[Hs _]%andb_true_iff _]. unfold path_base. destruct s as [|a s]; [done|].
  rewrite trim_right_none.
  - rewrite last_index_none by done. done.
  - rewrite <- Hs. unfold no_byte. clear. generalize (String a s). intros t. induction t as [|b t IH]; [done|].
    cbn [str_all]. by rewrite IH, (Ascii.eqb_sym SLASH b).
Qed.

Lemma target_plain stored target :
  plain_name stored = true → target = stored ∨ target = "/uploads/" +:+ stored → target_stored target = stored.
Proof.
  intros Hp Ht. unfold target_stored. destruct Ht as [-> | ->].
  - assert (has_prefix "/uploads/" stored = false) as ->; [|by apply base_plain].
    destruct stored as [|a stored]; [done|]. unfold plain_name, no_byte in Hp. simpl in Hp.
    unfold has_prefix. cbn [String.prefix]. destruct (ascii_dec "/" a) as [<-|]; done.
  - rewrite prefix_app, trim_prefix_app. by apply base_plain.
Qed.

(** An upload can be deleted by its id or by its link. *)
Lemma delete_by_id E user r s stored m :
  ue_remove_ok E = true → plain_name stored = true → holds user stored m s →
  delete_target r = stored ∨ delete_target r = "/uploads/" +:+ stored →
  handleUploadDelete E user r s = (without E stored m s, UDeleted).
Proof.
  intros Hr Hp [Hm Ho] Ht. unfold handleUploadDelete. pose proof (target_plain _ _ Hp Ht) as Hs. unfold target_stored in Hs.
  rewrite Hs. pose proof (plain_not_dots _ Hp) as (Hne & Hd & _).
  assert (String.eqb (delete_target r) "" = false) as ->.
  { apply String.eqb_neq. destruct Ht as [-> | ->]; [done|by intros ?]. }
  unfold plain_name in Hp. apply andb_true_iff in Hp as [[Hsl _]%andb_true_iff Hdot%negb_true_iff].
  rewrite (proj2 (String.eqb_neq _ _) Hd), Hdot.
  assert (String.eqb stored "/" = false) as -> by (apply String.eqb_neq; intros ->; vm_compute in Hsl; done).
  simpl. unfold find_upload. rewrite Hm, Ho, String.eqb_refl, Hr. simpl. unfold without. by destruct (_ && _).
Qed.
End uploads.
