(* ===== verification/UploadProps.v ===== *)
(** * Uploads: the properties

    What the store of uploads promises, from the lemmas of [UploadThms]. *)

From Stdlib Require Import ZArith Lia Ascii Bool SpecFloat.
From stdpp Require Import base tactics list gmap strings sorting.
From S2P Require Import Prelude GoStrings Utf8 GoNet WebProto WebDto WebSample ImgStrip ImgClean Uploads UploadThms.

#[local] Open Scope Z_scope.

(** ** The time a file is kept *)

Definition sign_is (sx : bool) (f : spec_float) : Prop := match f with S754_finite s _ _ => s = sx | _ => True end.

Lemma round_sign p e sx mx ex lx : sign_is sx (binary_round_aux p e sx mx ex lx).
Proof.
  unfold binary_round_aux. destruct (shr_fexp _ _ mx ex lx) as [mrs e']. destruct (shr_fexp _ _ _ e' loc_Exact) as [mrs' e''].
  destruct (shr_m mrs'); simpl; try done. by destruct (_ <=? _).
Qed.

(** A square has no sign. *)
Lemma square_sign d x : sign_is false d → sign_is false (SFmul 53 1024 (SFmul 53 1024 d x) x).
Proof.
  intros Hd. destruct d as [| | |sd md ed]; [by destruct x as [| | |[]]..|]. simpl in Hd. subst sd.
  destruct x as [s|s| |s m e]; [done..|]. cbn [SFmul xorb].
  pose proof (round_sign 53 1024 s (Zpos (md * m)) (ed + e) loc_Exact) as Hr.
  destruct (binary_round_aux _ _ _ _ _ _) as [| | |s' m' e']; [done..|]. simpl in Hr. subst s'.
  cbn [SFmul]. rewrite xorb_nilpotent. apply round_sign.
Qed.

Lemma trunc64_nonneg f : sign_is false f → 0 ≤ trunc64 f.
Proof.
  destruct f as [| | |s m e]; simpl; try lia. intros ->. destruct (0 <=? e) eqn:E.
  - apply Z.leb_le in E. nia.
  - apply Z.leb_gt in E. apply Z.div_pos; lia.
Qed.

(** No file is kept for less than the minimum. *)
Lemma ttl_min maxUpload size : minUploadAge ≤ uploadTTL maxUpload size.
Proof.
  unfold uploadTTL. set (left := SFsub _ _ _ _). clearbody left.
  assert (Hd : sign_is false (float64 (maxUploadAge - minUploadAge))) by (by vm_compute).
  pose proof (trunc64_nonneg _ (square_sign _ left Hd)). lia.
Qed.

(** ** The name an upload gets *)

Lemma last_index_dot s i : last_index_byte "." s = Some i → ∃ r, str_drop i s = String "." r.
Proof.
  revert i. induction s as [|a s IH]; intros i; simpl; [done|]. destruct (last_index_byte "." s) as [j|].
  - intros [= <-]. by apply IH.
  - destruct (Ascii.eqb a ".") eqn:E; [|done]. apply Ascii.eqb_eq in E as ->. intros [= <-]. by exists s.
Qed.

Lemma lower_dot `{UnicodeTables} r : ∃ r', to_lower (String "." r) = String "." r'.
Proof.
  unfold to_lower. destruct (str_all is_ascii (String "." r)); [by eexists|].
  unfold map_runes. rewrite runes_ascii by done. by eexists.
Qed.

Lemma ext_bytes_no_slash s : str_all ext_byte s = true → no_byte SLASH s = true.
Proof.
  unfold no_byte. induction s as [|a s IH]; [done|]. cbn [str_all]. intros [Ha Hs]%andb_true_iff. rewrite IH by done.
  destruct (Ascii.eqb a SLASH) eqn:E; [|done]. apply Ascii.eqb_eq in E as ->. by vm_compute in Ha.
Qed.

Lemma safeExt_no_slash `{UnicodeTables} name : no_byte SLASH (safeExt name) = true.
Proof.
  unfold safeExt. set (ext := to_lower _). destruct (_ || _); [done|]. destruct (str_all ext_byte _) eqn:E; [|done].
  assert (He : ext = ""%string ∨ ∃ r, ext = String "." r).
  { unfold ext, path_ext. set (base := match last_index_byte SLASH name with Some i => _ | None => _ end).
    destruct (last_index_byte "." base) as [i|] eqn:Ei; [|by left].
    apply last_index_dot in Ei as [r ->]. right. apply lower_dot. }
  destruct He as [-> |[r Hr]]; [done|]. rewrite Hr in *. simpl in E. unfold no_byte. cbn [str_all].
  by apply ext_bytes_no_slash in E.
Qed.

(** [randomName]: hexadecimal digits. *)
Definition random_ok (E : upload_env) : Prop := str_all ext_byte (ue_random E) = true ∧ ue_random E ≠ ""%string.

Lemma stored_plain `{UnicodeTables} E name : random_ok E → plain_name (ue_random E +:+ safeExt name) = true.
Proof.
  intros [Hr Hne]. unfold plain_name, no_byte. rewrite str_all_app. fold (no_byte SLASH (ue_random E)).
  fold (no_byte SLASH (safeExt name)). rewrite safeExt_no_slash, ext_bytes_no_slash by done.
  destruct (ue_random E) as [|a s]; [done|]. simpl in Hr. apply andb_true_iff in Hr as [Ha _].
  unfold has_prefix. cbn [String.app String.prefix String.eqb andb negb].
  destruct (ascii_dec "." a) as [<-|]; [by vm_compute in Ha|done].
Qed.

Section properties.
Context `{UnicodeTables, JsonText} (O : upload_options).

Notation ttl := (uploadTTL (uo_max O)).
Notation step := (upload_step O).

(** What a stored upload leaves. *)
Lemma post_stored E user form answer s s' id url name expires :
  uo_custom O = false → post_upload O E user form answer s = (s', UStored id url name expires) →
  ∃ data out, form = FormFile name data ∧ blen data ≤ uo_max O ∧ stripImageMetadata data = Ok out ∧
    id = ue_random E +:+ safeExt name ∧ url = "/uploads/" +:+ id ∧
    ud_files s' = <[id := UploadFile out (ue_now E)]> (ud_files s) ∧
    (if ue_meta_ok E then holds user id (UploadMeta user name (ue_now E) (blen out) "") s' else ud_meta s' = ud_meta s).
Proof.
  intros Hc. unfold post_upload. destruct form as [| | |filename data]; try done.
  destruct (uo_max O <? blen data) eqn:Eb; [done|]. apply Z.ltb_ge in Eb.
  destruct (stripImageMetadata data) as [out| |] eqn:Es; try done. rewrite Hc.
  destruct (negb (ue_dir_ok E)), (negb (ue_create_ok E)), (negb (ue_write_ok E)); try done.
  intros [= <- <- <- <- _]. exists data, out. do 5 (split; [done|]).
  destruct (ue_meta_ok E); simpl; [|done]. split; [done|]. split; simpl; [by rewrite lookup_insert_eq|done].
Qed.

(** C31: the life of an upload.  When a post is answered with a link, the file was
    not over the limit and the link shows the bytes [stripImageMetadata] made of
    it; its owner's list has the entry, with that link, the name that was given
    and the time it expires; a sweep at any later moment leaves it there until
    that time is over and takes it away after; and the owner can delete it by
    that link, upon which the link shows nothing. *)
Theorem upload_life E user form answer s s' id url name expires :
  uo_custom O = false → random_ok E → post_upload O E user form answer s = (s', UStored id url name expires) →
  ∃ data out, form = FormFile name data ∧ blen data ≤ uo_max O ∧ stripImageMetadata data = Ok out ∧
    serve_upload s' url = Some (NFile out) ∧
    (∀ now, serve_upload (sweepUploads O now s') url =
            if ttl (blen out) <? time_sub now (ue_now E) then None else Some (NFile out)) ∧
    (ue_meta_ok E = true →
      (ue_readdir_ok E = true → ∃ es, handleUploadList O E user s' = UListed es ∧
        UploadEntry id url name (blen out) (ue_now E) (ue_now E + ttl (blen out)) ∈ es) ∧
      (∀ E' r, ue_unlink_ok E' = true → ue_remove_ok E' = true → delete_target r = url →
        ∃ s'', handleUploadDelete E' user r s' = (s'', UDeleted) ∧ serve_upload s'' url = None)).
Proof.
  intros Hc Hr Hp. destruct (post_stored _ _ _ _ _ _ _ _ _ _ Hc Hp) as (data & out & -> & Hb & Ho & Hid & Hu & Hf & Hm).
  exists data, out. do 3 (split; [done|]). subst url.
  assert (Hpl : plain_name id = true) by (subst id; by apply stored_plain).
  assert (Hs : ud_files s' !! id = Some (UploadFile out (ue_now E))) by (by rewrite Hf, lookup_insert_eq).
  split; [by rewrite serve_plain, Hs|]. split; [|intros Hok; rewrite Hok in Hm; split].
  - intros now. rewrite serve_plain by done. pose proof (swept_file O now s' id) as Hw. rewrite Hs in Hw. unfold file_expired in Hw.
    destruct (ud_files (sweepUploads O now s') !! id) as [f|].
    + destruct (proj1 (Hw f) eq_refl) as [[= <-] He]. simpl in He. by rewrite He.
    + destruct (_ <? _) eqn:E'; [done|]. by discriminate (proj2 (Hw (UploadFile out (ue_now E))) (conj eq_refl E')).
  - intros Hd. destruct (list_exact O E user s' Hd) as (es & He & Hes & _). exists es. split; [done|]. apply Hes.
    exists (UploadMeta user name (ue_now E) (blen out) ""). do 4 (split; [done|]). right. do 2 (split; [done|]). eauto.
  - intros E' r Hul Hrm Ht. eexists. split; [eapply delete_by_id; eauto|]. rewrite serve_plain by done. unfold without. simpl.
    rewrite Hul. simpl. by rewrite lookup_delete_eq.
Qed.

(** C32: users do not reach each other's uploads.  Whatever requests others make,
    to post, list or delete, by whatever target, their names fresh: a user's
    sidecars and the files behind them stay as they are, and the user's list
    shows exactly what it showed. *)
Theorem uploads_isolated user s s' :
  rtc (other_request O user) s s' →
  (∀ stored m, holds user stored m s ↔ holds user stored m s') ∧
  (∀ stored m, holds user stored m s → ud_files s' !! stored = ud_files s !! stored) ∧
  (∀ e, shown O user s e ↔ shown O user s' e).
Proof.
  intros Hs. cut ((∀ stored m, holds user stored m s ↔ holds user stored m s') ∧
                  (∀ stored m, holds user stored m s → ud_files s' !! stored = ud_files s !! stored)).
  { intros [Hh Hf]. split; [done|]. split; [done|]. intros e. unfold shown. split; intros (m & Hm & Hr); exists m.
    - by rewrite <- Hh, (Hf (en_id e) m Hm).
    - apply Hh in Hm. by rewrite <- (Hf (en_id e) m Hm). }
  induction Hs as [s|s s1 s2 (E & i & v & Hi & Hv & Hfr & ->) _ [IHh IHf]]; [done|].
  destruct (api_isolated O E i v s Hi Hfr) as [Hsame Hgain].
  assert (H1 : ∀ stored m, holds user stored m s ↔ holds user stored m (step E i s).1).
  { intros stored m. split; [|by apply Hgain]. intros Hh. destruct (Hsame user stored m ltac:(done) Hh) as [Hm _].
    by destruct Hh. }
  split; [intros stored m; by rewrite H1|]. intros stored m Hh. rewrite (IHf stored m) by (by apply H1).
  by destruct (Hsame user stored m ltac:(done) Hh).
Qed.

(** What a sweep leaves.  A file is there after it exactly when it was there
    before and is no older than its size allows, unchanged, and no file younger
    than three days goes; a sidecar is there exactly when it was there before,
    parses, and is that of a file that is left or of an upload elsewhere that is
    within its own time (and shares no name with a file that goes). *)
Theorem sweep_exact now s :
  (∀ name f, ud_files (sweepUploads O now s) !! name = Some f ↔
     ud_files s !! name = Some f ∧ time_sub now (uf_mtime f) ≤ ttl (blen (uf_data f))) ∧
  (∀ name f, ud_files s !! name = Some f → now - uf_mtime f ≤ minUploadAge →
     ud_files (sweepUploads O now s) !! name = Some f) ∧
  (∀ stored om, ud_meta (sweepUploads O now s) !! meta_name stored = Some om ↔
     ud_meta s !! meta_name stored = Some om ∧
     (∀ f, ud_files s !! stored = Some f → ud_files (sweepUploads O now s) !! stored = Some f) ∧
     ∃ m, om = Some m ∧ if String.eqb (um_url m) "" then is_Some (ud_files (sweepUploads O now s) !! stored)
                        else time_sub now (um_uploaded m) ≤ ttl (um_size m)).
Proof.
  assert (Hfile : ∀ name f, ud_files (sweepUploads O now s) !! name = Some f ↔
     ud_files s !! name = Some f ∧ time_sub now (uf_mtime f) ≤ ttl (blen (uf_data f))).
  { intros name f. rewrite swept_file. unfold file_expired. by rewrite Z.ltb_ge. }
  split; [done|]. split.
  - intros name f Hf Hy. apply Hfile. split; [done|]. pose proof (ttl_min (uo_max O) (blen (uf_data f))).
    assert (0 ≤ minUploadAge) by (by vm_compute). unfold time_sub. lia.
  - intros stored om. rewrite swept_sidecar. apply and_iff_compat_l. setoid_rewrite Hfile. unfold file_expired. setoid_rewrite Z.ltb_ge.
    split; (intros [Hl (m & -> & Hm)]; split; [naive_solver|exists m; split; [done|]; destruct (String.eqb _ _); [|done]]).
    + destruct Hm as [f Hf]. exists f. apply Hfile. split; [done|]. by apply Hl.
    + destruct Hm as [f [Hf _]%Hfile]. by exists f.
Qed.
End properties.

(** ** The properties at a concrete store *)

#[local] Existing Instance ascii_tables.

Definition sample_options : upload_options := UploadOptions 10485760 false "" true.
Definition sample_env (random : string) : upload_env := UploadEnv (1000 * second) random true true true true true true true.
Definition sample_form : upload_form := FormFile "Me.JPG" sample_jpeg.

Lemma sample_random : random_ok (sample_env "c0ffee").
Proof. done. Qed.

Definition posted_dir : upload_dir :=
  (post_upload sample_options (sample_env "c0ffee") "ann" sample_form RemoteFailed (UploadDir ∅ ∅)).1.

Lemma sample_posted :
  post_upload sample_options (sample_env "c0ffee") "ann" sample_form RemoteFailed (UploadDir ∅ ∅) =
  (posted_dir, UStored "c0ffee.jpg" "/uploads/c0ffee.jpg" "Me.JPG" "1970-01-08T00:16:36Z").
Proof. vm_compute. reflexivity. Qed.

Lemma posted_gone : uploadTTL (uo_max sample_options) (blen sample_clean_jpeg) < time_sub (1000 * second + 8 * 24 * hour) (ue_now (sample_env "c0ffee")).
Proof. vm_compute. reflexivity. Qed.

Lemma upload_life_witness :
  serve_upload posted_dir "/uploads/c0ffee.jpg" = Some (NFile sample_clean_jpeg) ∧
  serve_upload (sweepUploads sample_options (1000 * second + 8 * 24 * hour) posted_dir) "/uploads/c0ffee.jpg" = None.
Proof.
  destruct (upload_life sample_options (sample_env "c0ffee") "ann" sample_form RemoteFailed
    (UploadDir ∅ ∅) _ _ _ _ _ eq_refl sample_random sample_posted) as (data & out & Hf & _ & Hs & Hv & Hw & _).
  injection Hf as <-. rewrite sample_strips in Hs. injection Hs as <-. split; [exact Hv|].
  rewrite Hw. by rewrite (proj2 (Z.ltb_lt _ _) posted_gone).
Defined.

(** A store with one upload of ann's. *)
Definition ann_meta : uploadMeta := UploadMeta "ann" "Me.JPG" 0 29 "".
Definition ann_file : upload_file := UploadFile sample_clean_jpeg 0.
Definition ann_dir : upload_dir := UploadDir {["c0ffee.jpg" := ann_file]} {["c0ffee.jpg.json" := Some ann_meta]}.

(** Bob tries to delete it, by its name and by its link. *)
Definition bob_deletes (target : string) : upload_input :=
  UApi (UploadRequest DELETE "bob" FormNoFile RemoteFailed (DeleteRequest target "" "" None)).

Definition bob_deletes_by_name : upload_input :=
  UApiList (UploadRequest DELETE "bob" FormNoFile RemoteFailed (DeleteRequest "" "" "" (Some ("", "Me.JPG", "")))).

Lemma ann_fresh : fresh_name (sample_env "beef") ann_dir.
Proof. intros ext. split; apply lookup_singleton_ne; by intros ?. Qed.

Lemma bob_requests : rtc (other_request sample_options "ann") ann_dir ann_dir.
Proof.
  eapply rtc_l; [|eapply rtc_l; [|apply rtc_once]].
  1: exists (sample_env "beef"), (bob_deletes "Me.JPG"), "bob"%string.
  2: exists (sample_env "beef"), (bob_deletes "/uploads/c0ffee.jpg"), "bob"%string.
  3: exists (sample_env "beef"), bob_deletes_by_name, "bob"%string.
  all: do 2 (split; [done|]); split; [exact ann_fresh|by vm_compute].
Qed.

Lemma uploads_isolated_witness :
  rtc (other_request sample_options "ann") ann_dir ann_dir ∧
  ∀ stored m, holds "ann" stored m ann_dir → ud_files ann_dir !! stored = ud_files ann_dir !! stored.
Proof.
  split; [exact bob_requests|]. exact (proj1 (proj2 (uploads_isolated sample_options "ann" ann_dir ann_dir bob_requests))).
Defined.
