(* ===== verification/SafeHttp.v ===== *)
(** * The guarded HTTP client: [internal/safehttp]

    Previews, plugins and pushes fetch URLs that users and servers give; every
    connection goes through [guardedDial].  The resolver and what a server
    answers are arguments. *)

From Stdlib Require Import ZArith Lia Ascii Bool Btauto.
From stdpp Require Import base tactics list strings.
From S2P Require Import Prelude GoStrings GoNet Frame.

#[local] Open Scope Z_scope.

(** ** The predicates of package net *)

(** [ip[i]]. *)
Definition octet (ip : list Z) (i : nat) : Z := nth i ip 0.

(** A test of the IPv4 form, or of sixteen bytes. *)
Definition by_family (v4 v6 : list Z → bool) (ip : list Z) : bool :=
  match to4 ip with Some a => v4 a | None => bool_decide (length ip = 16%nat) && v6 ip end.

Definition IsPrivate : list Z → bool :=
  by_family (λ a, (octet a 0 =? 10) || ((octet a 0 =? 172) && (Z.land (octet a 1) 240 =? 16)) ||
                  ((octet a 0 =? 192) && (octet a 1 =? 168)))
            (λ a, Z.land (octet a 0) 254 =? 252).

Definition IsMulticast : list Z → bool :=
  by_family (λ a, Z.land (octet a 0) 240 =? 224) (λ a, octet a 0 =? 255).

Definition IsLinkLocalMulticast : list Z → bool :=
  by_family (λ a, (octet a 0 =? 224) && (octet a 1 =? 0) && (octet a 2 =? 0))
            (λ a, (octet a 0 =? 255) && (Z.land (octet a 1) 15 =? 2)).

Definition IsLinkLocalUnicast : list Z → bool :=
  by_family (λ a, (octet a 0 =? 169) && (octet a 1 =? 254)) (λ a, (octet a 0 =? 254) && (Z.land (octet a 1) 192 =? 128)).

Definition IsUnspecified : list Z → bool :=
  by_family (λ a, bool_decide (a = [0; 0; 0; 0])) (λ a, bool_decide (a = replicate 16 0)).

(** ** The guard *)

Definition reservedRanges : list ip_net :=
  omap parse_cidr ["100.64.0.0/10"; "192.0.0.0/24"; "198.18.0.0/15"; "240.0.0.0/4"]%string.

Definition isPublicIP (ip : list Z) : bool :=
  if is_loopback_ip ip || IsPrivate ip || IsLinkLocalUnicast ip || IsLinkLocalMulticast ip || IsMulticast ip || IsUnspecified ip
  then false
  else forallb (λ n, negb (net_contains n ip)) reservedRanges.

Inductive dialed := DialError | Refused | DialTo (ip : list Z) (port : string).

(** [lookup] is [LookupIPAddr]. *)
Definition guardedDial (lookup : string → option (list (list Z))) (addr : string) : dialed :=
  match split_host_port addr with
  | inl _ => DialError
  | inr (host, port) =>
      match lookup host with
      | None => DialError
      | Some ips => match find isPublicIP ips with Some ip => DialTo ip port | None => Refused end
      end
  end.

(** What a server that was reached answers. *)
Inductive response := Final | RedirectTo (addr : string) | Broken.

Inductive fetched := Fetched | Failed | TooManyRedirects.

Definition maxRequests : nat := 5.

(** A request and the redirects it follows: the connections made, in order.
    [more] requests may be sent ([CheckRedirect]). *)
Fixpoint fetch_from (more : nat) (lookup : string → option (list (list Z))) (answer : list Z → string → response) (addr : string) :
    list (list Z * string) * fetched :=
  match more with
  | O => ([], TooManyRedirects)
  | S more =>
      match guardedDial lookup addr with
      | DialTo ip port =>
          match answer ip addr with
          | Final => ([(ip, port)], Fetched)
          | Broken => ([(ip, port)], Failed)
          | RedirectTo addr' => prod_map (cons (ip, port)) id (fetch_from more lookup answer addr')
          end
      | _ => ([], Failed)
      end
  end.

Definition fetch := fetch_from maxRequests.

(** ** The addresses it reaches *)

(** The blocks that are refused, as ranges of 32-bit numbers. *)
Definition blocked_v4 : list (Z * Z) :=
  let block a b c d bits := let n := ((a * 256 + b) * 256 + c) * 256 + d in (n, n + 2 ^ (32 - bits) - 1) in
  [block 0 0 0 0 32; block 10 0 0 0 8; block 100 64 0 0 10; block 127 0 0 0 8; block 169 254 0 0 16; block 172 16 0 0 12;
   block 192 0 0 0 24; block 192 168 0 0 16; block 198 18 0 0 15; block 224 0 0 0 4; block 240 0 0 0 4].

Definition within_block (n : Z) (r : Z * Z) : bool := (r.1 <=? n) && (n <=? r.2).

Definition number (ip : list Z) : Z := foldl (λ n x, n * 256 + x) 0 ip.

(** An address is refused: an IPv4 address, mapped or not, in a block; an IPv6
    address that is all zeros but perhaps the last bit, unique local, link local
    or multicast. *)
Definition blocked (ip : list Z) : bool :=
  match to4 ip with
  | Some a => existsb (within_block (number a)) blocked_v4
  | None =>
      bool_decide (length ip = 16%nat) &&
      ((bool_decide (take 15 ip = replicate 15 0) && (octet ip 15 <=? 1)) || ((252 <=? octet ip 0) && (octet ip 0 <=? 253)) ||
       ((octet ip 0 =? 254) && (128 <=? octet ip 1) && (octet ip 1 <=? 191)) || (octet ip 0 =? 255))
  end.

(** Masks of one byte, by trying them all. *)
Lemma octets_all (P : Z → bool) : forallb P (Z.of_nat <$> seq 0 256) = true → ∀ x, 0 ≤ x < 256 → P x = true.
Proof.
  rewrite forallb_forall. intros HP x Hx. apply HP, list_elem_of_In, list_elem_of_fmap.
  exists (Z.to_nat x). rewrite Z2Nat.id by lia. split; [done|]. apply elem_of_seq. lia.
Qed.

Lemma masks x : 0 ≤ x < 256 →
  ((Z.land x 240 =? 16) = ((16 <=? x) && (x <=? 31))) ∧ ((Z.land x 254 =? 252) = ((252 <=? x) && (x <=? 253))) ∧
  ((Z.land x 240 =? 224) = ((224 <=? x) && (x <=? 239))) ∧ ((Z.land x 192 =? 128) = ((128 <=? x) && (x <=? 191))) ∧
  ((Z.land x 192 =? 64) = ((64 <=? x) && (x <=? 127))) ∧ ((Z.land x 254 =? 18) = ((18 <=? x) && (x <=? 19))) ∧
  ((Z.land x 240 =? 240) = ((240 <=? x) && (x <=? 255))) ∧ Z.land x 255 = x.
Proof.
  intros Hx. pose proof (octets_all (λ x,
    eqb (Z.land x 240 =? 16) ((16 <=? x) && (x <=? 31)) && eqb (Z.land x 254 =? 252) ((252 <=? x) && (x <=? 253)) &&
    eqb (Z.land x 240 =? 224) ((224 <=? x) && (x <=? 239)) && eqb (Z.land x 192 =? 128) ((128 <=? x) && (x <=? 191)) &&
    eqb (Z.land x 192 =? 64) ((64 <=? x) && (x <=? 127)) && eqb (Z.land x 254 =? 18) ((18 <=? x) && (x <=? 19)) &&
    eqb (Z.land x 240 =? 240) ((240 <=? x) && (x <=? 255)) && (Z.land x 255 =? x)) ltac:(vm_compute; reflexivity) x Hx) as H.
  repeat (apply andb_true_iff in H as [H ?]). split_and!; first [by apply eqb_prop|by apply Z.eqb_eq].
Qed.

Lemma reserved_known : reservedRanges =
  [IPNet [100; 64; 0; 0] [255; 192; 0; 0]; IPNet [192; 0; 0; 0] [255; 255; 255; 0];
   IPNet [198; 18; 0; 0] [255; 254; 0; 0]; IPNet [240; 0; 0; 0] [240; 0; 0; 0]].
Proof. by vm_compute. Qed.

Lemma list_eq_cons {A} (x y : A) l k : x :: l = y :: k ↔ x = y ∧ l = k.
Proof. split; [by intros [= ? ?]|by intros [-> ->]]. Qed.

Lemma to4_four a b c d : to4 [a; b; c; d] = Some [a; b; c; d].
Proof. done. Qed.

Lemma contains4 p q r s m1 m2 m3 m4 a b c d :
  net_contains (IPNet [p; q; r; s] [m1; m2; m3; m4]) [a; b; c; d] =
  (Z.land p m1 =? Z.land a m1) && (Z.land q m2 =? Z.land b m2) && (Z.land r m3 =? Z.land c m3) && (Z.land s m4 =? Z.land d m4).
Proof.
  unfold net_contains. cbn [in_ip in_mask]. rewrite !to4_four. cbn [default from_option].
  rewrite (bool_decide_eq_false_2 (length [m1; m2; m3; m4] = 16%nat ∧ length [p; q; r; s] = 4%nat)) by (by intros [? _]).
  apply eq_true_iff_eq. rewrite bool_decide_eq_true, !andb_true_iff, !Z.eqb_eq. unfold and_bytes, id. cbn [zip_with length].
  rewrite !list_eq_cons. tauto.
Qed.

Definition is_octet (x : Z) : Prop := 0 ≤ x < 256.

(** Each block by its octets. *)
Lemma blocks_by_octet a b c d : is_octet a → is_octet b → is_octet c → is_octet d →
  within_block (number [a; b; c; d]) <$> blocked_v4 =
  [(a =? 0) && (b =? 0) && (c =? 0) && (d =? 0); a =? 10; (a =? 100) && ((64 <=? b) && (b <=? 127)); a =? 127;
   (a =? 169) && (b =? 254); (a =? 172) && ((16 <=? b) && (b <=? 31)); (a =? 192) && (b =? 0) && (c =? 0);
   (a =? 192) && (b =? 168); (a =? 198) && ((18 <=? b) && (b <=? 19)); (224 <=? a) && (a <=? 239); (240 <=? a) && (a <=? 255)].
Proof.
  unfold is_octet. intros Ha Hb Hc Hd. unfold within_block. cbn -[Z.eqb Z.leb Z.mul Z.add].
  repeat match goal with
  | |- _ :: _ = _ :: _ => f_equal; [apply eq_true_iff_eq; rewrite !andb_true_iff, !Z.leb_le, ?Z.eqb_eq; lia|..]
  end.
Qed.

Lemma existsb_fmap {A} (f : A → bool) l : existsb id (f <$> l) = existsb f l.
Proof. induction l as [|x l IH]; [done|]. exact (f_equal (orb (f x)) IH). Qed.

Lemma public_v4 a b c d : is_octet a → is_octet b → is_octet c → is_octet d →
  isPublicIP [a; b; c; d] = negb (existsb (within_block (number [a; b; c; d])) blocked_v4).
Proof.
  intros Ha Hb Hc Hd. pose proof (blocks_by_octet a b c d Ha Hb Hc Hd) as Hblocks.
  rewrite <- existsb_fmap, Hblocks. clear Hblocks.
  unfold isPublicIP. rewrite reserved_known. cbn [forallb]. rewrite !contains4.
  destruct (masks a Ha) as (_ & _ & Ha1 & _ & _ & _ & Ha2 & Ha3). destruct (masks b Hb) as (Hb1 & _ & _ & _ & Hb2 & Hb3 & _ & Hb4).
  destruct (masks c Hc) as (_ & _ & _ & _ & _ & _ & _ & Hc1).
  assert (Hu : IsUnspecified [a; b; c; d] = (a =? 0) && (b =? 0) && (c =? 0) && (d =? 0)).
  { apply eq_true_iff_eq. rewrite !andb_true_iff, !Z.eqb_eq. unfold IsUnspecified, by_family. rewrite to4_four, bool_decide_eq_true.
    rewrite !list_eq_cons. tauto. }
  assert (Hm : IsLinkLocalMulticast [a; b; c; d] || IsMulticast [a; b; c; d] = (224 <=? a) && (a <=? 239)).
  { unfold IsLinkLocalMulticast, IsMulticast, by_family. rewrite !to4_four. unfold octet. cbn [nth]. rewrite Ha1.
    destruct (Z.eqb_spec a 224) as [->|]; [by rewrite orb_true_r|done]. }
  rewrite <- (orb_assoc _ (IsLinkLocalMulticast _)), Hm, Hu. change (is_loopback_ip [a; b; c; d]) with (a =? 127).
  unfold IsPrivate, IsLinkLocalUnicast, by_family. rewrite !to4_four. unfold octet. cbn [nth existsb].
  change (Z.land 100 255) with 100. change (Z.land 64 192) with 64.
  change (Z.land 192 255) with 192. change (Z.land 0 255) with 0. change (Z.land 198 255) with 198.
  change (Z.land 18 254) with 18. change (Z.land 240 240) with 240. rewrite !Z.land_0_r, !Z.eqb_refl.
  rewrite !(Z.eqb_sym 64), !(Z.eqb_sym 18), !(Z.eqb_sym 240), !(Z.eqb_sym 100), !(Z.eqb_sym 192), !(Z.eqb_sym 198), !(Z.eqb_sym 0).
  rewrite Ha2, Ha3, Hb1, Hb2, Hb3, Hb4, Hc1. unfold id.
  btauto.
Qed.

Lemma to4_some ip v : to4 ip = Some v → length v = 4%nat ∧ to4 v = Some v ∧ is_loopback_ip ip = is_loopback_ip v.
Proof.
  unfold to4. destruct (bool_decide_reflect (length ip = 4%nat)) as [Hl|Hl].
  - intros [= <-]. by rewrite bool_decide_true.
  - case_bool_decide as Hm; [|done]. destruct Hm as [Hlen Hpre]. intros [= <-].
    assert (Hd : length (drop 12 ip) = 4%nat) by (rewrite length_drop; lia). rewrite (bool_decide_true _ Hd).
    split_and!; [done|done|]. unfold is_loopback_ip. rewrite (bool_decide_false _ Hl), (bool_decide_true _ Hd), (bool_decide_true _ Hpre).
    destruct (drop 12 ip) as [|x l]; [done|]. done.
Qed.

Lemma public_mapped ip v : to4 ip = Some v → isPublicIP ip = isPublicIP v.
Proof.
  intros Hv. destruct (to4_some ip v Hv) as (_ & Hvv & Hloop). unfold isPublicIP.
  unfold IsPrivate, IsLinkLocalUnicast, IsLinkLocalMulticast, IsMulticast, IsUnspecified, by_family. rewrite Hloop, Hv, Hvv.
  destruct (_ || _); [done|]. unfold net_contains. by rewrite Hv, Hvv.
Qed.

Lemma public_v6 ip : length ip = 16%nat → Forall is_octet ip → to4 ip = None → isPublicIP ip = negb (blocked ip).
Proof.
  intros Hlen Hb Hv. unfold isPublicIP, blocked.
  assert (Hc : forallb (λ n, negb (net_contains n ip)) reservedRanges = true).
  { rewrite reserved_known. unfold net_contains. rewrite Hv. cbn [default from_option forallb in_ip in_mask]. rewrite !to4_four.
    cbn [default from_option]. rewrite !bool_decide_eq_false_2; [done|unfold id; rewrite Hlen; by intros [? _]..]. }
  rewrite Hc. unfold IsPrivate, IsLinkLocalUnicast, IsLinkLocalMulticast, IsMulticast, IsUnspecified, by_family.
  rewrite Hv, (bool_decide_true _ Hlen). cbn [andb].
  assert (Ho : ∀ i, 0 ≤ octet ip i < 256).
  { intros i. unfold octet. destruct (nth_in_or_default i ip 0) as [Hin| ->]; [|lia]. rewrite Forall_forall in Hb. apply Hb. by apply list_elem_of_In. }
  destruct (masks _ (Ho 0%nat)) as (_ & -> & _ & _ & _). destruct (masks _ (Ho 1%nat)) as (_ & _ & _ & -> & _).
  assert (Hz : is_loopback_ip ip || bool_decide (ip = replicate 16 0) = bool_decide (take 15 ip = replicate 15 0) && (octet ip 15 <=? 1)).
  { assert (Hl : is_loopback_ip ip = bool_decide (ip = replicate 15 0 ++ [1])).
    { unfold is_loopback_ip. rewrite (bool_decide_false (length ip = 4%nat)) by lia.
      unfold to4 in Hv. rewrite (bool_decide_false (length ip = 4%nat)) in Hv by lia.
      case_bool_decide as Hm; [done|]. case_bool_decide as Hp; [by destruct Hm|done]. }
    rewrite Hl. apply eq_true_iff_eq. rewrite orb_true_iff, andb_true_iff, !bool_decide_eq_true, Z.leb_le.
    assert (Hsplit : ip = take 15 ip ++ [octet ip 15]).
    { unfold octet. rewrite <- (take_drop 15 ip) at 1. f_equal.
      destruct (drop 15 ip) as [|x [|y l]] eqn:Ed; apply (f_equal length) in Ed as Edl; rewrite length_drop, Hlen in Edl; try done.
      f_equal. rewrite <- (take_drop 15 ip), Ed, app_nth2; [|rewrite length_take; lia]. rewrite length_take, Hlen. done. }
    specialize (Ho 15%nat). split.
    - intros [Heq|Heq]; rewrite Heq; split; try done; unfold octet; cbn; lia.
    - intros [Ht Hle]. rewrite Hsplit, Ht. assert (octet ip 15 = 0 ∨ octet ip 15 = 1) as [-> | ->] by lia; [by right|by left]. }
  destruct (is_loopback_ip ip), (bool_decide (ip = replicate 16 0)); cbn [orb] in Hz; rewrite <- Hz; cbn [orb negb];
    rewrite ?orb_true_r; try done; destruct (octet ip 0 =? 255); btauto.
Qed.

(** An address is taken for public exactly when it is in no refused block. *)
Lemma public_exact ip : length ip = 4%nat ∨ length ip = 16%nat → Forall is_octet ip → isPublicIP ip = negb (blocked ip).
Proof.
  intros Hl Hb. destruct (to4 ip) as [v|] eqn:Hv.
  - rewrite (public_mapped ip v Hv). destruct (to4_some ip v Hv) as (Hlen & _ & _). unfold blocked. rewrite Hv.
    assert (Hbv : Forall is_octet v).
    { unfold to4 in Hv. repeat case_bool_decide; simplify_eq; [done|by apply Forall_drop]. }
    destruct v as [|a [|b [|c [|d [|]]]]]; try done. rewrite !Forall_cons in Hbv. destruct Hbv as (Ha & Hb1 & Hc & Hd & _).
    by apply public_v4.
  - destruct Hl as [Hl|Hl]; [by unfold to4 in Hv; rewrite (bool_decide_true _ Hl) in Hv|by apply public_v6].
Qed.

(** ** What a fetch connects to *)

(** A resolver answers with addresses. *)
Definition resolver_ok (lookup : string → option (list (list Z))) : Prop :=
  ∀ host ips ip, lookup host = Some ips → ip ∈ ips → (length ip = 4%nat ∨ length ip = 16%nat) ∧ Forall is_octet ip.

Lemma dial_guarded lookup addr ip port : resolver_ok lookup → guardedDial lookup addr = DialTo ip port → blocked ip = false.
Proof.
  intros Hr. unfold guardedDial. destruct (split_host_port addr) as [|[host p]]; [done|].
  destruct (lookup host) as [ips|] eqn:El; [|done]. destruct (find isPublicIP ips) as [ip'|] eqn:Ef; [|done]. intros [= -> ->].
  apply find_some in Ef as [Hin%list_elem_of_In Hp]. destruct (Hr _ _ _ El Hin) as [Hl Hb].
  rewrite (public_exact ip Hl Hb) in Hp. by apply negb_true_iff in Hp.
Qed.

(** C37: a fetch stays outside.  Whatever the URL, however names resolve and
    wherever servers redirect to: every connection of a fetch is to an address
    in none of the refused blocks, at most five are made, and a name with a
    public address is reached at the first one the resolver gives. *)
Theorem fetch_stays_outside lookup answer addr : resolver_ok lookup →
  Forall (λ c : list Z * string, blocked c.1 = false) (fetch lookup answer addr).1 ∧
  (length (fetch lookup answer addr).1 ≤ 5)%nat ∧
  (∀ host port before ip after, split_host_port addr = inr (host, port) → lookup host = Some (before ++ ip :: after) →
     Forall (λ ip, blocked ip = true) before → blocked ip = false → guardedDial lookup addr = DialTo ip port).
Proof.
  intros Hr. split; [|split].
  - unfold fetch. generalize maxRequests. intros n. revert addr. induction n as [|n IH]; intros addr; [constructor|]. cbn [fetch_from].
    destruct (guardedDial lookup addr) as [| |ip port] eqn:Ed; [constructor..|]. apply dial_guarded in Ed; [|done].
    destruct (answer ip addr) as [|addr'|]; [by constructor| |by constructor]. specialize (IH addr').
    destruct (fetch_from n lookup answer addr') as [l r]. by constructor.
  - unfold fetch. change 5%nat with maxRequests. generalize maxRequests. intros n. revert addr. induction n as [|n IH]; intros addr; [done|].
    cbn [fetch_from]. destruct (guardedDial lookup addr) as [| |ip port]; [simpl; lia..|].
    destruct (answer ip addr) as [|addr'|]; [simpl; lia| |simpl; lia]. specialize (IH addr').
    destruct (fetch_from n lookup answer addr') as [l r]. simpl in *. lia.
  - intros host port before ip after Hs Hl Hbefore Hip. unfold guardedDial. rewrite Hs, Hl.
    assert (Hpub : ∀ x, x ∈ before ++ ip :: after → isPublicIP x = negb (blocked x)).
    { intros x Hx. destruct (Hr _ _ _ Hl Hx). by apply public_exact. }
    assert (Hf : find isPublicIP (before ++ ip :: after) = Some ip); [|by rewrite Hf].
    clear Hl. induction Hbefore as [|x before Hx _ IH]; cbn [app find].
    + rewrite Hpub by (by left). by rewrite Hip.
    + rewrite Hpub by (by left). rewrite Hx. apply IH. intros y Hy. apply Hpub. by right.
Qed.

(** ** At concrete addresses *)

Definition sample_lookup (host : string) : option (list (list Z)) :=
  if String.eqb host "intern" then Some [[10; 0; 0; 7]]
  else if String.eqb host "both" then Some [[127; 0; 0; 1]; [93; 184; 216; 34]] else None.

Lemma sample_resolver : resolver_ok sample_lookup.
Proof.
  assert (Hfour : ∀ l, length l = 4%nat → forallb (λ x, (0 <=? x) && (x <? 256)) l = true →
    (length l = 4%nat ∨ length l = 16%nat) ∧ Forall is_octet l).
  { intros l Hl Hall. split; [by left|]. rewrite forallb_forall in Hall. apply Forall_forall. intros x Hx%list_elem_of_In.
    apply Hall in Hx. unfold is_octet. lia. }
  intros host ips ip. unfold sample_lookup.
  destruct (String.eqb host "intern"); [intros [= <-] ->%list_elem_of_singleton; by apply Hfour|].
  destruct (String.eqb host "both"); [|done]. intros [= <-] [->| ->%list_elem_of_singleton]%elem_of_cons; by apply Hfour.
Qed.

(** A redirect to an internal host is not followed. *)
Lemma fetch_stays_outside_witness :
  fetch sample_lookup (λ _ _, RedirectTo "intern:80") "both:443" = ([([93; 184; 216; 34], "443"%string)], Failed) ∧
  guardedDial sample_lookup "both:443" = DialTo [93; 184; 216; 34] "443".
Proof.
  split; [by vm_compute|].
  destruct (fetch_stays_outside sample_lookup (λ _ _, Final) "both:443" sample_resolver) as (_ & _ & Hdial).
  apply (Hdial "both"%string "443"%string [[127; 0; 0; 1]] [93; 184; 216; 34] []).
  - vm_compute. reflexivity.
  - reflexivity.
  - constructor; [reflexivity|constructor].
  - vm_compute. reflexivity.
Defined.

(** Addresses no host on the Internet has, and those of IPv6 that stand for an
    internal IPv4 address, are let through. *)
Example reserved_reached :
  isPublicIP <$> [[0; 0; 0; 1]; [192; 0; 2; 1]; [203; 0; 113; 9];
                  [0; 100; 255; 155; 0; 0; 0; 0; 0; 0; 0; 0; 10; 0; 0; 1]; [32; 2; 127; 0; 0; 1] ++ replicate 10 0] = replicate 5 true.
Proof. by vm_compute. Qed.
