(* ===== verification/Config.v ===== *)
(** * The configuration: [internal/config]

    The document, its defaults, its validation and the paths that follow from it;
    [ParseAddr] of [internal/engineproto] and [NormalizeURL] of
    [internal/previewproto], which validation calls.  Decoding TOML is a
    parameter ([Toml]), and so is [url.Parse] ([UrlParse]); the environment and
    the files are arguments. *)

From Stdlib Require Import ZArith Lia Ascii Bool.
From stdpp Require Import base tactics list gmap strings.
From S2P Require Import Prelude GoStrings GoNet Files EngineLine Frame WebProto.

#[local] Open Scope Z_scope.

(** ** The document *)

Record ServerConfig := MkServer {
  sc_listen : string;
  sc_public_url : string;
  sc_static_dir : string;
  sc_origins : list string;
  sc_proxies : list string;
}.

Record LogConfig := MkLog { lg_level : string; lg_format : string }.

(** The settings of each script. *)
Record PluginsConfig := MkPlugins {
  pc_enabled : option bool;
  pc_sandbox : option bool;
  pc_settings : gmap string (gmap string json);
}.

Record HistoryConfig := MkHistory { hc_retention_days : Z }.

Record UploadsConfig := MkUploads {
  uc_mode : string;
  uc_url : string;
  uc_field_name : string;
  uc_headers : gmap string string;
  uc_response_field : string;
}.

Record NetworkConfig := MkNetwork {
  nc_name : string;
  nc_addr : string;
  nc_fallbacks : list string;
  nc_tls : bool;
  nc_insecure : bool;
  nc_nick : string;
  nc_user : string;
  nc_realname : string;
  nc_sasl_user : string;
  nc_sasl_pass : string;
  nc_sasl_external : bool;
  nc_sasl_scram : bool;
  nc_cert_file : string;
  nc_server_pass : string;
  nc_perform : list string;
  nc_channels : list string;
  nc_monitor : list string;
  nc_connect : option bool;
  nc_join_hold_timeout : Z;
}.

Record HighlightConfig := MkHighlight { hl_patterns : list string; hl_exceptions : list string }.

Record UserConfig := MkUser {
  us_name : string;
  us_password_hash : string;
  us_networks : list NetworkConfig;
  us_keys : list string;
}.

Record AuthConfig := MkAuth { ac_session_hours : Z }.

Record SSHConfig := MkSSH { sh_enabled : bool; sh_listen : string; sh_host_key : string; sh_keys : list string }.

Record IRCServerConfig := MkIRCServer {
  is_listen : string;
  is_tls : option bool;
  is_cert_file : string;
  is_key_file : string;
  is_max_playback : Z;
}.

Record EngineConfig := MkEngine { eg_url : string; eg_secret : string }.

Record PreviewsConfig := MkPreviews { pv_url : string; pv_secret : string }.

Record Config := MkConfig {
  cf_home : string;
  cf_server : ServerConfig;
  cf_log : LogConfig;
  cf_plugins : PluginsConfig;
  cf_history : HistoryConfig;
  cf_uploads : UploadsConfig;
  cf_networks : list NetworkConfig;
  cf_highlight : HighlightConfig;
  cf_aliases : gmap string string;
  cf_users : list UserConfig;
  cf_auth : AuthConfig;
  cf_ssh : SSHConfig;
  cf_ircserver : IRCServerConfig;
  cf_engine : EngineConfig;
  cf_previews : PreviewsConfig;
}.

#[export] Instance eta_server : Eta ServerConfig := λ r,
  MkServer (sc_listen r) (sc_public_url r) (sc_static_dir r) (sc_origins r) (sc_proxies r).
#[export] Instance eta_log : Eta LogConfig := λ r, MkLog (lg_level r) (lg_format r).
#[export] Instance eta_uploads : Eta UploadsConfig := λ r,
  MkUploads (uc_mode r) (uc_url r) (uc_field_name r) (uc_headers r) (uc_response_field r).
#[export] Instance eta_ircserver : Eta IRCServerConfig := λ r,
  MkIRCServer (is_listen r) (is_tls r) (is_cert_file r) (is_key_file r) (is_max_playback r).
#[export] Instance eta_engine : Eta EngineConfig := λ r, MkEngine (eg_url r) (eg_secret r).
#[export] Instance eta_previews : Eta PreviewsConfig := λ r, MkPreviews (pv_url r) (pv_secret r).
#[export] Instance eta_config : Eta Config := λ r,
  MkConfig (cf_home r) (cf_server r) (cf_log r) (cf_plugins r) (cf_history r) (cf_uploads r) (cf_networks r)
    (cf_highlight r) (cf_aliases r) (cf_users r) (cf_auth r) (cf_ssh r) (cf_ircserver r) (cf_engine r) (cf_previews r).

(** [&Config{home: home}]. *)
Definition zero_config (home : string) : Config :=
  MkConfig home (MkServer "" "" "" [] []) (MkLog "" "") (MkPlugins None None ∅) (MkHistory 0)
    (MkUploads "" "" "" ∅ "") [] (MkHighlight [] []) ∅ [] (MkAuth 0) (MkSSH false "" "" []) (MkIRCServer "" None "" "" 0)
    (MkEngine "" "") (MkPreviews "" "").

(** ** What follows from it *)

Definition given (s : string) : bool := negb (String.eqb s "").

Definition PreviewsEnabled (c : Config) : bool := given (pv_url (cf_previews c)).
Definition EngineEnabled (c : Config) : bool := given (eg_url (cf_engine c)).
Definition AuthEnabled (c : Config) : bool := match cf_users c with [] => false | _ => true end.
Definition PluginsEnabled (c : Config) : bool := default true (pc_enabled (cf_plugins c)).

Definition PluginSandbox (c : Config) : bool :=
  if AuthEnabled c then true else default true (pc_sandbox (cf_plugins c)).

Definition IRCServerTLSEnabled (c : Config) : bool := default true (is_tls (cf_ircserver c)).

Definition EffectiveUsers (c : Config) : list UserConfig :=
  match cf_users c with
  | [] => [MkUser "default" "" (cf_networks c) (sh_keys (cf_ssh c))]
  | l => l
  end.

Definition ConnectEnabled (n : NetworkConfig) : bool := default true (nc_connect n).

Definition ScriptsDir (c : Config) : string := join_path [cf_home c; "scripts"].
Definition DataDir (c : Config) : string := join_path [cf_home c; "data"].

Definition SSHHostKeyPath (c : Config) : string :=
  if given (sh_host_key (cf_ssh c)) then sh_host_key (cf_ssh c) else join_path [DataDir c; "ssh_host_ed25519_key"].

Definition SSHListen (c : Config) : string := if given (sh_listen (cf_ssh c)) then sh_listen (cf_ssh c) else ":2222".

(** The directories [EnsureDirs] makes, in order. *)
Definition ensured_dirs (c : Config) : list string :=
  [cf_home c; ScriptsDir c; DataDir c] ++
  (cf_users c ≫= λ u,
    let base := join_path [cf_home c; "users"; us_name u] in
    [base; join_path [base; "scripts"]; join_path [base; "data"]]).

(** [EnsureDirs]: the first directory that cannot be made. *)
Definition EnsureDirs (mkdir_ok : string → bool) (c : Config) : option string :=
  find (λ d, negb (mkdir_ok d)) (ensured_dirs c).

(** ** Defaults *)

Definition or_default (d s : string) : string := if String.eqb s "" then d else s.

Definition withDefaults (c : Config) : Config :=
  c <| cf_server ::= λ s : ServerConfig, s <| sc_listen ::= or_default "127.0.0.1:8080" |> <| sc_static_dir ::= or_default "client/dist" |> |>
    <| cf_log ::= λ l : LogConfig, l <| lg_level ::= or_default "info" |> <| lg_format ::= or_default "text" |> |>
    <| cf_uploads ::= λ u : UploadsConfig, u <| uc_mode ::= or_default "local" |> <| uc_field_name ::= or_default "file" |> |>
    <| cf_ircserver ::= λ s : IRCServerConfig, s <| is_max_playback ::= λ n, if n <=? 0 then 50 else n |> |>.

(** ** Validation *)

(** Each error of the source, with what it names. *)
Inductive config_error :=
  | NoHome
  | ReadFailed
  | ParseFailed
  | BadLevel (s : string)
  | BadFormat (s : string)
  | BadUploadMode (s : string)
  | NoUploadUrl
  | BadUploadUrl (s : string)
  | NoNetworkName (ctx : string) (i : nat)
  | DupNetwork (ctx name : string)
  | NoAddr (ctx name : string)
  | BadEngineUrl
  | ShortEngineSecret
  | BadPreviewsUrl (s : string)
  | ShortPreviewsSecret
  | NoUserName (i : nat)
  | DupUser (name : string)
  | NoPassword (name : string).

(** [url.Parse]. *)
Record url := Url { url_scheme : string; url_host : string; url_path : string; url_opaque : string }.

Class UrlParse := url_parse : string → option url.

(** Decoding a document into a value that holds some fields already. *)
Class Toml := toml_into : string → Config → option Config.

(** [engineproto.ParseAddr]: the network and the address. *)
Definition ParseAddr `{UrlParse} (s : string) : option (string * string) :=
  let s := trim_space s in
  if String.eqb s "" then None
  else match index_str "://" s, has_prefix "unix:" s with
       | None, false => if check_host_port s then Some ("tcp", s) else None
       | _, _ =>
           u ← url_parse s;
           if String.eqb (url_scheme u) "tcp" then
             if given (url_path u) && negb (String.eqb (url_path u) "/") then None
             else if check_host_port (url_host u) then Some ("tcp", url_host u) else None
           else if String.eqb (url_scheme u) "unix" then
             let p := if String.eqb (url_path u) "" then url_opaque u else url_path u in
             if String.eqb p "" then None else Some ("unix", p)
           else None
       end%string.

(** [previewproto.NormalizeURL]. *)
Definition NormalizeURL (s : string) : string :=
  let s := trim_space s in
  let s := if given s && bool_decide (index_str "://" s = None) then "http://" +:+ s else s in
  trim_right (Ascii.eqb SLASH) s.

Definition MinEngineSecretLen : Z := 16.
Definition MinSecretLen : Z := 16.

(** An absolute http or https URL. *)
Definition http_url `{UrlParse} (s : string) : bool :=
  match url_parse s with
  | Some u => (String.eqb (url_scheme u) "http" || String.eqb (url_scheme u) "https") && given (url_host u)
  | None => false
  end.

Fixpoint check_networks (ctx : string) (i : nat) (seen : gset string) (nets : list NetworkConfig) : option config_error :=
  match nets with
  | [] => None
  | n :: nets =>
      if String.eqb (nc_name n) "" then Some (NoNetworkName ctx i)
      else if bool_decide (nc_name n ∈ seen) then Some (DupNetwork ctx (nc_name n))
      else if String.eqb (nc_addr n) "" then Some (NoAddr ctx (nc_name n))
      else check_networks ctx (S i) ({[nc_name n]} ∪ seen) nets
  end.

Definition validateNetworks (nets : list NetworkConfig) (ctx : string) : option config_error := check_networks ctx 0 ∅ nets.

Fixpoint check_users (i : nat) (seen : gset string) (users : list UserConfig) : option config_error :=
  match users with
  | [] => None
  | u :: users =>
      if String.eqb (us_name u) "" then Some (NoUserName i)
      else if bool_decide (us_name u ∈ seen) then Some (DupUser (us_name u))
      else if String.eqb (us_password_hash u) "" then Some (NoPassword (us_name u))
      else match validateNetworks (us_networks u) ("user " +:+ us_name u +:+ " networks") with
           | Some e => Some e
           | None => check_users (S i) ({[us_name u]} ∪ seen) users
           end
  end.

(** The checks one after the other, the first error ending them. *)
Fixpoint first_failure (checks : list (option config_error)) : option config_error :=
  match checks with
  | [] => None
  | Some e :: _ => Some e
  | None :: checks => first_failure checks
  end.

Definition check_that (ok : bool) (e : config_error) : option config_error := if ok then None else Some e.

Definition validate `{UrlParse} (c : Config) : option config_error :=
  first_failure [
    check_that (bool_decide (lg_level (cf_log c) ∈ ["debug"; "info"; "warn"; "error"]%string)) (BadLevel (lg_level (cf_log c)));
    check_that (bool_decide (lg_format (cf_log c) ∈ ["text"; "json"]%string)) (BadFormat (lg_format (cf_log c)));
    check_that (bool_decide (uc_mode (cf_uploads c) ∈ ["local"; "custom"]%string)) (BadUploadMode (uc_mode (cf_uploads c)));
    (if String.eqb (uc_mode (cf_uploads c)) "custom" then
       if String.eqb (uc_url (cf_uploads c)) "" then Some NoUploadUrl
       else check_that (http_url (uc_url (cf_uploads c))) (BadUploadUrl (uc_url (cf_uploads c)))
     else None);
    validateNetworks (cf_networks c) "networks";
    (if EngineEnabled c then
       match ParseAddr (eg_url (cf_engine c)) with
       | None => Some BadEngineUrl
       | Some _ => check_that (MinEngineSecretLen <=? str_len (eg_secret (cf_engine c))) ShortEngineSecret
       end
     else None);
    (if PreviewsEnabled c then
       if http_url (NormalizeURL (pv_url (cf_previews c)))
       then check_that (MinSecretLen <=? str_len (pv_secret (cf_previews c))) ShortPreviewsSecret
       else Some (BadPreviewsUrl (pv_url (cf_previews c)))
     else None);
    check_users 0 ∅ (cf_users c)
  ].

(** ** Loading *)

Inductive file_read := Missing | Unreadable | Content (data : string).

(** The world of a process that starts: [os.Getenv], [os.UserHomeDir], the file. *)
Record os_env := OsEnv {
  os_var : string → string;
  os_home : option string;
  os_read : string → file_read;
}.

Definition env_over (v s : string) : string := if given v then v else s.

Definition overrides (E : os_env) (c : Config) : Config :=
  c <| cf_engine ::= λ e : EngineConfig, e <| eg_url ::= env_over (os_var E "STUGAN_ENGINE_URL") |>
                                           <| eg_secret ::= env_over (os_var E "STUGAN_ENGINE_SECRET") |> |>
    <| cf_previews ::= λ p : PreviewsConfig, p <| pv_url ::= env_over (os_var E "STUGAN_PREVIEWS_URL") |>
                                               <| pv_secret ::= env_over (os_var E "STUGAN_PREVIEWS_SECRET") |> |>.

Definition LoadFrom `{UrlParse, Toml} (E : os_env) (home : string) : Config + config_error :=
  let decoded :=
    match os_read E (join_path [home; "config.toml"]) with
    | Missing => inl (zero_config home)
    | Unreadable => inr ReadFailed
    | Content data => match toml_into data (zero_config home) with Some c => inl c | None => inr ParseFailed end
    end in
  match decoded with
  | inr e => inr e
  | inl c =>
      let c := withDefaults (overrides E (c <| cf_home := home |>)) in
      match validate c with Some e => inr e | None => inl c end
  end.

Definition Home (E : os_env) : option string :=
  if given (os_var E "STUGAN_HOME") then Some (os_var E "STUGAN_HOME")
  else if given (os_var E "XDG_CONFIG_HOME") then Some (join_path [os_var E "XDG_CONFIG_HOME"; "stugan"])
  else (λ h, join_path [h; ".config"; "stugan"]) <$> os_home E.

Definition Load `{UrlParse, Toml} (E : os_env) : Config + config_error :=
  match Home E with None => inr NoHome | Some home => LoadFrom E home end.
