(* ===== verification/ConfigThms.v ===== *)
(** * What a loaded configuration guarantees, and whose directories are whose *)

From Stdlib Require Import ZArith Lia Ascii Bool.
From stdpp Require Import base tactics list gmap strings.
From S2P Require Import Prelude GoStrings GoNet Files EngineLine Frame LinkThms WebProto Config.

#[local] Open Scope Z_scope.

(** ** Validation is exact *)

(** Distinct names, and an address each. *)
Definition networks_valid (nets : list NetworkConfig) : Prop :=
  Forall (λ n, nc_name n ≠ ""%string ∧ nc_addr n ≠ ""%string) nets ∧ NoDup (nc_name <$> nets).

Definition users_valid (users : list UserConfig) : Prop :=
  Forall (λ u, us_name u ≠ ""%string ∧ us_password_hash u ≠ ""%string ∧ networks_valid (us_networks u)) users ∧
  NoDup (us_name <$> users).

Record valid `{UrlParse} (c : Config) : Prop := {
  vd_level : lg_level (cf_log c) ∈ ["debug"; "info"; "warn"; "error"]%string;
  vd_format : lg_format (cf_log c) ∈ ["text"; "json"]%string;
  vd_mode : uc_mode (cf_uploads c) ∈ ["local"; "custom"]%string;
  vd_custom : uc_mode (cf_uploads c) = "custom"%string → uc_url (cf_uploads c) ≠ ""%string ∧ http_url (uc_url (cf_uploads c)) = true;
  vd_networks : networks_valid (cf_networks c);
  vd_engine : EngineEnabled c = true → is_Some (ParseAddr (eg_url (cf_engine c))) ∧ 16 ≤ str_len (eg_secret (cf_engine c));
  vd_previews : PreviewsEnabled c = true → http_url (NormalizeURL (pv_url (cf_previews c))) = true ∧ 16 ≤ str_len (pv_secret (cf_previews c));
  vd_users : users_valid (cf_users c);
}.

(** The names still to come are new and distinct. *)
Lemma fresh_names {A} (f : A → string) (a : A) (l : list A) (seen : gset string) :
  ((∀ x, x ∈ l → f x ∉ ({[f a]} ∪ seen : gset string)) ∧ NoDup (f <$> l)) ∧ f a ∉ seen ↔
  (∀ x, x ∈ a :: l → f x ∉ seen) ∧ NoDup (f <$> a :: l).
Proof.
  rewrite fmap_cons, NoDup_cons. setoid_rewrite elem_of_cons. setoid_rewrite not_elem_of_union. setoid_rewrite not_elem_of_singleton.
  rewrite list_elem_of_fmap. split.
  - intros [[Hl Hnd] Ha]. split_and!; [|naive_solver|done]. intros x [->|Hx]; [done|]. by apply Hl.
  - intros (Hl & Ha & Hnd). split_and!; [|done|naive_solver]. intros x Hx. split; [|naive_solver]. intros Heq. apply Ha. eauto.
Qed.

Lemma check_networks_exact ctx i seen nets : check_networks ctx i seen nets = None ↔
  Forall (λ n, nc_name n ≠ ""%string ∧ nc_addr n ≠ ""%string) nets ∧ (∀ n, n ∈ nets → nc_name n ∉ seen) ∧ NoDup (nc_name <$> nets).
Proof.
  revert i seen. induction nets as [|n nets IH]; intros i seen; cbn [check_networks].
  { split; [|done]. intros _. split_and!; [constructor|by intros n ?%elem_of_nil|constructor]. }
  rewrite <- fresh_names, Forall_cons. destruct (String.eqb_spec (nc_name n) ""); [naive_solver|].
  case_bool_decide; [naive_solver|]. destruct (String.eqb_spec (nc_addr n) ""); [naive_solver|]. rewrite IH. naive_solver.
Qed.

Lemma validateNetworks_exact nets ctx : validateNetworks nets ctx = None ↔ networks_valid nets.
Proof. unfold validateNetworks, networks_valid. rewrite check_networks_exact. split; [naive_solver|]. intros [? ?]. split_and!; [done|set_solver|done]. Qed.

Lemma check_users_exact i seen users : check_users i seen users = None ↔
  Forall (λ u, us_name u ≠ ""%string ∧ us_password_hash u ≠ ""%string ∧ networks_valid (us_networks u)) users ∧
  (∀ u, u ∈ users → us_name u ∉ seen) ∧ NoDup (us_name <$> users).
Proof.
  revert i seen. induction users as [|u users IH]; intros i seen; cbn [check_users].
  { split; [|done]. intros _. split_and!; [constructor|by intros u ?%elem_of_nil|constructor]. }
  rewrite <- fresh_names, Forall_cons. destruct (String.eqb_spec (us_name u) ""); [naive_solver|].
  case_bool_decide; [naive_solver|]. destruct (String.eqb_spec (us_password_hash u) ""); [naive_solver|].
  destruct (validateNetworks _ _) eqn:E.
  - assert (¬ networks_valid (us_networks u)) by (rewrite <- validateNetworks_exact; by rewrite E). naive_solver.
  - apply validateNetworks_exact in E. rewrite IH. naive_solver.
Qed.

Lemma first_failure_none l : first_failure l = None ↔ Forall (λ e, e = None) l.
Proof. induction l as [|[e|] l IH]; simpl; rewrite ?Forall_cons; naive_solver. Qed.

Lemma check_that_none ok e : check_that ok e = None ↔ ok = true.
Proof. by destruct ok. Qed.

Lemma validate_exact `{UrlParse} c : validate c = None ↔ valid c.
Proof.
  unfold validate. rewrite first_failure_none, !Forall_cons, !check_that_none, !bool_decide_eq_true.
  rewrite validateNetworks_exact, check_users_exact.
  assert (Hup : (if String.eqb (uc_mode (cf_uploads c)) "custom" then
       if String.eqb (uc_url (cf_uploads c)) "" then Some NoUploadUrl
       else check_that (http_url (uc_url (cf_uploads c))) (BadUploadUrl (uc_url (cf_uploads c)))
     else None) = None ↔
     (uc_mode (cf_uploads c) = "custom"%string → uc_url (cf_uploads c) ≠ ""%string ∧ http_url (uc_url (cf_uploads c)) = true)).
  { destruct (String.eqb_spec (uc_mode (cf_uploads c)) "custom"); [|naive_solver].
    destruct (String.eqb_spec (uc_url (cf_uploads c)) ""); [naive_solver|]. rewrite check_that_none. naive_solver. }
  assert (Hen : (if EngineEnabled c then
       match ParseAddr (eg_url (cf_engine c)) with
       | None => Some BadEngineUrl
       | Some _ => check_that (MinEngineSecretLen <=? str_len (eg_secret (cf_engine c))) ShortEngineSecret
       end
     else None) = None ↔
     (EngineEnabled c = true → is_Some (ParseAddr (eg_url (cf_engine c))) ∧ 16 ≤ str_len (eg_secret (cf_engine c)))).
  { destruct (EngineEnabled c); [|naive_solver]. destruct (ParseAddr _) as [a|].
    - rewrite check_that_none, Z.leb_le. unfold MinEngineSecretLen. naive_solver.
    - split; [done|]. intros Hx. by destruct (Hx eq_refl) as [[? ?] _]. }
  assert (Hpv : (if PreviewsEnabled c then
       if http_url (NormalizeURL (pv_url (cf_previews c)))
       then check_that (MinSecretLen <=? str_len (pv_secret (cf_previews c))) ShortPreviewsSecret
       else Some (BadPreviewsUrl (pv_url (cf_previews c)))
     else None) = None ↔
     (PreviewsEnabled c = true → http_url (NormalizeURL (pv_url (cf_previews c))) = true ∧ 16 ≤ str_len (pv_secret (cf_previews c)))).
  { destruct (PreviewsEnabled c); [|naive_solver]. destruct (http_url (NormalizeURL _)).
    - rewrite check_that_none, Z.leb_le. unfold MinSecretLen. naive_solver.
    - split; [done|]. intros Hx. by destruct (Hx eq_refl). }
  rewrite Hup, Hen, Hpv. unfold users_valid. split.
  - intros (? & ? & ? & ? & ? & ? & ? & (? & ? & ?) & _). by split.
  - intros []. destruct vd_users0. split_and!; try done; set_solver.
Qed.

(** ** Loading *)

(** What the file says, on top of nothing. *)
Definition document `{Toml} (E : os_env) (home : string) : option Config :=
  match os_read E (join_path [home; "config.toml"]) with
  | Missing => Some (zero_config home)
  | Unreadable => None
  | Content data => toml_into data (zero_config home)
  end.

Lemma or_default_twice d s : or_default d (or_default d s) = or_default d s.
Proof. unfold or_default. destruct (String.eqb s "") eqn:E; [by destruct (String.eqb d "")|by rewrite E]. Qed.

Lemma or_default_given d s : given d = true → given (or_default d s) = true.
Proof. unfold or_default, given. destruct (String.eqb s "") eqn:E; [done|by rewrite E]. Qed.

Lemma defaults_twice c : withDefaults (withDefaults c) = withDefaults c.
Proof.
  destruct c as [h [? ? ? ? ?] [? ?] pl hi [? ? ? ? ?] n hl al us au sh [? ? ? ? p] en pv]. unfold withDefaults.
  cbn -[or_default Z.leb]. rewrite !or_default_twice. do 2 f_equal. destruct (p <=? 0) eqn:E; [done|by rewrite E].
Qed.

(** C33: a configuration that is loaded can be run.  Loading succeeds exactly when
    the document, if there is one, decodes, and what it says, the environment
    taking precedence and the defaults filled in, passes validation; [validate]
    accepts exactly the configurations of [valid]: known levels, formats and
    modes, URLs of the right kind where they are needed with secrets of at least
    sixteen bytes, accounts and networks with distinct names, a password hash
    and an address each.  Nothing is left for defaults to fill in, no address to
    listen on is empty, and with accounts every plugin is sandboxed whatever the
    document says. *)
Theorem config_loads `{UrlParse, Toml} (E : os_env) home c :
  (LoadFrom E home = inl c ↔
     ∃ d, document E home = Some d ∧ c = withDefaults (overrides E (d <| cf_home := home |>)) ∧ valid c) ∧
  (LoadFrom E home = inl c →
     withDefaults c = c ∧ cf_home c = home ∧ given (sc_listen (cf_server c)) = true ∧ 0 < is_max_playback (cf_ircserver c) ∧
     (∀ v, os_var E "STUGAN_ENGINE_SECRET" = v → v ≠ ""%string → eg_secret (cf_engine c) = v) ∧
     (cf_users c ≠ [] → PluginSandbox c = true)).
Proof.
  assert (Hload : LoadFrom E home = inl c ↔
     ∃ d, document E home = Some d ∧ c = withDefaults (overrides E (d <| cf_home := home |>)) ∧ valid c).
  { unfold LoadFrom, document. destruct (os_read E _) as [| |data]; [|naive_solver|destruct (toml_into data _) as [d|]; [|naive_solver]];
      (set (c' := withDefaults _); destruct (validate c') eqn:Ev;
       [split; [done|]; intros (? & [= <-] & -> & Hv); apply validate_exact in Hv; fold c' in Hv; congruence|];
       apply validate_exact in Ev; split; [intros [= <-]; eauto|by intros (? & [= <-] & -> & _)]). }
  split; [done|]. intros Hl. apply Hload in Hl as (d & _ & -> & _). set (c' := overrides E _).
  split; [apply defaults_twice|]. split; [done|]. split; [by apply or_default_given|]. split; [|split].
  - cbn -[Z.leb]. destruct (is_max_playback _ <=? 0) eqn:El; [done|]. apply Z.leb_gt in El. done.
  - intros v Hv Hne. cbn. unfold env_over, given. rewrite Hv. by rewrite (proj2 (String.eqb_neq _ _) Hne).
  - intros Hu. unfold PluginSandbox, AuthEnabled. by destruct (cf_users _).
Qed.

(** ** A first start, without a document *)

#[local] Instance no_urls : UrlParse := λ _, None.
#[local] Instance no_toml : Toml := λ _ _, None.

Definition bare_env : os_env :=
  OsEnv (λ v, if String.eqb v "STUGAN_HOME" then "/srv/stugan" else "")%string None (λ _, Missing).

Definition bare_config : Config := withDefaults (zero_config "/srv/stugan").

Lemma config_loads_witness :
  Load bare_env = inl bare_config ∧ sc_listen (cf_server bare_config) = "127.0.0.1:8080"%string ∧ withDefaults bare_config = bare_config.
Proof.
  assert (Hl : LoadFrom bare_env "/srv/stugan" = inl bare_config) by (vm_compute; reflexivity).
  destruct (config_loads bare_env "/srv/stugan" bare_config) as [_ Hc]. destruct (Hc Hl) as [Hd _].
  split; [exact Hl|]. split; [reflexivity|exact Hd].
Defined.
