(* ===== verification/BncParse.v ===== *)
(** * The bouncer's wire format

    [internal/ircserver/parse.go]: parsing a client's line, formatting a line
    for a client, IRCv3 tag value escaping, login strings, credentials and
    nickname clean-up; and the line-level parts of [session.go]
    ([sanitizeLine]), [replay.go] ([BuildNamesLines], [MemberPrefixSymbol]). *)

From Stdlib Require Import ZArith Lia Ascii Bool.
From stdpp Require Import base tactics list gmap strings.
From S2P Require Import Prelude GoStrings Utf8.

#[local] Open Scope Z_scope.

Definition maxClientTagBytes : Z := 4094.
Definition serverName : string := "stugan.bouncer".
Definition defaultMaxPlayback : Z := 50.

(** ** Tag values *)

Definition escape_rune (r : Z) : string :=
  if Z.eqb r 59 then "\:"
  else if Z.eqb r 32 then "\s"
  else if Z.eqb r 92 then "\\"
  else if Z.eqb r 13 then "\r"
  else if Z.eqb r 10 then "\n"
  else encode_rune r.

Definition EscapeTagValue (v : string) : string := str_concat ((λ '(r, _), escape_rune r) <$> runes v).

Definition unescape_rune (r : Z) : string :=
  if Z.eqb r 58 then ";"
  else if Z.eqb r 115 then " "
  else if Z.eqb r 92 then "\"
  else if Z.eqb r 114 then String CR ""
  else if Z.eqb r 110 then String LF ""
  else encode_rune r.

(** The loop over the runes, [escaped] its local variable. *)
Fixpoint unescape_loop (l : list Z) (escaped : bool) : string :=
  match l with
  | [] => ""
  | r :: l =>
      if escaped then unescape_rune r +:+ unescape_loop l false
      else if Z.eqb r 92 then unescape_loop l true
      else encode_rune r +:+ unescape_loop l false
  end.

Definition UnescapeTagValue (v : string) : string := unescape_loop (fst <$> runes v) false.

(** ** Messages *)

Record Message := mkMessage {
  bm_raw_tags : string;
  bm_tags : gmap string string;
  bm_prefix : string;
  bm_command : string;
  bm_params : list string;
}.

(** One item of the tag part: what is added to [Tags] and whether it is kept. *)
Definition parse_tag (t : string) : string * string :=
  match index_byte "="%char t with
  | Some eq => (str_take eq t, UnescapeTagValue (str_drop (S eq) t))
  | None => (t, "")
  end%string.

Definition client_tag (key : string) : bool := has_prefix "+" key && (1 <? str_len key).

Fixpoint keep_tags (items : list string) (tags : gmap string string) (kept : list string)
  : gmap string string * list string :=
  match items with
  | [] => (tags, kept)
  | t :: items =>
      if String.eqb t "" then keep_tags items tags kept
      else
        let '(key, val) := parse_tag t in
        if client_tag key then keep_tags items (<[key := val]> tags) (kept ++ [t])
        else keep_tags items tags kept
  end.

Definition is_trailer (a : ascii) : bool := Ascii.eqb a CR || Ascii.eqb a LF || Ascii.eqb a NUL.

Section parse.
Context `{UnicodeTables}.

(** The part of [ParseLine] after the tags and the prefix. *)
Definition parse_command (rawTags : string) (tags : gmap string string) (line : string) : option Message :=
  if String.eqb line "" then None
  else
    let '(head, trailing) :=
      match index_str " :" line with
      | Some ti => (str_take ti line, Some (str_drop (ti + 2) line))
      | None => (line, None)
      end in
    match fields head with
    | [] => None
    | cmd :: params =>
        let params := match trailing with Some t => params ++ [t] | None => params end in
        Some (mkMessage rawTags tags "" (to_upper cmd) params)
    end.

Definition strip_prefix (line : string) : option string :=
  if has_prefix ":" line then
    match index_byte SP line with
    | Some sp => Some (trim_left is_sp (str_drop (S sp) line))
    | None => None
    end
  else Some line.

Definition ParseLine (raw : string) : option Message :=
  let line := trim_right is_trailer raw in
  if String.eqb line "" then None
  else
    '(rawTags, tags, line) ←
      (if has_prefix "@" line then
         sp ← index_byte SP line;
         let tagPart := str_drop 1 (str_take sp line) in
         let line := trim_left is_sp (str_drop (S sp) line) in
         let '(tags, kept) := keep_tags (split_byte ";"%char tagPart) ∅ [] in
         let joined := str_join ";" kept in
         let rawTags :=
           if bool_decide (kept ≠ []) && (str_len joined <=? maxClientTagBytes) then joined else "" in
         Some (rawTags, tags, line)
       else Some ("", ∅, line));
    line ← strip_prefix line;
    parse_command rawTags tags line.
End parse.

(** ** [FormatLine] *)

Definition format_last (last : string) : string :=
  if has_prefix ":" last then last
  else if String.eqb last "" || contains_str " " last then ":" +:+ last
  else last.

Definition FormatLine (tags prefix command : string) (params : list string) : string :=
  (if negb (String.eqb tags "") then "@" +:+ tags +:+ " " else "") +:+
  (if negb (String.eqb prefix "") then ":" +:+ prefix +:+ " " else "") +:+
  command +:+
  match last params with
  | None => ""
  | Some l =>
      str_concat ((λ p, " " +:+ p) <$> take (length params - 1) params) +:+
      " " +:+ format_last l
  end.

(** ** Logins *)

Record ParsedLogin := mkLogin { pl_username : string; pl_network : string; pl_client : string }.

Definition is_slash_at (a : ascii) : bool := (Ascii.eqb a "/" || Ascii.eqb a "@")%char.

Definition UnmarshalLogin (raw : string) : ParsedLogin :=
  let raw := trim_space raw in
  if String.eqb raw "" then mkLogin "" "" ""
  else
    let i := index_any is_slash_at raw in
    let lastSlash := last_index_byte "/"%char raw in
    let lastAt := last_index_byte "@"%char raw in
    let j := match lastSlash, lastAt with
             | Some a, Some b => Some (Nat.max a b)
             | Some a, None => Some a
             | None, o => o
             end in
    let username := match i with Some i => str_take i raw | None => raw end in
    let '(network, client) :=
      match j with
      | Some j =>
          if bool_decide (String.get j raw = Some "@"%char) then ("", str_drop (S j) raw)
          else (str_drop (S j) raw, "")
      | None => ("", "")
      end%string in
    let '(network, client) :=
      match i, j with
      | Some i, Some j =>
          if (i <? j)%nat then
            let mid := str_drop (S i) (str_take j raw) in
            if bool_decide (String.get i raw = Some "@"%char) then (network, mid) else (mid, client)
          else (network, client)
      | _, _ => (network, client)
      end in
    mkLogin username network client.

Record ParsedCredentials := mkCredentials { pc_username : string; pc_secret : string; pc_network : string }.

Definition ParseCredentials (passRaw userField : string) : option ParsedCredentials :=
  let '(loginPart, secret) :=
    match index_byte ":"%char passRaw with
    | Some colon => (str_take colon passRaw, str_drop (S colon) passRaw)
    | None => ("", passRaw)
    end%string in
  let loginPart := if String.eqb loginPart "" then userField else loginPart in
  let parsed := UnmarshalLogin loginPart in
  let network :=
    if String.eqb (pl_network parsed) "" && negb (String.eqb userField "")
    then pl_network (UnmarshalLogin userField) else pl_network parsed in
  let username := pl_username parsed in
  if String.eqb username "" && String.eqb secret "" then None
  else Some (mkCredentials username secret network).

(** ** Nicknames *)

(** The runes of [-[]\`^{}_|]. *)
Definition nick_special (r : Z) : bool :=
  Z.eqb r 45 || Z.eqb r 91 || Z.eqb r 93 || Z.eqb r 92 || Z.eqb r 96 || Z.eqb r 94 || Z.eqb r 123 ||
  Z.eqb r 125 || Z.eqb r 95 || Z.eqb r 124.

Section nick.
Context `{UnicodeTables}.

Definition nick_rune (r : Z) : bool := is_letter r || is_digit r || nick_special r.

Definition CleanNick (nick : string) : string :=
  let nick := trim_space nick in
  if String.eqb nick "" then "user"
  else
    let l := fst <$> runes nick in
    let u := match l with
             | r :: _ => if is_digit r || Z.eqb r 45 then "u" else ""
             | [] => ""
             end%string in
    let res := u +:+ str_concat ((λ r, if nick_rune r then encode_rune r else "") <$> l) in
    if String.eqb res "" then "user"
    else if 32 <? str_len res then str_take 32 res else res.
End nick.

(** ** Lines *)

Definition sanitizeLine (line : string) : string :=
  let clean := replace_byte CR " " line in
  let clean := replace_byte LF " " clean in
  let clean := replace_byte NUL " " clean in
  clean +:+ String CR (String LF "").

Definition MemberPrefixSymbol (modes : string) : string := str_take 1 modes.

Definition names_base (nick channel : string) : string :=
  ":" +:+ serverName +:+ " 353 " +:+ nick +:+ " = " +:+ channel +:+ " :".

(** The loop of [BuildNamesLines]: [chunk] and [currLen] are its locals. *)
Fixpoint names_loop (base : string) (budget : Z) (names chunk : list string) (currLen : Z) : list string :=
  match names with
  | [] => if bool_decide (chunk ≠ []) then [base +:+ str_join " " chunk] else []
  | name :: names =>
      let add := str_len name + (if bool_decide (chunk ≠ []) then 1 else 0) in
      if (budget <? currLen + add) && bool_decide (chunk ≠ []) then
        (base +:+ str_join " " chunk) :: names_loop base budget names [name] (str_len name)
      else names_loop base budget names (chunk ++ [name]) (currLen + add)
  end.

Definition BuildNamesLines (nick channel : string) (names : list string) : list string :=
  let base := names_base nick channel in
  let budget := Z.max 64 (480 - str_len base) in
  names_loop base budget names [] 0 ++
  [":" +:+ serverName +:+ " 366 " +:+ nick +:+ " " +:+ channel +:+ " :End of /NAMES list."].

(** ** Escaping *)

Definition esc (r : Z) : list Z :=
  if Z.eqb r 59 then [92; 58]
  else if Z.eqb r 32 then [92; 115]
  else if Z.eqb r 92 then [92; 92]
  else if Z.eqb r 13 then [92; 114]
  else if Z.eqb r 10 then [92; 110]
  else [r].

Lemma escape_rune_esc r : escape_rune r = of_runes (esc r).
Proof.
  unfold escape_rune, esc.
  repeat (destruct (Z.eqb _ _); [vm_compute; reflexivity|]).
  unfold of_runes. cbn. by rewrite str_app_nil_r.
Qed.

Lemma esc_scalar r : scalar r = true → Forall (λ x, scalar x = true) (esc r).
Proof. intros Hr. unfold esc. repeat (destruct (Z.eqb _ _); [by repeat constructor|]). by repeat constructor. Qed.

Lemma of_runes_bind (f : Z → list Z) l : of_runes (l ≫= f) = str_concat ((λ r, of_runes (f r)) <$> l).
Proof.
  induction l as [|r l IH]; [done|]. rewrite bind_cons, of_runes_app, fmap_cons, str_concat_cons. by rewrite IH.
Qed.

Lemma escape_runes v : EscapeTagValue v = of_runes ((fst <$> runes v) ≫= esc).
Proof.
  unfold EscapeTagValue. rewrite of_runes_bind, <- list_fmap_compose. f_equal.
  apply list_fmap_ext. intros i [r bs] _. apply escape_rune_esc.
Qed.

Lemma bind_scalar l : Forall (λ r, scalar r = true) l → Forall (λ r, scalar r = true) (l ≫= esc).
Proof. intros Hl. apply Forall_bind. eapply Forall_impl; [exact Hl|]. apply esc_scalar. Qed.

Lemma unescape_esc l : unescape_loop (l ≫= esc) false = of_runes l.
Proof.
  induction l as [|r l IH]; [done|]. rewrite bind_cons. unfold of_runes. rewrite fmap_cons, str_concat_cons.
  fold (of_runes l). rewrite <- IH. unfold esc at 1.
  destruct (Z.eqb_spec r 59) as [->|]; [done|]. destruct (Z.eqb_spec r 32) as [->|]; [done|].
  destruct (Z.eqb_spec r 92) as [->|H92]; [done|]. destruct (Z.eqb_spec r 13) as [->|]; [done|].
  destruct (Z.eqb_spec r 10) as [->|]; [done|]. cbn [app unescape_loop].
  by destruct (Z.eqb_spec r 92).
Qed.

(** The bytes a tag value must not contain raw. *)
Definition tag_sep (a : ascii) : bool := Ascii.eqb a ";" || Ascii.eqb a SP || Ascii.eqb a CR || Ascii.eqb a LF.

Lemma high_bytes l : Forall (λ z, 128 ≤ z < 256) l → ∀ p : ascii → bool,
  (∀ a, 128 ≤ byte_z a → p a = true) → str_all p (String.string_of_list_ascii (byte_of_z <$> l)) = true.
Proof.
  intros Hl p Hp. induction Hl as [|z l Hz _ IH]; [done|]. cbn. rewrite Hp, IH; [done|].
  rewrite byte_z_of_z by lia. lia.
Qed.

(** A predicate on the bytes of an encoded rune. *)
Lemma encode_all p r : scalar r = true →
  (∀ a, 128 ≤ byte_z a → p a = true) → (r < 128 → p (byte_of_z r) = true) →
  str_all p (encode_rune r) = true.
Proof.
  intros Hs Hp Hlow. pose proof Hs as Hr. apply scalar_spec in Hr. divs r.
  destruct (decide (r < 128)); [|destruct (decide (r < 2048)); [|destruct (decide (r < 65536))]].
  - rewrite encode_1 by lia. cbn. by rewrite Hlow.
  - rewrite encode_2 by lia. apply (high_bytes [_; _]); [|done]. repeat constructor; lia.
  - rewrite encode_3 by (done || lia). apply (high_bytes [_; _; _]); [|done]. repeat constructor; lia.
  - rewrite encode_4 by lia. apply (high_bytes [_; _; _; _]); [|done]. repeat constructor; lia.
Qed.

Lemma of_runes_all p l : Forall (λ r, str_all p (encode_rune r) = true) l → str_all p (of_runes l) = true.
Proof. unfold of_runes. induction 1 as [|r l Hr _ IH]; [done|]. rewrite fmap_cons, str_concat_cons, str_all_app. by rewrite Hr, IH. Qed.

Lemma byte_of_z_eqb r c : 0 ≤ r < 256 → Ascii.eqb (byte_of_z r) c = Z.eqb r (byte_z c).
Proof.
  intros Hr. destruct (Ascii.eqb_spec (byte_of_z r) c) as [<-|Hne].
  - rewrite byte_z_of_z by lia. by rewrite Z.eqb_refl.
  - destruct (Z.eqb_spec r (byte_z c)) as [->|]; [|done]. by rewrite byte_of_byte_z in Hne.
Qed.

Lemma esc_no_sep r : scalar r = true →
  Forall (λ x, str_all (λ a, negb (tag_sep a)) (encode_rune x) = true) (esc r).
Proof.
  intros Hs. unfold esc.
  destruct (Z.eqb_spec r 59); [by repeat constructor|]. destruct (Z.eqb_spec r 32); [by repeat constructor|].
  destruct (Z.eqb_spec r 92); [by repeat constructor|]. destruct (Z.eqb_spec r 13); [by repeat constructor|].
  destruct (Z.eqb_spec r 10); [by repeat constructor|]. constructor; [|constructor].
  apply encode_all; [done| |].
  - intros a Ha. unfold tag_sep.
    repeat match goal with |- context [Ascii.eqb a ?c] =>
      destruct (Ascii.eqb_spec a c) as [->|_]; [by vm_compute in Ha|] end. done.
  - intros Hlow. apply scalar_spec in Hs. unfold tag_sep. rewrite !byte_of_z_eqb by lia.
    change (byte_z ";") with 59. change (byte_z SP) with 32. change (byte_z CR) with 13. change (byte_z LF) with 10.
    repeat match goal with |- context [Z.eqb r ?c] => destruct (Z.eqb_spec r c); [lia|] end. done.
Qed.

(** [UnescapeTagValue] undoes [EscapeTagValue] on every value (up to the
    replacement of invalid UTF-8, which is all [range] lets either see), and an
    escaped value holds none of the bytes that end a tag, a tag section or a
    line. *)
Theorem unescape_escape v :
  UnescapeTagValue (EscapeTagValue v) = to_valid v ∧
  (valid_utf8 v = true → UnescapeTagValue (EscapeTagValue v) = v) ∧
  str_all (λ a, negb (tag_sep a)) (EscapeTagValue v) = true.
Proof.
  assert (Hu : UnescapeTagValue (EscapeTagValue v) = to_valid v).
  { unfold UnescapeTagValue. rewrite escape_runes, runes_of_runes by apply bind_scalar, runes_scalar.
    rewrite <- list_fmap_compose, list_fmap_id. apply unescape_esc. }
  split_and!; [done|intros Hv; rewrite Hu; by apply to_valid_valid|].
  rewrite escape_runes. apply of_runes_all, Forall_bind. eapply Forall_impl; [apply runes_scalar|]. apply esc_no_sep.
Qed.

(** ** Sanitizing *)

Lemma replace_byte_other c d s : c ≠ d → c ≠ SP → d ≠ SP →
  no_byte d (replace_byte c " " s) = no_byte d s.
Proof.
  intros. unfold no_byte. induction s as [|a s IH]; [done|]. cbn [replace_byte str_all].
  destruct (Ascii.eqb_spec a c) as [->|Hac]; cbn [String.app str_all]; rewrite IH; [|done].
  by destruct (Ascii.eqb_spec SP d), (Ascii.eqb_spec c d); try congruence.
Qed.

Lemma replace_byte_gone c s : c ≠ SP → no_byte c (replace_byte c " " s) = true.
Proof.
  intros. unfold no_byte. induction s as [|a s IH]; [done|]. cbn [replace_byte].
  destruct (Ascii.eqb a c) eqn:E; cbn [String.app str_all]; rewrite IH.
  - by destruct (Ascii.eqb_spec SP c).
  - by rewrite E.
Qed.

Lemma replace_byte_length c s : String.length (replace_byte c " " s) = String.length s.
Proof. induction s as [|a s IH]; [done|]. cbn. destruct (Ascii.eqb a c); cbn; by rewrite IH. Qed.

Lemma replace_byte_id c t s : no_byte c s = true → replace_byte c t s = s.
Proof.
  unfold no_byte. induction s as [|a s IH]; [done|]. cbn. intros [Ha Hs]%andb_true_iff.
  apply negb_true_iff in Ha. by rewrite Ha, IH.
Qed.

(** Whatever a line to a client contains, [sanitizeLine] sends exactly one
    IRC line of the same length: no CR, LF or NUL before the final CRLF, and a
    line that has none is sent as it is. *)
Theorem sanitize_one_line line :
  ∃ clean, sanitizeLine line = clean +:+ String CR (String LF "") ∧
  no_byte CR clean = true ∧ no_byte LF clean = true ∧ no_byte NUL clean = true ∧
  String.length clean = String.length line ∧
  (str_all (λ a, negb (is_trailer a)) line = true → clean = line).
Proof.
  exists (replace_byte NUL " " (replace_byte LF " " (replace_byte CR " " line))).
  split; [done|]. split_and!.
  { rewrite !replace_byte_other by done. by apply replace_byte_gone. }
  { rewrite replace_byte_other by done. by apply replace_byte_gone. }
  { by apply replace_byte_gone. }
  { by rewrite !replace_byte_length. }
  intros Hl. assert (Hn : ∀ c, (c = CR ∨ c = LF ∨ c = NUL) → no_byte c line = true).
  { intros c Hc. unfold no_byte. induction line as [|a s IH]; [done|]. cbn [str_all] in *.
    apply andb_true_iff in Hl as [Ha Hs]. rewrite IH by done. rewrite andb_true_r.
    unfold is_trailer in Ha. destruct (Ascii.eqb_spec a c) as [->|]; [|done].
    by destruct Hc as [->|[->| ->]]. }
  rewrite (replace_byte_id CR) by auto. rewrite (replace_byte_id LF) by auto. by rewrite (replace_byte_id NUL) by auto.
Qed.

(** ** NAMES *)

Lemma names_loop_spec base budget names chunk currLen :
  0 ≤ budget → currLen = str_len (str_join " " chunk) →
  (chunk ≠ [] → currLen ≤ budget ∨ length chunk = 1%nat) →
  ∃ chunks, names_loop base budget names chunk currLen = (λ c, base +:+ str_join " " c) <$> chunks ∧
    mjoin chunks = chunk ++ names ∧
    Forall (λ c, c ≠ [] ∧ (str_len (str_join " " c) ≤ budget ∨ length c = 1%nat)) chunks.
Proof.
  intros Hb. revert chunk currLen. induction names as [|name names IH]; intros chunk currLen Hl Hc; cbn [names_loop].
  - case_bool_decide as Hne.
    + exists [chunk]. subst. split_and!; [done|reflexivity|]. constructor; [|constructor]. split; [done|by apply Hc].
    + exists []. split_and!; [done| |constructor]. by subst.
  - destruct (_ && _) eqn:E.
    + apply andb_true_iff in E as [Hlt Hne%bool_decide_eq_true_1].
      destruct (IH [name] (str_len name)) as (chunks & Heq & Hj & Hall); [done|intros _; by right|].
      exists (chunk :: chunks). rewrite Heq. split_and!; [done|change (mjoin (chunk :: chunks)) with (chunk ++ mjoin chunks); by rewrite Hj|].
      constructor; [|done]. split; [done|]. subst. by apply Hc.
    + assert (HL : currLen + (str_len name + (if bool_decide (chunk ≠ []) then 1 else 0)) =
                   str_len (str_join " " (chunk ++ [name]))).
      { subst currLen. case_bool_decide as Hne.
        - rewrite str_join_snoc by done. unfold str_len. rewrite !str_length_app. cbn. lia.
        - subst chunk. cbn. unfold str_len. cbn. lia. }
      destruct (IH (chunk ++ [name]) (currLen + (str_len name + (if bool_decide (chunk ≠ []) then 1 else 0))))
        as (chunks & Heq & Hj & Hall); [done| |].
      * intros _. apply andb_false_iff in E as [Hlt%Z.ltb_ge|Hne%bool_decide_eq_false_1]; [by left|right].
        destruct chunk; [done|]. by destruct Hne.
      * exists chunks. rewrite Heq, Hj, <- app_assoc. done.
Qed.

(** [BuildNamesLines] lists every name, in order, in 353 lines closed by
    one 366 line; a line stays within 480 bytes unless a single name (or the
    64 bytes every line is granted) exceeds it. *)
Theorem names_lines nick channel names :
  let base := names_base nick channel in
  ∃ chunks,
    BuildNamesLines nick channel names =
      ((λ c, base +:+ str_join " " c) <$> chunks) ++
      [":" +:+ serverName +:+ " 366 " +:+ nick +:+ " " +:+ channel +:+ " :End of /NAMES list."] ∧
    mjoin chunks = names ∧
    Forall (λ c, c ≠ [] ∧
      (str_len (base +:+ str_join " " c) ≤ Z.max 480 (str_len base + 64) ∨ length c = 1%nat)) chunks.
Proof.
  intros base. destruct (names_loop_spec base (Z.max 64 (480 - str_len base)) names [] 0) as (chunks & Heq & Hj & Hall);
    [lia|done|done|].
  exists chunks. unfold BuildNamesLines. fold base. rewrite Heq. split_and!; [done|done|].
  eapply Forall_impl; [exact Hall|]. intros c [Hne Hc]. split; [done|].
  destruct Hc as [Hc|Hc]; [left|by right]. unfold str_len in *. rewrite str_length_app. lia.
Qed.

(** ** Parsing a formatted line *)

Lemma no_space_app l1 l2 : no_space_runes (l1 ++ l2) = no_space_runes l1 && no_space_runes l2.
Proof. apply forallb_app. Qed.

Lemma str_split_first c s : no_byte c s = false → ∃ a b, s = a +:+ String c b.
Proof.
  unfold no_byte. induction s as [|x s IH]; [done|]. cbn. destruct (Ascii.eqb_spec x c) as [->|].
  - intros _. by exists ""%string, s.
  - cbn. intros H. destruct (IH H) as (a & b & ->). by exists (String x a), b.
Qed.

(** A string without white space holds no white space byte. *)
Lemma no_space_no_byte c s : byte_z c < 128 → is_space (byte_z c) = true →
  no_space_runes (runes s) = true → no_byte c s = true.
Proof.
  intros Hc Hsp Hs. destruct (no_byte c s) eqn:E; [done|].
  apply str_split_first in E as (a & b & ->). rewrite runes_app_ascii, runes_ascii in Hs by done.
  rewrite no_space_app, no_space_cons, Hsp in Hs. by rewrite andb_false_r in Hs.
Qed.

Lemma word_no_sp s : word s = true → no_byte SP s = true.
Proof. intros [_ H]%andb_true_iff. by apply no_space_no_byte. Qed.

(** A parameter that is not the last: a word not starting with a colon. *)
Definition middle (p : string) : bool := word p && negb (has_prefix ":" p).

Lemma prefix_sp_colon a s : has_prefix " :" (String a s) = Ascii.eqb a SP && has_prefix ":" s.
Proof.
  unfold has_prefix. cbn [String.prefix]. destruct (ascii_dec SP a) as [<-|Hne]; [by rewrite Ascii.eqb_refl|].
  destruct (Ascii.eqb_spec a SP) as [->|]; done.
Qed.

Lemma index_cons p a s : has_prefix p (String a s) = false → index_str p (String a s) = S <$> index_str p s.
Proof. intros H. cbn [index_str]. by rewrite H. Qed.

Lemma index_word_none w s : no_byte SP w = true → index_str " :" s = None → index_str " :" (w +:+ s) = None.
Proof.
  unfold no_byte. intros Hw Hs. induction w as [|a w IH]; [done|]. cbn [str_all] in Hw.
  apply andb_true_iff in Hw as [Ha%negb_true_iff Hw]. cbn [String.app].
  rewrite index_cons by (by rewrite prefix_sp_colon, Ha). by rewrite IH.
Qed.

Lemma prefix_one a w s : w ≠ ""%string → has_prefix (String a "") (w +:+ s) = has_prefix (String a "") w.
Proof. destruct w as [|b w]; [done|]. intros _. unfold has_prefix. cbn [String.prefix String.app]. destruct (ascii_dec _ _); [|done]. by destruct w, s. Qed.

Lemma prefix_colon_app w s : w ≠ ""%string → has_prefix ":" (w +:+ s) = has_prefix ":" w.
Proof. apply prefix_one. Qed.

(** No trailing parameter is found among middles, whatever separator-free tail
    follows the last one. *)
Lemma index_join_none w l s : no_byte SP w = true → Forall (λ p, middle p = true) l → index_str " :" s = None →
  index_str " :" (str_join " " (w :: l) +:+ s) = None.
Proof.
  intros Hw Hl Hs. revert w Hw. induction Hl as [|p l Hp _ IH]; intros w Hw; [by apply index_word_none|].
  rewrite str_join_cons, !str_app_assoc. apply index_word_none; [done|].
  apply andb_true_iff in Hp as [Hpw Hpc]. apply negb_true_iff in Hpc.
  cbn [String.app]. rewrite index_cons.
  - rewrite IH; [done|]. by apply word_no_sp.
  - rewrite prefix_sp_colon. cbn [andb]. pose proof (word_nonempty p Hpw).
    destruct l as [|q l]; [by rewrite prefix_colon_app|].
    rewrite str_join_cons, str_app_assoc, prefix_colon_app by done. by rewrite Hpc, andb_false_r.
Qed.

Lemma index_trailing j t : index_str " :" (j +:+ " ") = None →
  index_str " :" (j +:+ " :" +:+ t) = Some (String.length j).
Proof.
  induction j as [|a j IH]; intros Hj.
  - change (""%string +:+ " :" +:+ t) with (" :" +:+ t). change (" :" +:+ t) with (String SP (String ":" t)).
    cbn [index_str]. rewrite prefix_sp_colon. change (String ":" t) with (":" +:+ t). by rewrite prefix_app.
  - cbn [String.app] in *. cbn [index_str] in Hj. destruct (has_prefix " :" (String a (j +:+ " "))) eqn:E; [done|].
    apply fmap_None in Hj. rewrite index_cons; [by rewrite IH|].
    rewrite prefix_sp_colon in *. destruct j as [|b j]; [by rewrite andb_false_r|]. by rewrite prefix_colon_app in * by done.
Qed.

Lemma trim_right_app p s t : trim_right p t = t → t ≠ ""%string → trim_right p (s +:+ t) = s +:+ t.
Proof.
  intros Ht Hne. induction s as [|a s IH]; [done|]. cbn [String.app trim_right]. rewrite IH.
  destruct (s +:+ t) eqn:E; [|done]. by destruct s, t.
Qed.

Lemma str_concat_join w l : w +:+ str_concat ((λ p, " " +:+ p) <$> l) = str_join " " (w :: l).
Proof.
  revert w. induction l as [|p l IH]; intros w; [by rewrite str_app_nil_r|].
  rewrite fmap_cons, str_concat_cons, str_join_cons, <- IH. by rewrite !str_app_assoc.
Qed.

Lemma contains_sp_word s : word s = true → contains_str " " s = false.
Proof.
  intros Hw. unfold contains_str. apply word_no_sp in Hw. unfold no_byte in Hw.
  assert (index_str " " s = None) as ->; [|done]. induction s as [|a s IH]; [done|].
  cbn [str_all] in Hw. apply andb_true_iff in Hw as [Ha%negb_true_iff Hw].
  assert (Hp : has_prefix " " (String a s) = false).
  { unfold has_prefix. cbn [String.prefix].
    destruct (ascii_dec SP a) as [<-|]; [by rewrite Ascii.eqb_refl in Ha|done]. }
  rewrite index_cons by done. by rewrite IH.
Qed.

Lemma fields_join_sp l : l ≠ [] → Forall (λ w, word w = true) l → fields (str_join " " l +:+ " ") = l.
Proof.
  intros Hne Hl. destruct (exists_last Hne) as (l' & x & ->). apply Forall_app in Hl as [Hl Hx].
  apply Forall_cons in Hx as [Hx _].
  assert (∀ y, word y = true → fields (y +:+ " ") = [y]) as Hy.
  { intros y Hy. change (y +:+ " ") with (y +:+ String SP ""). by rewrite fields_word_app. }
  induction Hl as [|w l' Hw Hl IH]; [by apply Hy|].
  assert (∃ z zs, l' ++ [x] = z :: zs) as (z & zs & E) by (destruct l'; cbn; eauto).
  change ((w :: l') ++ [x]) with (w :: (l' ++ [x])). rewrite E in *. rewrite str_join_cons, !str_app_assoc.
  change (w +:+ " " +:+ str_join " " (z :: zs) +:+ " ") with (w +:+ String SP (str_join " " (z :: zs) +:+ " ")).
  rewrite fields_word_app by done. rewrite IH; [done|by destruct l'].
Qed.

Section roundtrip.
Context `{UnicodeTables}.

(** A command as the bouncer's numerics and verbs are: an upper-case word that
    cannot be taken for tags or a prefix and does not end in a stripped byte. *)
Definition command_ok (cmd : string) : bool :=
  word cmd && negb (has_prefix ":" cmd) && negb (has_prefix "@" cmd) &&
  String.eqb (to_upper cmd) cmd && String.eqb (trim_right is_trailer cmd) cmd.

(** A last parameter the format carries: it does not end in a stripped byte, and
    is a word unless it is empty, holds a space or starts with a colon. *)
Definition last_ok (l : string) : bool :=
  String.eqb (trim_right is_trailer l) l &&
  (String.eqb l "" || contains_str " " l || has_prefix ":" l || word l).

(** ... and how it comes back: an initial colon is taken for the mark of the
    trailing parameter. *)
Definition last_back (l : string) : string := if has_prefix ":" l then str_drop 1 l else l.

(** What of the tags of a line reaches the message. *)
Definition carried (tags : string) : string * gmap string string :=
  let '(m, kept) := keep_tags (split_byte ";" tags) ∅ [] in
  let joined := str_join ";" kept in
  (if bool_decide (kept ≠ []) && (str_len joined <=? maxClientTagBytes) then joined else "", m).

Lemma trim_left_colon s : trim_left is_sp (":" +:+ s) = ":" +:+ s.
Proof. done. Qed.

Lemma word_head w : word w = true → ∃ a t, w = String a t ∧ is_sp a = false.
Proof.
  intros Hw. pose proof (word_nonempty w Hw). pose proof (word_no_sp w Hw) as Hs. destruct w as [|a t]; [done|].
  exists a, t. split; [done|]. unfold no_byte in Hs. cbn [str_all] in Hs. by apply andb_true_iff in Hs as [?%negb_true_iff _].
Qed.

Lemma after_space s t : str_drop (S (String.length s)) (s +:+ String SP t) = t.
Proof.
  change (String SP t) with (" " +:+ t). rewrite <- (str_app_assoc s " ").
  replace (S (String.length s)) with (String.length (s +:+ " ")) by (rewrite str_length_app; cbn; lia).
  apply str_drop_app.
Qed.

(** Tags and prefix are taken off, the prefix and the tags of the server
    forgotten. *)
Lemma parse_front tags prefix cmd t :
  no_byte SP tags = true → no_byte SP prefix = true →
  word cmd = true → has_prefix ":" cmd = false → has_prefix "@" cmd = false →
  trim_right is_trailer (cmd +:+ t) = cmd +:+ t →
  ParseLine ((if negb (String.eqb tags "") then "@" +:+ tags +:+ " " else "") +:+
             (if negb (String.eqb prefix "") then ":" +:+ prefix +:+ " " else "") +:+ cmd +:+ t) =
    parse_command (carried tags).1 (carried tags).2 (cmd +:+ t).
Proof.
  intros Hts Hps Hw Hc Ha Ht. pose proof (word_nonempty _ Hw) as Hne.
  assert (Hne2 : cmd +:+ t ≠ ""%string) by by destruct cmd.
  destruct (word_head cmd Hw) as (a & w & Ew & Hsp).
  set (body := (if negb (String.eqb prefix "") then ":" +:+ prefix +:+ " " else "") +:+ cmd +:+ t).
  assert (Hstrip : strip_prefix body = Some (cmd +:+ t) ∧ trim_left is_sp body = body ∧ has_prefix "@" body = false ∧
    trim_right is_trailer body = body ∧ body ≠ ""%string).
  { unfold body, strip_prefix. destruct (String.eqb_spec prefix "") as [->|Hp]; cbn [negb].
    - change (""%string +:+ cmd +:+ t) with (cmd +:+ t). rewrite prefix_colon_app, Hc by done. split_and!; try done.
      + rewrite Ew. by apply trim_left_id.
      + by rewrite prefix_one.
    - rewrite !str_app_assoc. split_and!; [|done|done| |done].
      + change (":" +:+ prefix +:+ " " +:+ cmd +:+ t) with ((":" +:+ prefix) +:+ String SP (cmd +:+ t)).
        change (has_prefix ":" ((":" +:+ prefix) +:+ String SP (cmd +:+ t))) with (has_prefix ":" (":" +:+ (prefix +:+ String SP (cmd +:+ t)))).
        rewrite prefix_app, index_byte_app by done.
        rewrite after_space. f_equal. rewrite Ew. by apply trim_left_id.
      + apply trim_right_app; [|by destruct prefix]. apply trim_right_app; [|done]. by apply trim_right_app. }
  clearbody body. destruct Hstrip as (Hs & Hl & Hat & Htr & Hb). unfold ParseLine.
  destruct (String.eqb_spec tags "") as [->|Htg]; cbn [negb].
  - change (""%string +:+ body) with body. rewrite Htr, Hat. destruct (String.eqb_spec body ""); [done|].
    cbn [mbind option_bind]. by rewrite Hs.
  - rewrite !str_app_assoc.
    rewrite trim_right_app; [|apply trim_right_app; [by apply trim_right_app|done]|by destruct tags].
    destruct (String.eqb_spec ("@" +:+ tags +:+ " " +:+ body) ""); [done|]. rewrite prefix_app.
    change ("@" +:+ tags +:+ " " +:+ body) with (("@" +:+ tags) +:+ String SP body). rewrite index_byte_app by done.
    cbn [mbind option_bind]. rewrite str_take_app_length.
    rewrite after_space, Hl. change (str_drop 1 ("@" +:+ tags)) with tags. unfold carried.
    destruct (keep_tags (split_byte ";" tags) ∅ []) as [m kept]. cbn [mbind option_bind]. by rewrite Hs.
Qed.

Lemma format_plain cmd heads l :
  FormatLine "" "" cmd (heads ++ [l]) = str_join " " (cmd :: heads) +:+ " " +:+ format_last l.
Proof.
  unfold FormatLine. cbn [String.eqb negb String.app]. rewrite last_snoc, length_app. cbn [length].
  replace (length heads + 1 - 1)%nat with (length heads) by lia. rewrite take_app_length.
  by rewrite <- str_concat_join, str_app_assoc.
Qed.

Lemma heads_words cmd heads : word cmd = true → Forall (λ p, middle p = true) heads →
  Forall (λ w, word w = true) (cmd :: heads).
Proof. intros Hc Hh. constructor; [done|]. eapply Forall_impl; [exact Hh|]. by intros p [? _]%andb_true_iff. Qed.

Lemma join_starts cmd heads s : ∃ t, str_join " " (cmd :: heads) +:+ s = cmd +:+ t.
Proof. destruct heads as [|h hs]; [by exists s|]. rewrite str_join_cons, !str_app_assoc. eauto. Qed.

Lemma join_nonempty j a s : String.eqb (j +:+ String a s) "" = false.
Proof. apply String.eqb_neq. by destruct j. Qed.

Lemma trim_right_cons a l : is_trailer a = false → trim_right is_trailer l = l →
  trim_right is_trailer (String a l) = String a l.
Proof. intros Ha Hl. cbn [trim_right]. rewrite Hl. destruct l; [by rewrite Ha|done]. Qed.

(** A trailing parameter is taken verbatim. *)
Lemma command_trailing rt m cmd heads l :
  command_ok cmd = true → Forall (λ p, middle p = true) heads →
  parse_command rt m (str_join " " (cmd :: heads) +:+ " :" +:+ l) = Some (mkMessage rt m "" cmd (heads ++ [l])).
Proof.
  intros Hcmd Hheads. unfold command_ok in Hcmd. boolify.
  unfold parse_command. rewrite index_trailing by (apply index_join_none; by (done || apply word_no_sp)).
  change (" :" +:+ l) with (String SP (":" +:+ l)) at 1. rewrite join_nonempty.
  rewrite str_take_app_length, fields_join by (by apply heads_words).
  replace (String.length (str_join " " (cmd :: heads)) + 2)%nat
    with (String.length (str_join " " (cmd :: heads) +:+ " :")) by (rewrite str_length_app; done).
  rewrite <- str_app_assoc, str_drop_app. congruence.
Qed.

(** Without a trailing parameter every parameter is a word. *)
Lemma command_words rt m cmd heads :
  command_ok cmd = true → Forall (λ p, middle p = true) heads →
  parse_command rt m (str_join " " (cmd :: heads)) = Some (mkMessage rt m "" cmd heads).
Proof.
  intros Hcmd Hheads. unfold command_ok in Hcmd. boolify.
  pose proof (join_starts cmd heads "") as Hs. rewrite str_app_nil_r in Hs.
  assert (Hnone : index_str " :" (str_join " " (cmd :: heads)) = None).
  { rewrite <- (str_app_nil_r (str_join _ _)). apply index_join_none; [by apply word_no_sp|done|done]. }
  unfold parse_command. rewrite Hnone, fields_join by (by apply heads_words).
  destruct Hs as [t ->]. match goal with H : word cmd = true |- _ => apply word_nonempty in H end.
  destruct (String.eqb_spec (cmd +:+ t) "") as [E|_]; [by destruct cmd|]. congruence.
Qed.

(** What follows the prefix comes back. *)
Lemma command_last rt m cmd heads l :
  command_ok cmd = true → Forall (λ p, middle p = true) heads → last_ok l = true →
  parse_command rt m (str_join " " (cmd :: heads) +:+ " " +:+ format_last l) =
    Some (mkMessage rt m "" cmd (heads ++ [last_back l])).
Proof.
  intros Hcmd Hheads Hl. unfold last_ok in Hl. boolify. unfold format_last, last_back.
  destruct (has_prefix ":" l) eqn:Hpre.
  { destruct l as [|a l]; [done|]. assert (a = ":"%char) as ->.
    { unfold has_prefix in Hpre. cbn [String.prefix] in Hpre. by destruct (ascii_dec ":" a). }
    by apply (command_trailing rt m cmd heads l). }
  destruct (String.eqb l "" || contains_str " " l) eqn:Etr; [by apply (command_trailing rt m cmd heads l)|].
  assert (Hw : word l = true) by (destruct (word l); [done|by rewrite !orb_false_r in *; congruence]).
  replace (str_join " " (cmd :: heads) +:+ " " +:+ l) with (str_join " " (cmd :: heads ++ [l])).
  2: { change (cmd :: heads ++ [l]) with ((cmd :: heads) ++ [l]). by rewrite str_join_snoc. }
  apply command_words; [done|]. apply Forall_app. split; [done|]. constructor; [|done]. unfold middle. by rewrite Hw, Hpre.
Qed.

Lemma trim_format_last j l : last_ok l = true → trim_right is_trailer (j +:+ " " +:+ format_last l) = j +:+ " " +:+ format_last l.
Proof.
  intros Hl. unfold last_ok in Hl. boolify. apply trim_right_app; [|done]. apply trim_right_cons; [done|].
  unfold format_last. repeat case_match; [done|by apply trim_right_cons|done].
Qed.

(** C38: what of a line the bouncer formats comes back when it is parsed.  For
    tags and a prefix without spaces, a proper command, word parameters that do
    not start with a colon, and a last parameter that is a word or is empty or
    holds spaces, the command and every parameter come back as they were - save
    that a last parameter that starts with a colon loses it; of the tags the
    client-only ones come back, unescaped, and as text up to the limit; the
    prefix and the other tags are forgotten. *)
Theorem parse_format tags prefix cmd heads l :
  no_byte SP tags = true → no_byte SP prefix = true →
  command_ok cmd = true → Forall (λ p, middle p = true) heads → last_ok l = true →
  ParseLine (FormatLine tags prefix cmd (heads ++ [l])) =
    Some (mkMessage (carried tags).1 (carried tags).2 "" cmd (heads ++ [last_back l])) ∧
  ParseLine (FormatLine tags prefix cmd []) = Some (mkMessage (carried tags).1 (carried tags).2 "" cmd []).
Proof.
  intros Ht Hp Hcmd Hheads Hl. pose proof Hcmd as Hc. unfold command_ok in Hc. boolify. split.
  - pose proof (join_starts cmd heads (" " +:+ format_last l)) as [t Hj].
    assert (Hf : FormatLine tags prefix cmd (heads ++ [l]) = (if negb (String.eqb tags "") then "@" +:+ tags +:+ " " else "") +:+
      (if negb (String.eqb prefix "") then ":" +:+ prefix +:+ " " else "") +:+ cmd +:+ t).
    { unfold FormatLine. do 2 f_equal. rewrite <- Hj, <- format_plain. reflexivity. }
    rewrite Hf, parse_front, <- Hj; [by apply command_last|done..|]. rewrite <- Hj. by apply trim_format_last.
  - pose proof (command_words (carried tags).1 (carried tags).2 cmd [] Hcmd ltac:(constructor)) as Hw.
    change (str_join " " [cmd]) with cmd in Hw. rewrite <- (str_app_nil_r cmd) in Hw at 1. rewrite <- Hw.
    unfold FormatLine. apply parse_front; try done. by rewrite str_app_nil_r.
Qed.
End roundtrip.

(** ** What a client's tags are reduced to *)

Lemma keep_tags_spec items tags kept tags' kept' :
  keep_tags items tags kept = (tags', kept') →
  (∀ k, is_Some (tags !! k) → client_tag k = true) → Forall (λ t, client_tag (parse_tag t).1 = true) kept →
  (∀ k, is_Some (tags' !! k) → client_tag k = true) ∧ Forall (λ t, client_tag (parse_tag t).1 = true) kept' ∧
  kept' `sublist_of` kept ++ items.
Proof.
  revert tags kept. induction items as [|t items IH]; intros tags kept Heq Ht Hk.
  { injection Heq as <- <-. by rewrite app_nil_r. }
  cbn [keep_tags] in Heq. destruct (String.eqb t "").
  { destruct (IH _ _ Heq Ht Hk) as (? & ? & Hs). split_and!; [done..|]. rewrite Hs. apply sublist_app; [done|]. by constructor. }
  destruct (parse_tag t) as [key val] eqn:Ep. destruct (client_tag key) eqn:Ec.
  - destruct (IH _ _ Heq) as (? & ? & Hs).
    + intros k Hk'. destruct (decide (key = k)) as [->|Hne]; [done|]. rewrite lookup_insert_ne in Hk' by done. auto.
    + apply Forall_app. split; [done|]. constructor; [by rewrite Ep|done].
    + split_and!; [done..|]. by rewrite <- app_assoc in Hs.
  - destruct (IH _ _ Heq Ht Hk) as (? & ? & Hs). split_and!; [done..|]. rewrite Hs. apply sublist_app; [done|]. by constructor.
Qed.

Section tags.
Context `{UnicodeTables}.

Lemma parse_command_tags rt tags line m : parse_command rt tags line = Some m →
  bm_raw_tags m = rt ∧ bm_tags m = tags ∧ bm_prefix m = "".
Proof.
  unfold parse_command. destruct (String.eqb line ""); [done|].
  destruct (index_str " :" line); (destruct (fields _) as [|cmd params]; [done|]); by intros [= <-].
Qed.

(** A client cannot speak for the server: of the tags of a line only
    client-only ones (a [+] and a name) survive, in [Tags] and in [RawTags];
    [RawTags] is at most 4094 bytes; a source the client claims is dropped. *)
Theorem parse_client_tags raw m :
  ParseLine raw = Some m →
  bm_prefix m = "" ∧
  (∀ k, is_Some (bm_tags m !! k) → client_tag k = true) ∧
  str_len (bm_raw_tags m) ≤ maxClientTagBytes ∧
  (bm_raw_tags m ≠ "" →
     Forall (λ t, client_tag (parse_tag t).1 = true) (split_byte ";" (bm_raw_tags m))).
Proof.
  unfold ParseLine. set (line := trim_right is_trailer raw).
  destruct (String.eqb line ""); [done|]. intros Hp.
  destruct (has_prefix "@" line).
  - apply bind_Some in Hp as ([[rt tags] line2] & Ht & Hp). apply bind_Some in Hp as (line3 & _ & Hp).
    apply bind_Some in Ht as (sp & _ & Ht).
    destruct (keep_tags (split_byte ";" (str_drop 1 (str_take sp line))) ∅ []) as [tags' kept] eqn:Ek.
    injection Ht as <- <- <-.
    apply parse_command_tags in Hp as (-> & -> & ->).
    apply keep_tags_spec in Ek as (Htags & Hkept & Hsub); [|by intros k [? ?]|constructor].
    split_and!; [done|done| |].
    + destruct (_ && _) eqn:E; [|by vm_compute]. apply andb_true_iff in E as [_ E]. by apply Z.leb_le in E.
    + destruct (_ && _) eqn:E; [|done]. apply andb_true_iff in E as [Hne%bool_decide_eq_true_1 _]. intros _.
      rewrite split_join; [done|done|]. apply (sublist_Forall _ _ _ Hsub), split_byte_pieces.
  - cbn in Hp. apply bind_Some in Hp as (line3 & _ & Hp). apply parse_command_tags in Hp as (-> & -> & ->).
    split_and!; [done|by intros k [? ?]|by vm_compute|done].
Qed.
End tags.

(** ** Logins *)

(** A part of a login: no separator, no white space, no colon. *)
Definition login_part (s : string) : bool :=
  str_all (λ a, negb (is_slash_at a) && negb (Ascii.eqb a ":")) s && no_space_runes (runes s).

Lemma index_any_app p b r c : str_all (λ a, negb (p a)) b = true → p c = true →
  index_any p (b +:+ String c r) = Some (String.length b).
Proof.
  intros Hb Hc. induction b as [|a b IH]; cbn; [by rewrite Hc|].
  cbn in Hb. apply andb_true_iff in Hb as [Ha%negb_true_iff Hb]. by rewrite Ha, IH.
Qed.

Lemma index_any_none p b : str_all (λ a, negb (p a)) b = true → index_any p b = None.
Proof.
  induction b as [|a b IH]; cbn; [done|]. intros [Ha%negb_true_iff Hb]%andb_true_iff. by rewrite Ha, IH.
Qed.

Lemma get_app c b r : String.get (String.length b) (b +:+ String c r) = Some c.
Proof. by induction b as [|a b IH]. Qed.

Lemma no_space_str_app a c b : byte_z c < 128 → is_space (byte_z c) = false →
  no_space_runes (runes a) = true → no_space_runes (runes b) = true →
  no_space_runes (runes (a +:+ String c b)) = true.
Proof.
  intros Hc Hs Ha Hb. rewrite runes_app_ascii, runes_ascii, no_space_app, no_space_cons, Hs, Ha, Hb by done. done.
Qed.

Lemma login_part_spec s : login_part s = true →
  str_all (λ a, negb (is_slash_at a)) s = true ∧ no_byte "/" s = true ∧ no_byte "@" s = true ∧
  no_byte ":" s = true ∧ no_space_runes (runes s) = true.
Proof.
  unfold login_part, no_byte, is_slash_at. intros [Hall Hsp]%andb_true_iff.
  assert (Himp : ∀ p q : ascii → bool, (∀ a, p a = true → q a = true) → ∀ t, str_all p t = true → str_all q t = true).
  { intros p q Hpq t. induction t as [|a t IH]; [done|]. cbn. intros [Ha Ht]%andb_true_iff. by rewrite Hpq, IH. }
  split_and!; [..|done]; (eapply Himp; [|exact Hall]); intros a; cbn;
    destruct (Ascii.eqb a "/"), (Ascii.eqb a "@"), (Ascii.eqb a ":"); done.
Qed.

(** [UnmarshalLogin] on the four shapes of a login. *)
Lemma login_plain u : login_part u = true → UnmarshalLogin u = mkLogin u "" "".
Proof.
  intros (H1 & H2 & H3 & _ & H5)%login_part_spec. unfold UnmarshalLogin. rewrite trim_space_no by done.
  destruct (String.eqb_spec u "") as [->|_]; [done|].
  by rewrite index_any_none, !last_index_none by done.
Qed.

Lemma login_one c u n : c = "/"%char ∨ c = "@"%char → login_part u = true → login_part n = true →
  UnmarshalLogin (u +:+ String c n) =
  if Ascii.eqb c "@" then mkLogin u "" n else mkLogin u n "".
Proof.
  intros Hc (H1 & H2 & H3 & _ & H5)%login_part_spec (N1 & N2 & N3 & _ & N5)%login_part_spec.
  unfold UnmarshalLogin. rewrite trim_space_no.
  2: { destruct Hc as [-> | ->]; by apply no_space_str_app. }
  destruct (String.eqb_spec (u +:+ String c n) "") as [E|_]; [by destruct u|].
  rewrite index_any_app by (done || by destruct Hc as [-> | ->]).
  assert (Hl : ∀ d, no_byte d u = true → no_byte d n = true → d ≠ c → last_index_byte d (u +:+ String c n) = None).
  { intros d Hu Hn Hd. apply last_index_none. unfold no_byte in *. rewrite str_all_app. cbn. rewrite Hu, Hn.
    by destruct (Ascii.eqb_spec c d); [congruence|]. }
  assert (Hdrop : str_drop (S (String.length u)) (u +:+ String c n) = n).
  { change (u +:+ String c n) with (u +:+ String c "" +:+ n). rewrite <- str_app_assoc.
    replace (S (String.length u)) with (String.length (u +:+ String c "")) by (rewrite str_length_app; cbn; lia).
    apply str_drop_app. }
  destruct Hc as [-> | ->].
  - rewrite last_index_app, (Hl "@"%char) by done. cbv zeta match. rewrite get_app. cbn [bool_decide].
    rewrite bool_decide_eq_false_2 by done. rewrite Nat.ltb_irrefl, Hdrop. by rewrite str_take_app_length.
  - rewrite last_index_app, (Hl "/"%char) by done. cbv zeta match. rewrite get_app.
    rewrite bool_decide_eq_true_2 by done. rewrite Nat.ltb_irrefl, Hdrop. by rewrite str_take_app_length.
Qed.

Lemma str_drop_S u c n : str_drop (S (String.length u)) (u +:+ String c n) = n.
Proof.
  change (u +:+ String c n) with (u +:+ String c "" +:+ n). rewrite <- str_app_assoc.
  replace (S (String.length u)) with (String.length (u +:+ String c "")) by (rewrite str_length_app; cbn; lia).
  apply str_drop_app.
Qed.

Lemma login_two c d u a b : (c = "/"%char ∧ d = "@"%char) ∨ (c = "@"%char ∧ d = "/"%char) →
  login_part u = true → login_part a = true → login_part b = true →
  UnmarshalLogin (u +:+ String c (a +:+ String d b)) =
  if Ascii.eqb c "@" then mkLogin u b a else mkLogin u a b.
Proof.
  intros Hcd (U1 & U2 & U3 & _ & U5)%login_part_spec (A1 & A2 & A3 & _ & A5)%login_part_spec
    (B1 & B2 & B3 & _ & B5)%login_part_spec.
  set (s := u +:+ String c (a +:+ String d b)).
  assert (Hs : s = (u +:+ String c a) +:+ String d b) by (unfold s; by rewrite str_app_assoc).
  unfold UnmarshalLogin. rewrite trim_space_no.
  2: { unfold s. by destruct Hcd as [[-> ->]|[-> ->]]; apply no_space_str_app; try done; apply no_space_str_app. }
  destruct (String.eqb_spec s "") as [E|_]; [by unfold s in E; destruct u|].
  assert (Hi : index_any is_slash_at s = Some (String.length u)).
  { unfold s. apply index_any_app; [done|]. by destruct Hcd as [[-> ->]|[-> ->]]. }
  assert (Hgi : String.get (String.length u) s = Some c) by apply get_app.
  assert (Hgj : String.get (String.length (u +:+ String c a)) s = Some d) by (rewrite Hs; apply get_app).
  assert (Hd : last_index_byte d s = Some (String.length (u +:+ String c a))).
  { rewrite Hs. apply last_index_app. by destruct Hcd as [[-> ->]|[-> ->]]. }
  assert (Hc : last_index_byte c s = Some (String.length u)).
  { unfold s. apply last_index_app. unfold no_byte in *. rewrite str_all_app. cbn.
    by destruct Hcd as [[-> ->]|[-> ->]]; rewrite ?A2, ?A3, ?B2, ?B3. }
  assert (Hlt : (String.length u <? String.length (u +:+ String c a))%nat = true).
  { apply Nat.ltb_lt. rewrite str_length_app. cbn. lia. }
  assert (Hmax : Nat.max (String.length u) (String.length (u +:+ String c a)) = String.length (u +:+ String c a)).
  { apply Nat.ltb_lt in Hlt. lia. }
  assert (Htake : str_take (String.length u) s = u) by apply str_take_app_length.
  assert (Hb : str_drop (S (String.length (u +:+ String c a))) s = b) by (rewrite Hs; apply str_drop_S).
  assert (Ha : str_drop (S (String.length u)) (str_take (String.length (u +:+ String c a)) s) = a).
  { rewrite Hs, str_take_app_length. apply str_drop_S. }
  rewrite Hi. destruct Hcd as [[-> ->]|[-> ->]]; rewrite Hc, Hd; cbv zeta match.
  - rewrite Hmax, Hgj, Hlt, Hgi, Hb, Ha, Htake. by rewrite bool_decide_eq_true_2, bool_decide_eq_false_2 by done.
  - rewrite Nat.max_comm, Hmax, Hgj, Hlt, Hgi, Hb, Ha, Htake. by rewrite bool_decide_eq_false_2, bool_decide_eq_true_2 by done.
Qed.

Lemma no_colon_app l1 c l2 : no_byte ":" l1 = true → no_byte ":" l2 = true → c ≠ ":"%char →
  no_byte ":" (l1 +:+ String c l2) = true.
Proof.
  intros H1 H2 Hc. unfold no_byte in *. rewrite str_all_app. cbn. rewrite H1, H2.
  by destruct (Ascii.eqb_spec c ":").
Qed.

Lemma credentials_login l secret user p : no_byte ":" l = true → l ≠ "" → UnmarshalLogin l = p →
  pl_username p ≠ "" →
  ParseCredentials (l +:+ String ":" secret) user =
  Some (mkCredentials (pl_username p) secret
          (if String.eqb (pl_network p) "" && negb (String.eqb user "")
           then pl_network (UnmarshalLogin user) else pl_network p)).
Proof.
  intros Hl Hne <- Hu. unfold ParseCredentials. rewrite index_byte_app by done.
  rewrite str_take_app_length, str_drop_S. destruct (String.eqb_spec l ""); [done|].
  by destruct (String.eqb_spec (pl_username (UnmarshalLogin l)) "").
Qed.

(** The login forms: [PASS user[/network][@client]:secret], the suffixes
    in either order, gives the user, the secret (which may itself hold
    colons) and the network, the client suffix aside; without a network it is
    the one named in [USER]; and a [PASS] that is just the secret takes user
    and network from [USER]. *)
Theorem credentials_forms u n c secret user :
  login_part u = true → login_part n = true → login_part c = true → u ≠ "" → n ≠ "" →
  let user_net := if String.eqb user "" then ""%string else pl_network (UnmarshalLogin user) in
  ParseCredentials (u +:+ ":" +:+ secret) user = Some (mkCredentials u secret user_net) ∧
  ParseCredentials (u +:+ "@" +:+ c +:+ ":" +:+ secret) user = Some (mkCredentials u secret user_net) ∧
  ParseCredentials (u +:+ "/" +:+ n +:+ ":" +:+ secret) user = Some (mkCredentials u secret n) ∧
  ParseCredentials (u +:+ "/" +:+ n +:+ "@" +:+ c +:+ ":" +:+ secret) user = Some (mkCredentials u secret n) ∧
  ParseCredentials (u +:+ "@" +:+ c +:+ "/" +:+ n +:+ ":" +:+ secret) user = Some (mkCredentials u secret n) ∧
  (no_byte ":" secret = true →
   ParseCredentials secret (u +:+ "/" +:+ n) = Some (mkCredentials u secret n)).
Proof.
  intros Hu Hn Hc Hune Hnne user_net.
  pose proof (login_part_spec _ Hu) as (_ & _ & _ & Cu & _). pose proof (login_part_spec _ Hn) as (_ & _ & _ & Cn & _).
  pose proof (login_part_spec _ Hc) as (_ & _ & _ & Cc & _).
  assert (Hcat : ∀ t, u +:+ t ≠ ""%string) by (intros t; by destruct u).
  assert (Hnb : String.eqb n "" = false) by (by destruct (String.eqb_spec n "")).
  assert (Hnet : (if String.eqb "" "" && negb (String.eqb user "") then pl_network (UnmarshalLogin user) else "")%string = user_net).
  { unfold user_net. by destruct (String.eqb user ""). }
  split_and!.
  - change (u +:+ ":" +:+ secret) with (u +:+ String ":" secret).
    rewrite (credentials_login u secret user (mkLogin u "" "")); [|done|done|by apply login_plain|done].
    cbn [pl_username pl_network]. by rewrite Hnet.
  - change (u +:+ "@" +:+ c +:+ ":" +:+ secret) with (u +:+ String "@" c +:+ String ":" secret). rewrite <- str_app_assoc.
    rewrite (credentials_login _ secret user (mkLogin u "" c)); [|by apply no_colon_app|done| |done].
    + cbn [pl_username pl_network]. by rewrite Hnet.
    + rewrite login_one; [done|by right|done|done].
  - change (u +:+ "/" +:+ n +:+ ":" +:+ secret) with (u +:+ String "/" n +:+ String ":" secret). rewrite <- str_app_assoc.
    rewrite (credentials_login _ secret user (mkLogin u n "")); [|by apply no_colon_app|done| |done].
    + cbn [pl_username pl_network]. by rewrite Hnb.
    + rewrite login_one; [done|by left|done|done].
  - replace (u +:+ "/" +:+ n +:+ "@" +:+ c +:+ ":" +:+ secret) with ((u +:+ String "/" (n +:+ String "@" c)) +:+ String ":" secret)
      by (rewrite !str_app_assoc; cbn [String.app]; by rewrite !str_app_assoc).
    rewrite (credentials_login _ secret user (mkLogin u n c));
      [|apply no_colon_app; [done|by apply no_colon_app|done]|done| |done].
    + cbn [pl_username pl_network]. by rewrite Hnb.
    + rewrite login_two; [done|by left|done|done|done].
  - replace (u +:+ "@" +:+ c +:+ "/" +:+ n +:+ ":" +:+ secret) with ((u +:+ String "@" (c +:+ String "/" n)) +:+ String ":" secret)
      by (rewrite !str_app_assoc; cbn [String.app]; by rewrite !str_app_assoc).
    rewrite (credentials_login _ secret user (mkLogin u n c));
      [|apply no_colon_app; [done|by apply no_colon_app|done]|done| |done].
    + cbn [pl_username pl_network]. by rewrite Hnb.
    + rewrite login_two; [done|by right|done|done|done].
  - intros Hs. unfold ParseCredentials. rewrite (proj2 (index_byte_None ":" secret)) by done.
    cbn [String.eqb]. change (u +:+ "/" +:+ n) with (u +:+ String "/" n).
    rewrite login_one by (by left || done). cbn [pl_username pl_network Ascii.eqb]. cbn. rewrite Hnb.
    by destruct (String.eqb_spec u "").
Qed.

(** ** Nicknames *)

Section nick_thms.
Context `{UnicodeTables}.

(** The ASCII characters a nickname may hold. *)
Definition nick_byte (a : ascii) : bool := (128 <=? byte_z a) || nick_rune (byte_z a).

Lemma str_all_take p n s : str_all p s = true → str_all p (str_take n s) = true.
Proof.
  revert s. induction n as [|n IH]; intros s Hs; [by destruct s|]. destruct s as [|a s]; [done|].
  cbn in *. apply andb_true_iff in Hs as [-> Hs]. by apply IH.
Qed.

Lemma str_length_take n s : (String.length (str_take n s) ≤ n)%nat.
Proof. revert s. induction n as [|n IH]; intros s; [by destruct s|]. destruct s as [|a s]; cbn; [lia|]. specialize (IH s). lia. Qed.

(** Whatever the client asks for, the cleaned nickname is not empty, is at
    most 32 bytes long and holds no ASCII character outside the allowed set:
    no separator of the protocol survives. *)
Lemma clean_nick_safe nick :
  CleanNick nick ≠ "" ∧ str_len (CleanNick nick) ≤ 32 ∧ str_all nick_byte (CleanNick nick) = true.
Proof.
  unfold CleanNick. destruct (String.eqb (trim_space nick) ""); [by vm_compute|].
  set (l := fst <$> runes (trim_space nick)).
  set (u := match l with r :: _ => if is_digit r || Z.eqb r 45 then "u"%string else ""%string | [] => ""%string end).
  set (res := u +:+ str_concat _).
  assert (Hall : str_all nick_byte res = true).
  { unfold res. rewrite str_all_app. apply andb_true_iff. split.
    - unfold u. destruct l; [done|]. by destruct (_ || _).
    - assert (Hl : Forall (λ r, scalar r = true) l) by apply runes_scalar.
      induction Hl as [|r l' Hr _ IH]; [done|]. rewrite fmap_cons, str_concat_cons, str_all_app.
      rewrite IH, andb_true_r. destruct (nick_rune r) eqn:En; [|done].
      apply encode_all; [done| |].
      + intros a Ha. unfold nick_byte. by apply Z.leb_le in Ha as ->.
      + intros Hlow. apply scalar_spec in Hr. unfold nick_byte. rewrite byte_z_of_z by lia. by rewrite En, orb_true_r. }
  clearbody res. destruct (String.eqb_spec res "") as [->|Hne]; [by vm_compute|].
  destruct (Z.ltb_spec 32 (str_len res)); [|done]. split_and!.
  - destruct res; [done|]. done.
  - unfold str_len. pose proof (str_length_take 32 res). lia.
  - by apply str_all_take.
Qed.
End nick_thms.

(** ** What the definitions give on concrete lines, and witnesses *)

(** A text the bouncer relays as [":) hi"] reaches the client as [") hi"]. *)
Lemma format_colon_parsed :
  bm_params <$> @ParseLine ascii_tables (FormatLine "" "" "PRIVMSG" ["#c"; ":) hi"]%string) =
  Some ["#c"; ") hi"]%string.
Proof. vm_compute. reflexivity. Qed.

(** [CleanNick] guards against a leading digit by the position of the rune in
    the input, not in the output: dropping what precedes the digit puts it
    first. *)
Lemma clean_nick_leading_digit :
  @CleanNick ascii_tables "1abc" = "u1abc"%string ∧ @CleanNick ascii_tables "!1abc" = "1abc"%string.
Proof. split; vm_compute; reflexivity. Qed.

Lemma parse_format_witness :
  @ParseLine ascii_tables (FormatLine "time=1;+typing=active" "ann!a@host" "PRIVMSG" (["#a"%string] ++ ["hello there :)"%string])) =
    Some (mkMessage "+typing=active" {["+typing" := "active"]}%string "" "PRIVMSG" ["#a"; "hello there :)"]%string) ∧
  @ParseLine ascii_tables (FormatLine "" "" "PRIVMSG" (["#a"%string] ++ [":) hi"%string])) =
    Some (mkMessage "" ∅ "" "PRIVMSG" ["#a"; ") hi"]%string).
Proof.
  split.
  - refine (proj1 (@parse_format ascii_tables "time=1;+typing=active" "ann!a@host" "PRIVMSG" ["#a"%string] "hello there :)" _ _ _ _ _));
      first [repeat constructor|vm_compute; reflexivity].
  - refine (proj1 (@parse_format ascii_tables "" "" "PRIVMSG" ["#a"%string] ":) hi" _ _ _ _ _));
      first [repeat constructor|vm_compute; reflexivity].
Defined.

Lemma sample_client_line : ∃ m,
  @ParseLine ascii_tables "@time=x;+typing=active;account=root :root PRIVMSG #a :hi" = Some m ∧
  bm_raw_tags m = "+typing=active".
Proof. eexists. split; vm_compute; reflexivity. Qed.

Lemma parse_client_tags_witness : ∃ m,
  @ParseLine ascii_tables "@time=x;+typing=active;account=root :root PRIVMSG #a :hi" = Some m ∧
  bm_prefix m = "" ∧
  (∀ k, is_Some (bm_tags m !! k) → client_tag k = true) ∧
  str_len (bm_raw_tags m) ≤ maxClientTagBytes ∧
  (bm_raw_tags m ≠ "" →
     Forall (λ t, client_tag (parse_tag t).1 = true) (split_byte ";" (bm_raw_tags m))).
Proof.
  destruct sample_client_line as (m & Hm & _). exists m. split; [exact Hm|].
  exact (@parse_client_tags ascii_tables _ m Hm).
Defined.

Lemma credentials_forms_witness :
  ParseCredentials "bob/libera:pa:ss" "" = Some (mkCredentials "bob" "pa:ss" "libera") ∧
  (let user_net := if String.eqb "" "" then ""%string else pl_network (UnmarshalLogin "") in
   ParseCredentials ("bob" +:+ ":" +:+ "pa:ss") "" = Some (mkCredentials "bob" "pa:ss" user_net) ∧
   ParseCredentials ("bob" +:+ "@" +:+ "phone" +:+ ":" +:+ "pa:ss") "" = Some (mkCredentials "bob" "pa:ss" user_net) ∧
   ParseCredentials ("bob" +:+ "/" +:+ "libera" +:+ ":" +:+ "pa:ss") "" = Some (mkCredentials "bob" "pa:ss" "libera") ∧
   ParseCredentials ("bob" +:+ "/" +:+ "libera" +:+ "@" +:+ "phone" +:+ ":" +:+ "pa:ss") "" =
     Some (mkCredentials "bob" "pa:ss" "libera") ∧
   ParseCredentials ("bob" +:+ "@" +:+ "phone" +:+ "/" +:+ "libera" +:+ ":" +:+ "pa:ss") "" =
     Some (mkCredentials "bob" "pa:ss" "libera") ∧
   (no_byte ":" "pa:ss" = true →
    ParseCredentials "pa:ss" ("bob" +:+ "/" +:+ "libera") = Some (mkCredentials "bob" "pa:ss" "libera"))).
Proof.
  split; [vm_compute; reflexivity|].
  apply (credentials_forms "bob" "libera" "phone" "pa:ss" ""); first [vm_compute; reflexivity|discriminate].
Defined.
