(* ===== verification/BncSession.v ===== *)
(** * One client of the bouncer

    [internal/ircserver/session.go], [isupport.go], the message formatting of
    [replay.go] and [sink.go], and [BouncerAllowed] of [internal/server].

    A [Session] is the record [session]; a method is a function from session to
    session.  What a handler does besides assigning fields is recorded in the
    session: the lines it queues for the client in [se_out] (the channel the
    writer drains), the calls it makes to the engine, the registry and the
    clock in [se_effects], the goroutines it starts in [se_tasks].  What it
    reads from outside (the hub, the account's engine and history, the current
    time) is the argument [env]: the state of the world at that step. *)

From Stdlib Require Import ZArith Lia Ascii Bool.
From stdpp Require Import base tactics list gmap strings.
From S2P Require Import Prelude GoStrings Utf8 GoNet EngineLine Frame LinkTags CoreTypes BncParse.

#[local] Open Scope Z_scope.

(** ** Constants *)

Definition heartbeatPingAfter : Z := 90 * second.
Definition heartbeatReapAfter : Z := 240 * second.
Definition maxSaslResponse : Z := 8 * 1024.
Definition outQueueSize : Z := 4096.

Definition CapSasl : string := "sasl".
Definition CapServerTime : string := "server-time".
Definition CapMessageTags : string := "message-tags".
Definition CapEchoMessage : string := "echo-message".
Definition CapSelfMessage : string := "znc.in/self-message".
Definition CapBatch : string := "batch".
Definition CapChatHistory : string := "draft/chathistory".
Definition CapBouncerNetworks : string := "soju.im/bouncer-networks".
Definition CapBouncerNetworksNotify : string := "soju.im/bouncer-networks-notify".
Definition CapReadMarker : string := "draft/read-marker".
Definition CapReadMarkerAlt : string := "read-marker".
Definition maxChatHistory : Z := 1000.

Definition supportedCaps : list string :=
  [CapSasl; CapServerTime; CapMessageTags; CapEchoMessage; CapSelfMessage; CapBatch; CapChatHistory;
   CapBouncerNetworks; CapBouncerNetworksNotify; CapReadMarker; CapReadMarkerAlt].

Definition saslMechanisms : list string := ["PLAIN"%string].

Definition isCapSupported (capName : string) : bool :=
  existsb (String.eqb (trim_prefix "-" capName)) supportedCaps.

Definition capLsList (version : Z) : string :=
  str_join " " ((λ c, if String.eqb c CapSasl && (302 <=? version)
                      then "sasl=" +:+ str_join "," saslMechanisms else c) <$> supportedCaps).

Definition defaultISupportTokens : list string :=
  ["CHANTYPES=#&"; "PREFIX=(ov)@+"; "CASEMAPPING=rfc1459"; "NICKLEN=32"; "CHANNELLEN=64"; "NETWORK=stugan"]%string.

(** ** The world outside a session *)

(** What the session reads from an account's [core.Engine]. *)
Record engine_view := EngineView {
  ev_nick : string → string;                (** [NetworkNick] *)
  ev_snapshot : option user;                (** [Snapshot] *)
  ev_network : string → option network;     (** [SnapshotNetwork] *)
}.

(** [History.Backlog(network, buffer, 0, limit)]; [None] is an error. *)
Definition history : Type := string → string → Z → option (list message).

(** [server.Tenant]: the addresses of its engine and history, and its [Prefs]:
    nil, or what [Pref("bouncer")] returns, [None] being an error. *)
Record tenant := Tenant {
  tn_engine : nat;
  tn_history : option nat;
  tn_prefs : option (option string);
}.

(** [ircserver.Hub]. *)
Record hub := Hub {
  hub_auth_enabled : bool;
  hub_login : string → string → option string;
  hub_tenant : string → option tenant;
  hub_users : list string;
}.

Record env := Env {
  env_now : time;
  env_hub : hub;
  env_engine : nat → engine_view;
  env_history : nat → history;
}.

(** [server.BouncerAllowed]. *)
Definition BouncerAllowed (t : tenant) : bool :=
  match tn_prefs t with
  | None | Some None => true
  | Some (Some v) => negb (String.eqb v "off")
  end.

(** The server-wide options a session consults; [opt_bcrypt] is
    [bcrypt.CompareHashAndPassword] succeeding. *)
Record options := Opts {
  opt_password_hash : string;
  opt_max_playback : Z;
  opt_bcrypt : string → string → bool;
}.

(** ** The session *)

Inductive effect :=
  | SendInput (network target text : string)
  | ListChannels (network query : string)
  | MarkRead (network target : string) (ts : time)
  | RegAdd (user network : string)          (** [registry.add] *)
  | RegRemove (user network : string)       (** [registry.remove] *)
  | AuthPause.                              (** the sleep after a failed login *)

Inductive task := TDestroy (reason : string).

Record echoEntry := EchoEntry { ee_key : string; ee_at : time }.

Record session := Session {
  se_remote : string;
  se_engine : option nat;
  se_history : option nat;
  se_out : list string;
  se_caps : gset string;
  se_cap_negotiating : bool;
  se_last_state : gmap string conn_state;
  se_sasl_mech : string;
  se_sasl_buf : string;
  se_sasl_user : string;
  se_sasl_network : string;
  se_pass : string;
  se_nick : string;
  se_user : string;
  se_realname : string;
  se_registered : bool;
  se_closed : bool;
  se_user_id : string;
  se_network_id : string;
  se_bound_net : string;
  se_control : bool;
  se_batch_seq : Z;
  se_echo : list echoEntry;
  se_last_activity : Z;
  se_reg_timer : bool;
  se_effects : list effect;
  se_tasks : list task;
}.

#[export] Instance eta_client : Eta session := λ r,
  Session (se_remote r) (se_engine r) (se_history r) (se_out r) (se_caps r) (se_cap_negotiating r)
    (se_last_state r) (se_sasl_mech r) (se_sasl_buf r) (se_sasl_user r) (se_sasl_network r) (se_pass r)
    (se_nick r) (se_user r) (se_realname r) (se_registered r) (se_closed r) (se_user_id r)
    (se_network_id r) (se_bound_net r) (se_control r) (se_batch_seq r) (se_echo r) (se_last_activity r)
    (se_reg_timer r) (se_effects r) (se_tasks r).

Definition newSession (remote : string) (now : Z) : session :=
  Session remote None None [] ∅ false ∅ "" "" "" "" "" "" "" "" false false "" "" "" false 0 [] now true [] [].

(** [Session.write]: the session's own goroutine waits for room in the queue,
    so it never drops a line of a live session. *)
Definition swrite (line : string) (s : session) : session :=
  if se_closed s then s else s <| se_out ::= λ l, l ++ [sanitizeLine line] |>.

Definition swrites (lines : list string) (s : session) : session := foldl (λ s l, swrite l s) s lines.

(** [Session.push]: never waits; a full queue disconnects the client. *)
Definition push (line : string) (s : session) : session :=
  if se_closed s then s
  else if Z.of_nat (length (se_out s)) <? outQueueSize
  then s <| se_out ::= λ l, l ++ [sanitizeLine line] |>
  else s <| se_tasks ::= λ l, l ++ [TDestroy "SendQ exceeded"] |>.

Definition add_effect (e : effect) (s : session) : session := s <| se_effects ::= λ l, l ++ [e] |>.

Definition hasCap (c : string) (s : session) : bool := bool_decide (c ∈ se_caps s).

Definition stateChanged (network : string) (st : conn_state) (s : session) : session * bool :=
  let prev := se_last_state s !! network in
  (s <| se_last_state ::= <[network := st]> |>, negb (bool_decide (prev = Some st))).

Definition noteState (network : string) (st : conn_state) (s : session) : session :=
  s <| se_last_state ::= <[network := st]> |>.

Section session.
Context `{UnicodeTables} (opts : options) (E : env).

Definition view (s : session) : option engine_view := env_engine E <$> se_engine s.

Definition currentNick (s : session) : string :=
  match view s with
  | Some v =>
      if negb (String.eqb (se_network_id s) "") && negb (String.eqb (ev_nick v (se_network_id s)) "")
      then ev_nick v (se_network_id s) else se_nick s
  | None => se_nick s
  end.

Definition currentNickOr (fallback : string) (s : session) : string :=
  let n := currentNick s in
  if negb (String.eqb n "") then n
  else if negb (String.eqb (se_nick s) "") then se_nick s else fallback.

Definition numeric (code : string) (params : list string) (s : session) : session :=
  swrite (FormatLine "" serverName code (currentNickOr "*" s :: params)) s.

Definition notice (text : string) (s : session) : session :=
  swrite (FormatLine "" serverName "NOTICE" [currentNickOr "*" s; ":" +:+ text]) s.

Definition stugan_prefix (nick : string) : string := nick +:+ "!stugan@" +:+ serverName.

Definition selfPrefix (s : session) : string := stugan_prefix (currentNickOr "user" s).

Definition wantsSelfMessages (s : session) : bool := hasCap CapSelfMessage s || hasCap CapEchoMessage s.

Definition destroy (reason : string) (s : session) : session :=
  if se_closed s then s
  else
    let s := s <| se_closed := true |> <| se_reg_timer := false |> in
    add_effect (RegRemove (se_user_id s) (se_network_id s)) s.

Definition closeWithError (reason : string) (s : session) : session :=
  destroy reason (push ("ERROR :" +:+ reason) s).

Definition msg_param (msg : Message) (i : nat) : option string := bm_params msg !! i.
Definition param_or (msg : Message) (i : nat) (d : string) : string := default d (msg_param msg i).

(** ** Capabilities *)

Definition apply_cap (s : session) (c : string) : session :=
  if has_prefix "-" c then s <| se_caps ::= λ m, m ∖ {[trim_prefix "-" c]} |>
  else s <| se_caps ::= λ m, {[c]} ∪ m |>.

Definition cap_req (nick : string) (msg : Message) (s : session) : session :=
  let s := if se_registered s then s else s <| se_cap_negotiating := true |> in
  let reqStr := param_or msg 1 "" in
  let requested := fields reqStr in
  if negb (forallb isCapSupported requested) || bool_decide (requested = [])
  then swrite (FormatLine "" serverName "CAP" [nick; "NAK"; ":" +:+ reqStr]%string) s
  else
    let s := foldl apply_cap s requested in
    swrite (FormatLine "" serverName "CAP" [nick; "ACK"; ":" +:+ reqStr]%string) s.

Definition handleCap (msg : Message) (s : session) : session :=
  let sub := match msg_param msg 0 with Some p => to_upper p | None => "" end%string in
  let nick := currentNickOr "*" s in
  if String.eqb sub "LS" then
    let s := if se_registered s then s else s <| se_cap_negotiating := true |> in
    let version := match msg_param msg 1 with Some p => if has_prefix "302" p then 302 else 301 | None => 301 end in
    swrite (FormatLine "" serverName "CAP" [nick; "LS"; ":" +:+ capLsList version]%string) s
  else if String.eqb sub "LIST" then
    swrite (FormatLine "" serverName "CAP" [nick; "LIST"; ":" +:+ str_join " " (elements (se_caps s))]%string) s
  else if String.eqb sub "REQ" then cap_req nick msg s
  else if String.eqb sub "END" then s <| se_cap_negotiating := false |>
  else swrite (FormatLine "" serverName "410" [nick; sub; ":Invalid CAP command"]%string) s.

(** ** Authentication *)

Definition isLoopback (addr : string) : bool :=
  let host := match split_host_port addr with inr (h, _) => h | inl _ => addr end in
  match parse_ip host with Some ip => is_loopback_ip ip | None => false end.

Definition singleUserID : string :=
  match hub_users (env_hub E) with u :: _ => u | [] => "default" end.

Definition singleUserAuthorized (secret : string) (s : session) : bool :=
  if negb (String.eqb (opt_password_hash opts) "")
  then negb (String.eqb secret "") && opt_bcrypt opts (opt_password_hash opts) secret
  else isLoopback (se_remote s).

Definition sasl_fail (nick : string) (s : session) : session :=
  swrite (FormatLine "" serverName "904" [nick; ":SASL authentication failed"]%string) s.

(** The check of a SASL login: the account, if it is granted. *)
Definition sasl_login (username passwd : string) (s : session) : option string :=
  if hub_auth_enabled (env_hub E) then hub_login (env_hub E) username passwd
  else if singleUserAuthorized passwd s then Some singleUserID else None.

Definition finishSaslPlain (b64 nick : string) (s : session) : session :=
  match b64_decode b64 with
  | None => sasl_fail nick s
  | Some decoded =>
      match split_byte NUL decoded with
      | [authzid; authcid; passwd] =>
          let loginIdent := if String.eqb authcid "" then authzid else authcid in
          let parsed := UnmarshalLogin loginIdent in
          if String.eqb (pl_username parsed) "" || String.eqb passwd "" then sasl_fail nick s
          else
            match sasl_login (pl_username parsed) passwd s with
            | None => sasl_fail nick (add_effect AuthPause s)
            | Some userID =>
                let s := s <| se_sasl_user := userID |> <| se_sasl_network := pl_network parsed |> in
                let s := swrite (FormatLine "" serverName "900"
                  [nick; stugan_prefix nick; userID; ":You are now logged in as " +:+ userID]%string) s in
                swrite (FormatLine "" serverName "903" [nick; ":SASL authentication successful"]%string) s
            end
      | _ => sasl_fail nick s
      end
  end.

Definition handleSasl (msg : Message) (s : session) : session :=
  let nick := currentNickOr "*" s in
  let arg := param_or msg 0 "" in
  if negb (hasCap CapSasl s) then
    swrite (FormatLine "" serverName "904" [nick; ":You must request the sasl capability first"]%string) s
  else if String.eqb (se_sasl_mech s) "" then
    let mech := to_upper arg in
    if negb (existsb (String.eqb mech) saslMechanisms) then
      let s := swrite (FormatLine "" serverName "908"
        [nick; str_join "," saslMechanisms; ":are available SASL mechanisms"]%string) s in
      sasl_fail nick s
    else
      swrite "AUTHENTICATE +" (s <| se_sasl_mech := mech |> <| se_sasl_buf := ""%string |>)
  else if String.eqb arg "*" then
    swrite (FormatLine "" serverName "906" [nick; ":SASL authentication aborted"]%string)
      (s <| se_sasl_mech := ""%string |> <| se_sasl_buf := ""%string |>)
  else
    let s := if String.eqb arg "+" then s else s <| se_sasl_buf ::= λ b, b +:+ arg |> in
    if negb (String.eqb arg "+") && (maxSaslResponse <? str_len (se_sasl_buf s)) then
      swrite (FormatLine "" serverName "904" [nick; ":SASL message too long"]%string)
        (s <| se_sasl_buf := ""%string |> <| se_sasl_mech := ""%string |>)
    else if negb (String.eqb arg "+") && Z.eqb (str_len arg) 400 then s
    else
      let payload := se_sasl_buf s in
      finishSaslPlain payload nick (s <| se_sasl_buf := ""%string |> <| se_sasl_mech := ""%string |>).

Definition handleBouncerPreReg (msg : Message) (s : session) : session :=
  let fail args := swrite (FormatLine "" serverName "FAIL" ("BOUNCER"%string :: args)) s in
  if negb (hasCap CapBouncerNetworks s) then
    fail ["UNKNOWN_COMMAND"; ":Negotiate soju.im/bouncer-networks capability first"]%string
  else
    let sub := match msg_param msg 0 with Some p => to_upper p | None => "" end%string in
    if negb (String.eqb sub "BIND") then fail ["UNKNOWN_COMMAND"; sub; ":Unknown subcommand"]%string
    else if String.eqb (se_sasl_user s) "" && String.eqb (se_pass s) "" && hub_auth_enabled (env_hub E) then
      fail ["ACCOUNT_REQUIRED"; "BIND"; ":Authentication needed to bind to bouncer network"]%string
    else match msg_param msg 1 with Some p => s <| se_bound_net := p |> | None => s end.

Definition failRegistration (text : string) (s : session) : session :=
  closeWithError text (swrite (FormatLine "" serverName "464" [currentNickOr "*" s; ":" +:+ text]) s).

(** ** Playback *)

Definition unix_time (t : time) : Z := if time_is_zero t then -62135596800 else t / second.

Definition FormatIrcTime (t : time) : string :=
  server_time ((if time_is_zero t then env_now E else t) / millisecond).

Definition ascii_letter (a : ascii) : bool := between 65 90 (byte_z a) || between 97 122 (byte_z a).

Definition IsServicesNick (nick : string) : bool :=
  let lower := to_lower nick in
  (has_suffix "serv" lower && negb (String.eqb (trim_suffix "serv" lower) "") && str_all ascii_letter lower) ||
  existsb (String.eqb lower)
    ["global"; "services"; "q"; "x"; "w"; "chanserv"; "nickserv"; "memoserv"; "operserv"; "authserv"]%string.

Definition formatTags (msgTime : time) (msgID batchRef : string) (s : session) : string :=
  str_join ";"
    ((if String.eqb batchRef "" then [] else ["batch=" +:+ batchRef]) ++
     (if hasCap CapServerTime s && negb (time_is_zero msgTime) then ["time=" +:+ FormatIrcTime msgTime] else []) ++
     (if hasCap CapMessageTags s && negb (String.eqb msgID "") then ["msgid=" +:+ msgID] else [])).

(** The lines of a message body: one for an action, one per line of text
    otherwise. *)
Definition message_bodies (m : message) : list string :=
  match msg_kind_of m with
  | MsgAction =>
      [String (byte_of_z 1) ("ACTION " +:+ replace_byte LF " " (msg_text m) +:+ String (byte_of_z 1) "")]
  | _ => split_byte LF (msg_text m)
  end.

Definition sender (m : message) : string :=
  stugan_prefix (if String.eqb (msg_from m) "" then "unknown" else msg_from m).

Definition self_nick (s : session) : string :=
  if negb (String.eqb (currentNick s) "") then currentNick s
  else if negb (String.eqb (se_nick s) "") then se_nick s else "*".

Definition formatPlaybackMessage (m : message) (isChannel : bool) (batchRef : string) (s : session) : list string :=
  let target := if isChannel || msg_self m then msg_buffer m else self_nick s in
  let lines cmd := (λ body, FormatLine (formatTags (msg_time m) (msg_id m) batchRef s) (sender m) cmd [target; body])
                   <$> message_bodies m in
  if String.eqb (msg_text m) "" then []
  else if msg_self m && negb isChannel && (negb (wantsSelfMessages s) || IsServicesNick (msg_buffer m)) then []
  else match msg_kind_of m with
       | MsgPrivmsg | MsgAction => lines "PRIVMSG"%string
       | MsgNotice => lines "NOTICE"%string
       | _ => []
       end.

Definition net_buffers (n : network) : list channel := omap (λ c, net_heap n !! c) (net_channels n).

Definition playback_buffer (h : history) (limit : Z) (s : session) (ch : channel) : session :=
  match h (se_network_id s) (ch_name ch) limit with
  | None => s
  | Some msgs =>
      foldl (λ s m, swrites (formatPlaybackMessage m (bool_decide (ch_kind ch = KindChannel)) "" s) s) s msgs
  end.

Definition sendPlayback (n : network) (s : session) : session :=
  match env_history E <$> se_history s with
  | None => s
  | Some h =>
      let limit := if opt_max_playback opts <=? 0 then defaultMaxPlayback else opt_max_playback opts in
      foldl (playback_buffer h limit) s (net_buffers n)
  end.

(** [withBatch]: the opening and closing lines around [fn], which is given the
    batch's reference. *)
Definition withBatch (batchType : string) (params : list string) (fn : string → session → session)
    (s : session) : session :=
  if hasCap CapBatch s then
    let s := s <| se_batch_seq ::= Z.add 1 |> in
    let ref := "b" +:+ itoa (se_batch_seq s) in
    let s := swrite (FormatLine "" serverName "BATCH" (["+" +:+ ref; batchType] ++ params)) s in
    let s := fn ref s in
    swrite (FormatLine "" serverName "BATCH" ["-" +:+ ref]) s
  else fn ""%string s.

(** ** The bursts after registration *)

Definition join_burst_channel (nick prefix : string) (s : session) (ch : channel) : session :=
  if negb (bool_decide (ch_kind ch = KindChannel)) then s
  else
    let s := swrite (FormatLine "" prefix "JOIN" [ch_name ch]) s in
    let s :=
      if String.eqb (ch_topic ch) "" then s
      else
        let s := swrite (FormatLine "" serverName "332" [nick; ch_name ch; ch_topic ch]) s in
        if String.eqb (ch_topic_setter ch) "" then s
        else swrite (FormatLine "" serverName "333"
               [nick; ch_name ch; ch_topic_setter ch; itoa (unix_time (ch_topic_time ch))]) s in
    let names := (λ km, MemberPrefixSymbol (m_modes km.2) +:+ m_nick km.2) <$> map_to_list (ch_members ch) in
    swrites (BuildNamesLines nick (ch_name ch) names) s.

Definition sendJoinBurst (n : network) (s : session) : session :=
  foldl (join_burst_channel (currentNickOr "*" s) (selfPrefix s)) s (net_buffers n).

Definition state_word (st : conn_state) : string :=
  match st with
  | StateRegistered => "connected"
  | StateConnecting => "connecting"
  | StateDisconnected => "disconnected"
  end.

(** One [BOUNCER NETWORK] line. *)
Definition network_attrs (n : network) : string :=
  let addr := np_addr (net_params n) in
  let '(host, port) := match split_host_port addr with inr hp => hp | inl _ => (addr, "6667"%string) end in
  "name=" +:+ EscapeTagValue (net_name n) +:+ ";state=" +:+ state_word (net_state n) +:+
  ";host=" +:+ EscapeTagValue host +:+ ";port=" +:+ port +:+
  ";tls=" +:+ (if np_tls (net_params n) then "1" else "0") +:+
  ";nickname=" +:+ EscapeTagValue (net_nick n).

Definition list_network (ref : string) (s : session) (n : network) : session :=
  let tag := if String.eqb ref "" then "" else "batch=" +:+ ref in
  let s := noteState (net_id n) (net_state n) s in
  swrite (FormatLine tag serverName "BOUNCER" ["NETWORK"; net_id n; network_attrs n]%string) s.

Definition sendNetworkList (s : session) : session :=
  match view s ≫= ev_snapshot with
  | None => s
  | Some u => withBatch "soju.im/bouncer-networks" [] (λ ref s, foldl (list_network ref) s (u_networks u)) s
  end.

Definition welcome (nick : string) (s : session) : session :=
  swrites [FormatLine "" serverName "001" [nick; ":Welcome to the stugan bouncer, " +:+ nick];
           FormatLine "" serverName "002" [nick; ":Your host is " +:+ serverName +:+ ", running stugan"];
           FormatLine "" serverName "003" [nick; ":This server was created for you"];
           FormatLine "" serverName "004" [nick; serverName; "stugan"; "o"; "o"]]%string s.

Definition sendAttachBurst (s : session) : session :=
  let liveNick := currentNick s in
  let requestedNick := if negb (String.eqb (se_nick s) "") then se_nick s
                       else if negb (String.eqb liveNick "") then liveNick else "user"%string in
  let s := welcome requestedNick s in
  let s := if negb (String.eqb liveNick "") && negb (String.eqb liveNick requestedNick)
           then swrite (FormatLine "" (stugan_prefix requestedNick) "NICK" [":" +:+ liveNick]) s else s in
  let tokens := defaultISupportTokens ++
    (if hasCap CapBouncerNetworks s then ["BOUNCER_NETID=" +:+ se_network_id s] else []) ++
    (if hasCap CapChatHistory s then ["CHATHISTORY=" +:+ itoa maxChatHistory; "MSGREFTYPES=timestamp"%string] else []) ++
    [":are supported by this server"%string] in
  let s := swrite (FormatLine "" serverName "005" (liveNick :: tokens)) s in
  let s := swrite (FormatLine "" serverName "422" [liveNick; ":MOTD File is missing"]%string) s in
  let s := match view s ≫= (λ v, ev_network v (se_network_id s)) with
           | Some n =>
               if bool_decide (net_state n = StateRegistered) then sendPlayback n (sendJoinBurst n s)
               else notice "Network is currently connecting/disconnected; channels will appear once connected." s
           | None => notice "Network is currently connecting/disconnected; channels will appear once connected." s
           end in
  if hasCap CapBouncerNetworksNotify s then sendNetworkList s else s.

Definition sendControlBurst (s : session) : session :=
  let nick := currentNickOr "user" s in
  let s := welcome nick s in
  let s := swrite (FormatLine "" serverName "005"
             [nick; "NETWORK=stugan"; "CASEMAPPING=rfc1459"; ":are supported by this server"]%string) s in
  let s := swrite (FormatLine "" serverName "422" [nick; ":MOTD File is missing"]%string) s in
  if hasCap CapBouncerNetworksNotify s then sendNetworkList s else s.

(** ** Registration *)

(** The session after [bindNetwork] has set its fields, before the registry
    and the burst; [registerControl] leaves the network out. *)
Definition bind_fields (userID : string) (t : tenant) (s : session) : session :=
  s <| se_user_id := userID |> <| se_engine := Some (tn_engine t) |> <| se_history := tn_history t |>
    <| se_registered := true |> <| se_reg_timer := false |>.

Definition bindNetwork (userID : string) (t : tenant) (n : network) (s : session) : session :=
  let s := bind_fields userID t s <| se_network_id := net_id n |> in
  let s := noteState (net_id n) (net_state n) s in
  sendAttachBurst (add_effect (RegAdd (se_user_id s) (se_network_id s)) s).

Definition registerControl (userID : string) (t : tenant) (s : session) : session :=
  let s := bind_fields userID t s <| se_control := true |> in
  sendControlBurst (add_effect (RegAdd (se_user_id s) (se_network_id s)) s).

Definition network_names (ns : list network) : string := str_join ", " (net_name <$> ns).

Definition bound_match (id : string) (n : network) : bool := String.eqb (net_id n) id || String.eqb (net_name n) id.

Definition selected_match (sel : string) (n : network) : bool :=
  String.eqb (to_lower (net_name n)) (to_lower sel) || String.eqb (to_lower (net_id n)) (to_lower sel).

Definition completeAttach (userID networkSel : string) (s : session) : session :=
  match hub_tenant (env_hub E) userID with
  | None => failRegistration "User account not found" s
  | Some t =>
      if negb (BouncerAllowed t) then
        failRegistration "IRC client access is disabled for this account — enable it in the web UI under Settings" s
      else match ev_snapshot (env_engine E (tn_engine t)) with
      | None => failRegistration "User state unavailable" s
      | Some u =>
          let networks := u_networks u in
          if String.eqb (se_bound_net s) "" && String.eqb networkSel "" && hasCap CapBouncerNetworks s
          then registerControl userID t s
          else if bool_decide (networks = []) then
            failRegistration "No IRC networks configured — add one in the web UI first" s
          else if negb (String.eqb (se_bound_net s) "") then
            match find (bound_match (se_bound_net s)) networks with
            | Some n => bindNetwork userID t n s
            | None =>
                closeWithError "Unknown network ID"
                  (swrite (FormatLine "" serverName "FAIL"
                     ["BOUNCER"; "INVALID_NETID"; se_bound_net s; ":Unknown network ID"]%string) s)
            end
          else if negb (String.eqb networkSel "") then
            match find (selected_match networkSel) networks with
            | Some n => bindNetwork userID t n s
            | None => failRegistration ("Unknown network '" +:+ networkSel +:+ "' — available: " +:+ network_names networks) s
            end
          else match networks with
               | [n] => bindNetwork userID t n s
               | _ => failRegistration ("Multiple networks — log in as " +:+ userID +:+ "/<network>. Available: " +:+
                                        network_names networks) s
               end
      end
  end.

Definition user_selector (s : session) : string :=
  if String.eqb (se_user s) "" then "" else pl_network (UnmarshalLogin (se_user s)).

(** Single-user mode: the network selector and the secret offered. *)
Definition single_user_creds (s : session) : string * string :=
  if negb (String.eqb (se_pass s) "") then
    match ParseCredentials (se_pass s) (se_user s) with
    | Some c => (pc_network c, pc_secret c)
    | None => ("", "")%string
    end
  else (user_selector s, ""%string).

Definition authenticate (s : session) : session :=
  if negb (String.eqb (se_sasl_user s) "") then
    let netSel := if String.eqb (se_sasl_network s) "" then user_selector s else se_sasl_network s in
    completeAttach (se_sasl_user s) netSel s
  else if negb (hub_auth_enabled (env_hub E)) then
    let '(netSel, secret) := single_user_creds s in
    if negb (singleUserAuthorized secret s) then
      failRegistration
        (if String.eqb (opt_password_hash opts) ""
         then "No password is set, so only connections from this machine are accepted. Set STUGAN_WEB_PASSWORD (or configure [[users]]) to allow remote IRC clients"
         else "Invalid password: use the web password as the server password or SASL password")
        (add_effect AuthPause s)
    else completeAttach singleUserID netSel s
  else if String.eqb (se_pass s) "" then
    failRegistration "Password required: PASS <username>[/<network>]:<password>" s
  else match ParseCredentials (se_pass s) (se_user s) with
       | None => failRegistration "Invalid credentials format: PASS <username>[/<network>]:<password>" s
       | Some creds =>
           if String.eqb (pc_username creds) "" then
             failRegistration "Invalid credentials format: PASS <username>[/<network>]:<password>" s
           else match hub_login (env_hub E) (pc_username creds) (pc_secret creds) with
                | None => failRegistration "Invalid username or password" (add_effect AuthPause s)
                | Some userID => completeAttach userID (pc_network creds) s
                end
       end.

Definition maybeFinishRegistration (s : session) : session :=
  if se_registered s || se_closed s then s
  else if String.eqb (se_nick s) "" || String.eqb (se_user s) "" || se_cap_negotiating s then s
  else authenticate s.

(** The switch of [handlePreRegistration]; [None] is its early return. *)
Definition pre_command (msg : Message) (s : session) : option session :=
  let c := bm_command msg in
  if String.eqb c "CAP" then Some (handleCap msg s)
  else if String.eqb c "PASS" then Some (match msg_param msg 0 with Some p => s <| se_pass := p |> | None => s end)
  else if String.eqb c "NICK" then
    Some (match msg_param msg 0 with Some p => s <| se_nick := CleanNick p |> | None => s end)
  else if String.eqb c "USER" then
    let s := match msg_param msg 0 with Some p => s <| se_user := p |> | None => s end in
    Some (match msg_param msg 3 with Some p => s <| se_realname := p |> | None => s end)
  else if String.eqb c "AUTHENTICATE" then Some (handleSasl msg s)
  else if String.eqb c "BOUNCER" then Some (handleBouncerPreReg msg s)
  else if String.eqb c "PING" then
    Some (swrite (FormatLine "" serverName "PONG" [serverName; param_or msg 0 serverName]) s)
  else if String.eqb c "QUIT" then None
  else Some (numeric "451" [":You have not registered"%string] s).

Definition handlePreRegistration (msg : Message) (s : session) : session :=
  match pre_command msg s with
  | Some s => maybeFinishRegistration s
  | None => destroy "Client quit" s
  end.
End session.
