(* ===== verification/BncServer.v ===== *)
(** * The bouncer: commands, fan-out, registry

    [internal/ircserver/inbound.go], [sink.go], [server.go] and the rest of
    [session.go]: what an attached client's commands do, how committed messages
    reach the attached clients, and which clients a message is meant for.

    The server keeps its sessions in a heap; the registry's sets hold session
    ids.  A step of the server is one line of a client, one message of the
    engine, one tick of a timer, or one task a goroutine was started for. *)

From Stdlib Require Import ZArith Lia Ascii Bool.
From stdpp Require Import base tactics list gmap strings.
From S2P Require Import Prelude GoStrings Utf8 GoNet CoreTypes BncParse BncSession.

#[local] Open Scope Z_scope.

(** ** Own messages coming back *)

Definition echo_key (kind : msg_kind) (target text : string) : string :=
  kind_string kind +:+ String NUL (FoldIRC target) +:+ String NUL text.

Definition echo_window : Z := 30 * second.
Definition echo_cap : nat := 200.

Definition registerEcho (E : env) (kind : msg_kind) (target text : string) (s : session) : session :=
  let now := env_now E in
  let active := filter (λ e, now - echo_window < ee_at e) (se_echo s) ++ [EchoEntry (echo_key kind target text) now] in
  s <| se_echo := drop (length active - echo_cap) active |>.

Definition isOwnEcho (kind : msg_kind) (target text : string) (s : session) : session * bool :=
  let key := echo_key kind target text in
  match list_find (λ e, ee_key e = key) (se_echo s) with
  | Some (i, _) => (s <| se_echo := take i (se_echo s) ++ drop (S i) (se_echo s) |>, true)
  | None => (s, false)
  end.

Section commands.
Context `{UnicodeTables, TimeParse} (opts : options) (E : env).

(** ** Commands of an attached client *)

Definition send_input (target text : string) (s : session) : session :=
  add_effect (SendInput (se_network_id s) target text) s.

Definition action_open : string := String (byte_of_z 1) "ACTION ".
Definition action_close : string := String (byte_of_z 1) "".

Definition client_message_to (cmd text : string) (s : session) (target : string) : session :=
  let target := trim_space target in
  if String.eqb target "" then s
  else if has_prefix action_open text && has_suffix action_close text then
    let body := trim_suffix action_close (trim_prefix action_open text) in
    send_input target ("/me " +:+ body) (registerEcho E MsgAction target body s)
  else if String.eqb cmd "NOTICE" then
    send_input target ("/notice " +:+ target +:+ " " +:+ text) (registerEcho E MsgNotice target text s)
  else send_input target text (registerEcho E MsgPrivmsg target text s).

Definition handleClientMessage (msg : Message) (s : session) : session :=
  let first := param_or msg 0 "" in
  let text := param_or msg 1 "" in
  if String.eqb first "" then numeric E "411" [":No recipient given (" +:+ bm_command msg +:+ ")"] s
  else if String.eqb text "" then numeric E "412" [":No text to send"%string] s
  else foldl (client_message_to (bm_command msg) text) s (split_byte ","%char first).

Definition join_one (keys : list string) (s : session) (ich : nat * string) : session :=
  let ch := trim_space (snd ich) in
  if String.eqb ch "" then s
  else
    let key := match keys !! fst ich with Some k => trim_space k | None => "" end%string in
    send_input "*status" ("/join " +:+ ch +:+ (if String.eqb key "" then "" else " " +:+ key)) s.

Definition part_one (reason : string) (s : session) (ch : string) : session :=
  let ch := trim_space ch in
  if String.eqb ch "" then s
  else send_input "*status" ("/part " +:+ ch +:+ (if String.eqb reason "" then "" else " " +:+ reason)) s.

Definition topic_reply (nick : string) (ch : channel) (s : session) : session :=
  if String.eqb (ch_topic ch) "" then
    swrite (FormatLine "" serverName "331" [nick; ch_name ch; ":No topic is set"%string]) s
  else
    let s := swrite (FormatLine "" serverName "332" [nick; ch_name ch; ch_topic ch]) s in
    if String.eqb (ch_topic_setter ch) "" then s
    else swrite (FormatLine "" serverName "333"
           [nick; ch_name ch; ch_topic_setter ch; itoa (unix_time (ch_topic_time ch))]) s.

Definition handle_topic (msg : Message) (s : session) : session :=
  match msg_param msg 0 with
  | None => numeric E "461" ["TOPIC :Not enough parameters"%string] s
  | Some target =>
      match msg_param msg 1 with
      | Some topic => send_input target ("/topic " +:+ topic) s
      | None =>
          match view E s ≫= (λ v, ev_network v (se_network_id s)) with
          | None => s
          | Some n =>
              match find (λ ch, EqualIRC (ch_name ch) target) (net_buffers n) with
              | Some ch => topic_reply (currentNickOr E "*" s) ch s
              | None => s
              end
          end
      end
  end.

(** A raw command handed on with [/quote]. *)
Definition quote_line (msg : Message) : string :=
  "/quote " +:+ bm_command msg +:+
  str_concat ((λ p, " " +:+ (if contains_str " " p || has_prefix ":" p then ":" else "") +:+ p) <$> bm_params msg).

Definition is_chan (name : string) : bool := has_prefix "#" name || has_prefix "&" name.

Definition handleBouncer (msg : Message) (s : session) : session :=
  let fail args := swrite (FormatLine "" serverName "FAIL" ("BOUNCER"%string :: args)) s in
  if negb (hasCap CapBouncerNetworks s) then
    fail ["UNKNOWN_COMMAND"; ":Negotiate soju.im/bouncer-networks capability first"]%string
  else
    let sub := match msg_param msg 0 with Some p => to_upper p | None => "" end%string in
    if String.eqb sub "LISTNETWORKS" then sendNetworkList E s
    else if String.eqb sub "BIND" then
      fail ["REGISTRATION_IS_COMPLETED"; "BIND"; ":Cannot bind to a network after registration"]%string
    else if existsb (String.eqb sub) ["ADDNETWORK"; "CHANGENETWORK"; "DELNETWORK"]%string then
      fail ["UNKNOWN_COMMAND"; sub; ":Manage networks in the stugan web UI"]%string
    else fail ["UNKNOWN_COMMAND"; sub; ":Unknown subcommand"]%string.

Definition handleChatHistoryTargets (s : session) : session :=
  withBatch "draft/chathistory-targets" [] (λ ref s,
    match view E s ≫= (λ v, ev_network v (se_network_id s)) with
    | None => s
    | Some n =>
        let tag := if String.eqb ref "" then "" else "batch=" +:+ ref in
        swrites ((λ ch, FormatLine tag serverName "CHATHISTORY"
                          ["TARGETS"%string; ch_name ch; FormatIrcTime E (env_now E)]) <$> net_buffers n) s
    end) s.

(** The limit parameter: the default when absent, [None] when it is no number
    in range. *)
Definition history_limit (p : option string) : option Z :=
  match p with
  | None => Some defaultMaxPlayback
  | Some p =>
      if String.eqb p "" then Some defaultMaxPlayback
      else n ← atoi p; if (n <? 0) || (maxChatHistory <? n) then None else Some n
  end.

Definition handleChatHistory (msg : Message) (s : session) : session :=
  let fail args := swrite (FormatLine "" serverName "FAIL" ("CHATHISTORY"%string :: args)) s in
  match (if se_control s || String.eqb (se_network_id s) "" then None else env_history E <$> se_history s) with
  | None => fail ["INVALID_TARGET"; "*"; ":Cannot fetch chat history on this connection"]%string
  | Some h =>
      match msg_param msg 0 with
      | None => numeric E "461" ["CHATHISTORY :Not enough parameters"%string] s
      | Some p0 =>
          let sub := to_upper p0 in
          if String.eqb sub "TARGETS" then handleChatHistoryTargets s
          else if negb (existsb (String.eqb sub) ["LATEST"; "BEFORE"; "AFTER"; "AROUND"; "BETWEEN"]%string) then
            fail ["INVALID_PARAMS"; sub; ":Unknown subcommand"]%string
          else
            let target := param_or msg 1 "" in
            if String.eqb target "" then numeric E "461" ["CHATHISTORY :Not enough parameters"%string] s
            else
              let limitIdx := if String.eqb sub "BETWEEN" then 4%nat else 3%nat in
              match history_limit (msg_param msg limitIdx) with
              | None => fail ["INVALID_PARAMS"%string; sub; param_or msg limitIdx ""; ":Invalid limit"%string]
              | Some limit =>
                  match h (se_network_id s) target limit with
                  | None => fail ["INTERNAL_ERROR"; sub; ":Failed to query history"]%string
                  | Some msgs =>
                      withBatch "chathistory" [target] (λ ref s,
                        foldl (λ s m, swrites (formatPlaybackMessage E m (is_chan target) ref s) s) s msgs) s
                  end
              end
      end
  end.

(** The layouts a read marker is tried against, in order. *)
Definition parse_marker (v : string) : option time :=
  match time_parse "2006-01-02T15:04:05.999999999Z07:00" v with
  | Some t => Some t
  | None => match time_parse "2006-01-02T15:04:05.000Z" v with
            | Some t => Some t
            | None => time_parse "2006-01-02T15:04:05Z07:00" v
            end
  end.

Definition handleMarkRead (msg : Message) (s : session) : session :=
  if se_control s || String.eqb (se_network_id s) "" || bool_decide (se_engine s = None) then s
  else
    let target := param_or msg 0 "" in
    if String.eqb target "" then numeric E "461" ["MARKREAD :Not enough parameters"%string] s
    else
      let now := env_now E in
      let ts := match msg_param msg 1 with
                | None => now
                | Some p =>
                    if has_prefix "timestamp=" (to_lower p) then default now (parse_marker (str_drop 10 p))
                    else if String.eqb p "*" then now else default now (parse_marker p)
                end in
      add_effect (MarkRead (se_network_id s) target ts) s.

(** The commands that need an engine. *)
Definition engine_command (msg : Message) (s : session) : session :=
  let c := bm_command msg in
  if existsb (String.eqb c) ["PRIVMSG"; "NOTICE"]%string then handleClientMessage msg s
  else if String.eqb c "JOIN" then
    match msg_param msg 0 with
    | None => numeric E "461" ["JOIN :Not enough parameters"%string] s
    | Some chans =>
        if String.eqb chans "0" then send_input "*status" "/quote JOIN 0" s
        else
          let keys := match msg_param msg 1 with Some k => split_byte ","%char k | None => [] end in
          foldl (join_one keys) s (imap pair (split_byte ","%char chans))
    end
  else if String.eqb c "PART" then
    match msg_param msg 0 with
    | None => numeric E "461" ["PART :Not enough parameters"%string] s
    | Some chans => foldl (part_one (param_or msg 1 "")) s (split_byte ","%char chans)
    end
  else if String.eqb c "TOPIC" then handle_topic msg s
  else if String.eqb c "AWAY" then
    let reason := param_or msg 0 "" in
    if String.eqb (trim_space reason) "" then send_input "*status" "/away" s
    else send_input "*status" ("/away " +:+ reason) s
  else if String.eqb c "NICK" then
    let nick := param_or msg 0 "" in
    if String.eqb nick "" then numeric E "431" [":No nickname given"%string] s
    else send_input "*status" ("/nick " +:+ nick) s
  else if String.eqb c "LIST" then add_effect (ListChannels (se_network_id s) (param_or msg 0 "")) s
  else if existsb (String.eqb c) ["WHOIS"; "WHO"; "MODE"; "KICK"; "INVITE"]%string then
    let target := match msg_param msg 0 with Some p => if is_chan p then p else "*status" | None => "*status" end%string in
    send_input target (quote_line msg) s
  else send_input "*status" (quote_line msg) s.

Definition handleCommand (msg : Message) (s : session) : session :=
  let c := bm_command msg in
  if String.eqb c "PING" then
    let token := param_or msg 0 "" in
    swrite (FormatLine "" serverName "PONG" [serverName; if String.eqb token "" then serverName else token]) s
  else if String.eqb c "PONG" then s
  else if String.eqb c "QUIT" then destroy "Client disconnected" s
  else if String.eqb c "CAP" then handleCap E msg s
  else if String.eqb c "USER" then numeric E "462" [":You may not reregister"%string] s
  else if String.eqb c "AUTHENTICATE" then
    swrite (FormatLine "" serverName "904" [currentNickOr E "*" s; ":Already authenticated"%string]) s
  else if String.eqb c "BOUNCER" then handleBouncer msg s
  else if String.eqb c "CHATHISTORY" then handleChatHistory msg s
  else if String.eqb c "MARKREAD" then handleMarkRead msg s
  else if se_control s then
    notice E "Cannot interact with channels and users on a bouncer control connection — bind a network." s
  else if bool_decide (se_engine s = None) then notice E "Engine is unavailable." s
  else engine_command msg s.

(** One line read from the client ([serve]'s loop body). *)
Definition serve_line (line : string) (s : session) : session :=
  let s := s <| se_last_activity := env_now E / second |> in
  match ParseLine line with
  | None => s
  | Some msg => if se_registered s then handleCommand msg s else handlePreRegistration opts E msg s
  end.

Definition heartbeat (now : time) (s : session) : session :=
  if se_closed s then s
  else
    let idle := time_sub now (se_last_activity s * second) in
    if heartbeatReapAfter <? idle then closeWithError "Ping timeout" s
    else if heartbeatPingAfter <? idle then push ("PING :" +:+ serverName) s
    else s.

(** ** Committed messages *)

Definition formatSinkMessage (m : message) (s : session) : list string :=
  if negb (String.eqb (msg_network m) (se_network_id s)) then []
  else
    let selfNick := self_nick E s in
    let prefix := sender m in
    let isChannel := is_chan (msg_buffer m) in
    let target := if isChannel || msg_self m then msg_buffer m else selfNick in
    let lines prefix cmd target :=
      (λ body, FormatLine (formatTags E (msg_time m) (msg_id m) "" s) prefix cmd [target; body]) <$> message_bodies m in
    if msg_self m && negb isChannel && negb (wantsSelfMessages s) then []
    else match msg_kind_of m with
         | MsgNotice => lines prefix "NOTICE"%string target
         | MsgAction | MsgPrivmsg | MsgOther _ => lines prefix "PRIVMSG"%string target
         | MsgSystem =>
             if IsPluginBuffer (msg_buffer m) then lines (stugan_prefix (msg_buffer m)) "PRIVMSG"%string selfNick
             else lines serverName "NOTICE"%string selfNick
         | MsgJoin => [FormatLine "" prefix "JOIN" [msg_buffer m]]
         | MsgPart => [FormatLine "" prefix "PART" [msg_buffer m; msg_text m]]
         | MsgQuit => [FormatLine "" prefix "QUIT" [msg_text m]]
         | MsgNick => [FormatLine "" prefix "NICK" [msg_text m]]
         | MsgTopic => [FormatLine "" prefix "TOPIC" [msg_buffer m; msg_text m]]
         | MsgChghost | MsgSetname => []
         end.

Definition pushes (lines : list string) (s : session) : session := foldl (λ s l, push l s) s lines.

(** A broadcast reaches registered sessions that are not closed. *)
Definition live (s : session) : bool := se_registered s && negb (se_closed s).

Definition print_to (m : message) (s : session) : session :=
  if negb (live s) then s
  else
    let '(s, own) := if msg_self m then isOwnEcho (msg_kind_of m) (msg_buffer m) (msg_text m) s else (s, false) in
    if own && negb (hasCap CapEchoMessage s) then s else pushes (formatSinkMessage m s) s.

Definition network_changed_to (n : network) (s : session) : session :=
  if negb (live s) then s
  else
    let '(s, changed) := stateChanged (net_id n) (net_state n) s in
    if negb changed then s
    else
      let s := if hasCap CapBouncerNetworksNotify s then
                 let attrs := match net_state n with
                              | StateRegistered => "state=connected;error="
                              | st => "state=" +:+ state_word st
                              end%string in
                 push (FormatLine "" serverName "BOUNCER" ["NETWORK"%string; net_id n; attrs]) s
               else s in
      if String.eqb (se_network_id s) (net_id n) then
        let nick := currentNickOr E "*" s in
        match net_state n with
        | StateRegistered =>
            push (FormatLine "" serverName "NOTICE" [nick; ":Network '" +:+ net_name n +:+ "' is now connected."]) s
        | StateDisconnected =>
            push (FormatLine "" serverName "NOTICE"
                    [nick; ":Network '" +:+ net_name n +:+ "' is disconnected — will keep retrying."]) s
        | StateConnecting => s
        end
      else s.

(** One row of a channel list: name, users, topic. *)
Definition channel_list_to (items : list (string * Z * string)) (s : session) : session :=
  if negb (live s) then s
  else
    let nick := currentNickOr E "*" s in
    let s := push (FormatLine "" serverName "321" [nick; "Channel"; ":Users  Name"]%string) s in
    let s := pushes ((λ '(name, users, topic),
                        FormatLine "" serverName "322" [nick; name; itoa users; ":" +:+ topic]) <$> items) s in
    push (FormatLine "" serverName "323" [nick; ":End of /LIST"%string]) s.

Definition tagmsg_to (tags nick buffer : string) (s : session) : session :=
  if negb (live s) || negb (hasCap CapMessageTags s) then s
  else push (FormatLine tags (stugan_prefix nick) "TAGMSG" [buffer]) s.

Definition typing_tags (state : string) : string := "+typing=" +:+ state.
Definition react_tags (target reaction : string) : string :=
  "+draft/react=" +:+ EscapeTagValue reaction +:+ ";+draft/reply=" +:+ target.
Definition redact_tags (target : string) : string := "+draft/delete=" +:+ target.

Definition read_marker_to (buffer : string) (ts : time) (s : session) : session :=
  if negb (live s) || (negb (hasCap CapReadMarker s) && negb (hasCap CapReadMarkerAlt s)) then s
  else push (FormatLine "" serverName "MARKREAD" [buffer; "timestamp=" +:+ FormatIrcTime E ts]) s.
End commands.

(** ** The registry and the server *)

Notation bsid := nat.

Record bouncer := Bouncer {
  b_sessions : gmap bsid session;
  b_next : bsid;
  b_all : gset bsid;
  b_by_user : gmap string (gset bsid);
  b_by_user_net : gmap string (gset bsid);
  b_log : list (bsid * effect);     (** the calls sessions have made *)
}.

#[export] Instance eta_bouncer : Eta bouncer := λ r,
  Bouncer (b_sessions r) (b_next r) (b_all r) (b_by_user r) (b_by_user_net r) (b_log r).

Definition new_bouncer : bouncer := Bouncer ∅ 0%nat ∅ ∅ ∅ [].

Definition user_net_key (user net : string) : string := user +:+ ":" +:+ net.

(** Adding to, and deleting from, a set of a map of sets; an emptied set is
    deleted. *)
Definition set_add (k : string) (x : bsid) (m : gmap string (gset bsid)) : gmap string (gset bsid) :=
  <[k := {[x]} ∪ default ∅ (m !! k)]> m.

Definition set_del (k : string) (x : bsid) (m : gmap string (gset bsid)) : gmap string (gset bsid) :=
  match m !! k with
  | None => m
  | Some xs => let xs := xs ∖ {[x]} in if bool_decide (xs = ∅) then delete k m else <[k := xs]> m
  end.

Definition reg_add (x : bsid) (user net : string) (b : bouncer) : bouncer :=
  let b := b <| b_all ::= λ a, {[x]} ∪ a |> in
  if String.eqb user "" then b
  else
    let b := b <| b_by_user ::= set_add user x |> in
    if String.eqb net "" then b else b <| b_by_user_net ::= set_add (user_net_key user net) x |>.

Definition reg_remove (x : bsid) (user net : string) (b : bouncer) : bouncer :=
  let b := b <| b_all ::= λ a, a ∖ {[x]} |> in
  if String.eqb user "" then b
  else
    let b := b <| b_by_user ::= set_del user x |> in
    if String.eqb net "" then b else b <| b_by_user_net ::= set_del (user_net_key user net) x |>.

Definition sessionsFor (user net : string) (b : bouncer) : list bsid :=
  elements (default ∅ (b_by_user_net b !! user_net_key user net)).

Definition allForUser (user : string) (b : bouncer) : list bsid := elements (default ∅ (b_by_user b !! user)).

Definition allSessions (b : bouncer) : list bsid := elements (b_all b).

(** The registry calls among a session's effects take place; the rest is
    logged. *)
Definition apply_effect (x : bsid) (b : bouncer) (e : effect) : bouncer :=
  match e with
  | RegAdd u n => reg_add x u n b
  | RegRemove u n => reg_remove x u n b
  | _ => b <| b_log ::= λ l, l ++ [(x, e)] |>
  end.

(** Running a method of a session. *)
Definition on_client (x : bsid) (f : session → session) (b : bouncer) : bouncer :=
  match b_sessions b !! x with
  | None => b
  | Some s =>
      let s := f s in
      foldl (apply_effect x) (b <| b_sessions ::= <[x := s <| se_effects := [] |>]> |>) (se_effects s)
  end.

Definition on_clients (xs : list bsid) (f : session → session) (b : bouncer) : bouncer :=
  foldl (λ b x, on_client x f b) b xs.

Inductive bstep :=
  | Accept (remote : string)
  | Line (x : bsid) (raw : string)
  | RegTimeout (x : bsid)
  | Tick
  | WriterFlush (x : bsid)
  | WriteFailed (x : bsid)
  | ReadFailed (x : bsid)
  | RunTask (x : bsid)
  | Print (user : string) (m : message)
  | NetworkChanged (user : string) (n : network)
  | NetworkRemoved (user net : string)
  | ChannelList (user net : string) (items : list (string * Z * string))
  | Typing (user net buffer nick state : string)
  | React (user net buffer target nick reaction : string)
  | Redact (user net buffer target nick : string)
  | ReadMarker (user net buffer : string) (ts : time)
  | DisconnectUser (user reason : string)
  | Shutdown.

Section server.
Context `{UnicodeTables, TimeParse} (opts : options).

Definition run_session_task (s : session) : session :=
  match se_tasks s with
  | TDestroy reason :: ts => destroy reason (s <| se_tasks := ts |>)
  | [] => s
  end.

Definition bouncer_step (E : env) (b : bouncer) (st : bstep) : bouncer :=
  match st with
  | Accept remote =>
      b <| b_sessions ::= <[b_next b := newSession remote (env_now E / second)]> |> <| b_next ::= S |>
  | Line x raw => on_client x (serve_line opts E raw) b
  | RegTimeout x => on_client x (λ s, if se_reg_timer s then closeWithError "Registration timeout" s else s) b
  | Tick => on_clients (allSessions b) (heartbeat (env_now E)) b
  | WriterFlush x => on_client x (λ s, s <| se_out := [] |>) b
  | WriteFailed x => on_client x (destroy "Write error") b
  | ReadFailed x => on_client x (destroy "Connection closed") b
  | RunTask x => on_client x run_session_task b
  | Print user m => on_clients (sessionsFor user (msg_network m) b) (print_to E m) b
  | NetworkChanged user n => on_clients (allForUser user b) (network_changed_to E n) b
  | NetworkRemoved user net => on_clients (sessionsFor user net b) (closeWithError "Network removed") b
  | ChannelList user net items => on_clients (sessionsFor user net b) (channel_list_to E items) b
  | Typing user net buffer nick state =>
      on_clients (sessionsFor user net b) (tagmsg_to (typing_tags state) nick buffer) b
  | React user net buffer target nick reaction =>
      on_clients (sessionsFor user net b) (tagmsg_to (react_tags target reaction) nick buffer) b
  | Redact user net buffer target nick =>
      on_clients (sessionsFor user net b) (tagmsg_to (redact_tags target) nick buffer) b
  | ReadMarker user net buffer ts => on_clients (sessionsFor user net b) (read_marker_to E buffer ts) b
  | DisconnectUser user reason => on_clients (allForUser user b) (closeWithError reason) b
  | Shutdown => on_clients (allSessions b) (destroy "Server shutting down") b
  end.

Definition bouncer_run (b : bouncer) (sts : list (env * bstep)) : bouncer :=
  foldl (λ b Est, bouncer_step Est.1 b Est.2) b sts.
End server.
