(* ===== verification/BncThms.v ===== *)
(** * The bouncer: who gets in, and who is reached

    Properties of sessions and of the server: nobody is attached but for the
    credentials its client sent ([attached_is_authenticated]), a client's commands reach only
    the engine of its account, for its network ([commands_confined]), committed
    messages reach only the clients bound to their network ([print_reaches_own]),
    a client's own messages come back as it asked ([own_echo_once]), and a SASL
    response is reassembled from its chunks ([sasl_chunks]). *)

From Stdlib Require Import ZArith Lia Ascii Bool.
From stdpp Require Import base tactics list gmap strings.
From S2P Require Import Prelude GoStrings Utf8 GoNet CoreTypes BncParse BncSession BncServer.

#[local] Open Scope Z_scope.

(** ** What most methods leave alone *)

(** What a session keeps of the credentials its client sent. *)
Definition creds_of (s : session) := (se_pass s, se_user s, se_sasl_buf s).

(** The fields that decide who a session is. *)
Definition core_of (s : session) :=
  (se_remote s, se_sasl_user s, se_registered s, se_user_id s, se_network_id s, se_control s, se_engine s,
   se_closed s, creds_of s).

(** [s'] is [s] after a method that leaves those fields alone and whose effects
    all satisfy [P]. *)
Definition quiet (P : effect → Prop) (s s' : session) : Prop :=
  core_of s' = core_of s ∧ ∃ es, se_effects s' = se_effects s ++ es ∧ Forall P es.

Section quiet.
Context (P : effect → Prop).

Lemma quiet_refl s : quiet P s s.
Proof. split; [done|]. exists []. by rewrite app_nil_r. Qed.

Lemma quiet_trans s1 s2 s3 : quiet P s1 s2 → quiet P s2 s3 → quiet P s1 s3.
Proof.
  intros [H1 (es1 & E1 & F1)] [H2 (es2 & E2 & F2)]. split; [congruence|].
  exists (es1 ++ es2). split; [by rewrite E2, E1, app_assoc|]. by apply Forall_app.
Qed.

Lemma quiet_closed s s' : quiet P s s' → se_closed s' = se_closed s.
Proof. intros [Hc _]. unfold core_of in Hc. by injection Hc as _ _ _ _ _ _ _ -> _. Qed.

(** A method that assigns none of those fields and has no effects. *)
Lemma quiet_fields s s' : core_of s' = core_of s → se_effects s' = se_effects s → quiet P s s'.
Proof. intros H1 H2. split; [done|]. exists []. by rewrite app_nil_r. Qed.

Lemma quiet_effect e s : P e → quiet P s (add_effect e s).
Proof. intros He. split; [done|]. exists [e]. by repeat constructor. Qed.

Lemma quiet_swrite l s : quiet P s (swrite l s).
Proof. unfold swrite. destruct (se_closed s); by apply quiet_fields. Qed.

Lemma quiet_push l s : quiet P s (push l s).
Proof. unfold push. destruct (se_closed s); [|destruct (_ <? _)]; by apply quiet_fields. Qed.

Lemma quiet_foldl {A} (f : session → A → session) l s :
  (∀ s a, quiet P s (f s a)) → quiet P s (foldl f s l).
Proof.
  intros Hf. revert s. induction l as [|a l IH]; intros s; [apply quiet_refl|].
  eapply quiet_trans; [apply Hf|apply IH].
Qed.

Lemma quiet_swrites ls s : quiet P s (swrites ls s).
Proof. apply quiet_foldl. intros. apply quiet_swrite. Qed.

Lemma quiet_pushes ls s : quiet P s (pushes ls s).
Proof. apply quiet_foldl. intros. apply quiet_push. Qed.

Lemma quiet_weaken (Q : effect → Prop) s s' : (∀ e, P e → Q e) → quiet P s s' → quiet Q s s'.
Proof. intros HPQ [H (es & E & F)]. split; [done|]. exists es. split; [done|]. by eapply Forall_impl. Qed.
End quiet.

(** The session ends: a quiet part, then [destroy]. *)
Definition ends (P : effect → Prop) (s s' : session) : Prop := ∃ s1 r, quiet P s s1 ∧ s' = destroy r s1.

Lemma ends_destroy P r s : ends P s (destroy r s).
Proof. exists s, r. split; [apply quiet_refl|done]. Qed.

Lemma ends_close P r s : ends P s (closeWithError r s).
Proof. exists (push ("ERROR :" +:+ r) s), r. split; [apply quiet_push|done]. Qed.

Lemma ends_trans P s1 s2 s3 : quiet P s1 s2 → ends P s2 s3 → ends P s1 s3.
Proof. intros H (s & r & Hq & ->). exists s, r. split; [by eapply quiet_trans|done]. Qed.

#[local] Hint Resolve quiet_refl quiet_swrite quiet_push quiet_swrites quiet_pushes : bnc.

(** Peel the outermost method of the goal's session. *)
Ltac quiet_step :=
  match goal with
  | |- quiet _ ?s ?s => apply quiet_refl
  | |- quiet _ _ (swrite _ _) => eapply quiet_trans; [|apply quiet_swrite]
  | |- quiet _ _ (swrites _ _) => eapply quiet_trans; [|apply quiet_swrites]
  | |- quiet _ _ (push _ _) => eapply quiet_trans; [|apply quiet_push]
  | |- quiet _ _ (pushes _ _) => eapply quiet_trans; [|apply quiet_pushes]
  | |- quiet _ _ (add_effect _ _) => eapply quiet_trans; [|apply quiet_effect]
  | |- quiet _ ?s (if ?b then _ else _) => destruct b eqn:?
  | |- quiet _ ?s (match ?b with _ => _ end) => destruct b eqn:?
  end.

(** Go through a local definition: a session is passed first, anything else is
    substituted. *)
Ltac quiet_let :=
  lazymatch goal with
  | |- quiet ?P ?s (let x := ?e in @?f x) =>
      lazymatch type of e with
      | session =>
          let y := fresh "s" in let Hy := fresh "Hq" in
          assert (Hy : quiet P s e);
          [|eapply quiet_trans; [exact Hy|]; clear Hy; generalize e as y; intros y; let g := eval cbv beta in (f y) in change (quiet P y g)]
      | _ => let g := eval cbv beta in (f e) in change (quiet P s g)
      end
  end.

Ltac quiet_fields_tac := first [by apply quiet_fields | eapply quiet_trans; [|by apply quiet_fields]].

Section session.
Context `{UnicodeTables, TimeParse} (opts : options) (E : env) (P : effect → Prop).

Lemma quiet_numeric c ps s : quiet P s (numeric E c ps s).
Proof. unfold numeric. auto with bnc. Qed.

Lemma quiet_notice t s : quiet P s (notice E t s).
Proof. unfold notice. auto with bnc. Qed.

Lemma quiet_apply_cap s c : quiet P s (apply_cap s c).
Proof. unfold apply_cap. destruct (has_prefix _ _); by apply quiet_fields. Qed.

Lemma quiet_neg s : quiet P s (if se_registered s then s else s <| se_cap_negotiating := true |>).
Proof. destruct (se_registered s) eqn:?; by apply quiet_fields. Qed.

Lemma quiet_handleCap msg s : quiet P s (handleCap E msg s).
Proof.
  unfold handleCap, cap_req. cbv zeta. repeat quiet_step; try (by apply quiet_fields).
  all: eapply quiet_trans; [|apply quiet_foldl; intros; apply quiet_apply_cap]; first [apply quiet_neg|by apply quiet_fields].
Qed.

Lemma quiet_withBatch ty ps fn s : (∀ ref s, quiet P s (fn ref s)) → quiet P s (withBatch ty ps fn s).
Proof.
  intros Hf. unfold withBatch. cbv zeta. destruct (hasCap _ _); [|apply Hf].
  quiet_step. eapply quiet_trans; [|apply Hf]. quiet_step. by apply quiet_fields.
Qed.

Lemma quiet_sendNetworkList s : quiet P s (sendNetworkList E s).
Proof.
  unfold sendNetworkList. quiet_step; [|apply quiet_refl]. apply quiet_withBatch. intros ref s1.
  apply quiet_foldl. intros s2 n. unfold list_network, noteState. cbv zeta. quiet_step. by apply quiet_fields.
Qed.

Lemma quiet_welcome n s : quiet P s (welcome n s).
Proof. unfold welcome. auto with bnc. Qed.

Lemma quiet_sendControlBurst s : quiet P s (sendControlBurst E s).
Proof.
  unfold sendControlBurst. cbv zeta. quiet_step.
  - eapply quiet_trans; [|apply quiet_sendNetworkList]. repeat quiet_step. apply quiet_welcome.
  - repeat quiet_step. apply quiet_welcome.
Qed.

Lemma quiet_sendJoinBurst n s : quiet P s (sendJoinBurst E n s).
Proof.
  apply quiet_foldl. intros s1 ch. unfold join_burst_channel. cbv zeta. quiet_step; [apply quiet_refl|].
  repeat quiet_step.
Qed.

Lemma quiet_sendPlayback n s : quiet P s (sendPlayback opts E n s).
Proof.
  unfold sendPlayback. quiet_step; [|apply quiet_refl]. apply quiet_foldl. intros s1 ch.
  unfold playback_buffer. quiet_step; [|apply quiet_refl]. apply quiet_foldl. intros. apply quiet_swrites.
Qed.

Lemma quiet_sendAttachBurst s : quiet P s (sendAttachBurst opts E s).
Proof.
  cbv beta delta [sendAttachBurst]. quiet_let. quiet_let. quiet_let; [apply quiet_welcome|].
  quiet_let; [repeat quiet_step|]. quiet_let. quiet_let; [repeat quiet_step|]. quiet_let; [repeat quiet_step|].
  quiet_let.
  - repeat quiet_step; try apply quiet_notice.
    eapply quiet_trans; [apply quiet_sendJoinBurst|apply quiet_sendPlayback].
  - quiet_step; [apply quiet_sendNetworkList|apply quiet_refl].
Qed.

Lemma quiet_handleBouncerPreReg msg s : quiet P s (handleBouncerPreReg E msg s).
Proof. unfold handleBouncerPreReg. cbv zeta. repeat quiet_step; by apply quiet_fields. Qed.
End session.

(** ** Registration *)

(** The calls that reach an account's engine. *)
Definition engine_call (e : effect) : bool :=
  match e with SendInput _ _ _ | ListChannels _ _ | MarkRead _ _ _ => true | _ => false end.

Definition no_engine (e : effect) : Prop := engine_call e = false.

(** The calls to the registry. *)
Definition is_reg (e : effect) : Prop := match e with RegAdd _ _ | RegRemove _ _ => True | _ => False end.

#[export] Instance is_reg_dec e : Decision (is_reg e).
Proof. destruct e; apply _. Defined.

Definition inert (e : effect) : Prop := no_engine e ∧ ¬ is_reg e.

(** The place a session has in the registry: its account and network, while it
    is attached. *)
Definition place_of (s : session) : option (string * string) :=
  if se_registered s && negb (se_closed s) then Some (se_user_id s, se_network_id s) else None.

(** The first parameters of the [c] commands among a client's messages. *)
Definition said (h : list Message) (c : string) : list string :=
  omap (λ m, if String.eqb (bm_command m) c then msg_param m 0 else None) h.

(** A client that sent the messages [h] offers [secret] as [name]: by its last
    [PASS] and [USER], or by a SASL PLAIN response made, in order, of chunks it
    sent with [AUTHENTICATE]. *)
Definition offers (h : list Message) (name secret : string) : Prop :=
  (∃ pass user creds, last (said h "PASS") = Some pass ∧ last (said h "USER") = Some user ∧
     ParseCredentials pass user = Some creds ∧ pc_username creds = name ∧ pc_secret creds = secret) ∨
  (∃ chunks decoded authzid authcid, chunks `sublist_of` said h "AUTHENTICATE" ∧
     b64_decode (str_concat chunks) = Some decoded ∧ split_byte NUL decoded = [authzid; authcid; secret] ∧
     name = pl_username (UnmarshalLogin (if String.eqb authcid "" then authzid else authcid))).

(** What it takes to log in as [u] from [remote] having sent [h], as the world
    is in [E]: the hub grants [u] for the name and the secret the client offers,
    or, without accounts, the client offers the single user's password or is
    local. *)
Definition may_attach (opts : options) (E : env) (h : list Message) (remote u : string) : Prop :=
  if hub_auth_enabled (env_hub E) then ∃ name secret, offers h name secret ∧ hub_login (env_hub E) name secret = Some u
  else u = singleUserID E ∧
       if String.eqb (opt_password_hash opts) "" then isLoopback remote = true
       else ∃ name secret, offers h name secret ∧ secret ≠ ""%string ∧
              opt_bcrypt opts (opt_password_hash opts) secret = true.

(** What an unregistered session keeps is what its client said. *)
Definition recorded (h : list Message) (s : session) : Prop :=
  (se_pass s = ""%string ∨ last (said h "PASS") = Some (se_pass s)) ∧
  (se_user s = ""%string ∨ last (said h "USER") = Some (se_user s)) ∧
  ∃ chunks, chunks `sublist_of` said h "AUTHENTICATE" ∧ se_sasl_buf s = str_concat chunks.

Lemma said_app h m c : said (h ++ [m]) c = said h c ++ (if String.eqb (bm_command m) c then option_list (msg_param m 0) else []).
Proof. unfold said. rewrite omap_app. cbn. destruct (String.eqb _ c); [by destruct (msg_param m 0)|done]. Qed.

Lemma said_other h m c : bm_command m ≠ c → said (h ++ [m]) c = said h c.
Proof. intros Hc%String.eqb_neq. by rewrite said_app, Hc, app_nil_r. Qed.

Lemma said_none h m c : msg_param m 0 = None → said (h ++ [m]) c = said h c.
Proof. intros Hp. rewrite said_app, Hp. destruct (String.eqb _ c); by rewrite app_nil_r. Qed.

Lemma last_said h m c p : bm_command m = c → msg_param m 0 = Some p → last (said (h ++ [m]) c) = Some p.
Proof. intros <- Hp. rewrite said_app, String.eqb_refl, Hp. apply last_snoc. Qed.

Lemma recorded_creds h s s' : creds_of s' = creds_of s → recorded h s → recorded h s'.
Proof. unfold recorded, creds_of. intros [= -> -> ->]. done. Qed.

(** A message that is neither [PASS] nor [USER] leaves what is recorded true. *)
Lemma recorded_hear h m s : bm_command m ≠ "PASS"%string → bm_command m ≠ "USER"%string →
  recorded h s → recorded (h ++ [m]) s.
Proof.
  intros Hp Hu (H1 & H2 & chunks & H3 & H4). unfold recorded. rewrite (said_other _ _ _ Hp), (said_other _ _ _ Hu).
  split_and!; [done|done|]. exists chunks. split; [|done]. rewrite said_app. by apply sublist_inserts_r.
Qed.

(** What the account's tenant and networks were when the client was bound. *)
Definition bound_ok (E : env) (s : session) : Prop :=
  ∃ t u, hub_tenant (env_hub E) (se_user_id s) = Some t ∧ BouncerAllowed t = true ∧
    se_engine s = Some (tn_engine t) ∧ ev_snapshot (env_engine E (tn_engine t)) = Some u ∧
    if se_control s then se_network_id s = ""%string
    else ∃ n, n ∈ u_networks u ∧ net_id n = se_network_id s.

Section registration.
Context `{UnicodeTables, TimeParse} (opts : options) (G : string → string → Prop) (PE : env → Prop).

(** The invariant of a session whose client sent [h]: [G] says which accounts
    were granted from which address. *)
Definition auth_inv (h : list Message) (s : session) : Prop :=
  (se_sasl_user s ≠ ""%string → G (se_remote s) (se_sasl_user s)) ∧
  (se_registered s = true → G (se_remote s) (se_user_id s) ∧ ∃ E, PE E ∧ bound_ok E s) ∧
  (se_registered s = false → se_network_id s = ""%string ∧ se_control s = false ∧ recorded h s).

Lemma auth_inv_core h s s' : core_of s' = core_of s → auth_inv h s → auth_inv h s'.
Proof.
  unfold core_of, creds_of. intros [= H1 H2 H3 H4 H5 H6 H7 _ H8 H9 H10].
  unfold auth_inv, bound_ok, recorded. by rewrite H1, H2, H3, H4, H5, H6, H7, H8, H9, H10.
Qed.

(** Hearing a message that carries no credentials, or when it is too late. *)
Lemma auth_inv_hear h m s :
  se_registered s = true ∨ bm_command m ≠ "PASS"%string ∧ bm_command m ≠ "USER"%string →
  auth_inv h s → auth_inv (h ++ [m]) s.
Proof.
  intros Hm (H1 & H2 & H3). split_and!; [done|done|]. intros Hr. destruct (H3 Hr) as (H4 & H5 & H6).
  split_and!; [done|done|]. destruct Hm as [Hm|[]]; [congruence|by apply recorded_hear].
Qed.

Context (h : list Message).

(** What a step does to the session's place in the registry. *)
Definition regsum (s s' : session) (es : list effect) : Prop :=
  (filter is_reg es = [] ∧ place_of s' = place_of s) ∨
  (∃ u n, filter is_reg es = [RegAdd u n] ∧ place_of s = None ∧ place_of s' = Some (u, n)) ∨
  (filter is_reg es = [RegRemove (se_user_id s') (se_network_id s')] ∧ place_of s' = None ∧
   se_user_id s' = se_user_id s ∧ se_network_id s' = se_network_id s).

(** A step that keeps the session's place. *)
Definition still (s s' : session) : Prop :=
  (se_registered s', se_closed s', se_user_id s', se_network_id s') =
    (se_registered s, se_closed s, se_user_id s, se_network_id s) ∧
  ∃ es, se_effects s' = se_effects s ++ es ∧ Forall inert es.

Definition soft (s s' : session) : Prop := (auth_inv h s → auth_inv h s') ∧ still s s'.

(** A step of registration. *)
Definition moves (s s' : session) : Prop :=
  ∃ es, se_effects s' = se_effects s ++ es ∧ Forall no_engine es ∧ regsum s s' es.

Definition regstep (s s' : session) : Prop := (auth_inv h s → auth_inv h s') ∧ moves s s'.

Lemma soft_quiet s s' : quiet inert s s' → soft s s'.
Proof.
  intros [Hc He]. split; [by apply auth_inv_core|]. split; [|done].
  unfold core_of in Hc. by injection Hc as _ _ -> -> -> _ _ ->.
Qed.

Lemma soft_trans s1 s2 s3 : soft s1 s2 → soft s2 s3 → soft s1 s3.
Proof.
  intros (H1 & C1 & es1 & E1 & F1) (H2 & C2 & es2 & E2 & F2). split; [auto|]. split; [congruence|].
  exists (es1 ++ es2). split; [by rewrite E2, E1, app_assoc|]. by apply Forall_app.
Qed.

Lemma soft_refl s : soft s s.
Proof. apply soft_quiet, quiet_refl. Qed.

Lemma soft_fields s s' : core_of s' = core_of s → se_effects s' = se_effects s → soft s s'.
Proof. intros. by apply soft_quiet, quiet_fields. Qed.

Lemma inert_filter es : Forall inert es → filter is_reg es = [].
Proof. intros H1. apply filter_none. eapply Forall_impl; [exact H1|]. intros e [_ ?] ?. by destruct e. Qed.

Lemma still_place s s' : still s s' → place_of s' = place_of s ∧ se_user_id s' = se_user_id s ∧ se_network_id s' = se_network_id s.
Proof. intros (Hc & _). injection Hc as H1 H2 H3 H4. unfold place_of. by rewrite H1, H2, H3, H4. Qed.

Lemma moves_l s1 s2 s3 : still s1 s2 → moves s2 s3 → moves s1 s3.
Proof.
  intros Hs (es2 & E2 & F2 & R2). pose proof (still_place _ _ Hs) as (Hp & Hu & Hn).
  destruct Hs as (_ & es1 & E1 & F1).
  exists (es1 ++ es2). split_and!; [by rewrite E2, E1, app_assoc| |].
  - apply Forall_app. split; [by eapply Forall_impl; [exact F1|intros e [? _]]|done].
  - unfold regsum. rewrite filter_app, (inert_filter es1) by done. cbn [app]. rewrite <- Hp, <- Hu, <- Hn. done.
Qed.

Lemma moves_still s s' : still s s' → moves s s'.
Proof.
  intros Hs. pose proof (still_place _ _ Hs) as (Hp & _). destruct Hs as (_ & es & He & Hf).
  exists es. split_and!; [done|by eapply Forall_impl; [exact Hf|intros e [? _]]|].
  left. split; [by apply inert_filter|done].
Qed.

Lemma regstep_soft s s' : soft s s' → regstep s s'.
Proof. intros [H1 H2]. split; [done|by apply moves_still]. Qed.

Lemma regstep_l s1 s2 s3 : soft s1 s2 → regstep s2 s3 → regstep s1 s3.
Proof. intros [H1 H2] [H3 H4]. split; [auto|by eapply moves_l]. Qed.

Lemma regstep_r s1 s2 s3 : regstep s1 s2 → soft s2 s3 → regstep s1 s3.
Proof.
  intros (H2 & es2 & E2 & F2 & R2) [H1 Hs]. pose proof (still_place _ _ Hs) as (Hp & Hu & Hn).
  destruct Hs as (_ & es1 & E1 & F1). split; [auto|].
  exists (es2 ++ es1). split_and!; [by rewrite E1, E2, app_assoc| |].
  - apply Forall_app. split; [done|by eapply Forall_impl; [exact F1|intros e [? _]]].
  - unfold regsum. rewrite filter_app, (inert_filter es1), app_nil_r by done. by rewrite Hp, Hu, Hn.
Qed.

(** Ending a session takes it out of the registry. *)
Lemma regstep_ends s s' : ends inert s s' → regstep s s'.
Proof.
  intros (s1 & r & Hq & ->). eapply regstep_l; [by apply soft_quiet|].
  unfold destroy. destruct (se_closed s1) eqn:Hc; [apply regstep_soft, soft_refl|]. cbv zeta.
  split.
  - intros Hi. unfold auth_inv, bound_ok in *. by cbn.
  - exists [RegRemove (se_user_id s1) (se_network_id s1)]. split_and!; [done|by repeat constructor|].
    right; right. split_and!; [done| |done|done]. unfold place_of. cbn. by rewrite andb_false_r.
Qed.

Section step.
Context (E : env) (HE : PE E) (HG : ∀ remote u, may_attach opts E h remote u → G remote u).

Lemma single_user_ok name secret s : hub_auth_enabled (env_hub E) = false →
  (opt_password_hash opts ≠ ""%string → secret ≠ ""%string → offers h name secret) →
  singleUserAuthorized opts secret s = true → G (se_remote s) (singleUserID E).
Proof.
  intros Ha Ho Hs. apply HG. revert Hs. unfold singleUserAuthorized, may_attach. rewrite Ha.
  destruct (String.eqb_spec (opt_password_hash opts) ""); cbn [negb]; [by split|].
  intros [Hs%negb_true_iff%String.eqb_neq Hb]%andb_true_iff. eauto 10.
Qed.

Lemma sasl_login_ok name pw s u : offers h name pw → sasl_login opts E name pw s = Some u → G (se_remote s) u.
Proof.
  intros Ho. unfold sasl_login. destruct (hub_auth_enabled (env_hub E)) eqn:Ha.
  - intros Hl. apply HG. unfold may_attach. rewrite Ha. eauto.
  - destruct (singleUserAuthorized opts pw s) eqn:Hs; [|done]. intros [= <-]. by eapply single_user_ok.
Qed.

Lemma soft_swrite l s : soft s (swrite l s).
Proof. apply soft_quiet, quiet_swrite. Qed.

Lemma soft_pause s : soft s (add_effect AuthPause s).
Proof. apply soft_quiet, quiet_effect. split; [done|by intros []]. Qed.

(** The response is checked as it was sent. *)
Lemma soft_finishSasl chunks nick s : chunks `sublist_of` said h "AUTHENTICATE" →
  soft s (finishSaslPlain opts E (str_concat chunks) nick s).
Proof.
  intros Hsub. unfold finishSaslPlain, sasl_fail.
  destruct (b64_decode _) as [d|] eqn:Hd; [|by apply soft_swrite].
  destruct (split_byte NUL d) as [|a [|b [|c [|? ?]]]] eqn:Hsp; try by apply soft_swrite.
  cbv zeta. destruct (_ || _); [by apply soft_swrite|].
  destruct (sasl_login _ _ _ _ _) as [u|] eqn:Hl.
  - eapply soft_trans; [|apply soft_swrite]. eapply soft_trans; [|apply soft_swrite].
    split; [|split; [done|exists []; by rewrite app_nil_r]].
    intros (_ & H2 & H3). unfold auth_inv. cbn. split_and!; [|done|done].
    intros _. eapply (sasl_login_ok _ c s); [|done]. right. by exists chunks, d, a, b.
  - eapply soft_trans; [|apply soft_swrite]. apply soft_pause.
Qed.

(** Steps that change what is recorded, and stay where they are. *)
Lemma soft_recorded s s' : (recorded h s → recorded h s') → (core_of s').1 = (core_of s).1 →
  se_effects s' = se_effects s → soft s s'.
Proof.
  unfold core_of. cbn. intros Hr [= C1 C2 C3 C4 C5 C6 C7 C8] He. split.
  - unfold auth_inv, bound_ok. rewrite C1, C2, C3, C4, C5, C6, C7. naive_solver.
  - unfold still. rewrite C3, C4, C5, C8, He. split; [done|]. exists []. by rewrite app_nil_r.
Qed.

Lemma soft_clear s s' : creds_of s' = (se_pass s, se_user s, ""%string) → (core_of s').1 = (core_of s).1 →
  se_effects s' = se_effects s → soft s s'.
Proof.
  intros [= Hp Hu Hb]. apply soft_recorded. unfold recorded. rewrite Hp, Hu, Hb. intros (R1 & R2 & _).
  split_and!; [done..|]. exists []. split; [apply sublist_nil_l|done].
Qed.

Lemma soft_handleSasl h0 msg s : h = h0 ++ [msg] → bm_command msg = "AUTHENTICATE"%string → recorded h0 s →
  soft s (handleSasl opts E msg s).
Proof.
  intros Hh Hcmd (_ & _ & chunks & Hsub & Hbuf). unfold handleSasl, sasl_fail. cbv zeta.
  destruct (negb (hasCap CapSasl s)); [by apply soft_swrite|].
  destruct (String.eqb (se_sasl_mech s) "").
  { destruct (negb _).
    - eapply soft_trans; [|apply soft_swrite]. apply soft_swrite.
    - eapply soft_trans; [|apply soft_swrite]. by apply soft_clear. }
  destruct (String.eqb _ "*").
  { eapply soft_trans; [|apply soft_swrite]. by apply soft_clear. }
  set (s1 := if String.eqb _ "+" then s else _).
  assert (∃ chunks', chunks' `sublist_of` said h "AUTHENTICATE" ∧ se_sasl_buf s1 = str_concat chunks') as (chunks' & Hsub' & Hbuf').
  { rewrite Hh, said_app, Hcmd, String.eqb_refl. unfold s1. destruct (String.eqb (param_or msg 0 "") "+").
    - exists chunks. split; [by apply sublist_inserts_r|done].
    - exists (chunks ++ option_list (msg_param msg 0)). split; [by apply sublist_app|].
      cbn. rewrite Hbuf. unfold param_or. destruct (msg_param msg 0); cbn.
      + by rewrite str_concat_app, str_concat_cons, str_app_nil_r.
      + by rewrite app_nil_r, str_app_nil_r. }
  assert (Hs1 : soft s s1).
  { apply soft_recorded; try (unfold s1; by destruct (String.eqb _ _)). intros (R1 & R2 & _). split_and!.
    - unfold s1. by destruct (String.eqb _ _).
    - unfold s1. by destruct (String.eqb _ _).
    - eauto. }
  clearbody s1. eapply soft_trans; [exact Hs1|]. destruct (negb _ && _).
  { eapply soft_trans; [|apply soft_swrite]. by apply soft_clear. }
  destruct (negb _ && _); [apply soft_refl|]. rewrite Hbuf'.
  eapply soft_trans; [|by apply soft_finishSasl]. by apply soft_clear.
Qed.

Lemma regstep_fail r s : regstep s (failRegistration E r s).
Proof. apply regstep_ends. eapply ends_trans; [apply quiet_swrite|apply ends_close]. Qed.

(** Attaching: the fields, then [registry.add]. *)
Lemma regstep_attach u t us net ctl s s' :
  G (se_remote s) u → hub_tenant (env_hub E) u = Some t → BouncerAllowed t = true →
  ev_snapshot (env_engine E (tn_engine t)) = Some us →
  (if ctl : bool then net = ""%string else ∃ n, n ∈ u_networks us ∧ net_id n = net) →
  se_registered s = false → se_closed s = false →
  core_of s' = (se_remote s, se_sasl_user s, true, u, net, ctl, Some (tn_engine t), false, creds_of s) →
  se_effects s' = se_effects s →
  regstep s (add_effect (RegAdd (se_user_id s') (se_network_id s')) s').
Proof.
  intros Hm Ht Hb Hs Hn Hr Hcl Hc He. unfold core_of in Hc. injection Hc as C1 C2 C3 C4 C5 C6 C7 C8 _ _ _. split.
  - intros (H1 & _ & _). unfold auth_inv, bound_ok. cbn. rewrite C1, C2, C3, C4, C5, C6, C7.
    split_and!; [done| |done]. intros _. split; [exact Hm|]. exists E. split; [done|]. exists t, us. by split_and!.
  - exists [RegAdd (se_user_id s') (se_network_id s')]. split_and!; [cbn; by rewrite He|by repeat constructor|].
    right; left. exists (se_user_id s'), (se_network_id s'). unfold place_of. cbn. by rewrite Hr, C3, C8.
Qed.

Lemma find_in {A} (p : A → bool) l x : find p l = Some x → x ∈ l.
Proof. intros [Hin _]%find_some. by apply list_elem_of_In. Qed.

Lemma regstep_bind u t n us s :
  G (se_remote s) u → hub_tenant (env_hub E) u = Some t → BouncerAllowed t = true →
  ev_snapshot (env_engine E (tn_engine t)) = Some us → n ∈ u_networks us → se_control s = false →
  se_registered s = false → se_closed s = false →
  regstep s (bindNetwork opts E u t n s).
Proof.
  intros Hm Ht Hb Hs Hn Hctl Hr Hcl. unfold bindNetwork, noteState. cbv zeta.
  eapply regstep_r; [|apply soft_quiet, quiet_sendAttachBurst].
  eapply (regstep_attach u t us (net_id n) false); try done; [by exists n|]. unfold core_of. cbn. by rewrite Hctl, Hcl.
Qed.

Lemma regstep_control u t us s :
  G (se_remote s) u → hub_tenant (env_hub E) u = Some t → BouncerAllowed t = true →
  ev_snapshot (env_engine E (tn_engine t)) = Some us → se_network_id s = ""%string →
  se_registered s = false → se_closed s = false →
  regstep s (registerControl E u t s).
Proof.
  intros Hm Ht Hb Hs Hn Hr Hcl. unfold registerControl. cbv zeta.
  eapply regstep_r; [|apply soft_quiet, quiet_sendControlBurst].
  eapply (regstep_attach u t us "" true); try done. unfold core_of. cbn. by rewrite Hn, Hcl.
Qed.

Lemma regstep_completeAttach u sel s :
  G (se_remote s) u → se_network_id s = ""%string → se_control s = false →
  se_registered s = false → se_closed s = false →
  regstep s (completeAttach opts E u sel s).
Proof.
  intros Hm Hn Hc Hr Hcl. unfold completeAttach.
  destruct (hub_tenant (env_hub E) u) as [t|] eqn:Ht; [|apply regstep_fail].
  destruct (negb (BouncerAllowed t)) eqn:Hb; [apply regstep_fail|]. apply negb_false_iff in Hb.
  destruct (ev_snapshot _) as [us|] eqn:Hs; [|apply regstep_fail]. cbv zeta.
  destruct (_ && _); [by eapply regstep_control|]. case_bool_decide; [apply regstep_fail|].
  destruct (negb _).
  { destruct (find _ _) as [n|] eqn:Hf.
    - eapply regstep_bind; try done. by eapply find_in.
    - apply regstep_ends. eapply ends_trans; [apply quiet_swrite|apply ends_close]. }
  destruct (negb _).
  { destruct (find _ _) as [n|] eqn:Hf; [|apply regstep_fail]. eapply regstep_bind; try done. by eapply find_in. }
  destruct (u_networks us) as [|n [|n' ns]] eqn:Hus; [apply regstep_fail| |apply regstep_fail].
  eapply regstep_bind; try done. rewrite Hus. by left.
Qed.

(** The credentials of [PASS] and [USER] are those the client offers. *)
Lemma pass_offers s c : recorded h s → se_user s ≠ ""%string → se_pass s ≠ ""%string →
  ParseCredentials (se_pass s) (se_user s) = Some c → offers h (pc_username c) (pc_secret c).
Proof.
  intros ([?|Hp] & [?|Hu] & _) Hu0 Hp0 Hc; try done. left. exists (se_pass s), (se_user s), c. by split_and!.
Qed.

Lemma regstep_authenticate s : auth_inv h s → se_registered s = false → se_closed s = false → se_user s ≠ ""%string →
  regstep s (authenticate opts E s).
Proof.
  intros (H1 & _ & H3) Hr Hcl Hu. destruct (H3 Hr) as (Hn & Hc & Hrec). unfold authenticate.
  destruct (negb (String.eqb (se_sasl_user s) "")) eqn:Hsu.
  { apply negb_true_iff, String.eqb_neq in Hsu. cbv zeta. apply regstep_completeAttach; auto. }
  destruct (negb (hub_auth_enabled _)) eqn:Ha.
  { apply negb_true_iff in Ha. destruct (single_user_creds s) as [netSel secret] eqn:Hsc.
    destruct (negb (singleUserAuthorized _ _ _)) eqn:Hsa.
    - eapply regstep_l; [|apply regstep_fail]. apply soft_pause.
    - apply negb_false_iff in Hsa. apply regstep_completeAttach; try done.
      revert Hsc. unfold single_user_creds. destruct (String.eqb_spec (se_pass s) "") as [|Hp]; cbn [negb].
      + intros [= _ <-]. by eapply (single_user_ok "").
      + destruct (ParseCredentials _ _) as [c|] eqn:Hpc; intros [= _ <-]; [|by eapply (single_user_ok "")].
        apply (single_user_ok (pc_username c) (pc_secret c)); [done| |done]. intros _ _. by apply (pass_offers s). }
  apply negb_false_iff in Ha.
  destruct (String.eqb_spec (se_pass s) ""); [apply regstep_fail|].
  destruct (ParseCredentials _ _) as [c|] eqn:Hpc; [|apply regstep_fail].
  destruct (String.eqb (pc_username c) ""); [apply regstep_fail|].
  destruct (hub_login _ _ _) as [u|] eqn:Hl.
  - apply regstep_completeAttach; try done. apply HG. unfold may_attach. rewrite Ha.
    exists (pc_username c), (pc_secret c). split; [by eapply pass_offers|done].
  - eapply regstep_l; [|apply regstep_fail]. apply soft_pause.
Qed.

Lemma regstep_maybeFinish s : auth_inv h s → regstep s (maybeFinishRegistration opts E s).
Proof.
  intros Hi. unfold maybeFinishRegistration. destruct (se_registered s) eqn:Hr; cbn [orb].
  { apply regstep_soft, soft_refl. }
  destruct (se_closed s) eqn:Hcl; [apply regstep_soft, soft_refl|].
  destruct (String.eqb_spec (se_user s) "") as [|Hu].
  { rewrite orb_true_r. apply regstep_soft, soft_refl. }
  rewrite orb_false_r. destruct (_ || _); [apply regstep_soft, soft_refl|]. by apply regstep_authenticate.
Qed.

(** [PASS] and [USER] record their parameter. *)
Lemma recorded_pass h0 m s : h = h0 ++ [m] → bm_command m = "PASS"%string → recorded h0 s →
  recorded h (match msg_param m 0 with Some p => s <| se_pass := p |> | None => s end).
Proof.
  intros -> Hm Hrec. destruct (msg_param m 0) as [p|] eqn:Hp; [|unfold recorded in *; by rewrite !said_none].
  destruct Hrec as (H1 & H2 & H3). unfold recorded. rewrite (last_said h0 m "PASS" p Hm Hp), !said_other by (by rewrite Hm). auto.
Qed.

Lemma recorded_user h0 m s : h = h0 ++ [m] → bm_command m = "USER"%string → recorded h0 s →
  recorded h (match msg_param m 0 with Some p => s <| se_user := p |> | None => s end).
Proof.
  intros -> Hm Hrec. destruct (msg_param m 0) as [p|] eqn:Hp; [|unfold recorded in *; by rewrite !said_none].
  destruct Hrec as (H1 & H2 & H3). unfold recorded. rewrite (last_said h0 m "USER" p Hm Hp), !said_other by (by rewrite Hm). auto.
Qed.

Lemma auth_inv_recorded h0 s s' : se_registered s = false → recorded h s' →
  (core_of s').1 = (core_of s).1 → auth_inv h0 s → auth_inv h s'.
Proof.
  intros Hr Hrec Hc (H1 & _ & H3). unfold core_of in Hc. cbn in Hc. injection Hc as C1 C2 C3 C4 C5 C6 C7 C8.
  unfold auth_inv. rewrite C1, C2, C3, C4, C5, C6, Hr. destruct (H3 Hr) as (? & ? & _). by split_and!.
Qed.

(** A command before registration: its parameters are on record, and the
    session stays where it is. *)
Lemma pre_command_ok h0 msg s s' : h = h0 ++ [msg] → se_registered s = false → auth_inv h0 s →
  pre_command opts E msg s = Some s' → auth_inv h s' ∧ still s s'.
Proof.
  intros Hh Hr Hi. destruct Hi as (I1 & I2 & I3). destruct (I3 Hr) as (_ & _ & Hrec). assert (Hi : auth_inv h0 s) by done.
  assert (Hsoft : bm_command msg ≠ "PASS"%string → bm_command msg ≠ "USER"%string → ∀ t, soft s t → auth_inv h t ∧ still s t).
  { intros Hp Hu t [Ht1 Ht2]. split; [|done]. apply Ht1. rewrite Hh. apply auth_inv_hear; auto. }
  assert (Hrefl : still s s) by (split; [done|exists []; by rewrite app_nil_r]).
  unfold pre_command. cbv zeta. destruct (String.eqb_spec (bm_command msg) "CAP") as [Hm|_].
  { intros [= <-]. apply Hsoft; [by rewrite Hm..|]. apply soft_quiet, quiet_handleCap. }
  destruct (String.eqb_spec (bm_command msg) "PASS") as [Hm|Hp].
  { intros [= <-]. pose proof (recorded_pass h0 msg s Hh Hm Hrec) as Hrec'. split.
    - eapply auth_inv_recorded; [exact Hr|done| |exact Hi]. by destruct (msg_param msg 0).
    - by destruct (msg_param msg 0). }
  destruct (String.eqb_spec (bm_command msg) "NICK") as [Hm|_].
  { intros [= <-]. apply Hsoft; [by rewrite Hm..|]. destruct (msg_param msg 0); by apply soft_fields. }
  destruct (String.eqb_spec (bm_command msg) "USER") as [Hm|Hu].
  { intros [= <-]. pose proof (recorded_user h0 msg s Hh Hm Hrec) as Hrec'. split.
    - eapply auth_inv_recorded; [exact Hr| | |exact Hi].
      + destruct (msg_param msg 3); [|done]. by eapply recorded_creds.
      + by destruct (msg_param msg 0), (msg_param msg 3).
    - by destruct (msg_param msg 0), (msg_param msg 3). }
  specialize (Hsoft Hp Hu). destruct (String.eqb_spec (bm_command msg) "AUTHENTICATE") as [Hm|_].
  { intros [= <-]. apply Hsoft. by eapply soft_handleSasl. }
  repeat case_match; try done; intros [= <-]; apply Hsoft.
  - apply soft_quiet, quiet_handleBouncerPreReg.
  - apply soft_swrite.
  - apply soft_quiet, quiet_numeric.
Qed.

Lemma handlePreRegistration_ok h0 msg s : h = h0 ++ [msg] → se_registered s = false → auth_inv h0 s →
  let s' := handlePreRegistration opts E msg s in auth_inv h s' ∧ moves s s'.
Proof.
  intros Hh Hr Hi. unfold handlePreRegistration. destruct (pre_command opts E msg s) as [s'|] eqn:Hp.
  - destruct (pre_command_ok h0 msg s s' Hh Hr Hi Hp) as [Hi' Hs].
    destruct (regstep_maybeFinish s' Hi') as [Hf Hm]. split; [by apply Hf|by eapply moves_l].
  - assert (Hq : bm_command msg = "QUIT"%string).
    { revert Hp. unfold pre_command. cbv zeta. repeat case_match; try done. intros _. by apply String.eqb_eq. }
    destruct (regstep_ends s _ (ends_destroy inert "Client quit" s)) as [Hf Hm]. split; [|done].
    apply Hf. rewrite Hh. apply auth_inv_hear; [right; by rewrite Hq|done].
Qed.
End step.
End registration.

(** ** Commands of an attached client *)

(** The calls a session bound to network [n] may make. *)
Definition for_network (n : string) (e : effect) : Prop :=
  match e with
  | SendInput m _ _ | ListChannels m _ | MarkRead m _ _ => m = n
  | RegAdd _ _ | RegRemove _ _ => False
  | AuthPause => True
  end.

Section commands.
Context `{UnicodeTables, TimeParse} (opts : options) (E : env).

Lemma quiet_foldl_core {A} P (f : session → A → session) l s :
  (∀ s' a, core_of s' = core_of s → quiet P s' (f s' a)) → quiet P s (foldl f s l).
Proof.
  revert s. induction l as [|a l IH]; intros s Hf; [apply quiet_refl|]. cbn.
  pose proof (Hf s a eq_refl) as Ha. eapply quiet_trans; [exact Ha|]. apply IH. intros s' b Hs'. apply Hf.
  destruct Ha as [Hc _]. congruence.
Qed.

Section network.
Context (n : string).

Definition in_network (s : session) : Prop := se_network_id s = n.

Lemma in_network_core s s' : core_of s' = core_of s → in_network s → in_network s'.
Proof. unfold core_of, in_network. intros Hc. by injection Hc as _ _ _ _ -> _ _ _. Qed.

Lemma quiet_send_input t x s : in_network s → quiet (for_network n) s (send_input t x s).
Proof. intros Hn. by apply quiet_effect. Qed.

Lemma quiet_registerEcho P k t x s : quiet P s (registerEcho E k t x s).
Proof. by apply quiet_fields. Qed.

Lemma quiet_echo_send k t x t' x' s : in_network s →
  quiet (for_network n) s (send_input t' x' (registerEcho E k t x s)).
Proof. intros Hn. eapply quiet_trans; [apply quiet_registerEcho|]. by apply quiet_send_input. Qed.

Lemma quiet_handleClientMessage msg s : in_network s → quiet (for_network n) s (handleClientMessage E msg s).
Proof.
  intros Hn. unfold handleClientMessage. cbv zeta.
  destruct (String.eqb _ ""); [apply quiet_numeric|]. destruct (String.eqb _ ""); [apply quiet_numeric|].
  apply quiet_foldl_core. intros s' t Hc. assert (in_network s') by (by eapply in_network_core).
  unfold client_message_to. cbv zeta. repeat quiet_step; try (by apply quiet_echo_send).
Qed.

Lemma quiet_handle_topic msg s : in_network s → quiet (for_network n) s (handle_topic E msg s).
Proof.
  intros Hn. unfold handle_topic. destruct (msg_param msg 0) as [t|]; [|apply quiet_numeric].
  destruct (msg_param msg 1); [by apply quiet_send_input|]. destruct (_ ≫= _); [|apply quiet_refl].
  destruct (find _ _); [|apply quiet_refl]. unfold topic_reply. cbv zeta. repeat quiet_step.
Qed.

Lemma quiet_handleBouncer P msg s : quiet P s (handleBouncer E msg s).
Proof. unfold handleBouncer. cbv zeta. repeat quiet_step. apply quiet_sendNetworkList. Qed.

Lemma quiet_handleChatHistory P msg s : quiet P s (handleChatHistory E msg s).
Proof.
  unfold handleChatHistory. cbv zeta. quiet_step; [|apply quiet_swrite].
  destruct (msg_param msg 0); [|apply quiet_numeric]. destruct (String.eqb _ "TARGETS").
  { apply quiet_withBatch. intros ref s1. cbv zeta. destruct (_ ≫= _); [apply quiet_swrites|apply quiet_refl]. }
  destruct (negb _); [apply quiet_swrite|]. destruct (String.eqb (param_or msg 1 "") ""); [apply quiet_numeric|].
  destruct (history_limit _); [|apply quiet_swrite]. quiet_step; [|apply quiet_swrite].
  apply quiet_withBatch. intros ref s1. apply quiet_foldl. intros. apply quiet_swrites.
Qed.

Lemma quiet_handleMarkRead msg s : in_network s → quiet (for_network n) s (handleMarkRead E msg s).
Proof.
  intros Hn. unfold handleMarkRead. cbv zeta. destruct (_ || _); [apply quiet_refl|].
  destruct (String.eqb _ ""); [apply quiet_numeric|]. by apply quiet_effect.
Qed.

Lemma quiet_engine_command msg s : in_network s → quiet (for_network n) s (engine_command E msg s).
Proof.
  intros Hn. unfold engine_command. cbv zeta.
  destruct (existsb _ _); [by apply quiet_handleClientMessage|].
  destruct (String.eqb _ "JOIN").
  { destruct (msg_param msg 0); [|apply quiet_numeric]. destruct (String.eqb _ "0"); [by apply quiet_send_input|].
    apply quiet_foldl_core. intros s' t Hc. assert (in_network s') by (by eapply in_network_core).
    unfold join_one. cbv zeta. destruct (String.eqb _ ""); [apply quiet_refl|by apply quiet_send_input]. }
  destruct (String.eqb _ "PART").
  { destruct (msg_param msg 0); [|apply quiet_numeric].
    apply quiet_foldl_core. intros s' t Hc. assert (in_network s') by (by eapply in_network_core).
    unfold part_one. cbv zeta. destruct (String.eqb _ ""); [apply quiet_refl|by apply quiet_send_input]. }
  destruct (String.eqb _ "TOPIC"); [by apply quiet_handle_topic|].
  destruct (String.eqb _ "AWAY"); [destruct (String.eqb _ ""); by apply quiet_send_input|].
  destruct (String.eqb _ "NICK"); [destruct (String.eqb _ ""); [apply quiet_numeric|by apply quiet_send_input]|].
  destruct (String.eqb _ "LIST"); [by apply quiet_effect|].
  destruct (existsb _ _); by apply quiet_send_input.
Qed.

Lemma handleCommand_ok msg s : in_network s →
  let s' := handleCommand E msg s in
  (se_control s = false ∧ quiet (for_network n) s s') ∨ quiet inert s s' ∨ ends inert s s'.
Proof.
  intros Hn s'. unfold s', handleCommand. cbv zeta.
  destruct (String.eqb _ "PING"); [right; left; apply quiet_swrite|].
  destruct (String.eqb _ "PONG"); [right; left; apply quiet_refl|].
  destruct (String.eqb _ "QUIT"); [right; right; apply ends_destroy|].
  destruct (String.eqb _ "CAP"); [right; left; apply quiet_handleCap|].
  destruct (String.eqb _ "USER"); [right; left; apply quiet_numeric|].
  destruct (String.eqb _ "AUTHENTICATE"); [right; left; apply quiet_swrite|].
  destruct (String.eqb _ "BOUNCER"); [right; left; apply quiet_handleBouncer|].
  destruct (String.eqb _ "CHATHISTORY"); [right; left; apply quiet_handleChatHistory|].
  destruct (String.eqb _ "MARKREAD").
  { destruct (se_control s) eqn:Hc; [right; left|left; split; [done|by apply quiet_handleMarkRead]].
    unfold handleMarkRead. rewrite Hc. apply quiet_refl. }
  destruct (se_control s) eqn:Hc; [right; left; apply quiet_notice|].
  case_bool_decide; [right; left; apply quiet_notice|].
  left. split; [done|]. by apply quiet_engine_command.
Qed.
End network.
End commands.

(** ** Every step of a session *)

Section steps.
Context `{UnicodeTables, TimeParse} (opts : options) (G : string → string → Prop) (PE : env → Prop) (h : list Message).

Definition who_of (s : session) :=
  (se_remote s, se_registered s, se_user_id s, se_network_id s, se_control s, se_engine s).

(** An engine call of an attached client, for its own network. *)
Definition confined (s : session) (e : effect) : Prop :=
  engine_call e = true → se_registered s = true ∧ se_control s = false ∧ for_network (se_network_id s) e.

(** What every method of a session guarantees. *)
Definition acts (s s' : session) : Prop :=
  (se_registered s = true → who_of s' = who_of s) ∧
  ∃ es, se_effects s' = se_effects s ++ es ∧ Forall (confined s') es ∧ regsum s s' es.

Definition sstep (s s' : session) : Prop := (auth_inv G PE h s → auth_inv G PE h s') ∧ acts s s'.

Lemma no_engine_confined s es : Forall no_engine es → Forall (confined s) es.
Proof. intros Hes. eapply Forall_impl; [exact Hes|]. unfold confined, no_engine. intros e ->. done. Qed.

Lemma core_who s s' : core_of s' = core_of s → who_of s' = who_of s ∧ place_of s' = place_of s.
Proof.
  unfold core_of, who_of, place_of. intros Hc. injection Hc as -> H2 -> -> -> -> -> -> _. done.
Qed.

Lemma sstep_quiet s s' : quiet inert s s' → sstep s s'.
Proof.
  intros [Hc (es & He & Hf)]. destruct (core_who _ _ Hc) as [Hw Hp].
  split; [by apply auth_inv_core|]. split; [done|]. exists es. split_and!; [done| |].
  - apply no_engine_confined. by eapply Forall_impl; [exact Hf|intros e [? _]].
  - left. split; [by apply inert_filter|done].
Qed.

Lemma sstep_ends s s' : ends inert s s' → sstep s s'.
Proof.
  intros Hs. pose proof (regstep_ends G PE h s s' Hs) as (H1 & es & He & Hf & Hr).
  split; [done|]. split; [|exists es; split_and!; [done|by apply no_engine_confined|done]].
  intros _. destruct Hs as (s1 & r & [Hc _] & ->). apply core_who in Hc as [<- _].
  unfold destroy. by destruct (se_closed s1).
Qed.

Lemma sstep_network s s' :
  se_registered s = true → se_control s = false → quiet (for_network (se_network_id s)) s s' → sstep s s'.
Proof.
  intros Hr Hct [Hc (es & He & Hf)]. destruct (core_who _ _ Hc) as [Hw Hp].
  split; [by apply auth_inv_core|]. split; [done|]. unfold who_of in Hw. injection Hw as W1 W2 W3 W4 W5 W6.
  exists es. split_and!; [done| |].
  - eapply Forall_impl; [exact Hf|]. intros e Hfe _. by rewrite W2, W4, W5.
  - left. split; [|done]. apply filter_none. eapply Forall_impl; [exact Hf|]. intros e Hfe Hre. by destruct e.
Qed.

Lemma regsum_same_r s s1 s' es : place_of s1 = place_of s → se_user_id s1 = se_user_id s →
  se_network_id s1 = se_network_id s → regsum s1 s' es → regsum s s' es.
Proof. unfold regsum. by intros -> -> ->. Qed.

Lemma acts_touch s s1 s' : core_of s1 = core_of s → se_effects s1 = se_effects s → acts s1 s' → acts s s'.
Proof.
  intros Hc He (H2 & es & E & F & R). destruct (core_who _ _ Hc) as [Hw Hp].
  unfold who_of in Hw. injection Hw as W1 W2 W3 W4 W5 W6. split.
  - intros Hr. rewrite H2 by congruence. unfold who_of. congruence.
  - exists es. split_and!; [congruence|done|]. by eapply regsum_same_r.
Qed.

(** A handler, of a client that had sent [h0] and has now sent [h]. *)
Definition client_step_ok (h0 : list Message) (f : session → session) : Prop :=
  ∀ s, auth_inv G PE h0 s → auth_inv G PE h (f s) ∧ acts s (f s).

Lemma sstep_ok f : (∀ s, sstep s (f s)) → client_step_ok h f.
Proof. intros Hf s Hi. destruct (Hf s) as [H1 H2]. auto. Qed.

(** A line: its message is heard, then handled. *)
Lemma serve_line_ok E raw h0 : PE E → (∀ remote u, may_attach opts E h remote u → G remote u) →
  h = h0 ++ option_list (ParseLine raw) → client_step_ok h0 (serve_line opts E raw).
Proof.
  intros HE HG Hh s Hi. unfold serve_line. cbv zeta.
  set (s1 := s <| se_last_activity := _ |>). assert (Hi1 : auth_inv G PE h0 s1) by (by eapply auth_inv_core).
  match goal with |- auth_inv _ _ _ ?s' ∧ _ => enough (auth_inv G PE h s' ∧ acts s1 s') as [? ?] by (split; [done|by apply (acts_touch s s1)]) end.
  clearbody s1. destruct (ParseLine raw) as [msg|]; cbn [option_list] in Hh.
  2: { rewrite Hh, app_nil_r. split; [done|]. apply sstep_quiet, quiet_refl. }
  destruct (se_registered s1) eqn:Hr.
  - assert (Hi2 : auth_inv G PE h s1) by (rewrite Hh; apply auth_inv_hear; [by left|done]).
    destruct (handleCommand_ok E (se_network_id s1) msg s1 eq_refl) as [[Hc Hq]|[Hq|Hq]];
      [apply sstep_network in Hq as [? ?]|apply sstep_quiet in Hq as [? ?]|apply sstep_ends in Hq as [? ?]]; auto.
  - pose proof (handlePreRegistration_ok opts G PE h E HE HG h0 msg s1 Hh Hr Hi1) as (H1 & es & He & Hf & Hs).
    split_and!; [done|split; [congruence|]]. exists es. split_and!; [done|by apply no_engine_confined|done].
Qed.

Lemma close_ok r : client_step_ok h (closeWithError r).
Proof. apply sstep_ok. intros s. apply sstep_ends, ends_close. Qed.

Lemma destroy_ok r : client_step_ok h (destroy r).
Proof. apply sstep_ok. intros s. apply sstep_ends, ends_destroy. Qed.

Lemma timeout_ok r : client_step_ok h (λ s, if se_reg_timer s then closeWithError r s else s).
Proof.
  apply sstep_ok. intros s. destruct (se_reg_timer s); [apply sstep_ends, ends_close|apply sstep_quiet, quiet_refl].
Qed.

Lemma heartbeat_ok now : client_step_ok h (heartbeat now).
Proof.
  apply sstep_ok. intros s. unfold heartbeat. cbv zeta. destruct (se_closed s); [apply sstep_quiet, quiet_refl|].
  destruct (_ <? _); [apply sstep_ends, ends_close|]. destruct (_ <? _); apply sstep_quiet; [apply quiet_push|apply quiet_refl].
Qed.

Lemma flush_ok : client_step_ok h (λ s, s <| se_out := [] |>).
Proof. apply sstep_ok. intros s. by apply sstep_quiet, quiet_fields. Qed.

Lemma client_task_ok : client_step_ok h run_session_task.
Proof.
  apply sstep_ok. intros s. unfold run_session_task. destruct (se_tasks s) as [|[r] ts]; [apply sstep_quiet, quiet_refl|].
  apply sstep_ends. eapply ends_trans; [|apply ends_destroy]. by apply quiet_fields.
Qed.

Lemma quiet_ok f : (∀ s, quiet inert s (f s)) → client_step_ok h f.
Proof. intros Hq. apply sstep_ok. intros s. by apply sstep_quiet. Qed.

Lemma quiet_print P E m s : quiet P s (print_to E m s).
Proof.
  unfold print_to. destruct (negb (live s)); [apply quiet_refl|].
  assert (Ho : ∀ k t x, quiet P s (isOwnEcho k t x s).1).
  { intros k t x. unfold isOwnEcho. cbv zeta. case_match; [case_match; by apply quiet_fields|apply quiet_refl]. }
  specialize (Ho (msg_kind_of m) (msg_buffer m) (msg_text m)).
  destruct (msg_self m).
  - destruct (isOwnEcho _ _ _ s) as [s1 own]. cbn in Ho. destruct (_ && _); [done|].
    eapply quiet_trans; [exact Ho|apply quiet_pushes].
  - cbn. apply quiet_pushes.
Qed.

Lemma quiet_network_changed P E n s : quiet P s (network_changed_to E n s).
Proof.
  unfold network_changed_to, stateChanged. cbv zeta. quiet_step; [apply quiet_refl|].
  quiet_step; [by apply quiet_fields|].
  set (s1 := s <| se_last_state ::= _ |>). assert (H1 : quiet P s s1) by (by apply quiet_fields). clearbody s1.
  eapply quiet_trans; [exact H1|].
  set (s2 := if hasCap _ s1 then _ else s1). assert (H2 : quiet P s1 s2) by (unfold s2; repeat quiet_step). clearbody s2.
  eapply quiet_trans; [exact H2|]. repeat quiet_step.
Qed.

Lemma quiet_channel_list P E items s : quiet P s (channel_list_to E items s).
Proof. unfold channel_list_to. cbv zeta. repeat quiet_step. Qed.

Lemma quiet_tagmsg P tags nick buffer s : quiet P s (tagmsg_to tags nick buffer s).
Proof. unfold tagmsg_to. repeat quiet_step. Qed.

Lemma quiet_read_marker P E buffer ts s : quiet P s (read_marker_to E buffer ts s).
Proof. unfold read_marker_to. repeat quiet_step. Qed.
End steps.

(** ** The registry *)

Lemma set_add_spec k x m k' y :
  y ∈ default ∅ (set_add k x m !! k') ↔ (k' = k ∧ y = x) ∨ y ∈ (default ∅ (m !! k') : gset bsid).
Proof.
  unfold set_add. destruct (decide (k' = k)) as [->|Hne].
  - rewrite lookup_insert_eq. cbn. set_solver.
  - rewrite lookup_insert_ne by done. naive_solver.
Qed.

Lemma set_del_spec k x m k' y :
  y ∈ default ∅ (set_del k x m !! k') ↔ y ∈ (default ∅ (m !! k') : gset bsid) ∧ ¬ (k' = k ∧ y = x).
Proof.
  unfold set_del. destruct (m !! k) as [xs|] eqn:Em.
  - cbv zeta. case_bool_decide as Hx.
    + destruct (decide (k' = k)) as [->|Hne].
      * rewrite lookup_delete_eq, Em. cbn. set_solver.
      * rewrite lookup_delete_ne by done. naive_solver.
    + destruct (decide (k' = k)) as [->|Hne].
      * rewrite lookup_insert_eq, Em. cbn. set_solver.
      * rewrite lookup_insert_ne by done. naive_solver.
  - destruct (decide (k' = k)) as [->|Hne]; [rewrite Em; cbn; set_solver|naive_solver].
Qed.

(** The place of a session of the server. *)
Definition place (b : bouncer) (x : bsid) : option (string * string) := b_sessions b !! x ≫= place_of.

(** The registry lists exactly the attached sessions. *)
Definition reg_ok (b : bouncer) : Prop :=
  (∀ u x, x ∈ default ∅ (b_by_user b !! u) ↔ ∃ n, place b x = Some (u, n) ∧ u ≠ ""%string) ∧
  (∀ k x, x ∈ default ∅ (b_by_user_net b !! k) ↔
     ∃ u n, place b x = Some (u, n) ∧ u ≠ ""%string ∧ n ≠ ""%string ∧ k = user_net_key u n).

(** Registry updates, as functions of the two indexes alone. *)
Definition reg_index (b : bouncer) := (b_by_user b, b_by_user_net b).

Definition reg_effect (x : bsid) (b : bouncer) (e : effect) : bouncer :=
  match e with RegAdd u n => reg_add x u n b | RegRemove u n => reg_remove x u n b | _ => b end.

Lemma apply_effects_sessions x es b : b_sessions (foldl (apply_effect x) b es) = b_sessions b ∧
  b_next (foldl (apply_effect x) b es) = b_next b.
Proof.
  revert b. induction es as [|e es IH]; intros b; [done|]. cbn. destruct (IH (apply_effect x b e)) as [-> ->].
  destruct e; cbn; try done; unfold reg_add, reg_remove; cbv zeta; repeat case_match; done.
Qed.

Lemma reg_index_add x u n b b' : reg_index b = reg_index b' → reg_index (reg_add x u n b) = reg_index (reg_add x u n b').
Proof.
  unfold reg_index. intros [= H1 H2]. unfold reg_add. cbv zeta.
  destruct (String.eqb u ""); [cbn; congruence|]. destruct (String.eqb n ""); cbn; congruence.
Qed.

Lemma reg_index_remove x u n b b' : reg_index b = reg_index b' → reg_index (reg_remove x u n b) = reg_index (reg_remove x u n b').
Proof.
  unfold reg_index. intros [= H1 H2]. unfold reg_remove. cbv zeta.
  destruct (String.eqb u ""); [cbn; congruence|]. destruct (String.eqb n ""); cbn; congruence.
Qed.

Lemma apply_effects_index x es b b' : reg_index b = reg_index b' →
  reg_index (foldl (apply_effect x) b es) = reg_index (foldl (reg_effect x) b' (filter is_reg es)).
Proof.
  revert b b'. induction es as [|e es IH]; intros b b' Hb; [done|]. cbn [foldl].
  rewrite filter_cons. destruct e; cbn [apply_effect]; case_decide as Hr; cbn in Hr; try done; cbn [foldl reg_effect];
    apply IH; try done; by (apply reg_index_add || apply reg_index_remove).
Qed.

Lemma apply_effects_log x es b y e :
  (y, e) ∈ b_log (foldl (apply_effect x) b es) → (y, e) ∈ b_log b ∨ (y = x ∧ e ∈ es).
Proof.
  revert b. induction es as [|e' es IH]; intros b Hin; [by left|]. cbn in Hin. apply IH in Hin as [Hin|[-> Hin]].
  - destruct e'; cbn in Hin; try (apply elem_of_app in Hin as [Hin|[= -> ->]%list_elem_of_singleton]; [by left|right; split; [done|by left]]).
    all: left; revert Hin; unfold reg_add, reg_remove; cbv zeta; repeat case_match; done.
  - right. split; [done|by right].
Qed.

Lemma apply_effects_log_mono x es b ye : ye ∈ b_log b → ye ∈ b_log (foldl (apply_effect x) b es).
Proof.
  revert b. induction es as [|e' es IH]; intros b Hin; [done|]. cbn. apply IH.
  destruct e'; cbn; try (apply elem_of_app; by left).
  all: unfold reg_add, reg_remove; cbv zeta; repeat case_match; done.
Qed.

(** Adding and removing, on what the indexes say. *)
Lemma reg_add_index x u n b : reg_index (reg_add x u n b) =
  (if String.eqb u "" then b_by_user b else set_add u x (b_by_user b),
   if String.eqb u "" || String.eqb n "" then b_by_user_net b else set_add (user_net_key u n) x (b_by_user_net b)).
Proof. unfold reg_index, reg_add. cbv zeta. destruct (String.eqb u ""); [done|]. by destruct (String.eqb n ""). Qed.

Lemma reg_remove_index x u n b : reg_index (reg_remove x u n b) =
  (if String.eqb u "" then b_by_user b else set_del u x (b_by_user b),
   if String.eqb u "" || String.eqb n "" then b_by_user_net b else set_del (user_net_key u n) x (b_by_user_net b)).
Proof. unfold reg_index, reg_remove. cbv zeta. destruct (String.eqb u ""); [done|]. by destruct (String.eqb n ""). Qed.

(** [reg_ok] of indexes and places given separately. *)
Definition reg_ok_at (idx : gmap string (gset bsid) * gmap string (gset bsid)) (pl : bsid → option (string * string)) : Prop :=
  (∀ u x, x ∈ default ∅ (idx.1 !! u) ↔ ∃ n, pl x = Some (u, n) ∧ u ≠ ""%string) ∧
  (∀ k x, x ∈ default ∅ (idx.2 !! k) ↔ ∃ u n, pl x = Some (u, n) ∧ u ≠ ""%string ∧ n ≠ ""%string ∧ k = user_net_key u n).

Definition set_place (x : bsid) (p : option (string * string)) (pl : bsid → option (string * string)) : bsid → option (string * string) :=
  λ y, if decide (y = x) then p else pl y.

Lemma reg_ok_ext idx pl pl' : (∀ x, pl x = pl' x) → reg_ok_at idx pl → reg_ok_at idx pl'.
Proof. intros He [H1 H2]. split; intros; [rewrite H1|rewrite H2]; by setoid_rewrite He. Qed.

Lemma reg_ok_add x u n b pl : reg_ok_at (reg_index b) pl → pl x = None →
  reg_ok_at (reg_index (reg_add x u n b)) (set_place x (Some (u, n)) pl).
Proof.
  intros [H1 H2] Hx. rewrite reg_add_index. unfold set_place. split; cbn [fst snd].
  - intros v y. destruct (String.eqb_spec u "") as [->|Hu].
    + rewrite (H1 v y). case_decide as Hy; [subst y; rewrite Hx|done]. naive_solver.
    + rewrite set_add_spec, (H1 v y). case_decide as Hy; [subst y; rewrite Hx|]; naive_solver.
  - intros k y. destruct (String.eqb_spec u "") as [->|Hu]; cbn [orb].
    + rewrite (H2 k y). case_decide as Hy; [subst y; rewrite Hx|done]. naive_solver.
    + destruct (String.eqb_spec n "") as [->|Hn].
      * rewrite (H2 k y). case_decide as Hy; [subst y; rewrite Hx|done]. naive_solver.
      * rewrite set_add_spec, (H2 k y). case_decide as Hy; [subst y; rewrite Hx|]; naive_solver.
Qed.

Lemma reg_ok_remove x u n b pl : reg_ok_at (reg_index b) pl → pl x = None ∨ pl x = Some (u, n) →
  reg_ok_at (reg_index (reg_remove x u n b)) (set_place x None pl).
Proof.
  intros [H1 H2] Hx. rewrite reg_remove_index. unfold set_place. split; cbn [fst snd].
  - intros v y. destruct (String.eqb_spec u "") as [->|Hu].
    + rewrite (H1 v y). case_decide as Hy; [subst y|done]. destruct Hx as [->| ->]; naive_solver.
    + rewrite set_del_spec, (H1 v y). case_decide as Hy; [subst y; destruct Hx as [->| ->]|]; naive_solver.
  - intros k y. destruct (String.eqb_spec u "") as [->|Hu]; cbn [orb].
    + rewrite (H2 k y). case_decide as Hy; [subst y|done]. destruct Hx as [->| ->]; naive_solver.
    + destruct (String.eqb_spec n "") as [->|Hn].
      * rewrite (H2 k y). case_decide as Hy; [subst y|done]. destruct Hx as [->| ->]; naive_solver.
      * rewrite set_del_spec, (H2 k y). case_decide as Hy; [subst y; destruct Hx as [->| ->]|]; naive_solver.
Qed.

(** ** Runs of the server *)

Section server.
Context `{UnicodeTables, TimeParse} (opts : options) (G : bsid → string → string → Prop) (PE : env → Prop).

(** The server's invariant, when each client [x] has sent [h x]. *)
Record server_ok (h : bsid → list Message) (b : bouncer) : Prop := {
  so_sessions : ∀ x s, b_sessions b !! x = Some s → auth_inv (G x) PE (h x) s ∧ se_effects s = [];
  so_next : ∀ x, is_Some (b_sessions b !! x) → (x < b_next b)%nat;
  so_log : ∀ x e, (x, e) ∈ b_log b → engine_call e = true → ∃ s, b_sessions b !! x = Some s ∧ confined s e;
  so_reg : reg_ok_at (reg_index b) (place b);
}.

Lemma server_ok_new h : server_ok h new_bouncer.
Proof.
  split.
  - intros x s Hs. cbn in Hs. by rewrite lookup_empty in Hs.
  - intros x [s Hs]. cbn in Hs. by rewrite lookup_empty in Hs.
  - intros x e Hin. by apply not_elem_of_nil in Hin.
  - split; intros; cbn; rewrite lookup_empty; cbn; unfold place; cbn; rewrite lookup_empty; cbn; set_solver.
Qed.

Lemma on_client_lookup x f b y :
  b_sessions (on_client x f b) !! y =
  if decide (y = x) then (λ s, f s <| se_effects := [] |>) <$> b_sessions b !! x else b_sessions b !! y.
Proof.
  unfold on_client. destruct (b_sessions b !! x) as [s|] eqn:Hs.
  - cbv zeta. rewrite (proj1 (apply_effects_sessions _ _ _)). cbn.
    case_decide as Hy; [subst y; by rewrite lookup_insert_eq|by rewrite lookup_insert_ne].
  - case_decide as Hy; [by subst y|done].
Qed.

Lemma on_client_next x f b : b_next (on_client x f b) = b_next b.
Proof.
  unfold on_client. destruct (b_sessions b !! x); [|done]. cbv zeta. by rewrite (proj2 (apply_effects_sessions _ _ _)).
Qed.

Lemma confined_who s s' e : who_of s' = who_of s → confined s e → confined s' e.
Proof. unfold who_of, confined. intros Hw. by injection Hw as _ -> _ -> -> _. Qed.

(** The registry after a step of one session. *)
Lemma on_client_reg x s s' es b :
  reg_ok_at (reg_index b) (place b) → b_sessions b !! x = Some s → regsum s s' es →
  reg_ok_at (reg_index (foldl (reg_effect x) b (filter is_reg es))) (set_place x (place_of s') (place b)).
Proof.
  intros Hreg Hx Hsum. assert (Hpx : place b x = place_of s) by (unfold place; by rewrite Hx).
  destruct Hsum as [[-> Hp]|[(u & n & -> & Hp & Hp')|(-> & Hp & Hu & Hn)]]; cbn [foldl reg_effect].
  - eapply reg_ok_ext; [|exact Hreg]. intros y. unfold set_place. case_decide; [subst y; congruence|done].
  - rewrite Hp'. apply reg_ok_add; [done|congruence].
  - rewrite Hp. apply reg_ok_remove; [done|]. rewrite Hpx, Hu, Hn. unfold place_of.
    destruct (_ && _); [by right|by left].
Qed.

Lemma on_client_ok h h' x f b : client_step_ok (G x) PE (h' x) (h x) f → (∀ y, y ≠ x → h' y = h y) →
  server_ok h b → server_ok h' (on_client x f b).
Proof.
  intros Hf Hh Hb. destruct (b_sessions b !! x) as [s|] eqn:Hx.
  2: { unfold on_client. rewrite Hx. split; [|apply Hb..]. intros y t Ht. rewrite Hh by congruence. by apply (so_sessions _ _ Hb). }
  destruct (so_sessions _ _ Hb x s Hx) as [Hi He]. pose proof (Hf s Hi) as (F1 & F2 & es & E & F & R).
  rewrite He in E. cbn in E.
  assert (Hlook : ∀ y, b_sessions (on_client x f b) !! y =
    if decide (y = x) then Some (f s <| se_effects := [] |>) else b_sessions b !! y).
  { intros y. rewrite on_client_lookup. case_decide; [by rewrite Hx|done]. }
  split.
  - intros y t. rewrite Hlook. case_decide as Hy; [|rewrite Hh by done; apply (so_sessions _ _ Hb)]. intros [= <-].
    subst y. split; [|done]. by eapply auth_inv_core; [|exact F1].
  - intros y. rewrite Hlook, on_client_next. case_decide; [subst y|apply (so_next _ _ Hb)].
    intros _. apply (so_next _ _ Hb). eauto.
  - intros y e. setoid_rewrite Hlook. unfold on_client. rewrite Hx. cbv zeta. intros Hin Hc.
    apply apply_effects_log in Hin as [Hin|[-> Hin]].
    + destruct (so_log _ _ Hb y e Hin Hc) as (t & Ht & Hcon). case_decide; [subst y|eauto].
      eexists. split; [done|]. rewrite Hx in Ht. injection Ht as <-.
      destruct (se_registered s) eqn:Hr.
      * eapply confined_who; [|exact Hcon]. by apply F2.
      * destruct (Hcon Hc) as (? & _). congruence.
    + rewrite E in Hin. rewrite decide_True by done. eexists. split; [done|].
      rewrite Forall_forall in F. by apply F.
  - assert (Hidx : reg_index (on_client x f b) = reg_index (foldl (reg_effect x) b (filter is_reg es))).
    { unfold on_client. rewrite Hx, E. by apply apply_effects_index. }
    rewrite Hidx. eapply reg_ok_ext; [|exact (on_client_reg x s (f s) es b (so_reg _ _ Hb) Hx R)].
    intros y. unfold set_place, place. rewrite Hlook. by case_decide.
Qed.

Lemma on_clients_ok h xs f b : (∀ x, client_step_ok (G x) PE (h x) (h x) f) → server_ok h b → server_ok h (on_clients xs f b).
Proof.
  intros Hf. unfold on_clients. revert b. induction xs as [|x xs IH]; intros b Hb; [done|]. cbn.
  apply IH. by apply (on_client_ok h).
Qed.

Lemma accept_ok h remote now b : server_ok h b → server_ok h
  (b <| b_sessions ::= <[b_next b := newSession remote now]> |> <| b_next ::= S |>).
Proof.
  intros Hb. assert (Hfresh : b_sessions b !! b_next b = None).
  { destruct (b_sessions b !! b_next b) eqn:Hn; [|done]. assert (b_next b < b_next b)%nat; [|lia].
    apply (so_next _ _ Hb). by rewrite Hn. }
  split; cbn.
  - intros x s [[<- <-]|[_ Hs]]%lookup_insert_Some; [|by eapply (so_sessions _ _ Hb)]. split; [|done].
    unfold auth_inv. cbn. split_and!; [done|done|]. intros _. split_and!; [done|done|].
    unfold recorded. cbn. split_and!; [by left|by left|]. exists []. split; [apply sublist_nil_l|done].
  - intros x Hx. destruct (decide (b_next b = x)) as [<-|Hne]; [lia|]. rewrite lookup_insert_ne in Hx by done.
    pose proof (so_next _ _ Hb x Hx). lia.
  - intros x e Hin Hc. destruct (so_log _ _ Hb x e Hin Hc) as (s & Hs & Hcon). exists s. split; [|done].
    rewrite lookup_insert_ne; [done|]. congruence.
  - eapply reg_ok_ext; [|exact (so_reg _ _ Hb)]. intros x. unfold place. cbn.
    destruct (decide (b_next b = x)) as [<-|Hne]; [by rewrite Hfresh, lookup_insert_eq|by rewrite lookup_insert_ne].
Qed.

(** The messages client [x] sends in a run. *)
Definition heard (x : bsid) (sts : list (env * bstep)) : list Message :=
  omap (λ Est, match Est.2 with Line y raw => if decide (y = x) then ParseLine raw else None | _ => None end) sts.

Lemma heard_snoc x sts E st :
  heard x (sts ++ [(E, st)]) =
  heard x sts ++ match st with Line y raw => if decide (y = x) then option_list (ParseLine raw) else [] | _ => [] end.
Proof.
  unfold heard. rewrite omap_app. f_equal. cbn. destruct st; try done. case_decide; [by destruct (ParseLine raw)|done].
Qed.

Lemma server_ok_ext h h' b : (∀ x, h' x = h x) → server_ok h b → server_ok h' b.
Proof. intros Hh Hb. split; [|apply Hb..]. intros x s Hs. rewrite Hh. by apply (so_sessions _ _ Hb). Qed.

Lemma bouncer_step_ok sts E b st : PE E →
  (∀ x remote u, may_attach opts E (heard x (sts ++ [(E, st)])) remote u → G x remote u) →
  server_ok (λ x, heard x sts) b → server_ok (λ x, heard x (sts ++ [(E, st)])) (bouncer_step opts E b st).
Proof.
  intros HE HG Hb. destruct st as [remote|x raw| | | | | | | | | | | | | | | |]; cbn [bouncer_step].
  2: { apply (on_client_ok (λ x, heard x sts)); [|intros y Hy; by rewrite heard_snoc, decide_False, app_nil_r|done].
       apply (serve_line_ok opts); [done|apply HG|]. by rewrite heard_snoc, decide_True. }
  all: eapply server_ok_ext; [intros y; rewrite heard_snoc, app_nil_r; reflexivity|];
    first [apply accept_ok | eapply on_client_ok; [|intros; reflexivity|] | apply on_clients_ok; [intros y|]]; try exact Hb;
    first [apply timeout_ok | apply heartbeat_ok | apply flush_ok | apply destroy_ok | apply close_ok | apply client_task_ok
          | apply quiet_ok; intros ].
  all: first [apply quiet_print | apply quiet_network_changed | apply quiet_channel_list | apply quiet_tagmsg | apply quiet_read_marker].
Qed.
End server.

Section claims.
Context `{UnicodeTables, TimeParse} (opts : options).

(** The worlds a run has seen. *)
Definition seen (sts : list (env * bstep)) (E : env) : Prop := E ∈ sts.*1.

(** Client [x] was let in as [u]: at some step of the run, in the world of that
    step, having sent what it had sent by then. *)
Definition granted (sts : list (env * bstep)) (x : bsid) (remote u : string) : Prop :=
  ∃ sts1 E st sts2, sts = sts1 ++ (E, st) :: sts2 ∧ may_attach opts E (heard x (sts1 ++ [(E, st)])) remote u.

Lemma granted_snoc sts Est x remote u : granted sts x remote u → granted (sts ++ [Est]) x remote u.
Proof.
  intros (sts1 & E & st & sts2 & -> & Hm). exists sts1, E, st, (sts2 ++ [Est]). split; [|done]. by rewrite <- app_assoc.
Qed.

Lemma server_ok_mono (G G' : bsid → string → string → Prop) (PE PE' : env → Prop) h b :
  (∀ x r u, G x r u → G' x r u) → (∀ E, PE E → PE' E) → server_ok G PE h b → server_ok G' PE' h b.
Proof.
  intros HG HP Hb. split; [|apply Hb..]. intros x s Hs.
  destruct (so_sessions _ _ _ _ Hb x s Hs) as [(H1 & H2 & H3) He]. split; [|done]. split_and!; [auto| |done].
  intros Hr. destruct (H2 Hr) as [Hg (E & HE & Hbd)]. eauto 10.
Qed.

Lemma reachable_ok sts : server_ok (granted sts) (seen sts) (λ x, heard x sts) (bouncer_run opts new_bouncer sts).
Proof.
  induction sts as [|[E st] sts IH] using rev_ind; [apply server_ok_new|].
  unfold bouncer_run. rewrite foldl_app. cbn [foldl]. apply (bouncer_step_ok opts).
  - unfold seen. rewrite fmap_app. apply elem_of_app. right. by left.
  - intros x remote u Hm. by exists sts, E, st, [].
  - eapply server_ok_mono; [| |exact IH]; [intros; by apply granted_snoc|].
    unfold seen. intros E' HE. rewrite fmap_app. apply elem_of_app. by left.
Qed.

(** C39: nobody is attached who was not let in: whatever clients send, and
    whatever happens meanwhile, a registered session belongs to an account that
    was granted, at some step of the run, for what this client had sent by then:
    the hub, as it then was, gave it for the name and the secret of the client's
    last [PASS] and [USER], or of a SASL PLAIN response put together in order
    from its own [AUTHENTICATE] lines (without accounts, the secret so offered
    is the password, or, with no password set, the client is on this machine).
    The account's access was allowed, and the session is bound to a network that
    account had, or to none on a control connection. *)
Theorem attached_is_authenticated sts x s :
  b_sessions (bouncer_run opts new_bouncer sts) !! x = Some s → se_registered s = true →
  granted sts x (se_remote s) (se_user_id s) ∧ ∃ E, seen sts E ∧ bound_ok E s.
Proof.
  intros Hx Hr. destruct (so_sessions _ _ _ _ (reachable_ok sts) x s Hx) as [(_ & Ha & _) _]. by apply Ha.
Qed.

(** C40: a client reaches only what it is bound to: every call made to an
    engine was made by an attached session, not by a control connection, for
    the network the session is bound to. *)
Theorem commands_confined sts x e :
  (x, e) ∈ b_log (bouncer_run opts new_bouncer sts) → engine_call e = true →
  ∃ s, b_sessions (bouncer_run opts new_bouncer sts) !! x = Some s ∧
    se_registered s = true ∧ se_control s = false ∧ for_network (se_network_id s) e.
Proof.
  intros Hin Hc. destruct (so_log _ _ _ _ (reachable_ok sts) x e Hin Hc) as (s & Hs & Hcon). eauto.
Qed.

Lemma on_clients_lookup xs f b y : NoDup xs →
  b_sessions (on_clients xs f b) !! y =
  if decide (y ∈ xs) then (λ s, f s <| se_effects := [] |>) <$> b_sessions b !! y else b_sessions b !! y.
Proof.
  unfold on_clients. revert b. induction xs as [|x xs IH]; intros b Hnd.
  { cbn. by rewrite decide_False by apply not_elem_of_nil. }
  apply NoDup_cons in Hnd as [Hx Hnd]. cbn [foldl]. rewrite IH by done. rewrite !on_client_lookup.
  destruct (decide (y = x)) as [->|Hne].
  - rewrite (decide_False (P := x ∈ xs)) by done. by rewrite decide_True by by left.
  - destruct (decide (y ∈ xs)); [rewrite decide_True by by right|rewrite decide_False by (by intros [|]%elem_of_cons)]; done.
Qed.

Lemma isOwnEcho_fields k t x s :
  se_network_id (isOwnEcho k t x s).1 = se_network_id s ∧ se_out (isOwnEcho k t x s).1 = se_out s.
Proof. unfold isOwnEcho. cbv zeta. case_match; [by case_match|done]. Qed.

(** A committed message reaches the clients it is for: after [Print], the
    sessions bound to the user's network have been handed it, and no other
    session has had a line queued. *)
Theorem print_reaches_own sts E user m x s :
  let b := bouncer_run opts new_bouncer sts in
  b_sessions b !! x = Some s →
  ∃ s', b_sessions (bouncer_step opts E b (Print user m)) !! x = Some s' ∧
  (place_of s = Some (user, msg_network m) → user ≠ "" → msg_network m ≠ "" → s' = print_to E m s) ∧
  (place_of s ≠ Some (user, msg_network m) → se_out s' = se_out s).
Proof.
  intros b Hx. pose proof (reachable_ok sts) as Hok. fold b in Hok.
  destruct (so_sessions _ _ _ _ Hok x s Hx) as [_ He]. destruct (so_reg _ _ _ _ Hok) as [_ Hreg].
  cbn [bouncer_step]. rewrite on_clients_lookup by apply NoDup_elements. rewrite Hx.
  assert (Hpl : place b x = place_of s) by (unfold place; by rewrite Hx).
  assert (Hclear : print_to E m s <| se_effects := [] |> = print_to E m s).
  { destruct (quiet_print (λ _, False) E m s) as [_ (es & Hes & Hf)]. rewrite He in Hes.
    destruct es; [|by inversion Hf]. destruct (print_to E m s). cbn in *. by subst. }
  case_decide as Hin; cbn [fmap option_fmap option_map]; eexists; (split; [reflexivity|]); rewrite ?Hclear.
  - split; [done|]. intros Hnot. unfold sessionsFor in Hin. apply elem_of_elements, Hreg in Hin as (u & n & Hp & _ & _ & Hk).
    rewrite Hpl in Hp. unfold user_net_key in Hk. unfold place_of in Hp. destruct (se_registered s && negb (se_closed s)) eqn:Hlive; [|done].
    injection Hp as <- <-. unfold print_to, live. rewrite Hlive. cbn [negb].
    assert (Hnet : String.eqb (msg_network m) (se_network_id s) = false).
    { apply String.eqb_neq. intros Hnet. apply Hnot. unfold place_of. rewrite Hlive. rewrite <- Hnet in Hk |- *.
      f_equal. f_equal. by apply str_app_inj_r in Hk. }
    assert (Hfmt : ∀ s1, se_network_id s1 = se_network_id s → formatSinkMessage E m s1 = []).
    { intros s1 Hs1. unfold formatSinkMessage. by rewrite Hs1, Hnet. }
    destruct (msg_self m).
    + pose proof (isOwnEcho_fields (msg_kind_of m) (msg_buffer m) (msg_text m) s) as [Hn1 Ho1].
      destruct (isOwnEcho _ _ _ s) as [s1 own]. cbn [fst] in *. destruct (own && _); [done|]. by rewrite Hfmt.
    + cbn. by rewrite Hfmt.
  - split; [|done]. intros Hp Hu Hn. destruct Hin. unfold sessionsFor. apply elem_of_elements, Hreg. rewrite Hpl. eauto 10.
Qed.
End claims.

(** ** Own messages *)

Section echo.
Context `{UnicodeTables, TimeParse} (E : env).

Lemma registerEcho_last k t x s :
  ∃ l, se_echo (registerEcho E k t x s) = l ++ [EchoEntry (echo_key k t x) (env_now E)] ∧
       l `sublist_of` se_echo s ∧ (length l < echo_cap)%nat.
Proof.
  unfold registerEcho. cbv zeta. cbn [update se_echo].
  set (act := filter (λ e, env_now E - echo_window < ee_at e) (se_echo s)).
  exists (drop (length (act ++ [EchoEntry (echo_key k t x) (env_now E)]) - echo_cap) act).
  split_and!.
  - cbn [se_echo]. rewrite length_app. cbn [length]. rewrite drop_app_le by (unfold echo_cap; lia). done.
  - etrans; [apply sublist_drop|]. apply sublist_filter.
  - rewrite length_drop, length_app. cbn [length]. unfold echo_cap. lia.
Qed.

(** The entry of a key is found where there is one, and only there. *)
Lemma isOwnEcho_spec k t x s :
  (echo_key k t x ∉ ee_key <$> se_echo s ∧ isOwnEcho k t x s = (s, false)) ∨
  (∃ l1 e l2, se_echo s = l1 ++ e :: l2 ∧ ee_key e = echo_key k t x ∧ echo_key k t x ∉ ee_key <$> l1 ∧
     isOwnEcho k t x s = (s <| se_echo := l1 ++ l2 |>, true)).
Proof.
  unfold isOwnEcho. cbv zeta. destruct (list_find _ (se_echo s)) as [[i e]|] eqn:Hf.
  - right. apply list_find_Some in Hf as (Hi & He & Hbefore). exists (take i (se_echo s)), e, (drop (S i) (se_echo s)).
    split_and!; [symmetry; by apply take_drop_middle|done| |done].
    intros (e' & Hk & Hin)%list_elem_of_fmap. apply list_elem_of_lookup in Hin as [j Hj].
    apply lookup_take_Some in Hj as [Hj Hlt]. by apply (Hbefore j e' Hj Hlt).
  - left. split; [|done]. apply list_find_None in Hf. rewrite Forall_forall in Hf.
    intros (e' & Hk & Hin)%list_elem_of_fmap. by apply (Hf e' Hin).
Qed.

Lemma echo_key_fold k t t' x : EqualIRC t t' = true → echo_key k t x = echo_key k t' x.
Proof. intros Hf%EqualIRC_spec. unfold echo_key. by rewrite Hf. Qed.

(** A client's own message comes back the way it asked: without
    [echo-message], the first copy of what it just sent is kept from it, once
    (the next copy is somebody else's and is relayed); with it, every copy is
    relayed.  The remembered messages are never more than 200. *)
Theorem own_echo_once m t s :
  live s = true → msg_self m = true → EqualIRC t (msg_buffer m) = true →
  let s1 := registerEcho E (msg_kind_of m) t (msg_text m) s in
  (length (se_echo s1) ≤ echo_cap)%nat ∧
  (hasCap CapEchoMessage s = false →
     se_out (print_to E m s1) = se_out s ∧
     (echo_key (msg_kind_of m) t (msg_text m) ∉ ee_key <$> se_echo s →
      let s2 := print_to E m s1 in print_to E m s2 = pushes (formatSinkMessage E m s2) s2)) ∧
  (hasCap CapEchoMessage s = true → se_out (print_to E m s1) = se_out (pushes (formatSinkMessage E m s) s)).
Proof.
  intros Hl Hself Hirc s1. destruct (registerEcho_last (msg_kind_of m) t (msg_text m) s) as (l & Hl1 & Hsub & Hlen).
  fold s1 in Hl1. set (k := echo_key (msg_kind_of m) t (msg_text m)) in *.
  assert (Hk : echo_key (msg_kind_of m) (msg_buffer m) (msg_text m) = k) by (symmetry; by apply echo_key_fold).
  assert (Hs1 : s1 = s <| se_echo := se_echo s1 |>) by (unfold s1, registerEcho; by destruct s).
  assert (Hlive1 : live s1 = true) by (rewrite Hs1; done).
  destruct (isOwnEcho_spec (msg_kind_of m) (msg_buffer m) (msg_text m) s1) as [[Hno _]|(l1 & e & l2 & He & Hek & Hb & Hown)].
  { destruct Hno. rewrite Hk, Hl1, fmap_app. apply elem_of_app. right. by left. }
  split; [rewrite Hl1, length_app; cbn; lia|]. split.
  - intros Hcap. assert (Hp1 : print_to E m s1 = s1 <| se_echo := l1 ++ l2 |>).
    { unfold print_to. rewrite Hlive1, Hself, Hown. cbn [negb].
      assert (hasCap CapEchoMessage (s1 <| se_echo := l1 ++ l2 |>) = false) as ->; [|done]. rewrite Hs1. done. }
    rewrite Hp1. split; [by rewrite Hs1|]. intros Hnew s2.
    assert (Hl2 : l1 = l ∧ l2 = []).
    { rewrite Hl1 in He. destruct (decide (l2 = [])) as [->|Hne].
      - apply app_inj_tail in He as [-> _]. done.
      - destruct (exists_last Hne) as (l2' & y & ->). rewrite app_comm_cons, app_assoc in He.
        apply app_inj_tail in He as [-> _]. exfalso. apply Hnew. rewrite <- Hk, <- Hek.
        apply list_elem_of_fmap_2. eapply sublist_submseteq, elem_of_submseteq in Hsub; [exact Hsub|].
        apply elem_of_app. right. by left. }
    destruct Hl2 as [-> ->]. rewrite app_nil_r in *.
    unfold print_to. assert (Hlive2 : live s2 = true) by (unfold s2; rewrite Hs1; done).
    rewrite Hlive2, Hself. cbn [negb].
    destruct (isOwnEcho_spec (msg_kind_of m) (msg_buffer m) (msg_text m) s2) as [[_ ->]|(l3 & e3 & l4 & He3 & Hek3 & _)]; [done|].
    exfalso. apply Hnew. rewrite <- Hk, <- Hek3. apply list_elem_of_fmap_2.
    eapply sublist_submseteq, elem_of_submseteq in Hsub; [exact Hsub|].
    assert (Hse2 : se_echo s2 = l) by (unfold s2; cbn; by rewrite ?app_nil_r).
    rewrite <- Hse2, He3. apply elem_of_app. right. by left.
  - intros Hcap. unfold print_to. rewrite Hlive1, Hself, Hown. cbn [negb].
    assert (Hs2 : s1 <| se_echo := l1 ++ l2 |> = s <| se_echo := l1 ++ l2 |>) by (rewrite Hs1; by destruct s).
    rewrite Hs2. replace (hasCap CapEchoMessage (s <| se_echo := l1 ++ l2 |>)) with true by done. cbn [negb andb].
    assert (Hpush : ∀ ls s', se_out (pushes ls (s' <| se_echo := l1 ++ l2 |>)) = se_out (pushes ls s')).
    { intros ls. induction ls as [|y ls IH]; intros s'; [done|].
      change (se_out (pushes ls (push y (s' <| se_echo := l1 ++ l2 |>))) = se_out (pushes ls (push y s'))).
      rewrite <- (IH (push y s')). f_equal. f_equal. unfold push. change (se_closed (s' <| se_echo := l1 ++ l2 |>)) with (se_closed s').
      change (se_out (s' <| se_echo := l1 ++ l2 |>)) with (se_out s').
      destruct (se_closed s'); [done|]. by destruct (Z.of_nat (length (se_out s')) <? outQueueSize). }
    rewrite Hpush. f_equal.
Qed.
End echo.

(** ** SASL *)

Section sasl.
Context `{UnicodeTables, TimeParse} (opts : options) (E : env).

Definition auth_msg (arg : string) : Message := mkMessage "" ∅ "" "AUTHENTICATE" [arg].

Lemma chunk_not_marker c : str_len c = 400 → String.eqb c "*" = false ∧ String.eqb c "+" = false.
Proof. intros Hc. split; apply String.eqb_neq; intros ->; by vm_compute in Hc. Qed.

(** A full chunk is only stored. *)
Lemma handleSasl_chunk c s : hasCap CapSasl s = true → se_sasl_mech s ≠ "" → str_len c = 400 →
  str_len (se_sasl_buf s) + 400 ≤ maxSaslResponse →
  handleSasl opts E (auth_msg c) s = s <| se_sasl_buf ::= λ b, b +:+ c |>.
Proof.
  intros Hcap Hm Hc Hb. destruct (chunk_not_marker c Hc) as [H1 H2]. unfold handleSasl.
  change (param_or (auth_msg c) 0 "") with c. rewrite Hcap. cbn [negb].
  destruct (String.eqb_spec (se_sasl_mech s) ""); [done|]. rewrite H1, H2. cbv zeta. cbn [negb andb].
  assert (Hlt : (maxSaslResponse <? str_len (se_sasl_buf (s <| se_sasl_buf ::= λ b, b +:+ c |>))) = false).
  { apply Z.ltb_ge. cbn. unfold str_len in *. rewrite str_length_app. lia. }
  rewrite Hlt, Hc. done.
Qed.

(** A SASL response sent in chunks of 400 bytes and a shorter last one (or
    [+] when its length is a multiple of 400) is authenticated as one: the
    password check sees the concatenation, up to the limit of 8192 bytes. *)
Theorem sasl_chunks cs l s :
  hasCap CapSasl s = true → se_sasl_mech s ≠ "" → se_sasl_buf s = "" →
  Forall (λ c, str_len c = 400) cs → str_len l < 400 → l ≠ "*" →
  str_len (str_concat cs) + str_len l ≤ maxSaslResponse →
  foldl (λ s c, handleSasl opts E (auth_msg c) s) s (cs ++ [l]) =
  finishSaslPlain opts E (str_concat cs +:+ (if String.eqb l "+" then "" else l)) (currentNickOr E "*" s)
    (s <| se_sasl_buf := ""%string |> <| se_sasl_mech := ""%string |>).
Proof.
  intros Hcap Hm Hb Hcs Hl Hstar Htot.
  assert (Hfold : foldl (λ s c, handleSasl opts E (auth_msg c) s) s cs = s <| se_sasl_buf := str_concat cs |>).
  { assert (Hgen : ∀ b, str_len b + str_len (str_concat cs) ≤ maxSaslResponse →
      foldl (λ s c, handleSasl opts E (auth_msg c) s) (s <| se_sasl_buf := b |>) cs = s <| se_sasl_buf := b +:+ str_concat cs |>).
    { clear Htot Hb. induction Hcs as [|c cs Hc _ IH]; intros b Hb; [cbn; by rewrite str_app_nil_r|].
      rewrite str_concat_cons in *. unfold str_len in Hb, Hc. rewrite str_length_app in Hb.
      cbn [foldl]. rewrite handleSasl_chunk; [|done|done|done|cbn; unfold str_len; lia].
      change (s <| se_sasl_buf := b |> <| se_sasl_buf ::= λ b, b +:+ c |>) with (s <| se_sasl_buf := b +:+ c |>).
      rewrite IH by (unfold str_len; rewrite str_length_app; lia). by rewrite str_app_assoc. }
    specialize (Hgen ""%string). replace (s <| se_sasl_buf := ""%string |>) with s in Hgen by (destruct s; cbn in *; by subst).
    apply Hgen. unfold str_len in *. cbn. lia. }
  rewrite foldl_app, Hfold. cbn [foldl]. unfold handleSasl at 1.
  change (param_or (auth_msg l) 0 "") with l. set (s1 := s <| se_sasl_buf := str_concat cs |>).
  change (hasCap CapSasl s1) with (hasCap CapSasl s). rewrite Hcap. cbn [negb].
  change (se_sasl_mech s1) with (se_sasl_mech s). destruct (String.eqb_spec (se_sasl_mech s) ""); [done|].
  destruct (String.eqb_spec l "*"); [done|]. cbv zeta. change (currentNickOr E "*" s1) with (currentNickOr E "*" s).
  destruct (String.eqb_spec l "+") as [->|Hplus]; cbn [negb andb].
  - rewrite str_app_nil_r. done.
  - assert (Hlt : (maxSaslResponse <? str_len (se_sasl_buf (s1 <| se_sasl_buf ::= λ b, b +:+ l |>))) = false).
    { apply Z.ltb_ge. cbn. unfold str_len in *. rewrite str_length_app. lia. }
    rewrite Hlt. destruct (Z.eqb_spec (str_len l) 400); [lia|]. done.
Qed.
End sasl.

(** ** A race the model's steps leave out

    [authenticate] sleeps after a failed login and calls the hub and bcrypt in
    between; the registration timer may destroy the session meanwhile.  What
    follows attaches it all the same: the registry gains a session that is
    closed, and [destroy], which runs once, never takes it out. *)
Lemma late_attach_stays `{UnicodeTables} (opts : options) (E : env) u t n s :
  se_closed s = true →
  let s' := bindNetwork opts E u t n s in
  se_closed s' = true ∧ RegAdd u (net_id n) ∈ se_effects s' ∧ ∀ r, destroy r s' = s'.
Proof.
  intros Hc s'. assert (Hclosed : se_closed s' = true).
  { unfold s', bindNetwork. cbv zeta.
    match goal with |- se_closed (sendAttachBurst _ _ ?x) = _ =>
      by rewrite (quiet_closed (λ _, True) x _ (quiet_sendAttachBurst opts E (λ _, True) x)) end. }
  split_and!; [done| |].
  - unfold s', bindNetwork. cbv zeta.
    match goal with |- _ ∈ se_effects (sendAttachBurst _ _ ?x) =>
      destruct (quiet_sendAttachBurst opts E (λ _, True) x) as [_ (es & -> & _)] end.
    apply elem_of_app. left. cbn. apply elem_of_app. right. by left.
  - intros r. unfold destroy. by rewrite Hclosed.
Qed.

(** ** Witnesses *)

Definition sample_user : user := User "bob" "Bob" [foldl net_step sample_net sample_ops].

Definition sample_view : engine_view :=
  EngineView (λ id, if String.eqb id "libera" then "me" else "") (Some sample_user)
    (user_network sample_user).

Definition sample_env (now : time) : env :=
  Env now
    (Hub true (λ u p, if String.eqb u "bob" && String.eqb p "secret" then Some "bob"%string else None)
       (λ u, if String.eqb u "bob" then Some (Tenant 0%nat (Some 0%nat) None) else None) ["bob"%string])
    (λ _, sample_view) (λ _ _ _ _, Some []).

Definition sample_opts : options := Opts "" 50 (λ _ _, false).

Definition sample_steps : list (env * bstep) :=
  pair (sample_env (5 * second)) <$>
    [Accept "10.0.0.1:4000"; Accept "10.0.0.2:4000";
     Line 0%nat "CAP REQ :sasl message-tags"; Line 0%nat "PASS bob/libera:secret"; Line 0%nat "NICK bob";
     Line 0%nat "USER bob 0 * :Bob"; Line 1%nat "PASS bob/libera:wrong"; Line 1%nat "NICK eve";
     Line 1%nat "USER eve 0 * :Eve"; Line 0%nat "CAP END"; Line 0%nat "PRIVMSG #c :hello"].

#[local] Instance no_time_parse : TimeParse := λ _ _, None.
#[local] Existing Instance ascii_tables.

Notation sample_bouncer := (bouncer_run sample_opts new_bouncer sample_steps).

Lemma sample_attached : ∃ s, b_sessions sample_bouncer !! 0%nat = Some s ∧ se_registered s = true ∧
  place_of s = Some ("bob"%string, "libera"%string) ∧ hasCap CapEchoMessage s = false.
Proof. vm_compute. eexists. split; [reflexivity|]. repeat split. Qed.

Lemma attached_is_authenticated_witness : ∃ s,
  b_sessions sample_bouncer !! 0%nat = Some s ∧ se_registered s = true ∧
  granted sample_opts sample_steps 0%nat (se_remote s) (se_user_id s) ∧ ∃ E, seen sample_steps E ∧ bound_ok E s.
Proof.
  destruct sample_attached as (s & Hs & Hr & _). exists s. split; [exact Hs|]. split; [exact Hr|].
  exact (attached_is_authenticated sample_opts sample_steps 0%nat s Hs Hr).
Defined.

Lemma sample_log : (0%nat, SendInput "libera" "#c" "hello") ∈ b_log sample_bouncer.
Proof. apply (list_elem_of_lookup_2 _ 1%nat). vm_compute. reflexivity. Qed.

Lemma commands_confined_witness : ∃ s,
  b_sessions sample_bouncer !! 0%nat = Some s ∧
  se_registered s = true ∧ se_control s = false ∧ for_network (se_network_id s) (SendInput "libera" "#c" "hello").
Proof. exact (commands_confined sample_opts sample_steps 0%nat _ sample_log eq_refl). Defined.

Definition sample_message : message :=
  CoreTypes.Message "m1" 1 "libera" "#C" 0 "me" "" MsgPrivmsg "hello" ∅ true false.

Lemma print_reaches_own_witness : ∃ s s',
  b_sessions sample_bouncer !! 0%nat = Some s ∧
  b_sessions (bouncer_step sample_opts (sample_env 0) sample_bouncer (Print "bob" sample_message)) !! 0%nat = Some s' ∧
  (place_of s = Some ("bob"%string, msg_network sample_message) → "bob"%string ≠ "" → msg_network sample_message ≠ "" →
     s' = print_to (sample_env 0) sample_message s) ∧
  (place_of s ≠ Some ("bob"%string, msg_network sample_message) → se_out s' = se_out s).
Proof.
  destruct sample_attached as (s & Hs & _).
  destruct (print_reaches_own sample_opts sample_steps (sample_env 0) "bob" sample_message 0%nat s Hs) as (s' & H1 & H2 & H3).
  exists s, s'. split; [exact Hs|]. split; [exact H1|]. split; [exact H2|exact H3].
Defined.

Definition sample_session : session :=
  newSession "127.0.0.1:4000" 0 <| se_registered := true |> <| se_network_id := "libera"%string |>
    <| se_caps := {["sasl"%string]} |> <| se_sasl_mech := "PLAIN"%string |>.

Lemma own_echo_once_witness :
  let s1 := registerEcho (sample_env 0) MsgPrivmsg "#c" "hello" sample_session in
  (length (se_echo s1) ≤ echo_cap)%nat ∧
  (hasCap CapEchoMessage sample_session = false →
     se_out (print_to (sample_env 0) sample_message s1) = se_out sample_session ∧
     (echo_key MsgPrivmsg "#c" "hello" ∉ ee_key <$> se_echo sample_session →
      let s2 := print_to (sample_env 0) sample_message s1 in
      print_to (sample_env 0) sample_message s2 = pushes (formatSinkMessage (sample_env 0) sample_message s2) s2)) ∧
  (hasCap CapEchoMessage sample_session = true →
     se_out (print_to (sample_env 0) sample_message s1) =
     se_out (pushes (formatSinkMessage (sample_env 0) sample_message sample_session) sample_session)).
Proof.
  apply (own_echo_once (sample_env 0) sample_message "#c" sample_session); vm_compute; reflexivity.
Defined.

(** The single-user login of a local client, in one chunk. *)
Lemma sasl_chunks_witness :
  foldl (λ s c, handleSasl sample_opts (sample_env 0) (auth_msg c) s) sample_session ([] ++ ["AGJvYi9saWJlcmEAc2VjcmV0"%string]) =
  finishSaslPlain sample_opts (sample_env 0)
    (str_concat [] +:+ (if String.eqb "AGJvYi9saWJlcmEAc2VjcmV0" "+" then "" else "AGJvYi9saWJlcmEAc2VjcmV0"%string))
    (currentNickOr (sample_env 0) "*" sample_session)
    (sample_session <| se_sasl_buf := ""%string |> <| se_sasl_mech := ""%string |>).
Proof.
  apply (sasl_chunks sample_opts (sample_env 0) [] "AGJvYi9saWJlcmEAc2VjcmV0" sample_session);
    first [constructor | discriminate | vm_compute; first [reflexivity|discriminate]].
Defined.
