(* ===== verification/Hub.v ===== *)
(** * The composition root: [cmd/stugan/hub.go]

    From a configuration to the engines, stores and plugin hosts of the users,
    and the options [main.go] gives the web server and the bouncer.  The files,
    databases, connections and the plugin host that are made are the world of
    the call ([hub_env]). *)

From Stdlib Require Import ZArith Lia Ascii Bool.
From stdpp Require Import base tactics list gmap strings.
From S2P Require Import Prelude GoStrings GoNet Files CoreTypes CoreEngine IrcConn StoreDb StoreQuery Store WebProto WebAuth WebDto BncSession Config Uploads.

#[local] Open Scope Z_scope.

(** ** Small parts *)

(** In seconds. *)
Definition sessionMaxAge (c : Config) : Z :=
  let hours := ac_session_hours (cf_auth c) in
  let hours := if hours <=? 0 then 30 * 24 else hours in
  i64 (hours * 3600).

(** The data and the scripts directory. *)
Definition userDirs (c : Config) (name : string) : string * string :=
  if negb (AuthEnabled c) then (DataDir c, ScriptsDir c)
  else let base := join_path [cf_home c; "users"; name] in (join_path [base; "data"], join_path [base; "scripts"]).

(** [read_file] is [os.ReadFile]; a file that cannot be read is left out. *)
Definition paramsFromConfig (read_file : string → option string) (n : NetworkConfig) : network_params :=
  let cert := if given (nc_cert_file n) then default "" (read_file (nc_cert_file n)) else "" in
  NetworkParams (nc_name n) (nc_name n) (nc_addr n) (nc_fallbacks n) (nc_tls n) (nc_insecure n)
    (nc_nick n) (nc_user n) (nc_realname n) (nc_sasl_user n) (nc_sasl_pass n) (nc_channels n) (nc_monitor n) ∅
    (nc_server_pass n) (nc_perform n) (nc_sasl_external n) (nc_sasl_scram n) cert 0 [] (nc_join_hold_timeout n).

(** The id of a connection at the relay: a NUL between user and network. *)
Definition relay_id (user network : string) : string := user +:+ String "000" network.

(** [ircConnector.Dial]: the options of the connection. *)
Definition dial_options (relay : bool) (user : string) (p : network_params) : irc_options :=
  IrcOptions (np_id p) (np_addr p) (np_fallbacks p) (np_tls p) (np_insecure p) (np_nick p) (np_user p) (np_realname p)
    (np_sasl_user p) (np_sasl_pass p) (np_server_pass p) (np_sasl_external p) (np_sasl_scram p) (np_cert_pem p)
    (np_channels p) (np_channel_keys p) (np_monitor p) relay (if relay then relay_id user (np_id p) else "").

(** ** One user *)

Record plugin_options := PluginOptions {
  po_dir : string;
  po_settings : gmap string (gmap string json);
  po_sandbox : bool;
  po_trusted_only : bool;
}.

(** What the calls outside of the model do: which directories are there and can
    be made, which databases are opened and what is in them, whether reads and
    writes of them succeed, files, the plugin host, [irc.New], the relay. *)
Record hub_env := HubEnv {
  he_exists : string → bool;
  he_mkdir : string → bool;
  he_open : string → option database;
  he_pref_ok : bool;
  he_networks_ok : bool;
  he_save_ok : network_params → bool;
  he_file : string → option string;
  he_plugin : plugin_options → bool;
  he_dial : irc_options → option conn;
  he_instance : bool;
  he_link : bool;
}.

Inductive hub_error :=
  | BadHighlight
  | NoInstance
  | NoLink
  | DirError (user dir : string)
  | StoreError (user : string)
  | PluginError
  | NetworksError (user : string)
  | SaveError
  | DialError (user network : string).

(** [server.Tenant] and the engine: the store as it is left, whether the bundled
    scripts were installed. *)
Record tenant := Tenant {
  tn_user : string;
  tn_data : string;
  tn_scripts : string;
  tn_installed : bool;
  tn_db : database;
  tn_plugins : option plugin_options;
  tn_core : core;
}.

Record hub := Hub {
  hb_auth : bool;
  hb_hashes : gmap string string;
  hb_max_age : Z;
  hb_relay : bool;
  hb_tenants : gmap string tenant;
}.

#[export] Instance eta_tenant : Eta tenant := λ r,
  Tenant (tn_user r) (tn_data r) (tn_scripts r) (tn_installed r) (tn_db r) (tn_plugins r) (tn_core r).
#[export] Instance eta_hub : Eta hub := λ r, Hub (hb_auth r) (hb_hashes r) (hb_max_age r) (hb_relay r) (hb_tenants r).

Section hub.
Context `{UnicodeTables, Regexp, StoreJson, JsonText} (E : hub_env) (C : Config).

(** [userHighlighter]. *)
Definition userHighlighter (d : database) : option highlighter :=
  let rules := (hl_patterns (cf_highlight C), hl_exceptions (cf_highlight C)) in
  let rules :=
    let v := Pref prefHighlight d in
    if negb (he_pref_ok E) || String.eqb v "" then rules
    else match text_json v ≫= unmarshal with
         | None => rules
         | Some r => (hr_patterns r, hr_exceptions r)
         end in
  match NewHighlighter rules.1 rules.2 with
  | Some h => Some h
  | None => NewHighlighter (hl_patterns (cf_highlight C)) (hl_exceptions (cf_highlight C))
  end.

(** [userAliases]. *)
Definition userAliases (d : database) : gmap string string :=
  let v := Pref prefAliases d in
  if negb (he_pref_ok E) || String.eqb v "" then cf_aliases C
  else default (cf_aliases C) (text_json v ≫= λ j, dec_str_map j ∅).

(** The networks of a first run. *)
Fixpoint seed (l : list NetworkConfig) (nets : list network_params) (d : database) : option (list network_params * database) :=
  match l with
  | [] => Some (nets, d)
  | n :: l =>
      if negb (ConnectEnabled n) then seed l nets d
      else
        let p := paramsFromConfig (he_file E) n in
        let '(d, ok) := SaveNetwork p d in
        if ok && he_save_ok E p then seed l (nets ++ [p]) d else None
  end.

(** Dialling and adding each, before the engine runs. *)
Fixpoint add_networks (relay : bool) (user : string) (nets : list network_params) (c : core) : core + hub_error :=
  match nets with
  | [] => inl c
  | p :: nets =>
      match he_dial E (dial_options relay user p) with
      | None => inr (DialError user (np_name p))
      | Some cn => add_networks relay user nets (AddNetwork p cn c)
      end
  end.

Definition plugin_options_of (scripts : string) : plugin_options :=
  PluginOptions scripts (pc_settings (cf_plugins C)) (PluginSandbox C) (AuthEnabled C).

(** The body of the loop over the users.  Positions are compared by their
    difference, which does not overflow for positions the program gives. *)
Definition build_user (relay : bool) (u : UserConfig) : tenant + hub_error :=
  let name := us_name u in
  let '(data, scripts) := userDirs C name in
  let fresh := negb (he_exists E scripts) in
  match find (λ d, negb (he_mkdir E d)) [data; scripts] with
  | Some d => inr (DirError name d)
  | None =>
      match he_open E (join_path [data; "stugan.db"]) with
      | None => inr (StoreError name)
      | Some d =>
          let c := new_core (Some (User name name [])) (userAliases d) (userHighlighter d) in
          let plugins := if PluginsEnabled C then Some (plugin_options_of scripts) else None in
          if match plugins with Some o => negb (he_plugin E o) | None => false end then inr PluginError
          else match (if he_networks_ok E then Networks d else None) with
               | None => inr (NetworksError name)
               | Some nets =>
                   match (match nets with [] => seed (us_networks u) [] d | _ => Some (nets, d) end) with
                   | None => inr SaveError
                   | Some (nets, d) =>
                       match add_networks relay name (sort_stable np_pos nets) c with
                       | inr e => inr e
                       | inl c => inl (Tenant name data scripts fresh d plugins c)
                       end
                   end
               end
      end
  end.

Fixpoint build_users (relay : bool) (users : list UserConfig) (ts : gmap string tenant) : gmap string tenant + hub_error :=
  match users with
  | [] => inl ts
  | u :: users =>
      match build_user relay u with
      | inr e => inr e
      | inl t => build_users relay users (<[us_name u := t]> ts)
      end
  end.

(** [buildHub]. *)
Definition buildHub : hub + hub_error :=
  match NewHighlighter (hl_patterns (cf_highlight C)) (hl_exceptions (cf_highlight C)) with
  | None => inr BadHighlight
  | Some _ =>
      if EngineEnabled C && negb (he_instance E) then inr NoInstance
      else if EngineEnabled C && negb (he_link E) then inr NoLink
      else match build_users (EngineEnabled C) (EffectiveUsers C) ∅ with
           | inr e => inr e
           | inl ts =>
               inl (Hub (AuthEnabled C) (list_to_map (reverse ((λ u, (us_name u, us_password_hash u)) <$> cf_users C)))
                      (sessionMaxAge C) (EngineEnabled C) ts)
           end
  end.
End hub.

(** ** The hub's methods, and the options of the servers *)

(** [Login]. *)
Definition hub_login `{Bcrypt} (h : hub) (username password : string) : option string :=
  if hb_auth h && Verify (hb_hashes h) username password then Some username else None.

Definition hub_tenant (h : hub) (user : string) : option tenant := hb_tenants h !! user.

(** [Users], in some order of the map. *)
Definition hub_users (h : hub) : list string := (map_to_list (hb_tenants h)).*1.

(** What [run] of [main.go] makes of it, [magic] the hash of the site's password. *)
Definition web_config_of (h : hub) (c : Config) (magic : string) : web_config :=
  WebConfig magic (hb_auth h) (hb_hashes h) (hb_max_age h) (hub_users h) (parseTrustedProxies (sc_proxies (cf_server c))).

Definition bouncer_options_of (c : Config) (magic : string) (compare : string → string → bool) : options :=
  Opts magic (is_max_playback (cf_ircserver c)) compare.

Definition upload_options_of (c : Config) : upload_options :=
  UploadOptions (10 * 2 ^ 20) (String.eqb (uc_mode (cf_uploads c)) "custom") (uc_response_field (cf_uploads c))
    (given (join_path [DataDir c; "uploads"])).
