(* ===== verification/HubThms.v ===== *)
(** * The process as it starts: what the configuration makes *)

From Stdlib Require Import ZArith Lia Ascii Bool.
From stdpp Require Import base tactics list gmap strings sorting.
From S2P Require Import Prelude GoStrings GoNet Files CoreTypes CoreEvent CoreRoster CoreEngine CoreCommand CoreFrame CoreInv CoreThms IrcConn PlugHeap StoreDb StoreQuery Store WebProto WebAuth WebDto BncSession Config ConfigThms Uploads Hub.

#[local] Open Scope Z_scope.

(** ** Whose directories are whose *)

Lemma fixed_element e : e ∈ ["users"; "data"; "scripts"; "stugan.db"]%string → element e.
Proof. intros He. repeat (apply elem_of_cons in He as [->|He]; [by split; [|set_solver]|]). by apply elem_of_nil in He. Qed.

Ltac elements := repeat (apply Forall_cons; split); try apply Forall_nil; first [done|apply fixed_element; set_solver|idtac].

Lemma user_dirs_elements c name : has_prefix "/" (cf_home c) = true → AuthEnabled c = true → element name →
  userDirs c name = (rooted (elements_of (cf_home c) ++ ["users"; name; "data"]%string),
                     rooted (elements_of (cf_home c) ++ ["users"; name; "scripts"]%string)).
Proof.
  intros Hh Ha Hn. unfold userDirs. rewrite Ha. cbn [negb].
  assert (Hu : Forall element ["users"; name]%string) by elements.
  assert (He : Forall element (elements_of (cf_home c) ++ ["users"; name]%string)) by (apply Forall_app; split; [apply elements_are|done]).
  rewrite (join_elements (cf_home c)) by done.
  rewrite !(join_elements (rooted _)); rewrite ?elements_rooted by done; try done; try apply rooted_prefix.
  - by rewrite <- !app_assoc.
  - elements.
  - elements.
Qed.

(** Accounts whose names are single elements of a path share no directory. *)
Lemma user_dirs_apart c a b : has_prefix "/" (cf_home c) = true → AuthEnabled c = true → element a → element b →
  (userDirs c a).1 ≠ (userDirs c a).2 ∧
  (a ≠ b → (userDirs c a).1 ≠ (userDirs c b).1 ∧ (userDirs c a).2 ≠ (userDirs c b).2 ∧ (userDirs c a).1 ≠ (userDirs c b).2).
Proof.
  intros Hh Hau Ha Hb. rewrite !user_dirs_elements by done. cbn [fst snd].
  assert (Hel : ∀ n x, element n → x ∈ ["data"; "scripts"]%string → Forall element (elements_of (cf_home c) ++ ["users"; n; x]%string)).
  { intros n x Hn Hx. apply Forall_app. split; [apply elements_are|]. elements; (apply elem_of_cons in Hx as [->|Hx]; [|apply list_elem_of_singleton in Hx as ->]); apply fixed_element; set_solver. }
  assert (Hinj : ∀ n m x y, element n → element m → x ∈ ["data"; "scripts"]%string → y ∈ ["data"; "scripts"]%string →
    rooted (elements_of (cf_home c) ++ ["users"; n; x]%string) = rooted (elements_of (cf_home c) ++ ["users"; m; y]%string) → n = m ∧ x = y).
  { intros n m x y Hn Hm Hx Hy Heq. apply rooted_inj in Heq; [|by apply Hel..]. by simplify_eq. }
  split_and!.
  - intros [_ ?]%Hinj; try done; set_solver.
  - intros Hne. split_and!; intros [? ?]%Hinj; try done; set_solver.
Qed.

(** Nothing checks that they are: this user's store is bob's. *)
Lemma dirs_shared c : userDirs c "x/../bob" = userDirs c "bob".
Proof.
  unfold userDirs. destruct (negb _); [done|].
  enough (Hj : join_path [cf_home c; "users"; "x/../bob"] = join_path [cf_home c; "users"; "bob"]) by by rewrite Hj.
  assert (Hclean : ∀ p, path_clean (p +:+ "/users/x/../bob") = path_clean (p +:+ "/users/bob")).
  { intros p. unfold path_clean.
    assert (Hp : ∀ s t, has_prefix "/" (p +:+ String "/" s) = has_prefix "/" (p +:+ String "/" t)) by (intros s t; unfold has_prefix; destruct p as [|b p]; cbn [String.app String.prefix]; destruct (ascii_dec _ _); [by destruct s, t|done|by destruct p|done]).
    rewrite (Hp "users/x/../bob"%string "users/bob"%string). set (r := has_prefix "/" _).
    change (p +:+ "/users/x/../bob") with (p +:+ String SLASH ("users/x/../bob")).
    change (p +:+ "/users/bob") with (p +:+ String SLASH "users/bob"). rewrite !split_byte_at, !foldl_app. done. }
  unfold join_path. destruct (decide (cf_home c = ""%string)) as [He|He].
  - rewrite He. vm_compute. reflexivity.
  - rewrite !filter_cons_True by done. exact (Hclean (cf_home c)).
Qed.

(** ** The engines as they start *)

Section boots.
Context `{UnicodeTables, Regexp, StoreJson, JsonText} (E : hub_env) (C : Config).

(** What is opened: rows under the ids of the networks they hold, as
    [SaveNetwork] writes them. *)
Definition database_ok (d : database) : Prop :=
  ∀ id data, db_networks d !! id = Some data → ∃ p, json_params data = Some p ∧ np_id p = id.

Lemma networks_ok d nets : database_ok d → Networks d = Some nets → NoDup (np_id <$> nets).
Proof.
  intros Hd. unfold Networks. set (l := merge_sort _ _).
  assert (Hl : ∀ id data, (id, data) ∈ l → db_networks d !! id = Some data).
  { intros id data. unfold l. rewrite merge_sort_Permutation. apply elem_of_map_to_list. }
  assert (Hnd : NoDup l.*1) by (unfold l; rewrite merge_sort_Permutation; apply NoDup_fst_map_to_list). clearbody l.
  revert nets. induction l as [|[id data] l IH]; intros nets; [by intros [= <-]; constructor|].
  cbn [mapM mret option_ret snd]. destruct (json_params data) as [p|] eqn:Ep; [|done]. cbn [mbind option_bind].
  destruct (mapM _ l) as [nets'|] eqn:El; [|done]. intros [= <-]. rewrite fmap_cons in Hnd. apply NoDup_cons in Hnd as [Hid Hnd].
  pose proof (IH (λ i x Hx, Hl i x (list_elem_of_further _ _ _ Hx)) Hnd nets' eq_refl).
  assert (Hids : np_id <$> nets' = l.*1).
  { clear -El Hl Hd. revert nets' El. induction l as [|[i x] l IH]; intros nets'; [by intros [= <-]|].
    cbn [mapM mret option_ret snd]. destruct (json_params x) as [q|] eqn:Eq; [|done]. cbn [mbind option_bind].
    destruct (mapM _ l) as [nets''|]; [|done]. intros [= <-]. rewrite !fmap_cons. f_equal.
    - destruct (Hd i x) as (q' & Hq & Hi); [apply Hl; right; left|]. cbn. congruence.
    - apply IH; [|done]. intros i' x' Hin. apply Hl. apply elem_of_cons in Hin as [->|Hin]; [left|right; by right]. }
  destruct (Hd id data (Hl id data (list_elem_of_here _ _))) as (q & Hq & Hi). rewrite Ep in Hq. injection Hq as <-.
  rewrite fmap_cons, Hids, Hi. by constructor.
Qed.

(** The networks of the configuration that connect. *)
Definition configured (l : list NetworkConfig) : list network_params :=
  paramsFromConfig (he_file E) <$> filter (λ n, ConnectEnabled n = true) l.

Lemma seed_spec l nets d nets' d' : seed E l nets d = Some (nets', d') → nets' = nets ++ configured l.
Proof.
  revert nets d. induction l as [|n l IH]; intros nets d; cbn [seed]; [by intros [= <- <-]; rewrite app_nil_r|].
  unfold configured. rewrite filter_cons. destruct (ConnectEnabled n); cbn [negb].
  - rewrite decide_True by done. destruct (SaveNetwork _ d) as [d1 ok]. destruct (ok && _); [|done].
    intros ->%IH. rewrite <- app_assoc. done.
  - rewrite decide_False by done. apply IH.
Qed.

Lemma configured_ok l : networks_valid l → NoDup (np_id <$> configured l).
Proof.
  intros [_ Hnd]. unfold configured. rewrite <- list_fmap_compose.
  change (np_id ∘ paramsFromConfig (he_file E)) with nc_name.
  eapply sublist_NoDup; [exact Hnd|]. apply fmap_sublist, sublist_filter.
Qed.

Lemma add_networks_spec relay user nets c c' : add_networks E relay user nets c = inl c' →
  ∃ pcs, pcs.*1 = nets ∧ c' = add_all pcs c ∧ Forall (λ pc, he_dial E (dial_options relay user pc.1) = Some pc.2) pcs.
Proof.
  revert c. induction nets as [|p nets IH]; intros c; cbn [add_networks]; [intros [= <-]; by exists []|].
  destruct (he_dial E _) as [cn|] eqn:Ed; [|done]. intros (pcs & Hpcs & -> & Hd)%IH. exists ((p, cn) :: pcs).
  split_and!; [by rewrite fmap_cons, Hpcs|done|by constructor].
Qed.

(** The networks a user starts with: the stored ones, or the configured ones if
    nothing is stored, in the order of their positions. *)
Definition starting_networks (u : UserConfig) (stored : list network_params) : list network_params :=
  sort_stable np_pos (match stored with [] => configured (us_networks u) | _ => stored end).

(** What a user that is built has. *)
Record built (relay : bool) (u : UserConfig) (t : tenant) : Prop := {
  bu_user : u_id (co_user (tn_core t)) = us_name u;
  bu_dirs : (tn_data t, tn_scripts t) = userDirs C (us_name u);
  bu_plugins : ∀ o, tn_plugins t = Some o → o = plugin_options_of C (tn_scripts t);
  bu_networks : ∃ d stored, he_open E (join_path [tn_data t; "stugan.db"]) = Some d ∧ Networks d = Some stored ∧
    network_ids (tn_core t) = np_id <$> starting_networks u stored;
  bu_inv : engine_inv False (tn_core t);
}.

Lemma starting_ok u d stored : networks_valid (us_networks u) → database_ok d →
  Networks d = Some stored → NoDup (np_id <$> starting_networks u stored).
Proof.
  intros Hv Hd Hs. unfold starting_networks. rewrite sort_stable_perm.
  destruct stored as [|p stored]; [by apply configured_ok|by eapply networks_ok].
Qed.

Lemma add_all_user nets c : co_user (add_all nets c) =
  co_user c <| u_networks ::= λ l, l ++ (fresh_network ∘ fst <$> nets) |>.
Proof.
  unfold add_all. revert c. induction nets as [|[p cn] nets IH]; intros c; cbn [foldl fst snd].
  - destruct c as [[? ? ?]]. cbn. by rewrite app_nil_r.
  - rewrite IH. cbn. by rewrite <- app_assoc.
Qed.

Lemma build_user_spec relay u t : (∀ path d, he_open E path = Some d → database_ok d) →
  networks_valid (us_networks u) → build_user E C relay u = inl t → built relay u t.
Proof.
  intros Hdb Hv. unfold build_user. destruct (userDirs C (us_name u)) as [data scripts] eqn:Edir.
  destruct (find _ _); [done|]. destruct (he_open E _) as [d|] eqn:Eo; [|done].
  set (c0 := new_core _ _ _). set (plugins := if PluginsEnabled C then _ else None).
  destruct (match plugins with Some o => _ | None => false end); [done|].
  destruct (if he_networks_ok E then Networks d else None) as [stored|] eqn:En; [|done].
  assert (Hst : Networks d = Some stored) by (by destruct (he_networks_ok E)).
  destruct (match stored with [] => seed E (us_networks u) [] d | _ => Some (stored, d) end) as [[nets d']|] eqn:Es; [|done].
  assert (Hnets : sort_stable np_pos nets = starting_networks u stored).
  { unfold starting_networks. destruct stored; [|by injection Es as <- _]. by apply seed_spec in Es as ->. }
  rewrite Hnets. pose proof (starting_ok u d stored Hv (Hdb _ _ Eo) Hst) as Hnd.
  destruct (add_networks E relay _ _ c0) as [c|] eqn:Ea; [|done]. intros [= <-].
  apply add_networks_spec in Ea as (pcs & Hpcs & -> & _).
  assert (Hids : np_id ∘ fst <$> pcs = np_id <$> starting_networks u stored) by (by rewrite list_fmap_compose, Hpcs).
  destruct (add_all_inv (tidy := False) pcs c0) as (Hinv & Hi & _); [change (network_ids c0) with (@nil string); cbn [app]; by rewrite Hids|done|done|by apply new_core_inv|].
  split; cbn [tn_core tn_data tn_scripts tn_plugins].
  - rewrite add_all_user. done.
  - done.
  - intros o Ho. unfold plugins in Ho. destruct (PluginsEnabled C); [by injection Ho as <-|done].
  - exists d, stored. split_and!; [done|done|]. rewrite Hi. exact Hids.
  - exact Hinv.
Qed.

Lemma effective_valid `{UrlParse} : valid C →
  NoDup (us_name <$> EffectiveUsers C) ∧ ∀ u, u ∈ EffectiveUsers C → networks_valid (us_networks u).
Proof.
  intros [_ _ _ _ Hn _ _ [Hu Hnd]]. unfold EffectiveUsers. destruct (cf_users C) as [|u us].
  - split; [apply NoDup_singleton|]. by intros u ->%list_elem_of_singleton.
  - split; [done|]. rewrite Forall_forall in Hu. intros u' Hin. by apply Hu.
Qed.

Lemma build_users_spec relay users ts ts' : NoDup (us_name <$> users) → build_users E C relay users ts = inl ts' →
  ∀ name t, ts' !! name = Some t ↔
    (∃ u, u ∈ users ∧ us_name u = name ∧ build_user E C relay u = inl t) ∨ (name ∉ us_name <$> users ∧ ts !! name = Some t).
Proof.
  revert ts. induction users as [|u users IH]; intros ts Hnd; cbn [build_users].
  { intros [= <-] name t. split; [intros Ht; right; split; [by intros ?%elem_of_nil|done]|].
    intros [(u & ?%elem_of_nil & _)|[_ Ht]]; done. }
  rewrite fmap_cons in Hnd. apply NoDup_cons in Hnd as [Hu Hnd].
  destruct (build_user E C relay u) as [t0|] eqn:Eb; [|done]. intros Hts name t. rewrite (IH _ Hnd Hts name t).
  rewrite fmap_cons, not_elem_of_cons. setoid_rewrite elem_of_cons. split.
  - intros [(u' & Hin & Hn & Hb)|[Hnin Ht]]; [left; eauto|].
    apply lookup_insert_Some in Ht as [[Hn ->]|[Hn Ht]]; [left; eauto|right; auto].
  - intros [(u' & [->|Hin] & Hn & Hb)|[[Hn Hnin] Ht]].
    + right. rewrite <- Hn. split; [done|]. rewrite lookup_insert_eq. congruence.
    + left. eauto.
    + right. split; [done|]. by rewrite lookup_insert_ne.
Qed.

(** The password hashes the hub keeps. *)
Definition hashes_of : gmap string string := list_to_map (reverse ((λ u, (us_name u, us_password_hash u)) <$> cf_users C)).

Lemma login_spec `{UrlParse, Bcrypt} user password : valid C →
  Verify hashes_of user password = true ↔
  ∃ u, u ∈ cf_users C ∧ us_name u = user ∧ bcrypt_ok (us_password_hash u) password = true.
Proof.
  intros [_ _ _ _ _ _ _ [_ Hnd]].
  assert (Hh : ∀ x, hashes_of !! user = Some x ↔ ∃ u, u ∈ cf_users C ∧ us_name u = user ∧ us_password_hash u = x).
  { intros x. unfold hashes_of. rewrite <- elem_of_list_to_map.
    - rewrite elem_of_reverse, list_elem_of_fmap. split; [intros (u & [= -> ->] & Hu)|intros (u & Hu & <- & <-)]; eauto.
    - rewrite fmap_reverse, reverse_Permutation, <- list_fmap_compose. exact Hnd. }
  unfold Verify. destruct (hashes_of !! user) as [x|].
  - destruct (proj1 (Hh x) eq_refl) as (u & Hu & Hn & Hx). rewrite <- Hx. split; [eauto|].
    intros (u' & Hu' & Hn' & Hb). assert (Hx' : Some x = Some (us_password_hash u')) by (apply Hh; eauto). congruence.
  - split; [done|]. intros (u & Hu & Hn & _). assert (None = Some (us_password_hash u)) by (apply Hh; eauto). done.
Qed.

(** C34: what a valid configuration starts.  Let the databases that are opened
    hold each network under its id.  If [buildHub] succeeds, there is one tenant
    for each account (the one implicit user without accounts); it has the
    directories of its name, the networks its store holds, or those the
    configuration gives it when the store holds none, in the order of their
    positions, in an engine whose invariant holds and goes on to hold whatever
    the engine is told; with accounts, every plugin host is sandboxed and runs
    trusted scripts only, a login is one of an account with its password, and,
    under an absolute home, accounts whose names are single elements of a path
    share no directory (a configuration may name an account otherwise: see
    [dirs_shared]). *)
Theorem hub_starts `{UrlParse, TimeParse, Bcrypt} h :
  valid C → (∀ path d, he_open E path = Some d → database_ok d) → buildHub E C = inl h →
  (∀ name, is_Some (hub_tenant h name) ↔ name ∈ us_name <$> EffectiveUsers C) ∧
  (∀ name t, hub_tenant h name = Some t →
     (∃ u, u ∈ EffectiveUsers C ∧ us_name u = name ∧ built (EngineEnabled C) u t) ∧
     ∀ fmt l, engine_inv False (core_run fmt l (tn_core t))) ∧
  (AuthEnabled C = true →
     (∀ name t o, hub_tenant h name = Some t → tn_plugins t = Some o → po_sandbox o = true ∧ po_trusted_only o = true) ∧
     (∀ user password, is_Some (hub_login h user password) ↔
        ∃ u, u ∈ cf_users C ∧ us_name u = user ∧ bcrypt_ok (us_password_hash u) password = true) ∧
     (has_prefix "/" (cf_home C) = true → ∀ a b s t, hub_tenant h a = Some s → hub_tenant h b = Some t →
        element a → element b → a ≠ b → tn_data s ≠ tn_data t ∧ tn_scripts s ≠ tn_scripts t ∧ tn_data s ≠ tn_scripts t)).
Proof.
  intros Hv Hdb. unfold buildHub. destruct (NewHighlighter _ _); [|done].
  destruct (EngineEnabled C && negb (he_instance E)); [done|]. destruct (EngineEnabled C && negb (he_link E)); [done|].
  destruct (build_users E C _ _ ∅) as [ts|] eqn:Eb; [|done]. intros [= <-].
  destruct (effective_valid Hv) as [Hnd Hnets]. pose proof (build_users_spec _ _ _ _ Hnd Eb) as Hts.
  assert (Hbuilt : ∀ name t, ts !! name = Some t → ∃ u, u ∈ EffectiveUsers C ∧ us_name u = name ∧ built (EngineEnabled C) u t).
  { intros name t Ht. apply Hts in Ht as [(u & Hin & Hn & Hb)|[_ ?%lookup_empty_Some]]; [|done].
    exists u. split_and!; [done|done|]. apply build_user_spec; auto. }
  unfold hub_tenant, hub_login. cbn [hb_tenants hb_auth hb_hashes]. split_and!.
  - intros name. split; [intros [t (u & Hin & <- & _)%Hbuilt]; by apply list_elem_of_fmap_2|].
    intros (u & -> & Hin)%list_elem_of_fmap. clear Hbuilt Hnets Hv.
    assert (Hall : ∃ t, build_user E C (EngineEnabled C) u = inl t).
    { clear Hts Hnd. revert Eb. generalize (∅ : gmap string tenant). induction (EffectiveUsers C) as [|u' us IH]; intros m; [by apply elem_of_nil in Hin|].
      cbn [build_users]. destruct (build_user E C _ u') as [t|] eqn:Et; [|done]. apply elem_of_cons in Hin as [->|Hin]; [eauto|]. by apply IH. }
    destruct Hall as [t Ht]. exists t. apply Hts. left. eauto.
  - intros name t Ht. apply Hbuilt in Ht as (u & Hin & Hn & Hb). split; [eauto|]. intros fmt l. apply run_inv; [done|by destruct Hb].
  - intros Hau. rewrite Hau. cbn [andb]. split_and!.
    + intros name t o Ht Ho. apply Hbuilt in Ht as (u & _ & _ & Hb). rewrite (bu_plugins _ _ _ Hb o Ho).
      unfold plugin_options_of, PluginSandbox. cbn. by rewrite Hau.
    + intros user password. rewrite <- (login_spec user password Hv). fold hashes_of.
      destruct (Verify _ _ _); [by split|by split; [intros [? ?]|]].
    + intros Hh a b s t Hs Ht Ha Hb Hne. apply Hbuilt in Hs as (u & _ & <- & Hu). apply Hbuilt in Ht as (u' & _ & <- & Hu').
      pose proof (bu_dirs _ _ _ Hu) as Hd. pose proof (bu_dirs _ _ _ Hu') as Hd'.
      destruct (user_dirs_apart C _ _ Hh Hau Ha Hb) as [_ Hapart]. specialize (Hapart Hne). by rewrite <- Hd, <- Hd' in Hapart.
Qed.
End boots.

(** ** At a concrete configuration *)

#[local] Existing Instance ascii_tables.
#[local] Instance no_url : UrlParse := λ _, None.
#[local] Instance no_layouts : TimeParse := λ _ _, None.
#[local] Instance no_regexps : Regexp := {| re_ok _ := true; re_match _ _ := false |}.
#[local] Instance plain_passwords : Bcrypt := String.eqb.
#[local] Instance no_json : JsonText := {| json_text _ := "null"; text_json _ := None; float_literal _ := None |}.

(** Rows that hold the id only. *)
Definition id_params (id : string) : network_params :=
  NetworkParams id id "" [] false false "" "" "" "" "" [] [] ∅ "" [] false false "" 0 [] 0.
#[local] Instance id_rows : StoreJson :=
  {| tags_json _ := "{}"; json_tags _ := ∅; params_json p := Some (np_id p); json_params s := Some (id_params s) |}.

Definition sample_network (name : string) (connect : option bool) : NetworkConfig :=
  MkNetwork name (name +:+ ":6697") [] true false "ann" "" "" "" "" false false "" "" [] ["#a"; "#b"] [] connect 0.

Definition two_accounts : Config :=
  withDefaults (zero_config "/srv/stugan" <| cf_users :=
    [MkUser "ann" "secret" [sample_network "libera" None; sample_network "efnet" None; sample_network "off" (Some false)] [];
     MkUser "bob" "word" [] []] |>).

Definition no_rows : database := Database [] 0 ∅ ∅ ∅ ∅ 2.

Definition fresh_env (opened : database) : hub_env :=
  HubEnv (λ _, false) (λ _, true) (λ _, Some opened) true true (λ _, true) (λ _, None) (λ _, true) (λ _, Some 0%nat) true true.

Definition two_tenants : hub :=
  match buildHub (fresh_env no_rows) two_accounts with inl h => h | inr _ => Hub false ∅ 0 false ∅ end.

Lemma two_valid : valid two_accounts.
Proof. apply validate_exact. by vm_compute. Qed.

Lemma two_built : buildHub (fresh_env no_rows) two_accounts = inl two_tenants.
Proof. by vm_compute. Qed.

Lemma rows_ok path d : he_open (fresh_env no_rows) path = Some d → database_ok d.
Proof. intros [= <-] id data. cbn. by rewrite lookup_empty. Qed.

Definition starts_with (h : hub) (name : string) : list string :=
  from_option (λ t, network_ids (tn_core t)) [] (hub_tenant h name).

Lemma hub_starts_witness :
  starts_with two_tenants "ann" = ["libera"; "efnet"]%string ∧
  is_Some (hub_tenant two_tenants "bob") ∧ is_Some (hub_login two_tenants "bob" "word") ∧ ¬ is_Some (hub_login two_tenants "bob" "secret").
Proof.
  destruct (hub_starts (fresh_env no_rows) two_accounts two_tenants two_valid rows_ok two_built) as (Hdom & _ & Hacc).
  destruct (Hacc eq_refl) as (_ & Hlogin & _). split; [by vm_compute|]. split; [|split].
  - apply Hdom. right. left.
  - apply Hlogin. exists (MkUser "bob" "word" [] []). split; [right; left|by split].
  - rewrite Hlogin. intros (u & Hu & Hn & Hb). repeat (apply elem_of_cons in Hu as [->|Hu]; [by vm_compute in Hn, Hb|]). by apply elem_of_nil in Hu.
Defined.

(** The order of the configuration lasts until the next start: the networks are
    stored at one position, and read in the order of their ids. *)
Lemma configured_order_lost :
  let first := starts_with two_tenants "ann" in
  let again := match buildHub (fresh_env (from_option tn_db no_rows (hub_tenant two_tenants "ann"))) two_accounts with
               | inl h => starts_with h "ann"
               | inr _ => []
               end in
  first = ["libera"; "efnet"]%string ∧ again = ["efnet"; "libera"]%string.
Proof. by vm_compute. Qed.

(** A user who removed every network has the configured ones again after a
    restart. *)
Lemma removed_networks_return :
  let t := hub_tenant two_tenants "ann" in
  let emptied := from_option (λ t, DeleteNetwork "libera" (DeleteNetwork "efnet" (tn_db t))) no_rows t in
  match buildHub (fresh_env emptied) two_accounts with
  | inl h => starts_with h "ann" = ["libera"; "efnet"]%string
  | inr _ => False
  end.
Proof. by vm_compute. Qed.
