(* ===== verification/Archive.v ===== *)
(** * Backups: [internal/backup] and [internal/server/backup.go]

    An archive is made of a list of items, in the order they are written, and is
    read as a list of entries; the containers themselves (tar in gzip, zip), the
    image of a database and the manifest's JSON are parameters.  Handlers act on
    the tree of files and on the hub, whose tenants hold the databases. *)

From Stdlib Require Import ZArith Lia Ascii Bool.
From stdpp Require Import base tactics list gmap strings.
From S2P Require Import Prelude GoStrings GoNet Files LinkTags CoreTypes StoreDb Config Hub.

#[local] Open Scope Z_scope.

(** ** Archives *)

Inductive Format := FormatTarGz | FormatZip | FormatSQLite.

Record Manifest := MkManifest {
  mf_version : Z;
  mf_app : string;
  mf_user : string;
  mf_exported : time;
  mf_database : bool;
  mf_scripts : bool;
  mf_uploads : bool;
}.

(** The path of the database and of two directories; an empty one is left out. *)
Record CreateOptions := MkCreateOptions {
  co_format : Format;
  co_manifest : Manifest;
  co_db : string;
  co_scripts : string;
  co_uploads : string;
}.

(** What is written to an archive: a header for a directory, its name ending in a
    slash, or a file. *)
Inductive item := ADir (name : string) | AFile (name data : string).

(** What is read from one: [None] is an entry that does not open, the flag tells
    that its contents were read to their end. *)
Record arc_entry := ArcEntry {
  ae_name : string;
  ae_dir : bool;
  ae_content : option (string * bool);
}.

(** [archive/tar] over [compress/gzip], and [archive/zip].  A tar is read entry
    by entry, up to an error or its end; [None]: it is no container. *)
Class Archives := {
  tar_gz : list item → string;
  untar_gz : string → option (list arc_entry * bool);
  zip : list item → string;
  unzip : string → option (list arc_entry);
}.

(** [encoding/json] on a manifest. *)
Class ManifestJson := {
  manifest_json : Manifest → option string;
  json_manifest : string → option Manifest;
}.

(** The file [VACUUM INTO] writes, and what [ATTACH] and [quick_check] accept. *)
Class DbFile := {
  db_image : database → string;
  db_attach : string → option backup;
}.

(** A database of this build, as [ATTACH] shows it. *)
Definition snapshot (d : database) : backup :=
  Backup ["messages"; "networks"; "read_markers"; "plugin_kv"; "prefs"]
    ["id"; "msgid"; "network"; "buffer"; "buffer_fold"; "ts"; "from_nick"; "account"; "kind"; "text"; "self"; "highlight"; "tags"]
    (db_messages d) (db_networks d) (db_kv d) (db_markers d) (db_prefs d).

(** What a read entry comes from. *)
Definition entry_of_item (i : item) : arc_entry :=
  match i with ADir name => ArcEntry name true (Some (""%string, true)) | AFile name data => ArcEntry name false (Some (data, true)) end.

(** Names that fit a header. *)
Definition item_name (i : item) : string := match i with ADir name | AFile name _ => name end.
Definition item_ok (i : item) : Prop :=
  no_byte "000" (item_name i) = true ∧ match i with ADir name => has_suffix "/" name = true | AFile name _ => has_suffix "/" name = false end.

Definition gzip_magic : string := String "031" (String "139" "").
Definition zip_magic : string := "PK" +:+ String "003" (String "004" "").
Definition sqlite_magic : string := "SQLite format 3" +:+ String "000" "".

(** A container gives back what was put into it, and is recognised. *)
Class ArchiveLaws (A : Archives) := {
  untar_tar : ∀ l, Forall item_ok l → untar_gz (tar_gz l) = Some (entry_of_item <$> l, true);
  unzip_zip : ∀ l, Forall item_ok l → unzip (zip l) = Some (entry_of_item <$> l);
  tar_starts : ∀ l, has_prefix gzip_magic (tar_gz l) = true;
  zip_starts : ∀ l, l ≠ [] → has_prefix zip_magic (zip l) = true;
}.

(** ** Creating *)

Section create.
Context `{Os, Archives, ManifestJson}.

(** An archive being written, and that no error has ended it. *)
Notation writer := (list item * bool)%type.

(** [addFileToTar], [addFileToZip]. *)
Definition add_file (src name : string) (fs : files) (a : writer) : writer :=
  if negb a.2 then a
  else match Stat src fs with
       | None => a
       | Some _ => match ReadFile src fs with Some data => (a.1 ++ [AFile name data], true) | None => (a.1, false) end
       end.

(** The callback of the walk. *)
Definition add_walked (src prefix : string) (fs : files) (a : writer) (e : path * fnode) : writer :=
  if negb a.2 then a
  else
    let rel := rel_path src e.1 in
    if String.eqb rel "." then a
    else
      let name := join_path [prefix; rel] in
      match e.2 with
      | FDir => (a.1 ++ [ADir (name +:+ "/")], true)
      | FFile _ => add_file (rooted e.1) name fs a
      end.

(** [addDirToTar], [addDirToZip]. *)
Definition add_dir (src prefix : string) (fs : files) (a : writer) : writer :=
  match Stat src fs with None => a | Some _ => foldl (add_walked src prefix fs) a (Walk src fs) end.

(** The items of [createTarGz] and of [createZip]. *)
Definition collect (o : CreateOptions) (fs : files) : writer :=
  match manifest_json (co_manifest o) with
  | None => ([], false)
  | Some data =>
      let a := ([AFile "manifest.json" data], true) in
      let a := if given (co_db o) then add_file (co_db o) "stugan.db" fs a else a in
      let a := if given (co_scripts o) && snd a then add_dir (co_scripts o) "scripts" fs a else a in
      if given (co_uploads o) && snd a then add_dir (co_uploads o) "uploads" fs a else a
  end.

(** [createRawDB]. *)
Definition createRawDB (o : CreateOptions) (fs : files) : string * bool :=
  if String.eqb (co_db o) "" then (""%string, false)
  else match ReadFile (co_db o) fs with Some data => (data, true) | None => (""%string, false) end.

(** [createTarGz], [createZip]: an archive is closed even after an error. *)
Definition createTarGz (o : CreateOptions) (fs : files) : string * bool := let '(l, ok) := collect o fs in (tar_gz l, ok).
Definition createZip (o : CreateOptions) (fs : files) : string * bool := let '(l, ok) := collect o fs in (zip l, ok).

(** [Create]: what was written, and whether there was no error. *)
Definition Create (o : CreateOptions) (fs : files) : string * bool :=
  match co_format o with
  | FormatZip => createZip o fs
  | FormatSQLite => createRawDB o fs
  | FormatTarGz => createTarGz o fs
  end.
End create.

(** ** Extracting *)

Record ExtractedBackup := Extracted {
  ex_manifest : option Manifest;
  ex_db : string;
  ex_scripts : string;
  ex_uploads : string;
}.

#[export] Instance eta_extracted : Eta ExtractedBackup := λ r, Extracted (ex_manifest r) (ex_db r) (ex_scripts r) (ex_uploads r).

Inductive extract_error :=
  | BadContainer
  | BadEntry
  | FileError
  | Unrecognized.

Section extract.
Context `{Os, Archives, ManifestJson}.

(** A file that was written may say more of the backup. *)
Definition noted (clean target : string) (fs : files) (x : ExtractedBackup) : ExtractedBackup :=
  if String.eqb clean "manifest.json" then
    match json_manifest (default ""%string (ReadFile target fs)) with
    | Some m => x <| ex_manifest := Some m |>
    | None => x
    end
  else if String.eqb clean "stugan.db" then x <| ex_db := target |>
  else x.

(** One round of the loops over the entries. *)
Definition extract_entry (dest : string) (e : arc_entry) (fs : files) (x : ExtractedBackup) : files * (ExtractedBackup + extract_error) :=
  let clean := path_clean (ae_name e) in
  if has_prefix ".." clean || has_prefix "/" clean then (fs, inl x)
  else
    let target := join_path [dest; clean] in
    if ae_dir e then ((MkdirAll target fs).1, inl x)
    else
      let '(fs, ok) := MkdirAll (path_dir target) fs in
      if negb ok then (fs, inr FileError)
      else match ae_content e with
           | None => (fs, inr BadEntry)
           | Some (data, full) =>
               match WriteFile target data fs with
               | None => (fs, inr FileError)
               | Some fs => if full then (fs, inl (noted clean target fs x)) else (fs, inr BadEntry)
               end
           end.

Fixpoint extract_entries (dest : string) (l : list arc_entry) (fs : files) (x : ExtractedBackup) :
    files * (ExtractedBackup + extract_error) :=
  match l with
  | [] => (fs, inl x)
  | e :: l =>
      match extract_entry dest e fs x with
      | (fs, inl x) => extract_entries dest l fs x
      | r => r
      end
  end.

(** What is there once all is unpacked. *)
Definition extract_finish (dest : string) (fs : files) (x : ExtractedBackup) : ExtractedBackup :=
  let scripts := join_path [dest; "scripts"] in
  let x := if is_dir scripts fs then x <| ex_scripts := scripts |> else x in
  let uploads := join_path [dest; "uploads"] in
  let x := if is_dir uploads fs then x <| ex_uploads := uploads |> else x in
  if String.eqb (ex_db x) "" then
    match find (has_suffix ".db") (ReadDir dest fs) with
    | Some name => x <| ex_db := join_path [dest; name] |>
    | None => x
    end
  else x.

Definition no_backup : ExtractedBackup := Extracted None "" "" "".

Definition extractZip (data dest : string) (fs : files) : files * (ExtractedBackup + extract_error) :=
  match unzip data with
  | None => (fs, inr BadContainer)
  | Some l =>
      match extract_entries dest l fs no_backup with
      | (fs, inl x) => (fs, inl (extract_finish dest fs x))
      | r => r
      end
  end.

Definition extractTarGz (data dest : string) (fs : files) : files * (ExtractedBackup + extract_error) :=
  match untar_gz data with
  | None => (fs, inr BadContainer)
  | Some (l, ended) =>
      match extract_entries dest l fs no_backup with
      | (fs, inl x) => if ended then (fs, inl (extract_finish dest fs x)) else (fs, inr BadEntry)
      | r => r
      end
  end.

(** [Extract]. *)
Definition Extract (data dest : string) (fs : files) : files * (ExtractedBackup + extract_error) :=
  let header := str_take 512 data in
  if has_prefix sqlite_magic header then
    let db := join_path [dest; "stugan.db"] in
    match WriteFile db data fs with
    | None => (fs, inr FileError)
    | Some fs => (fs, inl (Extracted (Some (MkManifest 1 "stugan" "" zero_time true false false)) db "" ""))
    end
  else if has_prefix zip_magic header then extractZip data dest fs
  else if has_prefix gzip_magic header then extractTarGz data dest fs
  else match extractTarGz data dest fs with
       | (fs, inl x) => (fs, inl x)
       | (fs, inr _) => (fs, inr Unrecognized)
       end.
End extract.

(** ** The handlers *)

(** Also for a refusal whose text tells of the error. *)
Inductive bk_answer :=
  | BRefused (code : Z) (text : string)
  | BInvalid (e : extract_error)
  | BArchive (content_type filename body : string)
  | BImported (mode : ImportMode).

(** [now.Format("20060102-150405")]. *)
Definition compact_time (now : time) : string :=
  let secs := now / second in
  let '(y, m, d) := civil (secs / 86400) in
  let t := secs mod 86400 in
  padded 4 y +:+ padded 2 m +:+ padded 2 d +:+ "-" +:+
  padded 2 (t / 3600) +:+ padded 2 ((t / 60) mod 60) +:+ padded 2 (t mod 60).

(** The parsed form: its files and its values. *)
Record import_form := ImportForm {
  if_files : gmap string (string * bool);
  if_mode : option string;
}.

Record import_request := ImportRequest {
  iq_method : string;
  iq_mode : option string;             (** of the query *)
  iq_type : string;
  iq_form : option import_form;        (** of a multipart body within the limit *)
  iq_body : string * bool;             (** of another one, and whether reading it ends without an error *)
}.

Definition maxImportSize : Z := 500 * 1024 * 1024.

Section handlers.
Context `{UnicodeTables, Os, Archives, ManifestJson, DbFile, SqlHost, StoreJson}.

(** [Store.Backup]. *)
Definition store_backup (dest : string) (d : database) (fs : files) : option files := WriteFile dest (db_image d) (RemoveAll dest fs).

(** [Store.Import] of a file. *)
Definition store_import (src : string) (mode : ImportMode) (fs : files) (d : database) : option database :=
  data ← ReadFile src fs; b ← db_attach data; Import b mode d.

(** [os.MkdirTemp], [name] being the path it came up with. *)
Definition mkdir_temp (name : option string) (fs : files) : option (string * files) :=
  t ← name; fs ← Mkdir t fs; Some (t, fs).

Definition format_of (s : string) : Format :=
  let s := to_lower (trim_space s) in
  if String.eqb s "zip" then FormatZip
  else if existsb (String.eqb s) ["db"; "sqlite"; "sqlite3"]%string then FormatSQLite
  else FormatTarGz.

Definition format_ext (f : Format) : string :=
  match f with FormatTarGz => "tar.gz" | FormatZip => "zip" | FormatSQLite => "db" end.

Definition format_type (f : Format) : string :=
  match f with FormatTarGz => "application/gzip" | FormatZip => "application/zip" | FormatSQLite => "application/vnd.sqlite3" end.

(** [handleExport]; [user] is what [userOf] finds, [temp] what [MkdirTemp] comes
    up with. *)
Definition handleExport (method : string) (user : option string) (format : string) (now : time) (temp : option string)
    (hb : hub) (fs : files) : files * bk_answer :=
  if negb (String.eqb method "GET") then (fs, BRefused 405 "method not allowed")
  else
    let user := default "" user in
    if String.eqb user "" then (fs, BRefused 401 "unauthorized")
    else match hub_tenant hb user with
         | None => (fs, BRefused 503 "database storage not available for user")
         | Some t =>
             let f := format_of format in
             match mkdir_temp temp fs with
             | None => (fs, BRefused 500 "failed to create export")
             | Some (dir, fs) =>
                 let db := join_path [dir; "stugan.db"] in
                 match store_backup db (tn_db t) fs with
                 | None => (RemoveAll dir fs, BRefused 500 "failed to snapshot database")
                 | Some fs =>
                     let m := MkManifest 1 "stugan" user now true (given (tn_scripts t)) false in
                     let '(body, _) := Create (MkCreateOptions f m db (tn_scripts t) "") fs in
                     (RemoveAll dir fs,
                      BArchive (format_type f)
                        ("stugan-backup-" +:+ user +:+ "-" +:+ compact_time now +:+ "." +:+ format_ext f) body)
                 end
             end
         end.

(** The query's mode, trimmed; a form may ask for a merge as well. *)
Definition mode_of_query (q : option string) : ImportMode :=
  if String.eqb (to_lower (trim_space (default ""%string q))) "merge" then ImportModeMerge else ImportModeReplace.

(** [FormValue]: the query comes first. *)
Definition mode_of_form (r : import_request) (f : import_form) : ImportMode :=
  let v := match iq_mode r with Some v => v | None => default ""%string (if_mode f) end in
  if String.eqb (to_lower v) "merge" then ImportModeMerge else mode_of_query (iq_mode r).

(** What the request uploads, and in which mode. *)
Definition import_upload (r : import_request) : (string * ImportMode) + bk_answer :=
  if has_prefix "multipart/form-data" (iq_type r) then
    match iq_form r with
    | None => inr (BRefused 400 "invalid upload payload")
    | Some f =>
        match (omap (λ k, if_files f !! k) ["file"; "upload"; "archive"]%string : list (string * bool)) with
        | [] => inr (BRefused 400 "missing file field in upload")
        | (data, complete) :: _ =>
            if complete then inl (data, mode_of_form r f) else inr (BRefused 500 "failed to save uploaded file")
        end
    end
  else
    let '(data, complete) := iq_body r in
    if complete && (str_len data <=? maxImportSize) then inl (data, mode_of_query (iq_mode r))
    else inr (BRefused 500 "failed to save uploaded body").

(** The callback that restores one file. *)
Definition restore_one (src dest : string) (fs : files) (e : path * fnode) : files :=
  match e.2 with
  | FDir => fs
  | FFile _ =>
      let rel := rel_path src e.1 in
      if String.eqb rel "." then fs
      else
        let target := join_path [dest; rel] in
        let fs := (MkdirAll (path_dir target) fs).1 in
        match ReadFile (rooted e.1) fs with
        | Some data => default fs (WriteFile target data fs)
        | None => fs
        end
  end.

Definition restore_scripts (src dest : string) (fs : files) : files :=
  if negb (String.eqb src "") && negb (String.eqb dest "")
  then foldl (restore_one src dest) (MkdirAll dest fs).1 (Walk src fs) else fs.

(** Extracting what was uploaded, importing the database, restoring the scripts. *)
Definition import_archive (dir data : string) (mode : ImportMode) (t : tenant) (fs : files) : files * (database + bk_answer) :=
  let extract := join_path [dir; "extracted"] in
  let '(fs, ok) := MkdirAll extract fs in
  if negb ok then (fs, inr (BRefused 500 "failed to create extract directory"))
  else match Extract data extract fs with
       | (fs, inr e) => (fs, inr (BInvalid e))
       | (fs, inl x) =>
           if String.eqb (ex_db x) "" then (fs, inr (BRefused 400 "no database found in archive"))
           else match store_import (ex_db x) mode fs (tn_db t) with
                | None => (fs, inr (BRefused 500 "failed to import database"))
                | Some d => (restore_scripts (ex_scripts x) (tn_scripts t) fs, inl d)
                end
       end.

(** The part of [handleImport] that runs with a temporary directory. *)
Definition import_in (dir : string) (r : import_request) (t : tenant) (fs : files) : files * (database * ImportMode + bk_answer) :=
  match WriteFile (join_path [dir; "upload.archive"]) "" fs with
  | None => (fs, inr (BRefused 500 "failed to write upload file"))
  | Some fs =>
      match import_upload r with
      | inr a => (fs, inr a)
      | inl (data, mode) =>
          let fs := default fs (WriteFile (join_path [dir; "upload.archive"]) data fs) in
          if String.eqb data "" then (fs, inr (BRefused 400 "empty file uploaded"))
          else match import_archive dir data mode t fs with
               | (fs, inl d) => (fs, inl (d, mode))
               | (fs, inr a) => (fs, inr a)
               end
      end
  end.

(** [handleImport]; [resyncUser] then acts on the clients. *)
Definition handleImport (r : import_request) (user : option string) (temp : option string) (hb : hub) (fs : files) :
    hub * files * bk_answer :=
  if negb (String.eqb (iq_method r) "POST") then (hb, fs, BRefused 405 "method not allowed")
  else
    let user := default "" user in
    if String.eqb user "" then (hb, fs, BRefused 401 "unauthorized")
    else match hub_tenant hb user with
         | None => (hb, fs, BRefused 503 "database storage not available for user")
         | Some t =>
             match mkdir_temp temp fs with
             | None => (hb, fs, BRefused 500 "failed to prepare import")
             | Some (dir, fs) =>
                 match import_in dir r t fs with
                 | (fs, inl (d, mode)) =>
                     (hb <| hb_tenants ::= <[user := t <| tn_db := d |>]> |>, RemoveAll dir fs, BImported mode)
                 | (fs, inr a) => (hb, RemoveAll dir fs, a)
                 end
             end
         end.
End handlers.
