(* ===== verification/ArchiveThms.v ===== *)
(** * Backups stay inside, and restore what they saved

    Whatever is uploaded, extracting touches nothing outside the directory it is
    given, and an import nothing but the account's database and scripts. *)

From Stdlib Require Import ZArith Lia Ascii Bool.
From stdpp Require Import base tactics list gmap strings.
From S2P Require Import Prelude GoStrings GoNet Files Utf8 LinkTags CoreTypes CoreEngine StoreDb Config Hub Archive.

#[local] Open Scope Z_scope.

(** ** Extracting *)

Lemma prefix_parent {A} (d l : list A) : d `prefix_of` removelast (d ++ l) ∨ removelast (d ++ l) `prefix_of` d.
Proof.
  destruct l as [|e l _] using rev_ind.
  - right. rewrite app_nil_r. destruct d as [|x d _] using rev_ind; [done|]. rewrite removelast_last. by eexists.
  - left. rewrite app_assoc, removelast_last. by apply prefix_app_r.
Qed.

Section confined.
Context `{Os, Archives, ManifestJson}.

Lemma elements_joined dir l : Forall element l → elements_of (rooted (elements_of dir ++ l)) = elements_of dir ++ l.
Proof. intros Hl. apply elements_rooted, Forall_app. split; [apply elements_are|done]. Qed.

Lemma parent_joined dir l : Forall element l → elements_of (path_dir (rooted (elements_of dir ++ l))) = removelast (elements_of dir ++ l).
Proof. intros Hl. apply dir_of_rooted, Forall_app. split; [apply elements_are|done]. Qed.

Lemma mkdir_parent_evolves dir l fs fs' b : tree_ok fs → Forall element l →
  MkdirAll (path_dir (rooted (elements_of dir ++ l))) fs = (fs', b) → evolves (elements_of dir) fs fs'.
Proof. intros Hok Hl. apply mkdir_evolves; [done|]. rewrite parent_joined by done. apply prefix_parent. Qed.

Lemma write_joined_evolves dir l data fs fs' : tree_ok fs → Forall element l →
  WriteFile (rooted (elements_of dir ++ l)) data fs = Some fs' → evolves (elements_of dir) fs fs'.
Proof. intros Hok Hl. apply write_evolves; [done|]. rewrite elements_joined by done. by apply prefix_app_r. Qed.

Lemma extract_entry_evolves dest e fs x fs' r : has_prefix "/" dest = true → tree_ok fs →
  extract_entry dest e fs x = (fs', r) → evolves (elements_of dest) fs fs'.
Proof.
  intros Hd Hok. unfold extract_entry. destruct (_ || _) eqn:Hg; [intros [= <- _]; by apply evolves_refl|].
  apply orb_false_iff in Hg. destruct (join_inside dest (ae_name e) Hd Hg) as (l & Hl & -> & _). destruct (ae_dir e).
  { destruct (MkdirAll _ fs) as [fs1 b] eqn:Hm. intros [= <- _]. eapply mkdir_evolves; [done| |exact Hm].
    left. rewrite elements_joined by done. by apply prefix_app_r. }
  destruct (MkdirAll _ fs) as [fs1 b] eqn:Hm. apply mkdir_parent_evolves in Hm; [|done..].
  destruct b; [|by intros [= <- _]]. destruct (ae_content e) as [[data full]|]; [|by intros [= <- _]].
  destruct (WriteFile _ data fs1) as [fs2|] eqn:Hw; [|by intros [= <- _]].
  apply write_joined_evolves in Hw; [|by apply ev_ok in Hm|done]. pose proof (evolves_trans _ _ _ _ Hm Hw).
  destruct full; by intros [= <- _].
Qed.

Lemma extract_entries_evolves dest l : has_prefix "/" dest = true → ∀ fs x fs' r, tree_ok fs →
  extract_entries dest l fs x = (fs', r) → evolves (elements_of dest) fs fs'.
Proof.
  intros Hd. induction l as [|e l IH]; intros fs x fs' r Hok; simpl; [intros [= <- _]; by apply evolves_refl|].
  destruct (extract_entry dest e fs x) as [fs1 [x1|err]] eqn:He; apply extract_entry_evolves in He; try done; [|by intros [= <- _]].
  intros Hr. eapply evolves_trans; [done|]. eapply IH; [by eapply ev_ok|done].
Qed.

Lemma extract_zip_evolves data dest fs fs' r : has_prefix "/" dest = true → tree_ok fs →
  extractZip data dest fs = (fs', r) → evolves (elements_of dest) fs fs'.
Proof.
  intros Hd Hok. unfold extractZip. destruct (unzip data) as [l|]; [|intros [= <- _]; by apply evolves_refl].
  destruct (extract_entries dest l fs no_backup) as [fs1 [x|err]] eqn:He; apply extract_entries_evolves in He; try done; by intros [= <- _].
Qed.

Lemma extract_tar_evolves data dest fs fs' r : has_prefix "/" dest = true → tree_ok fs →
  extractTarGz data dest fs = (fs', r) → evolves (elements_of dest) fs fs'.
Proof.
  intros Hd Hok. unfold extractTarGz. destruct (untar_gz data) as [[l ended]|]; [|intros [= <- _]; by apply evolves_refl].
  destruct (extract_entries dest l fs no_backup) as [fs1 [x|err]] eqn:He; apply extract_entries_evolves in He; try done;
    [destruct ended|]; by intros [= <- _].
Qed.

(** Extracting touches nothing outside the directory it is given. *)
Lemma extract_evolves data dest fs fs' r : has_prefix "/" dest = true → tree_ok fs →
  Extract data dest fs = (fs', r) → evolves (elements_of dest) fs fs'.
Proof.
  intros Hd Hok. unfold Extract. destruct (has_prefix sqlite_magic _).
  { assert (Hj : join_path [dest; "stugan.db"%string] = rooted (elements_of dest ++ ["stugan.db"%string])).
    { apply join_elements; [done|done|]. apply Forall_singleton. split; [done|set_solver]. }
    rewrite Hj. destruct (WriteFile _ data fs) as [fs1|] eqn:Hw; intros [= <- _]; [|by apply evolves_refl].
    eapply write_joined_evolves; [done| |done]. apply Forall_singleton. split; [done|set_solver]. }
  destruct (has_prefix zip_magic _); [by apply extract_zip_evolves|].
  destruct (has_prefix gzip_magic _); [by apply extract_tar_evolves|].
  destruct (extractTarGz data dest fs) as [fs1 [x|err]] eqn:He; apply extract_tar_evolves in He; try done; by intros [= <- _].
Qed.
End confined.

(** ** Restoring *)

Section restore.
Context `{Os}.

Lemma rel_joined src dest q : has_prefix "/" dest = true → Forall element q → rel_path src q ≠ "."%string →
  ∃ l, l ≠ [] ∧ Forall element l ∧ l = drop (length (elements_of src)) q ∧
    join_path [dest; rel_path src q] = rooted (elements_of dest ++ l).
Proof.
  intros Hd Hq. unfold rel_path. destruct (drop _ q) as [|e l] eqn:Hl; [done|]. intros _. exists (e :: l).
  assert (Hel : Forall element (e :: l)) by (rewrite <- Hl; by apply Forall_drop). split_and!; [done..|]. by apply join_joined.
Qed.

Lemma restore_one_evolves src dest fs e : has_prefix "/" dest = true → tree_ok fs → Forall element e.1 →
  evolves (elements_of dest) fs (restore_one src dest fs e).
Proof.
  intros Hd Hok Hq. unfold restore_one. destruct e.2 as [|data]; [by apply evolves_refl|].
  destruct (String.eqb_spec (rel_path src e.1) ".") as [|Hr]; [by apply evolves_refl|].
  destruct (rel_joined src dest e.1 Hd Hq Hr) as (l & _ & Hl & _ & ->). destruct (MkdirAll _ fs) as [fs1 b] eqn:Hm. simpl.
  apply mkdir_parent_evolves in Hm; [|done..]. destruct (ReadFile _ fs1) as [d|]; [|done].
  destruct (WriteFile _ d fs1) as [fs2|] eqn:Hw; [|done]. simpl. eapply evolves_trans; [done|].
  by eapply write_joined_evolves; [eapply ev_ok|..].
Qed.

Lemma restore_all_evolves src dest l : has_prefix "/" dest = true → Forall (λ e, Forall element e.1) l → ∀ fs, tree_ok fs →
  evolves (elements_of dest) fs (foldl (restore_one src dest) fs l).
Proof.
  intros Hd. induction 1 as [|e l He _ IH]; intros fs Hok; simpl; [by apply evolves_refl|].
  pose proof (restore_one_evolves src dest fs e Hd Hok He) as Hs. eapply evolves_trans; [done|]. apply IH. by eapply ev_ok.
Qed.

Lemma walk_elements p fs : tree_ok fs → Forall (λ e, Forall element e.1) (Walk p fs).
Proof. intros Hok. apply Forall_forall. intros [q n] [Hq _]%walk_spec. eapply tk_element; eauto. Qed.

(** Restoring touches only the directory it restores to. *)
Lemma restore_evolves src dest fs : has_prefix "/" dest = true → tree_ok fs → evolves (elements_of dest) fs (restore_scripts src dest fs).
Proof.
  intros Hd Hok. unfold restore_scripts. destruct (_ && _); [|by apply evolves_refl]. destruct (MkdirAll dest fs) as [fs1 b] eqn:Hm.
  apply (mkdir_evolves (elements_of dest)) in Hm; [|done|by left]. simpl. eapply evolves_trans; [done|].
  apply restore_all_evolves; [done|by apply walk_elements|by eapply ev_ok].
Qed.
End restore.

(** ** The handlers *)

Section import.
Context `{UnicodeTables, Os, Archives, ManifestJson, DbFile, SqlHost, StoreJson}.

Lemma import_archive_spec dir data mode t fs fs' res : has_prefix "/" dir = true → has_prefix "/" (tn_scripts t) = true → tree_ok fs →
  import_archive dir data mode t fs = (fs', res) → ∃ fs1, evolves (elements_of dir) fs fs1 ∧
    match res with
    | inl d => evolves (elements_of (tn_scripts t)) fs1 fs' ∧ ∃ b, Import b mode (tn_db t) = Some d
    | inr a => fs' = fs1 ∧ ∀ mode, a ≠ BImported mode
    end.
Proof.
  intros Hd Hs Hok. unfold import_archive. assert (Hel : Forall element ["extracted"%string]).
  { apply Forall_singleton. split; [done|set_solver]. }
  rewrite (join_elements dir) by done. set (ext := rooted _).
  assert (Hext : elements_of ext = elements_of dir ++ ["extracted"%string]) by by apply elements_joined.
  destruct (MkdirAll ext fs) as [fs1 b] eqn:Hm. apply (mkdir_evolves (elements_of dir)) in Hm; [|done|left; rewrite Hext; by apply prefix_app_r].
  destruct b; simpl; [|intros [= <- <-]; by exists fs1]. destruct (Extract data ext fs1) as [fs2 r] eqn:Hx.
  apply extract_evolves in Hx; [|apply rooted_prefix|by eapply ev_ok].
  apply (evolves_weaken _ (elements_of dir)) in Hx; [|rewrite Hext; by apply prefix_app_r].
  pose proof (evolves_trans _ _ _ _ Hm Hx) as He. destruct r as [x|err]; [|intros [= <- <-]; by exists fs2].
  destruct (String.eqb _ ""); [intros [= <- <-]; by exists fs2|]. unfold store_import.
  destruct (ReadFile _ fs2 ≫= _) as [d|] eqn:Hi; [|intros [= <- <-]; by exists fs2]. intros [= <- <-]. exists fs2. split; [done|].
  split; [apply restore_evolves; [done|by eapply ev_ok]|]. apply bind_Some in Hi as (file & _ & Hi).
  apply bind_Some in Hi as (b & _ & Hi). eauto.
Qed.

Lemma import_in_spec dir r t fs fs' res : has_prefix "/" dir = true → has_prefix "/" (tn_scripts t) = true → tree_ok fs →
  import_in dir r t fs = (fs', res) → ∃ fs1, evolves (elements_of dir) fs fs1 ∧
    match res with
    | inl (d, mode) => evolves (elements_of (tn_scripts t)) fs1 fs' ∧ ∃ b, Import b mode (tn_db t) = Some d
    | inr a => fs' = fs1 ∧ ∀ mode, a ≠ BImported mode
    end.
Proof.
  intros Hd Hs Hok. unfold import_in. assert (Hel : Forall element ["upload.archive"%string]).
  { apply Forall_singleton. split; [done|set_solver]. }
  rewrite (join_elements dir) by done.
  destruct (WriteFile _ "" fs) as [fs1|] eqn:Hw; [|intros [= <- <-]; exists fs; split; [by apply evolves_refl|done]].
  apply write_joined_evolves in Hw; [|done..]. destruct (import_upload r) as [[data mode]|a] eqn:Hu.
  - assert (Hw2 : evolves (elements_of dir) fs (default fs1 (WriteFile (rooted (elements_of dir ++ ["upload.archive"%string])) data fs1))).
    { destruct (WriteFile _ data fs1) as [fs2|] eqn:Hw2; [|done]. eapply evolves_trans; [done|]. simpl.
      by eapply write_joined_evolves; [eapply ev_ok|..]. }
    set (fs2 := default fs1 _) in *. destruct (String.eqb data ""); [intros [= <- <-]; by exists fs2|].
    destruct (import_archive dir data mode t fs2) as [fs3 res'] eqn:Hi.
    apply import_archive_spec in Hi as (fs4 & He & Hr); [|done..|by eapply ev_ok].
    destruct res' as [d|a]; intros [= <- <-]; exists fs4; (split; [by eapply evolves_trans|done]).
  - intros [= <- <-]. exists fs1. split; [done|]. split; [done|]. intros mode ->. unfold import_upload in Hu.
    repeat (case_match; try done).
Qed.

(** C35: an import stays inside the account.  Whatever is uploaded, in whatever
    container, under whatever names, and whatever the file system refuses on the
    way: nothing outside the account's scripts directory is changed (a missing
    directory on the way to it apart), no file and no directory disappears or
    turns into the other, nothing is left behind of the directory the archive
    was unpacked in, and of the databases only the account's own is replaced, by
    what [Import] makes of it.  A request that is refused, at any point, and one
    without an account leave everything as it was. *)
Theorem import_confined r u dir hb t fs hb' fs' a :
  tree_ok fs → has_prefix "/" dir = true → has_prefix "/" (tn_scripts t) = true → hub_tenant hb u = Some t →
  handleImport r (Some u) (Some dir) hb fs = (hb', fs', a) →
  tree_ok fs' ∧ kept fs fs' ∧ touched (elements_of (tn_scripts t)) fs fs' ∧
  (∀ mode, a = BImported mode → ∃ b d, Import b mode (tn_db t) = Some d ∧
     hb' = hb <| hb_tenants ::= <[u := t <| tn_db := d |>]> |>) ∧
  ((∀ mode, a ≠ BImported mode) → fs' = fs ∧ hb' = hb) ∧
  (handleImport r None (Some dir) hb fs).1 = (hb, fs).
Proof.
  intros Hok Hd Hs Ht Hi. assert (Hnone : (handleImport r None (Some dir) hb fs).1 = (hb, fs)).
  { unfold handleImport. by destruct (negb _). }
  enough (Hgoal : evolves (elements_of (tn_scripts t)) fs fs' ∧
    (∀ mode, a = BImported mode → ∃ b d, Import b mode (tn_db t) = Some d ∧
       hb' = hb <| hb_tenants ::= <[u := t <| tn_db := d |>]> |>) ∧
    ((∀ mode, a ≠ BImported mode) → fs' = fs ∧ hb' = hb)).
  { destruct Hgoal as ([? ? ?] & ? & ?). by split_and!. }
  pose proof (evolves_refl (elements_of (tn_scripts t)) fs Hok) as Hr. unfold handleImport in Hi.
  destruct (negb _); [by injection Hi as <- <- <-|]. simpl in Hi. destruct (String.eqb u ""); [by injection Hi as <- <- <-|].
  rewrite Ht in Hi. destruct (Mkdir dir fs) as [fs1|] eqn:Hm; simpl in Hi; [|by injection Hi as <- <- <-].
  destruct (import_in dir r t fs1) as [fs2 res] eqn:Hin. pose proof (mkdir_spec _ _ _ Hok Hm) as (_ & _ & Hok1).
  apply import_in_spec in Hin as (fs3 & He & Hres); [|done..]. destruct res as [[d mode]|a']; injection Hi as <- <- <-.
  - destruct Hres as [Hev [b Hb]]. split; [by eapply scratch_evolves|]. split; [|by intros Hx; destruct (Hx mode)].
    intros mode' [= <-]. eauto.
  - destruct Hres as [-> Hna]. rewrite (scratch_undone dir fs fs1 fs3) by done. split; [done|]. split; [|done].
    intros mode ->. by destruct (Hna mode).
Qed.
End import.

(** ** A small container

    Every byte of a string behind an [x], a dot at its end: containers that obey
    the laws, to evaluate the model with. *)

Fixpoint enc (s : string) : string :=
  match s with "" => "." | String a s => String "x" (String a (enc s)) end%string.

Fixpoint dec (s : string) : option (string * string) :=
  match s with
  | String "." t => Some (""%string, t)
  | String "x" (String a t) => '(s, t) ← dec t; Some (String a s, t)
  | _ => None
  end.

Definition enc_item (i : item) : string := match i with ADir name => "d" +:+ enc name | AFile name data => "f" +:+ enc name +:+ enc data end.

Fixpoint enc_items (l : list item) : string := match l with [] => "" | i :: l => enc_item i +:+ enc_items l end.

Fixpoint dec_items (fuel : nat) (s : string) : option (list item) :=
  match fuel, s with
  | _, "" => Some []
  | S fuel, String "d" t => '(name, t) ← dec t; l ← dec_items fuel t; Some (ADir name :: l)
  | S fuel, String "f" t => '(name, t) ← dec t; '(data, t) ← dec t; l ← dec_items fuel t; Some (AFile name data :: l)
  | _, _ => None
  end%string.

Definition open_plain (magic s : string) : option (list arc_entry) :=
  if has_prefix magic s then map entry_of_item <$> dec_items (String.length s) (trim_prefix magic s) else None.

Definition plain_archives : Archives :=
  {| tar_gz l := gzip_magic +:+ enc_items l; untar_gz s := (λ l, (l, true)) <$> open_plain gzip_magic s;
     zip l := zip_magic +:+ enc_items l; unzip s := open_plain zip_magic s |}.

Lemma dec_enc s t : dec (enc s +:+ t) = Some (s, t).
Proof. induction s as [|a s IH]; [done|]. simpl. by rewrite IH. Qed.

Lemma dec_enc_items l : ∀ fuel, (length l < fuel)%nat → dec_items fuel (enc_items l) = Some l.
Proof.
  induction l as [|i l IH]; intros fuel Hf; [by destruct fuel|]. destruct fuel as [|fuel]; [simpl in Hf; lia|].
  simpl in Hf. destruct i as [name|name data]; simpl; rewrite ?str_app_assoc.
  - rewrite dec_enc. simpl. by rewrite IH by lia.
  - rewrite dec_enc. simpl. rewrite dec_enc. simpl. by rewrite IH by lia.
Qed.

Lemma enc_items_long l : (length l <= String.length (enc_items l))%nat.
Proof. induction l as [|i l IH]; [done|]. simpl. rewrite str_length_app. destruct i; simpl; lia. Qed.

Lemma open_packed magic l : magic ≠ ""%string → open_plain magic (magic +:+ enc_items l) = Some (entry_of_item <$> l).
Proof.
  intros Hm. unfold open_plain. rewrite prefix_app, trim_prefix_app, dec_enc_items; [done|]. rewrite str_length_app.
  pose proof (enc_items_long l). destruct magic; [done|]. simpl. lia.
Qed.

Definition plain_archive_laws : ArchiveLaws plain_archives.
Proof.
  split; intros l; cbn [untar_gz tar_gz unzip zip plain_archives].
  - intros _. by rewrite open_packed.
  - intros _. by rewrite open_packed.
  - apply prefix_app.
  - intros _. apply prefix_app.
Defined.

(** ** Two accounts and their files *)

#[local] Existing Instance plain_archives.
#[local] Existing Instance ascii_tables.
#[local] Existing Instance plain_sql.
#[local] Existing Instance plain_json.
#[local] Existing Instance granted.

Definition user_manifest : ManifestJson :=
  {| manifest_json m := Some (mf_user m); json_manifest s := Some (MkManifest 1 "stugan" s zero_time true true false) |}.

Definition sample_db : database :=
  Database [Row 1 "m1" "libera" "#Go" "#go" 5000 "ann" "" "privmsg" "hello" 0 0 ""] 1 {[ "libera" := "{}" ]}
    ∅ {[ ("libera", "#go") := 5000 ]} {[ "muted" := "[]" ]} 2.

(** What is stored in a file when [sample_db] is, and nothing else can be read. *)
Definition sample_image : string := sqlite_magic +:+ "sample".
Definition sample_file : DbFile :=
  {| db_image _ := sample_image; db_attach s := if String.eqb s sample_image then Some (snapshot sample_db) else None |}.

#[local] Existing Instance user_manifest.
#[local] Existing Instance sample_file.

Definition sample_tenant (name : string) (d : database) : tenant :=
  Tenant name ("/srv/" +:+ name +:+ "/data") ("/srv/" +:+ name +:+ "/scripts") false d None (new_core None ∅ None).

Definition sample_hub : hub :=
  Hub true ∅ 0 false {[ "ann" := sample_tenant "ann" sample_db; "bob" := sample_tenant "bob" empty_db ]}.

Definition sample_files : files :=
  list_to_map [([], FDir); (["srv"], FDir); (["tmp"], FDir); (["srv"; "ann"], FDir); (["srv"; "ann"; "scripts"], FDir);
    (["srv"; "ann"; "scripts"; "lib"], FDir); (["srv"; "ann"; "scripts"; "lib"; "util.lua"], FFile "return {}");
    (["srv"; "ann"; "scripts"; "greet.lua"], FFile "-- hi"); (["srv"; "bob"], FDir); (["srv"; "bob"; "scripts"], FDir);
    (["srv"; "bob"; "scripts"; "own.lua"], FFile "-- own")]%string.

(** A decision for the tree being well formed. *)
Definition tree_check (fs : files) : bool :=
  bool_decide (fs !! [] = Some FDir) &&
  forallb (λ e, (bool_decide (e.1 = []) || bool_decide (fs !! removelast e.1 = Some FDir)) &&
                forallb (λ s, no_byte SLASH s && negb (existsb (String.eqb s) [""; "."; ".."]%string)) e.1) (map_to_list fs).

Lemma tree_checked fs : tree_check fs = true → tree_ok fs.
Proof.
  intros [Hr Hall]%andb_true_iff. apply bool_decide_eq_true in Hr. rewrite forallb_forall in Hall.
  assert (Hq : ∀ q n, fs !! q = Some n → (q = [] ∨ fs !! removelast q = Some FDir) ∧ Forall element q).
  { intros q n Hn. assert (Hin : In (q, n) (map_to_list fs)) by by apply list_elem_of_In, elem_of_map_to_list.
    apply Hall in Hin as [Hp He]%andb_true_iff. cbn [fst] in *. split; [by rewrite orb_true_iff, !bool_decide_eq_true in Hp|].
    apply Forall_forall. intros e He'. rewrite forallb_forall in He. apply list_elem_of_In, He, andb_true_iff in He' as [Hs Hx].
    split; [done|]. apply negb_true_iff in Hx. intros Hin'. apply list_elem_of_In in Hin'.
    assert (existsb (String.eqb e) [""; "."; ".."]%string = true); [|congruence]. apply existsb_exists. exists e. split; [done|by apply String.eqb_refl]. }
  split; [done| |].
  - intros p e [n Hn]. destruct (Hq _ _ Hn) as [[Hx|Hx] _]; [by destruct p|]. by rewrite removelast_last in Hx.
  - intros p [n Hn]. by apply (Hq p n).
Qed.

Lemma sample_tree : tree_ok sample_files.
Proof. apply tree_checked. by vm_compute. Qed.

(** An upload that tries to get out: of the directory it is unpacked in, to an
    absolute path, into the other account's scripts. *)
Definition hostile : string :=
  tar_gz [AFile "stugan.db" sample_image; AFile "../../../srv/ann/scripts/greet.lua" "evil"; AFile "/srv/evil.lua" "evil";
          AFile "scripts/../../x" "evil"; AFile "scripts/new.lua" "-- new"]%string.

Definition upload (data : string) : import_request := ImportRequest "POST" None "application/gzip" None (data, true).

Definition imported : hub * files * bk_answer := handleImport (upload hostile) (Some "bob"%string) (Some "/tmp/stugan-import-1"%string) sample_hub sample_files.

Lemma import_confined_witness :
  imported.2 = BImported ImportModeReplace ∧
  imported.1.2 !! ["srv"; "bob"; "scripts"; "new.lua"]%string = Some (FFile "-- new") ∧
  imported.1.2 !! ["srv"; "ann"; "scripts"; "greet.lua"]%string = Some (FFile "-- hi") ∧
  imported.1.2 !! ["srv"; "evil.lua"]%string = None.
Proof.
  destruct imported as [[hb fs] a] eqn:Hi. unfold imported in Hi.
  destruct (import_confined (upload hostile) "bob" "/tmp/stugan-import-1" sample_hub (sample_tenant "bob" empty_db) sample_files hb fs a
    sample_tree eq_refl eq_refl eq_refl Hi) as (_ & _ & Ht & _).
  assert (Ha : imported.2 = BImported ImportModeReplace) by by vm_compute.
  assert (Hnew : imported.1.2 !! ["srv"; "bob"; "scripts"; "new.lua"]%string = Some (FFile "-- new")) by by vm_compute.
  unfold imported in Ha, Hnew. rewrite Hi in Ha, Hnew.
 cbn [fst snd]. split; [done|]. split; [done|].
  assert (Hs : elements_of (tn_scripts (sample_tenant "bob" empty_db)) = ["srv"; "bob"; "scripts"]%string) by by vm_compute.
  rewrite Hs in Ht. split.
  - destruct (Ht ["srv"; "ann"; "scripts"; "greet.lua"]%string) as [->|[[k Hk]|(_ & _ & [k Hk])]]; [by vm_compute|done|done].
  - destruct (Ht ["srv"; "evil.lua"]%string) as [->|[[k Hk]|(_ & _ & [k Hk])]]; [by vm_compute|done|done].
Defined.
