(* ===== verification/ArchiveTrip.v ===== *)
(** * What is exported can be imported

    Importing the snapshot of a database gives its tables; unpacking an archive
    gives the files that were packed; restoring gives the scripts.  Together, an
    export of one account imported into another brings everything along. *)

From Stdlib Require Import ZArith Lia Ascii Bool.
From stdpp Require Import base tactics list gmap strings sorting.
From S2P Require Import Prelude GoStrings GoNet Files LinkTags CoreTypes StoreDb StoreQuery Store StoreInv Config Hub Archive ArchiveThms.

#[local] Open Scope Z_scope.

(** ** Databases *)

(** Names are folded, and no marker lies before 1970. *)
Record db_folded (d : database) : Prop := {
  fd_rows : Forall (λ r, fold_row r = r) (db_messages d);
  fd_markers : ∀ network buffer ts, db_markers d !! (network, buffer) = Some ts → sql_fold buffer = buffer ∧ 0 ≤ ts;
}.

(** All a user has in a database. *)
Record same_tables (d d' : database) : Prop := {
  sm_messages : db_messages d' = db_messages d;
  sm_networks : db_networks d' = db_networks d;
  sm_kv : db_kv d' = db_kv d;
  sm_markers : db_markers d' = db_markers d;
  sm_prefs : db_prefs d' = db_prefs d;
}.

Section databases.
Context `{UnicodeTables, SqlHost, StoreJson}.

Lemma selected_snapshot d r : selected (snapshot d) r = r.
Proof. by destruct r. Qed.

Lemma insert_by_id_last r l : Forall (λ x, row_id x < row_id r) l → insert_by_id r l = l ++ [r].
Proof.
  induction 1 as [|x l Hx _ IH]; [done|]. simpl. rewrite (proj2 (Z.ltb_ge _ _)) by lia. by rewrite IH.
Qed.

(** The rows go in one after the other, each behind the ones before. *)
Lemma insert_rows d l : ∀ d1, ids_sorted (db_messages d1 ++ l) → unique_keys (db_messages d1 ++ l) = true →
  ∃ d2, foldl (import_row true (snapshot d)) (Some d1) l = Some d2 ∧ db_messages d2 = db_messages d1 ++ l ∧
    db_networks d2 = db_networks d1 ∧ db_kv d2 = db_kv d1 ∧ db_markers d2 = db_markers d1 ∧ db_prefs d2 = db_prefs d1.
Proof.
  induction l as [|r l IH]; intros d1 Hs Hu; [exists d1; by rewrite app_nil_r|]. cbn [foldl].
  assert (Hrow : import_row true (snapshot d) (Some d1) r = insert_with_id r d1).
  { unfold import_row. change (has_column (snapshot d) "id") with true. by rewrite selected_snapshot. }
  rewrite Hrow.
  rewrite cons_middle, app_assoc in Hs, Hu. assert (Hlt : Forall (λ x, row_id x < row_id r) (db_messages d1)).
  { apply Forall_forall. intros x Hx. apply list_elem_of_split in Hx as (l1 & l2 & He). rewrite He in Hs.
    rewrite <- !app_assoc in Hs. apply StronglySorted_app_1_r in Hs. simpl in Hs.
    apply StronglySorted_inv in Hs as [_ Hf]. rewrite Forall_forall in Hf. apply Hf. set_solver. }
  unfold insert_with_id. assert (Hn : stored r d1 || existsb (λ x, row_id x =? row_id r) (db_messages d1) = false).
  { apply orb_false_iff. split.
    - pose proof Hu as Hu'. eapply unique_sublist in Hu'; [|apply sublist_app; [reflexivity|apply sublist_nil_l]].
      rewrite app_nil_r, unique_app in Hu'. apply andb_true_iff in Hu' as [_ Hu']. by apply negb_true_iff in Hu'.
    - apply existsb_false. intros x Hx. rewrite Forall_forall in Hlt. apply Hlt in Hx. apply Z.eqb_neq. lia. }
  rewrite Hn. destruct (IH (d1 <| db_messages ::= insert_by_id r |> <| db_seq ::= Z.max (row_id r) |>)) as (d2 & Hd2 & Hm & Hrest);
    [cbn; by rewrite insert_by_id_last..|]. exists d2. split; [exact Hd2|]. rewrite Hm. cbn. rewrite insert_by_id_last by done.
  by rewrite <- app_assoc.
Qed.

Lemma put_markers l : ∀ acc : gmap (string * string) Z, NoDup l.*1 →
  (∀ k ts, (k, ts) ∈ l → sql_fold k.2 = k.2) → (∀ k, k ∈ l.*1 → acc !! k = None) →
  foldl (λ acc '((network, buffer), ts), put_marker network (sql_fold buffer) ts acc) acc l = list_to_map l ∪ acc.
Proof.
  induction l as [|[[n b] ts] l IH]; intros acc Hnd Hf Ha; simpl; [by rewrite (left_id_L ∅ (∪))|].
  apply NoDup_cons in Hnd as [Hn Hnd]. pose proof (Hf (n, b) ts ltac:(set_solver)) as Hb. simpl in Hb. rewrite Hb.
  unfold put_marker. rewrite (Ha (n, b)) by set_solver. rewrite IH; [|done|set_solver|].
  - by rewrite <- insert_union_r, insert_union_l by by apply not_elem_of_list_to_map_1.
  - intros k Hk. rewrite lookup_insert_ne; [apply Ha; set_solver|]. intros <-. done.
Qed.

Lemma fold_markers_id m : (∀ n b ts, m !! (n, b) = Some ts → sql_fold b = b) → fold_markers m = m.
Proof.
  intros Hm. unfold fold_markers. rewrite put_markers.
  - by rewrite list_to_map_to_list, (right_id_L ∅ (∪)).
  - apply NoDup_fst_map_to_list.
  - intros [n b] ts Hin. apply elem_of_map_to_list in Hin. by eapply Hm.
  - done.
Qed.

Lemma fresh_markers (m : gmap (string * string) Z) : (∀ k ts, m !! k = Some ts → 0 ≤ ts) →
  map_fold (λ '(network, fold) ts m, <[(network, fold) := Z.max ts (default 0 (m !! (network, fold)))]> m) ∅ m = m.
Proof.
  apply (map_fold_weak_ind (λ acc m, (∀ k ts, m !! k = Some ts → 0 ≤ ts) → acc = m)); [done|].
  intros [n b] ts m' acc Hn IH Hp. rewrite IH, Hn.
  - simpl. f_equal. specialize (Hp (n, b) ts). rewrite lookup_insert_eq in Hp. specialize (Hp eq_refl). lia.
  - intros k x Hk. apply (Hp k). rewrite lookup_insert_ne; [done|]. intros <-. congruence.
Qed.

(** A replacing import of a snapshot gives the tables back. *)
Lemma import_snapshot d d0 : db_ok d → db_folded d → ∃ d', Import (snapshot d) ImportModeReplace d0 = Some d' ∧ same_tables d d'.
Proof.
  intros [Hs _ _ Hu] [Hrows Hmark]. unfold Import. set (d1 := import_tables _ _).
  assert (Hd1 : db_messages d1 = [] ∧ db_networks d1 = db_networks d ∧ db_kv d1 = db_kv d ∧ db_prefs d1 = db_prefs d ∧
    db_markers d1 = db_markers d).
  { unfold d1, import_tables. change (has_table (snapshot d) "networks") with true. change (has_table (snapshot d) "plugin_kv") with true.
    change (has_table (snapshot d) "prefs") with true. change (has_table (snapshot d) "read_markers") with true. cbn -[fold_markers].
    rewrite !(right_id_L ∅ (∪)). split_and!; try done. rewrite fold_markers_id by (intros n b ts Hk; by apply Hmark in Hk as [? _]).
    apply fresh_markers. intros [n b] ts Hk. by apply Hmark in Hk as [_ ?]. }
  destruct Hd1 as (Hm0 & Hnet & Hkv & Hpr & Hmk). change (has_table (snapshot d) "messages") with true. unfold import_messages.
  change (forallb (has_column (snapshot d)) required_columns) with true. change (bk_messages (snapshot d)) with (db_messages d).
  destruct (insert_rows d (db_messages d) d1) as (d2 & -> & Hm & Hn2 & Hk2 & Hk3 & Hp2); [by rewrite Hm0..|]. rewrite Hm0 in Hm. simpl in Hm.
  cbn [mbind option_bind]. unfold fold_imported. assert (Hf : fold_row <$> db_messages d2 = db_messages d).
  { rewrite Hm. rewrite <- (list_fmap_id (db_messages d)) at 2. by apply Forall_fmap_ext_1. }
  cbn -[fold_row fmap unique_keys]. rewrite Hf, Hu. eexists. split; [done|]. split; cbn; congruence.
Qed.
End databases.

(** ** Packing *)

#[local] Existing Instance granted.

(** The item for a path and what is there. *)
Definition item_at (e : path * fnode) : item :=
  match e.2 with FDir => ADir (str_join "/" e.1 +:+ "/") | FFile data => AFile (str_join "/" e.1) data end.

(** What a walk finds, with its place in the archive. *)
Definition placed (src prefix : string) (e : path * fnode) : option (path * fnode) :=
  match drop (length (elements_of src)) e.1 with [] => None | l => Some (prefix :: l, e.2) end.

Definition saved (src prefix : string) (fs : files) : list (path * fnode) :=
  match Stat src fs with None => [] | Some _ => omap (placed src prefix) (Walk src fs) end.

Lemma joined_not_dot l : l ≠ [] → Forall element l → str_join "/" l ≠ "."%string.
Proof.
  destruct l as [|e l]; [done|]. intros _ [[_ He] _]%Forall_cons. destruct (join_head e l) as [s ->].
  destruct e as [|a [|b e]]; [set_solver| |done]. intros [= -> ->]. set_solver.
Qed.

Lemma join_under prefix l : element prefix → l ≠ [] → Forall element l →
  join_path [prefix; str_join "/" l] = str_join "/" (prefix :: l).
Proof.
  intros Hp Hne Hl. unfold join_path. pose proof (proj2 (join_relative l Hne Hl)) as Hj.
  rewrite filter_cons_True by (destruct Hp; set_solver). rewrite filter_cons_True by done. rewrite filter_nil.
  destruct l as [|e l]; [done|]. change (str_join "/" [prefix; str_join "/" (e :: l)]) with (prefix +:+ "/" +:+ str_join "/" (e :: l)).
  rewrite <- str_join_cons. by apply clean_joined; [|constructor].
Qed.

Lemma drop_prefix_rooted src (q : path) : Forall element q → Forall element (drop (length (elements_of src)) q).
Proof. apply Forall_drop. Qed.

Section pack.
Context `{Archives, ManifestJson}.

Lemma add_walked_placed src prefix fs l e : element prefix → fs !! e.1 = Some e.2 → Forall element e.1 →
  add_walked src prefix fs (l, true) e = (l ++ (item_at <$> option_list (placed src prefix e)), true).
Proof.
  intros Hp He Hq. unfold add_walked, placed, rel_path. pose proof (drop_prefix_rooted src _ Hq) as Hd. cbn [negb fst snd].
  destruct (drop _ e.1) as [|x r] eqn:Hr; [by rewrite app_nil_r|]. rewrite (proj2 (String.eqb_neq _ _)) by by apply joined_not_dot.
  rewrite join_under by done. unfold item_at. destruct e.2 as [|data] eqn:Hn; [done|]. unfold add_file, ReadFile, Stat. cbn [negb fst snd].
  rewrite elements_rooted, He by done. done.
Qed.

Lemma walked src prefix fs l0 l : element prefix → Forall (λ e, fs !! e.1 = Some e.2 ∧ Forall element e.1) l →
  foldl (add_walked src prefix fs) (l0, true) l = (l0 ++ (item_at <$> omap (placed src prefix) l), true).
Proof.
  intros Hp Hl. revert l0. induction Hl as [|e l [He Hq] _ IH]; intros l0; [by rewrite app_nil_r|]. cbn [foldl].
  rewrite add_walked_placed, IH, <- app_assoc, <- fmap_app by done. do 3 f_equal. simpl. by destruct (placed src prefix e).
Qed.

Lemma add_dir_saved src prefix fs l0 : tree_ok fs → element prefix →
  add_dir src prefix fs (l0, true) = (l0 ++ (item_at <$> saved src prefix fs), true).
Proof.
  intros Hok Hp. unfold add_dir, saved. destruct (Stat src fs); [|by rewrite app_nil_r]. apply walked; [done|].
  apply Forall_forall. intros [q n] [Hq _]%walk_spec. split; [done|]. eapply tk_element; eauto.
Qed.

(** What lies in the scripts directory, at its place. *)
Lemma saved_spec src prefix fs l n : tree_ok fs → (l, n) ∈ saved src prefix fs ↔
  ∃ rel, rel ≠ [] ∧ l = prefix :: rel ∧ fs !! (elements_of src ++ rel) = Some n.
Proof.
  intros Hok. unfold saved. split.
  - destruct (Stat src fs) eqn:Hs; [|by intros ?%not_elem_of_nil]. intros ([q m] & Hq & Hp)%list_elem_of_omap.
    apply walk_spec in Hq as [Hq [rel ->]]. unfold placed in Hp. cbn [fst snd] in Hp. rewrite drop_app_length in Hp.
    destruct rel as [|e rel]; [done|]. injection Hp as <- <-. by exists (e :: rel).
  - intros (rel & Hne & -> & Hn). assert (Hd : fs !! elements_of src = Some FDir).
    { eapply ancestors; [done|eauto|by eexists|]. intros Hx. destruct rel; [done|].
      apply (f_equal length) in Hx. rewrite length_app in Hx. simpl in Hx. lia. }
    unfold Stat. rewrite Hd. apply list_elem_of_omap. exists (elements_of src ++ rel, n).
    split; [apply walk_spec; split; [done|by eexists]|]. unfold placed. cbn [fst snd]. rewrite drop_app_length. by destruct rel.
Qed.

Lemma saved_nodup src prefix fs : NoDup (saved src prefix fs).*1.
Proof.
  unfold saved. destruct (Stat src fs); [|constructor].
  assert (Hw : ∀ q n, (q, n) ∈ Walk src fs → elements_of src `prefix_of` q) by (intros q n Hq; by apply walk_spec in Hq as [_ ?]).
  pose proof (walk_nodup src fs) as Hnd. induction (Walk src fs) as [|[q n] w IH]; [constructor|].
  apply NoDup_cons in Hnd as [Hn Hnd]. assert (IH' : NoDup (omap (placed src prefix) w).*1) by (apply IH; [set_solver|done]).
  cbn [omap list_omap]. destruct (placed src prefix (q, n)) as [[l m]|] eqn:Hp; [|done]. rewrite fmap_cons. apply NoDup_cons. split; [|done].
  destruct (Hw q n ltac:(set_solver)) as [r ->]. unfold placed in Hp. cbn [fst snd] in Hp. rewrite drop_app_length in Hp.
  destruct r as [|x r]; [done|]. injection Hp as <- <-. cbn [fst]. intros ([l' m'] & Heq & Hin)%list_elem_of_fmap. cbn [fst] in Heq. subst l'.
  apply list_elem_of_omap in Hin as ([q' n'] & Hq' & Hp). destruct (Hw q' n' ltac:(set_solver)) as [r' ->].
  unfold placed in Hp. cbn [fst snd] in Hp. rewrite drop_app_length in Hp. destruct r' as [|y r']; [done|].
  injection Hp as -> -> ->. apply Hn. apply list_elem_of_fmap. by exists (elements_of src ++ x :: r, m').
Qed.
End pack.

(** Names below [d] that have no NUL in them. *)
Definition names_plain (d : path) (fs : files) : Prop := ∀ p, is_Some (fs !! (d ++ p)) → Forall (λ e, no_byte "000" e = true) p.

Lemma str_drop_more s t k : str_drop (String.length s + k) (s +:+ t) = str_drop k t.
Proof. by induction s. Qed.

Lemma suffix_app s t : t ≠ ""%string → has_suffix "/" (s +:+ t) = has_suffix "/" t.
Proof.
  intros Ht. unfold has_suffix. rewrite str_length_app. simpl String.length.
  assert (Hl : (1 ≤ String.length t)%nat) by (destruct t; simpl; [done|lia]).
  replace (String.length s + String.length t - 1)%nat with (String.length s + (String.length t - 1))%nat by lia.
  rewrite str_drop_more. f_equal. apply eq_true_iff_eq. rewrite !Nat.leb_le. lia.
Qed.

Lemma element_suffix e : no_byte SLASH e = true → has_suffix "/" e = false.
Proof.
  induction e as [|a e IH]; [done|]. unfold no_byte. simpl. intros [Ha He]%andb_true_iff. destruct e as [|b e].
  - apply negb_true_iff in Ha. unfold has_suffix. simpl.
    change "/"%char with SLASH. by rewrite Ha.
  - change (String a (String b e)) with (String a "" +:+ String b e). rewrite suffix_app by done. by apply IH.
Qed.

Lemma joined_suffix l : Forall element l → has_suffix "/" (str_join "/" l) = false.
Proof.
  induction 1 as [|e l [He _] Hl IH]; [done|]. destruct l as [|x l]; [by apply element_suffix|].
  rewrite str_join_cons, <- str_app_assoc, suffix_app by by apply join_relative. done.
Qed.

Lemma joined_plain l : Forall (λ e, no_byte "000" e = true) l → no_byte "000" (str_join "/" l) = true.
Proof.
  induction 1 as [|e l He _ IH]; [done|]. destruct l as [|x l]; [done|]. rewrite str_join_cons. unfold no_byte in *.
  by rewrite !str_all_app, He, IH.
Qed.

Lemma item_at_ok e : Forall element e.1 → Forall (λ e, no_byte "000" e = true) e.1 → item_ok (item_at e).
Proof.
  intros He Hp. unfold item_ok, item_at. pose proof (joined_plain _ Hp). destruct e.2; cbn [item_name].
  - split; [unfold no_byte in *; by rewrite str_all_app, H|]. by rewrite suffix_app.
  - split; [done|]. by apply joined_suffix.
Qed.

Section collected.
Context `{Archives, ManifestJson}.

Definition packed (m img : string) (src : string) (fs : files) : list (path * fnode) :=
  (["manifest.json"%string], FFile m) :: (["stugan.db"%string], FFile img) :: saved src "scripts" fs.

Lemma collect_packed o fs m img : tree_ok fs → manifest_json (co_manifest o) = Some m → given (co_db o) = true →
  ReadFile (co_db o) fs = Some img → given (co_scripts o) = true → co_uploads o = ""%string →
  collect o fs = (item_at <$> packed m img (co_scripts o) fs, true).
Proof.
  intros Hok Hm Hgd Hr Hgs Hu. unfold collect. rewrite Hm, Hgd, Hgs, Hu. cbn [given andb].
  assert (Hadd : add_file (co_db o) "stugan.db" fs ([AFile "manifest.json" m], true) = ([AFile "manifest.json" m; AFile "stugan.db" img], true)).
  { unfold add_file. cbn [negb snd fst]. rewrite Hr. unfold ReadFile in Hr. by destruct (Stat (co_db o) fs). }
  rewrite Hadd. cbn [snd andb]. rewrite add_dir_saved; [done|done|]. split; [done|set_solver].
Qed.

Lemma packed_elements m img src fs : tree_ok fs → Forall (λ e, Forall element e.1) (packed m img src fs).
Proof.
  intros Hok. assert (He : ∀ e, e ∈ ["manifest.json"; "stugan.db"; "scripts"]%string → element e).
  { intros e He. rewrite !elem_of_cons, elem_of_nil in He. destruct He as [->|[->|[->|[]]]]; (split; [done|set_solver]). }
  constructor; [apply Forall_singleton, He; set_solver|]. constructor; [apply Forall_singleton, He; set_solver|].
  apply Forall_forall. intros [l n] (rel & Hne & -> & Hn)%saved_spec; [|done]. constructor; [apply He; set_solver|].
  eapply Forall_app. eapply tk_element; eauto.
Qed.

Lemma packed_items m img src fs : tree_ok fs → names_plain (elements_of src) fs → Forall item_ok (item_at <$> packed m img src fs).
Proof.
  intros Hok Hp. pose proof (packed_elements m img src fs Hok) as He. apply Forall_fmap. rewrite Forall_forall in He |- *.
  intros [l n] Hin. apply item_at_ok; [by apply He|]. unfold packed in Hin. rewrite !elem_of_cons in Hin.
  destruct Hin as [[= -> _]|[[= -> _]|Hin]]; [by repeat constructor..|].
  apply saved_spec in Hin as (rel & _ & -> & Hn); [|done]. constructor; [done|]. apply Hp. eauto.
Qed.

(** Nothing is packed twice, and no file in the place of a directory. *)
Record consistent (L : list (path * fnode)) : Prop := {
  cs_element : Forall (λ e, Forall element e.1) L;
  cs_head : ∀ l n, (l, n) ∈ L → ∃ e r, l = e :: r ∧ has_prefix ".." e = false;
  cs_nodup : NoDup L.*1;
  cs_parent : ∀ l data l' n, (l, FFile data) ∈ L → (l', n) ∈ L → l `prefix_of` l' → l = l';
}.

Lemma packed_consistent m img src fs : tree_ok fs → consistent (packed m img src fs).
Proof.
  intros Hok. assert (Hs : ∀ l n, (l, n) ∈ saved src "scripts" fs → ∃ rel, rel ≠ [] ∧ l = "scripts"%string :: rel ∧ fs !! (elements_of src ++ rel) = Some n).
  { intros l n Hin. by apply saved_spec in Hin. }
  split.
  - by apply packed_elements.
  - intros l n Hin. unfold packed in Hin. rewrite !elem_of_cons in Hin.
    destruct Hin as [[= -> _]|[[= -> _]|Hin]]; [by eexists _, []..|]. apply Hs in Hin as (rel & _ & -> & _). by eexists _, rel.
  - unfold packed. rewrite !fmap_cons. cbn [fst]. rewrite !NoDup_cons, elem_of_cons. split_and!; [|..|apply saved_nodup].
    + intros [|([l n] & Heq & Hin)%list_elem_of_fmap]; [done|]. apply Hs in Hin as (rel & _ & -> & _). done.
    + intros ([l n] & Heq & Hin)%list_elem_of_fmap. apply Hs in Hin as (rel & _ & -> & _). done.
  - intros l data l' n Hl Hl' Hp. unfold packed in Hl, Hl'. rewrite !elem_of_cons in Hl, Hl'.
    destruct Hl as [[= -> _]|[[= -> _]|Hl]], Hl' as [[= -> _]|[[= -> _]|Hl']]; try done;
      try (apply Hs in Hl as (rel & Hne & -> & Hn)); try (apply Hs in Hl' as (rel' & Hne' & -> & Hn'));
      try (by apply prefix_cons_inv_1 in Hp).
    apply prefix_cons_inv_2 in Hp. f_equal. destruct (decide (rel = rel')) as [|Hd]; [done|].
    assert (fs !! (elements_of src ++ rel) = Some FDir); [|congruence].
    eapply ancestors; [done|eauto|destruct Hp as [k ->]; exists k; by rewrite app_assoc|]. intros Hx. by apply app_inv_head in Hx.
Qed.
End collected.

(** ** Unpacking *)

Lemma joined_inside e r : element e → has_prefix ".." e = false → has_prefix ".." (str_join "/" (e :: r)) = false.
Proof.
  intros [_ He] Hp. destruct (join_head e r) as [s ->]. destruct e as [|a [|b e]]; [set_solver| |].
  - unfold has_prefix. cbn [String.append String.prefix]. destruct (ascii_dec "." a) as [<-|]; [set_solver|done].
  - unfold has_prefix in *. cbn [String.append String.prefix] in *. destruct (ascii_dec "." a), (ascii_dec "." b); try done. by destruct e.
Qed.

Lemma joined_inj l l' : l ≠ [] → l' ≠ [] → Forall element l → Forall element l' → str_join "/" l = str_join "/" l' → l = l'.
Proof.
  assert (Hs : ∀ l, l ≠ [] → Forall element l → split_byte SLASH (str_join "/" l) = l).
  { intros k Hk He. apply (split_join SLASH); [done|]. eapply Forall_impl; [exact He|]. by intros e [? _]. }
  intros Hn Hn' He He' Heq. rewrite <- (Hs l), <- (Hs l'), Heq; done.
Qed.

(** Below [d] lie the files of [L], and the directories they need. *)
Record unpacked (d : path) (L : list (path * fnode)) (fs : files) : Prop := {
  up_ok : tree_ok fs;
  up_dir : fs !! d = Some FDir;
  up_file : ∀ p data, fs !! (d ++ p) = Some (FFile data) ↔ (p, FFile data) ∈ L;
  up_dirs : ∀ p, fs !! (d ++ p) = Some FDir → p = [] ∨ ∃ l n, (l, n) ∈ L ∧ p `prefix_of` l ∧ (p = l → n = FDir);
}.

(** The way to a place is free. *)
Lemma way_free d L fs l : unpacked d L fs → (∀ p data, (p, FFile data) ∈ L → ¬ p `prefix_of` l) →
  ∀ q data, q `prefix_of` d ++ l → fs !! q ≠ Some (FFile data).
Proof.
  intros Hu Hl q data Hq Hf. destruct (prefix_weak_total q d (d ++ l)) as [Hx|[p ->]]; [done|by eexists|..].
  - pose proof (up_dir _ _ _ Hu). destruct (decide (q = d)) as [->|Hne]; [congruence|].
    assert (fs !! q = Some FDir); [|congruence]. by eapply ancestors; [eapply up_ok|eauto|..].
  - apply (up_file _ _ _ Hu) in Hf. apply (Hl p data Hf). destruct Hq as [k Hk]. rewrite <- app_assoc in Hk.
    apply app_inv_head in Hk as ->. by eexists.
Qed.

(** Directories on the way do not count. *)
Lemma unpacked_dirs d L fs fs' l : unpacked d L fs → tree_ok fs' → dirs_to (d ++ l) fs fs' →
  fs' !! d = Some FDir ∧ (∀ p data, fs' !! (d ++ p) = Some (FFile data) ↔ (p, FFile data) ∈ L) ∧
  (∀ p, fs' !! (d ++ p) = Some FDir → fs !! (d ++ p) = Some FDir ∨ p `prefix_of` l).
Proof.
  intros Hu Hok Hd. split_and!.
  - eapply kept_dir; [by eapply dirs_kept|apply Hu].
  - intros p data. rewrite <- (up_file _ _ _ Hu). destruct (Hd (d ++ p)) as [->|(-> & -> & _)]; done.
  - intros p Hp. destruct (Hd (d ++ p)) as [Hx|(_ & _ & [k Hk])]; [left; congruence|]. right.
    rewrite <- app_assoc in Hk. apply app_inv_head in Hk as ->. by eexists.
Qed.

Section unpack.
Context `{Archives, ManifestJson}.

Definition is_db (e : path * fnode) : bool := bool_decide (e.1 = ["stugan.db"%string]) && negb (kind e.2).

Lemma fresh_entry L1 e L2 : consistent (L1 ++ e :: L2) → ∀ n, (e.1, n) ∉ L1.
Proof.
  intros [_ _ Hnd _] n Hin. rewrite fmap_app, fmap_cons in Hnd. apply NoDup_app in Hnd as (_ & Hd & _).
  apply (Hd e.1); [|by left]. apply list_elem_of_fmap. by exists (e.1, n).
Qed.

Lemma way_before L1 e L2 : consistent (L1 ++ e :: L2) → ∀ p data, (p, FFile data) ∈ L1 → ¬ p `prefix_of` e.1.
Proof.
  intros Hc p data Hin Hp. destruct e as [l n]. assert (p = l) as ->.
  { eapply (cs_parent _ Hc); [apply elem_of_app; by left|apply elem_of_app; right; by left|done]. }
  by apply (fresh_entry _ _ _ Hc (FFile data)).
Qed.

Lemma clean_entry L1 l n L2 : consistent (L1 ++ (l, n) :: L2) →
  l ≠ [] ∧ Forall element l ∧ has_prefix ".." (str_join "/" l) = false ∧ has_prefix "/" (str_join "/" l) = false.
Proof.
  intros Hc. pose proof (cs_element _ Hc) as He. apply Forall_app in He as [_ [Hl _]%Forall_cons]. cbn [fst] in Hl.
  destruct (cs_head _ Hc l n) as (e & r & -> & Hdots); [set_solver|]. split_and!; [done|done| |by apply join_relative].
  apply joined_inside; [by inversion Hl|done].
Qed.

(** Once its directory is there, the next file can be put in its place. *)
Lemma unpacked_put d L1 l z data L2 fs fs1 : consistent (L1 ++ (l ++ [z], FFile data) :: L2) → unpacked d L1 fs →
  tree_ok fs1 → dirs_to (d ++ l) fs fs1 → fs1 !! (d ++ l) = Some FDir →
  fs1 !! ((d ++ l) ++ [z]) ≠ Some FDir ∧ unpacked d (L1 ++ [(l ++ [z], FFile data)]) (<[(d ++ l) ++ [z] := FFile data]> fs1).
Proof.
  intros Hc Hu Hok1 Hds Hhere. destruct (unpacked_dirs _ _ _ _ _ Hu Hok1 Hds) as (Hd' & Hf & Hdir).
  destruct (clean_entry _ _ _ _ Hc) as (Hne & Hl & _). rewrite <- app_assoc in *.
  assert (Hnd : fs1 !! (d ++ l ++ [z]) ≠ Some FDir).
  { intros Hx. apply Hdir in Hx as [Hx|Hx]; [|apply prefix_length in Hx; rewrite length_app in Hx; simpl in Hx; lia].
    destruct (up_dirs _ _ _ Hu _ Hx) as [|(l' & n & Hx' & Hp & _)]; [done|].
    assert (l ++ [z] = l') as <- by (eapply (cs_parent _ Hc); [apply elem_of_app; right; by left|apply elem_of_app; by left|done]).
    by apply (fresh_entry _ _ _ Hc n). }
  split; [done|]. split.
  - rewrite app_assoc in *. apply tree_insert; [done|done| |done]. apply Forall_app in Hl as [_ Hz]. by apply Forall_cons in Hz as [? _].
  - rewrite lookup_insert_ne; [done|]. intros Hx. apply (f_equal length) in Hx. rewrite !length_app in Hx. simpl in Hx. lia.
  - intros p data'. rewrite elem_of_app, list_elem_of_singleton. destruct (decide (l ++ [z] = p)) as [<-|Hp].
    + rewrite lookup_insert_eq. split; [intros [= ->]; by right|]. intros [Hx|[= ->]]; [|done].
      by apply (fresh_entry _ _ _ Hc (FFile data')) in Hx.
    + rewrite lookup_insert_ne by (intros Hx; by apply app_inv_head in Hx). rewrite Hf. naive_solver.
  - intros p Hp. destruct (decide (l ++ [z] = p)) as [<-|Hne']; [by rewrite lookup_insert_eq in Hp|].
    rewrite lookup_insert_ne in Hp by (intros Hx; by apply app_inv_head in Hx). destruct (Hdir p Hp) as [Hx|Hx].
    + destruct (up_dirs _ _ _ Hu p Hx) as [|(l' & n & Hi & ?)]; [by left|right]. exists l', n. split; [apply elem_of_app; by left|done].
    + right. exists (l ++ [z]), (FFile data). split; [apply elem_of_app; right; by left|]. split; [by apply prefix_app_r|]. by intros ->.
Qed.

Lemma noted_db l data target fs x : l ≠ [] → Forall element l →
  let x' := noted (str_join "/" l) target fs x in
  ex_scripts x' = ex_scripts x ∧ ex_db x' = (if is_db (l, FFile data) then target else ex_db x).
Proof.
  intros Hne Hl. cbv zeta. assert (Hdb : String.eqb (str_join "/" l) "stugan.db" = is_db (l, FFile data)).
  { unfold is_db. cbn [fst snd kind negb]. rewrite andb_true_r. apply eq_true_iff_eq. rewrite String.eqb_eq, bool_decide_eq_true.
    split; [|by intros ->]. intros Hj. apply (joined_inj l ["stugan.db"%string]); try done. apply Forall_singleton. split; [done|set_solver]. }
  unfold noted. rewrite Hdb. destruct (String.eqb_spec (str_join "/" l) "manifest.json") as [Hm|Hm].
  - rewrite Hm in Hdb. rewrite <- Hdb. by destruct (json_manifest _).
  - by destruct (is_db (l, FFile data)).
Qed.

Lemma unpack_dir dest L1 l L2 fs x : has_prefix "/" dest = true → consistent (L1 ++ (l, FDir) :: L2) → unpacked (elements_of dest) L1 fs →
  ∃ fs', extract_entry dest (entry_of_item (item_at (l, FDir))) fs x = (fs', inl x) ∧ unpacked (elements_of dest) (L1 ++ [(l, FDir)]) fs'.
Proof.
  intros Hd Hc Hu. destruct (clean_entry _ _ _ _ Hc) as (Hne & Hl & Hin & Hrel). pose proof (clean_joined l Hne Hl) as [_ Hcl].
  unfold extract_entry. cbn [item_at entry_of_item ae_name ae_dir fst snd]. rewrite Hcl, Hin, Hrel. cbn [orb].
  rewrite join_joined by done. destruct (mkdir_granted (rooted (elements_of dest ++ l)) fs) as (fs' & Hm & Hok & Hds & Hhere); [apply Hu| |].
  - rewrite elements_joined by done. intros q data. apply (way_free _ L1); [done|]. by apply (way_before _ (l, FDir) L2).
  - rewrite elements_joined in Hds by done. exists fs'. rewrite Hm. split; [done|].
    destruct (unpacked_dirs _ _ _ _ _ Hu Hok Hds) as (Hd' & Hf & Hdir). split; [done..| |].
    + intros p data. rewrite Hf, elem_of_app, list_elem_of_singleton. naive_solver.
    + intros p Hp. destruct (Hdir p Hp) as [Hx|Hx].
      * destruct (up_dirs _ _ _ Hu p Hx) as [|(l' & n & Hi & ?)]; [by left|right]. exists l', n. split; [apply elem_of_app; by left|done].
      * right. exists l, FDir. split; [apply elem_of_app; right; by left|done].
Qed.

Lemma unpack_file dest L1 l data L2 fs x : has_prefix "/" dest = true → consistent (L1 ++ (l, FFile data) :: L2) →
  unpacked (elements_of dest) L1 fs →
  ∃ fs' x', extract_entry dest (entry_of_item (item_at (l, FFile data))) fs x = (fs', inl x') ∧
    unpacked (elements_of dest) (L1 ++ [(l, FFile data)]) fs' ∧ ex_scripts x' = ex_scripts x ∧
    ex_db x' = (if is_db (l, FFile data) then rooted (elements_of dest ++ l) else ex_db x).
Proof.
  intros Hd Hc Hu. destruct (clean_entry _ _ _ _ Hc) as (Hne & Hl & Hin & Hrel). pose proof (clean_joined l Hne Hl) as [Hcl _].
  unfold extract_entry. cbn [item_at entry_of_item ae_name ae_dir ae_content fst snd]. rewrite Hcl, Hin, Hrel. cbn [orb].
  rewrite join_joined by done. destruct l as [|z l _] using rev_ind; [done|].
  assert (Hpd : elements_of (path_dir (rooted (elements_of dest ++ l ++ [z]))) = elements_of dest ++ l).
  { rewrite parent_joined by done. by rewrite app_assoc, removelast_last. }
  destruct (mkdir_granted (path_dir (rooted (elements_of dest ++ l ++ [z]))) fs) as (fs1 & -> & Hok1 & Hds & Hhere); [apply Hu| |].
  { rewrite Hpd. apply (way_free _ L1); [done|]. intros p data' Hx Hp. apply (way_before _ _ _ Hc p data' Hx). by apply prefix_app_r. }
  rewrite Hpd in Hds, Hhere. cbn [negb]. destruct (unpacked_put _ _ _ _ _ _ _ _ Hc Hu Hok1 Hds Hhere) as [Hnd Hup].
  rewrite (write_granted _ data fs1 (elements_of dest ++ l) z) by (done || by rewrite elements_joined, app_assoc).
  eexists _, _. split; [done|]. split; [done|]. by apply noted_db.
Qed.

(** Unpacking what was packed. *)
Lemma unpack_all dest L : has_prefix "/" dest = true → ∀ L1 fs x, consistent (L1 ++ L) → unpacked (elements_of dest) L1 fs →
  ∃ fs' x', extract_entries dest (entry_of_item <$> (item_at <$> L)) fs x = (fs', inl x') ∧ unpacked (elements_of dest) (L1 ++ L) fs' ∧
    ex_scripts x' = ex_scripts x ∧
    ex_db x' = (if existsb is_db L then rooted (elements_of dest ++ ["stugan.db"%string]) else ex_db x).
Proof.
  intros Hd. induction L as [|[l n] L IH]; intros L1 fs x Hc Hu; [rewrite app_nil_r; by exists fs, x|].
  rewrite !fmap_cons. cbn [extract_entries existsb]. rewrite cons_middle, app_assoc in Hc |- *. destruct n as [|data].
  - destruct (unpack_dir dest L1 l L fs x Hd) as (fs1 & -> & Hu1); [by rewrite <- app_assoc in Hc|done|].
    destruct (IH _ fs1 x Hc Hu1) as (fs' & x' & -> & ? & ? & Hdb). exists fs', x'. split_and!; [done..|]. rewrite Hdb.
    unfold is_db at 2. cbn [snd kind negb]. by rewrite andb_false_r.
  - destruct (unpack_file dest L1 l data L fs x Hd) as (fs1 & x1 & -> & Hu1 & Hs1 & Hdb1); [by rewrite <- app_assoc in Hc|done|].
    destruct (IH _ fs1 x1 Hc Hu1) as (fs' & x' & -> & ? & Hs & Hdb). exists fs', x'. split_and!; [done|done|congruence|].
    rewrite Hdb, Hdb1. destruct (is_db (l, FFile data)) eqn:Hi; [|done]. unfold is_db in Hi. apply andb_true_iff in Hi as [Hi%bool_decide_eq_true _].
    cbn [fst] in Hi. subst l. by destruct (existsb is_db L).
Qed.
End unpack.

Lemma unpacked_nothing d fs : tree_ok fs → fs !! d = Some FDir → (∀ p, p ≠ [] → fs !! (d ++ p) = None) → unpacked d [] fs.
Proof.
  intros Hok Hd Hn. split; [done..| |].
  - intros p data. split; [|by intros ?%not_elem_of_nil]. destruct (decide (p = [])) as [->|Hp]; [by rewrite app_nil_r, Hd|by rewrite Hn].
  - intros p Hp. left. destruct (decide (p = [])) as [|Hne]; [done|]. by rewrite Hn in Hp.
Qed.

(** The scripts that were packed lie where they are looked for, and nothing else does. *)
Record scripts_at (d : path) (src : path) (fs0 fs : files) : Prop := {
  sa_files : ∀ rel data, rel ≠ [] → fs0 !! (src ++ rel) = Some (FFile data) → fs !! (d ++ rel) = Some (FFile data);
  sa_kind : ∀ rel n, rel ≠ [] → fs !! (d ++ rel) = Some n → kind <$> fs0 !! (src ++ rel) = Some (kind n);
}.

Lemma unpacked_scripts d m img src fs0 fs : tree_ok fs0 → unpacked d (packed m img src fs0) fs →
  scripts_at (d ++ ["scripts"%string]) (elements_of src) fs0 fs.
Proof.
  intros Hok Hu. assert (Hin : ∀ rel n, ("scripts"%string :: rel, n) ∈ packed m img src fs0 ↔ rel ≠ [] ∧ fs0 !! (elements_of src ++ rel) = Some n).
  { intros rel n. unfold packed. rewrite !elem_of_cons, saved_spec by done. naive_solver. }
  split.
  - intros rel data Hne Hf. rewrite <- app_assoc. by apply (up_file _ _ _ Hu), Hin.
  - intros rel n Hne Hn. rewrite <- app_assoc in Hn. destruct n as [|data].
    + destruct (up_dirs _ _ _ Hu _ Hn) as [|(l & n & Hl & Hp & Hnd)]; [done|].
      assert (Hl' : ∃ rel', l = "scripts"%string :: rel' ∧ rel `prefix_of` rel').
      { destruct l as [|e l]; [by apply prefix_nil_inv in Hp|]. pose proof (prefix_cons_inv_1 _ _ _ _ Hp) as <-.
        exists l. split; [done|]. by eapply prefix_cons_inv_2. }
      destruct Hl' as (rel' & -> & Hpre). apply Hin in Hl as [_ Hl]. destruct (decide (rel = rel')) as [<-|Hr].
      * rewrite Hl, Hnd by done. done.
      * assert (fs0 !! (elements_of src ++ rel) = Some FDir) as ->; [|done].
        eapply ancestors; [done|eauto|destruct Hpre as [k ->]; exists k; by rewrite app_assoc|]. intros Hx. by apply app_inv_head in Hx.
    + apply (up_file _ _ _ Hu), Hin in Hn as [_ ->]. done.
Qed.

Section extracted.
Context `{Archives, ManifestJson}.

Lemma finish_spec dest fs x : has_prefix "/" dest = true → ex_db x ≠ ""%string → ex_scripts x = ""%string →
  let x' := extract_finish dest fs x in
  ex_db x' = ex_db x ∧ ex_scripts x' = (if decide (fs !! (elements_of dest ++ ["scripts"%string]) = Some FDir)
    then rooted (elements_of dest ++ ["scripts"%string]) else ""%string).
Proof.
  intros Hd Hdb Hs. assert (Hel : Forall element ["scripts"%string]) by (apply Forall_singleton; split; [done|set_solver]).
  assert (Hdir : is_dir (join_path [dest; "scripts"%string]) fs = bool_decide (fs !! (elements_of dest ++ ["scripts"%string]) = Some FDir)).
  { unfold is_dir, Stat. by rewrite join_elements, elements_joined. }
  unfold extract_finish. rewrite Hdir. rewrite (join_elements dest ["scripts"%string]) by done. apply String.eqb_neq in Hdb.
  case_bool_decide; [rewrite decide_True by done|rewrite decide_False by done];
    destruct (is_dir (join_path [dest; "uploads"%string]) fs); cbn -[String.eqb rooted]; by rewrite Hdb.
Qed.

Lemma take_prefix p t n : str_take (String.length p + n) (p +:+ t) = p +:+ str_take n t.
Proof. induction p as [|a p IH]; [done|]. simpl. by rewrite IH. Qed.

(** The start of a file decides how it is read. *)
Lemma header_spec p s : (String.length p <= 512)%nat → has_prefix p s = true → ∃ t, str_take 512 s = p +:+ t.
Proof.
  intros Hl [t ->]%has_prefix_spec. exists (str_take (512 - String.length p) t). rewrite <- take_prefix.
  by replace (String.length p + (512 - String.length p))%nat with 512%nat by lia.
Qed.

Lemma unpack_packed dest m img src fs0 fs : tree_ok fs0 → has_prefix "/" dest = true → unpacked (elements_of dest) [] fs →
  ∃ fs' x, extract_entries dest (entry_of_item <$> (item_at <$> packed m img src fs0)) fs no_backup = (fs', inl x) ∧
    let x' := extract_finish dest fs' x in
    ex_db x' = rooted (elements_of dest ++ ["stugan.db"%string]) ∧
    fs' !! (elements_of dest ++ ["stugan.db"%string]) = Some (FFile img) ∧
    scripts_at (elements_of dest ++ ["scripts"%string]) (elements_of src) fs0 fs' ∧
    ex_scripts x' = (if decide (fs' !! (elements_of dest ++ ["scripts"%string]) = Some FDir)
       then rooted (elements_of dest ++ ["scripts"%string]) else ""%string).
Proof.
  intros Hok Hd Hu. destruct (unpack_all dest (packed m img src fs0) Hd [] fs no_backup) as (fs' & x & He & Hu' & Hs & Hdb);
    [by apply packed_consistent|done|]. exists fs', x. split; [done|]. cbv zeta.
  change (existsb is_db (packed m img src fs0)) with true in Hdb. cbn iota in Hdb.
  destruct (finish_spec dest fs' x Hd) as [-> ->]; [by rewrite Hdb|done|]. split_and!; [done| | |done].
  - apply (up_file _ _ _ Hu'). right. by left.
  - by eapply unpacked_scripts.
Qed.

(** Extracting an archive that was created. *)
Lemma extract_created o fs0 dest fs m img body : tree_ok fs0 → names_plain (elements_of (co_scripts o)) fs0 → ArchiveLaws H →
  manifest_json (co_manifest o) = Some m → given (co_db o) = true → ReadFile (co_db o) fs0 = Some img →
  given (co_scripts o) = true → co_uploads o = ""%string → has_prefix sqlite_magic img = true →
  (Create o fs0).1 = body → has_prefix "/" dest = true → unpacked (elements_of dest) [] fs →
  body ≠ ""%string ∧ ∃ fs' x, Extract body dest fs = (fs', inl x) ∧ ex_db x = rooted (elements_of dest ++ ["stugan.db"%string]) ∧
    fs' !! (elements_of dest ++ ["stugan.db"%string]) = Some (FFile img) ∧
    match co_format o with
    | FormatSQLite => ex_scripts x = ""%string
    | _ => scripts_at (elements_of dest ++ ["scripts"%string]) (elements_of (co_scripts o)) fs0 fs' ∧
           ex_scripts x = (if decide (fs' !! (elements_of dest ++ ["scripts"%string]) = Some FDir)
             then rooted (elements_of dest ++ ["scripts"%string]) else ""%string)
    end.
Proof.
  intros Hok Hpl HL Hm Hgd Hr Hgs Hup Himg <- Hd Hu. unfold Create.
  pose proof (collect_packed o fs0 m img Hok Hm Hgd Hr Hgs Hup) as Hc. set (L := packed m img (co_scripts o) fs0) in *.
  pose proof (packed_items m img (co_scripts o) fs0 Hok Hpl) as Hit. fold L in Hit.
  destruct (unpack_packed dest m img (co_scripts o) fs0 fs Hok Hd Hu) as (fs' & x & He & Hx). fold L in He. cbv zeta in Hx.
  assert (HLn : item_at <$> L ≠ []) by (unfold L, packed; by rewrite fmap_cons).
  destruct (co_format o).
  - unfold createTarGz. rewrite Hc. cbn [fst]. destruct (header_spec gzip_magic _ ltac:(cbn; lia) (tar_starts (item_at <$> L))) as [t Ht].
    split; [by intros Hz; rewrite Hz in Ht|]. exists fs', (extract_finish dest fs' x). split; [|by destruct Hx as (? & ? & ?)]. unfold Extract. rewrite Ht.
    change (has_prefix sqlite_magic (gzip_magic +:+ t)) with false. change (has_prefix zip_magic (gzip_magic +:+ t)) with false.
    rewrite prefix_app. cbn iota. unfold extractTarGz. rewrite untar_tar by done. by rewrite He.
  - unfold createZip. rewrite Hc. cbn [fst]. destruct (header_spec zip_magic _ ltac:(cbn; lia) (zip_starts (item_at <$> L) HLn)) as [t Ht].
    split; [by intros Hz; rewrite Hz in Ht|]. exists fs', (extract_finish dest fs' x). split; [|by destruct Hx as (? & ? & ?)]. unfold Extract. rewrite Ht.
    change (has_prefix sqlite_magic (zip_magic +:+ t)) with false. rewrite prefix_app. cbn iota. unfold extractZip. rewrite unzip_zip by done. by rewrite He.
  - clear He Hx fs' x. unfold createRawDB. unfold given in Hgd. apply negb_true_iff in Hgd. rewrite Hgd, Hr. cbn [fst].
    destruct (header_spec sqlite_magic _ ltac:(cbn; lia) Himg) as [t Ht].
    split; [by intros Hz; rewrite Hz in Ht|]. unfold Extract. rewrite Ht, prefix_app.
    assert (Hel : Forall element ["stugan.db"%string]) by (apply Forall_singleton; split; [done|set_solver]). rewrite join_elements by done.
    rewrite (write_granted _ img fs (elements_of dest) "stugan.db"); [|by apply elements_joined|apply Hu|].
    + eexists _, _. split; [done|]. cbn [ex_db ex_scripts]. by rewrite lookup_insert_eq.
    + intros Hf. apply (up_dirs _ _ _ Hu) in Hf as [|(? & ? & ?%not_elem_of_nil & _)]; done.
Qed.
End extracted.

(** ** Restoring *)

Section restored.
Variables (src dest : path) (fs0 : files).
Hypotheses (Hok0 : tree_ok fs0) (Hsrc : Forall element src) (Hdest : Forall element dest) (Hapart : ∀ p q, dest ++ p ≠ src ++ q).

(** What was copied so far is there, the source is as it was, and nothing that
    is there already stands in the way. *)
Record restored (W : list (path * fnode)) (fs : files) : Prop := {
  rs_ok : tree_ok fs;
  rs_dir : fs !! dest = Some FDir;
  rs_source : ∀ p, fs !! (src ++ p) = fs0 !! (src ++ p);
  rs_kind : ∀ rel n n', fs0 !! (src ++ rel) = Some n → fs !! (dest ++ rel) = Some n' → kind n = kind n';
  rs_files : ∀ rel data, rel ≠ [] → (src ++ rel, FFile data) ∈ W → fs !! (dest ++ rel) = Some (FFile data);
}.

Lemma restored_skip W fs e : restored W fs → (∀ rel data, rel ≠ [] → e ≠ (src ++ rel, FFile data)) → restored (W ++ [e]) fs.
Proof.
  intros [? ? ? ? Hf] He. split; [done..|]. intros rel data Hne [Hin|Hin%list_elem_of_singleton]%elem_of_app; [by apply Hf|].
  by destruct (He rel data Hne).
Qed.

Lemma restored_way fs rel data : restored [] fs → fs0 !! (src ++ rel) = Some (FFile data) →
  ∀ q old, q `prefix_of` dest ++ removelast rel → fs !! q ≠ Some (FFile old).
Proof.
  intros Hr Hn q old Hq Hf. destruct (prefix_weak_total q dest (dest ++ removelast rel)) as [Hx|[p ->]]; [done|by eexists|..].
  - pose proof (rs_dir _ _ Hr). destruct (decide (q = dest)) as [->|Hne]; [congruence|].
    assert (fs !! q = Some FDir); [|congruence]. by eapply ancestors; [eapply rs_ok|eauto|..].
  - destruct Hq as [k Hk]. rewrite <- app_assoc in Hk. apply app_inv_head in Hk.
    destruct rel as [|z r _] using rev_ind; [symmetry in Hk; apply app_nil in Hk as [-> ->]|rewrite removelast_last in Hk].
    + rewrite app_nil_r in *. pose proof (rs_dir _ _ Hr). congruence.
    + assert (Hd : fs0 !! (src ++ p) = Some FDir).
      { eapply ancestors; [done|eauto|exists (k ++ [z]); by rewrite <- app_assoc, Hk, <- app_assoc|].
        rewrite Hk. intros Hx%app_inv_head. apply (f_equal length) in Hx. rewrite !length_app in Hx. simpl in Hx. lia. }
      pose proof (rs_kind _ _ Hr _ _ _ Hd Hf). done.
Qed.

Lemma restored_weaken W fs : restored W fs → restored [] fs.
Proof. intros [? ? ? ? _]. split; [done..|]. by intros ? ? ? ?%not_elem_of_nil. Qed.

Lemma restored_put W l z data fs fs1 : restored W fs → fs0 !! (src ++ l ++ [z]) = Some (FFile data) → (∀ n, (src ++ l ++ [z], n) ∉ W) →
  tree_ok fs1 → dirs_to (dest ++ l) fs fs1 → fs1 !! (dest ++ l) = Some FDir →
  fs1 !! (src ++ l ++ [z]) = Some (FFile data) ∧ fs1 !! ((dest ++ l) ++ [z]) ≠ Some FDir ∧
  restored (W ++ [(src ++ l ++ [z], FFile data)]) (<[(dest ++ l) ++ [z] := FFile data]> fs1).
Proof.
  intros Hr Hn Hfresh Hok1 Hds Hhere. rewrite <- app_assoc.
  assert (Hs1 : ∀ p, fs1 !! (src ++ p) = fs0 !! (src ++ p)).
  { intros p. rewrite <- (rs_source _ _ Hr p). destruct (Hds (src ++ p)) as [|(_ & _ & [k Hk])]; [done|].
    rewrite <- app_assoc in Hk. by apply Hapart in Hk. }
  assert (Hk1 : ∀ rel n n', fs0 !! (src ++ rel) = Some n → fs1 !! (dest ++ rel) = Some n' → kind n = kind n').
  { intros rel n n' Hrel Hx. destruct (Hds (dest ++ rel)) as [He|(_ & He & [k Hk])]; [rewrite He in Hx; by eapply (rs_kind _ _ Hr)|].
    rewrite He in Hx. injection Hx as <-. rewrite <- app_assoc in Hk. apply app_inv_head in Hk.
    assert (Hd : fs0 !! (src ++ rel) = Some FDir); [|by rewrite Hd in Hrel; injection Hrel as <-].
    apply (ancestors _ _ (src ++ l ++ [z])); [done|eauto|exists (k ++ [z]); by rewrite Hk, <- !app_assoc|].
    rewrite Hk. intros Hx%app_inv_head. apply (f_equal length) in Hx. rewrite !length_app in Hx. simpl in Hx. lia. }
  assert (Hel : element z).
  { pose proof (tk_element _ Hok0 _ (mk_is_Some _ _ Hn)) as Hx.
    apply Forall_app in Hx as [_ [_ Hx]%Forall_app]. by apply Forall_cons in Hx as [? _]. }
  assert (Hnd : fs1 !! (dest ++ l ++ [z]) ≠ Some FDir) by (intros Hx; by apply (Hk1 _ _ _ Hn) in Hx).
  split; [by rewrite Hs1|]. split; [done|]. split.
  - rewrite (app_assoc dest l) in *. by apply tree_insert.
  - rewrite lookup_insert_ne; [eapply kept_dir; [by eapply dirs_kept|apply Hr]|]. intros Hx. apply (f_equal length) in Hx.
    rewrite !length_app in Hx. simpl in Hx. lia.
  - intros p. rewrite lookup_insert_ne; [done|]. apply Hapart.
  - intros rel n n' Hrel. destruct (decide (dest ++ l ++ [z] = dest ++ rel)) as [Hx|Hx].
    + rewrite Hx, lookup_insert_eq. intros [= <-]. apply app_inv_head in Hx as <-. rewrite Hn in Hrel. by injection Hrel as <-.
    + rewrite lookup_insert_ne by done. by apply Hk1.
  - intros rel data' Hne Hin. destruct (decide (l ++ [z] = rel)) as [<-|Hx].
    + rewrite lookup_insert_eq. apply elem_of_app in Hin as [Hin|[= ->]%list_elem_of_singleton]; [|done]. by apply Hfresh in Hin.
    + rewrite lookup_insert_ne by (intros Hy; by apply app_inv_head in Hy).
      apply elem_of_app in Hin as [Hin|[= Hy _]%list_elem_of_singleton]; [|by apply app_inv_head in Hy].
      pose proof (rs_files _ _ Hr rel data' Hne Hin) as Hf. destruct (Hds (dest ++ rel)) as [->|(Hf' & _)]; [done|congruence].
Qed.
End restored.

Lemma mkdir_exists p fs : tree_ok fs → fs !! elements_of p = Some FDir → (@MkdirAll granted p fs).1 = fs.
Proof.
  intros Hok Hd. destruct (MkdirAll p fs) as [fs' b] eqn:Hm. apply mkdir_all_spec in Hm as (_ & Hds & _); [|done].
  apply map_eq. intros q. destruct (Hds q) as [|(Hn & _ & Hp)]; [done|]. exfalso.
  destruct (decide (q = elements_of p)) as [->|Hne]; [congruence|].
  assert (fs !! q = Some FDir); [|congruence]. by eapply ancestors; [|eauto|..].
Qed.

Section restoring.
Variables (src dest : string) (fs0 : files).
Hypotheses (Hok0 : tree_ok fs0) (Hd : has_prefix "/" dest = true)
  (Hapart : ∀ p q, elements_of dest ++ p ≠ elements_of src ++ q).

Notation restored := (restored (elements_of src) (elements_of dest) fs0).

Lemma restored_step W fs rel n : restored W fs → fs0 !! (elements_of src ++ rel) = Some n → (∀ m, (elements_of src ++ rel, m) ∉ W) →
  restored (W ++ [(elements_of src ++ rel, n)]) (restore_one src dest fs (elements_of src ++ rel, n)).
Proof.
  intros Hr Hn Hfresh. pose proof (tk_element _ Hok0 _ (mk_is_Some _ _ Hn)) as Hq. unfold restore_one. cbn [fst snd]. destruct n as [|data].
  { apply restored_skip; [done|]. by intros. }
  destruct (String.eqb_spec (rel_path src (elements_of src ++ rel)) ".") as [Hdot|Hdot].
  { apply restored_skip; [done|]. intros rel' data' Hne [= Hx _]. apply app_inv_head in Hx as <-. unfold rel_path in Hdot.
    rewrite drop_app_length in Hdot. apply Forall_app in Hq as [_ Hq]. pose proof (joined_not_dot rel Hne Hq). by destruct rel. }
  destruct (rel_joined src dest _ Hd Hq Hdot) as (l & Hne & Hl & Hlr & ->). rewrite drop_app_length in Hlr. subst l.
  assert (Hpd : elements_of (path_dir (rooted (elements_of dest ++ rel))) = elements_of dest ++ removelast rel).
  { rewrite parent_joined by done. by rewrite removelast_app. }
  destruct (mkdir_granted (path_dir (rooted (elements_of dest ++ rel))) fs) as (fs1 & -> & Hok1 & Hds & Hhere); [apply Hr| |].
  { rewrite Hpd. eapply (restored_way (elements_of src) (elements_of dest) fs0); [done|by eapply restored_weaken|done]. }
  rewrite Hpd in Hds, Hhere. cbn [fst]. destruct rel as [|z l _] using rev_ind; [done|]. rewrite removelast_last in Hds, Hhere.
  destruct (restored_put _ _ _ Hok0 Hapart _ _ _ _ _ _ Hr Hn Hfresh Hok1 Hds Hhere) as (Hread & Hnd & Hput).
  unfold ReadFile, Stat. rewrite elements_rooted by done. rewrite Hread. cbn [Files.os_read granted].
  rewrite (write_granted _ data fs1 (elements_of dest ++ l) z); [done| |done|done]. by rewrite elements_joined, app_assoc.
Qed.

Lemma restored_fold W2 : ∀ W1 fs, NoDup (W1 ++ W2).*1 → (∀ q n, (q, n) ∈ W2 → fs0 !! q = Some n ∧ elements_of src `prefix_of` q) →
  restored W1 fs → restored (W1 ++ W2) (foldl (restore_one src dest) fs W2).
Proof.
  induction W2 as [|[q n] W2 IH]; intros W1 fs Hnd Hw Hr; [by rewrite app_nil_r|]. cbn [foldl].
  destruct (Hw q n ltac:(by left)) as [Hn [rel ->]]. rewrite cons_middle, app_assoc in Hnd |- *. apply IH; [done| |].
  - intros q' n' Hin. apply Hw. by right.
  - apply restored_step; [done..|]. intros m Hin. rewrite !fmap_app, <- app_assoc in Hnd. apply NoDup_app in Hnd as (_ & Hdj & _).
    apply (Hdj (elements_of src ++ rel)); [apply list_elem_of_fmap; by exists (elements_of src ++ rel, m)|]. set_solver.
Qed.

(** Every script is restored. *)
Lemma restore_all : src ≠ ""%string → fs0 !! elements_of dest = Some FDir →
  (∀ rel n n', fs0 !! (elements_of src ++ rel) = Some n → fs0 !! (elements_of dest ++ rel) = Some n' → kind n = kind n') →
  ∀ rel data, rel ≠ [] → fs0 !! (elements_of src ++ rel) = Some (FFile data) →
    restore_scripts src dest fs0 !! (elements_of dest ++ rel) = Some (FFile data).
Proof.
  intros Hs Hdir Hk rel data Hne Hf. unfold restore_scripts. rewrite (proj2 (String.eqb_neq _ _) Hs).
  assert (Hdne : dest ≠ ""%string) by by intros ->. rewrite (proj2 (String.eqb_neq _ _) Hdne). cbn [negb andb].
  rewrite mkdir_exists by done. assert (Hr : restored ([] ++ Walk src fs0) (foldl (restore_one src dest) fs0 (Walk src fs0))).
  { apply restored_fold; [apply walk_nodup|intros q n; apply walk_spec|]. split; [done..|]. by intros ? ? ? ?%not_elem_of_nil. }
  apply (rs_files _ _ _ _ _ Hr); [done|]. apply walk_spec. split; [done|by eexists].
Qed.
End restoring.

(** ** The handlers *)

Lemma single_element e : no_byte SLASH e = true → e ∉ [""; "."; ".."]%string → Forall element [e].
Proof. intros. by apply Forall_singleton. Qed.

#[local] Hint Extern 1 (Forall element [_]) => apply single_element; [done|set_solver] : core.

(** A place in a new directory. *)
Lemma scratch_child t fs fs1 l : tree_ok fs → Mkdir t fs = Some fs1 → l ≠ [] → fs1 !! (elements_of t ++ l) = None.
Proof.
  intros Hok Hm Hl. pose proof (mkdir_spec _ _ _ Hok Hm) as (_ & -> & _).
  rewrite lookup_insert_ne by (intros Hx; apply (f_equal length) in Hx; rewrite length_app in Hx; destruct l; simpl in Hx; [done|lia]).
  eapply (scratch_below t); [done|exact Hm|by eexists].
Qed.

Lemma scratch_dir t fs fs1 : tree_ok fs → Mkdir t fs = Some fs1 → fs1 !! elements_of t = Some FDir ∧ tree_ok fs1.
Proof. intros Hok Hm. pose proof (mkdir_spec _ _ _ Hok Hm) as (_ & -> & ?). by rewrite lookup_insert_eq. Qed.

Lemma scratch_write t name data fs1 : tree_ok fs1 → has_prefix "/" t = true → Forall element [name] →
  fs1 !! elements_of t = Some FDir → fs1 !! (elements_of t ++ [name]) ≠ Some FDir →
  WriteFile (join_path [t; name]) data fs1 = Some (<[elements_of t ++ [name] := FFile data]> fs1) ∧
  evolves (elements_of t) fs1 (<[elements_of t ++ [name] := FFile data]> fs1).
Proof.
  intros Hok Ht Hel Hd Hn. rewrite (join_elements t) by done.
  assert (Hw : WriteFile (rooted (elements_of t ++ [name])) data fs1 = Some (<[elements_of t ++ [name] := FFile data]> fs1)).
  { apply write_granted; [by apply elements_joined|done..]. }
  split; [done|]. by eapply write_joined_evolves.
Qed.

Section handlers.
Context `{UnicodeTables, Archives, ManifestJson, DbFile, SqlHost, StoreJson}.

(** The files an archive is made from: a snapshot in a new directory. *)
Lemma snapshot_taken t d fs fs1 : tree_ok fs → has_prefix "/" t = true → Mkdir t fs = Some fs1 →
  ∃ fs2, store_backup (join_path [t; "stugan.db"%string]) d fs1 = Some fs2 ∧ evolves (elements_of t) fs1 fs2 ∧
    ReadFile (join_path [t; "stugan.db"%string]) fs2 = Some (db_image d) ∧ given (join_path [t; "stugan.db"%string]) = true.
Proof.
  intros Hok Ht Hm. destruct (scratch_dir _ _ _ Hok Hm) as [Hd Hok1]. assert (Hel : Forall element ["stugan.db"%string]) by auto.
  assert (Hn : fs1 !! (elements_of t ++ ["stugan.db"%string]) = None) by by apply (scratch_child t fs fs1).
  destruct (scratch_write t "stugan.db" (db_image d) fs1 Hok1 Ht Hel Hd ltac:(by rewrite Hn)) as [Hw He].
  assert (Hj : elements_of (join_path [t; "stugan.db"%string]) = elements_of t ++ ["stugan.db"%string]) by (rewrite join_elements by done; by apply elements_joined).
  eexists. unfold store_backup. rewrite remove_absent by (done || by rewrite Hj). split; [exact Hw|]. split; [done|]. split.
  - unfold ReadFile, Stat. by rewrite Hj, lookup_insert_eq.
  - unfold given. rewrite (proj2 (String.eqb_neq _ _)); [done|]. rewrite join_elements by done. unfold rooted. by destruct (str_join _ _).
Qed.

(** The directory an upload is unpacked in. *)
Lemma upload_prepared t data fs fs1 : tree_ok fs → has_prefix "/" t = true → Mkdir t fs = Some fs1 →
  ∃ fs2 fs3, WriteFile (join_path [t; "upload.archive"%string]) "" fs1 = Some fs2 ∧
    MkdirAll (join_path [t; "extracted"%string]) (default fs2 (WriteFile (join_path [t; "upload.archive"%string]) data fs2)) = (fs3, true) ∧
    evolves (elements_of t) fs1 fs3 ∧ unpacked (elements_of t ++ ["extracted"%string]) [] fs3.
Proof.
  intros Hok Ht Hm. destruct (scratch_dir _ _ _ Hok Hm) as [Hd Hok1]. set (u := elements_of t ++ ["upload.archive"%string]).
  assert (Hchild : ∀ l, l ≠ [] → fs1 !! (elements_of t ++ l) = None) by (intros; by apply (scratch_child t fs fs1)).
  assert (Htu : elements_of t ≠ u) by (intros Hx; apply (f_equal length) in Hx; unfold u in Hx; rewrite length_app in Hx; simpl in Hx; lia).
  destruct (scratch_write t "upload.archive" "" fs1 Hok1 Ht ltac:(auto) Hd ltac:(by rewrite Hchild)) as [Hw1 He1]. fold u in Hw1, He1.
  set (fs2 := <[u := FFile ""]> fs1) in *. pose proof (ev_ok _ _ _ He1) as Hok2.
  assert (Hd2 : fs2 !! elements_of t = Some FDir) by (unfold fs2; by rewrite lookup_insert_ne).
  destruct (scratch_write t "upload.archive" data fs2 Hok2 Ht ltac:(auto) Hd2) as [Hw2 He2]; [fold u; unfold fs2; by rewrite lookup_insert_eq|].
  fold u in Hw2, He2. set (fs3 := <[u := FFile data]> fs2) in *. pose proof (ev_ok _ _ _ He2) as Hok3.
  assert (Hj : elements_of (join_path [t; "extracted"%string]) = elements_of t ++ ["extracted"%string]) by (rewrite join_elements by auto; by apply elements_joined; auto).
  assert (Hx3 : ∀ l, elements_of t ++ "extracted"%string :: l ≠ u) by (unfold u; intros l Hx; by apply app_inv_head in Hx).
  assert (Hn3 : ∀ l, fs3 !! (elements_of t ++ "extracted"%string :: l) = None).
  { intros l. unfold fs3, fs2. rewrite !lookup_insert_ne by (intros E; by apply (Hx3 l)). by apply Hchild. }
  destruct (mkdir_granted (join_path [t; "extracted"%string]) fs3 Hok3) as (fs4 & Hm4 & Hok4 & Hds & Hhere).
  { rewrite Hj. intros q old Hq Hf. destruct (prefix_snoc _ _ _ Hq) as [Hq'|Hq']; [|subst q; by rewrite Hn3 in Hf].
    assert (Hd3 : fs3 !! elements_of t = Some FDir) by (unfold fs3; by rewrite lookup_insert_ne).
    destruct (decide (q = elements_of t)) as [->|Hne]; [congruence|]. assert (fs3 !! q = Some FDir); [|congruence].
    by eapply ancestors; [|eauto|..]. }
  exists fs2, fs4. rewrite Hw2. cbn [default from_option id]. split; [done|]. split; [done|]. rewrite Hj in Hds, Hhere. split.
  - eapply evolves_trans; [exact He1|]. eapply evolves_trans; [exact He2|]. eapply mkdir_evolves; [done| |exact Hm4].
    left. rewrite Hj. by apply prefix_app_r.
  - apply unpacked_nothing; [done|done|]. intros p Hp. rewrite <- app_assoc.
    destruct (Hds (elements_of t ++ ["extracted"%string] ++ p)) as [->|(_ & _ & Hx%prefix_length)]; [apply Hn3|].
    rewrite !length_app in Hx. destruct p; [done|]. simpl in Hx. lia.
Qed.
(** What lies elsewhere stays as it is meanwhile. *)
Lemma scratch_apart t d fs fs1 fs2 rel : tree_ok fs → Mkdir t fs = Some fs1 → evolves (elements_of t) fs1 fs2 →
  fs !! d = Some FDir → ¬ d `prefix_of` elements_of t → ¬ elements_of t `prefix_of` d ++ rel ∧ fs2 !! (d ++ rel) = fs !! (d ++ rel).
Proof.
  intros Hok Hm He Hd Hn. assert (Ht : ¬ elements_of t `prefix_of` d ++ rel).
  { intros Hx. destruct (prefix_weak_total (elements_of t) d (d ++ rel)) as [Hy|Hy]; [done|by eexists| |done].
    pose proof (scratch_below t fs fs1 d Hok Hm Hy). congruence. }
  split; [done|]. by eapply scratch_outside.
Qed.

(** What an account may have, to be exported. *)
Record exportable (t : tenant) (fs : files) : Prop := {
  xp_db : db_ok (tn_db t) ∧ db_folded (tn_db t);
  xp_image : has_prefix sqlite_magic (db_image (tn_db t)) = true ∧ db_attach (db_image (tn_db t)) = Some (snapshot (tn_db t));
  xp_path : has_prefix "/" (tn_scripts t) = true;
  xp_dir : fs !! elements_of (tn_scripts t) = Some FDir;
  xp_names : names_plain (elements_of (tn_scripts t)) fs;
}.

Lemma export_archive a t fmt now dir hb fs : tree_ok fs → a ≠ ""%string → hub_tenant hb a = Some t → exportable t fs →
  has_prefix "/" dir = true → is_Some (Mkdir dir fs) → ¬ elements_of (tn_scripts t) `prefix_of` elements_of dir →
  ∃ fs1 o name, handleExport "GET" (Some a) fmt now (Some dir) hb fs = (fs, BArchive (format_type (format_of fmt)) name (Create o fs1).1) ∧
    tree_ok fs1 ∧ (∀ rel, fs1 !! (elements_of (tn_scripts t) ++ rel) = fs !! (elements_of (tn_scripts t) ++ rel)) ∧
    given (co_db o) = true ∧ ReadFile (co_db o) fs1 = Some (db_image (tn_db t)) ∧
    co_format o = format_of fmt ∧ co_scripts o = tn_scripts t ∧ co_uploads o = ""%string ∧
    co_manifest o = MkManifest 1 "stugan" a now true true false.
Proof.
  intros Hok Ha Ht [_ _ Hp Hd _] Hdir [fs0 Hm] Hn. destruct (snapshot_taken dir (tn_db t) fs fs0 Hok Hdir Hm) as (fs1 & Hb & He & Hr & Hg).
  assert (Hgs : given (tn_scripts t) = true) by (unfold given; by destruct (tn_scripts t)).
  exists fs1, (MkCreateOptions (format_of fmt) (MkManifest 1 "stugan" a now true (given (tn_scripts t)) false)
    (join_path [dir; "stugan.db"%string]) (tn_scripts t) ""). eexists. split.
  - unfold handleExport. cbn [String.eqb negb default from_option id]. change (negb ("GET" =? "GET")%string) with false. cbn iota.
    rewrite (proj2 (String.eqb_neq _ _) Ha), Ht. unfold mkdir_temp. cbn [mbind option_bind]. rewrite Hm. cbn [mbind option_bind].
    rewrite Hb. destruct (Create _ fs1) as [body ok]. rewrite (scratch_undone dir fs fs0 fs1) by done. done.
  - split; [by eapply ev_ok|]. split; [intros rel; by eapply scratch_apart|]. by rewrite Hgs.
Qed.
(** What an account needs, to import. *)
Record importable (t : tenant) (dir : string) (fs : files) : Prop := {
  ip_path : has_prefix "/" (tn_scripts t) = true;
  ip_dir : fs !! elements_of (tn_scripts t) = Some FDir;
  ip_apart : ¬ elements_of (tn_scripts t) `prefix_of` elements_of dir;
}.

(** Restoring from the directory an archive was unpacked in. *)
Lemma restore_extracted dir t src fs fs0 fs1 scripts : tree_ok fs → Mkdir dir fs = Some fs0 → evolves (elements_of dir) fs0 fs1 →
  importable t dir fs → scripts_at ((elements_of dir ++ ["extracted"%string]) ++ ["scripts"%string]) src fs fs1 →
  scripts = (if decide (fs1 !! ((elements_of dir ++ ["extracted"%string]) ++ ["scripts"%string]) = Some FDir)
    then rooted ((elements_of dir ++ ["extracted"%string]) ++ ["scripts"%string]) else ""%string) →
  fs !! src = Some FDir →
  (∀ rel n n', fs !! (src ++ rel) = Some n → fs !! (elements_of (tn_scripts t) ++ rel) = Some n' → kind n = kind n') →
  ∀ rel data, fs !! (src ++ rel) = Some (FFile data) →
    RemoveAll dir (restore_scripts scripts (tn_scripts t) fs1) !! (elements_of (tn_scripts t) ++ rel) = Some (FFile data).
Proof.
  intros Hok Hm He [Hp Hd Ha] Hsa Hsc Hsrc Hk rel data Hf. set (x := (elements_of dir ++ _) ++ _) in *. set (dest := elements_of (tn_scripts t)) in *.
  assert (Hrel : rel ≠ []) by (intros ->; rewrite app_nil_r in Hf; congruence). pose proof (sa_files _ _ _ _ Hsa rel data Hrel Hf) as Hx.
  pose proof (ev_ok _ _ _ He) as Hok1. assert (Hxd : fs1 !! x = Some FDir).
  { eapply ancestors; [done|eauto|by eexists|]. intros Hy. apply (f_equal length) in Hy. rewrite length_app in Hy. destruct rel; [done|simpl in Hy; lia]. }
  rewrite decide_True in Hsc by done. assert (Hxe : Forall element x) by (eapply tk_element; eauto).
  assert (Hes : elements_of scripts = x) by (rewrite Hsc; by apply elements_rooted).
  assert (Hout : ∀ r, ¬ elements_of dir `prefix_of` dest ++ r ∧ fs1 !! (dest ++ r) = fs !! (dest ++ r)) by (intros r; by eapply scratch_apart).
  rewrite remove_all_lookup, decide_False by apply Hout. apply restore_all; rewrite ?Hes; try done.
  - intros p q Hpq. destruct (Hout p) as [Hn _]. apply Hn. fold dest in Hpq. rewrite Hpq. unfold x. rewrite <- !app_assoc. by eexists.
  - rewrite Hsc. by unfold rooted.
  - pose proof (Hout []) as [_ Hy]. rewrite app_nil_r in Hy. exact (eq_trans Hy Hd).
  - intros r n n' Hn Hn'. fold dest in Hn'. rewrite (proj2 (Hout r)) in Hn'. destruct (decide (r = [])) as [->|Hr].
    + rewrite app_nil_r in *. rewrite Hxd in Hn. rewrite Hd in Hn'. by injection Hn as <-; injection Hn' as <-.
    + pose proof (sa_kind _ _ _ _ Hsa r n Hr Hn) as Hkn. destruct (fs !! (src ++ r)) as [m|] eqn:Hsr; [|done].
      injection Hkn as <-. by apply (Hk r).
Qed.

(** C36: an export can be imported.  What [GET /api/export] answers one account
    with, in any of the formats, restores that account's data when it is uploaded
    to another (or the same) one in replace mode, whatever else the request looks
    like: messages, networks, plugin data, read markers and preferences are those
    of the exported database, and, from an archive, every file of the scripts
    directory, however deep, is there again with its contents; the export itself
    leaves no trace.  The file system grants what it is asked for; the containers,
    SQLite and JSON give back what was put into them; no script of one account
    has the place of a directory of the other. *)
Theorem backup_restores hb fs a b ta tb fmt now dir1 dir2 m r `{!ArchiveLaws _} :
  tree_ok fs → a ≠ ""%string → b ≠ ""%string → hub_tenant hb a = Some ta → hub_tenant hb b = Some tb →
  exportable ta fs → importable ta dir1 fs → importable tb dir2 fs →
  has_prefix "/" dir1 = true → is_Some (Mkdir dir1 fs) → has_prefix "/" dir2 = true → is_Some (Mkdir dir2 fs) →
  manifest_json (MkManifest 1 "stugan" a now true true false) = Some m →
  (∀ rel n n', fs !! (elements_of (tn_scripts ta) ++ rel) = Some n → fs !! (elements_of (tn_scripts tb) ++ rel) = Some n' → kind n = kind n') →
  ∃ name body, handleExport "GET" (Some a) fmt now (Some dir1) hb fs = (fs, BArchive (format_type (format_of fmt)) name body) ∧
    (iq_method r = "POST"%string → import_upload r = inl (body, ImportModeReplace) →
     ∃ fs' d, handleImport r (Some b) (Some dir2) hb fs =
         (hb <| hb_tenants ::= <[b := tb <| tn_db := d |>]> |>, fs', BImported ImportModeReplace) ∧
       same_tables (tn_db ta) d ∧
       (format_of fmt ≠ FormatSQLite → ∀ rel data, fs !! (elements_of (tn_scripts ta) ++ rel) = Some (FFile data) →
          fs' !! (elements_of (tn_scripts tb) ++ rel) = Some (FFile data))).
Proof.
  intros Hok Ha Hb Hta Htb Hxp Hipa Hipb Hd1 Hm1 Hd2 [fs0 Hm2] Hmf Hk.
  destruct (export_archive a ta fmt now dir1 hb fs Hok Ha Hta Hxp Hd1 Hm1 (ip_apart _ _ _ Hipa)) as (fs1 & o & name & Hexp & Hok1 & Hsame & Hgd & Hrd & Hfo & Hos & Hou & Hom).
  exists name, (Create o fs1).1. split; [done|]. intros Hpost Hup. destruct Hxp as [[Hdb Hfold] [Himg Hatt] Hpa Hda Hnm].
  destruct (upload_prepared dir2 (Create o fs1).1 fs fs0 Hok Hd2 Hm2) as (fs2 & fs3 & Hw & Hmk & Hev & Hu).
  assert (Hel : Forall element ["extracted"%string]) by auto. set (ext := join_path [dir2; "extracted"%string]) in *.
  assert (Hext : elements_of ext = elements_of dir2 ++ ["extracted"%string]) by (unfold ext; rewrite join_elements by done; by apply elements_joined).
  assert (Hxa : has_prefix "/" ext = true) by (unfold ext; rewrite join_elements by done; apply rooted_prefix).
  rewrite <- Hext in Hu. destruct (extract_created o fs1 ext fs3 m (db_image (tn_db ta)) (Create o fs1).1) as (Hne & fs4 & x & Hx & Hxdb & Hxf & Hxs);
    [done|by rewrite Hos; intros rel; rewrite Hsame; apply Hnm|done|by rewrite Hom|done|done|by rewrite Hos; unfold given; destruct (tn_scripts ta)|done|done|done|done|done|].
  pose proof (extract_evolves _ _ _ _ _ Hxa (ev_ok _ _ _ Hev) Hx) as Hev4. rewrite Hext in Hev4, Hxdb, Hxf, Hxs.
  apply (evolves_weaken _ (elements_of dir2)) in Hev4; [|by eexists]. pose proof (evolves_trans _ _ _ _ Hev Hev4) as Hev'.
  destruct (import_snapshot (tn_db ta) (tn_db tb) Hdb Hfold) as (d & Hd & Hsm).
  exists (RemoveAll dir2 (restore_scripts (ex_scripts x) (tn_scripts tb) fs4)), d. split; [|split; [done|]].
  - unfold handleImport. rewrite Hpost. change (negb ("POST" =? "POST")%string) with false. cbn [default from_option id].
    rewrite (proj2 (String.eqb_neq _ _) Hb), Htb. unfold mkdir_temp. cbn [mbind option_bind]. rewrite Hm2. cbn [mbind option_bind].
    unfold import_in. rewrite Hw, Hup, (proj2 (String.eqb_neq _ _) Hne). unfold import_archive. fold ext. rewrite Hmk. cbn [negb].
    rewrite Hx.
    assert (Hxne : ex_db x ≠ ""%string) by (rewrite Hxdb; by unfold rooted). rewrite (proj2 (String.eqb_neq _ _) Hxne).
    assert (Hrf : ReadFile (ex_db x) fs4 = Some (db_image (tn_db ta))).
    { assert (Hxe : Forall element ((elements_of dir2 ++ ["extracted"%string]) ++ ["stugan.db"%string])).
      { apply (tk_element fs4); [apply Hev'|by rewrite Hxf]. }
      unfold ReadFile, Stat. by rewrite Hxdb, elements_rooted, Hxf by done. }
    unfold store_import. rewrite Hrf. cbn [mbind option_bind]. rewrite Hatt. cbn [mbind option_bind]. by rewrite Hd.
  - intros Hf rel data Hrel. rewrite Hfo in Hxs. destruct (format_of fmt); [| |done];
      destruct Hxs as [Hsa Hsc]; rewrite Hos in Hsa;
      (apply (restore_extracted dir2 tb (elements_of (tn_scripts ta)) fs fs0 fs4); try done);
      (split; [intros rl data0 Hr Hfl; apply (sa_files _ _ _ _ Hsa); [done|by rewrite Hsame]|
               intros rl n Hr Hn; rewrite <- Hsame; by apply (sa_kind _ _ _ _ Hsa)]).
Qed.
End handlers.

(** ** A backup of one account, restored to another *)

#[local] Existing Instance ascii_tables.
#[local] Existing Instance plain_sql.
#[local] Existing Instance plain_json.
#[local] Existing Instance plain_archives.
#[local] Existing Instance plain_archive_laws.
#[local] Existing Instance user_manifest.
#[local] Existing Instance sample_file.

Lemma sample_exportable : exportable (sample_tenant "ann" sample_db) sample_files.
Proof.
  split.
  - split; [split|split].
    + repeat constructor.
    + by repeat constructor.
    + by vm_compute.
    + by vm_compute.
    + by repeat constructor.
    + intros network buffer ts. change (tn_db _) with sample_db. change (db_markers sample_db) with ({[ ("libera", "#go")%string := 5000 ]} : gmap _ Z).
      rewrite lookup_singleton_Some. by intros [[= <- <-] <-].
  - by vm_compute.
  - by vm_compute.
  - by vm_compute.
  - intros p [n Hn]. assert (Hall : forallb (λ e : path * fnode, forallb (no_byte "000") e.1) (map_to_list sample_files) = true) by by vm_compute.
    rewrite forallb_forall in Hall. apply elem_of_map_to_list, list_elem_of_In, Hall in Hn. cbn [fst] in Hn. rewrite forallb_app in Hn.
    apply andb_true_iff in Hn as [_ Hn]. rewrite forallb_forall in Hn. apply Forall_forall. intros e He. by apply Hn, list_elem_of_In.
Qed.

Lemma sample_importable name d : name = "ann"%string ∨ name = "bob"%string → importable (sample_tenant name d) "/tmp/work" sample_files.
Proof.
  intros [->| ->]; (split; [by vm_compute|by vm_compute|]).
  - by intros [k Hk].
  - by intros [k Hk].
Qed.

Lemma sample_kinds rel n n' : sample_files !! (["srv"; "ann"; "scripts"]%string ++ rel) = Some n →
  sample_files !! (["srv"; "bob"; "scripts"]%string ++ rel) = Some n' → kind n = kind n'.
Proof.
  intros Hn Hn'. assert (Hall : forallb (λ e : path * fnode, if decide (take 3 e.1 = ["srv"; "bob"; "scripts"]%string)
    then match sample_files !! (["srv"; "ann"; "scripts"]%string ++ drop 3 e.1) with Some n => Bool.eqb (kind n) (kind e.2) | None => true end
    else true) (map_to_list sample_files) = true) by by vm_compute.
  rewrite forallb_forall in Hall. apply elem_of_map_to_list, list_elem_of_In, Hall in Hn'. cbn [fst snd] in Hn'.
  rewrite decide_True in Hn' by done. change (drop 3 (["srv"; "bob"; "scripts"]%string ++ rel)) with rel in Hn'.
  rewrite Hn in Hn'. by apply eqb_prop in Hn'.
Qed.

Lemma sample_mkdir : is_Some (Mkdir "/tmp/work" sample_files).
Proof.
  assert (Hs : match Mkdir "/tmp/work" sample_files with Some _ => true | None => false end = true) by (vm_compute; reflexivity).
  destruct (Mkdir _ _); [eauto|done].
Qed.

Definition exported : bk_answer :=
  (handleExport "GET" (Some "ann"%string) "zip" 0 (Some "/tmp/work"%string) sample_hub sample_files).2.

Definition exported_body : string := match exported with BArchive _ _ body => body | _ => "" end.

Lemma backup_restores_witness : ∃ name fs d,
  exported = BArchive "application/zip" name exported_body ∧
  handleImport (upload exported_body) (Some "bob"%string) (Some "/tmp/work"%string) sample_hub sample_files =
    (sample_hub <| hb_tenants ::= <["bob"%string := sample_tenant "bob" empty_db <| tn_db := d |>]> |>, fs, BImported ImportModeReplace) ∧
  db_messages d = db_messages sample_db ∧
  fs !! ["srv"; "bob"; "scripts"; "lib"; "util.lua"]%string = Some (FFile "return {}").
Proof.
  pose proof sample_mkdir as Hmk.
  assert (Hta : hub_tenant sample_hub "ann" = Some (sample_tenant "ann" sample_db)) by by vm_compute.
  assert (Htb : hub_tenant sample_hub "bob" = Some (sample_tenant "bob" empty_db)) by by vm_compute.
  assert (Hann : "ann"%string ≠ ""%string) by done.
  assert (Hbob : "bob"%string ≠ ""%string) by done.
  assert (Hup : import_upload (upload exported_body) = inl (exported_body, ImportModeReplace)) by (vm_compute; reflexivity).
  pose proof (backup_restores sample_hub sample_files "ann" "bob" (sample_tenant "ann" sample_db) (sample_tenant "bob" empty_db) "zip" 0
    "/tmp/work" "/tmp/work" "ann" (upload exported_body) sample_tree Hann Hbob Hta Htb sample_exportable
    (sample_importable "ann" sample_db (or_introl eq_refl)) (sample_importable "bob" empty_db (or_intror eq_refl))
    eq_refl Hmk eq_refl Hmk eq_refl sample_kinds) as (name & body & He & Hi).
  assert (Hexp : exported = BArchive "application/zip" name body) by (unfold exported; by rewrite He).
  assert (Hbody : exported_body = body) by (unfold exported_body; by rewrite Hexp). rewrite <- Hbody in *.
  destruct (Hi eq_refl Hup) as (fs & d & Him & Hsm & Hfiles). exists name, fs, d. split; [exact Hexp|]. split; [exact Him|].
  split; [exact (sm_messages _ _ Hsm)|]. apply (Hfiles ltac:(by vm_compute) ["lib"; "util.lua"]%string "return {}"). by vm_compute.
Defined.
